(* ===== verification/_CoqProject ===== *)
-Q . S2P
Prelude.v
Bits.v
RlcPdu.v
TimeStat.v
RlcSdu.v
RlcRxManager.v
RlcTypes.v
RlcTm.v
RlcReassemble.v
RlcUm.v
RlcUmRx.v
RlcUmTx.v
RlcUmLink.v
RlcAm.v
RlcAmRx.v
RlcAmControl.v
RlcAmStatus.v
RlcAmRecv.v
PdcpEntity.v
PdcpRx.v
PdcpRecv.v
PdcpReach.v
PdcpLink.v
SeqArr.v
SdapEntity.v
SdapProofs.v
SdapQos.v
SdapQosProofs.v
NasQos.v
NasQosProofs.v
NasQosSafe.v
Gf2.v
Crc.v
CrcProofs.v
CrcSimd.v
CrcSimdProofs.v
NrTransport.v
NrTransportProofs.v
NrTransportLink.v
Snow3gTables.v
Snow3g.v
Snow3gSpec.v
Snow3gProofs.v
Snow3gMul.v
Snow3gAlgos.v
MacList.v
MacHarq.v
MacHarqProofs.v
MacHarqUl.v
RlcManager.v
RlcEntities.v
RlcManagerProofs.v
MacPdu.v
MacPduUe.v
MacPduProofs.v
MacWalk.v
RlcMac.v
MacPduLink.v
MacPduSafe.v
MacUl.v
MacUlGnb.v
MacUlBsr.v
MacUlGnbProofs.v
MacUlLcp.v
MacUlCe.v
MacUlLink.v
Fapi.v
FapiCodec.v
FapiDl.v
FapiDlProofs.v
FapiUl.v
FapiUlProofs.v
FapiInd.v
FapiIndProofs.v
FapiSrs.v
FapiP7.v
FapiP7Proofs.v
NfapiMsg.v
Nfapi.v
NfapiProofs.v
