(* ===== verification/Prelude.v ===== *)
(** * Verification of the OpenAirInterface 5G user plane

    OpenAirInterface is a 5G (and 4G) radio access network in C: gNB and UE with their
    protocol stack. This development is about the path of a user's packet through the stack
    and what configures it: SDAP, PDCP and RLC ([src/openair2]), the cipher of PDCP
    ([src/openair3/SECU]), the transport blocks of MAC and their checks and segments in the
    physical layer ([src/openair1/PHY/CODING]), the QoS rules that the UE decodes from NAS
    messages ([src/openair3/NAS/NR_UE]), the messages in which MAC and a physical layer in
    another process exchange grants, transport blocks and indications ([src/nfapi]) and the
    containers these use ([src/common/utils]).

    ** The parts and how they interact

    A packet of a PDU session enters SDAP, which finds the QoS flow of an uplink packet with
    the packet filters of the QoS rules, finds the bearer of the flow and may add a header of
    one octet. PDCP numbers the SDU with COUNT, protects and ciphers it; RLC numbers and
    segments it (UM, AM) or passes it (TM) in the grants of MAC. MAC asks the RLC entity of each
    logical channel for PDUs and writes them, behind its control elements, into a transport
    block. The size of the block
    follows from the grant; HARQ processes of MAC keep it until it is acknowledged or has been
    sent often enough; the physical layer adds a check to it, cuts it into segments and
    adds a check to each before coding, and undoes this at the receiver. On the other side MAC
    takes the block apart and hands each RLC PDU to the entity of its channel, RLC
    reassembles, PDCP checks, deciphers, orders and removes duplicates, and SDAP removes its
    header and delivers to GTP-U or to the TUN interface. NAS configures the QoS rules. Between
    MAC and the physical layer, where these are two processes, blocks and grants pass as FAPI
    messages: octets with a header, an id and a body per kind of message; across a network as
    nFAPI messages, in datagrams that are put together again at the other side, where requests
    wait in the buffer of their slot until the physical layer takes them. The
    layers call each other through function pointers kept in the entities; the entities are
    modelled one by one, a call to the next layer is an event in the result, and the theorems
    named "link", "bearer", "uplink" and "downlink" compose two ends.

    ** Files

    - [Prelude], [Bits]: results of C code ([outcome]: returns, stops, undefined, diverges),
      machine integers, byte buffers with checked access, bit strings, record update, tactics.
    - [RlcPdu] (nr_rlc_pdu.c), [RlcSdu] (nr_rlc_sdu.c: SDUs shared by segments, a heap with
      reference counts), [RlcRxManager] (nr_rlc_rx_manager.c), [TimeStat] (time_stat.c),
      [RlcTypes] (nr_rlc_entity.c and .h: the part all entities share).
    - [RlcTm] (nr_rlc_entity_tm.c); [RlcReassemble] (the reassembly loops); [RlcUm]
      (nr_rlc_entity_um.c) with its theorems in [RlcUmRx], [RlcUmTx], [RlcUmLink]; [RlcAm],
      [RlcAmControl], [RlcAmStatus] (nr_rlc_entity_am.c: state and reception, STATUS PDUs
      received, STATUS PDUs sent and the entry points) with theorems in [RlcAmRx],
      [RlcAmRecv].
    - [PdcpEntity] (nr_pdcp_sdu.c, nr_pdcp_entity.c and the security glue
      nr_pdcp_security_nea1/2.c, nr_pdcp_integrity_nia1/2.c) with theorems in [PdcpRx],
      [PdcpRecv], [PdcpReach], [PdcpLink].
    - [SeqArr] (seq_arr.c, find.c); [SdapEntity] (nr_sdap_entity.c, entry points of
      nr_sdap.c) with [SdapProofs]; [SdapQos] (nr_sdap_qos_rule.c) with [SdapQosProofs].
    - [NasQos] (PacketFilter.c, fgsm_lib.c, PduSessionModificationCommand.c,
      PduSessionEstablishmentAccept.c, parts of fgs_nas_lib.c and nr_nas_msg.c) with
      [NasQosProofs] and [NasQosSafe].
    - [Gf2] (functions on bit strings that are linear over exclusive or); [Crc] (crc_byte.c)
      with [CrcProofs]; [CrcSimd] (crc.h, crcext.h: the checks with vector instructions) with
      [CrcSimdProofs]; [NrTransport] (nr_compute_tbs_common.c, nr_segmentation.c and parts of
      nr_dlsch_coding.c and nr_dlsch_decoding.c) with [NrTransportProofs], [NrTransportLink].
    - [Snow3gTables], [Snow3g] (snow3g.c), [Snow3gSpec] (the algorithm as ETSI/SAGE states
      it), [Snow3gProofs] (tables, register, automaton), [Snow3gMul] (multiplication in
      GF(2^64)), [Snow3gAlgos] (ciphering, integrity, the interface to PDCP).
    - [MacList] (NR_list_t of gNB_scheduler_primitives.c); [MacHarq] (the HARQ processes of the
      gNB: parts of gNB_scheduler_primitives.c, _dlsch.c, _ulsch.c and _uci.c) with
      [MacHarqProofs] (downlink) and [MacHarqUl] (uplink).
    - [RlcManager] (nr_rlc_ue_manager.c, nr_rlc_oai_api.c: UEs, bearers, channels, the calls of
      MAC and PDCP; the entities behind a class of function pointers) with [RlcManagerProofs];
      [RlcEntities] (the entities as that class, adding and reconfiguring bearers).
    - [MacWalk] (what decoders of MAC PDUs share);
      [MacPdu] (subheaders of nr_mac.h, control elements and PDU of gNB_scheduler_dlsch.c),
      [MacPduUe] (nr_ue_process_mac_pdu of nr_ue_procedures.c and the end of random access in
      nr_ra_procedures.c) with [MacPduProofs] (the gNB side), [RlcMac] (RLC entities as MAC uses
      them), [MacPduLink] (both ends), [MacPduSafe] (the UE on arbitrary octets).
    - [MacUl] (the uplink PDU at the UE: buffer status, power headroom and logical channel
      prioritization of nr_ue_scheduler.c, control elements of nr_ue_procedures.c, tables of
      nr_mac_common.c), [MacUlGnb] (nr_process_mac_pdu of gNB_scheduler_ulsch.c) with [MacUlBsr]
      (the reports), [MacUlGnbProofs] (the gNB on each part), [MacUlLcp] (the rounds), [MacUlCe]
      (what is before and after the rounds), [MacUlLink] (both ends).
    - [Fapi] (octets of messages: nfapi.c); [FapiCodec] (packing and unpacking related, how the
      relation composes along the code); [FapiDl], [FapiUl], [FapiInd] (bodies of
      nr_fapi_p7.c: DL_TTI, UL_DCI and TX_DATA requests; UL_TTI request; indications) with
      [FapiDlProofs], [FapiUlProofs], [FapiIndProofs]; [FapiSrs] (SRS reports of
      nfapi_nr_p7.c); [FapiP7] (messages: header and body, nr_fapi_p7.c and nr_fapi.c) with
      [FapiP7Proofs].
    - [NfapiMsg] (nfapi_nr_p7.c: header, checksum, messages for synchronisation, whole messages;
      lists of TLVs of nfapi.c); [Nfapi] (segments and datagrams of socket_pnf.c and
      socket_vnf.c, reassembly queues and slot buffers of pnf_p7.c and vnf_p7_common.c) with
      [NfapiProofs].

    Each C function is a definition of the same name; a C struct is a record with the fields
    that matter; loops are fixpoints with the name of the function and of what they do.

    ** What the theorems show

    - RLC: received PDUs of any content never make the UM receiver fail (um_rx_robust), nor
      the AM receiver but in one situation, which is characterised (am_rx_robust,
      am_reception_loops); SDUs are delivered whole, and only such as were sent
      (um_rx_delivers_genuine, am_rx_delivers_genuine, reassembly_exact); a UM link delivers
      exactly what is handed in and drains (um_link_delivers, um_link_drains); TM is a
      bounded queue (tm_fifo); the reception buffer, the sample ring and the bit fields
      implement their abstractions.
    - PDCP: over a channel that loses, repeats and reorders, a bearer delivers only SDUs that
      were sent, in order, none twice (pdcp_bearer_delivers); the invariant of the receiver
      (pdcp_in_order), authentication (pdcp_recv_authenticated), the COUNT found from the SN
      (pdcp_count_reconstructed), no SDU waits for more than two expiries of t-Reordering
      (pdcp_stored_sdu_delivered).
    - SDAP: the invariant of the flow mapping (sdap_mapping_invariant: what holds always, and
      what holds as long as no headers of a default DRB change), transfer in both
      directions between mirrored entities (sdap_uplink, sdap_downlink), the QoS rules as a
      sorted list (qos_rules_refine), the flow chosen for a packet (qos_flow_chosen), prefix
      comparison (ipv6_match_prefix), the container (seq_arr_refines).
    - NAS: the rules a network encodes are the rules SDAP uses (nas_rules_reach_sdap); the
      decoder on arbitrary octets (qos_rule_decoder_safe).
    - Transport blocks: the table driven checks and those with vector instructions equal the
      shift register (crc_routines_exact, crc_simd_exact) and detect every burst no longer
      than the check (crc_check_detects); every size that is computed is divided into equal
      segments of whole octets (tbs_segments_evenly) with the least lifting size
      (get_Zout_least); a block sent is the block received when the decoder returns the
      segments (transport_block_received).
    - Snow 3G: ciphering and integrity as coded, with tables and precomputed products, are
      the algorithms of the specification (snow3g_ciphering_f8, snow3g_integrity_exact), and
      satisfy what the theorems on PDCP assume of a cipher (snow3g_crypto_laws).
    - HARQ: the lists of processes implement lists without duplicates (nr_list_refines); in
      both directions every process is in exactly one list and in the state of that list
      (dl_harq_protocol, ul_harq_well_formed), and what is sent on a process follows the
      protocol of new data indicator and rounds.
    - RLC below MAC: the manager is a finite map of UEs (rlc_manager_refines), PDUs reach the
      entity of their channel (rlc_data_ind_demultiplexes). MAC PDUs of the downlink: what the
      gNB puts into a block is what the UE hands to RLC (dl_mac_pdu_transfer), and the UE copes
      with any octets (dl_mac_pdu_safe), with RLC entities as in [RlcMac]. The uplink, from the grant through logical channel
      prioritization to the gNB (ul_mac_pdu_transfer), and what a buffer status report says
      (bsr_estimate_covers).
    - FAPI: a message of any kind that is packed is unpacked to what the structure held, but for
      fields the octets do not carry (p7_roundtrip); packing stays in the buffer
      (p7_pack_bounded); unpacking any octets stays within the arrays (p7_unpack_safe) and
      rejects a message that was cut (p7_cut_rejected), all but UL_TTI.request, whose unpacker
      does leave its arrays (p7_ul_tti_unsafe).
    - nFAPI: the same for messages behind the longer header, whatever the transport writes into
      it (nfapi_pack_unpack); PNF and VNF put together exactly the messages whose datagrams have
      all come, in any order (reassembly_refines); a request of the VNF is what the physical
      layer of the PNF gets in its slot (request_reaches_phy), once (get_msgs_takes), and a
      message of the PNF is handled at the VNF (indication_reaches_vnf). What goes wrong beyond
      the conditions is at the end of [NfapiProofs].
    - Where the code does not do what it is meant to, theorems say for which states and inputs:
      am_reception_loops (exactly when reception does not end), nas_accept_loops,
      am_status_loses_segments, pdcp_count_underflow, p7_ul_tti_unsafe, nas_lengths_unchecked.
      The conditions of the other theorems leave these cases out, and lemmas beside them
      show what happens there (um_grant_loses_sdu, pdcp_short_pdu_read, dl_groups_differ,
      second_boundary_drops, vnf_overflow, shift_misses, slot_without_buffer).

    ** Bounds, fuel, parameters

    Most loops recurse on the data they walk. Where C loops on a condition, the fixpoint has
    fuel and returns [Diverge] when it runs out; each such loop has a lemma that the fuel the
    model gives is enough (or, for am_reception_loops and nas_accept_loops, that no fuel is).
    Counters of C type int and sizes are numbers without bound where the code keeps them far
    from 2^31 (sizes of buffers). The loop over the subPDUs of a MAC PDU has the octets of the
    PDU as fuel (sub_pdus_safe, loop_padding). A channel's turn in the prioritization takes at
    least three octets per step of the room left, so the length of the grant is enough fuel
    (fill_loop_ok); a further round takes three octets or finds a channel without data, so the
    grant and the number of channels are (lcp_rounds_ok). The loop that asks RLC for PDUs the length of the array for
    their sizes; sequence numbers, COUNT, HFN, lengths in messages and
    statistics wrap at their width.

    Parameters, with the hypotheses that the theorems about them state: the ciphers and
    integrity algorithms below the glue (class [Crypto] with the laws [CryptoLaws]: a cipher
    applied twice gives the data back, lengths are kept; Snow 3G as coded is an instance, AES
    comes from OpenSSL and stays a parameter); the crc32 of zlib, without any hypothesis; the RLC entities under MAC (class [RlcOps] with
    the laws [RlcTx] and [RlcRx], of which TM and UM entities with 6-bit numbers are an
    instance); the policy that divides a block among channels; the sizes of the structures
    of FAPI, which the compiler chooses, the memory that a message is unpacked into, and the
    callbacks for messages and TLVs of a vendor; the times that a PNF answers to DL_NODE_SYNC; what the gNB does with
    the first RRC message of a UE and the factors of its power headroom; [qsort]
    (sorts, permutes); the clock; the acceptance of an SDU by PDCP; what [realloc] leaves in
    new memory.

    ** Not modelled

    Threads, locks, queues and sockets around the entities (the manager and API of PDCP, the
    tick and the callbacks of RLC, the TUN threads of SDAP); logging and tracing; MAC scheduling, RRC, F1, E1, NG and
    Xn procedures, which work on structures of code generated from ASN.1 at build time;
    channel coding, rate matching and signal processing of the physical layer; of nFAPI the
    configuration messages (P5), the sockets and the loops that read them, how the VNF computes
    its synchronisation, and the variants for other byte orders and for Aerial; radio drivers;
    LTE. *)

From stdpp Require Export base gmap list sorting.
From Stdlib Require Export ZArith Lia.
#[global] Open Scope Z_scope.

(** ** Results of C code

    A C function either returns, stops the process ([exit(1)], [AssertFatal],
    [DevAssert]), runs into undefined behaviour (null dereference, access out
    of the bounds of a buffer) or loops for ever. *)
Inductive outcome (A : Type) : Type :=
| Ok (a : A)
| Fatal
| Undef
| Diverge.
Arguments Ok {A} a.
Arguments Fatal {A}.
Arguments Undef {A}.
Arguments Diverge {A}.

#[export] Instance outcome_ret : MRet outcome := @Ok.
#[export] Instance outcome_bind : MBind outcome := λ A B f m,
  match m with Ok a => f a | Fatal => Fatal | Undef => Undef | Diverge => Diverge end.

(** [AssertFatal(b)] / [DevAssert(b)]. *)
Definition assert_fatal (b : bool) : outcome unit := if b then Ok tt else Fatal.

(** [m] returns normally and its result satisfies [P]. *)
Definition returns {A} (m : outcome A) (P : A → Prop) : Prop := ∃ a, m = Ok a ∧ P a.

Lemma returns_ok {A} (a : A) (P : A → Prop) : P a → returns (Ok a) P.
Proof. intros H; exists a; auto. Qed.

Lemma returns_bind {A B} (m : outcome A) (f : A → outcome B) (Q : A → Prop) (P : B → Prop) :
  returns m Q → (∀ a, Q a → returns (f a) P) → returns (m ≫= f) P.
Proof. intros (a & -> & Ha) Hf. exact (Hf a Ha). Qed.

Lemma returns_mono {A} (m : outcome A) (P Q : A → Prop) :
  returns m P → (∀ a, P a → Q a) → returns m Q.
Proof. intros (a & -> & Ha) H. exists a; auto. Qed.

Lemma returns_eq {A} (m : outcome A) (P : A → Prop) a : returns m P → m = Ok a → P a.
Proof. intros (b & -> & Hb) [= ->]. exact Hb. Qed.

Lemma bind_ok_inv {A B} (m : outcome A) (f : A → outcome B) b :
  m ≫= f = Ok b → ∃ a, m = Ok a ∧ f a = Ok b.
Proof. destruct m; cbn; try discriminate; eauto. Qed.

(** ** Machine integers

    Values of C type [int] are represented by [Z]; where the code uses an
    unsigned type of fixed width its wrap-around is written out. *)
Definition u8 (x : Z) : Z := x mod 2 ^ 8.
Definition u32 (x : Z) : Z := x mod 2 ^ 32.
Definition u64 (x : Z) : Z := x mod 2 ^ 64.

Lemma u32_small x : 0 <= x < 2 ^ 32 → u32 x = x.
Proof. apply Z.mod_small. Qed.
Lemma u64_small x : 0 <= x < 2 ^ 64 → u64 x = x.
Proof. apply Z.mod_small. Qed.
Lemma u32_range x : 0 <= u32 x < 2 ^ 32.
Proof. apply Z.mod_pos_bound. lia. Qed.
Lemma u64_range x : 0 <= u64 x < 2 ^ 64.
Proof. apply Z.mod_pos_bound. lia. Qed.

(** C's [a % b] truncates towards zero. *)
Definition cmod (a b : Z) : Z := Z.rem a b.

Lemma cmod_nonneg a b : 0 <= a → 0 < b → cmod a b = a mod b.
Proof. intros Ha Hb. apply Z.rem_mod_nonneg; lia. Qed.

Lemma cmod_range a b : 0 <= a → 0 < b → 0 <= cmod a b < b.
Proof. intros Ha Hb. rewrite cmod_nonneg by lia. apply Z.mod_pos_bound. lia. Qed.

Lemma cmod_small a b : 0 <= a < b → cmod a b = a.
Proof. intros H. apply Z.rem_small. lia. Qed.

(** ** Byte buffers

    A buffer is the list of its bytes as numbers in [0, 256). Reads and writes
    outside of it are undefined. *)
Abbreviation bytes := (list Z).

Definition is_byte (b : Z) : Prop := 0 <= b < 256.
Definition zlen {A} (l : list A) : Z := Z.of_nat (length l).

Definition buf_get (b : bytes) (i : Z) : outcome Z :=
  if i <? 0 then Undef
  else match b !! Z.to_nat i with Some x => Ok x | None => Undef end.

Definition buf_set (b : bytes) (i v : Z) : outcome bytes :=
  if (0 <=? i) && (i <? zlen b) then Ok (<[Z.to_nat i := v]> b) else Undef.

(** the [len] bytes found at offset [off], the source of a [memcpy] *)
Definition buf_sub (b : bytes) (off len : Z) : outcome bytes :=
  if (0 <=? off) && (0 <=? len) && (off + len <=? zlen b)
  then Ok (take (Z.to_nat len) (drop (Z.to_nat off) b)) else Undef.

(** [memcpy(b + off, src, length src)] *)
Definition buf_write (b : bytes) (off : Z) (src : bytes) : outcome bytes :=
  if (0 <=? off) && (off + zlen src <=? zlen b)
  then Ok (take (Z.to_nat off) b ++ src ++ drop (Z.to_nat (off + zlen src)) b) else Undef.

Lemma zlen_nonneg {A} (l : list A) : 0 <= zlen l.
Proof. unfold zlen. lia. Qed.
Lemma zlen_app {A} (l k : list A) : zlen (l ++ k) = zlen l + zlen k.
Proof. unfold zlen. rewrite length_app. lia. Qed.
Lemma zlen_cons {A} (x : A) l : zlen (x :: l) = 1 + zlen l.
Proof. unfold zlen. cbn [length]. lia. Qed.
Lemma zlen_nil {A} : zlen (@nil A) = 0.
Proof. reflexivity. Qed.
Lemma zlen_take {A} (l : list A) n : 0 <= n <= zlen l → zlen (take (Z.to_nat n) l) = n.
Proof. unfold zlen. intros. rewrite length_take. lia. Qed.
Lemma zlen_drop {A} (l : list A) n : 0 <= n <= zlen l → zlen (drop (Z.to_nat n) l) = zlen l - n.
Proof. unfold zlen. intros. rewrite length_drop. lia. Qed.

Lemma buf_get_lookup b i x : b !! Z.to_nat i = Some x → 0 <= i → buf_get b i = Ok x.
Proof. intros H Hi. unfold buf_get. rewrite (proj2 (Z.ltb_ge _ _)) by lia. by rewrite H. Qed.

Lemma buf_get_ok b i : 0 <= i < zlen b → ∃ x, b !! Z.to_nat i = Some x ∧ buf_get b i = Ok x.
Proof.
  intros Hi. destruct (lookup_lt_is_Some_2 b (Z.to_nat i)) as [x Hx].
  { unfold zlen in Hi. lia. }
  exists x. split; [done|]. apply buf_get_lookup; [done|lia].
Qed.

Lemma buf_set_ok b i v : 0 <= i < zlen b → buf_set b i v = Ok (<[Z.to_nat i := v]> b).
Proof.
  intros Hi. unfold buf_set.
  by rewrite (proj2 (Z.leb_le _ _)), (proj2 (Z.ltb_lt _ _)) by lia.
Qed.

Lemma buf_sub_ok b off len :
  0 <= off → 0 <= len → off + len <= zlen b →
  buf_sub b off len = Ok (take (Z.to_nat len) (drop (Z.to_nat off) b)).
Proof.
  intros. unfold buf_sub. by rewrite !(proj2 (Z.leb_le _ _)) by lia.
Qed.

Lemma buf_sub_mid (a b c : bytes) : buf_sub (a ++ b ++ c) (zlen a) (zlen b) = Ok b.
Proof.
  pose proof (zlen_nonneg a). pose proof (zlen_nonneg b). pose proof (zlen_nonneg c).
  rewrite buf_sub_ok by (rewrite ?zlen_app; lia). unfold zlen. rewrite !Nat2Z.id.
  by rewrite drop_app_length, take_app_length.
Qed.

Lemma buf_sub_prefix (b c : bytes) : buf_sub (b ++ c) 0 (zlen b) = Ok b.
Proof. exact (buf_sub_mid [] b c). Qed.

Lemma buf_sub_all (b : bytes) : buf_sub b 0 (zlen b) = Ok b.
Proof. rewrite <- (app_nil_r b) at 1. apply buf_sub_prefix. Qed.

Lemma buf_sub_prefix_len (b c : bytes) n : n = zlen b → buf_sub (b ++ c) 0 n = Ok b.
Proof. intros ->. apply buf_sub_prefix. Qed.

Lemma buf_write_ok b off src :
  0 <= off → off + zlen src <= zlen b →
  buf_write b off src =
    Ok (take (Z.to_nat off) b ++ src ++ drop (Z.to_nat (off + zlen src)) b).
Proof. intros. unfold buf_write. by rewrite !(proj2 (Z.leb_le _ _)) by lia. Qed.

Lemma buf_write_len b off src b' : buf_write b off src = Ok b' → zlen b' = zlen b.
Proof.
  unfold buf_write. destruct (0 <=? off) eqn:H1; [|done]. cbn.
  destruct (off + zlen src <=? zlen b) eqn:H2; [|done]. intros [= <-].
  apply Z.leb_le in H1, H2. pose proof (zlen_nonneg src).
  rewrite !zlen_app, zlen_take, zlen_drop by lia. lia.
Qed.

(** ** Sums over lists *)
Definition sumZ {A} (f : A → Z) (l : list A) : Z := foldr (λ x acc, f x + acc) 0 l.

#[global] Arguments sumZ {A} f l : simpl never.

Lemma sumZ_nil {A} (f : A → Z) : sumZ f [] = 0.
Proof. reflexivity. Qed.
Lemma sumZ_cons {A} (f : A → Z) x l : sumZ f (x :: l) = f x + sumZ f l.
Proof. reflexivity. Qed.
Lemma sumZ_app {A} (f : A → Z) l k : sumZ f (l ++ k) = sumZ f l + sumZ f k.
Proof. induction l as [|x l IH]; cbn [app]; rewrite ?sumZ_nil, ?sumZ_cons, ?IH; lia. Qed.
Lemma sumZ_nonneg {A} (f : A → Z) l : (∀ x, x ∈ l → 0 <= f x) → 0 <= sumZ f l.
Proof.
  induction l as [|x l IH]; intros H; [rewrite sumZ_nil; lia|]. rewrite sumZ_cons.
  specialize (H x ltac:(set_solver)) as Hx.
  assert (0 <= sumZ f l) by (apply IH; intros; apply H; set_solver). lia.
Qed.
Lemma sumZ_ext {A} (f g : A → Z) l : (∀ x, x ∈ l → f x = g x) → sumZ f l = sumZ g l.
Proof.
  induction l as [|x l IH]; intros H; [done|]. rewrite !sumZ_cons.
  rewrite H by set_solver. rewrite IH; [done|]. intros; apply H; set_solver.
Qed.
Lemma sumZ_perm {A} (f : A → Z) l k : l ≡ₚ k → sumZ f l = sumZ f k.
Proof. induction 1; rewrite ?sumZ_cons in *; lia. Qed.

(** ** Search *)

(** Below [n], a test either fails for the first time somewhere or never. *)
Lemma first_false (f : nat → bool) (n : nat) :
  (∃ k, (k < n)%nat ∧ f k = false ∧ ∀ j, (j < k)%nat → f j = true) ∨
  (∀ j, (j < n)%nat → f j = true).
Proof.
  induction n as [|n [(k & Hk & Hf & Hj)|IH]]; [right; lia|left; exists k; split_and!; (done || lia)|].
  destruct (f n) eqn:E.
  - right. intros j Hj. destruct (decide (j = n)) as [->|]; [done|]. apply IH. lia.
  - left. exists n. split_and!; (done || lia).
Qed.

(** ** Record update

    [r <| f := v |>] is [r] with field [f] replaced; a record declares its
    [Eta] instance once and one [Setter] instance per field. *)
Class Eta (R : Type) := eta : R → R.
Class Setter {R T : Type} (proj : R → T) := set_field : T → R → R.
#[global] Arguments set_field {R T} proj {_} _ _ /.

Ltac derive_setter :=
  lazymatch goal with
  | |- @Setter ?R ?T ?proj =>
      let e := constr:(_ : Eta R) in
      let f := constr:(fun (v : T) (r : R) => ltac:(
        let h := lazymatch e with ?h => h end in
        let b := eval cbv beta delta [h eta] in (h r) in
        let p := constr:(proj r) in
        lazymatch eval pattern p in b with
        | ?C _ => let t := eval cbv beta in (C v) in exact t
        end)) in
      exact f
  end.

Declare Scope record_scope.
#[warnings="-postfix-notation-not-level-1"]
Notation "r <| f := v |>" := (set_field f v r)
  (at level 12, left associativity, format "r  <|  f  :=  v  |>") : record_scope.
#[global] Open Scope record_scope.

(** ** Tactics *)
Create HintDb l2 discriminated.

(** case analysis on the boolean comparisons of the code, turned into
    propositions *)
Ltac destr_bool :=
  repeat match goal with
  | H : context [?a <? ?b] |- _ => destruct (Z.ltb_spec a b)
  | H : context [?a <=? ?b] |- _ => destruct (Z.leb_spec a b)
  | H : context [?a =? ?b] |- _ => destruct (Z.eqb_spec a b)
  | |- context [?a <? ?b] => destruct (Z.ltb_spec a b)
  | |- context [?a <=? ?b] => destruct (Z.leb_spec a b)
  | |- context [?a =? ?b] => destruct (Z.eqb_spec a b)
  end.

(** inversion of a chain of [Ok] results *)
Ltac inv_ok :=
  repeat match goal with
  | H : _ ≫= _ = Ok _ |- _ =>
      let a := fresh "r" in let Ha := fresh "E" in
      apply bind_ok_inv in H; destruct H as (a & Ha & H)
  | H : Ok _ = Ok _ |- _ => injection H as H
  | H : Fatal = Ok _ |- _ => discriminate H
  | H : Undef = Ok _ |- _ => discriminate H
  | H : Diverge = Ok _ |- _ => discriminate H
  end.

(** arithmetic over the lengths of lists *)
Ltac zlen_lia :=
  unfold zlen in *;
  rewrite ?length_app, ?length_take, ?length_drop, ?length_insert, ?length_replicate in *;
  cbn [length] in *; lia.
