(* ===== verification/Bits.v ===== *)
(** * Bit strings

    The reference notions the bit-level encoder and decoder of the RLC PDUs are
    compared with: a byte as its eight bits, most significant first, a buffer
    as the concatenation of its bytes' bits, and a number as the value of a bit
    string. *)

From S2P Require Import Prelude.

(** The value of a bit string, most significant bit first. *)
Definition bits_val (bs : list bool) : Z :=
  fold_left (λ acc b, 2 * acc + Z.b2z b) bs 0.

(** The [n] low bits of [v], most significant first. *)
Fixpoint val_bits (n : nat) (v : Z) : list bool :=
  match n with
  | O => []
  | S n' => Z.testbit v (Z.of_nat n') :: val_bits n' v
  end.

Definition byte_bits (b : Z) : list bool := val_bits 8 b.
Definition buf_bits (b : bytes) : list bool := flat_map byte_bits b.

Lemma length_val_bits n v : length (val_bits n v) = n.
Proof. induction n as [|n IH]; cbn; auto. Qed.

Lemma length_buf_bits b : length (buf_bits b) = (8 * length b)%nat.
Proof.
  induction b as [|x b IH]; [done|].
  unfold buf_bits in *. cbn [flat_map]. rewrite length_app, IH.
  unfold byte_bits. rewrite length_val_bits. cbn [length]. lia.
Qed.

Lemma buf_bits_app a b : buf_bits (a ++ b) = buf_bits a ++ buf_bits b.
Proof. unfold buf_bits. apply flat_map_app. Qed.

Lemma buf_bits_cons x b : buf_bits (x :: b) = byte_bits x ++ buf_bits b.
Proof. reflexivity. Qed.

Lemma fold_bits_acc bs acc :
  fold_left (λ acc b, 2 * acc + Z.b2z b) bs acc = acc * 2 ^ zlen bs + bits_val bs.
Proof.
  unfold bits_val. revert acc. induction bs as [|b bs IH]; intros acc.
  { cbn [fold_left]. rewrite zlen_nil. lia. }
  cbn [fold_left]. rewrite IH, (IH (2 * 0 + Z.b2z b)), zlen_cons.
  rewrite Z.pow_add_r by (pose proof (zlen_nonneg bs); lia). lia.
Qed.

Lemma bits_val_cons b bs : bits_val (b :: bs) = Z.b2z b * 2 ^ zlen bs + bits_val bs.
Proof. unfold bits_val at 1. cbn [fold_left]. rewrite fold_bits_acc. lia. Qed.

Lemma bits_val_app a b : bits_val (a ++ b) = bits_val a * 2 ^ zlen b + bits_val b.
Proof. unfold bits_val at 1. rewrite fold_left_app. apply fold_bits_acc. Qed.

Lemma bits_val_snoc a b : bits_val (a ++ [b]) = 2 * bits_val a + Z.b2z b.
Proof. rewrite bits_val_app, zlen_cons, zlen_nil. unfold bits_val at 2. cbn [fold_left]. lia. Qed.

Lemma bits_val_range bs : 0 <= bits_val bs < 2 ^ zlen bs.
Proof.
  induction bs as [|b bs IH]; [unfold zlen, bits_val; cbn; lia|].
  rewrite bits_val_cons, zlen_cons. pose proof (zlen_nonneg bs).
  rewrite Z.pow_add_r by lia. destruct b; cbn [Z.b2z]; lia.
Qed.

(** Reading back the [n] low bits of [v] gives [v] modulo [2^n]. *)
Lemma bits_val_val_bits n v : bits_val (val_bits n v) = v mod 2 ^ Z.of_nat n.
Proof.
  induction n as [|n IH]; [cbn; by rewrite Z.mod_1_r|].
  cbn [val_bits]. rewrite bits_val_cons, IH. unfold zlen. rewrite length_val_bits.
  rewrite Nat2Z.inj_succ, Z.pow_succ_r by lia.
  rewrite (Z.mul_comm 2), Z.rem_mul_r by lia.
  rewrite Z.testbit_eqb by lia.
  pose proof (Z.mod_pos_bound (v / 2 ^ Z.of_nat n) 2 ltac:(lia)).
  destruct (Z.eqb_spec ((v / 2 ^ Z.of_nat n) mod 2) 1); cbn [Z.b2z]; lia.
Qed.

Lemma val_bits_bits_val bs : val_bits (length bs) (bits_val bs) = bs.
Proof.
  induction bs as [|b bs IH]; [done|].
  cbn [length val_bits]. rewrite bits_val_cons. f_equal.
  - rewrite Z.testbit_eqb by lia. pose proof (bits_val_range bs). unfold zlen in *.
    rewrite Z.div_add_l by lia. rewrite (Z.div_small (bits_val bs)) by lia.
    destruct b; done.
  - assert (∀ n v, (n <= length bs)%nat →
      val_bits n (v * 2 ^ zlen bs + bits_val bs) = val_bits n (bits_val bs)) as Hlow.
    { induction n as [|n IHn]; intros v Hn; [done|]. cbn [val_bits].
      rewrite IHn by lia. f_equal. rewrite !Z.testbit_eqb by lia. f_equal.
      unfold zlen. replace (Z.of_nat (length bs)) with
        (Z.of_nat n + 1 + (Z.of_nat (length bs) - Z.of_nat n - 1)) by lia.
      rewrite !Z.pow_add_r by lia. change (2 ^ 1) with 2.
      set (k := 2 ^ (Z.of_nat (length bs) - Z.of_nat n - 1)).
      replace (v * (2 ^ Z.of_nat n * 2 * k) + bits_val bs)
        with (v * k * 2 * 2 ^ Z.of_nat n + bits_val bs) by lia.
      rewrite Z.div_add_l by lia. rewrite Z.add_comm, Z.mod_add by lia. done. }
    rewrite Hlow by lia. exact IH.
Qed.

(** Shifting one bit into a byte, as the encoder does. *)
Lemma byte_bits_shift_in b (c : bool) :
  byte_bits (u8 (2 * b) + Z.b2z c) = drop 1 (byte_bits b) ++ [c].
Proof.
  unfold byte_bits, u8. cbn [val_bits drop app].
  assert (∀ i, (i < 7)%nat →
    Z.testbit ((2 * b) mod 2 ^ 8 + Z.b2z c) (Z.of_nat (S i)) = Z.testbit b (Z.of_nat i)) as Hs.
  { intros i Hi. rewrite Nat2Z.inj_succ.
    replace ((2 * b) mod 2 ^ 8) with (2 * (b mod 2 ^ 7)).
    2:{ change (2 ^ 8) with (2 * 2 ^ 7). rewrite Z.mul_mod_distr_l by lia. done. }
    rewrite Z.testbit_succ_r by lia. apply Z.mod_pow2_bits_low. lia. }
  rewrite !Hs by lia. do 7 f_equal.
  f_equal. change (Z.of_nat 0) with 0. rewrite Z.bit0_odd.
  change (2 ^ 8) with (2 * 2 ^ 7). rewrite Z.mul_mod_distr_l by lia.
  rewrite Z.add_comm, Z.odd_add_mul_2. by destruct c.
Qed.

Lemma u8_shift_in_byte b (c : bool) : is_byte (u8 (2 * b) + Z.b2z c).
Proof.
  unfold is_byte, u8. change (2 ^ 8) with (2 * 2 ^ 7). rewrite Z.mul_mod_distr_l by lia.
  pose proof (Z.mod_pos_bound b (2 ^ 7) ltac:(lia)). destruct c; cbn [Z.b2z]; lia.
Qed.

(** A byte is determined by its bits. *)
Lemma byte_bits_val b : is_byte b → bits_val (byte_bits b) = b.
Proof.
  intros Hb. unfold byte_bits. rewrite bits_val_val_bits.
  apply Z.mod_small. exact Hb.
Qed.

Lemma byte_bits_inj a b : is_byte a → is_byte b → byte_bits a = byte_bits b → a = b.
Proof. intros Ha Hb E. by rewrite <- (byte_bits_val a), E, byte_bits_val. Qed.

(** Setting a bit of a byte. *)
Lemma byte_bits_lor_bit b k :
  (k < 8)%nat →
  byte_bits (Z.lor b (Z.shiftl 1 (Z.of_nat k))) = <[(7 - k)%nat := true]> (byte_bits b).
Proof.
  intros Hk. unfold byte_bits. cbn [val_bits].
  assert (∀ i, Z.testbit (Z.lor b (Z.shiftl 1 (Z.of_nat k))) (Z.of_nat i)
    = if decide (i = k) then true else Z.testbit b (Z.of_nat i)) as Ht.
  { intros i. rewrite Z.lor_spec, Z.shiftl_spec by lia.
    case_decide as Hd.
    - subst. rewrite Z.sub_diag. cbn. by rewrite orb_true_r.
    - destruct (Z.lt_ge_cases (Z.of_nat i) (Z.of_nat k)).
      + rewrite (Z.testbit_neg_r 1) by lia. by rewrite orb_false_r.
      + rewrite (Z.bits_above_log2 1) by (change (Z.log2 1) with 0; lia). by rewrite orb_false_r. }
  rewrite !Ht. do 8 (destruct k as [|k]; [by cbn|]). lia.
Qed.

(** The bit at position [8 * i + k] of a buffer. *)
Lemma buf_bits_lookup (b : bytes) i k x :
  b !! i = Some x → (k < 8)%nat →
  buf_bits b !! (8 * i + k)%nat = Some (Z.testbit x (7 - Z.of_nat k)).
Proof.
  revert i. induction b as [|y b IH]; intros i Hx Hk; [done|].
  rewrite buf_bits_cons. destruct i as [|i].
  - cbn in Hx. injection Hx as ->. rewrite Nat.mul_0_r, Nat.add_0_l.
    unfold byte_bits. cbn [val_bits app].
    do 8 (destruct k as [|k]; [done|]). lia.
  - rewrite lookup_app_r; unfold byte_bits; rewrite length_val_bits; [|lia].
    replace (8 * S i + k - 8)%nat with (8 * i + k)%nat by lia. by apply IH.
Qed.

Lemma lor_mul2_bit a (c : bool) : Z.lor (2 * a) (Z.b2z c) = 2 * a + Z.b2z c.
Proof.
  destruct c; cbn [Z.b2z]; [|rewrite Z.lor_0_r; lia].
  rewrite <- Z.lxor_lor, Z.add_nocarry_lxor; try done.
  all: change 1 with (Z.ones 1) at 1; rewrite Z.land_ones by lia; change (2 ^ 1) with 2.
  all: rewrite Z.mul_comm; apply Z.mod_mul; lia.
Qed.

Lemma lor_shiftl_bit a (c : bool) : Z.lor (Z.shiftl a 1) (Z.b2z c) = 2 * a + Z.b2z c.
Proof.
  rewrite Z.shiftl_mul_pow2, Z.mul_comm by lia. apply lor_mul2_bit.
Qed.

(** A value shifted left and one that fits below it. *)
Lemma lor_shiftl_add a b n : 0 <= n → 0 <= b < 2 ^ n → Z.lor (Z.shiftl a n) b = a * 2 ^ n + b.
Proof.
  intros Hn Hb. rewrite <- Z.shiftl_mul_pow2 by done.
  assert (Z.land (Z.shiftl a n) b = 0) as Hl.
  { apply Z.bits_inj'. intros i Hi. rewrite Z.land_spec, Z.bits_0.
    destruct (Z.ltb_spec i n).
    - by rewrite Z.shiftl_spec_low.
    - destruct (decide (b = 0)) as [->|]; [by rewrite Z.bits_0, andb_false_r|].
      rewrite (Z.bits_above_log2 b i), andb_false_r; [done|lia|]. apply Z.log2_lt_pow2; [lia|].
      eapply Z.lt_le_trans; [apply Hb|]. apply Z.pow_le_mono_r; lia. }
  pose proof (Z.add_lor_land (Z.shiftl a n) b). lia.
Qed.

(** The first bits of a number and of a buffer. *)
Lemma take_val_bits n k v : take n (val_bits (n + k) v) = val_bits n (Z.shiftr v (Z.of_nat k)).
Proof.
  induction n as [|n IH]; [done|]. cbn [Nat.add val_bits take]. rewrite IH. f_equal.
  rewrite Z.shiftr_spec by lia. f_equal. lia.
Qed.

Lemma take_buf_bits_bytes (b : bytes) i : take (8 * i) (buf_bits b) = buf_bits (take i b).
Proof.
  rewrite <- (take_drop i b) at 1. rewrite buf_bits_app.
  destruct (decide (i <= length b)%nat).
  - rewrite take_app_length'; [done|]. rewrite length_buf_bits, length_take. lia.
  - rewrite drop_ge by lia. change (buf_bits []) with (@nil bool). rewrite app_nil_r. apply take_ge.
    rewrite length_buf_bits, length_take. lia.
Qed.
