(* ===== verification/RlcPdu.v ===== *)
(** * RLC PDUs: reception lists, bit decoder, bit encoder

    Models [openair2/LAYER2/nr_rlc/nr_rlc_pdu.c] and [nr_rlc_pdu.h]: the
    received segment [nr_rlc_pdu_t] with the ordered insertion
    [nr_rlc_pdu_list_add], and the most-significant-bit-first decoder and
    encoder all PDU headers go through. A linked list of PDUs is the list of
    its nodes; a freed and nulled [data] pointer is [None]. *)

From S2P Require Import Prelude Bits.

(** ** Data *)
Record nr_rlc_pdu_t := mk_pdu {
  p_sn : Z;
  p_data : option bytes;      (* only SDU bytes, no header; [None] is NULL *)
  p_size : Z;
  p_so : Z;
  p_is_first : bool;
  p_is_last : bool;
}.
#[export] Instance eta_pdu : Eta nr_rlc_pdu_t := λ r,
  mk_pdu (p_sn r) (p_data r) (p_size r) (p_so r) (p_is_first r) (p_is_last r).
#[export] Instance set_p_data : Setter p_data := ltac:(derive_setter).
#[export] Instance set_p_size : Setter p_size := ltac:(derive_setter).

(** [memcpy] of [size] bytes of [data] into a fresh block. *)
Definition nr_rlc_new_pdu (sn so : Z) (is_first is_last : bool) (data : bytes) (size : Z)
  : outcome nr_rlc_pdu_t :=
  d ← buf_sub data 0 size;
  Ok (mk_pdu sn (Some d) size so is_first is_last).

(** Insertion ordered by [sn], then by [so]; after the nodes that compare equal. *)
Fixpoint nr_rlc_pdu_list_add (sn_compare : Z → Z → Z) (l : list nr_rlc_pdu_t)
    (pdu : nr_rlc_pdu_t) : list nr_rlc_pdu_t :=
  match l with
  | [] => [pdu]
  | cur :: next =>
      if (0 <? sn_compare (p_sn cur) (p_sn pdu))
         || ((p_sn cur =? p_sn pdu) && (p_so pdu <? p_so cur))
      then pdu :: cur :: next
      else cur :: nr_rlc_pdu_list_add sn_compare next pdu
  end.

(** ** Decoder *)
Record nr_rlc_pdu_decoder_t := mk_decoder {
  d_error : bool;
  d_byte : Z;                 (* next byte to decode *)
  d_bit : Z;                  (* next bit in next byte to decode *)
  d_buffer : bytes;
  d_size : Z;
}.
#[export] Instance eta_decoder : Eta nr_rlc_pdu_decoder_t := λ r,
  mk_decoder (d_error r) (d_byte r) (d_bit r) (d_buffer r) (d_size r).
#[export] Instance set_d_error : Setter d_error := ltac:(derive_setter).
#[export] Instance set_d_byte : Setter d_byte := ltac:(derive_setter).
#[export] Instance set_d_bit : Setter d_bit := ltac:(derive_setter).

Definition nr_rlc_pdu_decoder_init (buffer : bytes) (size : Z) : nr_rlc_pdu_decoder_t :=
  mk_decoder false 0 0 buffer size.

Definition nr_rlc_pdu_decoder_in_error (d : nr_rlc_pdu_decoder_t) : bool := d_error d.

Definition get_bit (decoder : nr_rlc_pdu_decoder_t) : outcome (Z * nr_rlc_pdu_decoder_t) :=
  if d_size decoder <=? d_byte decoder then Ok (0, decoder <| d_error := true |>)
  else
    b ← buf_get (d_buffer decoder) (d_byte decoder);
    let ret := Z.land (Z.shiftr b (7 - d_bit decoder)) 1 in
    let decoder := decoder <| d_bit := d_bit decoder + 1 |> in
    let decoder := if d_bit decoder =? 8
                   then decoder <| d_bit := 0 |> <| d_byte := d_byte decoder + 1 |>
                   else decoder in
    Ok (ret, decoder).

(** The [for] loop of [nr_rlc_pdu_decoder_get_bits], [n] iterations left. *)
Fixpoint get_bits_loop (n : nat) (ret : Z) (decoder : nr_rlc_pdu_decoder_t)
  : outcome (Z * nr_rlc_pdu_decoder_t) :=
  match n with
  | O => Ok (ret, decoder)
  | S n' =>
      '(b, decoder) ← get_bit decoder;
      let ret := Z.lor (Z.shiftl ret 1) b in
      if d_error decoder then Ok (-1, decoder) else get_bits_loop n' ret decoder
  end.

Definition nr_rlc_pdu_decoder_get_bits (decoder : nr_rlc_pdu_decoder_t) (count : Z)
  : outcome (Z * nr_rlc_pdu_decoder_t) :=
  if 31 <? count then Fatal else get_bits_loop (Z.to_nat count) 0 decoder.

(** ** Encoder *)
Record nr_rlc_pdu_encoder_t := mk_encoder {
  e_byte : Z;                 (* next byte to encode *)
  e_bit : Z;                  (* next bit in next byte to encode *)
  e_buffer : bytes;
  e_size : Z;
}.
#[export] Instance eta_encoder : Eta nr_rlc_pdu_encoder_t := λ r,
  mk_encoder (e_byte r) (e_bit r) (e_buffer r) (e_size r).
#[export] Instance set_e_byte : Setter e_byte := ltac:(derive_setter).
#[export] Instance set_e_bit : Setter e_bit := ltac:(derive_setter).
#[export] Instance set_e_buffer : Setter e_buffer := ltac:(derive_setter).

Definition nr_rlc_pdu_encoder_init (buffer : bytes) (size : Z) : nr_rlc_pdu_encoder_t :=
  mk_encoder 0 0 buffer size.

Definition put_bit (encoder : nr_rlc_pdu_encoder_t) (bit : Z) : outcome nr_rlc_pdu_encoder_t :=
  if e_byte encoder =? e_size encoder then Fatal
  else
    b ← buf_get (e_buffer encoder) (e_byte encoder);
    let b := u8 (Z.shiftl b 1) in
    let b := if bit =? 0 then b else Z.lor b 1 in
    buffer ← buf_set (e_buffer encoder) (e_byte encoder) b;
    let encoder := encoder <| e_buffer := buffer |> <| e_bit := e_bit encoder + 1 |> in
    Ok (if e_bit encoder =? 8
        then encoder <| e_bit := 0 |> <| e_byte := e_byte encoder + 1 |>
        else encoder).

(** The [for] loop of [nr_rlc_pdu_encoder_put_bits], [n] iterations left. *)
Fixpoint put_bits_loop (n : nat) (x : Z) (encoder : nr_rlc_pdu_encoder_t) (value : Z)
  : outcome nr_rlc_pdu_encoder_t :=
  match n with
  | O => Ok encoder
  | S n' =>
      encoder ← put_bit encoder (Z.land value x);
      put_bits_loop n' (Z.shiftr x 1) encoder value
  end.

Definition nr_rlc_pdu_encoder_put_bits (encoder : nr_rlc_pdu_encoder_t) (value count : Z)
  : outcome nr_rlc_pdu_encoder_t :=
  if 31 <? count then Fatal
  else put_bits_loop (Z.to_nat count) (Z.shiftl 1 (count - 1)) encoder value.

(** ** The decoder reads the bits of the buffer in order

    [dec_at buf size pos d]: [d] is a decoder without error over the first
    [size] bytes of [buf], placed at bit [pos]. *)
Definition dec_at (buf : bytes) (size pos : Z) (d : nr_rlc_pdu_decoder_t) : Prop :=
  d_error d = false ∧ d_buffer d = buf ∧ d_size d = size ∧
  8 * d_byte d + d_bit d = pos ∧ 0 <= d_byte d ∧ 0 <= d_bit d < 8.

(** The bits [pos .. pos + n) of a buffer. *)
Definition bits_at (buf : bytes) (pos n : Z) : list bool :=
  take (Z.to_nat n) (drop (Z.to_nat pos) (buf_bits buf)).

Lemma dec_at_init buf size : dec_at buf size 0 (nr_rlc_pdu_decoder_init buf size).
Proof. repeat split; cbn; lia. Qed.

Lemma dec_at_byte buf size pos d : dec_at buf size pos d → d_byte d = pos / 8.
Proof.
  intros (_ & _ & _ & Hp & ? & ?). apply (Z.div_unique pos 8 (d_byte d) (d_bit d)); lia.
Qed.

Lemma land_shiftr_testbit b i : 0 <= i → Z.land (Z.shiftr b i) 1 = Z.b2z (Z.testbit b i).
Proof.
  intros Hi. change 1 with (Z.ones 1) at 1. rewrite Z.land_ones by lia.
  change (2 ^ 1) with 2. rewrite Z.testbit_spec' by lia.
  by rewrite Z.shiftr_div_pow2 by lia.
Qed.

Lemma get_bit_spec buf size pos d :
  dec_at buf size pos d → size <= zlen buf → pos < 8 * size →
  ∃ b d', get_bit d = Ok (Z.b2z b, d') ∧ buf_bits buf !! Z.to_nat pos = Some b ∧
          dec_at buf size (pos + 1) d'.
Proof.
  intros (He & Hb & Hs & Hp & Hby & Hbi) Hsz Hpos. unfold get_bit.
  rewrite Hs, Hb. destruct (Z.leb_spec size (d_byte d)); [lia|].
  destruct (buf_get_ok buf (d_byte d)) as (x & Hx & ->); [lia|]. cbn [mbind outcome_bind].
  rewrite land_shiftr_testbit by lia.
  exists (Z.testbit x (7 - d_bit d)). eexists. split; [reflexivity|]. split.
  - replace (Z.to_nat pos) with (8 * Z.to_nat (d_byte d) + Z.to_nat (d_bit d))%nat by lia.
    rewrite (buf_bits_lookup _ _ _ x) by (done || lia). do 2 f_equal. lia.
  - cbn. destruct (Z.eqb_spec (d_bit d + 1) 8); repeat split; cbn; try done; lia.
Qed.

Lemma get_bit_error buf size pos d :
  dec_at buf size pos d → 8 * size <= pos → ∃ d', get_bit d = Ok (0, d') ∧ d_error d' = true.
Proof.
  intros (He & Hb & Hs & Hp & Hby & Hbi) Hpos. unfold get_bit.
  destruct (Z.leb_spec (d_size d) (d_byte d)); [|lia]. eexists. split; [done|]. done.
Qed.

Lemma get_bits_loop_spec n ret buf size pos d :
  dec_at buf size pos d → size <= zlen buf → 0 <= pos → pos + Z.of_nat n <= 8 * size →
  ∃ d', get_bits_loop n ret d
          = Ok (ret * 2 ^ Z.of_nat n + bits_val (bits_at buf pos (Z.of_nat n)), d')
        ∧ dec_at buf size (pos + Z.of_nat n) d'.
Proof.
  revert ret pos d. induction n as [|n IH]; intros ret pos d Hd Hsz H0 Hn.
  { exists d. change (Z.of_nat 0) with 0. rewrite (Z.add_0_r pos). split; [|done].
    cbn [get_bits_loop]. change (bits_val (bits_at buf pos 0)) with 0. do 2 f_equal. lia. }
  destruct (get_bit_spec buf size pos d) as (b & d' & E & Hb & Hd'); [done..|lia|].
  cbn [get_bits_loop]. rewrite E. cbn [mbind outcome_bind].
  rewrite (proj1 Hd').
  destruct (IH (Z.lor (Z.shiftl ret 1) (Z.b2z b)) (pos + 1) d' Hd' Hsz) as (d'' & E' & Hd'');
    [lia..|].
  exists d''. split.
  2:{ replace (pos + Z.of_nat (S n)) with (pos + 1 + Z.of_nat n) by lia. done. }
  rewrite E'. do 2 f_equal.
  rewrite lor_shiftl_bit.
  unfold bits_at. rewrite !Nat2Z.id.
  replace (Z.to_nat (pos + 1)) with (S (Z.to_nat pos)) by lia.
  rewrite (drop_S _ b (Z.to_nat pos)) by done.
  cbn [take]. rewrite bits_val_cons.
  assert (zlen (take n (drop (S (Z.to_nat pos)) (buf_bits buf))) = Z.of_nat n) as ->.
  { unfold zlen in *. rewrite length_take, length_drop, length_buf_bits. lia. }
  rewrite Nat2Z.inj_succ, Z.pow_succ_r by lia. lia.
Qed.

(** Reading [count] bits that are there gives their value. *)
Lemma get_bits_spec buf size pos count d :
  dec_at buf size pos d → size <= zlen buf → 0 <= pos → 0 <= count <= 31 →
  pos + count <= 8 * size →
  ∃ d', nr_rlc_pdu_decoder_get_bits d count = Ok (bits_val (bits_at buf pos count), d')
        ∧ dec_at buf size (pos + count) d'.
Proof.
  intros Hd Hsz Hp Hc Hn. unfold nr_rlc_pdu_decoder_get_bits.
  destruct (Z.ltb_spec 31 count); [lia|].
  destruct (get_bits_loop_spec (Z.to_nat count) 0 buf size pos d) as (d' & E & Hd'); [done..|lia|].
  rewrite Z2Nat.id in * by lia. exists d'. split; [|done]. rewrite E. do 2 f_equal.
Qed.

Lemma get_bits_loop_error n ret buf size pos d :
  dec_at buf size pos d → size <= zlen buf → 0 <= pos <= 8 * size →
  8 * size < pos + Z.of_nat n →
  ∃ d', get_bits_loop n ret d = Ok (-1, d') ∧ d_error d' = true.
Proof.
  revert ret pos d. induction n as [|n IH]; intros ret pos d Hd Hsz Hp Hn; [lia|].
  cbn [get_bits_loop]. destruct (Z.eq_dec pos (8 * size)) as [->|Hne].
  - destruct (get_bit_error buf size (8 * size) d) as (d' & -> & He); [done|lia|].
    cbn. rewrite He. eauto.
  - destruct (get_bit_spec buf size pos d) as (b & d' & -> & Hb & Hd'); [done..|lia|].
    cbn [mbind outcome_bind]. rewrite (proj1 Hd'). apply (IH _ (pos + 1)); [done..| |]; lia.
Qed.

(** A read that runs past the end of the PDU sets the error flag. *)
Lemma get_bits_error buf size pos count d :
  dec_at buf size pos d → size <= zlen buf → 0 <= pos <= 8 * size → 0 <= count <= 31 →
  8 * size < pos + count →
  ∃ d', nr_rlc_pdu_decoder_get_bits d count = Ok (-1, d') ∧ d_error d' = true.
Proof.
  intros Hd Hsz Hp Hc Hn. unfold nr_rlc_pdu_decoder_get_bits.
  destruct (Z.ltb_spec 31 count); [lia|].
  apply (get_bits_loop_error _ _ buf size pos); [done..|lia].
Qed.

(** Either outcome, as the callers see it: the error flag is set, or the value
    is that of the bits read. *)
Lemma get_bits_cases buf size pos count d :
  dec_at buf size pos d → size <= zlen buf → 0 <= pos <= 8 * size → 0 <= count <= 31 →
  returns (nr_rlc_pdu_decoder_get_bits d count) (λ '(v, d'),
    (d_error d' = true ∧ v = -1 ∧ 8 * size < pos + count) ∨
    (v = bits_val (bits_at buf pos count) ∧ 0 <= v < 2 ^ count ∧
     dec_at buf size (pos + count) d' ∧ pos + count <= 8 * size)).
Proof.
  intros Hd Hsz Hp Hc. destruct (Z.le_gt_cases (pos + count) (8 * size)) as [Hle|Hgt].
  - destruct (get_bits_spec buf size pos count d) as (d' & E & Hd'); [done..|lia|lia|lia|].
    exists (bits_val (bits_at buf pos count), d'). split; [done|]. right. split_and!; try done.
    + apply bits_val_range.
    + eapply Z.lt_le_trans; [apply bits_val_range|]. apply Z.pow_le_mono_r; [lia|].
      unfold bits_at, zlen. rewrite length_take. lia.
  - destruct (get_bits_error buf size pos count d) as (d' & E & He); [done..|].
    exists (-1, d'). split; [done|]. left. split_and!; [done..|lia].
Qed.

(** ** The encoder appends bits

    [enc_at bs e]: the bits written so far are [bs]: the full bytes before
    [e_byte] and, in the low part of the current byte, the pending bits. *)
Record enc_at (bs : list bool) (e : nr_rlc_pdu_encoder_t) : Prop := {
  enc_byte : 0 <= e_byte e;
  enc_bit : 0 <= e_bit e < 8;
  enc_len : zlen bs = 8 * e_byte e + e_bit e;
  enc_cap : e_byte e <= e_size e ∧ e_size e <= zlen (e_buffer e);
  enc_room : e_byte e = e_size e → e_bit e = 0;
  enc_full : buf_bits (take (Z.to_nat (e_byte e)) (e_buffer e))
             = take (Z.to_nat (8 * e_byte e)) bs;
  enc_part : 0 < e_bit e → ∃ x, e_buffer e !! Z.to_nat (e_byte e) = Some x ∧
             drop (Z.to_nat (8 - e_bit e)) (byte_bits x) = drop (Z.to_nat (8 * e_byte e)) bs;
}.

Lemma enc_at_init buf size :
  0 <= size <= zlen buf → enc_at [] (nr_rlc_pdu_encoder_init buf size).
Proof. intros H. split; cbn; try done; lia. Qed.

Lemma shift_in_eq b c : is_byte b →
  (if (if c : bool then 1 else 0) =? 0 then u8 (Z.shiftl b 1) else Z.lor (u8 (Z.shiftl b 1)) 1)
  = u8 (2 * b) + Z.b2z c.
Proof.
  intros Hb. rewrite Z.shiftl_mul_pow2, (Z.mul_comm b) by lia. change (2 ^ 1) with 2.
  destruct c; cbn [Z.eqb Z.b2z]; [|lia].
  unfold u8. change (2 ^ 8) with (2 * 2 ^ 7). rewrite Z.mul_mod_distr_l by lia.
  exact (lor_mul2_bit _ true).
Qed.

(** Writing one bit. *)
Lemma put_bit_spec bs e (c : bool) :
  enc_at bs e → e_byte e < e_size e → Forall is_byte (e_buffer e) →
  returns (put_bit e (Z.b2z c)) (λ e',
    enc_at (bs ++ [c]) e' ∧ e_size e' = e_size e ∧ zlen (e_buffer e') = zlen (e_buffer e) ∧
    Forall is_byte (e_buffer e') ∧
    drop (S (Z.to_nat (e_byte e))) (e_buffer e') = drop (S (Z.to_nat (e_byte e))) (e_buffer e)).
Proof.
  intros [Hby Hbi Hlen [Hcap1 Hcap2] Hroom Hfull Hpart] Hlt HF. unfold put_bit.
  destruct (Z.eqb_spec (e_byte e) (e_size e)); [lia|].
  destruct (buf_get_ok (e_buffer e) (e_byte e)) as (x & Hx & ->); [lia|].
  cbn [mbind outcome_bind].
  assert (is_byte x) as Hxb by (eapply Forall_lookup_1; eauto).
  replace (Z.b2z c) with (if c then 1 else 0) at 1 by (by destruct c).
  rewrite (shift_in_eq x c Hxb). rewrite buf_set_ok by lia. cbn [mbind outcome_bind].
  set (y := u8 (2 * x) + Z.b2z c). set (i := Z.to_nat (e_byte e)) in *.
  assert (i < length (e_buffer e))%nat as Hi by (unfold zlen in *; subst i; lia).
  assert (byte_bits y = drop 1 (byte_bits x) ++ [c]) as Hy by apply byte_bits_shift_in.
  assert (length (byte_bits x) = 8%nat) as Hl8 by apply length_val_bits.
  assert (take i (<[i:=y]> (e_buffer e)) = take i (e_buffer e)) as Htake
    by (by rewrite take_insert_ge).
  assert (<[i:=y]> (e_buffer e) !! i = Some y) as Hiy by (by apply list_lookup_insert_eq).
  (* the pending bits of the current byte *)
  assert (drop (Z.to_nat (8 - (e_bit e + 1))) (byte_bits y)
          = drop (Z.to_nat (8 * e_byte e)) bs ++ [c]) as Hpend.
  { rewrite Hy. rewrite drop_app_le by (rewrite length_drop, Hl8; lia).
    rewrite drop_drop. f_equal. destruct (Z.eq_dec (e_bit e) 0) as [E0|E0].
    - rewrite E0. rewrite !drop_ge; [done| |].
      + unfold zlen in Hlen. lia. + rewrite Hl8. lia.
    - destruct Hpart as (x' & Hx' & Hd); [lia|].
      assert (x' = x) as -> by (subst i; congruence).
      rewrite <- Hd. f_equal. lia. }
  apply returns_ok. cbn [e_bit set_field set_e_bit set_e_buffer].
  split_and!.
  - destruct (Z.eqb_spec (e_bit e + 1) 8) as [E8|E8]; split; cbn; try lia.
    + rewrite zlen_app, zlen_cons, zlen_nil. lia.
    + unfold zlen in *. rewrite length_insert. lia.
    + replace (Z.to_nat (e_byte e + 1)) with (S i) by (subst i; lia).
      rewrite (take_S_r _ _ y) by done. rewrite buf_bits_app, Htake, Hfull.
      cbn [buf_bits flat_map]. rewrite app_nil_r.
      replace (Z.to_nat (8 - (e_bit e + 1))) with 0%nat in Hpend by lia.
      rewrite drop_0 in Hpend. rewrite Hpend.
      rewrite app_assoc, take_drop. symmetry. apply take_ge.
      rewrite length_app. unfold zlen in *. cbn [length]. lia.
    + rewrite zlen_app, zlen_cons, zlen_nil. lia.
    + unfold zlen in *. rewrite length_insert. lia.
    + fold i. rewrite Htake, Hfull. rewrite take_app_le; [done|]. unfold zlen in *. lia.
    + intros _. exists y. fold i. split; [done|]. etransitivity; [exact Hpend|].
      rewrite drop_app_le; [done|]. unfold zlen in *. lia.
  - by destruct (_ =? _).
  - destruct (_ =? _); cbn; unfold zlen; by rewrite length_insert.
  - assert (Forall is_byte (<[i:=y]> (e_buffer e))) by
      (apply Forall_insert; [done|]; apply u8_shift_in_byte).
    by destruct (_ =? _).
  - destruct (_ =? _); cbn; rewrite drop_insert_lt by lia; done.
Qed.

Lemma land_pow2_testbit v i : 0 <= i →
  Z.land v (Z.shiftl 1 i) = if Z.testbit v i then Z.shiftl 1 i else 0.
Proof.
  intros Hi. apply Z.bits_inj'. intros n Hn. rewrite Z.land_spec, Z.shiftl_spec by lia.
  destruct (Z.eq_dec n i) as [->|Hne].
  - rewrite Z.sub_diag. destruct (Z.testbit v i); [|by rewrite Z.bits_0].
    by rewrite Z.shiftl_spec, Z.sub_diag by lia.
  - assert (Z.testbit 1 (n - i) = false) as H1.
    { destruct (Z.lt_ge_cases n i); [by apply Z.testbit_neg_r; lia|].
      rewrite Z.bits_above_log2; [done|lia|change (Z.log2 1) with 0; lia]. }
    rewrite H1, andb_false_r. destruct (Z.testbit v i); [|by rewrite Z.bits_0].
    by rewrite Z.shiftl_spec by lia.
Qed.

Lemma put_bit_nonzero e b : put_bit e b = put_bit e (Z.b2z (negb (b =? 0))).
Proof. unfold put_bit. by destruct (Z.eqb_spec b 0). Qed.

Lemma put_bits_loop_spec n bs e v :
  enc_at bs e → Forall is_byte (e_buffer e) →
  8 * e_byte e + e_bit e + Z.of_nat n <= 8 * e_size e →
  returns (put_bits_loop n (Z.shiftl 1 (Z.of_nat n - 1)) e v) (λ e',
    enc_at (bs ++ val_bits n v) e' ∧ e_size e' = e_size e ∧
    zlen (e_buffer e') = zlen (e_buffer e) ∧ Forall is_byte (e_buffer e')).
Proof.
  revert bs e. induction n as [|n IH]; intros bs e He HF Hroom.
  { apply returns_ok. cbn. rewrite app_nil_r. done. }
  cbn [put_bits_loop]. replace (Z.of_nat (S n) - 1) with (Z.of_nat n) by lia.
  rewrite put_bit_nonzero, land_pow2_testbit by lia.
  assert (negb ((if Z.testbit v (Z.of_nat n) then Z.shiftl 1 (Z.of_nat n) else 0) =? 0)
          = Z.testbit v (Z.of_nat n)) as ->.
  { destruct (Z.testbit v _); [|done]. rewrite Z.shiftl_mul_pow2 by lia.
    destruct (Z.eqb_spec (1 * 2 ^ Z.of_nat n) 0); [lia|done]. }
  eapply returns_bind.
  { apply (put_bit_spec bs e); [done| |done]. pose proof (enc_bit _ _ He). lia. }
  intros e1 (He1 & Hs1 & Hl1 & HF1 & _). cbn [val_bits].
  replace (Z.shiftr (Z.shiftl 1 (Z.of_nat n)) 1) with (Z.shiftl 1 (Z.of_nat n - 1)).
  2:{ rewrite <- Z.shiftl_opp_r, Z.shiftl_shiftl by lia. done. }
  eapply returns_mono; [apply (IH (bs ++ [Z.testbit v (Z.of_nat n)])); [done..|]|].
  { pose proof (enc_len _ _ He1) as L1. pose proof (enc_len _ _ He).
    rewrite zlen_app, zlen_cons, zlen_nil in L1. lia. }
  intros e2 (He2 & Hs2 & Hl2 & HF2). rewrite <- app_assoc in He2. split_and!; [done|lia..|done].
Qed.

(** Writing [count] bits appends the low bits of the value. *)
Lemma put_bits_spec bs e v count :
  enc_at bs e → Forall is_byte (e_buffer e) → 0 <= count <= 31 →
  zlen bs + count <= 8 * e_size e →
  returns (nr_rlc_pdu_encoder_put_bits e v count) (λ e',
    enc_at (bs ++ val_bits (Z.to_nat count) v) e' ∧ e_size e' = e_size e ∧
    zlen (e_buffer e') = zlen (e_buffer e) ∧ Forall is_byte (e_buffer e')).
Proof.
  intros He HF Hc Hroom. unfold nr_rlc_pdu_encoder_put_bits.
  destruct (Z.ltb_spec 31 count); [lia|].
  rewrite <- (Z2Nat.id count) at 2 by lia. apply put_bits_loop_spec; [done..|].
  pose proof (enc_len _ _ He). lia.
Qed.

(** Once a whole number of bytes has been written, the first bytes of the
    buffer are the bits written. *)
Lemma enc_at_aligned bs e :
  enc_at bs e → e_bit e = 0 →
  buf_bits (take (Z.to_nat (e_byte e)) (e_buffer e)) = bs.
Proof.
  intros He H0. rewrite (enc_full _ _ He). apply take_ge.
  pose proof (enc_len _ _ He). unfold zlen in *. lia.
Qed.

(** The bits found between two known runs of bits at the start of a buffer. *)
Lemma bits_at_mid buf n a b c :
  buf_bits (take n buf) = a ++ b ++ c → bits_at buf (zlen a) (zlen b) = b.
Proof.
  intros H. unfold bits_at, zlen. rewrite !Nat2Z.id.
  assert (buf_bits buf = a ++ b ++ c ++ buf_bits (drop n buf)) as ->.
  { rewrite <- (take_drop n buf) at 1. by rewrite buf_bits_app, H, <- !app_assoc. }
  by rewrite drop_app_length, take_app_length.
Qed.

Lemma zlen_val_bits c v : 0 <= c → zlen (val_bits (Z.to_nat c) v) = c.
Proof. intros. unfold zlen. rewrite length_val_bits. lia. Qed.

(** Reading a field at a place where it is known to have been written. *)
Lemma get_bits_field buf size n a v c rest d :
  dec_at buf size (zlen a) d → size <= zlen buf → 0 <= c <= 31 → 0 <= v < 2 ^ c →
  zlen a + c <= 8 * size →
  buf_bits (take n buf) = a ++ val_bits (Z.to_nat c) v ++ rest →
  ∃ d', nr_rlc_pdu_decoder_get_bits d c = Ok (v, d') ∧
        dec_at buf size (zlen (a ++ val_bits (Z.to_nat c) v)) d'.
Proof.
  intros Hd Hs Hc Hv Hr Hb.
  destruct (get_bits_spec buf size (zlen a) c d) as (d' & E & Hd'); try done.
  { apply zlen_nonneg. }
  exists d'. rewrite zlen_app, zlen_val_bits by lia. split; [|done]. rewrite E.
  pose proof (bits_at_mid _ _ _ _ _ Hb) as Hm. rewrite zlen_val_bits in Hm by lia.
  rewrite Hm, bits_val_val_bits, Z2Nat.id, Z.mod_small by lia. done.
Qed.

(** ** Headers as sequences of fields

    The headers are written and read field after field; a field is a value
    and its width in bits. *)
Fixpoint put_fields (e : nr_rlc_pdu_encoder_t) (fs : list (Z * Z)) : outcome nr_rlc_pdu_encoder_t :=
  match fs with
  | [] => Ok e
  | (v, c) :: fs => e ← nr_rlc_pdu_encoder_put_bits e v c; put_fields e fs
  end.

Fixpoint get_fields (d : nr_rlc_pdu_decoder_t) (cs : list Z)
  : outcome (list Z * nr_rlc_pdu_decoder_t) :=
  match cs with
  | [] => Ok ([], d)
  | c :: cs =>
      '(v, d) ← nr_rlc_pdu_decoder_get_bits d c;
      '(vs, d) ← get_fields d cs;
      Ok (v :: vs, d)
  end.

Definition field_ok (f : Z * Z) : Prop := 0 <= f.2 <= 31 ∧ 0 <= f.1 < 2 ^ f.2.
Definition fields_bits (fs : list (Z * Z)) : list bool :=
  flat_map (λ f, val_bits (Z.to_nat f.2) f.1) fs.

Lemma zlen_fields_bits fs : Forall field_ok fs → zlen (fields_bits fs) = sumZ snd fs.
Proof.
  induction 1 as [|[v c] fs [Hc _] _ IH]; [done|]. cbn [fields_bits flat_map].
  change (flat_map _ fs) with (fields_bits fs). cbn in Hc.
  rewrite zlen_app, sumZ_cons, IH. cbn. rewrite zlen_val_bits; lia.
Qed.

Lemma put_fields_spec bs e fs :
  enc_at bs e → Forall is_byte (e_buffer e) → Forall field_ok fs →
  zlen bs + sumZ snd fs <= 8 * e_size e →
  returns (put_fields e fs) (λ e',
    enc_at (bs ++ fields_bits fs) e' ∧ e_size e' = e_size e ∧
    zlen (e_buffer e') = zlen (e_buffer e) ∧ Forall is_byte (e_buffer e')).
Proof.
  intros He HF Hfs. revert bs e He HF. induction Hfs as [|[v c] fs [Hc Hv] Hfs IH];
    intros bs e He HF Hroom; cbn [put_fields].
  { apply returns_ok. by rewrite app_nil_r. }
  rewrite sumZ_cons in Hroom. cbn in Hc, Hv, Hroom.
  assert (0 <= sumZ snd fs).
  { apply sumZ_nonneg. intros f Hf. rewrite Forall_forall in Hfs. destruct (Hfs f Hf). lia. }
  eapply returns_bind; [apply (put_bits_spec _ _ v c He HF); lia|].
  intros e1 (He1 & Hs1 & Hl1 & HF1).
  eapply returns_mono; [apply (IH _ _ He1 HF1)|].
  { rewrite zlen_app, zlen_val_bits by lia. lia. }
  intros e2 (He2 & Hs2 & Hl2 & HF2). cbn [fields_bits flat_map].
  rewrite <- app_assoc in He2. split_and!; [done|lia..|done].
Qed.

Lemma get_fields_spec buf size n a fs rest d :
  dec_at buf size (zlen a) d → size <= zlen buf → Forall field_ok fs →
  zlen a + sumZ snd fs <= 8 * size →
  buf_bits (take n buf) = a ++ fields_bits fs ++ rest →
  ∃ d', get_fields d (fs.*2) = Ok (fs.*1, d') ∧ dec_at buf size (zlen (a ++ fields_bits fs)) d'.
Proof.
  intros Hd Hs Hfs. revert a d Hd. induction Hfs as [|[v c] fs [Hc Hv] Hfs IH];
    intros a d Hd Hr Hb; rewrite ?fmap_cons; cbn [get_fields].
  { exists d. by rewrite app_nil_r. }
  rewrite sumZ_cons in Hr. cbn in Hc, Hv, Hr.
  assert (0 <= sumZ snd fs).
  { apply sumZ_nonneg. intros f Hf. rewrite Forall_forall in Hfs. destruct (Hfs f Hf). lia. }
  cbn [fields_bits flat_map] in Hb. rewrite <- app_assoc in Hb. cbn [fst snd] in *.
  destruct (get_bits_field buf size n a v c _ d Hd Hs Hc Hv ltac:(lia) Hb) as (d1 & -> & Hd1).
  destruct (IH _ _ Hd1) as (d2 & E & Hd2).
  { rewrite zlen_app, zlen_val_bits by lia. lia. }
  { rewrite <- app_assoc. exact Hb. }
  cbn [mbind outcome_bind fst snd]. rewrite E. cbn [mbind outcome_bind].
  exists d2. split; [done|]. cbn [fields_bits flat_map fst snd]. by rewrite app_assoc.
Qed.

(** Header round trip. Whatever fields the encoder writes into a large
    enough buffer, whatever the buffer held before, up to a byte boundary, the
    decoder reads back, over any PDU size that includes them: encoding neither
    stops the process nor writes out of bounds, decoding sets no error, and both
    end on the byte that follows the fields. *)
Theorem fields_roundtrip buf size fs :
  Forall is_byte buf → Forall field_ok fs →
  sumZ snd fs mod 8 = 0 → sumZ snd fs <= 8 * size → 0 <= size <= zlen buf →
  returns (put_fields (nr_rlc_pdu_encoder_init buf size) fs) (λ e,
    e_byte e = sumZ snd fs / 8 ∧ e_bit e = 0 ∧ zlen (e_buffer e) = zlen buf ∧
    ∀ pdu_size, sumZ snd fs <= 8 * pdu_size → pdu_size <= zlen buf →
      ∃ d, get_fields (nr_rlc_pdu_decoder_init (e_buffer e) pdu_size) (fs.*2) = Ok (fs.*1, d) ∧
           d_error d = false ∧ d_byte d = sumZ snd fs / 8).
Proof.
  intros HF Hfs H8 Hroom Hsz.
  eapply returns_mono.
  { apply put_fields_spec; [apply (enc_at_init buf size Hsz)|done|done|]. rewrite zlen_nil. done. }
  intros e (He & Hs & Hl & HF'). cbn [app e_size e_buffer nr_rlc_pdu_encoder_init] in *.
  pose proof (enc_len _ _ He) as Hlen. rewrite zlen_fields_bits in Hlen by done.
  pose proof (enc_bit _ _ He) as Hbit.
  assert (e_bit e = 0 ∧ e_byte e = sumZ snd fs / 8) as [Hb0 Hbyte].
  { rewrite (Z.div_mod (sumZ snd fs) 8) in Hlen by lia. lia. }
  split_and!; [done..|]. intros pdu_size Hps Hpl.
  pose proof (enc_at_aligned _ _ He Hb0) as Hbits.
  destruct (get_fields_spec (e_buffer e) pdu_size (Z.to_nat (e_byte e)) [] fs []
              (nr_rlc_pdu_decoder_init (e_buffer e) pdu_size)) as (d & E & Hd).
  { apply dec_at_init. }
  { lia. }
  { done. }
  { rewrite zlen_nil. lia. }
  { rewrite app_nil_r. exact Hbits. }
  cbn [app] in Hd. rewrite zlen_fields_bits in Hd by done.
  exists d. split_and!; [done|apply Hd|]. by rewrite (dec_at_byte _ _ _ _ Hd).
Qed.

(** The header of an AM segment: D/C, P, SI, R, an 18-bit SN and an SO. *)
Lemma fields_roundtrip_witness :
  let fs := [(1, 1); (0, 1); (3, 2); (0, 2); (200001, 18); (4660, 16)] in
  Forall field_ok fs ∧ sumZ snd fs mod 8 = 0 ∧
  returns (put_fields (nr_rlc_pdu_encoder_init (replicate 9 170) 9) fs) (λ e,
    e_byte e = sumZ snd fs / 8 ∧ e_bit e = 0 ∧ zlen (e_buffer e) = zlen (replicate 9 170) ∧
    ∀ pdu_size, sumZ snd fs <= 8 * pdu_size → pdu_size <= zlen (replicate 9 170) →
      ∃ d, get_fields (nr_rlc_pdu_decoder_init (e_buffer e) pdu_size) (fs.*2) = Ok (fs.*1, d) ∧
           d_error d = false ∧ d_byte d = sumZ snd fs / 8).
Proof.
  intros fs. assert (Forall field_ok fs) as Hfs.
  { repeat constructor; vm_compute; intuition congruence. }
  split; [exact Hfs|]. split; [reflexivity|].
  apply fields_roundtrip; [|exact Hfs|reflexivity|vm_compute; congruence|vm_compute; intuition congruence].
  repeat constructor; vm_compute; intuition congruence.
Defined.

(** ** The reception list *)

Lemma pdu_list_add_perm cmp l p : nr_rlc_pdu_list_add cmp l p ≡ₚ p :: l.
Proof.
  induction l as [|c l IH]; cbn [nr_rlc_pdu_list_add]; [done|].
  destruct (_ || _); [done|]. rewrite IH. apply Permutation_swap.
Qed.

(** The order of the list for a comparison of SNs that comes from a position
    [pos] of each SN in the window: by position, then by offset. *)
Definition pdu_le (pos : Z → Z) (p q : nr_rlc_pdu_t) : Prop :=
  pos (p_sn p) < pos (p_sn q) ∨ (p_sn p = p_sn q ∧ p_so p <= p_so q).

Lemma pdu_list_add_sorted pos cmp l p :
  (∀ a b, cmp a b = pos a - pos b) →
  (∀ c, c ∈ l → pos (p_sn c) = pos (p_sn p) → p_sn c = p_sn p) →
  StronglySorted (pdu_le pos) l →
  StronglySorted (pdu_le pos) (nr_rlc_pdu_list_add cmp l p).
Proof.
  intros Hcmp Hinj. induction l as [|c l IH]; intros Hs; cbn [nr_rlc_pdu_list_add].
  { by repeat constructor. }
  apply StronglySorted_inv in Hs as [Hs Hall].
  destruct (_ || _) eqn:E.
  - assert (pdu_le pos p c) as Hpc.
    { apply orb_true_iff in E as [E|E].
      - apply Z.ltb_lt in E. rewrite Hcmp in E. left. lia.
      - apply andb_true_iff in E as [E1 E2]. apply Z.eqb_eq in E1. apply Z.ltb_lt in E2.
        right. split; [done|lia]. }
    constructor; [by constructor|]. constructor; [done|].
    eapply Forall_impl; [exact Hall|]. intros q Hq. unfold pdu_le in *.
    destruct Hpc as [?|[E1 ?]], Hq as [?|[E2 ?]]; [left; lia|left; rewrite <- E2; lia|
      left; rewrite E1; lia|right; split; [congruence|lia]].
  - constructor.
    + apply IH; [|done]. intros q Hq. apply Hinj. set_solver.
    + rewrite pdu_list_add_perm. constructor; [|done].
      apply orb_false_iff in E as [E1 E2]. apply Z.ltb_ge in E1. rewrite Hcmp in E1.
      destruct (Z.eqb_spec (p_sn c) (p_sn p)) as [Hsn|Hsn].
      * apply Z.ltb_ge in E2. right. split; [done|lia].
      * left. assert (pos (p_sn c) ≠ pos (p_sn p)); [|lia].
        intros Hp. apply Hsn, Hinj; [set_solver|done].
Qed.
