(* ===== verification/TimeStat.v ===== *)
(** * Sliding-window time averages

    Models [common/utils/time_stat.c], the ring of (time, value) samples behind
    [txsdu_avg_time_to_tx], the SDU sojourn time each RLC entity reports. The
    ring is an array that is doubled when full; cells that [realloc] leaves
    indeterminate are [None] and reading one is undefined.

    The refinement theorem shows the ring is a queue: [time_average_add] drops
    the samples that left the window from the front, appends the new one, and
    keeps the accumulated value equal to the sum of the samples stored. *)

From S2P Require Import Prelude.

Record time_value_t := mk_tv { tv_time : Z; tv_value : Z }.

Record time_ring_t := mk_ring {
  r_head : Z;
  r_tail : Z;
  r_buffer : list (option time_value_t);
  r_maxsize : Z;
  r_size : Z;
}.
#[export] Instance eta_ring : Eta time_ring_t := λ r,
  mk_ring (r_head r) (r_tail r) (r_buffer r) (r_maxsize r) (r_size r).
#[export] Instance set_r_head : Setter r_head := ltac:(derive_setter).
#[export] Instance set_r_tail : Setter r_tail := ltac:(derive_setter).
#[export] Instance set_r_buffer : Setter r_buffer := ltac:(derive_setter).
#[export] Instance set_r_maxsize : Setter r_maxsize := ltac:(derive_setter).
#[export] Instance set_r_size : Setter r_size := ltac:(derive_setter).

Record time_average_t := mk_avg {
  duration : Z;               (* unit: microsecond *)
  ring : time_ring_t;
  accumulated_value : Z;      (* uint64_t *)
}.
#[export] Instance eta_avg : Eta time_average_t := λ r,
  mk_avg (duration r) (ring r) (accumulated_value r).
#[export] Instance set_ring : Setter ring := ltac:(derive_setter).
#[export] Instance set_accumulated_value : Setter accumulated_value := ltac:(derive_setter).

Definition time_average_new (dur initial_size : Z) : outcome time_average_t :=
  if negb (Z.land initial_size (initial_size - 1) =? 0) then Fatal
  else Ok (mk_avg dur
             (mk_ring (initial_size - 1) 0
                (replicate (Z.to_nat initial_size) (Some (mk_tv 0 0))) initial_size 0) 0).

Definition time_average_reset (t : time_average_t) : time_average_t :=
  t <| ring := ring t <| r_head := r_maxsize (ring t) - 1 |> <| r_tail := 0 |> <| r_size := 0 |> |>
    <| accumulated_value := 0 |>.

(** [buffer[i]] of the ring, undefined when out of range or never written. *)
Definition ring_get (r : time_ring_t) (i : Z) : outcome time_value_t :=
  if i <? 0 then Undef
  else match r_buffer r !! Z.to_nat i with Some (Some v) => Ok v | _ => Undef end.

(** The [while] loop of [remove_old]; [r_size] goes down at each turn, so its
    initial value bounds the number of turns. *)
Fixpoint remove_old_loop (n : nat) (t : time_average_t) (time : Z) : outcome time_average_t :=
  match n with
  | O => Ok t
  | S n' =>
      if r_size (ring t) =? 0 then Ok t
      else
        v ← ring_get (ring t) (r_tail (ring t));
        if tv_time v <? u64 (time - duration t) then
          let r := ring t in
          let r := r <| r_size := r_size r - 1 |>
                     <| r_tail := cmod (r_tail r + 1) (r_maxsize r) |> in
          remove_old_loop n'
            (t <| accumulated_value := u64 (accumulated_value t - tv_value v) |> <| ring := r |>)
            time
        else Ok t
  end.

Definition remove_old (t : time_average_t) (time : Z) : outcome time_average_t :=
  remove_old_loop (Z.to_nat (r_size (ring t))) t time.

(** [realloc] to twice the size, and the copy that unwraps the ring. *)
Definition ring_grow (r : time_ring_t) : outcome time_ring_t :=
  let r := r <| r_maxsize := r_maxsize r * 2 |> in
  let r := r <| r_buffer := r_buffer r
                  ++ replicate (Z.to_nat (r_maxsize r) - length (r_buffer r)) None |> in
  if r_head r <? r_tail r then
    let n := Z.to_nat (r_head r + 1) in
    let sz := Z.to_nat (r_size r) in
    if (0 <=? r_head r) && (r_size r + r_head r + 1 <=? zlen (r_buffer r)) then
      Ok (r <| r_buffer := take sz (r_buffer r) ++ take n (r_buffer r)
                             ++ drop (sz + n) (r_buffer r) |>
            <| r_head := r_head r + r_size r |>)
    else Undef
  else Ok r.

Definition time_average_add (t : time_average_t) (time value : Z) : outcome time_average_t :=
  t ← remove_old t time;
  r ← (if r_size (ring t) =? r_maxsize (ring t) then ring_grow (ring t) else Ok (ring t));
  let r := r <| r_head := cmod (r_head r + 1) (r_maxsize r) |> in
  if (0 <=? r_head r) && (r_head r <? zlen (r_buffer r)) then
    let r := r <| r_buffer := <[Z.to_nat (r_head r) := Some (mk_tv time value)]> (r_buffer r) |>
               <| r_size := r_size r + 1 |> in
    Ok (t <| ring := r |> <| accumulated_value := u64 (accumulated_value t + value) |>)
  else Undef.

(** The average, as the pair (sum, count) the [double] quotient is taken of;
    an empty window gives 0. *)
Definition time_average_get_average (t : time_average_t) (time : Z)
  : outcome (time_average_t * (Z * Z)) :=
  t ← remove_old t time;
  if r_size (ring t) =? 0 then Ok (t, (0, 1))
  else Ok (t, (accumulated_value t, r_size (ring t))).

(** [time_average_now] as a function of what [clock_gettime] returned. *)
Definition time_average_now (tv_sec tv_nsec : Z) : Z :=
  let ret := u64 (u64 tv_sec * 1000000 + Z.quot tv_nsec 1000) in
  if 500 <=? cmod tv_nsec 1000 then u64 (ret + 1) else ret.

(** ** Abstraction: the samples in the window, oldest first *)

(** The [n] cells from [tail] on, circularly. *)
Fixpoint ring_slice (n : nat) (i : Z) (r : time_ring_t) : list (option time_value_t) :=
  match n with
  | O => []
  | S n' => default None (r_buffer r !! Z.to_nat i)
            :: ring_slice n' ((i + 1) mod r_maxsize r) r
  end.

Definition ring_abs (r : time_ring_t) : list (option time_value_t) :=
  ring_slice (Z.to_nat (r_size r)) (r_tail r) r.

(** [t] stores the samples [q], oldest first. *)
Record avg_rep (t : time_average_t) (q : list time_value_t) : Prop := {
  rep_max : 0 < r_maxsize (ring t);
  rep_len : zlen (r_buffer (ring t)) = r_maxsize (ring t);
  rep_tail : 0 <= r_tail (ring t) < r_maxsize (ring t);
  rep_size : r_size (ring t) = zlen q ∧ zlen q <= r_maxsize (ring t);
  rep_head : (r_tail (ring t) + r_size (ring t)) mod r_maxsize (ring t)
             = (r_head (ring t) + 1) mod r_maxsize (ring t) ∧
             0 <= r_head (ring t) < r_maxsize (ring t);
  rep_cells : ring_abs (ring t) = Some <$> q;
  rep_sum : accumulated_value t = u64 (sumZ tv_value q);
}.

(** What [remove_old] removes: the oldest samples that left the window. *)
Fixpoint drop_old (limit : Z) (q : list time_value_t) : list time_value_t :=
  match q with
  | [] => []
  | v :: q' => if tv_time v <? limit then drop_old limit q' else q
  end.

Lemma ring_slice_length n i r : length (ring_slice n i r) = n.
Proof. revert i. induction n as [|n IH]; intros i; cbn; auto. Qed.

Lemma ring_slice_lookup n i r k :
  0 < r_maxsize r → 0 <= i < r_maxsize r → (k < n)%nat →
  ring_slice n i r !! k
  = Some (default None (r_buffer r !! Z.to_nat ((i + Z.of_nat k) mod r_maxsize r))).
Proof.
  revert i k. induction n as [|n IH]; intros i k Hm Hi Hk; [lia|].
  destruct k as [|k]; cbn [ring_slice lookup list_lookup].
  - change (Z.of_nat 0) with 0. by rewrite Z.add_0_r, Z.mod_small by lia.
  - rewrite IH; [|lia|by apply Z.mod_pos_bound|lia].
    rewrite Z.add_mod_idemp_l by lia. do 5 f_equal. lia.
Qed.

(** Two rings with the same cells, read circularly, have the same slices. *)
Lemma ring_slice_ext n i j r r' :
  0 < r_maxsize r → 0 < r_maxsize r' → 0 <= i < r_maxsize r → 0 <= j < r_maxsize r' →
  (∀ k, 0 <= k < Z.of_nat n →
     r_buffer r !! Z.to_nat ((i + k) mod r_maxsize r)
     = r_buffer r' !! Z.to_nat ((j + k) mod r_maxsize r')) →
  ring_slice n i r = ring_slice n j r'.
Proof.
  intros Hm Hm' Hi Hj H. apply list_eq. intros k.
  destruct (decide (k < n)%nat) as [Hk|Hk].
  - rewrite !ring_slice_lookup by done. do 2 f_equal. apply H. lia.
  - rewrite !lookup_ge_None_2; [done|rewrite ring_slice_length; lia..].
Qed.

Lemma ring_slice_snoc n i r :
  0 < r_maxsize r → 0 <= i < r_maxsize r →
  ring_slice (S n) i r
  = ring_slice n i r ++ [default None (r_buffer r !! Z.to_nat ((i + Z.of_nat n) mod r_maxsize r))].
Proof.
  revert i. induction n as [|n IH]; intros i Hm Hi.
  - cbn. by rewrite Z.add_0_r, Z.mod_small by lia.
  - change (ring_slice (S (S n)) i r)
      with (default None (r_buffer r !! Z.to_nat i)
            :: ring_slice (S n) ((i + 1) mod r_maxsize r) r).
    rewrite IH by (try lia; by apply Z.mod_pos_bound). cbn [ring_slice app]. do 6 f_equal.
    rewrite Z.add_mod_idemp_l by lia. f_equal. lia.
Qed.

Lemma sumZ_u64_cons v q :
  u64 (u64 (sumZ tv_value (v :: q)) - tv_value v) = u64 (sumZ tv_value q).
Proof. unfold u64. rewrite Zminus_mod_idemp_l, sumZ_cons. f_equal. lia. Qed.

Lemma remove_old_loop_spec n t q time :
  avg_rep t q → n = length q →
  returns (remove_old_loop n t time) (λ t',
    avg_rep t' (drop_old (u64 (time - duration t)) q) ∧ duration t' = duration t ∧
    r_head (ring t') = r_head (ring t) ∧ r_buffer (ring t') = r_buffer (ring t)).
Proof.
  revert t q. induction n as [|n IH]; intros t q R Hn.
  { destruct q; [|done]. by apply returns_ok. }
  destruct q as [|v q]; [done|]. injection Hn as Hn.
  pose proof R as [Hm Hl Ht [Hs Hs'] [Hh Hh'] Hc Hsum].
  assert (Z.to_nat (r_size (ring t)) = S n) as Hsz by (rewrite Hs, zlen_cons; unfold zlen; lia).
  unfold ring_abs in Hc. rewrite Hsz in Hc. cbn [ring_slice fmap list_fmap] in Hc.
  injection Hc as Hc0 Hc.
  cbn [remove_old_loop drop_old]. destruct (Z.eqb_spec (r_size (ring t)) 0); [lia|].
  unfold ring_get. destruct (Z.ltb_spec (r_tail (ring t)) 0); [lia|].
  destruct (r_buffer (ring t) !! Z.to_nat (r_tail (ring t))) as [[w|]|]; try done.
  cbn in Hc0. injection Hc0 as ->. cbn [mbind outcome_bind].
  destruct (tv_time v <? u64 (time - duration t)); [|by apply returns_ok].
  refine (IH _ q _ Hn).
  rewrite zlen_cons in *. rewrite cmod_nonneg by lia.
  split; cbn.
  - done.
  - done.
  - apply Z.mod_pos_bound. lia.
  - lia.
  - rewrite Z.add_mod_idemp_l by lia. rewrite <- Hh. split; [f_equal; lia|lia].
  - unfold ring_abs; cbn. replace (Z.to_nat (r_size (ring t) - 1)) with n by lia.
    etransitivity; [|exact Hc]. apply ring_slice_ext; cbn; try done; by apply Z.mod_pos_bound.
  - rewrite Hsum. apply sumZ_u64_cons.
Qed.

Lemma remove_old_spec t q time :
  avg_rep t q →
  returns (remove_old t time) (λ t',
    avg_rep t' (drop_old (u64 (time - duration t)) q) ∧ duration t' = duration t).
Proof.
  intros R. eapply returns_mono.
  { apply (remove_old_loop_spec _ _ _ _ R). rewrite (proj1 (rep_size _ _ R)).
    unfold zlen. lia. }
  intros t' (R' & Hd & _). done.
Qed.

(** Doubling a full ring keeps its contents. *)
Lemma ring_grow_spec r :
  0 < r_maxsize r → zlen (r_buffer r) = r_maxsize r → r_size r = r_maxsize r →
  0 <= r_tail r < r_maxsize r → 0 <= r_head r < r_maxsize r →
  r_tail r = (r_head r + 1) mod r_maxsize r →
  returns (ring_grow r) (λ r',
    r_maxsize r' = 2 * r_maxsize r ∧ zlen (r_buffer r') = r_maxsize r' ∧
    r_size r' = r_size r ∧ r_tail r' = r_tail r ∧
    r_head r' + 1 = r_tail r + r_size r ∧ ring_abs r' = ring_abs r).
Proof.
  intros Hm Hl Hs Ht Hh Hth. unfold ring_grow. cbn. unfold zlen in *.
  set (ext := replicate _ None). set (b := r_buffer r) in *.
  assert (length ext = Z.to_nat (r_maxsize r)) as He.
  { unfold ext. rewrite length_replicate. lia. }
  destruct (Z.ltb_spec (r_head r) (r_tail r)) as [Hw|Hw].
  - (* wrapped: the head block is moved behind the old end *)
    assert (r_tail r = r_head r + 1) as Htl.
    { rewrite Hth. destruct (Z.eq_dec (r_head r + 1) (r_maxsize r)) as [E|E].
      - rewrite E, Z.mod_same in Hth by lia. lia.
      - apply Z.mod_small. lia. }
    destruct (Z.leb_spec 0 (r_head r)); [|lia]. cbn.
    rewrite length_app, He.
    destruct (Z.leb_spec (r_size r + r_head r + 1)
                (Z.of_nat (length b + Z.to_nat (r_maxsize r)))); [|lia].
    apply returns_ok. cbn. split_and!; try lia.
    { rewrite !length_app, !length_take, length_drop, length_app, He. lia. }
    unfold ring_abs. cbn. apply ring_slice_ext; cbn; try lia.
    intros k Hk. rewrite (Z.mod_small (r_tail r + k) (r_maxsize r * 2)) by lia.
    assert (take (Z.to_nat (r_size r)) (b ++ ext) = b) as Htb.
    { rewrite take_app_le by lia. apply take_ge. lia. }
    rewrite Htb. destruct (Z.lt_ge_cases (r_tail r + k) (r_maxsize r)) as [Hlt|Hge].
    + rewrite Z.mod_small by lia. rewrite lookup_app_l by lia. done.
    + replace ((r_tail r + k) mod r_maxsize r) with (r_tail r + k - r_maxsize r).
      2:{ rewrite <- (Z.mod_small (r_tail r + k - r_maxsize r) (r_maxsize r)) by lia.
          replace (r_tail r + k) with (r_tail r + k - r_maxsize r + 1 * r_maxsize r) at 2 by lia.
          by rewrite Z.mod_add by lia. }
      rewrite lookup_app_r by lia.
      rewrite lookup_app_l by (rewrite length_take, length_app; lia).
      rewrite lookup_take_lt by lia. rewrite lookup_app_l by lia. f_equal. lia.
  - (* not wrapped: the tail is at 0 *)
    assert (r_head r + 1 = r_maxsize r) as Hfull.
    { destruct (Z.eq_dec (r_head r + 1) (r_maxsize r)); [done|].
      rewrite Z.mod_small in Hth by lia. lia. }
    assert (r_tail r = 0) as Ht0 by (rewrite Hth, Hfull; apply Z.mod_same; lia).
    apply returns_ok. cbn. split_and!; try lia.
    { rewrite length_app, He. lia. }
    unfold ring_abs. cbn. apply ring_slice_ext; cbn; try lia.
    intros k Hk. rewrite !Z.mod_small by lia. rewrite lookup_app_l by lia. done.
Qed.

Lemma ring_push_spec r q v :
  0 < r_maxsize r → zlen (r_buffer r) = r_maxsize r → 0 <= r_tail r < r_maxsize r →
  r_size r = zlen q → zlen q < r_maxsize r →
  (r_tail r + r_size r) mod r_maxsize r = (r_head r + 1) mod r_maxsize r →
  ring_abs r = Some <$> q →
  let h := (r_head r + 1) mod r_maxsize r in
  ring_abs (r <| r_head := h |> <| r_buffer := <[Z.to_nat h := Some v]> (r_buffer r) |>
              <| r_size := r_size r + 1 |>) = Some <$> (q ++ [v]).
Proof.
  intros Hm Hl Ht Hs Hs' Hh Hc h. unfold ring_abs in *. cbn.
  assert (0 <= h < r_maxsize r) as Hhr by (apply Z.mod_pos_bound; lia).
  replace (Z.to_nat (r_size r + 1)) with (S (Z.to_nat (r_size r))) by (pose proof (zlen_nonneg q); lia).
  rewrite ring_slice_snoc by (cbn; lia). rewrite fmap_app. f_equal.
  - rewrite <- Hc. apply ring_slice_ext; cbn; try lia.
    intros k Hk. rewrite list_lookup_insert_ne; [done|]. subst h. rewrite <- Hh.
    intros E. apply Z2Nat.inj in E; [|apply Z.mod_pos_bound; lia..].
    assert (((r_tail r + r_size r) - (r_tail r + k)) mod r_maxsize r = 0) as Hd.
    { rewrite Zminus_mod, E, Z.sub_diag. apply Z.mod_0_l. lia. }
    rewrite Z.mod_small in Hd by lia. lia.
  - cbn. rewrite Z2Nat.id by (pose proof (zlen_nonneg q); lia). rewrite Hh. fold h.
    rewrite list_lookup_insert_eq; [done|]. unfold zlen in *. lia.
Qed.

Lemma avg_rep_new dur n :
  0 < n → Z.land n (n - 1) = 0 →
  returns (time_average_new dur n) (λ t, avg_rep t [] ∧ duration t = dur).
Proof.
  intros Hn Hp. unfold time_average_new. rewrite Hp. cbn. apply returns_ok.
  split; [|done]. split; cbn; try done; try lia.
  - zlen_lia.
  - zlen_lia.
  - rewrite Z.sub_add, Z.mod_same, Z.mod_0_l by lia. lia.
Qed.

Lemma avg_rep_reset t q : avg_rep t q → avg_rep (time_average_reset t) [].
Proof.
  intros [Hm Hl Ht [Hs Hs'] [Hh Hh'] Hc Hsum]. split; cbn; try done; try lia.
  { zlen_lia. }
  rewrite Z.sub_add, Z.mod_same, Z.mod_0_l by lia. lia.
Qed.

Lemma u64_add_l a b : u64 (u64 a + b) = u64 (a + b).
Proof. unfold u64. apply Zplus_mod_idemp_l. Qed.

(** After the room for one more sample is made, by doubling the array if need
    be, the ring still holds the same samples. *)
Lemma ring_make_room t q :
  avg_rep t q →
  returns (if r_size (ring t) =? r_maxsize (ring t) then ring_grow (ring t) else Ok (ring t))
    (λ r, 0 < r_maxsize r ∧ zlen (r_buffer r) = r_maxsize r ∧ 0 <= r_tail r < r_maxsize r ∧
          r_size r = zlen q ∧ zlen q < r_maxsize r ∧
          (r_tail r + r_size r) mod r_maxsize r = (r_head r + 1) mod r_maxsize r ∧
          0 <= r_head r ∧ ring_abs r = Some <$> q).
Proof.
  intros [Hm Hl Ht [Hs Hs'] [Hh Hh'] Hc Hsum].
  destruct (Z.eqb_spec (r_size (ring t)) (r_maxsize (ring t))) as [E|E].
  - eapply returns_mono.
    { apply ring_grow_spec; try done. rewrite <- Hh, E.
      replace (r_tail (ring t) + r_maxsize (ring t))
        with (r_tail (ring t) + 1 * r_maxsize (ring t)) by lia.
      by rewrite Z.mod_add, Z.mod_small by lia. }
    intros r (Hm1 & Hl1 & Hs1 & Ht1 & Hh1 & Ha1).
    split_and!; try lia; [|congruence]. rewrite Hh1, Ht1, Hs1. done.
  - apply returns_ok. split_and!; try done; lia.
Qed.

Lemma time_average_add_spec t q time value :
  avg_rep t q →
  returns (time_average_add t time value) (λ t',
    avg_rep t' (drop_old (u64 (time - duration t)) q ++ [mk_tv time value])
    ∧ duration t' = duration t).
Proof.
  intros R. unfold time_average_add.
  eapply returns_bind; [apply (remove_old_spec _ _ _ R)|]. clear R.
  generalize (drop_old (u64 (time - duration t)) q). intros q1 t1 [R Hd].
  eapply returns_bind; [apply (ring_make_room _ _ R)|].
  intros r (Hm & Hl & Ht & Hs & Hs' & Hh & Hh' & Ha). cbn.
  rewrite cmod_nonneg by lia. set (h := (r_head r + 1) mod r_maxsize r).
  assert (0 <= h < r_maxsize r) as Hr by (apply Z.mod_pos_bound; lia).
  destruct (Z.leb_spec 0 h); [|lia]. destruct (Z.ltb_spec h (zlen (r_buffer r))); [|lia].
  cbn. apply returns_ok. split; [|done]. split; cbn.
  - done.
  - unfold zlen in *. by rewrite length_insert.
  - done.
  - rewrite zlen_app, zlen_cons, zlen_nil. lia.
  - split; [|done]. unfold h. rewrite Z.add_mod_idemp_l by lia.
    rewrite Z.add_assoc, <- Z.add_mod_idemp_l, Hh, Z.add_mod_idemp_l by lia. done.
  - apply ring_push_spec; done.
  - rewrite (rep_sum _ _ R), u64_add_l, sumZ_app, sumZ_cons, sumZ_nil. cbn. f_equal. lia.
Qed.

(** The sample ring refines a queue. Adding a sample at [time] drops, from
    the oldest end, the samples older than the averaging window, appends the
    new sample and leaves the accumulated value equal to the sum (modulo 2^64)
    of exactly the samples kept; it never reads an indeterminate cell or writes
    out of the array, whether or not the array had to be doubled. *)
Theorem time_average_add_refines t q time value :
  avg_rep t q →
  returns (time_average_add t time value) (λ t',
    avg_rep t' (drop_old (u64 (time - duration t)) q ++ [mk_tv time value])
    ∧ duration t' = duration t).
Proof. apply time_average_add_spec. Qed.

(** Witness: a ring of one cell is filled twice, so it is doubled while
    wrapped, and both samples are in the window. *)
Lemma time_average_add_refines_witness :
  avg_rep (mk_avg 100 (mk_ring 0 0 [Some (mk_tv 5 7)] 1 1) 7) [mk_tv 5 7] ∧
  returns (time_average_add (mk_avg 100 (mk_ring 0 0 [Some (mk_tv 5 7)] 1 1) 7) 103 9)
    (λ t', avg_rep t' (drop_old (u64 (103 - 100)) [mk_tv 5 7] ++ [mk_tv 103 9])
           ∧ duration t' = 100).
Proof.
  assert (avg_rep (mk_avg 100 (mk_ring 0 0 [Some (mk_tv 5 7)] 1 1) 7) [mk_tv 5 7]) as R.
  { split; cbn; try reflexivity; zlen_lia. }
  split; [exact R|]. exact (time_average_add_refines _ _ 103 9 R).
Defined.

(** The average reported at [time] is over exactly the samples still in the
    window: the quotient is taken of their sum and their number, and an empty
    window reports 0. *)
Theorem time_average_get_average_refines t q time :
  avg_rep t q →
  let q' := drop_old (u64 (time - duration t)) q in
  returns (time_average_get_average t time) (λ '(t', (sum, count)),
    avg_rep t' q' ∧
    (q' = [] → sum = 0 ∧ count = 1) ∧
    (q' ≠ [] → sum = u64 (sumZ tv_value q') ∧ count = zlen q')).
Proof.
  intros R q'. unfold time_average_get_average.
  eapply returns_bind; [apply (remove_old_spec _ _ _ R)|]. intros t' [R' _].
  pose proof (rep_size _ _ R') as [Hs _].
  destruct (Z.eqb_spec (r_size (ring t')) 0) as [E|E]; apply returns_ok.
  - split_and!; [done|done|]. intros Hne. destruct (drop_old _ q) eqn:Eq; [done|].
    rewrite zlen_cons in Hs. pose proof (zlen_nonneg l). lia.
  - split_and!; [done| |].
    + intros Hq. fold q' in Hs. rewrite Hq, zlen_nil in Hs. lia.
    + intros _. split; [apply (rep_sum _ _ R')|done].
Qed.

Lemma time_average_get_average_refines_witness :
  let t := mk_avg 100 (mk_ring 1 0 [Some (mk_tv 5 7); Some (mk_tv 200 9)] 2 2) 16 in
  avg_rep t [mk_tv 5 7; mk_tv 200 9] ∧
  returns (time_average_get_average t 250) (λ '(t', (sum, count)),
    avg_rep t' [mk_tv 200 9] ∧
    ([mk_tv 200 9] = [] → sum = 0 ∧ count = 1) ∧
    ([mk_tv 200 9] ≠ [] → sum = u64 (sumZ tv_value [mk_tv 200 9]) ∧ count = zlen [mk_tv 200 9])).
Proof.
  intros t.
  assert (avg_rep t [mk_tv 5 7; mk_tv 200 9]) as R.
  { split; vm_compute; intuition congruence. }
  split; [exact R|]. exact (time_average_get_average_refines t _ 250 R).
Defined.
