(* ===== verification/RlcSdu.v ===== *)
(** * RLC SDUs and their segments

    Models [openair2/LAYER2/nr_rlc/nr_rlc_sdu.c] and [nr_rlc_sdu.h]. An SDU is
    one heap object shared by all the segments cut from it: its SN, its
    retransmission count and its reference counts are seen by every segment.
    The store [sdu_heap] maps addresses to live SDUs; a segment refers to its
    SDU by address ([g_sdu]) and has an address of its own ([g_addr]), which is
    what the tail pointers [tx_end] and [wait_end] of the entities hold. *)

From S2P Require Import Prelude.

Record nr_rlc_sdu_t := mk_sdu {
  s_sn : Z;
  s_upper_layer_id : Z;
  s_data : bytes;
  s_size : Z;
  s_retx_count : Z;
  s_ref_count : Z;            (* incremented each time the SDU is segmented *)
  s_free_count : Z;           (* incremented each time a segment is freed *)
  s_time_of_arrival : Z;      (* uint64_t, microsecond *)
}.
#[export] Instance eta_sdu : Eta nr_rlc_sdu_t := λ r,
  mk_sdu (s_sn r) (s_upper_layer_id r) (s_data r) (s_size r) (s_retx_count r)
         (s_ref_count r) (s_free_count r) (s_time_of_arrival r).
#[export] Instance set_s_sn : Setter s_sn := ltac:(derive_setter).
#[export] Instance set_s_retx_count : Setter s_retx_count := ltac:(derive_setter).
#[export] Instance set_s_ref_count : Setter s_ref_count := ltac:(derive_setter).
#[export] Instance set_s_free_count : Setter s_free_count := ltac:(derive_setter).
#[export] Instance set_s_time_of_arrival : Setter s_time_of_arrival := ltac:(derive_setter).

Record nr_rlc_sdu_segment_t := mk_seg {
  g_addr : positive;          (* the address of this node *)
  g_sdu : positive;           (* the address of the SDU *)
  g_size : Z;
  g_so : Z;
  g_is_first : bool;
  g_is_last : bool;
}.
#[export] Instance eta_seg : Eta nr_rlc_sdu_segment_t := λ r,
  mk_seg (g_addr r) (g_sdu r) (g_size r) (g_so r) (g_is_first r) (g_is_last r).
#[export] Instance set_g_addr : Setter g_addr := ltac:(derive_setter).
#[export] Instance set_g_size : Setter g_size := ltac:(derive_setter).
#[export] Instance set_g_so : Setter g_so := ltac:(derive_setter).
#[export] Instance set_g_is_first : Setter g_is_first := ltac:(derive_setter).
#[export] Instance set_g_is_last : Setter g_is_last := ltac:(derive_setter).

(** Live SDUs, and the next address [malloc] returns. *)
Record sdu_heap := mk_heap {
  h_sdus : gmap positive nr_rlc_sdu_t;
  h_next : positive;
}.
#[export] Instance eta_heap : Eta sdu_heap := λ r, mk_heap (h_sdus r) (h_next r).
#[export] Instance set_h_sdus : Setter h_sdus := ltac:(derive_setter).
#[export] Instance set_h_next : Setter h_next := ltac:(derive_setter).

Definition empty_heap : sdu_heap := mk_heap ∅ 1.

(** [*seg->sdu]. Every segment an entity holds refers to a live SDU (the
    invariants of the entities), so the default value is never used. *)
Definition null_sdu : nr_rlc_sdu_t := mk_sdu 0 0 [] 0 0 0 0 0.
Definition sdu_of (h : sdu_heap) (seg : nr_rlc_sdu_segment_t) : nr_rlc_sdu_t :=
  default null_sdu (h_sdus h !! g_sdu seg).
Definition upd_sdu (h : sdu_heap) (seg : nr_rlc_sdu_segment_t) (s : nr_rlc_sdu_t) : sdu_heap :=
  h <| h_sdus := <[g_sdu seg := s]> (h_sdus h) |>.

(** An address for a new node. *)
Definition new_addr (h : sdu_heap) : positive * sdu_heap :=
  (h_next h, h <| h_next := Pos.succ (h_next h) |>).

Definition nr_rlc_new_sdu (h : sdu_heap) (buffer : bytes) (size upper_layer_id : Z)
  : outcome (nr_rlc_sdu_segment_t * sdu_heap) :=
  d ← buf_sub buffer 0 size;
  let '(sdu, h) := new_addr h in
  let '(ret, h) := new_addr h in
  let s := mk_sdu (-1) upper_layer_id d size (-1) 1 0 0 in
  Ok (mk_seg ret sdu size 0 true true, h <| h_sdus := <[sdu := s]> (h_sdus h) |>).

(** Returns [true] when the SDU was freed too. Freeing a segment of an SDU that
    is no longer live is a use after free. *)
Definition nr_rlc_free_sdu_segment (h : sdu_heap) (seg : nr_rlc_sdu_segment_t)
  : outcome (bool * sdu_heap) :=
  match h_sdus h !! g_sdu seg with
  | None => Undef
  | Some s =>
      let s := s <| s_free_count := s_free_count s + 1 |> in
      if s_free_count s =? s_ref_count s
      then Ok (true, h <| h_sdus := delete (g_sdu seg) (h_sdus h) |>)
      else Ok (false, upd_sdu h seg s)
  end.

(** The nodes of [l] up to and including the one at address [a]. *)
Fixpoint list_upto (a : positive) (l : list nr_rlc_sdu_segment_t)
  : option (list nr_rlc_sdu_segment_t) :=
  match l with
  | [] => None
  | s :: r => if decide (g_addr s = a) then Some [s] else (s ::.) <$> list_upto a r
  end.

(** The node of [l] at address [a]. *)
Definition node_at (a : positive) (l : list nr_rlc_sdu_segment_t) : option nr_rlc_sdu_segment_t :=
  List.find (λ s, bool_decide (g_addr s = a)) l.

(** Append at the node the tail pointer [end] designates: whatever followed
    that node is cut off; a null or stale tail pointer is a bad dereference.
    [sdu->next] is NULL. *)
Definition nr_rlc_sdu_segment_list_append (l : list nr_rlc_sdu_segment_t) (end_ : option positive)
    (sdu : nr_rlc_sdu_segment_t)
  : outcome (list nr_rlc_sdu_segment_t * option positive) :=
  match l with
  | [] => Ok ([sdu], Some (g_addr sdu))
  | _ =>
      match end_ with
      | None => Undef
      | Some a =>
          match list_upto a l with
          | None => Undef
          | Some pre => Ok (pre ++ [sdu], Some (g_addr sdu))
          end
      end
  end.

Fixpoint nr_rlc_free_sdu_segment_list (h : sdu_heap) (l : list nr_rlc_sdu_segment_t)
  : outcome sdu_heap :=
  match l with
  | [] => Ok h
  | cur :: l' => '(_, h) ← nr_rlc_free_sdu_segment h cur; nr_rlc_free_sdu_segment_list h l'
  end.

(** The nodes before the first one of the SDU [sdu_id], that node, what follows. *)
Fixpoint find_sdu_id (h : sdu_heap) (sdu_id : Z) (l : list nr_rlc_sdu_segment_t)
  : option (list nr_rlc_sdu_segment_t * nr_rlc_sdu_segment_t * list nr_rlc_sdu_segment_t) :=
  match l with
  | [] => None
  | cur :: next =>
      if s_upper_layer_id (sdu_of h cur) =? sdu_id then Some ([], cur, next)
      else (λ '(pre, c, post), (cur :: pre, c, post)) <$> find_sdu_id h sdu_id next
  end.

Lemma sdu_of_lookup h g s : h_sdus h !! g_sdu g = Some s → sdu_of h g = s.
Proof. intros H. unfold sdu_of. by rewrite H. Qed.

Lemma sdu_of_ext h h' g : h_sdus h' !! g_sdu g = h_sdus h !! g_sdu g → sdu_of h' g = sdu_of h g.
Proof. intros H. unfold sdu_of. by rewrite H. Qed.

(** ** Tail pointers *)

(** The tail pointer of [l] is the address of its last node. *)
Definition tail_ok (l : list nr_rlc_sdu_segment_t) (end_ : option positive) : Prop :=
  end_ = g_addr <$> last l ∧ NoDup (g_addr <$> l).

Lemma list_upto_last l s :
  last l = Some s → NoDup (g_addr <$> l) → list_upto (g_addr s) l = Some l.
Proof.
  induction l as [|x l IH]; intros Hl Hnd; [done|].
  cbn [fmap list_fmap] in Hnd. apply NoDup_cons in Hnd as [Hx Hnd].
  cbn [list_upto]. destruct l as [|y l].
  - cbn in Hl. injection Hl as ->. by rewrite decide_True.
  - rewrite last_cons_cons in Hl. rewrite decide_False.
    + by rewrite IH.
    + intros E. apply Hx. rewrite E. apply list_elem_of_fmap_2. by apply last_Some_elem_of.
Qed.

(** With a correct tail pointer, append adds at the end and the tail pointer
    stays correct. *)
Lemma list_append_ok l end_ s :
  tail_ok l end_ → g_addr s ∉ g_addr <$> l →
  nr_rlc_sdu_segment_list_append l end_ s = Ok (l ++ [s], Some (g_addr s))
  ∧ tail_ok (l ++ [s]) (Some (g_addr s)).
Proof.
  intros [He Hnd] Hs. split.
  - destruct l as [|x l]; [done|]. unfold nr_rlc_sdu_segment_list_append.
    destruct (last (x :: l)) as [y|] eqn:Ey; [|by apply last_None in Ey].
    subst end_. cbn [fmap option_fmap option_map]. by rewrite (list_upto_last _ y).
  - split; [by rewrite last_snoc|]. rewrite fmap_app. cbn. apply NoDup_app. split_and!; [done| |].
    + intros a Ha Ha'. apply list_elem_of_singleton in Ha'. by subst.
    + apply NoDup_singleton.
Qed.

Lemma node_at_last l s :
  last l = Some s → NoDup (g_addr <$> l) → node_at (g_addr s) l = Some s.
Proof.
  induction l as [|x l IH]; intros Hl Hnd; [done|].
  cbn [fmap list_fmap] in Hnd. apply NoDup_cons in Hnd as [Hx Hnd].
  unfold node_at. cbn [List.find]. destruct l as [|y l].
  - cbn in Hl. injection Hl as ->. by rewrite bool_decide_true.
  - rewrite last_cons_cons in Hl. rewrite bool_decide_false.
    + by apply IH.
    + intros E. apply Hx. rewrite E. apply list_elem_of_fmap_2. by apply last_Some_elem_of.
Qed.

(** ** Reference counting

    [heap_wf h l]: [l] are all the segments an entity holds (in whatever list,
    in whatever order), and the store is exactly what they need: every segment
    lies within a live SDU, and for every live SDU [ref_count - free_count] is
    the number of its segments, which is not zero. *)
Definition seg_refs (l : list nr_rlc_sdu_segment_t) (p : positive) : Z :=
  sumZ (λ g, if decide (g_sdu g = p) then 1 else 0) l.

#[global] Arguments seg_refs : simpl never.

Record heap_wf (h : sdu_heap) (l : list nr_rlc_sdu_segment_t) : Prop := {
  hw_count : ∀ p s, h_sdus h !! p = Some s →
    s_ref_count s - s_free_count s = seg_refs l p ∧ 0 < seg_refs l p;
  hw_data : ∀ p s, h_sdus h !! p = Some s → zlen (s_data s) = s_size s;
  hw_live : ∀ g, g ∈ l → ∃ s, h_sdus h !! g_sdu g = Some s ∧
    0 <= g_so g ∧ 0 <= g_size g ∧ g_so g + g_size g <= s_size s;
  hw_addr : NoDup (g_addr <$> l);
  hw_fresh : ∀ g, g ∈ l → (g_addr g < h_next h)%positive;
  hw_next : ∀ p s, h_sdus h !! p = Some s → (p < h_next h)%positive;
}.

(** The bytes of all live SDUs, what the entities call [tx_size]. *)
Definition live_size (h : sdu_heap) : Z := sumZ (λ ps, s_size ps.2) (map_to_list (h_sdus h)).

Lemma seg_refs_cons g l p :
  seg_refs (g :: l) p = (if decide (g_sdu g = p) then 1 else 0) + seg_refs l p.
Proof. reflexivity. Qed.

Lemma seg_refs_nonneg l p : 0 <= seg_refs l p.
Proof. apply sumZ_nonneg. intros g _. case_decide; lia. Qed.

Lemma seg_refs_zero l p : seg_refs l p = 0 → ∀ g, g ∈ l → g_sdu g ≠ p.
Proof.
  induction l as [|x l IH]; intros H g Hg; [set_solver|].
  rewrite seg_refs_cons in H. pose proof (seg_refs_nonneg l p).
  apply elem_of_cons in Hg as [->|Hg]; case_decide; try done; try lia.
  apply IH; [lia|done].
Qed.

Lemma seg_refs_none l p : (∀ g, g ∈ l → g_sdu g ≠ p) → seg_refs l p = 0.
Proof.
  induction l as [|x l IH]; intros H; [done|]. rewrite seg_refs_cons.
  rewrite decide_False by (apply H; set_solver). rewrite IH; [done|].
  intros g Hg. apply H. set_solver.
Qed.

Lemma heap_wf_perm h l k : l ≡ₚ k → heap_wf h l → heap_wf h k.
Proof.
  intros P [H1 H2 H3 H4 H5 H6]. split.
  - intros p s Hs. destruct (H1 p s Hs). unfold seg_refs in *.
    by rewrite <- (sumZ_perm _ _ _ P).
  - done.
  - intros g Hg. apply H3. by rewrite P.
  - by rewrite <- P.
  - intros g Hg. apply H5. by rewrite P.
  - done.
Qed.

Lemma heap_wf_empty : heap_wf empty_heap [].
Proof. split; try done; try set_solver. apply NoDup_nil_2. Qed.

Lemma live_size_insert_new h p s :
  h_sdus h !! p = None →
  live_size (h <| h_sdus := <[p := s]> (h_sdus h) |>) = s_size s + live_size h.
Proof.
  intros Hp. unfold live_size. cbn.
  rewrite (sumZ_perm _ _ _ (map_to_list_insert _ _ s Hp)). done.
Qed.

Lemma live_size_delete h p s :
  h_sdus h !! p = Some s →
  live_size (h <| h_sdus := delete p (h_sdus h) |>) = live_size h - s_size s.
Proof.
  intros Hp. unfold live_size. cbn.
  rewrite <- (sumZ_perm _ _ _ (map_to_list_delete _ _ _ Hp)), sumZ_cons. cbn. lia.
Qed.

Lemma live_size_update h p s s' :
  h_sdus h !! p = Some s → s_size s' = s_size s →
  live_size (h <| h_sdus := <[p := s']> (h_sdus h) |>) = live_size h.
Proof.
  intros Hp Hs. unfold live_size. cbn.
  assert (<[p:=s']> (h_sdus h) !! p = Some s') as Hp' by apply lookup_insert_eq.
  rewrite <- (sumZ_perm _ _ _ (map_to_list_delete _ _ _ Hp)).
  rewrite <- (sumZ_perm _ _ _ (map_to_list_delete _ _ _ Hp')).
  rewrite !sumZ_cons, delete_insert_eq. cbn. lia.
Qed.

(** A new SDU has one segment, covering it. *)
Lemma new_sdu_ok h l buffer size id :
  heap_wf h l → 0 <= size <= zlen buffer →
  returns (nr_rlc_new_sdu h buffer size id) (λ '(g, h'),
    heap_wf h' (g :: l) ∧ live_size h' = live_size h + size ∧
    g_size g = size ∧ g_so g = 0 ∧ g_is_first g = true ∧ g_is_last g = true ∧
    h_sdus h' !! g_sdu g
      = Some (mk_sdu (-1) id (take (Z.to_nat size) buffer) size (-1) 1 0 0) ∧
    (∀ p s, h_sdus h !! p = Some s → h_sdus h' !! p = Some s) ∧
    (∀ k, k ∈ l → g_sdu k ≠ g_sdu g)).
Proof.
  intros W Hs. unfold nr_rlc_new_sdu. rewrite buf_sub_ok by lia.
  cbn [mbind outcome_bind]. rewrite drop_0.
  unfold new_addr. cbn. set (p := h_next h). set (s := mk_sdu _ _ _ _ _ _ _ _).
  assert (h_sdus h !! p = None) as Hp.
  { destruct (h_sdus h !! p) as [s'|] eqn:E; [|done]. pose proof (hw_next _ _ W _ _ E). lia. }
  assert (∀ k, k ∈ l → g_sdu k ≠ p) as Hne.
  { intros k Hk E. destruct (hw_live _ _ W k Hk) as (s' & Hs' & _). congruence. }
  apply returns_ok. split_and!; try done.
  - split; cbn.
    + intros q s'. destruct (decide (q = p)) as [->|Hq].
      * rewrite lookup_insert_eq. intros [= <-]. rewrite seg_refs_cons, decide_True by done.
        rewrite seg_refs_none by done. cbn. lia.
      * rewrite lookup_insert_ne by done. intros E. rewrite seg_refs_cons, decide_False by done.
        destruct (hw_count _ _ W _ _ E). lia.
    + intros q s'. destruct (decide (q = p)) as [->|Hq].
      * rewrite lookup_insert_eq. intros [= <-]. cbn. zlen_lia.
      * rewrite lookup_insert_ne by done. apply (hw_data _ _ W).
    + intros g Hg. apply elem_of_cons in Hg as [->|Hg]; cbn.
      * exists s. rewrite lookup_insert_eq. cbn. split_and!; [done|lia..].
      * destruct (hw_live _ _ W g Hg) as (s' & Hs' & ?). exists s'.
        rewrite lookup_insert_ne by (symmetry; by apply Hne). done.
    + apply NoDup_cons. split; [|apply (hw_addr _ _ W)].
      intros Hin. apply list_elem_of_fmap in Hin as (g & E & Hg).
      pose proof (hw_fresh _ _ W g Hg). lia.
    + intros g Hg. apply elem_of_cons in Hg as [->|Hg]; cbn; [lia|].
      pose proof (hw_fresh _ _ W g Hg). lia.
    + intros q s'. destruct (decide (q = p)) as [->|Hq]; [lia|].
      rewrite lookup_insert_ne by done. intros E. pose proof (hw_next _ _ W _ _ E). lia.
  - rewrite <- (live_size_insert_new h p s Hp) || idtac.
    unfold live_size; cbn. rewrite (sumZ_perm _ _ _ (map_to_list_insert _ _ s Hp)).
    rewrite sumZ_cons. cbn. lia.
  - cbn. apply lookup_insert_eq.
  - intros q s' E. cbn. rewrite lookup_insert_ne; [done|]. congruence.
Qed.

(** Freeing a held segment never faults, and frees the SDU exactly when no
    other held segment refers to it. *)
Lemma free_segment_ok h g l :
  heap_wf h (g :: l) →
  returns (nr_rlc_free_sdu_segment h g) (λ '(b, h'),
    heap_wf h' l ∧
    b = bool_decide (seg_refs l (g_sdu g) = 0) ∧
    live_size h' = live_size h - (if b then s_size (sdu_of h g) else 0) ∧
    h_next h' = h_next h ∧
    (∀ p, p ≠ g_sdu g → h_sdus h' !! p = h_sdus h !! p) ∧
    (∀ k, k ∈ l → g_sdu k = g_sdu g →
       h_sdus h' !! g_sdu g
       = Some (sdu_of h g <| s_free_count := s_free_count (sdu_of h g) + 1 |>))).
Proof.
  intros W. destruct (hw_live _ _ W g (list_elem_of_here _ _)) as (s & Hs & Hb).
  destruct (hw_count _ _ W _ _ Hs) as [Hc Hc0].
  rewrite seg_refs_cons, decide_True in Hc, Hc0 by done.
  assert (sdu_of h g = s) as Hsdu by (unfold sdu_of; by rewrite Hs).
  pose proof (seg_refs_nonneg l (g_sdu g)) as Hnn.
  pose proof (hw_addr _ _ W) as Hnd. cbn in Hnd. apply NoDup_cons in Hnd as [Hga Hnd].
  unfold nr_rlc_free_sdu_segment. rewrite Hs. cbn.
  destruct (Z.eqb_spec (s_free_count s + 1) (s_ref_count s)) as [E|E]; apply returns_ok.
  - (* last segment *)
    assert (seg_refs l (g_sdu g) = 0) as H0 by lia.
    split_and!.
    + split; cbn.
      * intros p s' Hp. apply lookup_delete_Some in Hp as [Hne Hp].
        destruct (hw_count _ _ W _ _ Hp) as [Hc' Hc0'].
        rewrite seg_refs_cons, decide_False in Hc', Hc0' by done. lia.
      * intros p s' Hp. apply lookup_delete_Some in Hp as [_ Hp]. by apply (hw_data _ _ W p).
      * intros k Hk. destruct (hw_live _ _ W k (list_elem_of_further _ _ _ Hk)) as (s' & Hs' & ?).
        exists s'. rewrite lookup_delete_ne; [done|].
        intros Ek. by apply (seg_refs_zero l _ H0 k Hk).
      * done.
      * intros k Hk. apply (hw_fresh _ _ W). set_solver.
      * intros p s' Hp. apply lookup_delete_Some in Hp as [_ Hp]. by apply (hw_next _ _ W p s').
    + by rewrite bool_decide_true.
    + rewrite (live_size_delete h _ s) by done. by rewrite Hsdu.
    + done.
    + intros p Hp. cbn. by rewrite lookup_delete_ne.
    + intros k Hk Ek. by destruct (seg_refs_zero l _ H0 k Hk).
  - assert (seg_refs l (g_sdu g) ≠ 0) as H0 by lia.
    split_and!.
    + split; cbn.
      * intros p s'. destruct (decide (p = g_sdu g)) as [->|Hne].
        -- rewrite lookup_insert_eq. intros [= <-]. cbn. lia.
        -- rewrite lookup_insert_ne by done. intros Hp.
           destruct (hw_count _ _ W _ _ Hp) as [Hc' Hc0'].
           rewrite seg_refs_cons, decide_False in Hc', Hc0' by done. lia.
      * intros p s'. destruct (decide (p = g_sdu g)) as [->|Hne].
        -- rewrite lookup_insert_eq. intros [= <-]. cbn. by apply (hw_data _ _ W (g_sdu g)).
        -- rewrite lookup_insert_ne by done. apply (hw_data _ _ W).
      * intros k Hk. destruct (hw_live _ _ W k (list_elem_of_further _ _ _ Hk)) as (s' & Hs' & Hb').
        destruct (decide (g_sdu k = g_sdu g)) as [Ek|Ek].
        -- rewrite Ek, lookup_insert_eq. eexists. split; [done|]. cbn.
           rewrite Ek, Hs in Hs'. injection Hs' as <-. done.
        -- rewrite lookup_insert_ne by done. eauto.
      * done.
      * intros k Hk. apply (hw_fresh _ _ W). set_solver.
      * intros p s'. destruct (decide (p = g_sdu g)) as [->|Hne].
        -- intros _. by apply (hw_next _ _ W _ s).
        -- rewrite lookup_insert_ne by done. apply (hw_next _ _ W).
    + by rewrite bool_decide_false.
    + unfold upd_sdu. rewrite (live_size_update _ _ s); [lia|done|done].
    + done.
    + intros p Hp. cbn. by rewrite lookup_insert_ne.
    + intros k Hk Ek. cbn. by rewrite lookup_insert_eq, Hsdu.
Qed.

Lemma free_segment_list_ok h l k :
  heap_wf h (l ++ k) →
  returns (nr_rlc_free_sdu_segment_list h l) (λ h', heap_wf h' k ∧ h_next h' = h_next h).
Proof.
  revert h. induction l as [|g l IH]; intros h W; [by apply returns_ok|].
  cbn [nr_rlc_free_sdu_segment_list]. eapply returns_bind; [apply (free_segment_ok _ _ _ W)|].
  intros [b h'] (W' & _ & _ & Hn & _). eapply returns_mono; [apply IH; exact W'|].
  intros h'' [? ?]. split; [done|congruence].
Qed.

Lemma heap_wf_nil h : heap_wf h [] → h_sdus h = ∅.
Proof.
  intros W. apply map_eq. intros p. rewrite lookup_empty.
  destruct (h_sdus h !! p) as [s|] eqn:E; [|done].
  destruct (hw_count _ _ W _ _ E) as [_ H]. unfold seg_refs in H. rewrite sumZ_nil in H. lia.
Qed.

(** Changing fields of a live SDU other than its size, data and counts. *)
Lemma heap_wf_update h l p s s' :
  heap_wf h l → h_sdus h !! p = Some s →
  s_size s' = s_size s → s_data s' = s_data s →
  s_ref_count s' - s_free_count s' = s_ref_count s - s_free_count s →
  heap_wf (h <| h_sdus := <[p := s']> (h_sdus h) |>) l.
Proof.
  intros W Hp Hsz Hd Hc. split; cbn.
  - intros q t. destruct (decide (q = p)) as [->|Hq].
    + rewrite lookup_insert_eq. intros [= <-]. rewrite Hc. by apply (hw_count _ _ W).
    + rewrite lookup_insert_ne by done. apply (hw_count _ _ W).
  - intros q t. destruct (decide (q = p)) as [->|Hq].
    + rewrite lookup_insert_eq. intros [= <-]. rewrite Hd, Hsz. by apply (hw_data _ _ W p).
    + rewrite lookup_insert_ne by done. apply (hw_data _ _ W).
  - intros g Hg. destruct (hw_live _ _ W g Hg) as (t & Ht & Hb).
    destruct (decide (g_sdu g = p)) as [E|E].
    + exists s'. rewrite E, lookup_insert_eq. rewrite E, Hp in Ht. injection Ht as <-.
      rewrite Hsz. done.
    + rewrite lookup_insert_ne by done. eauto.
  - apply (hw_addr _ _ W).
  - apply (hw_fresh _ _ W).
  - intros q t. destruct (decide (q = p)) as [->|Hq].
    + intros _. by apply (hw_next _ _ W _ s).
    + rewrite lookup_insert_ne by done. apply (hw_next _ _ W).
Qed.

(** Cutting a segment in two: one more reference to its SDU, one more node. *)
Lemma heap_wf_split h g l g1 g2 k :
  heap_wf h (g :: l) → 0 <= k <= g_size g →
  g_addr g1 = g_addr g → g_sdu g1 = g_sdu g → g_so g1 = g_so g → g_size g1 = k →
  g_addr g2 = h_next h → g_sdu g2 = g_sdu g → g_so g2 = g_so g + k → g_size g2 = g_size g - k →
  let s := sdu_of h g in
  heap_wf (upd_sdu h g (s <| s_ref_count := s_ref_count s + 1 |>)
             <| h_next := Pos.succ (h_next h) |>) (g1 :: g2 :: l).
Proof.
  intros W Hk A1 S1 O1 Z1 A2 S2 O2 Z2 s.
  destruct (hw_live _ _ W g (list_elem_of_here _ _)) as (t & Ht & Hb).
  assert (s = t) as -> by (unfold s, sdu_of; by rewrite Ht).
  destruct (hw_count _ _ W _ _ Ht) as [Hc Hc0].
  pose proof (hw_addr _ _ W) as Hnd. rewrite fmap_cons in Hnd. apply NoDup_cons in Hnd as [Hga Hnd].
  split; cbn.
  - intros p u. rewrite !seg_refs_cons, S1, S2. destruct (decide (g_sdu g = p)) as [<-|Hne].
    + rewrite lookup_insert_eq. intros [= <-]. cbn. rewrite seg_refs_cons, decide_True in Hc, Hc0 by done. lia.
    + rewrite lookup_insert_ne by done. intros Hp. destruct (hw_count _ _ W _ _ Hp) as [Hc' Hc0'].
      rewrite seg_refs_cons, decide_False in Hc', Hc0' by done. lia.
  - intros p u. destruct (decide (g_sdu g = p)) as [<-|Hne].
    + rewrite lookup_insert_eq. intros [= <-]. cbn. by apply (hw_data _ _ W (g_sdu g)).
    + rewrite lookup_insert_ne by done. apply (hw_data _ _ W).
  - intros x Hx. apply elem_of_cons in Hx as [->|Hx]; [|apply elem_of_cons in Hx as [->|Hx]].
    + rewrite S1, lookup_insert_eq, O1, Z1. eexists. split; [done|]. cbn. lia.
    + rewrite S2, lookup_insert_eq, O2, Z2. eexists. split; [done|]. cbn. lia.
    + destruct (hw_live _ _ W x (list_elem_of_further _ _ _ Hx)) as (u & Hu & Hbu).
      destruct (decide (g_sdu g = g_sdu x)) as [E|E].
      * rewrite <- E, lookup_insert_eq. rewrite <- E, Ht in Hu. injection Hu as <-.
        eexists. split; [done|]. cbn. done.
      * rewrite lookup_insert_ne by done. eauto.
  - rewrite A1, A2. apply NoDup_cons. split; [|apply NoDup_cons; split; [|done]].
    + intros [E|Hin]%elem_of_cons; [|done].
      pose proof (hw_fresh _ _ W g (list_elem_of_here _ _)). lia.
    + intros (x & E & Hx)%list_elem_of_fmap.
      pose proof (hw_fresh _ _ W x (list_elem_of_further _ _ _ Hx)). lia.
  - intros x Hx. apply elem_of_cons in Hx as [->|Hx]; [|apply elem_of_cons in Hx as [->|Hx]].
    + rewrite A1. pose proof (hw_fresh _ _ W g (list_elem_of_here _ _)). lia.
    + rewrite A2. lia.
    + pose proof (hw_fresh _ _ W x (list_elem_of_further _ _ _ Hx)). lia.
  - intros p u. destruct (decide (g_sdu g = p)) as [<-|Hne].
    + intros _. pose proof (hw_next _ _ W _ _ Ht). lia.
    + rewrite lookup_insert_ne by done. intros Hp. pose proof (hw_next _ _ W _ _ Hp). lia.
Qed.

(** What an update of an SDU that keeps its bytes means to its readers. *)
Definition same_data (h h' : sdu_heap) (l : list nr_rlc_sdu_segment_t) : Prop :=
  ∀ k, k ∈ l → s_data (sdu_of h' k) = s_data (sdu_of h k) ∧
               s_size (sdu_of h' k) = s_size (sdu_of h k).

Lemma same_data_refl h l : same_data h h l.
Proof. by intros k _. Qed.
Lemma same_data_trans h1 h2 h3 l : same_data h1 h2 l → same_data h2 h3 l → same_data h1 h3 l.
Proof. intros H1 H2 k Hk. destruct (H1 k Hk) as [<- <-]. by apply H2. Qed.
Lemma same_data_sub h h' l l' : (∀ k, k ∈ l' → k ∈ l) → same_data h h' l → same_data h h' l'.
Proof. intros Hs H k Hk. apply H. auto. Qed.

Lemma same_data_upd h g s l :
  is_Some (h_sdus h !! g_sdu g) →
  s_data s = s_data (sdu_of h g) → s_size s = s_size (sdu_of h g) →
  same_data h (upd_sdu h g s) l.
Proof.
  intros [t Ht] Hd Hs k _. unfold upd_sdu, sdu_of in *. cbn. rewrite Ht in Hd, Hs. cbn in Hd, Hs.
  destruct (decide (g_sdu g = g_sdu k)) as [E|E].
  - rewrite <- E, lookup_insert_eq, Ht. done.
  - by rewrite lookup_insert_ne.
Qed.

(** After a segment is freed, the others still see the same bytes. *)
Lemma free_segment_same_data h g l b h' :
  heap_wf h (g :: l) → nr_rlc_free_sdu_segment h g = Ok (b, h') → same_data h h' l.
Proof.
  intros W E k Hk.
  destruct (free_segment_ok h g l W) as ([b' h''] & E' & _ & _ & _ & _ & Ho & Hs).
  rewrite E in E'. injection E' as <- <-.
  destruct (decide (g_sdu k = g_sdu g)) as [Ek|Ek].
  - specialize (Hs k Hk Ek). unfold sdu_of at 1 3. rewrite Ek, Hs. cbn.
    unfold sdu_of. by rewrite Ek.
  - specialize (Ho _ Ek). unfold sdu_of. by rewrite Ho.
Qed.

(** Storing the arrival time of an SDU changes nothing else. *)
Lemma upd_time_sdu_of h g now k :
  is_Some (h_sdus h !! g_sdu g) →
  let h' := upd_sdu h g (sdu_of h g <| s_time_of_arrival := now |>) in
  s_data (sdu_of h' k) = s_data (sdu_of h k) ∧ s_size (sdu_of h' k) = s_size (sdu_of h k) ∧
  s_sn (sdu_of h' k) = s_sn (sdu_of h k).
Proof.
  intros [s Hs] h'. unfold h', upd_sdu, sdu_of. cbn.
  destruct (decide (g_sdu g = g_sdu k)) as [E|E].
  - rewrite <- E, lookup_insert_eq, Hs. done.
  - by rewrite lookup_insert_ne.
Qed.

Lemma heap_wf_upd_time h l g now :
  heap_wf h l → is_Some (h_sdus h !! g_sdu g) →
  heap_wf (upd_sdu h g (sdu_of h g <| s_time_of_arrival := now |>)) l.
Proof.
  intros W [s Hs]. unfold upd_sdu. apply (heap_wf_update _ _ _ s); try done;
    by rewrite (sdu_of_lookup _ _ _ Hs).
Qed.
