(* ===== verification/RlcRxManager.v ===== *)
(** * Reception buffer of the acknowledged mode

    Models [openair2/LAYER2/nr_rlc/nr_rlc_rx_manager.c]: the received segments,
    one list per SN ordered by segment offset, in a circular array of
    [2^(n-1)] slots for an SN of [n] bits. Slot [start] holds SN [sn_start].
    The array is a finite map from indices to non-empty lists; a missing index
    is a NULL slot. *)

From S2P Require Import Prelude Bits RlcPdu.

Record nr_rlc_rx_manager_t := mk_rxm {
  m_rx_list : gmap Z (list nr_rlc_pdu_t);
  m_size : Z;
  m_start : Z;
  m_sn_start : Z;
}.
#[export] Instance eta_rxm : Eta nr_rlc_rx_manager_t := λ r,
  mk_rxm (m_rx_list r) (m_size r) (m_start r) (m_sn_start r).
#[export] Instance set_m_rx_list : Setter m_rx_list := ltac:(derive_setter).
#[export] Instance set_m_start : Setter m_start := ltac:(derive_setter).
#[export] Instance set_m_sn_start : Setter m_sn_start := ltac:(derive_setter).

Definition nr_rlc_new_rx_manager (size : Z) : nr_rlc_rx_manager_t := mk_rxm ∅ size 0 0.

Definition nr_rlc_clear_rx_manager (m : nr_rlc_rx_manager_t) : nr_rlc_rx_manager_t :=
  m <| m_rx_list := ∅ |> <| m_start := 0 |> <| m_sn_start := 0 |>.

Definition get_pos (m : nr_rlc_rx_manager_t) (sn : Z) : Z :=
  cmod (m_start m + (sn - m_sn_start m + m_size m * 2)) (m_size m).

Definition nr_rlc_rx_manager_get_pdu_from_sn (m : nr_rlc_rx_manager_t) (sn : Z)
  : list nr_rlc_pdu_t :=
  default [] (m_rx_list m !! get_pos m sn).

(** The in-place change of the nodes of the list of [sn]. *)
Definition rx_manager_set_pdus (m : nr_rlc_rx_manager_t) (sn : Z) (l : list nr_rlc_pdu_t)
  : nr_rlc_rx_manager_t :=
  m <| m_rx_list := <[get_pos m sn := l]> (m_rx_list m) |>.

Definition nr_rlc_rx_manager_clear_pdu (m : nr_rlc_rx_manager_t) (sn : Z) : nr_rlc_rx_manager_t :=
  m <| m_rx_list := delete (get_pos m sn) (m_rx_list m) |>.

Definition nr_rlc_rx_manager_advance (m : nr_rlc_rx_manager_t) (count : Z) : nr_rlc_rx_manager_t :=
  m <| m_start := cmod (m_start m + count) (m_size m) |>.

Definition nr_rlc_rx_manager_set_start (m : nr_rlc_rx_manager_t) (sn_start : Z)
  : nr_rlc_rx_manager_t :=
  m <| m_sn_start := sn_start |>.

(** The ordered insertion of [nr_rlc_rx_manager_add_pdu]: by [so], after equals. *)
Fixpoint insert_by_so (l : list nr_rlc_pdu_t) (pdu : nr_rlc_pdu_t) : list nr_rlc_pdu_t :=
  match l with
  | [] => [pdu]
  | cur :: next => if p_so pdu <? p_so cur then pdu :: cur :: next
                   else cur :: insert_by_so next pdu
  end.

Definition nr_rlc_rx_manager_add_pdu (m : nr_rlc_rx_manager_t) (pdu : nr_rlc_pdu_t)
  : nr_rlc_rx_manager_t :=
  rx_manager_set_pdus m (p_sn pdu)
    (insert_by_so (nr_rlc_rx_manager_get_pdu_from_sn m (p_sn pdu)) pdu).

(** ** The circular buffer is a window of lists indexed by SN

    [rxm_wf m]: the slot of an SN depends on the SN alone, modulo the size, so
    advancing the window moves no list. SNs range over [0, 2 * size). *)
Record rxm_wf (m : nr_rlc_rx_manager_t) : Prop := {
  rxm_size : 0 < m_size m;
  rxm_start : 0 <= m_start m < m_size m;
  rxm_sn_start : 0 <= m_sn_start m < 2 * m_size m;
  rxm_phase : m_start m = m_sn_start m mod m_size m;
}.

Lemma rxm_wf_new size : 0 < size → rxm_wf (nr_rlc_new_rx_manager size).
Proof. intros H. split; cbn; try lia. by rewrite Z.mod_0_l by lia. Qed.

Lemma get_pos_mod m sn : rxm_wf m → 0 <= sn < 2 * m_size m → get_pos m sn = sn mod m_size m.
Proof.
  intros [Hs Hst Hsn Hp] H. unfold get_pos. rewrite cmod_nonneg by lia.
  rewrite Hp, Z.add_mod_idemp_l by lia.
  replace (m_sn_start m + (sn - m_sn_start m + m_size m * 2)) with (sn + 2 * m_size m) by lia.
  by rewrite Z.mod_add by lia.
Qed.

Lemma mod_mul2_mod x size : 0 < size → x mod (2 * size) mod size = x mod size.
Proof.
  intros H. rewrite (Z.mul_comm 2), Z.rem_mul_r by lia.
  rewrite (Z.mul_comm size), Z.mod_add by lia. apply Zmod_mod.
Qed.

(** Two SNs of one window never share a slot. *)
Lemma window_slot_inj size base a b :
  0 < size → 0 <= base < 2 * size → 0 <= a < 2 * size → 0 <= b < 2 * size →
  (a - base) mod (2 * size) < size → (b - base) mod (2 * size) < size →
  a mod size = b mod size → a = b.
Proof.
  intros Hs Hbase Ha Hb Hwa Hwb E.
  assert ((a - base) mod (2 * size) mod size = (b - base) mod (2 * size) mod size) as E'.
  { rewrite !mod_mul2_mod by lia. by rewrite Zminus_mod, E, <- Zminus_mod. }
  assert (∀ x, 0 <= x < 2 * size →
    (x - base) mod (2 * size) = if x <? base then x - base + 2 * size else x - base) as Hd.
  { intros x Hx. destruct (Z.ltb_spec x base).
    - symmetry. apply (Z.mod_unique _ _ (-1)); lia.
    - apply Z.mod_small. lia. }
  rewrite (Z.mod_small ((a - base) mod (2 * size))) in E'
    by (pose proof (Z.mod_pos_bound (a - base) (2 * size) ltac:(lia)); lia).
  rewrite (Z.mod_small ((b - base) mod (2 * size))) in E'
    by (pose proof (Z.mod_pos_bound (b - base) (2 * size) ltac:(lia)); lia).
  rewrite (Hd a Ha), (Hd b Hb) in *. destr_bool; lia.
Qed.

(** Slot operations read back by SN. *)
Lemma get_set_same m sn l :
  nr_rlc_rx_manager_get_pdu_from_sn (rx_manager_set_pdus m sn l) sn = l.
Proof. unfold nr_rlc_rx_manager_get_pdu_from_sn, get_pos. cbn. by rewrite lookup_insert_eq. Qed.

Lemma get_set_other m sn sn' l :
  get_pos m sn' ≠ get_pos m sn →
  nr_rlc_rx_manager_get_pdu_from_sn (rx_manager_set_pdus m sn l) sn'
  = nr_rlc_rx_manager_get_pdu_from_sn m sn'.
Proof.
  intros H. unfold nr_rlc_rx_manager_get_pdu_from_sn, get_pos in *. cbn.
  by rewrite lookup_insert_ne.
Qed.

Lemma get_set_cases m sn sn' l :
  nr_rlc_rx_manager_get_pdu_from_sn (rx_manager_set_pdus m sn l) sn'
  = if decide (get_pos m sn' = get_pos m sn) then l
    else nr_rlc_rx_manager_get_pdu_from_sn m sn'.
Proof.
  case_decide as E; [|by apply get_set_other]. rewrite <- (get_set_same m sn l) at 2.
  unfold nr_rlc_rx_manager_get_pdu_from_sn. do 2 f_equal. exact E.
Qed.

Lemma get_clear_same m sn :
  nr_rlc_rx_manager_get_pdu_from_sn (nr_rlc_rx_manager_clear_pdu m sn) sn = [].
Proof. unfold nr_rlc_rx_manager_get_pdu_from_sn, get_pos. cbn. by rewrite lookup_delete_eq. Qed.

Lemma get_clear_other m sn sn' :
  get_pos m sn' ≠ get_pos m sn →
  nr_rlc_rx_manager_get_pdu_from_sn (nr_rlc_rx_manager_clear_pdu m sn) sn'
  = nr_rlc_rx_manager_get_pdu_from_sn m sn'.
Proof.
  intros H. unfold nr_rlc_rx_manager_get_pdu_from_sn, get_pos in *. cbn.
  by rewrite lookup_delete_ne.
Qed.

Lemma get_clear_cases m sn sn' :
  nr_rlc_rx_manager_get_pdu_from_sn (nr_rlc_rx_manager_clear_pdu m sn) sn'
  = if decide (get_pos m sn' = get_pos m sn) then []
    else nr_rlc_rx_manager_get_pdu_from_sn m sn'.
Proof.
  case_decide as E; [|by apply get_clear_other]. etrans; [|apply (get_clear_same m sn)].
  unfold nr_rlc_rx_manager_get_pdu_from_sn. do 2 f_equal. exact E.
Qed.

(** Moving the window by [count] and telling it the SN it now starts at. *)
Definition rx_manager_slide (m : nr_rlc_rx_manager_t) (count : Z) : nr_rlc_rx_manager_t :=
  nr_rlc_rx_manager_set_start (nr_rlc_rx_manager_advance m count)
    ((m_sn_start m + count) mod (2 * m_size m)).

Lemma rxm_wf_slide m count : rxm_wf m → 0 <= count → rxm_wf (rx_manager_slide m count).
Proof.
  intros [Hs Hst Hsn Hp] Hc. split; cbn.
  - done.
  - apply cmod_range; lia.
  - apply Z.mod_pos_bound. lia.
  - rewrite cmod_nonneg, mod_mul2_mod by lia. by rewrite Hp, Z.add_mod_idemp_l by lia.
Qed.

Lemma get_slide m count sn :
  rxm_wf m → 0 <= count → 0 <= sn < 2 * m_size m →
  nr_rlc_rx_manager_get_pdu_from_sn (rx_manager_slide m count) sn
  = nr_rlc_rx_manager_get_pdu_from_sn m sn.
Proof.
  intros W Hc Hsn. unfold nr_rlc_rx_manager_get_pdu_from_sn.
  rewrite (get_pos_mod m) by done.
  rewrite get_pos_mod; [done|by apply rxm_wf_slide|done].
Qed.

(** The list of one SN stays ordered by segment offset. *)
Definition so_sorted (l : list nr_rlc_pdu_t) : Prop :=
  StronglySorted (λ a b, p_so a <= p_so b) l.

Lemma insert_by_so_perm l pdu : insert_by_so l pdu ≡ₚ pdu :: l.
Proof.
  induction l as [|x l IH]; cbn; [done|]. destruct (_ <? _); [done|].
  rewrite IH. apply Permutation_swap.
Qed.

Lemma insert_by_so_sorted l pdu : so_sorted l → so_sorted (insert_by_so l pdu).
Proof.
  unfold so_sorted. induction 1 as [|x l Hl IH Hx]; cbn.
  { repeat constructor. }
  destruct (Z.ltb_spec (p_so pdu) (p_so x)).
  - constructor; [by constructor|]. constructor; [lia|].
    eapply Forall_impl; [exact Hx|]. cbn. lia.
  - constructor; [exact IH|]. rewrite insert_by_so_perm. constructor; [lia|done].
Qed.

(** the circular reception buffer refines a window of per-SN lists. For an
    SN inside the window, [nr_rlc_rx_manager_add_pdu] inserts the PDU in offset
    order in the list of that SN and in no other list of the window; moving the
    window forward keeps the list of every SN; and every slot index used is
    inside the array. *)
Theorem rx_manager_refines m pdu sn count :
  rxm_wf m →
  0 <= p_sn pdu < 2 * m_size m → (p_sn pdu - m_sn_start m) mod (2 * m_size m) < m_size m →
  0 <= sn < 2 * m_size m → (sn - m_sn_start m) mod (2 * m_size m) < m_size m →
  0 <= count →
  let get := nr_rlc_rx_manager_get_pdu_from_sn in
  let m' := nr_rlc_rx_manager_add_pdu m pdu in
  (sn = p_sn pdu → get m' sn = insert_by_so (get m sn) pdu ∧
                   get m' sn ≡ₚ pdu :: get m sn ∧
                   (so_sorted (get m sn) → so_sorted (get m' sn))) ∧
  (sn ≠ p_sn pdu → get m' sn = get m sn) ∧
  get (rx_manager_slide m count) sn = get m sn ∧
  rxm_wf m' ∧ rxm_wf (rx_manager_slide m count) ∧
  0 <= get_pos m sn < m_size m.
Proof.
  intros W Hp Hpw Hsn Hsnw Hc get m'. unfold get, m', nr_rlc_rx_manager_add_pdu.
  split_and!.
  - intros ->. rewrite get_set_same. split_and!; [done|apply insert_by_so_perm|].
    apply insert_by_so_sorted.
  - intros Hne. apply get_set_other. rewrite !get_pos_mod by done. intros E. apply Hne.
    apply (window_slot_inj (m_size m) (m_sn_start m)); try done; apply W.
  - by apply get_slide.
  - destruct W. by split.
  - by apply rxm_wf_slide.
  - rewrite get_pos_mod by done. apply Z.mod_pos_bound. apply W.
  - rewrite get_pos_mod by done. apply Z.mod_pos_bound. apply W.
Qed.

Lemma rx_manager_refines_witness :
  let m := mk_rxm {[ 1 := [mk_pdu 5 (Some [9]) 1 4 false true] ]} 4 3 3 in
  let pdu := mk_pdu 5 (Some [7; 8]) 2 0 true false in
  let get := nr_rlc_rx_manager_get_pdu_from_sn in
  let m' := nr_rlc_rx_manager_add_pdu m pdu in
  rxm_wf m ∧
  ((5 = p_sn pdu → get m' 5 = insert_by_so (get m 5) pdu ∧
                   get m' 5 ≡ₚ pdu :: get m 5 ∧
                   (so_sorted (get m 5) → so_sorted (get m' 5))) ∧
  (5 ≠ p_sn pdu → get m' 5 = get m 5) ∧
  get (rx_manager_slide m 2) 5 = get m 5 ∧
  rxm_wf m' ∧ rxm_wf (rx_manager_slide m 2) ∧
  0 <= get_pos m 5 < m_size m).
Proof.
  intros m pdu get m'.
  assert (rxm_wf m) as W by (split; vm_compute; intuition congruence).
  split; [exact W|].
  apply (rx_manager_refines m pdu 5 2 W); vm_compute; intuition congruence.
Defined.
