(* ===== verification/RlcTypes.v ===== *)
(** * Types shared by the RLC entities

    Models [openair2/LAYER2/nr_rlc/nr_rlc_entity.h]: modes, statistics, buffer
    status, and the part common to all entities. The three callbacks of an
    entity ([deliver_sdu], [sdu_successful_delivery], [max_retx_reached]) are
    recorded, in the order they are called, in [events]. Counters wrap around
    at the width the header declares; counters that the code never changes are
    left out. *)

From S2P Require Import Prelude TimeStat.

Definition NR_SDU_MAX : Z := 16000.

Inductive nr_rlc_mode_t := NR_RLC_AM | NR_RLC_UM | NR_RLC_TM.

(** The calls an entity makes to its user. *)
Inductive rlc_event :=
| deliver_sdu (buf : bytes)
| sdu_successful_delivery (sdu_id : Z)
| max_retx_reached.

Record nr_rlc_statistics_t := mk_stats {
  stats_mode : nr_rlc_mode_t;
  txpdu_pkts : Z;
  txpdu_bytes : Z;
  txpdu_dd_pkts : Z;
  txpdu_dd_bytes : Z;
  txpdu_retx_pkts : Z;
  txpdu_retx_bytes : Z;
  txpdu_segmented : Z;
  txpdu_status_pkts : Z;
  txpdu_status_bytes : Z;
  rxpdu_pkts : Z;
  rxpdu_bytes : Z;
  rxpdu_dup_pkts : Z;
  rxpdu_dup_bytes : Z;
  rxpdu_dd_pkts : Z;
  rxpdu_dd_bytes : Z;
  rxpdu_ow_pkts : Z;
  rxpdu_ow_bytes : Z;
  txsdu_pkts : Z;
  txsdu_bytes : Z;
  txsdu_wt_us : Z;
  rxsdu_pkts : Z;
  rxsdu_bytes : Z;
  rxsdu_dd_pkts : Z;
  rxsdu_dd_bytes : Z;
}.

#[export] Instance eta_stats : Eta nr_rlc_statistics_t := λ r,
  mk_stats (stats_mode r) (txpdu_pkts r) (txpdu_bytes r) (txpdu_dd_pkts r) (txpdu_dd_bytes r)
    (txpdu_retx_pkts r) (txpdu_retx_bytes r) (txpdu_segmented r) (txpdu_status_pkts r)
    (txpdu_status_bytes r) (rxpdu_pkts r) (rxpdu_bytes r) (rxpdu_dup_pkts r)
    (rxpdu_dup_bytes r) (rxpdu_dd_pkts r) (rxpdu_dd_bytes r) (rxpdu_ow_pkts r)
    (rxpdu_ow_bytes r) (txsdu_pkts r) (txsdu_bytes r) (txsdu_wt_us r) (rxsdu_pkts r)
    (rxsdu_bytes r) (rxsdu_dd_pkts r) (rxsdu_dd_bytes r).

#[export] Instance set_txpdu_pkts : Setter txpdu_pkts := ltac:(derive_setter).
#[export] Instance set_txpdu_bytes : Setter txpdu_bytes := ltac:(derive_setter).
#[export] Instance set_txpdu_dd_pkts : Setter txpdu_dd_pkts := ltac:(derive_setter).
#[export] Instance set_txpdu_dd_bytes : Setter txpdu_dd_bytes := ltac:(derive_setter).
#[export] Instance set_txpdu_retx_pkts : Setter txpdu_retx_pkts := ltac:(derive_setter).
#[export] Instance set_txpdu_retx_bytes : Setter txpdu_retx_bytes := ltac:(derive_setter).
#[export] Instance set_txpdu_segmented : Setter txpdu_segmented := ltac:(derive_setter).
#[export] Instance set_txpdu_status_pkts : Setter txpdu_status_pkts := ltac:(derive_setter).
#[export] Instance set_txpdu_status_bytes : Setter txpdu_status_bytes := ltac:(derive_setter).
#[export] Instance set_rxpdu_pkts : Setter rxpdu_pkts := ltac:(derive_setter).
#[export] Instance set_rxpdu_bytes : Setter rxpdu_bytes := ltac:(derive_setter).
#[export] Instance set_rxpdu_dup_pkts : Setter rxpdu_dup_pkts := ltac:(derive_setter).
#[export] Instance set_rxpdu_dup_bytes : Setter rxpdu_dup_bytes := ltac:(derive_setter).
#[export] Instance set_rxpdu_dd_pkts : Setter rxpdu_dd_pkts := ltac:(derive_setter).
#[export] Instance set_rxpdu_dd_bytes : Setter rxpdu_dd_bytes := ltac:(derive_setter).
#[export] Instance set_rxpdu_ow_pkts : Setter rxpdu_ow_pkts := ltac:(derive_setter).
#[export] Instance set_rxpdu_ow_bytes : Setter rxpdu_ow_bytes := ltac:(derive_setter).
#[export] Instance set_txsdu_pkts : Setter txsdu_pkts := ltac:(derive_setter).
#[export] Instance set_txsdu_bytes : Setter txsdu_bytes := ltac:(derive_setter).
#[export] Instance set_txsdu_wt_us : Setter txsdu_wt_us := ltac:(derive_setter).
#[export] Instance set_rxsdu_pkts : Setter rxsdu_pkts := ltac:(derive_setter).
#[export] Instance set_rxsdu_bytes : Setter rxsdu_bytes := ltac:(derive_setter).
#[export] Instance set_rxsdu_dd_pkts : Setter rxsdu_dd_pkts := ltac:(derive_setter).
#[export] Instance set_rxsdu_dd_bytes : Setter rxsdu_dd_bytes := ltac:(derive_setter).

Definition zero_stats (mode : nr_rlc_mode_t) : nr_rlc_statistics_t :=
  mk_stats mode 0 0 0 0 0 0 0 0 0 0 0 0 0 0 0 0 0 0 0 0 0 0 0 0.

(** [counter++] and [counter += n] on [uint32_t] and [uint64_t] counters. *)
Definition add32 (f : nr_rlc_statistics_t → Z) `{!Setter f} (n : Z) (s : nr_rlc_statistics_t)
  : nr_rlc_statistics_t := s <| f := u32 (f s + n) |>.
Definition add64 (f : nr_rlc_statistics_t → Z) `{!Setter f} (n : Z) (s : nr_rlc_statistics_t)
  : nr_rlc_statistics_t := s <| f := u64 (f s + n) |>.

Record nr_rlc_entity_buffer_status_t := mk_bstatus {
  bs_status_size : Z;
  bs_tx_size : Z;
  bs_retx_size : Z;
}.
#[export] Instance eta_bstatus : Eta nr_rlc_entity_buffer_status_t := λ r,
  mk_bstatus (bs_status_size r) (bs_tx_size r) (bs_retx_size r).
#[export] Instance set_bs_tx : Setter bs_tx_size := ltac:(derive_setter).
#[export] Instance set_bs_retx : Setter bs_retx_size := ltac:(derive_setter).

(** [nr_rlc_entity_t] without its function pointers. *)
Record nr_rlc_entity_t := mk_common {
  bstatus : nr_rlc_entity_buffer_status_t;
  stats : nr_rlc_statistics_t;
  txsdu_avg_time_to_tx : time_average_t;
  avg_time_is_on : bool;
  events : list rlc_event;    (* the calls made to the user, oldest first *)
}.
#[export] Instance eta_common : Eta nr_rlc_entity_t := λ r,
  mk_common (bstatus r) (stats r) (txsdu_avg_time_to_tx r) (avg_time_is_on r) (events r).
#[export] Instance set_bstatus : Setter bstatus := ltac:(derive_setter).
#[export] Instance set_stats : Setter stats := ltac:(derive_setter).
#[export] Instance set_avg : Setter txsdu_avg_time_to_tx := ltac:(derive_setter).
#[export] Instance set_avg_on : Setter avg_time_is_on := ltac:(derive_setter).
#[export] Instance set_events : Setter events := ltac:(derive_setter).

Definition on_stats (f : nr_rlc_statistics_t → nr_rlc_statistics_t) (c : nr_rlc_entity_t)
  : nr_rlc_entity_t := c <| stats := f (stats c) |>.
Definition call (ev : rlc_event) (c : nr_rlc_entity_t) : nr_rlc_entity_t :=
  c <| events := events c ++ [ev] |>.
(** [bstatus.tx_size += n] and [bstatus.retx_size += n] *)
Definition bstatus_tx (n : Z) (c : nr_rlc_entity_t) : nr_rlc_entity_t :=
  c <| bstatus := bstatus c <| bs_tx_size := bs_tx_size (bstatus c) + n |> |>.
Definition bstatus_retx (n : Z) (c : nr_rlc_entity_t) : nr_rlc_entity_t :=
  c <| bstatus := bstatus c <| bs_retx_size := bs_retx_size (bstatus c) + n |> |>.

(** The statistics of the time an SDU waited, computed at its transmission;
    [time_now] is what [time_average_now] returns. *)
Definition record_waited_time (c : nr_rlc_entity_t) (time_now time_of_arrival : Z)
  : outcome nr_rlc_entity_t :=
  if avg_time_is_on c then
    let waited_time := u64 (time_now - time_of_arrival) in
    t ← time_average_add (txsdu_avg_time_to_tx c) time_now waited_time;
    Ok (c <| txsdu_avg_time_to_tx := t |>)
  else Ok c.

(** The common part of an entity fresh from [calloc] and its constructor: the
    average is taken over the last 100 milliseconds, in a ring of 1024 samples. *)
Definition new_common (mode : nr_rlc_mode_t) : outcome nr_rlc_entity_t :=
  t ← time_average_new (100 * 1000) 1024;
  Ok (mk_common (mk_bstatus 0 0 0) (zero_stats mode) t false []).

(** What the reception of PDUs leaves unchanged. *)
Definition common_view (c : nr_rlc_entity_t) :=
  (bstatus c, txsdu_avg_time_to_tx c, avg_time_is_on c).

(** The average is well formed: it represents some queue of samples. *)
Definition avg_wf (c : nr_rlc_entity_t) : Prop :=
  ∃ q, avg_rep (txsdu_avg_time_to_tx c) q.

Lemma record_waited_time_ok c now toa :
  avg_wf c →
  returns (record_waited_time c now toa) (λ c',
    avg_wf c' ∧ bstatus c' = bstatus c ∧ stats c' = stats c ∧ events c' = events c ∧
    avg_time_is_on c' = avg_time_is_on c).
Proof.
  intros [q Hq]. unfold record_waited_time. destruct (avg_time_is_on c) eqn:E.
  - eapply returns_bind; [apply (time_average_add_spec _ _ _ _ Hq)|].
    intros t [Ht _]. apply returns_ok. split_and!; try done. by eexists.
  - apply returns_ok. split_and!; try done. by exists q.
Qed.

Lemma new_common_ok mode :
  returns (new_common mode) (λ c,
    avg_wf c ∧ bstatus c = mk_bstatus 0 0 0 ∧ stats c = zero_stats mode ∧ events c = []).
Proof.
  unfold new_common. eapply returns_bind; [apply (avg_rep_new (100 * 1000) 1024); done|].
  intros t [Ht _]. apply returns_ok. split_and!; try done. by exists [].
Qed.
