(* ===== verification/RlcTm.v ===== *)
(** * RLC transparent mode

    Models [openair2/LAYER2/nr_rlc/nr_rlc_entity_tm.c] and its state
    [nr_rlc_entity_tm_t]. SDUs are queued and sent as they are. *)

From S2P Require Import Prelude TimeStat RlcSdu RlcTypes.

Record nr_rlc_entity_tm_t := mk_tm {
  common : nr_rlc_entity_t;
  t_current : Z;              (* uint64_t *)
  t_log_buffer_full : Z;      (* uint64_t *)
  sdu_rejected : Z;
  heap : sdu_heap;            (* the SDUs of tx_list *)
  tx_list : list nr_rlc_sdu_segment_t;
  tx_end : option positive;
  tx_size : Z;
  tx_maxsize : Z;
}.
#[export] Instance eta_tm : Eta nr_rlc_entity_tm_t := λ r,
  mk_tm (common r) (t_current r) (t_log_buffer_full r) (sdu_rejected r) (heap r) (tx_list r)
        (tx_end r) (tx_size r) (tx_maxsize r).
#[export] Instance set_common : Setter common := ltac:(derive_setter).
#[export] Instance set_t_current : Setter t_current := ltac:(derive_setter).
#[export] Instance set_t_log_buffer_full : Setter t_log_buffer_full := ltac:(derive_setter).
#[export] Instance set_sdu_rejected : Setter sdu_rejected := ltac:(derive_setter).
#[export] Instance set_heap : Setter heap := ltac:(derive_setter).
#[export] Instance set_tx_list : Setter tx_list := ltac:(derive_setter).
#[export] Instance set_tx_end : Setter tx_end := ltac:(derive_setter).
#[export] Instance set_tx_size : Setter tx_size := ltac:(derive_setter).

(** ** Operations *)

Definition new_nr_rlc_entity_tm (tx_maxsize : Z) : outcome nr_rlc_entity_tm_t :=
  c ← new_common NR_RLC_TM;
  Ok (mk_tm c 0 0 0 empty_heap [] None 0 tx_maxsize).

Definition on_common (f : nr_rlc_entity_t → nr_rlc_entity_t) (e : nr_rlc_entity_tm_t)
  : nr_rlc_entity_tm_t := e <| common := f (common e) |>.

Definition nr_rlc_entity_tm_recv_pdu (entity : nr_rlc_entity_tm_t) (buffer : bytes) (size : Z)
  : outcome nr_rlc_entity_tm_t :=
  let entity := on_common (on_stats (λ s, add32 rxpdu_bytes size (add32 rxpdu_pkts 1 s))) entity in
  sdu ← buf_sub buffer 0 size;
  let entity := on_common (call (deliver_sdu sdu)) entity in
  Ok (on_common (on_stats (λ s, add64 txsdu_bytes size (add32 txsdu_pkts 1 s))) entity).

(** Returns the number of bytes written, the buffer and the entity.
    [time_now] is the value of the clock when it is read. *)
Definition generate_tx_pdu (time_now : Z) (entity : nr_rlc_entity_tm_t) (buffer : bytes) (size : Z)
  : outcome (Z * bytes * nr_rlc_entity_tm_t) :=
  match tx_list entity with
  | [] => Ok (0, buffer, entity)
  | sdu :: next =>
      if size <? g_size sdu then Ok (0, buffer, entity)
      else
        let entity := entity <| tx_list := next |> in
        let entity := if tx_list entity is [] then entity <| tx_end := None |> else entity in
        let ret := g_size sdu in
        data ← buf_sub (s_data (sdu_of (heap entity) sdu)) 0 (g_size sdu);
        buffer ← buf_write buffer 0 data;
        let entity := entity <| tx_size := tx_size entity - g_size sdu |> in
        let entity :=
          on_common (on_stats (λ s, add32 txpdu_bytes size (add32 txpdu_pkts 1 s))) entity in
        c ← record_waited_time (common entity) time_now
              (s_time_of_arrival (sdu_of (heap entity) sdu));
        let entity := entity <| common := bstatus_tx (- g_size sdu) c |> in
        '(_, h) ← nr_rlc_free_sdu_segment (heap entity) sdu;
        Ok (ret, buffer, entity <| heap := h |>)
  end.

Definition nr_rlc_entity_tm_buffer_status (entity : nr_rlc_entity_tm_t) (maxsize : Z)
  : nr_rlc_entity_buffer_status_t :=
  mk_bstatus 0 (bs_tx_size (bstatus (common entity))) 0.

Definition nr_rlc_entity_tm_generate_pdu (time_now : Z) (entity : nr_rlc_entity_tm_t)
    (buffer : bytes) (size : Z) : outcome (Z * bytes * nr_rlc_entity_tm_t) :=
  generate_tx_pdu time_now entity buffer size.

Definition nr_rlc_entity_tm_recv_sdu (time_now : Z) (entity : nr_rlc_entity_tm_t)
    (buffer : bytes) (size sdu_id : Z) : outcome nr_rlc_entity_tm_t :=
  let entity := on_common (on_stats (λ s, add64 rxsdu_bytes size (add32 rxsdu_pkts 1 s))) entity in
  if NR_SDU_MAX <? size then Fatal
  else
    let entity :=
      if negb (sdu_rejected entity =? 0)
         && (u64 (t_log_buffer_full entity + 1280) <? t_current entity)
      then entity <| sdu_rejected := 0 |> <| t_log_buffer_full := t_current entity |>
      else entity in
    if tx_maxsize entity <? tx_size entity + size then
      let entity := entity <| sdu_rejected := sdu_rejected entity + 1 |> in
      Ok (on_common (on_stats (λ s, add32 rxsdu_dd_bytes size (add32 rxsdu_dd_pkts 1 s))) entity)
    else
      let entity := entity <| tx_size := tx_size entity + size |> in
      '(sdu, h) ← nr_rlc_new_sdu (heap entity) buffer size sdu_id;
      let entity := entity <| heap := h |> in
      '(l, e) ← nr_rlc_sdu_segment_list_append (tx_list entity) (tx_end entity) sdu;
      let entity := entity <| tx_list := l |> <| tx_end := e |> in
      let entity := on_common (bstatus_tx (g_size sdu)) entity in
      Ok (if avg_time_is_on (common entity)
          then entity <| heap := upd_sdu (heap entity) sdu
                           (sdu_of (heap entity) sdu <| s_time_of_arrival := time_now |>) |>
          else entity).

Definition nr_rlc_entity_tm_set_time (entity : nr_rlc_entity_tm_t) (now : Z) : nr_rlc_entity_tm_t :=
  entity <| t_current := now |>.

Definition nr_rlc_entity_tm_discard_sdu (entity : nr_rlc_entity_tm_t) (sdu_id : Z)
  : nr_rlc_entity_tm_t := entity.

Definition clear_entity (entity : nr_rlc_entity_tm_t) : outcome nr_rlc_entity_tm_t :=
  let entity := entity <| t_current := 0 |> <| t_log_buffer_full := 0 |> <| sdu_rejected := 0 |> in
  h ← nr_rlc_free_sdu_segment_list (heap entity) (tx_list entity);
  let entity := entity <| heap := h |> <| tx_list := [] |> <| tx_end := None |>
                       <| tx_size := 0 |> in
  let c := common entity in
  Ok (entity <| common := c <| bstatus := bstatus c <| bs_tx_size := 0 |> |> |>).

Definition nr_rlc_entity_tm_reestablishment (entity : nr_rlc_entity_tm_t)
  : outcome nr_rlc_entity_tm_t := clear_entity entity.

(** The entity is cleared, then freed. *)
Definition nr_rlc_entity_tm_delete (entity : nr_rlc_entity_tm_t) : outcome unit :=
  _ ← clear_entity entity; Ok tt.

Definition nr_rlc_entity_tm_available_tx_space (entity : nr_rlc_entity_tm_t) : Z :=
  tx_maxsize entity - tx_size entity.

Definition nr_rlc_entity_tm_tx_list_occupancy (entity : nr_rlc_entity_tm_t) : Z :=
  tx_size entity.

(** ** Invariant and abstraction

    The SDUs waiting for transmission, in order: what the entity is for its
    users. *)
Definition tm_queue (e : nr_rlc_entity_tm_t) : list bytes :=
  (λ g, s_data (sdu_of (heap e) g)) <$> tx_list e.

Record tm_wf (e : nr_rlc_entity_tm_t) : Prop := {
  tm_heap : heap_wf (heap e) (tx_list e);
  tm_tail : tail_ok (tx_list e) (tx_end e);
  tm_whole : ∀ g, g ∈ tx_list e → g_so g = 0 ∧ g_size g = s_size (sdu_of (heap e) g);
  tm_own : NoDup (g_sdu <$> tx_list e);
  tm_tx_size : tx_size e = sumZ g_size (tx_list e);
  tm_bstatus : bs_tx_size (bstatus (common e)) = tx_size e;
  tm_limit : tx_size e <= tx_maxsize e;
  tm_avg : avg_wf (common e);
}.

Lemma tm_wf_new maxsize c :
  avg_wf c → bs_tx_size (bstatus c) = 0 → 0 <= maxsize →
  tm_wf (mk_tm c 0 0 0 empty_heap [] None 0 maxsize).
Proof.
  intros Ha Hb Hm. split; cbn; try done; try set_solver.
  - apply heap_wf_empty.
  - split; [done|]. apply NoDup_nil_2.
  - apply NoDup_nil_2.
Qed.

(** Accepting an SDU appends it; a full buffer rejects it and keeps the queue. *)
Lemma tm_recv_sdu_ok now e buffer size id :
  tm_wf e → 0 <= size <= zlen buffer → size <= NR_SDU_MAX →
  returns (nr_rlc_entity_tm_recv_sdu now e buffer size id) (λ e',
    tm_wf e' ∧ tx_maxsize e' = tx_maxsize e ∧
    tm_queue e' = if tx_maxsize e <? tx_size e + size then tm_queue e
                  else tm_queue e ++ [take (Z.to_nat size) buffer]).
Proof.
  intros W Hs Hmax. unfold nr_rlc_entity_tm_recv_sdu.
  destruct (Z.ltb_spec NR_SDU_MAX size); [lia|].
  set (e1 := if _ && _ then _ else _).
  assert (heap e1 = heap e ∧ tx_list e1 = tx_list e ∧ tx_end e1 = tx_end e ∧
          tx_size e1 = tx_size e ∧ tx_maxsize e1 = tx_maxsize e ∧
          bstatus (common e1) = bstatus (common e) ∧ avg_wf (common e1)) as
    (E1 & E2 & E3 & E4 & E5 & E6 & E7).
  { unfold e1. pose proof (tm_avg _ W). by destruct (_ && _). }
  clearbody e1. rewrite E4, E5.
  destruct (Z.ltb_spec (tx_maxsize e) (tx_size e + size)) as [Hfull|Hroom].
  - apply returns_ok. unfold tm_queue. cbn. rewrite E1, E2, E5. split_and!; try done.
    destruct W. split; cbn; rewrite ?E1, ?E2, ?E3, ?E4, ?E5, ?E6; done.
  - cbn [heap set_field set_tx_size]. rewrite E1.
    eapply returns_bind; [apply (new_sdu_ok _ _ _ _ id (tm_heap _ W) Hs)|].
    intros [g h] (W' & Hlive & Hg & Hso & Hf & Hla & Hl & Hkeep & Hne).
    assert (g_addr g ∉ g_addr <$> tx_list e) as Hga.
    { pose proof (hw_addr _ _ W') as Hnd. cbn in Hnd. by apply NoDup_cons in Hnd as [? _]. }
    destruct (list_append_ok _ _ _ (tm_tail _ W) Hga) as [Happ Htail].
    cbn [tx_list tx_end set_field set_heap set_tx_size]. rewrite E2, E3, Happ.
    cbn [mbind outcome_bind]. apply returns_ok.
    assert (∀ k, k ∈ tx_list e → sdu_of h k = sdu_of (heap e) k) as Hsame.
    { intros k Hk. destruct (hw_live _ _ (tm_heap _ W) k Hk) as (s & Hs' & _).
      by rewrite (sdu_of_lookup _ _ _ Hs'), (sdu_of_lookup _ _ _ (Hkeep _ _ Hs')). }
    assert (∀ h', heap_wf h' (g :: tx_list e) →
      (∀ k, s_data (sdu_of h' k) = s_data (sdu_of h k) ∧
            s_size (sdu_of h' k) = s_size (sdu_of h k)) →
      let e' := on_common (bstatus_tx (g_size g))
        (e1 <| tx_size := tx_size e + size |> <| heap := h' |> <| tx_list := tx_list e ++ [g] |>
            <| tx_end := Some (g_addr g) |>) in
      tm_wf e' ∧ tm_queue e' = tm_queue e ++ [take (Z.to_nat size) buffer]) as Hfin.
    { intros h' Wh' Hh'. cbn zeta. split; [split; cbn|].
      - eapply heap_wf_perm; [|exact Wh']. apply Permutation_cons_append.
      - done.
      - intros k Hk. rewrite (proj2 (Hh' k)).
        apply elem_of_app in Hk as [Hk|Hk].
        + rewrite Hsame by done. by apply (tm_whole _ W).
        + apply list_elem_of_singleton in Hk as ->. rewrite (sdu_of_lookup _ _ _ Hl). done.
      - rewrite fmap_app. cbn. apply NoDup_app. split_and!; [apply (tm_own _ W)| |].
        + intros p Hp Hp'. apply list_elem_of_singleton in Hp' as ->.
          apply list_elem_of_fmap in Hp as (k & E & Hk). by apply (Hne k Hk).
        + apply NoDup_singleton.
      - rewrite sumZ_app, sumZ_cons, sumZ_nil, (tm_tx_size _ W). lia.
      - rewrite E6, (tm_bstatus _ W). lia.
      - rewrite E5. lia.
      - done.
      - unfold tm_queue. cbn. rewrite fmap_app. cbn. f_equal.
        + apply list_fmap_ext. intros i k Hk. apply list_elem_of_lookup_2 in Hk.
          by rewrite (proj1 (Hh' k)), Hsame.
        + by rewrite (proj1 (Hh' g)), (sdu_of_lookup _ _ _ Hl). }
    cbn [common set_field set_tx_list set_tx_end set_heap set_tx_size on_common bstatus_tx
         set_common avg_time_is_on set_bstatus].
    destruct (avg_time_is_on (common e1)).
    + cbn [heap set_field set_common set_heap set_tx_list set_tx_end on_common].
      destruct (Hfin (upd_sdu h g (sdu_of h g <| s_time_of_arrival := now |>))) as [H1 H2].
      { apply heap_wf_upd_time; [done|]. eauto. }
      { intros k. destruct (upd_time_sdu_of h g now k) as (? & ? & _); eauto. }
      split_and!; done.
    + destruct (Hfin h W') as [H1 H2]; [done|]. split_and!; done.
Qed.

(** A grant large enough for the SDU at the head sends exactly it; otherwise
    nothing changes. *)
Lemma tm_generate_ok now e buffer size :
  tm_wf e → 0 <= size <= zlen buffer →
  returns (nr_rlc_entity_tm_generate_pdu now e buffer size) (λ '(ret, buffer', e'),
    tm_wf e' ∧ tx_maxsize e' = tx_maxsize e ∧
    match tm_queue e with
    | [] => ret = 0 ∧ buffer' = buffer ∧ e' = e
    | d :: q =>
        if size <? zlen d then ret = 0 ∧ buffer' = buffer ∧ e' = e
        else ret = zlen d ∧ buffer' = d ++ drop (length d) buffer ∧ tm_queue e' = q ∧
             events (common e') = events (common e)
    end).
Proof.
  intros W Hs. unfold nr_rlc_entity_tm_generate_pdu, generate_tx_pdu, tm_queue.
  destruct (tx_list e) as [|g l] eqn:El; [by apply returns_ok|]. cbn [fmap list_fmap].
  pose proof (tm_heap _ W) as Wh. rewrite El in Wh.
  destruct (hw_live _ _ Wh g (list_elem_of_here _ _)) as (s & Hls & Hb).
  pose proof (hw_data _ _ Wh _ _ Hls) as Hd.
  destruct (tm_whole _ W g) as [Hso Hsz]; [rewrite El; apply list_elem_of_here|].
  rewrite (sdu_of_lookup _ _ _ Hls) in *. rewrite Hd, <- Hsz.
  destruct (Z.ltb_spec size (g_size g)) as [Hlt|Hge]; [by apply returns_ok|].
  set (e1 := if tx_list (e <| tx_list := l |>) is [] then _ else _).
  assert (e1 = e <| tx_list := l |> <| tx_end := if l is [] then None else tx_end e |>) as ->.
  { unfold e1. cbn. destruct l; [done|]. by destruct e. }
  cbn [heap set_field set_tx_end set_tx_list]. rewrite (sdu_of_lookup _ _ _ Hls).
  rewrite buf_sub_ok by lia. cbn [mbind outcome_bind]. rewrite drop_0.
  rewrite (take_ge (s_data s)) by (unfold zlen in Hd; lia).
  rewrite buf_write_ok by lia. cbn [mbind outcome_bind]. rewrite take_0.
  cbn [app Z.to_nat]. rewrite Z.add_0_l.
  eapply returns_bind; [apply record_waited_time_ok; exact (tm_avg _ W)|].
  intros c (Hc1 & Hc2 & Hc3 & Hc4 & Hc5).
  cbn [heap set_field set_common set_tx_size on_common common].
  eapply returns_bind; [apply (free_segment_ok _ _ _ Wh)|].
  intros [b h] (W' & Hfb & Hlive & Hnext & Hother & _). apply returns_ok.
  pose proof (tm_own _ W) as Hown. rewrite El in Hown. cbn in Hown.
  apply NoDup_cons in Hown as [Hgl Hown].
  assert (∀ k, k ∈ l → sdu_of h k = sdu_of (heap e) k) as Hsame.
  { intros k Hk. apply sdu_of_ext. apply Hother. intros E. apply Hgl. rewrite <- E.
    by apply list_elem_of_fmap_2. }
  pose proof (tm_tail _ W) as [Htl Hnd]. rewrite El in Htl, Hnd.
  split_and!.
  - split; cbn.
    + done.
    + split; [|by apply NoDup_cons in Hnd as [_ ?]].
      destruct l as [|y l]; [done|]. rewrite Htl. by rewrite last_cons_cons.
    + intros k Hk. rewrite Hsame by done. apply (tm_whole _ W). rewrite El.
      by apply list_elem_of_further.
    + done.
    + rewrite (tm_tx_size _ W), El, sumZ_cons. lia.
    + rewrite Hc2. cbn. rewrite (tm_bstatus _ W). lia.
    + pose proof (tm_limit _ W). lia.
    + destruct Hc1 as [q Hq]. exists q. done.
  - done.
  - lia.
  - by rewrite (Z2Nat.inj_add _ _) || (unfold zlen; rewrite Nat2Z.id).
  - apply list_fmap_ext. intros i k Hk. apply list_elem_of_lookup_2 in Hk. cbn.
    by rewrite Hsame.
  - cbn. by rewrite Hc4.
Qed.

Lemma tm_clear_ok e :
  tm_wf e → 0 <= tx_maxsize e →
  returns (clear_entity e) (λ e', tm_wf e' ∧ tm_queue e' = [] ∧ tx_maxsize e' = tx_maxsize e).
Proof.
  intros W Hm. unfold clear_entity. cbn [heap tx_list set_field set_t_current
    set_t_log_buffer_full set_sdu_rejected].
  eapply returns_bind.
  { apply (free_segment_list_ok _ _ []). rewrite app_nil_r. apply (tm_heap _ W). }
  intros h [Wh _]. apply returns_ok. split_and!; try done. split; cbn; try done.
  - split; [done|]. apply NoDup_nil_2.
  - set_solver.
  - apply NoDup_nil_2.
  - apply (tm_avg _ W).
Qed.

(** ** Runs

    The operations of the entity that matter to its transmitting side, with
    their arguments. *)
Inductive tm_op :=
| TmRecvSdu (time_now : Z) (buffer : bytes) (size sdu_id : Z)
| TmGenerate (time_now : Z) (buffer : bytes) (size : Z)
| TmRecvPdu (buffer : bytes) (size : Z)
| TmSetTime (now : Z)
| TmDiscard (sdu_id : Z).

(** What the callers guarantee: buffers hold the sizes announced, and no SDU
    exceeds [NR_SDU_MAX]. *)
Definition tm_op_ok (op : tm_op) : Prop :=
  match op with
  | TmRecvSdu _ buffer size _ => 0 <= size <= zlen buffer ∧ size <= NR_SDU_MAX
  | TmGenerate _ buffer size => 0 <= size <= zlen buffer
  | TmRecvPdu buffer size => 0 <= size <= zlen buffer
  | _ => True
  end.

(** One operation: the new state, the PDU sent if any, the SDU accepted if any. *)
Definition tm_exec (e : nr_rlc_entity_tm_t) (op : tm_op)
  : outcome (nr_rlc_entity_tm_t * (list bytes * list bytes)) :=
  match op with
  | TmRecvSdu now buffer size id =>
      e' ← nr_rlc_entity_tm_recv_sdu now e buffer size id;
      Ok (e', ([], if tx_maxsize e <? tx_size e + size then []
                   else [take (Z.to_nat size) buffer]))
  | TmGenerate now buffer size =>
      '(ret, buffer', e') ← nr_rlc_entity_tm_generate_pdu now e buffer size;
      Ok (e', (if (length (tx_list e') <? length (tx_list e))%nat
               then [take (Z.to_nat ret) buffer'] else [], []))
  | TmRecvPdu buffer size =>
      e' ← nr_rlc_entity_tm_recv_pdu e buffer size; Ok (e', ([], []))
  | TmSetTime now => Ok (nr_rlc_entity_tm_set_time e now, ([], []))
  | TmDiscard id => Ok (nr_rlc_entity_tm_discard_sdu e id, ([], []))
  end.

Fixpoint tm_run (e : nr_rlc_entity_tm_t) (ops : list tm_op)
  : outcome (nr_rlc_entity_tm_t * (list bytes * list bytes)) :=
  match ops with
  | [] => Ok (e, ([], []))
  | op :: ops' =>
      '(e, (s1, a1)) ← tm_exec e op;
      '(e, (s2, a2)) ← tm_run e ops';
      Ok (e, (s1 ++ s2, a1 ++ a2))
  end.

Lemma tm_exec_ok e op :
  tm_wf e → tm_op_ok op →
  returns (tm_exec e op) (λ '(e', (sent, accepted)),
    tm_wf e' ∧ tm_queue e ++ accepted = sent ++ tm_queue e').
Proof.
  intros W Hop. destruct op as [now b size id|now b size|b size|now|id]; cbn in Hop; cbn [tm_exec].
  - eapply returns_bind; [apply tm_recv_sdu_ok; [done|apply Hop..]|].
    intros e' (W' & _ & Hq). apply returns_ok. split; [done|]. rewrite Hq. cbn.
    destruct (_ <? _); [by rewrite app_nil_r|done].
  - eapply returns_bind; [apply (tm_generate_ok now e b size W Hop)|].
    intros [[ret b'] e'] (W' & _ & Hq). apply returns_ok. split; [done|]. rewrite app_nil_r.
    destruct (tm_queue e) as [|d q] eqn:Eq.
    { destruct Hq as (_ & _ & ->). rewrite Eq. by rewrite (proj2 (Nat.ltb_ge _ _)). }
    destruct (size <? zlen d) eqn:Elt.
    { destruct Hq as (_ & _ & ->). rewrite Eq. by rewrite (proj2 (Nat.ltb_ge _ _)). }
    destruct Hq as (-> & -> & Hq & _).
    assert (length (tx_list e') < length (tx_list e))%nat as Hlen.
    { apply (f_equal length) in Hq, Eq. unfold tm_queue in Hq, Eq.
      rewrite length_fmap in Hq, Eq. cbn in Eq. lia. }
    rewrite (proj2 (Nat.ltb_lt _ _)) by done. rewrite Hq. cbn. f_equal.
    unfold zlen. rewrite Nat2Z.id, take_app_length. done.
  - unfold nr_rlc_entity_tm_recv_pdu. rewrite buf_sub_ok by lia. cbn. apply returns_ok.
    split; [|by rewrite app_nil_r]. destruct W. split; cbn; done.
  - apply returns_ok. split; [|by rewrite app_nil_r]. destruct W. split; cbn; done.
  - apply returns_ok. split; [done|by rewrite app_nil_r].
Qed.

Lemma tm_run_ok e ops :
  tm_wf e → Forall tm_op_ok ops →
  returns (tm_run e ops) (λ '(e', (sent, accepted)),
    tm_wf e' ∧ tm_queue e ++ accepted = sent ++ tm_queue e').
Proof.
  revert e. induction ops as [|op ops IH]; intros e W Hops.
  { apply returns_ok. split; [done|by rewrite app_nil_r]. }
  apply Forall_cons in Hops as [Hop Hops]. cbn [tm_run].
  eapply returns_bind; [apply (tm_exec_ok _ _ W Hop)|]. intros [e1 [s1 a1]] [W1 H1].
  eapply returns_bind; [apply (IH _ W1 Hops)|]. intros [e2 [s2 a2]] [W2 H2].
  apply returns_ok. split; [done|].
  by rewrite app_assoc, H1, <- app_assoc, H2, app_assoc.
Qed.

(** Transparent mode is a bounded FIFO of SDUs. For every sequence of
    operations whose buffers have the announced sizes, no operation faults or
    stops the process, the accounting invariant holds at the end (the tail
    pointer, [tx_size], the buffer status reported to MAC and the limit
    [tx_maxsize] all agree with the queue), and the PDUs sent, followed by the
    SDUs still queued, are exactly the SDUs accepted, in order, each once. *)
Theorem tm_fifo maxsize ops :
  0 <= maxsize → Forall tm_op_ok ops →
  returns (e ← new_nr_rlc_entity_tm maxsize; tm_run e ops) (λ '(e, (sent, accepted)),
    tm_wf e ∧ accepted = sent ++ tm_queue e).
Proof.
  intros Hm Hops. unfold new_nr_rlc_entity_tm.
  destruct (new_common_ok NR_RLC_TM) as (c & -> & Hc & Hb & _). cbn [mbind outcome_bind].
  eapply returns_mono; [apply tm_run_ok; [apply tm_wf_new; [done|by rewrite Hb|done]|done]|].
  intros [e [s a]] [W H]. by split.
Qed.

Lemma tm_fifo_witness :
  let ops := [TmRecvSdu 0 [1; 2; 3] 3 7; TmRecvSdu 0 [4; 5] 2 8;
              TmGenerate 0 [0; 0] 2; TmGenerate 0 [0; 0; 0; 0] 4] in
  Forall tm_op_ok ops ∧
  returns (e ← new_nr_rlc_entity_tm 100; tm_run e ops)
    (λ '(e, (sent, accepted)), tm_wf e ∧ accepted = sent ++ tm_queue e) ∧
  match e ← new_nr_rlc_entity_tm 100; tm_run e ops with
  | Ok (e, (sent, accepted)) => sent = [[1; 2; 3]] ∧ tm_queue e = [[4; 5]]
  | _ => False
  end.
Proof.
  intros ops. assert (Forall tm_op_ok ops) as Hops.
  { repeat constructor; vm_compute; intuition congruence. }
  split; [exact Hops|]. split.
  - apply (tm_fifo 100 ops); [lia|exact Hops].
  - vm_compute. split; reflexivity.
Defined.
