(* ===== verification/RlcReassemble.v ===== *)
(** * Reassembly of an SDU from received segments

    The per-segment step that the unacknowledged and the acknowledged mode share
    ([reassemble_and_deliver] of [nr_rlc_entity_um.c] and
    [nr_rlc_entity_am.c] have the same loop body), the tests on the bytes
    received so far, and what makes them correct. *)

From S2P Require Import Prelude Bits RlcPdu TimeStat RlcTypes.

(** The local variables of the loop: the bytes put in [sdu] so far ([so] is
    their number) and [bad_sdu]. *)
Record reassembly := mk_reas { ra_sdu : bytes; ra_bad : bool }.

(** One turn of the loop on [pdu]. The write is into [char sdu[NR_SDU_MAX]], the
    read is from the segment's data, NULL if it has been freed. *)
Definition reassemble_one (r : reassembly) (pdu : nr_rlc_pdu_t) : outcome reassembly :=
  let so := zlen (ra_sdu r) in
  let bad := ra_bad r || (so <? p_so pdu) in
  let len := p_size pdu - (so - p_so pdu) in
  let bad := bad || (NR_SDU_MAX <? so + len) in
  if negb bad && (0 <? len) then
    match p_data pdu with
    | None => Undef
    | Some d =>
        chunk ← buf_sub d (so - p_so pdu) len;
        if so + len <=? NR_SDU_MAX then Ok (mk_reas (ra_sdu r ++ chunk) bad) else Undef
    end
  else Ok (mk_reas (ra_sdu r) bad).

Fixpoint reassemble_all (r : reassembly) (l : list nr_rlc_pdu_t) : outcome reassembly :=
  match l with
  | [] => Ok r
  | pdu :: l' => r ← reassemble_one r pdu; reassemble_all r l'
  end.

(** The loop of [sdu_full] over the segments [l] of one SDU. *)
Fixpoint sdu_full_from (last_byte : Z) (l : list nr_rlc_pdu_t) : bool :=
  match l with
  | [] => false
  | pdu :: l' =>
      if last_byte + 1 <? p_so pdu then false
      else if p_is_last pdu then true
      else
        let new_last_byte := p_so pdu + p_size pdu - 1 in
        sdu_full_from (if last_byte <? new_last_byte then new_last_byte else last_byte) l'
  end.

(** The loop of [sdu_has_missing_bytes] over the segments [l] of one SDU. *)
Fixpoint missing_from (last_byte : Z) (l : list nr_rlc_pdu_t) : bool :=
  match l with
  | [] => false
  | pdu :: l' =>
      if last_byte + 1 <? p_so pdu then true
      else
        let new_last_byte := p_so pdu + p_size pdu - 1 in
        missing_from (if last_byte <? new_last_byte then new_last_byte else last_byte) l'
  end.

(** [l != NULL && l->data == NULL]: the SDU of these segments was delivered. *)
Definition delivered (l : list nr_rlc_pdu_t) : bool :=
  match l with
  | pdu :: _ => if p_data pdu is None then true else false
  | [] => false
  end.

(** [while (sdu_delivered(sn)) sn = (sn + 1) % sn_modulus;]: the loop changes
    nothing but [sn], so it never ends exactly when all [sn_modulus] SNs are
    delivered; [fuel] is [sn_modulus]. *)
Fixpoint skip_delivered (fuel : nat) (is_delivered : Z → bool) (sn_modulus sn : Z) : outcome Z :=
  match fuel with
  | O => Diverge
  | S fuel' =>
      if is_delivered sn
      then skip_delivered fuel' is_delivered sn_modulus (cmod (sn + 1) sn_modulus)
      else Ok sn
  end.

(** ** Correctness of the reassembly

    [stored p]: [p] is a segment that has its bytes; [genuine d p]: it is a
    segment of the SDU [d]. *)
Definition stored (p : nr_rlc_pdu_t) : Prop :=
  0 <= p_so p ∧ 0 < p_size p ∧ ∃ x, p_data p = Some x ∧ zlen x = p_size p.

Definition genuine (d : bytes) (p : nr_rlc_pdu_t) : Prop :=
  0 <= p_so p ∧ 0 < p_size p ∧ p_so p + p_size p <= zlen d ∧
  p_data p = Some (take (Z.to_nat (p_size p)) (drop (Z.to_nat (p_so p)) d)) ∧
  p_is_last p = (p_so p + p_size p =? zlen d).

Lemma genuine_stored d p : genuine d p → stored p.
Proof.
  intros (H1 & H2 & H3 & H4 & _). split_and!; try done. eexists. split; [done|].
  rewrite zlen_take; [done|]. rewrite zlen_drop; lia.
Qed.

(** Reading only stored segments never faults, whatever they are. *)
Lemma reassemble_one_ok r p :
  stored p →
  returns (reassemble_one r p) (λ r', zlen (ra_sdu r) <= zlen (ra_sdu r') ∧
    (ra_bad r = true → ra_bad r' = true) ∧
    (zlen (ra_sdu r) <= NR_SDU_MAX → zlen (ra_sdu r') <= NR_SDU_MAX)).
Proof.
  intros (Hso & Hsz & x & Hx & Hl). unfold reassemble_one. rewrite Hx.
  set (so := zlen (ra_sdu r)). set (len := p_size p - (so - p_so p)).
  set (bad := (_ || (so <? p_so p)) || (NR_SDU_MAX <? so + len)).
  destruct (negb bad && (0 <? len)) eqn:E.
  - apply andb_true_iff in E as [Hb Hlen]. apply negb_true_iff in Hb.
    unfold bad in Hb. apply orb_false_iff in Hb as [Hb Hmax]. apply orb_false_iff in Hb as [Hb Hge].
    apply Z.ltb_lt in Hlen. apply Z.ltb_ge in Hge, Hmax.
    rewrite buf_sub_ok by lia. cbn [mbind outcome_bind].
    rewrite (proj2 (Z.leb_le _ _)) by done. apply returns_ok. cbn.
    rewrite zlen_app, zlen_take by (rewrite zlen_drop; lia). rewrite Hb.
    split_and!; [lia|done|intros _; unfold so, len in *; lia].
  - apply returns_ok. cbn. split_and!; [lia| |done]. intros H. unfold bad. by rewrite H.
Qed.

Lemma reassemble_all_ok r l :
  Forall stored l → zlen (ra_sdu r) <= NR_SDU_MAX →
  returns (reassemble_all r l) (λ r', zlen (ra_sdu r') <= NR_SDU_MAX).
Proof.
  revert r. induction l as [|p l IH]; intros r Hl Hr; cbn [reassemble_all]; [by apply returns_ok|].
  apply Forall_cons in Hl as [Hp Hl].
  eapply returns_bind; [by apply (reassemble_one_ok r p)|]. intros r' (_ & _ & H). auto.
Qed.

(** One turn on a genuine segment that leaves no gap: the bytes so far are
    those of the SDU up to the end of what was seen. *)
Lemma reassemble_one_genuine d n p :
  genuine d p → 0 <= n <= zlen d → p_so p <= n → zlen d <= NR_SDU_MAX →
  reassemble_one (mk_reas (take (Z.to_nat n) d) false) p
  = Ok (mk_reas (take (Z.to_nat (Z.max n (p_so p + p_size p))) d) false).
Proof.
  intros (H1 & H2 & H3 & Hd & _) Hn Hso Hmax. unfold reassemble_one. cbn [ra_sdu ra_bad].
  rewrite zlen_take by done. rewrite Hd.
  rewrite (proj2 (Z.ltb_ge _ _)) by done. rewrite (proj2 (Z.ltb_ge NR_SDU_MAX _)) by lia.
  cbn [orb negb andb]. destruct (Z.ltb_spec 0 (p_size p - (n - p_so p))) as [Hlt|Hge].
  - rewrite buf_sub_ok; [|lia..|].
    2:{ rewrite zlen_take; [lia|]. rewrite zlen_drop; lia. }
    cbn [mbind outcome_bind]. rewrite (proj2 (Z.leb_le _ _)) by lia. do 2 f_equal.
    rewrite Z.max_r by lia. rewrite skipn_firstn_comm, drop_drop, take_take.
    replace (Z.to_nat (p_so p) + Z.to_nat (n - p_so p))%nat with (Z.to_nat n) by lia.
    replace (Z.to_nat (p_so p + p_size p))
      with (Z.to_nat n + (Z.to_nat (p_size p - (n - p_so p)) `min`
             (Z.to_nat (p_size p) - Z.to_nat (n - p_so p))))%nat by lia.
    rewrite <- take_take_drop. done.
  - rewrite Z.max_l by lia. done.
Qed.

Lemma take_all_Z (d : bytes) : take (Z.to_nat (zlen d)) d = d.
Proof. unfold zlen. rewrite Nat2Z.id. apply firstn_all. Qed.

Lemma reassemble_complete d l :
  Forall (genuine d) l → zlen d <= NR_SDU_MAX →
  reassemble_all (mk_reas d false) l = Ok (mk_reas d false).
Proof.
  intros Hl Hmax. induction Hl as [|p l Hp Hl IH]; [done|]. cbn [reassemble_all].
  pose proof Hp as (H1 & H2 & H3 & _). pose proof (zlen_nonneg d).
  pose proof (reassemble_one_genuine d (zlen d) p Hp ltac:(lia) ltac:(lia) Hmax) as E.
  rewrite take_all_Z, Z.max_l, take_all_Z in E by lia. rewrite E. exact IH.
Qed.

(** When the test [sdu_full] succeeds on segments of one SDU, in whatever
    order and with whatever overlaps, the loop of [reassemble_and_deliver]
    rebuilds that SDU. *)
Lemma full_reassembles d n l :
  Forall (genuine d) l → 0 <= n <= zlen d → zlen d <= NR_SDU_MAX →
  sdu_full_from (n - 1) l = true →
  reassemble_all (mk_reas (take (Z.to_nat n) d) false) l = Ok (mk_reas d false).
Proof.
  intros Hl Hn Hmax. revert n Hn. induction Hl as [|p l Hp Hl IH]; intros n Hn; [done|].
  cbn [sdu_full_from reassemble_all]. pose proof Hp as (H1 & H2 & H3 & _ & Hlast).
  destruct (Z.ltb_spec (n - 1 + 1) (p_so p)) as [|Hso]; [done|].
  rewrite reassemble_one_genuine by (done || lia). cbn [mbind outcome_bind].
  destruct (p_is_last p).
  - intros _. symmetry in Hlast. apply Z.eqb_eq in Hlast.
    rewrite Z.max_r, Hlast, take_all_Z by lia. by apply reassemble_complete.
  - intros Hf. apply IH; [lia|].
    replace (Z.max n (p_so p + p_size p) - 1)
      with (if n - 1 <? p_so p + p_size p - 1 then p_so p + p_size p - 1 else n - 1)
      by (destr_bool; lia). exact Hf.
Qed.

Definition covered (l : list nr_rlc_pdu_t) (i : Z) : Prop :=
  ∃ p, p ∈ l ∧ p_so p <= i < p_so p + p_size p.

(** On segments sorted by offset, [sdu_full] is exact: it holds if and only if
    every byte of the SDU has been received. *)
Lemma full_covered d n l :
  Forall (genuine d) l → 0 <= n < zlen d →
  StronglySorted (λ p q, p_so p <= p_so q) l →
  sdu_full_from (n - 1) l = true ↔ ∀ i, n <= i < zlen d → covered l i.
Proof.
  intros Hl Hn Hs. revert n Hn. induction Hl as [|p l Hp Hl IH]; intros n Hn.
  { cbn. split; [done|]. intros H. destruct (H n ltac:(lia)) as (p & Hp & _). set_solver. }
  apply StronglySorted_inv in Hs as [Hs Hall]. cbn [sdu_full_from].
  pose proof Hp as (H1 & H2 & H3 & _ & Hlast).
  destruct (Z.ltb_spec (n - 1 + 1) (p_so p)) as [Hgap|Hso].
  { split; [done|]. intros H. destruct (H n ltac:(lia)) as (q & Hq & Hi).
    apply elem_of_cons in Hq as [->|Hq]; [lia|].
    rewrite Forall_forall in Hall. specialize (Hall q Hq). lia. }
  destruct (p_is_last p).
  { symmetry in Hlast. apply Z.eqb_eq in Hlast. split; [|done].
    intros _ i Hi. exists p. split; [set_solver|lia]. }
  symmetry in Hlast. apply Z.eqb_neq in Hlast.
  replace (if n - 1 <? p_so p + p_size p - 1 then p_so p + p_size p - 1 else n - 1)
    with (Z.max n (p_so p + p_size p) - 1) by (destr_bool; lia).
  rewrite IH by (done || lia). split; intros H i Hi.
  - destruct (decide (i < p_so p + p_size p)).
    + exists p. split; [set_solver|lia].
    + destruct (H i ltac:(lia)) as (q & Hq & ?). exists q. split; [set_solver|done].
  - destruct (H i ltac:(lia)) as (q & Hq & ?). apply elem_of_cons in Hq as [->|Hq]; [lia|].
    by exists q.
Qed.

(** reassembly is sound and complete. For segments of one SDU [d] sorted by
    offset, with any overlaps and duplicates, the test [sdu_full] holds exactly
    when every byte of [d] has been received, and then the loop of
    [reassemble_and_deliver] faults nowhere and rebuilds exactly [d]. *)
Theorem reassembly_exact d l :
  Forall (genuine d) l → 0 < zlen d <= NR_SDU_MAX →
  StronglySorted (λ p q, p_so p <= p_so q) l →
  (sdu_full_from (-1) l = true ↔ ∀ i, 0 <= i < zlen d → covered l i) ∧
  (sdu_full_from (-1) l = true →
   reassemble_all (mk_reas [] false) l = Ok (mk_reas d false)).
Proof.
  intros Hl Hd Hs. split; [apply (full_covered d 0); (done || lia)|].
  intros Hf. apply (full_reassembles d 0); (done || lia).
Qed.

Lemma reassembly_exact_witness :
  let d := [10; 11; 12; 13; 14] in
  let l := [mk_pdu 3 (Some [10; 11]) 2 0 true false; mk_pdu 3 (Some [11; 12; 13]) 3 1 false false;
            mk_pdu 3 (Some [13; 14]) 2 3 false true] in
  Forall (genuine d) l ∧ sdu_full_from (-1) l = true ∧
  reassemble_all (mk_reas [] false) l = Ok (mk_reas d false).
Proof.
  intros d l. assert (Forall (genuine d) l) as Hl.
  { repeat constructor; vm_compute; intuition congruence. }
  assert (sdu_full_from (-1) l = true) as Hf by reflexivity.
  split; [exact Hl|]. split; [exact Hf|].
  apply (reassembly_exact d l); [exact Hl|vm_compute; intuition congruence| |exact Hf].
  repeat constructor; cbn; lia.
Defined.

(** ** What a receiver delivers *)

(** What the reception of a segment of [sn] may deliver: an SDU rebuilt from
    segments of [sn] that all satisfy [Q]. *)
Definition delivery (Q : nr_rlc_pdu_t → Prop) (sn : Z) (evs : list rlc_event) : Prop :=
  evs = [] ∨ ∃ segs d, evs = [deliver_sdu d] ∧
    Forall (λ p, stored p ∧ Q p ∧ p_sn p = sn) segs ∧ sdu_full_from (-1) segs = true ∧
    reassemble_all (mk_reas [] false) segs = Ok (mk_reas d false).

(** What is delivered when [l] are the segments of an SN after a reception. *)
Definition slot_delivers (l : list nr_rlc_pdu_t) (evs : list rlc_event) : Prop :=
  if negb (delivered l) && sdu_full_from (-1) l
  then ∃ r, reassemble_all (mk_reas [] false) l = Ok r ∧
            evs = if ra_bad r then [] else [deliver_sdu (ra_sdu r)]
  else evs = [].

(** The SDU each SN of the window stands for. *)
Definition genuine_sn (content : Z → bytes) (p : nr_rlc_pdu_t) : Prop :=
  genuine (content (p_sn p)) p.

Lemma delivery_genuine content sn evs :
  zlen (content sn) <= NR_SDU_MAX → delivery (genuine_sn content) sn evs →
  evs = [] ∨ evs = [deliver_sdu (content sn)].
Proof.
  intros Hmax [->|(segs & d & -> & Hsegs & Hf & Hr)]; [by left|right].
  assert (Forall (genuine (content sn)) segs) as Hg.
  { eapply Forall_impl; [exact Hsegs|]. intros p (_ & Hp & <-). exact Hp. }
  pose proof (zlen_nonneg (content sn)).
  pose proof (full_reassembles (content sn) 0 segs Hg ltac:(lia) Hmax Hf) as Hr'.
  change (take (Z.to_nat 0) (content sn)) with (@nil Z) in Hr'. rewrite Hr in Hr'. by injection Hr' as ->.
Qed.

(** ** The loop over delivered SNs *)

(** If the SN reached after [k] steps is not delivered, the loop ends, on the
    first SN that is not. *)
Lemma skip_delivered_ok f M fuel k sn :
  0 < M → 0 <= sn < M → (k < fuel)%nat → f ((sn + Z.of_nat k) mod M) = false →
  ∃ j, (j <= k)%nat ∧ skip_delivered fuel f M sn = Ok ((sn + Z.of_nat j) mod M) ∧
       f ((sn + Z.of_nat j) mod M) = false ∧
       ∀ i, (i < j)%nat → f ((sn + Z.of_nat i) mod M) = true.
Proof.
  intros HM. revert fuel sn. induction k as [|k IH]; intros fuel sn Hsn Hk Hf;
    (destruct fuel as [|fuel]; [lia|]); cbn [skip_delivered].
  - exists 0%nat. rewrite Z.add_0_r, Z.mod_small in * by done. rewrite Hf. split_and!; try done. lia.
  - destruct (f sn) eqn:E.
    + rewrite cmod_nonneg by lia.
      destruct (IH fuel ((sn + 1) mod M)) as (j & Hj & Hr & Hfj & Hall).
      { apply Z.mod_pos_bound. lia. }
      { lia. }
      { rewrite Zplus_mod_idemp_l. rewrite <- Hf. do 2 f_equal. lia. }
      exists (S j). rewrite Zplus_mod_idemp_l in Hr, Hfj.
      replace (sn + Z.of_nat (S j)) with (sn + 1 + Z.of_nat j) by lia.
      split_and!; [lia|done|done|]. intros [|i] Hi.
      * by rewrite Z.add_0_r, Z.mod_small.
      * specialize (Hall i ltac:(lia)). rewrite Zplus_mod_idemp_l in Hall.
        by replace (sn + Z.of_nat (S i)) with (sn + 1 + Z.of_nat i) by lia.
    + exists 0%nat. rewrite Z.add_0_r, Z.mod_small by done. split_and!; try done; lia.
Qed.

(** If all SNs are delivered, it does not end. *)
Lemma skip_delivered_diverges f M fuel sn :
  0 < M → 0 <= sn < M → (∀ a, 0 <= a < M → f a = true) → skip_delivered fuel f M sn = Diverge.
Proof.
  intros HM Hsn Hf. revert sn Hsn. induction fuel as [|fuel IH]; intros sn Hsn; [done|].
  cbn [skip_delivered]. rewrite Hf by done. apply IH. apply cmod_range; lia.
Qed.
