(* ===== verification/RlcUm.v ===== *)
(** * RLC unacknowledged mode

    Models [openair2/LAYER2/nr_rlc/nr_rlc_entity_um.c] and its state
    [nr_rlc_entity_um_t]: segmentation on the transmitting side, reassembly in
    a window of half the SN space on the receiving side. *)

From S2P Require Import Prelude Bits RlcPdu TimeStat RlcSdu RlcTypes RlcReassemble.

Record nr_rlc_entity_um_t := mk_um {
  common : nr_rlc_entity_t;
  t_reassembly : Z;
  sn_field_length : Z;
  sn_modulus : Z;
  window_size : Z;
  rx_next_highest : Z;
  rx_next_reassembly : Z;
  rx_timer_trigger : Z;
  tx_next : Z;
  t_current : Z;
  t_log_buffer_full : Z;
  sdu_rejected : Z;
  t_reassembly_start : Z;
  rx_list : list nr_rlc_pdu_t;
  rx_size : Z;
  rx_maxsize : Z;
  heap : sdu_heap;
  tx_list : list nr_rlc_sdu_segment_t;
  tx_end : option positive;
  tx_size : Z;
  tx_maxsize : Z;
}.
#[export] Instance eta_um : Eta nr_rlc_entity_um_t := λ r,
  mk_um (common r) (t_reassembly r) (sn_field_length r) (sn_modulus r) (window_size r)
    (rx_next_highest r) (rx_next_reassembly r) (rx_timer_trigger r) (tx_next r)
    (t_current r) (t_log_buffer_full r) (sdu_rejected r) (t_reassembly_start r)
    (rx_list r) (rx_size r) (rx_maxsize r) (heap r) (tx_list r) (tx_end r) (tx_size r)
    (tx_maxsize r).
#[export] Instance set_common : Setter common := ltac:(derive_setter).
#[export] Instance set_t_reassembly : Setter t_reassembly := ltac:(derive_setter).
#[export] Instance set_sn_field_length : Setter sn_field_length := ltac:(derive_setter).
#[export] Instance set_rx_next_highest : Setter rx_next_highest := ltac:(derive_setter).
#[export] Instance set_rx_next_reassembly : Setter rx_next_reassembly := ltac:(derive_setter).
#[export] Instance set_rx_timer_trigger : Setter rx_timer_trigger := ltac:(derive_setter).
#[export] Instance set_tx_next : Setter tx_next := ltac:(derive_setter).
#[export] Instance set_t_current : Setter t_current := ltac:(derive_setter).
#[export] Instance set_t_log_buffer_full : Setter t_log_buffer_full := ltac:(derive_setter).
#[export] Instance set_sdu_rejected : Setter sdu_rejected := ltac:(derive_setter).
#[export] Instance set_t_reassembly_start : Setter t_reassembly_start := ltac:(derive_setter).
#[export] Instance set_rx_list : Setter rx_list := ltac:(derive_setter).
#[export] Instance set_rx_size : Setter rx_size := ltac:(derive_setter).
#[export] Instance set_heap : Setter heap := ltac:(derive_setter).
#[export] Instance set_tx_list : Setter tx_list := ltac:(derive_setter).
#[export] Instance set_tx_end : Setter tx_end := ltac:(derive_setter).
#[export] Instance set_tx_size : Setter tx_size := ltac:(derive_setter).

Definition on_common (f : nr_rlc_entity_t → nr_rlc_entity_t) (e : nr_rlc_entity_um_t)
  : nr_rlc_entity_um_t := e <| common := f (common e) |>.

Definition new_nr_rlc_entity_um (rx_maxsize tx_maxsize t_reassembly sn_field_length : Z)
  : outcome nr_rlc_entity_um_t :=
  if negb ((sn_field_length =? 6) || (sn_field_length =? 12)) then Fatal
  else
    let sn_modulus := Z.shiftl 1 sn_field_length in
    let window_size := Z.quot sn_modulus 2 in
    c ← new_common NR_RLC_UM;
    Ok (mk_um c t_reassembly sn_field_length sn_modulus window_size 0 0 0 0 0 0 0 0 [] 0 rx_maxsize
          empty_heap [] None 0 tx_maxsize).

Definition nr_rlc_entity_um_reconfigure (entity : nr_rlc_entity_um_t) (t_reass : Z)
    (sn_length : option Z) : nr_rlc_entity_um_t :=
  let entity := entity <| t_reassembly := t_reass |> in
  match sn_length with
  | Some n => entity <| sn_field_length := n |>
  | None => entity
  end.

(** for a given SDU/SDU segment, computes the corresponding PDU header size *)
Definition compute_pdu_header_size (entity : nr_rlc_entity_um_t) (sdu : nr_rlc_sdu_segment_t) : Z :=
  let header_size := 1 in
  let header_size := if negb (g_is_first sdu && g_is_last sdu) && (sn_field_length entity =? 12)
                     then header_size + 1 else header_size in
  if negb (g_is_first sdu) then header_size + 2 else header_size.

(** ** Reception *)

Definition modulus_rx (entity : nr_rlc_entity_um_t) (a : Z) : Z :=
  let r := a - (rx_next_highest entity - window_size entity) in
  let r := if r <? 0 then r + sn_modulus entity else r in
  cmod r (sn_modulus entity).

Definition sn_compare_rx (entity : nr_rlc_entity_um_t) (a b : Z) : Z :=
  modulus_rx entity a - modulus_rx entity b.

(** The list from the first PDU with SN [sn] on. *)
Fixpoint from_sn (sn : Z) (l : list nr_rlc_pdu_t) : list nr_rlc_pdu_t :=
  match l with
  | [] => []
  | pdu :: next => if p_sn pdu =? sn then l else from_sn sn next
  end.

(** The PDUs with SN [sn] at the head of [l], and what follows them. *)
Fixpoint split_sn (sn : Z) (l : list nr_rlc_pdu_t) : list nr_rlc_pdu_t * list nr_rlc_pdu_t :=
  match l with
  | [] => ([], [])
  | pdu :: next => if p_sn pdu =? sn then let '(a, b) := split_sn sn next in (pdu :: a, b)
                   else ([], l)
  end.

(** The segments of [sn] that the loops of the reception functions visit. *)
Definition segments_of (entity : nr_rlc_entity_um_t) (sn : Z) : list nr_rlc_pdu_t :=
  (split_sn sn (from_sn sn (rx_list entity))).1.

Definition sdu_full (entity : nr_rlc_entity_um_t) (sn : Z) : bool :=
  let l := segments_of entity sn in
  if delivered l then false else sdu_full_from (-1) l.

Definition sdu_delivered (entity : nr_rlc_entity_um_t) (sn : Z) : bool :=
  delivered (from_sn sn (rx_list entity)).

Definition sdu_has_missing_bytes (entity : nr_rlc_entity_um_t) (sn : Z) : bool :=
  let l := segments_of entity sn in
  if delivered l then false else missing_from (-1) l.

(** [free(pdu->data); pdu->data = NULL; pdu->size = 0] *)
Definition release_pdu (pdu : nr_rlc_pdu_t) : nr_rlc_pdu_t :=
  pdu <| p_data := None |> <| p_size := 0 |>.

(** The PDUs before the first one with SN [sn]. *)
Fixpoint before_sn (sn : Z) (l : list nr_rlc_pdu_t) : list nr_rlc_pdu_t :=
  match l with
  | [] => []
  | pdu :: next => if p_sn pdu =? sn then [] else pdu :: before_sn sn next
  end.

Definition reassemble_and_deliver (entity : nr_rlc_entity_um_t) (sn : Z)
  : outcome nr_rlc_entity_um_t :=
  match from_sn sn (rx_list entity) with
  | [] => Undef               (* the search runs off the end of the list *)
  | l =>
      let '(segs, rest) := split_sn sn l in
      r ← reassemble_all (mk_reas [] false) segs;
      let entity :=
        entity <| rx_list := before_sn sn (rx_list entity) ++ (release_pdu <$> segs) ++ rest |>
               <| rx_size := rx_size entity - sumZ p_size segs |> in
      if ra_bad r then Ok entity
      else
        let entity := on_common (call (deliver_sdu (ra_sdu r))) entity in
        Ok (on_common (on_stats (λ s,
              add64 txsdu_bytes (zlen (ra_sdu r)) (add32 txsdu_pkts 1 s))) entity)
  end.

(** The loop that drops from the head the PDUs outside of the reassembly window. *)
Fixpoint discard_out_of_window (l : list nr_rlc_pdu_t) (entity : nr_rlc_entity_um_t)
  : nr_rlc_entity_um_t :=
  match l with
  | [] => entity <| rx_list := [] |>
  | p :: next =>
      if 0 <=? sn_compare_rx entity (p_sn p) (rx_next_highest entity) then
        let entity := entity <| rx_size := rx_size entity - p_size p |> in
        discard_out_of_window next
          (on_common (on_stats (λ s,
             add32 rxpdu_ow_bytes (p_size p) (add32 rxpdu_ow_pkts 1
               (add32 rxpdu_dd_bytes (p_size p) (add32 rxpdu_dd_pkts 1 s))))) entity)
      else entity <| rx_list := l |>
  end.

(** First part of [reception_actions]: deliver, or update the window. *)
Definition reception_update (entity : nr_rlc_entity_um_t) (x : Z) : outcome nr_rlc_entity_um_t :=
  let fuel := Z.to_nat (sn_modulus entity) in
  if sdu_full entity x then
    entity ← reassemble_and_deliver entity x;
    if x =? rx_next_reassembly entity then
      v ← skip_delivered fuel (sdu_delivered entity) (sn_modulus entity) (rx_next_reassembly entity);
      Ok (entity <| rx_next_reassembly := v |>)
    else Ok entity
  else if 0 <=? sn_compare_rx entity x (rx_next_highest entity) then
    let entity := entity <| rx_next_highest := cmod (x + 1) (sn_modulus entity) |> in
    let entity := discard_out_of_window (rx_list entity) entity in
    if 0 <=? sn_compare_rx entity (rx_next_reassembly entity) (rx_next_highest entity) then
      let v := cmod (rx_next_highest entity - window_size entity + sn_modulus entity)
                    (sn_modulus entity) in
      v ← skip_delivered fuel (sdu_delivered entity) (sn_modulus entity) v;
      Ok (entity <| rx_next_reassembly := v |>)
    else Ok entity
  else Ok entity.

(** Second part: stop, then maybe start, t-Reassembly. *)
Definition reception_timer (entity : nr_rlc_entity_um_t) : nr_rlc_entity_um_t :=
  let next := cmod (rx_next_reassembly entity + 1) (sn_modulus entity) in
  let entity :=
    if negb (t_reassembly_start entity =? 0) then
      if (sn_compare_rx entity (rx_timer_trigger entity) (rx_next_reassembly entity) <=? 0)
         || (0 <? sn_compare_rx entity (rx_timer_trigger entity) (rx_next_highest entity))
         || ((rx_next_highest entity =? next)
             && negb (sdu_has_missing_bytes entity (rx_next_reassembly entity)))
      then entity <| t_reassembly_start := 0 |> else entity
    else entity in
  if t_reassembly_start entity =? 0 then
    if (0 <? sn_compare_rx entity (rx_next_highest entity) next)
       || ((rx_next_highest entity =? next)
           && sdu_has_missing_bytes entity (rx_next_reassembly entity))
    then entity <| t_reassembly_start := t_current entity |>
                <| rx_timer_trigger := rx_next_highest entity |>
    else entity
  else entity.

Definition reception_actions (entity : nr_rlc_entity_um_t) (pdu : nr_rlc_pdu_t)
  : outcome nr_rlc_entity_um_t :=
  entity ← reception_update entity (p_sn pdu);
  Ok (reception_timer entity).

(** The labels [err] and [discard]. *)
Definition recv_pdu_discard (entity : nr_rlc_entity_um_t) (size : Z) : outcome nr_rlc_entity_um_t :=
  Ok (on_common (on_stats (λ s, add32 rxpdu_dd_bytes size (add32 rxpdu_dd_pkts 1 s))) entity).

(** From [put in pdu reception list] on, all checks passed. *)
Definition recv_pdu_store (entity : nr_rlc_entity_um_t) (buffer : bytes)
    (size data_size sn so : Z) (is_first is_last : bool) : outcome nr_rlc_entity_um_t :=
  let entity := entity <| rx_size := rx_size entity + data_size |> in
  data ← buf_sub buffer (size - data_size) data_size;
  pdu ← nr_rlc_new_pdu sn so is_first is_last data data_size;
  let entity := entity <| rx_list :=
    nr_rlc_pdu_list_add (sn_compare_rx entity) (rx_list entity) pdu |> in
  reception_actions entity pdu.

Definition nr_rlc_entity_um_recv_pdu (entity : nr_rlc_entity_um_t) (buffer : bytes) (size : Z)
  : outcome nr_rlc_entity_um_t :=
  let entity := on_common (on_stats (λ s, add32 rxpdu_bytes size (add32 rxpdu_pkts 1 s))) entity in
  let decoder := nr_rlc_pdu_decoder_init buffer size in
  '(si, decoder) ← nr_rlc_pdu_decoder_get_bits decoder 2;
  if nr_rlc_pdu_decoder_in_error decoder then recv_pdu_discard entity size else
  let is_first := Z.land si 2 =? 0 in
  let is_last := Z.land si 1 =? 0 in
  if is_first && is_last then
    if size <? 2 then recv_pdu_discard entity size
    else
      sdu ← buf_sub buffer 1 (size - 1);
      let entity := on_common (call (deliver_sdu sdu)) entity in
      Ok (on_common (on_stats (λ s,
            add64 txsdu_bytes (size - 1) (add32 txsdu_pkts 1 s))) entity)
  else
  '(_, decoder) ← (if sn_field_length entity =? 12
                   then nr_rlc_pdu_decoder_get_bits decoder 2 else Ok (0, decoder));
  if nr_rlc_pdu_decoder_in_error decoder then recv_pdu_discard entity size else
  '(sn, decoder) ← nr_rlc_pdu_decoder_get_bits decoder (sn_field_length entity);
  if nr_rlc_pdu_decoder_in_error decoder then recv_pdu_discard entity size else
  '(so, decoder) ← (if negb is_first then nr_rlc_pdu_decoder_get_bits decoder 16
                    else Ok (0, decoder));
  if nr_rlc_pdu_decoder_in_error decoder then recv_pdu_discard entity size else
  if negb is_first && (so =? 0) then recv_pdu_discard entity size else
  let data_size := size - d_byte decoder in
  if data_size <=? 0 then recv_pdu_discard entity size else
  if rx_maxsize entity <? rx_size entity + data_size then recv_pdu_discard entity size else
  if sn_compare_rx entity sn (rx_next_reassembly entity) <? 0 then recv_pdu_discard entity size else
  recv_pdu_store entity buffer size data_size sn so is_first is_last.


(** ** Transmission *)

Definition serialize_sdu (entity : nr_rlc_entity_um_t) (sdu : nr_rlc_sdu_segment_t)
    (buffer : bytes) (bufsize : Z) : outcome (Z * bytes) :=
  let encoder := nr_rlc_pdu_encoder_init buffer bufsize in
  encoder ← nr_rlc_pdu_encoder_put_bits encoder (1 - Z.b2z (g_is_first sdu)) 1;
  encoder ← nr_rlc_pdu_encoder_put_bits encoder (1 - Z.b2z (g_is_last sdu)) 1;
  encoder ←
    (if g_is_first sdu && g_is_last sdu then nr_rlc_pdu_encoder_put_bits encoder 0 6
     else
       encoder ← (if sn_field_length entity =? 12
                  then nr_rlc_pdu_encoder_put_bits encoder 0 2 else Ok encoder);
       nr_rlc_pdu_encoder_put_bits encoder (s_sn (sdu_of (heap entity) sdu))
         (sn_field_length entity));
  encoder ← (if negb (g_is_first sdu)
             then nr_rlc_pdu_encoder_put_bits encoder (g_so sdu) 16 else Ok encoder);
  data ← buf_sub (s_data (sdu_of (heap entity) sdu)) (g_so sdu) (g_size sdu);
  buffer ← buf_write (e_buffer encoder) (e_byte encoder) data;
  Ok (e_byte encoder + g_size sdu, buffer).

(** Cuts [sdu] so that its PDU fits into [pdu_size] bytes: returns the segment
    changed, and a new segment for the remaining bytes, [None] for NULL. *)
Definition resegment (sdu : nr_rlc_sdu_segment_t) (entity : nr_rlc_entity_um_t) (pdu_size : Z)
  : nr_rlc_sdu_segment_t * option nr_rlc_sdu_segment_t * nr_rlc_entity_um_t :=
  let s := sdu_of (heap entity) sdu in
  let entity := entity <| heap := upd_sdu (heap entity) sdu
                            (s <| s_ref_count := s_ref_count s + 1 |>) |> in
  let pdu_header_size := compute_pdu_header_size entity (sdu <| g_is_last := false |>) in
  if pdu_size <? pdu_header_size + 1 then (sdu, None, entity)
  else
    let '(addr, h) := new_addr (heap entity) in
    let entity := entity <| heap := h |> in
    let next := sdu <| g_addr := addr |> in
    let over_size := pdu_header_size + g_size sdu - pdu_size in
    let sdu := sdu <| g_size := g_size sdu - over_size |> <| g_is_last := false |> in
    let next := next <| g_size := over_size |> <| g_so := g_so sdu + g_size sdu |>
                     <| g_is_first := false |> in
    (sdu, Some next, on_common (on_stats (add32 txpdu_segmented 1)) entity).

(** Puts the remaining segment back at the head of the TX list. *)
Definition push_back (entity : nr_rlc_entity_um_t) (next_sdu : nr_rlc_sdu_segment_t)
  : nr_rlc_entity_um_t :=
  let entity := entity <| tx_list := next_sdu :: tx_list entity |> in
  let entity := if tx_end entity is None
                then entity <| tx_end := Some (g_addr next_sdu) |> else entity in
  let entity := on_common (on_stats (add32 txpdu_segmented 1)) entity in
  on_common (bstatus_tx (compute_pdu_header_size entity next_sdu + g_size next_sdu)) entity.

(** The end of [generate_tx_pdu]: serialize the segment, account for it, free it. *)
Definition send_segment (time_now : Z) (entity : nr_rlc_entity_um_t) (sdu : nr_rlc_sdu_segment_t)
    (buffer : bytes) (size : Z) : outcome (Z * bytes * nr_rlc_entity_um_t) :=
  let entity :=
    if negb (g_is_first sdu) && g_is_last sdu
    then entity <| tx_next := cmod (tx_next entity + 1) (sn_modulus entity) |> else entity in
  '(ret, buffer) ← serialize_sdu entity sdu buffer size;
  let entity := entity <| tx_size := tx_size entity - g_size sdu |> in
  let entity := on_common (on_stats (λ s, add32 txpdu_bytes size (add32 txpdu_pkts 1 s))) entity in
  c ← record_waited_time (common entity) time_now (s_time_of_arrival (sdu_of (heap entity) sdu));
  let entity := entity <| common := c |> in
  '(_, h) ← nr_rlc_free_sdu_segment (heap entity) sdu;
  Ok (ret, buffer, entity <| heap := h |>).

Definition generate_tx_pdu (time_now : Z) (entity : nr_rlc_entity_um_t) (buffer : bytes) (size : Z)
  : outcome (Z * bytes * nr_rlc_entity_um_t) :=
  match tx_list entity with
  | [] => Ok (0, buffer, entity)
  | sdu :: next =>
      let pdu_header_size := compute_pdu_header_size entity sdu in
      if size <? pdu_header_size + 1 then Ok (0, buffer, entity)
      else
        let entity := entity <| tx_list := next |> in
        let entity := if tx_list entity is [] then entity <| tx_end := None |> else entity in
        let entity := entity <| heap := upd_sdu (heap entity) sdu
                        (sdu_of (heap entity) sdu <| s_sn := tx_next entity |>) |> in
        let pdu_size := pdu_header_size + g_size sdu in
        let entity := on_common (bstatus_tx (- pdu_size)) entity in
        if size <? pdu_size then
          match resegment sdu entity size with
          | (_, None, entity) => Ok (0, buffer, entity)
          | (sdu, Some next_sdu, entity) =>
              send_segment time_now (push_back entity next_sdu) sdu buffer size
          end
        else send_segment time_now entity sdu buffer size
  end.

Definition nr_rlc_entity_um_buffer_status (entity : nr_rlc_entity_um_t) (maxsize : Z)
  : nr_rlc_entity_buffer_status_t :=
  mk_bstatus 0 (bs_tx_size (bstatus (common entity))) 0.

Definition nr_rlc_entity_um_generate_pdu (time_now : Z) (entity : nr_rlc_entity_um_t)
    (buffer : bytes) (size : Z) : outcome (Z * bytes * nr_rlc_entity_um_t) :=
  generate_tx_pdu time_now entity buffer size.

Definition nr_rlc_entity_um_recv_sdu (time_now : Z) (entity : nr_rlc_entity_um_t)
    (buffer : bytes) (size sdu_id : Z) : outcome nr_rlc_entity_um_t :=
  let entity := on_common (on_stats (λ s, add64 rxsdu_bytes size (add32 rxsdu_pkts 1 s))) entity in
  if NR_SDU_MAX <? size then Fatal
  else
    let entity :=
      if negb (sdu_rejected entity =? 0)
         && (u64 (t_log_buffer_full entity + 1280) <? t_current entity)
      then entity <| sdu_rejected := 0 |> <| t_log_buffer_full := t_current entity |>
      else entity in
    if tx_maxsize entity <? tx_size entity + size then
      let entity := entity <| sdu_rejected := sdu_rejected entity + 1 |> in
      Ok (on_common (on_stats (λ s, add32 rxsdu_dd_bytes size (add32 rxsdu_dd_pkts 1 s))) entity)
    else
      let entity := entity <| tx_size := tx_size entity + size |> in
      '(sdu, h) ← nr_rlc_new_sdu (heap entity) buffer size sdu_id;
      let entity := entity <| heap := h |> in
      '(l, e) ← nr_rlc_sdu_segment_list_append (tx_list entity) (tx_end entity) sdu;
      let entity := entity <| tx_list := l |> <| tx_end := e |> in
      let entity :=
        on_common (bstatus_tx (compute_pdu_header_size entity sdu + g_size sdu)) entity in
      Ok (if avg_time_is_on (common entity)
          then entity <| heap := upd_sdu (heap entity) sdu
                           (sdu_of (heap entity) sdu <| s_time_of_arrival := time_now |>) |>
          else entity).

(** ** Time *)

(** The loop that discards the segments before [rx_next_reassembly]. *)
Fixpoint discard_before (l : list nr_rlc_pdu_t) (entity : nr_rlc_entity_um_t)
  : nr_rlc_entity_um_t :=
  match l with
  | [] => entity <| rx_list := [] |>
  | p :: next =>
      if sn_compare_rx entity (p_sn p) (rx_next_reassembly entity) <? 0 then
        discard_before next
          (on_common (on_stats (λ s,
             add32 rxpdu_dd_bytes (p_size p) (add32 rxpdu_dd_pkts 1 s))) entity)
      else entity <| rx_list := l |>
  end.

Definition check_t_reassembly (entity : nr_rlc_entity_um_t) : outcome nr_rlc_entity_um_t :=
  if (t_reassembly_start entity =? 0)
     || (t_current entity <=? u64 (t_reassembly_start entity + t_reassembly entity))
  then Ok entity
  else
    let entity := entity <| t_reassembly_start := 0 |> in
    v ← skip_delivered (Z.to_nat (sn_modulus entity)) (sdu_delivered entity)
          (sn_modulus entity) (rx_timer_trigger entity);
    let entity := entity <| rx_next_reassembly := v |> in
    let entity := discard_before (rx_list entity) entity in
    Ok (if (0 <? sn_compare_rx entity (rx_next_highest entity)
                   (cmod (rx_next_reassembly entity + 1) (sn_modulus entity)))
           || ((rx_next_highest entity =? rx_next_reassembly entity + 1)
               && sdu_has_missing_bytes entity (rx_next_reassembly entity))
        then entity <| t_reassembly_start := t_current entity |>
                    <| rx_timer_trigger := rx_next_highest entity |>
        else entity).

Definition nr_rlc_entity_um_set_time (entity : nr_rlc_entity_um_t) (now : Z)
  : outcome nr_rlc_entity_um_t :=
  check_t_reassembly (entity <| t_current := now |>).

(** ** Discard, re-establishment, deletion *)

Definition nr_rlc_entity_um_discard_sdu (entity : nr_rlc_entity_um_t) (sdu_id : Z)
  : outcome nr_rlc_entity_um_t :=
  match find_sdu_id (heap entity) sdu_id (tx_list entity) with
  | None => Ok entity
  | Some (pre, cur, post) =>
      if negb (g_is_first cur) || negb (g_is_last cur) then Ok entity
      else
        let entity := entity <| tx_list := pre ++ post |> in
        let entity := if decide (tx_end entity = Some (g_addr cur))
                      then entity <| tx_end := g_addr <$> last pre |> else entity in
        let entity :=
          on_common (bstatus_tx (- (compute_pdu_header_size entity cur + g_size cur))) entity in
        '(_, h) ← nr_rlc_free_sdu_segment (heap entity) cur;
        Ok (entity <| heap := h |>)
  end.

Definition clear_entity (entity : nr_rlc_entity_um_t) : outcome nr_rlc_entity_um_t :=
  let entity := entity <| rx_next_highest := 0 |> <| rx_next_reassembly := 0 |>
                       <| rx_timer_trigger := 0 |> <| tx_next := 0 |> <| t_current := 0 |>
                       <| t_log_buffer_full := 0 |> <| sdu_rejected := 0 |>
                       <| t_reassembly_start := 0 |> <| rx_list := [] |> <| rx_size := 0 |> in
  h ← nr_rlc_free_sdu_segment_list (heap entity) (tx_list entity);
  let entity := entity <| heap := h |> <| tx_list := [] |> <| tx_end := None |>
                       <| tx_size := 0 |> in
  let c := common entity in
  Ok (entity <| common := c <| bstatus := bstatus c <| bs_tx_size := 0 |> |> |>).

Definition nr_rlc_entity_um_reestablishment (entity : nr_rlc_entity_um_t)
  : outcome nr_rlc_entity_um_t := clear_entity entity.

Definition nr_rlc_entity_um_delete (entity : nr_rlc_entity_um_t) : outcome unit :=
  _ ← clear_entity entity; Ok tt.

Definition nr_rlc_entity_um_available_tx_space (entity : nr_rlc_entity_um_t) : Z :=
  tx_maxsize entity - tx_size entity.

Definition nr_rlc_entity_um_tx_list_occupancy (entity : nr_rlc_entity_um_t) : Z :=
  tx_size entity.
