(* ===== verification/RlcUmRx.v ===== *)
(** * RLC unacknowledged mode: the receiving side is correct

    The invariant of the reassembly window, its preservation by reception and
    by the timer for arbitrary input bytes, and what is delivered. *)

From S2P Require Import Prelude Bits RlcPdu TimeStat RlcSdu RlcTypes RlcReassemble RlcUm.

(** ** Segments of one SN in the sorted reception list *)

Abbreviation of_sn sn := (filter (λ p, p_sn p = sn)).

Lemma of_sn_none sn l : (∀ q, q ∈ l → p_sn q ≠ sn) → of_sn sn l = [].
Proof.
  induction l as [|p l IH]; intros H; [done|]. rewrite filter_cons, decide_False by (apply H; set_solver).
  apply IH. intros; apply H; set_solver.
Qed.

Lemma split_sn_sorted pos l sn :
  StronglySorted (pdu_le pos) l → (∀ q, q ∈ l → pos sn < pos (p_sn q) ∨ p_sn q = sn) →
  ∃ b, split_sn sn l = (of_sn sn l, b) ∧ l = of_sn sn l ++ b ∧ ∀ q, q ∈ b → p_sn q ≠ sn.
Proof.
  induction l as [|p l IH]; intros Hs Hl; cbn [split_sn].
  { exists []. split_and!; [done|done|set_solver]. }
  apply StronglySorted_inv in Hs as [Hs Hall]. rewrite filter_cons.
  destruct (Z.eqb_spec (p_sn p) sn) as [E|E].
  - destruct IH as (b & -> & Hb & Hn); [done|intros; apply Hl; set_solver|].
    exists b. rewrite decide_True by done. split_and!; [done|cbn; by f_equal|done].
  - rewrite decide_False by done.
    assert (∀ q, q ∈ p :: l → p_sn q ≠ sn) as Hn.
    { intros q Hq. apply elem_of_cons in Hq as [->|Hq]; [done|].
      destruct (Hl p) as [Hp|]; [set_solver| |done].
      rewrite Forall_forall in Hall. destruct (Hall q Hq) as [?|[? _]]; [|congruence].
      intros E2. rewrite E2 in *. lia. }
    rewrite of_sn_none by set_solver. exists (p :: l). done.
Qed.

(** What the search and the split of the code find. *)
Lemma from_sn_sorted pos l sn :
  StronglySorted (pdu_le pos) l →
  ∃ b, from_sn sn l = of_sn sn l ++ b ∧ (∀ q, q ∈ b → p_sn q ≠ sn) ∧
       split_sn sn (from_sn sn l) = (of_sn sn l, if decide (of_sn sn l = []) then [] else b) ∧
       (of_sn sn l = [] → b = []) ∧
       l = before_sn sn l ++ of_sn sn l ++ b ∧ (∀ q, q ∈ before_sn sn l → p_sn q ≠ sn).
Proof.
  induction l as [|p l IH]; intros Hs.
  { exists []. split_and!; try done; set_solver. }
  apply StronglySorted_inv in Hs as Hs'. destruct Hs' as [Hs' Hall].
  cbn [from_sn before_sn]. rewrite filter_cons.
  destruct (Z.eqb_spec (p_sn p) sn) as [E|E].
  - destruct (split_sn_sorted pos (p :: l) sn) as (b & Hsp & Hl & Hb); [done| |].
    { intros q Hq. apply elem_of_cons in Hq as [->|Hq]; [by right|].
      rewrite Forall_forall in Hall. destruct (Hall q Hq) as [?|[? _]]; [left; congruence|].
      right. congruence. }
    rewrite filter_cons, decide_True in Hsp, Hl by done. rewrite decide_True by done.
    exists b. rewrite Hsp. split_and!; try done. set_solver.
  - destruct (IH Hs') as (b & Hf & Hb & Hsp & Hnil & Hl & Hbef). rewrite decide_False by done.
    exists b. split_and!; try done.
    + cbn. by f_equal.
    + intros q Hq. apply elem_of_cons in Hq as [->|Hq]; [done|]. by apply Hbef.
Qed.

Lemma segments_of_sorted pos e sn :
  StronglySorted (pdu_le pos) (rx_list e) → segments_of e sn = of_sn sn (rx_list e).
Proof.
  intros Hs. unfold segments_of. destruct (from_sn_sorted pos _ sn Hs) as (b & _ & _ & -> & _). done.
Qed.

Lemma sdu_delivered_sorted pos e sn :
  StronglySorted (pdu_le pos) (rx_list e) →
  sdu_delivered e sn = delivered (of_sn sn (rx_list e)).
Proof.
  intros Hs. unfold sdu_delivered. destruct (from_sn_sorted pos _ sn Hs) as (b & -> & _ & _ & Hn & _).
  destruct (of_sn sn (rx_list e)); [by rewrite Hn|done].
Qed.

(** The list after the segments of [sn] have been released. *)
Definition release_sn (sn : Z) (l : list nr_rlc_pdu_t) : list nr_rlc_pdu_t :=
  (λ p, if p_sn p =? sn then release_pdu p else p) <$> l.

Lemma release_split sn a s b :
  (∀ q, q ∈ a → p_sn q ≠ sn) → (∀ q, q ∈ s → p_sn q = sn) → (∀ q, q ∈ b → p_sn q ≠ sn) →
  release_sn sn (a ++ s ++ b) = a ++ (release_pdu <$> s) ++ b.
Proof.
  intros Ha Hs Hb. unfold release_sn. rewrite !fmap_app.
  assert (∀ l : list nr_rlc_pdu_t, (∀ q, q ∈ l → p_sn q ≠ sn) →
    (λ p, if p_sn p =? sn then release_pdu p else p) <$> l = l) as Hid.
  { induction l as [|q l IH]; intros Hl; [done|]. rewrite fmap_cons, IH by set_solver.
    rewrite (proj2 (Z.eqb_neq _ _)); [done|]. apply Hl. set_solver. }
  rewrite (Hid a), (Hid b) by done. do 2 f_equal. apply list_fmap_ext.
  intros i q Hq. apply list_elem_of_lookup_2 in Hq. by rewrite Hs, Z.eqb_refl.
Qed.

(** What reception leaves unchanged: the transmitting side. *)
Definition tx_view (e : nr_rlc_entity_um_t) :=
  (heap e, tx_list e, tx_end e, tx_size e, tx_maxsize e, tx_next e,
   (sn_field_length e, sn_modulus e, window_size e, rx_maxsize e, common_view (common e))).

(** ** The reassembly window *)

(** The configuration of an entity and the ranges of its state variables. *)
Record um_cfg (e : nr_rlc_entity_um_t) : Prop := {
  uc_len : sn_field_length e = 6 ∨ sn_field_length e = 12;
  uc_mod : sn_modulus e = 2 ^ sn_field_length e;
  uc_win : sn_modulus e = 2 * window_size e;
  uc_rnh : 0 <= rx_next_highest e < sn_modulus e;
  uc_rnr : 0 <= rx_next_reassembly e < sn_modulus e;
  uc_rtt : 0 <= rx_timer_trigger e < sn_modulus e;
}.

Lemma um_cfg_bounds e : um_cfg e → 32 <= window_size e <= 2048 ∧ sn_modulus e = 2 * window_size e.
Proof.
  intros [Hl Hm Hw _ _ _]. split; [|done]. destruct Hl as [E|E]; rewrite E in Hm; cbn in Hm; lia.
Qed.

(** The position of an SN in the window. *)
Lemma modulus_rx_mod e a :
  um_cfg e → 0 <= a < sn_modulus e →
  modulus_rx e a = (a - rx_next_highest e + window_size e) mod sn_modulus e.
Proof.
  intros C Ha. destruct (um_cfg_bounds e C). pose proof (uc_rnh _ C). unfold modulus_rx.
  replace (a - (rx_next_highest e - window_size e))
    with (a - rx_next_highest e + window_size e) by lia.
  destr_bool; rewrite cmod_nonneg by lia; [|done].
  rewrite <- (Z_mod_plus_full (a - _ + _) 1). f_equal. lia.
Qed.

Lemma modulus_rx_range e a :
  um_cfg e → 0 <= a < sn_modulus e → 0 <= modulus_rx e a < sn_modulus e.
Proof.
  intros C Ha. rewrite modulus_rx_mod by done. destruct (um_cfg_bounds e C).
  apply Z.mod_pos_bound. lia.
Qed.

(** An SN is determined by its position. *)
Lemma modulus_rx_inv e a :
  um_cfg e → 0 <= a < sn_modulus e →
  a = (rx_next_highest e - window_size e + modulus_rx e a) mod sn_modulus e.
Proof.
  intros C Ha. rewrite modulus_rx_mod by done. destruct (um_cfg_bounds e C).
  rewrite Zplus_mod_idemp_r. replace (_ - _ + (_ - _ + _)) with a by lia. by rewrite Z.mod_small.
Qed.

Lemma modulus_rx_inj e a b :
  um_cfg e → 0 <= a < sn_modulus e → 0 <= b < sn_modulus e →
  modulus_rx e a = modulus_rx e b → a = b.
Proof.
  intros C Ha Hb E. rewrite (modulus_rx_inv e a), (modulus_rx_inv e b) by done. by rewrite E.
Qed.

Lemma modulus_rx_highest e : um_cfg e → modulus_rx e (rx_next_highest e) = window_size e.
Proof.
  intros C. destruct (um_cfg_bounds e C). rewrite modulus_rx_mod by (done || apply C).
  rewrite Z.mod_small; lia.
Qed.

(** Positions of SNs further on. *)
Lemma modulus_rx_add e a k :
  um_cfg e → 0 <= a < sn_modulus e → 0 <= k → modulus_rx e a + k < sn_modulus e →
  modulus_rx e ((a + k) mod sn_modulus e) = modulus_rx e a + k.
Proof.
  intros C Ha Hk Hlt. destruct (um_cfg_bounds e C).
  pose proof (modulus_rx_range e a C Ha).
  rewrite modulus_rx_mod; [|done|apply Z.mod_pos_bound; lia].
  rewrite modulus_rx_mod in * by done.
  replace ((a + k) mod sn_modulus e - rx_next_highest e + window_size e)
    with ((a + k) mod sn_modulus e + (window_size e - rx_next_highest e)) by lia.
  rewrite Zplus_mod_idemp_l.
  replace (a + k + (window_size e - rx_next_highest e))
    with ((a - rx_next_highest e + window_size e) + k) by lia.
  rewrite <- Zplus_mod_idemp_l. apply Z.mod_small. lia.
Qed.

(** Moving the upper edge of the window by [k]: positions decrease by [k], those
    that fall out of it wrap around. *)
Lemma modulus_rx_move e v k a :
  um_cfg e → 0 <= a < sn_modulus e → 0 <= k <= window_size e →
  v = (rx_next_highest e + k) mod sn_modulus e →
  modulus_rx (e <| rx_next_highest := v |>) a =
    if modulus_rx e a <? k then modulus_rx e a - k + sn_modulus e else modulus_rx e a - k.
Proof.
  intros C Ha Hk Hv. destruct (um_cfg_bounds e C).
  assert (um_cfg (e <| rx_next_highest := v |>)) as C'.
  { destruct C. split; cbn; try done. subst v. apply Z.mod_pos_bound. lia. }
  pose proof (modulus_rx_range e a C Ha).
  rewrite (modulus_rx_mod _ _ C') by done. cbn.
  replace ((a - v + window_size e) mod sn_modulus e)
    with ((modulus_rx e a - k) mod sn_modulus e).
  - destruct (Z.ltb_spec (modulus_rx e a) k).
    + rewrite <- (Z_mod_plus_full _ 1). rewrite Z.mod_small by lia. lia.
    + apply Z.mod_small. lia.
  - rewrite modulus_rx_mod by done. subst v.
    replace (a - (rx_next_highest e + k) mod sn_modulus e + window_size e)
      with (a + window_size e - (rx_next_highest e + k) mod sn_modulus e) by lia.
    rewrite Zminus_mod_idemp_l, Zminus_mod_idemp_r. f_equal. lia.
Qed.

(** The position depends on the window only. *)
Lemma modulus_rx_ext e e' a :
  rx_next_highest e' = rx_next_highest e → window_size e' = window_size e →
  sn_modulus e' = sn_modulus e → modulus_rx e' a = modulus_rx e a.
Proof. intros H1 H2 H3. unfold modulus_rx. by rewrite H1, H2, H3. Qed.

(** ** The reception list

    [rx_core Q pos M B l]: the SNs of [l] are in the window, at positions below
    [B]; [l] is sorted; every PDU either was released at the delivery of its SDU
    or has its bytes and satisfies [Q]; if a PDU was released then so was the
    first one of its SN, which starts at offset 0. *)
Record rx_core (Q : nr_rlc_pdu_t → Prop) (pos : Z → Z) (M B : Z) (l : list nr_rlc_pdu_t) : Prop := {
  rc_in : ∀ p, p ∈ l → 0 <= p_sn p < M ∧ 0 <= pos (p_sn p) < B;
  rc_sorted : StronglySorted (pdu_le pos) l;
  rc_seg : ∀ p, p ∈ l → 0 <= p_so p ∧ (p_data p = None ∧ p_size p = 0 ∨ stored p ∧ Q p);
  rc_head : ∀ p, p ∈ l → p_data p = None →
    ∃ q k, of_sn (p_sn p) l = q :: k ∧ p_data q = None ∧ p_so q = 0;
}.

Lemma rx_core_nil Q pos M B : rx_core Q pos M B [].
Proof. split; try set_solver. constructor. Qed.

Lemma rx_core_weaken Q pos M B B' l : rx_core Q pos M B l → B <= B' → rx_core Q pos M B' l.
Proof.
  intros [H1 H2 H3 H4] HB. split; try done. intros p Hp. destruct (H1 p Hp). lia.
Qed.

Lemma of_sn_elem sn (l : list nr_rlc_pdu_t) q : q ∈ of_sn sn l → p_sn q = sn ∧ q ∈ l.
Proof. by intros H%list_elem_of_filter. Qed.

Lemma of_sn_list_add pos cmp l p q k sn :
  (∀ a b, cmp a b = pos a - pos b) → StronglySorted (pdu_le pos) l →
  of_sn sn l = q :: k → p_so q = 0 → 0 <= p_so p →
  ∃ k', of_sn sn (nr_rlc_pdu_list_add cmp l p) = q :: k'.
Proof.
  intros Hcmp Hs Hq Hso Hp. destruct (of_sn_elem sn l q) as [Hqs Hql]; [rewrite Hq; set_solver|].
  induction l as [|c l IH]; [done|]. cbn [nr_rlc_pdu_list_add].
  apply StronglySorted_inv in Hs as [Hs Hall]. rewrite Forall_forall in Hall.
  rewrite filter_cons in Hq. destruct (decide (p_sn c = sn)) as [E|E].
  - injection Hq as -> Hk. destruct (_ || _) eqn:Eb.
    + rewrite filter_cons. destruct (decide (p_sn p = sn)) as [Ep|Ep].
      * exfalso. rewrite Hcmp, E, Ep, Z.sub_diag, Z.eqb_refl in Eb.
        cbn in Eb. apply Z.ltb_lt in Eb. lia.
      * rewrite filter_cons, decide_True by done. eauto.
    + rewrite filter_cons, decide_True by done. eauto.
  - assert (q ∈ l) as Hq' by (apply elem_of_cons in Hql as [->|]; done).
    destruct (_ || _) eqn:Eb.
    + rewrite filter_cons. destruct (decide (p_sn p = sn)) as [Ep|Ep].
      * exfalso. rewrite Hcmp, Ep, (proj2 (Z.eqb_neq _ _)), orb_false_r in Eb by congruence.
        apply Z.ltb_lt in Eb. destruct (Hall q Hq') as [?|[? _]]; [|congruence].
        rewrite Hqs in *. lia.
      * rewrite filter_cons, decide_False by done. eauto.
    + rewrite filter_cons, decide_False by done. by apply IH.
Qed.

(** Insertion of a received segment. *)
Lemma rx_core_add Q pos cmp M B l p :
  (∀ a b, cmp a b = pos a - pos b) →
  (∀ a b, 0 <= a < M → 0 <= b < M → pos a = pos b → a = b) →
  rx_core Q pos M B l → 0 <= p_sn p < M → 0 <= pos (p_sn p) < B → stored p → Q p →
  rx_core Q pos M B (nr_rlc_pdu_list_add cmp l p).
Proof.
  intros Hcmp Hinj [Hin Hs Hseg Hhead] Hsn Hpos Hst HQ. split.
  - intros q. rewrite pdu_list_add_perm. intros [->|Hq]%elem_of_cons; [done|]. by apply Hin.
  - apply pdu_list_add_sorted; try done. intros c Hc. apply Hinj; [by apply Hin|done].
  - intros q. rewrite pdu_list_add_perm. intros [->|Hq]%elem_of_cons; [|by apply Hseg].
    split; [apply Hst|by right].
  - intros q. rewrite pdu_list_add_perm. intros [->|Hq]%elem_of_cons Hd.
    { destruct Hst as (_ & _ & x & Hx & _). congruence. }
    destruct (Hhead q Hq Hd) as (r & k & Hr & Hrd & Hr0).
    destruct (of_sn_list_add pos cmp l p r k (p_sn q)) as [k' Hk']; try done; [apply Hst|].
    eauto.
Qed.

(** Removal of the PDUs at the head, up to a position. *)
Lemma rx_core_suffix Q pos M B k pre suf :
  rx_core Q pos M B (pre ++ suf) → (∀ p, p ∈ pre → pos (p_sn p) < k) →
  (∀ p, p ∈ suf → k <= pos (p_sn p)) → rx_core Q pos M B suf.
Proof.
  intros [Hin Hs Hseg Hhead] Hpre Hsuf. split.
  - intros p Hp. apply Hin. set_solver.
  - clear -Hs. induction pre as [|x pre IH]; [done|]. apply StronglySorted_inv in Hs as [? _]. auto.
  - intros p Hp. apply Hseg. set_solver.
  - intros p Hp Hd. destruct (Hhead p ltac:(set_solver) Hd) as (q & l & Hq & ?).
    rewrite filter_app, (of_sn_none _ pre) in Hq; [eauto|].
    intros x Hx E. specialize (Hpre x Hx). specialize (Hsuf p Hp). rewrite E in Hpre. lia.
Qed.

(** Change of the positions that keeps the order. *)
Lemma rx_core_shift Q pos pos' M B B' k l :
  rx_core Q pos M B l → (∀ p, p ∈ l → pos' (p_sn p) = pos (p_sn p) - k ∧ 0 <= pos' (p_sn p) < B') →
  rx_core Q pos' M B' l.
Proof.
  intros [Hin Hs Hseg Hhead] Hpos. split; try done.
  - intros p Hp. destruct (Hin p Hp), (Hpos p Hp). done.
  - clear -Hs Hpos. induction Hs as [|x l Hs IH Hall]; constructor.
    + apply IH. intros; apply Hpos; set_solver.
    + rewrite Forall_forall in Hall |- *. intros q Hq. destruct (Hall q Hq) as [?|?]; [left|by right].
      destruct (Hpos x), (Hpos q); [set_solver..|]. lia.
Qed.

Lemma of_sn_release sn sn' l :
  of_sn sn' (release_sn sn l)
  = if decide (sn' = sn) then release_pdu <$> of_sn sn l else of_sn sn' l.
Proof.
  induction l as [|p l IH]; [by case_decide|]. unfold release_sn in *. rewrite fmap_cons, !filter_cons.
  destruct (Z.eqb_spec (p_sn p) sn) as [E|E]; cbn [p_sn release_pdu set_field set_p_size set_p_data];
    rewrite IH; repeat case_decide; try congruence; done.
Qed.

(** Release of all the segments of an SN whose first one starts at offset 0. *)
Lemma rx_core_release Q pos M B l sn q k :
  rx_core Q pos M B l → of_sn sn l = q :: k → p_so q = 0 →
  rx_core Q pos M B (release_sn sn l).
Proof.
  intros [Hin Hs Hseg Hhead] Hq Hso.
  assert (∀ p, p ∈ release_sn sn l → ∃ p0, p0 ∈ l ∧ p_sn p = p_sn p0 ∧ p_so p = p_so p0 ∧
    (p_sn p0 = sn ∧ p = release_pdu p0 ∨ p_sn p0 ≠ sn ∧ p = p0)) as Hel.
  { intros p Hp. apply list_elem_of_fmap in Hp as (p0 & -> & Hp0). exists p0.
    destruct (Z.eqb_spec (p_sn p0) sn); split_and!; auto. }
  split.
  - intros p Hp. destruct (Hel p Hp) as (p0 & Hp0 & -> & _). by apply Hin.
  - clear -Hs. unfold release_sn. induction Hs as [|x l Hs IH Hall]; [constructor|].
    rewrite fmap_cons. constructor; [done|]. rewrite Forall_forall in Hall |- *.
    intros y Hy. apply list_elem_of_fmap in Hy as (z & -> & Hz). specialize (Hall z Hz).
    unfold pdu_le in *. by destruct (p_sn x =? sn), (p_sn z =? sn).
  - intros p Hp. destruct (Hel p Hp) as (p0 & Hp0 & _ & -> & [[_ ->]|[_ ->]]).
    + split; [by apply Hseg|by left].
    + by apply Hseg.
  - intros p Hp Hd. destruct (Hel p Hp) as (p0 & Hp0 & -> & _ & Hcase). rewrite of_sn_release.
    case_decide as E.
    + rewrite Hq. cbn. eauto.
    + destruct Hcase as [[? _]|[_ ->]]; [done|]. by apply Hhead.
Qed.

(** ** The invariant of the receiving side *)

Record um_rx_wf (Q : nr_rlc_pdu_t → Prop) (e : nr_rlc_entity_um_t) : Prop := {
  ux_cfg : um_cfg e;
  ux_core : rx_core Q (modulus_rx e) (sn_modulus e) (window_size e) (rx_list e);
  ux_rnr : modulus_rx e (rx_next_reassembly e) <= window_size e;
  ux_timer : t_reassembly_start e ≠ 0 →
    modulus_rx e (rx_next_reassembly e) < modulus_rx e (rx_timer_trigger e) <= window_size e;
}.

(** An SN at position [window_size] or more has no PDU, so it is not delivered:
    the loops over delivered SNs end. *)
Lemma skip_delivered_window Q e sn :
  um_cfg e → rx_core Q (modulus_rx e) (sn_modulus e) (window_size e) (rx_list e) →
  0 <= sn < sn_modulus e → modulus_rx e sn <= window_size e →
  ∃ v, skip_delivered (Z.to_nat (sn_modulus e)) (sdu_delivered e) (sn_modulus e) sn = Ok v ∧
       0 <= v < sn_modulus e ∧ modulus_rx e sn <= modulus_rx e v <= window_size e ∧
       sdu_delivered e v = false.
Proof.
  intros C Hc Hsn Hpos. destruct (um_cfg_bounds e C).
  pose proof (modulus_rx_range e sn C Hsn) as Hr.
  destruct (skip_delivered_ok (sdu_delivered e) (sn_modulus e) (Z.to_nat (sn_modulus e))
              (Z.to_nat (window_size e - modulus_rx e sn)) sn)
    as (j & Hj & Hs & Hd & _); [lia|done|lia| |].
  { rewrite (sdu_delivered_sorted (modulus_rx e)) by apply Hc.
    rewrite of_sn_none; [done|]. intros p Hp E. destruct (rc_in _ _ _ _ _ Hc p Hp) as [_ Hpp].
    rewrite E, modulus_rx_add in Hpp by (done || lia). lia. }
  exists ((sn + Z.of_nat j) mod sn_modulus e). rewrite modulus_rx_add by (done || lia).
  split_and!; [done|apply Z.mod_pos_bound; lia..|lia|lia|done].
Qed.

(** Delivery of a full SDU. *)
Lemma reassemble_and_deliver_ok Q B e sn :
  rx_core Q (modulus_rx e) (sn_modulus e) B (rx_list e) → sdu_full e sn = true →
  ∃ r c, Forall (λ p, stored p ∧ Q p) (of_sn sn (rx_list e)) ∧
    sdu_full_from (-1) (of_sn sn (rx_list e)) = true ∧
    reassemble_all (mk_reas [] false) (of_sn sn (rx_list e)) = Ok r ∧
    reassemble_and_deliver e sn
      = Ok (e <| rx_list := release_sn sn (rx_list e) |>
              <| rx_size := rx_size e - sumZ p_size (of_sn sn (rx_list e)) |>
              <| common := c |>) ∧
    rx_core Q (modulus_rx e) (sn_modulus e) B (release_sn sn (rx_list e)) ∧
    events c = events (common e) ++ (if ra_bad r then [] else [deliver_sdu (ra_sdu r)]) ∧
    common_view c = common_view (common e).
Proof.
  intros Hc Hf. unfold sdu_full in Hf.
  pose proof (rc_sorted _ _ _ _ _ Hc) as Hs. rewrite (segments_of_sorted _ _ _ Hs) in Hf.
  destruct (delivered (of_sn sn (rx_list e))) eqn:Hd; [done|].
  destruct (of_sn sn (rx_list e)) as [|q k] eqn:Eq; [done|].
  assert (Forall (λ p, stored p ∧ Q p) (q :: k)) as Hst.
  { rewrite Forall_forall, <- Eq. intros p Hp. apply of_sn_elem in Hp as [Hps Hp].
    destruct (rc_seg _ _ _ _ _ Hc p Hp) as [_ [[Hn _]|?]]; [|done].
    destruct (rc_head _ _ _ _ _ Hc p Hp Hn) as (q' & k' & Hq' & Hq'n & _).
    rewrite Hps, Eq in Hq'. injection Hq' as <- _. cbn in Hd. by rewrite Hq'n in Hd. }
  destruct (reassemble_all_ok (mk_reas [] false) (q :: k)) as (r & Hr & _).
  { eapply Forall_impl; [exact Hst|]. by intros p [? _]. }
  { done. }
  destruct (from_sn_sorted _ _ sn Hs) as (b & Hfrom & Hb & Hsp & _ & Hl & Hbef).
  unfold reassemble_and_deliver. rewrite Hfrom, Eq. cbn [app].
  rewrite Hfrom, Eq, decide_False in Hsp by done. cbn [app] in Hsp. rewrite Hsp, Hr.
  cbn [mbind outcome_bind].
  assert (release_sn sn (rx_list e) = before_sn sn (rx_list e) ++ (release_pdu <$> q :: k) ++ b) as Hrel.
  { rewrite Hl at 1. rewrite Eq. apply release_split; [done| |done].
    rewrite <- Eq. by intros p [? _]%of_sn_elem. }
  assert (p_so q = 0) as Hso.
  { apply Forall_cons in Hst as [[(? & _) _] _]. cbn [sdu_full_from] in Hf.
    destruct (Z.ltb_spec (-1 + 1) (p_so q)); [done|lia]. }
  pose proof (rx_core_release _ _ _ _ _ _ _ _ Hc Eq Hso) as Hc'.
  destruct (ra_bad r) eqn:Hbad.
  - exists r, (common e). rewrite Hbad, Hrel, app_nil_r in *. split_and!; try done.
  - exists r. eexists. rewrite Hbad, Hrel in *. split_and!; try done.
Qed.

(** The loops that drop PDUs from the head of the list. *)
Lemma discard_out_of_window_ok l e :
  ∃ pre suf c, l = pre ++ suf ∧
    discard_out_of_window l e
    = e <| rx_list := suf |> <| rx_size := rx_size e - sumZ p_size pre |> <| common := c |> ∧
    events c = events (common e) ∧ common_view c = common_view (common e) ∧
    (∀ p, p ∈ pre → modulus_rx e (rx_next_highest e) <= modulus_rx e (p_sn p)) ∧
    (∀ p k, suf = p :: k → modulus_rx e (p_sn p) < modulus_rx e (rx_next_highest e)).
Proof.
  revert e. induction l as [|p l IH]; intros e; cbn [discard_out_of_window].
  { exists [], [], (common e). rewrite sumZ_nil, Z.sub_0_r. destruct e. split_and!; try done; set_solver. }
  unfold sn_compare_rx at 1.
  destruct (Z.leb_spec 0 (modulus_rx e (p_sn p) - modulus_rx e (rx_next_highest e))) as [Hle|Hgt].
  - match goal with |- context [discard_out_of_window l ?x] =>
      destruct (IH x) as (pre & suf & c & -> & -> & Hev & Hbs & Hpre & Hsuf) end.
    exists (p :: pre), suf, c. cbn in *. rewrite sumZ_cons, Z.sub_add_distr. split_and!; try done.
    intros q [->|Hq]%elem_of_cons; [unfold modulus_rx in *; cbn in *; lia|]. by apply Hpre.
  - exists [], (p :: l), (common e). rewrite sumZ_nil, Z.sub_0_r. destruct e. cbn in *.
    split_and!; try done; [set_solver|]. intros ? ? [= <- <-]. unfold modulus_rx in *. cbn in *. lia.
Qed.

Lemma discard_before_ok l e :
  ∃ pre suf c, l = pre ++ suf ∧
    discard_before l e = e <| rx_list := suf |> <| common := c |> ∧
    events c = events (common e) ∧ common_view c = common_view (common e) ∧
    (∀ p, p ∈ pre → modulus_rx e (p_sn p) < modulus_rx e (rx_next_reassembly e)) ∧
    (∀ p k, suf = p :: k → modulus_rx e (rx_next_reassembly e) <= modulus_rx e (p_sn p)).
Proof.
  revert e. induction l as [|p l IH]; intros e; cbn [discard_before].
  { exists [], [], (common e). destruct e. split_and!; try done; set_solver. }
  unfold sn_compare_rx at 1.
  destruct (Z.ltb_spec (modulus_rx e (p_sn p) - modulus_rx e (rx_next_reassembly e)) 0) as [Hlt|Hge].
  - match goal with |- context [discard_before l ?x] =>
      destruct (IH x) as (pre & suf & c & -> & -> & Hev & Hbs & Hpre & Hsuf) end.
    exists (p :: pre), suf, c. cbn in *. split_and!; try done.
    intros q [->|Hq]%elem_of_cons; [unfold modulus_rx in *; cbn in *; lia|]. by apply Hpre.
  - exists [], (p :: l), (common e). destruct e. cbn in *.
    split_and!; try done; [set_solver|]. intros ? ? [= <- <-]. unfold modulus_rx in *. cbn in *. lia.
Qed.

Lemma sorted_from_head pos p l q :
  StronglySorted (pdu_le pos) (p :: l) → q ∈ p :: l → pos (p_sn p) <= pos (p_sn q).
Proof.
  intros [_ Hall]%StronglySorted_inv [->|Hq]%elem_of_cons; [lia|].
  rewrite Forall_forall in Hall. destruct (Hall q Hq) as [?|[E _]]; [lia|rewrite E; lia].
Qed.

Lemma sorted_app_r pos l k :
  StronglySorted (pdu_le pos) (l ++ k) → StronglySorted (pdu_le pos) k.
Proof. induction l as [|x l IH]; [done|]. intros [? _]%StronglySorted_inv. auto. Qed.

(** ** Reception *)

(** The state between the two parts of [reception_actions]. *)
Definition um_rx_mid (Q : nr_rlc_pdu_t → Prop) (e : nr_rlc_entity_um_t) : Prop :=
  um_cfg e ∧ rx_core Q (modulus_rx e) (sn_modulus e) (window_size e) (rx_list e) ∧
  modulus_rx e (rx_next_reassembly e) <= window_size e.

Lemma reception_update_full Q e sn :
  um_rx_mid Q e → sdu_full e sn = true →
  returns (reception_update e sn) (λ e',
    um_rx_mid Q e' ∧ tx_view e' = tx_view e ∧
    rx_list e' = release_sn sn (rx_list e) ∧
    rx_size e' = rx_size e - sumZ p_size (of_sn sn (rx_list e)) ∧
    rx_next_highest e' = rx_next_highest e ∧
    (sn = rx_next_reassembly e → sdu_delivered e' (rx_next_reassembly e') = false ∧
       modulus_rx e sn <= modulus_rx e (rx_next_reassembly e')) ∧
    ∃ r, reassemble_all (mk_reas [] false) (of_sn sn (rx_list e)) = Ok r ∧
      let evs := if ra_bad r then [] else [deliver_sdu (ra_sdu r)] in
      events (common e') = events (common e) ++ evs ∧ delivery Q sn evs).
Proof.
  intros (C & Hc & Hr) Hf. unfold reception_update. rewrite Hf.
  destruct (reassemble_and_deliver_ok _ _ _ _ Hc Hf)
    as (r & c & Hst & Hfull & Hreas & -> & Hc' & Hev & Hcv).
  cbn [mbind outcome_bind].
  set (e1 := e <| rx_list := _ |> <| rx_size := _ |> <| common := c |>).
  assert (um_cfg e1) as C1 by (destruct C; by split).
  assert (delivery Q sn (if ra_bad r then [] else [deliver_sdu (ra_sdu r)])) as Hdel.
  { destruct r as [d []]; [by left|]. right. exists (of_sn sn (rx_list e)), d. split_and!; try done.
    rewrite Forall_forall in Hst |- *. intros p Hp. destruct (Hst p Hp).
    by apply of_sn_elem in Hp as [? _]. }
  assert (tx_view e1 = tx_view e) as Htx by (unfold tx_view; cbn; by rewrite Hcv).
  destruct (Z.eqb_spec sn (rx_next_reassembly e1)) as [Hsn|Hsn].
  - destruct (skip_delivered_window Q e1 (rx_next_reassembly e1)) as (v & Hs & Hv & Hvp & Hvd);
      [done|done|apply C1|done|].
    change (sn_modulus e) with (sn_modulus e1). rewrite Hs.
    apply returns_ok. split_and!; try done.
    + split_and!; cbn; [|done|apply Hvp]. destruct C1; by split.
    + intros _. split; [exact Hvd|]. rewrite Hsn. apply Hvp.
    + exists r. by split_and!.
  - apply returns_ok. split_and!; try done. exists r. by split_and!.
Qed.

(** A segment beyond the upper edge moves the window so that it becomes the
    last SN of it; what falls out at the other end is dropped. *)
Lemma discard_moved Q e k v :
  um_cfg e → rx_core Q (modulus_rx e) (sn_modulus e) (sn_modulus e) (rx_list e) →
  1 <= k <= window_size e → v = (rx_next_highest e + k) mod sn_modulus e →
  (∀ q, q ∈ rx_list e → modulus_rx e (p_sn q) < window_size e + k) →
  let e2 := e <| rx_next_highest := v |> in
  ∃ pre l c, discard_out_of_window (rx_list e2) e2
           = e2 <| rx_list := l |> <| rx_size := rx_size e2 - sumZ p_size pre |> <| common := c |> ∧
    rx_list e = pre ++ l ∧ (∀ p, p ∈ pre → modulus_rx e (p_sn p) < k) ∧
    um_cfg e2 ∧ rx_core Q (modulus_rx e2) (sn_modulus e2) (window_size e2) l ∧
    events c = events (common e) ∧ common_view c = common_view (common e).
Proof.
  intros C Hc Hk Hv Hmax e2. destruct (um_cfg_bounds e C).
  assert (um_cfg e2) as C2.
  { destruct C. split; cbn; try done. subst v. apply Z.mod_pos_bound. lia. }
  destruct (discard_out_of_window_ok (rx_list e2) e2)
    as (pre & suf & c & Hl & E & Hev & Hcv & Hpre & Hsuf).
  rewrite modulus_rx_highest in Hpre, Hsuf by done.
  change (rx_list e2) with (rx_list e) in Hl. rewrite Hl in Hc, Hmax.
  assert (∀ q, q ∈ pre ++ suf → 0 <= modulus_rx e (p_sn q) ∧ modulus_rx e2 (p_sn q) =
    if modulus_rx e (p_sn q) <? k then modulus_rx e (p_sn q) - k + sn_modulus e
    else modulus_rx e (p_sn q) - k) as Hmove.
  { intros q Hq. destruct (rc_in _ _ _ _ _ Hc q Hq). split; [lia|].
    apply modulus_rx_move; (done || lia). }
  change (window_size e2) with (window_size e) in *.
  assert (∀ p, p ∈ pre → modulus_rx e (p_sn p) < k) as Hpre'.
  { intros p Hp. specialize (Hpre p Hp). specialize (Hmax p ltac:(set_solver)).
    destruct (Hmove p ltac:(set_solver)) as [_ E']. destr_bool; lia. }
  assert (∀ p, p ∈ suf → k <= modulus_rx e (p_sn p)) as Hsuf'.
  { destruct suf as [|p0 suf]; [set_solver|]. specialize (Hsuf p0 suf eq_refl).
    destruct (Hmove p0 ltac:(set_solver)) as [Hp0 E']. intros p Hp.
    pose proof (sorted_from_head _ _ _ _ (sorted_app_r _ _ _ (rc_sorted _ _ _ _ _ Hc)) Hp).
    destr_bool; lia. }
  exists pre, suf, c. split_and!; try done.
  eapply (rx_core_shift _ (modulus_rx e) _ _ _ _ k).
  { apply (rx_core_suffix _ _ _ _ k pre suf Hc Hpre' Hsuf'). }
  intros p Hp. specialize (Hsuf' p Hp). specialize (Hmax p ltac:(set_solver)).
  destruct (Hmove p ltac:(set_solver)) as [_ ->]. destr_bool; lia.
Qed.

Lemma reception_update_beyond Q e sn :
  um_cfg e → rx_core Q (modulus_rx e) (sn_modulus e) (sn_modulus e) (rx_list e) →
  0 <= sn < sn_modulus e → window_size e <= modulus_rx e sn →
  (∀ q, q ∈ rx_list e → modulus_rx e (p_sn q) <= modulus_rx e sn) →
  modulus_rx e (rx_next_reassembly e) <= window_size e → sdu_full e sn = false →
  returns (reception_update e sn) (λ e',
    um_rx_mid Q e' ∧ tx_view e' = tx_view e ∧ events (common e') = events (common e) ∧
    rx_next_highest e' = cmod (sn + 1) (sn_modulus e) ∧
    (modulus_rx e sn < modulus_rx e (rx_next_reassembly e) + window_size e →
     rx_next_reassembly e' = rx_next_reassembly e) ∧
    ∃ pre, rx_list e = pre ++ rx_list e' ∧ rx_size e' = rx_size e - sumZ p_size pre ∧
      ∀ p, p ∈ pre → modulus_rx e (p_sn p) < modulus_rx e sn).
Proof.
  intros C Hc Hsn Hge Hmax Hr Hf. destruct (um_cfg_bounds e C).
  pose proof (modulus_rx_range e sn C Hsn). unfold reception_update. rewrite Hf.
  unfold sn_compare_rx at 1. rewrite modulus_rx_highest by done.
  destruct (Z.leb_spec 0 (modulus_rx e sn - window_size e)); [|lia].
  set (k := modulus_rx e sn - window_size e + 1).
  assert (cmod (sn + 1) (sn_modulus e) = (rx_next_highest e + k) mod sn_modulus e) as Hv.
  { rewrite cmod_nonneg by lia. rewrite (modulus_rx_inv e sn C Hsn) at 1.
    rewrite Zplus_mod_idemp_l. f_equal. unfold k. lia. }
  destruct (discard_moved Q e k (cmod (sn + 1) (sn_modulus e)) C Hc) as
    (pre & l & c & -> & Hl & Hpre & C2 & Hc2 & Hev & Hcv); [unfold k; lia|done| |].
  { intros q Hq. specialize (Hmax q Hq). unfold k. lia. }
  set (e2 := e <| rx_next_highest := _ |>) in *.
  set (e3 := e2 <| rx_list := l |> <| rx_size := _ |> <| common := c |>).
  assert (∀ p, p ∈ pre → modulus_rx e (p_sn p) < modulus_rx e sn) as Hpre'.
  { intros p Hp. specialize (Hpre p Hp). unfold k in Hpre. lia. }
  assert (um_cfg e3) as C3 by (destruct C2; by split).
  assert (tx_view e3 = tx_view e) as Htx by (unfold tx_view; cbn; by rewrite Hcv).
  assert (modulus_rx e3 (rx_next_highest e3) = window_size e3) as Hh by (by apply modulus_rx_highest).
  unfold sn_compare_rx. rewrite Hh. change (window_size e3) with (window_size e).
  destruct (Z.leb_spec 0 (modulus_rx e3 (rx_next_reassembly e3) - window_size e)) as [Hout|Hin].
  - pose proof (uc_rnh _ C3) as Hrnh. change (sn_modulus e3) with (sn_modulus e) in Hrnh.
    set (w := cmod _ _).
    assert (w = (rx_next_highest e3 - window_size e) mod sn_modulus e) as Hw.
    { unfold w. change (sn_modulus e3) with (sn_modulus e). rewrite cmod_nonneg by lia.
      rewrite <- (Z_mod_plus_full (rx_next_highest e3 - _) 1). f_equal. lia. }
    assert (0 <= w < sn_modulus e) as Hwr by (rewrite Hw; apply Z.mod_pos_bound; lia).
    assert (modulus_rx e3 w = 0) as Hw0.
    { rewrite modulus_rx_mod by done. change (sn_modulus e3) with (sn_modulus e).
      change (window_size e3) with (window_size e). rewrite Hw.
      replace (_ mod _ - rx_next_highest e3 + window_size e) with
        ((rx_next_highest e3 - window_size e) mod sn_modulus e
         + (window_size e - rx_next_highest e3)) by lia.
      rewrite Zplus_mod_idemp_l. replace (_ + _) with 0 by lia. apply Z.mod_0_l. lia. }
    destruct (skip_delivered_window Q e3 w) as (v & Hs & Hvr & Hvp & _); [done..| |].
    { rewrite Hw0. change (window_size e3) with (window_size e). lia. }
    change (sn_modulus e) with (sn_modulus e3). rewrite Hs. apply returns_ok.
    split_and!; try done; [| |by exists pre].
    + split_and!; cbn; [|done|apply Hvp]. destruct C3; by split.
    + intros Hlt. exfalso. pose proof (modulus_rx_move e (cmod (sn + 1) (sn_modulus e)) k
        (rx_next_reassembly e) C (uc_rnr _ C) ltac:(unfold k; lia) Hv) as Hmv. fold e2 in Hmv.
      change (modulus_rx e3 (rx_next_reassembly e3)) with (modulus_rx e2 (rx_next_reassembly e)) in Hout.
      destruct (Z.ltb_spec (modulus_rx e (rx_next_reassembly e)) k); unfold k in *; lia.
  - apply returns_ok. split_and!; try done; [|by exists pre]. split_and!; try done.
    change (window_size e3) with (window_size e). lia.
Qed.

(** The position of the SN that follows [rx_next_reassembly]. *)
Lemma modulus_rx_next e a :
  um_cfg e → 0 <= a < sn_modulus e → modulus_rx e a <= window_size e →
  modulus_rx e (cmod (a + 1) (sn_modulus e)) = modulus_rx e a + 1.
Proof.
  intros C Ha Hr. destruct (um_cfg_bounds e C). rewrite cmod_nonneg by lia.
  apply modulus_rx_add; (done || lia).
Qed.

(** t-Reassembly runs only while it guards an SN of the window. *)
Lemma reception_timer_ok Q e :
  um_rx_mid Q e →
  um_rx_wf Q (reception_timer e) ∧ tx_view (reception_timer e) = tx_view e ∧
  common (reception_timer e) = common e ∧ rx_list (reception_timer e) = rx_list e ∧
  rx_next_highest (reception_timer e) = rx_next_highest e ∧
  rx_next_reassembly (reception_timer e) = rx_next_reassembly e ∧
  rx_size (reception_timer e) = rx_size e ∧ t_current (reception_timer e) = t_current e.
Proof.
  intros (C & Hc & Hr). destruct (um_cfg_bounds e C) as [Hb _].
  pose proof (modulus_rx_highest e C) as Hh.
  pose proof (modulus_rx_next e _ C (uc_rnr _ C) Hr) as Hn.
  unfold reception_timer. set (next := cmod (rx_next_reassembly e + 1) (sn_modulus e)) in *.
  set (e1 := if negb (t_reassembly_start e =? 0) then _ else e).
  assert (e1 = e <| t_reassembly_start := t_reassembly_start e1 |> ∧
    (t_reassembly_start e1 ≠ 0 →
     modulus_rx e (rx_next_reassembly e) < modulus_rx e (rx_timer_trigger e) <= window_size e))
    as [He1 Ht1].
  { unfold e1. destruct (Z.eqb_spec (t_reassembly_start e) 0) as [E|E]; cbn [negb].
    { split; [by destruct e|]. intros; done. }
    destruct (_ || _ || _) eqn:Eb; [by split|]. split; [by destruct e|]. intros _.
    apply orb_false_iff in Eb as [Eb _]. apply orb_false_iff in Eb as [E1 E2].
    unfold sn_compare_rx in E1, E2. apply Z.leb_gt in E1. apply Z.ltb_ge in E2. lia. }
  clearbody e1. set (t := t_reassembly_start e1) in *. clearbody t. subst e1.
  cbn [t_reassembly_start set_field set_t_reassembly_start].
  assert (um_rx_wf Q (e <| t_reassembly_start := t |>)) as W1.
  { split; cbn; try done. destruct C; by split. }
  destruct (Z.eqb_spec t 0) as [->|Ht]; [|by split_and!].
  destruct (_ || _) eqn:Eb; [|by split_and!].
  split_and!; try done.
  assert (modulus_rx e (rx_next_reassembly e) < window_size e) as Hlt.
  { apply orb_true_iff in Eb as [Eb|Eb].
    - unfold sn_compare_rx in Eb. apply Z.ltb_lt in Eb. cbn in Eb. unfold modulus_rx in *. cbn in *. lia.
    - apply andb_true_iff in Eb as [Eb _]. apply Z.eqb_eq in Eb. cbn in Eb.
      rewrite <- Eb, Hh in Hn. lia. }
  split; try done.
  - destruct C; by split.
  - intros _. unfold modulus_rx in *. cbn in *. lia.
Qed.

(** Storing a received segment that passed the checks of [recv_pdu]. *)
Lemma reception_actions_ok Q e p :
  um_rx_wf Q e → 0 <= p_sn p < sn_modulus e → stored p → Q p →
  (p_is_last p = true → 0 < p_so p) →
  let e1 := e <| rx_list := nr_rlc_pdu_list_add (sn_compare_rx e) (rx_list e) p |> in
  returns (reception_actions e1 p) (λ e',
    um_rx_wf Q e' ∧ tx_view e' = tx_view e ∧
    ∃ evs, events (common e') = events (common e) ++ evs ∧ delivery Q (p_sn p) evs).
Proof.
  intros [C Hc Hr Ht] Hsn Hst HQ Hlast e1. destruct (um_cfg_bounds e C) as [Hb Hm].
  assert (um_cfg e1) as C1 by (destruct C; by split).
  pose proof (modulus_rx_range e (p_sn p) C Hsn) as Hpos.
  assert (∀ B, window_size e <= B → modulus_rx e (p_sn p) < B →
    rx_core Q (modulus_rx e1) (sn_modulus e1) B (rx_list e1)) as Hc1.
  { intros B HB HpB. apply (rx_core_add Q (modulus_rx e)); try done.
    - intros a b Ha Hb'. by apply modulus_rx_inj.
    - by apply (rx_core_weaken _ _ _ (window_size e)).
    - lia. }
  assert (returns (reception_update e1 (p_sn p)) (λ e',
    um_rx_mid Q e' ∧ tx_view e' = tx_view e1 ∧
    ∃ evs, events (common e') = events (common e1) ++ evs ∧ delivery Q (p_sn p) evs)) as Hu.
  { destruct (Z.lt_ge_cases (modulus_rx e (p_sn p)) (window_size e)) as [Hlt|Hge].
    - destruct (sdu_full e1 (p_sn p)) eqn:Hf.
      { eapply returns_mono; [apply (reception_update_full Q e1 (p_sn p)); [|done]|].
        { split_and!; try done. apply Hc1; [apply Z.le_refl|done]. }
        intros e' (? & ? & _ & _ & _ & _ & r & _ & ? & ?). split_and!; try done. eexists; by split. }
      unfold reception_update. rewrite Hf. unfold sn_compare_rx.
      rewrite modulus_rx_highest by done. change (window_size e1) with (window_size e).
      change (modulus_rx e1) with (modulus_rx e).
      destruct (Z.leb_spec 0 (modulus_rx e (p_sn p) - window_size e)); [lia|].
      apply returns_ok. split_and!; try done.
      + split_and!; try done. apply Hc1; [apply Z.le_refl|done].
      + exists []. rewrite app_nil_r. split; [done|by left].
    - eapply returns_mono; [apply (reception_update_beyond Q e1 (p_sn p)); try done|].
      + apply Hc1; change (sn_modulus e1) with (sn_modulus e); lia.
      + change (modulus_rx e1) with (modulus_rx e). intros q Hq.
        change (q ∈ nr_rlc_pdu_list_add (sn_compare_rx e) (rx_list e) p) in Hq.
        rewrite pdu_list_add_perm in Hq. apply elem_of_cons in Hq as [->|Hq]; [lia|].
        destruct (rc_in _ _ _ _ _ Hc q Hq) as [_ Hq']. unfold modulus_rx in *; cbn in *; lia.
      + unfold sdu_full. rewrite (segments_of_sorted (modulus_rx e)).
        2:{ apply (rc_sorted _ _ _ _ _ (Hc1 (sn_modulus e) ltac:(lia) ltac:(lia))). }
        assert (of_sn (p_sn p) (rx_list e1) = [p]) as ->.
        { unfold e1. cbn. apply (Permutation_singleton_r _ p).
          rewrite (filter_Permutation _ _ _ (pdu_list_add_perm _ _ _)), filter_cons, decide_True by done.
          rewrite of_sn_none; [done|]. intros q Hq E.
          destruct (rc_in _ _ _ _ _ Hc q Hq) as [_ Hq']. rewrite E in Hq'. lia. }
        destruct Hst as (? & _ & x & Hx & _). cbn. rewrite Hx.
        destruct (p_is_last p); [specialize (Hlast eq_refl)|]; destr_bool; try done; lia.
      + intros e' (Hmid & Htx & Hev & _). split_and!; try done. exists [].
        rewrite app_nil_r. split; [done|by left]. }
  unfold reception_actions. eapply returns_bind; [exact Hu|].
  intros e2 (Hmid & Htx & Hev). apply returns_ok.
  destruct (reception_timer_ok Q e2 Hmid) as (W' & Htx' & Hcom & _). rewrite Htx', Hcom. done.
Qed.

(** ** Reception of arbitrary bytes *)

(** The header of a segment: SI, reserved bits and SN, then SO. *)
Definition um_header_size (len : Z) (is_first : bool) : Z :=
  ((if len =? 12 then 4 else 2) + len) / 8 + (if is_first then 0 else 2).

Lemma um_header_size_pos len is_first :
  len = 6 ∨ len = 12 → 0 < um_header_size len is_first <= 4.
Proof. intros [-> | ->]; destruct is_first; vm_compute; intuition congruence. Qed.

(** The segment a PDU carries, read from its bits: SI, reserved bits, SN, SO. *)
Definition um_segment (len : Z) (buffer : bytes) (size : Z) : nr_rlc_pdu_t :=
  let si := bits_val (bits_at buffer 0 2) in
  let is_first := Z.land si 2 =? 0 in
  let is_last := Z.land si 1 =? 0 in
  let pos := if len =? 12 then 4 else 2 in
  let sn := bits_val (bits_at buffer pos len) in
  let so := if is_first then 0 else bits_val (bits_at buffer (pos + len) 16) in
  let header := um_header_size len is_first in
  mk_pdu sn (Some (take (Z.to_nat (size - header)) (drop (Z.to_nat header) buffer)))
    (size - header) so is_first is_last.

Definition um_is_whole (buffer : bytes) : bool :=
  let si := bits_val (bits_at buffer 0 2) in (Z.land si 2 =? 0) && (Z.land si 1 =? 0).

(** The entity after a PDU has been counted. *)
Definition counted (e : nr_rlc_entity_um_t) (size : Z) : nr_rlc_entity_um_t :=
  on_common (on_stats (λ s, add32 rxpdu_bytes size (add32 rxpdu_pkts 1 s))) e.

(** The reasons to discard a PDU: too short, a bad offset, no room, or an SN
    before the window. *)
Definition um_rejects (e : nr_rlc_entity_um_t) (buffer : bytes) (size : Z) : Prop :=
  let p := um_segment (sn_field_length e) buffer size in
  (um_is_whole buffer = true → size < 2) ∧
  (um_is_whole buffer = false → 0 < p_size p → (p_is_first p = false → p_so p ≠ 0) →
   rx_maxsize e < rx_size e + p_size p ∨ sn_compare_rx e (p_sn p) (rx_next_reassembly e) < 0).

(** The three ways [recv_pdu] goes: the PDU is discarded, a whole SDU is
    delivered at once, or a segment goes into the reception list. *)
Lemma recv_pdu_cases e buffer size :
  (sn_field_length e = 6 ∨ sn_field_length e = 12) → 0 <= size <= zlen buffer →
  let p := um_segment (sn_field_length e) buffer size in
  (um_rejects e buffer size ∧
   nr_rlc_entity_um_recv_pdu e buffer size = recv_pdu_discard (counted e size) size) ∨
  (um_is_whole buffer = true ∧ 2 <= size ∧
   nr_rlc_entity_um_recv_pdu e buffer size
   = Ok (on_common (on_stats (λ s, add64 txsdu_bytes (size - 1) (add32 txsdu_pkts 1 s)))
          (on_common (call (deliver_sdu (take (Z.to_nat (size - 1)) (drop 1 buffer))))
            (counted e size)))) ∨
  (um_is_whole buffer = false ∧ stored p ∧ 0 <= p_sn p < 2 ^ sn_field_length e ∧ p_so p < 2 ^ 16 ∧
   (p_is_last p = true → 0 < p_so p) ∧
   rx_size e + p_size p <= rx_maxsize e ∧
   0 <= sn_compare_rx e (p_sn p) (rx_next_reassembly e) ∧
   nr_rlc_entity_um_recv_pdu e buffer size
   = recv_pdu_store (counted e size) buffer size (p_size p) (p_sn p) (p_so p)
       (p_is_first p) (p_is_last p)).
Proof.
  intros Hlen Hs p. unfold nr_rlc_entity_um_recv_pdu. fold (counted e size).
  pose proof (dec_at_init buffer size) as Hd0.
  destruct (get_bits_cases buffer size 0 2 _ Hd0) as ([si d1] & -> & H1); [lia..|].
  cbn [mbind outcome_bind]. unfold nr_rlc_pdu_decoder_in_error.
  destruct H1 as [(-> & _ & ?)|(Hsi & Hsir & Hd1 & Hr1)].
  { left. split; [|done]. split; [lia|]. intros _ Hp. change (0 < p_size p) in Hp.
    pose proof (um_header_size_pos _ (p_is_first p) Hlen).
    change (p_size p) with (size - um_header_size (sn_field_length e) (p_is_first p)) in Hp. lia. } rewrite (proj1 Hd1). cbn [Z.add] in Hd1.
  assert (um_is_whole buffer = (Z.land si 2 =? 0) && (Z.land si 1 =? 0)) as Hwh
    by (unfold um_is_whole; by rewrite <- Hsi).
  assert (p_is_first p = (Z.land si 2 =? 0) ∧ p_is_last p = (Z.land si 1 =? 0)) as [Hfi Hla]
    by (unfold p, um_segment; cbn; by rewrite <- Hsi).
  rewrite <- Hfi, <- Hla in *.
  destruct (p_is_first p && p_is_last p) eqn:Ew.
  { destruct (Z.ltb_spec size 2); [left; split; [|done]; split; [done|congruence]|]. right. left. split_and!; try done.
    rewrite buf_sub_ok by lia. done. }
  assert (p_size p <= 0 → um_rejects e buffer size) as Hrej.
  { intros Hp. split; [congruence|]. intros _ Hp'. change (0 < p_size p) in Hp'. lia. }
  set (len := sn_field_length (counted e size)).
  assert (len = 6 ∨ len = 12) as Hlen' by exact Hlen.
  set (pos := if len =? 12 then 4 else 2).
  assert (8 * (size - p_size p) = pos + len + (if p_is_first p then 0 else 16)) as HT.
  { change (p_size p) with (size - um_header_size len (p_is_first p)). unfold um_header_size, pos.
    destruct Hlen' as [-> | ->]; destruct (p_is_first p); cbn [Z.eqb Pos.eqb];
      change ((2 + 6) / 8) with 1 || change ((4 + 12) / 8) with 2; lia. }
  assert (0 <= pos <= 4 ∧ 0 <= len <= 12) as [Hpr Hlr]
    by (unfold pos; destruct Hlen' as [-> | ->]; cbn; lia).
  assert (0 <= (if p_is_first p then 0 else 16)) as Hf0 by (destruct (p_is_first p); lia).
  assert (∃ d2, (if len =? 12 then nr_rlc_pdu_decoder_get_bits d1 2 else Ok (0, d1)) = Ok d2 ∧
    (d_error d2.2 = true ∧ 8 * size < pos ∨ dec_at buffer size pos d2.2 ∧ pos <= 8 * size)) as (d2 & -> & H2).
  { unfold pos. destruct (len =? 12); [|by eexists; split; [done|right]].
    destruct (get_bits_cases buffer size 2 2 d1 Hd1) as ([v d2] & -> & H2); [lia..|].
    eexists. split; [done|]. destruct H2 as [(? & _ & ?)|(_ & _ & ? & ?)]; auto. }
  destruct d2 as [v2 d2]. cbn [mbind outcome_bind snd] in *.
  destruct H2 as [[-> ?]|[Hd2 Hr2]]; [left; split; [apply Hrej; lia|done]|]. rewrite (proj1 Hd2).
  destruct (get_bits_cases buffer size pos len _ Hd2) as ([sn d3] & -> & H3); [lia..|].
  cbn [mbind outcome_bind]. destruct H3 as [(-> & _ & ?)|(Hsn & Hsnr & Hd3 & Hr3)].
  { left. split; [apply Hrej; lia|done]. }
  rewrite (proj1 Hd3).
  assert (∃ so d4, (if negb (p_is_first p) then nr_rlc_pdu_decoder_get_bits d3 16 else Ok (0, d3))
      = Ok (so, d4) ∧
    (d_error d4 = true ∧ p_size p <= 0 ∨ so = p_so p ∧ 0 <= so < 2 ^ 16 ∧
      dec_at buffer size (pos + len + (if p_is_first p then 0 else 16)) d4 ∧
      pos + len + (if p_is_first p then 0 else 16) <= 8 * size)) as (so & d4 & -> & H4).
  { assert (p_so p = if p_is_first p then 0 else bits_val (bits_at buffer (pos + len) 16)) as Hso
      by reflexivity. rewrite Hso.
    destruct (p_is_first p); cbn [negb].
    { exists 0, d3. split; [done|]. right. rewrite Z.add_0_r. split_and!; try done. }
    destruct (get_bits_cases buffer size (pos + len) 16 _ Hd3) as ([v d4] & -> & H4); [lia..|].
    exists v, d4. split; [done|]. destruct H4 as [(? & _ & ?)|(? & ? & ? & ?)];
      [left; split; [done|lia]|right].
    split_and!; try done; lia. }
  cbn [mbind outcome_bind]. destruct H4 as [[-> ?]|(Hso & Hsor & Hd4 & Hr4)].
  { left. split; [by apply Hrej|done]. }
  rewrite (proj1 Hd4), (dec_at_byte _ _ _ _ Hd4). subst so.
  destruct (negb (p_is_first p) && (p_so p =? 0)) eqn:Eso.
  { left. split; [|done]. split; [congruence|]. intros _ _ Hz. exfalso.
    apply andb_true_iff in Eso as [E1 E2]. apply negb_true_iff in E1. apply Z.eqb_eq in E2.
    by apply Hz. }
  assert (size - (pos + len + (if p_is_first p then 0 else 16)) / 8 = p_size p) as ->.
  { rewrite <- HT. rewrite Z.mul_comm, Z.div_mul; lia. }
  destruct (Z.leb_spec (p_size p) 0); [left; split; [by apply Hrej|done]|].
  destruct (Z.ltb_spec (rx_maxsize (counted e size)) (rx_size (counted e size) + p_size p)) as [Hfull|].
  { left. split; [|done]. split; [congruence|]. intros _ _ _. left. exact Hfull. }
  assert (p_sn p = sn) as Hpsn by (rewrite Hsn; reflexivity). rewrite <- Hpsn in *.
  destruct (Z.ltb_spec (sn_compare_rx (counted e size) (p_sn p)
                          (rx_next_reassembly (counted e size))) 0) as [Hold|Hcmp].
  { left. split; [|done]. split; [congruence|]. intros _ _ _. right. exact Hold. }
  right. right. split_and!; try done; try lia.
  - split_and!; [lia|done|]. eexists. split; [reflexivity|].
    pose proof (um_header_size_pos len (p_is_first p) Hlen').
    change (um_header_size _ _) with (um_header_size len (p_is_first p)).
    change (p_size p) with (size - um_header_size len (p_is_first p)) in *.
    apply zlen_take. rewrite zlen_drop; lia.
  - apply Hsnr.
  - intros El. rewrite El, andb_true_r in Ew. rewrite Ew in Eso. cbn [negb andb] in Eso.
    apply Z.eqb_neq in Eso. lia.
Qed.

Lemma um_rx_wf_frame Q e c s : um_rx_wf Q e → um_rx_wf Q (e <| rx_size := s |> <| common := c |>).
Proof. intros [C ? ? ?]. split; try done. destruct C; by split. Qed.

Lemma um_segment_sub len buffer size :
  let p := um_segment len buffer size in
  len = 6 ∨ len = 12 → stored p → 0 <= size <= zlen buffer →
  ∃ d, p_data p = Some d ∧ buf_sub buffer (size - p_size p) (p_size p) = Ok d ∧
       nr_rlc_new_pdu (p_sn p) (p_so p) (p_is_first p) (p_is_last p) d (p_size p) = Ok p.
Proof.
  intros p Hlen (_ & Hsz & x & Hx & Hl) Hs.
  assert (∃ h, 0 < h <= 4 ∧ p_size p = size - h ∧
    p_data p = Some (take (Z.to_nat (size - h)) (drop (Z.to_nat h) buffer))) as (h & Hh0 & Hh & Hd).
  { eexists (um_header_size len (p_is_first p)).
    split; [by apply um_header_size_pos|]. split; reflexivity. }
  clearbody p. rewrite Hd in Hx. injection Hx as <-.
  eexists. split; [done|]. rewrite Hh. replace (size - (size - h)) with h by lia.
  rewrite buf_sub_ok by lia. split; [done|]. unfold nr_rlc_new_pdu.
  rewrite buf_sub_ok by lia. cbn [mbind outcome_bind].
  rewrite drop_0, take_take, Nat.min_id, <- Hd, <- Hh. by destruct p.
Qed.

(** The reception of any bytes: no fault, no exit, no endless loop; the
    invariant is kept, and what is delivered is either the whole SDU in the PDU
    or an SDU rebuilt from stored segments. *)
Lemma um_recv_pdu_ok Q e buffer size :
  um_rx_wf Q e → 0 <= size <= zlen buffer →
  let p := um_segment (sn_field_length e) buffer size in
  (um_is_whole buffer = false → stored p → p_so p < 2 ^ 16 → Q p) →
  returns (nr_rlc_entity_um_recv_pdu e buffer size) (λ e',
    um_rx_wf Q e' ∧ tx_view e' = tx_view e ∧
    ∃ evs, events (common e') = events (common e) ++ evs ∧
      if um_is_whole buffer
      then evs = [] ∨ evs = [deliver_sdu (take (Z.to_nat (size - 1)) (drop 1 buffer))]
      else delivery Q (p_sn p) evs).
Proof.
  intros W Hs p HQ. pose proof (ux_cfg _ _ W) as C.
  destruct (recv_pdu_cases e buffer size (uc_len _ C) Hs) as [[_ ->] | [(Hw & H2 & ->) | Hst]].
  - apply returns_ok. split_and!; [|done|].
    + eapply (um_rx_wf_frame _ _ _ (rx_size e)) in W. exact W.
    + exists []. rewrite app_nil_r. split; [done|]. destruct (um_is_whole buffer); by left.
  - rewrite Hw. apply returns_ok. split_and!; [|done|].
    + eapply (um_rx_wf_frame _ _ _ (rx_size e)) in W. exact W.
    + eexists. split; [reflexivity|]. by right.
  - destruct Hst as (Hw & Hst & Hsn & Hso & Hla & _ & _ & ->). rewrite Hw in *. fold p in Hst, Hsn, Hso, Hla |- *.
    unfold recv_pdu_store. destruct (um_segment_sub _ _ _ (uc_len _ C) Hst Hs) as (d & _ & Hsub & Hp).
    fold p in Hsub, Hp. rewrite Hsub. cbn [mbind outcome_bind]. rewrite Hp. cbn [mbind outcome_bind].
    set (e1 := counted e size <| rx_size := _ |>).
    assert (um_rx_wf Q e1) as W1 by exact (um_rx_wf_frame _ _ _ _ W).
    eapply returns_mono; [apply (reception_actions_ok Q e1 p W1); try done|].
    + change (sn_modulus e1) with (sn_modulus e). by rewrite (uc_mod _ C).
    + by apply HQ.
    + intros e' (W' & Htx & Hev). split_and!; try done.
Qed.

(** The timer: it drops the segments that no longer can be completed. *)
Lemma um_set_time_ok Q e now :
  um_rx_wf Q e →
  returns (nr_rlc_entity_um_set_time e now) (λ e',
    um_rx_wf Q e' ∧ tx_view e' = tx_view e ∧ events (common e') = events (common e) ∧
    rx_size e' = rx_size e ∧ ∃ pre, rx_list e = pre ++ rx_list e').
Proof.
  intros [C Hc Hr Ht]. unfold nr_rlc_entity_um_set_time, check_t_reassembly.
  set (e0 := e <| t_current := now |>).
  destruct (Z.eqb_spec (t_reassembly_start e0) 0) as [Hz|Hz]; cbn [orb].
  { apply returns_ok. split_and!; try done; [|by exists []]. split; try done. destruct C; by split. }
  destruct (_ <=? _).
  { apply returns_ok. split_and!; try done; [|by exists []]. split; try done. destruct C; by split. }
  destruct (Ht Hz) as [Ht1 Ht2].
  set (e1 := e0 <| t_reassembly_start := 0 |>).
  assert (um_cfg e1) as C1 by (destruct C; by split).
  destruct (skip_delivered_window Q e1 (rx_timer_trigger e1)) as (v & -> & Hv & Hvp & _);
    [done|done|apply C1|exact Ht2|].
  cbn [mbind outcome_bind]. set (e2 := e1 <| rx_next_reassembly := v |>).
  assert (um_cfg e2) as C2 by (destruct C1; by split).
  destruct (discard_before_ok (rx_list e2) e2) as (pre & suf & c & Hl & -> & Hev & Hcv & Hpre & Hsuf).
  set (e3 := e2 <| rx_list := suf |> <| common := c |>).
  assert (um_cfg e3) as C3 by (destruct C2; by split).
  assert (tx_view e3 = tx_view e) as Htx by (unfold tx_view; cbn; by rewrite Hcv).
  change (rx_list e2) with (rx_list e) in Hl.
  assert (rx_core Q (modulus_rx e3) (sn_modulus e3) (window_size e3) (rx_list e3)) as Hc3.
  { apply (rx_core_suffix Q (modulus_rx e) (sn_modulus e) (window_size e)
             (modulus_rx e2 (rx_next_reassembly e2)) pre suf); [by rewrite <- Hl|done|].
    intros p Hp. destruct suf as [|p0 suf]; [set_solver|].
    pose proof (rc_sorted _ _ _ _ _ Hc) as Hs. rewrite Hl in Hs.
    pose proof (sorted_from_head _ _ _ _ (sorted_app_r _ _ _ Hs) Hp).
    specialize (Hsuf p0 suf eq_refl). change (modulus_rx e2) with (modulus_rx e) in *. lia. }
  assert (modulus_rx e3 (rx_next_reassembly e3) <= window_size e3) as Hr3 by apply Hvp.
  apply returns_ok. destruct (_ || _) eqn:Eb.
  - split_and!; try done; [|by exists pre]. split; try done.
    + destruct C3; by split.
    + intros _. change (modulus_rx e3 (rx_next_reassembly e3)
        < modulus_rx e3 (rx_next_highest e3) <= window_size e3).
      rewrite modulus_rx_highest by done. split; [|lia].
      pose proof (modulus_rx_next e3 _ C3 (uc_rnr _ C3) Hr3) as Hn.
      apply orb_true_iff in Eb as [Eb|Eb].
      * unfold sn_compare_rx in Eb. apply Z.ltb_lt in Eb.
        rewrite Hn, modulus_rx_highest in Eb by done. lia.
      * apply andb_true_iff in Eb as [Eb _]. apply Z.eqb_eq in Eb.
        pose proof (uc_rnh _ C3). rewrite <- Eb, cmod_small in Hn by done.
        rewrite modulus_rx_highest in Hn by done. lia.
  - split_and!; try done. by exists pre.
Qed.

(** ** Runs of the receiving side *)

Inductive um_rx_op :=
| UmPdu (buffer : bytes) (size : Z)
| UmTime (now : Z).

Definition um_rx_op_ok (op : um_rx_op) : Prop :=
  match op with UmPdu buffer size => 0 <= size <= zlen buffer | UmTime _ => True end.

Definition um_rx_exec (e : nr_rlc_entity_um_t) (op : um_rx_op) : outcome nr_rlc_entity_um_t :=
  match op with
  | UmPdu buffer size => nr_rlc_entity_um_recv_pdu e buffer size
  | UmTime now => nr_rlc_entity_um_set_time e now
  end.

Fixpoint um_rx_run (e : nr_rlc_entity_um_t) (ops : list um_rx_op) : outcome nr_rlc_entity_um_t :=
  match ops with
  | [] => Ok e
  | op :: ops => e ← um_rx_exec e op; um_rx_run e ops
  end.

Lemma um_new_ok rxmax txmax t_reass len :
  len = 6 ∨ len = 12 →
  returns (new_nr_rlc_entity_um rxmax txmax t_reass len) (λ e,
    (∀ Q, um_rx_wf Q e) ∧ sn_field_length e = len ∧ events (common e) = [] ∧
    heap e = empty_heap ∧ tx_list e = [] ∧ tx_end e = None ∧ tx_size e = 0 ∧
    bstatus (common e) = mk_bstatus 0 0 0 ∧ avg_wf (common e) ∧
    rx_maxsize e = rxmax ∧ tx_maxsize e = txmax ∧ tx_next e = 0 ∧ rx_list e = [] ∧
    rx_next_highest e = 0 ∧ rx_next_reassembly e = 0 ∧ rx_size e = 0).
Proof.
  intros Hlen. unfold new_nr_rlc_entity_um.
  destruct (new_common_ok NR_RLC_UM) as (c & -> & Hc & Hb & _ & Hev).
  destruct Hlen as [-> | ->]; cbn; apply returns_ok; cbn;
    (split_and!; try done; intros Q; split; cbn; try done;
     [split; vm_compute; intuition congruence|apply rx_core_nil]).
Qed.

Lemma um_rx_run_ok e ops :
  um_rx_wf (λ _, True) e → Forall um_rx_op_ok ops →
  returns (um_rx_run e ops) (λ e', um_rx_wf (λ _, True) e' ∧ tx_view e' = tx_view e).
Proof.
  intros W Hops. revert e W. induction Hops as [|op ops Hop Hops IH]; intros e W; cbn [um_rx_run].
  { by apply returns_ok. }
  eapply (returns_bind _ _ (λ e', um_rx_wf (λ _, True) e' ∧ tx_view e' = tx_view e)).
  - destruct op as [buffer size|now]; cbn [um_rx_exec].
    + eapply returns_mono; [by apply (um_recv_pdu_ok (λ _, True) e buffer size W)|].
      by intros e' (? & ? & _).
    + eapply returns_mono; [apply (um_set_time_ok _ e now W)|]. by intros e' (? & ? & _).
  - intros e' [W' Htx]. rewrite <- Htx. by apply IH.
Qed.

(** C21: the receiving side of unacknowledged mode is robust. For every sequence
    of received byte strings, whatever their contents, and of clock ticks, no
    operation reads out of bounds, uses freed data, stops the process or loops
    for ever, and the invariant of the reassembly window holds at the end: the
    list is sorted and inside the window, an SDU is released as a whole, and
    t-Reassembly guards an SN of the window. The transmitting side is
    untouched. *)
Theorem um_rx_robust rxmax txmax t_reass len ops :
  len = 6 ∨ len = 12 → Forall um_rx_op_ok ops →
  returns (e ← new_nr_rlc_entity_um rxmax txmax t_reass len; um_rx_run e ops)
    (λ e, um_rx_wf (λ _, True) e ∧ heap e = empty_heap ∧ tx_list e = []).
Proof.
  intros Hlen Hops. eapply returns_bind; [by apply um_new_ok|].
  intros e (W & _ & _ & Hh & Hl & _). eapply returns_mono; [by apply um_rx_run_ok|].
  intros e' [W' Htx]. unfold tx_view in Htx. split_and!; [done|congruence..].
Qed.

Lemma um_rx_robust_witness :
  let ops := [UmPdu [195; 0; 9; 1; 2] 5; UmTime 100; UmPdu [] 0; UmPdu [255; 255; 255] 3;
              UmPdu [65; 1] 2; UmTime 400] in
  Forall um_rx_op_ok ops ∧
  returns (e ← new_nr_rlc_entity_um 1000 1000 10 6; um_rx_run e ops)
    (λ e, um_rx_wf (λ _, True) e ∧ heap e = empty_heap ∧ tx_list e = []).
Proof.
  intros ops. assert (Forall um_rx_op_ok ops) as Hops.
  { repeat constructor; vm_compute; intuition congruence. }
  split; [exact Hops|]. apply (um_rx_robust 1000 1000 10 6 ops); [by left|exact Hops].
Defined.

(** ** What is delivered is what was sent *)

(** unacknowledged mode delivers only what was sent. Let [content] give, for
    each SN, the SDU sent under it. If the segments stored so far and the one in
    the received PDU are genuine pieces of these SDUs, in any order, with any
    losses, duplicates and overlaps, then the entity delivers either nothing or
    exactly the SDU of the SN received, whole; and the segments it keeps are
    still genuine. *)
Theorem um_rx_delivers_genuine content e buffer size :
  let p := um_segment (sn_field_length e) buffer size in
  um_rx_wf (genuine_sn content) e → 0 <= size <= zlen buffer →
  um_is_whole buffer = false → genuine (content (p_sn p)) p →
  zlen (content (p_sn p)) <= NR_SDU_MAX →
  returns (nr_rlc_entity_um_recv_pdu e buffer size) (λ e',
    um_rx_wf (genuine_sn content) e' ∧ tx_view e' = tx_view e ∧
    (events (common e') = events (common e) ∨
     events (common e') = events (common e) ++ [deliver_sdu (content (p_sn p))])).
Proof.
  intros p W Hs Hw Hg Hmax.
  eapply returns_mono; [by apply (um_recv_pdu_ok (genuine_sn content) e buffer size W Hs)|].
  intros e' (W' & Htx & evs & Hev & Hd). rewrite Hw in Hd. split; [done|]. split; [done|].
  apply delivery_genuine in Hd as [-> | ->]; [|by right|done]. left. by rewrite Hev, app_nil_r.
Qed.

(** Two segments of a three byte SDU, the last one first. *)
Lemma um_rx_delivers_genuine_witness :
  let content := λ _ : Z, [7; 8; 9] in
  returns (e ← new_nr_rlc_entity_um 1000 1000 10 6;
           e ← nr_rlc_entity_um_recv_pdu e [129; 0; 1; 8; 9] 5;
           nr_rlc_entity_um_recv_pdu e [65; 7] 2) (λ e, um_rx_wf (genuine_sn content) e).
Proof.
  intros content. eapply returns_bind; [apply um_new_ok; by left|].
  intros e (W & Hlen & _). eapply returns_bind.
  { apply (um_rx_delivers_genuine content e [129; 0; 1; 8; 9] 5); rewrite ?Hlen;
      [apply W|vm_compute; intuition congruence..]. }
  intros e1 (W1 & Htx & _). assert (sn_field_length e1 = 6) as Hlen1.
  { unfold tx_view in Htx. congruence. }
  eapply returns_mono.
  { apply (um_rx_delivers_genuine content e1 [65; 7] 2); rewrite ?Hlen1;
      [apply W1|vm_compute; intuition congruence..]. }
  intros e2 (W2 & _). exact W2.
Defined.

(** Both segments received, the SDU has been delivered. *)
Example um_rx_reordered_delivery :
  match e ← new_nr_rlc_entity_um 1000 1000 10 6;
        um_rx_run e [UmPdu [129; 0; 1; 8; 9] 5; UmPdu [65; 7] 2] with
  | Ok e => events (common e) = [deliver_sdu [7; 8; 9]]
  | _ => False
  end.
Proof. vm_compute. reflexivity. Qed.
