(* ===== verification/RlcUmTx.v ===== *)
(** * RLC unacknowledged mode: the transmitting side is correct

    What a PDU is, the accounting invariant, and what each grant sends. *)

From S2P Require Import Prelude Bits RlcPdu TimeStat RlcSdu RlcTypes RlcReassemble RlcUm.

#[local] Arguments Z.add : simpl never.
#[local] Arguments Z.sub : simpl never.
#[local] Arguments Z.opp : simpl never.
#[local] Arguments Z.mul : simpl never.

(** ** PDUs *)

(** The fields of the header of a UMD PDU. *)
Definition um_fields (len : Z) (is_first is_last : bool) (sn so : Z) : list (Z * Z) :=
  [(1 - Z.b2z is_first, 1); (1 - Z.b2z is_last, 1)] ++
  (if is_first && is_last then [(0, 6)]
   else (if len =? 12 then [(0, 2)] else []) ++ [(sn, len)]) ++
  (if is_first then [] else [(so, 16)]).

Definition um_header (len : Z) (is_first is_last : bool) : Z :=
  if is_first && is_last then 1
  else (if len =? 12 then 2 else 1) + (if is_first then 0 else 2).

(** [pdu] carries the bytes [data] found at offset [so] of the SDU [sn]. *)
Definition is_um_pdu (len : Z) (is_first is_last : bool) (sn so : Z) (data pdu : bytes) : Prop :=
  ∃ hdr, pdu = hdr ++ data ∧ zlen hdr = um_header len is_first is_last ∧
         buf_bits hdr = fields_bits (um_fields len is_first is_last sn so).

Lemma um_fields_ok len is_first is_last sn so :
  len = 6 ∨ len = 12 → 0 <= sn < 2 ^ len → 0 <= so < 2 ^ 16 →
  Forall field_ok (um_fields len is_first is_last sn so) ∧
  sumZ snd (um_fields len is_first is_last sn so) = 8 * um_header len is_first is_last.
Proof.
  intros Hlen Hsn Hso. unfold um_fields, um_header, field_ok.
  destruct is_first, is_last, Hlen as [-> | ->]; cbn [andb Z.eqb app Pos.eqb];
    (split; [repeat constructor; cbn; lia|reflexivity]).
Qed.

Lemma compute_pdu_header_size_eq e g :
  sn_field_length e = 6 ∨ sn_field_length e = 12 →
  compute_pdu_header_size e g = um_header (sn_field_length e) (g_is_first g) (g_is_last g).
Proof.
  intros Hlen. unfold compute_pdu_header_size, um_header.
  by destruct (g_is_first g), (g_is_last g), Hlen as [-> | ->].
Qed.

(** [serialize_sdu] writes the fields, then the bytes of the segment. *)
Lemma serialize_sdu_fields e g buffer size :
  serialize_sdu e g buffer size =
    encoder ← put_fields (nr_rlc_pdu_encoder_init buffer size)
                (um_fields (sn_field_length e) (g_is_first g) (g_is_last g)
                   (s_sn (sdu_of (heap e) g)) (g_so g));
    data ← buf_sub (s_data (sdu_of (heap e) g)) (g_so g) (g_size g);
    buffer ← buf_write (e_buffer encoder) (e_byte encoder) data;
    Ok (e_byte encoder + g_size g, buffer).
Proof.
  unfold serialize_sdu, um_fields.
  destruct (g_is_first g), (g_is_last g), (sn_field_length e =? 12);
    cbn [andb negb app put_fields mbind outcome_bind];
    repeat (match goal with |- context [nr_rlc_pdu_encoder_put_bits ?e ?v ?c] =>
              destruct (nr_rlc_pdu_encoder_put_bits e v c) end;
            cbn [mbind outcome_bind]; try reflexivity).
Qed.

Lemma serialize_sdu_ok e g l buffer size :
  heap_wf (heap e) (g :: l) → sn_field_length e = 6 ∨ sn_field_length e = 12 →
  0 <= s_sn (sdu_of (heap e) g) < 2 ^ sn_field_length e → g_so g < 2 ^ 16 →
  let h := um_header (sn_field_length e) (g_is_first g) (g_is_last g) in
  h + g_size g <= size → size <= zlen buffer → Forall is_byte buffer →
  ∃ buffer', serialize_sdu e g buffer size = Ok (h + g_size g, buffer') ∧
    zlen buffer' = zlen buffer ∧
    is_um_pdu (sn_field_length e) (g_is_first g) (g_is_last g) (s_sn (sdu_of (heap e) g)) (g_so g)
      (take (Z.to_nat (g_size g)) (drop (Z.to_nat (g_so g)) (s_data (sdu_of (heap e) g))))
      (take (Z.to_nat (h + g_size g)) buffer').
Proof.
  intros W Hlen Hsn Hso h Hroom Hcap HF.
  destruct (hw_live _ _ W g (list_elem_of_here _ _)) as (s & Hs & Hb).
  pose proof (hw_data _ _ W _ _ Hs) as Hd. rewrite serialize_sdu_fields.
  rewrite (sdu_of_lookup _ _ _ Hs) in *.
  destruct (um_fields_ok (sn_field_length e) (g_is_first g) (g_is_last g) (s_sn s) (g_so g))
    as [Hfs Hsum]; [done..|lia|]. fold h in Hsum.
  assert (0 < h) as Hh.
  { unfold h, um_header. destruct (g_is_first g), (g_is_last g), (_ =? 12); cbn; lia. }
  destruct (put_fields_spec [] (nr_rlc_pdu_encoder_init buffer size) _
              (enc_at_init buffer size ltac:(lia)) HF Hfs) as (enc & -> & He & Hes & Hel & _).
  { rewrite Hsum, zlen_nil. cbn. lia. }
  cbn [mbind outcome_bind app]. cbn [app] in He. cbn in Hes, Hel.
  pose proof (enc_len _ _ He) as Hlen'. rewrite zlen_fields_bits, Hsum in Hlen' by done.
  pose proof (enc_bit _ _ He). assert (e_byte enc = h ∧ e_bit enc = 0) as [Hby Hbi] by lia.
  rewrite buf_sub_ok by lia. cbn [mbind outcome_bind].
  set (data := take _ _).
  assert (zlen data = g_size g) as Hdl.
  { unfold data. rewrite zlen_take; [done|]. rewrite zlen_drop; lia. }
  rewrite buf_write_ok by lia. cbn [mbind outcome_bind]. rewrite Hby, Hdl.
  eexists. split_and!; [done| |].
  - rewrite !zlen_app, zlen_take, zlen_drop by lia. lia.
  - exists (take (Z.to_nat h) (e_buffer enc)). split_and!.
    + rewrite app_assoc. apply take_app_length'. unfold zlen in *.
      rewrite length_app, length_take. lia.
    + rewrite zlen_take; (done || lia).
    + rewrite <- Hby. by apply enc_at_aligned.
Qed.

(** ** The invariant of the transmitting side *)

Record um_tx_wf (e : nr_rlc_entity_um_t) : Prop := {
  ut_len : sn_field_length e = 6 ∨ sn_field_length e = 12;
  ut_mod : sn_modulus e = 2 ^ sn_field_length e;
  ut_next : 0 <= tx_next e < sn_modulus e;
  ut_heap : heap_wf (heap e) (tx_list e);
  ut_tail : tail_ok (tx_list e) (tx_end e);
  ut_own : NoDup (g_sdu <$> tx_list e);
  ut_seg : ∀ g, g ∈ tx_list e →
    0 < g_size g ∧ 0 <= g_so g ∧ g_so g + g_size g = s_size (sdu_of (heap e) g) ∧
    s_size (sdu_of (heap e) g) <= NR_SDU_MAX ∧
    g_is_last g = true ∧ g_is_first g = (g_so g =? 0);
  ut_whole : ∀ g, g ∈ tail (tx_list e) → g_so g = 0;
  ut_bstatus : bs_tx_size (bstatus (common e))
               = sumZ (λ g, compute_pdu_header_size e g + g_size g) (tx_list e);
  ut_size : sumZ g_size (tx_list e) <= tx_size e <= tx_maxsize e;
  ut_avg : avg_wf (common e);
}.

(** What the entity is to its users: the SDUs not completely sent, in order,
    and the number of bytes of the first one already sent. *)
Definition um_sdus (e : nr_rlc_entity_um_t) : list bytes :=
  (λ g, s_data (sdu_of (heap e) g)) <$> tx_list e.
Definition um_off (e : nr_rlc_entity_um_t) : Z :=
  match tx_list e with g :: _ => g_so g | [] => 0 end.

(** What transmission leaves unchanged: the receiving side. *)
Definition rx_view (e : nr_rlc_entity_um_t) :=
  (rx_list e, rx_size e, rx_maxsize e, rx_next_highest e, rx_next_reassembly e, rx_timer_trigger e,
   (t_reassembly_start e, t_reassembly e, t_current e, sn_field_length e, sn_modulus e,
    window_size e, events (common e))).

Lemma um_header_pos len f l : 1 <= um_header len f l <= 4.
Proof. unfold um_header. destruct f, l, (len =? 12); cbn; lia. Qed.

(** Sending a segment that fits, once it is out of the list. *)
Lemma send_segment_ok now e g l buffer size :
  heap_wf (heap e) (g :: l) → sn_field_length e = 6 ∨ sn_field_length e = 12 →
  avg_wf (common e) → 0 <= s_sn (sdu_of (heap e) g) < 2 ^ sn_field_length e → g_so g < 2 ^ 16 →
  let hd := um_header (sn_field_length e) (g_is_first g) (g_is_last g) in
  hd + g_size g <= size → size <= zlen buffer → Forall is_byte buffer →
  ∃ buffer' c h, send_segment now e g buffer size = Ok (hd + g_size g, buffer',
      e <| tx_next := if negb (g_is_first g) && g_is_last g
                      then cmod (tx_next e + 1) (sn_modulus e) else tx_next e |>
        <| tx_size := tx_size e - g_size g |> <| common := c |> <| heap := h |>) ∧
    zlen buffer' = zlen buffer ∧
    is_um_pdu (sn_field_length e) (g_is_first g) (g_is_last g) (s_sn (sdu_of (heap e) g)) (g_so g)
      (take (Z.to_nat (g_size g)) (drop (Z.to_nat (g_so g)) (s_data (sdu_of (heap e) g))))
      (take (Z.to_nat (hd + g_size g)) buffer') ∧
    heap_wf h l ∧ same_data (heap e) h l ∧
    bstatus c = bstatus (common e) ∧ events c = events (common e) ∧ avg_wf c.
Proof.
  intros W Hlen Ha Hsn Hso hd Hroom Hcap HF. unfold send_segment.
  set (e1 := if _ && _ then _ else e).
  assert (e1 = e <| tx_next := if negb (g_is_first g) && g_is_last g
                      then cmod (tx_next e + 1) (sn_modulus e) else tx_next e |>) as ->.
  { unfold e1. destruct (_ && _); [done|]. by destruct e. }
  match goal with |- context [serialize_sdu ?x] => set (e2 := x) end.
  destruct (serialize_sdu_ok e2 g l buffer size W Hlen Hsn Hso Hroom Hcap HF)
    as (buffer' & -> & Hl & Hpdu).
  cbn [mbind outcome_bind].
  match goal with |- context [record_waited_time ?c ?n ?t] =>
    destruct (record_waited_time_ok c n t) as (c' & -> & Ha' & Hb' & _ & Hev' & _) end.
  { exact Ha. }
  cbn [mbind outcome_bind]. cbn [heap set_field set_common].
  destruct (free_segment_ok _ _ _ W) as ([b h] & Hfree & Wh & _).
  change (heap _) with (heap e). rewrite Hfree. cbn [mbind outcome_bind].
  exists buffer', c', h. split_and!; try done. by apply (free_segment_same_data _ g _ b).
Qed.

Lemma tail_ok_cons_inv g l t :
  tail_ok (g :: l) t → tail_ok l (if l is [] then None else t).
Proof.
  intros [Ht Hnd]. rewrite fmap_cons in Hnd. apply NoDup_cons in Hnd as [_ Hnd]. split; [|done].
  destruct l as [|x l]; [done|]. by rewrite last_cons_cons in Ht.
Qed.

Lemma tail_ok_push g l t :
  tail_ok l t → g_addr g ∉ g_addr <$> l →
  tail_ok (g :: l) (if t is None then Some (g_addr g) else t).
Proof.
  intros [Ht Hnd] Hg. split; [|rewrite fmap_cons; by apply NoDup_cons].
  destruct l as [|x l]; subst t; [done|]. rewrite last_cons_cons.
  destruct (last (x :: l)) eqn:E; [done|]. by apply last_None in E.
Qed.

(** Giving its SN to the SDU of the first segment. *)
Lemma assign_sn_ok h g l v :
  heap_wf h (g :: l) →
  let h' := upd_sdu h g (sdu_of h g <| s_sn := v |>) in
  heap_wf h' (g :: l) ∧ same_data h h' (g :: l) ∧ s_sn (sdu_of h' g) = v ∧ h_next h' = h_next h.
Proof.
  intros W. destruct (hw_live _ _ W g (list_elem_of_here _ _)) as (s & Hs & _).
  rewrite (sdu_of_lookup _ _ _ Hs). cbn zeta. split_and!; [| | |done].
  - apply (heap_wf_update _ _ _ s); try done.
  - apply same_data_upd; [done|by rewrite (sdu_of_lookup _ _ _ Hs)..].
  - unfold upd_sdu, sdu_of. cbn. by rewrite lookup_insert_eq.
Qed.

(** The result of a transmission: the PDU that was sent and what is left. *)
Definition um_sent (e e' : nr_rlc_entity_um_t) (size ret : Z) (pdu : bytes) (d : bytes)
    (q : list bytes) : Prop :=
  ∃ k, 0 < k ∧ um_off e + k <= zlen d ∧ 0 < ret <= size ∧ zlen pdu = ret ∧
    is_um_pdu (sn_field_length e) (um_off e =? 0) (um_off e + k =? zlen d) (tx_next e) (um_off e)
      (take (Z.to_nat k) (drop (Z.to_nat (um_off e)) d)) pdu ∧
    if um_off e + k =? zlen d
    then um_sdus e' = q ∧ um_off e' = 0 ∧
         tx_next e' = (if um_off e =? 0 then tx_next e else cmod (tx_next e + 1) (sn_modulus e))
    else um_sdus e' = d :: q ∧ um_off e' = um_off e + k ∧ tx_next e' = tx_next e ∧ ret = size.

(** The conditions of the invariant that concern only the list, for a list and a
    store that come from those of [e]. *)
Lemma um_tx_wf_sub e l t h c nx sz :
  um_tx_wf e → heap_wf h l → tail_ok l t →
  NoDup (g_sdu <$> l) →
  (∀ g, g ∈ l → 0 < g_size g ∧ 0 <= g_so g ∧ g_so g + g_size g = s_size (sdu_of h g) ∧
    s_size (sdu_of h g) <= NR_SDU_MAX ∧ g_is_last g = true ∧ g_is_first g = (g_so g =? 0)) →
  (∀ g, g ∈ tail l → g_so g = 0) → 0 <= nx < sn_modulus e →
  bs_tx_size (bstatus c) = sumZ (λ g, compute_pdu_header_size e g + g_size g) l →
  sumZ g_size l <= sz <= tx_maxsize e → avg_wf c →
  um_tx_wf (e <| tx_list := l |> <| tx_end := t |> <| tx_next := nx |> <| tx_size := sz |>
              <| common := c |> <| heap := h |>).
Proof. intros [] ?????????. split; cbn; done. Qed.

Lemma send_whole_ok now e g next buffer size :
  um_tx_wf e → tx_list e = g :: next →
  let hd := compute_pdu_header_size e g in
  hd + g_size g <= size → size <= zlen buffer → Forall is_byte buffer →
  let e1 := e <| tx_list := next |> <| tx_end := if next is [] then None else tx_end e |>
              <| heap := upd_sdu (heap e) g (sdu_of (heap e) g <| s_sn := tx_next e |>) |> in
  ∃ buffer' e',
    send_segment now (on_common (bstatus_tx (- (hd + g_size g))) e1) g buffer size
      = Ok (hd + g_size g, buffer', e') ∧
    zlen buffer' = zlen buffer ∧ um_tx_wf e' ∧ rx_view e' = rx_view e ∧
    tx_maxsize e' = tx_maxsize e ∧
    um_sent e e' size (hd + g_size g) (take (Z.to_nat (hd + g_size g)) buffer')
      (s_data (sdu_of (heap e) g)) (tail (um_sdus e)).
Proof.
  intros W El hd Hroom Hcap HF e1. pose proof (ut_heap _ W) as Wh. rewrite El in Wh.
  destruct (ut_seg _ W g) as (Hsz & Hso & Hend & Hmax & Hla & Hfi); [rewrite El; set_solver|].
  destruct (hw_live _ _ Wh g (list_elem_of_here _ _)) as (s & Hs & _).
  pose proof (hw_data _ _ Wh _ _ Hs) as Hd. rewrite <- (sdu_of_lookup _ _ _ Hs) in Hd.
  destruct (assign_sn_ok (heap e) g next (tx_next e) Wh) as (Wh1 & Hsame1 & Hsn1 & _).
  set (h1 := upd_sdu (heap e) g _) in *.
  destruct (Hsame1 g (list_elem_of_here _ _)) as [Hd1 _].
  assert (hd = um_header (sn_field_length e) (g_is_first g) (g_is_last g)) as Hhd
    by (apply compute_pdu_header_size_eq, W).
  pose proof (um_header_pos (sn_field_length e) (g_is_first g) (g_is_last g)) as Hhp.
  pose proof (ut_next _ W) as Hnx. rewrite (ut_mod _ W) in Hnx. unfold NR_SDU_MAX in Hmax.
  destruct (send_segment_ok now (on_common (bstatus_tx (- (hd + g_size g))) e1) g next buffer size)
    as (buffer' & c & h & E & Hbl & Hpdu & Wh' & Hsame & Hbst & Hev & Ha); try done.
  { apply W. } { apply W. } { change (heap _) with h1. by rewrite Hsn1. } { lia. }
  { change (sn_field_length _) with (sn_field_length e). by rewrite <- Hhd. }
  change (sn_field_length _) with (sn_field_length e) in E, Hpdu. rewrite <- Hhd in E, Hpdu.
  change (heap (on_common _ e1)) with h1 in *. rewrite Hsn1, Hd1 in Hpdu.
  assert (∀ k, k ∈ next → s_data (sdu_of h k) = s_data (sdu_of (heap e) k) ∧
                          s_size (sdu_of h k) = s_size (sdu_of (heap e) k)) as Hkeep.
  { intros k Hk. destruct (Hsame k Hk) as [-> ->]. apply Hsame1. set_solver. }
  eexists buffer', _. split; [exact E|]. split_and!; [done| | |done|].
  - apply (um_tx_wf_sub e next (if next is [] then None else tx_end e) h c _ (tx_size e - g_size g) W); try done.
    + apply (tail_ok_cons_inv g). rewrite <- El. apply W.
    + pose proof (ut_own _ W) as Ho. rewrite El, fmap_cons in Ho. by apply NoDup_cons in Ho as [_ ?].
    + intros k Hk. destruct (Hkeep k Hk) as [_ ->]. apply W. rewrite El. set_solver.
    + intros k Hk. apply (ut_whole _ W). rewrite El. cbn. destruct next; [done|set_solver].
    + pose proof (ut_next _ W). cbn. destruct (_ && _); [apply cmod_range; lia|done].
    + rewrite Hbst. change (bs_tx_size (bstatus (common e)) + - (hd + g_size g)
        = sumZ (λ g, compute_pdu_header_size e g + g_size g) next).
      rewrite (ut_bstatus _ W), El, sumZ_cons. fold hd. lia.
    + pose proof (ut_size _ W) as Hz. rewrite El, sumZ_cons in Hz. cbn. lia.
  - unfold rx_view. cbn. by rewrite Hev.
  - exists (g_size g). unfold um_off, um_sdus. rewrite El. cbn [fmap list_fmap tail tx_list].
    rewrite Hd, Hend, Z.eqb_refl, zlen_take by lia. rewrite <- Hfi.
    split_and!; try lia.
    + rewrite Hla in Hpdu. exact Hpdu.
    + apply list_fmap_ext. intros i k Hk. apply list_elem_of_lookup_2 in Hk. by apply Hkeep.
    + cbn. destruct next as [|y l]; [done|]. apply (ut_whole _ W). rewrite El. set_solver.
    + cbn. rewrite Hla, andb_true_r. by destruct (g_is_first g).
Qed.

(** [push_back], as one update. *)
Lemma push_back_eq e g :
  push_back e g = e <| tx_list := g :: tx_list e |>
    <| tx_end := if tx_end e is None then Some (g_addr g) else tx_end e |>
    <| common := bstatus_tx (compute_pdu_header_size e g + g_size g)
                   (on_stats (add32 txpdu_segmented 1) (common e)) |>.
Proof.
  unfold push_back. cbn [tx_end set_field set_tx_list].
  destruct (tx_end e) eqn:E; [|done]. rewrite <- E. by destruct e.
Qed.

Lemma resegment_eq e g size :
  let hd := compute_pdu_header_size e (g <| g_is_last := false |>) in
  let s := sdu_of (heap e) g in
  hd + 1 <= size →
  resegment g e size =
    (g <| g_size := size - hd |> <| g_is_last := false |>,
     Some (mk_seg (h_next (heap e)) (g_sdu g) (hd + g_size g - size) (g_so g + (size - hd)) false
             (g_is_last g)),
     e <| heap := upd_sdu (heap e) g (s <| s_ref_count := s_ref_count s + 1 |>)
                    <| h_next := Pos.succ (h_next (heap e)) |> |>
       <| common := on_stats (add32 txpdu_segmented 1) (common e) |>).
Proof.
  intros hd s H. unfold resegment. fold s.
  change (compute_pdu_header_size (e <| heap := _ |>)) with (compute_pdu_header_size e). fold hd.
  destruct (Z.ltb_spec size (hd + 1)); [lia|].
  assert (g_size g - (hd + g_size g - size) = size - hd) as Hsz by lia.
  cbn [new_addr]. cbn -[hd]. rewrite <- Hsz. done.
Qed.

Lemma send_cut_ok now e g next buffer size :
  um_tx_wf e → tx_list e = g :: next →
  let hd := compute_pdu_header_size e g in
  size < hd + g_size g → compute_pdu_header_size e (g <| g_is_last := false |>) + 1 <= size →
  size <= zlen buffer → Forall is_byte buffer →
  let e1 := on_common (bstatus_tx (- (hd + g_size g)))
    (e <| tx_list := next |> <| tx_end := if next is [] then None else tx_end e |>
       <| heap := upd_sdu (heap e) g (sdu_of (heap e) g <| s_sn := tx_next e |>) |>) in
  ∃ g1 g2 e2 buffer' e',
    resegment g e1 size = (g1, Some g2, e2) ∧
    send_segment now (push_back e2 g2) g1 buffer size = Ok (size, buffer', e') ∧
    zlen buffer' = zlen buffer ∧ um_tx_wf e' ∧ rx_view e' = rx_view e ∧
    tx_maxsize e' = tx_maxsize e ∧
    um_sent e e' size size (take (Z.to_nat size) buffer')
      (s_data (sdu_of (heap e) g)) (tail (um_sdus e)).
Proof.
  intros W El hd Hcut Hmin Hcap HF e1. pose proof (ut_heap _ W) as Wh. rewrite El in Wh.
  destruct (ut_seg _ W g) as (Hsz & Hso & Hend & Hmax & Hla & Hfi); [rewrite El; set_solver|].
  destruct (hw_live _ _ Wh g (list_elem_of_here _ _)) as (s & Hs & _).
  pose proof (hw_data _ _ Wh _ _ Hs) as Hd. rewrite <- (sdu_of_lookup _ _ _ Hs) in Hd.
  destruct (assign_sn_ok (heap e) g next (tx_next e) Wh) as (Wh1 & Hsame1 & Hsn1 & _).
  set (h1 := upd_sdu (heap e) g _) in *.
  destruct (Hsame1 g (list_elem_of_here _ _)) as [Hd1 _].
  set (hd' := compute_pdu_header_size e (g <| g_is_last := false |>)) in *.
  assert (hd' = um_header (sn_field_length e) (g_is_first g) false) as Hhd'
    by exact (compute_pdu_header_size_eq e (g <| g_is_last := false |>) (ut_len _ W)).
  assert (hd = um_header (sn_field_length e) (g_is_first g) true) as Hhd
    by (rewrite <- Hla; apply compute_pdu_header_size_eq, W).
  assert (hd <= hd') as Hhh.
  { rewrite Hhd, Hhd'. unfold um_header. destruct (g_is_first g), (_ =? 12); cbn; lia. }
  pose proof (ut_next _ W) as Hnx. rewrite (ut_mod _ W) in Hnx. unfold NR_SDU_MAX in Hmax.
  pose proof (resegment_eq e1 g size) as Hre.
  change (compute_pdu_header_size e1) with (compute_pdu_header_size e) in Hre. fold hd' in Hre.
  change (heap e1) with h1 in Hre. cbn zeta in Hre. specialize (Hre Hmin).
  set (g1 := g <| g_size := size - hd' |> <| g_is_last := false |>) in *.
  set (g2 := mk_seg (h_next h1) _ _ _ _ _) in *.
  match type of Hre with _ = (_, _, ?x) => set (e2 := x) in * end.
  assert (heap_wf (heap e2) (g1 :: g2 :: next)) as W2.
  { apply (heap_wf_split h1 g next g1 g2 (size - hd') Wh1); cbn; try done; lia. }
  assert (same_data h1 (heap e2) (g1 :: g2 :: next) ∧ s_sn (sdu_of (heap e2) g1) = tx_next e)
    as [Hsame2 Hsn2].
  { assert (is_Some (h_sdus h1 !! g_sdu g)) as Hl1
      by (destruct (hw_live _ _ Wh1 g (list_elem_of_here _ _)) as (t & Ht & _); eauto).
    split.
    - intros k Hk. change (sdu_of (heap e2) k) with (sdu_of (upd_sdu h1 g
        (sdu_of h1 g <| s_ref_count := s_ref_count (sdu_of h1 g) + 1 |>)) k).
      by apply (same_data_upd h1 g _ (g1 :: g2 :: next)).
    - rewrite <- Hsn1. unfold sdu_of at 1. cbn. by rewrite lookup_insert_eq. }
  destruct (Hsame2 g1 (list_elem_of_here _ _)) as [Hd2 _].
  change (sdu_of h1 g1) with (sdu_of h1 g) in Hd2. rewrite Hd1 in Hd2.
  exists g1, g2, e2. rewrite Hre, push_back_eq.
  match goal with |- context [send_segment now ?x] => set (e3 := x) end.
  destruct (send_segment_ok now e3 g1 (g2 :: next) buffer size)
    as (buffer' & c & h & E & Hbl & Hpdu & Wh' & Hsame & Hbst & Hev & Ha); try done.
  { apply W. } { apply W. } { change (heap e3) with (heap e2). by rewrite Hsn2. }
  { cbn. lia. } { change (um_header _ _ _) with (um_header (sn_field_length e) (g_is_first g) false).
    rewrite <- Hhd'. cbn. lia. }
  change (um_header _ _ _) with (um_header (sn_field_length e) (g_is_first g) false) in E, Hpdu.
  rewrite <- Hhd' in E, Hpdu. change (g_size g1) with (size - hd') in E, Hpdu.
  replace (hd' + (size - hd')) with size in E, Hpdu by lia.
  change (heap e3) with (heap e2) in *. rewrite Hsn2, Hd2 in Hpdu.
  change (g_is_last g1) with false in *. rewrite andb_false_r in E.
  assert (∀ k, k ∈ g2 :: next → s_data (sdu_of h k) = s_data (sdu_of (heap e) k) ∧
                          s_size (sdu_of h k) = s_size (sdu_of (heap e) k)) as Hkeep.
  { intros k Hk. destruct (Hsame k Hk) as [-> ->]. destruct (Hsame2 k) as [-> ->]; [set_solver|].
    apply elem_of_cons in Hk as [->|Hk]; [|apply Hsame1; set_solver].
    exact (Hsame1 g (list_elem_of_here _ _)). }
  assert (sdu_of (heap e) g2 = sdu_of (heap e) g) as Hg2 by done.
  exists buffer'. eexists. split; [done|]. split; [exact E|]. split_and!; [done| | |done|].
  - apply (um_tx_wf_sub e (g2 :: next)
      (if (if next is [] then None else tx_end e) is None then Some (g_addr g2)
       else if next is [] then None else tx_end e) h c (tx_next e) (tx_size e - (size - hd')) W);
      try done.
    + apply (tail_ok_push g2 next); [apply (tail_ok_cons_inv g); rewrite <- El; apply W|].
      pose proof (hw_addr _ _ Wh') as Hnd. rewrite fmap_cons in Hnd. by apply NoDup_cons in Hnd as [? _].
    + pose proof (ut_own _ W) as Ho. rewrite El in Ho. exact Ho.
    + intros k Hk. destruct (Hkeep k Hk) as [_ ->]. apply elem_of_cons in Hk as [->|Hk].
      * rewrite Hg2. cbn. split_and!; try lia; try done.
      * apply W. rewrite El. set_solver.
    + intros k Hk. apply (ut_whole _ W). rewrite El. exact Hk.
    + apply W.
    + rewrite Hbst. change (bs_tx_size (bstatus (common e)) + - (hd + g_size g)
        + (compute_pdu_header_size e g2 + g_size g2)
        = sumZ (λ g, compute_pdu_header_size e g + g_size g) (g2 :: next)).
      rewrite (ut_bstatus _ W), El, !sumZ_cons. fold hd. lia.
    + pose proof (ut_size _ W) as Hz. rewrite El, sumZ_cons in Hz. rewrite sumZ_cons. cbn. lia.
  - unfold rx_view. cbn. by rewrite Hev.
  - pose proof (um_header_pos (sn_field_length e) (g_is_first g) false) as Hhp. rewrite <- Hhd' in Hhp.
    exists (size - hd'). unfold um_off, um_sdus. rewrite El. cbn [fmap list_fmap tail tx_list].
    rewrite Hd, <- Hend, zlen_take by lia.
    rewrite (proj2 (Z.eqb_neq (g_so g + (size - hd')) _)) by lia. rewrite <- Hfi.
    split_and!; try lia; try done.
    change (s_data (sdu_of h g2) :: ((λ k, s_data (sdu_of h k)) <$> next)
      = s_data (sdu_of (heap e) g) :: ((λ k, s_data (sdu_of (heap e) k)) <$> next)). f_equal.
    + destruct (Hkeep g2) as [-> _]; [set_solver|]. by rewrite Hg2.
    + apply list_fmap_ext. intros i k Hk. apply list_elem_of_lookup_2 in Hk.
      apply Hkeep. set_solver.
Qed.

(** ** Operations *)

(** The fields used for logging do not matter. *)
Lemma um_tx_wf_log e a b :
  um_tx_wf e → um_tx_wf (e <| sdu_rejected := a |> <| t_log_buffer_full := b |>).
Proof. intros []. by split. Qed.

(** One grant: nothing is sent if it cannot carry a byte of data; otherwise one
    PDU with as much of the first SDU as fits. The grant of exactly two bytes on
    a 12-bit SN is left out (see [um_grant_loses_sdu]). *)
Lemma um_generate_ok now e buffer size :
  um_tx_wf e → 0 <= size <= zlen buffer → Forall is_byte buffer →
  sn_field_length e = 6 ∨ size ≠ 2 →
  returns (nr_rlc_entity_um_generate_pdu now e buffer size) (λ '(ret, buffer', e'),
    zlen buffer' = zlen buffer ∧ um_tx_wf e' ∧ rx_view e' = rx_view e ∧
    tx_maxsize e' = tx_maxsize e ∧
    match um_sdus e with
    | [] => ret = 0 ∧ e' = e
    | d :: q => (ret = 0 ∧ e' = e ∧ size <= 4) ∨
                um_sent e e' size ret (take (Z.to_nat ret) buffer') d q
    end).
Proof.
  intros W Hs HF Hg. unfold nr_rlc_entity_um_generate_pdu, generate_tx_pdu.
  destruct (tx_list e) as [|g next] eqn:El.
  { apply returns_ok. split_and!; try done. unfold um_sdus. by rewrite El. }
  assert (um_sdus e = s_data (sdu_of (heap e) g) :: tail (um_sdus e)) as Hq
    by (unfold um_sdus; by rewrite El).
  rewrite Hq. set (hd := compute_pdu_header_size e g).
  assert (1 <= hd <= 4) as Hhd.
  { unfold hd. rewrite compute_pdu_header_size_eq by apply W. apply um_header_pos. }
  destruct (Z.ltb_spec size (hd + 1)) as [Hlt|Hge].
  { apply returns_ok. split_and!; try done. left. split_and!; (done || lia). }
  set (e1 := if tx_list (e <| tx_list := next |>) is [] then _ else _).
  assert (e1 = e <| tx_list := next |> <| tx_end := if next is [] then None else tx_end e |>) as ->.
  { unfold e1. cbn. destruct next; [done|]. by destruct e. }
  cbn zeta. destruct (Z.ltb_spec size (hd + g_size g)) as [Hcut|Hfit].
  - destruct (send_cut_ok now e g next buffer size W El Hcut) as
      (g1 & g2 & e2 & buffer' & e' & E1 & E2 & Hbl & W' & Hrx & Hm & Hsent); [|lia|done|].
    { rewrite compute_pdu_header_size_eq by apply W. cbn.
      unfold hd in Hge. rewrite compute_pdu_header_size_eq in Hge by apply W.
      destruct (ut_seg _ W g) as (_ & _ & _ & _ & Hla & _); [rewrite El; set_solver|].
      unfold um_header in *. rewrite Hla in Hge. destruct (g_is_first g); cbn in *; [|lia].
      destruct (Z.eqb_spec (sn_field_length e) 12); lia. }
    fold hd in E1. match goal with |- context [resegment g ?x size] => change x with
      (on_common (bstatus_tx (- (hd + g_size g)))
        (e <| tx_list := next |> <| tx_end := if next is [] then None else tx_end e |>
           <| heap := upd_sdu (heap e) g (sdu_of (heap e) g <| s_sn := tx_next e |>) |>)) end.
    rewrite E1, E2. apply returns_ok. split_and!; try done. by right.
  - destruct (send_whole_ok now e g next buffer size W El Hfit) as
      (buffer' & e' & E & Hbl & W' & Hrx & Hm & Hsent); [lia|done|].
    fold hd in E. match goal with |- context [send_segment now ?x] => change x with
      (on_common (bstatus_tx (- (hd + g_size g)))
        (e <| tx_list := next |> <| tx_end := if next is [] then None else tx_end e |>
           <| heap := upd_sdu (heap e) g (sdu_of (heap e) g <| s_sn := tx_next e |>) |>)) end.
    rewrite E. apply returns_ok. split_and!; try done. by right.
Qed.

Lemma um_recv_sdu_ok now e buffer size id :
  um_tx_wf e → 0 < size <= zlen buffer → size <= NR_SDU_MAX →
  returns (nr_rlc_entity_um_recv_sdu now e buffer size id) (λ e',
    um_tx_wf e' ∧ rx_view e' = rx_view e ∧ tx_maxsize e' = tx_maxsize e ∧ tx_next e' = tx_next e ∧
    um_off e' = um_off e ∧
    um_sdus e' = if tx_maxsize e <? tx_size e + size then um_sdus e
                 else um_sdus e ++ [take (Z.to_nat size) buffer]).
Proof.
  intros W Hs Hmax. unfold nr_rlc_entity_um_recv_sdu.
  destruct (Z.ltb_spec NR_SDU_MAX size); [lia|].
  set (e1 := if _ && _ then _ else _).
  assert (∃ c a b, e1 = e <| common := c |> <| sdu_rejected := a |> <| t_log_buffer_full := b |> ∧
    bstatus c = bstatus (common e) ∧ avg_wf c ∧ events c = events (common e)) as (c & a & b & -> & Hb & Ha & Hev).
  { unfold e1. eexists. destruct (_ && _).
    - do 2 eexists. split; [reflexivity|]. split_and!; [done|exact (ut_avg _ W)|done].
    - exists (sdu_rejected e), (t_log_buffer_full e).
      split; [by destruct e|]. split_and!; [done|exact (ut_avg _ W)|done]. }
  cbn [tx_maxsize tx_size set_field set_common set_sdu_rejected set_t_log_buffer_full].
  destruct (Z.ltb_spec (tx_maxsize e) (tx_size e + size)) as [Hfull|Hroom].
  - apply returns_ok. split_and!; try done.
    + destruct W. split; cbn; try done. by rewrite Hb.
    + unfold rx_view. cbn. by rewrite Hev.
  - cbn [heap set_field set_tx_size set_sdu_rejected set_t_log_buffer_full set_common].
    destruct (new_sdu_ok (heap e) (tx_list e) buffer size id (ut_heap _ W) ltac:(lia))
      as ([g h] & -> & W' & Hlive & Hg & Hso & Hf & Hla & Hl & Hkeep & Hne).
    cbn [mbind outcome_bind].
    assert (g_addr g ∉ g_addr <$> tx_list e) as Hga.
    { pose proof (hw_addr _ _ W') as Hnd. rewrite fmap_cons in Hnd. by apply NoDup_cons in Hnd as [? _]. }
    destruct (list_append_ok _ _ _ (ut_tail _ W) Hga) as [Happ Htail].
    cbn [tx_list tx_end set_field set_heap set_tx_size set_sdu_rejected set_t_log_buffer_full set_common].
    rewrite Happ. cbn [mbind outcome_bind]. apply returns_ok.
    assert (same_data (heap e) h (tx_list e)) as Hsame.
    { intros k Hk. destruct (hw_live _ _ (ut_heap _ W) k Hk) as (s & Hs' & _).
      by rewrite (sdu_of_lookup _ _ _ Hs'), (sdu_of_lookup _ _ _ (Hkeep _ _ Hs')). }
    assert (∀ h', heap_wf h' (g :: tx_list e) → same_data h h' (g :: tx_list e) →
      let e' := e <| tx_list := tx_list e ++ [g] |> <| tx_end := Some (g_addr g) |>
        <| tx_next := tx_next e |> <| tx_size := tx_size e + size |>
        <| common := bstatus_tx (compute_pdu_header_size e g + g_size g) c |> <| heap := h' |> in
      um_tx_wf e' ∧ um_off e' = um_off e ∧ um_sdus e' = um_sdus e ++ [take (Z.to_nat size) buffer]) as Hfin.
    { intros h' Wh' Hh'. cbn zeta. split_and!; [apply um_tx_wf_sub; try done| |].
      - eapply heap_wf_perm; [|exact Wh']. apply Permutation_cons_append.
      - rewrite fmap_app. apply NoDup_app. split_and!; [apply (ut_own _ W)| |apply NoDup_singleton].
        intros p Hp Hp'. apply list_elem_of_singleton in Hp' as ->.
        apply list_elem_of_fmap in Hp as (k & E & Hk). by apply (Hne k Hk).
      - intros k Hk. destruct (Hh' k) as [_ ->]; [set_solver|].
        apply elem_of_app in Hk as [Hk|Hk].
        + destruct (Hsame k Hk) as [_ ->]. by apply (ut_seg _ W).
        + apply list_elem_of_singleton in Hk as ->. rewrite (sdu_of_lookup _ _ _ Hl). cbn.
          rewrite Hg, Hso. split_and!; (done || lia).
      - intros k Hk. destruct (tx_list e) as [|x l] eqn:El; [set_solver|]. cbn in Hk.
        apply elem_of_app in Hk as [Hk|Hk].
        + apply (ut_whole _ W). by rewrite El.
        + by apply list_elem_of_singleton in Hk as ->.
      - apply W.
      - cbn. rewrite Hb, (ut_bstatus _ W), sumZ_app, sumZ_cons, sumZ_nil. lia.
      - pose proof (ut_size _ W). rewrite sumZ_app, sumZ_cons, sumZ_nil. lia.
      - unfold um_off. cbn. by destruct (tx_list e).
      - unfold um_sdus. cbn [heap set_field set_heap tx_list set_common set_tx_size set_tx_next set_tx_end set_tx_list].
        rewrite fmap_app. cbn [fmap list_fmap]. f_equal.
        + apply list_fmap_ext. intros i k Hk. apply list_elem_of_lookup_2 in Hk.
          destruct (Hh' k) as [-> _]; [set_solver|]. by apply Hsame.
        + destruct (Hh' g) as [-> _]; [set_solver|]. by rewrite (sdu_of_lookup _ _ _ Hl). }
    assert (∀ h', heap_wf h' (g :: tx_list e) → same_data h h' (g :: tx_list e) →
      let e' := e <| tx_list := tx_list e ++ [g] |> <| tx_end := Some (g_addr g) |>
        <| tx_next := tx_next e |> <| tx_size := tx_size e + size |>
        <| common := bstatus_tx (compute_pdu_header_size e g + g_size g) c |> <| heap := h' |>
        <| sdu_rejected := a |> <| t_log_buffer_full := b |> in
      um_tx_wf e' ∧ rx_view e' = rx_view e ∧ tx_maxsize e' = tx_maxsize e ∧ tx_next e' = tx_next e ∧
      um_off e' = um_off e ∧ um_sdus e' = um_sdus e ++ [take (Z.to_nat size) buffer]) as Hfin'.
    { intros h' Wh' Hh'. destruct (Hfin h' Wh' Hh') as (W1 & Ho & Hsd). split_and!; try done.
      - by apply um_tx_wf_log.
      - unfold rx_view. cbn. by rewrite Hev. }
    match goal with |- context [if avg_time_is_on ?x then _ else _] => destruct (avg_time_is_on x) end.
    + apply (Hfin' (upd_sdu h g (sdu_of h g <| s_time_of_arrival := now |>))).
      * apply heap_wf_upd_time; [done|]. eauto.
      * apply same_data_upd; (done || eauto).
    + apply (Hfin' h W' (same_data_refl _ _)).
Qed.

Lemma find_sdu_id_spec h id l pre cur post :
  find_sdu_id h id l = Some (pre, cur, post) →
  l = pre ++ cur :: post ∧ s_upper_layer_id (sdu_of h cur) = id ∧
  ∀ k, k ∈ pre → s_upper_layer_id (sdu_of h k) ≠ id.
Proof.
  revert pre. induction l as [|x l IH]; intros pre E; cbn in E; [done|].
  destruct (Z.eqb_spec (s_upper_layer_id (sdu_of h x)) id) as [Hx|Hx].
  { injection E as <- <- <-. split_and!; [done|done|set_solver]. }
  destruct (find_sdu_id h id l) as [[[p c] q]|] eqn:E'; [|done]. cbn in E. injection E as <- <- <-.
  destruct (IH p eq_refl) as (-> & Hid & Hp). split_and!; [done|done|].
  intros k [->|Hk]%elem_of_cons; [done|]. by apply Hp.
Qed.

(** The tail pointer after the removal of a node. *)
Lemma tail_ok_remove pre cur post t :
  tail_ok (pre ++ cur :: post) t →
  tail_ok (pre ++ post) (if decide (t = Some (g_addr cur)) then g_addr <$> last pre else t).
Proof.
  intros [-> Hnd]. rewrite fmap_app, fmap_cons in Hnd.
  assert (NoDup (g_addr <$> pre ++ post)) as Hnd'.
  { rewrite fmap_app. rewrite <- Permutation_middle in Hnd. by apply NoDup_cons in Hnd as [_ ?]. }
  split; [|done]. destruct post as [|y post].
  - rewrite last_snoc, app_nil_r, decide_True by done. done.
  - assert (last (pre ++ cur :: y :: post) = last (pre ++ y :: post)) as ->.
    { rewrite !last_app. cbn [last]. done. }
    rewrite decide_False; [done|]. intros E.
    destruct (last (pre ++ y :: post)) as [z|] eqn:Ez; [|done]. cbn in E. injection E as E.
    apply NoDup_app in Hnd as (_ & Hpre & Hpost). apply NoDup_cons in Hpost as [Hc _].
    apply last_Some_elem_of in Ez. apply elem_of_app in Ez as [Ez|Ez].
    + apply (Hpre (g_addr z)); [by apply list_elem_of_fmap_2|]. rewrite E. set_solver.
    + apply Hc. rewrite <- E. by apply list_elem_of_fmap_2.
Qed.

Lemma um_discard_ok e id :
  um_tx_wf e →
  returns (nr_rlc_entity_um_discard_sdu e id) (λ e',
    um_tx_wf e' ∧ rx_view e' = rx_view e ∧ tx_maxsize e' = tx_maxsize e ∧ tx_next e' = tx_next e ∧
    um_off e' = um_off e ∧ tx_size e' = tx_size e ∧
    (e' = e ∨ ∃ pre d post, um_sdus e = pre ++ d :: post ∧ um_sdus e' = pre ++ post ∧
                            (pre = [] → um_off e = 0))).
Proof.
  intros W. unfold nr_rlc_entity_um_discard_sdu.
  destruct (find_sdu_id _ _ _) as [[[pre cur] post]|] eqn:Ef.
  2:{ apply returns_ok. split_and!; try done. by left. }
  apply find_sdu_id_spec in Ef as (El & _ & _).
  destruct (negb (g_is_first cur) || negb (g_is_last cur)) eqn:Ew.
  { apply returns_ok. split_and!; try done. by left. }
  apply orb_false_iff in Ew as [Hf _]. apply negb_false_iff in Hf.
  set (e1 := if decide _ then _ else _).
  assert (e1 = e <| tx_list := pre ++ post |>
    <| tx_end := if decide (tx_end e = Some (g_addr cur)) then g_addr <$> last pre else tx_end e |>) as ->.
  { unfold e1. cbn. case_decide; [done|]. by destruct e. }
  cbn [heap on_common set_field set_common set_tx_end set_tx_list].
  assert (heap_wf (heap e) (cur :: pre ++ post)) as Wh.
  { eapply heap_wf_perm; [|apply (ut_heap _ W)]. rewrite El. symmetry. apply Permutation_middle. }
  destruct (free_segment_ok _ _ _ Wh) as ([b h] & E & Wh' & _).
  change (heap _) with (heap e). rewrite E. cbn [mbind outcome_bind]. apply returns_ok.
  pose proof (free_segment_same_data _ _ _ _ _ Wh E) as Hsame.
  destruct (ut_seg _ W cur) as (Hsz & _ & _ & _ & _ & Hfi); [rewrite El; set_solver|].
  rewrite Hf in Hfi. symmetry in Hfi. apply Z.eqb_eq in Hfi.
  split_and!; try done.
  - apply (um_tx_wf_sub e (pre ++ post)
      (if decide (tx_end e = Some (g_addr cur)) then g_addr <$> last pre else tx_end e) h
      (bstatus_tx (- (compute_pdu_header_size e cur + g_size cur)) (common e))
      (tx_next e) (tx_size e) W); try done.
    + apply tail_ok_remove. rewrite <- El. apply W.
    + pose proof (ut_own _ W) as Ho. rewrite El, fmap_app, fmap_cons in Ho. rewrite fmap_app.
      rewrite <- Permutation_middle in Ho.
      by apply NoDup_cons in Ho as [_ ?].
    + intros k Hk. destruct (Hsame k Hk) as [_ ->]. apply (ut_seg _ W). rewrite El. set_solver.
    + intros k Hk. apply (ut_whole _ W). rewrite El. destruct pre as [|x pre]; cbn in *.
      * destruct post; [done|set_solver].
      * set_solver.
    + apply W.
    + cbn. rewrite (ut_bstatus _ W), El, !sumZ_app, sumZ_cons. lia.
    + pose proof (ut_size _ W) as Hz. rewrite El, sumZ_app, sumZ_cons in Hz. rewrite sumZ_app. lia.
    + apply W.
  - unfold um_off. cbn. rewrite El. destruct pre as [|x pre]; [|done]. cbn. rewrite Hfi.
    destruct post as [|y post]; [done|]. apply (ut_whole _ W). rewrite El. cbn. set_solver.
  - right. exists ((λ g, s_data (sdu_of (heap e) g)) <$> pre), (s_data (sdu_of (heap e) cur)),
      ((λ g, s_data (sdu_of (heap e) g)) <$> post).
    unfold um_sdus. cbn [tx_list heap set_field set_heap set_common on_common set_tx_end set_tx_list].
    rewrite El, !fmap_app, fmap_cons. split_and!; [done| |].
    + f_equal; apply list_fmap_ext; intros i k Hk; apply list_elem_of_lookup_2 in Hk;
        apply Hsame; set_solver.
    + intros Hp. apply fmap_nil_inv in Hp. unfold um_off. by rewrite El, Hp.
Qed.

Lemma um_clear_tx_ok e :
  um_tx_wf e → 0 <= tx_maxsize e →
  returns (clear_entity e) (λ e',
    um_tx_wf e' ∧ um_sdus e' = [] ∧ um_off e' = 0 ∧ tx_maxsize e' = tx_maxsize e ∧
    rx_list e' = [] ∧ rx_next_highest e' = 0 ∧ rx_next_reassembly e' = 0 ∧ rx_timer_trigger e' = 0 ∧
    t_reassembly_start e' = 0 ∧ rx_size e' = 0 ∧ tx_next e' = 0 ∧ tx_size e' = 0 ∧
    sn_modulus e' = sn_modulus e ∧ sn_field_length e' = sn_field_length e ∧
    window_size e' = window_size e).
Proof.
  intros W Hm. unfold clear_entity.
  match goal with |- context [nr_rlc_free_sdu_segment_list ?h ?l] =>
    destruct (free_segment_list_ok h l []) as (h' & -> & Wh & _) end.
  { rewrite app_nil_r. apply (ut_heap _ W). }
  cbn [mbind outcome_bind]. apply returns_ok. split_and!; try done.
  destruct W as [Hlen Hmod]. split; cbn.
  - done.
  - done.
  - rewrite Hmod. by destruct Hlen as [-> | ->].
  - done.
  - split; [done|]. apply NoDup_nil_2.
  - apply NoDup_nil_2.
  - set_solver.
  - set_solver.
  - done.
  - rewrite sumZ_nil. lia.
  - done.
Qed.

(** ** Defects

    Three places where the accounting of the code goes wrong. *)

(** With a 12-bit SN, a grant of exactly two bytes loses the SDU at the head
    of the queue, if it has not been cut yet and has two bytes or more: no byte
    is sent, the SDU leaves the queue, its bytes stay counted in [tx_size], and
    the SDU object stays allocated with no segment that refers to it. *)
Theorem um_grant_loses_sdu now e buffer d q :
  um_tx_wf e → sn_field_length e = 12 → um_sdus e = d :: q → um_off e = 0 → 2 <= zlen d →
  returns (nr_rlc_entity_um_generate_pdu now e buffer 2) (λ '(ret, buffer', e'),
    ret = 0 ∧ buffer' = buffer ∧ um_sdus e' = q ∧ tx_size e' = tx_size e ∧
    ∃ p s, h_sdus (heap e') !! p = Some s ∧ s_data s = d ∧ ∀ g, g ∈ tx_list e' → g_sdu g ≠ p).
Proof.
  intros W Hlen Hq Hoff Hd. unfold nr_rlc_entity_um_generate_pdu, generate_tx_pdu.
  unfold um_sdus, um_off in Hq, Hoff. destruct (tx_list e) as [|g next] eqn:El; [done|].
  rewrite fmap_cons in Hq. injection Hq as Hdat Hq.
  destruct (ut_seg _ W g) as (Hsz & _ & Hend & _ & Hla & Hfi); [rewrite El; set_solver|].
  pose proof (ut_heap _ W) as Wh. rewrite El in Wh.
  destruct (hw_live _ _ Wh g (list_elem_of_here _ _)) as (s & Hs & _).
  pose proof (hw_data _ _ Wh _ _ Hs) as Hdl. rewrite (sdu_of_lookup _ _ _ Hs) in Hdat, Hend.
  rewrite Hoff in Hfi, Hend. cbn in Hfi. rewrite Hdat, <- Hend in Hdl.
  assert (compute_pdu_header_size e g = 1) as Hh
    by (rewrite compute_pdu_header_size_eq, Hfi, Hla by apply W; done).
  rewrite Hh. cbn [Z.ltb Z.compare Z.add Pos.add Pos.compare Pos.compare_cont].
  rewrite (proj2 (Z.ltb_lt 2 (1 + g_size g))) by lia.
  unfold resegment. match goal with |- context [compute_pdu_header_size ?x ?y] =>
    assert (compute_pdu_header_size x y = 2) as -> end.
  { unfold compute_pdu_header_size. cbn. rewrite Hfi. destruct next; cbn; by rewrite Hlen. }
  cbn [Z.ltb Z.compare Z.add Pos.add Pos.compare Pos.compare_cont]. apply returns_ok.
  set (e1 := if tx_list (e <| tx_list := next |>) is [] then _ else _).
  assert (e1 = e <| tx_list := next |> <| tx_end := if next is [] then None else tx_end e |>) as ->.
  { unfold e1. cbn. destruct next; [done|]. by destruct e. }
  pose proof (ut_own _ W) as Ho. rewrite El, fmap_cons in Ho. apply NoDup_cons in Ho as [Hown _].
  assert (∀ k, k ∈ next → g_sdu g ≠ g_sdu k) as Hne.
  { intros k Hk E. apply Hown. rewrite E. by apply list_elem_of_fmap_2. }
  split_and!; [done|done| |done|].
  - rewrite <- Hq. unfold um_sdus. cbn. apply list_fmap_ext. intros i k Hk.
    apply list_elem_of_lookup_2 in Hk. unfold sdu_of. cbn.
    by rewrite !lookup_insert_ne by (by apply Hne).
  - exists (g_sdu g). eexists. cbn. rewrite lookup_insert_eq. split_and!; [done| |].
    + unfold sdu_of. cbn. rewrite lookup_insert_eq. cbn. by rewrite Hs.
    + intros k Hk E. by apply (Hne k Hk).
Qed.

Lemma um_new_tx_ok rxmax txmax t_reass len :
  len = 6 ∨ len = 12 → 0 <= txmax →
  returns (new_nr_rlc_entity_um rxmax txmax t_reass len) (λ e,
    um_tx_wf e ∧ um_sdus e = [] ∧ um_off e = 0 ∧ tx_next e = 0 ∧ sn_field_length e = len ∧
    tx_maxsize e = txmax ∧ tx_size e = 0).
Proof.
  intros Hlen Hm. unfold new_nr_rlc_entity_um.
  destruct (new_common_ok NR_RLC_UM) as (c & -> & Hc & Hb & _ & Hev).
  rewrite (proj2 (orb_true_iff (len =? 6) (len =? 12))) by (rewrite !Z.eqb_eq; done).
  cbn [negb mbind outcome_bind]. apply returns_ok. split_and!; try done. split; cbn.
  - done.
  - rewrite Z.shiftl_mul_pow2, Z.mul_1_l by lia. done.
  - by destruct Hlen as [-> | ->].
  - apply heap_wf_empty.
  - split; [done|]. apply NoDup_nil_2.
  - apply NoDup_nil_2.
  - set_solver.
  - set_solver.
  - by rewrite Hb.
  - rewrite sumZ_nil. lia.
  - done.
Qed.

Lemma um_grant_loses_sdu_witness :
  returns (e ← new_nr_rlc_entity_um 100 100 10 12; nr_rlc_entity_um_recv_sdu 0 e [1; 2; 3] 3 7)
    (λ e, um_tx_wf e ∧ um_sdus e = [[1; 2; 3]] ∧
      returns (nr_rlc_entity_um_generate_pdu 0 e [0; 0] 2) (λ '(ret, buffer', e'),
        ret = 0 ∧ buffer' = [0; 0] ∧ um_sdus e' = [] ∧ tx_size e' = tx_size e ∧
        ∃ p s, h_sdus (heap e') !! p = Some s ∧ s_data s = [1; 2; 3] ∧
          ∀ g, g ∈ tx_list e' → g_sdu g ≠ p)).
Proof.
  eapply returns_bind; [apply um_new_tx_ok; [by right|lia]|].
  intros e (W & Hq & Ho & _ & Hlen & Hm & Hz).
  eapply returns_mono; [apply um_recv_sdu_ok; [done|vm_compute; intuition congruence..]|].
  intros e1 (W1 & Hrx & _ & _ & Ho1 & Hq1). rewrite Hm, Hz, Hq in Hq1. cbn in Hq1.
  split_and!; [done|done|]. apply (um_grant_loses_sdu 0 e1 [0; 0] [1; 2; 3] []);
    [done| |done|congruence|vm_compute; congruence].
  unfold rx_view in Hrx. congruence.
Defined.

(** Discarding an SDU does not give its bytes back. An entity with room for
    ten bytes accepts an SDU of six; after that SDU is discarded the queue and
    the reported buffer status are empty, but [tx_size] still is six and the next
    SDU of six bytes is rejected. *)
Theorem um_discard_keeps_tx_size :
  match (e ← new_nr_rlc_entity_um 100 10 10 12;
         e ← nr_rlc_entity_um_recv_sdu 0 e [1; 2; 3; 4; 5; 6] 6 7;
         e ← nr_rlc_entity_um_discard_sdu e 7;
         e' ← nr_rlc_entity_um_recv_sdu 0 e [1; 2; 3; 4; 5; 6] 6 8; Ok (e, e')) with
  | Ok (e, e') =>
      um_sdus e = [] ∧ bs_tx_size (bstatus (common e)) = 0 ∧ tx_size e = 6 ∧
      nr_rlc_entity_um_available_tx_space e = 4 ∧
      um_sdus e' = [] ∧ sdu_rejected e' = 1
  | _ => False
  end.
Proof. vm_compute. repeat split. Qed.

(** A reassembly timeout does not give the bytes of the dropped segments back.
    After the first segment (eight bytes) of an SDU has been dropped by
    t-Reassembly, the reception list is empty, but [rx_size] still is eight, and
    with [rx_maxsize] at ten a new segment of three bytes is discarded. *)
Theorem um_timeout_keeps_rx_size :
  match (e ← new_nr_rlc_entity_um 10 100 10 6;
         e ← nr_rlc_entity_um_set_time e 1;
         e ← nr_rlc_entity_um_recv_pdu e [128; 0; 4; 1; 2; 3; 4; 5; 6; 7; 8] 11;
         e ← nr_rlc_entity_um_set_time e 20;
         e ← nr_rlc_entity_um_set_time e 40;
         e' ← nr_rlc_entity_um_recv_pdu e [66; 1; 2; 3] 4; Ok (e, e')) with
  | Ok (e, e') => rx_list e = [] ∧ rx_size e = 8 ∧ rx_list e' = [] ∧ rxpdu_dd_pkts (stats (common e')) = 2
  | _ => False
  end.
Proof. vm_compute. repeat split. Qed.
