(* ===== verification/RlcUmLink.v ===== *)
(** * RLC unacknowledged mode, end to end

    A transmitting and a receiving entity joined by a channel that neither
    loses nor reorders: every SDU accepted is delivered, once, in order. *)

From S2P Require Import Prelude Bits RlcPdu TimeStat RlcSdu RlcTypes RlcReassemble.
From S2P Require Import RlcUm RlcUmRx RlcUmTx.

#[local] Arguments Z.add : simpl never.
#[local] Arguments Z.sub : simpl never.
#[local] Arguments Z.opp : simpl never.
#[local] Arguments Z.mul : simpl never.

(** ** What is read from a PDU is what was written *)

Lemma bits_val_field c v : 0 <= c → 0 <= v < 2 ^ c → bits_val (val_bits (Z.to_nat c) v) = v.
Proof. intros Hc Hv. rewrite bits_val_val_bits, Z2Nat.id, Z.mod_small; (done || lia). Qed.

Lemma um_fields_bits len f l sn so :
  fields_bits (um_fields len f l sn so)
  = [negb f; negb l] ++
    (if f && l then val_bits 6 0
     else (if len =? 12 then [false; false] else []) ++ val_bits (Z.to_nat len) sn) ++
    (if f then [] else val_bits (Z.to_nat 16) so).
Proof.
  unfold um_fields, fields_bits. rewrite !flat_map_app.
  destruct f, l, (len =? 12); cbn [andb negb]; rewrite ?flat_map_app; cbn [flat_map fst snd];
    rewrite ?app_nil_r; reflexivity.
Qed.

(** The bits of a PDU with header [hdr], and its data. *)
Lemma um_pdu_layout len f l sn so data pdu buffer size :
  is_um_pdu len f l sn so data pdu → take (Z.to_nat size) buffer = pdu → zlen pdu = size →
  let h := um_header len f l in
  size = h + zlen data ∧ take (Z.to_nat (size - h)) (drop (Z.to_nat h) buffer) = data ∧
  ∀ a b c, fields_bits (um_fields len f l sn so) = a ++ b ++ c → bits_at buffer (zlen a) (zlen b) = b.
Proof.
  intros (hdr & -> & Hhl & Hbits) Hbuf Hsize h. fold h in Hhl.
  rewrite zlen_app in Hsize. pose proof (zlen_nonneg data) as Hdn.
  assert (Z.to_nat h = length hdr) as Hn by (unfold zlen in *; lia).
  split_and!; [lia| |].
  - rewrite Hn, <- (drop_app_length hdr data) at 1. rewrite <- Hbuf.
    rewrite skipn_firstn_comm. f_equal. unfold zlen in *. lia.
  - intros a b c E. apply (bits_at_mid buffer (length hdr) a b c). rewrite <- E, <- Hbits. f_equal.
    rewrite <- (take_app_length hdr data) at 2. rewrite <- Hbuf, take_take. f_equal.
    unfold zlen in *. lia.
Qed.

Lemma um_pdu_si len f l sn so data pdu buffer size :
  is_um_pdu len f l sn so data pdu → take (Z.to_nat size) buffer = pdu → zlen pdu = size →
  let si := bits_val (bits_at buffer 0 2) in
  (Z.land si 2 =? 0) = f ∧ (Z.land si 1 =? 0) = l.
Proof.
  intros Hp Hb Hs. destruct (um_pdu_layout _ _ _ _ _ _ _ _ _ Hp Hb Hs) as (_ & _ & Hmid).
  specialize (Hmid [] [negb f; negb l]). cbn [zlen length] in Hmid. change (zlen _) with 0 in Hmid at 1.
  change (zlen [negb f; negb l]) with 2 in Hmid.
  erewrite Hmid; [by destruct f, l|]. apply um_fields_bits.
Qed.

Lemma um_pdu_read len f l sn so data pdu buffer size :
  len = 6 ∨ len = 12 → 0 <= sn < 2 ^ len → 0 <= so < 2 ^ 16 → (f = true → so = 0) →
  is_um_pdu len f l sn so data pdu → take (Z.to_nat size) buffer = pdu → zlen pdu = size →
  um_is_whole buffer = f && l ∧
  (f && l = false → um_segment len buffer size = mk_pdu sn (Some data) (zlen data) so f l) ∧
  (f && l = true → size = 1 + zlen data ∧ take (Z.to_nat (size - 1)) (drop 1 buffer) = data).
Proof.
  intros Hlen Hsn Hso Hf0 Hp Hb Hs.
  destruct (um_pdu_si _ _ _ _ _ _ _ _ _ Hp Hb Hs) as [Hsf Hsl]. cbn zeta in Hsf, Hsl.
  destruct (um_pdu_layout _ _ _ _ _ _ _ _ _ Hp Hb Hs) as (Hsz & Hdata & Hmid).
  unfold um_is_whole. rewrite Hsf, Hsl. split; [done|]. split.
  - intros Hw. unfold um_segment. rewrite Hsf, Hsl. unfold um_header in *. rewrite Hw in *.
    assert (um_header_size len f = (if len =? 12 then 2 else 1) + (if f then 0 else 2)) as Hh.
    { unfold um_header_size. by destruct Hlen as [-> | ->]. }
    rewrite Hh, Hdata. set (pos := if len =? 12 then 4 else 2).
    assert (∃ pre, zlen pre = pos ∧ fields_bits (um_fields len f l sn so)
      = pre ++ val_bits (Z.to_nat len) sn ++ (if f then [] else val_bits (Z.to_nat 16) so)) as (pre & Hpre & E).
    { rewrite um_fields_bits, Hw.
      exists ([negb f; negb l] ++ (if len =? 12 then [false; false] else [])).
      unfold pos. rewrite <- !app_assoc. by destruct (len =? 12). }
    assert (bits_at buffer pos len = val_bits (Z.to_nat len) sn) as ->.
    { specialize (Hmid _ _ _ E). by rewrite Hpre, zlen_val_bits in Hmid by lia. }
    rewrite bits_val_field by lia. f_equal; [lia|]. destruct f; [by rewrite Hf0|].
    specialize (Hmid (pre ++ val_bits (Z.to_nat len) sn) (val_bits (Z.to_nat 16) so) []).
    rewrite zlen_app, Hpre, !zlen_val_bits, app_nil_r, <- app_assoc in Hmid by lia.
    rewrite Hmid by done. by rewrite bits_val_field.
  - intros Hw. unfold um_header in *. rewrite Hw in *. done.
Qed.

(** ** The receiver, segment after segment *)

(** A segment accepted by the checks reaches [reception_actions]. *)
Lemma um_recv_segment e buffer size p :
  um_rx_wf (λ _, True) e → 0 <= size <= zlen buffer → um_is_whole buffer = false →
  um_segment (sn_field_length e) buffer size = p → stored p →
  (p_is_first p = false → p_so p ≠ 0) → rx_size e + p_size p <= rx_maxsize e →
  0 <= sn_compare_rx e (p_sn p) (rx_next_reassembly e) →
  nr_rlc_entity_um_recv_pdu e buffer size =
    reception_actions (counted e size <| rx_size := rx_size e + p_size p |>
      <| rx_list := nr_rlc_pdu_list_add (sn_compare_rx e) (rx_list e) p |>) p.
Proof.
  intros W Hs Hw Hp Hst Hso Hsz Hcmp. pose proof (uc_len _ (ux_cfg _ _ W)) as Hlen.
  destruct (recv_pdu_cases e buffer size Hlen Hs) as [[[_ Hrej] _]|[(Hw' & _)|(_ & _ & _ & _ & _ & _ & _ & E)]];
    [|congruence|].
  - rewrite Hp in Hrej. destruct (Hrej Hw) as [?|?]; [apply Hst|done|lia|lia].
  - rewrite E. rewrite Hp. unfold recv_pdu_store.
    destruct (um_segment_sub (sn_field_length e) buffer size Hlen) as (d & _ & Hsub & Hnew);
      [by rewrite Hp|done|]. rewrite Hp in Hsub, Hnew. rewrite Hsub. cbn [mbind outcome_bind].
    rewrite Hnew. done.
Qed.

Lemma of_sn_add_last pos cmp l p :
  (∀ a b, cmp a b = pos a - pos b) → StronglySorted (pdu_le pos) l →
  (∀ q, q ∈ of_sn (p_sn p) l → p_so q <= p_so p) →
  of_sn (p_sn p) (nr_rlc_pdu_list_add cmp l p) = of_sn (p_sn p) l ++ [p].
Proof.
  intros Hcmp. induction l as [|c l IH]; intros Hs Hso; cbn [nr_rlc_pdu_list_add].
  { rewrite filter_cons, decide_True by done. done. }
  apply StronglySorted_inv in Hs as [Hs Hall]. rewrite Forall_forall in Hall.
  rewrite filter_cons in Hso |- *. destruct (_ || _) eqn:E.
  - rewrite filter_cons, decide_True by done.
    assert (pos (p_sn p) < pos (p_sn c)) as Hlt.
    { apply orb_true_iff in E as [E|E]; [apply Z.ltb_lt in E; rewrite Hcmp in E; lia|].
      apply andb_true_iff in E as [E1 E2]. apply Z.eqb_eq in E1. apply Z.ltb_lt in E2.
      rewrite decide_True in Hso by done. specialize (Hso c ltac:(set_solver)). lia. }
    rewrite filter_cons, !decide_False by (intros E'; rewrite E' in Hlt; lia).
    rewrite of_sn_none; [done|]. intros q Hq E'. destruct (Hall q Hq) as [H|[H _]].
    + rewrite E' in H. lia.
    + rewrite H, E' in Hlt. lia.
  - rewrite filter_cons. case_decide.
    + cbn. f_equal. apply IH; [done|]. intros q Hq. apply Hso. set_solver.
    + apply IH; [done|]. done.
Qed.

(** Segments that follow each other from offset [n] to offset [m], none of them
    the last of its SDU. *)
Fixpoint chain (n : Z) (l : list nr_rlc_pdu_t) (m : Z) : Prop :=
  match l with
  | [] => n = m
  | p :: l => p_so p = n ∧ 0 < p_size p ∧ p_is_last p = false ∧ chain (n + p_size p) l m
  end.

Lemma chain_facts n l m :
  chain n l m → n <= m ∧ sumZ p_size l = m - n ∧ ∀ q, q ∈ l → p_so q < m.
Proof.
  revert n. induction l as [|p l IH]; intros n; cbn [chain].
  { intros ->. rewrite sumZ_nil. split_and!; [lia|lia|set_solver]. }
  intros (Hso & Hsz & _ & H). destruct (IH _ H) as (H1 & H2 & H3). rewrite sumZ_cons.
  split_and!; [lia|lia|]. intros q [->|Hq]%elem_of_cons; [lia|]. by apply H3.
Qed.

Lemma chain_snoc n l m p :
  chain n l m → p_so p = m → 0 < p_size p → p_is_last p = false → chain n (l ++ [p]) (m + p_size p).
Proof.
  revert n. induction l as [|q l IH]; intros n; cbn [chain app].
  { intros ->. done. }
  intros (? & ? & ? & ?) ???. split_and!; try done. by apply IH.
Qed.

(** A chain is not full; with the last segment after it, it is. *)
Lemma chain_not_full n l m : chain n l m → sdu_full_from (n - 1) l = false.
Proof.
  revert n. induction l as [|p l IH]; intros n; cbn [chain sdu_full_from]; [done|].
  intros (Hso & Hsz & -> & H). destruct (_ <? _); [done|].
  rewrite (proj2 (Z.ltb_lt _ _)) by lia. replace (p_so p + p_size p - 1) with (n + p_size p - 1) by lia.
  by apply IH.
Qed.

Lemma chain_full n l m p :
  chain n l m → p_so p = m → p_is_last p = true → sdu_full_from (n - 1) (l ++ [p]) = true.
Proof.
  revert n. induction l as [|q l IH]; intros n; cbn [chain sdu_full_from app].
  { intros -> -> ->. rewrite (proj2 (Z.ltb_ge _ _)) by lia. done. }
  intros (Hso & Hsz & -> & H) ??. rewrite (proj2 (Z.ltb_ge _ _)) by lia.
  rewrite (proj2 (Z.ltb_lt _ _)) by lia. replace (p_so q + p_size q - 1) with (n + p_size q - 1) by lia.
  by apply IH.
Qed.

(** The receiver has got the first [n] bytes of the SDU [d], sent under the SN
    [sn], and everything before it. *)
Record rx_inorder (d : bytes) (sn n : Z) (e : nr_rlc_entity_um_t) : Prop := {
  ro_wf : um_rx_wf (λ _, True) e;
  ro_sn : 0 <= sn < sn_modulus e;
  ro_rnr : rx_next_reassembly e = sn;
  ro_rnh : rx_next_highest e = if n =? 0 then sn else cmod (sn + 1) (sn_modulus e);
  ro_size : rx_size e = n;
  ro_old : ∀ p, p ∈ rx_list e → p_sn p ≠ sn → p_data p = None ∧ p_size p = 0;
  ro_cur : chain 0 (of_sn sn (rx_list e)) n;
  ro_gen : Forall (genuine d) (of_sn sn (rx_list e));
}.

Lemma ro_pos d sn n e :
  rx_inorder d sn n e →
  modulus_rx e sn = if n =? 0 then window_size e else window_size e - 1.
Proof.
  intros R. pose proof (ux_cfg _ _ (ro_wf _ _ _ _ R)) as C. destruct (um_cfg_bounds e C).
  pose proof (ro_rnh _ _ _ _ R) as Hh. pose proof (modulus_rx_highest e C) as Hm. rewrite Hh in Hm.
  destruct (n =? 0); [done|].
  pose proof (ux_rnr _ _ (ro_wf _ _ _ _ R)) as Hr. rewrite (ro_rnr _ _ _ _ R) in Hr.
  rewrite (modulus_rx_next e sn C (ro_sn _ _ _ _ R) Hr) in Hm. lia.
Qed.

(** At offset 0 nothing of the SDU is there yet. *)
Lemma ro_start d sn e : rx_inorder d sn 0 e → of_sn sn (rx_list e) = [].
Proof.
  intros R. pose proof (ro_cur _ _ _ _ R) as H. destruct (of_sn sn (rx_list e)) as [|p l]; [done|].
  cbn in H. destruct H as (? & ? & _ & H). apply chain_facts in H as (? & _). lia.
Qed.

(** Adding the next segment to the list. *)
Lemma ro_add d sn n e p s c :
  rx_inorder d sn n e → p_sn p = sn → p_so p = n → genuine d p →
  let e1 := e <| common := c |> <| rx_size := s |>
              <| rx_list := nr_rlc_pdu_list_add (sn_compare_rx e) (rx_list e) p |> in
  um_cfg e1 ∧
  of_sn sn (rx_list e1) = of_sn sn (rx_list e) ++ [p] ∧
  (∀ q, q ∈ rx_list e1 → p_sn q ≠ sn → p_data q = None ∧ p_size q = 0) ∧
  Forall (genuine d) (of_sn sn (rx_list e1)) ∧
  rx_core (λ _, True) (modulus_rx e1) (sn_modulus e1) (sn_modulus e1) (rx_list e1) ∧
  (n ≠ 0 → rx_core (λ _, True) (modulus_rx e1) (sn_modulus e1) (window_size e1) (rx_list e1)) ∧
  sdu_full e1 sn = sdu_full_from (-1) (of_sn sn (rx_list e) ++ [p]).
Proof.
  intros R Hsn Hso Hg e1. pose proof (ro_wf _ _ _ _ R) as W. destruct W as [C Hc Hr _].
  destruct (um_cfg_bounds e C) as [Hb Hm]. pose proof (ro_pos _ _ _ _ R) as Hpos.
  assert (um_cfg e1) as C1 by (destruct C; by split).
  assert (of_sn sn (rx_list e1) = of_sn sn (rx_list e) ++ [p]) as Hof.
  { rewrite <- Hsn. apply (of_sn_add_last (modulus_rx e)); [done|apply Hc|].
    rewrite Hsn. intros q Hq. pose proof (chain_facts _ _ _ (ro_cur _ _ _ _ R)) as (_ & _ & H).
    specialize (H q Hq). lia. }
  assert (∀ B, window_size e <= B → modulus_rx e (p_sn p) < B →
    rx_core (λ _, True) (modulus_rx e1) (sn_modulus e1) B (rx_list e1)) as Hc1.
  { intros B HB HpB. apply (rx_core_add _ (modulus_rx e)); try done.
    - intros a b. exact (modulus_rx_inj e a b C).
    - by apply (rx_core_weaken _ _ _ (window_size e)).
    - rewrite Hsn. apply R.
    - pose proof (modulus_rx_range e (p_sn p) C). rewrite Hsn in *. pose proof (ro_sn _ _ _ _ R). lia.
    - by apply (genuine_stored d). }
  split_and!; try done.
  - intros q Hq Hqs. apply (ro_old _ _ _ _ R); [|done].
    change (q ∈ nr_rlc_pdu_list_add (sn_compare_rx e) (rx_list e) p) in Hq.
    rewrite pdu_list_add_perm in Hq. apply elem_of_cons in Hq as [->|Hq]; done.
  - rewrite Hof. apply Forall_app. split; [apply R|by constructor].
  - apply Hc1; change (sn_modulus e1) with (sn_modulus e); [lia|]. rewrite Hsn, Hpos. destr_bool; lia.
  - intros Hn. apply Hc1; change (window_size e1) with (window_size e); [lia|].
    rewrite Hsn, Hpos. destr_bool; lia.
  - unfold sdu_full. rewrite (segments_of_sorted (modulus_rx e1)), Hof.
    2:{ apply (rc_sorted _ _ _ _ _ (Hc1 (sn_modulus e) ltac:(lia)
          ltac:(rewrite Hsn, Hpos; destr_bool; lia))). }
    assert (delivered (of_sn sn (rx_list e) ++ [p]) = false) as ->; [|done].
    pose proof (ro_gen _ _ _ _ R) as Hgen.
    destruct (of_sn sn (rx_list e)) as [|q l]; cbn.
    + destruct Hg as (_ & _ & _ & -> & _). done.
    + apply Forall_cons in Hgen as [(_ & _ & _ & -> & _) _]. done.
Qed.

(** The timer at the end of [reception_actions] changes nothing of this. *)
Lemma ro_timer d sn n e :
  um_rx_mid (λ _, True) e → 0 <= sn < sn_modulus e → rx_next_reassembly e = sn →
  rx_next_highest e = (if n =? 0 then sn else cmod (sn + 1) (sn_modulus e)) → rx_size e = n →
  (∀ p, p ∈ rx_list e → p_sn p ≠ sn → p_data p = None ∧ p_size p = 0) →
  chain 0 (of_sn sn (rx_list e)) n → Forall (genuine d) (of_sn sn (rx_list e)) →
  rx_inorder d sn n (reception_timer e).
Proof.
  intros Hmid Hsn Hr Hh Hs Hold Hch Hg.
  destruct (reception_timer_ok _ _ Hmid) as (W & Htx & _ & Hl & Hrh & Hrr & Hrs & _).
  assert (sn_modulus (reception_timer e) = sn_modulus e) as Hm by (unfold tx_view in Htx; congruence).
  split; rewrite ?Hl, ?Hrh, ?Hrr, ?Hrs, ?Hm; done.
Qed.

Lemma sumZ_zero (l : list nr_rlc_pdu_t) : (∀ p, p ∈ l → p_size p = 0) → sumZ p_size l = 0.
Proof.
  induction l as [|p l IH]; intros H; [done|]. rewrite sumZ_cons, H, IH by set_solver. done.
Qed.

(** First segment of an SDU. *)
Lemma ro_first d sn e p c :
  rx_inorder d sn 0 e → p_sn p = sn → p_so p = 0 → genuine d p → p_is_last p = false →
  returns (reception_actions (e <| common := c |> <| rx_size := rx_size e + p_size p |>
      <| rx_list := nr_rlc_pdu_list_add (sn_compare_rx e) (rx_list e) p |>) p) (λ e',
    rx_inorder d sn (p_size p) e' ∧ events (common e') = events c ∧
    tx_view e' = tx_view (e <| common := c |>)).
Proof.
  intros R Hsn Hso Hg Hla.
  destruct (ro_add d sn 0 e p (rx_size e + p_size p) c R Hsn Hso Hg)
    as (C1 & Hof & Hold & Hgen & Hc1 & _ & Hfull).
  set (e1 := e <| common := c |> <| rx_size := _ |> <| rx_list := _ |>) in *.
  rewrite (ro_start d sn e R) in Hof, Hfull. cbn [app] in Hof, Hfull.
  pose proof (ro_pos _ _ _ _ R) as Hpos. cbn in Hpos. pose proof Hg as (_ & Hsz & _).
  assert (chain 0 [p] (p_size p)) as Hch by (cbn; split_and!; (done || lia)).
  destruct (um_cfg_bounds e1 C1) as [Hb Hm].
  assert (modulus_rx e1 sn = window_size e1) as Hpos1 by exact Hpos.
  destruct (reception_update_beyond (λ _, True) e1 sn) as
    (e2 & Hu & Hmid & Htx & Hev & Hh2 & Hr2 & pre & Hl2 & Hs2 & Hpre); try done.
  { apply R. } { lia. }
  { intros q Hq. rewrite Hpos1. destruct (decide (p_sn q = sn)) as [-> |Hne]; [lia|].
    assert (q ∈ rx_list e) as Hqe.
    { change (q ∈ nr_rlc_pdu_list_add (sn_compare_rx e) (rx_list e) p) in Hq.
      rewrite pdu_list_add_perm in Hq. apply elem_of_cons in Hq as [->|Hq]; done. }
    destruct (rc_in _ _ _ _ _ (ux_core _ _ (ro_wf _ _ _ _ R)) q Hqe) as [_ Hq'].
    change (modulus_rx e1 (p_sn q)) with (modulus_rx e (p_sn q)).
    change (window_size e1) with (window_size e). lia. }
  { change (modulus_rx e1 (rx_next_reassembly e1)) with (modulus_rx e (rx_next_reassembly e)). apply R. }
  { rewrite Hfull. apply (chain_not_full 0 [p] (p_size p) Hch). }
  unfold reception_actions. rewrite Hsn, Hu. cbn [mbind outcome_bind]. apply returns_ok.
  assert (sn_modulus e2 = sn_modulus e1) as Hm2 by (unfold tx_view in Htx; congruence).
  assert (∀ q, q ∈ pre → p_sn q ≠ sn) as Hpn.
  { intros q Hq E. specialize (Hpre q Hq). rewrite E in Hpre. lia. }
  assert (of_sn sn (rx_list e2) = [p]) as Hof2.
  { rewrite <- Hof, Hl2, filter_app, (of_sn_none sn pre) by done. done. }
  destruct (reception_timer_ok _ _ Hmid) as (_ & Htx' & Hcom & _).
  rewrite Htx', Hcom, Htx, Hev. split_and!; try done.
  apply ro_timer; rewrite ?Hof2, ?Hm2; try done.
  - apply R.
  - rewrite Hr2; [apply R|]. change (rx_next_reassembly e1) with (rx_next_reassembly e).
    rewrite (ro_rnr _ _ _ _ R). lia.
  - rewrite Hh2. destruct (Z.eqb_spec (p_size p) 0); [lia|done].
  - rewrite Hs2, sumZ_zero.
    + cbn. rewrite (ro_size _ _ _ _ R). lia.
    + intros q Hq. apply Hold; [rewrite Hl2; set_solver|by apply Hpn].
  - intros q Hq. apply Hold. rewrite Hl2. set_solver.
  - by rewrite <- Hof.
Qed.

(** A middle segment. *)
Lemma ro_middle d sn n e p c :
  rx_inorder d sn n e → n ≠ 0 → p_sn p = sn → p_so p = n → genuine d p → p_is_last p = false →
  returns (reception_actions (e <| common := c |> <| rx_size := rx_size e + p_size p |>
      <| rx_list := nr_rlc_pdu_list_add (sn_compare_rx e) (rx_list e) p |>) p) (λ e',
    rx_inorder d sn (n + p_size p) e' ∧ events (common e') = events c ∧
    tx_view e' = tx_view (e <| common := c |>)).
Proof.
  intros R Hn Hsn Hso Hg Hla.
  destruct (ro_add d sn n e p (rx_size e + p_size p) c R Hsn Hso Hg)
    as (C1 & Hof & Hold & Hgen & _ & Hc1 & Hfull).
  set (e1 := e <| common := c |> <| rx_size := _ |> <| rx_list := _ |>) in *.
  pose proof (ro_pos _ _ _ _ R) as Hpos. pose proof Hg as (H0 & Hsz & _).
  rewrite (proj2 (Z.eqb_neq n 0)) in Hpos by done.
  assert (chain 0 (of_sn sn (rx_list e1)) (n + p_size p)) as Hch.
  { rewrite Hof. apply chain_snoc; try done. apply R. }
  unfold reception_actions, reception_update. rewrite Hsn, Hfull, <- Hof.
  pose proof (chain_not_full 0 _ _ Hch) as Hnf. change (0 - 1) with (-1) in Hnf. rewrite Hnf.
  unfold sn_compare_rx.
  change (modulus_rx e1 sn) with (modulus_rx e sn).
  rewrite modulus_rx_highest by done. change (window_size e1) with (window_size e).
  rewrite (proj2 (Z.leb_gt _ _)) by lia. cbn [mbind outcome_bind]. apply returns_ok.
  assert (um_rx_mid (λ _, True) e1) as Hmid.
  { split_and!; [done|by apply Hc1|]. change (modulus_rx e1) with (modulus_rx e). apply R. }
  destruct (reception_timer_ok _ _ Hmid) as (_ & Htx' & Hcom & _). rewrite Htx', Hcom.
  split_and!; try done. apply ro_timer; try done.
  - apply R.
  - apply R.
  - change (rx_next_highest e1) with (rx_next_highest e). rewrite (ro_rnh _ _ _ _ R).
    rewrite !(proj2 (Z.eqb_neq _ 0)) by lia. done.
  - cbn. rewrite (ro_size _ _ _ _ R). lia.
Qed.

(** The last segment: the SDU is complete and delivered. *)
Lemma ro_last d sn n e p c :
  rx_inorder d sn n e → n ≠ 0 → p_sn p = sn → p_so p = n → genuine d p → p_is_last p = true →
  zlen d <= NR_SDU_MAX →
  returns (reception_actions (e <| common := c |> <| rx_size := rx_size e + p_size p |>
      <| rx_list := nr_rlc_pdu_list_add (sn_compare_rx e) (rx_list e) p |>) p) (λ e',
    (∀ d', rx_inorder d' (cmod (sn + 1) (sn_modulus e)) 0 e') ∧
    events (common e') = events c ++ [deliver_sdu d] ∧
    tx_view e' = tx_view (e <| common := c |>)).
Proof.
  intros R Hn Hsn Hso Hg Hla Hmax.
  destruct (ro_add d sn n e p (rx_size e + p_size p) c R Hsn Hso Hg)
    as (C1 & Hof & Hold & Hgen & _ & Hc1 & Hfull).
  set (e1 := e <| common := c |> <| rx_size := _ |> <| rx_list := _ |>) in *.
  pose proof (ro_pos _ _ _ _ R) as Hpos. rewrite (proj2 (Z.eqb_neq n 0)) in Hpos by done.
  destruct (chain_facts _ _ _ (ro_cur _ _ _ _ R)) as (_ & Hsum & _).
  pose proof (chain_full 0 _ _ p (ro_cur _ _ _ _ R) Hso Hla) as Hfl. change (0 - 1) with (-1) in Hfl.
  rewrite Hfl in Hfull. rewrite <- Hof in Hfl. pose proof (zlen_nonneg d).
  pose proof (full_reassembles d 0 _ Hgen ltac:(lia) Hmax Hfl) as Hreas.
  assert (um_rx_mid (λ _, True) e1) as Hmid1.
  { split_and!; [done|by apply Hc1|]. change (modulus_rx e1) with (modulus_rx e). apply R. }
  destruct (reception_update_full _ _ _ Hmid1 Hfull) as
    (e2 & Hu & Hmid & Htx & Hl2 & Hs2 & Hh2 & Hr2 & r & Hr & Hev & _).
  change (take (Z.to_nat 0) d) with (@nil Z) in Hreas. rewrite Hreas in Hr. injection Hr as <-.
  cbn [ra_bad ra_sdu] in Hev.
  unfold reception_actions. rewrite Hsn, Hu. cbn [mbind outcome_bind]. apply returns_ok.
  destruct (reception_timer_ok _ _ Hmid) as (_ & Htx' & Hcom & _).
  rewrite Htx', Hcom, Htx. split_and!; try done. intros d'.
  destruct Hmid as (C2 & Hc2 & Hrnr2). pose proof (ux_cfg _ _ (ro_wf _ _ _ _ R)) as C.
  pose proof (um_cfg_bounds e C) as [Hb HM].
  assert (sn_modulus e2 = sn_modulus e ∧ window_size e2 = window_size e) as [HM2 HW2].
  { unfold tx_view in Htx. split; [change (sn_modulus e) with (sn_modulus e1)|
      change (window_size e) with (window_size e1)]; congruence. }
  assert (∀ a, modulus_rx e2 a = modulus_rx e a) as Hmr.
  { intros a. by apply modulus_rx_ext. }
  set (sn' := cmod (sn + 1) (sn_modulus e)).
  pose proof (ro_sn _ _ _ _ R) as Hsnr.
  assert (0 <= sn' < sn_modulus e) as Hsn' by (apply cmod_range; lia).
  assert (rx_next_highest e2 = sn') as Hh2'.
  { rewrite Hh2. change (rx_next_highest e1) with (rx_next_highest e).
    rewrite (ro_rnh _ _ _ _ R), (proj2 (Z.eqb_neq n 0)) by done. done. }
  pose proof (modulus_rx_highest e2 C2) as Hd'. rewrite Hh2', Hmr, HW2 in Hd'.
  assert (rx_next_reassembly e2 = sn') as Hr2'.
  { destruct Hr2 as [Hnd Hge]; [symmetry; apply R|].
    change (modulus_rx e1) with (modulus_rx e) in Hge.
    pose proof (uc_rnr _ C2) as Hrng. rewrite HM2 in Hrng. rewrite Hmr, HW2 in Hrnr2.
    apply (modulus_rx_inj e); try done. rewrite Hd'.
    destruct (Z.eq_dec (modulus_rx e (rx_next_reassembly e2)) (window_size e - 1)) as [E|E]; [|lia].
    exfalso. assert (rx_next_reassembly e2 = sn) as Es by (apply (modulus_rx_inj e); (done || lia)).
    rewrite Es, (sdu_delivered_sorted (modulus_rx e2)), Hl2, of_sn_release, decide_True, Hof in Hnd
      by (done || apply Hc2).
    by destruct (of_sn sn (rx_list e)). }
  assert (of_sn sn' (rx_list e2) = []) as Hnone.
  { apply of_sn_none. intros q Hq E. destruct (rc_in _ _ _ _ _ Hc2 q Hq) as [_ Hq'].
    rewrite E, Hmr, Hd', HW2 in Hq'. lia. }
  apply ro_timer; rewrite ?Hnone, ?HM2; try done.
  - rewrite Hs2, Hof, sumZ_app, sumZ_cons, sumZ_nil, Hsum. cbn. rewrite (ro_size _ _ _ _ R). lia.
  - intros q Hq _. rewrite Hl2 in Hq. apply list_elem_of_fmap in Hq as (q0 & -> & Hq0).
    destruct (Z.eqb_spec (p_sn q0) sn); [done|]. by apply Hold.
Qed.

(** ** The link *)

Inductive link_op :=
| LinkSdu (now : Z) (buffer : bytes) (size sdu_id : Z)
| LinkGrant (now : Z) (buffer : bytes) (size : Z).

(** SDUs fit their buffer and [NR_SDU_MAX]; MAC gives a buffer as large as the
    grant, and with a 12-bit SN no grant of exactly two bytes. *)
Definition link_op_ok (len : Z) (op : link_op) : Prop :=
  match op with
  | LinkSdu _ buffer size _ => 0 < size <= zlen buffer ∧ size <= NR_SDU_MAX
  | LinkGrant _ buffer size =>
      0 <= size <= zlen buffer ∧ Forall is_byte buffer ∧ (len = 6 ∨ size ≠ 2)
  end.

(** An SDU goes to the transmitter; a grant makes the transmitter generate a PDU,
    which the receiver gets. The third component is the SDU accepted, if any. *)
Definition link_exec (tx rx : nr_rlc_entity_um_t) (op : link_op)
  : outcome (nr_rlc_entity_um_t * nr_rlc_entity_um_t * list bytes) :=
  match op with
  | LinkSdu now buffer size id =>
      tx' ← nr_rlc_entity_um_recv_sdu now tx buffer size id;
      Ok (tx', rx, if tx_maxsize tx <? tx_size tx + size then [] else [take (Z.to_nat size) buffer])
  | LinkGrant now buffer size =>
      '(ret, buffer, tx) ← nr_rlc_entity_um_generate_pdu now tx buffer size;
      if 0 <? ret then rx ← nr_rlc_entity_um_recv_pdu rx buffer ret; Ok (tx, rx, [])
      else Ok (tx, rx, [])
  end.

Fixpoint link_run (tx rx : nr_rlc_entity_um_t) (ops : list link_op)
  : outcome (nr_rlc_entity_um_t * nr_rlc_entity_um_t * list bytes) :=
  match ops with
  | [] => Ok (tx, rx, [])
  | op :: ops =>
      '(tx, rx, a) ← link_exec tx rx op;
      '(tx, rx, a') ← link_run tx rx ops;
      Ok (tx, rx, a ++ a')
  end.

(** Both ends agree on the SDU being sent. *)
Record linked (tx rx : nr_rlc_entity_um_t) : Prop := {
  lk_tx : um_tx_wf tx;
  lk_len : sn_field_length rx = sn_field_length tx;
  lk_max : NR_SDU_MAX <= rx_maxsize rx;
  lk_rx : rx_inorder (hd [] (um_sdus tx)) (tx_next tx) (um_off tx) rx;
}.

Lemma ro_any d d' sn e : rx_inorder d sn 0 e → rx_inorder d' sn 0 e.
Proof.
  intros R. pose proof (ro_start _ _ _ R) as Hs. destruct R. split; try done. by rewrite Hs.
Qed.

Lemma um_sdus_max e d : um_tx_wf e → d ∈ um_sdus e → zlen d <= NR_SDU_MAX.
Proof.
  intros W. unfold um_sdus. intros (g & -> & Hg)%list_elem_of_fmap.
  destruct (ut_seg _ W g Hg) as (_ & _ & _ & Hm & _).
  destruct (hw_live _ _ (ut_heap _ W) g Hg) as (s & Hs & _).
  rewrite (sdu_of_lookup _ _ _ Hs) in *. by rewrite (hw_data _ _ (ut_heap _ W) _ _ Hs).
Qed.

(** The receiver's modulus. *)
Lemma linked_mod tx rx : linked tx rx → sn_modulus rx = sn_modulus tx.
Proof.
  intros L. rewrite (uc_mod _ (ux_cfg _ _ (ro_wf _ _ _ _ (lk_rx _ _ L)))), (lk_len _ _ L).
  symmetry. apply (ut_mod _ (lk_tx _ _ L)).
Qed.

(** One PDU through the channel. *)
Lemma link_pdu tx tx' rx size ret buffer d q :
  linked tx rx → um_tx_wf tx' → rx_view tx' = rx_view tx → um_sdus tx = d :: q →
  um_sent tx tx' size ret (take (Z.to_nat ret) buffer) d q → ret <= zlen buffer →
  returns (nr_rlc_entity_um_recv_pdu rx buffer ret) (λ rx',
    linked tx' rx' ∧ ∃ ds, events (common rx') = events (common rx) ++ (deliver_sdu <$> ds) ∧
                           d :: q = ds ++ um_sdus tx').
Proof.
  intros L W' Hv Hq (k & Hk & Hkd & Hret & Hpl & Hpdu & Hres) Hb.
  pose proof (lk_tx _ _ L) as W. pose proof (lk_rx _ _ L) as R. rewrite Hq in R. cbn [hd] in R.
  assert (0 <= um_off tx) as Hoff.
  { unfold um_off. destruct (tx_list tx) as [|g l] eqn:E; [lia|].
    destruct (ut_seg _ W g) as (_ & H & _); [rewrite E; set_solver|done]. }
  assert (zlen d <= NR_SDU_MAX) as Hdm by (apply (um_sdus_max tx); [done|rewrite Hq; set_solver]).
  unfold NR_SDU_MAX in *.
  pose proof (linked_mod _ _ L) as HM. pose proof (ut_next _ W) as Hnx. rewrite (ut_mod _ W) in Hnx.
  assert (0 <= um_off tx < 2 ^ 16) as Hso by lia.
  destruct (um_pdu_read _ _ _ _ _ _ _ _ _ (ut_len _ W) Hnx Hso
    (proj1 (Z.eqb_eq (um_off tx) 0)) Hpdu eq_refl Hpl) as (Hwhole & Hseg & Hall).
  assert (zlen (take (Z.to_nat k) (drop (Z.to_nat (um_off tx)) d)) = k) as Hkl.
  { rewrite zlen_take; [done|]. rewrite zlen_drop; lia. }
  rewrite Hkl in Hseg, Hall. rewrite <- (lk_len _ _ L) in Hseg.
  assert (sn_field_length tx' = sn_field_length tx) as Hlen' by (unfold rx_view in Hv; congruence).
  set (f := um_off tx =? 0) in *. set (l := um_off tx + k =? zlen d) in *.
  destruct (f && l) eqn:Hfl.
  - (* a whole SDU *)
    apply andb_true_iff in Hfl as [Hf Hl]. destruct (Hall eq_refl) as [-> Hdat].
    destruct (recv_pdu_cases rx buffer (1 + k)) as [[[Hrej _] _]|[(_ & _ & ->)|(Hw & _)]].
    { rewrite (lk_len _ _ L). apply W. } { lia. } { specialize (Hrej Hwhole). lia. } 2:{ congruence. }
    apply returns_ok. rewrite Hl, Hf in Hres. destruct Hres as (Hq' & Ho' & Hn').
    apply Z.eqb_eq in Hf, Hl. split.
    + split; cbn; [done|by rewrite Hlen', (lk_len _ _ L)|apply L|].
      rewrite Ho', Hn'. rewrite Hf in R. apply (ro_any d).
      destruct R as [Rw ? ? ? ? ? ? ?]. split; try done.
      eapply (um_rx_wf_frame _ _ _ (rx_size rx)) in Rw. exact Rw.
    + exists [d]. cbn. rewrite Hq', Hdat. split; [|done]. do 3 f_equal.
      rewrite Hf, drop_0. apply take_ge. unfold zlen in *. lia.
  - (* a segment *)
    specialize (Hseg eq_refl). set (p := mk_pdu _ _ _ _ _ _) in Hseg.
    assert (genuine d p) as Hg by (split_and!; cbn; (done || lia)).
    rewrite (um_recv_segment rx buffer ret p (ro_wf _ _ _ _ R)); try done; try lia.
    2:{ by apply (genuine_stored d). }
    2:{ cbn. unfold f. by intros ?%Z.eqb_neq. }
    2:{ cbn. rewrite (ro_size _ _ _ _ R). pose proof (lk_max _ _ L). unfold NR_SDU_MAX in *. lia. }
    2:{ unfold sn_compare_rx. cbn. rewrite (ro_rnr _ _ _ _ R). lia. }
    set (c := on_stats _ (common rx)) || set (c := common (counted rx ret)).
    assert (∀ rx', tx_view rx' = tx_view (rx <| common := c |>) →
      sn_field_length rx' = sn_field_length rx ∧ rx_maxsize rx' = rx_maxsize rx) as Htv.
    { intros rx' E. unfold tx_view in E. cbn in E. split; congruence. }
    destruct l eqn:El.
    + assert (um_off tx ≠ 0) as Hoff0.
      { intros E. unfold f in Hfl. rewrite E in Hfl. done. }
      eapply returns_mono; [apply (ro_last d (tx_next tx) (um_off tx) rx p c R); try done|].
      intros rx' (R' & Hev & Htx'). destruct (Htv rx' Htx') as [Hl1 Hl2].
      destruct Hres as (Hq' & Ho' & Hn'). unfold f in Hn'. rewrite (proj2 (Z.eqb_neq _ _)) in Hn' by done.
      split; [|exists [d]; by rewrite Hq'].
      split; [done|by rewrite Hl1, Hlen', (lk_len _ _ L)|rewrite Hl2; apply L|].
      rewrite Ho', Hn', <- HM. apply R'.
    + assert (returns (reception_actions (rx <| common := c |> <| rx_size := rx_size rx + p_size p |>
        <| rx_list := nr_rlc_pdu_list_add (sn_compare_rx rx) (rx_list rx) p |>) p) (λ e',
        rx_inorder d (tx_next tx) (um_off tx + p_size p) e' ∧ events (common e') = events c ∧
        tx_view e' = tx_view (rx <| common := c |>))) as Hstep.
      { destruct (Z.eq_dec (um_off tx) 0) as [E|E].
        - rewrite E in *. apply ro_first; done.
        - by apply ro_middle. }
      eapply returns_mono; [exact Hstep|]. intros rx' (R' & Hev & Htx').
      destruct (Htv rx' Htx') as [Hl1 Hl2]. destruct Hres as (Hq' & Ho' & Hn' & _).
      split; [|exists []; rewrite app_nil_r; by rewrite Hq'].
      split; [done|by rewrite Hl1, Hlen', (lk_len _ _ L)|rewrite Hl2; apply L|].
      rewrite Ho', Hn', Hq'. exact R'.
Qed.

(** The bytes accepted and not sent yet. *)
Definition pending (tx : nr_rlc_entity_um_t) : Z := sumZ zlen (um_sdus tx) - um_off tx.

Definition is_grant (op : link_op) : Z :=
  match op with LinkGrant _ _ size => if 5 <=? size then 1 else 0 | _ => 0 end.
Definition sdu_bytes (op : link_op) : Z :=
  match op with LinkSdu _ _ size _ => size | _ => 0 end.

Lemma link_exec_ok tx rx op :
  linked tx rx → link_op_ok (sn_field_length tx) op →
  returns (link_exec tx rx op) (λ '(tx', rx', a),
    linked tx' rx' ∧ sn_field_length tx' = sn_field_length tx ∧
    (pending tx' <= Z.max 0 (pending tx - is_grant op) + sdu_bytes op) ∧
    ∃ ds, events (common rx') = events (common rx) ++ (deliver_sdu <$> ds) ∧
          um_sdus tx ++ a = ds ++ um_sdus tx').
Proof.
  intros L Hop. pose proof (lk_tx _ _ L) as W. destruct op as [now b size id|now b size];
    cbn [link_exec is_grant sdu_bytes].
  - destruct Hop as [Hs Hmax].
    destruct (um_recv_sdu_ok now tx b size id W Hs Hmax) as (tx' & -> & W' & Hv & _ & Hn & Ho & Hq).
    cbn [mbind outcome_bind]. apply returns_ok.
    assert (sn_field_length tx' = sn_field_length tx) as Hlen' by (unfold rx_view in Hv; congruence).
    assert (0 <= sumZ zlen (um_sdus tx)) as Hnn by (apply sumZ_nonneg; intros; apply zlen_nonneg).
    split_and!; [|done| |].
    + split; [done|by rewrite Hlen', (lk_len _ _ L)|apply L|]. rewrite Hn, Ho.
      pose proof (lk_rx _ _ L) as R. rewrite Hq. destruct (_ <? _); [done|].
      destruct (um_sdus tx) as [|d q] eqn:E; [|done].
      assert (um_off tx = 0) as E0.
      { unfold um_sdus in E. apply fmap_nil_inv in E. unfold um_off. by rewrite E. }
      rewrite E0 in *. by apply (ro_any []).
    + unfold pending. rewrite Hq, Ho. destruct (_ <? _); [lia|].
      rewrite sumZ_app, sumZ_cons, sumZ_nil, zlen_take by lia. lia.
    + exists []. rewrite app_nil_r, Hq. split; [done|]. by destruct (_ <? _); rewrite ?app_nil_r.
  - destruct Hop as (Hs & HF & Hg).
    destruct (um_generate_ok now tx b size W Hs HF Hg) as ([[ret b'] tx'] & -> & Hbl & W' & Hv & _ & Hsent).
    cbn [mbind outcome_bind].
    assert (sn_field_length tx' = sn_field_length tx) as Hlen' by (unfold rx_view in Hv; congruence).
    destruct (um_sdus tx) as [|d q] eqn:Eq; [destruct Hsent as [-> ->]|destruct Hsent as [(-> & -> & Hsz)|Hsent]].
    + apply returns_ok. rewrite Eq. split_and!; [done..| |by exists []; rewrite app_nil_r].
      assert (pending tx = 0); [|destruct (5 <=? size); lia].
      unfold pending. rewrite Eq, sumZ_nil. unfold um_sdus in Eq. apply fmap_nil_inv in Eq.
      unfold um_off. by rewrite Eq.
    + apply returns_ok. rewrite Eq. split_and!; [done..| |by exists []; cbn; rewrite !app_nil_r].
      rewrite (proj2 (Z.leb_gt _ _)) by lia. lia.
    + pose proof Hsent as (k & Hk & Hkd & Hret & _ & _ & Hres). rewrite (proj2 (Z.ltb_lt 0 ret)) by lia.
      eapply returns_bind; [apply (link_pdu tx tx' rx size ret b' d q); try done; lia|].
      intros rx' (L' & ds & Hev & Hds). apply returns_ok. rewrite app_nil_r. split_and!; [done|done| |by exists ds].
      assert (pending tx' = pending tx - k) as ->.
      { unfold pending. rewrite Eq, sumZ_cons. destruct (Z.eqb_spec (um_off tx + k) (zlen d)).
        - destruct Hres as (-> & -> & _). lia.
        - destruct Hres as (-> & -> & _). rewrite sumZ_cons. lia. }
      destruct (5 <=? size); lia.
Qed.

Lemma link_run_ok tx rx ops :
  linked tx rx → Forall (link_op_ok (sn_field_length tx)) ops →
  returns (link_run tx rx ops) (λ '(tx', rx', a),
    linked tx' rx' ∧
    ∃ ds, events (common rx') = events (common rx) ++ (deliver_sdu <$> ds) ∧
          um_sdus tx ++ a = ds ++ um_sdus tx').
Proof.
  intros L Hops. revert tx rx L Hops. induction ops as [|op ops IH]; intros tx rx L Hops; cbn [link_run].
  { apply returns_ok. split; [done|]. exists []. by rewrite !app_nil_r. }
  apply Forall_cons in Hops as [Hop Hops].
  eapply returns_bind; [by apply link_exec_ok|].
  intros [[tx1 rx1] a1] (L1 & Hlen & _ & ds1 & Hev1 & Hq1). rewrite <- Hlen in Hops.
  eapply returns_bind; [by apply IH|]. intros [[tx2 rx2] a2] (L2 & ds2 & Hev2 & Hq2).
  apply returns_ok. split; [done|]. exists (ds1 ++ ds2).
  rewrite Hev2, Hev1, fmap_app, <- !app_assoc. split; [done|].
  by rewrite app_assoc, Hq1, <- app_assoc, Hq2.
Qed.

(** Enough large grants empty the queue. *)
Lemma link_drain_ok tx rx ops :
  linked tx rx → Forall (link_op_ok (sn_field_length tx)) ops →
  Forall (λ op, is_grant op = 1) ops → pending tx <= zlen ops →
  returns (link_run tx rx ops) (λ '(tx', rx', a), pending tx' <= 0).
Proof.
  intros L Hops. revert tx rx L Hops. induction ops as [|op ops IH]; intros tx rx L Hops Hg Hp; cbn [link_run].
  { apply returns_ok. exact Hp. }
  apply Forall_cons in Hops as [Hop Hops]. apply Forall_cons in Hg as [Hg1 Hg].
  eapply returns_bind; [by apply link_exec_ok|].
  intros [[tx1 rx1] a1] (L1 & Hlen & Hpend & _). rewrite <- Hlen in Hops. rewrite Hg1 in Hpend.
  rewrite zlen_cons in Hp. pose proof (zlen_nonneg ops).
  eapply returns_bind; [apply (IH tx1 rx1 L1 Hops Hg)|].
  - destruct op; cbn in *; [done|]. lia.
  - intros [[tx2 rx2] a2] H2. by apply returns_ok.
Qed.

Lemma pending_zero tx : um_tx_wf tx → pending tx <= 0 → um_sdus tx = [].
Proof.
  intros W Hp. unfold pending, um_sdus, um_off in *. destruct (tx_list tx) as [|g l] eqn:E; [done|].
  exfalso. rewrite fmap_cons, sumZ_cons in Hp.
  destruct (ut_seg _ W g) as (Hsz & _ & Hend & _); [rewrite E; set_solver|].
  destruct (hw_live _ _ (ut_heap _ W) g) as (s & Hs & _); [rewrite E; set_solver|].
  rewrite (sdu_of_lookup _ _ _ Hs) in *. rewrite (hw_data _ _ (ut_heap _ W) _ _ Hs) in Hp.
  assert (0 <= sumZ zlen ((λ g, s_data (sdu_of (heap tx) g)) <$> l))
    by (apply sumZ_nonneg; intros; apply zlen_nonneg). lia.
Qed.

Lemma new_linked len rxm1 txm1 t1 rxm2 txm2 t2 :
  len = 6 ∨ len = 12 → 0 <= txm1 → NR_SDU_MAX <= rxm2 →
  ∃ tx rx, new_nr_rlc_entity_um rxm1 txm1 t1 len = Ok tx ∧
    new_nr_rlc_entity_um rxm2 txm2 t2 len = Ok rx ∧ linked tx rx ∧ um_sdus tx = [] ∧
    events (common rx) = [] ∧ sn_field_length tx = len.
Proof.
  intros Hlen Hm Hr. destruct (um_new_tx_ok rxm1 txm1 t1 len Hlen Hm) as
    (tx & Etx & W & Hq & Ho & Hn & Hl & _).
  destruct (um_new_ok rxm2 txm2 t2 len Hlen) as (rx & Erx & Wr & Hl' & Hev & _ & _ & _ & _ & _ & _ & Hrm & _
    & _ & Hrl & Hh & Hrr & Hrs).
  exists tx, rx. split_and!; try done. split; [done|congruence|by rewrite Hrm|].
  rewrite Ho, Hn. pose proof (ux_cfg _ _ (Wr (λ _, True))) as C. destruct (um_cfg_bounds _ C).
  split; rewrite ?Hrl; try done; try apply Wr.
  - lia.
  - intros p Hp. by apply not_elem_of_nil in Hp.
Qed.

(** C2: unacknowledged mode delivers every SDU, once, in order. A transmitting
    and a receiving entity with the same SN length are joined by a channel that
    neither loses nor reorders. For every sequence of SDUs and of grants of any
    size (with a 12-bit SN: other than two bytes), nothing faults, and at the end
    the SDUs accepted are exactly those delivered, in order, followed by those
    still queued. *)
Theorem um_link_delivers len rxm1 txm1 t1 rxm2 txm2 t2 ops :
  len = 6 ∨ len = 12 → 0 <= txm1 → NR_SDU_MAX <= rxm2 → Forall (link_op_ok len) ops →
  returns (tx ← new_nr_rlc_entity_um rxm1 txm1 t1 len;
           rx ← new_nr_rlc_entity_um rxm2 txm2 t2 len; link_run tx rx ops) (λ '(tx, rx, accepted),
    linked tx rx ∧ ∃ delivered, events (common rx) = deliver_sdu <$> delivered ∧
                                accepted = delivered ++ um_sdus tx).
Proof.
  intros Hlen Hm Hr Hops. destruct (new_linked len rxm1 txm1 t1 rxm2 txm2 t2 Hlen Hm Hr)
    as (tx & rx & -> & -> & L & Hq & Hev & Hl).
  cbn [mbind outcome_bind]. rewrite <- Hl in Hops.
  eapply returns_mono; [by apply link_run_ok|]. intros [[tx' rx'] a] (L' & ds & Hev' & Hds).
  split; [done|]. exists ds. rewrite Hev in Hev'. rewrite Hq in Hds. done.
Qed.

Lemma um_link_delivers_witness :
  let ops := [LinkSdu 0 [1; 2; 3; 4; 5; 6; 7; 8] 8 0; LinkGrant 0 (replicate 5 0) 5; LinkSdu 0 [9] 1 1;
              LinkGrant 0 (replicate 6 0) 6; LinkGrant 0 (replicate 9 0) 9;
              LinkGrant 0 (replicate 9 0) 9] in
  Forall (link_op_ok 12) ops ∧
  returns (tx ← new_nr_rlc_entity_um 20000 1000 10 12; rx ← new_nr_rlc_entity_um 20000 1000 10 12;
           link_run tx rx ops) (λ '(tx, rx, accepted),
    linked tx rx ∧ ∃ delivered, events (common rx) = deliver_sdu <$> delivered ∧
                                accepted = delivered ++ um_sdus tx) ∧
  match tx ← new_nr_rlc_entity_um 20000 1000 10 12; rx ← new_nr_rlc_entity_um 20000 1000 10 12;
        link_run tx rx ops with
  | Ok (_, rx, _) => events (common rx) = [deliver_sdu [1; 2; 3; 4; 5; 6; 7; 8]; deliver_sdu [9]]
  | _ => False
  end.
Proof.
  intros ops. assert (Forall (link_op_ok 12) ops) as Hops.
  { repeat constructor; try (vm_compute; intuition congruence); cbn; lia. }
  split; [exact Hops|]. split.
  - apply (um_link_delivers 12 20000 1000 10 20000 1000 10 ops);
      [by right|lia|vm_compute; congruence|exact Hops].
  - vm_compute. reflexivity.
Defined.

(** C24: unacknowledged mode makes progress. From any linked state, as many grants
    of five bytes or more as there are bytes waiting send everything: the queue is
    empty at the end and all SDUs that were waiting have been delivered. *)
Theorem um_link_drains tx rx ops :
  linked tx rx → Forall (link_op_ok (sn_field_length tx)) ops →
  Forall (λ op, is_grant op = 1) ops → pending tx <= zlen ops →
  returns (link_run tx rx ops) (λ '(tx', rx', a),
    um_sdus tx' = [] ∧ events (common rx') = events (common rx) ++ (deliver_sdu <$> um_sdus tx ++ a)).
Proof.
  intros L Hops Hg Hp. destruct (link_drain_ok tx rx ops L Hops Hg Hp) as ([[tx' rx'] a] & E & Hz).
  destruct (link_run_ok tx rx ops L Hops) as ([[tx2 rx2] a2] & E2 & L' & ds & Hev & Hds).
  rewrite E in E2. injection E2 as <- <- <-. rewrite E. apply returns_ok.
  pose proof (pending_zero _ (lk_tx _ _ L') Hz) as Hnil. rewrite Hnil, app_nil_r in Hds.
  by rewrite Hds.
Qed.

(** Two SDUs are waiting, the first in part; eleven bytes, eleven grants. *)
Lemma um_link_drains_witness :
  returns (tx ← new_nr_rlc_entity_um 20000 1000 10 12; rx ← new_nr_rlc_entity_um 20000 1000 10 12;
           link_run tx rx [LinkSdu 0 [1; 2; 3; 4; 5; 6; 7; 8] 8 0; LinkGrant 0 (replicate 5 0) 5;
                           LinkSdu 0 [9; 10; 11; 12; 13; 14] 6 1]) (λ '(tx, rx, _),
    (um_sdus tx = [[1; 2; 3; 4; 5; 6; 7; 8]; [9; 10; 11; 12; 13; 14]] ∧ pending tx = 11 ∧
     events (common rx) = []) ∧
    returns (link_run tx rx (replicate 11 (LinkGrant 0 (replicate 6 0) 6))) (λ '(tx', rx', a),
      um_sdus tx' = [] ∧
      events (common rx') = events (common rx) ++ (deliver_sdu <$> um_sdus tx ++ a))).
Proof.
  assert (Forall (link_op_ok 12) (replicate 11 (LinkGrant 0 (replicate 6 0) 6))) as Hg.
  { apply Forall_replicate. split; [vm_compute; split; congruence|split; [|by right]]. repeat constructor; (vm_compute; congruence). }
  destruct (new_linked 12 20000 1000 10 20000 1000 10) as (tx & rx & Etx & Erx & L & _ & _ & Hl);
    [by right|lia|vm_compute; congruence|].
  set (ops := [LinkSdu 0 [1; 2; 3; 4; 5; 6; 7; 8] 8 0; LinkGrant 0 (replicate 5 0) 5;
               LinkSdu 0 [9; 10; 11; 12; 13; 14] 6 1]).
  destruct (link_run_ok tx rx ops L) as ([[tx1 rx1] a1] & E & L1 & _).
  { rewrite Hl. repeat constructor; try (vm_compute; intuition congruence); cbn; lia. }
  assert (match tx ← new_nr_rlc_entity_um 20000 1000 10 12; rx ← new_nr_rlc_entity_um 20000 1000 10 12;
            link_run tx rx ops with
          | Ok (t, r, _) => (um_sdus t, pending t, events (common r), sn_field_length t) =
                            ([[1; 2; 3; 4; 5; 6; 7; 8]; [9; 10; 11; 12; 13; 14]], 11, [], 12)
          | _ => False end) as H by (vm_compute; reflexivity).
  rewrite Etx in Erx. injection Erx as <-.
  rewrite Etx in H. cbn [mbind outcome_bind] in H. rewrite E in H. injection H as Hq Hp He Hl1.
  exists (tx1, rx1, a1). rewrite Etx. split; [exact E|]. split; [done|].
  apply (um_link_drains tx1 rx1 (replicate 11 (LinkGrant 0 (replicate 6 0) 6))); [exact L1| | |].
  - rewrite Hl1. exact Hg.
  - repeat constructor.
  - rewrite Hp. vm_compute. congruence.
Defined.
