(* ===== verification/RlcAm.v ===== *)
(** * RLC acknowledged mode: state, reception of data, transmission

    Models [openair2/LAYER2/nr_rlc/nr_rlc_entity_am.c] and its state
    [nr_rlc_entity_am_t], except for STATUS PDUs, received
    ([RlcAmControl]) or generated ([RlcAmStatus]), and the entry points that
    depend on them ([RlcAmStatus]). A segment is in one of three lists:
    [tx_list] (to be sent), [wait_list] (sent, to be acknowledged) or
    [retransmit_list]; all segments of an SDU share the SDU in [heap]. *)

From S2P Require Import Prelude Bits RlcPdu TimeStat RlcSdu RlcTypes RlcRxManager RlcReassemble.

Record nr_rlc_entity_am_t := mk_am {
  common : nr_rlc_entity_t;
  t_poll_retransmit : Z;
  t_reassembly : Z;
  t_status_prohibit : Z;
  poll_pdu : Z;    (* -1 means infinity *)
  poll_byte : Z;    (* -1 means infinity *)
  max_retx_threshold : Z;
  sn_field_length : Z;
  sn_modulus : Z;
  window_size : Z;
  rx_next : Z;
  rx_next_status_trigger : Z;
  rx_highest_status : Z;
  rx_next_highest : Z;
  status_triggered : bool;
  tx_next : Z;
  tx_next_ack : Z;
  poll_sn : Z;
  pdu_without_poll : Z;
  byte_without_poll : Z;
  force_poll : bool;
  t_current : Z;
  t_log_buffer_full : Z;
  sdu_rejected : Z;
  t_poll_retransmit_start : Z;
  t_reassembly_start : Z;
  t_status_prohibit_start : Z;
  rx : nr_rlc_rx_manager_t;
  rx_size : Z;
  rx_maxsize : Z;
  heap : sdu_heap;    (* the SDUs of the three lists *)
  tx_list : list nr_rlc_sdu_segment_t;
  tx_end : option positive;
  tx_size : Z;
  tx_maxsize : Z;
  wait_list : list nr_rlc_sdu_segment_t;
  wait_end : option positive;
  retransmit_list : list nr_rlc_sdu_segment_t;
}.
#[export] Instance eta_am : Eta nr_rlc_entity_am_t := λ r,
  mk_am (common r) (t_poll_retransmit r) (t_reassembly r) (t_status_prohibit r) (poll_pdu r)
    (poll_byte r) (max_retx_threshold r) (sn_field_length r) (sn_modulus r)
    (window_size r) (rx_next r) (rx_next_status_trigger r) (rx_highest_status r)
    (rx_next_highest r) (status_triggered r) (tx_next r) (tx_next_ack r) (poll_sn r)
    (pdu_without_poll r) (byte_without_poll r) (force_poll r) (t_current r)
    (t_log_buffer_full r) (sdu_rejected r) (t_poll_retransmit_start r)
    (t_reassembly_start r) (t_status_prohibit_start r) (rx r) (rx_size r) (rx_maxsize r)
    (heap r) (tx_list r) (tx_end r) (tx_size r) (tx_maxsize r) (wait_list r) (wait_end r)
    (retransmit_list r).
#[export] Instance set_common : Setter common := ltac:(derive_setter).
#[export] Instance set_t_poll_retransmit : Setter t_poll_retransmit := ltac:(derive_setter).
#[export] Instance set_t_reassembly : Setter t_reassembly := ltac:(derive_setter).
#[export] Instance set_t_status_prohibit : Setter t_status_prohibit := ltac:(derive_setter).
#[export] Instance set_poll_pdu : Setter poll_pdu := ltac:(derive_setter).
#[export] Instance set_poll_byte : Setter poll_byte := ltac:(derive_setter).
#[export] Instance set_max_retx_threshold : Setter max_retx_threshold := ltac:(derive_setter).
#[export] Instance set_sn_field_length : Setter sn_field_length := ltac:(derive_setter).
#[export] Instance set_rx_next : Setter rx_next := ltac:(derive_setter).
#[export] Instance set_rx_next_status_trigger : Setter rx_next_status_trigger := ltac:(derive_setter).
#[export] Instance set_rx_highest_status : Setter rx_highest_status := ltac:(derive_setter).
#[export] Instance set_rx_next_highest : Setter rx_next_highest := ltac:(derive_setter).
#[export] Instance set_status_triggered : Setter status_triggered := ltac:(derive_setter).
#[export] Instance set_tx_next : Setter tx_next := ltac:(derive_setter).
#[export] Instance set_tx_next_ack : Setter tx_next_ack := ltac:(derive_setter).
#[export] Instance set_poll_sn : Setter poll_sn := ltac:(derive_setter).
#[export] Instance set_pdu_without_poll : Setter pdu_without_poll := ltac:(derive_setter).
#[export] Instance set_byte_without_poll : Setter byte_without_poll := ltac:(derive_setter).
#[export] Instance set_force_poll : Setter force_poll := ltac:(derive_setter).
#[export] Instance set_t_current : Setter t_current := ltac:(derive_setter).
#[export] Instance set_t_log_buffer_full : Setter t_log_buffer_full := ltac:(derive_setter).
#[export] Instance set_sdu_rejected : Setter sdu_rejected := ltac:(derive_setter).
#[export] Instance set_t_poll_retransmit_start : Setter t_poll_retransmit_start := ltac:(derive_setter).
#[export] Instance set_t_reassembly_start : Setter t_reassembly_start := ltac:(derive_setter).
#[export] Instance set_t_status_prohibit_start : Setter t_status_prohibit_start := ltac:(derive_setter).
#[export] Instance set_rx : Setter rx := ltac:(derive_setter).
#[export] Instance set_rx_size : Setter rx_size := ltac:(derive_setter).
#[export] Instance set_heap : Setter heap := ltac:(derive_setter).
#[export] Instance set_tx_list : Setter tx_list := ltac:(derive_setter).
#[export] Instance set_tx_end : Setter tx_end := ltac:(derive_setter).
#[export] Instance set_tx_size : Setter tx_size := ltac:(derive_setter).
#[export] Instance set_wait_list : Setter wait_list := ltac:(derive_setter).
#[export] Instance set_wait_end : Setter wait_end := ltac:(derive_setter).
#[export] Instance set_retransmit_list : Setter retransmit_list := ltac:(derive_setter).


Definition on_common (f : nr_rlc_entity_t → nr_rlc_entity_t) (e : nr_rlc_entity_am_t)
  : nr_rlc_entity_am_t := e <| common := f (common e) |>.

Definition new_nr_rlc_entity_am (rx_maxsize tx_maxsize t_poll_retransmit t_reassembly
    t_status_prohibit poll_pdu poll_byte max_retx_threshold sn_field_length : Z)
  : outcome nr_rlc_entity_am_t :=
  if negb ((sn_field_length =? 12) || (sn_field_length =? 18)) then Fatal
  else
    let sn_modulus := Z.shiftl 1 sn_field_length in
    let window_size := Z.quot sn_modulus 2 in
    c ← new_common NR_RLC_AM;
    Ok (mk_am c t_poll_retransmit t_reassembly t_status_prohibit poll_pdu poll_byte
          max_retx_threshold sn_field_length sn_modulus window_size
          0 0 0 0 false 0 0 0 0 0 false 0 0 0 0 0 0
          (nr_rlc_new_rx_manager (Z.shiftl 1 (sn_field_length - 1))) 0 (rx_maxsize * 5)
          empty_heap [] None 0 (tx_maxsize * 5) [] None []).

Definition nr_rlc_entity_am_reconfigure (entity : nr_rlc_entity_am_t)
    (t_poll_retx t_reass t_status_proh pollpdu pollbyte max_retx : Z) (sn_length : option Z)
  : nr_rlc_entity_am_t :=
  let entity := entity <| t_poll_retransmit := t_poll_retx |> <| t_reassembly := t_reass |>
    <| t_status_prohibit := t_status_proh |> <| poll_pdu := pollpdu |> <| poll_byte := pollbyte |>
    <| max_retx_threshold := max_retx |> in
  match sn_length with
  | Some n => entity <| sn_field_length := n |>
  | None => entity
  end.

(** for a given SDU/SDU segment, computes the corresponding PDU header size *)
Definition compute_pdu_header_size (entity : nr_rlc_entity_am_t) (sdu : nr_rlc_sdu_segment_t) : Z :=
  let header_size := 2 in
  let header_size := if sn_field_length entity =? 18 then header_size + 1 else header_size in
  if negb (g_is_first sdu) then header_size + 2 else header_size.

(** ** Sequence numbers *)

Definition modulus_rx (entity : nr_rlc_entity_am_t) (a : Z) : Z :=
  let r := a - rx_next entity in
  if r <? 0 then r + sn_modulus entity else r.

Definition modulus_tx (entity : nr_rlc_entity_am_t) (a : Z) : Z :=
  let r := a - tx_next_ack entity in
  if r <? 0 then r + sn_modulus entity else r.

Definition sn_in_recv_window (entity : nr_rlc_entity_am_t) (sn : Z) : bool :=
  modulus_rx entity sn <? window_size entity.

Definition sn_compare_rx (entity : nr_rlc_entity_am_t) (a b : Z) : Z :=
  modulus_rx entity a - modulus_rx entity b.

Definition sn_compare_tx (entity : nr_rlc_entity_am_t) (a b : Z) : Z :=
  modulus_tx entity a - modulus_tx entity b.

(** The SN of the SDU of a segment, [seg->sdu->sn]. *)
Definition seg_sn (entity : nr_rlc_entity_am_t) (seg : nr_rlc_sdu_segment_t) : Z :=
  s_sn (sdu_of (heap entity) seg).

(** Insertion ordered by [sn], then by [so]; after the nodes that compare equal. *)
Fixpoint nr_rlc_tx_sdu_segment_list_add (entity : nr_rlc_entity_am_t)
    (l : list nr_rlc_sdu_segment_t) (sdu_segment : nr_rlc_sdu_segment_t)
  : list nr_rlc_sdu_segment_t :=
  match l with
  | [] => [sdu_segment]
  | cur :: next =>
      if (0 <? sn_compare_tx entity (seg_sn entity cur) (seg_sn entity sdu_segment))
         || ((seg_sn entity cur =? seg_sn entity sdu_segment) && (g_so sdu_segment <? g_so cur))
      then sdu_segment :: cur :: next
      else cur :: nr_rlc_tx_sdu_segment_list_add entity next sdu_segment
  end.

(** ** Reception of data *)

Definition rx_pdus (entity : nr_rlc_entity_am_t) (sn : Z) : list nr_rlc_pdu_t :=
  nr_rlc_rx_manager_get_pdu_from_sn (rx entity) sn.

(** The loop of [segment_already_received] over the segments [l]. *)
Fixpoint received_loop (l : list nr_rlc_pdu_t) (so size : Z) : bool :=
  match l with
  | [] => size <=? 0
  | p :: next =>
      if size <=? 0 then true
      else if (p_so p <=? so) && (so <? p_so p + p_size p) then
        let covered := p_size p - (so - p_so p) in
        received_loop next (so + covered) (size - covered)
      else if (p_so p <=? so + size - 1) && (so + size - 1 <? p_so p + p_size p) then
        let covered := size - (p_so p - so) in
        received_loop next so (size - covered)
      else received_loop next so size
  end.

Definition segment_already_received (entity : nr_rlc_entity_am_t) (sn so size : Z) : bool :=
  received_loop (rx_pdus entity sn) so size.

Definition sdu_full (entity : nr_rlc_entity_am_t) (sn : Z) : bool :=
  let l := rx_pdus entity sn in
  if delivered l then false else sdu_full_from (-1) l.

Definition sdu_delivered (entity : nr_rlc_entity_am_t) (sn : Z) : bool :=
  delivered (rx_pdus entity sn).

Definition sdu_has_missing_bytes (entity : nr_rlc_entity_am_t) (sn : Z) : bool :=
  let l := rx_pdus entity sn in
  if delivered l then false else missing_from (-1) l.

(** [free(pdu->data); pdu->data = NULL]; the size is kept *)
Definition release_data (pdu : nr_rlc_pdu_t) : nr_rlc_pdu_t := pdu <| p_data := None |>.

Definition reassemble_and_deliver (entity : nr_rlc_entity_am_t) (sn : Z)
  : outcome nr_rlc_entity_am_t :=
  let l := rx_pdus entity sn in
  r ← reassemble_all (mk_reas [] false) l;
  let entity := entity <| rx := rx_manager_set_pdus (rx entity) sn (release_data <$> l) |>
                       <| rx_size := rx_size entity - sumZ p_size l |> in
  if ra_bad r then Ok entity
  else
    let entity := on_common (call (deliver_sdu (ra_sdu r))) entity in
    Ok (on_common (on_stats (add32 txsdu_pkts 1)) entity).

(** The loop that frees the delivered SDUs from [rx_next] on: every turn empties a
    slot of the reception buffer, so [fuel] is its size plus one. *)
Fixpoint free_delivered (fuel : nat) (rx : nr_rlc_rx_manager_t) (sn_modulus rx_next count : Z)
  : outcome (nr_rlc_rx_manager_t * Z * Z) :=
  match fuel with
  | O => Diverge
  | S fuel' =>
      if delivered (nr_rlc_rx_manager_get_pdu_from_sn rx rx_next)
      then free_delivered fuel' (nr_rlc_rx_manager_clear_pdu rx rx_next) sn_modulus
             (cmod (rx_next + 1) sn_modulus) (count + 1)
      else Ok (rx, rx_next, count)
  end.

(** The SDU [x] is full: deliver it, move [rx_highest_status] and the window. *)
Definition deliver_and_move (entity : nr_rlc_entity_am_t) (x : Z) : outcome nr_rlc_entity_am_t :=
  entity ← reassemble_and_deliver entity x;
  entity ←
    (if x =? rx_highest_status entity then
       v ← skip_delivered (Z.to_nat (sn_modulus entity)) (sdu_delivered entity)
             (sn_modulus entity) (rx_highest_status entity);
       Ok (entity <| rx_highest_status := v |>)
     else Ok entity);
  if x =? rx_next entity then
    '(m, v, count) ← free_delivered (S (Z.to_nat (m_size (rx entity)))) (rx entity)
                       (sn_modulus entity) (rx_next entity) 0;
    let entity := entity <| rx_next := v |> in
    Ok (entity <| rx := nr_rlc_rx_manager_set_start (nr_rlc_rx_manager_advance m count) v |>)
  else Ok entity.

(** First part of [reception_actions]. *)
Definition reception_update (entity : nr_rlc_entity_am_t) (x : Z) : outcome nr_rlc_entity_am_t :=
  let entity := if 0 <=? sn_compare_rx entity x (rx_next_highest entity)
                then entity <| rx_next_highest := cmod (x + 1) (sn_modulus entity) |> else entity in
  if sdu_full entity x then deliver_and_move entity x else Ok entity.

(** Second part: stop, then maybe start, t-Reassembly. *)
Definition reception_timer (entity : nr_rlc_entity_am_t) : nr_rlc_entity_am_t :=
  let next := cmod (rx_next entity + 1) (sn_modulus entity) in
  let entity :=
    if negb (t_reassembly_start entity =? 0) then
      if (rx_next_status_trigger entity =? rx_next entity)
         || ((rx_next_status_trigger entity =? next)
             && negb (sdu_has_missing_bytes entity (rx_next entity)))
         || (negb (sn_in_recv_window entity (rx_next_status_trigger entity))
             && negb (rx_next_status_trigger entity
                      =? cmod (rx_next entity + window_size entity) (sn_modulus entity)))
      then entity <| t_reassembly_start := 0 |> else entity
    else entity in
  if t_reassembly_start entity =? 0 then
    if (0 <? sn_compare_rx entity (rx_next_highest entity) next)
       || ((rx_next_highest entity =? next) && sdu_has_missing_bytes entity (rx_next entity))
    then entity <| t_reassembly_start := t_current entity |>
                <| rx_next_status_trigger := rx_next_highest entity |>
    else entity
  else entity.

Definition reception_actions (entity : nr_rlc_entity_am_t) (pdu : nr_rlc_pdu_t)
  : outcome nr_rlc_entity_am_t :=
  entity ← reception_update entity (p_sn pdu);
  Ok (reception_timer entity).

(** A read followed by the macro [R]: [err] if it ran past the end of the PDU. *)
Definition get_or {A} (err : outcome A) (decoder : nr_rlc_pdu_decoder_t) (count : Z)
    (k : Z → nr_rlc_pdu_decoder_t → outcome A) : outcome A :=
  '(v, decoder) ← nr_rlc_pdu_decoder_get_bits decoder count;
  if nr_rlc_pdu_decoder_in_error decoder then err else k v decoder.

(** The labels [err] and [discard]; [p] is the polling bit, 0 if not read yet. *)
Definition recv_pdu_discard (entity : nr_rlc_entity_am_t) (size p : Z)
  : outcome nr_rlc_entity_am_t :=
  let entity := if negb (p =? 0) then entity <| status_triggered := true |> else entity in
  Ok (on_common (on_stats (λ s, add32 rxpdu_dd_bytes size (add32 rxpdu_dd_pkts 1 s))) entity).

(** From [put in pdu reception list] on, all checks passed. *)
Definition recv_pdu_store (entity : nr_rlc_entity_am_t) (buffer : bytes)
    (size data_size p sn so : Z) (is_first is_last : bool) : outcome nr_rlc_entity_am_t :=
  let entity := entity <| rx_size := rx_size entity + data_size |> in
  data ← buf_sub buffer (size - data_size) data_size;
  pdu ← nr_rlc_new_pdu sn so is_first is_last data data_size;
  let entity := entity <| rx := nr_rlc_rx_manager_add_pdu (rx entity) pdu |> in
  entity ← reception_actions entity pdu;
  Ok (if negb (p =? 0) then entity <| status_triggered := true |> else entity).

(** The checks of a data PDU, once its header has been read. *)
Definition recv_pdu_checks (entity : nr_rlc_entity_am_t) (buffer : bytes)
    (size data_size p sn so : Z) (is_first is_last : bool) : outcome nr_rlc_entity_am_t :=
  if data_size <=? 0 then recv_pdu_discard entity size p else
  if rx_maxsize entity <? rx_size entity + data_size then recv_pdu_discard entity size p else
  if negb (sn_in_recv_window entity sn) then
    recv_pdu_discard (on_common (on_stats (λ s,
      add32 rxpdu_ow_bytes size (add32 rxpdu_ow_pkts 1 s))) entity) size p else
  if segment_already_received entity sn so data_size then
    recv_pdu_discard (on_common (on_stats (λ s,
      add32 rxpdu_dup_bytes size (add32 rxpdu_dup_pkts 1 s))) entity) size p else
  recv_pdu_store entity buffer size data_size p sn so is_first is_last.

(** The part of [nr_rlc_entity_am_recv_pdu] for a data PDU, after the D/C bit. A
    field that is absent is read as zero bits, which gives 0 and moves nothing. *)
Definition recv_data_pdu (entity : nr_rlc_entity_am_t) (decoder : nr_rlc_pdu_decoder_t)
    (buffer : bytes) (size : Z) : outcome nr_rlc_entity_am_t :=
  get_or (recv_pdu_discard entity size 0) decoder 1 (λ p decoder,
  let discard := recv_pdu_discard entity size p in
  get_or discard decoder 2 (λ si decoder,
  let is_first := Z.land si 2 =? 0 in
  let is_last := Z.land si 1 =? 0 in
  get_or discard decoder (if sn_field_length entity =? 18 then 2 else 0) (λ _ decoder,
  get_or discard decoder (sn_field_length entity) (λ sn decoder,
  get_or discard decoder (if is_first then 0 else 16) (λ so decoder,
  if negb is_first && (so =? 0) then discard else
  recv_pdu_checks entity buffer size (size - d_byte decoder) p sn so is_first is_last))))).

(** ** Transmission *)

Definition is_window_stalling (entity : nr_rlc_entity_am_t) : bool :=
  negb ((sn_compare_tx entity (tx_next_ack entity) (tx_next entity) <=? 0)
        && (sn_compare_tx entity (tx_next entity)
              (cmod (tx_next_ack entity + window_size entity) (sn_modulus entity)) <? 0)).

Definition include_poll (entity : nr_rlc_entity_am_t) (buffer : bytes)
  : outcome (bytes * nr_rlc_entity_am_t) :=
  b ← buf_get buffer 0;
  buffer ← buf_set buffer 0 (Z.lor b 64);
  Ok (buffer, entity <| pdu_without_poll := 0 |> <| byte_without_poll := 0 |>
    <| poll_sn := cmod (tx_next entity - 1 + sn_modulus entity) (sn_modulus entity) |>
    <| t_poll_retransmit_start := t_current entity |>).

Definition check_poll_after_pdu_assembly (entity : nr_rlc_entity_am_t) : bool :=
  let transmission_buffer_empty := if tx_list entity is [] then true else false in
  let retransmission_buffer_empty := if retransmit_list entity is [] then true else false in
  (transmission_buffer_empty && retransmission_buffer_empty) || is_window_stalling entity.

Definition serialize_sdu (entity : nr_rlc_entity_am_t) (sdu : nr_rlc_sdu_segment_t)
    (buffer : bytes) (bufsize : Z) (p : bool) : outcome (Z * bytes * nr_rlc_entity_am_t) :=
  let encoder := nr_rlc_pdu_encoder_init buffer bufsize in
  encoder ← nr_rlc_pdu_encoder_put_bits encoder 1 1;
  encoder ← nr_rlc_pdu_encoder_put_bits encoder 0 1;
  encoder ← nr_rlc_pdu_encoder_put_bits encoder (1 - Z.b2z (g_is_first sdu)) 1;
  encoder ← nr_rlc_pdu_encoder_put_bits encoder (1 - Z.b2z (g_is_last sdu)) 1;
  encoder ← (if sn_field_length entity =? 18
             then nr_rlc_pdu_encoder_put_bits encoder 0 2 else Ok encoder);
  encoder ← nr_rlc_pdu_encoder_put_bits encoder (seg_sn entity sdu) (sn_field_length entity);
  encoder ← (if negb (g_is_first sdu)
             then nr_rlc_pdu_encoder_put_bits encoder (g_so sdu) 16 else Ok encoder);
  data ← buf_sub (s_data (sdu_of (heap entity) sdu)) (g_so sdu) (g_size sdu);
  buffer ← buf_write (e_buffer encoder) (e_byte encoder) data;
  '(buffer, entity) ← (if p then include_poll entity buffer else Ok (buffer, entity));
  Ok (e_byte encoder + g_size sdu, buffer, entity).

(** Cuts [sdu] so that its PDU fits into [pdu_size] bytes: returns the segment
    changed and a new segment for the remaining bytes. *)
Definition resegment (sdu : nr_rlc_sdu_segment_t) (entity : nr_rlc_entity_am_t) (pdu_size : Z)
  : nr_rlc_sdu_segment_t * nr_rlc_sdu_segment_t * nr_rlc_entity_am_t :=
  let s := sdu_of (heap entity) sdu in
  let entity := entity <| heap := upd_sdu (heap entity) sdu
                            (s <| s_ref_count := s_ref_count s + 1 |>) |> in
  let pdu_header_size := compute_pdu_header_size entity sdu in
  let '(addr, h) := new_addr (heap entity) in
  let entity := entity <| heap := h |> in
  let next := sdu <| g_addr := addr |> in
  let over_size := pdu_header_size + g_size sdu - pdu_size in
  let sdu := sdu <| g_size := g_size sdu - over_size |> <| g_is_last := false |> in
  let next := next <| g_size := over_size |> <| g_so := g_so sdu + g_size sdu |>
                   <| g_is_first := false |> in
  (sdu, next, entity).

(** [put SDU/SDU segment in the wait list], with its speedup on the end of the
    list. *)
Definition put_in_wait_list (entity : nr_rlc_entity_am_t) (sdu : nr_rlc_sdu_segment_t)
  : outcome nr_rlc_entity_am_t :=
  let append :=
    '(l, e) ← nr_rlc_sdu_segment_list_append (wait_list entity) (wait_end entity) sdu;
    Ok (entity <| wait_list := l |> <| wait_end := e |>) in
  match wait_end entity with
  | None => append
  | Some a =>
      match node_at a (wait_list entity) with
      | None => Undef
      | Some last =>
          let cmp := sn_compare_tx entity (seg_sn entity sdu) (seg_sn entity last) in
          if (0 <? cmp) || ((cmp =? 0) && (g_so last <? g_so sdu)) then append
          else
            let entity := entity <| wait_list :=
              nr_rlc_tx_sdu_segment_list_add entity (wait_list entity) sdu |> in
            Ok (match wait_list entity with
                | [x] => entity <| wait_end := Some (g_addr x) |>
                | _ => entity
                end)
      end
  end.

(** The decision to poll: [p], or forced. *)
Definition take_force_poll (entity : nr_rlc_entity_am_t) (p : bool) : bool * nr_rlc_entity_am_t :=
  if force_poll entity then (true, entity <| force_poll := false |>) else (p, entity).

Definition generate_retx_pdu (entity : nr_rlc_entity_am_t) (buffer : bytes) (size : Z)
  : outcome (Z * bytes * nr_rlc_entity_am_t) :=
  match retransmit_list entity with
  | [] => Undef
  | sdu :: next =>
      let pdu_header_size := compute_pdu_header_size entity sdu in
      if size <? pdu_header_size + 1 then Ok (0, buffer, entity)
      else
        let entity := entity <| retransmit_list := next |> in
        let pdu_size := pdu_header_size + g_size sdu in
        let entity := on_common (bstatus_retx (- pdu_size)) entity in
        let '(sdu, entity) :=
          if size <? pdu_size then
            let '(sdu, next_sdu, entity) := resegment sdu entity size in
            let entity := entity <| retransmit_list := next_sdu :: retransmit_list entity |> in
            let entity := on_common (bstatus_retx
              (compute_pdu_header_size entity next_sdu + g_size next_sdu)) entity in
            (sdu, on_common (on_stats (add32 txpdu_segmented 1)) entity)
          else (sdu, entity) in
        entity ← put_in_wait_list entity sdu;
        let p := check_poll_after_pdu_assembly entity in
        let '(p, entity) := take_force_poll entity p in
        '(ret_size, buffer, entity) ← serialize_sdu entity sdu buffer size p;
        Ok (ret_size, buffer, on_common (on_stats (λ s,
          add32 txpdu_retx_bytes ret_size (add32 txpdu_retx_pkts 1
            (add32 txpdu_bytes ret_size (add32 txpdu_pkts 1 s))))) entity)
  end.

(** [generate_tx_pdu] up to the choice of the segment to send: the segment, cut
    if it does not fit, and the entity with the rest of the list. *)
Definition tx_take (entity : nr_rlc_entity_am_t) (sdu : nr_rlc_sdu_segment_t)
    (next : list nr_rlc_sdu_segment_t) (size : Z) : nr_rlc_sdu_segment_t * nr_rlc_entity_am_t :=
  let entity := entity <| tx_list := next |> in
  let entity := if tx_list entity is [] then entity <| tx_end := None |> else entity in
  let pdu_size := compute_pdu_header_size entity sdu + g_size sdu in
  let entity := on_common (bstatus_tx (- pdu_size)) entity in
  let entity :=
    if seg_sn entity sdu =? -1 then
      let entity := entity <| heap := upd_sdu (heap entity) sdu
                      (sdu_of (heap entity) sdu <| s_sn := tx_next entity |>) |> in
      entity <| tx_next := cmod (tx_next entity + 1) (sn_modulus entity) |>
    else entity in
  if size <? pdu_size then
    let '(sdu, next_sdu, entity) := resegment sdu entity size in
    let entity := entity <| tx_list := next_sdu :: tx_list entity |> in
    let entity := if tx_end entity is None
                  then entity <| tx_end := Some (g_addr next_sdu) |> else entity in
    let entity := on_common (on_stats (add32 txpdu_segmented 1)) entity in
    (sdu, on_common (bstatus_tx (compute_pdu_header_size entity next_sdu + g_size next_sdu)) entity)
  else (sdu, entity).

(** The polling actions for a new PDU. *)
Definition tx_poll (entity : nr_rlc_entity_am_t) (sdu : nr_rlc_sdu_segment_t)
  : bool * nr_rlc_entity_am_t :=
  let entity := entity <| pdu_without_poll := pdu_without_poll entity + 1 |>
                       <| byte_without_poll := byte_without_poll entity + g_size sdu |> in
  let p :=
    if (negb (poll_pdu entity =? -1) && (poll_pdu entity <=? pdu_without_poll entity))
       || (negb (poll_byte entity =? -1) && (poll_byte entity <=? byte_without_poll entity))
    then true else check_poll_after_pdu_assembly entity in
  take_force_poll entity p.

Definition generate_tx_pdu (time_now : Z) (entity : nr_rlc_entity_am_t) (buffer : bytes) (size : Z)
  : outcome (Z * bytes * nr_rlc_entity_am_t) :=
  if is_window_stalling entity then Ok (0, buffer, entity) else
  match tx_list entity with
  | [] => Ok (0, buffer, entity)
  | sdu :: next =>
      if size <? compute_pdu_header_size entity sdu + 1 then Ok (0, buffer, entity)
      else
        let '(sdu, entity) := tx_take entity sdu next size in
        entity ← put_in_wait_list entity sdu;
        let '(p, entity) := tx_poll entity sdu in
        '(ret_size, buffer, entity) ← serialize_sdu entity sdu buffer size p;
        let entity := on_common (on_stats (λ s,
          add32 txpdu_bytes ret_size (add32 txpdu_pkts 1 s))) entity in
        c ← record_waited_time (common entity) time_now
              (s_time_of_arrival (sdu_of (heap entity) sdu));
        Ok (ret_size, buffer, entity <| common := c |>)
  end.

(** ** SDUs from the upper layer *)

Definition nr_rlc_entity_am_recv_sdu (time_now : Z) (entity : nr_rlc_entity_am_t)
    (buffer : bytes) (size sdu_id : Z) : outcome nr_rlc_entity_am_t :=
  let entity := on_common (on_stats (add32 rxsdu_pkts 1)) entity in
  if NR_SDU_MAX <? size then Fatal
  else
    let entity :=
      if negb (sdu_rejected entity =? 0)
         && (u64 (t_log_buffer_full entity + 1280) <? t_current entity)
      then entity <| sdu_rejected := 0 |> <| t_log_buffer_full := t_current entity |>
      else entity in
    if tx_maxsize entity <? tx_size entity + size then
      let entity := entity <| sdu_rejected := sdu_rejected entity + 1 |> in
      Ok (on_common (on_stats (λ s, add32 txpdu_dd_bytes size (add32 txpdu_dd_pkts 1 s))) entity)
    else
      let entity := entity <| tx_size := tx_size entity + size |> in
      let entity := on_common (on_stats (add64 rxsdu_bytes size)) entity in
      '(sdu, h) ← nr_rlc_new_sdu (heap entity) buffer size sdu_id;
      let entity := entity <| heap := h |> in
      '(l, e) ← nr_rlc_sdu_segment_list_append (tx_list entity) (tx_end entity) sdu;
      let entity := entity <| tx_list := l |> <| tx_end := e |> in
      let entity :=
        on_common (bstatus_tx (compute_pdu_header_size entity sdu + g_size sdu)) entity in
      Ok (if avg_time_is_on (common entity)
          then entity <| heap := upd_sdu (heap entity) sdu
                           (sdu_of (heap entity) sdu <| s_time_of_arrival := time_now |>) |>
          else entity).

(** ** Timers *)

(** The loop that moves the segments of [retransmit_sn] from the head of the wait
    list to the retransmit list. *)
Fixpoint retransmit_head (l : list nr_rlc_sdu_segment_t) (retransmit_sn : Z)
    (entity : nr_rlc_entity_am_t) : nr_rlc_entity_am_t :=
  match l with
  | [] => entity
  | cur :: next =>
      if seg_sn entity cur =? retransmit_sn then
        let entity := entity <| wait_list := next |> in
        let entity := if wait_list entity is [] then entity <| wait_end := None |> else entity in
        let entity :=
          on_common (bstatus_retx (compute_pdu_header_size entity cur + g_size cur)) entity in
        retransmit_head next retransmit_sn
          (entity <| retransmit_list :=
             nr_rlc_tx_sdu_segment_list_add entity (retransmit_list entity) cur |>)
      else entity
  end.

Definition check_t_poll_retransmit (entity : nr_rlc_entity_am_t) : outcome nr_rlc_entity_am_t :=
  if (t_poll_retransmit_start entity =? 0)
     || (t_current entity <=? u64 (t_poll_retransmit_start entity + t_poll_retransmit entity))
  then Ok entity
  else
    let entity := entity <| t_poll_retransmit_start := 0 |> <| force_poll := true |> in
    if negb (check_poll_after_pdu_assembly entity) then Ok entity
    else
      match wait_list entity with
      | [] => Undef              (* cur->sdu with cur == NULL *)
      | cur :: _ =>
          let s := sdu_of (heap entity) cur in
          let s := s <| s_retx_count := s_retx_count s + 1 |> in
          let entity := entity <| heap := upd_sdu (heap entity) cur s |> in
          let entity := retransmit_head (wait_list entity) (s_sn s) entity in
          Ok (if max_retx_threshold entity <=? s_retx_count s
              then on_common (call max_retx_reached) entity else entity)
      end.

Definition check_t_reassembly (entity : nr_rlc_entity_am_t) : outcome nr_rlc_entity_am_t :=
  if (t_reassembly_start entity =? 0)
     || (t_current entity <=? u64 (t_reassembly_start entity + t_reassembly entity))
  then Ok entity
  else
    let entity := entity <| t_reassembly_start := 0 |> in
    sn ← skip_delivered (Z.to_nat (sn_modulus entity)) (sdu_delivered entity)
           (sn_modulus entity) (rx_next_status_trigger entity);
    let entity := entity <| rx_highest_status := sn |> <| status_triggered := true |> in
    let next := cmod (rx_highest_status entity + 1) (sn_modulus entity) in
    Ok (if (0 <? sn_compare_rx entity (rx_next_highest entity) next)
           || ((rx_next_highest entity =? next)
               && sdu_has_missing_bytes entity (rx_highest_status entity))
        then entity <| t_reassembly_start := t_current entity |>
                    <| rx_next_status_trigger := rx_next_highest entity |>
        else entity).

Definition nr_rlc_entity_am_set_time (entity : nr_rlc_entity_am_t) (now : Z)
  : outcome nr_rlc_entity_am_t :=
  let entity := entity <| t_current := now |> in
  entity ← check_t_poll_retransmit entity;
  check_t_reassembly entity.

(** ** Discard, re-establishment, deletion *)

Definition nr_rlc_entity_am_discard_sdu (entity : nr_rlc_entity_am_t) (sdu_id : Z)
  : outcome nr_rlc_entity_am_t :=
  match find_sdu_id (heap entity) sdu_id (tx_list entity) with
  | None => Ok entity
  | Some (pre, cur, post) =>
      if negb (g_is_first cur) || negb (g_is_last cur) then Ok entity
      else
        let entity := entity <| tx_list := pre ++ post |> in
        let entity := if decide (tx_end entity = Some (g_addr cur))
                      then entity <| tx_end := g_addr <$> last pre |> else entity in
        let entity :=
          on_common (bstatus_tx (- (compute_pdu_header_size entity cur + g_size cur))) entity in
        let entity := entity <| tx_size := tx_size entity - s_size (sdu_of (heap entity) cur) |> in
        '(_, h) ← nr_rlc_free_sdu_segment (heap entity) cur;
        Ok (entity <| heap := h |>)
  end.

Definition clear_entity (entity : nr_rlc_entity_am_t) : outcome nr_rlc_entity_am_t :=
  let entity := entity <| rx_next := 0 |> <| rx_next_status_trigger := 0 |>
    <| rx_highest_status := 0 |> <| rx_next_highest := 0 |> <| status_triggered := false |>
    <| tx_next := 0 |> <| tx_next_ack := 0 |> <| poll_sn := 0 |> <| pdu_without_poll := 0 |>
    <| byte_without_poll := 0 |> <| force_poll := false |> <| t_current := 0 |>
    <| t_log_buffer_full := 0 |> <| sdu_rejected := 0 |> <| t_poll_retransmit_start := 0 |>
    <| t_reassembly_start := 0 |> <| t_status_prohibit_start := 0 |>
    <| rx := nr_rlc_clear_rx_manager (rx entity) |> <| rx_size := 0 |> in
  h ← nr_rlc_free_sdu_segment_list (heap entity) (tx_list entity);
  h ← nr_rlc_free_sdu_segment_list h (wait_list entity);
  h ← nr_rlc_free_sdu_segment_list h (retransmit_list entity);
  let entity := entity <| heap := h |> <| tx_list := [] |> <| tx_end := None |> <| tx_size := 0 |>
                       <| wait_list := [] |> <| wait_end := None |> <| retransmit_list := [] |> in
  let c := common entity in
  Ok (entity <| common := c <| bstatus := bstatus c <| bs_tx_size := 0 |>
                                                    <| bs_retx_size := 0 |> |> |>).

Definition nr_rlc_entity_am_reestablishment (entity : nr_rlc_entity_am_t)
  : outcome nr_rlc_entity_am_t := clear_entity entity.

Definition nr_rlc_entity_am_delete (entity : nr_rlc_entity_am_t) : outcome unit :=
  _ ← clear_entity entity; Ok tt.

Definition nr_rlc_entity_am_available_tx_space (entity : nr_rlc_entity_am_t) : Z :=
  tx_maxsize entity - tx_size entity.

Definition nr_rlc_entity_am_tx_list_occupancy (entity : nr_rlc_entity_am_t) : Z :=
  tx_size entity.
