(* ===== verification/RlcAmRx.v ===== *)
(** * RLC acknowledged mode: the receiving side

    The invariant of the reception window, its preservation by data PDUs with
    arbitrary contents and by the reassembly timer, what is delivered, and the
    one situation in which reception does not return. *)

From S2P Require Import Prelude Bits RlcPdu TimeStat RlcSdu RlcTypes RlcRxManager RlcReassemble RlcAm.

#[local] Arguments Z.add : simpl never.
#[local] Arguments Z.sub : simpl never.
#[local] Arguments Z.mul : simpl never.
#[local] Arguments Z.opp : simpl never.

(** ** Configuration and positions *)

Record am_cfg (e : nr_rlc_entity_am_t) : Prop := {
  ac_len : sn_field_length e = 12 ∨ sn_field_length e = 18;
  ac_mod : sn_modulus e = 2 ^ sn_field_length e;
  ac_win : sn_modulus e = 2 * window_size e;
}.

Lemma am_cfg_bounds e : am_cfg e → 2048 <= window_size e <= 131072 ∧ sn_modulus e = 2 * window_size e.
Proof.
  intros [Hl Hm Hw]. split; [|done]. destruct Hl as [E|E]; rewrite E in Hm; cbn in Hm; lia.
Qed.

Lemma am_modulus_rx_mod e a :
  0 <= rx_next e < sn_modulus e → 0 <= a < sn_modulus e →
  modulus_rx e a = (a - rx_next e) mod sn_modulus e.
Proof.
  intros Hr Ha. unfold modulus_rx. destr_bool.
  - apply (Z.mod_unique _ _ (-1)); lia.
  - symmetry. apply Z.mod_small. lia.
Qed.

Lemma am_modulus_rx_range e a :
  0 <= rx_next e < sn_modulus e → 0 <= a < sn_modulus e → 0 <= modulus_rx e a < sn_modulus e.
Proof. intros Hr Ha. rewrite am_modulus_rx_mod by done. apply Z.mod_pos_bound. lia. Qed.

(** The SN at position [k] of the window. *)
Definition rx_at (e : nr_rlc_entity_am_t) (k : Z) : Z := (rx_next e + k) mod sn_modulus e.

Lemma rx_at_range e k : 0 < sn_modulus e → 0 <= rx_at e k < sn_modulus e.
Proof. intros H. apply Z.mod_pos_bound. lia. Qed.

Lemma modulus_rx_at e k :
  0 <= rx_next e < sn_modulus e → 0 <= k < sn_modulus e → modulus_rx e (rx_at e k) = k.
Proof.
  intros Hr Hk. rewrite am_modulus_rx_mod by (done || apply rx_at_range; lia). unfold rx_at.
  rewrite Zminus_mod_idemp_l. replace (rx_next e + k - rx_next e) with k by lia.
  apply Z.mod_small. lia.
Qed.

Lemma rx_at_modulus e a :
  0 <= rx_next e < sn_modulus e → 0 <= a < sn_modulus e → rx_at e (modulus_rx e a) = a.
Proof.
  intros Hr Ha. rewrite am_modulus_rx_mod by done. unfold rx_at. rewrite Zplus_mod_idemp_r.
  replace (rx_next e + (a - rx_next e)) with a by lia. apply Z.mod_small. lia.
Qed.

(** ** Slots *)

(** What the list of one SN looks like: its segments in offset order, and either
    a prefix of released ones starting at offset 0 or all of them stored. *)
Record slot_ok (Q : nr_rlc_pdu_t → Prop) (sn : Z) (l : list nr_rlc_pdu_t) : Prop := {
  so_sn : ∀ p, p ∈ l → p_sn p = sn ∧ 0 <= p_so p ∧ 0 < p_size p;
  so_sort : so_sorted l;
  so_head : delivered l = true → ∀ p, head l = Some p → p_so p = 0;
  so_data : delivered l = false → Forall (λ p, stored p ∧ Q p) l;
}.

Lemma slot_ok_nil Q sn : slot_ok Q sn [].
Proof. split; try done; [set_solver|constructor]. Qed.

Lemma insert_delivered Q sn l p :
  slot_ok Q sn l → stored p → delivered (insert_by_so l p) = delivered l.
Proof.
  intros W (Hso & _ & x & Hx & _). destruct l as [|q l]; cbn; [by rewrite Hx|].
  destruct (Z.ltb_spec (p_so p) (p_so q)) as [Hlt|]; [|done]. cbn. rewrite Hx.
  destruct (delivered (q :: l)) eqn:E; [|done].
  specialize (so_head _ _ _ W E q eq_refl). lia.
Qed.

Lemma slot_ok_insert Q sn l p :
  slot_ok Q sn l → stored p → Q p → p_sn p = sn → slot_ok Q sn (insert_by_so l p).
Proof.
  intros W Hp HQ Hsn. pose proof (insert_delivered Q sn l p W Hp) as Hd. destruct W as [W1 W2 W3 W4].
  split.
  - intros q Hq. rewrite insert_by_so_perm in Hq. apply elem_of_cons in Hq as [->|Hq]; [|auto].
    destruct Hp as (? & ? & _). done.
  - by apply insert_by_so_sorted.
  - rewrite Hd. intros E q Hq. destruct l as [|r l]; [done|].
    specialize (W3 E r eq_refl). cbn in Hq. destruct Hp as (Hso & _).
    destruct (Z.ltb_spec (p_so p) (p_so r)); [lia|]. cbn in Hq. congruence.
  - rewrite Hd, insert_by_so_perm. intros E. constructor; [done|]. auto.
Qed.

Lemma slot_ok_release Q sn l :
  slot_ok Q sn l → delivered l = false → sdu_full_from (-1) l = true →
  slot_ok Q sn (release_data <$> l) ∧ delivered (release_data <$> l) = true.
Proof.
  intros [W1 W2 W3 W4] Hd Hf. destruct l as [|p l]; [done|].
  split; [|done]. split.
  - intros q (r & -> & Hr)%list_elem_of_fmap. exact (W1 r Hr).
  - clear -W2. unfold so_sorted in *. induction W2 as [|q k Hk IH Hq]; constructor; [done|].
    apply Forall_fmap. exact Hq.
  - intros _ q [= <-]. cbn. cbn in Hf.
    destruct (Z.ltb_spec (-1 + 1) (p_so p)); [done|]. destruct (W1 p (list_elem_of_here _ _)); lia.
  - done.
Qed.

(** ** The invariant *)

(** [hi] is the position of [rx_next_highest]. The slot of an SN one whole window
    ahead is the slot of [rx_next], so [rx_highest_status] may be that SN. *)
Record am_rx_core (Q : nr_rlc_pdu_t → Prop) (e : nr_rlc_entity_am_t) (hi : Z) : Prop := {
  ar_cfg : am_cfg e;
  ar_next : 0 <= rx_next e < sn_modulus e;
  ar_rxm : rxm_wf (rx e);
  ar_size : m_size (rx e) = window_size e;
  ar_start : m_sn_start (rx e) = rx_next e;
  ar_hi : 0 <= hi <= window_size e;
  ar_slot : ∀ k, 0 <= k < window_size e → slot_ok Q (rx_at e k) (rx_pdus e (rx_at e k));
  ar_empty : ∀ k, hi <= k < window_size e → rx_pdus e (rx_at e k) = [];
  ar_head : sdu_delivered e (rx_next e) = false;
  ar_status : 0 <= rx_highest_status e < sn_modulus e;
}.

Record am_rx_wf (Q : nr_rlc_pdu_t → Prop) (e : nr_rlc_entity_am_t) : Prop := {
  aw_core : am_rx_core Q e (modulus_rx e (rx_next_highest e));
  aw_highest : 0 <= rx_next_highest e < sn_modulus e;
  aw_status : modulus_rx e (rx_highest_status e) <= modulus_rx e (rx_next_highest e);
  aw_sdeliv : sdu_delivered e (rx_highest_status e) = false;
  aw_trigger : 0 <= rx_next_status_trigger e < sn_modulus e;
  aw_timer : t_reassembly_start e ≠ 0 →
    1 <= modulus_rx e (rx_next_status_trigger e) <= modulus_rx e (rx_next_highest e);
}.

(** What the receiving side leaves unchanged: the transmitting side. *)
Definition am_tx_view (e : nr_rlc_entity_am_t) :=
  ((heap e, tx_list e, tx_end e, tx_size e, tx_maxsize e, wait_list e, wait_end e,
    retransmit_list e),
   (tx_next e, tx_next_ack e, poll_sn e, pdu_without_poll e, byte_without_poll e, force_poll e,
    t_current e, t_poll_retransmit_start e),
   (t_poll_retransmit e, poll_pdu e, poll_byte e, max_retx_threshold e),
   (sn_field_length e, sn_modulus e, window_size e, rx_maxsize e, common_view (common e))).

(** ** Slots by position *)

Lemma get_pos_rx Q e hi a :
  am_rx_core Q e hi → 0 <= a < sn_modulus e → get_pos (rx e) a = a mod window_size e.
Proof.
  intros W Ha. rewrite <- (ar_size _ _ _ W). apply get_pos_mod; [apply W|].
  rewrite (ar_size _ _ _ W), <- (ac_win _ (ar_cfg _ _ _ W)). done.
Qed.

(** The slot of an SN depends on the SN modulo the window size alone. *)
Lemma slot_eq Q e hi a b :
  am_rx_core Q e hi → 0 <= a < sn_modulus e → 0 <= b < sn_modulus e →
  a mod window_size e = b mod window_size e → rx_pdus e a = rx_pdus e b.
Proof.
  intros W Ha Hb E. unfold rx_pdus, nr_rlc_rx_manager_get_pdu_from_sn.
  by rewrite !(get_pos_rx Q e hi), E.
Qed.

Lemma rx_at_mod e k :
  0 < window_size e → sn_modulus e = 2 * window_size e →
  rx_at e k mod window_size e = (rx_next e + k) mod window_size e.
Proof. intros H E. unfold rx_at. rewrite E. by apply mod_mul2_mod. Qed.

Lemma mod_eq_small w a b : 0 < w → 0 <= a < w → 0 <= b < w → ∀ x, (x + a) mod w = (x + b) mod w → a = b.
Proof.
  intros Hw Ha Hb x E.
  assert ((a - b) mod w = 0) as Hm.
  { replace (a - b) with ((x + a) - (x + b)) by lia. rewrite Zminus_mod, E, Z.sub_diag. by apply Z.mod_0_l; lia. }
  apply Z.mod_divide in Hm as [c Hc]; [|lia]. assert (c = 0) by nia. lia.
Qed.

(** Changing the list of the SN at position [j] leaves those at other positions. *)
Lemma rx_pdus_set Q e hi j l k :
  am_rx_core Q e hi → 0 <= j < window_size e → 0 <= k < window_size e →
  nr_rlc_rx_manager_get_pdu_from_sn (rx_manager_set_pdus (rx e) (rx_at e j) l) (rx_at e k)
  = if decide (k = j) then l else rx_pdus e (rx_at e k).
Proof.
  intros W Hj Hk. destruct (am_cfg_bounds e (ar_cfg _ _ _ W)) as [Hw Hm]. case_decide as E.
  - subst. apply get_set_same.
  - apply get_set_other. rewrite !(get_pos_rx Q e hi) by (done || apply rx_at_range; lia).
    rewrite !rx_at_mod by lia. intros E'. apply E.
    by apply (mod_eq_small (window_size e) k j ltac:(lia) Hk Hj (rx_next e)).
Qed.

Lemma rx_at_0 e : 0 <= rx_next e < sn_modulus e → rx_at e 0 = rx_next e.
Proof. intros H. unfold rx_at. rewrite Z.add_0_r. by apply Z.mod_small. Qed.

(** The SN one window ahead shares the slot of [rx_next]. *)
Lemma delivered_window Q e hi :
  am_rx_core Q e hi → sdu_delivered e (rx_at e (window_size e)) = sdu_delivered e (rx_next e).
Proof.
  intros W. destruct (am_cfg_bounds e (ar_cfg _ _ _ W)) as [Hw Hm]. unfold sdu_delivered.
  rewrite (slot_eq Q e hi (rx_at e (window_size e)) (rx_next e) W);
    [done|apply rx_at_range; lia|apply W|].
  rewrite rx_at_mod by lia. rewrite <- (Z.mul_1_l (window_size e)) at 1. by rewrite Z.mod_add by lia.
Qed.

(** The SN at position [hi] is not delivered. *)
Lemma hi_not_delivered Q e hi : am_rx_core Q e hi → sdu_delivered e (rx_at e hi) = false.
Proof.
  intros W. pose proof (ar_hi _ _ _ W) as Hhi. destruct (decide (hi = window_size e)) as [E|E].
  - rewrite E, (delivered_window Q e hi W). apply W.
  - unfold sdu_delivered. rewrite (ar_empty _ _ _ W) by lia. done.
Qed.

(** ** A segment is stored *)

Lemma store_core Q e hi k p :
  am_rx_core Q e hi → p_sn p = rx_at e k → 0 <= k < window_size e → stored p → Q p →
  let e1 := e <| rx := nr_rlc_rx_manager_add_pdu (rx e) p |> in
  am_rx_core Q e1 (Z.max hi (k + 1)) ∧
  (∀ sn, sdu_delivered e1 sn = sdu_delivered e sn).
Proof.
  intros W Hsn Hk Hp HQ e1. pose proof (ar_hi _ _ _ W) as Hhi.
  pose proof (ar_slot _ _ _ W k Hk) as Hslot. rewrite <- Hsn in Hslot.
  assert (∀ sn, sdu_delivered e1 sn = sdu_delivered e sn) as Hdel.
  { intros sn. unfold sdu_delivered, rx_pdus, e1, nr_rlc_rx_manager_add_pdu. cbn [rx set_field set_rx].
    rewrite get_set_cases. case_decide as E; [|done].
    rewrite (insert_delivered Q (p_sn p)); [|exact Hslot|done].
    unfold nr_rlc_rx_manager_get_pdu_from_sn. by rewrite E. }
  assert (∀ j, 0 <= j < window_size e → rx_pdus e1 (rx_at e j)
    = if decide (j = k) then insert_by_so (rx_pdus e (p_sn p)) p else rx_pdus e (rx_at e j)) as Hget.
  { intros j Hj. unfold rx_pdus at 1, e1, nr_rlc_rx_manager_add_pdu. cbn [rx set_field set_rx].
    rewrite Hsn at 1. by rewrite (rx_pdus_set Q e hi k). }
  split; [|done]. destruct W as [W1 W2 W3 W4 W5 _ W7 W8 W9 W10]. split; try done.
  - destruct W1; by split.
  - destruct W3; by split.
  - change (window_size e1) with (window_size e). lia.
  - intros j Hj. change (rx_at e1 j) with (rx_at e j). rewrite Hget by done. case_decide as E.
    + subst j. rewrite <- Hsn. by apply slot_ok_insert.
    + by apply W7.
  - intros j Hj. change (window_size e1) with (window_size e) in Hj.
    change (rx_at e1 j) with (rx_at e j). rewrite Hget by lia.
    rewrite decide_False by lia. apply W8. lia.
  - rewrite Hdel. exact W9.
Qed.

(** ** An SDU is delivered *)

(** The entity after [reassemble_and_deliver] on the SN at position [k]. *)
Lemma reassemble_ok Q e hi k :
  am_rx_core Q e hi → 0 <= k < window_size e → sdu_full e (rx_at e k) = true →
  let sn := rx_at e k in
  returns (reassemble_and_deliver e sn) (λ e1,
    (∀ j, 0 <= j < window_size e → rx_pdus e1 (rx_at e j)
       = if decide (j = k) then release_data <$> rx_pdus e sn else rx_pdus e (rx_at e j)) ∧
    (∀ j, 0 <= j < window_size e → slot_ok Q (rx_at e j) (rx_pdus e1 (rx_at e j))) ∧
    sdu_delivered e1 sn = true ∧ k < hi ∧
    (∃ c s, e1 = e <| rx := rx_manager_set_pdus (rx e) sn (release_data <$> rx_pdus e sn) |>
                   <| rx_size := s |> <| common := c |> ∧ common_view c = common_view (common e)) ∧
    ∃ evs, events (common e1) = events (common e) ++ evs ∧ slot_delivers (rx_pdus e sn) evs).
Proof.
  intros W Hk Hf sn. unfold reassemble_and_deliver. unfold sdu_full in Hf. fold sn in Hf.
  pose proof (ar_slot _ _ _ W k Hk) as Hslot. fold sn in Hslot.
  destruct (delivered (rx_pdus e sn)) eqn:Hd; [done|].
  destruct (slot_ok_release Q sn _ Hslot Hd Hf) as [Hrel Hreld].
  pose proof (so_data _ _ _ Hslot Hd) as Hst.
  destruct (reassemble_all_ok (mk_reas [] false) (rx_pdus e sn)) as (r & Hr & _).
  { eapply Forall_impl; [exact Hst|]. by intros p [? _]. }
  { done. }
  rewrite Hr. cbn [mbind outcome_bind].
  assert (∀ j, 0 <= j < window_size e →
    nr_rlc_rx_manager_get_pdu_from_sn
      (rx_manager_set_pdus (rx e) sn (release_data <$> rx_pdus e sn)) (rx_at e j)
    = if decide (j = k) then release_data <$> rx_pdus e sn else rx_pdus e (rx_at e j)) as Hget.
  { intros j Hj. by apply (rx_pdus_set Q e hi k). }
  assert (∀ j, 0 <= j < window_size e → slot_ok Q (rx_at e j)
    (nr_rlc_rx_manager_get_pdu_from_sn
      (rx_manager_set_pdus (rx e) sn (release_data <$> rx_pdus e sn)) (rx_at e j))) as Hslots.
  { intros j Hj. rewrite Hget by done. case_decide as E; [by subst|]. by apply (ar_slot _ _ _ W). }
  assert (delivered (nr_rlc_rx_manager_get_pdu_from_sn
      (rx_manager_set_pdus (rx e) sn (release_data <$> rx_pdus e sn)) sn) = true) as Hdel.
  { by rewrite get_set_same. }
  assert (k < hi) as Hlt.
  { destruct (decide (k < hi)); [done|]. unfold sn in Hf. rewrite (ar_empty _ _ _ W k) in Hf by lia. done. }
  assert (slot_delivers (rx_pdus e sn) (if ra_bad r then [] else [deliver_sdu (ra_sdu r)])) as Hsd.
  { unfold slot_delivers. rewrite Hd, Hf. by exists r. }
  destruct r as [d []]; cbn [ra_bad ra_sdu] in *; apply returns_ok; (split_and!; try done).
  - exists (common e), (rx_size e - sumZ p_size (rx_pdus e sn)). split; [by destruct e|done].
  - exists []. by rewrite app_nil_r.
  - eexists _, (rx_size e - sumZ p_size (rx_pdus e sn)). split; [reflexivity|done].
  - eexists. by split; [reflexivity|].
Qed.

(** ** The window moves *)

Lemma mod_shift_eq w a b : 0 < w → a mod w = b mod w ↔ (a - b) mod w = 0.
Proof.
  intros Hw. split; intros H.
  - rewrite Zminus_mod, H, Z.sub_diag. apply Z.mod_0_l. lia.
  - replace a with ((a - b) + b) by lia. rewrite Zplus_mod, H, Z.add_0_l. apply Zmod_mod.
Qed.

Lemma mod_step w x : 0 < w → (x - 1) mod w = if decide (x mod w = 0) then w - 1 else x mod w - 1.
Proof.
  intros Hw. pose proof (Z.mod_pos_bound x w Hw). pose proof (Z.div_mod x w ltac:(lia)).
  case_decide.
  - symmetry. apply (Z.mod_unique _ _ (x / w - 1)); lia.
  - symmetry. apply (Z.mod_unique _ _ (x / w)); lia.
Qed.

(** From a head whose first [k] SNs are delivered, the loop frees exactly those. *)
Lemma free_delivered_ok m w k base fuel count :
  let get := nr_rlc_rx_manager_get_pdu_from_sn in
  rxm_wf m → m_size m = w → 0 <= base < 2 * w → Z.of_nat k <= w → (k < fuel)%nat →
  (∀ j, (j < k)%nat → delivered (get m ((base + Z.of_nat j) mod (2 * w))) = true) →
  (Z.of_nat k = w ∨ delivered (get m ((base + Z.of_nat k) mod (2 * w))) = false) →
  ∃ m', free_delivered fuel m (2 * w) base count
          = Ok (m', (base + Z.of_nat k) mod (2 * w), count + Z.of_nat k) ∧
    m_size m' = w ∧ m_start m' = m_start m ∧ m_sn_start m' = m_sn_start m ∧
    ∀ sn, 0 <= sn < 2 * w →
      get m' sn = if decide ((sn - base) mod w < Z.of_nat k) then [] else get m sn.
Proof.
  intros get. revert m base fuel count.
  induction k as [|k IH]; intros m base fuel count Wm Hsz Hb Hk Hfuel Hd Hu;
    (destruct fuel as [|fuel]; [lia|]); cbn [free_delivered]; fold get.
  - destruct Hu as [?|Hu]; [lia|]. rewrite Z.add_0_r, Z.mod_small in Hu by done.
    rewrite Hu, !Z.add_0_r, Z.mod_small by done. exists m. split_and!; try done.
    intros sn Hsn. pose proof (Z.mod_pos_bound (sn - base) w ltac:(lia)). by rewrite decide_False by lia.
  - pose proof (Hd 0%nat ltac:(lia)) as Hd0. rewrite Z.add_0_r, Z.mod_small in Hd0 by done.
    rewrite Hd0, cmod_nonneg by lia. set (m1 := nr_rlc_rx_manager_clear_pdu m base).
    set (b1 := (base + 1) mod (2 * w)).
    assert (0 <= b1 < 2 * w) as Hb1 by (apply Z.mod_pos_bound; lia).
    assert (∀ sn, 0 <= sn < 2 * w →
      get m1 sn = if decide ((sn - base) mod w = 0) then [] else get m sn) as Hm1.
    { intros sn Hsn. unfold get, m1. rewrite get_clear_cases, !get_pos_mod, Hsz by (done || lia).
      apply decide_ext, mod_shift_eq. lia. }
    assert (∀ j, 0 <= j → (b1 + j) mod (2 * w) = (base + (j + 1)) mod (2 * w)) as Hbj.
    { intros j Hj. unfold b1. rewrite Zplus_mod_idemp_l. f_equal. lia. }
    assert (∀ j, 0 <= j < w → delivered (get m1 ((b1 + j) mod (2 * w)))
      = if decide (j + 1 = w) then false else delivered (get m ((base + (j + 1)) mod (2 * w)))) as Hdel1.
    { intros j Hj. rewrite Hbj, Hm1 by (lia || apply Z.mod_pos_bound; lia).
      assert (((base + (j + 1)) mod (2 * w) - base) mod w = (j + 1) mod w) as ->.
      { rewrite Zminus_mod, mod_mul2_mod, <- Zminus_mod by lia. f_equal. lia. }
      destruct (decide (j + 1 = w)) as [E|E]; [rewrite E, Z.mod_same by lia; done|].
      rewrite Z.mod_small by lia. by rewrite decide_False by lia. }
    destruct (IH m1 b1 fuel (count + 1)) as (m' & Hr & Hs' & Hst' & Hss' & Hget').
    + destruct Wm; by split.
    + done.
    + done.
    + lia.
    + lia.
    + intros j Hj. rewrite Hdel1, decide_False by lia.
      specialize (Hd (S j) ltac:(lia)). by replace (Z.of_nat j + 1) with (Z.of_nat (S j)) by lia.
    + right. rewrite Hdel1 by lia. case_decide as E; [done|].
      destruct Hu as [?|Hu]; [lia|]. by replace (Z.of_nat k + 1) with (Z.of_nat (S k)) by lia.
    + exists m'. rewrite Hr. split_and!; try done.
      * rewrite Hbj by lia. replace (Z.of_nat k + 1) with (Z.of_nat (S k)) by lia.
        by replace (count + 1 + Z.of_nat k) with (count + Z.of_nat (S k)) by lia.
      * intros sn Hsn. rewrite Hget', Hm1 by done.
        assert ((sn - b1) mod w = (sn - base - 1) mod w) as ->.
        { unfold b1. rewrite Zminus_mod, mod_mul2_mod, <- Zminus_mod by lia. f_equal. lia. }
        pose proof (Z.mod_pos_bound (sn - base) w ltac:(lia)).
        rewrite mod_step by lia. repeat case_decide; try done; lia.
Qed.

(** The effect of a delivery on the window, moved by [c] SNs. *)
Record rx_step (Q : nr_rlc_pdu_t → Prop) (e : nr_rlc_entity_am_t) (hi c : Z)
    (e' : nr_rlc_entity_am_t) : Prop := {
  rs_c : 0 <= c <= hi;
  rs_next : rx_next e' = rx_at e c;
  rs_core : am_rx_core Q e' (hi - c);
  rs_status : modulus_rx e' (rx_highest_status e') <= hi - c;
  rs_sdeliv : sdu_delivered e' (rx_highest_status e') = false;
  rs_view : am_tx_view e' = am_tx_view e;
  rs_highest : rx_next_highest e' = rx_next_highest e;
  rs_trigger : rx_next_status_trigger e' = rx_next_status_trigger e;
  rs_timer : t_reassembly_start e' = t_reassembly_start e;
}.

Lemma rx_step_same Q e e1 hi v :
  am_rx_core Q e1 hi → am_tx_view e1 = am_tx_view e → rx_next e1 = rx_next e →
  0 <= rx_next e < sn_modulus e →
  rx_next_highest e1 = rx_next_highest e → rx_next_status_trigger e1 = rx_next_status_trigger e →
  t_reassembly_start e1 = t_reassembly_start e →
  0 <= v < sn_modulus e1 → modulus_rx e1 v <= hi → sdu_delivered e1 v = false →
  rx_step Q e hi 0 (e1 <| rx_highest_status := v |>).
Proof.
  intros W Hv Hn Hr H1 H2 H3 Hvr Hvp Hvd. pose proof (ar_hi _ _ _ W).
  split; try done; try lia.
  - by rewrite rx_at_0.
  - rewrite Z.sub_0_r. destruct W as [[] ? ? ? ? ? ? ? ? ?]. by split.
  - change (modulus_rx e1 v <= hi - 0). lia.
Qed.

(** A delivery behind the head of the window. *)
Lemma deliver_inside Q e hi k :
  am_rx_core Q e hi → 1 <= k < window_size e → sdu_full e (rx_at e k) = true →
  modulus_rx e (rx_highest_status e) <= hi → sdu_delivered e (rx_highest_status e) = false →
  returns (deliver_and_move e (rx_at e k)) (λ e', rx_step Q e hi 0 e' ∧
    ∃ evs, events (common e') = events (common e) ++ evs ∧ slot_delivers (rx_pdus e (rx_at e k)) evs).
Proof.
  intros W Hk Hf Hst Hsd. destruct (am_cfg_bounds e (ar_cfg _ _ _ W)) as [Hw Hm].
  pose proof (ar_next _ _ _ W) as Hn. unfold deliver_and_move.
  eapply returns_bind; [apply (reassemble_ok Q e hi k W ltac:(lia) Hf)|].
  intros e1 (Hget & Hslot & Hd & Hlt & (c & s & He1 & Hcv) & Hev).
  assert (∀ j, 0 <= j < window_size e → j ≠ k →
    sdu_delivered e1 (rx_at e j) = sdu_delivered e (rx_at e j)) as Hdj.
  { intros j Hj Hne. unfold sdu_delivered. by rewrite Hget, decide_False by done. }
  assert (am_rx_core Q e1 hi) as W1.
  { destruct W as [W1 W2 W3 W4 W5 W6 W7 W8 W9 W10].
    assert (sdu_delivered e1 (rx_next e) = false) as Hhead.
    { rewrite <- (rx_at_0 e), Hdj, rx_at_0 by (done || lia). done. }
    subst e1. split; try done; [destruct W1; by split|destruct W3; by split|].
    intros j Hj. assert (hi <= j < window_size e) as Hj' by exact Hj.
    refine (eq_trans (Hget j ltac:(lia)) _). rewrite decide_False by lia. by apply W8. }
  assert (rx_highest_status e1 = rx_highest_status e ∧ rx_next e1 = rx_next e ∧
    sn_modulus e1 = sn_modulus e ∧ window_size e1 = window_size e) as (E1 & E2 & E3 & E4)
    by (by subst e1).
  assert (∀ a, modulus_rx e1 a = modulus_rx e a) as E5
    by (intros; unfold modulus_rx; by rewrite E2, E3).
  assert (∀ a, rx_at e1 a = rx_at e a) as E6 by (intros; unfold rx_at; by rewrite E2, E3).
  assert (rx_at e k ≠ rx_next e) as Hne.
  { intros E. pose proof (modulus_rx_at e k Hn ltac:(lia)) as Hk0.
    rewrite E, <- (rx_at_0 e), modulus_rx_at in Hk0 by (done || lia). lia. }
  set (q := modulus_rx e (rx_highest_status e)) in *.
  pose proof (am_modulus_rx_range e _ Hn (ar_status _ _ _ W)) as Hq. fold q in Hq.
  pose proof (rx_at_modulus e _ Hn (ar_status _ _ _ W)) as Hqe. fold q in Hqe.
  pose proof (ar_hi _ _ _ W) as Hhi.
  destruct (Z.eqb_spec (rx_at e k) (rx_highest_status e1)) as [E|E].
  - destruct (skip_delivered_ok (sdu_delivered e1) (sn_modulus e1) (Z.to_nat (sn_modulus e1))
                (Z.to_nat (hi - k)) (rx_highest_status e1)) as (j & Hj & Hs & Hdj' & _).
    { lia. }
    { rewrite E1, E3. apply W. }
    { lia. }
    { rewrite <- E, Z2Nat.id, E3 by lia. unfold rx_at. rewrite Zplus_mod_idemp_l.
      replace (rx_next e + k + (hi - k)) with (rx_next e + hi) by lia.
      rewrite <- E3, <- E2. apply (hi_not_delivered Q e1 hi W1). }
    rewrite Hs. cbn [mbind outcome_bind]. set (v := (_ + Z.of_nat j) mod _) in *.
    assert (rx_at e k =? rx_next (e1 <| rx_highest_status := v |>) = false) as ->.
    { apply Z.eqb_neq. change (rx_at e k ≠ rx_next e1). by rewrite E2. }
    apply returns_ok. split; [|exact Hev].
    assert (v = rx_at e1 (k + Z.of_nat j)) as Hv.
    { unfold v. rewrite <- E, E6, E3. unfold rx_at. rewrite Zplus_mod_idemp_l. f_equal. lia. }
    apply rx_step_same; try done; try (by subst e1).
    + subst e1. unfold am_tx_view. cbn. by rewrite Hcv.
    + apply Z.mod_pos_bound. lia.
    + rewrite Hv, modulus_rx_at; [lia|by rewrite E2, E3|lia].
  - cbn [mbind outcome_bind].
    assert (rx_at e k =? rx_next e1 = false) as -> by (apply Z.eqb_neq; by rewrite E2).
    apply returns_ok. split; [|exact Hev].
    replace e1 with (e1 <| rx_highest_status := rx_highest_status e1 |>) by (by destruct e1).
    apply rx_step_same; try done; try (by subst e1).
    + subst e1. unfold am_tx_view. cbn. by rewrite Hcv.
    + rewrite E1, E3. apply W.
    + rewrite E1. rewrite E1, <- Hqe in E. rewrite <- Hqe.
      destruct (decide (q = window_size e)) as [Eq|Eq].
      * rewrite Eq, <- E6, <- E4, (delivered_window Q e1 hi W1). apply W1.
      * rewrite Hdj; [by rewrite Hqe|lia|congruence].
Qed.

(** Positions after the window has moved by [c]. *)
Lemma rx_at_moved e e' c k :
  0 < sn_modulus e → rx_next e' = rx_at e c → sn_modulus e' = sn_modulus e →
  rx_at e' k = rx_at e (c + k).
Proof.
  intros HM Hn Hm. unfold rx_at at 1. rewrite Hn, Hm. unfold rx_at.
  rewrite Zplus_mod_idemp_l. f_equal. lia.
Qed.

Lemma modulus_rx_moved e e' c a :
  0 <= rx_next e < sn_modulus e → rx_next e' = rx_at e c → sn_modulus e' = sn_modulus e →
  0 <= a < sn_modulus e → 0 <= c < sn_modulus e →
  modulus_rx e' a = if modulus_rx e a <? c then modulus_rx e a - c + sn_modulus e
                    else modulus_rx e a - c.
Proof.
  intros Hr Hn Hm Ha Hc. pose proof (am_modulus_rx_range e a Hr Ha).
  pose proof (rx_at_range e c ltac:(lia)) as Hr'. rewrite <- Hn, <- Hm in Hr'.
  rewrite (am_modulus_rx_mod e' a Hr') by lia. rewrite Hn, Hm. unfold rx_at.
  rewrite Zminus_mod_idemp_r. replace (a - (rx_next e + c)) with (a - rx_next e - c) by lia.
  rewrite <- Zminus_mod_idemp_l, <- am_modulus_rx_mod by done.
  destr_bool; symmetry.
  - apply (Z.mod_unique _ _ (-1)); lia.
  - apply (Z.mod_unique _ _ 0); lia.
Qed.

(** The delivered SDUs at the head of the window are freed and the window moves
    to the first SN that is not delivered. *)
Lemma slide_ok Q e hi c v cm s :
  let m1 := rx_manager_set_pdus (rx e) (rx_next e) (release_data <$> rx_pdus e (rx_next e)) in
  let e2 := e <| rx := m1 |> <| rx_size := s |> <| common := cm |> <| rx_highest_status := v |> in
  am_rx_core Q e hi → common_view cm = common_view (common e) →
  slot_ok Q (rx_next e) (release_data <$> rx_pdus e (rx_next e)) →
  delivered (release_data <$> rx_pdus e (rx_next e)) = true →
  1 <= c <= window_size e → c <= hi →
  (∀ j, 1 <= j < c → sdu_delivered e (rx_at e j) = true) →
  (c = window_size e ∨ sdu_delivered e (rx_at e c) = false) →
  0 <= v < sn_modulus e → c <= modulus_rx e v <= hi →
  (modulus_rx e v < window_size e → sdu_delivered e v = false) →
  returns
    ('(m, v, count) ← free_delivered (S (Z.to_nat (m_size (rx e2)))) (rx e2) (sn_modulus e2)
                        (rx_next e2) 0;
     let e3 := e2 <| rx_next := v |> in
     Ok (e3 <| rx := nr_rlc_rx_manager_set_start (nr_rlc_rx_manager_advance m count) v |>))
    (λ e', rx_step Q e hi c e' ∧ common e' = cm).
Proof.
  intros m1 e2 W Hcv Hrel Hd0 Hc Hchi Hdj Hdc Hv Hvp Hvd.
  destruct (am_cfg_bounds e (ar_cfg _ _ _ W)) as [Hw HM]. pose proof (ar_next _ _ _ W) as Hn.
  pose proof (ar_hi _ _ _ W) as Hhi. pose proof (ar_size _ _ _ W) as Hsz.
  assert (∀ j, 0 <= j < window_size e → nr_rlc_rx_manager_get_pdu_from_sn m1 (rx_at e j)
    = if decide (j = 0) then release_data <$> rx_pdus e (rx_next e) else rx_pdus e (rx_at e j)) as Hm1.
  { intros j Hj. unfold m1. rewrite <- (rx_at_0 e) at 1 by done.
    by rewrite (rx_pdus_set Q e hi 0) by (done || lia). }
  assert (rxm_wf m1) as Wm1 by (destruct (ar_rxm _ _ _ W); by split).
  destruct (free_delivered_ok m1 (window_size e) (Z.to_nat c) (rx_next e)
              (S (Z.to_nat (m_size (rx e2)))) 0) as (m' & Hr & Hs' & Hst' & Hss' & Hget').
  { done. }
  { done. }
  { lia. }
  { lia. }
  { change (m_size (rx e2)) with (m_size (rx e)). lia. }
  { intros j Hj. change (delivered (nr_rlc_rx_manager_get_pdu_from_sn m1
      ((rx_next e + Z.of_nat j) mod (2 * window_size e))) = true). rewrite <- HM.
    fold (rx_at e (Z.of_nat j)). rewrite Hm1 by lia. case_decide; [done|]. apply Hdj. lia. }
  { rewrite Z2Nat.id by lia. destruct Hdc as [->|Hdc]; [by left|].
    destruct (decide (c = window_size e)) as [->|Hne]; [by left|right].
    rewrite <- HM. fold (rx_at e c). rewrite Hm1 by lia. by rewrite decide_False by lia. }
  rewrite Z2Nat.id in Hr, Hget' by lia.
  change (sn_modulus e2) with (sn_modulus e). change (rx_next e2) with (rx_next e).
  change (rx e2) with m1. rewrite HM at 1. change (m_size (rx e2)) with (m_size m1) in Hr. rewrite Hr.
  cbn [mbind outcome_bind]. apply returns_ok. rewrite Z.add_0_l. split; [|done].
  set (e' := set_field rx _ _).
  assert (rx_next e' = rx_at e c) as Hn' by (unfold rx_at; by rewrite HM).
  assert (e' = e2 <| rx_next := rx_at e c |> <| rx := nr_rlc_rx_manager_set_start
    (nr_rlc_rx_manager_advance m' c) (rx_at e c) |>) as He' by (unfold e', rx_at; by rewrite HM).
  clearbody e'.
  assert (rx e' = rx_manager_slide m' c) as Hrx.
  { subst e'. unfold rx_manager_slide, rx_at. rewrite Hss', Hs', <- HM.
    change (m_sn_start m1) with (m_sn_start (rx e)). by rewrite (ar_start _ _ _ W). }
  assert (rxm_wf m') as Wm'.
  { destruct Wm1 as [A B C D]. change (m_size m1) with (m_size (rx e)) in *. rewrite Hsz in *.
    split; rewrite ?Hs', ?Hst', ?Hss'; (done || lia). }
  assert (∀ k, 0 <= k < window_size e → rx_pdus e' (rx_at e' k)
    = if decide (c + k < window_size e) then rx_pdus e (rx_at e (c + k)) else []) as Hget.
  { intros k Hk. rewrite (rx_at_moved e e' c k) by (lia || by subst e').
    pose proof (rx_at_range e (c + k) ltac:(lia)) as Hr'. unfold rx_pdus at 1.
    rewrite Hrx, get_slide, Hget' by (done || lia).
    assert ((rx_at e (c + k) - rx_next e) mod window_size e = (c + k) mod window_size e) as ->.
    { rewrite Zminus_mod, rx_at_mod, <- Zminus_mod by lia. f_equal. lia. }
    destruct (decide (c + k < window_size e)).
    - rewrite Z.mod_small, decide_False by lia. rewrite Hm1, decide_False by lia. done.
    - rewrite decide_True; [done|]. apply Z.le_lt_trans with (c + k - window_size e); [|lia].
      replace (c + k) with (c + k - window_size e + 1 * window_size e) at 1 by lia.
      rewrite Z.mod_add by lia. apply Z.mod_le; lia. }
  pose proof (rx_at_modulus e v Hn Hv) as Hve.
  assert (rx_at e' (modulus_rx e v - c) = v) as Hve'.
  { rewrite (rx_at_moved e e' c) by (lia || by subst e').
    by replace (c + (modulus_rx e v - c)) with (modulus_rx e v) by lia. }
  assert (sdu_delivered e' v = false) as Hvd'.
  { unfold sdu_delivered. rewrite <- Hve', Hget by lia. case_decide; [|done].
    replace (c + (modulus_rx e v - c)) with (modulus_rx e v) in * by lia. rewrite Hve. by apply Hvd. }
  assert (0 <= rx_next e' < sn_modulus e') as Hnr'.
  { rewrite Hn'. replace (sn_modulus e') with (sn_modulus e) by (by subst e'). apply rx_at_range. lia. }
  assert (sdu_delivered e' (rx_next e') = false) as Hhd.
  { unfold sdu_delivered. rewrite <- (rx_at_0 e' Hnr'), Hget by lia.
    case_decide; [|done]. rewrite Z.add_0_r in *. destruct Hdc as [?|Hdc]; [lia|exact Hdc]. }
  assert (am_rx_core Q e' (hi - c)) as W'.
  { split; try (subst e'; done).
    - subst e'. by destruct (ar_cfg _ _ _ W).
    - rewrite Hrx. apply rxm_wf_slide; [done|lia].
    - subst e'. change (0 <= hi - c <= window_size e). lia.
    - intros k Hk. rewrite Hget by (subst e'; exact Hk). case_decide; [|apply slot_ok_nil].
      rewrite (rx_at_moved e e' c) by (lia || by subst e'). apply (ar_slot _ _ _ W). lia.
    - intros k Hk. assert (hi - c <= k < window_size e) as Hk' by (subst e'; exact Hk).
      rewrite Hget by lia. case_decide; [|done]. apply (ar_empty _ _ _ W). lia. }
  split; try done; try (subst e'; done); try lia.
  - replace (rx_highest_status e') with v by (by subst e').
    rewrite <- Hve', modulus_rx_at; [lia|apply W'|]. replace (sn_modulus e') with (sn_modulus e) by (by subst e'). lia.
  - subst e'. unfold am_tx_view. cbn. by rewrite Hcv.
Qed.

(** Every SN of the window but [rx_next] has been delivered, and
    [rx_highest_status] has not moved. *)
Definition window_complete (e : nr_rlc_entity_am_t) : Prop :=
  rx_highest_status e = rx_next e ∧
  ∀ k, 1 <= k < window_size e → sdu_delivered e (rx_at e k) = true.

(** A delivery at the head of the window: it moves, unless the window is complete:
    then the loop on [rx_highest_status] does not end. *)
Lemma deliver_head Q e hi :
  am_rx_core Q e hi → sdu_full e (rx_next e) = true →
  modulus_rx e (rx_highest_status e) <= hi → sdu_delivered e (rx_highest_status e) = false →
  (returns (deliver_and_move e (rx_next e)) (λ e', (∃ c, rx_step Q e hi c e') ∧
    ∃ evs, events (common e') = events (common e) ++ evs ∧ slot_delivers (rx_pdus e (rx_next e)) evs) ∧
   ¬ window_complete e) ∨
  (deliver_and_move e (rx_next e) = Diverge ∧ window_complete e).
Proof.
  intros W Hf Hst Hsd. destruct (am_cfg_bounds e (ar_cfg _ _ _ W)) as [Hw HM].
  pose proof (ar_next _ _ _ W) as Hn. pose proof (ar_hi _ _ _ W) as Hhi.
  pose proof (rx_at_0 e Hn) as H0. pose proof (ar_status _ _ _ W) as Hsr.
  pose proof (rx_at_modulus e _ Hn Hsr) as Hqe. pose proof (am_modulus_rx_range e _ Hn Hsr) as Hqr.
  set (q := modulus_rx e (rx_highest_status e)) in *. unfold deliver_and_move. rewrite <- H0 in Hf.
  destruct (reassemble_ok Q e hi 0 W ltac:(lia) Hf)
    as (e1 & Hr & Hget & Hslot & Hd & Hlt & (cm & s & He1 & Hcv) & evs & Hev & Hdel).
  rewrite H0 in *. rewrite Hr. cbn [mbind outcome_bind].
  assert (∀ j, 1 <= j < window_size e → sdu_delivered e1 (rx_at e j) = sdu_delivered e (rx_at e j)) as Hdj.
  { intros j Hj. unfold sdu_delivered. by rewrite Hget, decide_False by lia. }
  assert (slot_ok Q (rx_next e) (release_data <$> rx_pdus e (rx_next e)) ∧
    delivered (release_data <$> rx_pdus e (rx_next e)) = true) as [Hrel Hreld].
  { specialize (Hslot 0 ltac:(lia)). unfold sdu_delivered in Hd. rewrite <- H0 in Hd.
    rewrite Hget, decide_True, H0 in Hslot by (done || lia).
    rewrite Hget, decide_True in Hd by (done || lia). done. }
  assert (∀ c v, 1 <= c <= window_size e → c <= hi →
    (∀ j, 1 <= j < c → sdu_delivered e (rx_at e j) = true) →
    (c = window_size e ∨ sdu_delivered e (rx_at e c) = false) →
    0 <= v < sn_modulus e → c <= modulus_rx e v <= hi →
    (modulus_rx e v < window_size e → sdu_delivered e v = false) →
    let e2 := e1 <| rx_highest_status := v |> in
    returns (if rx_next e =? rx_next e2 then
       '(m, v, count) ← free_delivered (S (Z.to_nat (m_size (rx e2)))) (rx e2) (sn_modulus e2)
                          (rx_next e2) 0;
       let e3 := e2 <| rx_next := v |> in
       Ok (e3 <| rx := nr_rlc_rx_manager_set_start (nr_rlc_rx_manager_advance m count) v |>)
     else Ok e2) (λ e', (∃ c, rx_step Q e hi c e') ∧
       ∃ evs, events (common e') = events (common e) ++ evs ∧ slot_delivers (rx_pdus e (rx_next e)) evs)) as Hslide.
  { intros c v Hc Hchi Hj Hcu Hv Hvp Hvd e2. 
    assert (rx_next e =? rx_next e2 = true) as -> by (unfold e2; rewrite He1; apply Z.eqb_refl).
    unfold e2. rewrite He1.
    eapply returns_mono; [by apply (slide_ok Q e hi c v cm s)|].
    intros e' [Hstep Hcm]. split; [by exists c|]. exists evs. rewrite Hcm. subst e1. done. }
  destruct (first_false (λ j, sdu_delivered e (rx_at e (Z.of_nat j + 1)))
              (Z.to_nat (window_size e - 1))) as [(c & Hc & Hcu & Hcj)|Hall].
  - set (c' := Z.of_nat c + 1) in *.
    assert (∀ j, 1 <= j < c' → sdu_delivered e (rx_at e j) = true) as Hj.
    { intros j Hj. specialize (Hcj (Z.to_nat (j - 1)) ltac:(lia)).
      by replace (Z.of_nat (Z.to_nat (j - 1)) + 1) with j in Hcj by lia. }
    assert (c' <= hi) as Hchi.
    { destruct (decide (c' <= hi)) as [|Hgt]; [done|]. exfalso.
      specialize (Hj hi ltac:(lia)). by rewrite (hi_not_delivered Q e hi W) in Hj. }
    left. split; [|intros [_ Hw']; by rewrite Hw' in Hcu by lia].
    destruct (Z.eqb_spec (rx_next e) (rx_highest_status e1)) as [E|E].
    + destruct (skip_delivered_ok (sdu_delivered e1) (sn_modulus e) (Z.to_nat (sn_modulus e))
                  (Z.to_nat c') (rx_next e)) as (j & Hjc & Hs & Hju & _); [lia|done|lia| |].
      { rewrite Z2Nat.id by lia. fold (rx_at e c'). by rewrite Hdj by lia. }
      fold (rx_at e (Z.of_nat j)) in Hs, Hju.
      assert (Z.of_nat j = c') as Hjeq.
      { destruct (decide (Z.of_nat j = c')) as [|Hne]; [done|]. exfalso.
        destruct (decide (j = 0%nat)) as [->|Hj0]; [change (Z.of_nat 0) with 0 in Hju; by rewrite H0, Hd in Hju|].
        rewrite Hdj, Hj in Hju by lia. done. }
      rewrite <- E. replace (sn_modulus e1) with (sn_modulus e) by (by subst e1). rewrite Hs.
      cbn [mbind outcome_bind]. rewrite Hjeq.
      apply (Hslide c'); try done; try lia; try (by right).
      * apply rx_at_range. lia.
      * rewrite modulus_rx_at by lia. lia.
    + cbn [mbind outcome_bind].
      replace e1 with (e1 <| rx_highest_status := rx_highest_status e |>) by (subst e1; by destruct e).
      replace (rx_highest_status e1) with (rx_highest_status e) in E by (by subst e1).
      assert (c' <= q) as Hcq.
      { destruct (decide (c' <= q)) as [|Hgt]; [done|]. exfalso.
        destruct (decide (q = 0)) as [Eq|Eq]; [rewrite Eq, H0 in Hqe; by rewrite Hqe in E|].
        specialize (Hj q ltac:(lia)). by rewrite Hqe, Hsd in Hj. }
      apply (Hslide c'); try done; try lia; by right.
  - assert (∀ j, 1 <= j < window_size e → sdu_delivered e (rx_at e j) = true) as Hj.
    { intros j Hj. specialize (Hall (Z.to_nat (j - 1)) ltac:(lia)). cbn beta in Hall.
      by replace (Z.of_nat (Z.to_nat (j - 1)) + 1) with j in Hall by lia. }
    destruct (Z.eqb_spec (rx_next e) (rx_highest_status e1)) as [E|E].
    + right. split; [|split; [by rewrite E; subst e1|done]].
      replace (sn_modulus e1) with (sn_modulus e) by (by subst e1).
      rewrite skip_delivered_diverges; [done|lia|rewrite <- E; done|].
      intros a Ha. set (p := modulus_rx e a mod window_size e).
      assert (0 <= p < window_size e) as Hp by (apply Z.mod_pos_bound; lia).
      assert (rx_pdus e1 a = rx_pdus e1 (rx_at e p)) as Hap.
      { unfold rx_pdus, nr_rlc_rx_manager_get_pdu_from_sn. do 2 f_equal.
        subst e1. change (get_pos (rx e) a = get_pos (rx e) (rx_at e p)).
        rewrite !(get_pos_rx Q e hi) by (done || apply rx_at_range; lia).
        rewrite rx_at_mod by lia. unfold p. rewrite Zplus_mod_idemp_r, <- rx_at_mod by lia.
        by rewrite rx_at_modulus. }
      unfold sdu_delivered. rewrite Hap. fold (sdu_delivered e1 (rx_at e p)).
      destruct (decide (p = 0)) as [->|]; [by rewrite H0|]. rewrite Hdj by lia. apply Hj. lia.
    + left. split; [|intros [Hw' _]; apply E; by subst e1]. cbn [mbind outcome_bind].
      replace e1 with (e1 <| rx_highest_status := rx_highest_status e |>) by (subst e1; by destruct e).
      replace (rx_highest_status e1) with (rx_highest_status e) in E by (by subst e1).
      assert (q = window_size e) as Hqw.
      { destruct (decide (q = window_size e)) as [|Hne]; [done|]. exfalso.
        destruct (decide (q = 0)) as [Eq|Eq]; [rewrite Eq, H0 in Hqe; by rewrite Hqe in E|].
        specialize (Hj q ltac:(lia)). by rewrite Hqe, Hsd in Hj. }
      apply (Hslide (window_size e)); try done; try lia.
Qed.

(** ** Reception actions *)

Lemma modulus_rx_succ e k :
  0 <= rx_next e < sn_modulus e → 0 <= k → k + 1 < sn_modulus e →
  modulus_rx e (cmod (rx_at e k + 1) (sn_modulus e)) = k + 1.
Proof.
  intros Hn Hk HkM. pose proof (rx_at_range e k ltac:(lia)). rewrite cmod_nonneg by lia.
  unfold rx_at. rewrite Zplus_mod_idemp_l.
  replace (rx_next e + k + 1) with (rx_next e + (k + 1)) by lia.
  apply (modulus_rx_at e (k + 1)); lia.
Qed.

(** The PDU is in the buffer and [rx_next_highest] accounts for it. *)
Lemma store_wf Q e k p :
  am_rx_wf Q e → p_sn p = rx_at e k → 0 <= k < window_size e → stored p → Q p →
  let e0 := e <| rx := nr_rlc_rx_manager_add_pdu (rx e) p |> in
  let e1 := if 0 <=? sn_compare_rx e0 (p_sn p) (rx_next_highest e0)
            then e0 <| rx_next_highest := cmod (p_sn p + 1) (sn_modulus e0) |> else e0 in
  am_rx_wf Q e1 ∧ am_tx_view e1 = am_tx_view e ∧ common e1 = common e ∧
  rx_next e1 = rx_next e ∧ (∀ a, rx_at e1 a = rx_at e a) ∧
  rx_pdus e1 (p_sn p) = insert_by_so (rx_pdus e (p_sn p)) p ∧
  (window_complete e1 ↔ window_complete e).
Proof.
  intros W Hsn Hk Hp HQ e0 e1. pose proof (aw_core _ _ W) as C.
  destruct (am_cfg_bounds e (ar_cfg _ _ _ C)) as [Hw HM]. pose proof (ar_next _ _ _ C) as Hn.
  destruct (store_core Q e _ k p C Hsn Hk Hp HQ) as [C0 Hdel]. fold e0 in C0, Hdel.
  assert (sn_compare_rx e0 (p_sn p) (rx_next_highest e0) = k - modulus_rx e (rx_next_highest e)) as Hcmp.
  { unfold sn_compare_rx. change (modulus_rx e0) with (modulus_rx e). rewrite Hsn.
    rewrite modulus_rx_at by lia. done. }
  set (hi := modulus_rx e (rx_next_highest e)) in *.
  pose proof (am_modulus_rx_range e _ Hn (aw_highest _ _ W)) as Hhr. fold hi in Hhr.
  assert (∃ v, e1 = e0 <| rx_next_highest := v |> ∧ 0 <= v < sn_modulus e ∧
    modulus_rx e v = Z.max hi (k + 1)) as (v & He1 & Hv & Hvp).
  { unfold e1. rewrite Hcmp. destruct (Z.leb_spec 0 (k - hi)).
    - eexists. split; [reflexivity|]. pose proof (rx_at_range e k ltac:(lia)). rewrite Hsn.
      change (sn_modulus e0) with (sn_modulus e). split.
      + apply cmod_range; lia.
      + rewrite (modulus_rx_succ e k) by lia. lia.
    - exists (rx_next_highest e). split; [by destruct e|]. split; [apply W|]. fold hi. lia. }
  clearbody e1. subst e1. pose proof (aw_status _ _ W) as Hst. fold hi in Hst.
  assert (∀ a, sdu_delivered (e0 <| rx_next_highest := v |>) a = sdu_delivered e a) as Hdel' by exact Hdel.
  split_and!; try done.
  - split; try done.
    + change (modulus_rx (set_field rx_next_highest v e0)) with (modulus_rx e).
      change (rx_next_highest (set_field rx_next_highest v e0)) with v. rewrite Hvp.
      destruct C0 as [[] ? ? ? ? ? ? ? ? ?]. by split.
    + change (modulus_rx e (rx_highest_status e) <= modulus_rx e v). lia.
    + rewrite Hdel'. apply W.
    + apply W.
    + intros Ht. pose proof (aw_timer _ _ W Ht) as Htm. fold hi in Htm.
      change (1 <= modulus_rx e (rx_next_status_trigger e) <= modulus_rx e v). lia.
  - apply get_set_same.
  - split; intros [Hc1 Hc2]; (split; [exact Hc1|]); intros j Hj.
    + rewrite <- Hdel'. by apply Hc2.
    + rewrite Hdel'. by apply Hc2.
Qed.

(** The timer at the end of the reception actions. *)
Lemma am_reception_timer_ok Q e c e' :
  am_rx_wf Q e → rx_step Q e (modulus_rx e (rx_next_highest e)) c e' →
  am_rx_wf Q (reception_timer e') ∧ am_tx_view (reception_timer e') = am_tx_view e ∧
  common (reception_timer e') = common e'.
Proof.
  intros W S. pose proof (aw_core _ _ W) as C. pose proof (rs_core _ _ _ _ _ S) as C'.
  destruct (am_cfg_bounds e (ar_cfg _ _ _ C)) as [Hw HM]. pose proof (ar_next _ _ _ C) as Hn.
  set (hi := modulus_rx e (rx_next_highest e)) in *. pose proof (rs_c _ _ _ _ _ S) as Hc.
  pose proof (ar_hi _ _ _ C) as Hhi. pose proof (rs_view _ _ _ _ _ S) as Hv.
  assert (sn_modulus e' = sn_modulus e ∧ window_size e' = window_size e) as [EM EW]
    by (unfold am_tx_view in Hv; split; congruence).
  assert (∀ a, 0 <= a < sn_modulus e → modulus_rx e' a =
    if modulus_rx e a <? c then modulus_rx e a - c + sn_modulus e else modulus_rx e a - c) as Hmv.
  { intros a Ha. apply modulus_rx_moved; try done; try lia. apply S. }
  assert (0 <= rx_next_highest e' < sn_modulus e') as Hhr.
  { rewrite EM, (rs_highest _ _ _ _ _ S). apply W. }
  assert (modulus_rx e' (rx_next_highest e') = hi - c) as Hhi'.
  { rewrite (rs_highest _ _ _ _ _ S), Hmv by apply W. fold hi. destruct (Z.ltb_spec hi c); lia. }
  assert (am_rx_wf Q (e' <| t_reassembly_start := 0 |>)) as W0.
  { split; try done.
    - change (modulus_rx (set_field t_reassembly_start 0 e')) with (modulus_rx e').
      change (rx_next_highest (set_field t_reassembly_start 0 e')) with (rx_next_highest e').
      rewrite Hhi'. destruct C' as [[] ? ? ? ? ? ? ? ? ?]. by split.
    - change (modulus_rx e' (rx_highest_status e') <= modulus_rx e' (rx_next_highest e')).
      rewrite Hhi'. apply S.
    - apply S.
    - change (0 <= rx_next_status_trigger e' < sn_modulus e').
      rewrite EM, (rs_trigger _ _ _ _ _ S). apply W. }
  assert (modulus_rx e' (cmod (rx_next e' + 1) (sn_modulus e')) = 1) as Hnext.
  { pose proof (modulus_rx_succ e' 0 (ar_next _ _ _ C') ltac:(lia) ltac:(lia)) as H1.
    rewrite rx_at_0 in H1 by apply C'. exact H1. }
  assert (∀ x, let e2 := e' <| t_reassembly_start := 0 |> in
    let e3 := if x : bool then e2 <| t_reassembly_start := t_current e2 |>
                        <| rx_next_status_trigger := rx_next_highest e2 |> else e2 in
    (x = true → 1 <= hi - c) →
    am_rx_wf Q e3 ∧ am_tx_view e3 = am_tx_view e ∧ common e3 = common e') as Hstart.
  { intros x e2 e3 Hx. destruct x; [|split_and!; done]. unfold e3. split_and!; [|done|done].
    destruct W0 as [C0 ? ? ? ? ?]. split; try done; [by destruct C0 as [[] ? ? ? ? ? ? ? ? ?]|].
    intros _. change (1 <= modulus_rx e' (rx_next_highest e') <= modulus_rx e' (rx_next_highest e')).
    specialize (Hx eq_refl). lia. }
  assert (let x := (0 <? sn_compare_rx e' (rx_next_highest e') (cmod (rx_next e' + 1) (sn_modulus e')))
      || ((rx_next_highest e' =? cmod (rx_next e' + 1) (sn_modulus e'))
          && sdu_has_missing_bytes e' (rx_next e')) in x = true → 1 <= hi - c) as Hx.
  { intros x [Hb|Hb]%orb_true_iff.
    - apply Z.ltb_lt in Hb. unfold sn_compare_rx in Hb. rewrite Hnext, Hhi' in Hb. lia.
    - apply andb_true_iff in Hb as [Hb _]. apply Z.eqb_eq in Hb. rewrite <- Hb, Hhi' in Hnext. lia. }
  specialize (Hstart _ Hx). cbv zeta in Hstart. unfold reception_timer.
  destruct (Z.eqb_spec (t_reassembly_start e') 0) as [E|E]; cbn [negb].
  { assert (e' <| t_reassembly_start := 0 |> = e') as Ee by (destruct e'; cbn in *; by subst).
    rewrite Ee in Hstart. rewrite E. exact Hstart. }
  match goal with |- context [if ?b then e' <| t_reassembly_start := 0 |> else e'] =>
    destruct b eqn:Eb end; [exact Hstart|].
  rewrite (proj2 (Z.eqb_neq _ _) E). split_and!; [|apply S|done].
  destruct W0 as [C0 H1 H2 H3 H4 _]. split; try done; [by destruct C0 as [[] ? ? ? ? ? ? ? ? ?]|].
  intros _. rewrite Hhi', (rs_trigger _ _ _ _ _ S).
  rewrite (rs_timer _ _ _ _ _ S) in E. pose proof (aw_timer _ _ W E) as Ht. fold hi in Ht.
  apply orb_false_iff in Eb as [Eb Eb3]. apply orb_false_iff in Eb as [Eb1 _].
  apply Z.eqb_neq in Eb1. rewrite (rs_trigger _ _ _ _ _ S) in Eb1, Eb3.
  pose proof (Hmv _ (aw_trigger _ _ W)) as Htm.
  destruct (Z.ltb_spec (modulus_rx e (rx_next_status_trigger e)) c) as [Hlt|Hge].
  - exfalso. apply andb_false_iff in Eb3 as [Ew|Ew]; apply negb_false_iff in Ew.
    + apply Z.ltb_lt in Ew. lia.
    + apply Z.eqb_eq in Ew. pose proof (ar_next _ _ _ C') as Hn'. rewrite cmod_nonneg in Ew by lia.
      fold (rx_at e' (window_size e')) in Ew. rewrite Ew in Htm, Ht, Hlt. rewrite modulus_rx_at in Htm; lia.
  - assert (modulus_rx e (rx_next_status_trigger e) ≠ c) as Hne; [|lia].
    intros Ec. apply Eb1. rewrite (rs_next _ _ _ _ _ S), <- Ec. symmetry.
    apply rx_at_modulus; [done|apply W].
Qed.

(** Stored among the segments [l] of its SN, [p] makes an SDU complete. *)
Definition completes_sdu (l : list nr_rlc_pdu_t) (p : nr_rlc_pdu_t) : Prop :=
  (if delivered (insert_by_so l p) then false else sdu_full_from (-1) (insert_by_so l p)) = true.

(** Reception of a segment of the window. *)
Lemma am_reception_actions_ok Q e k p :
  am_rx_wf Q e → p_sn p = rx_at e k → 0 <= k < window_size e → stored p → Q p →
  let e0 := e <| rx := nr_rlc_rx_manager_add_pdu (rx e) p |> in
  let full := window_complete e ∧ p_sn p = rx_next e ∧ completes_sdu (rx_pdus e (p_sn p)) p in
  (returns (reception_actions e0 p) (λ e', am_rx_wf Q e' ∧ am_tx_view e' = am_tx_view e ∧
    ∃ evs, events (common e') = events (common e) ++ evs ∧ slot_delivers (insert_by_so (rx_pdus e (p_sn p)) p) evs) ∧
   ¬ full) ∨
  (reception_actions e0 p = Diverge ∧ full).
Proof.
  intros W Hsn Hk Hp HQ e0 full. unfold reception_actions, reception_update.
  destruct (store_wf Q e k p W Hsn Hk Hp HQ) as (W1 & Hv1 & Hc1 & Hn1 & Hat & Hslot & Hwc).
  set (e1 := if 0 <=? _ then _ else _) in *. pose proof (aw_core _ _ W1) as C1.
  assert (full ↔ window_complete e1 ∧ p_sn p = rx_next e1 ∧ sdu_full e1 (p_sn p) = true) as ->.
  { unfold full, sdu_full, completes_sdu. by rewrite Hwc, Hn1, Hslot. }
  clear full. rewrite <- Hslot.
  set (hi := modulus_rx e1 (rx_next_highest e1)) in *.
  assert (window_size e1 = window_size e) as EW by (unfold am_tx_view in Hv1; congruence).
  assert (∀ m P, returns m (λ e2, (∃ c, rx_step Q e1 hi c e2) ∧
      ∃ evs, events (common e2) = events (common e1) ++ evs ∧ slot_delivers (rx_pdus e1 (p_sn p)) evs) →
    (∀ e', am_rx_wf Q e' ∧ am_tx_view e' = am_tx_view e ∧
      (∃ evs, events (common e') = events (common e) ++ evs ∧ slot_delivers (rx_pdus e1 (p_sn p)) evs) → P e') →
    returns (m ≫= λ e2, Ok (reception_timer e2)) P) as Hend.
  { intros m P Hm HP. eapply returns_bind; [exact Hm|]. intros e2 [[c Hstep] Hev].
    apply returns_ok, HP. destruct (am_reception_timer_ok Q e1 c e2 W1 Hstep) as (W2 & Hv2 & Hc2).
    split_and!; [done|congruence|]. rewrite Hc2, <- Hc1. exact Hev. }
  destruct (sdu_full e1 (p_sn p)) eqn:Hf.
  - destruct (decide (k = 0)) as [E|E].
    + assert (p_sn p = rx_next e1) as Hx.
      { rewrite Hsn, E, <- Hat. apply rx_at_0. apply C1. }
      rewrite Hx in *.
      destruct (deliver_head Q e1 hi C1 Hf (aw_status _ _ W1) (aw_sdeliv _ _ W1)) as [Hr|[Hd Hw]].
      * left. destruct Hr as [Hr Hnw]. split; [by apply Hend|by intros [Hw _]].
      * right. split; [by rewrite Hd|auto].
    + left. split; cycle 1.
      { intros (_ & Hx & _). apply E. pose proof (ar_next _ _ _ (aw_core _ _ W)) as Hn0.
        destruct (am_cfg_bounds e (ar_cfg _ _ _ (aw_core _ _ W))).
        pose proof (modulus_rx_at e k Hn0 ltac:(lia)) as Hka. pose proof (modulus_rx_at e 0 Hn0 ltac:(lia)) as H0a.
        rewrite <- Hsn, Hx, Hn1, <- (rx_at_0 e Hn0) in Hka. lia. }
      rewrite Hsn, <- Hat in *. apply Hend; [|done].
      eapply returns_mono; [apply (deliver_inside Q e1 hi k C1 ltac:(lia) Hf
        (aw_status _ _ W1) (aw_sdeliv _ _ W1))|].
      intros e2 [Hs Hev]. split; [by exists 0|done].
  - left. split; [|by intros (_ & _ & ?)]. apply Hend; [|done]. apply returns_ok. split.
    + exists 0. replace e1 with (e1 <| rx_highest_status := rx_highest_status e1 |>) at 2
        by (by destruct e1).
      apply rx_step_same; try done; apply C1 || apply W1.
    + exists []. rewrite app_nil_r. split; [done|]. unfold slot_delivers. unfold sdu_full in Hf.
      destruct (delivered (rx_pdus e1 (p_sn p))); [done|]. cbn [negb andb]. by rewrite Hf.
Qed.

(** ** Reading a data PDU *)

(** A field is either read, or beyond the end of the PDU. *)
Lemma get_or_elim {A} (R : outcome A → Prop) err buf size pos count d k :
  dec_at buf size pos d → size <= zlen buf → 0 <= pos <= 8 * size → 0 <= count <= 31 →
  (8 * size < pos + count → R err) →
  (∀ d', dec_at buf size (pos + count) d' → pos + count <= 8 * size →
     R (k (bits_val (bits_at buf pos count)) d')) →
  R (get_or err d count k).
Proof.
  intros Hd Hs Hp Hc He Hk. unfold get_or.
  destruct (get_bits_cases buf size pos count d Hd Hs Hp Hc) as ([v d'] & -> & H).
  cbn [mbind outcome_bind]. unfold nr_rlc_pdu_decoder_in_error.
  destruct H as [(-> & _ & Hend)|(-> & _ & Hd' & Hend)]; [by apply He|].
  rewrite (proj1 Hd'). by apply Hk.
Qed.

Definition am_header_size (len : Z) (is_first : bool) : Z :=
  (if len =? 18 then 3 else 2) + (if is_first then 0 else 2).

Lemma am_header_size_range len is_first : 2 <= am_header_size len is_first <= 5.
Proof. unfold am_header_size. destruct (len =? 18), is_first; lia. Qed.

(** The segment a data PDU carries, read from its bits: D/C, P, SI, reserved
    bits, SN, SO. *)
Definition am_segment (len : Z) (buffer : bytes) (size : Z) : nr_rlc_pdu_t :=
  let si := bits_val (bits_at buffer 2 2) in
  let is_first := Z.land si 2 =? 0 in
  let is_last := Z.land si 1 =? 0 in
  let pos := 4 + (if len =? 18 then 2 else 0) in
  let sn := bits_val (bits_at buffer pos len) in
  let so := if is_first then 0 else bits_val (bits_at buffer (pos + len) 16) in
  let header := am_header_size len is_first in
  mk_pdu sn (Some (take (Z.to_nat (size - header)) (drop (Z.to_nat header) buffer)))
    (size - header) so is_first is_last.

(** The checks a segment has passed when it is stored. *)
Record am_accepts (e : nr_rlc_entity_am_t) (p : nr_rlc_pdu_t) : Prop := {
  aa_stored : stored p;
  aa_sn : 0 <= p_sn p < 2 ^ sn_field_length e;
  aa_so : p_so p < 2 ^ 16;
  aa_first : p_is_first p = (p_so p =? 0);
  aa_room : rx_size e + p_size p <= rx_maxsize e;
  aa_window : sn_in_recv_window e (p_sn p) = true;
  aa_new : segment_already_received e (p_sn p) (p_so p) (p_size p) = false;
}.

Lemma on_stats_id e : on_common (on_stats id) e = e.
Proof. unfold on_common, on_stats. destruct e as [[]]. reflexivity. Qed.

Lemma bits_at_range buf pos c : 0 <= c → 0 <= bits_val (bits_at buf pos c) < 2 ^ c.
Proof.
  intros Hc. split; [apply bits_val_range|]. eapply Z.lt_le_trans; [apply bits_val_range|].
  apply Z.pow_le_mono_r; [lia|]. unfold bits_at, zlen. rewrite length_take. lia.
Qed.

(** The two ways a data PDU goes: it is counted and discarded, or its segment is
    stored. *)
Lemma recv_data_pdu_elim (R : outcome nr_rlc_entity_am_t → Prop) e d buffer size :
  let p := am_segment (sn_field_length e) buffer size in
  (sn_field_length e = 12 ∨ sn_field_length e = 18) →
  dec_at buffer size 1 d → 1 <= size <= zlen buffer →
  (∀ f poll, ¬ am_accepts e p → R (recv_pdu_discard (on_common (on_stats f) e) size poll)) →
  (∀ poll, am_accepts e p → R (recv_pdu_store e buffer size (p_size p) poll (p_sn p) (p_so p)
                                  (p_is_first p) (p_is_last p))) →
  R (recv_data_pdu e d buffer size).
Proof.
  intros p Hlen Hd Hs Hdis Hst. unfold recv_data_pdu.
  assert (∀ poll, ¬ am_accepts e p → R (recv_pdu_discard e size poll)) as Hdis0.
  { intros poll. rewrite <- (on_stats_id e) at 2. apply Hdis. }
  assert (0 <= sn_field_length e <= 18) as Hlr by lia.
  set (pos := 4 + (if sn_field_length e =? 18 then 2 else 0)).
  assert (8 * (size - p_size p)
    = pos + sn_field_length e + (if p_is_first p then 0 else 16)) as HT.
  { change (p_size p) with (size - am_header_size (sn_field_length e) (p_is_first p)).
    unfold pos, am_header_size. destruct Hlen as [-> | ->]; destruct (p_is_first p); cbn; lia. }
  assert (4 <= pos <= 6) as Hpos by (unfold pos; destruct (_ =? _); lia).
  assert (∀ n, 8 * size < n → n <= pos + sn_field_length e + (if p_is_first p then 0 else 16) →
    ∀ poll, R (recv_pdu_discard e size poll)) as Hshort.
  { intros n Hn Hle poll. apply Hdis0. intros A. destruct (aa_stored _ _ A) as (_ & ? & _). lia. }
  assert (0 <= if p_is_first p then 0 else 16) as H16 by (destruct (p_is_first p); lia).
  apply (get_or_elim R _ buffer size 1 1); [done|lia..|intros; apply (Hshort 2); lia|].
  intros d1 Hd1 Hr1.
  apply (get_or_elim R _ buffer size 2 2); [done|lia..|intros; apply (Hshort 4); lia|].
  intros d2 Hd2 Hr2.
  set (si := bits_val (bits_at buffer 2 2)).
  change (Z.land si 2 =? 0) with (p_is_first p). change (Z.land si 1 =? 0) with (p_is_last p).
  apply (get_or_elim R _ buffer size 4 (if sn_field_length e =? 18 then 2 else 0));
    [done|lia|lia|destruct (_ =? _); lia|intros; apply (Hshort pos); unfold pos in *; lia|].
  intros d3 Hd3 Hr3. fold pos in Hd3, Hr3 |- *.
  apply (get_or_elim R _ buffer size pos (sn_field_length e));
    [done|lia..|intros; apply (Hshort (pos + sn_field_length e)); lia|]. intros d4 Hd4 Hr4.
  change (bits_val (bits_at buffer pos (sn_field_length e))) with (p_sn p).
  apply (get_or_elim R _ buffer size (pos + sn_field_length e) (if p_is_first p then 0 else 16));
    [done|lia|lia|destruct (p_is_first p); lia|intros; eapply Hshort; [eassumption|lia]|].
  intros d5 Hd5 Hr5.
  assert (bits_val (bits_at buffer (pos + sn_field_length e) (if p_is_first p then 0 else 16))
          = p_so p) as Hso.
  { change (p_so p) with (if p_is_first p then 0
      else bits_val (bits_at buffer (pos + sn_field_length e) 16)). by destruct (p_is_first p). }
  rewrite Hso, (dec_at_byte _ _ _ _ Hd5).
  assert ((pos + sn_field_length e + (if p_is_first p then 0 else 16)) / 8
          = am_header_size (sn_field_length e) (p_is_first p)) as ->.
  { unfold pos, am_header_size. destruct Hlen as [-> | ->]; by destruct (p_is_first p). }
  change (size - am_header_size (sn_field_length e) (p_is_first p)) with (p_size p).
  assert (0 <= p_so p < 2 ^ 16) as Hsor.
  { rewrite <- Hso. destruct (p_is_first p); [|by apply bits_at_range].
    pose proof (bits_at_range buffer (pos + sn_field_length e) 0 ltac:(lia)). lia. }
  assert (negb (p_is_first p) && (p_so p =? 0) = negb (eqb (p_is_first p) (p_so p =? 0))) as Hfirst.
  { change (p_so p) with (if p_is_first p then 0
      else bits_val (bits_at buffer (pos + sn_field_length e) 16)). destruct (p_is_first p); [done|]. by destruct (bits_val _ =? 0). }
  rewrite Hfirst. clear Hfirst.
  destruct (eqb_spec (p_is_first p) (p_so p =? 0)) as [Hfirst|Hfirst]; cbn [negb].
  2:{ apply Hdis0. intros A. by apply Hfirst, A. }
  unfold recv_pdu_checks. destruct (Z.leb_spec (p_size p) 0).
  { apply Hdis0. intros A. destruct (aa_stored _ _ A) as (_ & ? & _). lia. }
  destruct (Z.ltb_spec (rx_maxsize e) (rx_size e + p_size p)).
  { apply Hdis0. intros A. pose proof (aa_room _ _ A). lia. }
  destruct (sn_in_recv_window e (p_sn p)) eqn:Hwin; cbn [negb].
  2:{ apply Hdis. intros A. pose proof (aa_window _ _ A). congruence. }
  destruct (segment_already_received e (p_sn p) (p_so p) (p_size p)) eqn:Hdup.
  { apply Hdis. intros A. pose proof (aa_new _ _ A). congruence. }
  apply Hst. split; try done; try lia.
  - split_and!; [lia|done|]. pose proof (am_header_size_range (sn_field_length e) (p_is_first p)) as Hh.
    assert (p_size p = size - am_header_size (sn_field_length e) (p_is_first p)) as Hps by reflexivity.
    exists (take (Z.to_nat (p_size p))
              (drop (Z.to_nat (am_header_size (sn_field_length e) (p_is_first p))) buffer)).
    split; [reflexivity|]. apply zlen_take. rewrite zlen_drop; lia.
  - by apply bits_at_range; lia.
Qed.

(** What the invariant depends on. *)
Definition rx_view (e : nr_rlc_entity_am_t) :=
  (sn_field_length e, sn_modulus e, window_size e, rx_next e, rx_next_status_trigger e,
   rx_highest_status e, rx_next_highest e, t_reassembly_start e, rx e).

Lemma am_rx_wf_ext Q e e' : rx_view e' = rx_view e → am_rx_wf Q e → am_rx_wf Q e'.
Proof.
  intros H W. destruct e, e'. cbv [rx_view] in H. cbn in H. simplify_eq.
  destruct W as [[[] ? ? ? ? ? ? ? ? ?] ? ? ? ? ?]. split; [split; [by split|done..]|done..].
Qed.

Lemma window_complete_ext e e' : rx_view e' = rx_view e → window_complete e' → window_complete e.
Proof. intros H W. destruct e, e'. cbv [rx_view] in H. cbn in H. simplify_eq. exact W. Qed.

Lemma am_segment_sub e buffer size :
  let p := am_segment (sn_field_length e) buffer size in
  stored p → 1 <= size <= zlen buffer →
  ∃ d, buf_sub buffer (size - p_size p) (p_size p) = Ok d ∧
       nr_rlc_new_pdu (p_sn p) (p_so p) (p_is_first p) (p_is_last p) d (p_size p) = Ok p.
Proof.
  intros p (_ & Hsz & x & Hx & Hl) Hs.
  set (h := am_header_size (sn_field_length e) (p_is_first p)).
  pose proof (am_header_size_range (sn_field_length e) (p_is_first p)) as Hh. fold h in Hh.
  assert (p_size p = size - h ∧
    p_data p = Some (take (Z.to_nat (size - h)) (drop (Z.to_nat h) buffer))) as [Hps Hd] by done.
  clearbody p h. rewrite Hps in *. replace (size - (size - h)) with h by lia.
  eexists. rewrite buf_sub_ok by lia. split; [done|]. unfold nr_rlc_new_pdu.
  rewrite Hd in Hx. injection Hx as <-. rewrite buf_sub_ok by lia. cbn [mbind outcome_bind].
  rewrite drop_0, take_take, Nat.min_id, <- Hd, <- Hps. by destruct p.
Qed.

(** The deliveries caused by a data PDU that carries [p]. *)
Definition am_delivers (e : nr_rlc_entity_am_t) (p : nr_rlc_pdu_t) (evs : list rlc_event) : Prop :=
  (am_accepts e p ∧ slot_delivers (insert_by_so (rx_pdus e (p_sn p)) p) evs) ∨
  (¬ am_accepts e p ∧ evs = []).

(** The PDUs on which reception loops for ever: [p] is accepted and completes the SDU at
    the head of a window that is otherwise complete. *)
Definition am_loops (e : nr_rlc_entity_am_t) (p : nr_rlc_pdu_t) : Prop :=
  am_accepts e p ∧ window_complete e ∧ p_sn p = rx_next e ∧ completes_sdu (rx_pdus e (p_sn p)) p.

(** The reception of a data PDU with any contents. *)
Lemma am_recv_data_ok Q e d buffer size :
  let p := am_segment (sn_field_length e) buffer size in
  am_rx_wf Q e → dec_at buffer size 1 d → 1 <= size <= zlen buffer → (am_accepts e p → Q p) →
  (returns (recv_data_pdu e d buffer size) (λ e', am_rx_wf Q e' ∧ am_tx_view e' = am_tx_view e ∧
    ∃ evs, events (common e') = events (common e) ++ evs ∧ am_delivers e p evs) ∧ ¬ am_loops e p) ∨
  (recv_data_pdu e d buffer size = Diverge ∧ am_loops e p).
Proof.
  intros p W Hd Hs HQ. pose proof (aw_core _ _ W) as C.
  pose proof (ac_len _ (ar_cfg _ _ _ C)) as Hlen.
  apply (recv_data_pdu_elim (λ m, returns m _ ∧ _ ∨ m = Diverge ∧ _) e d buffer size Hlen Hd Hs).
  { intros f poll HA. left. split; [|by intros []]. unfold recv_pdu_discard. apply returns_ok.
    split_and!; [|by destruct (negb _)|].
    - eapply am_rx_wf_ext; [|exact W]. by destruct (negb _).
    - exists []. rewrite app_nil_r. split; [by destruct (negb _)|by right]. }
  intros poll A. fold p in A |- *. unfold recv_pdu_store.
  destruct (am_segment_sub e buffer size (aa_stored _ _ A) Hs) as (x & Hsub & Hp).
  fold p in Hsub, Hp. rewrite Hsub. cbn [mbind outcome_bind]. rewrite Hp. cbn [mbind outcome_bind].
  set (e0 := e <| rx_size := rx_size e + p_size p |>).
  assert (am_rx_wf Q e0) as W0 by (by eapply am_rx_wf_ext; [|exact W]).
  pose proof (aa_window _ _ A) as Hwin. apply Z.ltb_lt in Hwin.
  assert (0 <= p_sn p < sn_modulus e) as Hsn by (rewrite (ac_mod _ (ar_cfg _ _ _ C)); apply A).
  pose proof (am_modulus_rx_range e _ (ar_next _ _ _ C) Hsn) as Hk.
  destruct (am_reception_actions_ok Q e0 (modulus_rx e (p_sn p)) p) as [[Hr Hw]|[Hr Hw]]; try done.
  - symmetry. exact (rx_at_modulus e _ (ar_next _ _ _ C) Hsn).
  - change (window_size e0) with (window_size e). lia.
  - apply A.
  - auto.
  - left. split; [|intros (_ & Hl); by apply Hw]. eapply returns_bind; [exact Hr|].
    intros e' (W' & Hv & Hev). apply returns_ok.
    assert (∃ evs, events (common e') = events (common e) ++ evs ∧ am_delivers e p evs) as Hev'.
    { destruct Hev as (evs & ? & ?). exists evs. split; [done|by left]. }
    destruct (negb (poll =? 0)); [|done]. split_and!; [|exact Hv|].
    + by eapply am_rx_wf_ext; [|exact W'].
    + exact Hev'.
  - right. change (rx (e <| rx_size := rx_size e + p_size p |>)) with (rx e0). rewrite Hr.
    split; [done|]. by split.
Qed.

(** ** The reassembly timer *)

Lemma am_check_t_reassembly_ok Q e :
  am_rx_wf Q e →
  returns (check_t_reassembly e) (λ e',
    am_rx_wf Q e' ∧ am_tx_view e' = am_tx_view e ∧ common e' = common e).
Proof.
  intros W. pose proof (aw_core _ _ W) as C. destruct (am_cfg_bounds e (ar_cfg _ _ _ C)) as [Hw HM].
  unfold check_t_reassembly. destruct (Z.eqb_spec (t_reassembly_start e) 0) as [|Hrun]; cbn [orb].
  { by apply returns_ok. }
  destruct (_ <=? _); [by apply returns_ok|].
  set (e1 := e <| t_reassembly_start := 0 |>). pose proof (aw_timer _ _ W Hrun) as Ht.
  set (t := modulus_rx e (rx_next_status_trigger e)) in *.
  set (hi := modulus_rx e (rx_next_highest e)) in *.
  pose proof (ar_next _ _ _ C) as Hn. pose proof (ar_hi _ _ _ C) as Hhi.
  pose proof (rx_at_modulus e _ Hn (aw_trigger _ _ W)) as Hte. fold t in Hte.
  destruct (skip_delivered_ok (sdu_delivered e) (sn_modulus e) (Z.to_nat (sn_modulus e))
              (Z.to_nat (hi - t)) (rx_next_status_trigger e)) as (j & Hj & Hs & Hju & _).
  { lia. }
  { apply W. }
  { lia. }
  { rewrite <- Hte, Z2Nat.id by lia. unfold rx_at. rewrite Zplus_mod_idemp_l.
    replace (rx_next e + t + (hi - t)) with (rx_next e + hi) by lia. apply (hi_not_delivered Q e hi C). }
  change (skip_delivered (Z.to_nat (sn_modulus e1)) (sdu_delivered e1) (sn_modulus e1)
            (rx_next_status_trigger e1))
    with (skip_delivered (Z.to_nat (sn_modulus e)) (sdu_delivered e) (sn_modulus e)
            (rx_next_status_trigger e)).
  rewrite Hs. cbn [mbind outcome_bind]. set (v := (_ + Z.of_nat j) mod _) in *.
  assert (v = rx_at e (t + Z.of_nat j)) as Hv.
  { unfold v. rewrite <- Hte. unfold rx_at. rewrite Zplus_mod_idemp_l. f_equal. lia. }
  assert (am_rx_wf Q (e1 <| rx_highest_status := v |> <| status_triggered := true |>)) as W1.
  { destruct W as [[[] ? ? ? ? ? ? ? ? ?] ? ? ? ? ?]. split; try done.
    - split; try done; change (0 <= v < sn_modulus e). apply Z.mod_pos_bound. lia.
    - change (modulus_rx e v <= hi). rewrite Hv, modulus_rx_at by lia. lia. }
  apply returns_ok. destruct (_ || _); [|done]. split_and!; try done.
  destruct W1 as [[[] ? ? ? ? ? ? ? ? ?] ? ? ? ? ?]. split; try done.
  intros _. change (1 <= hi <= hi). lia.
Qed.

(** ** A new entity *)

Lemma am_new_ok rxmax txmax t_poll t_reass t_stat ppdu pbyte maxretx len :
  len = 12 ∨ len = 18 →
  returns (new_nr_rlc_entity_am rxmax txmax t_poll t_reass t_stat ppdu pbyte maxretx len) (λ e,
    (∀ Q, am_rx_wf Q e) ∧ am_cfg e ∧ sn_field_length e = len ∧ events (common e) = [] ∧
    heap e = empty_heap ∧ tx_list e = [] ∧ tx_end e = None ∧ tx_size e = 0 ∧
    wait_list e = [] ∧ wait_end e = None ∧ retransmit_list e = [] ∧
    bstatus (common e) = mk_bstatus 0 0 0 ∧ avg_wf (common e) ∧
    tx_next e = 0 ∧ tx_next_ack e = 0 ∧ t_poll_retransmit_start e = 0 ∧
    rx e = nr_rlc_new_rx_manager (window_size e)).
Proof.
  intros Hlen. unfold new_nr_rlc_entity_am.
  destruct (new_common_ok NR_RLC_AM) as (c & -> & Hc & Hb & _ & Hev).
  assert (negb ((len =? 12) || (len =? 18)) = false) as -> by (by destruct Hlen as [-> | ->]).
  cbn [mbind outcome_bind]. apply returns_ok. set (e := mk_am _ _ _ _ _ _ _ _ _ _ _ _ _ _ _ _ _ _ _
    _ _ _ _ _ _ _ _ _ _ _ _ _ _ _ _ _ _ _).
  assert (am_cfg e) as Hcfg.
  { split; [done|cbn; by rewrite Z.shiftl_1_l|]. cbn. by destruct Hlen as [-> | ->]. }
  destruct (am_cfg_bounds e Hcfg) as [Hw HM].
  assert (Z.shiftl 1 (len - 1) = window_size e) as Hsz by (cbn; by destruct Hlen as [-> | ->]).
  assert (∀ sn, rx_pdus e sn = []) as Hempty.
  { intros sn. unfold rx_pdus, nr_rlc_rx_manager_get_pdu_from_sn. cbn. by rewrite lookup_empty. }
  split_and!; try done; [|cbn; by rewrite Hsz].
  intros Q. assert (modulus_rx e 0 = 0) as H0 by reflexivity.
  split; try done; try (change (0 <= 0 < sn_modulus e); lia).
  - change (rx_next_highest e) with 0. rewrite H0.
    split; try done; try (change (0 <= 0 < sn_modulus e); lia).
    + apply rxm_wf_new. rewrite Hsz. lia.
    + lia.
    + intros k _. rewrite Hempty. apply slot_ok_nil.
Qed.
