(* ===== verification/RlcAmControl.v ===== *)
(** * RLC acknowledged mode: reception of a STATUS PDU

    Models [process_control_pdu] of
    [openair2/LAYER2/nr_rlc/nr_rlc_entity_am.c]: the PDU is first read and
    checked as a whole, then read again and applied to the wait list and the
    retransmit list, which are walked in parallel. *)

From S2P Require Import Prelude Bits RlcPdu TimeStat RlcSdu RlcTypes RlcRxManager RlcReassemble RlcAm.

(** [s1..e1] and [s2..e2] overlap; an end of -1 means the end of the SDU. *)
Definition so_overlap (s1 e1 s2 e2 : Z) : bool :=
  if s1 <? s2 then (e1 =? -1) || (s2 <=? e1)
  else (e2 =? -1) || (s1 <=? e2).

(** ** Reading *)

Record nack := mk_nack {
  n_sn : Z;
  n_so_start : Z;
  n_so_end : Z;               (* -1 for the end of the SDU *)
  n_range : Z;
}.

(** The fields of one NACK, with the E1 bit that follows: [err] on a read past the
    end. Absent fields are read as zero bits. *)
Definition read_nack {A} (err : outcome A) (entity : nr_rlc_entity_am_t)
    (decoder : nr_rlc_pdu_decoder_t) (k : nack → Z → nr_rlc_pdu_decoder_t → outcome A)
  : outcome A :=
  get_or err decoder (sn_field_length entity) (λ nack_sn decoder,
  get_or err decoder 1 (λ e1 decoder,
  get_or err decoder 1 (λ e2 decoder,
  get_or err decoder 1 (λ e3 decoder,
  get_or err decoder (if sn_field_length entity =? 18 then 3 else 1) (λ _ decoder,
  get_or err decoder (if e2 =? 0 then 0 else 16) (λ so_start decoder,
  get_or err decoder (if e2 =? 0 then 0 else 16) (λ so_end decoder,
  get_or err decoder (if e3 =? 0 then 0 else 8) (λ range decoder,
  let so_end := if e2 =? 0 then 65535 else so_end in
  let range := if e3 =? 0 then 1 else range in
  let so_end := if so_end =? 65535 then -1 else so_end in
  k (mk_nack nack_sn so_start so_end range) e1 decoder)))))))).

(** The header: D/C, CPT, ACK_SN, E1, reserved bits. *)
Definition read_header {A} (err : outcome A) (entity : nr_rlc_entity_am_t) (buffer : bytes)
    (size : Z) (k : Z → Z → Z → nr_rlc_pdu_decoder_t → outcome A) : outcome A :=
  get_or err (nr_rlc_pdu_decoder_init buffer size) 1 (λ _ decoder,
  get_or err decoder 3 (λ cpt decoder,
  if negb (cpt =? 0) then err else
  get_or err decoder (sn_field_length entity) (λ ack_sn decoder,
  get_or err decoder 1 (λ e1 decoder,
  get_or err decoder (if sn_field_length entity =? 18 then 1 else 7) (λ _ decoder,
  k cpt ack_sn e1 decoder))))).

(** The SN and the offsets of the [i]th SDU of a NACK range. *)
Definition nack_at (entity : nr_rlc_entity_am_t) (n : nack) (i : Z) : Z * Z * Z :=
  (cmod (n_sn n + i) (sn_modulus entity),
   if i =? 0 then n_so_start n else 0,
   if i =? n_range n - 1 then n_so_end n else -1).

(** ** Validation *)

(** The check of the current NACK against the previous one and the ACK. *)
Definition nack_ok (entity : nr_rlc_entity_am_t) (ack_sn prev_nack_sn prev_so_end : Z)
    (cur : Z * Z * Z) : bool :=
  let '(cur_nack_sn, cur_so_start, _) := cur in
  let cmp := sn_compare_tx entity cur_nack_sn prev_nack_sn in
  negb (negb (prev_nack_sn =? -1)
        && ((cmp <? 0)
            || ((cmp =? 0) && ((prev_so_end =? -1) || (cur_so_start <=? prev_so_end)))))
  && negb (0 <? sn_compare_tx entity cur_nack_sn ack_sn).

(** The [for] loop over a range, [n] turns left. [prev_nack_sn] and [prev_so_end]
    are those of the C function: initialised to -1 and 0, and not changed by the
    validation. *)
Fixpoint validate_range (n : nat) (i : Z) (entity : nr_rlc_entity_am_t) (ack_sn : Z) (k : nack)
  : bool :=
  match n with
  | O => true
  | S n' =>
      let prev_nack_sn := -1 in
      let prev_so_end := 0 in
      if nack_ok entity ack_sn prev_nack_sn prev_so_end (nack_at entity k i)
      then validate_range n' (i + 1) entity ack_sn k else false
  end.

(** The [while (e1)] loop: a NACK has at least two bytes, so [fuel] is the size of
    the PDU. *)
Fixpoint validate_nacks (fuel : nat) (entity : nr_rlc_entity_am_t) (ack_sn e1 : Z)
    (decoder : nr_rlc_pdu_decoder_t) : outcome bool :=
  if e1 =? 0 then Ok true
  else
    match fuel with
    | O => Diverge
    | S fuel' =>
        read_nack (Ok false) entity decoder (λ n e1 decoder,
        if validate_range (Z.to_nat (n_range n)) 0 entity ack_sn n
        then validate_nacks fuel' entity ack_sn e1 decoder else Ok false)
    end.

Definition validate_control_pdu (entity : nr_rlc_entity_am_t) (buffer : bytes) (size : Z)
  : outcome bool :=
  read_header (Ok false) entity buffer size (λ _ ack_sn e1 decoder,
  if 0 <? sn_compare_tx entity ack_sn (tx_next entity) then Ok false
  else validate_nacks (Z.to_nat size) entity ack_sn e1 decoder).

(** ** Processing

    The local variables: the nodes of the wait list kept so far ([w_done], up to
    [prev_wait_list]), those from [cur_wait_list] on ([w_cur]), the nodes left
    in place after [cur_wait_list] was set to NULL ([w_rest]); [w_end] is
    [end_wait_list], [Some None] being [&head_wait_list]; the new retransmit
    list up to [new_retransmit_list] ([r_new]) and the nodes from
    [cur_retransmit_list] on ([r_cur]). *)
Record ctrl := mk_ctrl {
  w_done : list nr_rlc_sdu_segment_t;
  w_cur : list nr_rlc_sdu_segment_t;
  w_rest : list nr_rlc_sdu_segment_t;
  w_end : option (option positive);
  r_new : list nr_rlc_sdu_segment_t;
  r_cur : list nr_rlc_sdu_segment_t;
}.
#[export] Instance eta_ctrl : Eta ctrl := λ r,
  mk_ctrl (w_done r) (w_cur r) (w_rest r) (w_end r) (r_new r) (r_cur r).
#[export] Instance set_w_done : Setter w_done := ltac:(derive_setter).
#[export] Instance set_w_cur : Setter w_cur := ltac:(derive_setter).
#[export] Instance set_w_rest : Setter w_rest := ltac:(derive_setter).
#[export] Instance set_w_end : Setter w_end := ltac:(derive_setter).
#[export] Instance set_r_new : Setter r_new := ltac:(derive_setter).
#[export] Instance set_r_cur : Setter r_cur := ltac:(derive_setter).

(** Unlink the current node of the wait list, which is [seg]. *)
Definition unlink_wait (entity : nr_rlc_entity_am_t) (k : ctrl) (seg : nr_rlc_sdu_segment_t)
    (next : list nr_rlc_sdu_segment_t) : ctrl :=
  let k := k <| w_cur := next |> in
  if decide (wait_end entity = Some (g_addr seg))
  then k <| w_end := Some (g_addr <$> last (w_done k)) |> else k.

(** [nr_rlc_free_sdu_segment], and the report of a delivery if the SDU is done. *)
Definition free_acked (entity : nr_rlc_entity_am_t) (seg : nr_rlc_sdu_segment_t)
  : outcome nr_rlc_entity_am_t :=
  let s := sdu_of (heap entity) seg in
  '(freed, h) ← nr_rlc_free_sdu_segment (heap entity) seg;
  let entity := entity <| heap := h |> in
  if (freed : bool) then
    let entity := entity <| tx_size := tx_size entity - s_size s |> in
    let entity := on_common (on_stats (add64 txsdu_bytes (s_size s))) entity in
    Ok (on_common (call (sdu_successful_delivery (s_upper_layer_id s))) entity)
  else Ok entity.

(** [bstatus.retx_size] minus the PDU of [seg], then the above. *)
Definition free_acked_retx (entity : nr_rlc_entity_am_t) (seg : nr_rlc_sdu_segment_t)
  : outcome nr_rlc_entity_am_t :=
  free_acked (on_common (bstatus_retx (- (compute_pdu_header_size entity seg + g_size seg))) entity)
    seg.

(** A nacked segment of the wait list goes to the retransmit list. *)
Definition nack_wait (entity : nr_rlc_entity_am_t) (seg : nr_rlc_sdu_segment_t)
  : nr_rlc_entity_am_t :=
  let s := sdu_of (heap entity) seg in
  let s := s <| s_retx_count := s_retx_count s + 1 |> in
  let entity := entity <| heap := upd_sdu (heap entity) seg s |> in
  let entity := if max_retx_threshold entity * s_ref_count s <=? s_retx_count s
                then on_common (call max_retx_reached) entity else entity in
  on_common (bstatus_retx (compute_pdu_header_size entity seg + g_size seg)) entity.

(** Where the processing of the current segment leads: to [process_next_pdu], to
    [done_nack] or to [lists_over]. *)
Inductive goto := process_next_pdu | done_nack | lists_over.

(** Label [process_wait_list_head], [seg] being the node at [cur_wait_list]. *)
Definition process_wait_list_head (entity : nr_rlc_entity_am_t) (k : ctrl) (ack_sn : Z)
    (cur : Z * Z * Z) (seg : nr_rlc_sdu_segment_t) (next : list nr_rlc_sdu_segment_t)
  : outcome (goto * ctrl * nr_rlc_entity_am_t) :=
  let '(cur_nack_sn, cur_so_start, cur_so_end) := cur in
  let sn := seg_sn entity seg in
  if (sn =? cur_nack_sn)
     && so_overlap cur_so_start cur_so_end (g_so seg) (g_so seg + g_size seg - 1)
  then
    let k := unlink_wait entity k seg next in
    Ok (process_next_pdu, k <| r_new := r_new k ++ [seg] |>, nack_wait entity seg)
  else
    let cmp := sn_compare_tx entity sn cur_nack_sn in
    if (0 <? cmp) || ((cmp =? 0) && (cur_so_start <? g_so seg)) then Ok (done_nack, k, entity)
    else if sn_compare_tx entity sn ack_sn <? 0 then
      let k := unlink_wait entity k seg next in
      entity ← free_acked entity seg;
      Ok (process_next_pdu, k, entity)
    else if 0 <? sn_compare_tx entity sn ack_sn then
      Ok (process_next_pdu, k <| w_rest := w_cur k |> <| w_cur := [] |>, entity)
    else Ok (process_next_pdu, k <| w_done := w_done k ++ [seg] |> <| w_cur := next |>, entity).

(** Label [process_retransmit_list_head], [seg] being the node at
    [cur_retransmit_list]. In the branch that puts the whole remaining list after
    [new_retransmit_list], that pointer itself does not move. *)
Definition process_retransmit_list_head (entity : nr_rlc_entity_am_t) (k : ctrl) (ack_sn : Z)
    (cur : Z * Z * Z) (seg : nr_rlc_sdu_segment_t) (next : list nr_rlc_sdu_segment_t)
  : outcome (goto * ctrl * nr_rlc_entity_am_t) :=
  let '(cur_nack_sn, cur_so_start, cur_so_end) := cur in
  let sn := seg_sn entity seg in
  if (sn =? cur_nack_sn)
     && so_overlap cur_so_start cur_so_end (g_so seg) (g_so seg + g_size seg - 1)
  then Ok (process_next_pdu, k <| r_new := r_new k ++ [seg] |> <| r_cur := next |>, entity)
  else
    let cmp := sn_compare_tx entity sn cur_nack_sn in
    if (0 <? cmp) || ((cmp =? 0) && (cur_so_start <? g_so seg)) then Ok (done_nack, k, entity)
    else if sn_compare_tx entity sn ack_sn <? 0 then
      let k := k <| r_cur := next |> in
      entity ← free_acked_retx entity seg;
      Ok (process_next_pdu, k, entity)
    else
      match w_cur k with
      | [] => Ok (lists_over, k <| r_cur := [] |>, entity)
      | _ => Ok (process_next_pdu, k <| r_new := r_new k ++ [seg] |> <| r_cur := next |>, entity)
      end.

(** Label [process_next_pdu]: the smallest segment of the two lists. *)
Definition process_one (entity : nr_rlc_entity_am_t) (k : ctrl) (ack_sn : Z) (cur : Z * Z * Z)
  : outcome (goto * ctrl * nr_rlc_entity_am_t) :=
  match w_cur k, r_cur k with
  | [], [] => Ok (lists_over, k, entity)
  | [], r :: next => process_retransmit_list_head entity k ack_sn cur r next
  | w :: next, [] => process_wait_list_head entity k ack_sn cur w next
  | w :: wnext, r :: rnext =>
      let cmp := sn_compare_tx entity (seg_sn entity w) (seg_sn entity r) in
      if (cmp <? 0) || ((cmp =? 0) && (g_so w <? g_so r))
      then process_wait_list_head entity k ack_sn cur w wnext
      else process_retransmit_list_head entity k ack_sn cur r rnext
  end.

(** All the segments that the current NACK decides on; [true] for [lists_over].
    Every turn takes a node off [w_cur] or [r_cur]. *)
Fixpoint process_nack (fuel : nat) (entity : nr_rlc_entity_am_t) (k : ctrl) (ack_sn : Z)
    (cur : Z * Z * Z) : outcome (bool * ctrl * nr_rlc_entity_am_t) :=
  match fuel with
  | O => Diverge
  | S fuel' =>
      '(g, k, entity) ← process_one entity k ack_sn cur;
      match g with
      | process_next_pdu => process_nack fuel' entity k ack_sn cur
      | done_nack => Ok (false, k, entity)
      | lists_over => Ok (true, k, entity)
      end
  end.

(** The [for] loop over a range, left at [lists_over]. *)
Fixpoint process_range (n : nat) (i : Z) (entity : nr_rlc_entity_am_t) (c : ctrl) (ack_sn : Z)
    (k : nack) : outcome (ctrl * nr_rlc_entity_am_t) :=
  match n with
  | O => Ok (c, entity)
  | S n' =>
      let fuel := S (length (w_cur c) + length (r_cur c)) in
      '(over, c, entity) ← process_nack fuel entity c ack_sn (nack_at entity k i);
      if over : bool then Ok (c, entity) else process_range n' (i + 1) entity c ack_sn k
  end.

(** After a NACK: stop t-PollRetransmit if it covers [poll_sn]. *)
Definition check_poll_nack (entity : nr_rlc_entity_am_t) (n : nack) : nr_rlc_entity_am_t :=
  if (sn_compare_tx entity (n_sn n) (poll_sn entity) <=? 0)
     && (sn_compare_tx entity (poll_sn entity)
           (cmod (n_sn n + n_range n) (sn_modulus entity)) <? 0)
  then entity <| t_poll_retransmit_start := 0 |> else entity.

(** The second [while (e1)] loop; the reads have been checked. *)
Fixpoint process_nacks (fuel : nat) (entity : nr_rlc_entity_am_t) (c : ctrl) (ack_sn e1 : Z)
    (decoder : nr_rlc_pdu_decoder_t) : outcome (ctrl * nr_rlc_entity_am_t) :=
  if e1 =? 0 then Ok (c, entity)
  else
    match fuel with
    | O => Diverge
    | S fuel' =>
        read_nack Undef entity decoder (λ n e1 decoder,
        '(c, entity) ← process_range (Z.to_nat (n_range n)) 0 entity c ack_sn n;
        process_nacks fuel' (check_poll_nack entity n) c ack_sn e1 decoder)
    end.

(** [nacks done, finish with ack]: the loop on the wait list. *)
Fixpoint ack_wait_list (l : list nr_rlc_sdu_segment_t) (entity : nr_rlc_entity_am_t) (k : ctrl)
    (ack_sn : Z) : outcome (ctrl * nr_rlc_entity_am_t) :=
  match l with
  | [] => Ok (k, entity)
  | seg :: next =>
      if sn_compare_tx entity (seg_sn entity seg) ack_sn <? 0 then
        let k := unlink_wait entity k seg next in
        entity ← free_acked entity seg;
        ack_wait_list next entity k ack_sn
      else Ok (k, entity)
  end.

(** The loop on the retransmit list. *)
Fixpoint ack_retransmit_list (l : list nr_rlc_sdu_segment_t) (entity : nr_rlc_entity_am_t)
    (k : ctrl) (ack_sn : Z) : outcome (ctrl * nr_rlc_entity_am_t) :=
  match l with
  | [] => Ok (k, entity)
  | seg :: next =>
      if sn_compare_tx entity (seg_sn entity seg) ack_sn <? 0 then
        entity ← free_acked_retx entity seg;
        ack_retransmit_list next entity (k <| r_cur := next |>) ack_sn
      else Ok (k, entity)
  end.

(** The lists of the entity after the walk. *)
Definition store_lists (entity : nr_rlc_entity_am_t) (k : ctrl) : nr_rlc_entity_am_t :=
  let entity := entity <| wait_list := w_done k ++ w_cur k ++ w_rest k |>
                       <| retransmit_list := r_new k ++ r_cur k |> in
  match w_end k with
  | None => entity
  | Some a => entity <| wait_end := a |>
  end.

(** [TX_Next_Ack]: the smallest SN not positively acknowledged. *)
Definition update_tx_next_ack (entity : nr_rlc_entity_am_t) (ack_sn : Z) : nr_rlc_entity_am_t :=
  let lower v sn := if sn_compare_tx entity sn v <? 0 then sn else v in
  let v := tx_next entity in
  let v := if wait_list entity is seg :: _ then lower v (seg_sn entity seg) else v in
  let v := if retransmit_list entity is seg :: _ then lower v (seg_sn entity seg) else v in
  let v := lower v ack_sn in
  entity <| tx_next_ack := v |>.

(** The walk over both lists, once the PDU is known to be valid. *)
Definition apply_control_pdu (entity : nr_rlc_entity_am_t) (buffer : bytes) (size : Z)
  : outcome nr_rlc_entity_am_t :=
  let k := mk_ctrl [] (wait_list entity) [] None [] (retransmit_list entity) in
  read_header Undef entity buffer size (λ _ ack_sn e1 decoder,
  let entity := if sn_compare_tx entity (poll_sn entity) ack_sn <? 0
                then entity <| t_poll_retransmit_start := 0 |> else entity in
  '(k, entity) ← process_nacks (Z.to_nat size) entity k ack_sn e1 decoder;
  '(k, entity) ← ack_wait_list (w_cur k) entity k ack_sn;
  '(k, entity) ← ack_retransmit_list (r_cur k) entity k ack_sn;
  let entity := store_lists entity k in
  Ok (update_tx_next_ack entity ack_sn)).

Definition process_control_pdu (entity : nr_rlc_entity_am_t) (buffer : bytes) (size : Z)
  : outcome nr_rlc_entity_am_t :=
  valid ← validate_control_pdu entity buffer size;
  if valid : bool then apply_control_pdu entity buffer size else Ok entity.
