(* ===== verification/RlcAmStatus.v ===== *)
(** * RLC acknowledged mode: generation of a STATUS PDU, entry points

    Models the status reporting of
    [openair2/LAYER2/nr_rlc/nr_rlc_entity_am.c], from [get_first_rx_pdu] to
    [status_size]. A pointer to a received PDU is the list of the nodes from it to
    the end of the list of its SN; NULL is the empty list. At the end, the entry
    points that bring data and status together: reception of a PDU, buffer status,
    generation of a PDU. *)

From S2P Require Import Prelude Bits RlcPdu TimeStat RlcSdu RlcTypes RlcRxManager RlcReassemble.
From S2P Require Import RlcAm RlcAmControl.

Record missing_data_t := mk_missing {
  m_sn_start : Z;             (* -1 when no more missing part to report *)
  m_so_start : Z;
  m_sn_end : Z;
  m_so_end : Z;
  m_next : list nr_rlc_pdu_t; (* PDU to use for next call to next_missing *)
}.
#[export] Instance eta_missing : Eta missing_data_t := λ r,
  mk_missing (m_sn_start r) (m_so_start r) (m_sn_end r) (m_so_end r) (m_next r).
#[export] Instance set_m_sn_end : Setter m_sn_end := ltac:(derive_setter).
#[export] Instance set_m_so_end : Setter m_so_end := ltac:(derive_setter).
#[export] Instance set_m_next : Setter m_next := ltac:(derive_setter).

(** [ret.sn_start = -1]; the other fields are not set and not read *)
Definition no_missing : missing_data_t := mk_missing (-1) 0 0 0 [].

(** The [while (sn != last_sn)] loop of [get_first_rx_pdu] and [get_next_rx_pdu];
    SNs repeat after [sn_modulus] turns. *)
Fixpoint find_rx_pdu (fuel : nat) (entity : nr_rlc_entity_am_t) (sn last_sn : Z)
  : outcome (list nr_rlc_pdu_t) :=
  match fuel with
  | O => Diverge
  | S fuel' =>
      if sn =? last_sn then Ok (rx_pdus entity sn)
      else match rx_pdus entity sn with
           | [] => find_rx_pdu fuel' entity (cmod (sn + 1) (sn_modulus entity)) last_sn
           | ret => Ok ret
           end
  end.

Definition get_first_rx_pdu (entity : nr_rlc_entity_am_t) : outcome (list nr_rlc_pdu_t) :=
  find_rx_pdu (Z.to_nat (sn_modulus entity)) entity (rx_next entity) (rx_highest_status entity).

Definition get_next_rx_pdu (entity : nr_rlc_entity_am_t) (c : nr_rlc_pdu_t)
    (next : list nr_rlc_pdu_t) : outcome (list nr_rlc_pdu_t) :=
  match next with
  | [] =>
      if p_sn c =? rx_highest_status entity then Ok []
      else find_rx_pdu (Z.to_nat (sn_modulus entity)) entity
             (cmod (p_sn c + 1) (sn_modulus entity)) (rx_highest_status entity)
  | _ => Ok next
  end.

(** [(entity->rx_highest_status - 1 + entity->sn_modulus) % entity->sn_modulus] *)
Definition before_highest_status (entity : nr_rlc_entity_am_t) : Z :=
  cmod (rx_highest_status entity - 1 + sn_modulus entity) (sn_modulus entity).

(** [don't report if out of reporting window] *)
Definition out_of_reporting (entity : nr_rlc_entity_am_t) (sn : Z) : bool :=
  sn_compare_rx entity (rx_highest_status entity) sn <=? 0.

(** Label [set_end_different_sdu]. *)
Definition set_end_different_sdu (entity : nr_rlc_entity_am_t) (ret : missing_data_t)
    (cur : nr_rlc_pdu_t) : missing_data_t :=
  let ret :=
    if p_is_first cur
    then ret <| m_sn_end := cmod (p_sn cur - 1 + sn_modulus entity) (sn_modulus entity) |>
             <| m_so_end := 65535 |>
    else ret <| m_sn_end := p_sn cur |> <| m_so_end := p_so cur - 1 |> in
  if out_of_reporting entity (m_sn_end ret)
  then ret <| m_sn_end := before_highest_status entity |> <| m_so_end := 65535 |> <| m_next := [] |>
  else ret.

(** The case [no next?] of [next_missing]. *)
Definition missing_at_end (entity : nr_rlc_entity_am_t) (cur : nr_rlc_pdu_t) (max_so : Z)
    (last_reached : bool) : missing_data_t :=
  let '(sn_start, so_start) :=
    if (if p_data cur is None then true else false) || last_reached
    then (cmod (p_sn cur + 1) (sn_modulus entity), 0)
    else (p_sn cur, max_so + 1) in
  if out_of_reporting entity sn_start then no_missing
  else mk_missing sn_start so_start (before_highest_status entity) 65535 [].

(** The discontinuity between [sn] and the PDU [cur]. *)
Definition missing_between (entity : nr_rlc_entity_am_t) (sn max_so : Z) (last_reached : bool)
    (cur : nr_rlc_pdu_t) (from : list nr_rlc_pdu_t) : missing_data_t :=
  if p_sn cur =? sn then
    if out_of_reporting entity sn then no_missing
    else mk_missing sn (max_so + 1) sn (p_so cur - 1) from
  else
    let '(sn_start, so_start) :=
      if last_reached then (cmod (sn + 1) (sn_modulus entity), 0) else (sn, max_so + 1) in
    if out_of_reporting entity sn_start then no_missing
    else set_end_different_sdu entity (mk_missing sn_start so_start 0 0 from) cur.

(** Label [next_pdu]: skip the PDUs without a discontinuity. *)
Fixpoint next_missing_loop (fuel : nat) (entity : nr_rlc_entity_am_t) (cur : list nr_rlc_pdu_t)
    (max_so : Z) (last_reached : bool) : outcome missing_data_t :=
  match fuel, cur with
  | O, _ => Diverge
  | _, [] => Undef
  | S fuel', c :: next =>
      let sn := p_sn c in
      let cur_max_so := p_so c + p_size c - 1 in
      let max_so := if max_so <? cur_max_so then cur_max_so else max_so in
      let last_reached := last_reached || p_is_last c in
      cur_next ← get_next_rx_pdu entity c next;
      match cur_next with
      | [] => Ok (missing_at_end entity c max_so last_reached)
      | c' :: _ =>
          if (p_sn c' =? sn) && (p_so c' - 1 <=? max_so)
          then next_missing_loop fuel' entity cur_next max_so last_reached
          else if (p_sn c' =? cmod (sn + 1) (sn_modulus entity)) && last_reached && p_is_first c'
          then next_missing_loop fuel' entity cur_next 0 false
          else Ok (missing_between entity sn max_so last_reached c' cur_next)
      end
  end.

(** All the PDUs stored: a walk visits each of them at most once. *)
Definition pdu_count (entity : nr_rlc_entity_am_t) : nat :=
  sum_list (length <$> (map_to_list (m_rx_list (rx entity))).*2).

Definition next_missing (entity : nr_rlc_entity_am_t) (cur : list nr_rlc_pdu_t) (check_head : bool)
  : outcome missing_data_t :=
  match cur with
  | [] => Undef
  | c :: _ =>
      if check_head && (negb (p_sn c =? rx_next entity) || negb (p_is_first c)) then
        Ok (if out_of_reporting entity (rx_next entity) then no_missing
            else set_end_different_sdu entity (mk_missing (rx_next entity) 0 0 0 cur) c)
      else next_missing_loop (S (pdu_count entity)) entity cur 0 false
  end.

Definition nack_size (entity : nr_rlc_entity_am_t) (sn_start so_start sn_end so_end : Z) : Z :=
  let nack_length := 2 + (if sn_field_length entity =? 18 then 1 else 0) in
  if sn_start =? sn_end then
    if (so_start =? 0) && (so_end =? 65535) then nack_length else nack_length + 4
  else if (so_start =? 0) && (so_end =? 65535) then nack_length + 1 else nack_length + 5.

Definition get_e1_position (entity : nr_rlc_entity_am_t) (encoder : nr_rlc_pdu_encoder_t) : Z * Z :=
  if sn_field_length entity =? 18 then (e_byte encoder + 2, 5) else (e_byte encoder + 1, 3).

(** The part of a missing range reported by one NACK, at most 255 SNs: its SNs and
    offsets, and the number of SNs. *)
Definition nack_part (entity : nr_rlc_entity_am_t) (m : missing_data_t) (sn_start sn_count : Z)
  : Z * Z * Z * Z :=
  let cur_sn_count := if 255 <? sn_count then 255 else sn_count in
  let so_start := if sn_start =? m_sn_start m then m_so_start m else 0 in
  let '(sn_end, so_end) :=
    if cur_sn_count =? sn_count then (m_sn_end m, m_so_end m)
    else (cmod (sn_start + 254) (sn_modulus entity), 65535) in
  (so_start, sn_end, so_end, cur_sn_count).

(** The number of SNs of a missing range. *)
Definition missing_sn_count (entity : nr_rlc_entity_am_t) (m : missing_data_t) : Z :=
  cmod (m_sn_end m - m_sn_start m + sn_modulus entity) (sn_modulus entity) + 1.

(** The variables of the generation that outlive one call to [generate_missing]:
    the encoder, the position of the last E1 bit, [so_end_address] as an index. *)
Record status_gen := mk_gen {
  sg_encoder : nr_rlc_pdu_encoder_t;
  sg_e1_byte : Z;
  sg_e1_bit : Z;
  sg_so_end : option Z;
}.

(** Serialization of one NACK. *)
Definition put_nack (entity : nr_rlc_entity_am_t) (g : status_gen)
    (sn_start so_start sn_end so_end cur_sn_count : Z) : outcome status_gen :=
  let r_bits := if sn_field_length entity =? 18 then 3 else 1 in
  let encoder := sg_encoder g in
  b ← buf_get (e_buffer encoder) (sg_e1_byte g);
  buffer ← buf_set (e_buffer encoder) (sg_e1_byte g) (u8 (Z.lor b (Z.shiftl 1 (sg_e1_bit g))));
  let encoder := encoder <| e_buffer := buffer |> in
  let '(e1_byte, e1_bit) := get_e1_position entity encoder in
  let e2 := negb ((so_start =? 0) && (so_end =? 65535)) in
  let e3 := negb (sn_start =? sn_end) in
  encoder ← nr_rlc_pdu_encoder_put_bits encoder sn_start (sn_field_length entity);
  encoder ← nr_rlc_pdu_encoder_put_bits encoder 0 1;
  encoder ← nr_rlc_pdu_encoder_put_bits encoder (Z.b2z e2) 1;
  encoder ← nr_rlc_pdu_encoder_put_bits encoder (Z.b2z e3) 1;
  encoder ← nr_rlc_pdu_encoder_put_bits encoder 0 r_bits;
  '(encoder, so_end_address) ←
    (if e2 then
       encoder ← nr_rlc_pdu_encoder_put_bits encoder so_start 16;
       let so_end_address := Some (e_byte encoder) in
       encoder ← nr_rlc_pdu_encoder_put_bits encoder so_end 16;
       Ok (encoder, so_end_address)
     else Ok (encoder, None));
  encoder ← (if e3 then nr_rlc_pdu_encoder_put_bits encoder cur_sn_count 8 else Ok encoder);
  Ok (mk_gen encoder e1_byte e1_bit so_end_address).

(** The [while (sn_count)] loop of [generate_missing], at least one SN per turn.
    Returns the last NACK generated, [*generation_truncated] and [m->next]. *)
Fixpoint generate_missing_loop (fuel : nat) (entity : nr_rlc_entity_am_t) (g : status_gen)
    (m : missing_data_t) (sn_start sn_count last_nack_generated : Z)
  : outcome (Z * bool * missing_data_t * status_gen) :=
  if sn_count =? 0 then Ok (last_nack_generated, false, m, g)
  else
    match fuel with
    | O => Diverge
    | S fuel' =>
        let '(so_start, sn_end, so_end, cur_sn_count) := nack_part entity m sn_start sn_count in
        if e_size (sg_encoder g)
             <? e_byte (sg_encoder g) + nack_size entity sn_start so_start sn_end so_end
        then Ok (last_nack_generated, true, m <| m_next := [] |>, g)
        else
          g ← put_nack entity g sn_start so_start sn_end so_end cur_sn_count;
          let last_nack_generated :=
            if sn_start =? sn_end then sn_start else sn_start + (cur_sn_count - 1) in
          generate_missing_loop fuel' entity g m
            (cmod (sn_start + cur_sn_count) (sn_modulus entity)) (sn_count - cur_sn_count)
            last_nack_generated
    end.

Definition generate_missing (entity : nr_rlc_entity_am_t) (g : status_gen) (m : missing_data_t)
  : outcome (Z * bool * missing_data_t * status_gen) :=
  let sn_count := missing_sn_count entity m in
  generate_missing_loop (Z.to_nat sn_count) entity g m (m_sn_start m) sn_count (-1).

(** [so_end_address[0] = so_end_address[1] = 0xff] *)
Definition force_so_end (g : status_gen) : outcome status_gen :=
  match sg_so_end g with
  | None => Ok g
  | Some a =>
      buffer ← buf_set (e_buffer (sg_encoder g)) a 255;
      buffer ← buf_set buffer (a + 1) 255;
      Ok (mk_gen (sg_encoder g <| e_buffer := buffer |>) (sg_e1_byte g) (sg_e1_bit g) (sg_so_end g))
  end.

(** The [while (cur != NULL)] loop of [generate_status]. *)
Fixpoint generate_status_loop (fuel : nat) (entity : nr_rlc_entity_am_t) (g : status_gen)
    (cur : list nr_rlc_pdu_t) (check_head : bool) (last_nack : Z) : outcome (Z * status_gen) :=
  match cur with
  | [] => Ok (last_nack, g)
  | _ =>
      match fuel with
      | O => Diverge
      | S fuel' =>
          m ← next_missing entity cur check_head;
          if m_sn_start m =? -1 then Ok (last_nack, g)
          else
            '(ln, generation_truncated, m, g) ← generate_missing entity g m;
            let last_nack := if negb (ln =? -1) then ln else last_nack in
            g ← (if generation_truncated : bool then force_so_end g else Ok g);
            generate_status_loop fuel' entity g (m_next m) false last_nack
      end
  end.

(** [put ack_sn]: the bytes 0 to 2 of the PDU. *)
Definition put_ack_sn (entity : nr_rlc_entity_am_t) (buffer : bytes) (ack_sn : Z) : outcome bytes :=
  if sn_field_length entity =? 12 then
    buffer ← buf_set buffer 0 (u8 (Z.shiftr ack_sn 8));
    buf_set buffer 1 (Z.land ack_sn 255)
  else
    buffer ← buf_set buffer 0 (u8 (Z.shiftr ack_sn 14));
    buffer ← buf_set buffer 1 (Z.land (Z.shiftr ack_sn 6) 255);
    b ← buf_get buffer 2;
    buf_set buffer 2 (u8 (Z.lor b (Z.shiftl (Z.land ack_sn 63) 2))).

Definition generate_status (entity : nr_rlc_entity_am_t) (buffer : bytes) (size : Z)
  : outcome (Z * bytes * nr_rlc_entity_am_t) :=
  if size <? 3 then Ok (0, buffer, entity)
  else
    let last_nack := cmod (rx_next entity - 1 + sn_modulus entity) (sn_modulus entity) in
    let encoder := nr_rlc_pdu_encoder_init buffer size in
    encoder ← nr_rlc_pdu_encoder_put_bits encoder 0 (8 * 3);
    cur ← get_first_rx_pdu entity;
    let g := mk_gen encoder 2 (if sn_field_length entity =? 18 then 1 else 7) None in
    '(last_nack, g) ← generate_status_loop (S (pdu_count entity)) entity g cur true last_nack;
    let ack_sn := cmod (last_nack + 1) (sn_modulus entity) in
    let encoder := sg_encoder g in
    buffer ← put_ack_sn entity (e_buffer encoder) ack_sn;
    let entity := entity <| status_triggered := false |>
                         <| t_status_prohibit_start := t_current entity |> in
    Ok (e_byte encoder, buffer, on_common (on_stats (λ s,
      add32 txpdu_status_bytes (e_byte encoder) (add32 txpdu_status_pkts 1
        (add32 txpdu_bytes (e_byte encoder) (add32 txpdu_pkts 1 s))))) entity).

Definition status_to_report (entity : nr_rlc_entity_am_t) : bool :=
  status_triggered entity
  && ((t_status_prohibit_start entity =? 0)
      || (u64 (t_status_prohibit entity) <? u64 (t_current entity - t_status_prohibit_start entity))).

(** The [while (sn_count)] loop of [missing_size]: the number of NACKs, the size,
    and [m->next]. *)
Fixpoint missing_size_loop (fuel : nat) (entity : nr_rlc_entity_am_t) (m : missing_data_t)
    (size maxsize sn_start sn_count range_count : Z) : outcome (Z * Z * missing_data_t) :=
  if sn_count =? 0 then Ok (range_count, size, m)
  else
    match fuel with
    | O => Diverge
    | S fuel' =>
        let r_bits := if sn_field_length entity =? 18 then 3 else 1 in
        let '(so_start, sn_end, so_end, cur_sn_count) := nack_part entity m sn_start sn_count in
        if maxsize <? size + nack_size entity sn_start so_start sn_end so_end
        then Ok (range_count, size, m <| m_next := [] |>)
        else
          let bits := sn_field_length entity + 3 + r_bits in
          let bits :=
            if sn_start =? sn_end then
              if (so_start =? 0) && (so_end =? 65535) then bits else bits + 16 * 2
            else if (so_start =? 0) && (so_end =? 65535) then bits + 8 else bits + 16 * 2 + 8 in
          missing_size_loop fuel' entity m (size + Z.quot bits 8) maxsize
            (cmod (sn_start + cur_sn_count) (sn_modulus entity)) (sn_count - cur_sn_count)
            (range_count + 1)
    end.

Definition missing_size (entity : nr_rlc_entity_am_t) (m : missing_data_t) (size maxsize : Z)
  : outcome (Z * Z * missing_data_t) :=
  let sn_count := missing_sn_count entity m in
  missing_size_loop (Z.to_nat sn_count) entity m size maxsize (m_sn_start m) sn_count 0.

(** The [while (cur != NULL)] loop of [status_size]. *)
Fixpoint status_size_loop (fuel : nat) (entity : nr_rlc_entity_am_t) (cur : list nr_rlc_pdu_t)
    (nack_count size maxsize : Z) : outcome Z :=
  match cur with
  | [] => Ok size
  | _ =>
      match fuel with
      | O => Diverge
      | S fuel' =>
          m ← next_missing entity cur (nack_count =? 0);
          if m_sn_start m =? -1 then Ok size
          else
            '(n, size, m) ← missing_size entity m size maxsize;
            status_size_loop fuel' entity (m_next m) (nack_count + n) size maxsize
      end
  end.

Definition status_size (entity : nr_rlc_entity_am_t) (maxsize : Z) : outcome Z :=
  if maxsize <? 3 then Ok 0
  else
    cur ← get_first_rx_pdu entity;
    status_size_loop (S (pdu_count entity)) entity cur 0 3 maxsize.

(** ** Entry points of the entity *)

Definition nr_rlc_entity_am_recv_pdu (entity : nr_rlc_entity_am_t) (buffer : bytes) (size : Z)
  : outcome nr_rlc_entity_am_t :=
  let entity := on_common (on_stats (λ s, add32 rxpdu_bytes size (add32 rxpdu_pkts 1 s))) entity in
  get_or (recv_pdu_discard entity size 0) (nr_rlc_pdu_decoder_init buffer size) 1 (λ dc decoder,
  if dc =? 0 then process_control_pdu entity buffer size
  else recv_data_pdu entity decoder buffer size).

Definition nr_rlc_entity_am_buffer_status (entity : nr_rlc_entity_am_t) (maxsize : Z)
  : outcome nr_rlc_entity_buffer_status_t :=
  status ← (if status_to_report entity then status_size entity maxsize else Ok 0);
  Ok (mk_bstatus status (bs_tx_size (bstatus (common entity))) (bs_retx_size (bstatus (common entity)))).

Definition nr_rlc_entity_am_generate_pdu (time_now : Z) (entity : nr_rlc_entity_am_t)
    (buffer : bytes) (size : Z) : outcome (Z * bytes * nr_rlc_entity_am_t) :=
  '(ret, buffer, entity) ←
    (if status_to_report entity then generate_status entity buffer size
     else Ok (0, buffer, entity));
  if negb (ret =? 0) then Ok (ret, buffer, entity)
  else
    '(ret, buffer, entity) ←
      (if retransmit_list entity is [] then Ok (0, buffer, entity)
       else generate_retx_pdu entity buffer size);
    if negb (ret =? 0) then Ok (ret, buffer, entity)
    else generate_tx_pdu time_now entity buffer size.
