(* ===== verification/RlcAmRecv.v ===== *)
(** * RLC acknowledged mode: reception of data PDUs

    The theorems about the receiving side of an entity: it is robust, it
    delivers exactly the SDUs whose bytes have all arrived, and it recognises
    exactly the segments that bring nothing new. At the end, behaviours the code
    does not intend: when exactly reception does not end, and which STATUS PDUs
    lose segments; each with a run of an entity, from its constructor. *)

From S2P Require Import Prelude Bits RlcPdu TimeStat RlcSdu RlcTypes RlcRxManager RlcReassemble.
From S2P Require Import RlcAm RlcAmRx RlcAmControl RlcAmStatus.

#[local] Arguments Z.add : simpl never.
#[local] Arguments Z.sub : simpl never.

(** ** Duplicates *)

Lemma covered_cons p l i : covered (p :: l) i ↔ (p_so p <= i < p_so p + p_size p) ∨ covered l i.
Proof.
  unfold covered. split.
  - intros (q & [->|Hq]%elem_of_cons & Hi); [by left|right; eauto].
  - intros [Hi|(q & Hq & Hi)]; [exists p|exists q]; (split; [|done]); constructor; done.
Qed.

(** On segments in offset order, the loop of [segment_already_received] answers
    whether all the bytes asked for are covered. *)
Lemma received_loop_covered l so size :
  so_sorted l → (∀ p, p ∈ l → 0 < p_size p) →
  received_loop l so size = true ↔ ∀ i, so <= i < so + size → covered l i.
Proof.
  intros Hs. revert so size. induction Hs as [|p l Hs IH Hall]; intros so size Hsz; cbn [received_loop].
  { rewrite Z.leb_le. split; intros H.
    - intros i Hi. lia.
    - destruct (decide (size <= 0)); [done|]. destruct (H so ltac:(lia)) as (q & Hq & _).
      by apply not_elem_of_nil in Hq. }
  assert (∀ q, q ∈ l → 0 < p_size q) as Hsz' by (intros q Hq; apply Hsz; by constructor).
  pose proof (Hsz p (list_elem_of_here _ _)) as Hp.
  assert (∀ i, i < p_so p → ¬ covered l i) as Hlow.
  { intros i Hi (q & Hq & Hqi). rewrite Forall_forall in Hall. specialize (Hall q Hq). lia. }
  destruct (Z.leb_spec size 0) as [H0|H0]; [split; [intros _ i Hi; lia|done]|].
  assert ((∀ i, so <= i < so + size → covered (p :: l) i) ↔
    ∀ i, so <= i < so + size → ¬ (p_so p <= i < p_so p + p_size p) → covered l i) as ->.
  { split; intros H i Hi; [intros Hn; destruct (proj1 (covered_cons _ _ _) (H i Hi)); done|].
    apply covered_cons. destruct (decide (p_so p <= i < p_so p + p_size p)); [by left|right; auto]. }
  destruct (Z.leb_spec (p_so p) so) as [Ha|Ha], (Z.ltb_spec so (p_so p + p_size p)) as [Hb|Hb]; cbn [andb].
  - rewrite IH by done. split; intros H i Hi; [intros Hn|]; apply H; lia.
  - destruct (Z.leb_spec (p_so p) (so + size - 1)), (Z.ltb_spec (so + size - 1) (p_so p + p_size p));
      cbn [andb]; try lia; rewrite IH by done; (split; intros Hcov i Hi; [intros Hn|]; apply Hcov; lia).
  - assert (¬ ∀ i, so <= i < so + size → ¬ (p_so p <= i < p_so p + p_size p) → covered l i) as Hno.
    { intros H. apply (Hlow so); [lia|]. apply H; lia. }
    destruct ((p_so p <=? so + size - 1) && _) eqn:E.
    + apply andb_true_iff in E as [E1 E2]. apply Z.leb_le in E1. rewrite IH by done.
      split; [|done]. intros H. destruct (Hlow so); [lia|]. apply H. lia.
    + rewrite IH by done. split; [|done]. intros H. destruct (Hlow so); [lia|]. apply H. lia.
  - lia.
Qed.

(** duplicate detection is exact. For an SN of the reception window,
    [segment_already_received] holds if and only if every byte of the segment
    has been received before, over all overlaps of the segments received; it
    also recognises retransmissions of an SDU that has already been delivered. *)
Theorem am_duplicate_exact Q e sn so size :
  am_rx_wf Q e → 0 <= sn < sn_modulus e → sn_in_recv_window e sn = true →
  segment_already_received e sn so size = true ↔
  ∀ i, so <= i < so + size → covered (rx_pdus e sn) i.
Proof.
  intros W Hsn Hwin. pose proof (aw_core _ _ W) as C. apply Z.ltb_lt in Hwin.
  pose proof (am_modulus_rx_range e sn (ar_next _ _ _ C) Hsn) as Hk.
  pose proof (ar_slot _ _ _ C (modulus_rx e sn) ltac:(lia)) as Hslot.
  rewrite rx_at_modulus in Hslot by (done || apply C).
  apply received_loop_covered; [apply Hslot|]. intros p Hp. by apply (so_sn _ _ _ Hslot).
Qed.

Lemma am_duplicate_exact_witness :
  returns (new_nr_rlc_entity_am 1000 1000 45 35 0 (-1) (-1) 8 18) (λ e,
    segment_already_received e 5 0 10 = true ↔ ∀ i, 0 <= i < 0 + 10 → covered (rx_pdus e 5) i).
Proof.
  eapply returns_mono; [apply (am_new_ok 1000 1000 45 35 0 (-1) (-1) 8 18); by right|].
  intros e (W & C & Hlen & _ & _ & _ & _ & _ & _ & _ & _ & _ & _ & _ & _ & _ & Hrx).
  destruct (am_cfg_bounds e C). specialize (W (λ _, True)).
  pose proof (ar_start _ _ _ (aw_core _ _ W)) as Hn. rewrite Hrx in Hn. cbn in Hn.
  apply (am_duplicate_exact (λ _, True) e 5 0 10 W); [lia|].
  apply Z.ltb_lt. unfold modulus_rx. rewrite <- Hn. change (5 < window_size e). lia.
Defined.

(** ** Runs of the receiving side *)

(** The entity after a PDU has been counted. *)
Definition counted (e : nr_rlc_entity_am_t) (size : Z) : nr_rlc_entity_am_t :=
  on_common (on_stats (λ s, add32 rxpdu_bytes size (add32 rxpdu_pkts 1 s))) e.

Definition am_is_data (buffer : bytes) : bool := negb (bits_val (bits_at buffer 0 1) =? 0).

Lemma am_accepts_counted e size p : am_accepts (counted e size) p ↔ am_accepts e p.
Proof. split; intros []; by split. Qed.

Lemma am_loops_counted e size p : am_loops (counted e size) p ↔ am_loops e p.
Proof. unfold am_loops. by rewrite am_accepts_counted. Qed.

Lemma am_recv_pdu_data_ok Q e buffer size :
  let p := am_segment (sn_field_length e) buffer size in
  am_rx_wf Q e → 0 <= size <= zlen buffer → am_is_data buffer = true → (am_accepts e p → Q p) →
  (returns (nr_rlc_entity_am_recv_pdu e buffer size) (λ e',
    am_rx_wf Q e' ∧ am_tx_view e' = am_tx_view e ∧
    ∃ evs, events (common e') = events (common e) ++ evs ∧ am_delivers e p evs) ∧ ¬ am_loops e p) ∨
  (nr_rlc_entity_am_recv_pdu e buffer size = Diverge ∧ am_loops e p).
Proof.
  intros p W Hs Hd HQ. unfold nr_rlc_entity_am_recv_pdu. fold (counted e size).
  assert (am_rx_wf Q (counted e size)) as W1 by (by eapply am_rx_wf_ext; [|exact W]).
  apply (get_or_elim (λ m, returns m _ ∧ _ ∨ m = Diverge ∧ _) _ buffer size 0 1);
    [apply dec_at_init|lia..| |].
  - intros Hend. assert (¬ am_accepts e p) as HA.
    { intros A. destruct (aa_stored _ _ A) as (_ & Hsz & _).
      pose proof (am_header_size_range (sn_field_length e) (p_is_first p)).
      change (p_size p) with (size - am_header_size (sn_field_length e) (p_is_first p)) in Hsz. lia. }
    left. split; [|by intros []]. apply returns_ok.
    split_and!; [by eapply am_rx_wf_ext; [|exact W1]|done|].
    exists []. rewrite app_nil_r. split; [done|]. by right.
  - intros d Hdec Hr. unfold am_is_data in Hd. apply negb_true_iff in Hd. rewrite Hd.
    destruct (am_recv_data_ok Q (counted e size) d buffer size W1 Hdec) as [[H HL]|[H1 H2]].
    + lia.
    + intros A. by apply HQ, (am_accepts_counted e size).
    + left. split; [|intros Hl; by apply HL, am_loops_counted]. eapply returns_mono; [exact H|]. intros e' (W' & Hv & evs & Hev & Hdel).
      split_and!; try done. exists evs. split; [done|]. unfold am_delivers in *.
      by rewrite am_accepts_counted in Hdel.
    + right. split; [exact H1|]. by apply (am_loops_counted e size).
Qed.

Inductive am_rx_op :=
| AmPdu (buffer : bytes) (size : Z)
| AmTime (now : Z).

Definition am_rx_op_ok (op : am_rx_op) : Prop :=
  match op with
  | AmPdu buffer size => 0 <= size <= zlen buffer ∧ am_is_data buffer = true
  | AmTime _ => True
  end.

Definition am_rx_exec (e : nr_rlc_entity_am_t) (op : am_rx_op) : outcome nr_rlc_entity_am_t :=
  match op with
  | AmPdu buffer size => nr_rlc_entity_am_recv_pdu e buffer size
  | AmTime now => nr_rlc_entity_am_set_time e now
  end.

Fixpoint am_rx_run (e : nr_rlc_entity_am_t) (ops : list am_rx_op) : outcome nr_rlc_entity_am_t :=
  match ops with
  | [] => Ok e
  | op :: ops => e ← am_rx_exec e op; am_rx_run e ops
  end.

Lemma am_rx_exec_ok e op :
  am_rx_wf (λ _, True) e → t_poll_retransmit_start e = 0 → am_rx_op_ok op →
  returns (am_rx_exec e op) (λ e',
    am_rx_wf (λ _, True) e' ∧ t_poll_retransmit_start e' = 0 ∧ heap e' = heap e) ∨
  (am_rx_exec e op = Diverge ∧ window_complete e).
Proof.
  intros W Hp Hop. destruct op as [buffer size|now]; cbn [am_rx_exec am_rx_op_ok] in *.
  - destruct Hop as [Hs Hd].
    destruct (am_recv_pdu_data_ok (λ _, True) e buffer size W Hs Hd) as [[H _]|[H (_ & Hc & _)]];
      [done|left|by right].
    eapply returns_mono; [exact H|]. intros e' (W' & Hv & _). unfold am_tx_view in Hv.
    split_and!; [done|congruence..].
  - left. unfold nr_rlc_entity_am_set_time. set (e1 := e <| t_current := now |>).
    assert (check_t_poll_retransmit e1 = Ok e1) as ->.
    { unfold check_t_poll_retransmit. change (t_poll_retransmit_start e1) with (t_poll_retransmit_start e).
      by rewrite Hp. }
    cbn [mbind outcome_bind]. eapply returns_mono.
    { apply (am_check_t_reassembly_ok (λ _, True)). by eapply am_rx_wf_ext; [|exact W]. }
    intros e' (W' & Hv & _). unfold am_tx_view in Hv.
    assert (t_poll_retransmit_start e' = t_poll_retransmit_start e1 ∧ heap e' = heap e1) as [E1 E2]
      by (split; congruence). split_and!; [done|by rewrite E1|by rewrite E2].
Qed.

Lemma am_rx_run_ok e ops :
  Forall am_rx_op_ok ops → am_rx_wf (λ _, True) e → t_poll_retransmit_start e = 0 →
  returns (am_rx_run e ops) (λ e', am_rx_wf (λ _, True) e' ∧ heap e' = heap e) ∨
  (am_rx_run e ops = Diverge ∧ ∃ ops1 op ops2, ops = ops1 ++ op :: ops2 ∧
     returns (am_rx_run e ops1) (λ e, am_rx_wf (λ _, True) e ∧ window_complete e)).
Proof.
  intros Hops. revert e. induction Hops as [|op ops Hop Hops IH]; intros e W Ht; cbn [am_rx_run].
  { left. by apply returns_ok. }
  destruct (am_rx_exec_ok e op W Ht Hop) as [(e' & E & W' & Ht' & Hh')|[E Hw]]; rewrite E;
    cbn [mbind outcome_bind].
  - destruct (IH e' W' Ht') as [H|[H (ops1 & op' & ops2 & -> & H1)]].
    + left. rewrite <- Hh'. exact H.
    + right. split; [exact H|]. exists (op :: ops1), op', ops2. split; [done|].
      cbn [am_rx_run]. rewrite E. exact H1.
  - right. split; [done|]. exists [], op, ops. split; [done|]. by apply returns_ok.
Qed.

(** C10: the receiving side of acknowledged mode is robust. For every sequence of
    data PDUs with arbitrary contents and of clock ticks, no operation reads out
    of bounds, uses freed data or stops the process, and the invariant of the
    reception window holds at the end. The one way not to return is to receive
    the last missing SDU of a complete reception window before
    [rx_highest_status] has moved. *)
Theorem am_rx_robust rxmax txmax t_poll t_reass t_stat ppdu pbyte maxretx len ops :
  len = 12 ∨ len = 18 → Forall am_rx_op_ok ops →
  let new := new_nr_rlc_entity_am rxmax txmax t_poll t_reass t_stat ppdu pbyte maxretx len in
  returns (e ← new; am_rx_run e ops) (λ e, am_rx_wf (λ _, True) e ∧ heap e = empty_heap) ∨
  ((e ← new; am_rx_run e ops) = Diverge ∧
   ∃ ops1 op ops2, ops = ops1 ++ op :: ops2 ∧
     returns (e ← new; am_rx_run e ops1) (λ e, am_rx_wf (λ _, True) e ∧ window_complete e)).
Proof.
  intros Hlen Hops new. unfold new. clear new.
  destruct (am_new_ok rxmax txmax t_poll t_reass t_stat ppdu pbyte maxretx len Hlen)
    as (e & -> & W & _ & _ & _ & Hh & _ & _ & _ & _ & _ & _ & _ & _ & _ & _ & Ht & _).
  cbn [mbind outcome_bind]. specialize (W (λ _, True)). rewrite <- Hh. by apply am_rx_run_ok.
Qed.

(** Segments, a PDU that is too short, clock ticks and a whole SDU. *)
Lemma am_rx_robust_witness :
  let ops := [AmPdu [176; 0; 0; 9; 1; 2] 6; AmTime 100; AmPdu [255; 255; 255] 3;
              AmPdu [144; 0; 7] 3; AmTime 400; AmPdu [128; 1; 5; 5] 4] in
  Forall am_rx_op_ok ops ∧
  let new := new_nr_rlc_entity_am 1000 1000 45 35 0 (-1) (-1) 8 12 in
  (returns (e ← new; am_rx_run e ops) (λ e, am_rx_wf (λ _, True) e ∧ heap e = empty_heap) ∨
  ((e ← new; am_rx_run e ops) = Diverge ∧
   ∃ ops1 op ops2, ops = ops1 ++ op :: ops2 ∧
     returns (e ← new; am_rx_run e ops1) (λ e, am_rx_wf (λ _, True) e ∧ window_complete e))).
Proof.
  intros ops. assert (Forall am_rx_op_ok ops) as Hops.
  { repeat constructor; vm_compute; intuition congruence. }
  split; [exact Hops|]. apply (am_rx_robust 1000 1000 45 35 0 (-1) (-1) 8 12 ops); [by left|exact Hops].
Defined.

(** ** What is delivered *)

Lemma so_sorted_insert_covered l p i : covered (insert_by_so l p) i ↔ covered (p :: l) i.
Proof.
  unfold covered. split; intros (q & Hq & Hi); exists q; (split; [|done]).
  - by rewrite <- insert_by_so_perm.
  - by rewrite insert_by_so_perm.
Qed.

(** [p] is accepted and completes the SDU [d] of its SN. *)
Definition completes (e : nr_rlc_entity_am_t) (p : nr_rlc_pdu_t) (d : bytes) : Prop :=
  am_accepts e p ∧ sdu_delivered e (p_sn p) = false ∧
  ∀ i, 0 <= i < zlen d → covered (p :: rx_pdus e (p_sn p)) i.

Lemma am_delivers_genuine content e p evs :
  am_rx_wf (genuine_sn content) e →
  (am_accepts e p → genuine_sn content p) → 0 < zlen (content (p_sn p)) <= NR_SDU_MAX →
  am_delivers e p evs →
  (completes e p (content (p_sn p)) ∧ evs = [deliver_sdu (content (p_sn p))]) ∨
  (¬ completes e p (content (p_sn p)) ∧ evs = []).
Proof.
  intros W HQ Hmax [[A Hd]|[A ->]]; [|right; split; [|done]; intros [A' _]; done].
  pose proof (aw_core _ _ W) as C. specialize (HQ A).
  assert (0 <= p_sn p < sn_modulus e) as Hsn by (rewrite (ac_mod _ (ar_cfg _ _ _ C)); apply A).
  pose proof (aa_window _ _ A) as Hwin. apply Z.ltb_lt in Hwin.
  pose proof (am_modulus_rx_range e _ (ar_next _ _ _ C) Hsn) as Hk.
  pose proof (ar_slot _ _ _ C (modulus_rx e (p_sn p)) ltac:(lia)) as Hslot.
  rewrite rx_at_modulus in Hslot by (done || apply C).
  pose proof (slot_ok_insert _ _ _ p Hslot (aa_stored _ _ A) HQ eq_refl) as Hslot'.
  pose proof (insert_delivered _ _ _ p Hslot (aa_stored _ _ A)) as Hdel.
  unfold slot_delivers in Hd. set (l := insert_by_so (rx_pdus e (p_sn p)) p) in *.
  destruct (delivered l) eqn:El; cbn [negb andb] in Hd.
  { right. split; [|done]. intros (_ & Hu & _). unfold sdu_delivered in Hu. congruence. }
  assert (Forall (genuine (content (p_sn p))) l) as Hg.
  { pose proof (so_data _ _ _ Hslot' El) as Hf. rewrite Forall_forall in Hf |- *. intros q Hq.
    destruct (Hf q Hq) as [_ Hg]. unfold genuine_sn in Hg.
    by rewrite (proj1 (so_sn _ _ _ Hslot' q Hq)) in Hg. }
  destruct (full_covered (content (p_sn p)) 0 l Hg ltac:(lia) (so_sort _ _ _ Hslot')) as [Hc1 Hc2].
  change (0 - 1) with (-1) in Hc1, Hc2. destruct (sdu_full_from (-1) l) eqn:Ef.
  - left. split; [split_and!; [done|unfold sdu_delivered; congruence|]|].
    + intros i Hi. apply so_sorted_insert_covered. by apply Hc1.
    + destruct Hd as (r & Hr & ->).
      pose proof (full_reassembles (content (p_sn p)) 0 l Hg ltac:(lia) ltac:(lia) Ef) as Hr'.
      change (take (Z.to_nat 0) (content (p_sn p))) with (@nil Z) in Hr'. rewrite Hr in Hr'.
      by injection Hr' as ->.
  - right. split; [|done]. intros (_ & _ & Hall). apply diff_false_true, Hc2. intros i Hi.
    apply so_sorted_insert_covered. by apply Hall.
Qed.

(** C3: acknowledged mode delivers exactly the SDUs whose bytes have arrived. Let
    [content] give, for each SN, the SDU sent under it. If the segments stored
    and the one in the PDU received are genuine pieces of these SDUs, in any
    order, with any losses, duplicates, retransmissions and overlaps, then the
    SDU of the SN received is delivered, whole, exactly when this PDU brings its
    last missing byte, and nothing else is delivered. The transmitting side is
    untouched. *)
Theorem am_rx_delivers_genuine content e buffer size :
  let p := am_segment (sn_field_length e) buffer size in
  let d := content (p_sn p) in
  am_rx_wf (genuine_sn content) e → ¬ window_complete e →
  0 <= size <= zlen buffer → am_is_data buffer = true → genuine d p → 0 < zlen d <= NR_SDU_MAX →
  returns (nr_rlc_entity_am_recv_pdu e buffer size) (λ e',
    am_rx_wf (genuine_sn content) e' ∧ am_tx_view e' = am_tx_view e ∧
    ((completes e p d ∧ events (common e') = events (common e) ++ [deliver_sdu d]) ∨
     (¬ completes e p d ∧ events (common e') = events (common e)))).
Proof.
  intros p d W Hnw Hs Hd Hg Hmax.
  destruct (am_recv_pdu_data_ok (genuine_sn content) e buffer size W Hs Hd) as [[H _]|[_ (_ & H & _)]];
    [done| |done].
  eapply returns_mono; [exact H|]. intros e' (W' & Hv & evs & Hev & Hdel). split_and!; try done.
  destruct (am_delivers_genuine content e p evs W) as [[Hc ->]|[Hc ->]]; try done.
  - by left.
  - right. by rewrite app_nil_r in Hev.
Qed.

(** A whole SDU of three bytes in one PDU. *)
Lemma am_rx_delivers_genuine_witness :
  let content := λ _ : Z, [7; 8; 9] in
  returns (e ← new_nr_rlc_entity_am 1000 1000 45 35 0 (-1) (-1) 8 12;
           nr_rlc_entity_am_recv_pdu e [128; 0; 7; 8; 9] 5)
    (λ e, am_rx_wf (genuine_sn content) e).
Proof.
  intros content.
  destruct (am_new_ok 1000 1000 45 35 0 (-1) (-1) 8 12 (or_introl eq_refl))
    as (e & -> & W & C & Hlen & _ & _ & _ & _ & _ & _ & _ & _ & _ & _ & _ & _ & _ & Hrx).
  cbn [mbind outcome_bind]. eapply returns_mono.
  - apply (am_rx_delivers_genuine content e [128; 0; 7; 8; 9] 5); rewrite ?Hlen;
      [apply W| |vm_compute; intuition congruence..].
    intros [_ Hw]. destruct (am_cfg_bounds e C). specialize (Hw 1 ltac:(lia)).
    unfold sdu_delivered, rx_pdus in Hw. rewrite Hrx in Hw. discriminate Hw.
  - intros e' (W' & _). exact W'.
Defined.

(** The segments of an SDU in reverse order, with a duplicate: one delivery. *)
Example am_rx_reordered_delivery :
  match e ← new_nr_rlc_entity_am 1000 1000 45 35 0 (-1) (-1) 8 12;
        am_rx_run e [AmPdu [160; 0; 0; 1; 8; 9] 6; AmPdu [144; 0; 7] 3; AmPdu [160; 0; 0; 1; 8; 9] 6] with
  | Ok e => events (common e) = [deliver_sdu [7; 8; 9]]
  | _ => False
  end.
Proof. vm_compute. reflexivity. Qed.

(** ** Runs that go wrong *)

Definition new12 : outcome nr_rlc_entity_am_t :=
  new_nr_rlc_entity_am 100000 100000 45 35 0 (-1) (-1) 8 12.

(** A data PDU with a whole SDU of one byte. *)
Definition data_pdu (sn : Z) : bytes := [128 + Z.shiftr sn 8; Z.land sn 255; 7].

Fixpoint recv_data (e : nr_rlc_entity_am_t) (sns : list Z) : outcome nr_rlc_entity_am_t :=
  match sns with
  | [] => Ok e
  | sn :: sns => e ← nr_rlc_entity_am_recv_pdu e (data_pdu sn) 3; recv_data e sns
  end.

(** A grant of [n] bytes. *)
Definition grant (n : nat) (e : nr_rlc_entity_am_t) : outcome nr_rlc_entity_am_t :=
  '(_, _, e) ← nr_rlc_entity_am_generate_pdu 0 e (replicate n 0) (Z.of_nat n); Ok e.

Definition recv_status (status : bytes) (e : nr_rlc_entity_am_t) : outcome nr_rlc_entity_am_t :=
  nr_rlc_entity_am_recv_pdu e status (zlen status).

(** The loop over delivered SNs visits every SN within [M] turns, so a model that runs
    out of [M] turns is a program that loops for ever. *)
Lemma skip_delivered_fuel f M sn :
  0 <= sn < M → skip_delivered (Z.to_nat M) f M sn = Diverge →
  ∀ fuel, skip_delivered fuel f M sn = Diverge.
Proof.
  intros Hsn Hd fuel. destruct (first_false (λ k, f ((sn + Z.of_nat k) mod M)) (Z.to_nat M))
    as [(k & Hk & Hf & _)|Hall].
  - destruct (skip_delivered_ok f M (Z.to_nat M) k sn) as (j & _ & Hs & _); [lia|done|done|done|].
    by rewrite Hs in Hd.
  - apply skip_delivered_diverges; [lia|done|]. intros a Ha.
    pose proof (Z.mod_pos_bound (a - sn) M ltac:(lia)).
    specialize (Hall (Z.to_nat ((a - sn) mod M)) ltac:(lia)). cbn beta in Hall.
    rewrite Z2Nat.id, Zplus_mod_idemp_r in Hall by lia.
    replace (sn + (a - sn)) with a in Hall by lia. by rewrite Z.mod_small in Hall.
Qed.

(** C36: reception can loop for ever, and this is exactly when: a segment is accepted that
    completes the SDU with SN RX_NEXT, while all other SNs of the reception window have
    been delivered and RX_Highest_Status has not moved from RX_NEXT (t-Reassembly has not
    expired since). Then the loop of [reception_actions] that looks for the first SN not
    delivered finds every slot of the circular buffer delivered: no number of turns ends
    it. On every other data PDU, whatever its octets, reception returns. *)
Theorem am_reception_loops e buffer size :
  let p := am_segment (sn_field_length e) buffer size in
  am_rx_wf (λ _, True) e → 0 <= size <= zlen buffer → am_is_data buffer = true →
  (am_loops e p → nr_rlc_entity_am_recv_pdu e buffer size = Diverge ∧
     ∀ f sn, 0 <= sn < sn_modulus e → skip_delivered (Z.to_nat (sn_modulus e)) f (sn_modulus e) sn = Diverge →
       ∀ fuel, skip_delivered fuel f (sn_modulus e) sn = Diverge) ∧
  (¬ am_loops e p → ∃ e', nr_rlc_entity_am_recv_pdu e buffer size = Ok e' ∧ am_rx_wf (λ _, True) e').
Proof.
  intros p W Hs Hd.
  destruct (am_recv_pdu_data_ok (λ _, True) e buffer size W Hs Hd (λ _, I)) as [[(e' & H & W' & _) Hn]|[H Hl]];
    [split; [done|eauto]|]. split; [|done].
  intros _. split; [done|]. intros f sn Hsn. by apply skip_delivered_fuel.
Qed.

(** SN 1 to 2047 have been received, SN 0 was lost; t-Reassembly has not expired. *)
Definition complete_window : outcome nr_rlc_entity_am_t := e ← new12; recv_data e (seqZ 1 2047).

(** What makes the reception of SN 0 loop, as a test. *)
Definition head_completes (e : nr_rlc_entity_am_t) (p : nr_rlc_pdu_t) : bool :=
  (sn_field_length e =? 12) && (window_size e =? 2048) && (rx_size e + p_size p <=? rx_maxsize e) &&
  sn_in_recv_window e (p_sn p) && negb (segment_already_received e (p_sn p) (p_so p) (p_size p)) &&
  (rx_highest_status e =? rx_next e) && (p_sn p =? rx_next e) &&
  forallb (λ k, sdu_delivered e (rx_at e k)) (seqZ 1 2047) &&
  negb (delivered (insert_by_so (rx_pdus e (p_sn p)) p)) &&
  sdu_full_from (-1) (insert_by_so (rx_pdus e (p_sn p)) p).

Lemma head_completes_loops e :
  let p := mk_pdu 0 (Some [7]) 1 0 true true in head_completes e p = true → sn_field_length e = 12 ∧ am_loops e p.
Proof.
  intros p H. unfold head_completes in H.
  repeat match goal with H : _ && _ = true |- _ => apply andb_true_iff in H as [H ?] end.
  repeat match goal with
  | H : (_ =? _) = true |- _ => apply Z.eqb_eq in H
  | H : (_ <=? _) = true |- _ => apply Z.leb_le in H
  | H : negb _ = true |- _ => apply negb_true_iff in H
  end.
  split; [done|]. split_and!; [split| |done|].
  - split_and!; [done|done|]. by exists [7].
  - rewrite H. done.
  - done.
  - done.
  - done.
  - done.
  - done.
  - split; [done|]. intros k Hk. rewrite forallb_forall in H2. apply H2, list_elem_of_In, elem_of_seqZ. lia.
  - unfold completes_sdu. by rewrite H1.
Qed.

Lemma complete_window_ok :
  returns complete_window (λ e, am_rx_wf (λ _, True) e ∧
    sn_field_length e = 12 ∧ am_loops e (mk_pdu 0 (Some [7]) 1 0 true true)).
Proof.
  assert (∀ l e, am_rx_run e ((λ sn, AmPdu (data_pdu sn) 3) <$> l) = recv_data e l) as Hrun.
  { induction l as [|sn l IH]; intros e0; cbn [fmap list_fmap am_rx_run recv_data am_rx_exec]; [done|].
    destruct (nr_rlc_entity_am_recv_pdu e0 (data_pdu sn) 3); cbn [mbind outcome_bind]; auto. }
  assert (match complete_window with Ok e => head_completes e (mk_pdu 0 (Some [7]) 1 0 true true)
          | _ => false end = true) as Ho by (vm_compute; reflexivity).
  unfold complete_window in *. unfold new12 in *.
  destruct (am_new_ok 100000 100000 45 35 0 (-1) (-1) 8 12 (or_introl eq_refl))
    as (e & Hn & W & _ & _ & _ & _ & _ & _ & _ & _ & _ & _ & _ & _ & _ & _ & Ht & _).
  rewrite Hn in *. cbn [mbind outcome_bind] in *. rewrite <- Hrun in *.
  destruct (am_rx_run_ok e ((λ sn, AmPdu (data_pdu sn) 3) <$> seqZ 1 2047)) as [H|[H _]]; try done.
  - apply Forall_fmap. apply (bool_decide_eq_true_1 (Forall (λ sn, (0 <= 3 <= 3 ∧ am_is_data (data_pdu sn) = true)) (seqZ 1 2047))).
    vm_compute. reflexivity.
  - destruct H as (e' & E & W' & _). rewrite E in *. exists e'. split; [done|]. split; [done|].
    by apply head_completes_loops.
  - by rewrite H in Ho.
Qed.

Lemma am_reception_loops_witness :
  (e ← complete_window; nr_rlc_entity_am_recv_pdu e (data_pdu 0) 3) = Diverge ∧
  (e ← new12; e ← recv_data e (seqZ 1 2046 ++ [0]); Ok (rx_next e)) = Ok 2047.
Proof.
  split; [|vm_compute; reflexivity].
  destruct complete_window_ok as (e & -> & W & Hl & L). cbn [mbind outcome_bind].
  refine (proj1 (proj1 (am_reception_loops e (data_pdu 0) 3 W _ _) _)).
  - vm_compute. intuition congruence.
  - reflexivity.
  - rewrite Hl. exact L.
Defined.

(** ** A STATUS PDU with one NACK *)

(** The fields of a STATUS PDU in [buffer] that nacks the bytes from [so_start] to [so_end]
    of one SN, which is also its ACK_SN. *)
Record one_nack (len : Z) (buffer : bytes) (size ack_sn so_start so_end : Z) : Prop := {
  on_size : 59 + len + (if len =? 18 then 3 else 1) <= 8 * size;
  on_buffer : size <= zlen buffer;
  on_dc : bits_val (bits_at buffer 0 1) = 0;
  on_cpt : bits_val (bits_at buffer 1 3) = 0;
  on_ack : bits_val (bits_at buffer 4 len) = ack_sn;
  on_e1 : bits_val (bits_at buffer (4 + len) 1) ≠ 0;
  on_nack : bits_val (bits_at buffer 24 len) = ack_sn;
  on_last : bits_val (bits_at buffer (24 + len) 1) = 0;
  on_e2 : bits_val (bits_at buffer (25 + len) 1) ≠ 0;
  on_e3 : bits_val (bits_at buffer (26 + len) 1) = 0;
  on_start : bits_val (bits_at buffer (27 + len + (if len =? 18 then 3 else 1)) 16) = so_start;
  on_end : bits_val (bits_at buffer (43 + len + (if len =? 18 then 3 else 1)) 16) = so_end;
}.

Lemma read_header_one {A} (R : outcome A → Prop) err e buffer size ack_sn so_start so_end k :
  am_cfg e → one_nack (sn_field_length e) buffer size ack_sn so_start so_end →
  (∀ e1 d, e1 ≠ 0 → dec_at buffer size 24 d → R (k 0 ack_sn e1 d)) →
  R (read_header err e buffer size k).
Proof.
  intros Cf N HR. destruct N as [N1 N2 _ N4 N5 N6 _ _ _ _ _ _]. pose proof (ac_len _ Cf) as Hl. unfold read_header.
  assert (0 <= (if sn_field_length e =? 18 then 3 else 1) <= 3) by (destruct (_ =? _); lia).
  apply (get_or_elim R _ buffer size 0 1); [apply dec_at_init|lia..|]. intros d1 H1 _.
  apply (get_or_elim R _ buffer size 1 3); [done|lia..|]. intros d2 H2 _. rewrite N4. cbn [Z.eqb negb].
  apply (get_or_elim R _ buffer size 4 (sn_field_length e)); [done|lia..|]. intros d3 H3 _. rewrite N5.
  apply (get_or_elim R _ buffer size (4 + sn_field_length e) 1); [done|lia..|]. intros d4 H4 _.
  apply (get_or_elim R _ buffer size (4 + sn_field_length e + 1) (if sn_field_length e =? 18 then 1 else 7));
    [done|lia|destruct Hl as [E|E]; rewrite E in *; cbn in *; lia..|]. intros d5 H5 _.
  apply HR; [done|]. destruct Hl as [E | E]; rewrite E in H5; exact H5.
Qed.

Lemma read_nack_one {A} (R : outcome A → Prop) err e d buffer size ack_sn so_start so_end k :
  am_cfg e → one_nack (sn_field_length e) buffer size ack_sn so_start so_end → dec_at buffer size 24 d →
  (∀ d, R (k (mk_nack ack_sn so_start (if so_end =? 65535 then -1 else so_end) 1) 0 d)) →
  R (read_nack err e d k).
Proof.
  intros Cf N Hd HR. destruct N as [N1 N2 _ _ _ _ N7 N8 N9 N10 N11 N12].
  pose proof (ac_len _ Cf) as Hl. unfold read_nack. set (len := sn_field_length e) in *.
  set (r := if len =? 18 then 3 else 1) in *. assert (1 <= r <= 3) by (unfold r; destruct (_ =? _); lia).
  apply (get_or_elim R _ buffer size 24 len); [done|lia..|]. intros d1 H1 _. rewrite N7.
  apply (get_or_elim R _ buffer size (24 + len) 1); [done|lia..|]. intros d2 H2 _. rewrite N8.
  apply (get_or_elim R _ buffer size (25 + len) 1);
    [by replace (25 + len) with (24 + len + 1) by lia|lia..|]. intros d3 H3 _.
  apply Z.eqb_neq in N9. rewrite !N9.
  apply (get_or_elim R _ buffer size (26 + len) 1);
    [by replace (26 + len) with (25 + len + 1) by lia|lia..|]. intros d4 H4 _. rewrite N10.
  apply (get_or_elim R _ buffer size (27 + len) r);
    [by replace (27 + len) with (26 + len + 1) by lia|lia..|]. intros d5 H5 _.
  apply (get_or_elim R _ buffer size (27 + len + r) 16); [done|lia..|]. intros d6 H6 _. rewrite N11.
  apply (get_or_elim R _ buffer size (43 + len + r) 16);
    [by replace (43 + len + r) with (27 + len + r + 16) by lia|lia..|]. intros d7 H7 _. rewrite N12.
  apply (get_or_elim R _ buffer size (43 + len + r + 16) 0); [done|lia..|]. intros d8 H8 _. apply HR.
Qed.

Lemma nack_at_one e ack_sn so_start so_end :
  0 <= ack_sn < sn_modulus e → nack_at e (mk_nack ack_sn so_start so_end 1) 0 = (ack_sn, so_start, so_end).
Proof. intros Ha. unfold nack_at. cbn. rewrite Z.add_0_r. unfold cmod. by rewrite Z.rem_small. Qed.

(** The NACK on an entity with nothing in its wait list, when the first segment to be
    retransmitted comes before the bytes nacked. *)
Lemma process_range_stuck e r rest ack_sn so_start so_end :
  seg_sn e r = ack_sn → 0 <= ack_sn < sn_modulus e →
  0 <= g_so r → 0 < g_size r → g_so r + g_size r <= so_start →
  process_range 1 0 e (mk_ctrl [] [] [] None [] (r :: rest)) ack_sn (mk_nack ack_sn so_start so_end 1)
  = Ok (mk_ctrl [] [] [] None [] [], e).
Proof.
  intros Hsn Ha H0 H1 H2.
  assert (so_overlap so_start so_end (g_so r) (g_so r + g_size r - 1) = false) as Ho.
  { unfold so_overlap. rewrite (proj2 (Z.ltb_ge _ _)) by lia.
    apply orb_false_iff. split; [apply Z.eqb_neq|apply Z.leb_gt]; lia. }
  cbn [process_range]. rewrite nack_at_one by done. cbn [length w_cur r_cur Nat.add process_nack].
  assert (process_one e (mk_ctrl [] [] [] None [] (r :: rest)) ack_sn (ack_sn, so_start, so_end)
    = Ok (lists_over, mk_ctrl [] [] [] None [] [], e)) as ->; [|done].
  unfold process_one. cbn [w_cur r_cur]. unfold process_retransmit_list_head.
  rewrite Hsn, Ho, andb_false_r. unfold sn_compare_tx.
  by rewrite Z.sub_diag, (proj2 (Z.ltb_ge so_start (g_so r))) by lia.
Qed.

Section OneNack.
Context (c : nr_rlc_entity_am_t) (buffer : bytes) (size ack_sn so_start so_end : Z).
Context (Cc : am_cfg c) (Nc : one_nack (sn_field_length c) buffer size ack_sn so_start so_end).

Lemma one_nack_bounds : 8 <= size <= zlen buffer ∧ 0 <= ack_sn < sn_modulus c.
Proof.
  pose proof (ac_len _ Cc). pose proof (on_size _ _ _ _ _ _ Nc).
  assert (1 <= (if sn_field_length c =? 18 then 3 else 1)) by (destruct (_ =? _); lia).
  pose proof (on_buffer _ _ _ _ _ _ Nc). split; [lia|].
  rewrite (ac_mod _ Cc), <- (on_ack _ _ _ _ _ _ Nc). apply bits_at_range. lia.
Qed.

Lemma validate_one :
  sn_compare_tx c ack_sn (tx_next c) <= 0 → validate_control_pdu c buffer size = Ok true.
Proof.
  intros Hn. destruct one_nack_bounds as [Hs Ha]. unfold validate_control_pdu.
  apply (read_header_one (λ m, m = Ok true) _ c _ _ _ _ _ _ Cc Nc).
  intros e1 d He1 Hd. rewrite (proj2 (Z.ltb_ge _ _)) by lia.
  replace (Z.to_nat size) with (S (pred (Z.to_nat size))) by lia. cbn [validate_nacks].
  rewrite (proj2 (Z.eqb_neq _ _) He1).
  apply (read_nack_one (λ m, m = Ok true) _ c _ _ _ _ _ _ _ Cc Nc Hd). intros d'.
  cbn [n_range]. change (Z.to_nat 1) with 1%nat. cbn [validate_range].
  rewrite nack_at_one by exact Ha. unfold nack_ok, sn_compare_tx. rewrite Z.sub_diag. cbn.
  by destruct (pred _).
Qed.

Lemma process_one_nack e1 d r rest :
  e1 ≠ 0 → dec_at buffer size 24 d →
  seg_sn c r = ack_sn → 0 <= g_so r → 0 < g_size r → g_so r + g_size r <= so_start →
  process_nacks (Z.to_nat size) c (mk_ctrl [] [] [] None [] (r :: rest)) ack_sn e1 d =
  Ok (mk_ctrl [] [] [] None [] [], check_poll_nack c
        (mk_nack ack_sn so_start (if so_end =? 65535 then -1 else so_end) 1)).
Proof.
  intros He1 Hd Hsn H0 H1 H2. destruct one_nack_bounds as [Hs Ha].
  replace (Z.to_nat size) with (S (pred (Z.to_nat size))) by lia. cbn [process_nacks].
  rewrite (proj2 (Z.eqb_neq _ _) He1).
  apply (read_nack_one (λ m, m = _) _ c _ _ _ _ _ _ _ Cc Nc Hd). intros d'.
  cbn [n_range]. change (Z.to_nat 1) with 1%nat.
  rewrite process_range_stuck by (done || lia). cbn [mbind outcome_bind]. by destruct (pred _).
Qed.
End OneNack.

(** Empty lists stored back: only the retransmit list and three variables change. *)
Lemma store_empty_lists c t n ack_sn :
  wait_list c = [] →
  let e := check_poll_nack (c <| t_poll_retransmit_start := t |>) n in
  let u := update_tx_next_ack (store_lists e (mk_ctrl [] [] [] None [] [])) ack_sn in
  u = c <| retransmit_list := [] |> <| tx_next_ack := tx_next_ack u |>
        <| t_poll_retransmit_start := t_poll_retransmit_start u |>.
Proof.
  intros Hw e u. assert (∃ s, e = c <| t_poll_retransmit_start := s |>) as (s & Es).
  { unfold e, check_poll_nack. destruct (_ && _); by eexists. }
  unfold store_lists in u. cbn [w_end w_done w_cur w_rest r_new r_cur app] in u. clearbody e. subst e.
  match goal with u := update_tx_next_ack ?e ?a |- _ =>
    assert (u = e <| tx_next_ack := tx_next_ack u |>) as Hu by done end.
  clearbody u. rewrite Hu at 1. rewrite Hu at 2. clear -Hw. destruct c. cbn in Hw. subst. reflexivity.
Qed.

(** C37: a STATUS PDU can make segments vanish. Let an entity have an empty wait list and,
    at the head of its retransmit list, a segment that lies before the bytes nacked by the
    only NACK of a STATUS PDU, whose SN is that of the segment and also the ACK_SN (the
    peer could not report all that it misses). The remaining retransmit list is put after
    [new_retransmit_list], which does not advance, and then overwritten by NULL: both lists
    are empty after the PDU and nothing else has changed, so no list holds the segments any
    more, they are never sent again although they were not acknowledged, and their bytes
    stay counted in [tx_size] and in the buffer status. *)
Theorem am_status_loses_segments e r rest buffer size ack_sn so_start so_end :
  am_cfg e → one_nack (sn_field_length e) buffer size ack_sn so_start so_end →
  sn_compare_tx e ack_sn (tx_next e) <= 0 →
  wait_list e = [] → retransmit_list e = r :: rest →
  seg_sn e r = ack_sn → 0 <= g_so r → 0 < g_size r → g_so r + g_size r <= so_start →
  ∃ e', nr_rlc_entity_am_recv_pdu e buffer size = Ok e' ∧
    e' = counted e size <| retransmit_list := [] |> <| tx_next_ack := tx_next_ack e' |>
                        <| t_poll_retransmit_start := t_poll_retransmit_start e' |>.
Proof.
  intros Cf N Hn Hw Hr Hsn H0 H1 H2. unfold nr_rlc_entity_am_recv_pdu. fold (counted e size).
  set (c := counted e size). assert (am_cfg c) as Cc by (destruct Cf; by split).
  assert (one_nack (sn_field_length c) buffer size ack_sn so_start so_end) as Nc by exact N.
  set (R := λ m, ∃ e', m = Ok e' ∧ e' = c <| retransmit_list := [] |> <| tx_next_ack := tx_next_ack e' |>
                        <| t_poll_retransmit_start := t_poll_retransmit_start e' |>).
  destruct (one_nack_bounds c buffer size ack_sn so_start so_end Cc Nc) as [Hs _].
  apply (get_or_elim R _ buffer size 0 1); [apply dec_at_init|lia..|]. intros d0 _ _.
  rewrite (on_dc _ _ _ _ _ _ N). cbn [Z.eqb]. unfold process_control_pdu.
  rewrite (validate_one c buffer size ack_sn so_start so_end Cc Nc Hn).
  cbn [mbind outcome_bind]. unfold apply_control_pdu.
  apply (read_header_one R _ c _ _ _ _ _ _ Cc Nc). intros e1 d He1 Hd.
  match goal with |- context [process_nacks _ ?e _ _ _ _] => set (c1 := e) end.
  assert (∃ t, c1 = c <| t_poll_retransmit_start := t |>) as (t & Ht).
  { unfold c1. destruct (_ <? _); [by eexists|]. exists (t_poll_retransmit_start c). by destruct c. }
  clearbody c1. assert (am_cfg c1) as C1 by (subst c1; destruct Cc; by split).
  change (wait_list c) with (wait_list e). change (retransmit_list c) with (retransmit_list e). rewrite Hw, Hr.
  rewrite (process_one_nack c1 buffer size ack_sn so_start so_end C1) by (done || by subst c1).
  cbn [mbind outcome_bind w_cur r_cur ack_wait_list ack_retransmit_list]. eexists. split; [reflexivity|].
  subst c1. by apply store_empty_lists.
Qed.

(** An SDU of 30 bytes sent in three segments, all nacked by a first STATUS PDU; a second
    one nacks the last segment only. *)
Definition nacked_sdu : outcome nr_rlc_entity_am_t :=
  e ← new12;
  e ← nr_rlc_entity_am_recv_sdu 0 e (seqZ 0 30) 30 1;
  e ← grant 12 e; e ← grant 14 e; e ← grant 14 e;
  recv_status [0; 0; 128; 0; 4; 0; 0; 0; 29] e.

Lemma nacked_sdu_ok :
  returns nacked_sdu (λ e, am_cfg e ∧ sn_field_length e = 12 ∧ tx_size e = 30 ∧
    sn_compare_tx e 0 (tx_next e) <= 0 ∧ wait_list e = [] ∧
    ∃ r1 r2 r3, retransmit_list e = [r1; r2; r3] ∧ seg_sn e r1 = 0 ∧ 0 <= g_so r1 ∧ 0 < g_size r1 ∧
      g_so r1 + g_size r1 <= 20).
Proof.
  eexists. split; [vm_compute; reflexivity|].
  split; [split; [by left|reflexivity..]|]. split; [reflexivity|]. split; [reflexivity|].
  split; [vm_compute; discriminate|]. split; [reflexivity|]. eexists _, _, _. split; [reflexivity|].
  vm_compute. intuition congruence.
Qed.

Lemma am_status_loses_segments_witness :
  ∃ e e', nacked_sdu = Ok e ∧ length (retransmit_list e) = 3%nat ∧ tx_size e = 30 ∧
    recv_status [0; 0; 128; 0; 4; 0; 20; 0; 29] e = Ok e' ∧
    wait_list e' = [] ∧ retransmit_list e' = [] ∧ tx_size e' = 30.
Proof.
  destruct nacked_sdu_ok as (e & He & Cf & Hl & Ht & Hn & Hw & r1 & r2 & r3 & Hr & Hsn & H0 & H1 & H2).
  destruct (am_status_loses_segments e r1 [r2; r3] [0; 0; 128; 0; 4; 0; 20; 0; 29] 9 0 20 29)
    as (e' & Hr' & He'); try assumption.
  - rewrite Hl. split; vm_compute; congruence.
  - exists e, e'. rewrite Hr. split; [exact He|]. split; [reflexivity|]. split; [exact Ht|].
    split; [exact Hr'|]. rewrite He'. split; [exact Hw|]. split; [reflexivity|exact Ht].
Defined.

(** The 2048 SDUs of a window, each sent at once. *)
Fixpoint send_window (n : nat) (e : nr_rlc_entity_am_t) : outcome nr_rlc_entity_am_t :=
  match n with
  | O => Ok e
  | S n => e ← nr_rlc_entity_am_recv_sdu 0 e [7] 1 0; e ← grant 3 e; send_window n e
  end.

(** NACKs of [n] ranges from [sn] on: 255 SNs each, 8 in the last one. *)
Fixpoint nack_ranges (n : nat) (sn : Z) : bytes :=
  match n with
  | O => []
  | S n' =>
      [Z.shiftr sn 4; Z.lor (Z.shiftl (Z.land sn 15) 4) (if n' is O then 2 else 10);
       (if n' is O then 8 else 255)] ++ nack_ranges n' (sn + 255)
  end.

(** The expiry of t-PollRetransmit can dereference NULL. A full window of 2048
    SDUs is sent and nacked as a whole; SN 0 is retransmitted, with a poll since
    the window stalls, and nacked again: the wait list is empty while the window
    still stalls and the timer runs, and its expiry reads the head of the wait
    list. *)
Theorem am_poll_retransmit_null :
  (e ← new12;
   e ← nr_rlc_entity_am_set_time e 1;
   e ← send_window 2048 e;
   e ← recv_status ([8; 0; 128] ++ nack_ranges 9 0) e;
   e ← grant 3 e;
   e ← recv_status [0; 1; 128; 0; 0] e;
   nr_rlc_entity_am_set_time e 100) = Undef.
Proof. vm_compute. reflexivity. Qed.

(** The order of NACKs is not checked. The first pass over a STATUS PDU never
    sets the variables of the previous NACK, so it accepts a range of NACKs
    exactly when none of its SNs is beyond ACK_SN, whatever came before; a
    STATUS PDU whose NACKs go backwards (5, then 3) passes as valid. *)
Theorem am_nack_order_unchecked :
  (∀ n i e ack_sn k, validate_range n i e ack_sn k = true ↔
     ∀ j, (j < n)%nat → sn_compare_tx e (nack_at e k (i + Z.of_nat j)).1.1 ack_sn <= 0) ∧
  returns (e ← new12; e ← send_window 10 e;
           validate_control_pdu e [0; 10; 128; 0; 88; 0; 48] 7) (λ b, b = true).
Proof.
  split; [|eexists; split; [vm_compute; reflexivity|done]].
  induction n as [|n IH]; intros i e ack_sn k; cbn [validate_range]; [split; [lia|done]|].
  assert (nack_ok e ack_sn (-1) 0 (nack_at e k i)
    = negb (0 <? sn_compare_tx e (nack_at e k i).1.1 ack_sn)) as -> by done.
  destruct (Z.ltb_spec 0 (sn_compare_tx e (nack_at e k i).1.1 ack_sn)) as [Hlt|Hge]; cbn [negb].
  - split; [done|]. intros H. specialize (H 0%nat ltac:(lia)). rewrite Z.add_0_r in H. lia.
  - rewrite IH. split; intros H j Hj.
    + destruct j as [|j]; [by rewrite Z.add_0_r|]. specialize (H j ltac:(lia)).
      by replace (i + Z.of_nat (S j)) with (i + 1 + Z.of_nat j) by lia.
    + specialize (H (S j) ltac:(lia)).
      by replace (i + 1 + Z.of_nat j) with (i + Z.of_nat (S j)) by lia.
Qed.
