(* ===== verification/PdcpEntity.v ===== *)
(** * PDCP entity

    Models the SDUs that wait for delivery, [openair2/LAYER2/nr_pdcp/nr_pdcp_sdu.c] and
    [nr_pdcp_integrity_data.h] (a list ordered by COUNT), and [openair2/LAYER2/nr_pdcp/nr_pdcp_entity.c] with the security glue
    ([nr_pdcp_security_nea1.c], [nr_pdcp_security_nea2.c],
    [nr_pdcp_integrity_nia1.c], [nr_pdcp_integrity_nia2.c]). The cryptographic
    functions underneath (Snow3G, AES-CTR, AES-CMAC) are the parameters of the
    class [Crypto]. *)

From S2P Require Import Prelude.

(** ** SDUs waiting for delivery *)

(** What RRC needs to check the integrity of a message later. *)
Record nr_pdcp_integrity_data_t := mk_integrity {
  i_count : Z;                (* uint32_t *)
  i_mac : bytes;              (* 4 bytes *)
  i_header_size : Z;
  i_header : bytes;           (* 3 bytes *)
}.

Record nr_pdcp_sdu_t := mk_pdcp_sdu {
  ps_count : Z;               (* uint32_t *)
  ps_buffer : bytes;
  ps_size : Z;
  ps_msg_integrity : nr_pdcp_integrity_data_t;
}.

(** [malloc] and a copy of [size] bytes found at [buffer]. *)
Definition nr_pdcp_new_sdu (count : Z) (buffer : bytes) (size : Z)
    (msg_integrity : nr_pdcp_integrity_data_t) : outcome nr_pdcp_sdu_t :=
  b ← buf_sub buffer 0 size;
  Ok (mk_pdcp_sdu count b size msg_integrity).

Fixpoint nr_pdcp_sdu_list_add (l : list nr_pdcp_sdu_t) (sdu : nr_pdcp_sdu_t) : list nr_pdcp_sdu_t :=
  match l with
  | [] => [sdu]
  | cur :: next => if ps_count sdu <? ps_count cur then sdu :: cur :: next
                   else cur :: nr_pdcp_sdu_list_add next sdu
  end.

Fixpoint nr_pdcp_sdu_in_list (l : list nr_pdcp_sdu_t) (count : Z) : bool :=
  match l with
  | [] => false
  | cur :: next => if ps_count cur =? count then true else nr_pdcp_sdu_in_list next count
  end.

(** ** The list is a strictly ordered set of COUNTs *)

Definition count_sorted (l : list nr_pdcp_sdu_t) : Prop :=
  StronglySorted (λ a b, ps_count a < ps_count b) l.

Lemma sdu_in_list_spec l count :
  nr_pdcp_sdu_in_list l count = true ↔ ∃ s, s ∈ l ∧ ps_count s = count.
Proof.
  induction l as [|x l IH]; cbn [nr_pdcp_sdu_in_list].
  - split; [done|]. intros (s & Hs & _). by apply not_elem_of_nil in Hs.
  - destruct (Z.eqb_spec (ps_count x) count) as [E|E].
    + split; [|done]. intros _. exists x. split; [constructor|done].
    + rewrite IH. split; intros (s & Hs & Hc); exists s.
      * split; [by constructor|done].
      * apply elem_of_cons in Hs as [->|Hs]; [by destruct E|done].
Qed.

Lemma sdu_list_add_perm l sdu : nr_pdcp_sdu_list_add l sdu ≡ₚ sdu :: l.
Proof.
  induction l as [|x l IH]; cbn [nr_pdcp_sdu_list_add]; [done|]. destruct (_ <? _); [done|].
  rewrite IH. apply Permutation_swap.
Qed.

Lemma sdu_list_add_sorted l sdu :
  count_sorted l → nr_pdcp_sdu_in_list l (ps_count sdu) = false →
  count_sorted (nr_pdcp_sdu_list_add l sdu).
Proof.
  unfold count_sorted. induction 1 as [|x l Hl IH Hx]; cbn; intros Hin; [by repeat constructor|].
  destruct (Z.eqb_spec (ps_count x) (ps_count sdu)) as [|Hne]; [done|].
  destruct (Z.ltb_spec (ps_count sdu) (ps_count x)).
  - constructor; [by constructor|]. constructor; [lia|]. eapply Forall_impl; [exact Hx|]. cbn. lia.
  - constructor; [by apply IH|]. rewrite sdu_list_add_perm. constructor; [lia|done].
Qed.

(** ** Cryptographic functions

    Key, COUNT, bearer, direction and message; a cipher returns a message, an
    integrity function the bytes of the MAC it writes to [out]. *)
Class Crypto := {
  stream_encrypt_eea1 : bytes → Z → Z → Z → bytes → bytes;
  stream_integrity_eia1 : bytes → Z → Z → Z → bytes → bytes;
  aes_128_ctr : bytes → Z → Z → Z → bytes → bytes;
  aes_128_cbc_cmac : bytes → Z → Z → Z → bytes → bytes;
}.

(** What the entity relies on: the ciphers are stream ciphers, so that applying
    one twice with the same parameters gives the message back, and keep the
    length of the message; both produce bytes; a MAC has 4 bytes (Snow3G f9) or
    16 (AES-CMAC, of which 4 are kept). *)
Class CryptoLaws (C : Crypto) : Prop := {
  eea1_involutive : ∀ k c b d m, stream_encrypt_eea1 k c b d (stream_encrypt_eea1 k c b d m) = m;
  eea1_length : ∀ k c b d m, length (stream_encrypt_eea1 k c b d m) = length m;
  ctr_involutive : ∀ k c b d m, aes_128_ctr k c b d (aes_128_ctr k c b d m) = m;
  ctr_length : ∀ k c b d m, length (aes_128_ctr k c b d m) = length m;
  eia1_length : ∀ k c b d m, length (stream_integrity_eia1 k c b d m) = 4%nat;
  cmac_length : ∀ k c b d m, length (aes_128_cbc_cmac k c b d m) = 16%nat;
}.

Definition SHORT_SN_SIZE : Z := 12.
Definition LONG_SN_SIZE : Z := 18.
Definition SHORT_PDCP_HEADER_SIZE : Z := 2.
Definition LONG_PDCP_HEADER_SIZE : Z := 3.
Definition PDCP_INTEGRITY_SIZE : Z := 4.

Inductive nr_pdcp_entity_type_t := NR_PDCP_DRB_AM | NR_PDCP_DRB_UM | NR_PDCP_SRB.
#[export] Instance pdcp_type_eq_dec : EqDecision nr_pdcp_entity_type_t.
Proof. solve_decision. Defined.

Record nr_pdcp_entity_security_keys_and_algos_t := mk_keys {
  integrity_algorithm : Z;    (* -1: keep the current one *)
  ciphering_algorithm : Z;    (* -1: keep the current one *)
  integrity_key : bytes;
  ciphering_key : bytes;
}.

Record nr_pdcp_count_t := mk_count { c_sn : Z; c_hfn : Z }.

(** The context of a cipher and the function that goes with it: NEA1 and both
    integrity functions have a copy of the key made by their [init]; the context of
    NEA2 is a pointer to the key in the entity. *)
Inductive security_context_t := Nea1 (key : bytes) | Nea2.
Inductive integrity_context_t := Nia1 (key : bytes) | Nia2 (key : bytes).

Record nr_pdcp_statistics_t := mk_pstats {
  st_txpdu_pkts : Z; st_txpdu_bytes : Z; st_txpdu_sn : Z;
  st_rxpdu_pkts : Z; st_rxpdu_bytes : Z; st_rxpdu_sn : Z;
  st_rxpdu_dd_pkts : Z; st_rxpdu_dd_bytes : Z;
  st_txsdu_pkts : Z; st_txsdu_bytes : Z;
  st_rxsdu_pkts : Z; st_rxsdu_bytes : Z;
}.
#[export] Instance eta_pstats : Eta nr_pdcp_statistics_t := λ r,
  mk_pstats (st_txpdu_pkts r) (st_txpdu_bytes r) (st_txpdu_sn r) (st_rxpdu_pkts r)
    (st_rxpdu_bytes r) (st_rxpdu_sn r) (st_rxpdu_dd_pkts r) (st_rxpdu_dd_bytes r)
    (st_txsdu_pkts r) (st_txsdu_bytes r) (st_rxsdu_pkts r) (st_rxsdu_bytes r).
#[export] Instance set_st_txpdu_pkts : Setter st_txpdu_pkts := ltac:(derive_setter).
#[export] Instance set_st_txpdu_bytes : Setter st_txpdu_bytes := ltac:(derive_setter).
#[export] Instance set_st_txpdu_sn : Setter st_txpdu_sn := ltac:(derive_setter).
#[export] Instance set_st_rxpdu_pkts : Setter st_rxpdu_pkts := ltac:(derive_setter).
#[export] Instance set_st_rxpdu_bytes : Setter st_rxpdu_bytes := ltac:(derive_setter).
#[export] Instance set_st_rxpdu_sn : Setter st_rxpdu_sn := ltac:(derive_setter).
#[export] Instance set_st_rxpdu_dd_pkts : Setter st_rxpdu_dd_pkts := ltac:(derive_setter).
#[export] Instance set_st_rxpdu_dd_bytes : Setter st_rxpdu_dd_bytes := ltac:(derive_setter).
#[export] Instance set_st_txsdu_pkts : Setter st_txsdu_pkts := ltac:(derive_setter).
#[export] Instance set_st_txsdu_bytes : Setter st_txsdu_bytes := ltac:(derive_setter).
#[export] Instance set_st_rxsdu_pkts : Setter st_rxsdu_pkts := ltac:(derive_setter).
#[export] Instance set_st_rxsdu_bytes : Setter st_rxsdu_bytes := ltac:(derive_setter).

(** All counters are [uint32_t]. *)
Definition padd (f : nr_pdcp_statistics_t → Z) `{!Setter f} (n : Z) (s : nr_pdcp_statistics_t)
  : nr_pdcp_statistics_t := s <| f := u32 (f s + n) |>.

(** [nr_pdcp_entity_t] without its function pointers; the cipher and integrity
    functions go with their contexts. [delivered_sdus] are the arguments of the calls
    to [deliver_sdu], oldest first. *)
Record nr_pdcp_entity_t := mk_pdcp {
  type : nr_pdcp_entity_type_t;
  rb_id : Z;
  pdusession_id : Z;
  has_sdap_rx : bool;
  has_sdap_tx : bool;
  sn_size : Z;
  t_reordering : Z;           (* -1 for infinity *)
  discard_timer : Z;
  sn_max : Z;
  window_size : Z;
  tx_next : Z;                (* the four state variables are uint32_t *)
  rx_next : Z;
  rx_deliv : Z;
  rx_reord : Z;
  t_current : Z;              (* times are uint64_t *)
  t_log_pdu_discard : Z;
  pdu_discarded : Z;
  t_reordering_start : Z;     (* 0: not running *)
  has_ciphering : bool;
  has_integrity : bool;
  security_keys_and_algos : nr_pdcp_entity_security_keys_and_algos_t;
  security_context : option security_context_t;
  integrity_context : option integrity_context_t;
  is_gnb : bool;
  rx_list : list nr_pdcp_sdu_t;
  rx_size : Z;
  pstats : nr_pdcp_statistics_t;
  entity_suspended : bool;
  delivered_sdus : list nr_pdcp_sdu_t;
}.
#[export] Instance eta_pdcp : Eta nr_pdcp_entity_t := λ r,
  mk_pdcp (type r) (rb_id r) (pdusession_id r) (has_sdap_rx r) (has_sdap_tx r) (sn_size r)
    (t_reordering r) (discard_timer r) (sn_max r) (window_size r) (tx_next r) (rx_next r)
    (rx_deliv r) (rx_reord r) (t_current r) (t_log_pdu_discard r) (pdu_discarded r)
    (t_reordering_start r) (has_ciphering r) (has_integrity r) (security_keys_and_algos r)
    (security_context r) (integrity_context r) (is_gnb r) (rx_list r) (rx_size r) (pstats r)
    (entity_suspended r) (delivered_sdus r).
#[export] Instance set_p_tx_next : Setter tx_next := ltac:(derive_setter).
#[export] Instance set_p_rx_next : Setter rx_next := ltac:(derive_setter).
#[export] Instance set_p_rx_deliv : Setter rx_deliv := ltac:(derive_setter).
#[export] Instance set_p_rx_reord : Setter rx_reord := ltac:(derive_setter).
#[export] Instance set_p_t_current : Setter t_current := ltac:(derive_setter).
#[export] Instance set_p_t_log_pdu_discard : Setter t_log_pdu_discard := ltac:(derive_setter).
#[export] Instance set_p_pdu_discarded : Setter pdu_discarded := ltac:(derive_setter).
#[export] Instance set_p_t_reordering_start : Setter t_reordering_start := ltac:(derive_setter).
#[export] Instance set_p_has_ciphering : Setter has_ciphering := ltac:(derive_setter).
#[export] Instance set_p_has_integrity : Setter has_integrity := ltac:(derive_setter).
#[export] Instance set_p_keys : Setter security_keys_and_algos := ltac:(derive_setter).
#[export] Instance set_p_security_context : Setter security_context := ltac:(derive_setter).
#[export] Instance set_p_integrity_context : Setter integrity_context := ltac:(derive_setter).
#[export] Instance set_p_rx_list : Setter rx_list := ltac:(derive_setter).
#[export] Instance set_p_rx_size : Setter rx_size := ltac:(derive_setter).
#[export] Instance set_p_pstats : Setter pstats := ltac:(derive_setter).
#[export] Instance set_p_entity_suspended : Setter entity_suspended := ltac:(derive_setter).
#[export] Instance set_p_delivered_sdus : Setter delivered_sdus := ltac:(derive_setter).

Definition on_pstats (f : nr_pdcp_statistics_t → nr_pdcp_statistics_t) (e : nr_pdcp_entity_t)
  : nr_pdcp_entity_t := e <| pstats := f (pstats e) |>.

(** The maximum size of a PDU: an 18-bit SN and a MAC. *)
Definition nr_max_pdcp_pdu_size (sdu_size : Z) : Z :=
  sdu_size + LONG_PDCP_HEADER_SIZE + PDCP_INTEGRITY_SIZE.

Section Pdcp.
Context `{C : Crypto}.

(** ** Security glue *)

Definition nr_pdcp_security_nea1_cipher (key buffer : bytes) (bearer count direction : Z)
  : outcome bytes :=
  Ok (stream_encrypt_eea1 key count (bearer - 1) direction buffer).

Definition nr_pdcp_security_nea2_cipher (key buffer : bytes) (bearer count direction : Z)
  : outcome bytes :=
  _ ← assert_fatal (0 <? zlen buffer);
  _ ← assert_fatal ((-1 <? bearer) && (bearer <? 32));
  _ ← assert_fatal ((-1 <? direction) && (direction <? 2));
  Ok (aes_128_ctr key count (bearer - 1) direction buffer).

Definition nr_pdcp_integrity_nia1_integrity (key buffer : bytes) (bearer count direction : Z)
  : outcome bytes :=
  Ok (stream_integrity_eia1 key count (bearer - 1) direction buffer).

Definition nr_pdcp_integrity_nia2_integrity (key buffer : bytes) (bearer count direction : Z)
  : outcome bytes :=
  _ ← assert_fatal ((0 <? bearer) && (bearer <? 33));
  Ok (take 4 (aes_128_cbc_cmac key count (bearer - 1) direction buffer)).

(** [entity->cipher] and [entity->decipher], which are the same function, on the
    [length] bytes at [off] of [buffer]. *)
Definition cipher (entity : nr_pdcp_entity_t) (buffer : bytes) (off length count direction : Z)
  : outcome bytes :=
  m ← buf_sub buffer off length;
  out ← (match security_context entity with
         | None => Undef
         | Some (Nea1 key) => nr_pdcp_security_nea1_cipher key m (rb_id entity) count direction
         | Some Nea2 => nr_pdcp_security_nea2_cipher
                          (ciphering_key (security_keys_and_algos entity)) m
                          (rb_id entity) count direction
         end);
  buf_write buffer off out.

(** [entity->integrity] on the first [length] bytes of [buffer]. *)
Definition integrity (entity : nr_pdcp_entity_t) (buffer : bytes) (length count direction : Z)
  : outcome bytes :=
  m ← buf_sub buffer 0 length;
  match integrity_context entity with
  | None => Undef
  | Some (Nia1 key) => nr_pdcp_integrity_nia1_integrity key m (rb_id entity) count direction
  | Some (Nia2 key) => nr_pdcp_integrity_nia2_integrity key m (rb_id entity) count direction
  end.

(** ** Reception *)

(** The loop that delivers the SDUs at the head of [l] from [count] on, up to the
    first gap. *)
Fixpoint deliver_from (l : list nr_pdcp_sdu_t) (count : Z) (entity : nr_pdcp_entity_t)
  : Z * nr_pdcp_entity_t :=
  match l with
  | [] => (count, entity)
  | cur :: next =>
      if count =? ps_count cur then
        let entity := entity <| delivered_sdus := delivered_sdus entity ++ [cur] |>
                             <| rx_list := next |> <| rx_size := rx_size entity - ps_size cur |> in
        let entity := on_pstats (λ s, padd st_txsdu_bytes (ps_size cur) (padd st_txsdu_pkts 1 s)) entity in
        deliver_from next (u32 (count + 1)) entity
      else (count, entity)
  end.

(** The COUNT of a received SN. *)
Definition rcvd_count (entity : nr_pdcp_entity_t) (rcvd_sn : Z) : Z :=
  let rx_deliv_sn := Z.land (rx_deliv entity) (sn_max entity) in
  let rx_deliv_hfn := Z.shiftr (rx_deliv entity) (sn_size entity) in
  let rcvd_hfn :=
    if rcvd_sn <? rx_deliv_sn - window_size entity then u32 (rx_deliv_hfn + 1)
    else if rx_deliv_sn + window_size entity <=? rcvd_sn then u32 (rx_deliv_hfn - 1)
    else rx_deliv_hfn in
  Z.lor (u32 (Z.shiftl rcvd_hfn (sn_size entity))) rcvd_sn.

(** The SN in the header and the size of the header. *)
Definition read_sn (entity : nr_pdcp_entity_t) (buffer : bytes) : outcome (Z * Z) :=
  if sn_size entity =? SHORT_SN_SIZE then
    b0 ← buf_get buffer 0; b1 ← buf_get buffer 1;
    Ok (Z.lor (Z.shiftl (Z.land b0 15) 8) b1, SHORT_PDCP_HEADER_SIZE)
  else
    b0 ← buf_get buffer 0; b1 ← buf_get buffer 1; b2 ← buf_get buffer 2;
    Ok (Z.lor (Z.lor (Z.shiftl (Z.land b0 3) 16) (Z.shiftl b1 8)) b2, LONG_PDCP_HEADER_SIZE).

Definition integrity_size (entity : nr_pdcp_entity_t) : Z :=
  if has_integrity entity || bool_decide (type entity = NR_PDCP_SRB)
  then PDCP_INTEGRITY_SIZE else 0.

Definition count_discard (size : Z) (entity : nr_pdcp_entity_t) : nr_pdcp_entity_t :=
  on_pstats (λ s, padd st_rxpdu_dd_bytes size (padd st_rxpdu_dd_pkts 1 s)) entity.

(** [msg_integrity]: the COUNT, MAC and header of the PDU as received. *)
Definition msg_integrity (entity : nr_pdcp_entity_t) (buffer : bytes) (size count header_size : Z)
  : outcome nr_pdcp_integrity_data_t :=
  if has_integrity entity || bool_decide (type entity = NR_PDCP_SRB) then
    mac ← buf_sub buffer (size - 4) 4;
    header ← buf_sub buffer 0 header_size;
    Ok (mk_integrity count mac header_size (header ++ replicate (Z.to_nat (3 - header_size)) 0))
  else Ok (mk_integrity 0 [0; 0; 0; 0] 0 [0; 0; 0]).

(** The check of the MAC at the end of the deciphered PDU. *)
Definition mac_matches (entity : nr_pdcp_entity_t) (buffer : bytes) (size count : Z) : outcome bool :=
  if has_integrity entity then
    mac ← integrity entity buffer (size - integrity_size entity) count
            (if is_gnb entity then 0 else 1);
    received ← buf_sub buffer (size - integrity_size entity) PDCP_INTEGRITY_SIZE;
    Ok (bool_decide (mac = received))
  else Ok true.

(** A COUNT before [rx_deliv] or already stored: the PDU is counted as discarded,
    and a message logged at most once per 1280 ms. *)
Definition discard_old (size : Z) (entity : nr_pdcp_entity_t) : nr_pdcp_entity_t :=
  let entity :=
    if negb (pdu_discarded entity =? 0) && (u64 (t_log_pdu_discard entity + 1280) <? t_current entity)
    then entity <| pdu_discarded := 0 |> <| t_log_pdu_discard := t_current entity |>
    else entity in
  count_discard size (entity <| pdu_discarded := pdu_discarded entity + 1 |>).

(** t-Reordering stops when nothing is missing below [rx_reord] and starts when
    something is missing below [rx_next]. *)
Definition update_t_reordering (entity : nr_pdcp_entity_t) : nr_pdcp_entity_t :=
  let entity :=
    if negb (t_reordering_start entity =? 0) && (rx_reord entity <=? rx_deliv entity)
    then entity <| t_reordering_start := 0 |> else entity in
  if (t_reordering_start entity =? 0) && (rx_deliv entity <? rx_next entity)
  then entity <| rx_reord := rx_next entity |> <| t_reordering_start := t_current entity |>
  else entity.

(** The end of reception: [sdu] goes into the list, the SDUs from [rx_deliv] up to a
    gap are delivered, t-Reordering is stopped or started. *)
Definition store_and_deliver (entity : nr_pdcp_entity_t) (sdu : nr_pdcp_sdu_t) (size header_size : Z)
  : nr_pdcp_entity_t :=
  let count := ps_count sdu in
  let entity := entity <| rx_list := nr_pdcp_sdu_list_add (rx_list entity) sdu |>
                       <| rx_size := rx_size entity + (size - header_size) |> in
  let entity := if rx_next entity <=? count then entity <| rx_next := u32 (count + 1) |> else entity in
  let entity :=
    if count =? rx_deliv entity then
      let '(count, entity) := deliver_from (rx_list entity) (rx_deliv entity) entity in
      entity <| rx_deliv := count |>
    else entity in
  update_t_reordering entity.

(** From the SN on: deciphering, the check of the MAC, the check for old COUNTs and
    duplicates, delivery. *)
Definition process_pdu (entity : nr_pdcp_entity_t) (buffer : bytes)
    (size rcvd_sn header_size sdap_header_size : Z) : outcome (bytes * nr_pdcp_entity_t) :=
  let count := rcvd_count entity rcvd_sn in
  msg ← msg_integrity entity buffer size count header_size;
  buffer ← (if has_ciphering entity
            then cipher entity buffer (header_size + sdap_header_size)
                   (size - (header_size + sdap_header_size)) count
                   (if is_gnb entity then 0 else 1)
            else Ok buffer);
  ok ← mac_matches entity buffer size count;
  if negb ok then Ok (buffer, count_discard size entity)
  else if (count <? rx_deliv entity) || nr_pdcp_sdu_in_list (rx_list entity) count
  then Ok (buffer, discard_old size entity)
  else
    data ← buf_sub buffer header_size (size - header_size - integrity_size entity);
    sdu ← nr_pdcp_new_sdu count data (size - header_size - integrity_size entity) msg;
    Ok (buffer, store_and_deliver entity sdu size header_size).

(** The whole function; the buffer, which it changes, is returned too. *)
Definition nr_pdcp_entity_recv_pdu (entity : nr_pdcp_entity_t) (buffer : bytes) (size : Z)
  : outcome (bytes * nr_pdcp_entity_t) :=
  if entity_suspended entity then Ok (buffer, entity)
  else if size <? 1 then Ok (buffer, entity)
  else
    b0 ← buf_get buffer 0;
    buffer ← (if bool_decide (type entity ≠ NR_PDCP_SRB) && (Z.land b0 128 =? 0)
              then buf_set buffer 0 (Z.lor b0 128) else Ok buffer);
    let entity := on_pstats (λ s, padd st_rxpdu_bytes size (padd st_rxpdu_pkts 1 s)) entity in
    let sdap_header_size := if has_sdap_rx entity then 1 else 0 in
    '(rcvd_sn, header_size) ← read_sn entity buffer;
    let entity := on_pstats (λ s, s <| st_rxpdu_sn := rcvd_sn |>) entity in
    if size <? header_size + sdap_header_size + integrity_size entity + 1
    then Ok (buffer, count_discard size entity)
    else
      process_pdu entity buffer size rcvd_sn header_size sdap_header_size.

(** ** Transmission *)

Definition write_header (entity : nr_pdcp_entity_t) (buf : bytes) (sn : Z) : outcome (bytes * Z) :=
  let dc_bit := if bool_decide (type entity = NR_PDCP_DRB_AM)
                   || bool_decide (type entity = NR_PDCP_DRB_UM) then 128 else 0 in
  if sn_size entity =? SHORT_SN_SIZE then
    buf ← buf_set buf 0 (Z.lor dc_bit (Z.land (Z.shiftr sn 8) 15));
    buf ← buf_set buf 1 (Z.land sn 255);
    Ok (buf, SHORT_PDCP_HEADER_SIZE)
  else
    buf ← buf_set buf 0 (Z.lor dc_bit (Z.land (Z.shiftr sn 16) 3));
    buf ← buf_set buf 1 (Z.land (Z.shiftr sn 8) 255);
    buf ← buf_set buf 2 (Z.land sn 255);
    Ok (buf, LONG_PDCP_HEADER_SIZE).

(** Returns the size of the PDU, -1 if the entity is suspended. *)
Definition nr_pdcp_entity_process_sdu (entity : nr_pdcp_entity_t) (buffer : bytes) (size sdu_id : Z)
    (pdu_buffer : bytes) (pdu_max_size : Z) : outcome (Z * bytes * nr_pdcp_entity_t) :=
  _ ← assert_fatal (nr_max_pdcp_pdu_size size <=? pdu_max_size);
  if entity_suspended entity then Ok (-1, pdu_buffer, entity)
  else
    let entity := on_pstats (λ s, padd st_rxsdu_bytes size (padd st_rxsdu_pkts 1 s)) entity in
    let count := tx_next entity in
    let sn := Z.land (tx_next entity) (sn_max entity) in
    let sdap_header_size := if has_sdap_tx entity then 1 else 0 in
    '(buf, header_size) ← write_header entity pdu_buffer sn;
    data ← buf_sub buffer 0 size;
    buf ← buf_write buf header_size data;
    buf ← (if has_integrity entity then
             mac ← integrity entity buf (header_size + size) count (if is_gnb entity then 1 else 0);
             buf_write buf (header_size + size) mac
           else if integrity_size entity =? PDCP_INTEGRITY_SIZE
           then buf_write buf (header_size + size) [0; 0; 0; 0]
           else Ok buf);
    buf ← (if has_ciphering entity
           then cipher entity buf (header_size + sdap_header_size)
                  (size + integrity_size entity - sdap_header_size) count
                  (if is_gnb entity then 1 else 0)
           else Ok buf);
    let entity := entity <| tx_next := u32 (tx_next entity + 1) |> in
    let pdu_size := header_size + size + integrity_size entity in
    Ok (pdu_size, buf,
        on_pstats (λ s, padd st_txpdu_bytes pdu_size (padd st_txpdu_pkts 1 s) <| st_txpdu_sn := sn |>)
          entity).

(** The later check of a message, used by RRC. *)
Definition nr_pdcp_entity_check_integrity (entity : nr_pdcp_entity_t) (buffer : bytes)
    (buffer_size : Z) (msg : nr_pdcp_integrity_data_t) : outcome bool :=
  if negb (has_integrity entity) then Ok false
  else
    header ← buf_sub (i_header msg) 0 (i_header_size msg);
    data ← buf_sub buffer 0 buffer_size;
    mac ← integrity entity (header ++ data) (buffer_size + i_header_size msg) (i_count msg)
            (if is_gnb entity then 0 else 1);
    Ok (bool_decide (mac = i_mac msg)).

End Pdcp.

(** ** Configuration of security *)

Definition set_integrity (entity : nr_pdcp_entity_t) (algorithm : Z) : outcome nr_pdcp_entity_t :=
  if algorithm =? 0 then Ok (entity <| has_integrity := false |> <| integrity_context := None |>)
  else if algorithm =? -1 then Ok entity
  else
    let key := integrity_key (security_keys_and_algos entity) in
    let entity := entity <| has_integrity := true |> in
    if algorithm =? 2 then Ok (entity <| integrity_context := Some (Nia2 key) |>)
    else if algorithm =? 1 then Ok (entity <| integrity_context := Some (Nia1 key) |>)
    else Fatal.

Definition set_ciphering (entity : nr_pdcp_entity_t) (algorithm : Z) : outcome nr_pdcp_entity_t :=
  if algorithm =? 0 then Ok (entity <| has_ciphering := false |> <| security_context := None |>)
  else if algorithm =? -1 then Ok entity
  else
    let entity := entity <| has_ciphering := true |> in
    if algorithm =? 2 then Ok (entity <| security_context := Some Nea2 |>)
    else if algorithm =? 1
    then Ok (entity <| security_context
                      := Some (Nea1 (ciphering_key (security_keys_and_algos entity))) |>)
    else Fatal.

Definition nr_pdcp_entity_set_security (entity : nr_pdcp_entity_t)
    (parameters : nr_pdcp_entity_security_keys_and_algos_t) : outcome nr_pdcp_entity_t :=
  let k := security_keys_and_algos entity in
  let k := if negb (integrity_algorithm parameters =? -1)
           then mk_keys (integrity_algorithm parameters) (ciphering_algorithm k)
                  (integrity_key parameters) (ciphering_key k) else k in
  let k := if negb (ciphering_algorithm parameters =? -1)
           then mk_keys (integrity_algorithm k) (ciphering_algorithm parameters)
                  (integrity_key k) (ciphering_key parameters) else k in
  let entity := entity <| security_keys_and_algos := k |> in
  entity ← set_integrity entity (integrity_algorithm parameters);
  set_ciphering entity (ciphering_algorithm parameters).

(** ** Timer *)

(** The loop that delivers the SDUs with a COUNT below [rx_reord]. *)
Fixpoint deliver_below (l : list nr_pdcp_sdu_t) (entity : nr_pdcp_entity_t) : nr_pdcp_entity_t :=
  match l with
  | [] => entity
  | cur :: next =>
      if ps_count cur <? rx_reord entity then
        let entity := entity <| delivered_sdus := delivered_sdus entity ++ [cur] |>
                             <| rx_list := next |> <| rx_size := rx_size entity - ps_size cur |> in
        deliver_below next
          (on_pstats (λ s, padd st_txsdu_bytes (ps_size cur) (padd st_txsdu_pkts 1 s)) entity)
      else entity
  end.

Definition check_t_reordering (entity : nr_pdcp_entity_t) : nr_pdcp_entity_t :=
  if t_reordering entity =? -1 then entity
  else if (t_reordering_start entity =? 0)
          || (t_current entity <=? u64 (t_reordering_start entity + t_reordering entity))
  then entity
  else
    let entity := entity <| t_reordering_start := 0 |> in
    let entity := deliver_below (rx_list entity) entity in
    let '(count, entity) := deliver_from (rx_list entity) (rx_reord entity) entity in
    let entity := entity <| rx_deliv := count |> in
    if rx_deliv entity <? rx_next entity
    then entity <| rx_reord := rx_next entity |> <| t_reordering_start := t_current entity |>
    else entity.

Definition nr_pdcp_entity_set_time (entity : nr_pdcp_entity_t) (now : Z) : nr_pdcp_entity_t :=
  check_t_reordering (entity <| t_current := now |>).

(** ** Suspension, re-establishment, release *)

Fixpoint deliver_all (l : list nr_pdcp_sdu_t) (entity : nr_pdcp_entity_t) : nr_pdcp_entity_t :=
  match l with
  | [] => entity
  | cur :: next =>
      let entity := entity <| delivered_sdus := delivered_sdus entity ++ [cur] |>
                           <| rx_list := next |> <| rx_size := rx_size entity - ps_size cur |> in
      deliver_all next
        (on_pstats (λ s, padd st_txsdu_bytes (ps_size cur) (padd st_txsdu_pkts 1 s)) entity)
  end.

Definition deliver_all_sdus (entity : nr_pdcp_entity_t) : nr_pdcp_entity_t :=
  deliver_all (rx_list entity) entity.

Definition nr_pdcp_entity_suspend (entity : nr_pdcp_entity_t) : nr_pdcp_entity_t :=
  let entity := entity <| tx_next := 0 |> in
  let entity := if negb (t_reordering_start entity =? 0)
                then deliver_all_sdus (entity <| t_reordering_start := 0 |>) else entity in
  entity <| rx_next := 0 |> <| rx_deliv := 0 |> <| entity_suspended := true |>.

Definition free_rx_list (entity : nr_pdcp_entity_t) : nr_pdcp_entity_t :=
  let entity := foldl (λ e cur, count_discard (ps_size cur) e) entity (rx_list entity) in
  entity <| rx_list := [] |> <| rx_size := 0 |>.

Definition nr_pdcp_entity_reestablish_drb_am (entity : nr_pdcp_entity_t)
    (parameters : nr_pdcp_entity_security_keys_and_algos_t) : outcome nr_pdcp_entity_t :=
  entity ← nr_pdcp_entity_set_security entity parameters;
  Ok (entity <| entity_suspended := false |>).

Definition nr_pdcp_entity_reestablish_drb_um (entity : nr_pdcp_entity_t)
    (parameters : nr_pdcp_entity_security_keys_and_algos_t) : outcome nr_pdcp_entity_t :=
  let entity := entity <| tx_next := 0 |> in
  let entity := if negb (t_reordering_start entity =? 0) then deliver_all_sdus entity else entity in
  let entity := entity <| t_reordering_start := 0 |> <| rx_next := 0 |> <| rx_deliv := 0 |> in
  entity ← nr_pdcp_entity_set_security entity parameters;
  Ok (entity <| entity_suspended := false |>).

Definition nr_pdcp_entity_reestablish_srb (entity : nr_pdcp_entity_t)
    (parameters : nr_pdcp_entity_security_keys_and_algos_t) : outcome nr_pdcp_entity_t :=
  let entity := free_rx_list (entity <| tx_next := 0 |>) in
  let entity := entity <| t_reordering_start := 0 |> <| rx_next := 0 |> <| rx_deliv := 0 |> in
  entity ← nr_pdcp_entity_set_security entity parameters;
  Ok (entity <| entity_suspended := false |>).

Definition nr_pdcp_entity_release (entity : nr_pdcp_entity_t) : nr_pdcp_entity_t :=
  deliver_all_sdus entity.

Definition nr_pdcp_entity_delete (entity : nr_pdcp_entity_t) : outcome unit :=
  let _ := free_rx_list entity in Ok tt.

Definition nr_pdcp_entity_get_stats (entity : nr_pdcp_entity_t) : nr_pdcp_statistics_t := pstats entity.

(** ** COUNT *)

Definition nr_pdcp_entity_get_count_dl (entity : nr_pdcp_entity_t) : nr_pdcp_count_t :=
  mk_count (Z.land (rx_deliv entity) (sn_max entity)) (Z.shiftr (rx_deliv entity) (sn_size entity)).

Definition nr_pdcp_entity_get_count_ul (entity : nr_pdcp_entity_t) : nr_pdcp_count_t :=
  mk_count (Z.land (tx_next entity) (sn_max entity)) (Z.shiftr (tx_next entity) (sn_size entity)).

Definition compose_count (pdcp_count : nr_pdcp_count_t) (sn_size : Z) : Z :=
  let sn_mask := Z.shiftl 1 sn_size - 1 in
  Z.lor (u32 (Z.shiftl (c_hfn pdcp_count) sn_size)) (Z.land (c_sn pdcp_count) sn_mask).

Definition nr_pdcp_entity_set_count_dl (entity : nr_pdcp_entity_t) (pdcp_count : nr_pdcp_count_t)
    (sn_size : Z) : nr_pdcp_entity_t :=
  let count := compose_count pdcp_count sn_size in
  entity <| rx_next := u32 (count + 1) |> <| rx_deliv := count |>.

Definition nr_pdcp_entity_set_count_ul (entity : nr_pdcp_entity_t) (pdcp_count : nr_pdcp_count_t)
    (sn_size : Z) : nr_pdcp_entity_t :=
  entity <| tx_next := compose_count pdcp_count sn_size |>.

(** ** Constructor *)

Definition new_nr_pdcp_entity (type : nr_pdcp_entity_type_t) (is_gnb : bool) (rb_id pdusession_id : Z)
    (has_sdap_rx has_sdap_tx : bool) (sn_size t_reordering discard_timer : Z)
    (security_parameters : nr_pdcp_entity_security_keys_and_algos_t) : outcome nr_pdcp_entity_t :=
  nr_pdcp_entity_set_security
    (mk_pdcp type rb_id pdusession_id has_sdap_rx has_sdap_tx sn_size t_reordering discard_timer
       (Z.shiftl 1 sn_size - 1) (Z.shiftl 1 (sn_size - 1)) 0 0 0 0 0 0 0 0 false false
       (mk_keys 0 0 (replicate 16 0) (replicate 16 0)) None None is_gnb [] 0
       (mk_pstats 0 0 0 0 0 0 0 0 0 0 0 0) false [])
    security_parameters.
