(* ===== verification/PdcpRx.v ===== *)
(** * PDCP: reception

    COUNT reconstruction, the invariant of the reordering buffer, in-order
    delivery without duplicates, the reordering timer. *)

From S2P Require Import Prelude Bits PdcpEntity.

#[local] Arguments Z.add : simpl never.
#[local] Arguments Z.sub : simpl never.
#[local] Arguments Z.mul : simpl never.
#[local] Arguments Z.opp : simpl never.

Record pdcp_cfg (e : nr_pdcp_entity_t) : Prop := {
  pc_size : sn_size e = 12 ∨ sn_size e = 18;
  pc_max : sn_max e = 2 ^ sn_size e - 1;
  pc_win : 2 * window_size e = 2 ^ sn_size e;
}.

(** ** COUNT *)

Lemma land_max e x : pdcp_cfg e → Z.land x (sn_max e) = x mod 2 ^ sn_size e.
Proof.
  intros C. rewrite (pc_max _ C).
  replace (2 ^ sn_size e - 1) with (Z.ones (sn_size e)) by (rewrite Z.ones_equiv; lia).
  apply Z.land_ones. destruct (pc_size _ C); lia.
Qed.

(** The HFN chosen by the code is the one of the COUNT nearest to [rx_deliv]. *)
Lemma rcvd_count_ok e c :
  pdcp_cfg e → 0 <= rx_deliv e < 2 ^ 32 → 0 <= c < 2 ^ 32 →
  rx_deliv e - window_size e <= c < rx_deliv e + window_size e →
  rcvd_count e (Z.land c (sn_max e)) = c.
Proof.
  intros C Hd Hc Hw. unfold rcvd_count. rewrite !land_max by done.
  assert (0 <= sn_size e) as Hn by (destruct (pc_size _ C); lia).
  rewrite Z.shiftr_div_pow2 by done. pose proof (pc_win _ C) as HW.
  assert (2 ^ 12 <= 2 ^ sn_size e <= 2 ^ 18) as HM.
  { split; apply Z.pow_le_mono_r; destruct (pc_size _ C); lia. }
  set (M := 2 ^ sn_size e) in *. set (d := rx_deliv e) in *.
  pose proof (Z.div_mod d M ltac:(lia)) as Ed. pose proof (Z.mod_pos_bound d M ltac:(lia)) as Bd.
  pose proof (Z.div_mod c M ltac:(lia)) as Ec. pose proof (Z.mod_pos_bound c M ltac:(lia)) as Bc.
  set (hd := d / M) in *. set (sd := d mod M) in *. set (hc := c / M) in *. set (sc := c mod M) in *.
  assert (0 <= hc < 2 ^ 32 ∧ 0 <= hd) as [Hhc Hhd] by nia.
  assert ((if sc <? sd - window_size e then u32 (hd + 1)
           else if sd + window_size e <=? sc then u32 (hd - 1) else hd) = hc) as ->.
  { destruct (Z.ltb_spec sc (sd - window_size e)).
    - assert (hc = hd + 1) as <- by nia. by apply u32_small.
    - destruct (Z.leb_spec (sd + window_size e) sc).
      + assert (hc = hd - 1) as <- by nia. by apply u32_small.
      + nia. }
  rewrite u32_small by (rewrite Z.shiftl_mul_pow2 by done; fold M; nia).
  rewrite lor_shiftl_add; [fold M; lia|done|fold M; lia].
Qed.

(** ** The reordering buffer *)

(** The COUNTs stored are in strict order, between [rx_deliv], which is missing, and
    [rx_next]; a running t-Reordering waits for a COUNT in between. *)
Record pdcp_rx_wf (e : nr_pdcp_entity_t) : Prop := {
  pw_deliv : 0 <= rx_deliv e <= rx_next e;
  pw_next : rx_next e < 2 ^ 32;
  pw_sorted : count_sorted (rx_list e);
  pw_range : ∀ s, s ∈ rx_list e → rx_deliv e < ps_count s < rx_next e;
  pw_timer : t_reordering_start e ≠ 0 → rx_deliv e < rx_reord e <= rx_next e;
}.

(** The part of the state that reception is about. *)
Definition pdcp_view (e : nr_pdcp_entity_t) :=
  (rx_next e, rx_deliv e, rx_reord e, t_reordering_start e, rx_list e).

Lemma pdcp_rx_wf_ext e e' : pdcp_view e' = pdcp_view e → pdcp_rx_wf e → pdcp_rx_wf e'.
Proof.
  intros H W. unfold pdcp_view in H.
  assert (rx_next e' = rx_next e ∧ rx_deliv e' = rx_deliv e ∧ rx_reord e' = rx_reord e ∧
    t_reordering_start e' = t_reordering_start e ∧ rx_list e' = rx_list e)
    as (E1 & E2 & E3 & E4 & E5) by (split_and!; congruence).
  destruct W as [H1 H2 H3 H4 H5]. split; rewrite ?E1, ?E2, ?E3, ?E4, ?E5; done.
Qed.

(** What stays the same in every operation of the receiving side. *)
Definition pdcp_conf (e : nr_pdcp_entity_t) :=
  ((type e, rb_id e, has_sdap_rx e, has_sdap_tx e, sn_size e, sn_max e, window_size e, t_reordering e),
   (tx_next e, has_ciphering e, has_integrity e, security_keys_and_algos e, security_context e,
    integrity_context e, is_gnb e, entity_suspended e)).

(** A step of the receiving side: [new] are the SDUs stored by it, [d] those it
    delivers. *)
Record rx_progress (e e' : nr_pdcp_entity_t) (new d : list nr_pdcp_sdu_t) : Prop := {
  rp_wf : pdcp_rx_wf e';
  rp_conf : pdcp_conf e' = pdcp_conf e;
  rp_delivered : delivered_sdus e' = delivered_sdus e ++ d;
  rp_sorted : count_sorted d;
  rp_range : ∀ s, s ∈ d → rx_deliv e <= ps_count s < rx_deliv e';
  rp_mono : rx_deliv e <= rx_deliv e';
  rp_perm : d ++ rx_list e' ≡ₚ new ++ rx_list e;
}.

Lemma count_sorted_app l k :
  count_sorted (l ++ k) ↔ count_sorted l ∧ count_sorted k ∧
  ∀ a b, a ∈ l → b ∈ k → ps_count a < ps_count b.
Proof.
  unfold count_sorted. induction l as [|x l IH]; cbn [app].
  - split; [intros H; split_and!; [constructor|done|intros a b Ha; by apply not_elem_of_nil in Ha]|by intros (_ & ? & _)].
  - split.
    + intros [H1 H2]%StronglySorted_inv. apply IH in H1 as (H3 & H4 & H5).
      rewrite Forall_app in H2. destruct H2 as [H6 H7]. split_and!; [by constructor|done|].
      intros a b [->|Ha]%elem_of_cons Hb; [|by apply H5]. rewrite Forall_forall in H7. by apply H7.
    + intros (H1 & H2 & H3). apply StronglySorted_inv in H1 as [H4 H5]. constructor.
      * apply IH. split_and!; try done. intros a b Ha Hb. apply H3; [by constructor|done].
      * apply Forall_app. split; [done|]. apply Forall_forall. intros b Hb. apply H3; [constructor|done].
Qed.

(** Delivery from [count] on: a run of consecutive COUNTs, up to the first gap. *)
Lemma deliver_from_ok l count e :
  count_sorted l → rx_list e = l → 0 <= count →
  (∀ s, s ∈ l → count <= ps_count s < 2 ^ 32 - 1) →
  ∃ d rest e', deliver_from l count e = (count + zlen d, e') ∧ l = d ++ rest ∧
    rx_list e' = rest ∧ delivered_sdus e' = delivered_sdus e ++ d ∧
    (∀ s, s ∈ d → count <= ps_count s < count + zlen d) ∧
    (∀ s, s ∈ rest → count + zlen d < ps_count s) ∧
    (∀ B, count <= B → (∀ s, s ∈ l → ps_count s < B) → count + zlen d <= B) ∧
    e' = e <| delivered_sdus := delivered_sdus e' |> <| rx_list := rest |>
           <| rx_size := rx_size e' |> <| pstats := pstats e' |>.
Proof.
  revert count e. induction l as [|x l IH]; intros count e Hs Hl H0 Hr; cbn [deliver_from].
  { exists [], [], e. rewrite zlen_nil, Z.add_0_r, (app_nil_r (delivered_sdus e)). split_and!; try done; try (intros s Hs'; by apply not_elem_of_nil in Hs').
    destruct e. cbn in *. by subst. }
  apply StronglySorted_inv in Hs as [Hs Hx]. rewrite Forall_forall in Hx.
  destruct (Z.eqb_spec count (ps_count x)) as [E|E].
  - pose proof (Hr x (list_elem_of_here _ _)) as Hx0. rewrite u32_small by lia.
    match goal with |- context [deliver_from l (count + 1) ?y] =>
      destruct (IH (count + 1) y) as (d & rest & e' & Hd & Hl' & Hrest & Hdel & Hrd & Hrr & HB & He') end.
    { done. }
    { done. }
    { lia. }
    { intros s Hs'. pose proof (Hr s (list_elem_of_further _ _ _ Hs')). specialize (Hx s Hs'). lia. }
    exists (x :: d), rest, e'. rewrite zlen_cons. split_and!; try done.
    + rewrite Hd. f_equal. lia.
    + cbn. by f_equal.
    + rewrite Hdel. cbn. by rewrite <- app_assoc.
    + intros s [->|Hs']%elem_of_cons; [pose proof (zlen_nonneg d); lia|]. specialize (Hrd s Hs'). lia.
    + intros s Hs'. specialize (Hrr s Hs'). lia.
    + intros B HcB HlB. pose proof (HlB x (list_elem_of_here _ _)).
      specialize (HB B ltac:(lia) (λ s Hs', HlB s (list_elem_of_further _ _ _ Hs'))). lia.
  - exists [], (x :: l), e. rewrite zlen_nil, Z.add_0_r, (app_nil_r (delivered_sdus e)). split_and!; try done.
    + intros s Hs'. by apply not_elem_of_nil in Hs'.
    + intros s [->|Hs']%elem_of_cons; [pose proof (Hr x (list_elem_of_here _ _)); lia|].
      specialize (Hx s Hs'). pose proof (Hr x (list_elem_of_here _ _)). lia.
    + destruct e. cbn in *. by subst.
Qed.

(** The invariant but for the lower bound of [rx_reord], as it is when the timer has
    not been looked at yet. *)
Record pdcp_rx_pre (e : nr_pdcp_entity_t) : Prop := {
  pp_deliv : 0 <= rx_deliv e <= rx_next e;
  pp_next : rx_next e < 2 ^ 32;
  pp_sorted : count_sorted (rx_list e);
  pp_range : ∀ s, s ∈ rx_list e → rx_deliv e < ps_count s < rx_next e;
  pp_timer : t_reordering_start e ≠ 0 → rx_reord e <= rx_next e;
}.

(** Stored SDUs wait for a running timer. *)
Definition timer_armed (e : nr_pdcp_entity_t) : Prop := rx_list e ≠ [] → t_reordering_start e ≠ 0.

Lemma update_t_reordering_ok e :
  pdcp_rx_pre e →
  let e' := update_t_reordering e in
  pdcp_rx_wf e' ∧ (t_current e ≠ 0 → timer_armed e') ∧
  e' = e <| rx_reord := rx_reord e' |> <| t_reordering_start := t_reordering_start e' |>.
Proof.
  intros [H1 H2 H3 H4 H5]. unfold update_t_reordering, timer_armed.
  destruct (Z.eqb_spec (t_reordering_start e) 0) as [E|E]; cbn [negb andb].
  - rewrite E. cbn [Z.eqb andb]. destruct (Z.ltb_spec (rx_deliv e) (rx_next e)).
    + split_and!; [split; cbn; (done || lia)|done|by destruct e].
    + split_and!; [split; done|intros _ Hl|by destruct e].
      destruct (rx_list e) as [|x l]; [done|]. specialize (H4 x (list_elem_of_here _ _)). lia.
  - destruct (Z.leb_spec (rx_reord e) (rx_deliv e)); cbn.
    + destruct (Z.ltb_spec (rx_deliv e) (rx_next e)).
      * split_and!; [split; cbn; (done || lia)|done|by destruct e].
      * split_and!; [split; done|intros _ Hl; cbn in Hl|by destruct e].
        destruct (rx_list e) as [|x l]; [done|]. specialize (H4 x (list_elem_of_here _ _)). lia.
    + rewrite (proj2 (Z.eqb_neq _ _)) by done. cbn.
      split_and!; [split; try done; intros _; split; [done|by apply H5]|done|by destruct e].
Qed.

(** Storing an SDU. *)
Lemma store_ok e sdu n :
  pdcp_rx_wf e → rx_deliv e <= ps_count sdu < 2 ^ 32 - 1 →
  nr_pdcp_sdu_in_list (rx_list e) (ps_count sdu) = false →
  let l := nr_pdcp_sdu_list_add (rx_list e) sdu in
  let e1 := e <| rx_list := l |> <| rx_size := n |> in
  let e2 := if rx_next e1 <=? ps_count sdu then e1 <| rx_next := u32 (ps_count sdu + 1) |> else e1 in
  count_sorted l ∧ (∀ s, s ∈ l → rx_deliv e <= ps_count s < rx_next e2) ∧
  (∀ s, s ∈ l → ps_count s = rx_deliv e → s = sdu) ∧
  rx_next e <= rx_next e2 < 2 ^ 32 ∧ e2 = e1 <| rx_next := rx_next e2 |>.
Proof.
  intros [H1 H2 H3 H4 H5] Hc Hin l e1 e2.
  assert (∀ s, s ∈ l ↔ s = sdu ∨ s ∈ rx_list e) as Hl.
  { intros s. unfold l. by rewrite sdu_list_add_perm, elem_of_cons. }
  assert (rx_next e <= rx_next e2 < 2 ^ 32 ∧ ps_count sdu < rx_next e2) as [Hn Hs].
  { unfold e2, e1. cbn. destruct (Z.leb_spec (rx_next e) (ps_count sdu)); cbn; [|lia].
    rewrite u32_small by lia. lia. }
  split_and!; try lia.
  - by apply sdu_list_add_sorted.
  - intros s [->|Hs']%Hl; [lia|]. specialize (H4 s Hs'). lia.
  - intros s [->|Hs']%Hl E; [done|]. specialize (H4 s Hs'). lia.
  - unfold e2. destruct (rx_next e1 <=? ps_count sdu); [|destruct e]; done.
Qed.

(** The part of the state that storing and delivering leave alone. *)
Definition pdcp_frame (e : nr_pdcp_entity_t) :=
  (pdcp_conf e, rx_reord e, t_reordering_start e, t_current e).

Lemma pdcp_frame_inv e e' :
  pdcp_frame e' = pdcp_frame e →
  pdcp_conf e' = pdcp_conf e ∧ rx_reord e' = rx_reord e ∧
  t_reordering_start e' = t_reordering_start e ∧ t_current e' = t_current e.
Proof.
  intros F. split_and!; [exact (f_equal (λ p, p.1.1.1) F)|exact (f_equal (λ p, p.1.1.2) F)
    |exact (f_equal (λ p, p.1.2) F)|exact (f_equal (λ p, p.2) F)].
Qed.

(** The end of a step that stored [new] and delivered [d], up to COUNT [D]. *)
Lemma advance_ok e e1 new d D :
  pdcp_rx_wf e → pdcp_conf e1 = pdcp_conf e → t_current e1 = t_current e →
  (t_reordering_start e1 ≠ 0 → rx_reord e1 <= rx_next e1) →
  rx_next e <= rx_next e1 < 2 ^ 32 → rx_deliv e <= D <= rx_next e1 →
  count_sorted (d ++ rx_list e1) → d ++ rx_list e1 ≡ₚ new ++ rx_list e →
  (∀ s, s ∈ d → rx_deliv e <= ps_count s < D) →
  (∀ s, s ∈ rx_list e1 → D < ps_count s < rx_next e1) →
  delivered_sdus e1 = delivered_sdus e ++ d → rx_deliv e1 = D →
  let e' := update_t_reordering e1 in
  rx_progress e e' new d ∧ (t_current e ≠ 0 → timer_armed e') ∧ t_current e' = t_current e ∧
  rx_deliv e' = D.
Proof.
  intros [H1 H2 H3 H4 H5] Fc Ft Fr Hn HD Hs Hp Hd Hr Hdel <- e'. apply count_sorted_app in Hs as (Hs1 & Hs2 & _).
  destruct (update_t_reordering_ok e1) as (W' & A' & E').
  { split; (done || lia). }
  fold e' in W', A', E'. rewrite Ft in A'.
  assert (rx_list e' = rx_list e1 ∧ rx_deliv e' = rx_deliv e1 ∧ t_current e' = t_current e1 ∧
    delivered_sdus e' = delivered_sdus e1 ∧ pdcp_conf e' = pdcp_conf e1) as (Er & El & Et & Edl & Ec)
    by (rewrite E'; done).
  split_and!; [split|done|congruence|done]; rewrite ?El, ?Edl, ?Ec, ?Er; try done; lia.
Qed.

(** A stored SDU: the list stays ordered, the gap at [rx_deliv] closes if it was
    filled. *)
Lemma store_and_deliver_ok e sdu size hs :
  pdcp_rx_wf e → rx_deliv e <= ps_count sdu < 2 ^ 32 - 1 →
  nr_pdcp_sdu_in_list (rx_list e) (ps_count sdu) = false →
  let e' := store_and_deliver e sdu size hs in
  (∃ d, rx_progress e e' [sdu] d) ∧ (t_current e ≠ 0 → timer_armed e') ∧ t_current e' = t_current e ∧
  (ps_count sdu = rx_deliv e → rx_deliv e < rx_deliv e').
Proof.
  intros W Hc Hin. unfold store_and_deliver.
  destruct (store_ok e sdu (rx_size e + (size - hs)) W Hc Hin) as (Hs & Hr & Hu & Hn & E2).
  set (l := nr_pdcp_sdu_list_add (rx_list e) sdu) in *. cbv zeta in *.
  set (e1 := e <| rx_list := l |> <| rx_size := _ |>) in *.
  set (e2 := if _ <=? _ then _ else e1) in *.
  assert (rx_list e2 = l ∧ rx_deliv e2 = rx_deliv e) as [El Ed] by (rewrite E2; done). rewrite El, Ed.
  assert (l ≡ₚ sdu :: rx_list e) as Hp by apply sdu_list_add_perm. destruct W as [H1 H2 H3 H4 H5].
  assert (pdcp_frame e2 = pdcp_frame e ∧ delivered_sdus e2 = delivered_sdus e) as [F2 D2]
    by (rewrite E2; done).
  apply pdcp_frame_inv in F2 as (Fc & Fr & Fs & Ft).
  destruct (Z.eqb_spec (ps_count sdu) (rx_deliv e)) as [E|E].
  - destruct (deliver_from_ok l (rx_deliv e) e2) as (d & rest & e3 & -> & Hl & Hrest & Hdel & Hd & Hrr & HB & E3);
      [done|done|lia| |].
    { intros s Hs'. specialize (Hr s Hs'). lia. }
    assert (d ≠ []) as Hne.
    { intros ->. assert (sdu ∈ rest) as Hin' by (cbn in Hl; rewrite <- Hl, Hp; constructor).
      specialize (Hrr _ Hin'). rewrite zlen_nil in Hrr. lia. }
    assert (pdcp_frame e3 = pdcp_frame e2 ∧ rx_next e3 = rx_next e2) as [F3 N3] by (rewrite E3; done).
    apply pdcp_frame_inv in F3 as (Fc3 & Fr3 & Fs3 & Ft3). rewrite D2 in Hdel.
    destruct (advance_ok e (e3 <| rx_deliv := rx_deliv e + zlen d |>) [sdu] d (rx_deliv e + zlen d))
      as (P & A & T & D); cbn [set_field set_p_rx_deliv rx_next rx_list delivered_sdus rx_deliv].
    { by split. }
    { transitivity (pdcp_conf e3); [done|congruence]. }
    { cbn. congruence. }
    { cbn. lia. }
    { lia. }
    { rewrite N3. pose proof (zlen_nonneg d). split; [lia|]. apply HB; [lia|]. intros s Hs'. by apply Hr. }
    { by rewrite Hrest, <- Hl. }
    { by rewrite Hrest, <- Hl. }
    { done. }
    { rewrite Hrest, N3. intros s Hs'. split; [by apply Hrr|].
      apply Hr. rewrite Hl. apply elem_of_app. by right. }
    { done. }
    { done. }
    split_and!; [by exists d|done|done|]. intros _.
    eapply Z.lt_le_trans; [|apply Z.eq_le_incl; symmetry; exact D].
    destruct d; [done|]. rewrite zlen_cons. pose proof (zlen_nonneg d). lia.
  - destruct (advance_ok e e2 [sdu] [] (rx_deliv e)) as (P & A & T & D); rewrite ?El; try done; try lia.
    { intros s Hs'. by apply not_elem_of_nil in Hs'. }
    { intros s Hs'. specialize (Hr s Hs'). destruct (decide (ps_count s = rx_deliv e)) as [Es|]; [|lia].
      destruct E. rewrite <- (Hu s Hs' Es). done. }
    { by rewrite D2, app_nil_r. }
    split_and!; [by exists []|done|done|lia].
Qed.

(** ** Expiry of t-Reordering *)

(** Delivery below [rx_reord]: a prefix of the ordered list. *)
Lemma deliver_below_ok l e :
  count_sorted l → rx_list e = l →
  ∃ d rest e', deliver_below l e = e' ∧ l = d ++ rest ∧ rx_list e' = rest ∧
    delivered_sdus e' = delivered_sdus e ++ d ∧
    (∀ s, s ∈ d → ps_count s < rx_reord e) ∧ (∀ s, s ∈ rest → rx_reord e <= ps_count s) ∧
    e' = e <| delivered_sdus := delivered_sdus e' |> <| rx_list := rest |>
           <| rx_size := rx_size e' |> <| pstats := pstats e' |>.
Proof.
  revert e. induction l as [|x l IH]; intros e Hs Hl; cbn [deliver_below].
  { exists [], [], e. rewrite (app_nil_r (delivered_sdus e)).
    split_and!; try done; try (intros s Hs'; by apply not_elem_of_nil in Hs').
    destruct e. cbn in *. by subst. }
  apply StronglySorted_inv in Hs as [Hs Hx]. rewrite Forall_forall in Hx.
  destruct (Z.ltb_spec (ps_count x) (rx_reord e)) as [E|E].
  - match goal with |- context [deliver_below l ?y] =>
      destruct (IH y Hs eq_refl) as (d & rest & e' & Hd & Hl' & Hrest & Hdel & Hrd & Hrr & He') end.
    exists (x :: d), rest, e'. split_and!; try done.
    + cbn. by f_equal.
    + rewrite Hdel. cbn. by rewrite <- app_assoc.
    + intros s [->|Hs']%elem_of_cons; [done|]. by apply Hrd.
  - exists [], (x :: l), e. rewrite (app_nil_r (delivered_sdus e)). split_and!; try done.
    + intros s Hs'. by apply not_elem_of_nil in Hs'.
    + intros s [->|Hs']%elem_of_cons; [done|]. specialize (Hx s Hs'). lia.
    + destruct e. cbn in *. by subst.
Qed.

Definition reordering_expired (e : nr_pdcp_entity_t) : bool :=
  negb (t_reordering e =? -1) && negb (t_reordering_start e =? 0)
  && (u64 (t_reordering_start e + t_reordering e) <? t_current e).

(** Expiry gives up what is missing below [rx_reord]. *)
Lemma check_t_reordering_ok e :
  pdcp_rx_wf e →
  let e' := check_t_reordering e in
  (∃ d, rx_progress e e' [] d) ∧ (t_current e ≠ 0 → timer_armed e → timer_armed e') ∧
  t_current e' = t_current e ∧
  (if reordering_expired e then rx_reord e <= rx_deliv e' else e' = e).
Proof.
  intros W. unfold check_t_reordering, reordering_expired.
  assert (rx_progress e e [] []) as Hid.
  { split; rewrite ?app_nil_r; try done; [constructor|intros s Hs; by apply not_elem_of_nil in Hs]. }
  destruct (Z.eqb_spec (t_reordering e) (-1)) as [|Ht]; cbn [negb andb]; [eauto 6|].
  destruct (Z.eqb_spec (t_reordering_start e) 0) as [|Hs]; cbn [negb andb orb]; [eauto 6|].
  rewrite Z.ltb_antisym.
  destruct (t_current e <=? u64 (t_reordering_start e + t_reordering e)); cbn [negb]; [eauto 6|].
  destruct W as [H1 H2 H3 H4 H5]. specialize (H5 Hs).
  set (e0 := e <| t_reordering_start := 0 |>).
  destruct (deliver_below_ok (rx_list e0) e0)
    as (d & rest & e1 & -> & Hl & Hrest & Hdel & Hd & Hr & E1); [done|done|].
  change (rx_list e0) with (rx_list e) in Hl. change (rx_reord e0) with (rx_reord e) in Hd, Hr.
  rewrite Hl in H3. apply count_sorted_app in H3 as (S1 & S2 & S3).
  assert (rx_reord e1 = rx_reord e) as -> by (by rewrite E1).
  rewrite Hrest.
  destruct (deliver_from_ok rest (rx_reord e) e1) as (d' & rest' & e2 & -> & Hl' & Hrest' & Hdel' & Hd' & Hr' & HB & E2);
    [done|done|lia| |].
  { intros s Hs'. split; [by apply Hr|].
    assert (s ∈ rx_list e) as Hin by (rewrite Hl; apply elem_of_app; by right).
    specialize (H4 s Hin). lia. }
  set (e3 := e2 <| rx_deliv := rx_reord e + zlen d' |>).
  assert (pdcp_conf e3 = pdcp_conf e ∧ t_current e3 = t_current e ∧ t_reordering_start e3 = 0 ∧
    rx_next e3 = rx_next e ∧ delivered_sdus e1 = delivered_sdus e ++ d) as (Fc & Ft & Fs & Fn & D1).
  { unfold e3. rewrite E2, E1. split_and!; try done. }
  assert ((if rx_deliv e3 <? rx_next e3
    then e3 <| rx_reord := rx_next e3 |> <| t_reordering_start := t_current e3 |> else e3)
    = update_t_reordering e3) as ->.
  { unfold update_t_reordering. rewrite Fs. cbn [Z.eqb negb andb]. by rewrite Fs. }
  assert (rx_list e3 = rest') as Hl3 by done. pose proof (zlen_nonneg d').
  destruct (advance_ok e e3 [] (d ++ d') (rx_reord e + zlen d')) as (P & A & T & D).
  { split; try done. rewrite Hl. apply count_sorted_app. done. }
  { done. }
  { done. }
  { by intros []. }
  { lia. }
  { rewrite Fn. split; [lia|]. apply HB; [lia|]. intros s Hs'. apply H4. rewrite Hl. apply elem_of_app. by right. }
  { rewrite Hl3, <- app_assoc, <- Hl'. by apply count_sorted_app. }
  { by rewrite Hl3, <- app_assoc, <- Hl', <- Hl. }
  { intros s [Hs'|Hs']%elem_of_app.
    - specialize (Hd s Hs'). assert (s ∈ rx_list e) as Hin by (rewrite Hl; apply elem_of_app; by left).
      specialize (H4 s Hin). lia.
    - specialize (Hd' s Hs'). lia. }
  { rewrite Hl3, Fn. intros s Hs'. split; [by apply Hr'|]. apply H4. rewrite Hl, Hl'.
    rewrite !elem_of_app. by right; right. }
  { change (delivered_sdus e3) with (delivered_sdus e2). by rewrite Hdel', D1, app_assoc. }
  { done. }
  split_and!; [by exists (d ++ d')|by intros ? _; apply A|done|lia].
Qed.

(** If something is still missing after expiry, the timer starts again for all of it. *)
Lemma check_t_reordering_restart e :
  reordering_expired e = true →
  let e' := check_t_reordering e in
  rx_deliv e' < rx_next e' → rx_reord e' = rx_next e' ∧ t_reordering_start e' = t_current e'.
Proof.
  unfold reordering_expired, check_t_reordering. intros H.
  apply andb_prop in H as [H H3]. apply andb_prop in H as [H1 H2].
  apply negb_true_iff in H1, H2. rewrite Z.ltb_antisym in H3. apply negb_true_iff in H3.
  rewrite H1, H2, H3. cbn [orb]. cbv zeta. destruct (deliver_from _ _ _) as [c e1].
  set (e2 := e1 <| rx_deliv := c |>). destruct (Z.ltb_spec (rx_deliv e2) (rx_next e2)); [done|lia].
Qed.

(** The next SDU in sequence passes straight through. *)
Lemma store_and_deliver_next e sdu size hs :
  rx_list e = [] → ps_count sdu = rx_deliv e → rx_next e = rx_deliv e → 0 <= rx_deliv e < 2 ^ 32 - 1 →
  let e' := store_and_deliver e sdu size hs in
  rx_list e' = [] ∧ delivered_sdus e' = delivered_sdus e ++ [sdu] ∧
  rx_deliv e' = rx_deliv e + 1 ∧ rx_next e' = rx_deliv e + 1 ∧ pdcp_conf e' = pdcp_conf e.
Proof.
  intros Hl Hc Hn Hr. unfold store_and_deliver. rewrite Hl.
  cbn -[update_t_reordering u32 pdcp_conf Z.leb Z.eqb]. rewrite Hn, Hc, Z.leb_refl.
  cbn -[update_t_reordering u32 pdcp_conf Z.leb Z.eqb]. rewrite Hc, Z.eqb_refl.
  rewrite u32_small by lia. unfold update_t_reordering. cbn -[pdcp_conf Z.leb Z.eqb Z.ltb].
  destruct (Z.eqb_spec (t_reordering_start e) 0) as [E|E]; cbn -[pdcp_conf Z.leb Z.eqb Z.ltb].
  - by rewrite ?E, Z.ltb_irrefl.
  - destruct (rx_reord e <=? rx_deliv e + 1); cbn -[pdcp_conf Z.leb Z.eqb Z.ltb];
      by rewrite ?Z.ltb_irrefl, ?andb_false_r.
Qed.

(** ** COUNT reconstruction *)

(** the receiver finds the COUNT of a PDU from the SN in its header whenever the
    COUNT is within half the SN space of [rx_deliv], on both sides, HFN wrap of the SN
    included; and the COUNT it finds always has that SN. *)
Theorem pdcp_count_reconstructed e c :
  pdcp_cfg e → 0 <= rx_deliv e < 2 ^ 32 → 0 <= c < 2 ^ 32 →
  (rx_deliv e - window_size e <= c < rx_deliv e + window_size e →
   rcvd_count e (Z.land c (sn_max e)) = c) ∧
  Z.land (rcvd_count e (Z.land c (sn_max e))) (sn_max e) = Z.land c (sn_max e).
Proof.
  intros C Hd Hc. split; [by apply rcvd_count_ok|]. unfold rcvd_count.
  rewrite !land_max by done. set (h := if _ <? _ then _ else _). clearbody h.
  assert (0 <= sn_size e <= 32) as Hn by (destruct (pc_size _ C); lia).
  assert (0 < 2 ^ sn_size e) by (apply Z.pow_pos_nonneg; lia).
  assert (u32 (Z.shiftl h (sn_size e)) = Z.shiftl (h mod 2 ^ (32 - sn_size e)) (sn_size e)) as ->.
  { unfold u32. rewrite !Z.shiftl_mul_pow2 by lia.
    replace (2 ^ 32) with (2 ^ (32 - sn_size e) * 2 ^ sn_size e) by (rewrite <- Z.pow_add_r by lia; f_equal; lia).
    apply Z.mul_mod_distr_r; [|lia]. apply Z.pow_nonzero; lia. }
  rewrite lor_shiftl_add; [|lia|apply Z.mod_pos_bound; lia].
  rewrite Z.add_comm, Z.mod_add by lia. by apply Z.mod_small, Z.mod_pos_bound.
Qed.

(** SN 4095 seen by an entity that waits for COUNT 4096 * 3 + 1, and SN 5 by one that
    waits for COUNT 4094. *)
Definition deliv_at (d : Z) : nr_pdcp_entity_t :=
  mk_pdcp NR_PDCP_DRB_AM 4 10 true true 12 100 0 4095 2048 0 d d 0 0 0 0 0 false false
    (mk_keys 0 0 [] []) None None true [] 0 (mk_pstats 0 0 0 0 0 0 0 0 0 0 0 0) false [].

Lemma pdcp_count_reconstructed_witness :
  rcvd_count (deliv_at 12289) (Z.land 12287 4095) = 12287 ∧ rcvd_count (deliv_at 4094) (Z.land 4101 4095) = 4101.
Proof.
  split.
  - refine (proj1 (pdcp_count_reconstructed (deliv_at 12289) 12287 _ _ _) _); [split; vm_compute; auto|vm_compute; split; (discriminate || reflexivity)..].
  - refine (proj1 (pdcp_count_reconstructed (deliv_at 4094) 4101 _ _ _) _); [split; vm_compute; auto|vm_compute; split; (discriminate || reflexivity)..].
Defined.
