(* ===== verification/PdcpRecv.v ===== *)
(** * PDCP: every PDU received

    What [nr_pdcp_entity_recv_pdu] does with any bytes: it returns, and either
    discards the PDU or stores one SDU and delivers in order. *)

From S2P Require Import Prelude Bits PdcpEntity PdcpRx.

#[local] Arguments Z.add : simpl never.
#[local] Arguments Z.sub : simpl never.
#[local] Arguments Z.mul : simpl never.
#[local] Arguments Z.opp : simpl never.

(** ** Security state *)

(** An active algorithm has its context, and the bearer is one that the glue accepts. *)
Record pdcp_secured (e : nr_pdcp_entity_t) : Prop := {
  sec_bearer : 0 < rb_id e < 32;
  sec_ciphering : has_ciphering e = true → security_context e ≠ None;
  sec_integrity : has_integrity e = true → integrity_context e ≠ None;
}.

(** Setting security keeps this, whatever the algorithms; an algorithm number that
    the code does not know stops the process. *)
Lemma set_security_secured e p e' :
  pdcp_secured e → nr_pdcp_entity_set_security e p = Ok e' → pdcp_secured e'.
Proof.
  intros [H1 H2 H3]. unfold nr_pdcp_entity_set_security, set_integrity, set_ciphering. intros H.
  apply bind_ok_inv in H as (e1 & E1 & H).
  assert (pdcp_secured e1) as [A1 A2 A3].
  { clear H. destr_bool; try discriminate E1; injection E1 as <-; split; cbn; done. }
  clear E1. destr_bool; try discriminate H; injection H as <-; split; cbn; done.
Qed.

(** It changes nothing else. *)
Lemma set_security_frame e p e' :
  nr_pdcp_entity_set_security e p = Ok e' →
  e' = e <| has_ciphering := has_ciphering e' |> <| has_integrity := has_integrity e' |>
         <| security_keys_and_algos := security_keys_and_algos e' |>
         <| security_context := security_context e' |> <| integrity_context := integrity_context e' |>.
Proof.
  unfold nr_pdcp_entity_set_security. intros H. apply bind_ok_inv in H as (e1 & E1 & H).
  unfold set_ciphering in H. set (k := if negb (ciphering_algorithm p =? -1) then _ else _) in E1.
  clearbody k. unfold set_integrity in E1.
  destr_bool; try discriminate E1; injection E1 as <-; try discriminate H; injection H as <-; by destruct e.
Qed.

Section Recv.
Context `{C : Crypto} `{L : !CryptoLaws C}.

Lemma cipher_ok e buf off len count dir :
  pdcp_secured e → has_ciphering e = true → 0 <= off → 0 < len → off + len <= zlen buf →
  dir = 0 ∨ dir = 1 →
  ∃ out, cipher e buf off len count dir =
      Ok (take (Z.to_nat off) buf ++ out ++ drop (Z.to_nat (off + len)) buf) ∧ zlen out = len.
Proof.
  intros S Hc Ho Hl Hb Hd. unfold cipher. rewrite buf_sub_ok by lia. cbn [mbind outcome_bind].
  set (m := take (Z.to_nat len) (drop (Z.to_nat off) buf)).
  assert (zlen m = len) as Hm.
  { unfold m. rewrite zlen_take; [done|]. rewrite zlen_drop by lia. lia. }
  assert (∃ out,
    match security_context e with
    | None => Undef
    | Some (Nea1 key) => nr_pdcp_security_nea1_cipher key m (rb_id e) count dir
    | Some Nea2 => nr_pdcp_security_nea2_cipher (ciphering_key (security_keys_and_algos e)) m
                     (rb_id e) count dir
    end = Ok out ∧ zlen out = len) as (out & -> & Hlen).
  { pose proof (sec_bearer _ S). pose proof (sec_ciphering _ S Hc) as Hctx.
    destruct (security_context e) as [[key|]|]; [| |done]; eexists; split.
    - reflexivity.
    - unfold zlen. rewrite eea1_length. exact Hm.
    - unfold nr_pdcp_security_nea2_cipher. rewrite !(proj2 (Z.ltb_lt _ _)) by lia. reflexivity.
    - unfold zlen. rewrite ctr_length. exact Hm. }
  cbn [mbind outcome_bind]. exists out. rewrite buf_write_ok by lia. by rewrite Hlen.
Qed.

Lemma integrity_ok e buf len count dir :
  pdcp_secured e → has_integrity e = true → 0 <= len <= zlen buf →
  ∃ mac, integrity e buf len count dir = Ok mac ∧ zlen mac = 4.
Proof.
  intros S Hi Hl. unfold integrity. rewrite buf_sub_ok by lia. cbn [mbind outcome_bind].
  pose proof (sec_bearer _ S). pose proof (sec_integrity _ S Hi) as Hctx.
  destruct (integrity_context e) as [[key|key]|]; [| |done]; eexists; split.
  - reflexivity.
  - unfold zlen. by rewrite eia1_length.
  - unfold nr_pdcp_integrity_nia2_integrity. rewrite !(proj2 (Z.ltb_lt _ _)) by lia. reflexivity.
  - unfold zlen. rewrite length_take. by rewrite cmac_length.
Qed.

(** ** One PDU *)

(** Only counters of discarded PDUs changed. *)
Definition pdcp_quiet (e e' : nr_pdcp_entity_t) : Prop :=
  e' = e <| t_log_pdu_discard := t_log_pdu_discard e' |>
         <| pdu_discarded := pdu_discarded e' |> <| pstats := pstats e' |>.

Definition header_size (e : nr_pdcp_entity_t) : Z := if sn_size e =? 12 then 2 else 3.
Definition sdap_rx_size (e : nr_pdcp_entity_t) : Z := if has_sdap_rx e then 1 else 0.
Definition rx_direction (e : nr_pdcp_entity_t) : Z := if is_gnb e then 0 else 1.

(** The COUNT that the entity gives to a PDU. *)
Definition pdu_count (e : nr_pdcp_entity_t) (buffer : bytes) : Z :=
  match read_sn e buffer with Ok (sn, _) => rcvd_count e sn | _ => 0 end.

(** [sdu] is what the [size] bytes of the deciphered [buf] carry, and its MAC is
    right when integrity is active. *)
Record accepted (e : nr_pdcp_entity_t) (buf : bytes) (size count : Z) (sdu : nr_pdcp_sdu_t) : Prop := {
  ac_count : ps_count sdu = count;
  ac_size : ps_size sdu = size - header_size e - integrity_size e;
  ac_data : buf_sub buf (header_size e) (ps_size sdu) = Ok (ps_buffer sdu);
  ac_mac : has_integrity e = true →
    ∃ mac, integrity e buf (size - 4) count (rx_direction e) = Ok mac ∧
           buf_sub buf (size - 4) 4 = Ok mac;
  ac_new : rx_deliv e <= count ∧ nr_pdcp_sdu_in_list (rx_list e) count = false;
}.

Lemma read_sn_ok e b :
  3 <= zlen b → ∃ sn, read_sn e b = Ok (sn, header_size e).
Proof.
  intros Hb. unfold read_sn, header_size, SHORT_SN_SIZE.
  destruct (buf_get_ok b 0 ltac:(lia)) as (b0 & _ & ->). destruct (buf_get_ok b 1 ltac:(lia)) as (b1 & _ & ->).
  destruct (buf_get_ok b 2 ltac:(lia)) as (b2 & _ & ->). destruct (sn_size e =? 12); eexists; reflexivity.
Qed.

(** The D/C bit is not part of the SN. *)
Lemma read_sn_dc e b b0 b' :
  buf_get b 0 = Ok b0 → buf_set b 0 (Z.lor b0 128) = Ok b' → read_sn e b' = read_sn e b.
Proof.
  intros H0 Hs. unfold buf_set in Hs. destruct (_ && _) eqn:Hl; [|done]. injection Hs as <-.
  apply andb_prop in Hl as [_ Hl]. apply Z.ltb_lt in Hl.
  destruct b as [|x b]; [done|]. injection H0 as ->.
  change (<[Z.to_nat 0:=Z.lor b0 128]> (b0 :: b)) with (Z.lor b0 128 :: b).
  assert (Z.land (Z.lor b0 128) 15 = Z.land b0 15 ∧ Z.land (Z.lor b0 128) 3 = Z.land b0 3) as [E1 E2].
  { rewrite !Z.land_lor_distr_l. by rewrite !Z.lor_0_r. }
  unfold read_sn. change (buf_get (Z.lor b0 128 :: b) 0) with (Ok (Z.lor b0 128)).
  change (buf_get (b0 :: b) 0) with (Ok b0).
  change (buf_get (Z.lor b0 128 :: b) 1) with (buf_get (b0 :: b) 1).
  change (buf_get (Z.lor b0 128 :: b) 2) with (buf_get (b0 :: b) 2).
  cbn [mbind outcome_bind]. by rewrite E1, E2.
Qed.

Lemma integrity_size_range e : integrity_size e = 0 ∨ integrity_size e = 4.
Proof. unfold integrity_size. destruct (_ || _); [by right|by left]. Qed.

Lemma header_size_range e : header_size e = 2 ∨ header_size e = 3.
Proof. unfold header_size. destruct (_ =? _); lia. Qed.

Lemma msg_integrity_ok e b size count hs :
  0 <= hs → hs + integrity_size e <= size <= zlen b →
  ∃ msg, msg_integrity e b size count hs = Ok msg.
Proof.
  intros Hh Hs. unfold msg_integrity, integrity_size, PDCP_INTEGRITY_SIZE in *.
  destruct (_ || _); [|by eexists]. rewrite !buf_sub_ok by lia. by eexists.
Qed.

Lemma mac_matches_ok e b size count :
  pdcp_secured e → integrity_size e <= size <= zlen b →
  ∃ ok, mac_matches e b size count = Ok ok ∧
    (ok = true → has_integrity e = true →
     ∃ mac, integrity e b (size - 4) count (rx_direction e) = Ok mac ∧ buf_sub b (size - 4) 4 = Ok mac).
Proof.
  intros S Hs. unfold mac_matches. destruct (has_integrity e) eqn:Hi; [|by exists true].
  assert (integrity_size e = 4) as E by (unfold integrity_size; rewrite Hi; done). rewrite E in *.
  destruct (integrity_ok e b (size - 4) count (rx_direction e) S Hi ltac:(lia)) as (mac & Hm & _).
  unfold rx_direction in *. rewrite Hm. unfold PDCP_INTEGRITY_SIZE. cbn [mbind outcome_bind].
  rewrite buf_sub_ok by lia. cbn [mbind outcome_bind]. eexists; split; [done|].
  intros ->%bool_decide_eq_true_1 _. by eexists.
Qed.

Lemma process_pdu_cases e b size sn :
  pdcp_secured e → header_size e + sdap_rx_size e + integrity_size e + 1 <= size <= zlen b →
  ∃ buf e', process_pdu e b size sn (header_size e) (sdap_rx_size e) = Ok (buf, e') ∧ zlen buf = zlen b ∧
    (pdcp_quiet e e' ∨
     ∃ sdu, accepted e buf size (rcvd_count e sn) sdu ∧
       e' = store_and_deliver e sdu size (header_size e)).
Proof.
  intros S Hs. pose proof (integrity_size_range e). pose proof (header_size_range e).
  assert (0 <= sdap_rx_size e <= 1) by (unfold sdap_rx_size; destruct (has_sdap_rx e); lia).
  unfold process_pdu. set (count := rcvd_count e sn). cbv zeta.
  destruct (msg_integrity_ok e b size count (header_size e)) as (msg & ->); [lia|lia|]. cbn [mbind outcome_bind].
  set (off := header_size e + sdap_rx_size e) in *.
  assert (∃ buf, (if has_ciphering e then cipher e b off (size - off) count (if is_gnb e then 0 else 1)
    else Ok b) = Ok buf ∧ zlen buf = zlen b) as (buf & -> & Hl).
  { destruct (has_ciphering e) eqn:Hc; [|by exists b].
    destruct (cipher_ok e b off (size - off) count (if is_gnb e then 0 else 1)) as (out & -> & Ho); try done; try lia.
    { destruct (is_gnb e); auto. }
    eexists; split; [done|]. rewrite !zlen_app, zlen_take, zlen_drop by lia. lia. }
  cbn [mbind outcome_bind].
  destruct (mac_matches_ok e buf size count) as (ok & -> & Hok); [done|lia|]. cbn [mbind outcome_bind].
  exists buf. destruct ok; cbn [negb]; cycle 1.
  { eexists; split; [done|]. split; [done|]. left. by destruct e. }
  destruct ((count <? rx_deliv e) || nr_pdcp_sdu_in_list (rx_list e) count) eqn:Hd.
  { eexists; split; [done|]. split; [done|]. left. unfold discard_old. destruct (_ && _); by destruct e. }
  apply orb_false_iff in Hd as [Hd1%Z.ltb_ge Hd2].
  rewrite buf_sub_ok by lia. cbn [mbind outcome_bind]. unfold nr_pdcp_new_sdu.
  rewrite buf_sub_ok; [|lia|lia|rewrite zlen_take; [lia|]; rewrite zlen_drop by lia; lia].
  cbn [mbind outcome_bind]. eexists; split; [done|]. split; [done|]. right. eexists; split; [|done].
  split; cbn; try done; [|by apply Hok]. rewrite buf_sub_ok by lia. f_equal.
  rewrite drop_0, take_take. f_equal. lia.
Qed.

Lemma pdcp_recv_cases e buffer size :
  pdcp_secured e → 3 <= zlen buffer → size <= zlen buffer →
  ∃ buf e', nr_pdcp_entity_recv_pdu e buffer size = Ok (buf, e') ∧ zlen buf = zlen buffer ∧
    (pdcp_quiet e e' ∨
     ∃ e1 sdu, pdcp_quiet e e1 ∧ accepted e buf size (pdu_count e buffer) sdu ∧
       e' = store_and_deliver e1 sdu size (header_size e)).
Proof.
  intros S Hb Hsz. unfold nr_pdcp_entity_recv_pdu.
  assert (pdcp_quiet e e) as Hid by (by destruct e).
  destruct (entity_suspended e); [eauto 6|]. destruct (Z.ltb_spec size 1) as [|H1]; [eauto 6|].
  destruct (buf_get_ok buffer 0 ltac:(lia)) as (b0 & _ & Hb0). rewrite Hb0. cbn [mbind outcome_bind].
  set (dc := bool_decide _ && _).
  assert (∃ b1, (if dc then buf_set buffer 0 (Z.lor b0 128) else Ok buffer) = Ok b1 ∧
    zlen b1 = zlen buffer ∧ read_sn e b1 = read_sn e buffer) as (b1 & -> & Hl1 & Hsn).
  { destruct dc; [|by exists buffer]. eexists. rewrite buf_set_ok by lia. split; [done|]. split.
    - unfold zlen. by rewrite length_insert.
    - eapply read_sn_dc; [done|]. rewrite buf_set_ok by lia. done. }
  cbn [mbind outcome_bind]. destruct (read_sn_ok e b1 ltac:(lia)) as (sn & Hrd).
  set (es := on_pstats (λ s, s <| st_rxpdu_sn := sn |>)
    (on_pstats (λ s, padd st_rxpdu_bytes size (padd st_rxpdu_pkts 1 s)) e)).
  assert (pdu_count e buffer = rcvd_count es sn) as ->
    by (unfold pdu_count; by rewrite <- Hsn, Hrd).
  change (read_sn (on_pstats _ e) b1) with (read_sn e b1). rewrite Hrd. cbn [mbind outcome_bind].
  fold es. change (if has_sdap_rx (on_pstats _ e) then 1 else 0) with (sdap_rx_size e).
  destruct (Z.ltb_spec size (header_size e + sdap_rx_size e + integrity_size es + 1)).
  { exists b1, (count_discard size es). split; [done|]. split; [done|]. left. by destruct e. }
  destruct (process_pdu_cases es b1 size sn) as (buf & e' & Hp & Hlb & Hc).
  { split; apply S. }
  { change (header_size es) with (header_size e). change (sdap_rx_size es) with (sdap_rx_size e). lia. }
  exists buf, e'. split; [exact Hp|]. split; [congruence|].
  destruct Hc as [->|(sdu & Ha & ->)].
  - left. by destruct e.
  - right. exists es, sdu. split; [by destruct e|]. split; [|done]. destruct Ha as [A1 A2 A3 A4 A5]. by split.
Qed.

(** ** Reception as a step *)

Lemma rx_progress_quiet e e1 e' new d :
  pdcp_quiet e e1 → rx_progress e1 e' new d → rx_progress e e' new d.
Proof. intros -> [H1 H2 H3 H4 H5 H6 H7]. by split. Qed.

Lemma rx_progress_refl e e' : pdcp_rx_wf e → pdcp_quiet e e' → rx_progress e e' [] [].
Proof.
  intros W ->. split; cbn; rewrite ?app_nil_r; try done.
  - destruct W. by split.
  - constructor.
  - intros s Hs. by apply not_elem_of_nil in Hs.
Qed.

Lemma recv_pdu_progress e buffer size :
  pdcp_secured e → pdcp_rx_wf e → 3 <= zlen buffer → size <= zlen buffer →
  pdu_count e buffer < 2 ^ 32 - 1 →
  ∃ buf e', nr_pdcp_entity_recv_pdu e buffer size = Ok (buf, e') ∧
    t_current e' = t_current e ∧ (t_current e ≠ 0 → timer_armed e → timer_armed e') ∧
    ((pdcp_quiet e e' ∧ rx_progress e e' [] []) ∨
     ∃ sdu d, accepted e buf size (pdu_count e buffer) sdu ∧ rx_progress e e' [sdu] d).
Proof.
  intros S W Hb Hs Hc. destruct (pdcp_recv_cases e buffer size S Hb Hs) as (buf & e' & Hr & Hl & Hq).
  exists buf, e'. split; [done|]. destruct Hq as [Hq|(e1 & sdu & Hq & Ha & ->)].
  - pose proof (rx_progress_refl _ _ W Hq). rewrite Hq. split_and!; try done. left. by rewrite <- Hq.
  - pose proof Ha as [A1 _ _ _ [A2 A3]].
    destruct (store_and_deliver_ok e1 sdu size (header_size e)) as ((d & P) & A & T & _).
    + eapply pdcp_rx_wf_ext; [|exact W]. by rewrite Hq.
    + rewrite Hq, A1. done.
    + rewrite Hq, A1. done.
    + assert (t_current e1 = t_current e) as Et by (by rewrite Hq).
      split_and!; [congruence|by intros Ht _; apply A; rewrite Et|]. right. exists sdu, d. split; [done|].
      by eapply rx_progress_quiet.
Qed.

(** The events of a receiving entity between two re-establishments: a PDU, whose
    COUNT is not the last one, or a tick of the clock. *)
Inductive pdcp_rx_step (e : nr_pdcp_entity_t) : nr_pdcp_entity_t → Prop :=
| step_recv buffer size buf e' :
    3 <= zlen buffer → size <= zlen buffer → pdu_count e buffer < 2 ^ 32 - 1 →
    nr_pdcp_entity_recv_pdu e buffer size = Ok (buf, e') → pdcp_rx_step e e'
| step_time now : pdcp_rx_step e (nr_pdcp_entity_set_time e now).

(** A fresh entity, whose COUNT may have been set. *)
Inductive pdcp_initial : nr_pdcp_entity_t → Prop :=
| initial_new type gnb rb pdu rx tx sn t_reord discard p e :
    0 < rb < 32 → sn = 12 ∨ sn = 18 →
    new_nr_pdcp_entity type gnb rb pdu rx tx sn t_reord discard p = Ok e → pdcp_initial e
| initial_count e c :
    pdcp_initial e → compose_count c (sn_size e) < 2 ^ 32 - 1 →
    pdcp_initial (nr_pdcp_entity_set_count_dl e c (sn_size e)).

(** What holds in every state: [delivered_sdus] are in strict order of COUNT and below
    [rx_deliv]. *)
Record pdcp_rx_inv (e : nr_pdcp_entity_t) : Prop := {
  pi_cfg : pdcp_cfg e;
  pi_secured : pdcp_secured e;
  pi_wf : pdcp_rx_wf e;
  pi_order : count_sorted (delivered_sdus e);
  pi_below : ∀ s, s ∈ delivered_sdus e → ps_count s < rx_deliv e;
}.

Lemma pdcp_conf_cfg e e' : pdcp_conf e' = pdcp_conf e → pdcp_cfg e → pdcp_cfg e'.
Proof.
  intros F [H1 H2 H3]. unfold pdcp_conf in F.
  assert (sn_size e' = sn_size e ∧ sn_max e' = sn_max e ∧ window_size e' = window_size e) as (E1 & E2 & E3)
    by (split_and!; congruence).
  split; by rewrite ?E1, ?E2, ?E3.
Qed.

Lemma pdcp_conf_secured e e' : pdcp_conf e' = pdcp_conf e → pdcp_secured e → pdcp_secured e'.
Proof.
  intros F [H1 H2 H3]. unfold pdcp_conf in F.
  assert (rb_id e' = rb_id e ∧ has_ciphering e' = has_ciphering e ∧ has_integrity e' = has_integrity e ∧
    security_context e' = security_context e ∧ integrity_context e' = integrity_context e)
    as (E1 & E2 & E3 & E4 & E5) by (split_and!; congruence).
  split; by rewrite ?E1, ?E2, ?E3, ?E4, ?E5.
Qed.

Lemma rx_progress_inv e e' new d : rx_progress e e' new d → pdcp_rx_inv e → pdcp_rx_inv e'.
Proof.
  intros [P1 P2 P3 P4 P5 P6 P7] [I1 I2 I3 I4 I5]. split.
  - by eapply pdcp_conf_cfg.
  - by eapply pdcp_conf_secured.
  - done.
  - rewrite P3. apply count_sorted_app. split_and!; [done|done|]. intros a b Ha Hb.
    specialize (I5 a Ha). specialize (P5 b Hb). lia.
  - rewrite P3. intros s [Hs|Hs]%elem_of_app; [specialize (I5 s Hs)|specialize (P5 s Hs)]; lia.
Qed.

Lemma pdcp_rx_inv_time e now : pdcp_rx_inv e → pdcp_rx_inv (e <| t_current := now |>).
Proof. intros [[] [] [] I4 I5]. split; [by split|by split|by split|done|done]. Qed.

Lemma pdcp_rx_step_progress e e' :
  pdcp_rx_step e e' → pdcp_rx_inv e → ∃ new d, rx_progress e e' new d.
Proof.
  intros [buffer size buf e1 Hb Hs Hc Hr|now] I.
  - destruct (recv_pdu_progress e buffer size) as (buf' & e2 & Hr' & _ & _ & Hp); try done; try apply I.
    rewrite Hr in Hr'. injection Hr' as <- <-.
    destruct Hp as [[_ P]|(sdu & d & _ & P)]; eauto.
  - apply pdcp_rx_inv_time with (now := now) in I. unfold nr_pdcp_entity_set_time.
    destruct (check_t_reordering_ok (e <| t_current := now |>) (pi_wf _ I)) as ((d & P) & _).
    exists [], d. destruct P. by split.
Qed.

Lemma pdcp_rx_step_inv e e' : pdcp_rx_step e e' → pdcp_rx_inv e → pdcp_rx_inv e'.
Proof. intros Hs I. destruct (pdcp_rx_step_progress _ _ Hs I) as (new & d & P). by eapply rx_progress_inv. Qed.

(** In all states reached from one, [rx_deliv] is not before what it was. *)
Lemma pdcp_rx_reach e e' :
  rtc pdcp_rx_step e e' → pdcp_rx_inv e →
  pdcp_rx_inv e' ∧ rx_deliv e <= rx_deliv e' ∧ pdcp_conf e' = pdcp_conf e.
Proof.
  induction 1 as [e|e e1 e2 Hs _ IH]; intros I; [done|].
  destruct (IH (pdcp_rx_step_inv _ _ Hs I)) as (I2 & M2 & F2). split; [done|].
  destruct (pdcp_rx_step_progress _ _ Hs I) as (new & d & P).
  split; [pose proof (rp_mono _ _ _ _ P); lia|]. by rewrite F2, (rp_conf _ _ _ _ P).
Qed.

(** A PDU with a COUNT before [rx_deliv] is discarded. *)
Lemma pdcp_old_quiet e buffer size :
  pdcp_secured e → 3 <= zlen buffer → size <= zlen buffer → pdu_count e buffer < rx_deliv e →
  ∃ buf e', nr_pdcp_entity_recv_pdu e buffer size = Ok (buf, e') ∧ pdcp_quiet e e'.
Proof.
  intros S Hb Hs Hc. destruct (pdcp_recv_cases e buffer size S Hb Hs) as (buf & e' & Hr & _ & Hq).
  exists buf, e'. split; [done|]. destruct Hq as [Hq|(e1 & sdu & _ & Ha & _)]; [done|].
  destruct (ac_new _ _ _ _ _ Ha). lia.
Qed.

Lemma new_pdcp_inv type gnb rb pdu rx tx sn t_reord discard p e :
  0 < rb < 32 → sn = 12 ∨ sn = 18 →
  new_nr_pdcp_entity type gnb rb pdu rx tx sn t_reord discard p = Ok e →
  pdcp_rx_inv e ∧ rx_list e = [] ∧ delivered_sdus e = [] ∧ t_reordering_start e = 0 ∧ entity_suspended e = false.
Proof.
  intros Hrb Hsn H. unfold new_nr_pdcp_entity in H.
  match type of H with nr_pdcp_entity_set_security ?x _ = _ => set (e0 := x) in H end.
  assert (pdcp_secured e) as S by (eapply set_security_secured; [|exact H]; by split).
  apply set_security_frame in H. split_and!; try (rewrite H; done).
  split; [split| |split| |]; try done; rewrite H; cbn; try done; try lia.
  - destruct Hsn as [-> | ->]; reflexivity.
  - destruct Hsn as [-> | ->]; reflexivity.
  - constructor.
  - intros s Hs. by apply not_elem_of_nil in Hs.
  - constructor.
  - intros s Hs. by apply not_elem_of_nil in Hs.
Qed.

Lemma compose_count_nonneg c sn : 0 <= sn → 0 <= compose_count c sn.
Proof.
  intros Hsn. unfold compose_count. apply Z.lor_nonneg. split; [apply u32_range|].
  apply Z.land_nonneg. right. rewrite Z.shiftl_1_l. pose proof (Z.pow_pos_nonneg 2 sn). lia.
Qed.

Lemma pdcp_initial_inv e :
  pdcp_initial e → pdcp_rx_inv e ∧ rx_list e = [] ∧ delivered_sdus e = [] ∧ t_reordering_start e = 0.
Proof.
  induction 1 as [type gnb rb pdu rx tx sn t_reord discard p e Hrb Hsn He|e c _ (I & Hl & Hd & Ht) Hc].
  - apply new_pdcp_inv in He as (I & Hl & Hd & Ht & _); done.
  - split; [|done]. destruct I as [[C1 C2 C3] [] [] I4 I5].
    pose proof (compose_count_nonneg c (sn_size e) ltac:(lia)).
    split; [by split|by split| |done|cbn; rewrite Hd; intros s Hs; by apply not_elem_of_nil in Hs].
    split; cbn; rewrite ?u32_small by lia; try done; try lia.
    rewrite Hl. intros s Hs. by apply not_elem_of_nil in Hs.
Qed.

End Recv.
