(* ===== verification/PdcpReach.v ===== *)
(** * PDCP: the life of a receiving entity

    The theorems over sequences of events: order of delivery, authentication, the
    reordering timer, suspension and re-establishment. *)

From S2P Require Import Prelude Bits PdcpEntity PdcpRx PdcpRecv.

#[local] Arguments Z.add : simpl never.
#[local] Arguments Z.sub : simpl never.
#[local] Arguments Z.mul : simpl never.
#[local] Arguments Z.opp : simpl never.

(** ** Concrete ciphers for the examples

    A key stream of one byte and a checksum: they satisfy the laws. *)
Definition toy_stream (k : bytes) (c b d : Z) : Z := (sumZ id k + 7 * c + 3 * b + d) mod 256.
Definition toy_sum (k : bytes) (c b d : Z) (m : bytes) : Z := (sumZ id m + toy_stream k c b d) mod 256.

#[export] Instance toy_crypto : Crypto := {
  stream_encrypt_eea1 k c b d m := (λ x, Z.lxor x (toy_stream k c b d)) <$> m;
  stream_integrity_eia1 k c b d m := [toy_sum k c b d m; c mod 256; b mod 256; d];
  aes_128_ctr k c b d m := (λ x, Z.lxor x (toy_stream k c b d)) <$> m;
  aes_128_cbc_cmac k c b d m := replicate 16 (toy_sum k c b d m);
}.

Lemma toy_involutive s (m : bytes) : (λ x, Z.lxor x s) <$> ((λ x, Z.lxor x s) <$> m) = m.
Proof.
  induction m as [|x m IH]; cbn; [done|]. rewrite Z.lxor_assoc, Z.lxor_nilpotent, Z.lxor_0_r.
  by f_equal.
Qed.

#[export] Instance toy_laws : CryptoLaws toy_crypto.
Proof.
  split; intros; cbn; try apply toy_involutive; try done; apply length_fmap.
Qed.

Section Reach.
Context `{C : Crypto} `{L : !CryptoLaws C}.

(** C4: whatever PDUs (in any order, repeated, malformed) and clock ticks reach an entity after
    its creation, the SDUs it delivers are in strictly increasing order of COUNT, so none is
    delivered twice; the COUNTs stored are all above those delivered, in strict order, and below
    [rx_next]. The steps are those of [pdcp_rx_step]: a PDU lies in a buffer of at least three
    octets (of a shorter one the code reads beyond the end) and does not get the COUNT 2^32 - 1,
    after which there is none left. *)
Theorem pdcp_in_order e0 e :
  pdcp_initial e0 → rtc pdcp_rx_step e0 e →
  StronglySorted Z.lt (ps_count <$> (delivered_sdus e ++ rx_list e)) ∧
  (∀ s, s ∈ delivered_sdus e → ps_count s < rx_deliv e) ∧
  (∀ s, s ∈ rx_list e → rx_deliv e < ps_count s < rx_next e).
Proof.
  intros H0 Hr. assert (pdcp_rx_inv e) as I.
  { apply pdcp_initial_inv in H0 as (I & _). induction Hr as [|x y z Hs _ IH]; [done|].
    apply IH. by eapply pdcp_rx_step_inv. }
  destruct I as [_ _ W I4 I5]. split_and!; [|done|apply W].
  assert (count_sorted (delivered_sdus e ++ rx_list e)) as Hs.
  { apply count_sorted_app. split_and!; [done|apply W|]. intros a b Ha Hb.
    specialize (I5 a Ha). pose proof (pw_range _ W b Hb). lia. }
  unfold count_sorted in Hs. induction Hs as [|x l _ IH Hx]; cbn; [constructor|].
  constructor; [done|]. by apply Forall_fmap.
Qed.

(** C22: no bytes from below make the entity misbehave, and only authenticated data goes up:
    [nr_pdcp_entity_recv_pdu] returns on every PDU found in a buffer of at least 3 bytes, unless
    its COUNT is the last one, 2^32 - 1; either it changes nothing but counters, or the MAC at the
    end of the deciphered PDU is the one computed over its header and data (when integrity is
    active), the COUNT is new, and what was stored or delivered before plus this one SDU is what
    is stored or delivered after. *)
Theorem pdcp_recv_authenticated e buffer size :
  pdcp_rx_inv e → 3 <= zlen buffer → size <= zlen buffer → pdu_count e buffer < 2 ^ 32 - 1 →
  ∃ buf e', nr_pdcp_entity_recv_pdu e buffer size = Ok (buf, e') ∧ pdcp_rx_inv e' ∧
    (pdcp_quiet e e' ∨
     ∃ sdu, accepted e buf size (pdu_count e buffer) sdu ∧
       delivered_sdus e' ++ rx_list e' ≡ₚ sdu :: delivered_sdus e ++ rx_list e).
Proof.
  intros I Hb Hs Hc.
  destruct (recv_pdu_progress e buffer size (pi_secured _ I) (pi_wf _ I) Hb Hs Hc)
    as (buf & e' & Hr & _ & _ & [[Q P]|(sdu & d & Ha & P)]); exists buf, e'.
  - split_and!; [done|by eapply rx_progress_inv|by left].
  - split_and!; [done|by eapply rx_progress_inv|]. right. exists sdu. split; [done|].
    rewrite (rp_delivered _ _ _ _ P), <- app_assoc, (rp_perm _ _ _ _ P). cbn.
    by rewrite <- Permutation_middle.
Qed.

(** ** The reordering timer *)

(** One expiry. *)
Lemma set_time_expiry e now :
  pdcp_rx_inv e → 0 <= t_reordering_start e → 0 <= t_reordering e → t_reordering_start e ≠ 0 →
  t_reordering_start e + t_reordering e < now < 2 ^ 64 →
  let e' := nr_pdcp_entity_set_time e now in
  ∃ d, rx_progress e e' [] d ∧ rx_reord e <= rx_deliv e' ∧ pdcp_rx_inv e' ∧
    t_reordering e' = t_reordering e ∧
    (rx_list e' ≠ [] → rx_reord e' = rx_next e' ∧ t_reordering_start e' = now).
Proof.
  intros I H0 H1 H2 Hn e'. set (e1 := e <| t_current := now |>).
  assert (reordering_expired e1 = true) as Hx.
  { unfold reordering_expired. change (t_reordering e1) with (t_reordering e).
    change (t_reordering_start e1) with (t_reordering_start e). change (t_current e1) with now.
    rewrite u64_small by lia. rewrite !(proj2 (Z.eqb_neq _ _)) by lia. apply Z.ltb_lt. lia. }
  pose proof (pdcp_rx_inv_time _ now I) as I1. fold e1 in I1.
  destruct (check_t_reordering_ok e1 (pi_wf _ I1)) as ((d & P) & _ & T & R). rewrite Hx in R.
  pose proof (check_t_reordering_restart e1 Hx) as Hs. cbv zeta in Hs.
  change (check_t_reordering e1) with e' in *. exists d. pose proof (rx_progress_inv _ _ _ _ P I1) as I'.
  split_and!; [|exact R|done| |].
  - destruct P. by split.
  - pose proof (rp_conf _ _ _ _ P) as F. unfold pdcp_conf in F. change (t_reordering e) with (t_reordering e1).
    congruence.
  - intros Hl. destruct (rx_list e') as [|s l] eqn:E; [done|].
    pose proof (pw_range _ (pi_wf _ I') s) as Hr. rewrite E in Hr. specialize (Hr (list_elem_of_here _ _)).
    destruct Hs as [Hs1 Hs2]; [lia|]. split; [done|]. by rewrite Hs2, T.
Qed.

(** Two expiries deliver whatever is stored. *)
Lemma two_expiries e s t1 t2 :
  pdcp_rx_inv e → timer_armed e → 0 <= t_reordering_start e → 0 <= t_reordering e →
  s ∈ rx_list e →
  t_reordering_start e + t_reordering e < t1 → t1 + t_reordering e < t2 < 2 ^ 64 →
  let e' := nr_pdcp_entity_set_time (nr_pdcp_entity_set_time e t1) t2 in
  pdcp_rx_inv e' ∧ s ∈ delivered_sdus e'.
Proof.
  intros I A H0 H1 Hs Ht1 Ht2 e'.
  assert (t_reordering_start e ≠ 0) as Hne by (apply A; intros E; rewrite E in Hs; by apply not_elem_of_nil in Hs).
  destruct (set_time_expiry e t1 I H0 H1 Hne ltac:(lia)) as (d1 & P1 & R1 & I1 & T1 & N1).
  set (e1 := nr_pdcp_entity_set_time e t1) in *.
  assert (s ∈ d1 ++ rx_list e1) as Hs1 by (rewrite (rp_perm _ _ _ _ P1); done).
  assert (∃ d2, rx_progress e1 e' [] d2 ∧ pdcp_rx_inv e' ∧ (rx_list e1 ≠ [] → rx_next e1 <= rx_deliv e'))
    as (d2 & P2 & I2 & R2).
  { destruct (decide (rx_list e1 = [])) as [E|E].
    - pose proof (pdcp_rx_inv_time _ t2 I1) as I2.
      destruct (check_t_reordering_ok (e1 <| t_current := t2 |>) (pi_wf _ I2)) as ((d2 & P) & _).
      exists d2. split_and!; [|by eapply rx_progress_inv|by intros []]. destruct P. by split.
    - destruct (N1 E) as [N2 N3].
      destruct (set_time_expiry e1 t2) as (d2 & P2 & R2 & I2 & _); try done; try lia.
      exists d2. split_and!; [done|done|]. intros _. unfold e'. lia. }
  split; [exact I2|]. rewrite (rp_delivered _ _ _ _ P2), (rp_delivered _ _ _ _ P1).
  rewrite !elem_of_app. apply elem_of_app in Hs1 as [Hs1|Hs1]; [by left; right|]. right.
  assert (s ∈ d2 ++ rx_list e') as Hs2 by (rewrite (rp_perm _ _ _ _ P2); done).
  apply elem_of_app in Hs2 as [Hs2|Hs2]; [done|].
  pose proof (pw_range _ (pi_wf _ I2) s Hs2). pose proof (pw_range _ (pi_wf _ I1) s Hs1).
  assert (rx_list e1 ≠ []) as E by (intros E; rewrite E in Hs1; by apply not_elem_of_nil in Hs1).
  specialize (R2 E). lia.
Qed.

(** C23: an SDU that waits for missing ones is not kept for ever: with no help from the
    sender it has been delivered, in order, after two expiries of t-Reordering. *)
Theorem pdcp_stored_sdu_delivered e s t1 t2 :
  pdcp_rx_inv e → timer_armed e → 0 <= t_reordering_start e → 0 <= t_reordering e →
  s ∈ rx_list e →
  t_reordering_start e + t_reordering e < t1 → t1 + t_reordering e < t2 < 2 ^ 64 →
  let e' := nr_pdcp_entity_set_time (nr_pdcp_entity_set_time e t1) t2 in
  s ∈ delivered_sdus e' ∧ count_sorted (delivered_sdus e').
Proof.
  intros I A H0 H1 Hs Ht1 Ht2 e'.
  destruct (two_expiries e s t1 t2 I A H0 H1 Hs Ht1 Ht2) as [I' Hd]. split; [exact Hd|apply I'].
Qed.

(** ** Suspension and re-establishment *)

Lemma deliver_all_ok l e :
  rx_list e = l →
  let e' := deliver_all l e in
  e' = e <| delivered_sdus := delivered_sdus e ++ l |> <| rx_list := [] |>
         <| rx_size := rx_size e - sumZ ps_size l |> <| pstats := pstats e' |>.
Proof.
  revert e. induction l as [|x l IH]; intros e Hl; cbn [deliver_all].
  { rewrite app_nil_r, sumZ_nil, Z.sub_0_r. destruct e. cbn in *. by subst. }
  cbv zeta. rewrite IH by done. cbn. rewrite <- app_assoc, sumZ_cons. cbn.
  replace (rx_size e - ps_size x - sumZ ps_size l) with (rx_size e - (ps_size x + sumZ ps_size l)) by lia.
  done.
Qed.

(** A flush that depends on the timer delivers everything that waits. *)
Lemma flush_ok e e1 :
  timer_armed e → rx_list e1 = rx_list e → delivered_sdus e1 = delivered_sdus e →
  let e' := if negb (t_reordering_start e =? 0) then deliver_all_sdus e1 else e1 in
  e' = e1 <| delivered_sdus := delivered_sdus e ++ rx_list e |> <| rx_list := [] |>
          <| rx_size := rx_size e' |> <| pstats := pstats e' |>.
Proof.
  intros A Hl Hd e'. unfold e'. destruct (Z.eqb_spec (t_reordering_start e) 0) as [E|E]; cbn [negb].
  - assert (rx_list e = []) as El by (destruct (rx_list e) eqn:El; [done|]; exfalso; apply A; [congruence|done]).
    rewrite El in *. rewrite app_nil_r, <- Hd. destruct e1. cbn in *. by subst.
  - unfold deliver_all_sdus. pose proof (deliver_all_ok (rx_list e1) e1 eq_refl) as F. cbv zeta in F.
    set (e2 := deliver_all (rx_list e1) e1) in *.
    assert (rx_size e2 = rx_size e1 - sumZ ps_size (rx_list e1)) as -> by (rewrite F; done).
    by rewrite <- Hl, <- Hd.
Qed.

(** The state variables back at their initial values, nothing stored. *)
Definition pdcp_blank (e : nr_pdcp_entity_t) : Prop :=
  tx_next e = 0 ∧ rx_next e = 0 ∧ rx_deliv e = 0 ∧ t_reordering_start e = 0 ∧ rx_list e = [].

Lemma pdcp_blank_wf e : pdcp_blank e → pdcp_rx_wf e.
Proof.
  intros (_ & H1 & H2 & H3 & H4). split; rewrite ?H1, ?H2, ?H3, ?H4; try done; [constructor|].
  intros s Hs. by apply not_elem_of_nil in Hs.
Qed.

(** Suspending an entity, or re-establishing one of an UM data bearer, loses no SDU
    that has been received: all that wait are delivered, in order of COUNT, before the
    state variables go back to 0. A suspended entity neither accepts PDUs nor builds any. *)
Theorem pdcp_suspend_flushes e p e2 :
  pdcp_rx_inv e → timer_armed e →
  let e1 := nr_pdcp_entity_suspend e in
  (delivered_sdus e1 = delivered_sdus e ++ rx_list e ∧ count_sorted (delivered_sdus e1) ∧
   pdcp_blank e1 ∧
   (∀ buffer size, nr_pdcp_entity_recv_pdu e1 buffer size = Ok (buffer, e1)) ∧
   (∀ buffer size id pdu max, nr_max_pdcp_pdu_size size <= max →
      nr_pdcp_entity_process_sdu e1 buffer size id pdu max = Ok (-1, pdu, e1))) ∧
  (nr_pdcp_entity_reestablish_drb_um e p = Ok e2 →
   delivered_sdus e2 = delivered_sdus e ++ rx_list e ∧ pdcp_blank e2 ∧
   pdcp_secured e2 ∧ entity_suspended e2 = false).
Proof.
  intros I A e1.
  assert (count_sorted (delivered_sdus e ++ rx_list e)) as Hs.
  { apply count_sorted_app. split_and!; [apply I|apply I|]. intros a b Ha Hb.
    pose proof (pi_below _ I a Ha). pose proof (pw_range _ (pi_wf _ I) b Hb). lia. }
  split.
  - set (e0 := e <| tx_next := 0 |>). set (e0' := e0 <| t_reordering_start := 0 |>).
    pose proof (flush_ok e0 e0' A eq_refl eq_refl) as F.
    assert (e1 = (if negb (t_reordering_start e0 =? 0) then deliver_all_sdus e0' else e0')
      <| rx_next := 0 |> <| rx_deliv := 0 |> <| entity_suspended := true |>) as E1.
    { unfold e1, nr_pdcp_entity_suspend. fold e0. fold e0'.
      destruct (Z.eqb_spec (t_reordering_start e0) 0) as [E|E];
        cbn [negb]; [|done]. unfold e0', e0 in *. clear -E. destruct e. cbn in *. by subst. }
    clearbody e1. cbv zeta in F. rewrite F in E1. subst e1. split_and!; try done.
    intros buffer size id pdu max Hm. unfold nr_pdcp_entity_process_sdu, assert_fatal.
    by rewrite (proj2 (Z.leb_le _ _)) by done.
  - intros Hr. unfold nr_pdcp_entity_reestablish_drb_um in Hr.
    set (e0 := e <| tx_next := 0 |>) in *. pose proof (flush_ok e0 e0 A eq_refl eq_refl) as F.
    cbv zeta in F, Hr. rewrite F in Hr. apply bind_ok_inv in Hr as (e3 & Hs3 & [= <-]).
    pose proof (set_security_frame _ _ _ Hs3) as E3.
    assert (pdcp_secured e3) as S by (eapply set_security_secured; [|exact Hs3]; split; apply I).
    split_and!; try (rewrite E3; done). destruct S. by split.
Qed.

End Reach.

(** ** Examples *)

Definition no_security : nr_pdcp_entity_security_keys_and_algos_t :=
  mk_keys 0 0 (replicate 16 0) (replicate 16 0).
Definition some_keys : nr_pdcp_entity_security_keys_and_algos_t :=
  mk_keys 2 2 (replicate 16 7) (replicate 16 9).

(** A fresh data bearer entity with 12-bit SNs, t-Reordering of 100 ms. *)
Definition fresh_pdcp (gnb secured : bool) : nr_pdcp_entity_t :=
  mk_pdcp NR_PDCP_DRB_AM 4 10 true true 12 100 0 4095 2048 0 0 0 0 0 0 0 0 secured secured
    (if secured then some_keys else no_security)
    (if secured then Some Nea2 else None) (if secured then Some (Nia2 (replicate 16 7)) else None)
    gnb [] 0 (mk_pstats 0 0 0 0 0 0 0 0 0 0 0 0) false [].

Lemma fresh_pdcp_new (gnb secured : bool) :
  new_nr_pdcp_entity NR_PDCP_DRB_AM gnb 4 10 true true 12 100 0
    (if secured then some_keys else no_security) = Ok (fresh_pdcp gnb secured).
Proof. by destruct secured. Qed.

Lemma fresh_pdcp_initial (gnb secured : bool) : pdcp_initial (fresh_pdcp gnb secured).
Proof. eapply initial_new; [| |apply fresh_pdcp_new]; lia. Qed.

(** COUNT 1 arrives before COUNT 0, then COUNT 0 once more. *)
Lemma reordered_run :
  ∃ e, rtc pdcp_rx_step (fresh_pdcp true false) e ∧
    ps_count <$> delivered_sdus e = [0; 1] ∧ ps_buffer <$> delivered_sdus e = [[0; 67]; [0; 65; 66]].
Proof.
  eexists. split.
  - eapply rtc_l; [apply (step_time (fresh_pdcp true false) 5)|].
    eapply rtc_l; [eapply (step_recv _ [128; 1; 0; 65; 66] 5); vm_compute; (reflexivity || discriminate)|].
    eapply rtc_l; [eapply (step_recv _ [128; 0; 0; 67] 4); vm_compute; (reflexivity || discriminate)|].
    eapply rtc_l; [eapply (step_recv _ [128; 0; 0; 67] 4); vm_compute; (reflexivity || discriminate)|].
    apply rtc_refl.
  - split; reflexivity.
Qed.

Lemma pdcp_in_order_witness :
  ∃ e, ps_count <$> delivered_sdus e = [0; 1] ∧
    StronglySorted Z.lt (ps_count <$> (delivered_sdus e ++ rx_list e)).
Proof.
  destruct reordered_run as (e & Hr & Hd & _). exists e. split; [exact Hd|].
  exact (proj1 (pdcp_in_order (fresh_pdcp true false) e (fresh_pdcp_initial _ _) Hr)).
Defined.

Lemma pdcp_recv_authenticated_witness :
  ∃ buf e', nr_pdcp_entity_recv_pdu (fresh_pdcp true false) [128; 1; 0; 65; 66] 5 = Ok (buf, e') ∧
    pdcp_rx_inv e'.
Proof.
  destruct (pdcp_recv_authenticated (fresh_pdcp true false) [128; 1; 0; 65; 66] 5) as (buf & e' & H1 & H2 & _).
  - apply pdcp_initial_inv, fresh_pdcp_initial.
  - vm_compute. discriminate.
  - vm_compute. discriminate.
  - vm_compute. reflexivity.
  - exists buf, e'. split; [exact H1|exact H2].
Defined.

(** The state with COUNT 1 stored and the timer started at time 5. *)
Definition waiting_pdcp : nr_pdcp_entity_t :=
  fresh_pdcp true false <| t_current := 5 |> <| rx_next := 2 |> <| rx_reord := 2 |>
    <| t_reordering_start := 5 |>
    <| rx_list := [mk_pdcp_sdu 1 [0; 65; 66] 3 (mk_integrity 0 [0; 0; 0; 0] 0 [0; 0; 0])] |>.

Lemma waiting_pdcp_inv : pdcp_rx_inv waiting_pdcp.
Proof.
  split; [split; vm_compute; auto|split; done|split| |]; cbn; try done; try lia.
  - repeat constructor.
  - intros s ->%list_elem_of_singleton. cbn. lia.
  - constructor.
  - intros s Hs. by apply not_elem_of_nil in Hs.
Qed.

Lemma pdcp_stored_sdu_delivered_witness :
  mk_pdcp_sdu 1 [0; 65; 66] 3 (mk_integrity 0 [0; 0; 0; 0] 0 [0; 0; 0])
    ∈ delivered_sdus (nr_pdcp_entity_set_time (nr_pdcp_entity_set_time waiting_pdcp 106) 207).
Proof.
  apply (pdcp_stored_sdu_delivered waiting_pdcp
    (mk_pdcp_sdu 1 [0; 65; 66] 3 (mk_integrity 0 [0; 0; 0; 0] 0 [0; 0; 0])) 106 207).
  - exact waiting_pdcp_inv.
  - intros _. vm_compute. discriminate.
  - vm_compute. discriminate.
  - vm_compute. discriminate.
  - apply list_elem_of_here.
  - vm_compute. reflexivity.
  - vm_compute. split; reflexivity.
Defined.

Lemma pdcp_suspend_flushes_witness :
  length (delivered_sdus (nr_pdcp_entity_suspend waiting_pdcp)) = 1%nat ∧
  delivered_sdus (nr_pdcp_entity_suspend waiting_pdcp) = delivered_sdus waiting_pdcp ++ rx_list waiting_pdcp.
Proof.
  split; [reflexivity|].
  refine (proj1 (proj1 (pdcp_suspend_flushes waiting_pdcp no_security waiting_pdcp waiting_pdcp_inv _))).
  intros _. vm_compute. discriminate.
Defined.
