(* ===== verification/PdcpLink.v ===== *)
(** * PDCP: from the sender to the receiver

    The bytes that [nr_pdcp_entity_process_sdu] produces, and what the peer entity
    makes of them: COUNT, header, deciphering, MAC and data are recovered, for both
    SN sizes and for every choice of algorithms. At the end, the COUNT pair exchanged
    at handover and reproducible misbehaviour of the receiving entity. *)

From S2P Require Import Prelude Bits PdcpEntity PdcpRx PdcpRecv PdcpReach.

#[local] Arguments Z.add : simpl never.
#[local] Arguments Z.sub : simpl never.
#[local] Arguments Z.mul : simpl never.
#[local] Arguments Z.opp : simpl never.

(** ** Pieces of a buffer *)

Lemma split_buffer (b : bytes) n : 0 <= n <= zlen b → ∃ x y, b = x ++ y ∧ zlen x = n.
Proof.
  intros Hn. exists (take (Z.to_nat n) b), (drop (Z.to_nat n) b).
  split; [by rewrite take_drop|]. by apply zlen_take.
Qed.

Lemma buf_write_mid (a b b' c : bytes) :
  zlen b' = zlen b → buf_write (a ++ b ++ c) (zlen a) b' = Ok (a ++ b' ++ c).
Proof.
  intros H. pose proof (zlen_nonneg a). pose proof (zlen_nonneg b). pose proof (zlen_nonneg c).
  rewrite buf_write_ok by (rewrite ?zlen_app; lia). rewrite H. unfold zlen.
  rewrite <- Nat2Z.inj_add, !Nat2Z.id, take_app_length. do 3 f_equal.
  by rewrite <- drop_drop, drop_app_length, drop_app_length.
Qed.

(** ** The header *)

Definition dc_bit (e : nr_pdcp_entity_t) : Z := if bool_decide (type e = NR_PDCP_SRB) then 0 else 128.

Definition pdcp_header (e : nr_pdcp_entity_t) (sn : Z) : bytes :=
  if sn_size e =? 12
  then [Z.lor (dc_bit e) (Z.land (Z.shiftr sn 8) 15); Z.land sn 255]
  else [Z.lor (dc_bit e) (Z.land (Z.shiftr sn 16) 3); Z.land (Z.shiftr sn 8) 255; Z.land sn 255].

Lemma zlen_pdcp_header e sn : zlen (pdcp_header e sn) = header_size e.
Proof. unfold pdcp_header, header_size. by destruct (_ =? _). Qed.

Lemma write_header_ok e (x rest : bytes) sn :
  zlen x = header_size e →
  write_header e (x ++ rest) sn = Ok (pdcp_header e sn ++ rest, header_size e).
Proof.
  intros Hx. unfold write_header, pdcp_header, header_size, SHORT_SN_SIZE in *.
  replace (if bool_decide (type e = NR_PDCP_DRB_AM) || bool_decide (type e = NR_PDCP_DRB_UM) then 128 else 0)
    with (dc_bit e) by (unfold dc_bit; by destruct (type e)).
  destruct (sn_size e =? 12).
  - destruct x as [|x0 [|x1 [|? ?]]]; try zlen_lia. cbn [app].
    do 2 (rewrite buf_set_ok by zlen_lia; cbn [mbind outcome_bind]). done.
  - destruct x as [|x0 [|x1 [|x2 [|? ?]]]]; try zlen_lia. cbn [app].
    do 3 (rewrite buf_set_ok by zlen_lia; cbn [mbind outcome_bind]). done.
Qed.

Lemma land_low dc y m : 0 <= dc → Z.land dc m = 0 → Z.land (Z.lor dc (Z.land y m)) m = Z.land y m.
Proof. intros _ H. rewrite Z.land_lor_distr_l, H, Z.lor_0_l, <- Z.land_assoc, Z.land_diag. done. Qed.

Lemma land_255 x : Z.land x 255 = x mod 256.
Proof. exact (Z.land_ones x 8 ltac:(lia)). Qed.

(** The SN from its bytes. *)
Lemma sn12_bytes sn : 0 <= sn < 2 ^ 12 →
  Z.lor (Z.shiftl (Z.land (Z.shiftr sn 8) 15) 8) (Z.land sn 255) = sn.
Proof.
  intros H. rewrite land_255. change 15 with (Z.ones 4). rewrite Z.land_ones, Z.shiftr_div_pow2 by lia.
  change 256 with (2 ^ 8). rewrite lor_shiftl_add; [|lia|apply Z.mod_pos_bound; lia].
  assert (sn / 2 ^ 8 < 2 ^ 4) by (apply Z.div_lt_upper_bound; lia).
  assert (0 <= sn / 2 ^ 8) by (apply Z.div_pos; lia).
  rewrite (Z.mod_small (sn / _)) by lia. pose proof (Z.div_mod sn (2 ^ 8)). lia.
Qed.

Lemma sn18_bytes sn : 0 <= sn < 2 ^ 18 →
  Z.lor (Z.lor (Z.shiftl (Z.land (Z.shiftr sn 16) 3) 16) (Z.shiftl (Z.land (Z.shiftr sn 8) 255) 8))
    (Z.land sn 255) = sn.
Proof.
  intros H. rewrite !land_255. change 3 with (Z.ones 2). rewrite Z.land_ones, !Z.shiftr_div_pow2 by lia.
  change 256 with (2 ^ 8).
  change (Z.shiftl (sn / 2 ^ 16 mod 2 ^ 2) 16) with (Z.shiftl (sn / 2 ^ 16 mod 2 ^ 2) (8 + 8)).
  rewrite <- Z.shiftl_shiftl, <- Z.shiftl_lor by lia.
  rewrite !lor_shiftl_add; [|lia|apply Z.mod_pos_bound; lia|lia|apply Z.mod_pos_bound; lia].
  assert (sn / 2 ^ 16 < 2 ^ 2) by (apply Z.div_lt_upper_bound; lia).
  assert (0 <= sn / 2 ^ 16) by (apply Z.div_pos; lia).
  rewrite (Z.mod_small (sn / 2 ^ 16)) by lia.
  pose proof (Z.div_mod sn (2 ^ 8)). pose proof (Z.div_mod (sn / 2 ^ 8) (2 ^ 8)).
  rewrite Z.div_div in * by lia. change (2 ^ 8 * 2 ^ 8) with (2 ^ 16) in *. lia.
Qed.

Lemma read_sn_header e sn rest :
  pdcp_cfg e → 0 <= sn <= sn_max e → read_sn e (pdcp_header e sn ++ rest) = Ok (sn, header_size e).
Proof.
  intros C Hsn. rewrite (pc_max _ C) in Hsn. unfold read_sn, pdcp_header, header_size, SHORT_SN_SIZE.
  assert (dc_bit e = 0 ∨ dc_bit e = 128) as Hdc by (unfold dc_bit; destruct (bool_decide _); auto).
  destruct (pc_size _ C) as [E|E]; rewrite E in *; cbn [Z.eqb Pos.eqb app].
  - set (b0 := Z.lor _ _). set (b1 := Z.land sn 255).
    change (buf_get (b0 :: b1 :: rest) 0) with (Ok b0). change (buf_get (b0 :: b1 :: rest) 1) with (Ok b1).
    cbn [mbind outcome_bind]. unfold b0. rewrite land_low by (destruct Hdc as [-> | ->]; done).
    unfold b1. by rewrite sn12_bytes by lia.
  - set (b0 := Z.lor _ _). set (b1 := Z.land (Z.shiftr sn 8) 255). set (b2 := Z.land sn 255).
    change (buf_get (b0 :: b1 :: b2 :: rest) 0) with (Ok b0).
    change (buf_get (b0 :: b1 :: b2 :: rest) 1) with (Ok b1).
    change (buf_get (b0 :: b1 :: b2 :: rest) 2) with (Ok b2).
    cbn [mbind outcome_bind]. unfold b0. rewrite land_low by (destruct Hdc as [-> | ->]; done).
    unfold b1, b2. by rewrite sn18_bytes by lia.
Qed.

(** The receiver does not have to repair the D/C bit. *)
Lemma header_dc e sn rest :
  ∃ b0, buf_get (pdcp_header e sn ++ rest) 0 = Ok b0 ∧
    bool_decide (type e ≠ NR_PDCP_SRB) && (Z.land b0 128 =? 0) = false.
Proof.
  assert (∀ y m, Z.land m 128 = 0 → bool_decide (type e ≠ NR_PDCP_SRB)
    && (Z.land (Z.lor (dc_bit e) (Z.land y m)) 128 =? 0) = false) as H.
  { intros y m Hm. unfold dc_bit. destruct (decide (type e = NR_PDCP_SRB)) as [E|E].
    - by rewrite (bool_decide_eq_false_2 (_ ≠ _)) by (by intros []).
    - rewrite (bool_decide_eq_false_2 (_ = _)) by done.
      by rewrite Z.land_lor_distr_l, <- Z.land_assoc, Hm, Z.land_0_r, andb_false_r. }
  unfold pdcp_header. destruct (_ =? _); eexists; (split; [reflexivity|]); by apply H.
Qed.

Section Link.
Context `{C : Crypto} `{L : !CryptoLaws C}.

(** ** The bytes of a PDU *)

Definition apply_cipher (e : nr_pdcp_entity_t) (m : bytes) (count dir : Z) : bytes :=
  if has_ciphering e then
    match security_context e with
    | Some (Nea1 key) => stream_encrypt_eea1 key count (rb_id e - 1) dir m
    | Some Nea2 => aes_128_ctr (ciphering_key (security_keys_and_algos e)) count (rb_id e - 1) dir m
    | None => m
    end
  else m.

Definition mac_of (e : nr_pdcp_entity_t) (m : bytes) (count dir : Z) : bytes :=
  if has_integrity e then
    match integrity_context e with
    | Some (Nia1 key) => stream_integrity_eia1 key count (rb_id e - 1) dir m
    | Some (Nia2 key) => take 4 (aes_128_cbc_cmac key count (rb_id e - 1) dir m)
    | None => []
    end
  else if bool_decide (type e = NR_PDCP_SRB) then [0; 0; 0; 0] else [].

Definition sdap_tx_size (e : nr_pdcp_entity_t) : nat := if has_sdap_tx e then 1 else 0.
Definition tx_direction (e : nr_pdcp_entity_t) : Z := if is_gnb e then 1 else 0.

(** Header and SDAP header in clear, the rest of the SDU and the MAC ciphered; the MAC
    covers header and SDU. *)
Definition pdcp_pdu (e : nr_pdcp_entity_t) (count : Z) (sdu : bytes) : bytes :=
  let hdr := pdcp_header e (Z.land count (sn_max e)) in
  hdr ++ take (sdap_tx_size e) sdu ++
  apply_cipher e (drop (sdap_tx_size e) sdu ++ mac_of e (hdr ++ sdu) count (tx_direction e))
    count (tx_direction e).

Lemma apply_cipher_len e m count dir : zlen (apply_cipher e m count dir) = zlen m.
Proof.
  unfold apply_cipher, zlen. destruct (has_ciphering e); [|done].
  destruct (security_context e) as [[?|]|]; by rewrite ?eea1_length, ?ctr_length.
Qed.

Lemma apply_cipher_involutive e m count dir :
  apply_cipher e (apply_cipher e m count dir) count dir = m.
Proof.
  unfold apply_cipher. destruct (has_ciphering e); [|done].
  destruct (security_context e) as [[?|]|]; by rewrite ?eea1_involutive, ?ctr_involutive.
Qed.

Lemma mac_of_len e m count dir : pdcp_secured e → zlen (mac_of e m count dir) = integrity_size e.
Proof.
  intros S. pose proof (sec_integrity _ S) as Hi. unfold mac_of, integrity_size, zlen.
  destruct (has_integrity e); cbn [orb].
  - specialize (Hi eq_refl). destruct (integrity_context e) as [[?|?]|]; [| |done].
    + by rewrite eia1_length.
    + rewrite length_take. by rewrite cmac_length.
  - by destruct (bool_decide _).
Qed.

(** [entity->cipher] on a part of a buffer. *)
Lemma cipher_mid e a m c count dir :
  pdcp_secured e → has_ciphering e = true → m ≠ [] → dir = 0 ∨ dir = 1 →
  cipher e (a ++ m ++ c) (zlen a) (zlen m) count dir = Ok (a ++ apply_cipher e m count dir ++ c).
Proof.
  intros S Hc Hm Hd. unfold cipher. rewrite buf_sub_mid. cbn [mbind outcome_bind].
  assert (0 < zlen m) by (destruct m; [done|]; rewrite zlen_cons; pose proof (zlen_nonneg m); lia).
  pose proof (sec_bearer _ S). pose proof (sec_ciphering _ S Hc) as Hx.
  pose proof (apply_cipher_len e m count dir) as Hl. unfold apply_cipher in *. rewrite Hc in *.
  destruct (security_context e) as [[key|]|]; [| |done].
  - unfold nr_pdcp_security_nea1_cipher. cbn [mbind outcome_bind]. by apply buf_write_mid.
  - unfold nr_pdcp_security_nea2_cipher. rewrite !(proj2 (Z.ltb_lt _ _)) by lia.
    cbn [mbind outcome_bind assert_fatal andb]. by apply buf_write_mid.
Qed.

Lemma integrity_prefix e m c count dir :
  pdcp_secured e → has_integrity e = true →
  integrity e (m ++ c) (zlen m) count dir = Ok (mac_of e m count dir).
Proof.
  intros S Hi. unfold integrity. rewrite buf_sub_prefix. cbn [mbind outcome_bind].
  pose proof (sec_bearer _ S). pose proof (sec_integrity _ S Hi) as Hx. unfold mac_of. rewrite Hi.
  destruct (integrity_context e) as [[?|?]|]; [| |done].
  - done.
  - unfold nr_pdcp_integrity_nia2_integrity. rewrite !(proj2 (Z.ltb_lt _ _)) by lia. done.
Qed.

(** ** The sender *)

Lemma append_mac e m z w count :
  pdcp_secured e → zlen z = integrity_size e →
  (if has_integrity e
   then mac ← integrity e (m ++ z ++ w) (zlen m) count (tx_direction e);
        buf_write (m ++ z ++ w) (zlen m) mac
   else if integrity_size e =? PDCP_INTEGRITY_SIZE
   then buf_write (m ++ z ++ w) (zlen m) [0; 0; 0; 0]
   else Ok (m ++ z ++ w)) = Ok (m ++ mac_of e m count (tx_direction e) ++ w).
Proof.
  intros S Hz. pose proof (mac_of_len e m count (tx_direction e) S) as Hm.
  destruct (has_integrity e) eqn:Hi.
  - rewrite integrity_prefix by done. cbn [mbind outcome_bind]. apply buf_write_mid. congruence.
  - unfold mac_of, integrity_size, PDCP_INTEGRITY_SIZE in *. rewrite Hi in *. cbn [orb] in *.
    destruct (bool_decide _); cbn [Z.eqb Pos.eqb].
    + by apply buf_write_mid.
    + destruct z; [done|]. zlen_lia.
Qed.

Lemma cipher_opt e a m c count dir :
  pdcp_secured e → m ≠ [] → dir = 0 ∨ dir = 1 →
  (if has_ciphering e then cipher e (a ++ m ++ c) (zlen a) (zlen m) count dir else Ok (a ++ m ++ c))
  = Ok (a ++ apply_cipher e m count dir ++ c).
Proof.
  intros S Hm Hd. destruct (has_ciphering e) eqn:Hc; [by apply cipher_mid|].
  unfold apply_cipher. by rewrite Hc.
Qed.

Lemma sdap_split e (sdu : bytes) :
  Z.of_nat (sdap_tx_size e) < zlen sdu →
  zlen (take (sdap_tx_size e) sdu) = Z.of_nat (sdap_tx_size e) ∧ drop (sdap_tx_size e) sdu ≠ [] ∧
  zlen (drop (sdap_tx_size e) sdu) = zlen sdu - Z.of_nat (sdap_tx_size e).
Proof.
  intros H. unfold zlen in *. rewrite length_take, length_drop. split_and!; try lia.
  intros E. apply (f_equal length) in E. rewrite length_drop in E. cbn in E. lia.
Qed.

(** [process_sdu] writes exactly [pdcp_pdu] at the start of the buffer and moves
    [tx_next]; only counters change besides. *)
Lemma process_sdu_ok e sdu id pdu_buffer :
  pdcp_secured e → entity_suspended e = false → Z.of_nat (sdap_tx_size e) < zlen sdu →
  nr_max_pdcp_pdu_size (zlen sdu) <= zlen pdu_buffer →
  ∃ rest e', nr_pdcp_entity_process_sdu e sdu (zlen sdu) id pdu_buffer (zlen pdu_buffer) =
      Ok (zlen (pdcp_pdu e (tx_next e) sdu), pdcp_pdu e (tx_next e) sdu ++ rest, e') ∧
    e' = e <| tx_next := u32 (tx_next e + 1) |> <| pstats := pstats e' |>.
Proof.
  intros S Hsus Hsd Hmax. unfold nr_pdcp_entity_process_sdu.
  rewrite (proj2 (Z.leb_le _ _)) by done. cbn [assert_fatal mbind outcome_bind]. rewrite Hsus.
  set (e1 := on_pstats _ e). change (tx_next e1) with (tx_next e). change (sn_max e1) with (sn_max e).
  assert (pdcp_secured e1) as S1 by (split; apply S).
  set (count := tx_next e) in *. set (sn := Z.land count (sn_max e)).
  pose proof (integrity_size_range e) as Hisz. pose proof (header_size_range e) as Hhs.
  pose proof (zlen_nonneg sdu). unfold nr_max_pdcp_pdu_size, LONG_PDCP_HEADER_SIZE, PDCP_INTEGRITY_SIZE in Hmax.
  destruct (split_buffer pdu_buffer (header_size e)) as (x & r1 & -> & Hx); [lia|]. rewrite zlen_app in Hmax.
  destruct (split_buffer r1 (zlen sdu)) as (y & r2 & -> & Hy); [lia|]. rewrite zlen_app in Hmax.
  destruct (split_buffer r2 (integrity_size e)) as (z & w & -> & Hz); [lia|].
  rewrite (write_header_ok e1) by done. cbn [mbind outcome_bind].
  set (hdr := pdcp_header e1 sn). assert (zlen hdr = header_size e1) as Hh by apply zlen_pdcp_header.
  rewrite buf_sub_all. cbn [mbind outcome_bind].
  rewrite <- !Hh, buf_write_mid by done. cbn [mbind outcome_bind].
  fold (tx_direction e1). rewrite <- zlen_app, (app_assoc hdr sdu).
  rewrite (append_mac e1 (hdr ++ sdu) z w count S1 Hz). cbn [mbind outcome_bind].
  set (mac := mac_of e1 (hdr ++ sdu) count (tx_direction e1)).
  assert (zlen mac = integrity_size e1) as Hmac by (by apply mac_of_len).
  destruct (sdap_split e1 sdu Hsd) as (Hs1 & Hs2 & Hs3).
  set (sd := take (sdap_tx_size e1) sdu) in *. set (body := drop (sdap_tx_size e1) sdu) in *.
  assert ((hdr ++ sdu) ++ mac ++ w = (hdr ++ sd) ++ (body ++ mac) ++ w) as ->.
  { rewrite <- (take_drop (sdap_tx_size e1) sdu). fold sd body. by rewrite <- !app_assoc. }
  assert (Z.of_nat (sdap_tx_size e1) = if has_sdap_tx e1 then 1 else 0) as Hsz
    by (unfold sdap_tx_size; by destruct (has_sdap_tx e1)).
  rewrite <- Hsz, <- Hs1, <- zlen_app.
  replace (zlen sdu + integrity_size e1 - zlen sd) with (zlen (body ++ mac)) by (rewrite zlen_app; lia).
  rewrite (cipher_opt e1 (hdr ++ sd) (body ++ mac) w count (tx_direction e1) S1); cycle 1.
  { intros [E _]%app_nil. done. }
  { unfold tx_direction. destruct (is_gnb e1); auto. }
  cbn [mbind outcome_bind].
  assert ((hdr ++ sd) ++ apply_cipher e1 (body ++ mac) count (tx_direction e1) = pdcp_pdu e count sdu) as Hp
    by (rewrite <- app_assoc; done).
  rewrite (app_assoc (hdr ++ sd)), Hp.
  assert (zlen (hdr ++ sdu) + integrity_size e1 = zlen (pdcp_pdu e count sdu)) as Hlen.
  { rewrite <- Hp, !zlen_app, apply_cipher_len, zlen_app. lia. }
  change (integrity_size (e1 <| tx_next := u32 (count + 1) |>)) with (integrity_size e1).
  rewrite Hlen. exists w. eexists. split; [done|]. by destruct e.
Qed.

(** ** The receiver *)

(** Two entities of one bearer, at its two ends. *)
Record pdcp_peer (tx rx : nr_pdcp_entity_t) : Prop := {
  pr_type : type tx = type rx;
  pr_rb : rb_id tx = rb_id rx;
  pr_size : sn_size tx = sn_size rx;
  pr_max : sn_max tx = sn_max rx;
  pr_sdap : has_sdap_tx tx = has_sdap_rx rx;
  pr_cipher : has_ciphering tx = has_ciphering rx;
  pr_cctx : security_context tx = security_context rx;
  pr_ckey : ciphering_key (security_keys_and_algos tx) = ciphering_key (security_keys_and_algos rx);
  pr_integ : has_integrity tx = has_integrity rx;
  pr_ictx : integrity_context tx = integrity_context rx;
  pr_gnb : is_gnb tx = negb (is_gnb rx);
}.

(** The PDU in terms of the receiver. *)
Lemma peer_pdu tx rx count sdu :
  pdcp_peer tx rx →
  pdcp_pdu tx count sdu =
    let hdr := pdcp_header rx (Z.land count (sn_max rx)) in
    hdr ++ take (Z.to_nat (sdap_rx_size rx)) sdu ++
    apply_cipher rx (drop (Z.to_nat (sdap_rx_size rx)) sdu
                     ++ mac_of rx (hdr ++ sdu) count (rx_direction rx)) count (rx_direction rx).
Proof.
  intros [H1 H2 H3 H4 H5 H6 H7 H8 H9 H10 H11]. cbv zeta.
  unfold pdcp_pdu, apply_cipher, mac_of, pdcp_header, dc_bit, sdap_rx_size, sdap_tx_size,
    rx_direction, tx_direction.
  rewrite H1, H2, H3, H4, H5, H6, H7, H8, H9, H10, H11.
  by destruct (has_sdap_rx rx), (is_gnb rx).
Qed.

Lemma mac_matches_suffix e m count :
  pdcp_secured e →
  mac_matches e (m ++ mac_of e m count (rx_direction e)) (zlen m + integrity_size e) count = Ok true.
Proof.
  intros S. pose proof (mac_of_len e m count (rx_direction e) S) as Hl. unfold mac_matches.
  destruct (has_integrity e) eqn:Hi; [|done]. fold (rx_direction e).
  replace (zlen m + integrity_size e - integrity_size e) with (zlen m) by lia.
  rewrite integrity_prefix by done. cbn [mbind outcome_bind].
  assert (PDCP_INTEGRITY_SIZE = zlen (mac_of e m count (rx_direction e))) as ->
    by (rewrite Hl; unfold integrity_size; by rewrite Hi).
  rewrite <- (app_nil_r (mac_of e m count (rx_direction e))) at 1. rewrite buf_sub_mid.
  cbn [mbind outcome_bind]. by rewrite bool_decide_eq_true_2.
Qed.

(** From the SN on. *)
Lemma process_peer_pdu tx rx count sdu :
  pdcp_peer tx rx → pdcp_cfg rx → pdcp_secured rx → sdap_rx_size rx < zlen sdu →
  rcvd_count rx (Z.land count (sn_max rx)) = count →
  let pdu := pdcp_pdu tx count sdu in
  ∃ buf e', process_pdu rx pdu (zlen pdu) (Z.land count (sn_max rx)) (header_size rx) (sdap_rx_size rx)
      = Ok (buf, e') ∧
    (if (count <? rx_deliv rx) || nr_pdcp_sdu_in_list (rx_list rx) count then pdcp_quiet rx e'
     else ∃ msg, e' = store_and_deliver rx (mk_pdcp_sdu count sdu (zlen sdu) msg) (zlen pdu) (header_size rx)).
Proof.
  intros P Cf S Hsd Hc pdu. set (sn := Z.land count (sn_max rx)) in *. set (hdr := pdcp_header rx sn).
  assert (zlen hdr = header_size rx) as Hh by apply zlen_pdcp_header.
  set (n := Z.to_nat (sdap_rx_size rx)).
  assert (Z.of_nat n = sdap_rx_size rx) as Hn.
  { unfold n, sdap_rx_size. by destruct (has_sdap_rx rx). }
  set (mac := mac_of rx (hdr ++ sdu) count (rx_direction rx)).
  assert (zlen mac = integrity_size rx) as Hm by (by apply mac_of_len).
  assert (pdu = (hdr ++ take n sdu) ++ apply_cipher rx (drop n sdu ++ mac) count (rx_direction rx)) as Hp.
  { unfold pdu. rewrite (peer_pdu tx rx) by done. cbv zeta. by rewrite app_assoc. }
  assert (zlen (hdr ++ take n sdu) = header_size rx + sdap_rx_size rx) as Ho.
  { rewrite zlen_app, Hh. unfold zlen in *. rewrite length_take. lia. }
  assert (zlen (drop n sdu ++ mac) = zlen sdu - sdap_rx_size rx + integrity_size rx) as Hb.
  { rewrite zlen_app, Hm. unfold zlen in *. rewrite length_drop. lia. }
  assert (zlen pdu = header_size rx + zlen sdu + integrity_size rx) as Hl.
  { rewrite Hp, zlen_app, apply_cipher_len. lia. }
  pose proof (integrity_size_range rx). pose proof (header_size_range rx). pose proof (zlen_nonneg sdu).
  unfold process_pdu. rewrite Hc. cbv zeta. fold (rx_direction rx).
  destruct (msg_integrity_ok rx pdu (zlen pdu) count (header_size rx)) as (msg & ->); [lia|lia|].
  cbn [mbind outcome_bind].
  assert ((if has_ciphering rx then cipher rx pdu (header_size rx + sdap_rx_size rx)
      (zlen pdu - (header_size rx + sdap_rx_size rx)) count (rx_direction rx) else Ok pdu)
    = Ok ((hdr ++ sdu) ++ mac)) as ->.
  { set (enc := apply_cipher rx (drop n sdu ++ mac) count (rx_direction rx)) in *.
    assert (zlen enc = zlen pdu - (header_size rx + sdap_rx_size rx)) as He
      by (rewrite Hp, zlen_app; lia).
    assert (enc ≠ []) as Hne by (intros E; rewrite E, zlen_nil in He; lia).
    assert (rx_direction rx = 0 ∨ rx_direction rx = 1) as Hd by (unfold rx_direction; destruct (is_gnb rx); auto).
    pose proof (cipher_opt rx (hdr ++ take n sdu) enc [] count (rx_direction rx) S Hne Hd) as Q.
    rewrite !app_nil_r in Q. rewrite <- Hp, Ho, He in Q. rewrite Q. unfold enc.
    rewrite apply_cipher_involutive, <- !app_assoc. do 2 f_equal.
    by rewrite app_assoc, take_drop. }
  cbn [mbind outcome_bind].
  assert (zlen pdu = zlen (hdr ++ sdu) + integrity_size rx) as Hl2 by (rewrite zlen_app; lia).
  assert (mac_matches rx ((hdr ++ sdu) ++ mac) (zlen pdu) count = Ok true) as ->
    by (rewrite Hl2; by apply mac_matches_suffix).
  cbn [mbind outcome_bind negb].
  destruct ((count <? rx_deliv rx) || nr_pdcp_sdu_in_list (rx_list rx) count).
  { eexists _, _. split; [done|]. unfold discard_old. destruct (_ && _); by destruct rx. }
  replace (zlen pdu - header_size rx - integrity_size rx) with (zlen sdu) by lia.
  assert (buf_sub ((hdr ++ sdu) ++ mac) (header_size rx) (zlen sdu) = Ok sdu) as ->
    by (rewrite <- app_assoc, <- Hh; apply buf_sub_mid).
  cbn [mbind outcome_bind].
  unfold nr_pdcp_new_sdu. rewrite buf_sub_all. cbn [mbind outcome_bind]. eexists _, _. split; [done|]. by exists msg.
Qed.

(** The whole of reception on a PDU of the peer. *)
Lemma recv_peer_ok tx rx count sdu :
  pdcp_peer tx rx → pdcp_cfg rx → pdcp_secured rx → entity_suspended rx = false →
  sdap_rx_size rx < zlen sdu → 
  rcvd_count rx (Z.land count (sn_max rx)) = count →
  let pdu := pdcp_pdu tx count sdu in
  ∃ buf e1 e', nr_pdcp_entity_recv_pdu rx pdu (zlen pdu) = Ok (buf, e') ∧ pdcp_quiet rx e1 ∧
    (if (count <? rx_deliv rx) || nr_pdcp_sdu_in_list (rx_list rx) count then pdcp_quiet rx e'
     else ∃ msg, e' = store_and_deliver e1 (mk_pdcp_sdu count sdu (zlen sdu) msg) (zlen pdu) (header_size rx)).
Proof.
  intros P Cf S Hsus Hsd Hc pdu. set (sn := Z.land count (sn_max rx)) in *.
  assert (∃ r, pdu = pdcp_header rx sn ++ r ∧ sdap_rx_size rx + integrity_size rx < zlen r) as (r & Hp & Hr).
  { unfold pdu. rewrite (peer_pdu tx rx) by done. cbv zeta. eexists; split; [done|].
    rewrite zlen_app, apply_cipher_len, zlen_app, mac_of_len by done.
    unfold zlen, sdap_rx_size in *. rewrite length_take, length_drop. destruct (has_sdap_rx rx); lia. }
  assert (0 <= sn <= sn_max rx) as Hsn.
  { unfold sn. rewrite land_max by done. rewrite (pc_max _ Cf).
    pose proof (Z.mod_pos_bound count (2 ^ sn_size rx)). pose proof (Z.pow_pos_nonneg 2 (sn_size rx)).
    destruct (pc_size _ Cf); lia. }
  unfold nr_pdcp_entity_recv_pdu. rewrite Hsus.
  pose proof (header_size_range rx). pose proof (integrity_size_range rx).
  assert (0 <= sdap_rx_size rx) by (unfold sdap_rx_size; destruct (has_sdap_rx rx); lia).
  assert (zlen pdu = header_size rx + zlen r) as Hl by (rewrite Hp, zlen_app, zlen_pdcp_header; done).
  rewrite (proj2 (Z.ltb_ge _ _)) by lia.
  destruct (header_dc rx sn r) as (b0 & Hb0 & Hdc). rewrite <- Hp in Hb0. rewrite Hb0.
  cbn [mbind outcome_bind]. rewrite Hdc. cbn [mbind outcome_bind].
  assert (read_sn rx pdu = Ok (sn, header_size rx)) as Hrd by (rewrite Hp; by apply read_sn_header).
  change (read_sn (on_pstats _ rx) pdu) with (read_sn rx pdu). rewrite Hrd. cbn [mbind outcome_bind].
  set (e1 := on_pstats _ (on_pstats _ rx)).
  change (if has_sdap_rx (on_pstats _ rx) then 1 else 0) with (sdap_rx_size e1).
  rewrite (proj2 (Z.ltb_ge _ _)).
  2: { change (header_size rx + sdap_rx_size rx + integrity_size rx + 1 <= zlen pdu). lia. }
  destruct (process_peer_pdu tx e1 count sdu) as (buf & e' & Hpp & He').
  { destruct P. by split. }
  { destruct Cf. by split. }
  { destruct S. by split. }
  { done. }
  { exact Hc. }
  exists buf, e1, e'. split; [exact Hpp|]. split; [by destruct rx|].
  change (rx_deliv e1) with (rx_deliv rx) in He'. change (rx_list e1) with (rx_list rx) in He'.
  destruct (_ || _); [|done]. rewrite He'. by destruct rx.
Qed.

(** Two entities made with the same parameters are peers. *)
Lemma set_security_pair a b p a' b' :
  pdcp_peer a b → nr_pdcp_entity_set_security a p = Ok a' → nr_pdcp_entity_set_security b p = Ok b' →
  integrity_key (security_keys_and_algos a) = integrity_key (security_keys_and_algos b) →
  pdcp_peer a' b'.
Proof.
  intros [H1 H2 H3 H4 H5 H6 H7 H8 H9 H10 H11] Ha Hb Hk.
  unfold nr_pdcp_entity_set_security, set_integrity, set_ciphering in *.
  apply bind_ok_inv in Ha as (a1 & Ha1 & Ha). apply bind_ok_inv in Hb as (b1 & Hb1 & Hb).
  destr_bool; try discriminate Ha1; try discriminate Hb1; try discriminate Ha; try discriminate Hb;
    injection Ha1 as <-; injection Hb1 as <-; injection Ha as <-; injection Hb as <-;
    split; cbn; congruence.
Qed.

Lemma new_pdcp_peer ty gnb rb ps1 ps2 rx1 rx2 sdap sn tr1 tr2 d1 d2 p tx rx :
  new_nr_pdcp_entity ty gnb rb ps1 rx1 sdap sn tr1 d1 p = Ok tx →
  new_nr_pdcp_entity ty (negb gnb) rb ps2 sdap rx2 sn tr2 d2 p = Ok rx → pdcp_peer tx rx.
Proof.
  intros Ht Hr. eapply set_security_pair; [|exact Ht|exact Hr|done].
  split; try done. cbn. by destruct gnb.
Qed.

(** ** A bearer: a sender, a receiver and what was sent *)

Record bearer := mk_bearer {
  b_tx : nr_pdcp_entity_t;
  b_rx : nr_pdcp_entity_t;
  b_sent : list bytes;        (* the SDUs given to the sender *)
  b_pdus : list bytes;        (* the PDUs it produced *)
}.

(** The sender takes an SDU; any PDU produced so far reaches the receiver, as often
    and in whatever order, while its COUNT is within half the SN space of [rx_deliv];
    the receiver's clock ticks. *)
Inductive bearer_step : bearer → bearer → Prop :=
| bearer_send tx rx sent pdus sdu id pdu_buffer n buf tx' :
    Z.of_nat (sdap_tx_size tx) < zlen sdu →
    nr_max_pdcp_pdu_size (zlen sdu) <= zlen pdu_buffer →
    tx_next tx < 2 ^ 32 - 1 →
    nr_pdcp_entity_process_sdu tx sdu (zlen sdu) id pdu_buffer (zlen pdu_buffer) = Ok (n, buf, tx') →
    bearer_step (mk_bearer tx rx sent pdus)
      (mk_bearer tx' rx (sent ++ [sdu]) (pdus ++ [take (Z.to_nat n) buf]))
| bearer_recv tx rx sent pdus i pdu buf rx' :
    pdus !! i = Some pdu →
    rx_deliv rx - window_size rx <= Z.of_nat i < rx_deliv rx + window_size rx →
    nr_pdcp_entity_recv_pdu rx pdu (zlen pdu) = Ok (buf, rx') →
    bearer_step (mk_bearer tx rx sent pdus) (mk_bearer tx rx' sent pdus)
| bearer_time tx rx sent pdus now :
    bearer_step (mk_bearer tx rx sent pdus) (mk_bearer tx (nr_pdcp_entity_set_time rx now) sent pdus).

(** An SDU at the receiver is the one that was sent with its COUNT. *)
Definition sdu_genuine (sent : list bytes) (s : nr_pdcp_sdu_t) : Prop :=
  0 <= ps_count s ∧ sent !! Z.to_nat (ps_count s) = Some (ps_buffer s).

Record bearer_inv (b : bearer) : Prop := {
  bi_peer : pdcp_peer (b_tx b) (b_rx b);
  bi_tx : pdcp_secured (b_tx b);
  bi_rx : pdcp_rx_inv (b_rx b);
  bi_active : entity_suspended (b_tx b) = false ∧ entity_suspended (b_rx b) = false;
  bi_next : tx_next (b_tx b) = zlen (b_sent b) ∧ zlen (b_sent b) < 2 ^ 32;
  bi_pdus : ∀ i pdu, b_pdus b !! i = Some pdu →
    ∃ sdu, b_sent b !! i = Some sdu ∧ sdap_rx_size (b_rx b) < zlen sdu ∧
      pdu = pdcp_pdu (b_tx b) (Z.of_nat i) sdu;
  bi_len : length (b_pdus b) = length (b_sent b);
  bi_genuine : ∀ s, s ∈ delivered_sdus (b_rx b) ++ rx_list (b_rx b) → sdu_genuine (b_sent b) s;
}.

Lemma peer_conf tx rx rx' : pdcp_conf rx' = pdcp_conf rx → pdcp_peer tx rx → pdcp_peer tx rx'.
Proof.
  intros F [H1 H2 H3 H4 H5 H6 H7 H8 H9 H10 H11]. unfold pdcp_conf in F.
  split; congruence.
Qed.

Lemma sdu_genuine_app sent sdu s : sdu_genuine sent s → sdu_genuine (sent ++ [sdu]) s.
Proof. intros [H0 H]. split; [done|]. by apply lookup_app_l_Some. Qed.

Lemma bearer_send_inv tx rx sent pdus sdu id pdu_buffer n buf tx' :
  bearer_inv (mk_bearer tx rx sent pdus) →
  Z.of_nat (sdap_tx_size tx) < zlen sdu → nr_max_pdcp_pdu_size (zlen sdu) <= zlen pdu_buffer →
  tx_next tx < 2 ^ 32 - 1 →
  nr_pdcp_entity_process_sdu tx sdu (zlen sdu) id pdu_buffer (zlen pdu_buffer) = Ok (n, buf, tx') →
  bearer_inv (mk_bearer tx' rx (sent ++ [sdu]) (pdus ++ [take (Z.to_nat n) buf])).
Proof.
  intros [B1 B2 B3 [B4 B4'] [B5 B5'] B6 B7 B8] Hsd Hmax Hn Hp. cbn in *.
  destruct (process_sdu_ok tx sdu id pdu_buffer B2 B4 Hsd Hmax) as (rest & tx2 & Hp2 & Htx).
  rewrite Hp in Hp2. injection Hp2 as -> -> <-.
  assert (∀ c d, pdcp_pdu tx' c d = pdcp_pdu tx c d) as Hpdu by (intros; by rewrite Htx).
  pose proof (zlen_nonneg sent).
  split; cbn; rewrite 1?Htx.
  - destruct B1. by split.
  - destruct B2. by split.
  - done.
  - done.
  - rewrite zlen_app. change (zlen [sdu]) with 1. cbn. rewrite u32_small by lia. lia.
  - intros i pdu. rewrite lookup_app_Some. intros [Hi|[Hi Hs]].
    + destruct (B6 i pdu Hi) as (d & Hd & Hl & ->). exists d. split; [by apply lookup_app_l_Some|done].
    + apply list_lookup_singleton_Some in Hs as [Hi0 <-].
      assert (i = length sent) as -> by lia. exists sdu. split_and!.
      * by rewrite lookup_app_r, Nat.sub_diag by lia.
      * unfold sdap_tx_size in Hsd. rewrite (pr_sdap _ _ B1) in Hsd. unfold sdap_rx_size.
        destruct (has_sdap_rx rx); lia.
      * unfold zlen at 1. rewrite Nat2Z.id, take_app_length. by rewrite B5.
  - rewrite !length_app. cbn. lia.
  - intros s Hs. by apply sdu_genuine_app, B8.
Qed.

(** What a PDU of the channel does to the receiver. *)
Lemma bearer_recv_progress b i pdu buf rx' :
  bearer_inv b → b_pdus b !! i = Some pdu →
  rx_deliv (b_rx b) - window_size (b_rx b) <= Z.of_nat i < rx_deliv (b_rx b) + window_size (b_rx b) →
  nr_pdcp_entity_recv_pdu (b_rx b) pdu (zlen pdu) = Ok (buf, rx') →
  ∃ new d, rx_progress (b_rx b) rx' new d ∧ (∀ s, s ∈ new → sdu_genuine (b_sent b) s) ∧
    (Z.of_nat i = rx_deliv (b_rx b) → rx_deliv (b_rx b) < rx_deliv rx').
Proof.
  intros [B1 B2 B3 [B4 B4'] [B5 B5'] B6 B7 B8] Hi Hw Hr. destruct (B6 i pdu Hi) as (sdu & Hs & Hl & ->).
  pose proof (lookup_lt_Some _ _ _ Hs) as Hlt. pose proof (pi_wf _ B3) as W.
  assert (Z.of_nat i < zlen (b_sent b)) by (unfold zlen; lia).
  assert (0 <= rx_deliv (b_rx b) < 2 ^ 32) by (destruct W; lia).
  pose proof (rcvd_count_ok (b_rx b) (Z.of_nat i) (pi_cfg _ B3) ltac:(lia) ltac:(lia) Hw) as Hc.
  destruct (recv_peer_ok (b_tx b) (b_rx b) (Z.of_nat i) sdu B1 (pi_cfg _ B3) (pi_secured _ B3) B4' Hl Hc)
    as (buf' & e1 & e' & Hr' & Hq & He). rewrite Hr in Hr'. injection Hr' as <- <-.
  destruct ((Z.of_nat i <? rx_deliv (b_rx b)) || nr_pdcp_sdu_in_list (rx_list (b_rx b)) (Z.of_nat i)) eqn:Hd.
  - exists [], []. split_and!; [by apply rx_progress_refl|intros s Hs'; by apply not_elem_of_nil in Hs'|].
    intros E. rewrite E, Z.ltb_irrefl in Hd. cbn [orb] in Hd. apply sdu_in_list_spec in Hd as (s & Hs' & Hcs).
    pose proof (pw_range _ W s Hs'). lia.
  - apply orb_false_iff in Hd as [Hd1%Z.ltb_ge Hd2]. destruct He as (msg & ->).
    set (x := mk_pdcp_sdu (Z.of_nat i) sdu (zlen sdu) msg).
    destruct (store_and_deliver_ok e1 x (zlen (pdcp_pdu (b_tx b) (Z.of_nat i) sdu)) (header_size (b_rx b)))
      as ((d & P) & _ & _ & Hadv).
    { eapply pdcp_rx_wf_ext; [|exact W]. by rewrite Hq. }
    { rewrite Hq. cbn. lia. }
    { by rewrite Hq. }
    exists [x], d. split_and!.
    + by eapply rx_progress_quiet.
    + intros s ->%list_elem_of_singleton. split; [cbn; lia|]. cbn. by rewrite Nat2Z.id.
    + intros E. assert (rx_deliv e1 = rx_deliv (b_rx b)) as E1 by (by rewrite Hq).
      rewrite E1 in Hadv. by apply Hadv.
Qed.

Lemma bearer_progress_inv b rx' new d :
  bearer_inv b → rx_progress (b_rx b) rx' new d → (∀ s, s ∈ new → sdu_genuine (b_sent b) s) →
  bearer_inv (mk_bearer (b_tx b) rx' (b_sent b) (b_pdus b)).
Proof.
  intros [B1 B2 B3 [B4 B4'] [B5 B5'] B6 B7 B8] P Hn. pose proof (rp_conf _ _ _ _ P) as F.
  assert (entity_suspended rx' = entity_suspended (b_rx b) ∧ has_sdap_rx rx' = has_sdap_rx (b_rx b)) as [F1 F2]
    by (unfold pdcp_conf in F; split; congruence).
  split; cbn; try done.
  - by eapply peer_conf.
  - by eapply rx_progress_inv.
  - by rewrite F1.
  - unfold sdap_rx_size. rewrite F2. exact B6.
  - intros s. rewrite (rp_delivered _ _ _ _ P), <- app_assoc, (rp_perm _ _ _ _ P), !elem_of_app.
    intros [Hs|[Hs|Hs]]; [apply B8, elem_of_app; by left|by apply Hn|apply B8, elem_of_app; by right].
Qed.

Lemma bearer_step_inv b b' : bearer_step b b' → bearer_inv b → bearer_inv b'.
Proof.
  intros [tx rx sent pdus sdu id pdu_buffer n buf tx' H1 H2 H3 H4
         |tx rx sent pdus i pdu buf rx' Hi Hw Hr|tx rx sent pdus now] B.
  - by eapply bearer_send_inv.
  - destruct (bearer_recv_progress _ i pdu buf rx' B Hi Hw Hr) as (new & d & P & Hn & _).
    exact (bearer_progress_inv _ _ _ _ B P Hn).
  - pose proof (pdcp_rx_inv_time _ now (bi_rx _ B)) as I.
    destruct (check_t_reordering_ok (rx <| t_current := now |>) (pi_wf _ I)) as ((d & P) & _).
    assert (bearer_inv (mk_bearer tx (rx <| t_current := now |>) sent pdus)) as B'.
    { destruct B as [B1 B2 B3 B4 B5 B6 B7 B8]. split; try done. by eapply peer_conf; [|exact B1]. }
    refine (bearer_progress_inv _ _ _ _ B' P _). intros s Hs. by apply not_elem_of_nil in Hs.
Qed.

(** The two ends of a bearer just set up: the entities are made with the same
    parameters, one at each end. *)
Definition bearer_start (b : bearer) : Prop :=
  ∃ ty gnb rb ps1 ps2 rx1 tx2 sdap sn tr1 tr2 d1 d2 p,
    0 < rb < 32 ∧ (sn = 12 ∨ sn = 18) ∧
    new_nr_pdcp_entity ty gnb rb ps1 rx1 sdap sn tr1 d1 p = Ok (b_tx b) ∧
    new_nr_pdcp_entity ty (negb gnb) rb ps2 sdap tx2 sn tr2 d2 p = Ok (b_rx b) ∧
    b_sent b = [] ∧ b_pdus b = [].

Lemma bearer_start_inv b : bearer_start b → bearer_inv b.
Proof.
  intros (ty & gnb & rb & ps1 & ps2 & rx1 & tx2 & sdap & sn & tr1 & tr2 & d1 & d2 & p & Hrb & Hsn & Ht & Hr & Es & Ep).
  pose proof (new_pdcp_peer _ _ _ _ _ _ _ _ _ _ _ _ _ _ _ _ Ht Hr) as P.
  assert (tx_next (b_tx b) = 0) as Hx by (apply set_security_frame in Ht; by rewrite Ht).
  apply new_pdcp_inv in Ht as (I1 & _ & _ & _ & S1); [|done|done].
  apply new_pdcp_inv in Hr as (I2 & L2 & D2 & _ & S2); [|done|done].
  split; rewrite ?Es, ?Ep; try done.
  - apply I1.
  - rewrite D2, L2. intros s Hs. by apply not_elem_of_nil in Hs.
Qed.

(** C1: over a channel that may lose, repeat and reorder PDUs (within half the SN
    space), with any ciphering and integrity algorithm and either SN size, a PDCP bearer
    delivers only SDUs that were sent, each with the bytes it was sent with, in the order
    they were sent and none twice. *)
Theorem pdcp_bearer_delivers b0 b :
  bearer_start b0 → rtc bearer_step b0 b →
  StronglySorted Z.lt (ps_count <$> delivered_sdus (b_rx b)) ∧
  ∀ s, s ∈ delivered_sdus (b_rx b) → sdu_genuine (b_sent b) s.
Proof.
  intros H0 Hr. assert (bearer_inv b) as B.
  { apply bearer_start_inv in H0. induction Hr as [|x y z Hs _ IH]; [done|]. by apply IH, (bearer_step_inv _ _ Hs). }
  split.
  - pose proof (pi_order _ (bi_rx _ B)) as Ho. unfold count_sorted in Ho.
    induction Ho as [|x l _ IH Hx]; cbn; [constructor|]. constructor; [done|]. by apply Forall_fmap.
  - intros s Hs. apply (bi_genuine _ B), elem_of_app. by left.
Qed.

(** ** A channel that loses nothing *)

(** Each SDU is processed by the sender, and the PDU given to the receiver. *)
Fixpoint transfer (tx rx : nr_pdcp_entity_t) (sdus : list bytes)
  : outcome (nr_pdcp_entity_t * nr_pdcp_entity_t) :=
  match sdus with
  | [] => Ok (tx, rx)
  | sdu :: sdus =>
      let max := nr_max_pdcp_pdu_size (zlen sdu) in
      '(n, buf, tx) ← nr_pdcp_entity_process_sdu tx sdu (zlen sdu) 0 (replicate (Z.to_nat max) 0) max;
      pdu ← buf_sub buf 0 n;
      '(_, rx) ← nr_pdcp_entity_recv_pdu rx pdu n;
      transfer tx rx sdus
  end.

(** The receiver has everything the sender has sent. *)
Record in_sync (b : bearer) : Prop := {
  sy_inv : bearer_inv b;
  sy_list : rx_list (b_rx b) = [];
  sy_deliv : rx_deliv (b_rx b) = zlen (b_sent b) ∧ rx_next (b_rx b) = zlen (b_sent b);
  sy_data : ps_buffer <$> delivered_sdus (b_rx b) = b_sent b;
}.

Lemma transfer_one b sdu :
  in_sync b → Z.of_nat (sdap_tx_size (b_tx b)) < zlen sdu → zlen (b_sent b) < 2 ^ 32 - 1 →
  ∃ n buf tx' buf' rx' rest,
    nr_pdcp_entity_process_sdu (b_tx b) sdu (zlen sdu) 0
      (replicate (Z.to_nat (nr_max_pdcp_pdu_size (zlen sdu))) 0) (nr_max_pdcp_pdu_size (zlen sdu))
      = Ok (n, buf ++ rest, tx') ∧ n = zlen buf ∧
    nr_pdcp_entity_recv_pdu (b_rx b) buf n = Ok (buf', rx') ∧
    in_sync (mk_bearer tx' rx' (b_sent b ++ [sdu]) (b_pdus b ++ [buf])) ∧
    sdap_tx_size tx' = sdap_tx_size (b_tx b).
Proof.
  intros [B L0 [D1 D2] Hd] Hsd Hn. set (max := nr_max_pdcp_pdu_size (zlen sdu)).
  assert (zlen (replicate (Z.to_nat max) 0) = max) as Hm.
  { unfold zlen, max, nr_max_pdcp_pdu_size, LONG_PDCP_HEADER_SIZE, PDCP_INTEGRITY_SIZE.
    rewrite length_replicate. pose proof (zlen_nonneg sdu). unfold zlen in *. lia. }
  destruct (process_sdu_ok (b_tx b) sdu 0 (replicate (Z.to_nat max) 0)) as (rest & tx' & Hp & Htx);
    [apply B|apply B|done|lia|]. rewrite Hm in Hp.
  destruct (bi_next _ B) as [Hx _]. set (pdu := pdcp_pdu (b_tx b) (tx_next (b_tx b)) sdu) in *.
  assert (bearer_inv (mk_bearer tx' (b_rx b) (b_sent b ++ [sdu]) (b_pdus b ++ [pdu]))) as B1.
  { replace pdu with (take (Z.to_nat (zlen pdu)) (pdu ++ rest))
      by (unfold zlen; by rewrite Nat2Z.id, take_app_length).
    eapply (bearer_send_inv (b_tx b)); [by destruct b|done| |lia|].
    - rewrite Hm. done.
    - rewrite Hm. exact Hp. }
  pose proof (bi_rx _ B) as I.
  assert (rcvd_count (b_rx b) (Z.land (tx_next (b_tx b)) (sn_max (b_rx b))) = tx_next (b_tx b)) as Hc.
  { pose proof (pc_win _ (pi_cfg _ I)). pose proof (Z.pow_pos_nonneg 2 (sn_size (b_rx b))).
    pose proof (zlen_nonneg (b_sent b)).
    destruct (pc_size _ (pi_cfg _ I)); apply rcvd_count_ok; try apply I; lia. }
  destruct (recv_peer_ok (b_tx b) (b_rx b) (tx_next (b_tx b)) sdu) as (buf' & e1 & e' & Hr & Hq & He);
    try apply B; try apply I; try done.
  { unfold sdap_tx_size in Hsd. rewrite (pr_sdap _ _ (bi_peer _ B)) in Hsd. unfold sdap_rx_size.
    destruct (has_sdap_rx (b_rx b)); lia. }
  fold pdu in Hr, He. rewrite L0, (proj2 (Z.ltb_ge _ _)) in He by lia. cbn [orb nr_pdcp_sdu_in_list] in He.
  destruct He as (msg & He). set (x := mk_pdcp_sdu (tx_next (b_tx b)) sdu (zlen sdu) msg) in *.
  assert (rx_list e1 = [] ∧ rx_deliv e1 = zlen (b_sent b) ∧ rx_next e1 = zlen (b_sent b) ∧
    delivered_sdus e1 = delivered_sdus (b_rx b)) as (L1 & D3 & D4 & D5) by (rewrite Hq; done).
  pose proof (zlen_nonneg (b_sent b)).
  destruct (store_and_deliver_next e1 x (zlen pdu) (header_size (b_rx b))) as (L2 & D6 & D7 & D8 & _);
    [done|cbn; lia|lia|lia|].
  exists (zlen pdu), pdu, tx', buf', e', rest. split_and!; try done; [|by rewrite Htx].
  assert (zlen (b_sent b ++ [sdu]) = zlen (b_sent b) + 1) as Hz by (by rewrite zlen_app).
  split; cbn [b_rx b_sent]; rewrite ?Hz, ?He, ?L2, ?D6, ?D7, ?D8, ?D5; try lia; [|done|].
  - destruct (bearer_recv_progress _ (length (b_pdus b)) pdu buf' e' B1) as (new & d & P & Hg & _).
    + cbn. by rewrite lookup_app_r, Nat.sub_diag by lia.
    + cbn. rewrite (bi_len _ B). fold (zlen (b_sent b)). rewrite D1.
      pose proof (pc_win _ (pi_cfg _ I)). pose proof (Z.pow_pos_nonneg 2 (sn_size (b_rx b))).
      destruct (pc_size _ (pi_cfg _ I)); lia.
    + exact Hr.
    + rewrite <- He. exact (bearer_progress_inv _ _ _ _ B1 P Hg).
  - by rewrite fmap_app, Hd.
Qed.

Lemma bearer_start_sync b : bearer_start b → in_sync b.
Proof.
  intros H. pose proof (bearer_start_inv b H) as B.
  destruct H as (? & ? & ? & ? & ? & ? & ? & ? & ? & ? & ? & ? & ? & ? & Hrb & Hsn & _ & Hr & Es & Ep).
  pose proof Hr as Hf. apply set_security_frame in Hf.
  apply new_pdcp_inv in Hr as (_ & L2 & D2 & _); [|done|done].
  split; [done|done| |by rewrite D2, Es]. rewrite Es. by rewrite Hf.
Qed.

Lemma transfer_ok sdus b :
  in_sync b → zlen (b_sent b) + zlen sdus < 2 ^ 32 - 1 →
  Forall (λ sdu, Z.of_nat (sdap_tx_size (b_tx b)) < zlen sdu) sdus →
  returns (transfer (b_tx b) (b_rx b) sdus) (λ '(tx, rx),
    ps_buffer <$> delivered_sdus rx = b_sent b ++ sdus ∧ rx_list rx = [] ∧
    tx_next tx = zlen (b_sent b) + zlen sdus).
Proof.
  revert b. induction sdus as [|sdu sdus IH]; intros b Sy Hlen Hsz; cbn [transfer].
  { apply returns_ok. rewrite app_nil_r, zlen_nil, Z.add_0_r. destruct Sy as [B ? ? ?]. split_and!; try done. apply B. }
  apply Forall_cons in Hsz as [Hsd Hsz]. rewrite zlen_cons in Hlen. pose proof (zlen_nonneg sdus).
  destruct (transfer_one b sdu Sy Hsd ltac:(lia)) as (n & buf & tx' & buf' & rx' & rest & -> & -> & Hr & Sy' & Hst).
  cbn [mbind outcome_bind]. rewrite buf_sub_prefix. cbn [mbind outcome_bind]. rewrite Hr. cbn [mbind outcome_bind].
  specialize (IH _ Sy'). cbn [b_tx b_rx b_sent] in IH. rewrite Hst in IH.
  assert (zlen (b_sent b ++ [sdu]) = zlen (b_sent b) + 1) as Hz by (by rewrite zlen_app). rewrite Hz in IH.
  eapply returns_mono; [apply IH; [lia|done]|]. intros [tx rx] (H1 & H2 & H3).
  rewrite <- app_assoc in H1. rewrite zlen_cons. split_and!; [done|done|lia].
Qed.

(** C20: when every PDU reaches the receiver in order, it delivers exactly the SDUs that
    were sent, in order and byte for byte, and keeps nothing back; no call on either side
    fails. *)
Theorem pdcp_transfer_exact b sdus :
  bearer_start b → zlen sdus < 2 ^ 32 - 1 →
  Forall (λ sdu, Z.of_nat (sdap_tx_size (b_tx b)) < zlen sdu) sdus →
  returns (transfer (b_tx b) (b_rx b) sdus) (λ '(tx, rx),
    ps_buffer <$> delivered_sdus rx = sdus ∧ rx_list rx = [] ∧ tx_next tx = zlen sdus).
Proof.
  intros H0 Hl Hs. pose proof (bearer_start_sync b H0) as Sy.
  assert (b_sent b = []) as Es by (destruct H0 as (? & ? & ? & ? & ? & ? & ? & ? & ? & ? & ? & ? & ? & ? & H0); apply H0).
  pose proof (transfer_ok sdus b Sy) as T. rewrite Es, zlen_nil in T. apply T; [lia|done].
Qed.

(** what [nr_pdcp_entity_process_sdu] writes, [nr_pdcp_entity_recv_pdu] of the peer
    reads: header, COUNT, MAC and data come back, the SDU is stored or delivered with its
    COUNT and its bytes, unless it is old or a duplicate; in that case only counters
    change. *)
Theorem pdcp_roundtrip tx rx sdu id pdu_buffer :
  pdcp_peer tx rx → pdcp_secured tx → pdcp_rx_inv rx →
  entity_suspended tx = false → entity_suspended rx = false →
  Z.of_nat (sdap_tx_size tx) < zlen sdu → nr_max_pdcp_pdu_size (zlen sdu) <= zlen pdu_buffer →
  0 <= tx_next tx < 2 ^ 32 - 1 →
  rx_deliv rx - window_size rx <= tx_next tx < rx_deliv rx + window_size rx →
  ∃ pdu rest tx' buf rx',
    nr_pdcp_entity_process_sdu tx sdu (zlen sdu) id pdu_buffer (zlen pdu_buffer) =
      Ok (zlen pdu, pdu ++ rest, tx') ∧
    tx_next tx' = tx_next tx + 1 ∧
    nr_pdcp_entity_recv_pdu rx pdu (zlen pdu) = Ok (buf, rx') ∧
    (if (tx_next tx <? rx_deliv rx) || nr_pdcp_sdu_in_list (rx_list rx) (tx_next tx)
     then pdcp_quiet rx rx'
     else ∃ s, s ∈ delivered_sdus rx' ++ rx_list rx' ∧ ps_count s = tx_next tx ∧ ps_buffer s = sdu).
Proof.
  intros P S I St Sr Hsd Hmax Hn Hw.
  destruct (process_sdu_ok tx sdu id pdu_buffer S St Hsd Hmax) as (rest & tx' & Hp & Htx).
  assert (rcvd_count rx (Z.land (tx_next tx) (sn_max rx)) = tx_next tx) as Hc.
  { apply rcvd_count_ok; [apply I| |lia|lia]. destruct (pi_wf _ I). lia. }
  destruct (recv_peer_ok tx rx (tx_next tx) sdu) as (buf & e1 & rx' & Hr & Hq & He); try done; try apply I.
  { unfold sdap_tx_size in Hsd. rewrite (pr_sdap _ _ P) in Hsd. unfold sdap_rx_size. destruct (has_sdap_rx rx); lia. }
  eexists _, rest, tx', buf, rx'. split; [exact Hp|]. split; [rewrite Htx; cbn; by rewrite u32_small by lia|].
  split; [exact Hr|]. destruct (_ || _) eqn:Hd; [done|]. destruct He as (msg & ->).
  apply orb_false_iff in Hd as [Hd1%Z.ltb_ge Hd2].
  set (x := mk_pdcp_sdu (tx_next tx) sdu (zlen sdu) msg). exists x. split; [|done].
  match goal with |- context [store_and_deliver e1 x ?a ?b] =>
    destruct (store_and_deliver_ok e1 x a b) as ((d & Pr) & _) end.
  { eapply pdcp_rx_wf_ext; [|exact (pi_wf _ I)]. by rewrite Hq. }
  { rewrite Hq. cbn. lia. }
  { by rewrite Hq. }
  rewrite (rp_delivered _ _ _ _ Pr), <- app_assoc, elem_of_app. right.
  rewrite (rp_perm _ _ _ _ Pr). constructor.
Qed.

End Link.

(** ** Examples

    A ciphered and integrity protected bearer. *)

Definition fresh_bearer : bearer := mk_bearer (fresh_pdcp true true) (fresh_pdcp false true) [] [].

Lemma fresh_bearer_start : bearer_start fresh_bearer.
Proof.
  exists NR_PDCP_DRB_AM, true, 4, 10, 10, true, true, true, 12, 100, 100, 0, 0, some_keys.
  split_and!; (done || lia || apply (fresh_pdcp_new _ true)).
Qed.

(** Two SDUs are sent; the second reaches the receiver first. *)
Lemma reordered_bearer :
  ∃ b, rtc bearer_step fresh_bearer b ∧
    ps_buffer <$> delivered_sdus (b_rx b) = [[11; 12; 13]; [21; 22]].
Proof.
  eexists. split.
  - unfold fresh_bearer.
    eapply rtc_l; [apply (bearer_send _ _ _ _ [11; 12; 13] 0 (replicate 10 0)); vm_compute; (reflexivity || discriminate)|].
    eapply rtc_l; [apply (bearer_send _ _ _ _ [21; 22] 1 (replicate 10 0)); vm_compute; (reflexivity || discriminate)|].
    eapply rtc_l; [eapply (bearer_recv _ _ _ _ 1); [reflexivity|vm_compute; split; (reflexivity || discriminate)|vm_compute; reflexivity]|].
    eapply rtc_l; [eapply (bearer_recv _ _ _ _ 0); [reflexivity|vm_compute; split; (reflexivity || discriminate)|vm_compute; reflexivity]|].
    apply rtc_refl.
  - vm_compute. reflexivity.
Qed.

Lemma pdcp_bearer_delivers_witness :
  ∃ b, ps_buffer <$> delivered_sdus (b_rx b) = [[11; 12; 13]; [21; 22]] ∧
    StronglySorted Z.lt (ps_count <$> delivered_sdus (b_rx b)).
Proof.
  destruct reordered_bearer as (b & Hr & Hd). exists b. split; [exact Hd|].
  exact (proj1 (pdcp_bearer_delivers fresh_bearer b fresh_bearer_start Hr)).
Defined.

Lemma pdcp_transfer_exact_witness :
  returns (transfer (fresh_pdcp true true) (fresh_pdcp false true) [[1; 2]; [3; 4; 5]]) (λ '(tx, rx),
    ps_buffer <$> delivered_sdus rx = [[1; 2]; [3; 4; 5]] ∧ rx_list rx = [] ∧ tx_next tx = 2).
Proof.
  apply (pdcp_transfer_exact fresh_bearer [[1; 2]; [3; 4; 5]]).
  - exact fresh_bearer_start.
  - vm_compute. reflexivity.
  - repeat constructor.
Defined.

Lemma pdcp_roundtrip_witness :
  ∃ pdu rest tx' buf rx',
    nr_pdcp_entity_process_sdu (fresh_pdcp true true) [1; 2; 3] 3 0 (replicate 10 0) 10 =
      Ok (zlen pdu, pdu ++ rest, tx') ∧
    nr_pdcp_entity_recv_pdu (fresh_pdcp false true) pdu (zlen pdu) = Ok (buf, rx') ∧
    ∃ s, s ∈ delivered_sdus rx' ++ rx_list rx' ∧ ps_buffer s = [1; 2; 3].
Proof.
  destruct (pdcp_roundtrip (fresh_pdcp true true) (fresh_pdcp false true) [1; 2; 3] 0 (replicate 10 0))
    as (pdu & rest & tx' & buf & rx' & H1 & _ & H2 & s & Hs & _ & Hb).
  - apply (bi_peer _ (bearer_start_inv _ fresh_bearer_start)).
  - apply (bi_tx _ (bearer_start_inv _ fresh_bearer_start)).
  - apply (bi_rx _ (bearer_start_inv _ fresh_bearer_start)).
  - reflexivity.
  - reflexivity.
  - vm_compute. reflexivity.
  - vm_compute. discriminate.
  - vm_compute. split; (reflexivity || discriminate).
  - vm_compute. split; (reflexivity || discriminate).
  - exists pdu, rest, tx', buf, rx'. split; [exact H1|]. split; [exact H2|]. exists s. split; [exact Hs|exact Hb].
Defined.

(** ** COUNT as SN and HFN *)

Lemma compose_count_val c n :
  0 <= n <= 32 → 0 <= c_sn c < 2 ^ n → 0 <= c_hfn c < 2 ^ (32 - n) →
  compose_count c n = c_hfn c * 2 ^ n + c_sn c ∧ compose_count c n < 2 ^ 32.
Proof.
  intros Hn Hs Hh. assert (2 ^ 32 = 2 ^ (32 - n) * 2 ^ n) as E by (rewrite <- Z.pow_add_r by lia; f_equal; lia).
  assert (0 < 2 ^ n) by (apply Z.pow_pos_nonneg; lia).
  unfold compose_count. rewrite Z.shiftl_1_l.
  replace (2 ^ n - 1) with (Z.ones n) by (rewrite Z.ones_equiv; lia). rewrite Z.land_ones, (Z.mod_small (c_sn c)) by lia.
  rewrite u32_small.
  - rewrite lor_shiftl_add by lia. split; [done|]. rewrite E. nia.
  - rewrite Z.shiftl_mul_pow2 by lia. rewrite E. nia.
Qed.

Lemma split_count e x n :
  pdcp_cfg e → n = sn_size e → 0 <= c_sn x < 2 ^ n →
  Z.land (c_hfn x * 2 ^ n + c_sn x) (sn_max e) = c_sn x ∧
  Z.shiftr (c_hfn x * 2 ^ n + c_sn x) (sn_size e) = c_hfn x.
Proof.
  intros C -> Hs. assert (0 <= sn_size e) by (destruct (pc_size _ C); lia).
  assert (0 < 2 ^ sn_size e) by (apply Z.pow_pos_nonneg; lia).
  rewrite land_max, Z.shiftr_div_pow2 by done. rewrite Z.add_comm, Z.mod_add, Z.div_add by lia.
  rewrite Z.mod_small, Z.div_small by lia. lia.
Qed.

(** The COUNT given to an entity is the COUNT it reports, for both directions, for
    every SN and HFN that fit in 32 bits; the receiving side expects the COUNT itself
    next. *)
Theorem pdcp_count_set_get e c :
  pdcp_cfg e → 0 <= c_sn c < 2 ^ sn_size e → 0 <= c_hfn c < 2 ^ (32 - sn_size e) →
  nr_pdcp_entity_get_count_dl (nr_pdcp_entity_set_count_dl e c (sn_size e)) = c ∧
  nr_pdcp_entity_get_count_ul (nr_pdcp_entity_set_count_ul e c (sn_size e)) = c ∧
  rx_deliv (nr_pdcp_entity_set_count_dl e c (sn_size e)) = c_hfn c * 2 ^ sn_size e + c_sn c.
Proof.
  intros C Hs Hh.
  destruct (compose_count_val c (sn_size e)) as [E _]; [destruct (pc_size _ C); lia|done|done|].
  destruct (split_count e c (sn_size e) C eq_refl Hs) as [E1 E2].
  unfold nr_pdcp_entity_get_count_dl, nr_pdcp_entity_get_count_ul, nr_pdcp_entity_set_count_dl,
    nr_pdcp_entity_set_count_ul.
  cbn [set_field set_p_rx_next set_p_rx_deliv set_p_tx_next rx_deliv tx_next sn_max sn_size].
  rewrite E, E1, E2. split_and!; [by destruct c..|done].
Qed.

Lemma pdcp_count_set_get_witness :
  nr_pdcp_entity_get_count_dl (nr_pdcp_entity_set_count_dl (fresh_pdcp true false) (mk_count 4095 3) 12)
    = mk_count 4095 3.
Proof.
  refine (proj1 (pdcp_count_set_get (fresh_pdcp true false) (mk_count 4095 3) _ _ _)).
  - split; vm_compute; auto.
  - vm_compute. split; (reflexivity || discriminate).
  - vm_compute. split; (reflexivity || discriminate).
Defined.

(** ** Defects *)

(** A PDU of one byte is read beyond its end: the SN is taken from the second byte
    before the size is checked against the header. *)
Theorem pdcp_short_pdu_read :
  nr_pdcp_entity_recv_pdu (fresh_pdcp true false) [128] 1 = Undef.
Proof. reflexivity. Qed.

(** The COUNT that a PDU more than half the SN space ahead gets at HFN 0. *)
Lemma rcvd_count_wraps e sn :
  pdcp_cfg e → 0 <= rx_deliv e < 2 ^ sn_size e → rx_deliv e + window_size e <= sn < 2 ^ sn_size e →
  rcvd_count e sn = 2 ^ 32 - 2 ^ sn_size e + sn.
Proof.
  intros Cf Hd Hs. pose proof (pc_win _ Cf). unfold rcvd_count.
  assert (0 <= sn_size e) by (destruct (pc_size _ Cf); lia).
  rewrite land_max, Z.mod_small, Z.shiftr_div_pow2, Z.div_small by done.
  rewrite (proj2 (Z.ltb_ge _ _)), (proj2 (Z.leb_le _ _)) by lia.
  replace (u32 (u32 (0 - 1) ≪ sn_size e)) with ((2 ^ (32 - sn_size e) - 1) ≪ sn_size e)
    by (destruct (pc_size _ Cf) as [-> | ->]; reflexivity).
  rewrite lor_shiftl_add by lia. rewrite Z.mul_sub_distr_r, <- Z.pow_add_r
    by (destruct (pc_size _ Cf); lia). rewrite Z.sub_add, Z.mul_1_l. done.
Qed.

(** When [rx_deliv] is in the last [2 ^ sn_size] COUNTs of all, lower SNs are old. *)
Lemma rcvd_count_old e m sn :
  pdcp_cfg e → 2 ^ 32 - 2 ^ sn_size e + m < rx_deliv e < 2 ^ 32 → 0 <= sn <= m → m < 2 ^ sn_size e →
  rcvd_count e sn < rx_deliv e.
Proof.
  intros Cf Hd Hs Hm. pose proof (pc_win _ Cf). unfold rcvd_count.
  assert (0 <= sn_size e <= 32) by (destruct (pc_size _ Cf); lia).
  set (h := 2 ^ (32 - sn_size e) - 1).
  assert (2 ^ 32 - 2 ^ sn_size e = h * 2 ^ sn_size e) as E32.
  { unfold h. rewrite Z.mul_sub_distr_r, <- Z.pow_add_r, Z.sub_add by lia. lia. }
  assert (rx_deliv e = h * 2 ^ sn_size e + (rx_deliv e - h * 2 ^ sn_size e)) as Ed by lia.
  set (r := rx_deliv e - h * 2 ^ sn_size e) in *.
  assert (rx_deliv e / 2 ^ sn_size e = h ∧ rx_deliv e mod 2 ^ sn_size e = r) as [Eh Er].
  { split; symmetry; [apply Z.div_unique with r|apply Z.mod_unique with h]; lia. }
  rewrite land_max, Z.shiftr_div_pow2, Eh, Er by (done || lia).
  rewrite (proj2 (Z.leb_gt _ _)) by lia. destruct (sn <? r - window_size e).
  - replace (u32 (u32 (h + 1) ≪ sn_size e)) with 0
      by (unfold h; destruct (pc_size _ Cf) as [-> | ->]; reflexivity). rewrite Z.lor_0_l. nia.
  - replace (u32 (h ≪ sn_size e)) with (h ≪ sn_size e)
      by (unfold h; destruct (pc_size _ Cf) as [-> | ->]; reflexivity).
    rewrite lor_shiftl_add by lia. lia.
Qed.

Section Underflow.
Context `{Cr : Crypto} `{L : !CryptoLaws Cr}.

(** C38: the HFN underflows: at HFN 0 a PDU whose SN is half the SN space or more ahead
    of RX_DELIV gets the last HFN of all, so a COUNT near 2^32. Unless that PDU is
    discarded, two expiries of t-Reordering move [rx_deliv] beyond that COUNT, and in
    every state the entity reaches from there, whatever it receives, all PDUs with an SN
    up to that one are discarded: the bearer never again takes SN 0. *)
Theorem pdcp_count_underflow e buffer size buf e1 sn hs t1 t2 :
  pdcp_rx_inv e → timer_armed e → t_current e ≠ 0 → 3 <= zlen buffer → size <= zlen buffer →
  rx_deliv e < 2 ^ sn_size e → read_sn e buffer = Ok (sn, hs) →
  rx_deliv e + window_size e <= sn < 2 ^ sn_size e - 1 →
  nr_pdcp_entity_recv_pdu e buffer size = Ok (buf, e1) →
  0 <= t_reordering_start e1 → 0 <= t_reordering e →
  t_reordering_start e1 + t_reordering e < t1 → t1 + t_reordering e < t2 < 2 ^ 64 →
  pdu_count e buffer = 2 ^ 32 - 2 ^ sn_size e + sn ∧
  (pdcp_quiet e e1 ∨
   ∀ e3, rtc pdcp_rx_step (nr_pdcp_entity_set_time (nr_pdcp_entity_set_time e1 t1) t2) e3 →
     pdu_count e buffer < rx_deliv e3 ∧
     ∀ b size' sn' hs', 3 <= zlen b → size' <= zlen b → read_sn e3 b = Ok (sn', hs') →
       0 <= sn' <= sn →
       ∃ b' e4, nr_pdcp_entity_recv_pdu e3 b size' = Ok (b', e4) ∧ pdcp_quiet e3 e4).
Proof.
  intros I A Hc Hb Hs Hd Hsn Hw Hr Hst Ht Ht1 Ht2.
  pose proof (pw_deliv _ (pi_wf _ I)) as Hd0.
  assert (pdu_count e buffer = 2 ^ 32 - 2 ^ sn_size e + sn) as Ec.
  { unfold pdu_count. rewrite Hsn. apply rcvd_count_wraps; [apply I|lia|lia]. }
  split; [done|].
  destruct (recv_pdu_progress e buffer size (pi_secured _ I) (pi_wf _ I) Hb Hs ltac:(lia))
    as (buf' & e1' & Hr' & _ & A1 & Hp). rewrite Hr in Hr'. injection Hr' as <- <-.
  destruct Hp as [[Q _]|(sdu & d & Ha & P)]; [by left|right]. intros e3 H3.
  pose proof (rx_progress_inv _ _ _ _ P I) as I1. pose proof (rp_conf _ _ _ _ P) as F.
  set (e2 := nr_pdcp_entity_set_time (nr_pdcp_entity_set_time e1 t1) t2) in *.
  destruct (pdcp_rx_reach e1 e2) as (I2 & M2 & F2);
    [eapply rtc_l; [apply step_time|]; eapply rtc_once, step_time|done|].
  assert (ps_count sdu < rx_deliv e2) as Hlt.
  { assert (sdu ∈ d ++ rx_list e1) as [Hin|Hin]%elem_of_app
      by (rewrite (rp_perm _ _ _ _ P); apply list_elem_of_here).
    - pose proof (rp_range _ _ _ _ P _ Hin). lia.
    - assert (t_reordering e1 = t_reordering e) as Etr by (unfold pdcp_conf in F; congruence).
      apply (pi_below _ I2). apply (two_expiries e1); rewrite ?Etr; auto. }
  rewrite (ac_count _ _ _ _ _ Ha) in Hlt. destruct (pdcp_rx_reach _ _ H3 I2) as (I3 & M3 & F3).
  split; [lia|]. intros b size' sn' hs' Hb' Hs' Hsn' Hle.
  assert (sn_size e3 = sn_size e) as En by (unfold pdcp_conf in F, F2, F3; congruence).
  apply pdcp_old_quiet; [apply I3|done|done|]. unfold pdu_count. rewrite Hsn'.
  pose proof (pi_wf _ I3) as [W1 W2 _ _ _]. apply rcvd_count_old with sn; rewrite ?En; try lia. apply I3.
Qed.
End Underflow.

(** One PDU with SN 4000 to a fresh entity: after two expiries of t-Reordering the PDU
    with COUNT 0 is discarded. *)
Definition jumped_pdcp : nr_pdcp_entity_t :=
  match nr_pdcp_entity_recv_pdu (nr_pdcp_entity_set_time (fresh_pdcp true false) 5) [143; 160; 0; 1] 4 with
  | Ok (_, e1) => nr_pdcp_entity_set_time (nr_pdcp_entity_set_time e1 200) 400
  | _ => fresh_pdcp true false
  end.

Lemma pdcp_count_underflow_witness :
  ∃ b' e4, nr_pdcp_entity_recv_pdu jumped_pdcp [128; 0; 0; 67] 4 = Ok (b', e4) ∧ pdcp_quiet jumped_pdcp e4.
Proof.
  destruct (nr_pdcp_entity_recv_pdu (nr_pdcp_entity_set_time (fresh_pdcp true false) 5) [143; 160; 0; 1] 4)
    as [[buf e1]| | |] eqn:Hr; try (vm_compute in Hr; discriminate Hr).
  assert (pdcp_rx_inv (nr_pdcp_entity_set_time (fresh_pdcp true false) 5)) as I
    by (eapply pdcp_rx_step_inv; [apply step_time|apply pdcp_initial_inv, fresh_pdcp_initial]).
  assert (timer_armed (nr_pdcp_entity_set_time (fresh_pdcp true false) 5)) as A by (intros H; by destruct H).
  assert (t_reordering_start e1 = 5) as Es by (vm_compute in Hr; by injection Hr as <- <-).
  destruct (pdcp_count_underflow _ [143; 160; 0; 1] 4 buf e1 4000 2 200 400 I A) as (_ & [Q|H]).
  all: try exact Hr. all: rewrite ?Es. all: try (vm_compute; repeat split; (reflexivity || discriminate)).
  - exfalso. vm_compute in Hr. injection Hr as <- <-. discriminate Q.
  - destruct (H jumped_pdcp) as (_ & Hq).
    + unfold jumped_pdcp. rewrite Hr. apply rtc_refl.
    + apply (Hq [128; 0; 0; 67] 4 0 2); vm_compute; repeat split; (reflexivity || discriminate).
Defined.

(** [rx_size] drifts: a stored PDU counts with its MAC, a delivered one without it, so
    an empty list has [rx_size] 4 after one integrity protected SDU, 8 after two. *)
Theorem pdcp_rx_size_drifts :
  ∃ tx rx, transfer (fresh_pdcp true true) (fresh_pdcp false true) [[1; 2]; [3; 4]] = Ok (tx, rx) ∧
    rx_list rx = [] ∧ rx_size rx = 8.
Proof. eexists _, _. split; [vm_compute; reflexivity|]. split; reflexivity. Qed.
