(* ===== verification/SeqArr.v ===== *)
(** * Sequence container

    Models [common/utils/ds/seq_arr.c] and [common/utils/alg/find.c]: an array of
    [cap] slots of which the first [size] are in use, doubled before it is full and
    halved when it is less than a quarter full. An iterator is the index of the slot
    it points to. It implements a list. *)

From S2P Require Import Prelude.

Section SeqArr.
(** The content of slots: [zero] after [calloc] and [memset], [junk] in the part that
    [realloc] adds. *)
Context {A : Type} (zero junk : A).

Record seq_arr_t := mk_seq_arr {
  sa_data : list A;           (* [cap] slots *)
  sa_size : Z;
  sa_cap : Z;
}.

Definition MIN_SIZE : Z := 8.

Definition maybe_expand (arr : seq_arr_t) : seq_arr_t :=
  if sa_size arr + 1 =? sa_cap arr
  then mk_seq_arr (sa_data arr ++ replicate (Z.to_nat (sa_cap arr)) junk) (sa_size arr) (2 * sa_cap arr)
  else arr.

(** [memcpy] of the first [n] slots. *)
Definition copy_front (data : list A) (n : Z) : outcome (list A) :=
  if (0 <=? n) && (n <=? zlen data) then Ok (take (Z.to_nat n) data) else Undef.

(** The capacity is 8 times a power of two, so the quotient of the two floats is
    below 0.25 exactly when [4 * size < cap] (for sizes below 2^24). *)
Definition maybe_shrink (arr : seq_arr_t) : outcome seq_arr_t :=
  if (MIN_SIZE <? sa_size arr) && (4 * sa_size arr <? sa_cap arr) then
    _ ← assert_fatal (MIN_SIZE <? sa_cap arr);
    let cap := sa_cap arr / 2 in
    _ ← assert_fatal (sa_size arr <=? cap);
    data ← copy_front (sa_data arr) (sa_size arr);
    Ok (mk_seq_arr (data ++ replicate (Z.to_nat (cap - sa_size arr)) zero) (sa_size arr) cap)
  else Ok arr.

Definition seq_arr_init : seq_arr_t := mk_seq_arr (replicate (Z.to_nat MIN_SIZE) zero) 0 MIN_SIZE.

Definition seq_arr_size (arr : seq_arr_t) : Z := sa_size arr.
Definition seq_arr_front (arr : seq_arr_t) : Z := 0.
Definition seq_arr_next (arr : seq_arr_t) (it : Z) : Z := it + 1.
Definition seq_arr_end (arr : seq_arr_t) : Z := sa_size arr.
Definition seq_arr_dist (arr : seq_arr_t) (first last : Z) : outcome Z :=
  let pos := last - first in _ ← assert_fatal (-1 <? pos); Ok pos.

(** The element an iterator points to. *)
Definition slot (arr : seq_arr_t) (it : Z) : outcome A :=
  if it <? 0 then Undef else match sa_data arr !! Z.to_nat it with Some x => Ok x | None => Undef end.

Definition seq_arr_at (arr : seq_arr_t) (pos : Z) : outcome A :=
  _ ← assert_fatal (pos <? sa_size arr); slot arr pos.

Definition seq_arr_push_back (arr : seq_arr_t) (x : A) : outcome seq_arr_t :=
  let arr := maybe_expand arr in
  if (0 <=? sa_size arr) && (sa_size arr <? zlen (sa_data arr))
  then Ok (mk_seq_arr (<[Z.to_nat (sa_size arr) := x]> (sa_data arr)) (sa_size arr + 1) (sa_cap arr))
  else Undef.

(** [free_func] is called on the elements erased and changes nothing here. *)
Definition seq_arr_erase_it (arr : seq_arr_t) (start_it end_it : Z) : outcome seq_arr_t :=
  _ ← assert_fatal (start_it <=? end_it);
  if start_it =? end_it then Ok arr
  else
    let num_move := seq_arr_end arr - end_it in
    _ ← assert_fatal (-1 <? num_move);
    let num_erase := end_it - start_it in
    if (0 <=? start_it) && (seq_arr_end arr <=? zlen (sa_data arr)) then
      let d := sa_data arr in
      let moved := take (Z.to_nat start_it) d ++ take (Z.to_nat num_move) (drop (Z.to_nat end_it) d) in
      maybe_shrink (mk_seq_arr (moved ++ replicate (Z.to_nat num_erase) zero
                                ++ drop (Z.to_nat (seq_arr_end arr)) d)
                      (sa_size arr - num_erase) (sa_cap arr))
    else Undef.

Definition seq_arr_erase (arr : seq_arr_t) (start_it : Z) : outcome seq_arr_t :=
  seq_arr_erase_it arr start_it (seq_arr_next arr start_it).

(** [find_if]: the first iterator whose element satisfies [f], with a bound on the
    number of steps. *)
Fixpoint find_if_arr_it (fuel : nat) (arr : seq_arr_t) (start_it end_it : Z) (f : A → bool)
  : outcome (option Z) :=
  match fuel with
  | O => Diverge
  | S fuel =>
      if start_it =? end_it then Ok None
      else
        x ← slot arr start_it;
        if f x then Ok (Some start_it)
        else find_if_arr_it fuel arr (seq_arr_next arr start_it) end_it f
  end.

Definition find_if (arr : seq_arr_t) (f : A → bool) : outcome (option Z) :=
  find_if_arr_it (S (Z.to_nat (sa_size arr))) arr (seq_arr_front arr) (seq_arr_end arr) f.

(** ** Refinement: a list *)

Definition contents (arr : seq_arr_t) : list A := take (Z.to_nat (sa_size arr)) (sa_data arr).

Record seq_arr_wf (arr : seq_arr_t) : Prop := {
  sa_len : zlen (sa_data arr) = sa_cap arr;
  sa_bound : 0 <= sa_size arr < sa_cap arr;
  sa_pow : ∃ k, 0 <= k ∧ sa_cap arr = 8 * 2 ^ k;
}.

Lemma seq_arr_init_ok : seq_arr_wf seq_arr_init ∧ contents seq_arr_init = [].
Proof.
  split; [|done]. split; cbn; [done|unfold MIN_SIZE; lia|]. exists 0. unfold MIN_SIZE. lia.
Qed.

Lemma zlen_contents arr : seq_arr_wf arr → zlen (contents arr) = sa_size arr.
Proof. intros [H1 H2 _]. apply zlen_take. lia. Qed.

Lemma contents_slot arr i x :
  seq_arr_wf arr → contents arr !! i = Some x → slot arr (Z.of_nat i) = Ok x ∧ Z.of_nat i < sa_size arr.
Proof.
  intros W H. pose proof (lookup_lt_Some _ _ _ H) as Hl.
  assert (Z.of_nat i < sa_size arr) as Hi by (rewrite <- zlen_contents by done; unfold zlen; lia).
  split; [|done]. unfold slot. rewrite (proj2 (Z.ltb_ge _ _)) by lia. rewrite Nat2Z.id.
  unfold contents in H. rewrite lookup_take_lt in H by lia. by rewrite H.
Qed.

Lemma pow_even k : 0 <= k → 8 * 2 ^ k / 2 = 4 * 2 ^ k.
Proof. intros Hk. replace (8 * 2 ^ k) with (4 * 2 ^ k * 2) by lia. by rewrite Z.div_mul. Qed.

Lemma maybe_shrink_ok arr :
  seq_arr_wf arr → returns (maybe_shrink arr) (λ arr', seq_arr_wf arr' ∧ contents arr' = contents arr).
Proof.
  intros W. pose proof W as [H1 H2 (k & Hk & Hc)]. unfold maybe_shrink.
  destruct (Z.ltb_spec MIN_SIZE (sa_size arr)) as [Ha|]; cbn [andb]; [|by apply returns_ok].
  destruct (Z.ltb_spec (4 * sa_size arr) (sa_cap arr)) as [Hb|]; [|by apply returns_ok].
  unfold MIN_SIZE in *. rewrite (proj2 (Z.ltb_lt 8 (sa_cap arr))) by lia. cbn [assert_fatal mbind outcome_bind].
  assert (0 < k) as Hk0 by (destruct (decide (k = 0)) as [->|]; lia).
  assert (sa_cap arr / 2 = 4 * 2 ^ k) as E by (rewrite Hc; by apply pow_even).
  rewrite E. rewrite (proj2 (Z.leb_le _ _)) by lia. cbn [assert_fatal mbind outcome_bind].
  unfold copy_front. rewrite !(proj2 (Z.leb_le _ _)) by lia. cbn [andb mbind outcome_bind].
  assert (zlen (take (Z.to_nat (sa_size arr)) (sa_data arr)) = sa_size arr) as Ht by (apply zlen_take; lia).
  apply returns_ok. split.
  - split; cbn [sa_data sa_size sa_cap].
    + rewrite zlen_app, Ht. unfold zlen. rewrite length_replicate. lia.
    + lia.
    + exists (k - 1). split; [lia|]. replace (2 ^ k) with (2 * 2 ^ (k - 1)); [lia|].
      rewrite <- Z.pow_succ_r by lia. f_equal. lia.
  - unfold contents. cbn [sa_data sa_size]. unfold zlen in Ht. apply take_app_length'. lia.
Qed.

Lemma push_back_ok arr x :
  seq_arr_wf arr →
  returns (seq_arr_push_back arr x) (λ arr', seq_arr_wf arr' ∧ contents arr' = contents arr ++ [x]).
Proof.
  intros [H1 H2 (k & Hk & Hc)]. unfold seq_arr_push_back.
  assert (∃ d c, maybe_expand arr = mk_seq_arr d (sa_size arr) c ∧ zlen d = c ∧ sa_size arr + 1 < c ∧
    take (Z.to_nat (sa_size arr)) d = contents arr ∧ ∃ j, 0 <= j ∧ c = 8 * 2 ^ j) as (d & c & -> & Hd & Hs & Ht & Hj).
  { unfold maybe_expand. destruct (Z.eqb_spec (sa_size arr + 1) (sa_cap arr)) as [E|E].
    - eexists _, _. split; [reflexivity|]. split_and!.
      + rewrite zlen_app. unfold zlen at 2. rewrite length_replicate. lia.
      + lia.
      + unfold contents. rewrite take_app_le; [done|]. unfold zlen in H1. lia.
      + exists (k + 1). split; [lia|]. rewrite Z.pow_add_r by lia. lia.
    - exists (sa_data arr), (sa_cap arr). split; [by destruct arr|]. split_and!; try lia; [done|]. by exists k. }
  cbn [sa_data sa_size sa_cap]. rewrite (proj2 (Z.leb_le _ _)), (proj2 (Z.ltb_lt _ _)) by lia. cbn [andb].
  apply returns_ok. split.
  - split; cbn [sa_data sa_size sa_cap]; [|lia|done]. unfold zlen in *. by rewrite length_insert.
  - unfold contents at 1. cbn [sa_data sa_size]. replace (Z.to_nat (sa_size arr + 1)) with (S (Z.to_nat (sa_size arr))) by lia.
    erewrite take_S_r; [|apply list_lookup_insert_eq; unfold zlen in Hd; lia].
    rewrite take_insert_ge by lia. by rewrite Ht.
Qed.

Lemma erase_it_ok arr i j :
  seq_arr_wf arr → 0 <= i <= j → j <= sa_size arr →
  returns (seq_arr_erase_it arr i j) (λ arr', seq_arr_wf arr' ∧
    contents arr' = take (Z.to_nat i) (contents arr) ++ drop (Z.to_nat j) (contents arr)).
Proof.
  intros W Hi Hj. pose proof W as [H1 H2 H3]. unfold seq_arr_erase_it, seq_arr_end.
  rewrite (proj2 (Z.leb_le i j)) by lia. cbn [assert_fatal mbind outcome_bind].
  destruct (Z.eqb_spec i j) as [->|Hne].
  { apply returns_ok. split; [done|]. by rewrite take_drop. }
  rewrite (proj2 (Z.ltb_lt _ _)) by lia. cbn [assert_fatal mbind outcome_bind].
  rewrite !(proj2 (Z.leb_le _ _)) by lia. cbn [andb].
  set (d := sa_data arr) in *. set (n := sa_size arr) in *.
  set (moved := take (Z.to_nat i) d ++ take (Z.to_nat (n - j)) (drop (Z.to_nat j) d)).
  assert (zlen moved = n - (j - i)) as Hm.
  { unfold moved. rewrite zlen_app, !zlen_take; [lia| |lia]. rewrite zlen_drop; lia. }
  assert (take (Z.to_nat (n - (j - i))) (moved ++ replicate (Z.to_nat (j - i)) zero ++ drop (Z.to_nat n) d)
    = take (Z.to_nat i) (contents arr) ++ drop (Z.to_nat j) (contents arr)) as Hc.
  { rewrite take_app_length' by (unfold zlen in Hm; lia). unfold moved, contents. fold d n.
    rewrite take_take, skipn_firstn_comm. do 2 f_equal; lia. }
  eapply returns_mono.
  - apply maybe_shrink_ok. split; cbn [sa_data sa_size sa_cap]; [|lia|done].
    rewrite !zlen_app, Hm, zlen_drop by lia. unfold zlen at 1. rewrite length_replicate. lia.
  - cbn beta. intros arr' [W' ->]. split; [done|]. unfold contents at 1. exact Hc.
Qed.

Lemma find_if_arr_it_ok arr f pre l fuel :
  seq_arr_wf arr → contents arr = pre ++ l → (length l < fuel)%nat →
  find_if_arr_it fuel arr (zlen pre) (sa_size arr) f
    = Ok ((λ r, zlen pre + Z.of_nat r.1) <$> list_find (λ x, f x = true) l).
Proof.
  intros W. pose proof (zlen_contents arr W) as Hz. revert pre fuel.
  induction l as [|x l IH]; intros pre fuel E Hf; destruct fuel as [|fuel]; cbn [length] in Hf; try lia; cbn [find_if_arr_it].
  { rewrite E, app_nil_r in Hz. by rewrite Hz, Z.eqb_refl. }
  destruct (contents_slot arr (length pre) x W) as [Hs Hl].
  { rewrite E, lookup_app_r, Nat.sub_diag by lia. done. }
  fold (zlen pre) in Hs, Hl. rewrite (proj2 (Z.eqb_neq _ _)) by lia. rewrite Hs. cbn [mbind outcome_bind list_find].
  destruct (decide (f x = true)) as [->|Hn].
  - cbn. f_equal. f_equal. lia.
  - apply not_true_is_false in Hn as ->.
    specialize (IH (pre ++ [x]) fuel). rewrite <- app_assoc in IH. specialize (IH E ltac:(lia)).
    unfold seq_arr_next. replace (zlen pre + 1) with (zlen (pre ++ [x])) by (by rewrite zlen_app).
    rewrite IH. f_equal. destruct (list_find _ l) as [[i y]|]; cbn; [|done]. f_equal. rewrite zlen_app.
    change (zlen [x]) with 1. lia.
Qed.

(** [find_if] finds the first element that satisfies the test. *)
Lemma find_if_ok arr f :
  seq_arr_wf arr →
  find_if arr f = Ok ((λ r, Z.of_nat r.1) <$> list_find (λ x, f x = true) (contents arr)).
Proof.
  intros W. unfold find_if, seq_arr_front, seq_arr_end.
  pose proof (find_if_arr_it_ok arr f [] (contents arr) (S (Z.to_nat (sa_size arr))) W eq_refl) as H.
  change (zlen []) with 0 in H. rewrite H; [done|].
  pose proof (zlen_contents arr W) as Hz. destruct W as [_ Hb _]. unfold zlen in Hz. lia.
Qed.

(** ** Every sequence of operations *)

Inductive seq_op := Push (x : A) | Erase (it : Z) | EraseRange (it1 it2 : Z).

Definition seq_op_ok (l : list A) (op : seq_op) : Prop :=
  match op with
  | Push _ => True
  | Erase it => 0 <= it < zlen l
  | EraseRange it1 it2 => 0 <= it1 <= it2 ∧ it2 <= zlen l
  end.

Definition seq_exec (arr : seq_arr_t) (op : seq_op) : outcome seq_arr_t :=
  match op with
  | Push x => seq_arr_push_back arr x
  | Erase it => seq_arr_erase arr it
  | EraseRange it1 it2 => seq_arr_erase_it arr it1 it2
  end.

(** The same on a list. *)
Definition list_exec (l : list A) (op : seq_op) : list A :=
  match op with
  | Push x => l ++ [x]
  | Erase it => take (Z.to_nat it) l ++ drop (Z.to_nat (it + 1)) l
  | EraseRange it1 it2 => take (Z.to_nat it1) l ++ drop (Z.to_nat it2) l
  end.

Fixpoint seq_run (arr : seq_arr_t) (ops : list seq_op) : outcome seq_arr_t :=
  match ops with [] => Ok arr | op :: ops => arr ← seq_exec arr op; seq_run arr ops end.

Fixpoint ops_ok (l : list A) (ops : list seq_op) : Prop :=
  match ops with [] => True | op :: ops => seq_op_ok l op ∧ ops_ok (list_exec l op) ops end.

Lemma seq_run_ok ops arr :
  seq_arr_wf arr → ops_ok (contents arr) ops →
  returns (seq_run arr ops) (λ arr', seq_arr_wf arr' ∧ contents arr' = foldl list_exec (contents arr) ops).
Proof.
  revert arr. induction ops as [|op ops IH]; intros arr W Hok; cbn; [by apply returns_ok|].
  destruct Hok as [Ho Hok]. eapply returns_bind.
  - assert (returns (seq_exec arr op) (λ arr', seq_arr_wf arr' ∧ contents arr' = list_exec (contents arr) op)) as H; [|exact H].
    pose proof (zlen_contents arr W) as Hz. destruct op as [x|it|it1 it2]; cbn in Ho |- *; rewrite ?Hz in Ho.
    + by apply push_back_ok.
    + apply erase_it_ok; [done|unfold seq_arr_next; lia..].
    + apply erase_it_ok; [done|lia..].
  - cbn beta. intros arr' [W' E]. rewrite <- E in Hok |- *. by apply IH.
Qed.

End SeqArr.

Arguments seq_arr_t : clear implicits.
Arguments seq_op : clear implicits.

(** the sequence container implements a list: from an empty container on, for every
    sequence of appended elements and erased elements or ranges within bounds, no
    operation asserts or leaves the array, whatever [realloc] leaves in the new slots, and
    the elements in use are those of the list; [find_if] finds the first element that
    satisfies a test. *)
Theorem seq_arr_refines {A} (zero junk : A) ops :
  ops_ok [] ops →
  returns (seq_run zero junk (seq_arr_init zero) ops) (λ arr,
    contents arr = foldl list_exec [] ops ∧ seq_arr_size arr = zlen (contents arr) ∧
    ∀ f, find_if arr f = Ok ((λ r, Z.of_nat r.1) <$> list_find (λ x, f x = true) (contents arr))).
Proof.
  intros H. destruct (seq_arr_init_ok zero) as [W E].
  eapply returns_mono; [apply seq_run_ok; [done|by rewrite E]|]. cbn beta.
  intros arr [W' Hc]. split; [by rewrite Hc, E|]. split.
  - symmetry. by apply zlen_contents.
  - intros f. by apply find_if_ok.
Qed.

Lemma seq_arr_refines_witness :
  returns (seq_run 0 7 (seq_arr_init 0) ((Push <$> seqZ 0 20) ++ [Erase 3; EraseRange 1 19; Push 5])) (λ arr,
    contents arr = [0; 5]).
Proof.
  eapply returns_mono; [apply (seq_arr_refines 0 7 ((Push <$> seqZ 0 20) ++ [Erase 3; EraseRange 1 19; Push 5]))|].
  - vm_compute. repeat split; discriminate.
  - intros arr [H _]. rewrite H. reflexivity.
Defined.

