(* ===== verification/SdapEntity.v ===== *)
(** * SDAP entity

    Models [openair2/SDAP/nr_sdap/nr_sdap_entity.c] and the two entry points of
    [nr_sdap.c]: the mapping of QoS flows to data radio bearers, the one-byte
    header, end-marker control PDUs, reflective mapping, the list of entities.
    What the code hands to PDCP, GTP-U and the TUN interface is returned as a list
    of events. *)

From S2P Require Import Prelude SeqArr.

(** ** Data *)

Definition SDAP_MAX_QFI : Z := 64.
Definition SDAP_NO_MAPPING_RULE : Z := 0.
Definition SDAP_HDR_UL_CTRL_PDU : Z := 0.
Definition SDAP_HDR_UL_DATA_PDU : Z := 1.
Definition SDAP_CTRL_PDU_MAP_DEF_DRB : Z := 0.
Definition SDAP_CTRL_PDU_MAP_RULE_DRB : Z := 1.
Definition SDAP_MAX_UE_ID : Z := 65536.
Definition NR_MAX_NB_PDU_SESSIONS : Z := 256.
Definition MAX_DRBS_PER_UE : Z := 32.
Definition NO_SDAP_HEADER : Z := 0.

(** [sdap_role_t], used as a bitmap *)
Definition SDAP_UL_TX : Z := 1.
Definition SDAP_UL_RX : Z := 2.
Definition SDAP_DL_TX : Z := 4.
Definition SDAP_DL_RX : Z := 8.

Definition has_role (role bit : Z) : bool := negb (Z.land role bit =? 0).

(** The two header formats: [QFI] in the six low bits, then [RQI] or [R], then [RDI]
    or [DC]. *)
Record nr_sdap_dl_hdr_t := mk_dl_hdr { dl_QFI : Z; dl_RQI : Z; dl_RDI : Z }.
Record nr_sdap_ul_hdr_t := mk_ul_hdr { ul_QFI : Z; ul_R : Z; ul_DC : Z }.

Definition pack_hdr (qfi b6 b7 : Z) : Z :=
  Z.lor (Z.land qfi 63) (Z.lor (Z.shiftl (Z.land b6 1) 6) (Z.shiftl (Z.land b7 1) 7)).
Definition dl_byte (h : nr_sdap_dl_hdr_t) : Z := pack_hdr (dl_QFI h) (dl_RQI h) (dl_RDI h).
Definition ul_byte (h : nr_sdap_ul_hdr_t) : Z := pack_hdr (ul_QFI h) (ul_R h) (ul_DC h).
Definition hdr_qfi (b : Z) : Z := Z.land b 63.
Definition hdr_b6 (b : Z) : Z := Z.land (Z.shiftr b 6) 1.
Definition hdr_b7 (b : Z) : Z := Z.land (Z.shiftr b 7) 1.

Record qfi2drb_t := mk_q2d { drb_id : Z; entity_role : Z }.
#[export] Instance qfi2drb_eq_dec : EqDecision qfi2drb_t.
Proof. solve_decision. Defined.

(** The arrays of QFIs with their counts. *)
Record sdap_config_t := mk_sdap_config {
  sc_pdusession_id : Z;
  sc_drb_id : Z;
  sc_role : Z;
  sc_defaultDRB : bool;
  mappedQFIs2Add : list Z;
  mappedQFIs2Release : list Z;
}.

(** Packet filters; a component carries the fields of its type. *)
Inductive packet_filter_component_t :=
| PF_COMP_MATCH_ALL
| PF_COMP_IPV4_REMOTE_ADDR (addr mask : Z)
| PF_COMP_IPV4_LOCAL_ADDR (addr mask : Z)
| PF_COMP_IPV6_REMOTE_ADDR_PREFIX (addr : bytes) (prefix_len : Z)
| PF_COMP_IPV6_LOCAL_ADDR_PREFIX (addr : bytes) (prefix_len : Z)
| PF_COMP_PROTOCOL_ID_NEXT_HDR (protocol : Z)
| PF_COMP_SINGLE_REMOTE_PORT (port : Z)
| PF_COMP_SINGLE_LOCAL_PORT (port : Z)
| PF_COMP_REMOTE_PORT_RANGE (port_low port_high : Z)
| PF_COMP_LOCAL_PORT_RANGE (port_low port_high : Z)
| PF_COMP_OTHER (type : Z).

Inductive pf_direction := PF_DIR_RESERVED | PF_DIR_DOWNLINK | PF_DIR_UPLINK | PF_DIR_BIDIRECTIONAL.
#[export] Instance pf_direction_eq_dec : EqDecision pf_direction.
Proof. solve_decision. Defined.

Record packet_filter_decoded_t := mk_pf {
  pf_id : Z;
  direction : pf_direction;
  components : list packet_filter_component_t;
}.

Record nr_sdap_qos_rule_t := mk_rule {
  r_qfi : Z;
  rule_id : Z;
  precedence : Z;
  is_default : bool;
  packet_filters : seq_arr_t packet_filter_decoded_t;
}.
#[export] Instance eta_rule : Eta nr_sdap_qos_rule_t := λ r,
  mk_rule (r_qfi r) (rule_id r) (precedence r) (is_default r) (packet_filters r).
#[export] Instance set_r_qfi : Setter r_qfi := ltac:(derive_setter).
#[export] Instance set_precedence : Setter precedence := ltac:(derive_setter).
#[export] Instance set_is_default : Setter is_default := ltac:(derive_setter).
#[export] Instance set_packet_filters : Setter packet_filters := ltac:(derive_setter).

(** [nr_sdap_entity_t] with its [tun] endpoint, without threads, locks and function
    pointers. *)
Record nr_sdap_entity_t := mk_sdap {
  ue_id : Z;
  pdusession_id : Z;
  sock : Z;
  is_gnb : bool;
  qfi : Z;
  default_drb : qfi2drb_t;
  qfi2drb_table : list qfi2drb_t;
  qos_rules : seq_arr_t nr_sdap_qos_rule_t;
  use_packet_filters : bool;
}.
#[export] Instance eta_sdap : Eta nr_sdap_entity_t := λ r,
  mk_sdap (ue_id r) (pdusession_id r) (sock r) (is_gnb r) (qfi r) (default_drb r)
    (qfi2drb_table r) (qos_rules r) (use_packet_filters r).
#[export] Instance set_sdap_sock : Setter sock := ltac:(derive_setter).
#[export] Instance set_sdap_qfi : Setter qfi := ltac:(derive_setter).
#[export] Instance set_sdap_default_drb : Setter default_drb := ltac:(derive_setter).
#[export] Instance set_sdap_table : Setter qfi2drb_table := ltac:(derive_setter).
#[export] Instance set_sdap_qos_rules : Setter qos_rules := ltac:(derive_setter).
#[export] Instance set_sdap_upf : Setter use_packet_filters := ltac:(derive_setter).

Inductive sdap_event :=
| nr_pdcp_data_req_drb (ue drb : Z) (data : bytes)
| gtpv1uSendDirectWithQFI (ue pdusession qfi : Z) (data : bytes)
| gtpv1uSendDirect (ue pdusession : Z) (data : bytes)
| write_tun (fd : Z) (data : bytes).

(** ** Configuration *)

Record NR_SDAP_Config_t := mk_nr_sdap_config {
  pdu_Session : Z;
  sdap_HeaderUL_present : bool;
  sdap_HeaderDL_present : bool;
  defaultDRB : bool;
  mappedQoS_FlowsToAdd : option (list Z);
  mappedQoS_FlowsToRelease : option (list Z);
}.

Definition get_sdap_role (is_gnb : bool) (sdap_config : NR_SDAP_Config_t) : Z :=
  let role_ul := if is_gnb then SDAP_UL_RX else SDAP_UL_TX in
  let role_dl := if is_gnb then SDAP_DL_TX else SDAP_DL_RX in
  let role := NO_SDAP_HEADER in
  let role := if sdap_HeaderUL_present sdap_config then Z.lor role role_ul else role in
  if sdap_HeaderDL_present sdap_config then Z.lor role role_dl else role.

Definition config_list (l : option (list Z)) : outcome (list Z) :=
  match l with
  | None => Ok []
  | Some l => _ ← assert_fatal (zlen l <=? SDAP_MAX_QFI); Ok l
  end.

Definition nr_sdap_get_config (is_gnb : bool) (sdap_Config : NR_SDAP_Config_t) (drb : Z)
  : outcome sdap_config_t :=
  add ← config_list (mappedQoS_FlowsToAdd sdap_Config);
  release ← config_list (mappedQoS_FlowsToRelease sdap_Config);
  Ok (mk_sdap_config (pdu_Session sdap_Config) drb (get_sdap_role is_gnb sdap_Config)
        (defaultDRB sdap_Config) add release).

(** ** The table *)

(** [entity->qfi2drb_table[q]]: out of the array is undefined. *)
Definition row (entity : nr_sdap_entity_t) (q : Z) : outcome qfi2drb_t :=
  if q <? 0 then Undef
  else match qfi2drb_table entity !! Z.to_nat q with Some r => Ok r | None => Undef end.

Definition set_row (entity : nr_sdap_entity_t) (q : Z) (r : qfi2drb_t) : outcome nr_sdap_entity_t :=
  if (0 <=? q) && (q <? zlen (qfi2drb_table entity))
  then Ok (entity <| qfi2drb_table := <[Z.to_nat q := r]> (qfi2drb_table entity) |>) else Undef.

Definition nr_sdap_drb_lookup (entity : nr_sdap_entity_t) (drb : Z) : option qfi2drb_t :=
  match snd <$> list_find (λ r, drb_id r = drb) (qfi2drb_table entity) with
  | Some r => Some r
  | None => if drb_id (default_drb entity) =? drb then Some (default_drb entity) else None
  end.

Definition nr_sdap_qfi2drb (entity : nr_sdap_entity_t) (q : Z) : option qfi2drb_t :=
  let r := if q <? SDAP_MAX_QFI then qfi2drb_table entity !! Z.to_nat q else None in
  match r with
  | Some r => if negb (drb_id r =? 0) then Some r
              else if negb (drb_id (default_drb entity) =? 0) then Some (default_drb entity) else None
  | None => if negb (drb_id (default_drb entity) =? 0) then Some (default_drb entity) else None
  end.

Definition nr_sdap_qfi2drb_map_add (entity : nr_sdap_entity_t) (q drb role : Z) : outcome nr_sdap_entity_t :=
  set_row entity q (mk_q2d (u8 drb) (u8 role)).

Definition nr_sdap_qfi2drb_map_del (entity : nr_sdap_entity_t) (q : Z) : outcome nr_sdap_entity_t :=
  set_row entity q (mk_q2d SDAP_NO_MAPPING_RULE NO_SDAP_HEADER).

(** ** Control PDUs *)

Definition nr_sdap_construct_ctrl_pdu (q : Z) : nr_sdap_ul_hdr_t :=
  mk_ul_hdr (Z.land q 63) 0 SDAP_HDR_UL_CTRL_PDU.

Definition nr_sdap_map_ctrl_pdu (entity : nr_sdap_entity_t) (map_type dl_qfi : Z) : Z :=
  let drb_of_endmarker := 0 in
  let drb_of_endmarker := if map_type =? SDAP_CTRL_PDU_MAP_DEF_DRB
                          then drb_id (default_drb entity) else drb_of_endmarker in
  if map_type =? SDAP_CTRL_PDU_MAP_RULE_DRB
  then match nr_sdap_qfi2drb entity dl_qfi with Some map => drb_id map | None => 0 end
  else drb_of_endmarker.

Definition nr_sdap_submit_ctrl_pdu (ue ctrl_pdu_drb : Z) (ctrl_pdu : nr_sdap_ul_hdr_t) : list sdap_event :=
  if negb (ctrl_pdu_drb =? 0) then [nr_pdcp_data_req_drb ue ctrl_pdu_drb [ul_byte ctrl_pdu]] else [].

(** The end marker for one flow, to the DRB that [map_type] selects. *)
Definition end_marker (entity : nr_sdap_entity_t) (ue map_type q : Z) : list sdap_event :=
  nr_sdap_submit_ctrl_pdu ue (nr_sdap_map_ctrl_pdu entity map_type q) (nr_sdap_construct_ctrl_pdu q).

Fixpoint control_pdu_config (entity : nr_sdap_entity_t) (ue drb : Z) (qfis : list Z)
  : outcome (list sdap_event) :=
  match qfis with
  | [] => Ok []
  | q :: qfis =>
      let q := u8 q in
      r ← row entity q;
      let ev1 := if negb (drb_id (default_drb entity) =? 0) && (drb_id r =? SDAP_NO_MAPPING_RULE)
                 then end_marker entity ue SDAP_CTRL_PDU_MAP_DEF_DRB q else [] in
      let ul_sdap_header := has_role (entity_role r) SDAP_UL_TX in
      let ev2 := if negb (drb_id r =? drb) && ul_sdap_header
                 then end_marker entity ue SDAP_CTRL_PDU_MAP_RULE_DRB q else [] in
      ev ← control_pdu_config entity ue drb qfis;
      Ok (ev1 ++ ev2 ++ ev)
  end.

Definition nr_sdap_ue_control_pdu_config (entity : nr_sdap_entity_t) (ue : Z) (sdap : sdap_config_t)
  : outcome (list sdap_event) :=
  control_pdu_config entity ue (sc_drb_id sdap) (mappedQFIs2Add sdap).

(** ** Updates of the mapping *)

Fixpoint add_qos_flows (entity : nr_sdap_entity_t) (drb role : Z) (qfis : list Z)
  : outcome nr_sdap_entity_t :=
  match qfis with
  | [] => Ok entity
  | q :: qfis =>
      let q := u8 q in
      entity ← (if (q <? SDAP_MAX_QFI) && (SDAP_NO_MAPPING_RULE <? drb) && (drb <=? MAX_DRBS_PER_UE)
                then nr_sdap_qfi2drb_map_add entity q drb role else Ok entity);
      add_qos_flows entity drb role qfis
  end.

Definition nr_sdap_add_qos_flows_to_drb (entity : nr_sdap_entity_t) (sdap : sdap_config_t)
  : outcome nr_sdap_entity_t :=
  add_qos_flows entity (sc_drb_id sdap) (sc_role sdap) (mappedQFIs2Add sdap).

Fixpoint rm_qos_flows (entity : nr_sdap_entity_t) (qfis : list Z) : outcome nr_sdap_entity_t :=
  match qfis with
  | [] => Ok entity
  | q :: qfis => entity ← nr_sdap_qfi2drb_map_del entity (u8 q); rm_qos_flows entity qfis
  end.

Definition nr_sdap_rm_qos_flows_from_drb (entity : nr_sdap_entity_t) (sdap : sdap_config_t)
  : outcome nr_sdap_entity_t := rm_qos_flows entity (mappedQFIs2Release sdap).

(** All flows of a DRB get its role. *)
Definition share_role (drb role : Z) (entity : nr_sdap_entity_t) : nr_sdap_entity_t :=
  entity <| qfi2drb_table := (λ r, if drb_id r =? drb then mk_q2d (drb_id r) role else r)
                               <$> qfi2drb_table entity |>.

Definition qfis_on_drb (entity : nr_sdap_entity_t) (drb : Z) : Z :=
  zlen (filter (λ r, drb_id r = drb) (qfi2drb_table entity)).

Definition nr_sdap_qfi2drb_map_update (entity : nr_sdap_entity_t) (sdap : sdap_config_t)
  : outcome nr_sdap_entity_t :=
  entity ← nr_sdap_add_qos_flows_to_drb entity sdap;
  entity ← nr_sdap_rm_qos_flows_from_drb entity sdap;
  let entity := share_role (sc_drb_id sdap) (sc_role sdap) entity in
  if sc_role sdap =? NO_SDAP_HEADER
  then _ ← assert_fatal (qfis_on_drb entity (sc_drb_id sdap) <=? 1); Ok entity
  else Ok entity.

Definition nr_sdap_ue_qfi2drb_map_update (entity : nr_sdap_entity_t) (sdap : sdap_config_t)
  : outcome (list sdap_event * nr_sdap_entity_t) :=
  ev ← nr_sdap_ue_control_pdu_config entity (ue_id entity) sdap;
  entity ← nr_sdap_qfi2drb_map_update entity sdap;
  Ok (ev, entity).

(** [entity->qfi2drb_map_update], chosen when the entity is made. *)
Definition qfi2drb_map_update (entity : nr_sdap_entity_t) (sdap : sdap_config_t)
  : outcome (list sdap_event * nr_sdap_entity_t) :=
  if is_gnb entity then entity ← nr_sdap_qfi2drb_map_update entity sdap; Ok ([], entity)
  else nr_sdap_ue_qfi2drb_map_update entity sdap.

(** ** Transmission *)

Section Tx.
(** Whether PDCP takes the PDU. *)
Variable pdcp_takes : Z → Z → bytes → bool.

Definition to_pdcp (ctxt drb : Z) (data : bytes) : bool * list sdap_event :=
  (pdcp_takes ctxt drb data, [nr_pdcp_data_req_drb ctxt drb data]).

(** The QFI for the header: one already mapped to the DRB if the packet has none. *)
Definition header_qfi (entity : nr_sdap_entity_t) (drb q : Z) : outcome Z :=
  if SDAP_MAX_QFI <=? q then
    let h := match list_find (λ r, drb_id r = drb) (qfi2drb_table entity) with
             | Some (i, _) => Z.of_nat i
             | None => q
             end in
    _ ← assert_fatal (h <? SDAP_MAX_QFI);
    Ok h
  else Ok q.

(** [ctxt] is the UE of the protocol context. *)
Definition nr_sdap_tx_entity (entity : nr_sdap_entity_t) (ctxt : Z) (sdu_buffer : bytes) (q : Z) (rqi : bool)
  : outcome (bool * list sdap_event) :=
  match nr_sdap_qfi2drb entity q with
  | None => Ok (false, [])
  | Some map =>
      let drb := drb_id map in
      let sdap_ul_tx := has_role (entity_role map) SDAP_UL_TX in
      let sdap_dl_tx := has_role (entity_role map) SDAP_DL_TX in
      if negb sdap_ul_tx && negb sdap_dl_tx then Ok (to_pdcp ctxt drb sdu_buffer)
      else if (zlen sdu_buffer =? 0) || (8999 <? zlen sdu_buffer) then Ok (false, [])
      else
        hq ← header_qfi entity drb q;
        let hdr := if sdap_dl_tx then dl_byte (mk_dl_hdr hq (Z.b2z rqi) 0)
                   else ul_byte (mk_ul_hdr hq 0 (Z.b2z rqi)) in
        Ok (to_pdcp ctxt drb (hdr :: sdu_buffer))
  end.

End Tx.

(** ** Reception *)

(** Reflective mapping at the UE: end markers, then the rule of the flow. *)
Definition reflective_mapping (entity : nr_sdap_entity_t) (drb drb_role ue q : Z)
  : outcome (list sdap_event * nr_sdap_entity_t) :=
  r ← row entity q;
  let ev1 := if (drb_id r =? 0) && negb (drb_id (default_drb entity) =? 0)
             then end_marker entity ue SDAP_CTRL_PDU_MAP_DEF_DRB q else [] in
  let ev2 := if negb (drb =? drb_id r)
             then end_marker entity ue SDAP_CTRL_PDU_MAP_RULE_DRB q else [] in
  entity ← set_row entity q (mk_q2d drb drb_role);
  Ok (ev1 ++ ev2, entity).

Definition rx_gnb (entity : nr_sdap_entity_t) (drb : Z) (header : bool) (ps ue : Z) (buf : bytes)
  : outcome (list sdap_event * nr_sdap_entity_t) :=
  if header then
    b0 ← buf_get buf 0;
    let q := hdr_qfi b0 in
    if SDAP_MAX_QFI <=? q then Ok ([], entity)
    else match nr_sdap_qfi2drb entity q with
         | None => Ok ([], entity)
         | Some qfi_map =>
             if negb (drb_id qfi_map =? drb) then Ok ([], entity)
             else Ok ([gtpv1uSendDirectWithQFI ue ps q (drop 1 buf)], entity)
         end
  else Ok ([gtpv1uSendDirect ue ps buf], entity).

Definition rx_ue (entity : nr_sdap_entity_t) (drb drb_role : Z) (header : bool) (ue : Z) (buf : bytes)
  : outcome (list sdap_event * nr_sdap_entity_t) :=
  '(ev, entity) ←
    (if header then
       b0 ← buf_get buf 0;
       if hdr_b7 b0 =? 1 then reflective_mapping entity drb drb_role ue (hdr_qfi b0)
       else Ok ([], entity)
     else Ok ([], entity));
  if sock entity <? 0 then Ok (ev, entity)
  else Ok (ev ++ [write_tun (sock entity) (if header then drop 1 buf else buf)], entity).

Definition nr_sdap_rx_entity (entity : nr_sdap_entity_t) (drb : Z) (gnb : bool) (ps ue : Z) (buf : bytes)
  : outcome (list sdap_event * nr_sdap_entity_t) :=
  match nr_sdap_drb_lookup entity drb with
  | None => Ok ([], entity)
  | Some map =>
      let drb_role := entity_role map in
      let header := if gnb then has_role drb_role SDAP_UL_RX else has_role drb_role SDAP_DL_RX in
      if gnb then rx_gnb entity drb header ps ue buf
      else rx_ue entity drb drb_role header ue buf
  end.

(** ** The list of entities, newest first *)

Definition is_entity (ue ps : Z) (e : nr_sdap_entity_t) : Prop := ue_id e = ue ∧ pdusession_id e = ps.
#[export] Instance is_entity_dec ue ps e : Decision (is_entity ue ps e).
Proof. unfold is_entity. apply _. Defined.

Definition nr_sdap_get_entity (llist : list nr_sdap_entity_t) (ue ps : Z) : option nr_sdap_entity_t :=
  snd <$> list_find (is_entity ue ps) llist.

(** Writes through the pointer that [nr_sdap_get_entity] returned. *)
Fixpoint put_entity (llist : list nr_sdap_entity_t) (ue ps : Z) (e' : nr_sdap_entity_t)
  : list nr_sdap_entity_t :=
  match llist with
  | [] => []
  | e :: llist => if decide (is_entity ue ps e) then e' :: llist else e :: put_entity llist ue ps e'
  end.

Definition no_rule : nr_sdap_qos_rule_t := mk_rule 0 0 0 false (mk_seq_arr [] 0 0).

(** [nos1_sock]: in NOS1 mode, the TUN socket opened for a gNB entity. *)
Definition nr_sdap_add_entity (llist : list nr_sdap_entity_t) (nos1_sock : option Z) (gnb : bool) (ue : Z)
    (sdap : sdap_config_t) : outcome (list nr_sdap_entity_t) :=
  let dflt := if sc_defaultDRB sdap then mk_q2d (sc_drb_id sdap) (sc_role sdap) else mk_q2d 0 0 in
  let entity := mk_sdap ue (sc_pdusession_id sdap) (-1) gnb 0 dflt
                  (replicate (Z.to_nat SDAP_MAX_QFI) (mk_q2d 0 0))
                  (if gnb then mk_seq_arr [] 0 0 else seq_arr_init no_rule) false in
  _ ← (if sc_role sdap =? NO_SDAP_HEADER
       then assert_fatal (zlen (mappedQFIs2Add sdap) <=? 1) else Ok tt);
  entity ← nr_sdap_add_qos_flows_to_drb entity sdap;
  let entity := match nos1_sock with
                | Some fd => if gnb then entity <| sock := fd |> else entity
                | None => entity
                end in
  Ok (entity :: llist).

Definition nr_sdap_addmod_entity (llist : list nr_sdap_entity_t) (nos1_sock : option Z) (gnb : bool) (ue : Z)
    (sdap : sdap_config_t) : outcome (list sdap_event * list nr_sdap_entity_t) :=
  match nr_sdap_get_entity llist ue (sc_pdusession_id sdap) with
  | Some entity =>
      '(ev, entity) ← qfi2drb_map_update entity sdap;
      Ok (ev, put_entity llist ue (sc_pdusession_id sdap) entity)
  | None => llist ← nr_sdap_add_entity llist nos1_sock gnb ue sdap; Ok ([], llist)
  end.

Definition nr_sdap_release_drb (llist : list nr_sdap_entity_t) (ue drb ps : Z) : list nr_sdap_entity_t :=
  match nr_sdap_get_entity llist ue ps with
  | Some sdap =>
      put_entity llist ue ps
        (sdap <| qfi2drb_table := (λ r, if drb_id r =? drb then mk_q2d SDAP_NO_MAPPING_RULE (entity_role r)
                                        else r) <$> qfi2drb_table sdap |>)
  | None => llist
  end.

(** The flows of the DRB that the new list does not name. *)
Definition flows_to_release (entity : nr_sdap_entity_t) (drb : Z) (keep : list Z) : list Z :=
  filter (λ q, drb_id <$> qfi2drb_table entity !! Z.to_nat q = Some drb ∧ q ∉ keep) (seqZ 0 SDAP_MAX_QFI).

Definition nr_sdap_entity_update_qos_flows (llist : list nr_sdap_entity_t) (ue : Z) (sdap : sdap_config_t)
  : outcome (list sdap_event * list nr_sdap_entity_t) :=
  match nr_sdap_get_entity llist ue (sc_pdusession_id sdap) with
  | None => Ok ([], llist)
  | Some entity =>
      match nr_sdap_drb_lookup entity (sc_drb_id sdap) with
      | None => Ok ([], llist)
      | Some drb_map =>
          let release := mappedQFIs2Release sdap
                         ++ flows_to_release entity (sc_drb_id sdap) (mappedQFIs2Add sdap) in
          _ ← assert_fatal (zlen release <=? SDAP_MAX_QFI);
          '(ev, entity) ← qfi2drb_map_update entity
             (mk_sdap_config (sc_pdusession_id sdap) (sc_drb_id sdap) (entity_role drb_map)
                (drb_id (default_drb entity) =? sc_drb_id sdap) (mappedQFIs2Add sdap) release);
          Ok (ev, put_entity llist ue (sc_pdusession_id sdap) entity)
      end
  end.

Fixpoint remove_entity (llist : list nr_sdap_entity_t) (ue ps : Z) : bool * list nr_sdap_entity_t :=
  match llist with
  | [] => (false, [])
  | e :: llist => if decide (is_entity ue ps e) then (true, llist)
                  else let '(b, l) := remove_entity llist ue ps in (b, e :: l)
  end.

Definition nr_sdap_delete_entity (llist : list nr_sdap_entity_t) (ue ps : Z) : bool * list nr_sdap_entity_t :=
  if (ps <? 0) || (NR_MAX_NB_PDU_SESSIONS <? ps) then (false, llist) else remove_entity llist ue ps.

Definition nr_sdap_delete_ue_entities (llist : list nr_sdap_entity_t) (ue : Z)
  : bool * list nr_sdap_entity_t :=
  if SDAP_MAX_UE_ID <? ue then (false, llist)
  else (existsb (λ e, ue_id e =? ue) llist, filter (λ e, ue_id e ≠ ue) llist).

Definition nr_reconfigure_sdap_entity (llist : list nr_sdap_entity_t) (sdap_config : NR_SDAP_Config_t)
    (ue ps drb : Z) : outcome (list sdap_event * list nr_sdap_entity_t) :=
  match nr_sdap_get_entity llist ue ps with
  | None => Ok ([], llist)
  | Some entity =>
      sdap ← nr_sdap_get_config false sdap_config drb;
      '(ev, entity) ← qfi2drb_map_update entity sdap;
      Ok (ev, put_entity llist ue ps entity)
  end.

Definition nr_sdap_tun_bind (entity : nr_sdap_entity_t) (fd q : Z) : outcome nr_sdap_entity_t :=
  if fd <? 0 then Ok entity
  else _ ← assert_fatal ((0 <=? q) && (q <? SDAP_MAX_QFI)); Ok (entity <| sock := fd |> <| qfi := q |>).

Definition sdap_data_req (pdcp_takes : Z → Z → bytes → bool) (llist : list nr_sdap_entity_t)
    (ctxt ue ps : Z) (sdu_buffer : bytes) (q : Z) (rqi : bool) : outcome (bool * list sdap_event) :=
  match nr_sdap_get_entity llist ue ps with
  | None => Ok (false, [])
  | Some entity => nr_sdap_tx_entity pdcp_takes entity ctxt sdu_buffer q rqi
  end.

Definition sdap_data_ind (llist : list nr_sdap_entity_t) (drb : Z) (gnb : bool) (ps ue : Z) (buf : bytes)
  : outcome (list sdap_event * list nr_sdap_entity_t) :=
  match nr_sdap_get_entity llist ue ps with
  | None => Ok ([], llist)
  | Some entity =>
      '(ev, entity) ← nr_sdap_rx_entity entity drb gnb ps ue buf;
      Ok (ev, put_entity llist ue ps entity)
  end.
