(* ===== verification/SdapProofs.v ===== *)
(** * SDAP: mapping and transfer

    The header formats, the invariant of the mapping table and of the list of
    entities, and what travels between a UE and a gNB entity. *)

From S2P Require Import Prelude Bits SeqArr SdapEntity.

#[local] Arguments Z.add : simpl never.
#[local] Arguments Z.sub : simpl never.
#[local] Arguments Z.mul : simpl never.
#[local] Arguments Z.opp : simpl never.

(** ** Header *)

Lemma pack_hdr_val q (a b : bool) :
  0 <= q < 64 → pack_hdr q (Z.b2z a) (Z.b2z b) = q + 64 * Z.b2z a + 128 * Z.b2z b.
Proof.
  intros Hq. unfold pack_hdr. change 63 with (Z.ones 6). rewrite Z.land_ones, Z.mod_small by lia.
  assert (Z.lor (Z.shiftl (Z.land (Z.b2z a) 1) 6) (Z.shiftl (Z.land (Z.b2z b) 1) 7)
    = Z.shiftl (Z.b2z a + 2 * Z.b2z b) 6) as -> by (by destruct a, b).
  rewrite Z.lor_comm, lor_shiftl_add by lia. lia.
Qed.

Lemma hdr_fields q (a b : bool) :
  0 <= q < 64 →
  let h := pack_hdr q (Z.b2z a) (Z.b2z b) in
  hdr_qfi h = q ∧ hdr_b6 h = Z.b2z a ∧ hdr_b7 h = Z.b2z b.
Proof.
  intros Hq. cbv zeta. rewrite pack_hdr_val by done. unfold hdr_qfi, hdr_b6, hdr_b7.
  change 63 with (Z.ones 6). change 1 with (Z.ones 1). rewrite !Z.land_ones, !Z.shiftr_div_pow2 by lia.
  change (2 ^ 6) with 64. change (2 ^ 7) with 128. change (2 ^ 1) with 2.
  assert ((q + 64 * Z.b2z a + 128 * Z.b2z b) / 64 = Z.b2z a + 2 * Z.b2z b) as ->.
  { replace (q + 64 * Z.b2z a + 128 * Z.b2z b) with (q + (Z.b2z a + 2 * Z.b2z b) * 64) by lia.
    rewrite Z.div_add, Z.div_small by lia. lia. }
  assert ((q + 64 * Z.b2z a + 128 * Z.b2z b) / 128 = Z.b2z b) as ->.
  { rewrite (Z.mul_comm 128), Z.div_add by lia. rewrite Z.div_small; [lia|]. destruct a; cbn; lia. }
  split_and!; [|by destruct a, b|by destruct b].
  replace (q + 64 * Z.b2z a + 128 * Z.b2z b) with (q + (Z.b2z a + 2 * Z.b2z b) * 64) by lia.
  rewrite Z.mod_add, Z.mod_small by lia. done.
Qed.

(** ** The table *)

(** Rows of a DRB, the default one included, agree on the role. *)
Definition rows (e : nr_sdap_entity_t) : list qfi2drb_t := default_drb e :: qfi2drb_table e.

Record sdap_wf (e : nr_sdap_entity_t) : Prop := {
  sw_len : length (qfi2drb_table e) = 64%nat;
  sw_roles : ∀ a b, a ∈ rows e → b ∈ rows e → drb_id a = drb_id b → drb_id a ≠ 0 →
    entity_role a = entity_role b;
}.

Lemma row_ok e q : sdap_wf e → 0 <= q < 64 → ∃ r, row e q = Ok r ∧ r ∈ qfi2drb_table e ∧
  qfi2drb_table e !! Z.to_nat q = Some r.
Proof.
  intros [H _] Hq. unfold row. rewrite (proj2 (Z.ltb_ge _ _)) by lia.
  destruct (lookup_lt_is_Some_2 (qfi2drb_table e) (Z.to_nat q)) as [r Hr]; [lia|].
  rewrite Hr. exists r. split; [done|]. split; [|done]. by apply list_elem_of_lookup_2 in Hr.
Qed.

Lemma set_row_ok e q r :
  sdap_wf e → 0 <= q < 64 →
  set_row e q r = Ok (e <| qfi2drb_table := <[Z.to_nat q := r]> (qfi2drb_table e) |>).
Proof.
  intros [H _] Hq. unfold set_row, zlen. rewrite H. by rewrite (proj2 (Z.leb_le _ _)), (proj2 (Z.ltb_lt _ _)) by lia.
Qed.

Lemma rows_insert e i r x :
  x ∈ rows (e <| qfi2drb_table := <[i := r]> (qfi2drb_table e) |>) → x = r ∨ x ∈ rows e.
Proof.
  unfold rows. cbn. rewrite !elem_of_cons. intros [->|Hx]; [by right; left|].
  apply list_elem_of_lookup in Hx as (j & Hi). apply list_lookup_insert_Some in Hi as [(_ & -> & _)|[_ Hi]]; [by left|].
  right. right. by apply list_elem_of_lookup_2 in Hi.
Qed.

(** A table whose rows of [drb] have [role] when the other rows agree. *)
Lemma sdap_wf_insert e q r :
  sdap_wf e → (∀ b, b ∈ rows e → drb_id b = drb_id r → drb_id r ≠ 0 → entity_role b = entity_role r) →
  sdap_wf (e <| qfi2drb_table := <[Z.to_nat q := r]> (qfi2drb_table e) |>).
Proof.
  intros [H1 H2] Hr. split; [cbn; by rewrite length_insert|].
  intros a b [->|Ha]%rows_insert [->|Hb]%rows_insert E Hz; [done| | |].
  - symmetry. apply Hr; congruence.
  - apply Hr; congruence.
  - by apply H2.
Qed.

(** [nr_sdap_drb_lookup] finds a row of the DRB, and with it its role. *)
Lemma drb_lookup_role e d r :
  sdap_wf e → r ∈ rows e → drb_id r = d → d ≠ 0 →
  ∃ m, nr_sdap_drb_lookup e d = Some m ∧ entity_role m = entity_role r.
Proof.
  intros [H1 H2] Hr Hd Hz. unfold nr_sdap_drb_lookup.
  destruct (list_find (λ r, drb_id r = d) (qfi2drb_table e)) as [[i m]|] eqn:E; cbn.
  - apply list_find_Some in E as (Hi & Hm & _). exists m. split; [done|].
    apply H2; [|done|congruence|congruence]. right. by apply list_elem_of_lookup_2 in Hi.
  - apply list_find_None in E. rewrite Forall_forall in E. apply elem_of_cons in Hr as [->|Hr].
    + rewrite Hd, Z.eqb_refl. by eexists.
    + exfalso. by apply (E r).
Qed.

Lemma drb_lookup_rows e d m : nr_sdap_drb_lookup e d = Some m → m ∈ rows e ∧ drb_id m = d.
Proof.
  unfold nr_sdap_drb_lookup. destruct (list_find (λ r, drb_id r = d) (qfi2drb_table e)) as [[i r]|] eqn:E; cbn.
  - intros [= <-]. apply list_find_Some in E as (Hi & Hm & _). split; [|done]. right.
    by apply list_elem_of_lookup_2 in Hi.
  - destruct (Z.eqb_spec (drb_id (default_drb e)) d); intros [= <-]. split; [left|done].
Qed.

Lemma qfi2drb_rows e q m : nr_sdap_qfi2drb e q = Some m → m ∈ rows e ∧ drb_id m ≠ 0.
Proof.
  unfold nr_sdap_qfi2drb.
  assert (∀ m', (if negb (drb_id (default_drb e) =? 0) then Some (default_drb e) else None) = Some m' →
    m' ∈ rows e ∧ drb_id m' ≠ 0) as Hd.
  { intros m'. destruct (Z.eqb_spec (drb_id (default_drb e)) 0); intros [= <-]. split; [left|done]. }
  destruct (q <? SDAP_MAX_QFI); [|apply Hd]. destruct (qfi2drb_table e !! Z.to_nat q) as [r|] eqn:E; [|apply Hd].
  destruct (Z.eqb_spec (drb_id r) 0); cbn [negb]; [apply Hd|]. intros [= <-]. split; [|done].
  right. by apply list_elem_of_lookup_2 in E.
Qed.

(** ** Updates *)

(** In the middle of an update the flows of the DRB being configured may disagree. *)
Record sdap_mid (d : Z) (e : nr_sdap_entity_t) : Prop := {
  sm_len : length (qfi2drb_table e) = 64%nat;
  sm_roles : ∀ a b, a ∈ rows e → b ∈ rows e → drb_id a = drb_id b → drb_id a ≠ 0 → drb_id a ≠ d →
    entity_role a = entity_role b;
}.

Lemma sdap_wf_mid d e : sdap_wf e → sdap_mid d e.
Proof. intros [H1 H2]. split; [done|]. intros. by apply H2. Qed.

Lemma set_row_mid d e q r :
  sdap_mid d e → 0 <= q < 64 → drb_id r = 0 ∨ drb_id r = d →
  returns (set_row e q r) (λ e', sdap_mid d e' ∧ e' = e <| qfi2drb_table := qfi2drb_table e' |>).
Proof.
  intros [H1 H2] Hq Hr. unfold set_row, zlen. rewrite H1. rewrite (proj2 (Z.leb_le _ _)), (proj2 (Z.ltb_lt _ _)) by lia.
  cbn [andb]. apply returns_ok. split; [|done]. split; [cbn; by rewrite length_insert|].
  intros a b [->|Ha]%rows_insert [->|Hb]%rows_insert E Hz Hd; [done| | |by apply H2]; destruct Hr; congruence.
Qed.

Lemma add_qos_flows_ok d role qfis e :
  sdap_mid d e → returns (add_qos_flows e d role qfis) (λ e', sdap_mid d e' ∧ e' = e <| qfi2drb_table := qfi2drb_table e' |>).
Proof.
  revert e. induction qfis as [|q qfis IH]; intros e M; cbn [add_qos_flows].
  { apply returns_ok. split; [done|by destruct e]. }
  eapply returns_bind.
  - assert (returns (if (u8 q <? SDAP_MAX_QFI) && (SDAP_NO_MAPPING_RULE <? d) && (d <=? MAX_DRBS_PER_UE)
      then nr_sdap_qfi2drb_map_add e (u8 q) d role else Ok e)
      (λ e', sdap_mid d e' ∧ e' = e <| qfi2drb_table := qfi2drb_table e' |>)) as H; [|exact H].
    destruct (Z.ltb_spec (u8 q) SDAP_MAX_QFI) as [Hq|]; cbn [andb]; [|by apply returns_ok; split; [|destruct e]].
    destruct (Z.ltb_spec SDAP_NO_MAPPING_RULE d) as [H1|]; cbn [andb]; [|by apply returns_ok; split; [|destruct e]].
    destruct (Z.leb_spec d MAX_DRBS_PER_UE) as [H2|]; [|by apply returns_ok; split; [|destruct e]].
    unfold SDAP_MAX_QFI, SDAP_NO_MAPPING_RULE, MAX_DRBS_PER_UE in *.
    assert (0 <= u8 q) by (apply Z.mod_pos_bound; lia).
    apply set_row_mid; [done|lia|]. right. cbn. apply Z.mod_small. lia.
  - cbn beta. intros e1 [M1 E1]. eapply returns_mono; [by apply IH|]. cbn beta. intros e2 [M2 E2].
    split; [done|]. rewrite E2, E1. done.
Qed.

Lemma rm_qos_flows_ok d qfis e :
  sdap_mid d e → Forall (λ q, 0 <= q < 64) qfis →
  returns (rm_qos_flows e qfis) (λ e', sdap_mid d e' ∧ e' = e <| qfi2drb_table := qfi2drb_table e' |>).
Proof.
  revert e. induction qfis as [|q qfis IH]; intros e M Hq; cbn [rm_qos_flows].
  { apply returns_ok. split; [done|by destruct e]. }
  apply Forall_cons in Hq as [Hq Hqs]. eapply returns_bind.
  - apply (set_row_mid d e (u8 q)); [done| |by left]. unfold u8. rewrite Z.mod_small; lia.
  - cbn beta. intros e1 [M1 E1]. eapply returns_mono; [by apply IH|]. cbn beta. intros e2 [M2 E2].
    split; [done|]. rewrite E2, E1. done.
Qed.

Lemma share_role_wf d role e :
  sdap_mid d e → (drb_id (default_drb e) = d → d ≠ 0 → entity_role (default_drb e) = role) →
  sdap_wf (share_role d role e).
Proof.
  intros [H1 H2] Hdef. split; [cbn; by rewrite length_fmap|].
  assert (∀ x, x ∈ rows (share_role d role e) → ∃ y, y ∈ rows e ∧ drb_id x = drb_id y ∧
    (drb_id y = d → d ≠ 0 → entity_role x = role) ∧ (drb_id y ≠ d → entity_role x = entity_role y)) as Hin.
  { intros x. unfold rows, share_role. cbn. rewrite elem_of_cons. intros [->|Hx].
    - exists (default_drb e). split; [left|]. done.
    - apply list_elem_of_fmap in Hx as (y & -> & Hy). exists y. split; [by right|].
      destruct (Z.eqb_spec (drb_id y) d); done. }
  intros a b (a' & Ha & Ea & Ra & Sa)%Hin (b' & Hb & Eb & Rb & Sb)%Hin E Hz.
  destruct (decide (drb_id a' = d)) as [Hd|Hd].
  - rewrite Ra, Rb by congruence. done.
  - rewrite Sa, Sb by congruence. apply H2; congruence.
Qed.

(** The configuration leaves the headers of the default DRB as the entity knows them. *)
Definition headers_kept (e : nr_sdap_entity_t) (c : sdap_config_t) : Prop :=
  drb_id (default_drb e) = sc_drb_id c → sc_drb_id c ≠ 0 → entity_role (default_drb e) = sc_role c.

(** The QFIs to release are QFIs, and the headers of the default DRB are kept. *)
Record config_ok (e : nr_sdap_entity_t) (c : sdap_config_t) : Prop := {
  co_release : Forall (λ q, 0 <= q < 64) (mappedQFIs2Release c);
  co_default : headers_kept e c;
}.

Lemma map_update_ok e c e' :
  sdap_wf e → config_ok e c → nr_sdap_qfi2drb_map_update e c = Ok e' →
  sdap_wf e' ∧ e' = e <| qfi2drb_table := qfi2drb_table e' |>.
Proof.
  intros W [C1 C2] H. unfold nr_sdap_qfi2drb_map_update in H.
  destruct (add_qos_flows_ok (sc_drb_id c) (sc_role c) (mappedQFIs2Add c) e) as (e1 & E1 & M1 & F1);
    [by apply sdap_wf_mid|]. unfold nr_sdap_add_qos_flows_to_drb in H. rewrite E1 in H. cbn [mbind outcome_bind] in H.
  destruct (rm_qos_flows_ok (sc_drb_id c) (mappedQFIs2Release c) e1 M1 C1) as (e2 & E2 & M2 & F2).
  unfold nr_sdap_rm_qos_flows_from_drb in H. rewrite E2 in H. cbn [mbind outcome_bind] in H.
  assert (e' = share_role (sc_drb_id c) (sc_role c) e2) as ->.
  { destruct (sc_role c =? NO_SDAP_HEADER); [|by injection H].
    unfold assert_fatal in H. destruct (_ <=? _); [by injection H|done]. }
  split.
  - apply share_role_wf; [done|]. rewrite F2, F1. exact C2.
  - rewrite F2, F1. done.
Qed.

(** An update fails only when a DRB without headers would carry two flows. *)
Lemma map_update_returns e c :
  sdap_wf e → config_ok e c →
  nr_sdap_qfi2drb_map_update e c = Fatal ∧ sc_role c = NO_SDAP_HEADER ∨
  ∃ e', nr_sdap_qfi2drb_map_update e c = Ok e'.
Proof.
  intros W [C1 C2]. unfold nr_sdap_qfi2drb_map_update, nr_sdap_add_qos_flows_to_drb, nr_sdap_rm_qos_flows_from_drb.
  destruct (add_qos_flows_ok (sc_drb_id c) (sc_role c) (mappedQFIs2Add c) e) as (e1 & -> & M1 & F1);
    [by apply sdap_wf_mid|]. cbn [mbind outcome_bind].
  destruct (rm_qos_flows_ok (sc_drb_id c) (mappedQFIs2Release c) e1 M1 C1) as (e2 & -> & M2 & F2).
  cbn [mbind outcome_bind]. destruct (Z.eqb_spec (sc_role c) NO_SDAP_HEADER) as [E|]; [|by right; eexists].
  unfold assert_fatal. destruct (_ <=? _); [by right; eexists|by left].
Qed.

(** The first configuration of an entity. *)
Lemma add_qos_flows_new d role qfis e :
  sdap_wf e → 0 <= role < 256 → (∀ b, b ∈ rows e → drb_id b = d → d ≠ 0 → entity_role b = role) →
  returns (add_qos_flows e d role qfis) (λ e', sdap_wf e' ∧ e' = e <| qfi2drb_table := qfi2drb_table e' |>).
Proof.
  intros W Hr. revert e W. induction qfis as [|q qfis IH]; intros e W Hd; cbn [add_qos_flows].
  { apply returns_ok. split; [done|by destruct e]. }
  destruct ((u8 q <? SDAP_MAX_QFI) && (SDAP_NO_MAPPING_RULE <? d) && (d <=? MAX_DRBS_PER_UE)) eqn:G;
    [|cbn [mbind outcome_bind]; by apply IH].
  apply andb_prop in G as [G G3%Z.leb_le]. apply andb_prop in G as [G1%Z.ltb_lt G2%Z.ltb_lt].
  unfold SDAP_MAX_QFI, SDAP_NO_MAPPING_RULE, MAX_DRBS_PER_UE in *.
  assert (0 <= u8 q) by (apply Z.mod_pos_bound; lia).
  unfold nr_sdap_qfi2drb_map_add. rewrite set_row_ok by (done || lia). cbn [mbind outcome_bind].
  assert (u8 d = d) as -> by (apply Z.mod_small; lia). assert (u8 role = role) as -> by (apply Z.mod_small; lia).
  set (e1 := e <| qfi2drb_table := _ |>). destruct (IH e1) as (e2 & E2 & W2 & F2).
  - apply sdap_wf_insert; [done|]. cbn. by intros b Hb Eb; apply Hd.
  - intros b [->|Hb]%rows_insert; [done|by apply Hd].
  - rewrite E2. apply returns_ok. split; [done|]. rewrite F2. done.
Qed.

(** Reception keeps the invariant: a reflective rule has the role of the DRB. *)
Lemma rx_entity_wf e drb gnb ps ue buf ev e' :
  sdap_wf e → nr_sdap_rx_entity e drb gnb ps ue buf = Ok (ev, e') →
  sdap_wf e' ∧ e' = e <| qfi2drb_table := qfi2drb_table e' |>.
Proof.
  intros W H. assert (sdap_wf e ∧ e = e <| qfi2drb_table := qfi2drb_table e |>) as Hid by (split; [done|by destruct e]).
  unfold nr_sdap_rx_entity in H. destruct (nr_sdap_drb_lookup e drb) as [m|] eqn:Hm; [|by injection H as <- <-].
  destruct (drb_lookup_rows _ _ _ Hm) as [Hin Hd]. destruct gnb.
  - unfold rx_gnb in H. destruct (has_role _ _); [|by injection H as <- <-].
    apply bind_ok_inv in H as (b0 & _ & H). destruct (_ <=? _); [by injection H as <- <-|].
    destruct (nr_sdap_qfi2drb _ _); [|by injection H as <- <-]. destruct (negb _); by injection H as <- <-.
  - unfold rx_ue in H. apply bind_ok_inv in H as ([ev1 e1] & H1 & H).
    assert (e' = e1) as -> by (destruct (sock e1 <? 0); by injection H).
    destruct (has_role _ _); [|by injection H1 as <- <-]. apply bind_ok_inv in H1 as (b0 & _ & H1).
    destruct (_ =? 1); [|by injection H1 as <- <-]. unfold reflective_mapping in H1.
    apply bind_ok_inv in H1 as (r & _ & H1). apply bind_ok_inv in H1 as (e2 & H2 & H1). injection H1 as _ <-.
    assert (0 <= hdr_qfi b0 < 64) as Hq.
    { unfold hdr_qfi. change 63 with (Z.ones 6). rewrite Z.land_ones by lia. apply Z.mod_pos_bound. lia. }
    rewrite set_row_ok in H2 by done. injection H2 as <-. split; [|done].
    apply sdap_wf_insert; [done|]. cbn. intros b Hb Eb Hz. apply W; (done || congruence).
Qed.

(** ** The table alone

    The default DRB of an entity may be stale: what holds of the rows whatever the default DRB
    is follows from the above for the entity without one. *)
Definition blank (e : nr_sdap_entity_t) : nr_sdap_entity_t := e <| default_drb := mk_q2d 0 0 |>.
Definition table_wf (e : nr_sdap_entity_t) : Prop := sdap_wf (blank e).

Lemma table_wf_intro e : sdap_wf e → table_wf e.
Proof.
  intros [H1 H2]. split; [done|]. unfold rows, blank. cbn.
  intros a b [->|Ha]%elem_of_cons [->|Hb]%elem_of_cons E Hz; cbn in *; try done; try congruence.
  apply H2; (done || by right).
Qed.

Lemma table_wf_rows e : table_wf e → length (qfi2drb_table e) = 64%nat ∧
  ∀ a b, a ∈ qfi2drb_table e → b ∈ qfi2drb_table e → drb_id a = drb_id b → drb_id a ≠ 0 →
    entity_role a = entity_role b.
Proof. intros [H1 H2]. split; [done|]. intros a b Ha Hb. apply H2; by right. Qed.

Lemma set_row_blank e q r e' : set_row e q r = Ok e' → set_row (blank e) q r = Ok (blank e').
Proof. unfold set_row. change (qfi2drb_table (blank e)) with (qfi2drb_table e). by destruct (_ && _); intros [= <-]. Qed.

Lemma add_qos_flows_blank d role qfis e e' :
  add_qos_flows e d role qfis = Ok e' → add_qos_flows (blank e) d role qfis = Ok (blank e').
Proof.
  revert e. induction qfis as [|q qfis IH]; intros e; cbn [add_qos_flows]; [by intros [= <-]|].
  intros (e1 & H1 & H)%bind_ok_inv. destruct (_ && _); [|injection H1 as <-; by apply IH].
  unfold nr_sdap_qfi2drb_map_add in *. rewrite (set_row_blank _ _ _ _ H1). by apply IH.
Qed.

Lemma rm_qos_flows_blank qfis e e' : rm_qos_flows e qfis = Ok e' → rm_qos_flows (blank e) qfis = Ok (blank e').
Proof.
  revert e. induction qfis as [|q qfis IH]; intros e; cbn [rm_qos_flows]; [by intros [= <-]|].
  intros (e1 & H1 & H)%bind_ok_inv. unfold nr_sdap_qfi2drb_map_del in *.
  rewrite (set_row_blank _ _ _ _ H1). by apply IH.
Qed.

Lemma map_update_table e c e' :
  table_wf e → Forall (λ q, 0 <= q < 64) (mappedQFIs2Release c) → nr_sdap_qfi2drb_map_update e c = Ok e' →
  table_wf e' ∧ ue_id e' = ue_id e ∧ pdusession_id e' = pdusession_id e.
Proof.
  intros W Hq H. assert (nr_sdap_qfi2drb_map_update (blank e) c = Ok (blank e')) as Hb.
  { unfold nr_sdap_qfi2drb_map_update, nr_sdap_add_qos_flows_to_drb, nr_sdap_rm_qos_flows_from_drb in *.
    apply bind_ok_inv in H as (e1 & H1 & H). apply bind_ok_inv in H as (e2 & H2 & H).
    rewrite (add_qos_flows_blank _ _ _ _ _ H1). cbn [mbind outcome_bind].
    rewrite (rm_qos_flows_blank _ _ _ H2). cbn [mbind outcome_bind].
    change (share_role (sc_drb_id c) (sc_role c) (blank e2)) with (blank (share_role (sc_drb_id c) (sc_role c) e2)).
    destruct (sc_role c =? NO_SDAP_HEADER); [|by injection H as <-]. unfold assert_fatal in *.
    change (qfis_on_drb (blank ?e) ?d) with (qfis_on_drb e d). destruct (_ <=? _); [|done]. by injection H as <-. }
  destruct (map_update_ok (blank e) c (blank e') W) as [W' F];
    [split; [done|intros E Hz; by destruct Hz]|done|].
  split; [exact W'|]. change (ue_id (blank e') = ue_id (blank e) ∧ pdusession_id (blank e') = pdusession_id (blank e)).
  by rewrite F.
Qed.

Lemma rx_entity_table e drb gnb ps ue buf ev e' :
  table_wf e → nr_sdap_rx_entity e drb gnb ps ue buf = Ok (ev, e') →
  table_wf e' ∧ e' = e <| qfi2drb_table := qfi2drb_table e' |>.
Proof.
  intros W H. assert (table_wf e ∧ e = e <| qfi2drb_table := qfi2drb_table e |>) as Hid by (split; [done|by destruct e]).
  unfold nr_sdap_rx_entity in H. destruct (nr_sdap_drb_lookup e drb) as [m|] eqn:Hm; [|by injection H as <- <-].
  destruct gnb.
  - unfold rx_gnb in H. destruct (has_role _ _); [|by injection H as <- <-].
    apply bind_ok_inv in H as (b0 & _ & H). destruct (_ <=? _); [by injection H as <- <-|].
    destruct (nr_sdap_qfi2drb _ _); [|by injection H as <- <-]. destruct (negb _); by injection H as <- <-.
  - unfold rx_ue in H. apply bind_ok_inv in H as ([ev1 e1] & H1 & H).
    assert (e' = e1) as -> by (destruct (sock e1 <? 0); by injection H).
    destruct (has_role _ _); [|by injection H1 as <- <-]. apply bind_ok_inv in H1 as (b0 & _ & H1).
    destruct (_ =? 1); [|by injection H1 as <- <-]. unfold reflective_mapping in H1.
    apply bind_ok_inv in H1 as (r & _ & H1). apply bind_ok_inv in H1 as (e2 & H2 & H1). injection H1 as _ <-.
    assert (0 <= hdr_qfi b0 < 64) as Hq.
    { unfold hdr_qfi. change 63 with (Z.ones 6). rewrite Z.land_ones by lia. apply Z.mod_pos_bound. lia. }
    apply set_row_blank in H2 as Hb. rewrite set_row_ok in Hb by done.
    assert (∀ a b : nr_sdap_entity_t, Ok a = Ok b → a = b) as Hi by congruence. apply Hi in Hb.
    split; [|unfold set_row in H2; destruct (_ && _); [by injection H2 as <-|done]].
    unfold table_wf. rewrite <- Hb. apply sdap_wf_insert; [done|]. cbn. intros b Hrow Eb Hz. clear Hi.
    unfold nr_sdap_drb_lookup in Hm. destruct (list_find (λ r, drb_id r = drb) (qfi2drb_table e)) as [[i x]|] eqn:E; cbn in Hm.
    + injection Hm as ->. apply list_find_Some in E as (Hi & Hx & _). apply W; [done| |congruence|congruence].
      right. by eapply list_elem_of_lookup_2.
    + apply list_find_None in E. rewrite Forall_forall in E.
      apply elem_of_cons in Hrow as [->|Hrow]; [done|]. exfalso. by apply (E b).
Qed.

(** ** The list of entities *)

Definition sdap_key (e : nr_sdap_entity_t) : Z * Z := (ue_id e, pdusession_id e).

(** All entities satisfy [P], and no two have the same key. *)
Record sdap_list_wf (P : nr_sdap_entity_t → Prop) (l : list nr_sdap_entity_t) : Prop := {
  sl_wf : ∀ e, e ∈ l → P e;
  sl_unique : NoDup (sdap_key <$> l);
}.

Lemma get_entity_some l ue ps e :
  nr_sdap_get_entity l ue ps = Some e → e ∈ l ∧ sdap_key e = (ue, ps).
Proof.
  unfold nr_sdap_get_entity. destruct (list_find _ l) as [[i x]|] eqn:E; intros [= <-].
  apply list_find_Some in E as (Hi & [H1 H2] & _). split; [by apply list_elem_of_lookup_2 in Hi|].
  unfold sdap_key. congruence.
Qed.

Lemma get_entity_none l ue ps : nr_sdap_get_entity l ue ps = None → (ue, ps) ∉ (sdap_key <$> l).
Proof.
  unfold nr_sdap_get_entity. destruct (list_find _ l) as [[i x]|] eqn:E; [done|]. intros _.
  apply list_find_None in E. rewrite Forall_forall in E. intros (e & [= -> ->] & He)%list_elem_of_fmap.
  by apply (E e).
Qed.

Lemma put_entity_keys l ue ps e' :
  sdap_key e' = (ue, ps) → sdap_key <$> put_entity l ue ps e' = sdap_key <$> l.
Proof.
  intros Hk. induction l as [|e l IH]; cbn; [done|]. case_decide as H; cbn.
  - destruct H as [<- <-]. by rewrite Hk.
  - by rewrite IH.
Qed.

Lemma put_entity_wf P l ue ps e' :
  sdap_list_wf P l → P e' → sdap_key e' = (ue, ps) → sdap_list_wf P (put_entity l ue ps e').
Proof.
  intros [H1 H2] W Hk. split; [|by rewrite put_entity_keys].
  clear H2. induction l as [|e l IH]; cbn; [done|]. case_decide as H.
  - intros x [->|Hx]%elem_of_cons; [done|]. apply H1. by right.
  - intros x [->|Hx]%elem_of_cons; [apply H1; left|]. apply IH; [|done]. intros y Hy. apply H1. by right.
Qed.

Lemma remove_entity_sub l ue ps : (remove_entity l ue ps).2 `sublist_of` l.
Proof.
  induction l as [|e l IH]; cbn; [constructor|]. case_decide; cbn; [by apply sublist_cons|].
  destruct (remove_entity l ue ps). cbn in *. by apply sublist_skip.
Qed.

Lemma sublist_wf P l l' : l' `sublist_of` l → sdap_list_wf P l → sdap_list_wf P l'.
Proof.
  intros Hs [H1 H2]. split.
  - intros e He. apply H1. by eapply elem_of_submseteq, sublist_submseteq.
  - eapply sublist_NoDup; [exact H2|]. clear -Hs. induction Hs; cbn; by constructor.
Qed.

(** The events of a list of entities. A configuration releases QFIs, has a role that fits,
    and for an entity that exists is one that [kept] allows. *)
Definition addmod_ok (kept : nr_sdap_entity_t → sdap_config_t → Prop) (l : list nr_sdap_entity_t) (ue : Z)
    (c : sdap_config_t) : Prop :=
  0 <= sc_role c < 256 ∧ Forall (λ q, 0 <= q < 64) (mappedQFIs2Release c) ∧
  ∀ e, nr_sdap_get_entity l ue (sc_pdusession_id c) = Some e → kept e c.

Inductive sdap_step (kept : nr_sdap_entity_t → sdap_config_t → Prop) (l : list nr_sdap_entity_t)
  : list nr_sdap_entity_t → Prop :=
| step_addmod nos1 gnb ue c ev l' :
    addmod_ok kept l ue c → nr_sdap_addmod_entity l nos1 gnb ue c = Ok (ev, l') → sdap_step kept l l'
| step_release ue drb ps : sdap_step kept l (nr_sdap_release_drb l ue drb ps)
| step_update ue c ev l' :
    Forall (λ q, 0 <= q < 64) (mappedQFIs2Release c) →
    nr_sdap_entity_update_qos_flows l ue c = Ok (ev, l') → sdap_step kept l l'
| step_data_ind drb gnb ps ue buf ev l' :
    sdap_data_ind l drb gnb ps ue buf = Ok (ev, l') → sdap_step kept l l'
| step_delete ue ps : sdap_step kept l (nr_sdap_delete_entity l ue ps).2
| step_delete_ue ue : sdap_step kept l (nr_sdap_delete_ue_entities l ue).2.

(** What makes [P] an invariant of the entities under configurations that [kept] allows. *)
Record entity_invariant (P : nr_sdap_entity_t → Prop) (kept : nr_sdap_entity_t → sdap_config_t → Prop) : Prop := {
  ei_new e : sdap_wf e → P e;
  ei_map e c e' : P e → Forall (λ q, 0 <= q < 64) (mappedQFIs2Release c) → kept e c →
    nr_sdap_qfi2drb_map_update e c = Ok e' → P e' ∧ ue_id e' = ue_id e ∧ pdusession_id e' = pdusession_id e;
  ei_kept e c m : P e → nr_sdap_drb_lookup e (sc_drb_id c) = Some m → sc_role c = entity_role m → kept e c;
  ei_rx e drb gnb ps ue buf ev e' : P e → nr_sdap_rx_entity e drb gnb ps ue buf = Ok (ev, e') →
    P e' ∧ e' = e <| qfi2drb_table := qfi2drb_table e' |>;
  ei_release e drb : P e →
    P (e <| qfi2drb_table := (λ r, if drb_id r =? drb then mk_q2d SDAP_NO_MAPPING_RULE (entity_role r) else r)
              <$> qfi2drb_table e |>);
}.

Lemma release_wf e drb : sdap_wf e →
  sdap_wf (e <| qfi2drb_table := (λ r, if drb_id r =? drb then mk_q2d SDAP_NO_MAPPING_RULE (entity_role r) else r)
             <$> qfi2drb_table e |>).
Proof.
  intros [W1 W2]. split; [cbn; by rewrite length_fmap|].
  assert (∀ x, x ∈ rows (e <| qfi2drb_table := (λ r, if drb_id r =? drb then mk_q2d SDAP_NO_MAPPING_RULE (entity_role r)
    else r) <$> qfi2drb_table e |>) → drb_id x ≠ 0 → x ∈ rows e) as Hrows.
  { intros x [->|Hx]%elem_of_cons Hz; [left|]. right. cbn in Hx. apply list_elem_of_fmap in Hx as (y & -> & Hy).
    destruct (drb_id y =? drb); done. }
  intros a b Ha Hb E Hz. apply W2; [by apply Hrows|apply Hrows; congruence|done..].
Qed.

(** All rows agree, the default DRB included, as long as its headers are kept. *)
Lemma sdap_wf_invariant : entity_invariant sdap_wf headers_kept.
Proof.
  split; [done| | |apply rx_entity_wf|apply release_wf].
  - intros e c e' W Hq Hk H. destruct (map_update_ok e c e' W) as [W' F]; [by split|done|]. by rewrite F at 2 3.
  - intros e c m W Hm Hr Ed Hz. destruct (drb_lookup_rows _ _ _ Hm) as [Hin Hd]. rewrite Hr.
    apply W; [left|done|congruence|congruence].
Qed.

(** The rows of the table agree, whatever the configurations. *)
Lemma table_wf_invariant : entity_invariant table_wf (λ _ _, True).
Proof.
  split; [apply table_wf_intro| |done|apply rx_entity_table|].
  - intros e c e' W Hq _. by apply map_update_table.
  - intros e drb W. exact (release_wf (blank e) drb W).
Qed.

Lemma update_both_wf P kept e c ev e' :
  entity_invariant P kept → P e → Forall (λ q, 0 <= q < 64) (mappedQFIs2Release c) → kept e c →
  qfi2drb_map_update e c = Ok (ev, e') → P e' ∧ sdap_key e' = sdap_key e.
Proof.
  intros I W Hq Hk H. unfold qfi2drb_map_update, nr_sdap_ue_qfi2drb_map_update in H.
  assert (nr_sdap_qfi2drb_map_update e c = Ok e') as Hu.
  { destruct (is_gnb e); [by apply bind_ok_inv in H as (e1 & H1 & [= _ <-])|].
    apply bind_ok_inv in H as (ev1 & _ & H). by apply bind_ok_inv in H as (e1 & H1 & [= _ <-]). }
  destruct (ei_map _ _ I _ _ _ W Hq Hk Hu) as (W' & E1 & E2). split; [done|]. unfold sdap_key. congruence.
Qed.

Lemma add_entity_wf (P : nr_sdap_entity_t → Prop) l nos1 gnb ue c l' :
  (∀ e, sdap_wf e → P e) → sdap_list_wf P l → 0 <= sc_role c < 256 → (ue, sc_pdusession_id c) ∉ (sdap_key <$> l) →
  nr_sdap_add_entity l nos1 gnb ue c = Ok l' → sdap_list_wf P l'.
Proof.
  intros HP [H1 H2] Hr Hk H. unfold nr_sdap_add_entity in H. apply bind_ok_inv in H as ([] & _ & H).
  match type of H with nr_sdap_add_qos_flows_to_drb ?x _ ≫= _ = _ => set (e0 := x) in H end.
  assert (∀ b, b ∈ rows e0 → b = default_drb e0 ∨ b = mk_q2d 0 0) as Hrows.
  { intros b [->|Hb]%elem_of_cons; [by left|]. right. apply elem_of_replicate in Hb as [-> _]. done. }
  assert (sdap_wf e0) as W0.
  { split; [done|]. intros a b [Ea|Ea]%Hrows [Eb|Eb]%Hrows E Hz; by subst. }
  destruct (add_qos_flows_new (sc_drb_id c) (sc_role c) (mappedQFIs2Add c) e0) as (e1 & E1 & W1 & F1); [done|done| |].
  { intros b Hb. apply Hrows in Hb as [-> | ->]; cbn; [|by intros <-]. destruct (sc_defaultDRB c); [done|by intros <-]. }
  unfold nr_sdap_add_qos_flows_to_drb in H. rewrite E1 in H. cbn [mbind outcome_bind] in H. injection H as <-.
  set (e2 := match nos1 with Some fd => _ | None => e1 end).
  assert (sdap_wf e2 ∧ sdap_key e2 = (ue, sc_pdusession_id c)) as [W2 K2].
  { assert (sdap_key e1 = (ue, sc_pdusession_id c)) as K1 by (rewrite F1; done).
    unfold e2. destruct nos1, gnb; try done. split; [|done]. destruct W1. by split. }
  split.
  - intros e [->|He]%elem_of_cons; [by apply HP|by apply H1].
  - cbn. rewrite K2. by constructor.
Qed.

Lemma sdap_step_wf P kept l l' :
  entity_invariant P kept → sdap_step kept l l' → sdap_list_wf P l → sdap_list_wf P l'.
Proof.
  intros I H L. destruct H as [nos1 gnb ue c ev l' (Hr & Hq & Hc) H|ue drb ps|ue c ev l' Hq H|drb gnb ps ue buf ev l' H|ue ps|ue].
  - unfold nr_sdap_addmod_entity in H. destruct (nr_sdap_get_entity l ue (sc_pdusession_id c)) as [e|] eqn:G.
    + apply bind_ok_inv in H as ([ev1 e1] & H1 & [= <- <-]). destruct (get_entity_some _ _ _ _ G) as [Hin Hk].
      destruct (update_both_wf P kept e c ev1 e1 I) as [W1 K1]; [by apply L|done|by apply Hc|done|].
      apply put_entity_wf; [done|done|congruence].
    + apply bind_ok_inv in H as (l1 & H1 & [= <- <-]). eapply add_entity_wf; [apply I|done..| |done]. by apply get_entity_none.
  - unfold nr_sdap_release_drb. destruct (nr_sdap_get_entity l ue ps) as [e|] eqn:G; [|done].
    destruct (get_entity_some _ _ _ _ G) as [Hin Hk]. apply put_entity_wf; [done| |done].
    by apply (ei_release _ _ I), L.
  - unfold nr_sdap_entity_update_qos_flows in H. destruct (nr_sdap_get_entity l ue (sc_pdusession_id c)) as [e|] eqn:G; [|by injection H as <- <-].
    destruct (get_entity_some _ _ _ _ G) as [Hin Hk]. destruct (nr_sdap_drb_lookup e (sc_drb_id c)) as [m|] eqn:Hm; [|by injection H as <- <-].
    apply bind_ok_inv in H as ([] & _ & H). apply bind_ok_inv in H as ([ev1 e1] & H1 & [= <- <-]).
    eapply (update_both_wf P kept) in H1 as [W1 K1]; [|done|by apply L| |].
    + apply put_entity_wf; [done|done|congruence].
    + cbn [mappedQFIs2Release]. apply Forall_app. split; [done|]. apply Forall_forall. unfold flows_to_release.
      intros q [_ Hq']%list_elem_of_filter. apply elem_of_seqZ in Hq'. unfold SDAP_MAX_QFI in Hq'. lia.
    + eapply (ei_kept _ _ I); [by apply L|exact Hm|done].
  - unfold sdap_data_ind in H. destruct (nr_sdap_get_entity l ue ps) as [e|] eqn:G; [|by injection H as <- <-].
    destruct (get_entity_some _ _ _ _ G) as [Hin Hk]. apply bind_ok_inv in H as ([ev1 e1] & H1 & [= <- <-]).
    destruct (ei_rx _ _ I _ _ _ _ _ _ _ _ (sl_wf _ _ L e Hin) H1) as [W1 F1]. apply put_entity_wf; [done|done|]. by rewrite F1.
  - unfold nr_sdap_delete_entity. destruct (_ || _); [done|]. eapply sublist_wf; [apply remove_entity_sub|done].
  - unfold nr_sdap_delete_ue_entities. destruct (_ <? _); [done|]. cbn. eapply sublist_wf; [|done].
    apply sublist_filter.
Qed.

Lemma sdap_reach_wf P kept l :
  entity_invariant P kept → rtc (sdap_step kept) [] l → sdap_list_wf P l.
Proof.
  intros I H. assert (sdap_list_wf P []) as H0 by (split; [intros e He; by apply not_elem_of_nil in He|constructor]).
  revert H0. induction H as [|x y z Hs _ IH]; [done|]. intros H0. by apply IH, (sdap_step_wf _ _ _ _ I Hs).
Qed.

(** C30: in every reachable state of the list of SDAP entities, through configuration,
    modification, release, QoS updates, reflective mapping and deletion, each (UE, PDU
    session) has at most one entity, every table has its 64 rows, and all the flows that the
    table maps to a DRB agree on which SDAP headers are present. They agree with the default
    DRB too if no configuration has changed the headers of the default DRB of an entity that
    existed (the code does not update [default_drb] then). *)
Theorem sdap_mapping_invariant l :
  (rtc (sdap_step (λ _ _, True)) [] l → NoDup (sdap_key <$> l) ∧
     ∀ e, e ∈ l → length (qfi2drb_table e) = 64%nat ∧
       ∀ a b, a ∈ qfi2drb_table e → b ∈ qfi2drb_table e → drb_id a = drb_id b → drb_id a ≠ 0 →
         entity_role a = entity_role b) ∧
  (rtc (sdap_step headers_kept) [] l → ∀ e, e ∈ l → sdap_wf e).
Proof.
  split; intros H.
  - destruct (sdap_reach_wf _ _ _ table_wf_invariant H) as [H1 H2]. split; [done|].
    intros e He. by apply table_wf_rows, H1.
  - by destruct (sdap_reach_wf _ _ _ sdap_wf_invariant H).
Qed.

(** ** Transfer between UE and gNB *)

(** The entities of one PDU session at the UE and at the gNB: the same DRB for every
    flow, and complementary roles. *)
Record mirrored (u g : nr_sdap_entity_t) : Prop := {
  mi_table : drb_id <$> qfi2drb_table u = drb_id <$> qfi2drb_table g;
  mi_default : drb_id (default_drb u) = drb_id (default_drb g);
  mi_roles : ∀ a b, a ∈ rows u → b ∈ rows g → drb_id a = drb_id b → drb_id a ≠ 0 →
    has_role (entity_role a) SDAP_UL_TX = has_role (entity_role b) SDAP_UL_RX ∧
    has_role (entity_role a) SDAP_DL_RX = has_role (entity_role b) SDAP_DL_TX ∧
    has_role (entity_role a) SDAP_DL_TX = false ∧ has_role (entity_role b) SDAP_UL_TX = false;
}.

Lemma mirrored_map u g q :
  mirrored u g → drb_id <$> nr_sdap_qfi2drb u q = drb_id <$> nr_sdap_qfi2drb g q.
Proof.
  intros [H1 H2 _]. unfold nr_sdap_qfi2drb. rewrite H2.
  assert (drb_id <$> (if negb (drb_id (default_drb g) =? 0) then Some (default_drb u) else None)
    = drb_id <$> (if negb (drb_id (default_drb g) =? 0) then Some (default_drb g) else None)) as Hd
    by (destruct (negb _); cbn; by rewrite ?H2).
  destruct (q <? SDAP_MAX_QFI); [|done].
  pose proof (f_equal (lookup (Z.to_nat q)) H1) as Hl. rewrite !list_lookup_fmap in Hl.
  destruct (qfi2drb_table u !! Z.to_nat q) as [a|], (qfi2drb_table g !! Z.to_nat q) as [b|]; cbn in Hl; try done.
  injection Hl as Hl. rewrite Hl. destruct (drb_id b =? 0); cbn [negb]; [done|]. cbn. by rewrite Hl.
Qed.

(** What the receiving end finds for the DRB that a flow is sent on. *)
Lemma mirrored_lookup u g q a :
  sdap_wf g → drb_id <$> nr_sdap_qfi2drb u q = drb_id <$> nr_sdap_qfi2drb g q →
  nr_sdap_qfi2drb u q = Some a →
  ∃ b m, nr_sdap_qfi2drb g q = Some b ∧ drb_id b = drb_id a ∧ drb_id a ≠ 0 ∧ a ∈ rows u ∧ b ∈ rows g ∧
    nr_sdap_drb_lookup g (drb_id a) = Some m ∧ entity_role m = entity_role b.
Proof.
  intros W E Ha. rewrite Ha in E. cbn in E.
  destruct (nr_sdap_qfi2drb g q) as [b|] eqn:Hb; [|done]. injection E as E.
  destruct (qfi2drb_rows _ _ _ Ha) as [Ra Za]. destruct (qfi2drb_rows _ _ _ Hb) as [Rb Zb].
  destruct (drb_lookup_role g (drb_id a) b W Rb (eq_sym E) Za) as (m & Hm & Em). exists b, m. by split_and!.
Qed.

(** C32: an uplink packet of a flow reaches the core network unchanged: the PDU that the UE
    entity gives to PDCP on some DRB makes the gNB entity, when it receives it on that DRB,
    forward exactly the packet, marked with the QFI of the flow if the DRB has uplink
    headers; a packet is dropped at the UE only if its flow has no DRB and there is no
    default. *)
Theorem sdap_uplink pdcp_takes u g ctxt ps ue sdu q :
  sdap_wf g → mirrored u g → 0 <= q < 64 → 0 < zlen sdu <= 8999 →
  match nr_sdap_qfi2drb u q with
  | None => nr_sdap_tx_entity pdcp_takes u ctxt sdu q true = Ok (false, [])
  | Some a => ∃ pdu,
      nr_sdap_tx_entity pdcp_takes u ctxt sdu q true
        = Ok (pdcp_takes ctxt (drb_id a) pdu, [nr_pdcp_data_req_drb ctxt (drb_id a) pdu]) ∧
      nr_sdap_rx_entity g (drb_id a) true ps ue pdu
        = Ok ([if has_role (entity_role a) SDAP_UL_TX then gtpv1uSendDirectWithQFI ue ps q sdu
               else gtpv1uSendDirect ue ps sdu], g)
  end.
Proof.
  intros W M Hq Hs. unfold nr_sdap_tx_entity. destruct (nr_sdap_qfi2drb u q) as [a|] eqn:Ha; [|done].
  destruct (mirrored_lookup u g q a W (mirrored_map u g q M) Ha) as (b & m & Hb & Eb & Za & Ra & Rb & Hm & Em).
  destruct (mi_roles _ _ M a b Ra Rb (eq_sym Eb) Za) as (R1 & _ & R3 & _). rewrite R3.
  unfold nr_sdap_rx_entity. rewrite Hm, Em, <- R1. destruct (has_role (entity_role a) SDAP_UL_TX); cbn [negb andb].
  - rewrite (proj2 (Z.eqb_neq _ _)), (proj2 (Z.ltb_ge _ _)) by lia. cbn [orb].
    unfold header_qfi, SDAP_MAX_QFI. rewrite (proj2 (Z.leb_gt _ _)) by lia. cbn [mbind outcome_bind].
    eexists. split; [reflexivity|]. unfold rx_gnb. change (buf_get (?x :: sdu) 0) with (Ok x). cbn [mbind outcome_bind].
    unfold ul_byte. cbn [ul_QFI ul_R ul_DC]. change (pack_hdr q 0 ?x) with (pack_hdr q (Z.b2z false) x). destruct (hdr_fields q false true Hq) as (-> & _ & _).
    unfold SDAP_MAX_QFI. rewrite (proj2 (Z.leb_gt _ _)) by lia. rewrite Hb, Eb, Z.eqb_refl. done.
  - eexists. split; [reflexivity|]. done.
Qed.

(** a downlink packet of a flow reaches the UE unchanged: what the gNB entity gives to
    PDCP on some DRB makes the UE entity write exactly the packet to its TUN interface, and
    leaves the UE's mapping alone. *)
Theorem sdap_downlink pdcp_takes u g ctxt ps ue sdu q rqi :
  sdap_wf u → mirrored u g → 0 <= q < 64 → 0 < zlen sdu <= 8999 → 0 <= sock u →
  match nr_sdap_qfi2drb g q with
  | None => nr_sdap_tx_entity pdcp_takes g ctxt sdu q rqi = Ok (false, [])
  | Some b => ∃ pdu,
      nr_sdap_tx_entity pdcp_takes g ctxt sdu q rqi
        = Ok (pdcp_takes ctxt (drb_id b) pdu, [nr_pdcp_data_req_drb ctxt (drb_id b) pdu]) ∧
      nr_sdap_rx_entity u (drb_id b) false ps ue pdu = Ok ([write_tun (sock u) sdu], u)
  end.
Proof.
  intros W M Hq Hs Hsock. unfold nr_sdap_tx_entity. destruct (nr_sdap_qfi2drb g q) as [b|] eqn:Hb; [|done].
  destruct (mirrored_lookup g u q b W (eq_sym (mirrored_map u g q M)) Hb) as (a & m & Ha & Ea & Zb & Rb & Ra & Hm & Em).
  destruct (mi_roles _ _ M a b Ra Rb Ea ltac:(congruence)) as (_ & R2 & _ & R4). rewrite R4.
  unfold nr_sdap_rx_entity. rewrite Hm, Em, R2.
  assert ((sock u <? 0) = false) as Hsk by (apply Z.ltb_ge; lia).
  destruct (has_role (entity_role b) SDAP_DL_TX); cbn [negb andb].
  - rewrite (proj2 (Z.eqb_neq _ _)), (proj2 (Z.ltb_ge _ _)) by lia. cbn [orb].
    unfold header_qfi, SDAP_MAX_QFI. rewrite (proj2 (Z.leb_gt _ _)) by lia. cbn [mbind outcome_bind].
    eexists. split; [reflexivity|]. unfold rx_ue. change (buf_get (?x :: sdu) 0) with (Ok x). cbn [mbind outcome_bind].
    unfold dl_byte. cbn [dl_QFI dl_RQI dl_RDI]. change (pack_hdr q ?x 0) with (pack_hdr q x (Z.b2z false)).
    destruct (hdr_fields q rqi false Hq) as (_ & _ & ->). cbn. by rewrite Hsk.
  - eexists. split; [reflexivity|]. unfold rx_ue. cbn [mbind outcome_bind]. by rewrite Hsk.
Qed.

(** ** Examples *)

Definition ue_config : sdap_config_t := mk_sdap_config 1 2 (Z.lor SDAP_UL_TX SDAP_DL_RX) true [5; 6] [].
Definition gnb_config : sdap_config_t := mk_sdap_config 1 2 (Z.lor SDAP_UL_RX SDAP_DL_TX) true [5; 6] [].

Definition example_entity (gnb : bool) : nr_sdap_entity_t :=
  let r := mk_q2d 2 (if gnb then 6 else 9) in
  mk_sdap 7 1 3 gnb 0 r
    (replicate 5 (mk_q2d 0 0) ++ [r; r] ++ replicate 57 (mk_q2d 0 0))
    (if gnb then mk_seq_arr [] 0 0 else seq_arr_init no_rule) false.

(** Two UE entities are made, a packet with reflective mapping moves flow 9 of the first to its
    DRB, flow 6 is released; the headers of the DRB, which is the default one, are kept ([role]
    9) or changed. *)
Definition example_start : list nr_sdap_entity_t :=
  match nr_sdap_addmod_entity [] None false 7 ue_config with
  | Ok (_, l) => match nr_sdap_addmod_entity l None false 8 ue_config with
                 | Ok (_, l) => match sdap_data_ind l 2 false 1 7 [137; 1; 2] with Ok (_, l) => l | _ => [] end
                 | _ => []
                 end
  | _ => []
  end.

Lemma example_start_reached kept : rtc (sdap_step kept) [] example_start.
Proof.
  eapply rtc_l.
  { eapply (step_addmod kept [] None false 7 ue_config); [|vm_compute; reflexivity].
    split; [vm_compute; split; (discriminate || reflexivity)|]. split; [constructor|done]. }
  eapply rtc_l.
  { eapply (step_addmod kept _ None false 8 ue_config); [|vm_compute; reflexivity].
    split; [vm_compute; split; (discriminate || reflexivity)|]. split; [constructor|done]. }
  eapply rtc_l; [eapply (step_data_ind kept _ 2 false 1 7 [137; 1; 2]); vm_compute; reflexivity|].
  vm_compute. apply rtc_refl.
Qed.

Lemma example_run kept role :
  role = 9 ∨ role = 1 → (∀ e, default_drb e = mk_q2d 2 9 → kept e (mk_sdap_config 1 2 role true [] [6])) →
  ∃ e1 e2, rtc (sdap_step kept) [] [e2; e1] ∧ sdap_key <$> [e2; e1] = [(8, 1); (7, 1)] ∧
    default_drb e1 = mk_q2d 2 9 ∧ nr_sdap_qfi2drb e1 9 = Some (mk_q2d 2 role).
Proof.
  intros Hr Hk. assert (∃ ev l, nr_sdap_addmod_entity example_start None false 7 (mk_sdap_config 1 2 role true [] [6])
    = Ok (ev, l) ∧ ∃ e1 e2, l = [e2; e1] ∧ sdap_key <$> [e2; e1] = [(8, 1); (7, 1)] ∧
      default_drb e1 = mk_q2d 2 9 ∧ nr_sdap_qfi2drb e1 9 = Some (mk_q2d 2 role)) as (ev & l & E & e1 & e2 & -> & H).
  { destruct Hr as [-> | ->]; (eexists _, _; split; [vm_compute; reflexivity|]);
      (eexists _, _; split; [reflexivity|]); split_and!; reflexivity. }
  exists e1, e2. split; [|exact H]. eapply rtc_r; [apply example_start_reached|].
  eapply step_addmod; [|exact E]. split; [cbn; lia|]. split; [repeat constructor; lia|].
  intros e [= <-]. by apply Hk.
Qed.

(** The rows agree after the headers of the default DRB have changed, when they no longer agree
    with [default_drb]; they all agree when the headers are kept. *)
Lemma sdap_mapping_invariant_witness :
  (∃ e1 e2, nr_sdap_qfi2drb e1 9 = Some (mk_q2d 2 1) ∧ default_drb e1 = mk_q2d 2 9 ∧
     NoDup (sdap_key <$> [e2; e1]) ∧ length (qfi2drb_table e1) = 64%nat) ∧
  (∃ e1 e2, nr_sdap_qfi2drb e1 9 = Some (mk_q2d 2 9) ∧ sdap_wf e1 ∧ sdap_wf e2).
Proof.
  split.
  - destruct (example_run (λ _ _, True) 1) as (e1 & e2 & Hr & _ & Hd & Hq); [by right|done|].
    destruct (proj1 (sdap_mapping_invariant [e2; e1]) Hr) as [Hn Ht].
    exists e1, e2. split; [exact Hq|]. split; [exact Hd|]. split; [exact Hn|]. apply Ht. right. left.
  - destruct (example_run headers_kept 9) as (e1 & e2 & Hr & _ & Hd & Hq); [by left| |].
    { intros e He _ _. by rewrite He. }
    pose proof (proj2 (sdap_mapping_invariant [e2; e1]) Hr) as H.
    exists e1, e2. split; [exact Hq|]. split; apply H; [right; left|left].
Defined.

Lemma example_rows gnb x : x ∈ rows (example_entity gnb) → drb_id x ≠ 0 → x = mk_q2d 2 (if gnb then 6 else 9).
Proof.
  unfold rows, example_entity. cbn [default_drb qfi2drb_table]. rewrite elem_of_cons, !elem_of_app, !elem_of_replicate.
  intros [->|[[-> _]|[Hx|[-> _]]]] Hz; try done.
  repeat (apply elem_of_cons in Hx as [->|Hx]; [done|]). by apply not_elem_of_nil in Hx.
Qed.

Lemma example_wf gnb : sdap_wf (example_entity gnb).
Proof.
  split; [done|]. intros a b Ha Hb E Hz. rewrite (example_rows gnb a), (example_rows gnb b); done || congruence.
Qed.

Lemma example_mirrored : mirrored (example_entity false) (example_entity true).
Proof.
  split; [done|done|]. intros a b Ha Hb E Hz.
  rewrite (example_rows false a), (example_rows true b); (done || congruence).
Qed.

Lemma sdap_uplink_witness :
  ∃ pdu, nr_sdap_tx_entity (λ _ _ _, true) (example_entity false) 7 [69; 0; 1] 5 true
      = Ok (true, [nr_pdcp_data_req_drb 7 2 pdu]) ∧
    nr_sdap_rx_entity (example_entity true) 2 true 1 7 pdu
      = Ok ([gtpv1uSendDirectWithQFI 7 1 5 [69; 0; 1]], example_entity true).
Proof.
  apply (sdap_uplink (λ _ _ _, true) (example_entity false) (example_entity true) 7 1 7 [69; 0; 1] 5).
  - exact (example_wf true).
  - exact example_mirrored.
  - lia.
  - vm_compute. split; (discriminate || reflexivity).
Defined.

Lemma sdap_downlink_witness :
  ∃ pdu, nr_sdap_tx_entity (λ _ _ _, true) (example_entity true) 7 [69; 0; 1] 6 false
      = Ok (true, [nr_pdcp_data_req_drb 7 2 pdu]) ∧
    nr_sdap_rx_entity (example_entity false) 2 false 1 7 pdu
      = Ok ([write_tun 3 [69; 0; 1]], example_entity false).
Proof.
  apply (sdap_downlink (λ _ _ _, true) (example_entity false) (example_entity true) 7 1 7 [69; 0; 1] 6 false).
  - exact (example_wf false).
  - exact example_mirrored.
  - lia.
  - vm_compute. split; (discriminate || reflexivity).
  - vm_compute. discriminate.
Defined.

(** The default DRB is stale. Releasing it leaves [default_drb] in place, so that
    packets of flows without a rule still go to the released DRB; and a DRB configured as
    the default one after the entity has been made does not become the default. *)
Theorem sdap_default_drb_stale :
  nr_sdap_qfi2drb (example_entity true) 40 = Some (mk_q2d 2 6) ∧
  (∃ e, nr_sdap_release_drb [example_entity true] 7 2 1 = [e] ∧
     nr_sdap_qfi2drb e 40 = Some (mk_q2d 2 6) ∧ nr_sdap_qfi2drb e 5 = Some (mk_q2d 2 6)) ∧
  (∃ e1 e2, nr_sdap_addmod_entity [] None true 7 (mk_sdap_config 1 2 6 false [5] []) = Ok ([], [e1]) ∧
     nr_sdap_addmod_entity [e1] None true 7 (mk_sdap_config 1 3 6 true [6] []) = Ok ([], [e2]) ∧
     nr_sdap_qfi2drb e2 40 = None).
Proof.
  split; [reflexivity|]. split.
  - eexists. split; [vm_compute; reflexivity|]. split; reflexivity.
  - eexists _, _. split; [vm_compute; reflexivity|]. split; [vm_compute; reflexivity|]. reflexivity.
Qed.
