(* ===== verification/SdapQos.v ===== *)
(** * SDAP: QoS rules at the UE

    Models [openair2/SDAP/nr_sdap/nr_sdap_qos_rule.c]: packet filters, the rules of
    an entity kept in order of precedence, the choice of the QoS flow of an uplink
    packet. The lock around the rules is not modelled: each operation holds it from
    its first access to its last. *)

From S2P Require Import Prelude Bits SeqArr SdapEntity.

#[local] Arguments Z.add : simpl never.
#[local] Arguments Z.sub : simpl never.
#[local] Arguments Z.mul : simpl never.
#[local] Arguments Z.opp : simpl never.

Definition MAX_NUM_SDAP_QOS_RULES : Z := 64.
Definition IPPROTO_TCP : Z := 6.
Definition IPPROTO_UDP : Z := 17.

(** ** Packet filters *)

(** A 32-bit field as it lies in memory (little endian host), a 16-bit field in network
    order. *)
Definition load32 (b : bytes) (off : Z) : outcome Z :=
  b0 ← buf_get b off; b1 ← buf_get b (off + 1); b2 ← buf_get b (off + 2); b3 ← buf_get b (off + 3);
  Ok (b0 + 256 * b1 + 65536 * b2 + 16777216 * b3).
Definition ntohs_at (b : bytes) (off : Z) : outcome Z :=
  b0 ← buf_get b off; b1 ← buf_get b (off + 1); Ok (256 * b0 + b1).

Definition ipv4_match (pkt_addr filter_addr mask : Z) : bool :=
  Z.land pkt_addr mask =? Z.land filter_addr mask.

(** [memcmp] of the whole bytes, then the bits of the last one. *)
Definition ipv6_match (pkt_addr filter_addr : bytes) (prefix_len : Z) : outcome bool :=
  let bytes := u8 prefix_len / 8 in
  let bits := u8 prefix_len mod 8 in
  a ← buf_sub pkt_addr 0 bytes;
  f ← buf_sub filter_addr 0 bytes;
  if negb (bool_decide (a = f)) then Ok false
  else if 0 <? bits then
    let mask := u8 (Z.shiftl 255 (8 - bits)) in
    x ← buf_get pkt_addr bytes;
    y ← buf_get filter_addr bytes;
    Ok (Z.land x mask =? Z.land y mask)
  else Ok true.

(** What the code extracts from a packet: for IPv4 the two addresses, for IPv6 likewise,
    the protocol and the ports (0 when there are none). *)
Record packet := mk_packet {
  ip4 : option (Z * Z);       (* saddr, daddr *)
  ip6 : option (bytes * bytes);
  protocol : Z;
  src_port : Z;
  dst_port : Z;
}.

Definition read_ports (ip_pkt : bytes) (protocol transport_hdr : Z) : outcome (Z * Z) :=
  if ((protocol =? IPPROTO_TCP) || (protocol =? IPPROTO_UDP)) && (transport_hdr + 4 <=? zlen ip_pkt) then
    s ← ntohs_at ip_pkt transport_hdr;
    d ← ntohs_at ip_pkt (transport_hdr + 2);
    Ok (s, d)
  else Ok (0, 0).

(** [None]: the packet is not one a filter can match. *)
Definition parse_packet (ip_pkt : bytes) : outcome (option packet) :=
  b0 ← buf_get ip_pkt 0;
  let ip_version := Z.land (Z.shiftr b0 4) 15 in
  if ip_version =? 4 then
    let ihl := Z.land b0 15 in
    let header_len := ihl * 4 in
    if (ihl <? 5) || (zlen ip_pkt <? header_len) then Ok None
    else
      protocol ← buf_get ip_pkt 9;
      saddr ← load32 ip_pkt 12;
      daddr ← load32 ip_pkt 16;
      '(s, d) ← read_ports ip_pkt protocol header_len;
      Ok (Some (mk_packet (Some (saddr, daddr)) None protocol s d))
  else if ip_version =? 6 then
    if zlen ip_pkt <? 40 then Ok None
    else
      protocol ← buf_get ip_pkt 6;
      src ← buf_sub ip_pkt 8 16;
      dst ← buf_sub ip_pkt 24 16;
      '(s, d) ← read_ports ip_pkt protocol 40;
      Ok (Some (mk_packet None (Some (src, dst)) protocol s d))
  else Ok None.

Definition component_match (p : packet) (ul : bool) (comp : packet_filter_component_t) : outcome bool :=
  match comp with
  | PF_COMP_MATCH_ALL => Ok true
  | PF_COMP_IPV4_REMOTE_ADDR addr mask =>
      match ip4 p with Some (s, d) => Ok (ipv4_match (if ul then d else s) addr mask) | None => Ok false end
  | PF_COMP_IPV4_LOCAL_ADDR addr mask =>
      match ip4 p with Some (s, d) => Ok (ipv4_match (if ul then s else d) addr mask) | None => Ok false end
  | PF_COMP_IPV6_REMOTE_ADDR_PREFIX addr plen =>
      match ip6 p with Some (s, d) => ipv6_match (if ul then d else s) addr plen | None => Ok false end
  | PF_COMP_IPV6_LOCAL_ADDR_PREFIX addr plen =>
      match ip6 p with Some (s, d) => ipv6_match (if ul then s else d) addr plen | None => Ok false end
  | PF_COMP_PROTOCOL_ID_NEXT_HDR pr => Ok (protocol p =? pr)
  | PF_COMP_SINGLE_REMOTE_PORT port => Ok ((if ul then dst_port p else src_port p) =? port)
  | PF_COMP_SINGLE_LOCAL_PORT port => Ok ((if ul then src_port p else dst_port p) =? port)
  | PF_COMP_REMOTE_PORT_RANGE lo hi =>
      let port := if ul then dst_port p else src_port p in Ok ((lo <=? port) && (port <=? hi))
  | PF_COMP_LOCAL_PORT_RANGE lo hi =>
      let port := if ul then src_port p else dst_port p in Ok ((lo <=? port) && (port <=? hi))
  | PF_COMP_OTHER _ => Ok false
  end.

Fixpoint components_match (p : packet) (ul : bool) (l : list packet_filter_component_t) : outcome bool :=
  match l with
  | [] => Ok true
  | comp :: l => m ← component_match p ul comp; if negb m then Ok false else components_match p ul l
  end.

Definition is_uplink (pf : packet_filter_decoded_t) : bool :=
  bool_decide (direction pf = PF_DIR_UPLINK) || bool_decide (direction pf = PF_DIR_BIDIRECTIONAL).

Definition packet_filter_match (pf : packet_filter_decoded_t) (ip_pkt : bytes) : outcome bool :=
  if (zlen (components pf) =? 0) || (zlen ip_pkt <? 20) then Ok false
  else
    p ← parse_packet ip_pkt;
    match p with
    | None => Ok false
    | Some p => components_match p (is_uplink pf) (components pf)
    end.

(** ** The flow of an uplink packet *)

Fixpoint match_filters (l : list packet_filter_decoded_t) (ip_pkt : bytes) : outcome bool :=
  match l with
  | [] => Ok false
  | pf :: l =>
      if negb (is_uplink pf) then match_filters l ip_pkt
      else
        m ← packet_filter_match pf ip_pkt;
        if (m : bool) then Ok true else match_filters l ip_pkt
  end.

Fixpoint match_rules (l : list nr_sdap_qos_rule_t) (default_qfi : Z) (ip_pkt : bytes) : outcome Z :=
  match l with
  | [] => Ok default_qfi
  | rule :: l =>
      if (seq_arr_size (packet_filters rule) =? 0) || is_default rule
      then match_rules l default_qfi ip_pkt
      else
        m ← match_filters (contents (packet_filters rule)) ip_pkt;
        if (m : bool) then Ok (r_qfi rule) else match_rules l default_qfi ip_pkt
  end.

Definition nr_sdap_match_ul_packet (entity : nr_sdap_entity_t) (ip_pkt : bytes) : outcome Z :=
  match_rules (contents (qos_rules entity)) (u8 (qfi entity)) ip_pkt.

(** ** Operations on the rules *)

Section Rules.
(** [qsort] with [compare_precedence]; what [realloc] leaves in new slots. *)
Variable qsort : list nr_sdap_qos_rule_t → list nr_sdap_qos_rule_t.
Variable junk_rule : nr_sdap_qos_rule_t.
Variable junk_pf : packet_filter_decoded_t.

Definition no_pf : packet_filter_decoded_t := mk_pf 0 PF_DIR_RESERVED [].

Definition sort_rules (arr : seq_arr_t nr_sdap_qos_rule_t) : seq_arr_t nr_sdap_qos_rule_t :=
  mk_seq_arr (qsort (contents arr) ++ drop (Z.to_nat (sa_size arr)) (sa_data arr)) (sa_size arr) (sa_cap arr).

Fixpoint add_packet_filters (filters : seq_arr_t packet_filter_decoded_t) (pf_list : list packet_filter_decoded_t)
  : outcome (seq_arr_t packet_filter_decoded_t) :=
  match pf_list with
  | [] => Ok filters
  | pf :: pf_list => filters ← seq_arr_push_back junk_pf filters pf; add_packet_filters filters pf_list
  end.

(** The body of each operation, on the UE entity found. *)
Definition rule_add (entity : nr_sdap_entity_t) (id q prec : Z) (dflt : bool)
    (pf_list : list packet_filter_decoded_t) : outcome nr_sdap_entity_t :=
  filters ← add_packet_filters (seq_arr_init no_pf) pf_list;
  if MAX_NUM_SDAP_QOS_RULES <=? seq_arr_size (qos_rules entity) then Ok entity
  else
    arr ← seq_arr_push_back junk_rule (qos_rules entity) (mk_rule q id prec dflt filters);
    let entity := entity <| qos_rules := sort_rules arr |> in
    let entity := if dflt then entity <| qfi := q |> else entity in
    Ok (entity <| use_packet_filters := true |>).

Definition find_qos_rule (rules : seq_arr_t nr_sdap_qos_rule_t) (id : Z) : outcome (option Z) :=
  find_if rules (λ r, id =? rule_id r).

Definition rule_remove (entity : nr_sdap_entity_t) (id : Z) : outcome nr_sdap_entity_t :=
  it ← find_qos_rule (qos_rules entity) id;
  entity ← (match it with
            | Some it => arr ← seq_arr_erase no_rule (qos_rules entity) it; Ok (entity <| qos_rules := arr |>)
            | None => Ok entity
            end);
  Ok (if seq_arr_size (qos_rules entity) =? 0 then entity <| use_packet_filters := false |> else entity).

(** A write through the pointer to a rule. *)
Definition put_rule (arr : seq_arr_t nr_sdap_qos_rule_t) (it : Z) (r : nr_sdap_qos_rule_t)
  : seq_arr_t nr_sdap_qos_rule_t :=
  mk_seq_arr (<[Z.to_nat it := r]> (sa_data arr)) (sa_size arr) (sa_cap arr).

Definition rule_update (entity : nr_sdap_entity_t) (id q prec : Z) (dflt : bool)
    (pf_list : list packet_filter_decoded_t) (replace : bool) : outcome nr_sdap_entity_t :=
  it ← find_qos_rule (qos_rules entity) id;
  match it with
  | None => Ok entity
  | Some it =>
      rule ← slot (qos_rules entity) it;
      filters ← add_packet_filters (if replace then seq_arr_init no_pf else packet_filters rule) pf_list;
      let rule := rule <| r_qfi := q |> <| precedence := prec |> <| is_default := dflt |>
                       <| packet_filters := filters |> in
      let entity := if dflt then entity <| qfi := q |> else entity in
      Ok (entity <| qos_rules := sort_rules (put_rule (qos_rules entity) it rule) |>)
  end.

Fixpoint delete_filters (filters : seq_arr_t packet_filter_decoded_t) (pf_ids : list Z)
  : outcome (seq_arr_t packet_filter_decoded_t) :=
  match pf_ids with
  | [] => Ok filters
  | id :: pf_ids =>
      it ← find_if filters (λ pf, id =? pf_id pf);
      filters ← (match it with Some it => seq_arr_erase no_pf filters it | None => Ok filters end);
      delete_filters filters pf_ids
  end.

Definition rule_delete_pf (entity : nr_sdap_entity_t) (id : Z) (pf_ids : list Z) : outcome nr_sdap_entity_t :=
  it ← find_qos_rule (qos_rules entity) id;
  match it with
  | None => Ok entity
  | Some it =>
      rule ← slot (qos_rules entity) it;
      filters ← delete_filters (packet_filters rule) pf_ids;
      Ok (entity <| qos_rules := put_rule (qos_rules entity) it (rule <| packet_filters := filters |>) |>)
  end.

(** The public functions look the entity up and do nothing without a UE entity. *)
Definition on_ue_entity (llist : list nr_sdap_entity_t) (ue ps : Z)
    (f : nr_sdap_entity_t → outcome nr_sdap_entity_t) : outcome (list nr_sdap_entity_t) :=
  match nr_sdap_get_entity llist ue ps with
  | None => Ok llist
  | Some entity => if is_gnb entity then Ok llist else entity ← f entity; Ok (put_entity llist ue ps entity)
  end.

Definition nr_sdap_qos_rule_add (llist : list nr_sdap_entity_t) (ue ps id q prec : Z) (dflt : bool)
    (pf_list : list packet_filter_decoded_t) : outcome (list nr_sdap_entity_t) :=
  on_ue_entity llist ue ps (λ e, rule_add e id q prec dflt pf_list).
Definition nr_sdap_qos_rule_remove (llist : list nr_sdap_entity_t) (ue ps id : Z) : outcome (list nr_sdap_entity_t) :=
  on_ue_entity llist ue ps (λ e, rule_remove e id).
Definition nr_sdap_qos_rule_update (llist : list nr_sdap_entity_t) (ue ps id q prec : Z) (dflt : bool)
    (pf_list : list packet_filter_decoded_t) (replace : bool) : outcome (list nr_sdap_entity_t) :=
  on_ue_entity llist ue ps (λ e, rule_update e id q prec dflt pf_list replace).
Definition nr_sdap_qos_rule_delete_pf (llist : list nr_sdap_entity_t) (ue ps id : Z) (pf_ids : list Z)
  : outcome (list nr_sdap_entity_t) :=
  on_ue_entity llist ue ps (λ e, rule_delete_pf e id pf_ids).

End Rules.
