(* ===== verification/SdapQosProofs.v ===== *)
(** * SDAP: the rules and the choice of a flow

    The prefix comparison, the totality of packet matching, the rules as a list kept
    in order of precedence, and the flow chosen for an uplink packet. *)

From S2P Require Import Prelude Bits SeqArr SdapEntity SdapQos.

#[local] Arguments Z.add : simpl never.
#[local] Arguments Z.sub : simpl never.
#[local] Arguments Z.mul : simpl never.
#[local] Arguments Z.opp : simpl never.

(** ** Prefixes *)

Lemma land_high_mask x k : is_byte x → 0 <= k <= 8 →
  Z.land x (u8 (Z.shiftl 255 k)) = Z.shiftl (Z.shiftr x k) k.
Proof.
  intros Hx Hk. apply Z.bits_inj'. intros i Hi.
  rewrite Z.land_spec, Z.shiftl_spec by lia. unfold u8.
  destruct (Z.ltb_spec i 8).
  - rewrite Z.mod_pow2_bits_low, Z.shiftl_spec by lia. change 255 with (Z.ones 8).
    destruct (Z.ltb_spec i k).
    + by rewrite !(Z.testbit_neg_r _ (i - k)), andb_false_r by lia.
    + rewrite Z.shiftr_spec, Z.sub_add, Z.testbit_ones_nonneg by lia.
      by rewrite (proj2 (Z.ltb_lt _ _)), andb_true_r by lia.
  - rewrite Z.mod_pow2_bits_high, andb_false_r by lia. rewrite Z.shiftr_spec, Z.sub_add by lia.
    destruct (decide (x = 0)) as [->|]; [by rewrite Z.bits_0|]. symmetry. apply Z.bits_above_log2; [apply Hx|].
    enough (Z.log2 x < 8) by lia. unfold is_byte in Hx. apply Z.log2_lt_pow2; lia.
Qed.

(** The first bits of a byte are what is left of it under the mask. *)
Lemma byte_prefix x y (n : nat) :
  is_byte x → is_byte y → (n <= 8)%nat →
  Z.land x (u8 (Z.shiftl 255 (8 - Z.of_nat n))) = Z.land y (u8 (Z.shiftl 255 (8 - Z.of_nat n)))
  ↔ take n (byte_bits x) = take n (byte_bits y).
Proof.
  intros Hx Hy Hn. rewrite !land_high_mask by (done || lia). unfold byte_bits.
  replace 8%nat with (n + (8 - n))%nat by lia. rewrite !take_val_bits.
  replace (Z.of_nat (8 - n)) with (8 - Z.of_nat n) by lia.
  set (k := 8 - Z.of_nat n). split.
  - intros E. f_equal. apply (f_equal (λ z, Z.shiftr z k)) in E.
    by rewrite !Z.shiftr_shiftl_l, Z.sub_diag, !Z.shiftl_0_r in E by (unfold k; lia).
  - intros E. apply (f_equal bits_val) in E. rewrite !bits_val_val_bits in E. f_equal.
    assert (∀ z, is_byte z → 0 <= Z.shiftr z k < 2 ^ Z.of_nat n) as Hr.
    { intros z [Hz1 Hz2]. rewrite Z.shiftr_div_pow2 by (unfold k; lia). split; [apply Z.div_pos; lia|].
      apply Z.div_lt_upper_bound; [lia|]. rewrite <- Z.pow_add_r by (unfold k; lia).
      unfold k. replace (8 - Z.of_nat n + Z.of_nat n) with 8 by lia. lia. }
    by rewrite !Z.mod_small in E by (by apply Hr).
Qed.

Lemma take_buf_bits (b : bytes) i n x :
  b !! i = Some x → (n <= 8)%nat →
  take (8 * i + n) (buf_bits b) = buf_bits (take i b) ++ take n (byte_bits x).
Proof.
  intros Hx Hn. rewrite <- (take_drop i b) at 1. rewrite buf_bits_app.
  assert (length (buf_bits (take i b)) = (8 * i)%nat) as Hl.
  { rewrite length_buf_bits, length_take. apply lookup_lt_Some in Hx. lia. }
  rewrite take_app_add' by done. f_equal.
  rewrite (drop_S _ _ _ Hx), buf_bits_cons, take_app_le; [done|].
  unfold byte_bits. by rewrite length_val_bits.
Qed.

Lemma buf_bits_inj a b :
  Forall is_byte a → Forall is_byte b → length a = length b → buf_bits a = buf_bits b → a = b.
Proof.
  intros Ha. revert b. induction Ha as [|x a Hx Ha IH]; intros b Hb Hl E; destruct Hb as [|y b Hy Hb]; try done.
  rewrite !buf_bits_cons in E. apply app_inj_1 in E as [E1 E2]; [|by unfold byte_bits; rewrite !length_val_bits].
  f_equal; [by apply byte_bits_inj|]. apply IH; [done|by injection Hl|done].
Qed.

Lemma ipv6_match_ok a f n :
  Forall is_byte a → Forall is_byte f → zlen a = 16 → zlen f = 16 → 0 <= n <= 128 →
  ipv6_match a f n = Ok (bool_decide (take (Z.to_nat n) (buf_bits a) = take (Z.to_nat n) (buf_bits f))).
Proof.
  intros Ba Bf La Lf Hn. unfold ipv6_match. assert (u8 n = n) as -> by (apply Z.mod_small; lia).
  pose proof (Z.div_mod n 8 ltac:(lia)) as Hdm. pose proof (Z.mod_pos_bound n 8 ltac:(lia)) as Hm.
  set (i := n / 8) in *. set (r := n mod 8) in *.
  rewrite !buf_sub_ok by lia. cbn [mbind outcome_bind]. rewrite !drop_0.
  assert (Z.to_nat n = (8 * Z.to_nat i + Z.to_nat r)%nat) as -> by lia.
  assert (∀ (b : bool) (P : Prop) `{Decision P}, (b = true ↔ P) → @Ok bool b = Ok (bool_decide P)) as Hiff.
  { intros b P D H. f_equal. case_bool_decide as HP; destruct b; intuition congruence. }
  assert (∀ u v : list bool, buf_bits (take (Z.to_nat i) a) ++ u = buf_bits (take (Z.to_nat i) f) ++ v ↔
    take (Z.to_nat i) a = take (Z.to_nat i) f ∧ u = v) as Happ.
  { intros u v. split; [|by intros [-> ->]]. intros E.
    apply app_inj_1 in E as [E1 E2]; [|rewrite !length_buf_bits, !length_take; unfold zlen in *; lia].
    split; [|done]. apply buf_bits_inj; [by apply Forall_take..| |done]. rewrite !length_take. unfold zlen in *. lia. }
  destruct (Z.ltb_spec 0 r) as [Hr|Hr].
  - destruct (buf_get_ok a i) as (x & Hx & Ex); [lia|]. destruct (buf_get_ok f i) as (y & Hy & Ey); [lia|].
    rewrite Ex, Ey. cbn [mbind outcome_bind].
    rewrite (take_buf_bits a _ _ x), (take_buf_bits f _ _ y) by (done || lia).
    pose proof (byte_prefix x y (Z.to_nat r)) as Hb. rewrite Z2Nat.id in Hb by lia.
    specialize (Hb (Forall_lookup_1 _ _ _ _ Ba Hx) (Forall_lookup_1 _ _ _ _ Bf Hy) ltac:(lia)).
    case_bool_decide as E; cbn [negb]; apply Hiff; rewrite Happ, ?Z.eqb_eq, ?Hb; [tauto|].
    split; [done|]. by intros [? _].
  - assert (Z.to_nat r = 0%nat) as -> by lia. rewrite Nat.add_0_r, !take_buf_bits_bytes.
    specialize (Happ [] []). rewrite !app_nil_r in Happ.
    case_bool_decide as E; cbn [negb]; apply Hiff; rewrite Happ; intuition congruence.
Qed.

(** ** Matching a packet never fails *)

Definition component_ok (c : packet_filter_component_t) : Prop :=
  match c with
  | PF_COMP_IPV6_REMOTE_ADDR_PREFIX addr n | PF_COMP_IPV6_LOCAL_ADDR_PREFIX addr n =>
      Forall is_byte addr ∧ zlen addr = 16 ∧ 0 <= n <= 128
  | _ => True
  end.

Definition pf_ok (pf : packet_filter_decoded_t) : Prop := Forall component_ok (components pf).

Definition addrs_ok (p : packet) : Prop :=
  ∀ s d, ip6 p = Some (s, d) → Forall is_byte s ∧ zlen s = 16 ∧ Forall is_byte d ∧ zlen d = 16.

Lemma buf_get_returns b i : 0 <= i < zlen b → returns (buf_get b i) (λ _, True).
Proof. intros H. destruct (buf_get_ok b i H) as (x & _ & ->). by apply returns_ok. Qed.

Lemma read_ports_total pkt pr off : 0 <= off → returns (read_ports pkt pr off) (λ _, True).
Proof.
  intros Ho. unfold read_ports. destruct (_ || _); cbn [andb]; [|by apply returns_ok].
  destruct (Z.leb_spec (off + 4) (zlen pkt)); [|by apply returns_ok]. unfold ntohs_at.
  destruct (buf_get_ok pkt off) as (? & _ & ->); [lia|]. destruct (buf_get_ok pkt (off + 1)) as (? & _ & ->); [lia|].
  destruct (buf_get_ok pkt (off + 2)) as (? & _ & ->); [lia|]. cbn [mbind outcome_bind].
  destruct (buf_get_ok pkt (off + 2 + 1)) as (? & _ & ->); [lia|]. by apply returns_ok.
Qed.

Lemma load32_total pkt off : 0 <= off → off + 4 <= zlen pkt → returns (load32 pkt off) (λ _, True).
Proof.
  intros. unfold load32. destruct (buf_get_ok pkt off) as (? & _ & ->); [lia|].
  destruct (buf_get_ok pkt (off + 1)) as (? & _ & ->); [lia|]. destruct (buf_get_ok pkt (off + 2)) as (? & _ & ->); [lia|].
  destruct (buf_get_ok pkt (off + 3)) as (? & _ & ->); [lia|]. by apply returns_ok.
Qed.

Lemma parse_packet_total pkt :
  Forall is_byte pkt → 20 <= zlen pkt →
  returns (parse_packet pkt) (λ o, ∀ p, o = Some p → addrs_ok p).
Proof.
  intros Hb Hl. unfold parse_packet.
  destruct (buf_get_ok pkt 0) as (b0 & _ & ->); [lia|]. cbn [mbind outcome_bind].
  assert (0 <= Z.land b0 15) as Hi by (apply Z.land_nonneg; lia).
  destruct (_ =? 4).
  - destruct (Z.ltb_spec (Z.land b0 15) 5); cbn [orb]; [by apply returns_ok|].
    destruct (Z.ltb_spec (zlen pkt) (Z.land b0 15 * 4)); [by apply returns_ok|].
    destruct (buf_get_ok pkt 9) as (pr & _ & ->); [lia|]. cbn [mbind outcome_bind].
    destruct (load32_total pkt 12) as (s & -> & _); [lia..|]. destruct (load32_total pkt 16) as (d & -> & _); [lia..|].
    cbn [mbind outcome_bind]. destruct (read_ports_total pkt pr (Z.land b0 15 * 4)) as ([? ?] & -> & _); [lia|].
    apply returns_ok. by intros p [= <-].
  - destruct (_ =? 6); [|by apply returns_ok]. destruct (Z.ltb_spec (zlen pkt) 40); [by apply returns_ok|].
    destruct (buf_get_ok pkt 6) as (pr & _ & ->); [lia|]. cbn [mbind outcome_bind].
    rewrite !buf_sub_ok by lia. cbn [mbind outcome_bind].
    destruct (read_ports_total pkt pr 40) as ([? ?] & -> & _); [lia|].
    apply returns_ok. intros p [= <-] s d [= <- <-].
    split_and!; try (by apply Forall_take, Forall_drop); rewrite zlen_take; (lia || rewrite zlen_drop; lia).
Qed.

Lemma component_match_total p ul c : addrs_ok p → component_ok c → returns (component_match p ul c) (λ _, True).
Proof.
  intros Ha Hc. destruct c; cbn [component_match component_ok] in *; try (by apply returns_ok).
  all: try (destruct (ip4 p) as [[]|]; by apply returns_ok).
  all: destruct (ip6 p) as [[s d]|] eqn:E; [|by apply returns_ok].
  all: destruct (Ha s d E) as (? & ? & ? & ?), Hc as (? & ? & ?).
  all: destruct ul; rewrite ipv6_match_ok by done; by apply returns_ok.
Qed.

Lemma components_match_total p ul l : addrs_ok p → Forall component_ok l → returns (components_match p ul l) (λ _, True).
Proof.
  intros Ha. induction 1 as [|c l Hc Hl IH]; cbn [components_match]; [by apply returns_ok|].
  destruct (component_match_total p ul c Ha Hc) as ([] & -> & _); cbn [mbind outcome_bind negb]; [done|by apply returns_ok].
Qed.

Lemma packet_filter_match_total pf pkt : Forall is_byte pkt → pf_ok pf → returns (packet_filter_match pf pkt) (λ _, True).
Proof.
  intros Hb Hp. unfold packet_filter_match. destruct (_ =? 0); cbn [orb]; [by apply returns_ok|].
  destruct (Z.ltb_spec (zlen pkt) 20); [by apply returns_ok|].
  destruct (parse_packet_total pkt Hb) as (o & -> & Ho); [lia|]. cbn [mbind outcome_bind].
  destruct o as [p|]; [|by apply returns_ok]. apply components_match_total; [by apply Ho|done].
Qed.

(** ** The flow chosen *)

(** A rule that takes the packet: not the default one, with an uplink filter that
    matches. *)
Definition takes (pkt : bytes) (r : nr_sdap_qos_rule_t) : Prop :=
  is_default r = false ∧
  ∃ pf, pf ∈ contents (packet_filters r) ∧ is_uplink pf = true ∧ packet_filter_match pf pkt = Ok true.

Definition rule_ok (r : nr_sdap_qos_rule_t) : Prop :=
  seq_arr_wf (packet_filters r) ∧ Forall pf_ok (contents (packet_filters r)).

Lemma match_filters_ok l pkt :
  Forall is_byte pkt → Forall pf_ok l →
  returns (match_filters l pkt) (λ b, b = true ↔
    ∃ pf, pf ∈ l ∧ is_uplink pf = true ∧ packet_filter_match pf pkt = Ok true).
Proof.
  intros Hb. induction 1 as [|pf l Hp Hl IH]; cbn [match_filters].
  { apply returns_ok. split; [done|]. by intros (pf & Hpf%not_elem_of_nil & _). }
  destruct (is_uplink pf) eqn:Eu; cbn [negb].
  - destruct (packet_filter_match_total pf pkt Hb Hp) as ([] & E & _); rewrite E; cbn [mbind outcome_bind].
    + apply returns_ok. split; [|done]. intros _. exists pf. split; [apply list_elem_of_here|done].
    + eapply returns_mono; [exact IH|]. cbn beta. intros b ->. setoid_rewrite elem_of_cons. split.
      * intros (x & ? & ?). eauto.
      * intros (x & [->|?] & ? & ?); [congruence|eauto].
  - eapply returns_mono; [exact IH|]. cbn beta. intros b ->. setoid_rewrite elem_of_cons. split.
    + intros (x & ? & ?). eauto.
    + intros (x & [->|?] & ? & ?); [congruence|eauto].
Qed.

Lemma match_rules_ok l dflt pkt :
  Forall is_byte pkt → Forall rule_ok l →
  returns (match_rules l dflt pkt) (λ q,
    (∃ i r, l !! i = Some r ∧ takes pkt r ∧ q = r_qfi r ∧ ∀ j r', l !! j = Some r' → takes pkt r' → (i <= j)%nat) ∨
    (q = dflt ∧ ∀ r, r ∈ l → ¬ takes pkt r)).
Proof.
  intros Hb. induction 1 as [|r l [Hr1 Hr2] Hl IH]; cbn [match_rules].
  { apply returns_ok. right. split; [done|]. by intros r Hr%not_elem_of_nil. }
  assert (¬ takes pkt r → returns (match_rules l dflt pkt) (λ q,
    (∃ i r', (r :: l) !! i = Some r' ∧ takes pkt r' ∧ q = r_qfi r' ∧
      ∀ j r', (r :: l) !! j = Some r' → takes pkt r' → (i <= j)%nat) ∨
    (q = dflt ∧ ∀ r', r' ∈ r :: l → ¬ takes pkt r'))) as Hskip.
  { intros Hn. eapply returns_mono; [exact IH|]. cbn beta. intros q [(i & r' & Hi & Ht & -> & Hm)|[-> Hm]].
    - left. exists (S i), r'. split_and!; try done. intros [|j] r'' Hj Ht''; [|specialize (Hm j r'' Hj Ht''); lia].
      cbn in Hj. congruence.
    - right. split; [done|]. intros r' [->|Hr']%elem_of_cons; [done|by apply Hm]. }
  destruct (match_filters_ok _ pkt Hb Hr2) as (b & E & Hm).
  destruct (seq_arr_size (packet_filters r) =? 0) eqn:Es; cbn [orb].
  - apply Hskip. intros (_ & pf & Hpf & _). apply Z.eqb_eq in Es. pose proof (zlen_contents _ Hr1) as Hz.
    unfold seq_arr_size in Es. rewrite Es in Hz. unfold zlen in Hz.
    destruct (contents (packet_filters r)); [by apply not_elem_of_nil in Hpf|cbn in Hz; lia].
  - destruct (is_default r) eqn:Ed; [apply Hskip; intros [? _]; congruence|].
    rewrite E. cbn [mbind outcome_bind]. destruct b.
    + apply returns_ok. left. exists 0%nat, r. split_and!; [done| |done|lia]. split; [done|]. by apply Hm.
    + apply Hskip. intros [_ Ht]. apply Hm in Ht. done.
Qed.

(** ** The rules as a list *)

Record rule_spec := mk_rs {
  rs_qfi : Z;
  rs_id : Z;
  rs_precedence : Z;
  rs_default : bool;
  rs_filters : list packet_filter_decoded_t;
}.

Definition abs_rule (r : nr_sdap_qos_rule_t) : rule_spec :=
  mk_rs (r_qfi r) (rule_id r) (precedence r) (is_default r) (contents (packet_filters r)).
Definition abs_rules (e : nr_sdap_entity_t) : list rule_spec := abs_rule <$> contents (qos_rules e).

Inductive rule_op :=
| RuleAdd (id q prec : Z) (dflt : bool) (pfs : list packet_filter_decoded_t)
| RuleRemove (id : Z)
| RuleUpdate (id q prec : Z) (dflt : bool) (pfs : list packet_filter_decoded_t) (replace : bool)
| RuleDeletePf (id : Z) (ids : list Z).

Definition rule_op_ok (op : rule_op) : Prop :=
  match op with
  | RuleAdd _ _ _ _ pfs | RuleUpdate _ _ _ _ pfs _ => Forall pf_ok pfs
  | _ => True
  end.

(** The first rule with an identifier, if any. *)
Definition rule_at (l : list rule_spec) (id : Z) : option (nat * rule_spec) := list_find (λ r, rs_id r = id) l.

Definition delete_pf (fs : list packet_filter_decoded_t) (id : Z) : list packet_filter_decoded_t :=
  match list_find (λ pf, pf_id pf = id) fs with Some (i, _) => delete i fs | None => fs end.

(** What each operation means on the list, up to the order. *)
Definition spec_rules (l : list rule_spec) (op : rule_op) : list rule_spec :=
  match op with
  | RuleAdd id q prec dflt pfs => if 64 <=? zlen l then l else l ++ [mk_rs q id prec dflt pfs]
  | RuleRemove id => match rule_at l id with Some (i, _) => delete i l | None => l end
  | RuleUpdate id q prec dflt pfs replace =>
      match rule_at l id with
      | Some (i, r) => <[i := mk_rs q id prec dflt (if replace then pfs else rs_filters r ++ pfs)]> l
      | None => l
      end
  | RuleDeletePf id ids =>
      match rule_at l id with
      | Some (i, r) => <[i := mk_rs (rs_qfi r) (rs_id r) (rs_precedence r) (rs_default r)
                                    (foldl delete_pf (rs_filters r) ids)]> l
      | None => l
      end
  end.

(** The default flow: the one of the default rule added or updated last. *)
Definition spec_qfi (l : list rule_spec) (q0 : Z) (op : rule_op) : Z :=
  match op with
  | RuleAdd _ q _ dflt _ => if negb (64 <=? zlen l) && dflt then q else q0
  | RuleUpdate id q _ dflt _ _ => if bool_decide (is_Some (rule_at l id)) && dflt then q else q0
  | _ => q0
  end.

Definition by_precedence (l : list nr_sdap_qos_rule_t) : Prop := StronglySorted Z.le (precedence <$> l).

Record rules_inv (e : nr_sdap_entity_t) : Prop := {
  ri_wf : seq_arr_wf (qos_rules e);
  ri_len : zlen (contents (qos_rules e)) <= 64;
  ri_sorted : by_precedence (contents (qos_rules e));
  ri_rules : Forall rule_ok (contents (qos_rules e));
  ri_use : use_packet_filters e = bool_decide (contents (qos_rules e) ≠ []);
}.

(** Everything but the rules, the default flow and the switch. *)
Definition same_but_rules (e e' : nr_sdap_entity_t) : Prop :=
  e' = e <| qos_rules := qos_rules e' |> <| qfi := qfi e' |> <| use_packet_filters := use_packet_filters e' |>.

Section Rules.
Variable qsort : list nr_sdap_qos_rule_t → list nr_sdap_qos_rule_t.
Variable junk_rule : nr_sdap_qos_rule_t.
Variable junk_pf : packet_filter_decoded_t.
(** [qsort] sorts its array in ascending order of [compare_precedence]. *)
Hypothesis qsort_perm : ∀ l, qsort l ≡ₚ l.
Hypothesis qsort_sorted : ∀ l, by_precedence (qsort l).

Definition rule_exec (e : nr_sdap_entity_t) (op : rule_op) : outcome nr_sdap_entity_t :=
  match op with
  | RuleAdd id q prec dflt pfs => rule_add qsort junk_rule junk_pf e id q prec dflt pfs
  | RuleRemove id => rule_remove e id
  | RuleUpdate id q prec dflt pfs replace => rule_update qsort junk_pf e id q prec dflt pfs replace
  | RuleDeletePf id ids => rule_delete_pf e id ids
  end.

Fixpoint rule_run (e : nr_sdap_entity_t) (ops : list rule_op) : outcome nr_sdap_entity_t :=
  match ops with [] => Ok e | op :: ops => e ← rule_exec e op; rule_run e ops end.

Lemma add_packet_filters_ok fs pfs :
  seq_arr_wf fs → Forall pf_ok pfs → Forall pf_ok (contents fs) →
  returns (add_packet_filters junk_pf fs pfs) (λ fs', seq_arr_wf fs' ∧ contents fs' = contents fs ++ pfs ∧
    Forall pf_ok (contents fs')).
Proof.
  intros W Hp Hf. revert fs W Hf. induction Hp as [|pf pfs Hpf Hp IH]; intros fs W Hf; cbn [add_packet_filters].
  { apply returns_ok. by rewrite app_nil_r. }
  eapply returns_bind; [by apply push_back_ok|]. cbn beta. intros fs' [W' E].
  eapply returns_mono; [apply IH; [done|rewrite E; by apply Forall_app_2; auto]|]. cbn beta.
  intros fs'' (? & E' & ?). split_and!; [done| |done]. by rewrite E', E, <- app_assoc.
Qed.

Lemma find_erase_ok {A} (zero : A) arr f :
  seq_arr_wf arr →
  ∃ arr', (it ← find_if arr f; match it with Some it => seq_arr_erase zero arr it | None => Ok arr end) = Ok arr' ∧
    seq_arr_wf arr' ∧ contents arr' = match list_find (λ x, f x = true) (contents arr) with
                                      | Some (i, _) => delete i (contents arr) | None => contents arr end.
Proof.
  intros W. rewrite find_if_ok by done. cbn [mbind outcome_bind].
  destruct (list_find (λ x, f x = true) (contents arr)) as [[i x]|] eqn:E; cbn; [|by exists arr].
  apply list_find_Some in E as (Hi & _ & _). apply lookup_lt_Some in Hi.
  pose proof (zlen_contents arr W) as Hz. unfold zlen in Hz.
  destruct (erase_it_ok zero arr (Z.of_nat i) (Z.of_nat i + 1) W) as (arr' & E & W' & Hc); [lia..|].
  exists arr'. split_and!; [done..|]. rewrite Hc, delete_take_drop. do 2 f_equal; lia.
Qed.

Lemma list_find_ext {A} (P Q : A → Prop) `{∀ x, Decision (P x), ∀ x, Decision (Q x)} l :
  (∀ x, P x ↔ Q x) → list_find P l = list_find Q l.
Proof.
  intros HPQ. induction l as [|x l IH]; [done|]. cbn. rewrite IH. specialize (HPQ x).
  destruct (decide (P x)), (decide (Q x)); tauto.
Qed.

Lemma delete_filters_ok fs ids :
  seq_arr_wf fs → Forall pf_ok (contents fs) →
  returns (delete_filters fs ids) (λ fs', seq_arr_wf fs' ∧ contents fs' = foldl delete_pf (contents fs) ids ∧
    Forall pf_ok (contents fs')).
Proof.
  revert fs. induction ids as [|id ids IH]; intros fs W Hf; cbn [delete_filters foldl]; [by apply returns_ok|].
  destruct (find_erase_ok no_pf fs (λ pf, id =? pf_id pf) W) as (fs' & E & W' & Hc).
  rewrite (list_find_ext _ (λ pf, pf_id pf = id)) in Hc by (intros pf; rewrite Z.eqb_eq; done).
  assert (contents fs' = delete_pf (contents fs) id) as Hd by exact Hc.
  destruct (find_if fs (λ pf, id =? pf_id pf)) as [it| | |] eqn:Ef; try discriminate E. cbn [mbind outcome_bind] in E |- *.
  rewrite E. cbn [mbind outcome_bind]. rewrite <- Hd. apply IH; [done|]. rewrite Hd. unfold delete_pf.
  destruct (list_find _ _) as [[i ?]|]; [by apply Forall_delete|done].
Qed.

Lemma find_qos_rule_ok arr id :
  seq_arr_wf arr →
  find_qos_rule arr id = Ok ((λ r, Z.of_nat r.1) <$> rule_at (abs_rule <$> contents arr) id) ∧
  ∀ i r, rule_at (abs_rule <$> contents arr) id = Some (i, r) →
    ∃ x, contents arr !! i = Some x ∧ slot arr (Z.of_nat i) = Ok x ∧ abs_rule x = r ∧ rs_id r = id.
Proof.
  intros W. unfold find_qos_rule, rule_at. split.
  - rewrite find_if_ok by done. rewrite (list_find_ext _ (λ r, rs_id (abs_rule r) = id)) by (intros r; rewrite Z.eqb_eq; done).
    rewrite (list_find_fmap abs_rule (λ r, rs_id r = id) (contents arr)).
    unfold compose. by destruct (list_find _ (contents arr)) as [[? ?]|].
  - intros i r E. apply list_find_Some in E as (Hi & Hid & _).
    rewrite list_lookup_fmap in Hi. destruct (contents arr !! i) as [x|] eqn:Ex; [|done]. injection Hi as <-.
    exists x. split_and!; try done. by apply contents_slot.
Qed.

Lemma sort_rules_ok arr :
  seq_arr_wf arr → seq_arr_wf (sort_rules qsort arr) ∧ contents (sort_rules qsort arr) = qsort (contents arr).
Proof.
  intros W. pose proof (zlen_contents arr W) as Hz. destruct W as [H1 H2 H3].
  assert (length (qsort (contents arr)) = Z.to_nat (sa_size arr)) as Hl.
  { rewrite qsort_perm. unfold zlen in Hz. lia. }
  split; [split|]; cbn [sort_rules sa_data sa_size sa_cap]; [|done..|].
  - rewrite zlen_app, zlen_drop by lia. unfold zlen at 1. lia.
  - unfold contents at 1. cbn [sort_rules sa_data sa_size]. by apply take_app_length'.
Qed.

Lemma put_rule_ok arr i x :
  seq_arr_wf arr → (i < length (contents arr))%nat →
  seq_arr_wf (put_rule arr (Z.of_nat i) x) ∧ contents (put_rule arr (Z.of_nat i) x) = <[i := x]> (contents arr).
Proof.
  intros W Hi. pose proof (zlen_contents arr W) as Hz. destruct W as [H1 H2 H3]. split; [split|]; cbn; [|done..|].
  - unfold zlen in *. by rewrite length_insert.
  - unfold contents. cbn. rewrite Nat2Z.id. apply take_insert_lt. unfold zlen in Hz. lia.
Qed.

Lemma sorted_delete (l : list Z) i : StronglySorted Z.le l → StronglySorted Z.le (delete i l).
Proof.
  intros H. revert i. induction H as [|x l Hl IH Hx]; intros [|i]; cbn; try (done || constructor).
  - apply IH.
  - by apply Forall_delete.
Qed.

Lemma list_fmap_del {A B} (f : A → B) (l : list A) (i : nat) : f <$> delete i l = delete i (f <$> l).
Proof. revert i. induction l as [|x l IH]; intros [|i]; cbn; try done. f_equal. apply IH. Qed.

(** What an operation that sorts the rules establishes. *)
Lemma sorted_rules_inv e arr e' :
  seq_arr_wf arr → zlen (contents arr) <= 64 → Forall rule_ok (contents arr) → contents arr ≠ [] →
  qos_rules e' = sort_rules qsort arr → use_packet_filters e' = true → same_but_rules e e' →
  rules_inv e' ∧ abs_rules e' ≡ₚ abs_rule <$> contents arr ∧ same_but_rules e e'.
Proof.
  intros W Hl Hr Hne Eq Eu Hs. destruct (sort_rules_ok arr W) as [W' Hc].
  assert (qsort (contents arr) ≠ []) as Hn.
  { intros E. pose proof (qsort_perm (contents arr)) as Hp. rewrite E in Hp. by apply Permutation_nil_l in Hp. }
  split_and!; [split| |done]; rewrite ?Eq, ?Hc; try done.
  - unfold zlen. by rewrite qsort_perm.
  - by rewrite qsort_perm.
  - rewrite Eu. by rewrite bool_decide_eq_true_2.
  - unfold abs_rules. rewrite Eq, Hc. by rewrite qsort_perm.
Qed.

Definition step_ok (e : nr_sdap_entity_t) (op : rule_op) (e' : nr_sdap_entity_t) : Prop :=
  rules_inv e' ∧ abs_rules e' ≡ₚ spec_rules (abs_rules e) op ∧ qfi e' = spec_qfi (abs_rules e) (qfi e) op ∧
  same_but_rules e e'.

Lemma step_ok_refl e op :
  rules_inv e → spec_rules (abs_rules e) op = abs_rules e → spec_qfi (abs_rules e) (qfi e) op = qfi e → step_ok e op e.
Proof. intros H1 H2 H3. unfold step_ok. rewrite H2, H3. split_and!; try done. by destruct e. Qed.

Lemma zlen_abs e : rules_inv e → zlen (abs_rules e) = sa_size (qos_rules e).
Proof. intros H. unfold abs_rules, zlen. rewrite length_fmap. apply (zlen_contents _ (ri_wf _ H)). Qed.

Lemma rule_add_ok e id q prec dflt pfs :
  rules_inv e → Forall pf_ok pfs →
  returns (rule_add qsort junk_rule junk_pf e id q prec dflt pfs) (step_ok e (RuleAdd id q prec dflt pfs)).
Proof.
  intros I Hp. pose proof I as [W Hl Hs Hr Hu]. pose proof (zlen_abs e I) as Ha. unfold rule_add.
  destruct (seq_arr_init_ok no_pf) as [W0 E0].
  eapply returns_bind; [apply add_packet_filters_ok; [exact W0|exact Hp|by rewrite E0]|].
  cbn beta. rewrite E0. cbn [app]. intros fs (Wf & Ef & Hf). unfold seq_arr_size, MAX_NUM_SDAP_QOS_RULES.
  destruct (Z.leb_spec 64 (sa_size (qos_rules e))) as [Hb|Hb].
  { apply returns_ok. apply step_ok_refl; [done|..]; cbn; by rewrite Ha, (proj2 (Z.leb_le _ _)) by lia. }
  eapply returns_bind; [by apply push_back_ok|]. cbn beta. intros arr [Wa Ea]. apply returns_ok.
  set (e' := _ <| use_packet_filters := true |>).
  assert (qfi e' = if dflt then q else qfi e) as Hq by (unfold e'; by destruct dflt).
  destruct (sorted_rules_inv e arr e') as (I' & Hperm & Hsame); try (unfold e'; by destruct dflt).
  - rewrite Ea, zlen_app. pose proof (zlen_contents _ W). change (zlen [_]) with 1. lia.
  - rewrite Ea. apply Forall_app. split; [done|]. constructor; [|done]. split; [done|]. cbn. exact Hf.
  - rewrite Ea. by destruct (contents (qos_rules e)).
  - split_and!; [done| |rewrite Hq|done]; cbn [spec_rules spec_qfi]; rewrite Ha, (proj2 (Z.leb_gt _ _)) by lia; [|done].
    rewrite Hperm, Ea, fmap_app. cbn. unfold abs_rule at 2. cbn. by rewrite Ef.
Qed.

Lemma use_filters_delete e i (l' := delete i (contents (qos_rules e))) :
  rules_inv e → by_precedence l' ∧ Forall rule_ok l' ∧ zlen l' <= 64.
Proof.
  intros [W Hl Hs Hr Hu]. unfold l', by_precedence. rewrite list_fmap_del. split_and!.
  - by apply sorted_delete.
  - by apply Forall_delete.
  - unfold zlen in *.
    rewrite delete_take_drop, length_app, length_take, length_drop. lia.
Qed.

Lemma rule_remove_ok e id : rules_inv e → returns (rule_remove e id) (step_ok e (RuleRemove id)).
Proof.
  intros I. pose proof I as [W Hl Hs Hr Hu]. unfold rule_remove.
  destruct (find_erase_ok no_rule (qos_rules e) (λ r, id =? rule_id r) W) as (arr & E & Wa & Hc).
  destruct (find_qos_rule_ok (qos_rules e) id W) as [Hf _]. unfold find_qos_rule in *. rewrite Hf in E |- *.
  fold (abs_rules e) in *. cbn [mbind outcome_bind] in E |- *.
  rewrite (list_find_ext _ (λ r, rs_id (abs_rule r) = id)) in Hc by (intros r; rewrite Z.eqb_eq; done).
  assert (abs_rule <$> contents arr = spec_rules (abs_rules e) (RuleRemove id)) as Hspec.
  { cbn [spec_rules]. unfold rule_at, abs_rules. rewrite (list_find_fmap abs_rule (λ r, rs_id r = id) (contents (qos_rules e))).
    unfold compose. rewrite Hc. destruct (list_find _ (contents (qos_rules e))) as [[i x]|]; cbn; [|done]. apply list_fmap_del. }
  assert (by_precedence (contents arr) ∧ Forall rule_ok (contents arr) ∧ zlen (contents arr) <= 64) as (Hs' & Hr' & Hl').
  { rewrite Hc. destruct (list_find _ _) as [[i x]|]; [by apply use_filters_delete|done]. }
  assert (seq_arr_size arr = zlen (contents arr)) as Hz by (symmetry; by apply zlen_contents).
  assert (∀ e1, e1 = e <| qos_rules := arr |> → step_ok e (RuleRemove id)
    (if seq_arr_size (qos_rules e1) =? 0 then e1 <| use_packet_filters := false |> else e1)) as Hfin.
  { intros e1 ->. cbn. rewrite Hz. destruct (Z.eqb_spec (zlen (contents arr)) 0) as [En|En].
    - split_and!; [split; cbn; try done| |done|done].
      + rewrite bool_decide_eq_false_2; [done|]. unfold zlen in En. destruct (contents arr); [tauto|cbn in En; lia].
      + change (abs_rules _) with (abs_rule <$> contents arr) at 1. by rewrite Hspec.
    - split_and!; [split; cbn; try done| |done|done].
      + rewrite Hu. apply bool_decide_ext. split; [intros _ Ec; by rewrite Ec in En|].
        intros Hne Ec. rewrite Ec in Hc. cbn in Hc. by rewrite Hc in Hne.
      + change (abs_rules _) with (abs_rule <$> contents arr) at 1. by rewrite Hspec. }
  destruct (rule_at (abs_rules e) id) as [[i r]|] eqn:Er; cbn in E |- *.
  - rewrite E. cbn [mbind outcome_bind]. apply returns_ok. by apply Hfin.
  - injection E as E. apply returns_ok. apply Hfin. rewrite <- E. by destruct e.
Qed.

Lemma rule_update_ok e id q prec dflt pfs replace :
  rules_inv e → Forall pf_ok pfs →
  returns (rule_update qsort junk_pf e id q prec dflt pfs replace) (step_ok e (RuleUpdate id q prec dflt pfs replace)).
Proof.
  intros I Hp. pose proof I as [W Hl Hs Hr Hu]. unfold rule_update.
  destruct (find_qos_rule_ok (qos_rules e) id W) as [-> Hat]. fold (abs_rules e) in *. cbn [mbind outcome_bind].
  destruct (rule_at (abs_rules e) id) as [[i r]|] eqn:Er; cbn [fmap option_fmap option_map fst].
  2:{ apply returns_ok. apply step_ok_refl; [done|..]; cbn [spec_rules spec_qfi]; by rewrite Er. }
  destruct (Hat i r eq_refl) as (x & Hx & Hslot & Hr0 & Hid). rewrite Hslot. cbn [mbind outcome_bind].
  destruct (Forall_lookup_1 _ _ _ _ Hr Hx) as [Wx Hfx]. destruct (seq_arr_init_ok no_pf) as [W0 E0].
  assert (returns (add_packet_filters junk_pf (if replace then seq_arr_init no_pf else packet_filters x) pfs)
    (λ fs, seq_arr_wf fs ∧ contents fs = (if replace then pfs else rs_filters r ++ pfs) ∧ Forall pf_ok (contents fs))) as Hadd.
  { rewrite <- Hr0. cbn [abs_rule rs_filters]. destruct replace; [|by apply add_packet_filters_ok].
    eapply returns_mono; [by apply add_packet_filters_ok; [|done|rewrite E0]|]. cbn beta. by rewrite E0. }
  eapply returns_bind; [exact Hadd|]. cbn beta. intros fs (Wf & Ef & Hf). apply returns_ok.
  set (y := _ <| packet_filters := fs |>). pose proof (lookup_lt_Some _ _ _ Hx) as Hi.
  destruct (put_rule_ok (qos_rules e) i y W Hi) as [Wp Ep].
  set (e' := _ <| qos_rules := _ |>).
  assert (qfi e' = if dflt then q else qfi e) as Hq by (unfold e'; by destruct dflt).
  assert (contents (qos_rules e) ≠ []) as Hne by (intros En; by rewrite En in Hi; cbn in Hi; lia).
  assert (use_packet_filters e' = true) as Hu' by (transitivity (use_packet_filters e);
    [unfold e'; by destruct dflt|rewrite Hu; by apply bool_decide_eq_true_2]).
  destruct (sorted_rules_inv e (put_rule (qos_rules e) (Z.of_nat i) y) e') as (I' & Hperm & Hsame);
    try done; try (unfold e'; by destruct e, dflt); rewrite ?Ep.
  - unfold zlen. rewrite length_insert. exact Hl.
  - apply Forall_insert; [done|]. split; [done|]. exact Hf.
  - intros En. apply (f_equal length) in En. rewrite length_insert in En. cbn in En. lia.
  - split_and!; [done| |rewrite Hq|done]; cbn [spec_rules spec_qfi]; rewrite Er; [|done].
    rewrite Hperm, Ep, list_fmap_insert. unfold abs_rules. unfold abs_rule at 1, y. cbn. rewrite Ef.
    assert (rule_id x = id) as -> by (rewrite <- Hid, <- Hr0; done). done.
Qed.

Lemma rule_delete_pf_ok e id ids : rules_inv e → returns (rule_delete_pf e id ids) (step_ok e (RuleDeletePf id ids)).
Proof.
  intros I. pose proof I as [W Hl Hs Hr Hu]. unfold rule_delete_pf.
  destruct (find_qos_rule_ok (qos_rules e) id W) as [-> Hat]. fold (abs_rules e) in *. cbn [mbind outcome_bind].
  destruct (rule_at (abs_rules e) id) as [[i r]|] eqn:Er; cbn [fmap option_fmap option_map fst].
  2:{ apply returns_ok. apply step_ok_refl; [done|..]; cbn [spec_rules spec_qfi]; by rewrite ?Er. }
  destruct (Hat i r eq_refl) as (x & Hx & Hslot & Hr0 & Hid). rewrite Hslot. cbn [mbind outcome_bind].
  destruct (Forall_lookup_1 _ _ _ _ Hr Hx) as [Wx Hfx].
  eapply returns_bind; [by apply delete_filters_ok|]. cbn beta. intros fs (Wf & Ef & Hf). apply returns_ok.
  set (y := x <| packet_filters := fs |>). pose proof (lookup_lt_Some _ _ _ Hx) as Hi.
  destruct (put_rule_ok (qos_rules e) i y W Hi) as [Wp Ep].
  split_and!; [split; cbn [qos_rules use_packet_filters set_field set_sdap_qos_rules]; rewrite ?Ep; try done| |done|done].
  - unfold zlen. rewrite length_insert. exact Hl.
  - unfold by_precedence. rewrite list_fmap_insert. change (precedence y) with (precedence x).
    rewrite list_insert_id; [done|]. rewrite list_lookup_fmap, Hx. done.
  - apply Forall_insert; [done|]. split; [done|]. exact Hf.
  - rewrite Hu. apply bool_decide_ext. by rewrite <- !length_zero_iff_nil, length_insert.
  - unfold abs_rules at 1. cbn [qos_rules set_field set_sdap_qos_rules]. rewrite Ep, list_fmap_insert. cbn [spec_rules].
    rewrite Er. rewrite <- Hr0. unfold abs_rules, y. unfold abs_rule at 1. cbn. by rewrite Ef.
Qed.

Lemma rule_exec_ok e op : rules_inv e → rule_op_ok op → returns (rule_exec e op) (step_ok e op).
Proof.
  intros I Ho. destruct op; cbn [rule_exec]; [by apply rule_add_ok|by apply rule_remove_ok|
    by apply rule_update_ok|by apply rule_delete_pf_ok].
Qed.

(** A run of the specification: after each operation the rules are those it calls for, in
    some order of ascending precedence. *)
Inductive spec_run : list rule_spec * Z → list rule_op → list rule_spec * Z → Prop :=
| spec_nil s : spec_run s [] s
| spec_cons l q l' op ops s :
    l' ≡ₚ spec_rules l op → StronglySorted Z.le (rs_precedence <$> l') →
    spec_run (l', spec_qfi l q op) ops s → spec_run (l, q) (op :: ops) s.

Lemma rule_run_ok e ops :
  rules_inv e → Forall rule_op_ok ops →
  returns (rule_run e ops) (λ e', rules_inv e' ∧ spec_run (abs_rules e, qfi e) ops (abs_rules e', qfi e') ∧ same_but_rules e e').
Proof.
  intros I Ho. revert e I. induction Ho as [|op ops Hop Ho IH]; intros e I; cbn [rule_run].
  { apply returns_ok. split_and!; [done|constructor|by destruct e]. }
  eapply returns_bind; [by apply rule_exec_ok|]. intros e1 (I1 & Hp & Hq & Hs).
  eapply returns_mono; [by apply IH|]. cbn beta. intros e2 (I2 & Hr & Hs2). split_and!; [done| |].
  - eapply spec_cons; [exact Hp| |by rewrite <- Hq]. unfold abs_rules. rewrite <- list_fmap_compose. apply I1.
  - unfold same_but_rules in *. rewrite Hs2, Hs. done.
Qed.
End Rules.

(** ** Properties *)

(** C26: the QoS rules of a UE entity implement a list of rules in ascending order of
    precedence: starting without rules, for any sequence of rules added, removed and
    updated and of filters deleted, whatever sorting [qsort] does among equal precedences,
    every operation returns without touching memory outside of its arrays; the rules are
    those the operations call for (at most 64, the rule with an identifier being the first
    that has it), sorted; the default flow is the one of the default rule added or updated
    last; packet filters are in use exactly while there are rules; nothing else of the
    entity changes. *)
Theorem qos_rules_refine qsort junk_rule junk_pf e ops :
  (∀ l, qsort l ≡ₚ l) → (∀ l, by_precedence (qsort l)) →
  qos_rules e = seq_arr_init no_rule → use_packet_filters e = false → Forall rule_op_ok ops →
  returns (rule_run qsort junk_rule junk_pf e ops) (λ e',
    spec_run ([], qfi e) ops (abs_rules e', qfi e') ∧ zlen (abs_rules e') <= 64 ∧
    StronglySorted Z.le (rs_precedence <$> abs_rules e') ∧
    use_packet_filters e' = bool_decide (abs_rules e' ≠ []) ∧ same_but_rules e e').
Proof.
  intros Hp Hs Er Eu Ho. destruct (seq_arr_init_ok no_rule) as [W0 E0].
  assert (rules_inv e) as I.
  { split; rewrite ?Er, ?E0, ?Eu; (done || constructor). }
  eapply returns_mono; [by apply rule_run_ok|]. cbn beta. intros e' (I' & Hr & Hsame).
  unfold abs_rules in Hr at 1. rewrite Er, E0 in Hr. destruct I' as [W' Hl' Hs' _ Hu'].
  split_and!; [exact Hr|unfold abs_rules, zlen; by rewrite length_fmap|
    unfold abs_rules; rewrite <- list_fmap_compose; exact Hs'| |done].
  rewrite Hu'. apply bool_decide_ext. unfold abs_rules. by destruct (contents (qos_rules e')).
Qed.

(** Sorting by insertion, one sort that [qsort] may do. *)
Fixpoint insert_rule (r : nr_sdap_qos_rule_t) (l : list nr_sdap_qos_rule_t) : list nr_sdap_qos_rule_t :=
  match l with
  | [] => [r]
  | x :: l => if precedence r <=? precedence x then r :: x :: l else x :: insert_rule r l
  end.
Definition insertion_sort (l : list nr_sdap_qos_rule_t) : list nr_sdap_qos_rule_t := foldr insert_rule [] l.

Lemma insert_rule_perm r l : insert_rule r l ≡ₚ r :: l.
Proof.
  induction l as [|x l IH]; cbn; [done|]. destruct (_ <=? _); [done|]. rewrite IH. apply Permutation_swap.
Qed.

Lemma insertion_sort_perm l : insertion_sort l ≡ₚ l.
Proof. induction l as [|x l IH]; [done|]. cbn. rewrite insert_rule_perm. by constructor. Qed.

Lemma insert_rule_sorted x k : by_precedence k → by_precedence (insert_rule x k).
Proof.
  unfold by_precedence. induction k as [|y k IHk]; cbn; intros H; [repeat constructor|].
  inversion_clear H as [|? ? Hk Hy]. destruct (Z.leb_spec (precedence x) (precedence y)); cbn.
  - constructor; [by constructor|]. constructor; [done|]. eapply Forall_impl; [exact Hy|]. cbn. lia.
  - constructor; [by apply IHk|]. rewrite insert_rule_perm. cbn. constructor; [lia|done].
Qed.

Lemma insertion_sort_sorted l : by_precedence (insertion_sort l).
Proof. induction l as [|x l IH]; [constructor|]. by apply insert_rule_sorted. Qed.

Definition dns_filter : packet_filter_decoded_t :=
  mk_pf 1 PF_DIR_UPLINK [PF_COMP_PROTOCOL_ID_NEXT_HDR IPPROTO_UDP; PF_COMP_SINGLE_REMOTE_PORT 53].
Definition net_filter : packet_filter_decoded_t :=
  mk_pf 2 PF_DIR_BIDIRECTIONAL [PF_COMP_IPV6_REMOTE_ADDR_PREFIX (32 :: 1 :: 13 :: 184 :: replicate 12 0) 32].
Definition rule_ops : list rule_op :=
  [RuleAdd 1 9 255 true []; RuleAdd 2 7 20 false [dns_filter]; RuleAdd 3 5 10 false [net_filter];
   RuleUpdate 2 6 5 false [net_filter] false; RuleDeletePf 2 [1]; RuleRemove 3].
Definition ue_entity : nr_sdap_entity_t :=
  mk_sdap 1 1 (-1) false 0 (mk_q2d 1 0) (replicate 64 (mk_q2d 0 0)) (seq_arr_init no_rule) false.

Lemma rule_ops_ok : Forall rule_op_ok rule_ops.
Proof.
  repeat constructor; cbn; try lia; unfold is_byte; try lia.
Qed.

Lemma qos_rules_refine_witness :
  returns (rule_run insertion_sort no_rule no_pf ue_entity rule_ops) (λ e',
    spec_run ([], 0) rule_ops (abs_rules e', qfi e') ∧ zlen (abs_rules e') <= 64 ∧
    StronglySorted Z.le (rs_precedence <$> abs_rules e') ∧
    use_packet_filters e' = bool_decide (abs_rules e' ≠ []) ∧ same_but_rules ue_entity e').
Proof.
  apply (qos_rules_refine insertion_sort no_rule no_pf ue_entity rule_ops);
    [apply insertion_sort_perm|apply insertion_sort_sorted|reflexivity..|apply rule_ops_ok].
Defined.

Lemma sorted_lookup (l : list Z) i j a b :
  StronglySorted Z.le l → l !! i = Some a → l !! j = Some b → (i <= j)%nat → a <= b.
Proof.
  intros H. revert i j. induction H as [|x l Hl IH Hx]; intros [|i] [|j] Ha Hb Hij; cbn in *; try done; try lia.
  - injection Ha as ->. injection Hb as ->. lia.
  - injection Ha as ->. rewrite Forall_forall in Hx. apply Hx. by apply list_elem_of_lookup_2 in Hb.
  - by apply (IH i j); try lia.
Qed.

(** C27: the flow of an uplink packet: in every state the operations on the rules lead to,
    for every packet whatever its bytes and its length, the choice returns without reading
    outside of the packet and of the filters (IPv6 prefixes of at most 128 bits), and it is
    the flow of a rule of least precedence value among those that are not default and have
    an uplink filter that matches the packet, or the default flow when there is none. *)
Theorem qos_flow_chosen qsort junk_rule junk_pf e ops e' pkt :
  (∀ l, qsort l ≡ₚ l) → (∀ l, by_precedence (qsort l)) →
  qos_rules e = seq_arr_init no_rule → use_packet_filters e = false → Forall rule_op_ok ops →
  rule_run qsort junk_rule junk_pf e ops = Ok e' → Forall is_byte pkt →
  returns (nr_sdap_match_ul_packet e' pkt) (λ q,
    (∃ r, r ∈ contents (qos_rules e') ∧ takes pkt r ∧ q = r_qfi r ∧
      ∀ r', r' ∈ contents (qos_rules e') → takes pkt r' → precedence r <= precedence r') ∨
    (q = u8 (qfi e') ∧ ∀ r, r ∈ contents (qos_rules e') → ¬ takes pkt r)).
Proof.
  intros Hp Hs Er Eu Ho Hrun Hb. destruct (seq_arr_init_ok no_rule) as [W0 E0].
  assert (rules_inv e) as I.
  { split; rewrite ?Er, ?E0, ?Eu; (done || constructor). }
  pose proof (returns_eq _ _ _ (rule_run_ok qsort junk_rule junk_pf Hp Hs e ops I Ho) Hrun) as ([W Hl Hsort Hr _] & _ & _).
  eapply returns_mono; [by apply match_rules_ok|]. cbn beta. intros q [(i & r & Hi & Ht & -> & Hm)|H]; [left|by right].
  exists r. split_and!; try done; [by apply list_elem_of_lookup_2 in Hi|].
  intros r' Hr' Ht'. apply list_elem_of_lookup in Hr' as (j & Hj). specialize (Hm j r' Hj Ht').
  eapply sorted_lookup; [exact Hsort|..|exact Hm]; rewrite list_lookup_fmap; [by rewrite Hi|by rewrite Hj].
Qed.

(** An IPv6 packet to 2001:db8::1 with a UDP header to port 53. *)
Definition dns_packet : bytes :=
  [96; 0; 0; 0; 0; 8; 17; 64] ++ replicate 16 1 ++ (32 :: 1 :: 13 :: 184 :: replicate 11 0 ++ [1])
  ++ [200; 0; 0; 53; 0; 8; 0; 0].

Lemma qos_flow_chosen_witness :
  ∃ e', rule_run insertion_sort no_rule no_pf ue_entity rule_ops = Ok e' ∧
    nr_sdap_match_ul_packet e' dns_packet = Ok 6 ∧
    returns (nr_sdap_match_ul_packet e' dns_packet) (λ q,
    (∃ r, r ∈ contents (qos_rules e') ∧ takes dns_packet r ∧ q = r_qfi r ∧
      ∀ r', r' ∈ contents (qos_rules e') → takes dns_packet r' → precedence r <= precedence r') ∨
    (q = u8 (qfi e') ∧ ∀ r, r ∈ contents (qos_rules e') → ¬ takes dns_packet r)).
Proof.
  eexists. split; [vm_compute; reflexivity|]. split; [vm_compute; reflexivity|].
  apply (qos_flow_chosen insertion_sort no_rule no_pf ue_entity rule_ops);
    [apply insertion_sort_perm|apply insertion_sort_sorted|reflexivity..|apply rule_ops_ok|vm_compute; reflexivity|].
  unfold dns_packet. repeat constructor; unfold is_byte; lia.
Defined.

(** The comparison of an IPv6 address with a prefix is the comparison of their first
    [prefix_len] bits, for every length up to 128. *)
Theorem ipv6_match_prefix a f n :
  Forall is_byte a → Forall is_byte f → zlen a = 16 → zlen f = 16 → 0 <= n <= 128 →
  ipv6_match a f n = Ok (bool_decide (take (Z.to_nat n) (buf_bits a) = take (Z.to_nat n) (buf_bits f))).
Proof. apply ipv6_match_ok. Qed.

Lemma ipv6_match_prefix_witness :
  ipv6_match (replicate 16 5) (replicate 15 5 ++ [4]) 127 = Ok true ∧
  ipv6_match (replicate 16 5) (replicate 15 5 ++ [4]) 127 =
    Ok (bool_decide (take 127 (buf_bits (replicate 16 5)) = take 127 (buf_bits (replicate 15 5 ++ [4])))).
Proof.
  split; [reflexivity|].
  apply (ipv6_match_prefix (replicate 16 5) (replicate 15 5 ++ [4]) 127);
    [repeat constructor; unfold is_byte; lia..|reflexivity|reflexivity|lia].
Defined.
