(* ===== verification/NasQos.v ===== *)
(** * NAS: QoS rules from the network

    Models [openair3/NAS/NR_UE/5GS/5GSM]: the decoders of packet filters
    ([QoS/PacketFilter.c]), of QoS rules ([MSG/fgsm_lib.c]) and of the two messages that
    carry them ([MSG/PduSessionModificationCommand.c],
    [MSG/PduSessionEstablishmentAccept.c]), and the part of
    [handle_pdu_session_modification_command] ([nr_nas_msg.c]) that hands the rules to
    SDAP. A pointer into a message is an offset; a message is all the memory there is, so
    a read beyond its end is undefined. *)

From S2P Require Import Prelude Bits SeqArr SdapEntity SdapQos.

#[local] Arguments Z.add : simpl never.
#[local] Arguments Z.sub : simpl never.
#[local] Arguments Z.mul : simpl never.
#[local] Arguments Z.opp : simpl never.

Definition u16 (x : Z) : Z := x mod 2 ^ 16.

(** The number a run of bytes holds on a little endian host. *)
Definition le (l : bytes) : Z := foldr (λ b acc, b + 256 * acc) 0 l.
Definition to_le (n : nat) (x : Z) : bytes := (λ i, (x / 2 ^ (8 * Z.of_nat i)) mod 256) <$> seq 0 n.

(** [GET_SHORT(buf, x)] adds the number read to [x]. *)
Definition GET_SHORT (buf : bytes) (pos x : Z) : outcome Z := s ← ntohs_at buf pos; Ok (u16 (x + s)).

Definition BUFFER_TO_UINT32 (buf : bytes) (pos : Z) : outcome Z :=
  b ← buf_sub buf pos 4; Ok (le (rev b)).

(** ** Packet filters *)

Definition MAX_PF_COMPONENTS : Z := 16.
Definition MAX_PF_PER_QOS_RULE : Z := 15.
Definition MAX_NUM_QOS_RULES : Z := 64.

(** A component as it lies in memory: its type and the 20 bytes of the union, all of whose
    members start at its first byte. *)
Record raw_component := mk_rc { rc_type : Z; rc_value : bytes }.
Definition raw_zero : raw_component := mk_rc 0 (replicate 20 0).

(** The members of the union that the matching reads. *)
Definition comp_view (c : raw_component) : packet_filter_component_t :=
  let v := rc_value c in
  let t := rc_type c in
  if t =? 1 then PF_COMP_MATCH_ALL
  else if t =? 16 then PF_COMP_IPV4_REMOTE_ADDR (le (take 4 v)) (le (take 4 (drop 4 v)))
  else if t =? 17 then PF_COMP_IPV4_LOCAL_ADDR (le (take 4 v)) (le (take 4 (drop 4 v)))
  else if t =? 33 then PF_COMP_IPV6_REMOTE_ADDR_PREFIX (take 16 v) (le (take 1 (drop 16 v)))
  else if t =? 35 then PF_COMP_IPV6_LOCAL_ADDR_PREFIX (take 16 v) (le (take 1 (drop 16 v)))
  else if t =? 48 then PF_COMP_PROTOCOL_ID_NEXT_HDR (le (take 1 v))
  else if t =? 80 then PF_COMP_SINGLE_REMOTE_PORT (le (take 2 v))
  else if t =? 64 then PF_COMP_SINGLE_LOCAL_PORT (le (take 2 v))
  else if t =? 81 then PF_COMP_REMOTE_PORT_RANGE (le (take 2 v)) (le (take 2 (drop 2 v)))
  else if t =? 65 then PF_COMP_LOCAL_PORT_RANGE (le (take 2 v)) (le (take 2 (drop 2 v)))
  else PF_COMP_OTHER t.

(** [GET_SHORT] into the 16-bit member at offset [off] of the union. *)
Definition short_into (buf : bytes) (pos : Z) (v : bytes) (off : Z) : outcome bytes :=
  old ← buf_sub v off 2;
  s ← GET_SHORT buf pos (le old);
  buf_write v off (to_le 2 s).

(** The value of a component of type [t] at [pos]: the union and the position after it;
    [None] when it is truncated or of an unknown type. *)
Definition decode_value (t : Z) (buf : bytes) (pos end_ : Z) (v : bytes) : outcome (option (bytes * Z)) :=
  let copy n := a ← buf_sub buf pos n; v ← buf_write v 0 a; Ok (Some (v, pos + n)) in
  if t =? 1 then Ok (Some (v, pos))
  else if (t =? 16) || (t =? 17) then if end_ <? pos + 8 then Ok None else copy 8
  else if (t =? 33) || (t =? 35) then if end_ <? pos + 17 then Ok None else copy 17
  else if t =? 48 then if end_ <? pos + 1 then Ok None else copy 1
  else if (t =? 64) || (t =? 80) then
    if end_ <? pos + 2 then Ok None
    else v ← short_into buf pos v 0; Ok (Some (v, pos + 2))
  else if (t =? 65) || (t =? 81) then
    if end_ <? pos + 4 then Ok None
    else v ← short_into buf pos v 0; v ← short_into buf (pos + 2) v 2; Ok (Some (v, pos + 4))
  else if t =? 96 then
    if end_ <? pos + 4 then Ok None
    else x ← BUFFER_TO_UINT32 buf pos; v ← buf_write v 0 (to_le 4 x); Ok (Some (v, pos + 4))
  else if t =? 112 then
    if end_ <? pos + 2 then Ok None
    else x ← buf_get buf pos; v ← buf_write v 0 [x]; Ok (Some (v, pos + 2))
  else if t =? 128 then
    if end_ <? pos + 4 then Ok None
    else x ← BUFFER_TO_UINT32 buf pos; v ← buf_write v 0 (to_le 4 (Z.land x 0xFFFFF)); Ok (Some (v, pos + 4))
  else if (t =? 129) || (t =? 130) then if end_ <? pos + 6 then Ok None else copy 6
  else if (t =? 131) || (t =? 132) then
    if end_ <? pos + 2 then Ok None
    else v ← short_into buf pos v 0; x ← buf_sub v 0 2;
         v ← buf_write v 0 (to_le 2 (Z.land (le x) 0xFFF)); Ok (Some (v, pos + 2))
  else if t =? 135 then if end_ <? pos + 2 then Ok None else Ok (Some (v, pos + 2))
  else Ok None.

Record raw_pf := mk_rpf {
  rp_id : Z;
  rp_direction : Z;
  num_components : Z;
  rp_components : list raw_component;   (* 16 *)
}.
#[export] Instance eta_raw_pf : Eta raw_pf := λ r,
  mk_rpf (rp_id r) (rp_direction r) (num_components r) (rp_components r).
#[export] Instance set_num_components : Setter num_components := ltac:(derive_setter).
#[export] Instance set_rp_components : Setter rp_components := ltac:(derive_setter).
Definition raw_pf_zero : raw_pf := mk_rpf 0 0 0 (replicate 16 raw_zero).

Definition dir_of (d : Z) : pf_direction :=
  if d =? 1 then PF_DIR_DOWNLINK else if d =? 2 then PF_DIR_UPLINK
  else if d =? 3 then PF_DIR_BIDIRECTIONAL else PF_DIR_RESERVED.
Definition pf_view (p : raw_pf) : packet_filter_decoded_t :=
  mk_pf (rp_id p) (dir_of (rp_direction p)) (comp_view <$> take (Z.to_nat (num_components p)) (rp_components p)).

(** The loop, at most [room] more components. The result is the position reached, or -1. *)
Fixpoint decode_components (room : nat) (buf : bytes) (pos end_ : Z) (pf : raw_pf) : outcome (Z * raw_pf) :=
  match room with
  | O => Ok (pos, pf)
  | S room =>
      if pos <? end_ then
        let i := Z.to_nat (num_components pf) in
        match rp_components pf !! i with
        | None => Undef
        | Some c =>
            t ← buf_get buf pos;
            r ← decode_value t buf (pos + 1) end_ (rc_value c);
            match r with
            | None => Ok (-1, pf <| rp_components := <[i := mk_rc t (rc_value c)]> (rp_components pf) |>)
            | Some (v, pos) =>
                decode_components room buf pos end_
                  (pf <| rp_components := <[i := mk_rc t v]> (rp_components pf) |>
                      <| num_components := num_components pf + 1 |>)
            end
        end
      else Ok (pos, pf)
  end.

Definition decode_packet_filter_contents (buf : bytes) (start length : Z) (pf : raw_pf) : outcome (Z * raw_pf) :=
  '(pos, pf) ← decode_components (Z.to_nat MAX_PF_COMPONENTS) buf start (start + length)
                 (pf <| num_components := 0 |>);
  Ok (if pos <? 0 then -1 else pos - start, pf).

(** ** QoS rules *)

Definition ROC_CREATE_NEW_QOS_RULE : Z := 1.
Definition ROC_DELETE_QOS_RULE : Z := 2.
Definition ROC_MODIFY_QOS_RULE_ADD_PF : Z := 3.
Definition ROC_MODIFY_QOS_RULE_REPLACE_PF : Z := 4.
Definition ROC_MODIFY_QOS_RULE_DELETE_PF : Z := 5.
Definition ROC_MODIFY_QOS_RULE_WITHOUT_PF : Z := 6.

Record qos_rule_t := mk_qos_rule {
  q_id : Z;
  q_length : Z;
  q_oc : Z;
  q_dqr : bool;
  q_nb_pf : Z;
  q_precedence : Z;
  q_qfi : Z;
  q_packet_filters : list raw_pf;       (* 15 *)
  q_num_packet_filters : Z;
  q_pf_delete_ids : list Z;             (* the [num_pf_delete] first of 15 *)
}.
#[export] Instance eta_qos_rule : Eta qos_rule_t := λ r,
  mk_qos_rule (q_id r) (q_length r) (q_oc r) (q_dqr r) (q_nb_pf r) (q_precedence r) (q_qfi r)
    (q_packet_filters r) (q_num_packet_filters r) (q_pf_delete_ids r).
#[export] Instance set_q_precedence : Setter q_precedence := ltac:(derive_setter).
#[export] Instance set_q_qfi : Setter q_qfi := ltac:(derive_setter).
#[export] Instance set_q_packet_filters : Setter q_packet_filters := ltac:(derive_setter).
#[export] Instance set_q_num_packet_filters : Setter q_num_packet_filters := ltac:(derive_setter).
#[export] Instance set_q_pf_delete_ids : Setter q_pf_delete_ids := ltac:(derive_setter).

Definition get_len_qos_rule (rule : qos_rule_t) : Z := u16 (q_length rule + 1 + 2).

(** Storing the filter whose contents are the [len] bytes at [pos]. *)
Definition store_filter (buf : bytes) (pos len direction id : Z) (rule : qos_rule_t) : outcome qos_rule_t :=
  if q_num_packet_filters rule <? MAX_PF_PER_QOS_RULE then
    let i := Z.to_nat (q_num_packet_filters rule) in
    match q_packet_filters rule !! i with
    | None => Undef
    | Some pf =>
        '(decoded, pf) ← decode_packet_filter_contents buf pos len
                           (mk_rpf id direction (num_components pf) (rp_components pf));
        let rule := rule <| q_packet_filters := <[i := pf]> (q_packet_filters rule) |> in
        Ok (if decoded <? 0 then rule
            else rule <| q_num_packet_filters := q_num_packet_filters rule + 1 |>)
    end
  else Ok rule.

(** Octets 8 to m. [None]: the rule ends too early and the function returns. *)
Fixpoint decode_filters (n : nat) (buf : bytes) (pos rule_end : Z) (rule : qos_rule_t)
  : outcome (option Z * qos_rule_t) :=
  match n with
  | O => Ok (Some pos, rule)
  | S n =>
      if (q_oc rule =? ROC_CREATE_NEW_QOS_RULE) || (q_oc rule =? ROC_MODIFY_QOS_RULE_ADD_PF)
         || (q_oc rule =? ROC_MODIFY_QOS_RULE_REPLACE_PF) then
        if rule_end <=? pos then Ok (None, rule)
        else
          b ← buf_get buf pos;
          let direction := Z.shiftr (Z.land b 48) 4 in
          let id := Z.land b 15 in
          if rule_end <=? pos + 1 then Ok (None, rule)
          else
            pf_content_len ← buf_get buf (pos + 1);
            if rule_end - (pos + 2) <? pf_content_len then Ok (None, rule)
            else
              rule ← store_filter buf (pos + 2) pf_content_len direction id rule;
              decode_filters n buf (pos + 2 + pf_content_len) rule_end rule
      else if q_oc rule =? ROC_MODIFY_QOS_RULE_DELETE_PF then
        if rule_end <=? pos then Ok (None, rule)
        else
          b ← buf_get buf pos;
          let rule := if zlen (q_pf_delete_ids rule) <? MAX_PF_PER_QOS_RULE
                      then rule <| q_pf_delete_ids := q_pf_delete_ids rule ++ [Z.land b 15] |> else rule in
          decode_filters n buf (pos + 1) rule_end rule
      else decode_filters n buf pos rule_end rule
  end.

Definition decode_qos_rule (buf : bytes) (start : Z) : outcome qos_rule_t :=
  id ← buf_get buf start;
  length ← GET_SHORT buf (start + 1) 0;
  let rule_end := start + 3 + length in
  b ← buf_get buf (start + 3);
  let oc := Z.shiftr (Z.land b 224) 5 in
  let dqr := negb (Z.shiftr (Z.land b 16) 4 =? 0) in
  let nb_pf := Z.land b 15 in
  let qos_rule := mk_qos_rule id length oc dqr nb_pf 0 0
                    (replicate (Z.to_nat MAX_PF_PER_QOS_RULE) raw_pf_zero) 0 [] in
  '(pos, qos_rule) ← decode_filters (Z.to_nat nb_pf) buf (start + 4) rule_end qos_rule;
  match pos with
  | None => Ok qos_rule
  | Some pos =>
      if negb (oc =? ROC_DELETE_QOS_RULE) then
        if rule_end - pos <? 2 then Ok qos_rule
        else
          precedence ← buf_get buf pos;
          q ← buf_get buf (pos + 1);
          Ok (qos_rule <| q_precedence := precedence |> <| q_qfi := Z.land q 63 |>)
      else Ok qos_rule
  end.

(** ** PDU session modification command *)

Record session_ambr_t := mk_ambr { unit_dl : Z; sess_dl : Z; unit_ul : Z; sess_ul : Z }.

Record pdu_session_modification_command_msg_t := mk_psmc {
  cause : option Z;
  sess_ambr : option session_ambr_t;
  qos_rules_length : Z;
  qos_rule : list qos_rule_t;           (* the [num_rules] first of 64 *)
  qos_rules_present : bool;
  qos_fd_length : Z;
  ext_pp_length : Z;
}.
#[export] Instance eta_psmc : Eta pdu_session_modification_command_msg_t := λ r,
  mk_psmc (cause r) (sess_ambr r) (qos_rules_length r) (qos_rule r) (qos_rules_present r)
    (qos_fd_length r) (ext_pp_length r).
#[export] Instance set_cause : Setter cause := ltac:(derive_setter).
#[export] Instance set_sess_ambr : Setter sess_ambr := ltac:(derive_setter).
#[export] Instance set_qos_rules_length : Setter qos_rules_length := ltac:(derive_setter).
#[export] Instance set_qos_rule : Setter qos_rule := ltac:(derive_setter).
#[export] Instance set_qos_rules_present : Setter qos_rules_present := ltac:(derive_setter).
#[export] Instance set_qos_fd_length : Setter qos_fd_length := ltac:(derive_setter).
#[export] Instance set_ext_pp_length : Setter ext_pp_length := ltac:(derive_setter).
Definition psmc_zero : pdu_session_modification_command_msg_t := mk_psmc None None 0 [] false 0 0.

(** [room] is how many rules fit in the array still. *)
Fixpoint decode_rules (room : nat) (buf : bytes) (pos rules_tot_len length : Z) (rules : list qos_rule_t)
  : outcome (Z * list qos_rule_t) :=
  match room with
  | O => Ok (pos, rules)
  | S room =>
      if rules_tot_len <? length then
        rule ← decode_qos_rule buf pos;
        let rule_len := get_len_qos_rule rule in
        decode_rules room buf (pos + rule_len) (u16 (rules_tot_len + rule_len)) length (rules ++ [rule])
      else Ok (pos, rules)
  end.

(** One information element at [pos]; [None]: unknown, the function returns -1. A second
    Session-AMBR adds to the rates of the first, a second list of rules replaces the rules
    of the first and adds to their length. *)
Definition psmc_ie (msg : pdu_session_modification_command_msg_t) (buffer : bytes) (pos : Z)
  : outcome (option (Z * pdu_session_modification_command_msg_t)) :=
  psmc_iei ← buf_get buffer pos;
  let pos := pos + 1 in
  if psmc_iei =? 0x59 then
    c ← buf_get buffer pos; Ok (Some (pos + 1, msg <| cause := Some c |>))
  else if psmc_iei =? 0x2A then
    _ ← buf_get buffer pos;
    let '(odl, oul) := match sess_ambr msg with Some a => (sess_dl a, sess_ul a) | None => (0, 0) end in
    unit_dl ← buf_get buffer (pos + 1);
    sess_dl ← GET_SHORT buffer (pos + 2) odl;
    unit_ul ← buf_get buffer (pos + 4);
    sess_ul ← GET_SHORT buffer (pos + 5) oul;
    Ok (Some (pos + 7, msg <| sess_ambr := Some (mk_ambr unit_dl sess_dl unit_ul sess_ul) |>))
  else if psmc_iei =? 0x56 then Ok (Some (pos + 1, msg))
  else if (psmc_iei =? 0x80) || (psmc_iei =? 0x81) then Ok (Some (pos, msg))
  else if psmc_iei =? 0x7A then
    length ← GET_SHORT buffer pos (qos_rules_length msg);
    '(pos, rules) ← decode_rules (Z.to_nat MAX_NUM_QOS_RULES) buffer (pos + 2) 0 length [];
    Ok (Some (pos, msg <| qos_rules_length := length |> <| qos_rule := rules |> <| qos_rules_present := true |>))
  else if psmc_iei =? 0x75 then
    mapped_eps_length ← GET_SHORT buffer pos 0; Ok (Some (pos + mapped_eps_length + 2, msg))
  else if psmc_iei =? 0x79 then
    length ← GET_SHORT buffer pos (qos_fd_length msg);
    Ok (Some (pos + length + 2, msg <| qos_fd_length := length |>))
  else if psmc_iei =? 0x7B then
    length ← GET_SHORT buffer pos (ext_pp_length msg);
    Ok (Some (pos + length + 2, msg <| ext_pp_length := length |>))
  else Ok None.

Fixpoint psmc_loop (fuel : nat) (msg : pdu_session_modification_command_msg_t) (buffer : bytes) (pos end_ : Z)
  : outcome (Z * pdu_session_modification_command_msg_t) :=
  match fuel with
  | O => Diverge
  | S fuel =>
      if pos <? end_ then
        r ← psmc_ie msg buffer pos;
        match r with
        | None => Ok (-1, msg)
        | Some (pos, msg) => psmc_loop fuel msg buffer pos end_
        end
      else Ok (pos, msg)
  end.

(** The message starts at [start] of the buffer. *)
Definition decode_pdu_session_modification_command (buffer : bytes) (start msg_length : Z)
  : outcome (Z * pdu_session_modification_command_msg_t) :=
  '(pos, msg) ← psmc_loop (S (Z.to_nat msg_length)) psmc_zero buffer start (start + msg_length);
  Ok (if pos <? 0 then -1 else pos - start, msg).

(** ** Message headers *)

Record fgs_nas_message_security_header_t := mk_sec_hdr {
  protocol_discriminator : Z;
  security_header_type : Z;
  message_authentication_code : Z;
  sequence_number : Z;
}.

(** The octet read as the sequence number is the one after the type: the pointer has not
    moved over the code. *)
Definition decode_5gs_security_protected_header (buf : bytes) (pos len : Z)
  : outcome (Z * option fgs_nas_message_security_header_t) :=
  if len <? 7 then Ok (-1, None)
  else
    pd ← buf_get buf pos;
    sht ← buf_get buf (pos + 1);
    mac ← BUFFER_TO_UINT32 buf (pos + 2);
    sn ← buf_get buf (pos + 2);
    Ok (7, Some (mk_sec_hdr pd sht mac sn)).

(** The result has type [uint8_t]: a failure is 255. *)
Definition decode_5gmm_msg_header (buf : bytes) (pos len : Z) : outcome (Z * option (Z * Z * Z)) :=
  if len <? 3 then Ok (u8 (-1), None)
  else
    pd ← buf_get buf pos; sht ← buf_get buf (pos + 1); mt ← buf_get buf (pos + 2);
    Ok (3, Some (pd, sht, mt)).

Record fgsm_msg_header_t := mk_sm_hdr {
  sm_protocol_discriminator : Z;
  sm_pdu_session_id : Z;
  sm_pti : Z;
  sm_message_type : Z;
}.

Definition decode_5gsm_msg_header (buf : bytes) (pos len : Z) : outcome (Z * fgsm_msg_header_t) :=
  if len <? 4 then Ok (u8 (-1), mk_sm_hdr 0 0 0 0)
  else
    pd ← buf_get buf pos; ps ← buf_get buf (pos + 1); pti ← buf_get buf (pos + 2); mt ← buf_get buf (pos + 3);
    Ok (4, mk_sm_hdr pd ps pti mt).

(** ** Applying the rules *)

Section Apply.
Variable qsort : list nr_sdap_qos_rule_t → list nr_sdap_qos_rule_t.
Variable junk_rule : nr_sdap_qos_rule_t.
Variable junk_pf : packet_filter_decoded_t.

Definition decoded_filters (rule : qos_rule_t) : list packet_filter_decoded_t :=
  pf_view <$> take (Z.to_nat (q_num_packet_filters rule)) (q_packet_filters rule).

(** [nr_ue_tun_store_qfi(&nas->pdu_tun[ps], qfi)]; the index is not checked. *)
Definition nr_ue_tun_store_qfi (tun : list Z) (ps q : Z) : outcome (list Z) :=
  if (0 <=? ps) && (ps <? zlen tun) then Ok (<[Z.to_nat ps := q]> tun) else Undef.

(** One rule of the command; [tun] holds the default flows of the TUN interfaces of
    [nas->pdu_tun]. *)
Definition apply_rule (ue ps : Z) (st : list Z * list nr_sdap_entity_t) (rule : qos_rule_t)
  : outcome (list Z * list nr_sdap_entity_t) :=
  let '(tun, llist) := st in
  if q_oc rule =? ROC_CREATE_NEW_QOS_RULE then
    tun ← (if q_dqr rule then nr_ue_tun_store_qfi tun ps (q_qfi rule) else Ok tun);
    llist ← nr_sdap_qos_rule_add qsort junk_rule junk_pf llist ue ps (q_id rule) (q_qfi rule) (q_precedence rule)
              (q_dqr rule) (decoded_filters rule);
    Ok (tun, llist)
  else if q_oc rule =? ROC_DELETE_QOS_RULE then
    llist ← nr_sdap_qos_rule_remove llist ue ps (q_id rule); Ok (tun, llist)
  else if q_oc rule =? ROC_MODIFY_QOS_RULE_ADD_PF then
    llist ← nr_sdap_qos_rule_update qsort junk_pf llist ue ps (q_id rule) (q_qfi rule) (q_precedence rule)
              (q_dqr rule) (decoded_filters rule) false;
    Ok (tun, llist)
  else if q_oc rule =? ROC_MODIFY_QOS_RULE_REPLACE_PF then
    llist ← nr_sdap_qos_rule_update qsort junk_pf llist ue ps (q_id rule) (q_qfi rule) (q_precedence rule)
              (q_dqr rule) (decoded_filters rule) true;
    Ok (tun, llist)
  else if q_oc rule =? ROC_MODIFY_QOS_RULE_DELETE_PF then
    llist ← nr_sdap_qos_rule_delete_pf llist ue ps (q_id rule) (q_pf_delete_ids rule); Ok (tun, llist)
  else if q_oc rule =? ROC_MODIFY_QOS_RULE_WITHOUT_PF then
    llist ← nr_sdap_qos_rule_update qsort junk_pf llist ue ps (q_id rule) (q_qfi rule) (q_precedence rule)
              (q_dqr rule) [] false;
    Ok (tun, llist)
  else Ok (tun, llist).

Fixpoint apply_rules (ue ps : Z) (st : list Z * list nr_sdap_entity_t) (rules : list qos_rule_t)
  : outcome (list Z * list nr_sdap_entity_t) :=
  match rules with
  | [] => Ok st
  | rule :: rules => st ← apply_rule ue ps st rule; apply_rules ue ps st rules
  end.

(** The answer of the UE, PDU Session Modification Complete. *)
Inductive nas_event := SendModificationComplete (ps pti : Z).

Definition handle_pdu_session_modification_command (ue : Z) (st : list Z * list nr_sdap_entity_t)
    (pdu_buffer : bytes) : outcome (list nas_event * (list Z * list nr_sdap_entity_t)) :=
  let msg_length := zlen pdu_buffer in
  '(decoded, _) ← decode_5gs_security_protected_header pdu_buffer 0 msg_length;
  if decoded <? 0 then Ok ([], st)
  else
    let size := decoded in
    '(decoded, _) ← decode_5gmm_msg_header pdu_buffer size (u32 (msg_length - size));
    if decoded <? 0 then Ok ([], st)
    else
      let size := size + decoded + 1 in
      iei_len ← GET_SHORT pdu_buffer size 0;
      let size := size + 2 in
      '(decoded, sm_header) ← decode_5gsm_msg_header pdu_buffer size (u32 (msg_length - size));
      if decoded <? 0 then Ok ([], st)
      else
        let size := size + decoded in
        if (iei_len <? decoded) || (msg_length <? u32 (size + (iei_len - decoded))) then Ok ([], st)
        else
          '(r, msg) ← decode_pdu_session_modification_command pdu_buffer size (iei_len - decoded);
          if r <? 0 then Ok ([], st)
          else
            let ps := sm_pdu_session_id sm_header in
            st ← (if qos_rules_present msg then apply_rules ue ps st (qos_rule msg) else Ok st);
            Ok ([SendModificationComplete ps (sm_pti sm_header)], st).

End Apply.

(** ** PDU session establishment accept *)

Record pdu_session_establishment_accept_msg_t := mk_psea {
  pdu_type : Z;
  ssc_mode : Z;
  psea_rules_length : Z;
  psea_rule : option qos_rule_t;        (* [rule[0]], the last one decoded *)
  psea_ambr_length : Z;
  dnn_length : Z;
  pdu_addr : Z * Z * bytes;             (* length, type, the 12 octets *)
  psea_qos_fd_length : Z;
  psea_ext_pp_length : Z;
}.
#[export] Instance eta_psea : Eta pdu_session_establishment_accept_msg_t := λ r,
  mk_psea (pdu_type r) (ssc_mode r) (psea_rules_length r) (psea_rule r) (psea_ambr_length r) (dnn_length r)
    (pdu_addr r) (psea_qos_fd_length r) (psea_ext_pp_length r).
#[export] Instance set_dnn_length : Setter dnn_length := ltac:(derive_setter).
#[export] Instance set_pdu_addr : Setter pdu_addr := ltac:(derive_setter).
#[export] Instance set_psea_qos_fd : Setter psea_qos_fd_length := ltac:(derive_setter).
#[export] Instance set_psea_ext_pp : Setter psea_ext_pp_length := ltac:(derive_setter).

Definition PDU_SESSION_TYPE_IPV4 : Z := 1.
Definition PDU_SESSION_TYPE_IPV6 : Z := 2.
Definition PDU_SESSION_TYPE_IPV4V6 : Z := 3.
Definition APN_MAX_LEN : Z := 100.
Definition APN_MIN_LEN : Z := 1.

(** The loop over the rules, all decoded into [rule[0]]; it has no bound of its own. *)
Fixpoint psea_rules (fuel : nat) (buf : bytes) (pos rules_tot_len length : Z) (rule : option qos_rule_t)
  : outcome (Z * option qos_rule_t) :=
  match fuel with
  | O => Diverge
  | S fuel =>
      if rules_tot_len <? length then
        rule ← decode_qos_rule buf pos;
        psea_rules fuel buf (pos + get_len_qos_rule rule) (u16 (rules_tot_len + get_len_qos_rule rule)) length
          (Some rule)
      else Ok (pos, rule)
  end.

(** The PDU address: the octets of its type, or what its length says. *)
Definition psea_pdu_address (old : bytes) (buffer : bytes) (pos : Z) : outcome (Z * (Z * Z * bytes)) :=
  pdu_length ← buf_get buffer pos;
  b ← buf_get buffer (pos + 1);
  let type := Z.land b 7 in
  let pos := pos + 2 in
  let addr n := a ← buf_sub buffer pos n; a ← buf_write old 0 a; Ok (pos + n, (pdu_length, type, a)) in
  if type =? PDU_SESSION_TYPE_IPV4 then addr 4
  else if type =? PDU_SESSION_TYPE_IPV6 then addr 8
  else if type =? PDU_SESSION_TYPE_IPV4V6 then addr 12
  else Ok (pos + pdu_length, (pdu_length, type, old)).

(** One optional element at [pos]: the position after it and [resPtr]. *)
Definition psea_ie (msg : pdu_session_establishment_accept_msg_t) (buffer : bytes) (pos end_ resPtr : Z)
  : outcome (Z * Z * pdu_session_establishment_accept_msg_t) :=
  psea_iei ← buf_get buffer pos;
  let pos := pos + 1 in
  if psea_iei =? 0x59 then Ok (pos + 1, resPtr, msg)
  else if psea_iei =? 0x29 then
    '(pos, a) ← psea_pdu_address (snd (pdu_addr msg)) buffer pos; Ok (pos, resPtr, msg <| pdu_addr := a |>)
  else if psea_iei =? 0x56 then Ok (pos + 1, resPtr, msg)
  else if psea_iei =? 0x22 then l ← buf_get buffer pos; Ok (pos + l + 1, resPtr, msg)
  else if psea_iei =? 0x80 then Ok (pos + 1, resPtr, msg)
  else if psea_iei =? 0x75 then l ← GET_SHORT buffer pos 0; Ok (pos + l, resPtr, msg)
  else if psea_iei =? 0x78 then l ← GET_SHORT buffer pos 0; Ok (pos + l + 2, resPtr, msg)
  else if psea_iei =? 0x79 then
    l ← GET_SHORT buffer pos (psea_qos_fd_length msg);
    Ok (pos + l + 2, resPtr, msg <| psea_qos_fd_length := l |>)
  else if psea_iei =? 0x7B then
    l ← GET_SHORT buffer pos (psea_ext_pp_length msg);
    Ok (pos + l + 2, resPtr, msg <| psea_ext_pp_length := l |>)
  else if psea_iei =? 0x25 then
    l ← buf_get buffer pos;
    let msg := msg <| dnn_length := l |> in
    if (l <=? APN_MAX_LEN) && (APN_MIN_LEN <=? l)
    then _ ← buf_sub buffer (pos + 1) l; Ok (end_, pos + 1, msg)
    else Ok (end_, pos + 1, msg)
  else Ok (end_, resPtr, msg).

Fixpoint psea_loop (fuel : nat) (msg : pdu_session_establishment_accept_msg_t) (buffer : bytes)
    (pos end_ resPtr : Z) : outcome (Z * pdu_session_establishment_accept_msg_t) :=
  match fuel with
  | O => Diverge
  | S fuel =>
      if pos <? end_ then
        '(pos, resPtr, msg) ← psea_ie msg buffer pos end_ resPtr;
        psea_loop fuel msg buffer pos end_ resPtr
      else Ok (resPtr, msg)
  end.

(** [fuel] bounds the loop over the rules. *)
Definition decode_pdu_session_establishment_accept_msg (fuel : nat) (buffer : bytes) (msg_length : Z)
  : outcome (Z * pdu_session_establishment_accept_msg_t) :=
  b ← buf_get buffer 0;
  length ← GET_SHORT buffer 1 0;
  '(pos, rule) ← psea_rules fuel buffer 3 0 length None;
  ambr ← buf_get buffer pos;
  let pos := pos + 1 + ambr in
  let msg := mk_psea (Z.land b 15) (Z.shiftr (Z.land b 240) 4) length rule ambr 0 (0, 0, replicate 12 0) 0 0 in
  psea_loop (S (Z.to_nat msg_length)) msg buffer pos msg_length pos.
