(* ===== verification/NasQosProofs.v ===== *)
(** * NAS: QoS rules decoded and applied

    A reference encoder of QoS rules after TS 24.501, 9.11.4.13, the decoder reads back
    what it writes; a whole PDU session modification command leads to the rules of SDAP it
    calls for. *)

From S2P Require Import Prelude Bits SeqArr SdapEntity SdapProofs SdapQos SdapQosProofs NasQos.

#[local] Arguments Z.add : simpl never.
#[local] Arguments Z.sub : simpl never.
#[local] Arguments Z.mul : simpl never.
#[local] Arguments Z.opp : simpl never.

(** ** Reading at a position *)

(** [l] is found at [pos] of [buf]. *)
Definition found (buf : bytes) (pos : Z) (l : bytes) : Prop :=
  0 <= pos <= zlen buf ∧ ∃ post, drop (Z.to_nat pos) buf = l ++ post.

Lemma found_end buf pos l : found buf pos l → pos + zlen l <= zlen buf.
Proof.
  intros (Hp & post & E). apply (f_equal length) in E. rewrite length_drop, length_app in E. unfold zlen in *. lia.
Qed.

Lemma found_cons buf pos x l :
  found buf pos (x :: l) → buf_get buf pos = Ok x ∧ found buf (pos + 1) l.
Proof.
  intros F. pose proof (found_end _ _ _ F) as He. rewrite zlen_cons in He. pose proof (zlen_nonneg l).
  destruct F as (Hp & post & E). split.
  - apply buf_get_lookup; [|lia]. rewrite <- (Nat.add_0_r (Z.to_nat pos)), <- lookup_drop, E. done.
  - split; [lia|]. exists post. replace (Z.to_nat (pos + 1)) with (Z.to_nat pos + 1)%nat by lia.
    rewrite <- drop_drop, E. done.
Qed.

Lemma found_app buf pos a b :
  found buf pos (a ++ b) → buf_sub buf pos (zlen a) = Ok a ∧ found buf pos a ∧ found buf (pos + zlen a) b.
Proof.
  intros F. pose proof (found_end _ _ _ F) as He. rewrite zlen_app in He. pose proof (zlen_nonneg a). pose proof (zlen_nonneg b).
  destruct F as (Hp & post & E). rewrite <- app_assoc in E. split_and!.
  - rewrite buf_sub_ok by lia. rewrite E. unfold zlen. rewrite Nat2Z.id. f_equal. by rewrite take_app_length.
  - split; [done|]. by eexists.
  - split; [lia|]. exists post.
    replace (Z.to_nat (pos + zlen a)) with (Z.to_nat pos + length a)%nat by (unfold zlen; lia).
    rewrite <- drop_drop, E. apply drop_app_length.
Qed.

Lemma found_sub buf pos a : found buf pos a → buf_sub buf pos (zlen a) = Ok a.
Proof. intros F. apply (found_app buf pos a []). by rewrite app_nil_r. Qed.

(** A 16-bit number in network order. *)
Definition be16 (x : Z) : bytes := [x / 256; x mod 256].

Lemma found_be16 buf pos x old l :
  0 <= x < 65536 → found buf pos (be16 x ++ l) →
  GET_SHORT buf pos old = Ok (u16 (old + x)) ∧ found buf (pos + 2) l.
Proof.
  intros Hx F. apply found_cons in F as [E1 F]. apply found_cons in F as [E2 F]. split.
  - unfold GET_SHORT, ntohs_at. rewrite E1. cbn [mbind outcome_bind]. rewrite E2. cbn [mbind outcome_bind].
    do 3 f_equal. symmetry. apply Z.div_mod. lia.
  - by replace (pos + 2) with (pos + 1 + 1) by lia.
Qed.

(** ** Little endian numbers *)

Lemma to_le_length n x : length (to_le n x) = n.
Proof. unfold to_le. by rewrite length_fmap, length_seq. Qed.

Lemma le_to_le n x : 0 <= x < 2 ^ (8 * Z.of_nat n) → le (to_le n x) = x.
Proof.
  unfold le, to_le. revert x. induction n as [|n IH]; intros x Hx; [cbn in *; lia|].
  cbn [seq fmap list_fmap foldr]. change (8 * Z.of_nat 0) with 0. rewrite Z.pow_0_r, Z.div_1_r.
  rewrite <- fmap_S_seq, <- list_fmap_compose.
  assert ((λ i, (x / 2 ^ (8 * Z.of_nat i)) mod 256) ∘ S <$> seq 0 n = (λ i, (x / 256 / 2 ^ (8 * Z.of_nat i)) mod 256) <$> seq 0 n) as ->.
  { apply list_fmap_ext. intros _ i _. cbn. rewrite Z.div_div by lia. do 2 f_equal.
    replace (8 * Z.of_nat (S i)) with (8 + 8 * Z.of_nat i) by lia. rewrite Z.pow_add_r by lia. done. }
  rewrite IH; [pose proof (Z.div_mod x 256 ltac:(lia)); lia|].
  split; [apply Z.div_pos; lia|]. apply Z.div_lt_upper_bound; [lia|].
  replace (8 * Z.of_nat (S n)) with (8 + 8 * Z.of_nat n) in Hx by lia. rewrite Z.pow_add_r in Hx by lia. lia.
Qed.

(** ** The reference encoder *)

Definition enc_comp (c : packet_filter_component_t) : bytes :=
  match c with
  | PF_COMP_MATCH_ALL => [1]
  | PF_COMP_IPV4_REMOTE_ADDR a m => 16 :: to_le 4 a ++ to_le 4 m
  | PF_COMP_IPV4_LOCAL_ADDR a m => 17 :: to_le 4 a ++ to_le 4 m
  | PF_COMP_IPV6_REMOTE_ADDR_PREFIX a n => 33 :: a ++ [n]
  | PF_COMP_IPV6_LOCAL_ADDR_PREFIX a n => 35 :: a ++ [n]
  | PF_COMP_PROTOCOL_ID_NEXT_HDR p => [48; p]
  | PF_COMP_SINGLE_REMOTE_PORT p => 80 :: be16 p
  | PF_COMP_SINGLE_LOCAL_PORT p => 64 :: be16 p
  | PF_COMP_REMOTE_PORT_RANGE lo hi => 81 :: be16 lo ++ be16 hi
  | PF_COMP_LOCAL_PORT_RANGE lo hi => 65 :: be16 lo ++ be16 hi
  | PF_COMP_OTHER t => [t]
  end.

(** Fields in the range of their types; the ten components matching knows. *)
Definition comp_valid (c : packet_filter_component_t) : Prop :=
  match c with
  | PF_COMP_MATCH_ALL => True
  | PF_COMP_IPV4_REMOTE_ADDR a m | PF_COMP_IPV4_LOCAL_ADDR a m => 0 <= a < 2 ^ 32 ∧ 0 <= m < 2 ^ 32
  | PF_COMP_IPV6_REMOTE_ADDR_PREFIX a n | PF_COMP_IPV6_LOCAL_ADDR_PREFIX a n =>
      Forall is_byte a ∧ zlen a = 16 ∧ 0 <= n <= 128
  | PF_COMP_PROTOCOL_ID_NEXT_HDR p => is_byte p
  | PF_COMP_SINGLE_REMOTE_PORT p | PF_COMP_SINGLE_LOCAL_PORT p => 0 <= p < 65536
  | PF_COMP_REMOTE_PORT_RANGE lo hi | PF_COMP_LOCAL_PORT_RANGE lo hi => 0 <= lo < 65536 ∧ 0 <= hi < 65536
  | PF_COMP_OTHER _ => False
  end.

Lemma comp_valid_ok c : comp_valid c → component_ok c.
Proof. by destruct c. Qed.

Lemma union_write a : (length a <= 20)%nat →
  buf_write (replicate 20 0) 0 a = Ok (a ++ replicate (20 - length a) 0).
Proof.
  intros Ha. rewrite buf_write_ok by (unfold zlen; rewrite ?length_replicate; lia). f_equal.
  change (take (Z.to_nat 0) (replicate 20 0)) with (@nil Z). cbn [app]. f_equal.
  rewrite drop_replicate. f_equal. unfold zlen. lia.
Qed.

Lemma short_into_zero buf pos x l :
  0 <= x < 65536 → found buf pos (be16 x ++ l) →
  short_into buf pos (replicate 20 0) 0 = Ok (to_le 2 x ++ replicate 18 0) ∧ found buf (pos + 2) l.
Proof.
  intros Hx F. destruct (found_be16 buf pos x 0 l Hx F) as [E F']. split; [|done].
  unfold short_into. rewrite buf_sub_ok by (unfold zlen; rewrite ?length_replicate; lia). cbn [mbind outcome_bind].
  change (le (take _ _)) with 0. rewrite E. cbn [mbind outcome_bind].
  rewrite union_write by (rewrite to_le_length; lia). rewrite to_le_length. do 2 f_equal. unfold u16.
  rewrite Z.mod_small by lia. done.
Qed.

Lemma short_into_next buf pos a x :
  length a = 2%nat → 0 <= x < 65536 → found buf pos (be16 x) →
  short_into buf pos (a ++ replicate 18 0) 2 = Ok (a ++ to_le 2 x ++ replicate 16 0).
Proof.
  intros La Hx F. destruct (found_be16 buf pos x 0 [] Hx) as [E _]; [by rewrite app_nil_r|].
  unfold short_into. destruct a as [|a1 [|a2 [|]]]; try done.
  change (buf_sub _ 2 2) with (@Ok bytes [0; 0]). cbn [mbind outcome_bind]. change (le [0; 0]) with 0. rewrite E.
  cbn [mbind outcome_bind]. assert (u16 (0 + x) = x) as -> by (apply Z.mod_small; lia). reflexivity.
Qed.

Lemma take_to_le n x l : take n (to_le n x ++ l) = to_le n x.
Proof. apply take_app_length'. by rewrite to_le_length. Qed.
Lemma drop_to_le n x l : drop n (to_le n x ++ l) = l.
Proof. apply drop_app_length'. by rewrite to_le_length. Qed.

Lemma cons_eq (x y : Z) k l : x :: k = y :: l → x = y ∧ k = l.
Proof. intros E. by injection E. Qed.

(** A component at [pos], decoded into memory that is zero. *)
Lemma decode_value_ok c t rest buf pos end_ :
  comp_valid c → enc_comp c = t :: rest → found buf pos rest → pos + zlen rest <= end_ →
  ∃ v, decode_value t buf pos end_ (replicate 20 0) = Ok (Some (v, pos + zlen rest)) ∧ comp_view (mk_rc t v) = c.
Proof.
  intros V E F He. assert (∀ n, n = zlen rest → (end_ <? pos + n) = false) as Hb.
  { intros n ->. apply Z.ltb_ge. lia. }
  assert (∀ n, n = zlen rest → n <= 20 →
    (a ← buf_sub buf pos n; v ← buf_write (replicate 20 0) 0 a; Ok (Some (v, pos + n)))
    = Ok (Some (rest ++ replicate (20 - length rest) 0, pos + zlen rest))) as Hcopy.
  { intros n -> Ha. rewrite (found_sub _ _ _ F). cbn [mbind outcome_bind].
    rewrite union_write by (unfold zlen in Ha; lia). done. }
  assert (∀ n k, n = zlen rest → pos + n = pos + k → pos + k = pos + zlen rest) as Hpos by (intros; lia).
  destruct c as [|a m|a m|a n|a n|p|p|p|lo hi|lo hi|]; cbn [comp_valid enc_comp] in V, E; try done; apply cons_eq in E as [<- <-];
    unfold decode_value, comp_view; cbn [Z.eqb Pos.eqb orb rc_type rc_value].
  - eexists. split; [|done]. do 3 f_equal. rewrite zlen_nil. lia.
  - rewrite Hb by done. eexists. split; [by apply Hcopy|].
    rewrite <- app_assoc, take_to_le, drop_to_le, take_to_le, !le_to_le by apply V. done.
  - rewrite Hb by done. eexists. split; [by apply Hcopy|].
    rewrite <- app_assoc, take_to_le, drop_to_le, take_to_le, !le_to_le by apply V. done.
  - destruct V as (Va & Vl & Vn). assert (length a = 16%nat) as La by (unfold zlen in Vl; lia).
    rewrite Hb by (rewrite zlen_app, Vl; done). eexists. split; [apply Hcopy; [by rewrite zlen_app, Vl|lia]|].
    rewrite <- app_assoc. rewrite (take_app_length' _ _ 16), (drop_app_length' _ _ 16) by done. cbn. rewrite take_0. cbn. f_equal. lia.
  - destruct V as (Va & Vl & Vn). assert (length a = 16%nat) as La by (unfold zlen in Vl; lia).
    rewrite Hb by (rewrite zlen_app, Vl; done). eexists. split; [apply Hcopy; [by rewrite zlen_app, Vl|lia]|].
    rewrite <- app_assoc. rewrite (take_app_length' _ _ 16), (drop_app_length' _ _ 16) by done. cbn. rewrite take_0. cbn. f_equal. lia.
  - rewrite Hb by done. eexists. split; [by apply Hcopy|]. cbn. f_equal. lia.
  - rewrite Hb by done. destruct (short_into_zero buf pos p []) as [-> _]; [done|by rewrite app_nil_r|].
    cbn [mbind outcome_bind]. eexists. split; [reflexivity|]. rewrite take_to_le, le_to_le by (cbn; lia). done.
  - rewrite Hb by done. destruct (short_into_zero buf pos p []) as [-> _]; [done|by rewrite app_nil_r|].
    cbn [mbind outcome_bind]. eexists. split; [reflexivity|]. rewrite take_to_le, le_to_le by (cbn; lia). done.
  - rewrite Hb by done. destruct V as [Vl Vh]. destruct (short_into_zero buf pos lo (be16 hi) Vl F) as [-> F'].
    cbn [mbind outcome_bind]. rewrite (short_into_next buf (pos + 2) (to_le 2 lo) hi) by (done || apply to_le_length).
    cbn [mbind outcome_bind]. eexists. split; [reflexivity|].
    rewrite take_to_le, drop_to_le, take_to_le, !le_to_le by (cbn; lia). done.
  - rewrite Hb by done. destruct V as [Vl Vh]. destruct (short_into_zero buf pos lo (be16 hi) Vl F) as [-> F'].
    cbn [mbind outcome_bind]. rewrite (short_into_next buf (pos + 2) (to_le 2 lo) hi) by (done || apply to_le_length).
    cbn [mbind outcome_bind]. eexists. split; [reflexivity|].
    rewrite take_to_le, drop_to_le, take_to_le, !le_to_le by (cbn; lia). done.
Qed.

(** ** Filters *)

Definition enc_comps (cs : list packet_filter_component_t) : bytes := flat_map enc_comp cs.

Lemma enc_comp_cons c : comp_valid c → ∃ t rest, enc_comp c = t :: rest.
Proof. destruct c; cbn; eauto. Qed.

Lemma decode_components_ok cs room buf pos end_ pf (k : nat) :
  Forall comp_valid cs → found buf pos (enc_comps cs) → end_ = pos + zlen (enc_comps cs) →
  num_components pf = Z.of_nat k → room = (16 - k)%nat → (k + length cs <= 16)%nat →
  length (rp_components pf) = 16%nat → (∀ j, (k <= j < 16)%nat → rp_components pf !! j = Some raw_zero) →
  ∃ pf', decode_components room buf pos end_ pf = Ok (end_, pf') ∧
    rp_id pf' = rp_id pf ∧ rp_direction pf' = rp_direction pf ∧
    comp_view <$> take (Z.to_nat (num_components pf')) (rp_components pf') = (comp_view <$> take k (rp_components pf)) ++ cs.
Proof.
  intros V. revert room pos pf k. induction V as [|c cs Vc V IH]; intros room pos pf k F He Hn Hr Hk Hl Hz.
  { cbn in He. rewrite zlen_nil in He. replace end_ with pos by lia. exists pf.
    assert (decode_components room buf pos pos pf = Ok (pos, pf)) as ->.
    { destruct room; [done|]. cbn [decode_components]. by rewrite Z.ltb_irrefl. }
    rewrite Hn, Nat2Z.id, app_nil_r. done. }
  cbn [length] in Hk. destruct (enc_comp_cons c Vc) as (t & rest & Ec).
  unfold enc_comps in F, He. cbn [flat_map] in F, He. rewrite Ec in F, He. fold (enc_comps cs) in F, He.
  cbn [app] in F, He. rewrite zlen_cons, zlen_app in He. pose proof (zlen_nonneg rest). pose proof (zlen_nonneg (enc_comps cs)).
  apply found_cons in F as [Et F]. apply found_app in F as (_ & Frest & F).
  destruct (decode_value_ok c t rest buf (pos + 1) end_ Vc Ec Frest) as (v & Ev & Hv); [lia|].
  destruct room as [|room]; [lia|]. cbn [decode_components]. rewrite (proj2 (Z.ltb_lt _ _)) by lia.
  rewrite Hn, Nat2Z.id, (Hz k) by lia. rewrite Et. cbn [mbind outcome_bind raw_zero rc_value]. rewrite Ev. cbn [mbind outcome_bind].
  set (pf1 := pf <| rp_components := <[k:=mk_rc t v]> (rp_components pf) |> <| num_components := Z.of_nat k + 1 |>).
  destruct (IH room (pos + 1 + zlen rest) pf1 (S k)) as (pf' & E & Hid & Hdir & Hview); [exact F|lia|cbn; lia|lia|lia|
    cbn; by rewrite length_insert| |].
  { intros j Hj. cbn. rewrite list_lookup_insert_ne by lia. apply Hz. lia. }
  exists pf'. rewrite E. split_and!; [done..|]. rewrite Hview. cbn [pf1 rp_components set_field set_num_components set_rp_components].
  erewrite take_S_r by (apply list_lookup_insert_eq; lia). rewrite take_insert_ge, fmap_app, <- app_assoc by lia.
  cbn. by rewrite Hv.
Qed.

Definition dir_code (d : pf_direction) : Z :=
  match d with PF_DIR_RESERVED => 0 | PF_DIR_DOWNLINK => 1 | PF_DIR_UPLINK => 2 | PF_DIR_BIDIRECTIONAL => 3 end.

Definition enc_pf (pf : packet_filter_decoded_t) : bytes :=
  (pf_id pf + 16 * dir_code (direction pf)) :: zlen (enc_comps (components pf)) :: enc_comps (components pf).

Definition pf_valid (pf : packet_filter_decoded_t) : Prop :=
  0 <= pf_id pf < 16 ∧ Forall comp_valid (components pf) ∧ zlen (components pf) <= 16 ∧
  zlen (enc_comps (components pf)) <= 255.

Lemma pf_octet id d : 0 <= id < 16 →
  Z.shiftr (Z.land (id + 16 * dir_code d) 48) 4 = dir_code d ∧ Z.land (id + 16 * dir_code d) 15 = id.
Proof.
  intros Hi. assert (id ∈ seqZ 0 16) as Hin by (apply elem_of_seqZ; lia).
  assert (Forall (λ i, Z.shiftr (Z.land (i + 16 * dir_code d) 48) 4 = dir_code d ∧ Z.land (i + 16 * dir_code d) 15 = i)
    (seqZ 0 16)) as H by (destruct d; vm_compute; repeat constructor).
  rewrite Forall_forall in H. by apply H.
Qed.

(** A rule being decoded: [k] filters stored, the slots after them still zero. *)
Record filling (k : nat) (rule : qos_rule_t) : Prop := {
  fl_num : q_num_packet_filters rule = Z.of_nat k;
  fl_len : length (q_packet_filters rule) = 15%nat;
  fl_zero : ∀ j, (k <= j < 15)%nat → q_packet_filters rule !! j = Some raw_pf_zero;
}.

Definition same_head (r r' : qos_rule_t) : Prop :=
  r' = r <| q_packet_filters := q_packet_filters r' |> <| q_num_packet_filters := q_num_packet_filters r' |>.

Lemma store_filter_ok buf pos pf rule k :
  pf_valid pf → filling k rule → (k < 15)%nat → found buf pos (enc_comps (components pf)) →
  ∃ rule', store_filter buf pos (zlen (enc_comps (components pf))) (dir_code (direction pf)) (pf_id pf) rule = Ok rule' ∧
    filling (S k) rule' ∧ decoded_filters rule' = decoded_filters rule ++ [pf] ∧ same_head rule rule'.
Proof.
  intros (Vi & Vc & Vn & Vl) [Hn Hl Hz] Hk F. unfold store_filter. rewrite Hn.
  rewrite (proj2 (Z.ltb_lt _ _)) by (unfold MAX_PF_PER_QOS_RULE; lia). rewrite Nat2Z.id, (Hz k) by lia.
  unfold decode_packet_filter_contents.
  destruct (decode_components_ok (components pf) (Z.to_nat MAX_PF_COMPONENTS) buf pos
    (pos + zlen (enc_comps (components pf))) (mk_rpf (pf_id pf) (dir_code (direction pf)) 0 (replicate 16 raw_zero)) 0)
    as (pf' & E & Hid & Hdir & Hv); try done.
  { unfold zlen in Vn. lia. }
  { intros j Hj. cbn [rp_components]. by rewrite lookup_replicate_2 by lia. }
  change (mk_rpf _ _ _ _ <| num_components := 0 |>)
    with (mk_rpf (pf_id pf) (dir_code (direction pf)) 0 (replicate 16 raw_zero)).
  rewrite E. cbn [mbind outcome_bind]. destruct F as [Hp _]. pose proof (zlen_nonneg (enc_comps (components pf))).
  rewrite (proj2 (Z.ltb_ge (pos + _) 0)) by lia. rewrite (proj2 (Z.ltb_ge _ 0)) by lia.
  eexists. split; [reflexivity|]. split_and!; [split|..]; cbn.
  - rewrite Hn. lia.
  - by rewrite length_insert.
  - intros j Hj. rewrite list_lookup_insert_ne by lia. apply Hz. lia.
  - unfold decoded_filters. cbn. rewrite Hn. replace (Z.to_nat (Z.of_nat k + 1)) with (S k) by lia. rewrite Nat2Z.id.
    erewrite take_S_r by (apply list_lookup_insert_eq; lia). rewrite take_insert_ge, fmap_app by lia. cbn. do 2 f_equal.
    unfold pf_view. rewrite Hid, Hdir, Hv. cbn. destruct pf as [i d cs]. cbn. f_equal. by destruct d.
  - unfold same_head. by destruct rule.
Qed.

Definition enc_pfs (pfs : list packet_filter_decoded_t) : bytes := flat_map enc_pf pfs.

Definition with_filters (oc : Z) : bool :=
  (oc =? ROC_CREATE_NEW_QOS_RULE) || (oc =? ROC_MODIFY_QOS_RULE_ADD_PF) || (oc =? ROC_MODIFY_QOS_RULE_REPLACE_PF).

Lemma decode_filters_ok pfs buf pos rule_end rule k l :
  Forall pf_valid pfs → with_filters (q_oc rule) = true → filling k rule → (k + length pfs <= 15)%nat →
  found buf pos (enc_pfs pfs ++ l) → pos + zlen (enc_pfs pfs) <= rule_end →
  ∃ rule', decode_filters (length pfs) buf pos rule_end rule = Ok (Some (pos + zlen (enc_pfs pfs)), rule') ∧
    decoded_filters rule' = decoded_filters rule ++ pfs ∧ same_head rule rule'.
Proof.
  intros V. revert pos rule k. induction V as [|pf pfs Vp V IH]; intros pos rule k Hoc Hf Hk F He.
  { exists rule. cbn [length decode_filters enc_pfs flat_map]. rewrite zlen_nil, app_nil_r, Z.add_0_r.
    split_and!; [done..|]. unfold same_head. by destruct rule. }
  cbn [length] in Hk |- *. cbn [decode_filters]. unfold with_filters in Hoc. rewrite Hoc.
  set (c := enc_comps (components pf)) in *. pose proof (zlen_nonneg c). pose proof (zlen_nonneg (enc_pfs pfs)).
  assert (enc_pfs (pf :: pfs) = (pf_id pf + 16 * dir_code (direction pf)) :: zlen c :: c ++ enc_pfs pfs) as Ee by done.
  rewrite Ee in F, He |- *. rewrite !zlen_cons, zlen_app in *. cbn [app] in F. rewrite <- app_assoc in F.
  apply found_cons in F as [E1 F]. apply found_cons in F as [E2 F]. apply found_app in F as (_ & Fc & F).
  replace (pos + 1 + 1) with (pos + 2) in * by lia.
  rewrite (proj2 (Z.leb_gt rule_end pos)) by lia. rewrite E1. cbn [mbind outcome_bind].
  destruct (pf_octet (pf_id pf) (direction pf) (proj1 Vp)) as [-> ->].
  rewrite (proj2 (Z.leb_gt rule_end (pos + 1))) by lia. rewrite E2. cbn [mbind outcome_bind].
  rewrite (proj2 (Z.ltb_ge _ _)) by lia.
  destruct (store_filter_ok buf (pos + 2) pf rule k Vp Hf ltac:(lia) Fc) as (rule1 & E3 & Hf1 & Hd1 & Hs1). fold c in E3. rewrite E3.
  cbn [mbind outcome_bind].
  destruct (IH (pos + 2 + zlen c) rule1 (S k)) as (rule' & E & Hd & Hs); [|done|lia|done|lia|].
  { rewrite Hs1. unfold with_filters. exact Hoc. }
  exists rule'. rewrite E. split_and!.
  - do 3 f_equal. lia.
  - by rewrite Hd, Hd1, <- app_assoc.
  - unfold same_head in *. rewrite Hs, Hs1. done.
Qed.

(** ** Rules *)

Definition head_octet (oc : Z) (dqr : bool) (nb : Z) : Z := nb + 16 * Z.b2z dqr + 32 * oc.

Definition update_code (pfs : list packet_filter_decoded_t) (replace : bool) : Z :=
  if replace then ROC_MODIFY_QOS_RULE_REPLACE_PF
  else match pfs with [] => ROC_MODIFY_QOS_RULE_WITHOUT_PF | _ => ROC_MODIFY_QOS_RULE_ADD_PF end.

Definition op_id (op : rule_op) : Z :=
  match op with
  | RuleAdd id _ _ _ _ | RuleRemove id | RuleUpdate id _ _ _ _ _ | RuleDeletePf id _ => id
  end.

Definition op_body (op : rule_op) : bytes :=
  match op with
  | RuleAdd _ q prec dflt pfs => head_octet ROC_CREATE_NEW_QOS_RULE dflt (zlen pfs) :: enc_pfs pfs ++ [prec; q]
  | RuleRemove _ => [head_octet ROC_DELETE_QOS_RULE false 0]
  | RuleUpdate _ q prec dflt pfs replace =>
      head_octet (update_code pfs replace) dflt (zlen pfs) :: enc_pfs pfs ++ [prec; q]
  | RuleDeletePf _ ids => head_octet ROC_MODIFY_QOS_RULE_DELETE_PF false (zlen ids) :: ids ++ [0; 0]
  end.

Definition enc_rule (op : rule_op) : bytes := op_id op :: be16 (zlen (op_body op)) ++ op_body op.

Definition op_valid (op : rule_op) : Prop :=
  0 <= op_id op < 256 ∧
  match op with
  | RuleAdd _ q prec _ pfs | RuleUpdate _ q prec _ pfs _ =>
      0 <= q < 64 ∧ 0 <= prec < 256 ∧ Forall pf_valid pfs ∧ zlen pfs <= 15
  | RuleRemove _ => True
  | RuleDeletePf _ ids => Forall (λ i, 0 <= i < 16) ids ∧ zlen ids <= 15
  end.

(** What the decoded rule says. *)
Definition rule_means (rule : qos_rule_t) (op : rule_op) : Prop :=
  q_id rule = op_id op ∧
  match op with
  | RuleAdd _ q prec dflt pfs =>
      q_oc rule = ROC_CREATE_NEW_QOS_RULE ∧ q_qfi rule = q ∧ q_precedence rule = prec ∧ q_dqr rule = dflt ∧
      decoded_filters rule = pfs
  | RuleRemove _ => q_oc rule = ROC_DELETE_QOS_RULE
  | RuleUpdate _ q prec dflt pfs replace =>
      q_oc rule = update_code pfs replace ∧ q_qfi rule = q ∧ q_precedence rule = prec ∧ q_dqr rule = dflt ∧
      decoded_filters rule = pfs
  | RuleDeletePf _ ids => q_oc rule = ROC_MODIFY_QOS_RULE_DELETE_PF ∧ q_pf_delete_ids rule = ids
  end.

Lemma head_octet_fields oc dqr nb : 0 <= oc < 8 → 0 <= nb < 16 →
  Z.shiftr (Z.land (head_octet oc dqr nb) 224) 5 = oc ∧
  negb (Z.shiftr (Z.land (head_octet oc dqr nb) 16) 4 =? 0) = dqr ∧ Z.land (head_octet oc dqr nb) 15 = nb.
Proof.
  intros Ho Hn.
  assert (Forall (λ o, Forall (λ n, Z.shiftr (Z.land (head_octet o dqr n) 224) 5 = o ∧
    negb (Z.shiftr (Z.land (head_octet o dqr n) 16) 4 =? 0) = dqr ∧ Z.land (head_octet o dqr n) 15 = n)
    (seqZ 0 16)) (seqZ 0 8)) as H by (destruct dqr; vm_compute; repeat constructor).
  rewrite Forall_forall in H. specialize (H oc). rewrite Forall_forall in H.
  apply H; apply elem_of_seqZ; lia.
Qed.

Lemma land63 q : 0 <= q < 64 → Z.land q 63 = q.
Proof. intros Hq. change 63 with (Z.ones 6). rewrite Z.land_ones by lia. apply Z.mod_small. lia. Qed.

Lemma zlen_enc_pfs pfs : Forall pf_valid pfs → zlen (enc_pfs pfs) <= 257 * zlen pfs.
Proof.
  induction 1 as [|pf pfs (_ & _ & _ & Vl) V IH]; [done|]. unfold enc_pfs in *. cbn [flat_map].
  rewrite zlen_app, zlen_cons. assert (zlen (enc_pf pf) = 1 + (1 + zlen (enc_comps (components pf)))) by
    (unfold enc_pf; by rewrite !zlen_cons). lia.
Qed.

Lemma decode_ids_ok ids buf pos rule_end rule l :
  Forall (λ i, 0 <= i < 16) ids → q_oc rule = ROC_MODIFY_QOS_RULE_DELETE_PF →
  zlen (q_pf_delete_ids rule) + zlen ids <= 15 → found buf pos (ids ++ l) → pos + zlen ids <= rule_end →
  decode_filters (length ids) buf pos rule_end rule =
    Ok (Some (pos + zlen ids), rule <| q_pf_delete_ids := q_pf_delete_ids rule ++ ids |>).
Proof.
  intros V. revert pos rule. induction V as [|i ids Vi V IH]; intros pos rule Hoc Hk F He.
  { cbn [length decode_filters]. rewrite zlen_nil, app_nil_r, Z.add_0_r. by destruct rule. }
  rewrite zlen_cons in *. pose proof (zlen_nonneg ids). cbn [length decode_filters]. rewrite Hoc. cbn [Z.eqb Pos.eqb orb ROC_CREATE_NEW_QOS_RULE
    ROC_MODIFY_QOS_RULE_ADD_PF ROC_MODIFY_QOS_RULE_REPLACE_PF ROC_MODIFY_QOS_RULE_DELETE_PF].
  cbn [app] in F. apply found_cons in F as [E1 F]. rewrite (proj2 (Z.leb_gt _ _)) by lia. rewrite E1. cbn [mbind outcome_bind].
  rewrite (proj2 (Z.ltb_lt _ _)) by (unfold MAX_PF_PER_QOS_RULE; lia).
  assert (Z.land i 15 = i) as -> by (change 15 with (Z.ones 4); rewrite Z.land_ones by lia; apply Z.mod_small; lia).
  rewrite IH; [|done|cbn; rewrite zlen_app; change (zlen [i]) with 1; lia|done|lia].
  cbn. rewrite <- app_assoc. do 3 f_equal. lia.
Qed.

Lemma filling_fresh id len oc dqr nb :
  let r := mk_qos_rule id len oc dqr nb 0 0 (replicate (Z.to_nat MAX_PF_PER_QOS_RULE) raw_pf_zero) 0 [] in
  filling 0 r ∧ decoded_filters r = [].
Proof. split; [split; cbn; try done|done]. intros j Hj. by rewrite (lookup_replicate_2 15) by lia. Qed.

(** No filters: the loop is not entered or does nothing. *)
Lemma decode_filters_none buf pos rule_end rule : decode_filters 0 buf pos rule_end rule = Ok (Some pos, rule).
Proof. done. Qed.

Lemma decode_filters_list pfs buf pos rule_end rule l :
  Forall pf_valid pfs → pfs = [] ∨ with_filters (q_oc rule) = true → filling 0 rule → zlen pfs <= 15 →
  found buf pos (enc_pfs pfs ++ l) → pos + zlen (enc_pfs pfs) <= rule_end → decoded_filters rule = [] →
  ∃ rule', decode_filters (length pfs) buf pos rule_end rule = Ok (Some (pos + zlen (enc_pfs pfs)), rule') ∧
    decoded_filters rule' = pfs ∧ same_head rule rule'.
Proof.
  intros V [->|Hw] Hf Hl F He Hd.
  - exists rule. cbn. rewrite zlen_nil, Z.add_0_r. split_and!; [done..|]. unfold same_head. by destruct rule.
  - destruct (decode_filters_ok pfs buf pos rule_end rule 0 l) as (rule' & E & Hd' & Hs); try done.
    { unfold zlen in Hl. lia. }
    exists rule'. rewrite Hd in Hd'. done.
Qed.

(** A rule with filters, precedence and QFI. *)
Lemma decode_rule_pfs buf pos id oc dqr pfs prec q l (body := head_octet oc dqr (zlen pfs) :: enc_pfs pfs ++ [prec; q]) :
  Forall pf_valid pfs → zlen pfs <= 15 → 0 <= oc < 8 → oc ≠ ROC_DELETE_QOS_RULE → pfs = [] ∨ with_filters oc = true →
  0 <= q < 64 → found buf pos (id :: be16 (zlen body) ++ body ++ l) →
  ∃ rule, decode_qos_rule buf pos = Ok rule ∧ q_length rule = zlen body ∧ q_id rule = id ∧ q_oc rule = oc ∧
    q_qfi rule = q ∧ q_precedence rule = prec ∧ q_dqr rule = dqr ∧ decoded_filters rule = pfs.
Proof.
  intros V Hl Hoc Hne Hw Hq F. pose proof (zlen_enc_pfs pfs V) as Hlen. pose proof (zlen_nonneg (enc_pfs pfs)). pose proof (zlen_nonneg pfs).
  assert (zlen body = zlen (enc_pfs pfs) + 3) as Hb.
  { unfold body. rewrite zlen_cons, zlen_app. change (zlen [prec; q]) with 2. lia. }
  apply found_cons in F as [E1 F]. apply (found_be16 buf (pos + 1) (zlen body) 0) in F as [E2 F]; [|lia].
  unfold body in F at 1. rewrite <- app_comm_cons in F. apply found_cons in F as [E3 F]. rewrite <- app_assoc in F.
  replace (pos + 1 + 2) with (pos + 3) in * by lia. replace (pos + 3 + 1) with (pos + 4) in * by lia.
  unfold decode_qos_rule. rewrite E1. cbn [mbind outcome_bind]. rewrite E2. cbn [mbind outcome_bind]. rewrite E3. cbn [mbind outcome_bind].
  destruct (head_octet_fields oc dqr (zlen pfs) Hoc) as (-> & -> & ->); [lia|].
  assert (u16 (0 + zlen body) = zlen body) as -> by (apply Z.mod_small; lia).
  destruct (filling_fresh id (zlen body) oc dqr (zlen pfs)) as [Hf Hd].
  set (r0 := mk_qos_rule _ _ _ _ _ _ _ _ _ _) in *.
  destruct (decode_filters_list pfs buf (pos + 4) (pos + 3 + zlen body) r0 ([prec; q] ++ l)) as (r1 & E & Hd1 & Hs); try done; [lia|].
  replace (Z.to_nat (zlen pfs)) with (length pfs) by (unfold zlen; lia). rewrite E. cbn [mbind outcome_bind].
  rewrite (proj2 (Z.eqb_neq _ _)) by done. cbn [negb]. rewrite (proj2 (Z.ltb_ge _ _)) by lia.
  apply found_app in F as (_ & _ & F). apply found_cons in F as [E4 F]. apply found_cons in F as [E5 _].
  rewrite E4. cbn [mbind outcome_bind]. rewrite E5. cbn [mbind outcome_bind]. rewrite land63 by done.
  eexists. split; [reflexivity|]. rewrite Hs. cbn. split_and!; try done.
Qed.

(** A rule that deletes filters. *)
Lemma decode_rule_ids buf pos id ids l (body := head_octet ROC_MODIFY_QOS_RULE_DELETE_PF false (zlen ids) :: ids ++ [0; 0]) :
  Forall (λ i, 0 <= i < 16) ids → zlen ids <= 15 → found buf pos (id :: be16 (zlen body) ++ body ++ l) →
  ∃ rule, decode_qos_rule buf pos = Ok rule ∧ q_length rule = zlen body ∧ q_id rule = id ∧
    q_oc rule = ROC_MODIFY_QOS_RULE_DELETE_PF ∧ q_pf_delete_ids rule = ids.
Proof.
  intros V Hl F. pose proof (zlen_nonneg ids).
  assert (zlen body = zlen ids + 3) as Hb.
  { unfold body. rewrite zlen_cons, zlen_app. change (zlen [0; 0]) with 2. lia. }
  apply found_cons in F as [E1 F]. apply (found_be16 buf (pos + 1) (zlen body) 0) in F as [E2 F]; [|lia].
  unfold body in F at 1. rewrite <- app_comm_cons in F. apply found_cons in F as [E3 F]. rewrite <- app_assoc in F.
  replace (pos + 1 + 2) with (pos + 3) in * by lia. replace (pos + 3 + 1) with (pos + 4) in * by lia.
  unfold decode_qos_rule. rewrite E1. cbn [mbind outcome_bind]. rewrite E2. cbn [mbind outcome_bind]. rewrite E3. cbn [mbind outcome_bind].
  destruct (head_octet_fields ROC_MODIFY_QOS_RULE_DELETE_PF false (zlen ids)) as (-> & -> & ->); [done|lia|].
  assert (u16 (0 + zlen body) = zlen body) as -> by (apply Z.mod_small; lia).
  replace (Z.to_nat (zlen ids)) with (length ids) by (unfold zlen; lia).
  rewrite (decode_ids_ok ids buf (pos + 4) _ _ ([0; 0] ++ l)); try done; [|lia]. cbn [mbind outcome_bind].
  rewrite (proj2 (Z.eqb_neq _ _)) by done. cbn [negb]. rewrite (proj2 (Z.ltb_ge _ _)) by lia.
  apply found_app in F as (_ & _ & F). apply found_cons in F as [E4 F]. apply found_cons in F as [E5 _].
  rewrite E4. cbn [mbind outcome_bind]. rewrite E5. cbn [mbind outcome_bind].
  eexists. split; [reflexivity|]. done.
Qed.

Lemma zlen_op_body op : op_valid op → 1 <= zlen (op_body op) <= 4000.
Proof.
  intros [_ V]. destruct op as [id q prec dflt pfs|id|id q prec dflt pfs rep|id ids]; cbn [op_body]; [| unfold zlen; cbn; lia | |];
    rewrite ?zlen_cons, ?zlen_app.
  - destruct V as (_ & _ & V & Hl). pose proof (zlen_enc_pfs pfs V). pose proof (zlen_nonneg (enc_pfs pfs)). change (zlen [prec; q]) with 2. lia.
  - destruct V as (_ & _ & V & Hl). pose proof (zlen_enc_pfs pfs V). pose proof (zlen_nonneg (enc_pfs pfs)). change (zlen [prec; q]) with 2. lia.
  - destruct V as (_ & Hl). pose proof (zlen_nonneg ids). change (zlen [0; 0]) with 2. lia.
Qed.

Lemma update_code_ok pfs replace :
  0 <= update_code pfs replace < 8 ∧ update_code pfs replace ≠ ROC_DELETE_QOS_RULE ∧
  (pfs = [] ∨ with_filters (update_code pfs replace) = true).
Proof. destruct replace, pfs; cbn; split_and!; (done || lia || auto). Qed.

Lemma decode_qos_rule_ok op buf pos l :
  op_valid op → found buf pos (enc_rule op ++ l) →
  ∃ rule, decode_qos_rule buf pos = Ok rule ∧ q_length rule = zlen (op_body op) ∧ rule_means rule op.
Proof.
  intros V F. pose proof (zlen_op_body op V) as Hb. destruct V as [Vi V]. unfold enc_rule in F.
  rewrite <- app_comm_cons, <- app_assoc in F.
  destruct op as [id q prec dflt pfs|id|id q prec dflt pfs rep|id ids]; cbn [op_body op_id] in *.
  - destruct V as (Vq & Vp & Vf & Vl).
    destruct (decode_rule_pfs buf pos id ROC_CREATE_NEW_QOS_RULE dflt pfs prec q l) as (rule & E & ? & ? & ? & ? & ? & ? & ?);
      try done; [by right|]. by exists rule.
  - apply found_cons in F as [E1 F]. apply (found_be16 buf (pos + 1) _ 0) in F as [E2 F]; [|done].
    apply found_cons in F as [E3 _]. replace (pos + 1 + 2) with (pos + 3) in E3 by lia.
    unfold decode_qos_rule. rewrite E1. cbn [mbind outcome_bind]. rewrite E2. cbn [mbind outcome_bind]. rewrite E3.
    eexists. split; [reflexivity|]. done.
  - destruct V as (Vq & Vp & Vf & Vl). destruct (update_code_ok pfs rep) as (Hu & Hn & Hw).
    destruct (decode_rule_pfs buf pos id (update_code pfs rep) dflt pfs prec q l) as (rule & E & ? & ? & ? & ? & ? & ? & ?);
      try done. by exists rule.
  - destruct V as (Vids & Vl).
    destruct (decode_rule_ids buf pos id ids l) as (rule & E & ? & ? & ? & ?); try done. by exists rule.
Qed.

Definition enc_rules (ops : list rule_op) : bytes := flat_map enc_rule ops.

Lemma zlen_enc_rule op : zlen (enc_rule op) = zlen (op_body op) + 3.
Proof. unfold enc_rule. rewrite zlen_cons, zlen_app. change (zlen (be16 _)) with 2. lia. Qed.

Lemma decode_rules_ok ops room buf pos tot len rules l :
  Forall op_valid ops → found buf pos (enc_rules ops ++ l) → 0 <= tot → tot + zlen (enc_rules ops) = len → len < 65536 →
  (length ops <= room)%nat →
  ∃ rs, decode_rules room buf pos tot len rules = Ok (pos + zlen (enc_rules ops), rules ++ rs) ∧ Forall2 rule_means rs ops.
Proof.
  intros V. revert room pos tot rules. induction V as [|op ops Vo V IH]; intros room pos tot rules F Ht Hl Hlen Hr.
  { cbn in Hl |- *. rewrite zlen_nil in *. exists []. rewrite app_nil_r, Z.add_0_r. split; [|constructor].
    destruct room; [done|]. cbn [decode_rules]. by rewrite (proj2 (Z.ltb_ge _ _)) by lia. }
  assert (enc_rules (op :: ops) = enc_rule op ++ enc_rules ops) as Ee by done. rewrite Ee in *.
  rewrite zlen_app in *. rewrite <- app_assoc in F. pose proof (zlen_nonneg (enc_rules ops)).
  destruct (decode_qos_rule_ok op buf pos (enc_rules ops ++ l) Vo F) as (rule & E & Hq & Hm).
  pose proof (zlen_op_body op Vo). pose proof (zlen_enc_rule op) as Hz.
  assert (get_len_qos_rule rule = zlen (enc_rule op)) as Hg.
  { unfold get_len_qos_rule, u16. rewrite Hq, Z.mod_small by lia. lia. }
  apply found_app in F as (_ & _ & F). destruct room as [|room]; [cbn in Hr; lia|]. cbn [length] in Hr. cbn [decode_rules].
  rewrite (proj2 (Z.ltb_lt _ _)) by lia. rewrite E. cbn [mbind outcome_bind]. rewrite Hg.
  assert (u16 (tot + zlen (enc_rule op)) = tot + zlen (enc_rule op)) as -> by (apply Z.mod_small; lia).
  destruct (IH room (pos + zlen (enc_rule op)) (tot + zlen (enc_rule op)) (rules ++ [rule])) as (rs & E' & Hf);
    [done|lia..|]. exists (rule :: rs). rewrite E'. split; [|by constructor]. rewrite <- app_assoc. do 2 f_equal. lia.
Qed.

(** ** The rules reach SDAP *)

Lemma get_put l ue ps e e' :
  nr_sdap_get_entity l ue ps = Some e → is_entity ue ps e' →
  nr_sdap_get_entity (put_entity l ue ps e') ue ps = Some e'.
Proof.
  unfold nr_sdap_get_entity. intros H He. induction l as [|x l IH]; [done|]. cbn in H |- *.
  destruct (decide (is_entity ue ps x)) as [Hx|Hx]; cbn; [by rewrite decide_True|].
  rewrite decide_False by done. destruct (list_find _ l) as [[i y]|]; [|done]. specialize (IH H).
  by destruct (list_find _ (put_entity l ue ps e')) as [[j z]|].
Qed.

Lemma put_put l ue ps a b :
  is_entity ue ps a → put_entity (put_entity l ue ps a) ue ps b = put_entity l ue ps b.
Proof.
  intros Ha. induction l as [|x l IH]; [done|]. cbn. destruct (decide (is_entity ue ps x)) as [Hx|Hx]; cbn.
  - by rewrite decide_True.
  - rewrite decide_False by done. by rewrite IH.
Qed.

Lemma same_but_rules_key ue ps e e' : is_entity ue ps e → same_but_rules e e' → is_entity ue ps e' ∧ is_gnb e' = is_gnb e.
Proof. intros [H1 H2] ->. done. Qed.

(** The default flow of the TUN interface after an operation. *)
Definition tun_after (ps : Z) (tun : list Z) (op : rule_op) : list Z :=
  match op with RuleAdd _ q _ true _ => <[Z.to_nat ps := q]> tun | _ => tun end.

Section Apply.
Variable qsort : list nr_sdap_qos_rule_t → list nr_sdap_qos_rule_t.
Variable junk_rule : nr_sdap_qos_rule_t.
Variable junk_pf : packet_filter_decoded_t.
Hypothesis qsort_perm : ∀ l, qsort l ≡ₚ l.
Hypothesis qsort_sorted : ∀ l, by_precedence (qsort l).

Lemma op_valid_ok op : op_valid op → rule_op_ok op.
Proof.
  intros [_ V]. destruct op; cbn in *; try done; destruct V as (_ & _ & V & _);
    (eapply Forall_impl; [exact V|]; intros pf (_ & Hc & _); eapply Forall_impl; [exact Hc|apply comp_valid_ok]).
Qed.

Local Ltac codes := cbn [Z.eqb Pos.eqb ROC_CREATE_NEW_QOS_RULE ROC_DELETE_QOS_RULE ROC_MODIFY_QOS_RULE_ADD_PF
  ROC_MODIFY_QOS_RULE_REPLACE_PF ROC_MODIFY_QOS_RULE_DELETE_PF ROC_MODIFY_QOS_RULE_WITHOUT_PF rule_exec].

Lemma apply_rule_ok ue ps tun l e rule op :
  nr_sdap_get_entity l ue ps = Some e → is_gnb e = false → 0 <= ps < zlen tun → rule_means rule op →
  apply_rule qsort junk_rule junk_pf ue ps (tun, l) rule =
    (e' ← rule_exec qsort junk_rule junk_pf e op; Ok (tun_after ps tun op, put_entity l ue ps e')).
Proof.
  intros Hg Hu Hps [Hid Hm]. unfold apply_rule.
  unfold nr_sdap_qos_rule_add, nr_sdap_qos_rule_remove, nr_sdap_qos_rule_update, nr_sdap_qos_rule_delete_pf, on_ue_entity.
  rewrite Hg, Hu. assert (∀ q, nr_ue_tun_store_qfi tun ps q = Ok (<[Z.to_nat ps:=q]> tun)) as Htun.
  { intros q. unfold nr_ue_tun_store_qfi. by rewrite (proj2 (Z.leb_le _ _)), (proj2 (Z.ltb_lt _ _)) by lia. }
  destruct op as [id q prec dflt pfs|id|id q prec dflt pfs rep|id ids]; cbn [op_id] in Hid; rewrite Hid.
  - destruct Hm as (-> & -> & -> & -> & ->). codes.
    destruct dflt; rewrite ?Htun; cbn [mbind outcome_bind]; by destruct (rule_add _ _ _ _ _ _ _ _ _).
  - rewrite Hm. codes. by destruct (rule_remove _ _).
  - destruct Hm as (-> & -> & -> & -> & ->). cbn [rule_exec]. unfold update_code.
    destruct rep; [|destruct pfs]; codes; by destruct (rule_update _ _ _ _ _ _ _ _ _).
  - destruct Hm as (-> & ->). codes. by destruct (rule_delete_pf _ _ _).
Qed.

Lemma apply_rules_ok ue ps rules ops tun l e :
  nr_sdap_get_entity l ue ps = Some e → is_gnb e = false → 0 <= ps < zlen tun → Forall2 rule_means rules ops →
  rules_inv e → Forall op_valid ops →
  ∃ e', rule_run qsort junk_rule junk_pf e ops = Ok e' ∧
    apply_rules qsort junk_rule junk_pf ue ps (tun, l) rules = Ok (foldl (tun_after ps) tun ops, put_entity l ue ps e').
Proof.
  intros Hg Hu Hps Hm. revert tun l e Hg Hu Hps. induction Hm as [|rule op rules ops Hr Hm IH];
    intros tun l e Hg Hu Hps I V.
  { exists e. split; [done|]. cbn. do 2 f_equal. clear - Hg. unfold nr_sdap_get_entity in Hg.
    induction l as [|x l IH]; [done|]. cbn in *. destruct (decide (is_entity ue ps x)); [cbn in Hg; by injection Hg as ->|].
    f_equal. apply IH. by destruct (list_find _ l) as [[]|]. }
  inversion_clear V as [|? ? Vo V']. cbn [rule_run apply_rules].
  rewrite (apply_rule_ok ue ps tun l e rule op) by done.
  destruct (rule_exec_ok qsort junk_rule junk_pf qsort_perm qsort_sorted e op I (op_valid_ok op Vo)) as (e1 & -> & I1 & _ & _ & Hs).
  cbn [mbind outcome_bind]. assert (is_entity ue ps e) as He.
  { destruct (get_entity_some _ _ _ _ Hg) as [_ Hk]. unfold sdap_key in Hk. by injection Hk. }
  destruct (same_but_rules_key ue ps e e1 He Hs) as [He1 Hg1].
  destruct (IH (tun_after ps tun op) (put_entity l ue ps e1) e1) as (e' & E & Ea); try done.
  - by eapply get_put.
  - by rewrite Hg1.
  - destruct op as [id q prec [] pfs|?|?|?]; cbn; try done. unfold zlen. by rewrite length_insert.
  - exists e'. split; [done|]. rewrite Ea. by rewrite put_put.
Qed.
End Apply.

(** ** The whole message *)

Definition rules_ie (ops : list rule_op) : bytes := 0x7A :: be16 (zlen (enc_rules ops)) ++ enc_rules ops.

Lemma decode_command_ok buffer start ops :
  Forall op_valid ops → zlen ops <= 64 → zlen (enc_rules ops) < 65536 → found buffer start (rules_ie ops) →
  ∃ msg, decode_pdu_session_modification_command buffer start (zlen (rules_ie ops)) = Ok (zlen (rules_ie ops), msg) ∧
    qos_rules_present msg = true ∧ Forall2 rule_means (qos_rule msg) ops.
Proof.
  intros V Hn Hl F. set (n := zlen (enc_rules ops)) in *. pose proof (zlen_nonneg (enc_rules ops)) as Hp. fold n in Hp.
  assert (zlen (rules_ie ops) = n + 3) as Hz.
  { unfold rules_ie. rewrite zlen_cons, zlen_app. change (zlen (be16 _)) with 2. fold n. lia. }
  rewrite Hz. unfold decode_pdu_session_modification_command.
  replace (S (Z.to_nat (n + 3))) with (S (S (Z.to_nat (n + 2)))) by lia. cbn [psmc_loop].
  rewrite (proj2 (Z.ltb_lt start _)) by lia. pose proof F as [[Hs _] _].
  unfold rules_ie in F. apply found_cons in F as [E1 F]. apply (found_be16 _ _ n 0) in F as [E2 F]; [|lia].
  unfold psmc_ie. rewrite E1. cbn [mbind outcome_bind Z.eqb Pos.eqb orb qos_rules_length psmc_zero]. rewrite E2. cbn [mbind outcome_bind].
  assert (u16 (0 + n) = n) as -> by (apply Z.mod_small; lia).
  destruct (decode_rules_ok ops (Z.to_nat MAX_NUM_QOS_RULES) buffer (start + 1 + 2) 0 n [] []) as (rs & -> & Hm);
    [done|by rewrite app_nil_r|lia|lia|lia|unfold zlen, MAX_NUM_QOS_RULES in *; lia|]. fold n.
  cbn [mbind outcome_bind]. rewrite (proj2 (Z.ltb_ge (start + 1 + 2 + n) _)) by lia. cbn [mbind outcome_bind].
  rewrite (proj2 (Z.ltb_ge _ 0)) by lia. eexists. split; [do 2 f_equal; lia|]. done.
Qed.

(** A PDU session modification command: security and mobility headers and payload container
    type (11 octets), the length of the container, the session management header, the rules. *)
Definition modification_command (hdr : bytes) (ps pti : Z) (ops : list rule_op) : bytes :=
  hdr ++ be16 (4 + zlen (rules_ie ops)) ++ [0x2E; ps; pti; 0xCB] ++ rules_ie ops.

Lemma found_refl l : found l 0 l.
Proof. split; [pose proof (zlen_nonneg l); lia|]. exists []. by rewrite app_nil_r. Qed.

Lemma sec_header_ok buf : 7 <= zlen buf →
  returns (decode_5gs_security_protected_header buf 0 (zlen buf)) (λ r, r.1 = 7).
Proof.
  intros Hl. unfold decode_5gs_security_protected_header, BUFFER_TO_UINT32. rewrite (proj2 (Z.ltb_ge _ _)) by lia.
  destruct (buf_get_ok buf 0) as (? & _ & ->); [lia|]. destruct (buf_get_ok buf (0 + 1)) as (? & _ & ->); [lia|].
  cbn [mbind outcome_bind]. rewrite buf_sub_ok by lia. cbn [mbind outcome_bind].
  destruct (buf_get_ok buf (0 + 2)) as (? & _ & ->); [lia|]. by apply returns_ok.
Qed.

Lemma mm_header_ok buf pos len : 0 <= pos → 3 <= len → pos + 3 <= zlen buf →
  returns (decode_5gmm_msg_header buf pos len) (λ r, r.1 = 3).
Proof.
  intros Hp Hl Hb. unfold decode_5gmm_msg_header. rewrite (proj2 (Z.ltb_ge _ _)) by lia.
  destruct (buf_get_ok buf pos) as (? & _ & ->); [lia|]. destruct (buf_get_ok buf (pos + 1)) as (? & _ & ->); [lia|].
  destruct (buf_get_ok buf (pos + 2)) as (? & _ & ->); [lia|]. by apply returns_ok.
Qed.

Lemma sm_header_ok buf pos len ps pti l : 4 <= len → found buf pos ([0x2E; ps; pti; 0xCB] ++ l) →
  decode_5gsm_msg_header buf pos len = Ok (4, mk_sm_hdr 0x2E ps pti 0xCB).
Proof.
  intros Hl F. unfold decode_5gsm_msg_header. rewrite (proj2 (Z.ltb_ge _ _)) by lia.
  apply found_cons in F as [E1 F]. apply found_cons in F as [E2 F]. apply found_cons in F as [E3 F]. apply found_cons in F as [E4 F].
  replace (pos + 1 + 1 + 1) with (pos + 3) in E4 by lia. replace (pos + 1 + 1) with (pos + 2) in E3 by lia.
  by rewrite E1, E2, E3, E4.
Qed.

Lemma handle_command qsort junk_rule junk_pf ue st hdr ps pti ops :
  length hdr = 11%nat → Forall op_valid ops → zlen ops <= 64 → zlen (enc_rules ops) < 65000 →
  ∃ rules, Forall2 rule_means rules ops ∧
  handle_pdu_session_modification_command qsort junk_rule junk_pf ue st (modification_command hdr ps pti ops) =
    (st ← apply_rules qsort junk_rule junk_pf ue ps st rules; Ok ([SendModificationComplete ps pti], st)).
Proof.
  intros Hh V Hn Hl. pose proof (zlen_nonneg (enc_rules ops)) as Hp.
  assert (zlen (rules_ie ops) = zlen (enc_rules ops) + 3) as Hz.
  { unfold rules_ie. rewrite zlen_cons, zlen_app. change (zlen (be16 _)) with 2. lia. }
  assert (found (modification_command hdr ps pti ops) 0
    (hdr ++ be16 (4 + zlen (rules_ie ops)) ++ [0x2E; ps; pti; 0xCB] ++ rules_ie ops)) as F by apply found_refl.
  assert (zlen (modification_command hdr ps pti ops) = 17 + zlen (rules_ie ops)) as Hm.
  { unfold modification_command. rewrite !zlen_app. unfold zlen at 1. rewrite Hh. change (zlen (be16 _)) with 2.
    change (zlen [_; _; _; _]) with 4. lia. }
  set (m := modification_command hdr ps pti ops) in *.
  apply found_app in F as (_ & _ & F). unfold zlen in F at 1. rewrite Hh in F. change (0 + Z.of_nat 11) with 11 in F.
  apply (found_be16 _ _ _ 0) in F as [Elen F]; [|lia]. change (11 + 2) with 13 in F.
  pose proof F as F'. apply found_app in F' as (_ & _ & F'). change (13 + zlen _) with 17 in F'.
  destruct (decode_command_ok m 17 ops V Hn) as (msg & Ed & Hpres & Hr); [lia|done|].
  exists (qos_rule msg). split; [done|]. unfold handle_pdu_session_modification_command.
  destruct (sec_header_ok m) as ([? h1] & -> & Hr1); [lia|]. cbn in Hr1. subst. cbn [mbind outcome_bind].
  change (7 <? 0) with false. cbn [mbind outcome_bind].
  assert (∀ k, 0 <= k <= zlen m → u32 (zlen m - k) = zlen m - k) as Hu by (intros; apply u32_small; lia).
  rewrite Hu by lia. destruct (mm_header_ok m 7 (zlen m - 7)) as ([? h2] & -> & Hr2); [lia..|]. cbn in Hr2. subst.
  cbn [mbind outcome_bind]. change (3 <? 0) with false. change (7 + 3 + 1) with 11. rewrite Elen. cbn [mbind outcome_bind].
  change (11 + 2) with 13. rewrite Hu by lia. rewrite (sm_header_ok m 13 _ ps pti (rules_ie ops)) by (done || lia).
  cbn [mbind outcome_bind]. change (4 <? 0) with false. change (13 + 4) with 17.
  assert (u16 (0 + (4 + zlen (rules_ie ops))) = 4 + zlen (rules_ie ops)) as -> by (apply Z.mod_small; lia).
  rewrite (proj2 (Z.ltb_ge _ 4)) by lia. cbn [orb].
  replace (4 + zlen (rules_ie ops) - 4) with (zlen (rules_ie ops)) by lia.
  rewrite u32_small, (proj2 (Z.ltb_ge (zlen m) _)) by lia. rewrite Ed. cbn [mbind outcome_bind].
  rewrite (proj2 (Z.ltb_ge _ 0)) by lia. by rewrite Hpres.
Qed.

(** C25: the QoS rules the network sends are the rules SDAP uses: a UE that receives a PDU
    session modification command whose rules are encoded after TS 24.501 (up to 64 of them,
    with all their filters and components that matching knows) decodes each rule, filter and
    component as it was encoded, applies the operations in order to the rules of the PDU
    session, and answers; the rules that result are those the specification of the
    operations calls for, and the default flow of a created default rule is stored for the
    TUN interface. *)
Theorem nas_rules_reach_sdap qsort junk_rule junk_pf ue tun llist hdr ps pti ops e :
  (∀ l, qsort l ≡ₚ l) → (∀ l, by_precedence (qsort l)) →
  length hdr = 11%nat → Forall op_valid ops → zlen ops <= 64 → zlen (enc_rules ops) < 65000 →
  nr_sdap_get_entity llist ue ps = Some e → is_gnb e = false → 0 <= ps < zlen tun → rules_inv e →
  returns (handle_pdu_session_modification_command qsort junk_rule junk_pf ue (tun, llist)
             (modification_command hdr ps pti ops)) (λ '(ev, (tun', llist')),
    ev = [SendModificationComplete ps pti] ∧ tun' = foldl (tun_after ps) tun ops ∧
    ∃ e', nr_sdap_get_entity llist' ue ps = Some e' ∧ llist' = put_entity llist ue ps e' ∧
      spec_run (abs_rules e, qfi e) ops (abs_rules e', qfi e') ∧ rules_inv e' ∧ same_but_rules e e').
Proof.
  intros Hp Hs Hh V Hn Hl Hg Hu Hps I.
  destruct (handle_command qsort junk_rule junk_pf ue (tun, llist) hdr ps pti ops) as (rules & Hm & ->); try done.
  destruct (apply_rules_ok qsort junk_rule junk_pf Hp Hs ue ps rules ops tun llist e) as (e' & E & ->); try done.
  cbn [mbind outcome_bind]. apply returns_ok. split_and!; [done..|]. exists e'.
  pose proof (rule_run_ok qsort junk_rule junk_pf Hp Hs e ops I) as Hr.
  destruct (returns_eq _ _ _ (Hr ltac:(eapply Forall_impl; [exact V|apply op_valid_ok])) E) as (I' & Hrun & Hsame).
  split_and!; try done. eapply get_put; [done|]. eapply same_but_rules_key; [|done].
  destruct (get_entity_some _ _ _ _ Hg) as [_ Hk]. unfold sdap_key in Hk. by injection Hk.
Qed.

Lemma rule_ops_valid : Forall op_valid rule_ops.
Proof. repeat constructor; cbn; unfold is_byte; try lia; try discriminate. Qed.

Lemma ue_entity_inv : rules_inv ue_entity.
Proof.
  destruct (seq_arr_init_ok no_rule) as [W0 E0]. split; cbn; rewrite ?E0; (done || constructor).
Qed.

Lemma nas_rules_reach_sdap_witness :
  returns (handle_pdu_session_modification_command insertion_sort no_rule no_pf 1 (replicate 16 0, [ue_entity])
             (modification_command (replicate 11 0) 1 7 rule_ops)) (λ '(ev, (tun', llist')),
    ev = [SendModificationComplete 1 7] ∧ tun' = foldl (tun_after 1) (replicate 16 0) rule_ops ∧
    ∃ e', nr_sdap_get_entity llist' 1 1 = Some e' ∧ llist' = put_entity [ue_entity] 1 1 e' ∧
      spec_run (abs_rules ue_entity, 0) rule_ops (abs_rules e', qfi e') ∧ rules_inv e' ∧ same_but_rules ue_entity e').
Proof.
  apply (nas_rules_reach_sdap insertion_sort no_rule no_pf 1 (replicate 16 0) [ue_entity] (replicate 11 0) 1 7 rule_ops ue_entity);
    [apply insertion_sort_perm|apply insertion_sort_sorted|reflexivity|apply rule_ops_valid|
     vm_compute; discriminate|vm_compute; reflexivity|reflexivity|reflexivity|vm_compute; split; congruence|apply ue_entity_inv].
Defined.
