(* ===== verification/NasQosSafe.v ===== *)
(** * NAS: QoS rules, arbitrary messages

    What the decoders do with octets that no encoder wrote: within a rule that lies in the
    message they read nothing outside of it, and their result fits its arrays. And where
    they fail: lengths that are not checked. *)

From S2P Require Import Prelude Bits SeqArr SdapEntity SdapProofs SdapQos SdapQosProofs NasQos NasQosProofs.

#[local] Arguments Z.add : simpl never.
#[local] Arguments Z.sub : simpl never.
#[local] Arguments Z.mul : simpl never.
#[local] Arguments Z.opp : simpl never.

(** ** The union *)

Definition union_ok (v : bytes) : Prop := Forall is_byte v ∧ zlen v = 20.

Lemma to_le_bytes n x : Forall is_byte (to_le n x).
Proof.
  unfold to_le. apply Forall_fmap, Forall_true. intros i. unfold compose, is_byte. apply Z.mod_pos_bound. lia.
Qed.

Lemma union_put v off a :
  union_ok v → Forall is_byte a → 0 <= off → off + zlen a <= 20 → returns (buf_write v off a) union_ok.
Proof.
  intros [Hv Hl] Ha Ho Hb. rewrite buf_write_ok by lia. apply returns_ok. pose proof (zlen_nonneg a). split.
  - rewrite !Forall_app. split_and!; [by apply Forall_take|done|by apply Forall_drop].
  - rewrite !zlen_app, zlen_take, zlen_drop by lia. lia.
Qed.

Lemma short_into_total buf pos v off :
  union_ok v → 0 <= off <= 18 → 0 <= pos → pos + 2 <= zlen buf → returns (short_into buf pos v off) union_ok.
Proof.
  intros Hv Ho Hp Hb. unfold short_into, GET_SHORT, ntohs_at. pose proof Hv as [_ Hl].
  rewrite buf_sub_ok by lia. cbn [mbind outcome_bind].
  destruct (buf_get_ok buf pos) as (? & _ & ->); [lia|]. destruct (buf_get_ok buf (pos + 1)) as (? & _ & ->); [lia|].
  cbn [mbind outcome_bind]. apply union_put; [done|apply to_le_bytes|lia|]. unfold zlen. rewrite to_le_length. lia.
Qed.

Definition value_result (pos end_ : Z) (o : option (bytes * Z)) : Prop :=
  ∀ v p, o = Some (v, p) → union_ok v ∧ pos <= p <= end_.

Lemma result_none pos end_ : returns (Ok None) (value_result pos end_).
Proof. apply returns_ok. by intros ? ?. Qed.

Lemma result_some pos end_ v p : union_ok v → pos <= p <= end_ → returns (Ok (Some (v, p))) (value_result pos end_).
Proof. intros. apply returns_ok. by intros ? ? [= <- <-]. Qed.

Lemma decode_value_total t buf pos end_ v :
  Forall is_byte buf → union_ok v → 0 <= pos <= end_ → end_ <= zlen buf →
  returns (decode_value t buf pos end_ v) (value_result pos end_).
Proof.
  intros Hb Hv Hp He.
  assert (∀ n, 0 <= n <= 20 → returns (if end_ <? pos + n then Ok None else
    (a ← buf_sub buf pos n; v ← buf_write v 0 a; Ok (Some (v, pos + n)))) (value_result pos end_)) as Hcopy.
  { intros n Hn. destruct (Z.ltb_spec end_ (pos + n)); [apply result_none|].
    rewrite buf_sub_ok by lia. cbn [mbind outcome_bind]. eapply returns_bind.
    - apply union_put; [done|by apply Forall_take, Forall_drop|lia|]. rewrite zlen_take; [lia|]. rewrite zlen_drop; lia.
    - intros v' Hv'. apply result_some; [done|lia]. }
  assert (∀ x, returns (buf_write v 0 (to_le 4 x)) union_ok) as H4.
  { intros x. apply union_put; [done|apply to_le_bytes|lia|]. unfold zlen. rewrite to_le_length. lia. }
  unfold decode_value, BUFFER_TO_UINT32.
  destruct (t =? 1); [apply result_some; [done|lia]|].
  destruct (_ || _); [by apply Hcopy|]. destruct (_ || _); [by apply Hcopy|]. destruct (_ =? _); [by apply Hcopy|].
  destruct (_ || _).
  { destruct (Z.ltb_spec end_ (pos + 2)); [apply result_none|].
    eapply returns_bind; [apply (short_into_total buf pos v 0); [done|lia..]|]. intros. apply result_some; [done|lia]. }
  destruct (_ || _).
  { destruct (Z.ltb_spec end_ (pos + 4)); [apply result_none|].
    eapply returns_bind; [apply (short_into_total buf pos v 0); [done|lia..]|]. intros v1 Hv1.
    eapply returns_bind; [apply (short_into_total buf (pos + 2) v1 2); [done|lia..]|]. intros. apply result_some; [done|lia]. }
  destruct (_ =? _).
  { destruct (Z.ltb_spec end_ (pos + 4)); [apply result_none|]. rewrite buf_sub_ok by lia. cbn [mbind outcome_bind].
    eapply returns_bind; [apply H4|]. intros. apply result_some; [done|lia]. }
  destruct (_ =? _).
  { destruct (Z.ltb_spec end_ (pos + 2)); [apply result_none|].
    destruct (buf_get_ok buf pos) as (x & Hx & ->); [lia|]. cbn [mbind outcome_bind].
    eapply returns_bind; [apply (union_put v 0 [x]); [done| |lia|change (zlen [x]) with 1; lia]|].
    { constructor; [|done]. by eapply Forall_lookup_1. }
    intros. apply result_some; [done|lia]. }
  destruct (_ =? _).
  { destruct (Z.ltb_spec end_ (pos + 4)); [apply result_none|]. rewrite buf_sub_ok by lia. cbn [mbind outcome_bind].
    eapply returns_bind; [apply H4|]. intros. apply result_some; [done|lia]. }
  destruct (_ || _); [by apply Hcopy|].
  destruct (_ || _).
  { destruct (Z.ltb_spec end_ (pos + 2)); [apply result_none|].
    eapply returns_bind; [apply (short_into_total buf pos v 0); [done|lia..]|]. intros v1 Hv1.
    rewrite buf_sub_ok by (try lia; destruct Hv1; lia). cbn [mbind outcome_bind].
    eapply returns_bind; [apply union_put; [done|apply to_le_bytes|lia|unfold zlen; rewrite to_le_length; lia]|].
    intros. apply result_some; [done|lia]. }
  destruct (_ =? _); [|apply result_none].
  destruct (Z.ltb_spec end_ (pos + 2)); [apply result_none|]. apply result_some; [done|lia].
Qed.

(** ** Filters *)

Definition raw_ok (c : raw_component) : Prop := union_ok (rc_value c).

Record raw_pf_ok (pf : raw_pf) : Prop := {
  rk_num : 0 <= num_components pf <= 16;
  rk_len : length (rp_components pf) = 16%nat;
  rk_comps : Forall raw_ok (rp_components pf);
}.

Lemma decode_components_total room buf pos end_ pf :
  Forall is_byte buf → raw_pf_ok pf → Z.of_nat room + num_components pf = 16 → 0 <= pos <= end_ → end_ <= zlen buf →
  returns (decode_components room buf pos end_ pf) (λ '(p, pf'), raw_pf_ok pf' ∧ (p = -1 ∨ pos <= p <= end_)).
Proof.
  intros Hb. revert pos pf. induction room as [|room IH]; intros pos pf K Hr Hp He; cbn [decode_components].
  { apply returns_ok. split; [done|]. lia. }
  destruct (Z.ltb_spec pos end_) as [Hlt|]; [|apply returns_ok; split; [done|lia]].
  pose proof K as [Kn Kl Kc].
  destruct (lookup_lt_is_Some_2 (rp_components pf) (Z.to_nat (num_components pf))) as [c Hc]; [lia|]. rewrite Hc.
  destruct (buf_get_ok buf pos) as (t & _ & ->); [lia|]. cbn [mbind outcome_bind].
  pose proof (Forall_lookup_1 _ _ _ _ Kc Hc) as Hcu.
  destruct (decode_value_total t buf (pos + 1) end_ (rc_value c)) as (o & -> & Ho); [done..|lia|lia|]. cbn [mbind outcome_bind].
  destruct o as [[v p]|].
  - destruct (Ho v p eq_refl) as [Hv Hpp]. eapply returns_mono; [apply IH|].
    + split; cbn; [lia|by rewrite length_insert|]. by apply Forall_insert.
    + cbn. lia.
    + lia.
    + lia.
    + intros [p' pf'] [K' Hp']. split; [done|]. lia.
  - apply returns_ok. split; [|by left]. split; cbn; [lia|by rewrite length_insert|]. by apply Forall_insert.
Qed.

(** ** Rules *)

Record rule_fits (rule : qos_rule_t) : Prop := {
  rf_num : 0 <= q_num_packet_filters rule <= 15;
  rf_len : length (q_packet_filters rule) = 15%nat;
  rf_pfs : Forall raw_pf_ok (q_packet_filters rule);
  rf_ids : zlen (q_pf_delete_ids rule) <= 15;
}.

Lemma store_filter_total buf pos len d id rule :
  Forall is_byte buf → rule_fits rule → 0 <= pos → 0 <= len → pos + len <= zlen buf →
  returns (store_filter buf pos len d id rule) (λ r, rule_fits r ∧ same_head rule r).
Proof.
  intros Hb [Fn Fl Fp Fi] Hp Hl He. unfold store_filter.
  destruct (Z.ltb_spec (q_num_packet_filters rule) MAX_PF_PER_QOS_RULE) as [Hlt|];
    [|apply returns_ok; split; [done|unfold same_head; by destruct rule]].
  unfold MAX_PF_PER_QOS_RULE in Hlt.
  destruct (lookup_lt_is_Some_2 (q_packet_filters rule) (Z.to_nat (q_num_packet_filters rule))) as [pf Hpf]; [lia|]. rewrite Hpf.
  pose proof (Forall_lookup_1 _ _ _ _ Fp Hpf) as [Kn Kl Kc]. unfold decode_packet_filter_contents.
  set (pf0 := _ <| num_components := 0 |>). assert (raw_pf_ok pf0) as K0 by (split; cbn; [lia|done..]).
  destruct (decode_components_total (Z.to_nat MAX_PF_COMPONENTS) buf pos (pos + len) pf0) as ([p pf'] & -> & K' & Hpos);
    [done|done|done|lia|lia|]. cbn [mbind outcome_bind].
  apply returns_ok. destruct (_ <? 0).
  - split; [|unfold same_head; by destruct rule]. split; cbn; [done|by rewrite length_insert|by apply Forall_insert|done].
  - split; [|unfold same_head; by destruct rule]. split; cbn; [lia|by rewrite length_insert|by apply Forall_insert|done].
Qed.

Definition head_kept (r r' : qos_rule_t) : Prop := q_id r' = q_id r ∧ q_length r' = q_length r ∧ q_oc r' = q_oc r.

Lemma decode_filters_total n buf pos rule_end rule :
  Forall is_byte buf → rule_fits rule → 0 <= pos → rule_end <= zlen buf →
  returns (decode_filters n buf pos rule_end rule) (λ '(p, r), rule_fits r ∧ head_kept rule r ∧
    ∀ p', p = Some p' → 0 <= p').
Proof.
  intros Hb. revert pos rule. induction n as [|n IH]; intros pos rule F Hp He; cbn [decode_filters].
  { apply returns_ok. split_and!; [done..|]. by intros p' [= <-]. }
  assert (returns (Ok (None, rule)) (λ '(p, r), rule_fits r ∧ head_kept rule r ∧ ∀ p' : Z, p = Some p' → 0 <= p')) as Hnone.
  { apply returns_ok. done. }
  assert (∀ pos' r, rule_fits r → head_kept rule r → 0 <= pos' → returns (decode_filters n buf pos' rule_end r)
    (λ '(p, r'), rule_fits r' ∧ head_kept rule r' ∧ ∀ p', p = Some p' → 0 <= p')) as Hnext.
  { intros pos' r Fr (Hk1 & Hk2 & Hk3) Hp'. eapply returns_mono; [by apply IH|]. intros [p r'] (F' & (? & ? & ?) & Hp'').
    split_and!; [done| |done]. repeat split; congruence. }
  destruct (_ || _).
  - destruct (Z.leb_spec rule_end pos); [done|]. destruct (buf_get_ok buf pos) as (b & _ & ->); [lia|]. cbn [mbind outcome_bind].
    destruct (Z.leb_spec rule_end (pos + 1)); [done|]. destruct (buf_get_ok buf (pos + 1)) as (len & Hlen & ->); [lia|].
    cbn [mbind outcome_bind]. pose proof (Forall_lookup_1 _ _ _ _ Hb Hlen) as [Hl0 _].
    destruct (Z.ltb_spec (rule_end - (pos + 2)) len); [done|].
    destruct (store_filter_total buf (pos + 2) len (Z.shiftr (Z.land b 48) 4) (Z.land b 15) rule) as (r & -> & Fr & Hs); [done..|lia|lia|lia|].
    cbn [mbind outcome_bind]. apply Hnext; [done| |lia]. rewrite Hs. done.
  - destruct (_ =? _); [|by apply Hnext].
    destruct (Z.leb_spec rule_end pos); [done|]. destruct (buf_get_ok buf pos) as (b & _ & ->); [lia|]. cbn [mbind outcome_bind].
    destruct F as [Fn Fl Fp Fi]. destruct (Z.ltb_spec (zlen (q_pf_delete_ids rule)) MAX_PF_PER_QOS_RULE) as [Hlt|].
    + apply Hnext; [|done|lia]. split; cbn; try done. rewrite zlen_app. change (zlen [_]) with 1. unfold MAX_PF_PER_QOS_RULE in Hlt. lia.
    + apply Hnext; [done|done|lia].
Qed.

(** What a decoded component is sure to hold: everything matching needs but the bound on
    the length of an IPv6 prefix. *)
Definition comp_shape (c : packet_filter_component_t) : Prop :=
  match c with
  | PF_COMP_IPV6_REMOTE_ADDR_PREFIX addr n | PF_COMP_IPV6_LOCAL_ADDR_PREFIX addr n =>
      Forall is_byte addr ∧ zlen addr = 16 ∧ is_byte n
  | _ => True
  end.

Lemma comp_view_shape c : raw_ok c → comp_shape (comp_view c).
Proof.
  intros [Hb Hl]. assert (Forall is_byte (take 16 (rc_value c)) ∧ zlen (take 16 (rc_value c)) = 16 ∧
    is_byte (le (take 1 (drop 16 (rc_value c))))) as H.
  { assert (length (rc_value c) = 20%nat) as Hn by (unfold zlen in Hl; lia). split_and!.
    - by apply Forall_take.
    - unfold zlen. rewrite length_take. lia.
    - destruct (lookup_lt_is_Some_2 (rc_value c) 16) as [x Hx]; [lia|]. rewrite (drop_S _ _ _ Hx). cbn. rewrite take_0. cbn.
      pose proof (Forall_lookup_1 _ _ _ _ Hb Hx) as Hx'. unfold is_byte in *. lia. }
  unfold comp_view. repeat destruct (_ =? _); done.
Qed.

Definition pf_shape (pf : packet_filter_decoded_t) : Prop := zlen (components pf) <= 16 ∧ Forall comp_shape (components pf).

Lemma decoded_filters_shape rule : rule_fits rule → Forall pf_shape (decoded_filters rule).
Proof.
  intros [Fn Fl Fp Fi]. unfold decoded_filters. apply Forall_fmap, Forall_take. eapply Forall_impl; [exact Fp|].
  intros pf [Kn Kl Kc]. unfold compose, pf_view. split; cbn.
  - unfold zlen. rewrite length_fmap, length_take. lia.
  - apply Forall_fmap, Forall_take. eapply Forall_impl; [exact Kc|]. apply comp_view_shape.
Qed.

(** C33: on arbitrary octets the decoder of a QoS rule is safe as long as the rule lies within
    the message: if its first four octets and the octets its length announces are there, it
    returns, with reads and writes within the message and within its arrays of 15 filters,
    16 components and 15 identifiers, and with every component complete; matching on its
    filters is then total except for IPv6 prefix lengths above 128. *)
Theorem qos_rule_decoder_safe buf start hi lo :
  Forall is_byte buf → 0 <= start → start + 4 <= zlen buf →
  buf !! Z.to_nat (start + 1) = Some hi → buf !! Z.to_nat (start + 2) = Some lo →
  start + 3 + (256 * hi + lo) <= zlen buf →
  returns (decode_qos_rule buf start) (λ r,
    q_length r = 256 * hi + lo ∧ zlen (decoded_filters r) <= 15 ∧ zlen (q_pf_delete_ids r) <= 15 ∧
    Forall pf_shape (decoded_filters r)).
Proof.
  intros Hb Hs Hl Hhi Hlo He. unfold decode_qos_rule, GET_SHORT, ntohs_at.
  destruct (buf_get_ok buf start) as (id & _ & ->); [lia|]. cbn [mbind outcome_bind].
  rewrite (buf_get_lookup _ _ _ Hhi) by lia. cbn [mbind outcome_bind].
  replace (start + 1 + 1) with (start + 2) by lia. rewrite (buf_get_lookup _ _ _ Hlo) by lia. cbn [mbind outcome_bind].
  pose proof (Forall_lookup_1 _ _ _ _ Hb Hhi) as [? ?]. pose proof (Forall_lookup_1 _ _ _ _ Hb Hlo) as [? ?].
  assert (u16 (0 + (256 * hi + lo)) = 256 * hi + lo) as -> by (apply Z.mod_small; lia).
  destruct (buf_get_ok buf (start + 3)) as (b & _ & ->); [lia|]. cbn [mbind outcome_bind].
  set (r0 := mk_qos_rule _ _ _ _ _ _ _ _ _ _). assert (rule_fits r0) as F0.
  { split; try done. apply Forall_replicate. split; [done|done|]. apply Forall_replicate.
    split; [|done]. by apply Forall_replicate. }
  eapply returns_bind; [by apply (decode_filters_total _ buf (start + 4) _ r0); try done; lia|].
  intros [p r] (F & (_ & Hlen & _) & Hp). cbn in Hlen.
  assert (∀ r', q_length r' = q_length r → q_num_packet_filters r' = q_num_packet_filters r →
    q_packet_filters r' = q_packet_filters r → q_pf_delete_ids r' = q_pf_delete_ids r →
    q_length r' = 256 * hi + lo ∧ zlen (decoded_filters r') <= 15 ∧ zlen (q_pf_delete_ids r') <= 15 ∧
    Forall pf_shape (decoded_filters r')) as Hfin.
  { intros r' E1 E2 E3 E4. assert (decoded_filters r' = decoded_filters r) as -> by (unfold decoded_filters; by rewrite E2, E3).
    split_and!; [by rewrite E1| |rewrite E4; apply F|by apply decoded_filters_shape].
    unfold decoded_filters, zlen. rewrite length_fmap, length_take. destruct F. lia. }
  destruct p as [p|]; [|apply returns_ok; by apply Hfin].
  destruct (negb (_ =? ROC_DELETE_QOS_RULE)); [|apply returns_ok; by apply Hfin]. specialize (Hp p eq_refl).
  destruct (Z.ltb_spec (start + 3 + (256 * hi + lo) - p) 2); [apply returns_ok; by apply Hfin|].
  destruct (buf_get_ok buf p) as (? & _ & ->); [lia|]. destruct (buf_get_ok buf (p + 1)) as (? & _ & ->); [lia|].
  cbn [mbind outcome_bind]. apply returns_ok. by apply Hfin.
Qed.

Lemma qos_rule_decoder_safe_witness :
  returns (decode_qos_rule [3; 0; 5; 97; 33; 1; 1; 9] 0) (λ r,
    q_length r = 5 ∧ zlen (decoded_filters r) <= 15 ∧ zlen (q_pf_delete_ids r) <= 15 ∧ Forall pf_shape (decoded_filters r)).
Proof.
  apply (qos_rule_decoder_safe [3; 0; 5; 97; 33; 1; 1; 9] 0 0 5);
    [repeat constructor; unfold is_byte; lia|lia|vm_compute; congruence|reflexivity|reflexivity|vm_compute; congruence].
Defined.

(** ** Lengths that are not checked *)

(** A rule of announced length 65533: with its three first octets its size is 0 in 16 bits. *)
Definition wrapped_rule : bytes := [1; 255; 253; 64].
Definition wrapped_accept : bytes := [17; 0; 10] ++ wrapped_rule ++ replicate 20 0.

(** C39: a PDU session establishment accept can make the UE loop for ever: the size of a rule
    is computed in 16 bits, a rule that announces 65533 octets has size 0, and the loop over
    the rules, which has no other bound, decodes it again and again. The same rule in a PDU
    session modification command ends after 64 turns. *)
Theorem nas_accept_loops :
  (∀ fuel, decode_pdu_session_establishment_accept_msg fuel wrapped_accept (zlen wrapped_accept) = Diverge) ∧
  ∃ msg, psmc_ie psmc_zero ([0x7A; 0; 10] ++ wrapped_rule ++ replicate 20 0) 0 = Ok (Some (3, msg)).
Proof.
  split; [|eexists; vm_compute; reflexivity]. intros fuel.
  assert (∀ r, psea_rules fuel wrapped_accept 3 0 10 r = Diverge) as H.
  { induction fuel as [|fuel IH]; intros r; [done|]. cbn [psea_rules]. change (0 <? 10) with true. cbv iota.
    assert (∃ x, decode_qos_rule wrapped_accept 3 = Ok x ∧ get_len_qos_rule x = 0) as (x & -> & E)
      by (eexists; split; [vm_compute; reflexivity|reflexivity]).
    cbn [mbind outcome_bind]. rewrite E. change (3 + 0) with 3. change (u16 (0 + 0)) with 0. apply IH. }
  unfold decode_pdu_session_establishment_accept_msg. change (buf_get wrapped_accept 0) with (@Ok Z 17).
  change (GET_SHORT wrapped_accept 1 0) with (@Ok Z 10). cbn [mbind outcome_bind]. by rewrite H.
Qed.

(** ** Lengths and indices that are not checked *)

(** A component with an IPv6 prefix: any prefix length is taken as it is. *)
Lemma decode_ipv6_prefix buf pos end_ a n l :
  length a = 16%nat → found buf pos (a ++ n :: l) → pos + 17 <= end_ →
  ∃ v, decode_value 33 buf pos end_ (replicate 20 0) = Ok (Some (v, pos + 17)) ∧
    comp_view (mk_rc 33 v) = PF_COMP_IPV6_REMOTE_ADDR_PREFIX a n.
Proof.
  intros La F He. rewrite cons_middle, app_assoc in F. apply found_app in F as (F & _ & _).
  assert (zlen (a ++ [n]) = 17) as Hz by (unfold zlen; rewrite length_app; cbn; lia).
  pose proof F as Hsub. rewrite Hz in Hsub. unfold decode_value. cbn [Z.eqb Pos.eqb orb].
  rewrite (proj2 (Z.ltb_ge _ _)), Hsub by lia. cbn [mbind outcome_bind].
  rewrite union_write by (unfold zlen in Hz; lia). eexists. split; [reflexivity|].
  unfold comp_view. cbn [Z.eqb Pos.eqb rc_type rc_value]. rewrite <- app_assoc.
  rewrite (take_app_length' _ _ 16), (drop_app_length' _ _ 16) by done. cbn. rewrite take_0. cbn. f_equal. lia.
Qed.

(** Matching with a prefix longer than the address. *)
Lemma ipv6_match_long a f n :
  zlen a = 16 → zlen f = 16 → 136 <= n < 256 ∨ (128 < n < 136 ∧ a = f) → ipv6_match a f n = Undef.
Proof.
  intros Ha Hf Hn. unfold ipv6_match. assert (u8 n = n) as -> by (apply Z.mod_small; lia).
  pose proof (Z.div_mod n 8 ltac:(lia)). pose proof (Z.mod_pos_bound n 8 ltac:(lia)).
  destruct Hn as [Hn|[Hn <-]].
  - assert (buf_sub a 0 (n / 8) = Undef) as ->; [|done].
    unfold buf_sub. destruct (_ && _) eqn:E; [|done]. exfalso.
    repeat (apply andb_true_iff in E as [E ?]). repeat match goal with H : (_ <=? _) = true |- _ => apply Z.leb_le in H end. lia.
  - assert (n / 8 = 16) as -> by lia. rewrite buf_sub_ok by lia. cbn [mbind outcome_bind].
    rewrite bool_decide_eq_true_2 by done. cbn [negb]. rewrite (proj2 (Z.ltb_lt _ _)) by lia.
    unfold buf_get. change (16 <? 0) with false. cbv iota. rewrite lookup_ge_None_2; [done|unfold zlen in Ha; lia].
Qed.

(** A rule in a message that ends at [pos], before the end the rule announces. *)
Lemma decode_filters_cut n buf pos rule_end rule :
  buf_get buf pos = Undef → pos < rule_end →
  decode_filters n buf pos rule_end rule = Undef ∨ ∃ rule', decode_filters n buf pos rule_end rule = Ok (Some pos, rule').
Proof.
  intros Hb He. induction n as [|n IH]; cbn [decode_filters]; [right; by eexists|].
  rewrite (proj2 (Z.leb_gt _ _)), Hb by done. destr_bool; (done || by left).
Qed.

Lemma decode_qos_rule_cut l1 l2 id hi lo b :
  is_byte hi → is_byte lo → 3 <= 256 * hi + lo → Z.shiftr (Z.land b 224) 5 ≠ ROC_DELETE_QOS_RULE →
  decode_qos_rule [0x7A; l1; l2; id; hi; lo; b] 3 = Undef.
Proof.
  intros Hh Hl H3 Ho. unfold decode_qos_rule. set (buf := [_; _; _; _; _; _; _]).
  change (buf_get buf 3) with (Ok id). change (buf_get buf (3 + 3)) with (Ok b).
  change (GET_SHORT buf (3 + 1) 0) with (Ok (u16 (0 + (256 * hi + lo)))). cbn [mbind outcome_bind].
  assert (u16 (0 + (256 * hi + lo)) = 256 * hi + lo) as -> by (unfold is_byte in *; apply Z.mod_small; lia).
  set (r := mk_qos_rule _ _ _ _ _ _ _ _ _ _).
  destruct (decode_filters_cut (Z.to_nat (Z.land b 15)) buf (3 + 4) (3 + 3 + (256 * hi + lo)) r) as [->|(r' & ->)];
    [done|lia|done|]. cbn [mbind outcome_bind]. rewrite (proj2 (Z.eqb_neq _ _) Ho). cbn [negb].
  by rewrite (proj2 (Z.ltb_ge _ 2)) by lia.
Qed.



(** Memory of a filter that failed is used again: the first filter of this rule has a
    single port 53 and an unknown component, so it is dropped; the second, a single port 80,
    is decoded into the same memory, where the port is added to the old one: 133. *)
Theorem nas_stale_port :
  ∃ r, decode_qos_rule [1; 0; 14; 34; 33; 4; 80; 0; 53; 255; 34; 3; 80; 0; 80; 10; 5] 0 = Ok r ∧
    components <$> decoded_filters r = [[PF_COMP_SINGLE_REMOTE_PORT 133]].
Proof. eexists. split; vm_compute; reflexivity. Qed.
