(* ===== verification/Gf2.v ===== *)
(** * Bits as vectors

    Numbers as vectors of bits under exclusive or, and functions linear over them: such a
    function is known from its values at the powers of two. Used for the checks, whose every
    step is linear, and for the multiplications in the fields of Snow 3G. *)

From S2P Require Import Prelude Bits.

(** ** Exclusive or and ranges *)

Lemma u32_lxor a b : u32 (Z.lxor a b) = Z.lxor (u32 a) (u32 b).
Proof.
  unfold u32. apply Z.bits_inj'. intros i Hi. rewrite Z.lxor_spec.
  destruct (Z.ltb_spec i 32).
  - by rewrite !Z.mod_pow2_bits_low, Z.lxor_spec by lia.
  - by rewrite !Z.mod_pow2_bits_high by lia.
Qed.

Definition is_u32 (x : Z) : Prop := 0 <= x < 2 ^ 32.

Lemma u32_is x : is_u32 (u32 x).
Proof. apply u32_range. Qed.

Lemma is_u32_bits x : is_u32 x ↔ 0 <= x ∧ ∀ i, 32 <= i → Z.testbit x i = false.
Proof.
  split.
  - intros [H0 H]. split; [done|]. intros i Hi. destruct (decide (x = 0)) as [->|]; [apply Z.bits_0|].
    apply Z.bits_above_log2; [done|]. apply Z.log2_lt_pow2; [lia|]. eapply Z.lt_le_trans; [exact H|]. apply Z.pow_le_mono_r; lia.
  - intros [H0 H]. split; [done|]. destruct (Z.lt_ge_cases x (2 ^ 32)) as [|Hge]; [done|].
    assert (32 <= Z.log2 x) as Hl by (apply Z.log2_le_pow2; lia).
    specialize (H (Z.log2 x) Hl). rewrite Z.bit_log2 in H by lia. done.
Qed.

Lemma lxor_u32 a b : is_u32 a → is_u32 b → is_u32 (Z.lxor a b).
Proof.
  rewrite !is_u32_bits. intros [Ha Ha'] [Hb Hb']. split; [by apply Z.lxor_nonneg|].
  intros i Hi. by rewrite Z.lxor_spec, Ha', Hb'.
Qed.

Lemma testbit_above v n i : 0 <= v < 2 ^ n → n <= i → Z.testbit v i = false.
Proof.
  intros Hv Hi. destruct (decide (v = 0)) as [->|]; [apply Z.bits_0|]. apply Z.bits_above_log2; [lia|].
  destruct (Z.lt_ge_cases n 0) as [Hn|Hn]; [rewrite Z.pow_neg_r in Hv by lia; lia|].
  assert (Z.log2 v < n) by (apply Z.log2_lt_pow2; lia). lia.
Qed.

Lemma lxor_range a b n : 0 <= n → 0 <= a < 2 ^ n → 0 <= b < 2 ^ n → 0 <= Z.lxor a b < 2 ^ n.
Proof.
  intros Hn Ha Hb. assert (0 <= Z.lxor a b) as H0 by (apply Z.lxor_nonneg; lia). split; [done|].
  destruct (decide (Z.lxor a b = 0)) as [->|]; [lia|]. apply Z.log2_lt_pow2; [lia|].
  destruct (Z.lt_ge_cases (Z.log2 (Z.lxor a b)) n) as [|Hge]; [done|].
  pose proof (Z.bit_log2 (Z.lxor a b) ltac:(lia)) as Hb2. by rewrite Z.lxor_spec, !(testbit_above _ n) in Hb2.
Qed.

Lemma lxor_shiftl_add a b n : 0 <= n → 0 <= b < 2 ^ n → Z.lxor (Z.shiftl a n) b = a * 2 ^ n + b.
Proof.
  intros Hn Hb. rewrite <- lor_shiftl_add by done. apply Z.lxor_lor. apply Z.bits_inj'. intros i Hi.
  rewrite Z.land_spec, Z.bits_0, Z.shiftl_spec by lia.
  destruct (Z.ltb_spec i n); [by rewrite Z.testbit_neg_r by lia|]. by rewrite (testbit_above b n), andb_false_r by lia.
Qed.

Lemma lxor_byte a b : is_byte a → is_byte b → is_byte (Z.lxor a b).
Proof.
  intros Ha Hb. split; [apply Z.lxor_nonneg; split; intros; [apply Hb|apply Ha]|].
  destruct (Z.lt_ge_cases (Z.lxor a b) 256) as [|Hge]; [done|].
  assert (8 <= Z.log2 (Z.lxor a b)) as Hl by (apply Z.log2_le_pow2; lia).
  pose proof (Z.bit_log2 (Z.lxor a b) ltac:(lia)) as Hbit. rewrite Z.lxor_spec in Hbit.
  assert (∀ z, is_byte z → Z.testbit z (Z.log2 (Z.lxor a b)) = false) as Hz.
  { intros z [Hz0 Hz1]. destruct (decide (z = 0)) as [->|]; [apply Z.bits_0|]. apply Z.bits_above_log2; [done|].
    assert (Z.log2 z < 8) by (apply Z.log2_lt_pow2; lia). lia. }
  rewrite !Hz in Hbit by done. discriminate Hbit.
Qed.

Lemma lor_byte_lxor x v : is_byte x → Z.lor x (Z.shiftl v 8) = Z.lxor x (Z.shiftl v 8).
Proof.
  intros Hx. symmetry. apply Z.lxor_lor. apply Z.bits_inj'. intros i Hi. rewrite Z.land_spec, Z.bits_0, Z.shiftl_spec by lia.
  destruct (Z.ltb_spec i 8); [by rewrite (Z.testbit_neg_r v) by lia; rewrite andb_false_r|].
  unfold is_byte in Hx. destruct (decide (x = 0)) as [->|]; [by rewrite Z.bits_0|].
  rewrite (Z.bits_above_log2 x); [done|lia|]. assert (Z.log2 x < 8) by (apply Z.log2_lt_pow2; lia). lia.
Qed.

(** ** Linear functions *)

Class Linear (f : Z → Z) : Prop := linear a b : f (Z.lxor a b) = Z.lxor (f a) (f b).

Lemma lxor_swap a b c d : Z.lxor (Z.lxor a b) (Z.lxor c d) = Z.lxor (Z.lxor a c) (Z.lxor b d).
Proof. rewrite !Z.lxor_assoc. f_equal. rewrite <- !Z.lxor_assoc. f_equal. apply Z.lxor_comm. Qed.

#[export] Instance linear_id : Linear (λ a, a).
Proof. done. Qed.
#[export] Instance linear_zero : Linear (λ _, 0).
Proof. done. Qed.
#[export] Instance linear_lxor f g : Linear f → Linear g → Linear (λ a, Z.lxor (f a) (g a)).
Proof. intros Hf Hg a b. rewrite Hf, Hg. apply lxor_swap. Qed.
#[export] Instance linear_shiftl f n : Linear f → Linear (λ a, Z.shiftl (f a) n).
Proof. intros Hf a b. by rewrite Hf, Z.shiftl_lxor. Qed.
#[export] Instance linear_shiftr f n : Linear f → Linear (λ a, Z.shiftr (f a) n).
Proof. intros Hf a b. by rewrite Hf, Z.shiftr_lxor. Qed.
#[export] Instance linear_land f m : Linear f → Linear (λ a, Z.land (f a) m).
Proof. intros Hf a b. rewrite Hf. apply Z.bits_inj'. intros i Hi. rewrite !Z.lxor_spec, !Z.land_spec, Z.lxor_spec. by destruct (Z.testbit m i); rewrite ?andb_true_r, ?andb_false_r. Qed.
#[export] Instance linear_u32 f : Linear f → Linear (λ a, u32 (f a)).
Proof. intros Hf a b. by rewrite Hf, u32_lxor. Qed.
#[export] Instance linear_if (c : bool) f g : Linear f → Linear g → Linear (λ a, if c then f a else g a).
Proof. by destruct c. Qed.

(** A constant added for each bit that is set. *)
Lemma lxor_if (x y : bool) c : (if xorb x y then c else 0) = Z.lxor (if x then c else 0) (if y then c else 0).
Proof. destruct x, y; cbn; by rewrite ?Z.lxor_nilpotent, ?Z.lxor_0_r, ?Z.lxor_0_l. Qed.

Lemma linear_0 f : Linear f → f 0 = 0.
Proof. intros Hf. rewrite <- (Z.lxor_nilpotent 0) at 1. rewrite Hf. apply Z.lxor_nilpotent. Qed.

(** A number is its lower bits and its highest. *)
Lemma split_top a n : 0 <= n → 0 <= a < 2 ^ (n + 1) → a = Z.lxor (a mod 2 ^ n) (if Z.testbit a n then 2 ^ n else 0).
Proof.
  intros Hn Ha. apply Z.bits_inj'. intros i Hi. rewrite Z.lxor_spec.
  destruct (Z.lt_trichotomy i n) as [Hlt|[->|Hgt]].
  - rewrite Z.mod_pow2_bits_low by lia. destruct (Z.testbit a n); rewrite ?Z.pow2_bits_false, ?Z.bits_0 by lia; by rewrite xorb_false_r.
  - rewrite Z.mod_pow2_bits_high by lia. destruct (Z.testbit a n); [by rewrite Z.pow2_bits_true|by rewrite Z.bits_0].
  - rewrite Z.mod_pow2_bits_high by lia.
    assert (Z.testbit a i = false) as ->.
    { destruct (decide (a = 0)) as [->|]; [apply Z.bits_0|]. apply Z.bits_above_log2; [lia|].
      assert (Z.log2 a < n + 1) by (apply Z.log2_lt_pow2; lia). lia. }
    destruct (Z.testbit a n); rewrite ?Z.pow2_bits_false, ?Z.bits_0 by lia; done.
Qed.

(** Two linear functions that agree on the powers of two agree. *)
Lemma linear_ext (n : nat) f g a :
  Linear f → Linear g → (∀ i, (i < n)%nat → f (2 ^ Z.of_nat i) = g (2 ^ Z.of_nat i)) → 0 <= a < 2 ^ Z.of_nat n → f a = g a.
Proof.
  intros Hf Hg. revert a. induction n as [|n IH]; intros a H Ha.
  { assert (a = 0) as -> by lia. by rewrite (linear_0 f Hf), (linear_0 g Hg). }
  rewrite (split_top a (Z.of_nat n)) by (rewrite ?Nat2Z.inj_succ in Ha; unfold Z.succ in Ha; lia). rewrite Hf, Hg.
  rewrite IH; [|intros; apply H; lia|apply Z.mod_pos_bound; lia]. f_equal.
  destruct (Z.testbit a (Z.of_nat n)); [apply H; lia|by rewrite (linear_0 f Hf), (linear_0 g Hg)].
Qed.

Definition agree (n : nat) (f g : Z → Z) : bool := forallb (λ i, f (2 ^ Z.of_nat i) =? g (2 ^ Z.of_nat i)) (seq 0 n).

Lemma linear_agree n f g `{Hf : !Linear f, Hg : !Linear g} a : agree n f g = true → 0 <= a < 2 ^ Z.of_nat n → f a = g a.
Proof.
  unfold agree. rewrite forallb_forall. intros H. apply (linear_ext n); [done|done|].
  intros i Hi. apply Z.eqb_eq, H, in_seq. lia.
Qed.
