(* ===== verification/Crc.v ===== *)
(** * Cyclic redundancy checks

    Models [openair1/PHY/CODING/crc_byte.c]: the bit by bit routine, the tables it fills,
    the table driven routines for the eight polynomials of 38.212 and 36.212, and the check
    of a received block. A register is a 32-bit word with the polynomial in its upper bits. *)

From S2P Require Import Prelude Bits.

(** ** The polynomials *)

Definition poly24a : Z := 0x864cfb00.
Definition poly24b : Z := 0x80006300.
Definition poly24c : Z := 0xb2b11700.
Definition poly16 : Z := 0x10210000.
Definition poly12 : Z := 0x80F00000.
Definition poly8 : Z := 0x9B000000.
Definition poly6 : Z := 0x84000000.
Definition poly11 : Z := 0xc4200000.

(** ** Bit by bit *)

Fixpoint crcbit_octet (i : nat) (poly c crc : Z) : Z :=
  match i with
  | O => crc
  | S i =>
      crcbit_octet i poly (u32 (Z.shiftl c 1))
        (if negb (Z.land (Z.shiftl 1 31) (Z.lxor c crc) =? 0)
         then Z.lxor (u32 (Z.shiftl crc 1)) poly
         else u32 (Z.shiftl crc 1))
  end.

Fixpoint crcbit_loop (inputptr : bytes) (poly crc : Z) : Z :=
  match inputptr with
  | [] => crc
  | x :: inputptr => crcbit_loop inputptr poly (crcbit_octet 8 poly (u32 (Z.shiftl x 24)) crc)
  end.

(** The first [octetlen] octets of the input. *)
Definition crcbit (inputptr : bytes) (poly : Z) : Z := crcbit_loop inputptr poly 0.

(** ** Tables *)

(** One turn of [crcTableInit] per value of [c]. *)
Definition table (f : Z → Z) : list Z := f <$> seqZ 0 256.

Definition crc24aTable : list Z := table (λ c, crcbit [c] poly24a).
Definition crc24bTable : list Z := table (λ c, crcbit [c] poly24b).
Definition crc24cTable : list Z := table (λ c, crcbit [c] poly24c).
Definition crc16Table : list Z := table (λ c, Z.shiftr (crcbit [c] poly16) 16).
Definition crc12Table : list Z := table (λ c, Z.shiftr (crcbit [c] poly12) 16).
Definition crc11Table : list Z := table (λ c, Z.shiftr (crcbit [c] poly11) 16).
Definition crc8Table : list Z := table (λ c, Z.shiftr (crcbit [c] poly8) 24).
Definition crc6Table : list Z := table (λ c, Z.shiftr (crcbit [c] poly6) 24).

(** ** Octet by octet *)

(** The loop over whole octets: [keep] is whether the shifted register is kept, as it is
    not where it would be shifted out; [sh] how far the entries of the table are shifted. *)
Fixpoint lut_loop (tab : list Z) (sh : Z) (keep : bool) (octetlen : nat) (inptr : bytes) (pos crc : Z) : outcome Z :=
  match octetlen with
  | O => Ok crc
  | S octetlen =>
      x ← buf_get inptr pos;
      e ← buf_get tab (Z.lxor x (Z.shiftr crc 24));
      let e := u32 (Z.shiftl e sh) in
      lut_loop tab sh keep octetlen inptr (pos + 1) (if keep then Z.lxor (u32 (Z.shiftl crc 8)) e else e)
  end.

(** The [resbit] bits left over, from the top of the next octet. *)
Definition lut_rest (tab : list Z) (sh resbit : Z) (inptr : bytes) (pos crc : Z) : outcome Z :=
  if 0 <? resbit then
    x ← buf_get inptr pos;
    e ← buf_get tab (Z.lxor (Z.shiftr x (8 - resbit)) (Z.shiftr crc (32 - resbit)));
    Ok (Z.lxor (u32 (Z.shiftl crc resbit)) (u32 (Z.shiftl e sh)))
  else Ok crc.

Definition lut_crc (tab : list Z) (sh : Z) (keep : bool) (inptr : bytes) (bitlen : Z) : outcome Z :=
  let octetlen := Z.quot bitlen 8 in
  let resbit := cmod bitlen 8 in
  crc ← lut_loop tab sh keep (Z.to_nat octetlen) inptr 0 0;
  lut_rest tab sh resbit inptr (Z.max 0 octetlen) crc.

(** Without the vector instructions ([USE_INTEL_CRC] 0). *)
Definition crc24a (inptr : bytes) (bitlen : Z) : outcome Z := lut_crc crc24aTable 0 true inptr bitlen.
Definition crc24b (inptr : bytes) (bitlen : Z) : outcome Z := lut_crc crc24bTable 0 true inptr bitlen.
Definition crc24c (inptr : bytes) (bitlen : Z) : outcome Z := lut_crc crc24cTable 0 true inptr bitlen.
Definition crc16 (inptr : bytes) (bitlen : Z) : outcome Z := lut_crc crc16Table 16 true inptr bitlen.
Definition crc12 (inptr : bytes) (bitlen : Z) : outcome Z := lut_crc crc12Table 16 true inptr bitlen.
Definition crc11 (inptr : bytes) (bitlen : Z) : outcome Z := lut_crc crc11Table 16 true inptr bitlen.
Definition crc8 (inptr : bytes) (bitlen : Z) : outcome Z := lut_crc crc8Table 24 false inptr bitlen.
Definition crc6 (inptr : bytes) (bitlen : Z) : outcome Z := lut_crc crc6Table 24 false inptr bitlen.

(** ** The check *)

Definition CRC24_A : Z := 0.
Definition CRC24_B : Z := 1.
Definition CRC16 : Z := 2.
Definition CRC8 : Z := 3.

Fixpoint old_crc (i : nat) (decoded_bytes : bytes) (pos acc : Z) : outcome Z :=
  match i with
  | O => Ok acc
  | S i' =>
      x ← buf_get decoded_bytes pos;
      old_crc i' decoded_bytes (pos + 1) (Z.lor acc (Z.shiftl x (8 * Z.of_nat i')))
  end.

(** [AssertFatal(1, ...)] never stops: another type has length 0 and compares 0 with 0. *)
Definition check_crc (decoded_bytes : bytes) (n crc_type : Z) : outcome Z :=
  let crc_len := if (crc_type =? CRC24_A) || (crc_type =? CRC24_B) then 3
                 else if crc_type =? CRC16 then 2 else if crc_type =? CRC8 then 1 else 0 in
  oldcrc ← old_crc (Z.to_nat crc_len) decoded_bytes (u32 (Z.shiftr n 3 - crc_len)) 0;
  '(oldcrc, crc) ←
    (if crc_type =? CRC24_A then
       c ← crc24a decoded_bytes (n - 24); Ok (Z.land oldcrc 0xffffff, Z.shiftr c 8)
     else if crc_type =? CRC24_B then
       c ← crc24b decoded_bytes (n - 24); Ok (Z.land oldcrc 0xffffff, Z.shiftr c 8)
     else if crc_type =? CRC16 then
       c ← crc16 decoded_bytes (n - 16); Ok (Z.land oldcrc 0xffff, Z.shiftr c 16)
     else if crc_type =? CRC8 then
       c ← crc8 decoded_bytes (n - 8); Ok (Z.land oldcrc 0xff, Z.shiftr c 24)
     else Ok (oldcrc, 0));
  Ok (if crc =? oldcrc then 1 else 0).
