(* ===== verification/CrcProofs.v ===== *)
(** * CRC: the tables compute the remainder, and the remainder detects bursts

    The reference is the shift register fed with one bit at a time. It is linear, from
    which follow the table driven routines, eight bits at a time, and the detection of
    every burst of errors not longer than the check. *)

From S2P Require Import Prelude Bits Gf2 Crc.

#[local] Arguments Z.add : simpl never.
#[local] Arguments Z.sub : simpl never.
#[local] Arguments Z.mul : simpl never.

(** ** The shift register *)

Definition crc_step (poly crc : Z) (b : bool) : Z :=
  Z.lxor (u32 (Z.shiftl crc 1)) (if xorb (Z.testbit crc 31) b then poly else 0).

Definition crc_run (poly crc : Z) (bs : list bool) : Z := fold_left (crc_step poly) bs crc.

(** The remainder of a bit string. *)
Definition crc_bits (poly : Z) (bs : list bool) : Z := crc_run poly 0 bs.

Lemma crc_run_app poly s a b : crc_run poly s (a ++ b) = crc_run poly (crc_run poly s a) b.
Proof. apply fold_left_app. Qed.

Lemma crc_step_linear poly s t a b :
  crc_step poly (Z.lxor s t) (xorb a b) = Z.lxor (crc_step poly s a) (crc_step poly t b).
Proof.
  unfold crc_step. rewrite Z.shiftl_lxor, u32_lxor, Z.lxor_spec.
  set (x := u32 (Z.shiftl s 1)). set (y := u32 (Z.shiftl t 1)).
  assert (∀ p q, Z.lxor (Z.lxor x y) (Z.lxor p q) = Z.lxor (Z.lxor x p) (Z.lxor y q)) as Hx.
  { intros p q. rewrite !Z.lxor_assoc. f_equal. rewrite <- !Z.lxor_assoc. f_equal. apply Z.lxor_comm. }
  rewrite <- Hx. f_equal.
  destruct (Z.testbit s 31), (Z.testbit t 31), a, b; cbn; by rewrite ?Z.lxor_nilpotent, ?Z.lxor_0_r, ?Z.lxor_0_l.
Qed.

Lemma crc_run_linear poly s t (xs ys : list bool) :
  length xs = length ys →
  crc_run poly (Z.lxor s t) (zip_with xorb xs ys) = Z.lxor (crc_run poly s xs) (crc_run poly t ys).
Proof.
  revert s t ys. induction xs as [|x xs IH]; intros s t [|y ys] H; try done. cbn.
  rewrite crc_step_linear. apply IH. by injection H.
Qed.

Lemma crc_step_u32 poly s b : is_u32 poly → is_u32 (crc_step poly s b).
Proof. intros Hp. apply lxor_u32; [apply u32_is|]. destruct (xorb _ _); [done|by split]. Qed.

Lemma crc_run_u32 poly s bs : is_u32 poly → is_u32 s → is_u32 (crc_run poly s bs).
Proof.
  intros Hp. revert s. induction bs as [|b bs IH]; intros s Hs; [done|]. apply IH. by apply crc_step_u32.
Qed.

(** The [n] upper bits of a register. *)
Definition top (n : nat) (s : Z) : list bool := val_bits n (Z.shiftr s (32 - Z.of_nat n)).

Lemma u32_shiftl_u32 s n m : 0 <= n → 0 <= m → u32 (Z.shiftl (u32 (Z.shiftl s n)) m) = u32 (Z.shiftl s (n + m)).
Proof.
  intros Hn Hm. unfold u32. apply Z.bits_inj'. intros i Hi.
  destruct (Z.ltb_spec i 32); [|by rewrite !Z.mod_pow2_bits_high by lia].
  rewrite !Z.mod_pow2_bits_low by lia. rewrite !Z.shiftl_spec by lia.
  destruct (Z.ltb_spec (i - m) 0); [by rewrite !Z.testbit_neg_r by lia|].
  rewrite Z.mod_pow2_bits_low, Z.shiftl_spec by lia. f_equal. lia.
Qed.

Lemma top_S n s : (S n <= 32)%nat → top (S n) s = Z.testbit s 31 :: top n (u32 (Z.shiftl s 1)).
Proof.
  intros Hn. unfold top. cbn [val_bits]. f_equal.
  - rewrite Z.shiftr_spec by lia. f_equal. lia.
  - assert (∀ m a b, (∀ i, (i < m)%nat → Z.testbit a (Z.of_nat i) = Z.testbit b (Z.of_nat i)) → val_bits m a = val_bits m b) as He.
    { induction m as [|m IH]; intros a b H; [done|]. cbn. rewrite H by lia. f_equal. apply IH. intros. apply H. lia. }
    apply He. intros i Hi. rewrite !Z.shiftr_spec by lia. unfold u32. rewrite Z.mod_pow2_bits_low, Z.shiftl_spec by lia.
    f_equal. lia.
Qed.

(** Fed with its own upper bits, the register only shifts. *)
Lemma crc_run_top poly n s : (n <= 32)%nat → is_u32 s → crc_run poly s (top n s) = u32 (Z.shiftl s (Z.of_nat n)).
Proof.
  revert s. induction n as [|n IH]; intros s Hn Hs.
  { cbn. rewrite Z.shiftl_0_r. symmetry. by apply u32_small. }
  rewrite top_S by done. cbn [crc_run fold_left]. unfold crc_step at 2. rewrite xorb_nilpotent, Z.lxor_0_r.
  fold (crc_run poly (u32 (Z.shiftl s 1)) (top n (u32 (Z.shiftl s 1)))). rewrite IH by (lia || apply u32_is).
  rewrite u32_shiftl_u32 by lia. do 2 f_equal. lia.
Qed.

Lemma zip_xorb_cancel (xs ys : list bool) : length xs = length ys → zip_with xorb xs (zip_with xorb xs ys) = ys.
Proof.
  revert ys. induction xs as [|x xs IH]; intros [|y ys] H; try done. cbn. injection H as H. rewrite IH by done.
  f_equal. by destruct x, y.
Qed.

Lemma length_top n s : length (top n s) = n.
Proof. apply length_val_bits. Qed.

(** Up to 32 bits at once. *)
Lemma crc_run_chunk poly s bs :
  is_u32 s → (length bs <= 32)%nat →
  crc_run poly s bs = Z.lxor (u32 (Z.shiftl s (zlen bs))) (crc_bits poly (zip_with xorb (top (length bs) s) bs)).
Proof.
  intros Hs Hl. set (n := length bs).
  rewrite <- (zip_xorb_cancel (top n s) bs) at 1 by apply length_top.
  rewrite <- (Z.lxor_0_r s) at 1. rewrite crc_run_linear.
  - unfold zlen. fold n. by rewrite crc_run_top.
  - rewrite length_zip_with, length_top. fold n. lia.
Qed.

Lemma zip_val_bits n x y : zip_with xorb (val_bits n x) (val_bits n y) = val_bits n (Z.lxor x y).
Proof. induction n as [|n IH]; [done|]. cbn. by rewrite IH, Z.lxor_spec. Qed.

(** The remainder of a number of [n] bits. *)
Lemma crc_run_val poly s n x :
  is_u32 s → (n <= 32)%nat →
  crc_run poly s (val_bits n x) =
    Z.lxor (u32 (Z.shiftl s (Z.of_nat n))) (crc_bits poly (val_bits n (Z.lxor x (Z.shiftr s (32 - Z.of_nat n))))).
Proof.
  intros Hs Hn. rewrite crc_run_chunk by (rewrite ?length_val_bits; done). unfold zlen. rewrite length_val_bits.
  unfold top. by rewrite zip_val_bits, (Z.lxor_comm x).
Qed.

Lemma crc_bits_zeros poly n bs : crc_bits poly (replicate n false ++ bs) = crc_bits poly bs.
Proof. unfold crc_bits. induction n as [|n IH]; [done|]. exact IH. Qed.

Lemma val_bits_pad n k y : 0 <= y < 2 ^ Z.of_nat n → val_bits (k + n) y = replicate k false ++ val_bits n y.
Proof.
  intros Hy. induction k as [|k IH]; [done|]. cbn. rewrite IH. f_equal.
  destruct (decide (y = 0)) as [->|]; [apply Z.bits_0|]. apply Z.bits_above_log2; [lia|].
  assert (Z.log2 y < Z.of_nat n) by (apply Z.log2_lt_pow2; lia). lia.
Qed.

(** ** The bit by bit routine *)

Lemma land_bit31 x : negb (Z.land (Z.shiftl 1 31) x =? 0) = Z.testbit x 31.
Proof.
  rewrite Z.shiftl_1_l. destruct (Z.testbit x 31) eqn:E.
  - apply negb_true_iff, Z.eqb_neq. intros H. apply (f_equal (λ z, Z.testbit z 31)) in H.
    rewrite Z.land_spec, Z.pow2_bits_true, E, Z.bits_0 in H by lia. done.
  - apply negb_false_iff, Z.eqb_eq. apply Z.bits_inj'. intros i Hi. rewrite Z.land_spec, Z.bits_0.
    destruct (decide (i = 31)) as [->|]; [by rewrite E, andb_false_r|]. by rewrite Z.pow2_bits_false by lia.
Qed.

Lemma crcbit_octet_run n poly c crc : (n <= 32)%nat → crcbit_octet n poly c crc = crc_run poly crc (top n c).
Proof.
  revert c crc. induction n as [|n IH]; intros c crc Hn; [done|]. cbn [crcbit_octet]. rewrite IH by lia.
  rewrite top_S by done. cbn [crc_run fold_left]. f_equal. rewrite land_bit31, Z.lxor_spec, xorb_comm. unfold crc_step.
  destruct (xorb _ _); [done|]. by rewrite Z.lxor_0_r.
Qed.

Lemma top8_byte x : is_byte x → top 8 (u32 (Z.shiftl x 24)) = byte_bits x.
Proof.
  intros Hx. unfold top, byte_bits. f_equal. unfold is_byte in Hx. rewrite u32_small; [|rewrite Z.shiftl_mul_pow2; lia].
  change (32 - Z.of_nat 8) with 24. rewrite Z.shiftr_shiftl_l, Z.sub_diag by lia. apply Z.shiftl_0_r.
Qed.

(** The routine is the reference. *)
Lemma crcbit_ok l poly : Forall is_byte l → crcbit l poly = crc_bits poly (buf_bits l).
Proof.
  unfold crcbit, crc_bits. generalize 0 as s. induction l as [|x l IH]; intros s H; [done|].
  inversion_clear H as [|? ? Hx Hl]. cbn [crcbit_loop]. rewrite IH by done. rewrite buf_bits_cons, crc_run_app. f_equal.
  rewrite crcbit_octet_run by lia. by rewrite top8_byte.
Qed.

(** ** The tables *)

(** The lower bits of the register stay zero when those of the polynomial are. *)
Definition low_zero (k x : Z) : Prop := ∀ i, 0 <= i < k → Z.testbit x i = false.

Lemma crc_step_low poly k s b : k <= 32 → low_zero k poly → low_zero k s → low_zero k (crc_step poly s b).
Proof.
  intros Hk Hp Hs i Hi. unfold crc_step. rewrite Z.lxor_spec. unfold u32. rewrite Z.mod_pow2_bits_low, Z.shiftl_spec by lia.
  assert (Z.testbit s (i - 1) = false) as ->.
  { destruct (Z.ltb_spec (i - 1) 0); [by apply Z.testbit_neg_r|]. apply Hs. lia. }
  destruct (xorb (Z.testbit s 31) b); [by rewrite Hp|by rewrite Z.bits_0].
Qed.

Lemma crc_bits_low poly k bs : k <= 32 → low_zero k poly → low_zero k (crc_bits poly bs).
Proof.
  intros Hk Hp. unfold crc_bits, crc_run. assert (low_zero k 0) as H0 by (intros i _; apply Z.bits_0).
  revert H0. generalize 0 as s. induction bs as [|b bs IH]; intros s Hs; [done|]. cbn. apply IH. by apply crc_step_low.
Qed.

Lemma shiftr_shiftl_low k x : 0 <= k → low_zero k x → Z.shiftl (Z.shiftr x k) k = x.
Proof.
  intros Hk Hx. apply Z.bits_inj'. intros i Hi. rewrite Z.shiftl_spec by lia.
  destruct (Z.ltb_spec i k); [rewrite Z.testbit_neg_r by lia; by rewrite Hx|].
  rewrite Z.shiftr_spec by lia. f_equal. lia.
Qed.

(** A table holds the remainders of single octets, shifted down by [sh]. *)
Record lut (poly : Z) (tab : list Z) (sh : Z) : Prop := {
  lut_poly : is_u32 poly;
  lut_sh : 0 <= sh <= 32;
  lut_low : low_zero sh poly;
  lut_tab : ∀ y, is_byte y → tab !! Z.to_nat y = Some (Z.shiftr (crc_bits poly (byte_bits y)) sh);
}.

Lemma table_lookup f y : is_byte y → table f !! Z.to_nat y = Some (f y).
Proof.
  intros Hy. unfold table, is_byte in *. rewrite list_lookup_fmap, (proj2 (lookup_seqZ 0 256 (Z.to_nat y) y)); [done|lia].
Qed.

Lemma lut_make poly sh (f : Z → Z) :
  is_u32 poly → 0 <= sh <= 32 → Z.land poly (Z.ones sh) = 0 → (∀ c, f c = Z.shiftr (crcbit [c] poly) sh) →
  lut poly (table f) sh.
Proof.
  intros Hp Hs Hz Hf. split; [done|done| |].
  - intros i Hi. apply (f_equal (λ z, Z.testbit z i)) in Hz. rewrite Z.land_spec, Z.bits_0, Z.ones_spec_low, andb_true_r in Hz by lia. done.
  - intros y Hy. rewrite table_lookup, Hf by done. rewrite crcbit_ok by (by constructor). rewrite buf_bits_cons. cbn [buf_bits flat_map].
    by rewrite app_nil_r.
Qed.

Lemma lut_entry poly tab sh y :
  lut poly tab sh → is_byte y →
  ∃ e, buf_get tab y = Ok e ∧ u32 (Z.shiftl e sh) = crc_bits poly (byte_bits y).
Proof.
  intros [Hp Hs Hl Ht] Hy. exists (Z.shiftr (crc_bits poly (byte_bits y)) sh). split.
  - apply buf_get_lookup; [by apply Ht|]. apply Hy.
  - rewrite shiftr_shiftl_low; [|lia|apply crc_bits_low; [lia|done]]. apply u32_small. by apply crc_run_u32.
Qed.

Lemma shiftr_top s n : is_u32 s → 0 <= n <= 32 → 0 <= Z.shiftr s (32 - n) < 2 ^ n.
Proof.
  intros [H0 H1] Hn. rewrite Z.shiftr_div_pow2 by lia. split; [apply Z.div_pos; lia|].
  apply Z.div_lt_upper_bound; [lia|]. rewrite <- Z.pow_add_r by lia. by replace (32 - n + n) with 32 by lia.
Qed.

(** Whole octets. A register of at most 8 bits is shifted out. *)
Lemma lut_loop_ok poly tab sh keep n inptr pos s :
  lut poly tab sh → (keep = false → low_zero 24 poly) → Forall is_byte inptr → 0 <= pos → pos + Z.of_nat n <= zlen inptr →
  is_u32 s → (keep = false → low_zero 24 s) →
  lut_loop tab sh keep n inptr pos s = Ok (crc_run poly s (take (8 * n) (drop (8 * Z.to_nat pos) (buf_bits inptr)))) .
Proof.
  intros L Hk Hb. revert pos s. induction n as [|n IH]; intros pos s Hp Hn Hs Hlow; cbn [lut_loop].
  { by rewrite Nat.mul_0_r, take_0. }
  destruct (buf_get_ok inptr pos) as (x & Hx & ->); [lia|]. cbn [mbind outcome_bind].
  pose proof (Forall_lookup_1 _ _ _ _ Hb Hx) as Bx.
  assert (is_byte (Z.shiftr s 24)) as B2 by exact (shiftr_top s 8 Hs ltac:(lia)).
  destruct (lut_entry poly tab sh (Z.lxor x (Z.shiftr s 24)) L) as (e & -> & E2); [by apply lxor_byte|]. cbn [mbind outcome_bind]. rewrite E2.
  pose proof (crc_run_val poly s 8 x Hs ltac:(lia)) as Hrun. change (32 - Z.of_nat 8) with 24 in Hrun. change (Z.of_nat 8) with 8 in Hrun.
  fold (byte_bits x) (byte_bits (Z.lxor x (Z.shiftr s 24))) in Hrun.
  assert ((if keep then Z.lxor (u32 (Z.shiftl s 8)) (crc_bits poly (byte_bits (Z.lxor x (Z.shiftr s 24))))
    else crc_bits poly (byte_bits (Z.lxor x (Z.shiftr s 24)))) = crc_run poly s (byte_bits x)) as ->.
  { rewrite Hrun. destruct keep; [done|]. specialize (Hlow eq_refl).
    assert (u32 (Z.shiftl s 8) = 0) as ->; [|by rewrite Z.lxor_0_l].
    unfold u32. apply Z.bits_inj'. intros i Hi. rewrite Z.bits_0. destruct (Z.ltb_spec i 32); [|by apply Z.mod_pow2_bits_high].
    rewrite Z.mod_pow2_bits_low, Z.shiftl_spec by lia. destruct (Z.ltb_spec (i - 8) 0); [by apply Z.testbit_neg_r|]. apply Hlow. lia. }
  rewrite IH; [|lia|lia|apply crc_run_u32; [apply L|done]|].
  - rewrite <- crc_run_app. do 2 f_equal.
    replace (8 * Z.to_nat (pos + 1))%nat with (8 * Z.to_nat pos + 8)%nat by lia.
    replace (8 * S n)%nat with (8 + 8 * n)%nat by lia. rewrite <- drop_drop.
    assert (drop (8 * Z.to_nat pos) (buf_bits inptr) = byte_bits x ++ drop 8 (drop (8 * Z.to_nat pos) (buf_bits inptr))) as ->.
    { rewrite <- (take_drop 8 (drop (8 * Z.to_nat pos) (buf_bits inptr))) at 1. f_equal.
      rewrite <- (take_drop (Z.to_nat pos) inptr) at 1. rewrite buf_bits_app, drop_app_length'.
      - rewrite (drop_S _ _ _ Hx), buf_bits_cons. apply take_app_length'. by unfold byte_bits; rewrite length_val_bits.
      - rewrite length_buf_bits, length_take. apply lookup_lt_Some in Hx. lia. }
    rewrite take_app_add' by (unfold byte_bits; by rewrite length_val_bits). done.
  - intros Hf. specialize (Hk Hf). specialize (Hlow Hf). clear - Hk Hlow. unfold crc_run. revert s Hlow.
    induction (byte_bits x) as [|b bs IH]; intros s Hs; [done|]. cbn. apply IH. by apply crc_step_low.
Qed.

(** The bits of the last octet. *)
Lemma lut_rest_ok poly tab sh r inptr pos s :
  lut poly tab sh → Forall is_byte inptr → 0 <= pos → 0 <= r < 8 → (0 < r → pos < zlen inptr) → is_u32 s →
  lut_rest tab sh r inptr pos s = Ok (crc_run poly s (take (Z.to_nat r) (drop (8 * Z.to_nat pos) (buf_bits inptr)))).
Proof.
  intros L Hb Hp Hr Hl Hs. unfold lut_rest. destruct (Z.ltb_spec 0 r) as [H0|H0].
  2:{ replace (Z.to_nat r) with 0%nat by lia. by rewrite take_0. }
  specialize (Hl H0). destruct (buf_get_ok inptr pos) as (x & Hx & ->); [lia|]. cbn [mbind outcome_bind].
  pose proof (Forall_lookup_1 _ _ _ _ Hb Hx) as Bx. set (n := Z.to_nat r).
  assert (take n (drop (8 * Z.to_nat pos) (buf_bits inptr)) = val_bits n (Z.shiftr x (8 - r))) as ->.
  { rewrite <- (take_drop (Z.to_nat pos) inptr) at 1. rewrite buf_bits_app, drop_app_length'.
    - rewrite (drop_S _ _ _ Hx), buf_bits_cons, take_app_le by (unfold byte_bits; rewrite length_val_bits; lia).
      unfold byte_bits. replace 8%nat with (n + (8 - n))%nat by lia.
      rewrite take_val_bits. do 2 f_equal. lia.
    - rewrite length_buf_bits, length_take. apply lookup_lt_Some in Hx. lia. }
  rewrite crc_run_val by (done || lia). replace (Z.of_nat n) with r by lia.
  set (y := Z.lxor (Z.shiftr x (8 - r)) (Z.shiftr s (32 - r))).
  assert (0 <= y < 2 ^ r) as Hy.
  { pose proof (shiftr_top s r Hs ltac:(lia)) as [A1 A2].
    assert (0 <= Z.shiftr x (8 - r) < 2 ^ r) as [B1 B2].
    { unfold is_byte in Bx. rewrite Z.shiftr_div_pow2 by lia. split; [apply Z.div_pos; lia|].
      apply Z.div_lt_upper_bound; [lia|]. rewrite <- Z.pow_add_r by lia. replace (8 - r + r) with 8 by lia. lia. }
    split; [apply Z.lxor_nonneg; split; intros; done|]. apply Z.log2_lt_cancel. rewrite Z.log2_pow2 by lia.
    pose proof (Z.log2_lxor (Z.shiftr x (8 - r)) (Z.shiftr s (32 - r)) B1 A1) as Hlog. fold y in Hlog.
    assert (∀ z, 0 <= z < 2 ^ r → Z.log2 z < r) as Hz.
    { intros z Hz. destruct (decide (z = 0)) as [->|]; [done|]. apply Z.log2_lt_pow2; lia. }
    specialize (Hz _ (conj A1 A2)) as Hz1. specialize (Hz _ (conj B1 B2)) as Hz2. lia. }
  destruct (lut_entry poly tab sh y L) as (e & -> & E2).
  { unfold is_byte. assert (2 ^ r <= 2 ^ 8) by (apply Z.pow_le_mono_r; lia). lia. }
  cbn [mbind outcome_bind]. rewrite E2. do 2 f_equal. unfold byte_bits.
  replace 8%nat with ((8 - n) + n)%nat by lia. rewrite val_bits_pad by (replace (Z.of_nat n) with r by lia; done).
  apply crc_bits_zeros.
Qed.

(** Every routine, for every number of bits. *)
Lemma lut_crc_ok poly tab sh keep inptr bitlen :
  lut poly tab sh → (keep = false → low_zero 24 poly) → Forall is_byte inptr → 0 <= bitlen <= 8 * zlen inptr →
  lut_crc tab sh keep inptr bitlen = Ok (crc_bits poly (take (Z.to_nat bitlen) (buf_bits inptr))).
Proof.
  intros L Hk Hb Hl. unfold lut_crc. rewrite Z.quot_div_nonneg, cmod_nonneg by lia.
  pose proof (Z.div_mod bitlen 8 ltac:(lia)) as Hdm. pose proof (Z.mod_pos_bound bitlen 8 ltac:(lia)) as Hm.
  set (n := bitlen / 8) in *. set (r := bitlen mod 8) in *.
  assert (low_zero 24 0) as Z0 by (intros i _; apply Z.bits_0).
  rewrite (lut_loop_ok poly) by (done || lia). cbn [mbind outcome_bind].
  rewrite (lut_rest_ok poly); [|done|done|lia|done|lia|apply crc_run_u32; [apply L|done]].
  rewrite <- crc_run_app. do 2 f_equal. rewrite Z.max_r by lia. change (8 * Z.to_nat 0)%nat with 0%nat. rewrite drop_0.
  replace (Z.to_nat bitlen) with (8 * Z.to_nat n + Z.to_nat r)%nat by lia. by rewrite take_take_drop.
Qed.

Lemma lut24a : lut poly24a crc24aTable 0.
Proof. apply lut_make; [done..|]. intros c. by rewrite Z.shiftr_0_r. Qed.
Lemma lut24b : lut poly24b crc24bTable 0.
Proof. apply lut_make; [done..|]. intros c. by rewrite Z.shiftr_0_r. Qed.
Lemma lut24c : lut poly24c crc24cTable 0.
Proof. apply lut_make; [done..|]. intros c. by rewrite Z.shiftr_0_r. Qed.
Lemma lut16 : lut poly16 crc16Table 16.
Proof. by apply lut_make. Qed.
Lemma lut12 : lut poly12 crc12Table 16.
Proof. by apply lut_make. Qed.
Lemma lut11 : lut poly11 crc11Table 16.
Proof. by apply lut_make. Qed.
Lemma lut8 : lut poly8 crc8Table 24.
Proof. by apply lut_make. Qed.
Lemma lut6 : lut poly6 crc6Table 24.
Proof. by apply lut_make. Qed.

(** ** Detection *)

(** The degree of the polynomial: its [w] upper bits and no others may be set, the last of
    them, the constant term, is. *)
Definition width (poly : Z) (w : nat) : Prop :=
  (0 < w <= 32)%nat ∧ is_u32 poly ∧ low_zero (32 - Z.of_nat w) poly ∧ Z.testbit poly (32 - Z.of_nat w) = true.

(** Only the [j] upper bits are set. *)
Lemma crc_step_back poly w s b (j : nat) :
  width poly w → (j < w)%nat → low_zero (32 - Z.of_nat w) s → is_u32 s →
  low_zero (32 - Z.of_nat j) (crc_step poly s b) → low_zero (32 - Z.of_nat (S j)) s.
Proof.
  intros (Hw & Hp & Hl & Hc) Hj Hs Hu H.
  assert (xorb (Z.testbit s 31) b = false) as Hx.
  { specialize (H (32 - Z.of_nat w) ltac:(lia)). unfold crc_step in H.
    destruct (xorb (Z.testbit s 31) b); [|done]. rewrite Z.lxor_spec, Hc in H. unfold u32 in H.
    rewrite Z.mod_pow2_bits_low, Z.shiftl_spec in H by lia.
    assert (Z.testbit s (32 - Z.of_nat w - 1) = false) as E.
    { destruct (Z.ltb_spec (32 - Z.of_nat w - 1) 0); [by apply Z.testbit_neg_r|]. apply Hs. lia. }
    by rewrite E in H. }
  intros i Hi. specialize (H (i + 1) ltac:(lia)). unfold crc_step in H. rewrite Hx, Z.lxor_0_r in H. unfold u32 in H.
  rewrite Z.mod_pow2_bits_low, Z.shiftl_spec in H by lia. by replace (i + 1 - 1) with i in H by lia.
Qed.

Lemma crc_run_back poly w s bs :
  width poly w → (length bs < w)%nat → low_zero (32 - Z.of_nat w) s → is_u32 s →
  crc_run poly s bs = 0 → low_zero (32 - Z.of_nat (length bs)) s.
Proof.
  intros Hw. revert s. induction bs as [|b bs IH]; intros s Hl Hs Hu H.
  { cbn in H. subst. intros i _. apply Z.bits_0. }
  cbn [length] in *. pose proof Hw as (Hw1 & Hp & Hlp & _). eapply crc_step_back; [done|lia|done|done|].
  apply IH; [lia| |by apply crc_step_u32|done]. apply crc_step_low; [lia|done|done].
Qed.

(** A string of at most [w] bits that starts with a one has a remainder. *)
Lemma crc_burst poly w bs : width poly w → (S (length bs) <= w)%nat → crc_bits poly (true :: bs) ≠ 0.
Proof.
  intros Hw Hl H. pose proof Hw as (Hw1 & Hp & Hlp & Hc). cbn in H. change (crc_step poly 0 true) with (Z.lxor 0 poly) in H.
  rewrite Z.lxor_0_l in H. pose proof (crc_run_back poly w poly bs Hw ltac:(lia) Hlp Hp H) as Hz.
  rewrite (Hz (32 - Z.of_nat w)) in Hc by lia. done.
Qed.

(** Zeros after it do not remove it. *)
Lemma crc_step_zero poly w s :
  width poly w → low_zero (32 - Z.of_nat w) s → is_u32 s → crc_step poly s false = 0 → s = 0.
Proof.
  intros Hw Hs Hu H. pose proof Hw as (Hw1 & _).
  assert (low_zero (32 - Z.of_nat 1) s) as Hz by (apply (crc_step_back poly w s false 0); (done || lia || rewrite H; intros i _; apply Z.bits_0)).
  assert (Z.testbit s 31 = false) as Ht.
  { destruct (Z.testbit s 31) eqn:E; [|done]. unfold crc_step in H. rewrite E in H. cbn in H.
    assert (u32 (Z.shiftl s 1) = 0) as E0.
    { unfold u32. apply Z.bits_inj'. intros i Hi. rewrite Z.bits_0. destruct (Z.ltb_spec i 32); [|by apply Z.mod_pow2_bits_high].
      rewrite Z.mod_pow2_bits_low, Z.shiftl_spec by lia. destruct (Z.ltb_spec (i - 1) 0); [by apply Z.testbit_neg_r|]. apply Hz. lia. }
    rewrite E0, Z.lxor_0_l in H. destruct Hw as (_ & _ & _ & Hc). rewrite H, Z.bits_0 in Hc. done. }
  apply Z.bits_inj'. intros i Hi. rewrite Z.bits_0. destruct (Z.ltb_spec i 31); [apply Hz; lia|].
  destruct (decide (i = 31)) as [->|]; [done|]. apply is_u32_bits in Hu as [_ Hu]. apply Hu. lia.
Qed.

Lemma crc_run_zeros poly w s n :
  width poly w → low_zero (32 - Z.of_nat w) s → is_u32 s → crc_run poly s (replicate n false) = 0 → s = 0.
Proof.
  intros Hw. revert s. induction n as [|n IH]; intros s Hs Hu H; [done|]. cbn in H. pose proof Hw as (Hw1 & Hp & Hlp & _).
  eapply crc_step_zero; [done..|]. apply IH; [|by apply crc_step_u32|done]. apply crc_step_low; [lia|done|done].
Qed.

(** Every burst: zeros, then at most [w] bits of which the first is a one, then zeros. *)
Lemma crc_detects poly w i bs n :
  width poly w → (S (length bs) <= w)%nat → crc_bits poly (replicate i false ++ (true :: bs) ++ replicate n false) ≠ 0.
Proof.
  intros Hw Hl H. rewrite crc_bits_zeros in H. unfold crc_bits in H. rewrite crc_run_app in H.
  pose proof Hw as (Hw1 & Hp & Hlp & _). apply (crc_burst poly w bs Hw Hl). eapply crc_run_zeros; [done| | |exact H].
  - apply crc_bits_low; [lia|done].
  - by apply crc_run_u32.
Qed.

Lemma low_zero_land k x : 0 <= k → Z.land x (Z.ones k) = 0 → low_zero k x.
Proof.
  intros Hk Hz i Hi. apply (f_equal (λ z, Z.testbit z i)) in Hz.
  rewrite Z.land_spec, Z.bits_0, Z.ones_spec_low, andb_true_r in Hz by lia. done.
Qed.

(** A string followed by [w] bits has remainder zero exactly when these are its remainder. *)
Lemma crc_append poly w m c :
  width poly w → length c = w → crc_bits poly (m ++ c) = 0 ↔ c = top w (crc_bits poly m).
Proof.
  intros Hw Hc. pose proof Hw as (Hw1 & Hp & Hlp & _). unfold crc_bits at 1. rewrite crc_run_app.
  set (s := crc_run poly 0 m). assert (is_u32 s) as Hs by (by apply crc_run_u32).
  assert (low_zero (32 - Z.of_nat w) s) as Hl by (apply crc_bits_low; [lia|done]).
  rewrite crc_run_chunk by (done || lia). rewrite Hc.
  assert (u32 (Z.shiftl s (zlen c)) = 0) as ->.
  { unfold u32, zlen. rewrite Hc. apply Z.bits_inj'. intros i Hi. rewrite Z.bits_0.
    destruct (Z.ltb_spec i 32); [|by apply Z.mod_pow2_bits_high]. rewrite Z.mod_pow2_bits_low, Z.shiftl_spec by lia.
    destruct (Z.ltb_spec (i - Z.of_nat w) 0); [by apply Z.testbit_neg_r|]. apply Hl. lia. }
  rewrite Z.lxor_0_l. fold (crc_bits poly m) in s. fold s.
  assert (∀ x y : list bool, length x = length y → zip_with xorb x y = replicate (length x) false ↔ x = y) as Hzip.
  { intros x y H. split; [|intros ->].
    - revert y H. induction x as [|a x IH]; intros [|b y] H E; try done. cbn in *. injection E as E1 E2. injection H as H.
      f_equal; [by destruct a, b|by apply IH].
    - clear H. induction y as [|b y IH]; [done|]. cbn. rewrite xorb_nilpotent. f_equal. apply IH. }
  rewrite (eq_comm c). rewrite <- (Hzip (top w s) c) by (by rewrite length_top). rewrite length_top.
  set (d := zip_with xorb (top w s) c). assert (length d = w) as Hd by (unfold d; rewrite length_zip_with, length_top; lia).
  split.
  - intros H. destruct (decide (d = replicate w false)) as [|Hne]; [done|]. exfalso.
    assert (∃ i bs, d = replicate i false ++ true :: bs) as (i & bs & E).
    { rewrite <- Hd in Hne. clear - Hne. induction d as [|b d IH]; [done|]. destruct b; [by exists 0%nat, d|].
      cbn in Hne. destruct IH as (i & bs & ->); [congruence|]. by exists (S i), bs. }
    apply (crc_detects poly w i bs 0 Hw).
    + rewrite E, length_app, length_replicate in Hd. cbn in Hd. lia.
    + cbn [replicate]. rewrite app_nil_r. by rewrite <- E.
  - intros ->. rewrite <- (app_nil_r (replicate w false)). by rewrite crc_bits_zeros.
Qed.

(** ** The check of a block *)

Lemma bits_val_inj a b : length a = length b → bits_val a = bits_val b → a = b.
Proof. intros Hl E. rewrite <- (val_bits_bits_val a), <- (val_bits_bits_val b), Hl, E. done. Qed.

Lemma old_crc_ok i b pos a :
  Forall is_byte b → 0 <= pos → pos + Z.of_nat i <= zlen b → 0 <= a →
  old_crc i b pos (Z.shiftl a (8 * Z.of_nat i)) =
    Ok (a * 2 ^ (8 * Z.of_nat i) + bits_val (buf_bits (take i (drop (Z.to_nat pos) b)))).
Proof.
  intros Hb. revert pos a. induction i as [|i IH]; intros pos a Hp Hl Ha; cbn [old_crc].
  { rewrite take_0. change (bits_val (buf_bits [])) with 0. rewrite Z.shiftl_mul_pow2 by lia. f_equal. lia. }
  destruct (buf_get_ok b pos) as (x & Hx & ->); [lia|]. cbn [mbind outcome_bind].
  pose proof (Forall_lookup_1 _ _ _ _ Hb Hx) as Bx. pose proof Bx as [Bx0 Bx1].
  assert (Z.lor (Z.shiftl a (8 * Z.of_nat (S i))) (Z.shiftl x (8 * Z.of_nat i)) = Z.shiftl (256 * a + x) (8 * Z.of_nat i)) as ->.
  { replace (8 * Z.of_nat (S i)) with (8 + 8 * Z.of_nat i) by lia. rewrite <- Z.shiftl_shiftl, <- Z.shiftl_lor by lia.
    f_equal. rewrite lor_shiftl_add by lia. lia. }
  rewrite IH by lia. f_equal. rewrite (drop_S _ _ _ Hx). cbn [take]. rewrite buf_bits_cons, bits_val_app, byte_bits_val by done.
  replace (Z.to_nat (pos + 1)) with (S (Z.to_nat pos)) by lia.
  assert (zlen (buf_bits (take i (drop (S (Z.to_nat pos)) b))) = 8 * Z.of_nat i) as ->.
  { unfold zlen. rewrite length_buf_bits, length_take, length_drop. unfold zlen in Hl. lia. }
  replace (8 * Z.of_nat (S i)) with (8 + 8 * Z.of_nat i) by lia. rewrite Z.pow_add_r by lia. lia.
Qed.

(** The polynomial and the octets of a check type. *)
Definition crc_kind (crc_type poly : Z) (k : nat) : Prop :=
  (crc_type = CRC24_A ∧ poly = poly24a ∧ k = 3%nat) ∨ (crc_type = CRC24_B ∧ poly = poly24b ∧ k = 3%nat) ∨
  (crc_type = CRC16 ∧ poly = poly16 ∧ k = 2%nat) ∨ (crc_type = CRC8 ∧ poly = poly8 ∧ k = 1%nat).

Lemma crc_kind_width t poly k : crc_kind t poly k → width poly (8 * k).
Proof.
  intros [(-> & -> & ->)|[(-> & -> & ->)|[(-> & -> & ->)|(-> & -> & ->)]]]; split_and!;
    first [lia | done | apply low_zero_land; [lia|reflexivity]].
Qed.

(** What [check_crc] compares. *)
Lemma check_crc_compares t poly k b :
  crc_kind t poly k → Forall is_byte b → Z.of_nat k <= zlen b → zlen b < 2 ^ 28 →
  check_crc b (8 * zlen b) t =
    let m := take (length b - k) b in
    Ok (if Z.shiftr (crc_bits poly (buf_bits m)) (32 - 8 * Z.of_nat k) =? bits_val (buf_bits (drop (length b - k) b))
        then 1 else 0).
Proof.
  intros Hk Hb Hl Hmax. cbv zeta. unfold check_crc.
  assert (u32 (Z.shiftr (8 * zlen b) 3 - Z.of_nat k) = zlen b - Z.of_nat k) as Hpos.
  { rewrite Z.shiftr_div_pow2 by lia. change (2 ^ 3) with 8. rewrite Z.mul_comm, Z.div_mul by lia. apply u32_small. lia. }
  pose proof (old_crc_ok k b (zlen b - Z.of_nat k) 0 Hb) as Hold. rewrite Z.shiftl_0_l in Hold.
  rewrite Z.mul_0_l, Z.add_0_l in Hold. specialize (Hold ltac:(lia) ltac:(lia) ltac:(lia)).
  assert (Z.to_nat (zlen b - Z.of_nat k) = (length b - k)%nat) as Ek by (unfold zlen; lia). rewrite Ek in Hold.
  rewrite take_ge in Hold by (rewrite length_drop; unfold zlen in Hl; lia).
  set (old := bits_val (buf_bits (drop (length b - k) b))) in *.
  assert (0 <= old < 2 ^ (8 * Z.of_nat k)) as Hr.
  { pose proof (bits_val_range (buf_bits (drop (length b - k) b))) as H. fold old in H. unfold zlen in H at 1.
    rewrite length_buf_bits, length_drop in H. replace (Z.of_nat (8 * (length b - (length b - k)))) with (8 * Z.of_nat k) in H; [done|].
    unfold zlen in Hl. lia. }
  assert (∀ tab sh keep p, lut p tab sh → (keep = false → low_zero 24 p) →
    lut_crc tab sh keep b (8 * zlen b - 8 * Z.of_nat k) = Ok (crc_bits p (buf_bits (take (length b - k) b)))) as Hc.
  { intros tab sh keep p L Hkeep. rewrite (lut_crc_ok p) by (done || lia). do 2 f_equal.
    rewrite <- take_buf_bits_bytes. f_equal. unfold zlen in *. lia. }
  assert (∀ j, j = 2 ^ (8 * Z.of_nat k) - 1 → Z.land old j = old) as Hland.
  { intros j ->. rewrite Z.sub_1_r, <- Z.ones_equiv, Z.land_ones by lia. by apply Z.mod_small. }
  destruct Hk as [(-> & -> & ->)|[(-> & -> & ->)|[(-> & -> & ->)|(-> & -> & ->)]]]; cbn [Z.eqb Pos.eqb orb CRC24_A CRC24_B CRC16 CRC8].
  - change (Z.to_nat 3) with 3%nat. change (Z.of_nat 3) with 3 in *. rewrite Hpos, Hold. cbn [mbind outcome_bind].
    unfold crc24a. rewrite (Hc _ _ _ _ lut24a) by done. cbn [mbind outcome_bind]. by rewrite Hland.
  - change (Z.to_nat 3) with 3%nat. change (Z.of_nat 3) with 3 in *. rewrite Hpos, Hold. cbn [mbind outcome_bind].
    unfold crc24b. rewrite (Hc _ _ _ _ lut24b) by done. cbn [mbind outcome_bind]. by rewrite Hland.
  - change (Z.to_nat 2) with 2%nat. change (Z.of_nat 2) with 2 in *. rewrite Hpos, Hold. cbn [mbind outcome_bind].
    unfold crc16. rewrite (Hc _ _ _ _ lut16) by done. cbn [mbind outcome_bind]. by rewrite Hland.
  - change (Z.to_nat 1) with 1%nat. change (Z.of_nat 1) with 1 in *. rewrite Hpos, Hold. cbn [mbind outcome_bind].
    unfold crc8. rewrite (Hc _ _ _ _ lut8) by (intros _; apply low_zero_land; [lia|reflexivity]). cbn [mbind outcome_bind]. by rewrite Hland.
Qed.

(** The check succeeds exactly when the remainder of the whole block is zero. *)
Lemma check_crc_ok t poly k b :
  crc_kind t poly k → Forall is_byte b → Z.of_nat k <= zlen b → zlen b < 2 ^ 28 →
  check_crc b (8 * zlen b) t = Ok (if crc_bits poly (buf_bits b) =? 0 then 1 else 0).
Proof.
  intros Hk Hb Hl Hmax. rewrite (check_crc_compares t poly k) by done. cbv zeta. f_equal.
  pose proof (crc_kind_width _ _ _ Hk) as Hw. pose proof Hw as (Hw1 & Hp & _).
  set (m := take (length b - k) b). set (c := drop (length b - k) b).
  assert (length (buf_bits c) = (8 * k)%nat) as Hc.
  { unfold c. rewrite length_buf_bits, length_drop. unfold zlen in Hl. lia. }
  assert (buf_bits b = buf_bits m ++ buf_bits c) as E by (rewrite <- buf_bits_app; unfold m, c; by rewrite take_drop).
  pose proof (crc_append poly (8 * k) (buf_bits m) (buf_bits c) Hw Hc) as Happ. rewrite <- E in Happ.
  assert (Z.shiftr (crc_bits poly (buf_bits m)) (32 - 8 * Z.of_nat k) = bits_val (top (8 * k) (crc_bits poly (buf_bits m)))) as ->.
  { unfold top. rewrite bits_val_val_bits. replace (Z.of_nat (8 * k)) with (8 * Z.of_nat k) by lia. symmetry. apply Z.mod_small.
    apply shiftr_top; [by apply crc_run_u32|lia]. }
  destruct (Z.eqb_spec (crc_bits poly (buf_bits b)) 0) as [H0|H0].
  - apply Happ in H0. by rewrite H0, Z.eqb_refl.
  - rewrite (proj2 (Z.eqb_neq _ _)); [done|]. intros Hv. apply H0, Happ. symmetry. apply bits_val_inj; [|done]. by rewrite length_top, Hc.
Qed.

(** ** Properties *)

(** The routines of the code and the polynomials they are for. *)
Definition crc_routines : list ((bytes → Z → outcome Z) * Z) :=
  [(crc24a, poly24a); (crc24b, poly24b); (crc24c, poly24c); (crc16, poly16); (crc12, poly12); (crc11, poly11);
   (crc8, poly8); (crc6, poly6)].

(** C29: the table driven CRC routines compute the remainder: each of the eight routines
    returns, for every buffer and every number of bits in it, whole octets or not, the
    contents of the shift register of its polynomial fed with exactly these bits, most
    significant first, without looking outside of the buffer or of its table. *)
Theorem crc_routines_exact f poly inptr bitlen :
  (f, poly) ∈ crc_routines → Forall is_byte inptr → 0 <= bitlen <= 8 * zlen inptr →
  f inptr bitlen = Ok (crc_bits poly (take (Z.to_nat bitlen) (buf_bits inptr))).
Proof.
  intros Hin Hb Hl. unfold crc_routines in Hin.
  assert (∀ P : Prop, true = false → P) as Hno by discriminate.
  apply elem_of_cons in Hin as [Hin|Hin]; [apply pair_equal_spec in Hin as [-> ->]; exact (lut_crc_ok _ _ _ _ _ _ lut24a (Hno _) Hb Hl)|].
  apply elem_of_cons in Hin as [Hin|Hin]; [apply pair_equal_spec in Hin as [-> ->]; exact (lut_crc_ok _ _ _ _ _ _ lut24b (Hno _) Hb Hl)|].
  apply elem_of_cons in Hin as [Hin|Hin]; [apply pair_equal_spec in Hin as [-> ->]; exact (lut_crc_ok _ _ _ _ _ _ lut24c (Hno _) Hb Hl)|].
  apply elem_of_cons in Hin as [Hin|Hin]; [apply pair_equal_spec in Hin as [-> ->]; exact (lut_crc_ok _ _ _ _ _ _ lut16 (Hno _) Hb Hl)|].
  apply elem_of_cons in Hin as [Hin|Hin]; [apply pair_equal_spec in Hin as [-> ->]; exact (lut_crc_ok _ _ _ _ _ _ lut12 (Hno _) Hb Hl)|].
  apply elem_of_cons in Hin as [Hin|Hin]; [apply pair_equal_spec in Hin as [-> ->]; exact (lut_crc_ok _ _ _ _ _ _ lut11 (Hno _) Hb Hl)|].
  apply elem_of_cons in Hin as [Hin|Hin]; [apply pair_equal_spec in Hin as [-> ->]; apply (lut_crc_ok _ _ _ _ _ _ lut8); [intros _; apply low_zero_land; [lia|reflexivity]|exact Hb|exact Hl]|].
  apply elem_of_cons in Hin as [Hin|Hin]; [apply pair_equal_spec in Hin as [-> ->]; apply (lut_crc_ok _ _ _ _ _ _ lut6); [intros _; apply low_zero_land; [lia|reflexivity]|exact Hb|exact Hl]|].
  by apply not_elem_of_nil in Hin.
Qed.

Lemma crc_routines_exact_witness :
  crc16 [49; 50; 51; 52; 53; 54; 55; 56; 57] 72 = Ok 0x31C30000 ∧
  crc16 [49; 50; 51; 52; 53; 54; 55; 56; 57] 72
    = Ok (crc_bits poly16 (take 72 (buf_bits [49; 50; 51; 52; 53; 54; 55; 56; 57]))).
Proof.
  split; [vm_compute; reflexivity|].
  apply (crc_routines_exact crc16 poly16 [49; 50; 51; 52; 53; 54; 55; 56; 57] 72).
  - do 3 apply list_elem_of_further. apply list_elem_of_here.
  - repeat constructor; unfold is_byte; lia.
  - vm_compute. split; congruence.
Defined.

(** The octets of the check, as the transmitter attaches them. *)
Definition crc_octets (k : nat) (crc : Z) : bytes := (λ i, (crc / 2 ^ (24 - 8 * Z.of_nat i)) mod 256) <$> seq 0 k.

Lemma crc_octets_bits k crc : (k <= 4)%nat → buf_bits (crc_octets k crc) = top (8 * k) crc.
Proof.
  intros Hk. assert (∀ i j, 0 <= j < 8 → (i < 4)%nat →
    Z.testbit ((crc / 2 ^ (24 - 8 * Z.of_nat i)) mod 256) j = Z.testbit crc (j + (24 - 8 * Z.of_nat i))) as Hb.
  { intros i j Hj Hi. change 256 with (2 ^ 8). rewrite Z.mod_pow2_bits_low, <- Z.shiftr_div_pow2, Z.shiftr_spec by lia. done. }
  assert (k ∈ seq 0 5) as Hin by (apply elem_of_seq; lia). cbn in Hin. rewrite !elem_of_cons in Hin.
  unfold crc_octets, top, buf_bits, byte_bits.
  destruct Hin as [->|[->|[->|[->|[->|[]%not_elem_of_nil]]]]]; cbn; rewrite ?Hb by lia; rewrite ?Z.shiftr_spec by lia; done.
Qed.

Lemma crc_octets_bytes k crc : Forall is_byte (crc_octets k crc).
Proof. unfold crc_octets. apply Forall_fmap, Forall_true. intros i. unfold compose, is_byte. apply Z.mod_pos_bound. lia. Qed.

Lemma length_crc_octets k crc : length (crc_octets k crc) = k.
Proof. unfold crc_octets. by rewrite length_fmap, length_seq. Qed.

(** A block with its check attached. *)
Lemma crc_attached_zero t poly k m :
  crc_kind t poly k → crc_bits poly (buf_bits (m ++ crc_octets k (crc_bits poly (buf_bits m)))) = 0.
Proof.
  intros Hk. pose proof (crc_kind_width _ _ _ Hk) as Hw. pose proof Hw as (Hw1 & _).
  rewrite buf_bits_app, crc_octets_bits by lia. apply (crc_append poly (8 * k)); [done|apply length_top|done].
Qed.

Lemma crc_attached_passes t poly k m :
  crc_kind t poly k → Forall is_byte m → zlen m < 2 ^ 27 →
  check_crc (m ++ crc_octets k (crc_bits poly (buf_bits m))) (8 * (zlen m + Z.of_nat k)) t = Ok 1.
Proof.
  intros Hk Hm Hl. pose proof (crc_kind_width _ _ _ Hk) as Hw. pose proof Hw as (Hw1 & _).
  set (b := m ++ _). pose proof (zlen_nonneg m).
  assert (zlen b = zlen m + Z.of_nat k) as Hzb by (unfold b; rewrite zlen_app; unfold zlen at 2; by rewrite length_crc_octets).
  rewrite <- Hzb, (check_crc_ok t poly k) by (done || lia || (apply Forall_app; split; [done|apply crc_octets_bytes])).
  unfold b. by rewrite (crc_attached_zero t poly k).
Qed.

(** What follows a block is not looked at. *)
Lemma buf_get_app b r i x : buf_get b i = Ok x → buf_get (b ++ r) i = Ok x.
Proof.
  unfold buf_get. destruct (i <? 0); [done|]. destruct (b !! Z.to_nat i) eqn:E; [|done].
  by rewrite (lookup_app_l_Some _ _ _ _ E).
Qed.

Lemma lut_loop_app tab sh keep n b r pos crc v :
  lut_loop tab sh keep n b pos crc = Ok v → lut_loop tab sh keep n (b ++ r) pos crc = Ok v.
Proof.
  revert pos crc. induction n as [|n IH]; intros pos crc H; cbn [lut_loop] in *; [done|].
  apply bind_ok_inv in H as (x & Hx & H). rewrite (buf_get_app _ _ _ _ Hx). cbn [mbind outcome_bind].
  apply bind_ok_inv in H as (e & -> & H). cbn [mbind outcome_bind]. by apply IH.
Qed.

Lemma lut_crc_app tab sh keep b r n v : lut_crc tab sh keep b n = Ok v → lut_crc tab sh keep (b ++ r) n = Ok v.
Proof.
  unfold lut_crc. intros (c & Hc & H)%bind_ok_inv. rewrite (lut_loop_app _ _ _ _ _ _ _ _ _ Hc). cbn [mbind outcome_bind].
  unfold lut_rest in *. destruct (0 <? _); [|done]. apply bind_ok_inv in H as (x & Hx & H).
  by rewrite (buf_get_app _ _ _ _ Hx).
Qed.

Lemma old_crc_app i b r pos a v : old_crc i b pos a = Ok v → old_crc i (b ++ r) pos a = Ok v.
Proof.
  revert pos a. induction i as [|i IH]; intros pos a H; cbn [old_crc] in *; [done|].
  apply bind_ok_inv in H as (x & Hx & H). rewrite (buf_get_app _ _ _ _ Hx). cbn [mbind outcome_bind]. by apply IH.
Qed.

Lemma check_crc_app b r n t v : check_crc b n t = Ok v → check_crc (b ++ r) n t = Ok v.
Proof.
  unfold check_crc. intros (o & Ho & H)%bind_ok_inv. rewrite (old_crc_app _ _ _ _ _ _ Ho). cbn [mbind outcome_bind].
  assert (∀ tab sh keep k (f : Z → outcome (Z * Z)) p,
    lut_crc tab sh keep b k ≫= f = Ok p → lut_crc tab sh keep (b ++ r) k ≫= f = Ok p) as Hm.
  { intros tab sh keep k f p (c & Hc & Hf)%bind_ok_inv. by rewrite (lut_crc_app _ _ _ _ _ _ _ Hc). }
  apply bind_ok_inv in H as (p & Hp & H). unfold crc24a, crc24b, crc16, crc8 in *.
  enough ((if t =? CRC24_A then lut_crc crc24aTable 0 true (b ++ r) (n - 24) ≫= λ c, Ok (Z.land o 16777215, Z.shiftr c 8)
     else if t =? CRC24_B then lut_crc crc24bTable 0 true (b ++ r) (n - 24) ≫= λ c, Ok (Z.land o 16777215, Z.shiftr c 8)
     else if t =? CRC16 then lut_crc crc16Table 16 true (b ++ r) (n - 16) ≫= λ c, Ok (Z.land o 65535, Z.shiftr c 16)
     else if t =? CRC8 then lut_crc crc8Table 24 false (b ++ r) (n - 8) ≫= λ c, Ok (Z.land o 255, Z.shiftr c 24)
     else Ok (o, 0)) = Ok p) as -> by exact H.
  destruct (t =? CRC24_A); [by apply Hm|]. destruct (t =? CRC24_B); [by apply Hm|].
  destruct (t =? CRC16); [by apply Hm|]. destruct (t =? CRC8); [by apply Hm|]. exact Hp.
Qed.

(** C28: the check of a received block finds what it should: for the four types of check, a
    block with the remainder of its contents attached passes, and no block that differs from
    one that passes by a burst, that is by any nonempty set of bits within as many bits as
    the check is long, passes. *)
Theorem crc_check_detects t poly k b b' i burst n m :
  crc_kind t poly k → Forall is_byte m → zlen m < 2 ^ 27 →
  b = m ++ crc_octets k (crc_bits poly (buf_bits m)) →
  Forall is_byte b' → length b' = length b →
  zip_with xorb (buf_bits b) (buf_bits b') = replicate i false ++ (true :: burst) ++ replicate n false →
  (S (length burst) <= 8 * k)%nat →
  check_crc b (8 * zlen b) t = Ok 1 ∧ check_crc b' (8 * zlen b') t = Ok 0.
Proof.
  intros Hk Hm Hmax Eb Hb' Hl Hz Hburst. pose proof (crc_kind_width _ _ _ Hk) as Hw. pose proof Hw as (Hw1 & _).
  assert (k <= 4)%nat as Hk4 by lia.
  assert (Forall is_byte b) as Hb by (rewrite Eb; apply Forall_app; split; [done|apply crc_octets_bytes]).
  assert (zlen b = zlen m + Z.of_nat k) as Hzb by (rewrite Eb, zlen_app; unfold zlen at 2; by rewrite length_crc_octets).
  assert (zlen b' = zlen b) as Hzb' by (unfold zlen; by rewrite Hl). pose proof (zlen_nonneg m).
  assert (crc_bits poly (buf_bits b) = 0) as H0 by (rewrite Eb; by apply (crc_attached_zero t)).
  rewrite !(check_crc_ok t poly k) by (done || lia). rewrite H0. split; [done|].
  rewrite (proj2 (Z.eqb_neq _ _)); [done|]. intros H1. apply (crc_detects poly (8 * k) i burst n Hw Hburst).
  rewrite <- Hz. unfold crc_bits in *. rewrite <- (Z.lxor_0_r 0) at 1. rewrite crc_run_linear by (rewrite !length_buf_bits; lia).
  by rewrite H0, H1.
Qed.

Lemma crc_check_detects_witness :
  check_crc [18; 52; 86] 24 CRC8 = Ok 0 ∧
  check_crc ([18; 52] ++ crc_octets 1 (crc_bits poly8 (buf_bits [18; 52]))) 24 CRC8 = Ok 1 ∧
  check_crc ([18; 55] ++ crc_octets 1 (crc_bits poly8 (buf_bits [18; 52]))) 24 CRC8 = Ok 0.
Proof.
  split; [vm_compute; reflexivity|].
  apply (crc_check_detects CRC8 poly8 1 ([18; 52] ++ crc_octets 1 (crc_bits poly8 (buf_bits [18; 52])))
    ([18; 55] ++ crc_octets 1 (crc_bits poly8 (buf_bits [18; 52]))) 14 [true] 8 [18; 52]).
  - right; right; right. repeat split.
  - repeat constructor; unfold is_byte; lia.
  - vm_compute. reflexivity.
  - reflexivity.
  - vm_compute. repeat constructor; discriminate.
  - reflexivity.
  - vm_compute. reflexivity.
  - vm_compute. repeat constructor.
Defined.

(** A check of a type that is none of the four passes for every block: the assertion that
    should stop it never fires, and nothing is compared with nothing. *)
Theorem crc_unknown_type b n t :
  t ∉ [CRC24_A; CRC24_B; CRC16; CRC8] → check_crc b n t = Ok 1.
Proof.
  intros Ht. rewrite !not_elem_of_cons in Ht. destruct Ht as (H1 & H2 & H3 & H4 & _). unfold check_crc.
  by rewrite !(proj2 (Z.eqb_neq t _)).
Qed.

Lemma crc_unknown_type_witness : check_crc [1; 2; 3] 24 4 = Ok 1.
Proof. apply (crc_unknown_type [1; 2; 3] 24 4). rewrite !not_elem_of_cons. repeat split; try discriminate. apply not_elem_of_nil. Defined.
