(* ===== verification/CrcSimd.v ===== *)
(** * Cyclic redundancy checks with vector instructions

    Models [crc32_calc_pclmulqdq] of [openair1/PHY/CODING/crc.h] and [crcext.h], which
    [crc24a] and [crc24b] of [crc_byte.c] use for whole octets where the processor has the
    instructions ([USE_INTEL_CRC] 1). A vector register is a number below [2^128]; the
    instructions are modelled by what they are specified to do. *)

From S2P Require Import Prelude Bits Crc.

(** ** Instructions *)

(** The octets of memory, the first in the lowest bits. *)
Fixpoint le_val (l : bytes) : Z :=
  match l with [] => 0 | b :: l => Z.lor b (Z.shiftl (le_val l) 8) end.

Definition m128_byte (a i : Z) : Z := Z.land (Z.shiftr a (8 * i)) 255.
Definition loadu_si128 (data : bytes) (off : Z) : outcome Z := b ← buf_sub data off 16; Ok (le_val b).

Definition shuffle_epi8 (a mask : Z) : Z :=
  le_val ((λ i, let m := m128_byte mask i in
                if Z.testbit m 7 then 0 else m128_byte a (Z.land m 15)) <$> seqZ 0 16).

Definition slli_si128 (a n : Z) : Z := Z.land (Z.shiftl a (8 * n)) (Z.ones 128).
Definition srli_si128 (a n : Z) : Z := Z.shiftr a (8 * n).

(** Multiplication without carries of 64 bits. *)
Fixpoint clmul (n : nat) (a b : Z) : Z :=
  match n with
  | O => 0
  | S n => Z.lxor (clmul n a b) (if Z.testbit a (Z.of_nat n) then Z.shiftl b (Z.of_nat n) else 0)
  end.

Definition qword (a : Z) (high : bool) : Z :=
  if high then Z.shiftr a 64 else Z.land a (Z.ones 64).

Definition clmulepi64_si128 (a b imm : Z) : Z :=
  clmul 64 (qword a (Z.testbit imm 0)) (qword b (Z.testbit imm 4)).

(** ** Shifts by octets *)

Definition crc_xmm_be_le_swap128 : Z := 0x000102030405060708090a0b0c0d0e0f.

Definition crc_xmm_shift_tab : bytes := replicate 16 255 ++ seqZ 0 16 ++ replicate 16 255.

Definition xmm_shift_right (reg num : Z) : outcome Z :=
  p ← loadu_si128 crc_xmm_shift_tab (16 + num); Ok (shuffle_epi8 reg p).
Definition xmm_shift_left (reg num : Z) : outcome Z :=
  p ← loadu_si128 crc_xmm_shift_tab (16 - num); Ok (shuffle_epi8 reg p).

(** ** Folding and reduction *)

Record crc_pclmulqdq_ctx := mk_ctx { k1 : Z; k2 : Z; k3 : Z; q : Z; p : Z; res : Z }.

Definition lte_crc24a_pclmulqdq : crc_pclmulqdq_ctx :=
  mk_ctx 0x64e4d700 0x2c8c9d00 0xd9fe8c00 0xf845fe24 0x864cfb00 0.
Definition lte_crc24b_pclmulqdq : crc_pclmulqdq_ctx :=
  mk_ctx 0x80140500 0x42000100 0x90042100 0xffff83ff 0x80006300 0.

(** Two 64-bit fields side by side in memory loaded as a register. *)
Definition pair_si128 (lo hi : Z) : Z := Z.lor lo (Z.shiftl hi 64).

Definition crc32_folding_round (data_block k1_k2 fold : Z) : Z :=
  let tmp := clmulepi64_si128 fold k1_k2 0x11 in
  Z.lxor (clmulepi64_si128 fold k1_k2 0x00) (Z.lxor data_block tmp).

Definition crc32_reduce_128_to_64 (data128 k3_q : Z) : Z :=
  let tmp := Z.lxor (clmulepi64_si128 data128 k3_q 0x01) data128 in
  let data128 := Z.lxor (clmulepi64_si128 tmp k3_q 0x01) data128 in
  srli_si128 (slli_si128 data128 8) 8.

Definition crc32_reduce_64_to_32 (fold k3_q p_res : Z) : Z :=
  let temp := clmulepi64_si128 (srli_si128 fold 4) k3_q 0x10 in
  let temp := srli_si128 (Z.lxor temp fold) 4 in
  let temp := clmulepi64_si128 temp p_res 0 in
  u32 (Z.lxor temp fold).

Definition bswap4 (x : Z) : Z :=
  Z.lor (Z.lor (Z.shiftl (Z.land x 255) 24) (Z.shiftl (Z.land (Z.shiftr x 8) 255) 16))
        (Z.lor (Z.shiftl (Z.land (Z.shiftr x 16) 255) 8) (Z.land (Z.shiftr x 24) 255)).

(** The main loop, while [n < data_len - 16]; the fuel given is [data_len], far more than the
    turns it takes. *)
Fixpoint folding_loop (fuel : nat) (data : bytes) (data_len k fold n : Z) : outcome (Z * Z) :=
  match fuel with
  | O => Diverge
  | S fuel =>
      if n <? data_len - 16 then
        new_data ← loadu_si128 data n;
        let new_data := shuffle_epi8 new_data crc_xmm_be_le_swap128 in
        folding_loop fuel data data_len k (crc32_folding_round new_data k fold) (n + 16)
      else Ok (fold, n)
  end.

(** From 128 bits to 32. *)
Definition reduction (params : crc_pclmulqdq_ctx) (fold : Z) : Z :=
  let k := pair_si128 (k3 params) (q params) in
  let fold := crc32_reduce_128_to_64 fold k in
  crc32_reduce_64_to_32 fold k (pair_si128 (p params) (res params)).

(** [data_len] counts the four octets added. *)
Definition fold_short (data_len crc fold : Z) : outcome Z :=
  let fold := shuffle_epi8 fold crc_xmm_be_le_swap128 in
  f ← xmm_shift_right fold (20 - data_len);
  let fold := slli_si128 f 4 in
  temp ← xmm_shift_left (bswap4 crc) (data_len - 4);
  Ok (Z.lxor fold temp).

Definition fold_long (data : bytes) (data_len crc fold : Z) (params : crc_pclmulqdq_ctx) : outcome Z :=
  let n := Z.land (u32 (Z.lxor data_len 0xffffffff + 1)) 15 in
  let fold := shuffle_epi8 (Z.lxor fold crc) crc_xmm_be_le_swap128 in
  next_data ← loadu_si128 data 16;
  let next_data := shuffle_epi8 next_data crc_xmm_be_le_swap128 in
  r ← xmm_shift_right next_data n;
  l ← xmm_shift_left fold (16 - n);
  let next_data := Z.lor r l in
  fold ← xmm_shift_right fold n;
  let next_data := if data_len <=? 32 then slli_si128 (srli_si128 next_data 4) 4 else next_data in
  let k := pair_si128 (k1 params) (k2 params) in
  let fold := crc32_folding_round next_data k fold in
  if 32 <? data_len then
    let n := 16 + 16 - n in
    '(fold, n) ← folding_loop (Z.to_nat data_len) data data_len k fold n;
    new_data ← loadu_si128 data (n - 4);
    let new_data := slli_si128 (shuffle_epi8 new_data crc_xmm_be_le_swap128) 4 in
    Ok (crc32_folding_round new_data k fold)
  else Ok fold.

Definition crc32_calc_pclmulqdq (data : bytes) (data_len crc : Z) (params : crc_pclmulqdq_ctx) : outcome Z :=
  if data_len =? 0 then Ok crc
  else
    let data_len := u32 (data_len + 4) in
    fold ← loadu_si128 data 0;
    fold ← (if data_len <=? 16 then fold_short data_len crc fold else fold_long data data_len crc fold params);
    Ok (reduction params fold).

(** The routines where the instructions are available. *)
Definition crc24a_simd (inptr : bytes) (bitlen : Z) : outcome Z :=
  if negb (cmod bitlen 8 =? 0) then crc24a inptr bitlen
  else crc32_calc_pclmulqdq inptr (Z.quot bitlen 8) 0 lte_crc24a_pclmulqdq.
Definition crc24b_simd (inptr : bytes) (bitlen : Z) : outcome Z :=
  if negb (cmod bitlen 8 =? 0) then crc24b inptr bitlen
  else crc32_calc_pclmulqdq inptr (Z.quot bitlen 8) 0 lte_crc24b_pclmulqdq.
