(* ===== verification/CrcSimdProofs.v ===== *)
(** * The check with vector instructions is the check

    Every step of [crc32_calc_pclmulqdq] is linear over bits, so that it is determined by
    what it does to the powers of two; these are evaluated for the constants of the code.
    The reference is the shift register [crc_bits] of [CrcProofs]. *)

From S2P Require Import Prelude Bits Gf2 Crc CrcProofs CrcSimd.

(** ** The instructions are linear *)

#[export] Instance linear_clmul n f b : Linear f → Linear (λ a, clmul n (f a) b).
Proof.
  intros Hf x y. induction n as [|n IH]; [done|]. cbn [clmul]. rewrite IH, Hf, Z.lxor_spec, lxor_if. apply lxor_swap.
Qed.

Lemma le_val_lxor xs ys :
  Forall is_byte xs → Forall is_byte ys → length xs = length ys →
  le_val (zip_with Z.lxor xs ys) = Z.lxor (le_val xs) (le_val ys).
Proof.
  intros Hx. revert ys. induction Hx as [|x xs Hx Hxs IH]; intros [|y ys] Hy Hl; try done.
  inversion_clear Hy. cbn [zip_with le_val]. rewrite !lor_byte_lxor by (try apply lxor_byte; done).
  rewrite IH by (try done; by injection Hl). rewrite Z.shiftl_lxor. apply lxor_swap.
Qed.

Lemma m128_byte_range a i : is_byte (m128_byte a i).
Proof. unfold m128_byte, is_byte. change 255 with (Z.ones 8). rewrite Z.land_ones by lia. apply Z.mod_pos_bound. lia. Qed.

#[export] Instance linear_m128_byte f i : Linear f → Linear (λ a, m128_byte (f a) i).
Proof. intros Hf. unfold m128_byte. apply _. Qed.

#[export] Instance linear_shuffle f mask : Linear f → Linear (λ a, shuffle_epi8 (f a) mask).
Proof.
  intros Hf a b. unfold shuffle_epi8.
  set (g := λ (x i : Z), let m := m128_byte mask i in if Z.testbit m 7 then 0 else m128_byte x (Z.land m 15)).
  assert (∀ x l, Forall is_byte (g x <$> l)) as Hg.
  { intros x l. apply Forall_fmap, Forall_true. intros i. unfold compose, g. cbv zeta. destruct (Z.testbit _ _); [done|apply m128_byte_range]. }
  change (le_val (g (f (Z.lxor a b)) <$> seqZ 0 16) = Z.lxor (le_val (g (f a) <$> seqZ 0 16)) (le_val (g (f b) <$> seqZ 0 16))).
  rewrite <- le_val_lxor by (done || by rewrite !length_fmap). f_equal.
  induction (seqZ 0 16) as [|i l IH]; [done|]. rewrite !fmap_cons. cbn [zip_with]. rewrite IH. f_equal.
  unfold g. cbv zeta. destruct (Z.testbit _ 7); [done|]. apply (linear_m128_byte f _ Hf).
Qed.

(** ** Remainders

    [prem poly n v]: the polynomial whose coefficients are the [n] low bits of [v], modulo
    [X^32] plus the polynomial of [poly]. *)

Definition xtime (poly s : Z) : Z := crc_step poly s false.
Fixpoint xpow (poly : Z) (n : nat) : Z := match n with O => 1 | S n => xtime poly (xpow poly n) end.
Fixpoint prem (poly : Z) (n : nat) (v : Z) : Z :=
  match n with
  | O => 0
  | S n => Z.lxor (prem poly n v) (if Z.testbit v (Z.of_nat n) then xpow poly n else 0)
  end.

#[export] Instance linear_xtime poly : Linear (xtime poly).
Proof. intros a b. apply (crc_step_linear poly a b false false). Qed.

#[export] Instance linear_prem poly n f : Linear f → Linear (λ v, prem poly n (f v)).
Proof.
  intros Hf a b. induction n as [|n IH]; [done|]. cbn [prem]. rewrite IH, Hf, Z.lxor_spec, lxor_if. apply lxor_swap.
Qed.

Lemma prem_more poly n m v : 0 <= v < 2 ^ Z.of_nat n → (n <= m)%nat → prem poly m v = prem poly n v.
Proof.
  intros Hv Hm. induction Hm as [|m Hm IH]; [done|]. cbn [prem]. rewrite IH, (testbit_above v (Z.of_nat n)) by lia. apply Z.lxor_0_r.
Qed.

Lemma prem_same poly n m v : 0 <= v < 2 ^ Z.of_nat n → v < 2 ^ Z.of_nat m → prem poly n v = prem poly m v.
Proof.
  intros Hn Hm. destruct (Nat.le_ge_cases n m); [symmetry|]; apply prem_more; (done || lia).
Qed.

(** The remainder of a number of any length. *)
Definition rem (poly v : Z) : Z := prem poly (Z.to_nat (Z.log2 v + 1)) v.

Lemma rem_prem poly n v : 0 <= v < 2 ^ Z.of_nat n → rem poly v = prem poly n v.
Proof.
  intros Hv. unfold rem. apply prem_same; [|lia]. rewrite Z2Nat.id by (pose proof (Z.log2_nonneg v); lia).
  destruct (decide (v = 0)) as [->|]; [done|]. pose proof (Z.log2_spec v ltac:(lia)). unfold Z.succ in *. lia.
Qed.

Lemma nonneg_bound v : 0 <= v → v < 2 ^ Z.of_nat (Z.to_nat (Z.log2 v + 1)).
Proof.
  intros Hv. rewrite Z2Nat.id by (pose proof (Z.log2_nonneg v); lia). destruct (decide (v = 0)) as [->|]; [done|].
  pose proof (Z.log2_spec v ltac:(lia)). unfold Z.succ in *. lia.
Qed.

Lemma pow2_mono (n m : nat) : (n <= m)%nat → 2 ^ Z.of_nat n <= 2 ^ Z.of_nat m.
Proof. intros. apply Z.pow_le_mono_r; lia. Qed.

Lemma rem_lxor poly a b : 0 <= a → 0 <= b → rem poly (Z.lxor a b) = Z.lxor (rem poly a) (rem poly b).
Proof.
  intros Ha Hb. pose proof (nonneg_bound a Ha) as Ha'. pose proof (nonneg_bound b Hb) as Hb'.
  set (n := Z.to_nat (Z.log2 a + 1)) in *. set (m := Z.to_nat (Z.log2 b + 1)) in *.
  pose proof (pow2_mono n (n `max` m) ltac:(lia)). pose proof (pow2_mono m (n `max` m) ltac:(lia)).
  rewrite !(rem_prem poly (n `max` m)); [apply (linear_prem poly (n `max` m) (λ v, v) _)|lia|lia|].
  apply lxor_range; lia.
Qed.

Lemma xtime_0 poly : xtime poly 0 = 0.
Proof. apply (linear_0 (xtime poly) _). Qed.

Lemma prem_double poly n v : prem poly (S n) (2 * v) = xtime poly (prem poly n v).
Proof.
  induction n as [|n IH].
  { cbn [prem]. rewrite Z.testbit_even_0. by rewrite xtime_0. }
  change (prem poly (S (S n)) (2 * v)) with (Z.lxor (prem poly (S n) (2 * v)) (if Z.testbit (2 * v) (Z.of_nat (S n)) then xpow poly (S n) else 0)).
  rewrite IH. cbn [prem]. rewrite (linear_xtime poly). f_equal. rewrite Nat2Z.inj_succ, Z.double_bits_succ.
  destruct (Z.testbit v (Z.of_nat n)); [done|]. by rewrite xtime_0.
Qed.

Lemma rem_double poly v : 0 <= v → rem poly (2 * v) = xtime poly (rem poly v).
Proof.
  intros Hv. pose proof (nonneg_bound v Hv) as Hb. set (n := Z.to_nat (Z.log2 v + 1)) in *.
  rewrite (rem_prem poly n v), (rem_prem poly (S n)); [apply prem_double| |lia]. rewrite Nat2Z.inj_succ, Z.pow_succ_r by lia. lia.
Qed.

Lemma rem_shift poly (k : nat) v : 0 <= v → rem poly (Z.shiftl v (Z.of_nat k)) = Nat.iter k (xtime poly) (rem poly v).
Proof.
  intros Hv. induction k as [|k IH]; [by rewrite Z.shiftl_0_r|]. 
  change (Nat.iter (S k) (xtime poly) (rem poly v)) with (xtime poly (Nat.iter k (xtime poly) (rem poly v))). rewrite <- IH, <- rem_double by (by apply Z.shiftl_nonneg).
  f_equal. rewrite !Z.shiftl_mul_pow2, Nat2Z.inj_succ, Z.pow_succ_r by lia. lia.
Qed.

(** Congruent numbers stay so when shifted. *)
Lemma rem_shift_cong poly k u v : 0 <= k → 0 <= u → 0 <= v → rem poly u = rem poly v → rem poly (Z.shiftl u k) = rem poly (Z.shiftl v k).
Proof. intros Hk Hu Hv E. rewrite <- (Z2Nat.id k) by done. by rewrite !rem_shift, E. Qed.

Lemma xpow_small poly n : (n < 32)%nat → xpow poly n = 2 ^ Z.of_nat n.
Proof.
  induction n as [|n IH]; intros Hn; [done|]. cbn [xpow]. rewrite IH by lia. unfold xtime, crc_step.
  rewrite Z.pow2_bits_false by lia. cbn. rewrite Z.lxor_0_r, Z.shiftl_mul_pow2, <- Z.pow_add_r by lia.
  rewrite Nat2Z.inj_succ. apply u32_small. split; [lia|]. apply Z.pow_lt_mono_r; lia.
Qed.

Lemma xpow_32 poly : xpow poly 32 = poly.
Proof.
  change (xpow poly 32) with (xtime poly (xpow poly 31)). rewrite xpow_small by lia. unfold xtime, crc_step.
  change (Z.testbit (2 ^ Z.of_nat 31) 31) with true. cbn [xorb]. change (u32 (Z.shiftl (2 ^ Z.of_nat 31) 1)) with 0. apply Z.lxor_0_l.
Qed.

Lemma rem_pow poly n : rem poly (2 ^ Z.of_nat n) = xpow poly n.
Proof.
  rewrite (rem_prem poly (S n)). 2:{ rewrite Nat2Z.inj_succ. split; [lia|]. apply Z.pow_lt_mono_r; lia. }
  cbn [prem]. rewrite Z.pow2_bits_true by lia. enough (∀ m, (m <= n)%nat → prem poly m (2 ^ Z.of_nat n) = 0) as -> by done.
  induction m as [|m IH]; intros Hm; [done|]. cbn [prem]. rewrite IH, Z.pow2_bits_false by lia. done.
Qed.

(** The shift register computes the remainder of the string followed by 32 zeros. *)
Lemma crc_bits_rem poly bs : crc_bits poly bs = rem poly (Z.shiftl (bits_val bs) 32).
Proof.
  induction bs as [|b bs IH] using rev_ind; [done|]. unfold crc_bits in *. rewrite crc_run_app, IH. cbn [crc_run fold_left].
  pose proof (bits_val_range bs) as [Hv _]. rewrite bits_val_snoc.
  set (s := rem poly _).
  replace (crc_step poly s b) with (Z.lxor (xtime poly s) (crc_step poly 0 b)).
  2:{ unfold xtime. rewrite <- crc_step_linear, Z.lxor_0_r. by destruct b. }
  assert (Z.shiftl (2 * bits_val bs + Z.b2z b) 32 = Z.lxor (2 * Z.shiftl (bits_val bs) 32) (if b then 2 ^ 32 else 0)) as ->.
  { rewrite <- lor_mul2_bit.
    replace (2 * Z.shiftl (bits_val bs) 32) with (Z.shiftl (2 * bits_val bs) 32) by (rewrite !Z.shiftl_mul_pow2 by lia; lia).
    replace (if b then 2 ^ 32 else 0) with (Z.shiftl (Z.b2z b) 32) by (by destruct b). rewrite <- Z.shiftl_lxor. f_equal. symmetry. apply Z.lxor_lor.
    apply Z.bits_inj'. intros i Hi. rewrite Z.land_spec, Z.bits_0. destruct (decide (i = 0)) as [->|]; [by rewrite Z.testbit_even_0|].
    rewrite (testbit_above (Z.b2z b) 1 i); [by rewrite andb_false_r|destruct b; cbn; lia|lia]. }
  rewrite rem_lxor; [|rewrite Z.shiftl_mul_pow2 by lia; lia|destruct b; lia].
  rewrite rem_double by (by apply Z.shiftl_nonneg). f_equal.
  destruct b; [|done]. change (2 ^ 32) with (2 ^ Z.of_nat 32). rewrite rem_pow, xpow_32. apply Z.lxor_0_l.
Qed.

(** ** Shifts by octets and loads *)

Definition right_mask (n : Z) : Z := le_val (take 16 (drop (Z.to_nat (16 + n)) crc_xmm_shift_tab)).
Definition left_mask (n : Z) : Z := le_val (take 16 (drop (Z.to_nat (16 - n)) crc_xmm_shift_tab)).

Lemma shift_masks_ok :
  forallb (λ n, agree 128 (λ a, shuffle_epi8 a (right_mask n)) (λ a, Z.shiftr a (8 * n)) &&
                agree 128 (λ a, shuffle_epi8 a (left_mask n)) (λ a, Z.land (Z.shiftl a (8 * n)) (Z.ones 128))) (seqZ 0 17) = true.
Proof. vm_compute. reflexivity. Qed.

Lemma shift_mask n : 0 <= n <= 16 →
  agree 128 (λ a, shuffle_epi8 a (right_mask n)) (λ a, Z.shiftr a (8 * n)) = true ∧
  agree 128 (λ a, shuffle_epi8 a (left_mask n)) (λ a, Z.land (Z.shiftl a (8 * n)) (Z.ones 128)) = true.
Proof.
  intros Hn. pose proof shift_masks_ok as H. rewrite forallb_forall in H.
  apply andb_true_iff, H, list_elem_of_In, elem_of_seqZ. lia.
Qed.

Definition is_m128 (a : Z) : Prop := 0 <= a < 2 ^ 128.

Lemma xmm_shift_right_ok a n : 0 <= n <= 16 → is_m128 a → xmm_shift_right a n = Ok (Z.shiftr a (8 * n)).
Proof.
  intros Hn Ha. unfold xmm_shift_right, loadu_si128. rewrite buf_sub_ok by (try lia; change (zlen crc_xmm_shift_tab) with 48; lia).
  cbn [mbind outcome_bind]. f_equal. exact (linear_agree 128 (λ a, shuffle_epi8 a (right_mask n)) (λ a, Z.shiftr a (8 * n)) a (proj1 (shift_mask n Hn)) Ha).
Qed.

Lemma xmm_shift_left_ok a n : 0 <= n <= 16 → is_m128 a → xmm_shift_left a n = Ok (Z.land (Z.shiftl a (8 * n)) (Z.ones 128)).
Proof.
  intros Hn Ha. unfold xmm_shift_left, loadu_si128. rewrite buf_sub_ok by (try lia; change (zlen crc_xmm_shift_tab) with 48; lia).
  cbn [mbind outcome_bind]. f_equal.
  exact (linear_agree 128 (λ a, shuffle_epi8 a (left_mask n)) (λ a, Z.land (Z.shiftl a (8 * n)) (Z.ones 128)) a (proj2 (shift_mask n Hn)) Ha).
Qed.

(** The octets as one number, the first in the highest bits. *)
Definition be_val (l : bytes) : Z := bits_val (buf_bits l).

Lemma be_val_app a b : be_val (a ++ b) = be_val a * 2 ^ (8 * zlen b) + be_val b.
Proof.
  unfold be_val. rewrite buf_bits_app, bits_val_app. do 3 f_equal. unfold zlen. rewrite length_buf_bits. lia.
Qed.

Lemma be_val_range l : 0 <= be_val l < 2 ^ (8 * zlen l).
Proof.
  unfold be_val. pose proof (bits_val_range (buf_bits l)) as H. unfold zlen in *. rewrite length_buf_bits in H.
  by replace (8 * Z.of_nat (length l)) with (Z.of_nat (8 * length l)) by lia.
Qed.

Lemma be_val_m128 l : zlen l <= 16 → is_m128 (be_val l).
Proof.
  intros Hl. pose proof (be_val_range l). unfold is_m128. split; [lia|]. eapply Z.lt_le_trans; [apply H|]. apply Z.pow_le_mono_r; lia.
Qed.

Lemma le_val_add b l : is_byte b → le_val (b :: l) = b + 2 ^ 8 * le_val l.
Proof. intros Hb. cbn [le_val]. rewrite Z.lor_comm, lor_shiftl_add by (unfold is_byte in Hb; lia). lia. Qed.

Lemma le_val_nonneg l : Forall is_byte l → 0 <= le_val l.
Proof. induction 1 as [|b l Hb Hl IH]; [done|]. rewrite le_val_add by done. unfold is_byte in Hb. lia. Qed.

Lemma le_val_app a b : Forall is_byte a → le_val (a ++ b) = le_val a + 2 ^ (8 * zlen a) * le_val b.
Proof.
  induction 1 as [|x a Hx Ha IH]; [cbn [app]; change (zlen (@nil Z)) with 0; cbn [le_val]; lia|].
  change ((x :: a) ++ b) with (x :: (a ++ b)). rewrite !le_val_add, IH, zlen_cons by done.
  replace (8 * (1 + zlen a)) with (8 + 8 * zlen a) by lia. rewrite Z.pow_add_r by (pose proof (zlen_nonneg a); lia). lia.
Qed.

Lemma le_val_rev l : Forall is_byte l → le_val (rev l) = be_val l.
Proof.
  induction 1 as [|x l Hx Hl IH]; [done|]. cbn [rev]. rewrite le_val_app by (by apply Forall_rev). rewrite IH.
  change (x :: l) with ([x] ++ l); rewrite be_val_app. unfold zlen at 1. rewrite length_rev. fold (zlen l).
  change (be_val [x]) with (bits_val (byte_bits x ++ [])). rewrite app_nil_r, byte_bits_val by done. cbn [le_val]. rewrite Z.shiftl_0_l, Z.lor_0_r. lia.
Qed.

Lemma m128_byte_le l i x : Forall is_byte l → l !! i = Some x → m128_byte (le_val l) (Z.of_nat i) = x.
Proof.
  intros Hl. revert i. induction Hl as [|b l Hb Hl IH]; intros i Hi; [done|]. rewrite le_val_add by done.
  unfold m128_byte in *. change 255 with (Z.ones 8) in *. rewrite Z.land_ones by lia. unfold is_byte in Hb. destruct i as [|i].
  - injection Hi as <-. rewrite Z.shiftr_0_r, Z.mul_comm, Z.mod_add by lia. by apply Z.mod_small.
  - cbn in Hi. rewrite <- (IH i Hi), Z.land_ones by lia. f_equal. replace (8 * Z.of_nat (S i)) with (8 + 8 * Z.of_nat i) by lia.
    rewrite <- Z.shiftr_shiftr by lia. f_equal. rewrite Z.shiftr_div_pow2, Z.mul_comm, Z.div_add by lia. by rewrite Z.div_small by lia.
Qed.

Lemma shuffle_swap l : length l = 16%nat → Forall is_byte l → shuffle_epi8 (le_val l) crc_xmm_be_le_swap128 = be_val l.
Proof.
  intros Hl Hb. rewrite <- le_val_rev by done.
  assert (∀ i x, l !! i = Some x → m128_byte (le_val l) (Z.of_nat i) = x) as Hm by (intros i x; by apply m128_byte_le).
  transitivity (le_val ((λ i, m128_byte (le_val l) (Z.of_nat i)) <$> rev (seq 0 16))).
  { unfold shuffle_epi8. generalize (le_val l) as a. intros a. reflexivity. }
  f_equal. do 16 (destruct l as [|? l]; [done|]). destruct l; [|done]. cbn [rev seq app fmap list_fmap].
  do 16 (erewrite Hm; [|reflexivity]). done.
Qed.

(** A load of 16 octets in the order of the string. *)
Lemma load_be data off :
  Forall is_byte data → 0 <= off → off + 16 <= zlen data →
  ∃ v, loadu_si128 data off = Ok v ∧
       shuffle_epi8 v crc_xmm_be_le_swap128 = be_val (take 16 (drop (Z.to_nat off) data)).
Proof.
  intros Hb Ho Hl. unfold loadu_si128. rewrite buf_sub_ok by lia. eexists. split; [done|].
  apply shuffle_swap; [|by apply Forall_take, Forall_drop]. rewrite length_take, length_drop. unfold zlen in Hl. lia.
Qed.

(** ** Folding and reduction with the constants of the code *)

(** The remainder computed from the top, for evaluation. *)
Fixpoint horner (poly : Z) (n : nat) (v : Z) : Z :=
  match n with
  | O => 0
  | S n => Z.lxor (xtime poly (horner poly n (Z.shiftr v 1))) (Z.land v 1)
  end.

Lemma horner_prem poly n v : horner poly n v = prem poly n v.
Proof.
  revert v. induction n as [|n IH]; intros v; [done|]. cbn [horner]. rewrite IH, <- prem_double.
  assert (v = Z.lxor (2 * Z.shiftr v 1) (Z.land v 1)) as Hv.
  { assert (Z.land v 1 = v mod 2) as -> by (change 1 with (Z.ones 1) at 1; by rewrite Z.land_ones by lia).
    pose proof (Z.mod_pos_bound v 2 ltac:(lia)). pose proof (Z.div_mod v 2 ltac:(lia)).
    rewrite Z.shiftr_div_pow2, Z.mul_comm by lia. change (v / 2 ^ 1 * 2) with (v / 2 * 2 ^ 1). rewrite <- Z.shiftl_mul_pow2 by lia.
    rewrite lxor_shiftl_add by lia. lia. }
  rewrite Hv at 3. rewrite (linear_prem poly (S n) (λ v, v) _). f_equal.
  assert (Z.land v 1 = Z.b2z (Z.testbit v 0)) as ->.
  { change 1 with (Z.ones 1). rewrite Z.land_ones, Z.bit0_mod by lia. done. }
  assert (∀ m, prem poly (S m) 1 = 1) as H1.
  { induction m as [|m IHm]; [done|]. change (prem poly (S (S m)) 1) with (Z.lxor (prem poly (S m) 1) (if Z.testbit 1 (Z.of_nat (S m)) then xpow poly (S m) else 0)).
    by rewrite IHm, (testbit_above 1 1) by lia. }
  destruct (Z.testbit v 0); cbn [Z.b2z]; [by rewrite H1|by rewrite (linear_0 _ (linear_prem poly (S n) (λ v, v) _))].
Qed.

Definition round_k (ctx : crc_pclmulqdq_ctx) : Z := pair_si128 (k1 ctx) (k2 ctx).

(** The constants are those of the polynomial: folding multiplies by [X^128], reduction
    takes the remainder. *)
Record constants (poly : Z) (ctx : crc_pclmulqdq_ctx) : Prop := {
  c_fold : agree 128 (λ a, horner poly 256 (crc32_folding_round 0 (round_k ctx) a)) (λ a, horner poly 256 (Z.shiftl a 128)) = true;
  c_reduce : agree 128 (reduction ctx) (λ a, horner poly 128 a) = true;
  c_k : is_m128 (round_k ctx);
}.

Lemma constants_24a : constants poly24a lte_crc24a_pclmulqdq.
Proof. split; [vm_compute; reflexivity..|]. split; [vm_compute; discriminate|vm_compute; reflexivity]. Qed.
Lemma constants_24b : constants poly24b lte_crc24b_pclmulqdq.
Proof. split; [vm_compute; reflexivity..|]. split; [vm_compute; discriminate|vm_compute; reflexivity]. Qed.

#[export] Instance linear_qword f h : Linear f → Linear (λ a, qword (f a) h).
Proof. intros Hf. unfold qword. apply _. Qed.
#[export] Instance linear_clmulepi f b imm : Linear f → Linear (λ a, clmulepi64_si128 (f a) b imm).
Proof. intros Hf. unfold clmulepi64_si128. apply _. Qed.
Lemma linear_round f k : Linear f → Linear (λ a, crc32_folding_round 0 k (f a)).
Proof.
  intros Hf. unfold crc32_folding_round. apply linear_lxor; [by apply linear_clmulepi|]. apply linear_lxor; [apply linear_zero|by apply linear_clmulepi].
Qed.

Lemma linear_reduce_128 k : Linear (λ a, crc32_reduce_128_to_64 a k).
Proof.
  unfold crc32_reduce_128_to_64, srli_si128, slli_si128. cbv zeta.
  apply linear_shiftr, linear_land, linear_shiftl, linear_lxor; [|apply linear_id].
  apply linear_clmulepi, linear_lxor; [apply linear_clmulepi|]; apply linear_id.
Qed.

Lemma linear_reduce_64 k p : Linear (λ a, crc32_reduce_64_to_32 a k p).
Proof.
  unfold crc32_reduce_64_to_32, srli_si128. cbv zeta. apply linear_u32, linear_lxor; [|apply linear_id].
  apply linear_clmulepi, linear_shiftr, linear_lxor; [|apply linear_id]. apply linear_clmulepi, linear_shiftr, linear_id.
Qed.

Lemma linear_reduction ctx : Linear (reduction ctx).
Proof. intros a b. unfold reduction. cbv zeta. rewrite linear_reduce_128. apply linear_reduce_64. Qed.

Lemma linear_horner poly n f : Linear f → Linear (λ a, horner poly n (f a)).
Proof. intros Hf a b. rewrite !horner_prem. apply (linear_prem poly n f Hf). Qed.

Lemma clmul_range n a b m : 0 <= m → 0 <= b < 2 ^ m → 0 <= clmul n a b < 2 ^ (m + Z.of_nat n).
Proof.
  intros Hm Hb. induction n as [|n IH]; cbn [clmul]; [split; [done|apply Z.pow_pos_nonneg; lia]|].
  assert (2 ^ (m + Z.of_nat (S n)) = 2 * 2 ^ (m + Z.of_nat n)) as Hp by (rewrite <- Z.pow_succ_r by lia; f_equal; lia).
  apply lxor_range; [lia|lia|]. destruct (Z.testbit a (Z.of_nat n)); [|lia]. rewrite Z.shiftl_mul_pow2 by lia.
  assert (2 ^ (m + Z.of_nat n) = 2 ^ m * 2 ^ Z.of_nat n) as Hq by (apply Z.pow_add_r; lia). rewrite Hp, Hq. nia.
Qed.

Lemma round_range d k fold : is_m128 d → is_m128 k → is_m128 (crc32_folding_round d k fold).
Proof.
  intros Hd Hk. unfold crc32_folding_round, clmulepi64_si128.
  assert (∀ h, 0 <= qword k h < 2 ^ 64) as Hq.
  { intros []; unfold qword; [rewrite Z.shiftr_div_pow2 by lia|rewrite Z.land_ones by lia; apply Z.mod_pos_bound; lia].
    unfold is_m128 in Hk. split; [apply Z.div_pos; lia|apply Z.div_lt_upper_bound; lia]. }
  apply lxor_range; [lia|apply (clmul_range 64 _ _ 64); [lia|apply Hq]|]. apply lxor_range; [lia|done|apply (clmul_range 64 _ _ 64); [lia|apply Hq]].
Qed.

Section ctx.
Context (poly : Z) (ctx : crc_pclmulqdq_ctx).
Hypothesis Hctx : constants poly ctx.

Lemma reduction_ok a : is_m128 a → reduction ctx a = rem poly a.
Proof.
  intros Ha. rewrite (rem_prem poly 128), <- horner_prem by exact Ha.
  exact (@linear_agree 128 _ _ (linear_reduction ctx) (linear_horner poly 128 _ linear_id) a (c_reduce _ _ Hctx) Ha).
Qed.

(** One round: the string so far, then 16 octets more. *)
Lemma round_ok d m fold :
  is_m128 d → is_m128 fold → 0 <= m → rem poly fold = rem poly m →
  is_m128 (crc32_folding_round d (round_k ctx) fold) ∧
  rem poly (crc32_folding_round d (round_k ctx) fold) = rem poly (m * 2 ^ 128 + d).
Proof.
  intros Hd Hf Hm E. pose proof (c_k _ _ Hctx) as Hk. split; [by apply round_range|].
  replace (crc32_folding_round d (round_k ctx) fold) with (Z.lxor (crc32_folding_round 0 (round_k ctx) fold) d).
  2:{ unfold crc32_folding_round. cbv zeta. rewrite Z.lxor_0_l, !Z.lxor_assoc. f_equal. apply Z.lxor_comm. }
  assert (is_m128 (crc32_folding_round 0 (round_k ctx) fold)) as Hr by (by apply round_range).
  unfold is_m128 in *. rewrite <- lxor_shiftl_add by (done || lia).
  rewrite !rem_lxor by (lia || apply Z.shiftl_nonneg; lia). f_equal.
  transitivity (rem poly (Z.shiftl fold 128)); [|apply rem_shift_cong; (done || lia)].
  rewrite !(rem_prem poly 256).
  - rewrite <- !horner_prem.
    exact (@linear_agree 128 _ _ (linear_horner poly 256 _ (linear_round _ (round_k ctx) linear_id)) (linear_horner poly 256 _ (linear_shiftl _ 128 linear_id)) fold (c_fold _ _ Hctx) Hf).
  - rewrite Z.shiftl_mul_pow2 by lia. change (2 ^ Z.of_nat 256) with (2 ^ 128 * 2 ^ 128). nia.
  - split; [lia|]. eapply Z.lt_trans; [apply Hr|]. by apply Z.pow_lt_mono_r.
Qed.

(** The main loop. *)
Lemma folding_loop_ok fuel data data_len fold n :
  Forall is_byte data → 0 <= n → data_len - 4 <= zlen data → (data_len - n) mod 16 = 0 → n <= data_len - 16 → data_len - n < 16 * Z.of_nat fuel + 16 →
  is_m128 fold → rem poly fold = rem poly (be_val (take (Z.to_nat n) data)) → (0 < fuel)%nat →
  ∃ fold', folding_loop fuel data data_len (round_k ctx) fold n = Ok (fold', data_len - 16) ∧ is_m128 fold' ∧
           rem poly fold' = rem poly (be_val (take (Z.to_nat (data_len - 16)) data)).
Proof.
  intros Hb. revert fold n. induction fuel as [|fuel IH]; intros fold n Hn Hl Hmod Hle Hfuel Hf E Hpos; [lia|]. cbn [folding_loop].
  destruct (Z.ltb_spec n (data_len - 16)) as [Hlt|Hge].
  2:{ assert (n = data_len - 16) as -> by lia. by exists fold. }
  apply Z.mod_divide in Hmod as [c Hc]; [|lia].
  destruct (load_be data n Hb Hn) as (v & -> & Hv); [lia|]. cbn [mbind outcome_bind]. cbv zeta. rewrite Hv.
  set (d := take 16 (drop (Z.to_nat n) data)) in *.
  assert (zlen d = 16) as Hd by (unfold d; zlen_lia).
  destruct (round_ok (be_val d) (be_val (take (Z.to_nat n) data)) fold) as [Hr1 Hr2]; [apply be_val_m128; lia|done|apply be_val_range|done|].
  apply IH; [lia|done|apply Z.mod_divide; [lia|exists (c - 1); lia]|lia|lia|done| |lia].
  rewrite Hr2. f_equal. replace 128 with (8 * zlen d) by lia. rewrite <- be_val_app. f_equal. unfold d.
  replace (Z.to_nat (n + 16)) with (Z.to_nat n + 16)%nat by lia. by rewrite take_take_drop.
Qed.

(** What the folding leaves of a string of [len] octets: a register congruent to the string
    followed by 32 zeros. *)
Definition folded (data : bytes) (len fold : Z) : Prop :=
  is_m128 fold ∧ rem poly fold = rem poly (Z.shiftl (be_val (take (Z.to_nat len) data)) 32).

Lemma be_val_shiftr a b : Z.shiftr (be_val (a ++ b)) (8 * zlen b) = be_val a.
Proof.
  pose proof (zlen_nonneg b). pose proof (be_val_range b). rewrite be_val_app, Z.shiftr_div_pow2 by lia.
  rewrite Z.div_add_l, (Z.div_small (be_val b)) by lia. lia.
Qed.

Lemma fold_short_ok data len v :
  Forall is_byte data → 0 < len <= 12 → 16 <= zlen data → shuffle_epi8 v crc_xmm_be_le_swap128 = be_val (take 16 data) →
  ∃ fold, fold_short (len + 4) 0 v = Ok fold ∧ folded data len fold.
Proof.
  intros Hb Hl Hz Hv. unfold fold_short. cbv zeta. rewrite Hv.
  set (a := take (Z.to_nat len) data). set (b := drop (Z.to_nat len) (take 16 data)).
  assert (take 16 data = a ++ b) as Hab.
  { unfold a, b. rewrite <- (take_drop (Z.to_nat len) (take 16 data)) at 1. f_equal. rewrite take_take. f_equal. lia. }
  assert (zlen a = len) as Ha by (unfold a; zlen_lia). assert (zlen b = 16 - len) as Hb' by (unfold b, zlen in *; rewrite length_drop, length_take; lia).
  rewrite xmm_shift_right_ok by (lia || (apply be_val_m128; unfold zlen; rewrite length_take; lia)). cbn [mbind outcome_bind].
  replace (8 * (20 - (len + 4))) with (8 * zlen b) by lia. rewrite Hab, be_val_shiftr.
  rewrite xmm_shift_left_ok by (lia || (split; [vm_compute; discriminate|vm_compute; reflexivity])). cbn [mbind outcome_bind].
  change (bswap4 0) with 0. rewrite Z.shiftl_0_l, Z.land_0_l, Z.lxor_0_r. eexists. split; [done|].
  pose proof (be_val_range a) as Hra. rewrite Ha in Hra.
  assert (0 <= Z.shiftl (be_val a) 32 < 2 ^ 128) as Hr.
  { rewrite Z.shiftl_mul_pow2 by lia. split; [lia|]. eapply Z.lt_le_trans; [apply Zmult_lt_compat_r; [lia|apply Hra]|].
    rewrite <- Z.pow_add_r by lia. apply Z.pow_le_mono_r; lia. }
  unfold slli_si128. rewrite Z.land_ones by lia. change (8 * 4) with 32. rewrite (Z.mod_small (Z.shiftl (be_val a) 32)) by exact Hr. split; [exact Hr|done].
Qed.

(** The first 32 octets moved right by [n]. *)
Lemma first_blocks a b c d n :
  zlen a = 16 - n → zlen b = n → zlen c = 16 - n → zlen d = n → 0 <= n <= 15 →
  Z.lor (Z.shiftr (be_val (c ++ d)) (8 * n)) (Z.land (Z.shiftl (be_val (a ++ b)) (8 * (16 - n))) (Z.ones 128)) = be_val (b ++ c).
Proof.
  intros Ha Hb Hc Hd Hn. rewrite <- Hd at 1. rewrite be_val_shiftr. rewrite Z.land_ones, Z.shiftl_mul_pow2 by lia.
  pose proof (be_val_range a) as Hra. pose proof (be_val_range b) as Hrb. pose proof (be_val_range c) as Hrc. rewrite Ha in Hra. rewrite Hb in Hrb. rewrite Hc in Hrc.
  rewrite !be_val_app, Hb, Hc. set (x := 2 ^ (8 * n)). set (y := 2 ^ (8 * (16 - n))).
  assert (x * y = 2 ^ 128) as Hxy by (unfold x, y; rewrite <- Z.pow_add_r by lia; f_equal; lia).
  fold x in Hrb. fold y in Hrc. assert (0 < x) by (apply Z.pow_pos_nonneg; lia). assert (0 < y) by (apply Z.pow_pos_nonneg; lia).
  replace ((be_val a * x + be_val b) * y) with (be_val b * y + be_val a * (x * y)) by lia.
  rewrite Hxy, Z.mod_add by lia. rewrite Z.mod_small by nia.
  unfold y. rewrite <- (Z.shiftl_mul_pow2 (be_val b)), Z.lor_comm by lia. rewrite lor_shiftl_add by (fold y; lia). by rewrite <- Z.shiftl_mul_pow2 by lia.
Qed.

Lemma align_16 dl : 0 <= dl < 2 ^ 32 → Z.land (u32 (Z.lxor dl 0xffffffff + 1)) 15 = (- dl) mod 16.
Proof.
  intros Hd. assert (Z.lxor dl 0xffffffff = 2 ^ 32 - 1 - dl) as ->.
  { assert (Z.land (Z.lxor dl 0xffffffff) dl = 0) as Hz.
    { apply Z.bits_inj'. intros i Hi. rewrite Z.land_spec, Z.lxor_spec, Z.bits_0. change 0xffffffff with (Z.ones 32).
      destruct (Z.ltb_spec i 32); [rewrite Z.ones_spec_low by lia; by destruct (Z.testbit dl i)|]. by rewrite (testbit_above dl 32), andb_false_r by lia. }
    pose proof (Z.add_nocarry_lxor _ _ Hz) as H. rewrite Z.lxor_assoc, (Z.lxor_comm _ dl), <- Z.lxor_assoc, Z.lxor_nilpotent, Z.lxor_0_l in H. lia. }
  change 15 with (Z.ones 4). rewrite Z.land_ones by lia. unfold u32. replace (2 ^ 32 - 1 - dl + 1) with (- dl + 1 * 2 ^ 32) by lia.
  rewrite Z.mod_add by lia. change (2 ^ 32) with (2 ^ 4 * 2 ^ 28). rewrite Z.rem_mul_r by lia. rewrite Z.mul_comm, Z.mod_add by lia. by rewrite Z.mod_mod by lia.
Qed.

(** The last four of 16 octets cleared. *)
Lemma clear_last l x y : l = x ++ y → zlen x = 12 → zlen y = 4 → slli_si128 (srli_si128 (be_val l) 4) 4 = Z.shiftl (be_val x) 32.
Proof.
  intros -> Hx Hy. unfold slli_si128, srli_si128. rewrite <- Hy at 1. rewrite be_val_shiftr. change (8 * 4) with 32.
  rewrite Z.land_ones by lia. apply Z.mod_small. pose proof (be_val_range x) as H. rewrite Hx in H. rewrite Z.shiftl_mul_pow2 by lia. lia.
Qed.

Lemma last_octets l x y : l = x ++ y → zlen x = 4 → zlen y = 12 → slli_si128 (be_val l) 4 = Z.shiftl (be_val y) 32.
Proof.
  intros -> Hx Hy. unfold slli_si128. change (8 * 4) with 32. rewrite be_val_app, Hy, Z.land_ones, !Z.shiftl_mul_pow2 by lia.
  pose proof (be_val_range y) as H. rewrite Hy in H. replace ((be_val x * 2 ^ (8 * 12) + be_val y) * 2 ^ 32) with (be_val y * 2 ^ 32 + be_val x * 2 ^ 128) by lia.
  rewrite Z.mod_add by lia. apply Z.mod_small. lia.
Qed.

Lemma shiftl_32_m128 x : zlen x = 12 → is_m128 (Z.shiftl (be_val x) 32).
Proof. intros Hx. pose proof (be_val_range x) as H. rewrite Hx in H. rewrite Z.shiftl_mul_pow2 by lia. unfold is_m128. lia. Qed.

(** A string and twelve octets more, followed by 32 zeros. *)
Lemma append_12 a x : zlen x = 12 → be_val a * 2 ^ 128 + Z.shiftl (be_val x) 32 = Z.shiftl (be_val (a ++ x)) 32.
Proof. intros Hx. rewrite be_val_app, Hx, !Z.shiftl_mul_pow2 by lia. lia. Qed.

Lemma split_at (l : bytes) i : 0 <= i <= zlen l → l = take (Z.to_nat i) l ++ drop (Z.to_nat i) l ∧ zlen (take (Z.to_nat i) l) = i ∧ zlen (drop (Z.to_nat i) l) = zlen l - i.
Proof. intros Hi. split_and!; [by rewrite take_drop|by apply zlen_take|by apply zlen_drop]. Qed.

(** The two registers before the first round: the first [16 - n] octets and the next 16. *)
Lemma two_blocks data n v v' :
  0 <= n <= 15 → 32 <= zlen data →
  shuffle_epi8 v crc_xmm_be_le_swap128 = be_val (take 16 data) → shuffle_epi8 v' crc_xmm_be_le_swap128 = be_val (take 16 (drop 16 data)) →
  ∃ a bc r l, zlen a = 16 - n ∧ zlen bc = 16 ∧ take (Z.to_nat (32 - n)) data = a ++ bc ∧
    xmm_shift_right (shuffle_epi8 v' crc_xmm_be_le_swap128) n = Ok r ∧
    xmm_shift_left (shuffle_epi8 v crc_xmm_be_le_swap128) (16 - n) = Ok l ∧
    Z.lor r l = be_val bc ∧ xmm_shift_right (shuffle_epi8 v crc_xmm_be_le_swap128) n = Ok (be_val a).
Proof.
  intros Hn Hz Hv Hv'.
  assert (∃ f g r, data = f ++ g ++ r ∧ zlen f = 16 ∧ zlen g = 16) as (f & g & r & -> & Hf & Hg).
  { exists (take 16 data), (take 16 (drop 16 data)), (drop 16 (drop 16 data)). split_and!; [by rewrite !take_drop|..]; unfold zlen in *; rewrite length_take, ?length_drop; lia. }
  assert (take 16 (f ++ g ++ r) = f) as E1 by (apply take_app_length'; unfold zlen in Hf; lia).
  assert (take 16 (drop 16 (f ++ g ++ r)) = g) as E2.
  { rewrite drop_app_length' by (unfold zlen in Hf; lia). apply take_app_length'. unfold zlen in Hg; lia. }
  rewrite E1 in Hv. rewrite E2 in Hv'. rewrite Hv, Hv'.
  destruct (split_at f (16 - n) ltac:(lia)) as (Ef & Ha & Hb). destruct (split_at g (16 - n) ltac:(lia)) as (Eg & Hc & Hd).
  set (a := take (Z.to_nat (16 - n)) f) in *. set (b := drop (Z.to_nat (16 - n)) f) in *.
  set (c := take (Z.to_nat (16 - n)) g) in *. set (d := drop (Z.to_nat (16 - n)) g) in *. clearbody a b c d.
  exists a, (b ++ c), (Z.shiftr (be_val g) (8 * n)), (Z.land (Z.shiftl (be_val f) (8 * (16 - n))) (Z.ones 128)).
  split_and!.
  - lia.
  - rewrite zlen_app. lia.
  - rewrite Ef, Eg. replace ((a ++ b) ++ (c ++ d) ++ r) with ((a ++ b ++ c) ++ d ++ r) by (by rewrite <- !app_assoc).
    apply take_app_length'. unfold zlen in *. rewrite !length_app. lia.
  - apply xmm_shift_right_ok; [lia|apply be_val_m128; lia].
  - apply xmm_shift_left_ok; [lia|apply be_val_m128; lia].
  - rewrite Ef, Eg. apply first_blocks; lia.
  - rewrite xmm_shift_right_ok by (lia || apply be_val_m128; lia). rewrite Ef. replace n with (zlen b) by lia. by rewrite be_val_shiftr.
Qed.

Lemma fold_long_ok data len v :
  Forall is_byte data → 12 < len < 2 ^ 31 → Z.max 32 len <= zlen data → shuffle_epi8 v crc_xmm_be_le_swap128 = be_val (take 16 data) →
  ∃ fold, fold_long data (len + 4) 0 v ctx = Ok fold ∧ folded data len fold.
Proof.
  intros Hb Hl Hz Hv. unfold fold_long. rewrite align_16 by lia. cbv zeta. set (n := (- (len + 4)) mod 16).
  assert (0 <= n <= 15 ∧ ∃ c, len + 4 + n = 16 * c) as [Hn [c Hc]].
  { unfold n. pose proof (Z.mod_pos_bound (- (len + 4)) 16 ltac:(lia)). pose proof (Z.div_mod (- (len + 4)) 16 ltac:(lia)).
    split; [lia|]. exists (- ((- (len + 4)) / 16)). lia. }
  clearbody n. rewrite Z.lxor_0_r. destruct (load_be data 16 Hb) as (v' & -> & Hv'); [lia..|]. cbn [mbind outcome_bind].
  destruct (two_blocks data n v v' Hn ltac:(lia) Hv Hv') as (a & bc & r & l & Ha & Hbc & Etk & -> & -> & Erl & Esr). cbn [mbind outcome_bind].
  rewrite Esr. cbn [mbind outcome_bind]. rewrite Erl. fold (round_k ctx).
  destruct (Z.leb_spec (len + 4) 32) as [Hs|Hs].
  - assert (n = 32 - (len + 4)) as -> by lia. rewrite (proj2 (Z.ltb_ge _ _)) by lia.
    destruct (split_at bc 12 ltac:(lia)) as (Ebc & Hx & Hy). set (x := take (Z.to_nat 12) bc) in *. set (y := drop (Z.to_nat 12) bc) in *. clearbody x y.
    rewrite (clear_last bc x y) by (done || lia). eexists. split; [done|].
    destruct (round_ok (Z.shiftl (be_val x) 32) (be_val a) (be_val a)) as [H1 H2]; [by apply shiftl_32_m128|apply be_val_m128; lia|apply be_val_range|done|].
    split; [done|]. rewrite H2, append_12 by done. do 2 f_equal.
    replace (Z.to_nat len) with (Z.to_nat len `min` Z.to_nat (32 - (32 - (len + 4))))%nat by lia. rewrite <- take_take, Etk, Ebc, app_assoc.
    f_equal. symmetry. apply take_app_length'. unfold zlen in *. rewrite length_app. lia.
  - rewrite (proj2 (Z.ltb_lt _ _)) by lia.
    destruct (round_ok (be_val bc) (be_val a) (be_val a)) as [H1 H2]; [apply be_val_m128; lia|apply be_val_m128; lia|apply be_val_range|done|].
    replace 128 with (8 * zlen bc) in H2 by lia. rewrite <- be_val_app, <- Etk in H2. change (16 + 16 - n) with (32 - n).
    destruct (folding_loop_ok (Z.to_nat (len + 4)) data (len + 4) (crc32_folding_round (be_val bc) (round_k ctx) (be_val a)) (32 - n) Hb ltac:(lia) ltac:(lia)) as (fold' & -> & H3 & H4); [|lia|lia|exact H1|exact H2|lia|].
    { apply Z.mod_divide; [lia|]. exists (c - 2). lia. }
    cbn [mbind outcome_bind]. replace (len + 4 - 16) with (len - 12) in * by lia.
    destruct (load_be data (len - 12 - 4) Hb) as (w & -> & Hw); [lia..|]. cbn [mbind outcome_bind]. rewrite Hw. eexists. split; [done|].
    set (d := take 16 (drop (Z.to_nat (len - 12 - 4)) data)) in *.
    assert (zlen d = 16) as Hd by (unfold d, zlen in *; rewrite length_take, length_drop; lia).
    destruct (split_at d 4 ltac:(lia)) as (Ed & Hx & Hy). rewrite (last_octets d (take (Z.to_nat 4) d) (drop (Z.to_nat 4) d)) by (done || lia).
    destruct (round_ok (Z.shiftl (be_val (drop (Z.to_nat 4) d)) 32) (be_val (take (Z.to_nat (len - 12)) data)) fold') as [H5 H6]; [apply shiftl_32_m128; lia|done|apply be_val_range|done|].
    split; [done|]. rewrite H6, append_12 by lia. do 3 f_equal. unfold d. rewrite skipn_firstn_comm, drop_drop.
    replace (Z.to_nat (len - 12 - 4) + Z.to_nat 4)%nat with (Z.to_nat (len - 12)) by lia. rewrite take_take_drop. f_equal. lia.
Qed.

(** The whole computation. *)
Lemma crc32_calc_ok data len :
  Forall is_byte data → 0 <= len < 2 ^ 31 → Z.max 32 len <= zlen data →
  crc32_calc_pclmulqdq data len 0 ctx = Ok (crc_bits poly (buf_bits (take (Z.to_nat len) data))).
Proof.
  intros Hb Hl Hz. unfold crc32_calc_pclmulqdq. destruct (Z.eqb_spec len 0) as [->|H0]; [done|].
  rewrite u32_small by lia. destruct (load_be data 0 Hb) as (v & -> & Hv); [lia..|]. rewrite drop_0 in Hv. cbn [mbind outcome_bind].
  assert (∃ fold, (if len + 4 <=? 16 then fold_short (len + 4) 0 v else fold_long data (len + 4) 0 v ctx) = Ok fold ∧ folded data len fold) as (fold & -> & Hf & E).
  { destruct (Z.leb_spec (len + 4) 16); [apply fold_short_ok; (done || lia)|apply fold_long_ok; (done || lia)]. }
  cbn [mbind outcome_bind]. rewrite (crc_bits_rem poly). fold (be_val (take (Z.to_nat len) data)).
  by rewrite <- E, (reduction_ok fold Hf).
Qed.
End ctx.

(** C7: the vector routines compute the same check: [crc24a] and [crc24b] as built where the
    processor multiplies without carries, folding 16 octets at a time and reducing with the
    constants of the code, return for every buffer and every number of bits the contents of
    the shift register of their polynomial, provided that 32 octets can be read even where the
    block is shorter. *)
Theorem crc_simd_exact inptr bitlen :
  Forall is_byte inptr → 32 <= zlen inptr → 0 <= bitlen <= 8 * zlen inptr → bitlen < 2 ^ 31 →
  crc24a_simd inptr bitlen = Ok (crc_bits poly24a (take (Z.to_nat bitlen) (buf_bits inptr))) ∧
  crc24b_simd inptr bitlen = Ok (crc_bits poly24b (take (Z.to_nat bitlen) (buf_bits inptr))).
Proof.
  intros Hb H32 Hl Hmax. unfold crc24a_simd, crc24b_simd. rewrite cmod_nonneg by lia.
  assert (∀ P : Prop, true = false → P) as Hno by discriminate.
  destruct (Z.eqb_spec (bitlen mod 8) 0) as [E|E]; cbn [negb].
  - apply Z.mod_divide in E as [k Hk]; [|lia]. rewrite Z.quot_div_nonneg by lia. rewrite <- (Z.div_unique_exact bitlen 8 k) by lia.
    rewrite (crc32_calc_ok _ _ constants_24a), (crc32_calc_ok _ _ constants_24b) by (done || lia).
    rewrite <- !take_buf_bits_bytes. by replace (8 * Z.to_nat k)%nat with (Z.to_nat bitlen) by lia.
  - split; [exact (lut_crc_ok _ _ _ _ _ _ lut24a (Hno _) Hb Hl)|exact (lut_crc_ok _ _ _ _ _ _ lut24b (Hno _) Hb Hl)].
Qed.

Lemma crc_simd_exact_witness :
  crc24a_simd (seqZ 7 50) 400 = Ok (crc_bits poly24a (take 400 (buf_bits (seqZ 7 50)))) ∧
  crc24b_simd (seqZ 7 50) 400 = Ok (crc_bits poly24b (take 400 (buf_bits (seqZ 7 50)))).
Proof.
  apply (crc_simd_exact (seqZ 7 50) 400).
  - vm_compute. repeat constructor; discriminate.
  - vm_compute. discriminate.
  - split; vm_compute; discriminate.
  - reflexivity.
Defined.
