(* ===== verification/NrTransport.v ===== *)
(** * Transport blocks

    Models the size of a transport block ([openair2/LAYER2/NR_MAC_COMMON/
    nr_compute_tbs_common.c]), the base graph ([get_BG] of [nr_mac_common.c]), segmentation
    ([openair1/PHY/CODING/nr_segmentation.c], [coding_defs.h]), the check attached to a block
    ([nr_dlsch_coding.c]) and the segments joined again ([nr_dlsch_decoding.c]). *)

From S2P Require Import Prelude Bits Crc.

(** ** Size *)

Definition NR_MAX_PDSCH_TBS : Z := 3824.

Definition Tbstable_nr : list Z :=
  [24; 32; 40; 48; 56; 64; 72; 80; 88; 96; 104; 112; 120; 128; 136; 144; 152; 160; 168;
   176; 184; 192; 208; 224; 240; 256; 272; 288; 304; 320; 336; 352; 368; 384; 408; 432; 456; 480;
   504; 528; 552; 576; 608; 640; 672; 704; 736; 768; 808; 848; 888; 928; 984; 1032; 1064; 1128; 1160;
   1192; 1224; 1256; 1288; 1320; 1352; 1416; 1480; 1544; 1608; 1672; 1736; 1800; 1864; 1928; 2024; 2088; 2152; 2216;
   2280; 2408; 2472; 2536; 2600; 2664; 2728; 2792; 2856; 2976; 3104; 3240; 3368; 3496; 3624; 3752; 3824].

Definition NPRB_LBRM : list Z := [32; 66; 107; 135; 162; 217; 273].

(** Unsigned 32-bit arithmetic of the macros. *)
Definition CEILIDIV (a b : Z) : Z := u32 (a + b - 1) / b.
Definition ROUNDIDIV (a b : Z) : Z := u32 (u32 (Z.shiftl a 1) + b) / u32 (Z.shiftl b 1).

Definition floor_log2_u32 (x : Z) : Z := if x =? 0 then 0 else Z.log2 x.

(** The first entry of a table that is at least [x], or 0. *)
Definition first_at_least (tab : list Z) (x : Z) : Z :=
  match list_find (λ e, x <= e) tab with Some (_, e) => e | None => 0 end.

(** The number of information bits quantised and rounded to a size; [low_rate] is whether
    base graph 2 is used for large blocks. *)
Definition tbs_of_ninfo (Ninfo : Z) (low_rate : bool) : Z :=
  if Ninfo <=? NR_MAX_PDSCH_TBS then
    let n := Z.max 3 (floor_log2_u32 Ninfo - 6) in
    let Np_info := Z.max 24 (u32 (Z.shiftl (Z.shiftr Ninfo n) n)) in
    first_at_least Tbstable_nr Np_info
  else
    (* [log2] of a number below 2^32 in double precision, truncated *)
    let n := Z.log2 (Ninfo - 24) - 5 in
    let Np_info := Z.max 3840 (u32 (Z.shiftl (ROUNDIDIV (Ninfo - 24) (Z.shiftl 1 n)) n)) in
    if low_rate then
      let C := CEILIDIV (u32 (Np_info + 24)) 3816 in
      u32 (u32 (u32 (Z.shiftl C 3) * CEILIDIV (u32 (Np_info + 24)) (u32 (Z.shiftl C 3))) - 24)
    else if 8424 <? Np_info then
      let C := CEILIDIV (u32 (Np_info + 24)) 8424 in
      u32 (u32 (u32 (Z.shiftl C 3) * CEILIDIV (u32 (Np_info + 24)) (u32 (Z.shiftl C 3))) - 24)
    else u32 (u32 (Z.shiftl (CEILIDIV (u32 (Np_info + 24)) 8) 3) - 24).

Definition nr_compute_tbs (Qm R nb_rb nb_symb_sch nb_dmrs_prb nb_rb_oh tb_scaling Nl : Z) : Z :=
  if (Qm =? 0) || (R =? 0) || (nb_rb =? 0) || (Nl =? 0) then 0
  else
    let nbp_re := u32 (12 * nb_symb_sch - nb_dmrs_prb - nb_rb_oh) in
    let nb_re := u32 (Z.min 156 nbp_re * nb_rb) in
    let R_5 := R / 5 in
    let Ninfo := Z.shiftr (Z.shiftr (u32 (nb_re * R_5 * Qm * Nl)) 11) tb_scaling in
    tbs_of_ninfo Ninfo (R <=? 2560).

Definition nr_compute_tbslbrm (table nb_rb Nl : Z) : Z :=
  let nb_rb_lbrm := first_at_least NPRB_LBRM nb_rb in
  let Qm := if table =? 1 then 8 else 6 in
  let R := 948 in
  let nb_re := 156 * nb_rb_lbrm in
  let Ninfo := Z.shiftr (u32 (nb_re * R * Qm * Nl)) 10 in
  tbs_of_ninfo Ninfo (R <=? 256).

(** The code rate [R / 10240] is compared as a float: with 0.6667 (6827 is the last rate not
    above it) and 0.25. *)
Definition get_BG (A R : Z) : Z :=
  if (A <=? 292) || ((A <=? NR_MAX_PDSCH_TBS) && (R <=? 6827)) || (R <=? 2560) then 2 else 1.

(** ** Segmentation *)

Definition get_C (B Kcb : Z) : Z :=
  if B <=? Kcb then 1
  else
    let L := 24 in
    let C := B / (Kcb - L) in
    if u32 ((Kcb - L) * C) <? B then C + 1 else C.

Definition get_K (Zout BG : Z) : Z := if BG =? 1 then u32 (Zout * 22) else u32 (Zout * 10).

Definition get_Kb (BG B : Z) : Z :=
  if BG =? 1 then 22 else if 640 <? B then 10 else if 560 <? B then 9 else if 192 <? B then 8 else 6.

Definition round_up (Z0 sh : Z) : Z :=
  let Zout := Z.shiftl (Z.shiftr Z0 sh) sh in if Zout <? Z0 then Zout + Z.shiftl 1 sh else Zout.

Definition get_Zout (Kb Kprime : Z) : outcome Z :=
  let Z0 := Kprime / Kb + (if 0 <? Kprime mod Kb then 1 else 0) in
  _ ← assert_fatal (Z0 <=? 384);
  Ok (if Z0 <=? 2 then 2
      else if Z0 <=? 16 then Z0
      else if Z0 <=? 32 then round_up Z0 1
      else if Z0 <=? 64 then round_up Z0 2
      else if Z0 <=? 128 then round_up Z0 3
      else if Z0 <=? 256 then round_up Z0 4
      else if Z0 <=? 384 then round_up Z0 5 else 0).

Record segmentation := mk_seg { seg_Kb : Z; seg_C : Z; seg_K : Z; seg_Z : Z; seg_F : Z; seg_Kprime : Z; seg_L : Z }.

(** The sizes, all that is computed without buffers. *)
Definition segmentation_sizes (B BG : Z) : outcome segmentation :=
  let Kcb := if BG =? 1 then 8448 else 3840 in
  let C := get_C B Kcb in
  let L := if B <=? Kcb then 0 else 24 in
  let Bprime := if B <=? Kcb then B else u32 (B + C * L) in
  let Kprime := Bprime / C in
  let Kb := get_Kb BG B in
  Zout ← get_Zout Kb Kprime;
  let K := get_K Zout BG in
  Ok (mk_seg Kb C K Zout (u32 (K - Kprime)) Kprime L).

(** [n] zero octets from [k] on. *)
Fixpoint fill_zero (n : nat) (b : bytes) (k : Z) : outcome bytes :=
  match n with O => Ok b | S n => b ← buf_set b k 0; fill_zero n b (k + 1) end.

(** One segment: the data from [s], its check, the filler. *)
Definition fill_segment (sg : segmentation) (input : bytes) (s : Z) (out : bytes) : outcome bytes :=
  let len := Z.shiftr (seg_Kprime sg - seg_L sg) 3 in
  data ← buf_sub input s len;
  out ← buf_write out 0 data;
  out ← (if 1 <? seg_C sg then
           c ← crc24b out (seg_Kprime sg - seg_L sg);
           let crc := Z.shiftr c 8 in
           out ← buf_set out len (Z.land (Z.shiftr crc 16) 255);
           out ← buf_set out (1 + len) (Z.land (Z.shiftr crc 8) 255);
           buf_set out (2 + len) (Z.land crc 255)
         else Ok out);
  if 0 <? seg_F sg
  then fill_zero (Z.to_nat (Z.shiftr (seg_K sg) 3 - Z.shiftr (seg_Kprime sg) 3)) out (Z.shiftr (seg_Kprime sg) 3)
  else Ok out.

(** [outs] are the buffers of the segments still to fill. *)
Fixpoint fill_segments (n : nat) (sg : segmentation) (input : bytes) (s : Z) (outs : list bytes) : outcome (list bytes) :=
  match n with
  | O => Ok outs
  | S n =>
      match outs with
      | [] => Undef
      | out :: outs =>
          out ← fill_segment sg input s out;
          outs ← fill_segments n sg input (s + Z.shiftr (seg_Kprime sg - seg_L sg) 3) outs;
          Ok (out :: outs)
      end
  end.

Definition nr_segmentation (bufs : option (bytes * list bytes)) (B BG : Z) : outcome (segmentation * list bytes) :=
  sg ← segmentation_sizes B BG;
  match bufs with
  | Some (input_buffer, output_buffers) =>
      outs ← fill_segments (Z.to_nat (seg_C sg)) sg input_buffer 0 output_buffers; Ok (sg, outs)
  | None => Ok (sg, [])
  end.

(** ** Checks of blocks and segments *)

Definition lenWithCrc (nbSeg len : Z) : Z :=
  if 1 <? nbSeg then Z.quot (len + 24 + 24 * nbSeg) nbSeg
  else len + (if NR_MAX_PDSCH_TBS <? len then 24 else 16).

Definition crcType (nbSeg len : Z) : Z :=
  if 1 <? nbSeg then CRC24_B else if NR_MAX_PDSCH_TBS <? len then CRC24_A else CRC16.

(** The check of a block of [A] bits attached to it; the block [b] that is segmented and its
    size. [a] is the memory at the block, with room for the check. *)
Definition attach_crc (a : bytes) (A max_bytes : Z) : outcome (bytes * Z) :=
  if NR_MAX_PDSCH_TBS <? A then
    c ← crc24a a A;
    let crc := Z.shiftr c 8 in
    a ← buf_set a (Z.shiftr A 3) (Z.land (Z.shiftr crc 16) 255);
    a ← buf_set a (1 + Z.shiftr A 3) (Z.land (Z.shiftr crc 8) 255);
    a ← buf_set a (2 + Z.shiftr A 3) (Z.land crc 255);
    _ ← assert_fatal (A / 8 + 4 <=? max_bytes);
    b ← buf_sub a 0 (A / 8 + 4);
    Ok (b, A + 24)
  else
    c ← crc16 a A;
    let crc := Z.shiftr c 16 in
    a ← buf_set a (Z.shiftr A 3) (Z.land (Z.shiftr crc 8) 255);
    a ← buf_set a (1 + Z.shiftr A 3) (Z.land crc 255);
    _ ← assert_fatal (A / 8 + 3 <=? max_bytes);
    b ← buf_sub a 0 (A / 8 + 3);
    Ok (b, A + 16).

(** The receiver: [in_] holds the decoded segments one after the other, [K / 8] octets each. *)
Fixpoint join_segments (n : nat) (sz stride : Z) (in_ : bytes) (pos : Z) : outcome bytes :=
  match n with
  | O => Ok []
  | S n => x ← buf_sub in_ pos sz; l ← join_segments n sz stride in_ (pos + stride); Ok (x ++ l)
  end.

Definition regroup (sg : segmentation) (in_ : bytes) : outcome bytes :=
  let sz := Z.quot (seg_K sg - seg_F sg) 8 - (if 1 <? seg_C sg then 3 else 0) in
  join_segments (Z.to_nat (seg_C sg)) sz (Z.quot (seg_K sg) 8) in_ 0.
