(* ===== verification/NrTransportProofs.v ===== *)
(** * Theorems about transport blocks

    The sizes that [nr_compute_tbs] gives are those that segmentation divides evenly; a block
    is found again behind its checks. *)

From S2P Require Import Prelude Bits Crc CrcProofs NrTransport.

(** ** Arithmetic of the macros *)

Lemma ceil_div_spec a b : 0 < b → b * ((a + b - 1) / b) - b < a <= b * ((a + b - 1) / b).
Proof.
  intros Hb. pose proof (Z.div_mod (a + b - 1) b ltac:(lia)). pose proof (Z.mod_pos_bound (a + b - 1) b Hb). lia.
Qed.

Lemma ceil_div_unique a b q : 0 < b → b * q - b < a <= b * q → (a + b - 1) / b = q.
Proof. intros Hb H. symmetry. apply (Z.div_unique_pos _ _ _ (a + b - 1 - b * q)); lia. Qed.

Lemma CEILIDIV_small a b : 0 <= a → 0 < b → a + b < 2 ^ 32 → CEILIDIV a b = (a + b - 1) / b.
Proof. intros. unfold CEILIDIV. by rewrite u32_small by lia. Qed.

(** ** The number of segments *)

Lemma get_C_ceil B Kcb : 24 < Kcb → 0 <= B < 2 ^ 32 → Kcb < B → get_C B Kcb = (B + (Kcb - 24) - 1) / (Kcb - 24).
Proof.
  intros Hk HB Hlt. unfold get_C. destruct (Z.leb_spec B Kcb); [lia|]. cbv zeta.
  pose proof (Z.div_mod B (Kcb - 24) ltac:(lia)). pose proof (Z.mod_pos_bound B (Kcb - 24) ltac:(lia)).
  rewrite u32_small.
  2:{ split; [apply Z.mul_nonneg_nonneg; [lia|apply Z.div_pos; lia]|]. lia. }
  destruct (Z.ltb_spec ((Kcb - 24) * (B / (Kcb - 24))) B); symmetry; apply ceil_div_unique; lia.
Qed.

(** A size rounded up to a multiple of [8 * C], with [C] the number of segments of [8 * m]
    bits needed, still needs [C] of them, and is divided evenly. *)
Lemma even_segments N m : 0 < m → 0 < N →
  let C := (N + 8 * m - 1) / (8 * m) in
  let q := (N + 8 * C - 1) / (8 * C) in
  0 < C ∧ 0 < q <= m ∧ N <= 8 * C * q ∧ (8 * C * q + 8 * m - 1) / (8 * m) = C.
Proof.
  intros Hm HN C q. pose proof (ceil_div_spec N (8 * m) ltac:(lia)) as HC. fold C in HC.
  assert (0 < C) by nia. pose proof (ceil_div_spec N (8 * C) ltac:(lia)) as Hq. fold q in Hq.
  assert (0 < q) by nia. assert (q <= m) by nia. split_and!; [done..|lia|].
  apply ceil_div_unique; [lia|]. nia.
Qed.

(** ** The lifting size *)

(** The set of 38.212, table 5.3.2-1: [a * 2 ^ j]. *)
Definition lifting_sizes : list Z :=
  z ← [2; 3; 5; 7; 9; 11; 13; 15]; (λ j, z * 2 ^ Z.of_nat j) <$> seq 0 8.
Definition lifting_size (z : Z) : Prop := z ∈ lifting_sizes ∧ z <= 384.

#[export] Instance lifting_size_dec z : Decision (lifting_size z) := _.

Definition lifting_of (Z0 : Z) : Z :=
  if Z0 <=? 2 then 2 else if Z0 <=? 16 then Z0 else if Z0 <=? 32 then round_up Z0 1 else if Z0 <=? 64 then round_up Z0 2
  else if Z0 <=? 128 then round_up Z0 3 else if Z0 <=? 256 then round_up Z0 4 else if Z0 <=? 384 then round_up Z0 5 else 0.

Definition lifting_check (z : Z) : bool :=
  bool_decide (lifting_size (lifting_of z)) && (z <=? lifting_of z) &&
  forallb (λ y, (y <? z) || (384 <? y) || (lifting_of z <=? y)) lifting_sizes.

Lemma lifting_of_least z : 0 <= z <= 384 →
  lifting_size (lifting_of z) ∧ z <= lifting_of z ∧ ∀ y, lifting_size y → z <= y → lifting_of z <= y.
Proof.
  intros Hz. assert (forallb lifting_check (seqZ 0 385) = true) as H by (vm_compute; reflexivity).
  rewrite forallb_forall in H. specialize (H z ltac:(apply list_elem_of_In, elem_of_seqZ; lia)).
  unfold lifting_check in H. apply andb_true_iff in H as [[H1 H2]%andb_true_iff H3].
  apply bool_decide_eq_true_1 in H1. apply Z.leb_le in H2. split_and!; [done|done|]. intros y [Hy Hy'] Hle.
  rewrite forallb_forall in H3. specialize (H3 y ltac:(by apply list_elem_of_In)).
  apply orb_true_iff in H3 as [[H3|H3]%orb_true_iff|H3]; [apply Z.ltb_lt in H3; lia|apply Z.ltb_lt in H3; lia|by apply Z.leb_le].
Qed.

Lemma get_Zout_ok Kb K' : 0 < Kb → 0 <= K' <= Kb * 384 →
  get_Zout Kb K' = Ok (lifting_of ((K' + Kb - 1) / Kb)).
Proof.
  intros Hk HK. unfold get_Zout.
  assert (K' / Kb + (if 0 <? K' mod Kb then 1 else 0) = (K' + Kb - 1) / Kb) as ->.
  { symmetry. pose proof (Z.div_mod K' Kb ltac:(lia)). pose proof (Z.mod_pos_bound K' Kb Hk).
    apply ceil_div_unique; [done|]. destruct (Z.ltb_spec 0 (K' mod Kb)); lia. }
  assert ((K' + Kb - 1) / Kb <= 384) as Hle.
  { pose proof (ceil_div_spec K' Kb Hk) as Hs. set (q := (K' + Kb - 1) / Kb) in *. nia. }
  cbv zeta. unfold lifting_of. by rewrite (proj2 (Z.leb_le _ _) Hle).
Qed.

(** The lifting size: for every [Kb] and every segment that [Kb] columns of size 384 can
    hold, [get_Zout] returns the least of the lifting sizes [a * 2^j] of 38.212 (table
    5.3.2-1) with [Kb * Z] at least the segment; for a longer segment it stops. *)
Theorem get_Zout_least Kb K' :
  0 < Kb → 0 <= K' →
  (K' <= Kb * 384 → ∃ z, get_Zout Kb K' = Ok z ∧ lifting_size z ∧ K' <= Kb * z ∧
                       ∀ y, lifting_size y → K' <= Kb * y → z <= y) ∧
  (Kb * 384 < K' → get_Zout Kb K' = Fatal).
Proof.
  intros Hk H0. pose proof (ceil_div_spec K' Kb Hk) as Hc. split; intros HK.
  - eexists. rewrite get_Zout_ok by lia. split; [done|].
    destruct (lifting_of_least ((K' + Kb - 1) / Kb)) as (H1 & H2 & H3); [nia|].
    split_and!; [done|nia|]. intros y Hy HKy. apply H3; [done|]. nia.
  - unfold get_Zout.
    assert (384 < K' / Kb + (if 0 <? K' mod Kb then 1 else 0)) as Hlt.
    { pose proof (Z.div_mod K' Kb ltac:(lia)). pose proof (Z.mod_pos_bound K' Kb Hk).
      destruct (Z.ltb_spec 0 (K' mod Kb)); nia. }
    cbv zeta. by rewrite (proj2 (Z.leb_gt _ _) Hlt).
Qed.

Lemma get_Zout_least_witness :
  get_Zout 10 1000 = Ok 104 ∧ (∀ y, lifting_size y → 1000 <= 10 * y → 104 <= y) ∧ get_Zout 22 9000 = Fatal.
Proof.
  split; [reflexivity|]. split; [|apply (get_Zout_least 22 9000); lia].
  destruct (proj1 (get_Zout_least 10 1000 ltac:(lia) ltac:(lia)) ltac:(lia)) as (z & Hz & _ & _ & Hl).
  injection Hz as <-. exact Hl.
Defined.

(** ** The sizes given *)

Lemma np_info_range Ninfo :
  3824 < Ninfo < 2 ^ 22 →
  let n := Z.log2 (Ninfo - 24) - 5 in
  3840 <= Z.max 3840 (u32 (Z.shiftl (ROUNDIDIV (Ninfo - 24) (Z.shiftl 1 n)) n)) < 2 ^ 24.
Proof.
  intros HN n. set (x := Ninfo - 24). assert (3800 < x < 2 ^ 22) as Hx by lia.
  assert (11 <= Z.log2 x <= 21) as Hlog.
  { split; [apply Z.log2_le_pow2; lia|]. enough (Z.log2 x < 22) by lia. apply Z.log2_lt_pow2; lia. }
  pose proof (Z.log2_spec x ltac:(lia)) as Hsp. assert (n = Z.log2 x - 5) as Hn by reflexivity.
  assert (2 ^ n <= x) as Hpx. { etrans; [|apply Hsp]. apply Z.pow_le_mono_r; lia. }
  assert (0 < 2 ^ n) as Hp by (apply Z.pow_pos_nonneg; lia).
  unfold ROUNDIDIV. rewrite Z.shiftl_1_l, !(Z.shiftl_mul_pow2 _ 1) by lia. change (2 ^ 1) with 2.
  rewrite (u32_small (x * 2)), (u32_small (x * 2 + 2 ^ n)), (u32_small (2 ^ n * 2)), Z.shiftl_mul_pow2 by lia.
  pose proof (Z.div_mod (x * 2 + 2 ^ n) (2 ^ n * 2) ltac:(lia)). pose proof (Z.mod_pos_bound (x * 2 + 2 ^ n) (2 ^ n * 2) ltac:(lia)).
  set (r := (x * 2 + 2 ^ n) / (2 ^ n * 2)) in *. assert (0 <= r) by (apply Z.div_pos; lia).
  rewrite u32_small; nia.
Qed.

Lemma first_at_least_in tab x y : y ∈ tab → x <= y → first_at_least tab x ∈ tab ∧ x <= first_at_least tab x.
Proof.
  intros Hy Hxy. unfold first_at_least. destruct (list_find _ tab) as [[i e]|] eqn:E.
  - apply list_find_Some in E as (Hi & He & _). split; [by eapply list_elem_of_lookup_2|done].
  - exfalso. apply list_find_None in E. rewrite Forall_forall in E. by apply (E y).
Qed.

(** The sizes: one of the table, or such that [A + 24] is divided evenly by the number of
    segments. *)
Inductive tbs_shape (low_rate : bool) (A : Z) : Prop :=
| tbs_small : A ∈ Tbstable_nr → tbs_shape low_rate A
| tbs_single : low_rate = false → 3864 <= A + 24 <= 8448 → (8 | A) → tbs_shape low_rate A
| tbs_many m C q :
    m = (if low_rate then 477 else 1053) → A + 24 = 8 * C * q → 1 < C → 0 < q <= m → Z.max 3863 (8 * (m + 3)) < A + 24 < 2 ^ 26 →
    (A + 24 + 8 * m - 1) / (8 * m) = C → tbs_shape low_rate A.

Lemma tbs_many_shape low m Np :
  m = (if low : bool then 477 else 1053) → (if low then 3840 else 8424) <= Np < 2 ^ 24 → (low = false → 8424 < Np) →
  let C := CEILIDIV (u32 (Np + 24)) (8 * m) in
  tbs_shape low (u32 (u32 (u32 (Z.shiftl C 3) * CEILIDIV (u32 (Np + 24)) (u32 (Z.shiftl C 3))) - 24)).
Proof.
  intros Hm HN Hl C. set (N := Np + 24). assert (0 < m <= 1053 /\ Z.max 3863 (8 * (m + 3)) < N < 2 ^ 25) as [Hm' HN'].
  { unfold N. destruct low; [|specialize (Hl eq_refl)]; lia. }
  unfold C. rewrite (u32_small (Np + 24)) by (fold N; lia). fold N. rewrite CEILIDIV_small by lia.
  pose proof (even_segments N m ltac:(lia) ltac:(lia)) as Hev. cbv zeta in Hev.
  pose proof (ceil_div_spec N (8 * m) ltac:(lia)) as HC.
  set (C' := (N + 8 * m - 1) / (8 * m)) in *. destruct Hev as (HC0 & Hq & HNq & HCq).
  assert (C' < 2 ^ 22) by nia.
  rewrite Z.shiftl_mul_pow2 by lia. change (2 ^ 3) with 8. rewrite (Z.mul_comm C' 8), (u32_small (8 * C')) by lia.
  rewrite (u32_small N), CEILIDIV_small by lia.
  pose proof (ceil_div_spec N (8 * C') ltac:(lia)) as Hqs.
  set (q := (N + 8 * C' - 1) / (8 * C')) in *.
  assert (8 * C' * q < 2 ^ 26) by nia.
  rewrite (u32_small (8 * C' * q)), u32_small by lia.
  apply (tbs_many _ _ m C' q); rewrite ?Z.sub_add; (done || lia || nia).
Qed.

Lemma tbs_of_ninfo_shape Ninfo low : 0 <= Ninfo < 2 ^ 22 → tbs_shape low (tbs_of_ninfo Ninfo low).
Proof.
  intros HN. unfold tbs_of_ninfo, NR_MAX_PDSCH_TBS. destruct (Z.leb_spec Ninfo 3824).
  - apply tbs_small. cbv zeta. set (n := Z.max 3 _). assert (0 <= n) by lia.
    eapply first_at_least_in; [unfold Tbstable_nr; do 92 apply list_elem_of_further; apply list_elem_of_here|].
    rewrite Z.shiftl_mul_pow2, Z.shiftr_div_pow2 by lia. pose proof (Z.mul_div_le Ninfo (2 ^ n) ltac:(lia)).
    assert (0 <= Ninfo / 2 ^ n) by (apply Z.div_pos; lia). rewrite u32_small by nia. lia.
  - pose proof (np_info_range Ninfo ltac:(lia)) as Hr. cbv zeta in Hr |- *. set (Np := Z.max 3840 _) in *. destruct low.
    + change 3816 with (8 * 477). by apply tbs_many_shape.
    + destruct (Z.ltb_spec 8424 Np); [change 8424 with (8 * 1053) at 1; change 8424 with (8 * 1053) at 1; by apply (tbs_many_shape false 1053); [|lia|]|].
      rewrite (u32_small (Np + 24)) by lia. rewrite CEILIDIV_small by lia. rewrite Z.shiftl_mul_pow2 by lia. change (2 ^ 3) with 8.
      pose proof (ceil_div_spec (Np + 24) 8 ltac:(lia)). set (q := (Np + 24 + 8 - 1) / 8) in *.
      clearbody q Np. rewrite (u32_small (q * 8)), u32_small by lia. apply tbs_single; [done|lia|]. exists (q - 3). lia.
Qed.

Lemma nr_compute_tbs_shape Qm R nb_rb nb_symb_sch nb_dmrs_prb nb_rb_oh tb_scaling Nl :
  0 <= tb_scaling → let A := nr_compute_tbs Qm R nb_rb nb_symb_sch nb_dmrs_prb nb_rb_oh tb_scaling Nl in
  A ≠ 0 → tbs_shape (R <=? 2560) A.
Proof.
  intros Hs A HA. unfold A, nr_compute_tbs in *. destruct (_ || _); [done|]. apply tbs_of_ninfo_shape.
  set (x := u32 _). pose proof (u32_range (Z.min 156 (u32 (12 * nb_symb_sch - nb_dmrs_prb - nb_rb_oh)) * nb_rb)).
  assert (0 <= x < 2 ^ 32) by apply u32_range. rewrite !Z.shiftr_div_pow2 by lia.
  assert (0 <= x / 2 ^ 11 < 2 ^ 21). { split; [apply Z.div_pos; lia|]. apply Z.div_lt_upper_bound; lia. }
  assert (0 < 2 ^ tb_scaling) by (by apply Z.pow_pos_nonneg). split; [apply Z.div_pos; lia|].
  apply Z.div_lt_upper_bound; [lia|]. nia.
Qed.

(** ** Segmentation of such a size *)

(** Segments of equal length in whole octets, with their checks, and room for them in [K]. *)
Record exact_segments (A BG : Z) (sg : segmentation) : Prop := {
  es_C : 1 <= seg_C sg < 2 ^ 16;
  es_L : seg_L sg = if 1 <? seg_C sg then 24 else 0;
  es_split : seg_C sg * (seg_Kprime sg - seg_L sg) = lenWithCrc 1 A;
  es_len : seg_Kprime sg = lenWithCrc (seg_C sg) A;
  es_octets : (8 | seg_Kprime sg);
  es_Kprime : 24 < seg_Kprime sg <= seg_K sg;
  es_F : seg_F sg = seg_K sg - seg_Kprime sg;
  es_K : seg_K sg = (if BG =? 1 then 22 else 10) * seg_Z sg;
  es_Z : lifting_size (seg_Z sg);
  es_max : seg_K sg <= if BG =? 1 then 8448 else 3840;
}.

Lemma sizes_fit BG B K' :
  BG = 1 ∨ BG = 2 → 0 <= K' <= (if BG =? 1 then 8448 else 3840) → (K' = B ∨ 3840 < B) →
  ∃ Zc, get_Zout (get_Kb BG B) K' = Ok Zc ∧ lifting_size Zc ∧ get_K Zc BG = (if BG =? 1 then 22 else 10) * Zc ∧
        K' <= get_K Zc BG <= (if BG =? 1 then 8448 else 3840) ∧ u32 (get_K Zc BG - K') = get_K Zc BG - K'.
Proof.
  intros HBG HK HB.
  assert (0 < get_Kb BG B <= (if BG =? 1 then 22 else 10) ∧ K' <= get_Kb BG B * 384) as [Hkb HK'].
  { unfold get_Kb. destruct HBG as [-> | ->]; cbn in *; [lia|]. destr_bool; lia. }
  eexists. rewrite get_Zout_ok by lia. split; [done|]. pose proof (ceil_div_spec K' (get_Kb BG B) ltac:(lia)) as Hc.
  set (z := (K' + get_Kb BG B - 1) / get_Kb BG B) in *.
  destruct (lifting_of_least z) as (H1 & H2 & H3); [nia|]. pose proof H1 as [_ Hmax].
  assert (0 <= z) by nia. set (Zc := lifting_of z) in *. clearbody Zc z.
  assert (get_K Zc BG = (if BG =? 1 then 22 else 10) * Zc) as Hk.
  { unfold get_K. destruct HBG as [-> | ->]; cbn; rewrite u32_small by lia; lia. }
  assert (K' <= get_K Zc BG) by (rewrite Hk; destruct HBG as [-> | ->]; cbn in *; nia).
  assert (get_K Zc BG <= if BG =? 1 then 8448 else 3840) by (rewrite Hk; destruct HBG as [-> | ->]; cbn in *; lia).
  split_and!; try done. apply u32_small. destruct HBG as [-> | ->]; cbn in *; lia.
Qed.

Lemma table_sizes A : A ∈ Tbstable_nr → 24 <= A <= 3824 ∧ (8 | A).
Proof.
  intros HA.
  assert (Forall (λ a, 24 <= a <= 3824 ∧ (8 | a)) Tbstable_nr) as H.
  { unfold Tbstable_nr. repeat constructor; try lia; apply Z.mod_divide; (lia || reflexivity). }
  rewrite Forall_forall in H. by apply H.
Qed.

Lemma segmentation_single BG A :
  BG = 1 ∨ BG = 2 → 24 <= A → (8 | A) → lenWithCrc 1 A <= (if BG =? 1 then 8448 else 3840) →
  ∃ sg, segmentation_sizes (lenWithCrc 1 A) BG = Ok sg ∧ exact_segments A BG sg.
Proof.
  intros HBG HA [a Ha] HB. set (B := lenWithCrc 1 A) in *.
  assert (24 < B ∧ (8 | B)) as [HB0 HB8].
  { unfold B, lenWithCrc. cbn. destruct (NR_MAX_PDSCH_TBS <? A); (split; [lia|]); [exists (a + 3)|exists (a + 2)]; lia. }
  unfold segmentation_sizes. cbv zeta. unfold get_C. rewrite (proj2 (Z.leb_le _ _) HB), Z.div_1_r.
  destruct (sizes_fit BG B B HBG ltac:(lia) ltac:(by left)) as (Zc & -> & Hl & Hk & HK & HF). cbn [mbind outcome_bind].
  eexists. split; [done|]. split; cbn; rewrite ?HF; try done; try lia. change (24 < B <= get_K Zc BG). lia.
Qed.

Lemma segmentation_many BG m C q A :
  BG = 1 ∨ BG = 2 → m = (if BG =? 1 then 1053 else 477) → A + 24 = 8 * C * q → 1 < C → 0 < q <= m →
  Z.max 3863 (8 * (m + 3)) < A + 24 < 2 ^ 26 → (A + 24 + 8 * m - 1) / (8 * m) = C →
  ∃ sg, segmentation_sizes (lenWithCrc 1 A) BG = Ok sg ∧ exact_segments A BG sg.
Proof.
  intros HBG Hm HA HC Hq HN Hdiv.
  assert (C < 2 ^ 16) as HC16. { pose proof (ceil_div_spec (A + 24) (8 * m) ltac:(lia)). rewrite Hdiv in *. destruct HBG as [-> | ->]; cbn in Hm; nia. }
  assert (3824 < A) as HA' by (destruct HBG as [-> | ->]; cbn in Hm; lia).
  assert (lenWithCrc 1 A = A + 24) as HB. { unfold lenWithCrc, NR_MAX_PDSCH_TBS. cbn. destr_bool; lia. }
  rewrite HB. assert (lenWithCrc C A = 8 * q + 24) as Hlen.
  { unfold lenWithCrc. rewrite (proj2 (Z.ltb_lt _ _) HC), Z.quot_div_nonneg by lia.
    symmetry. apply (Z.div_unique_exact _ _ (8 * q + 24)); lia. }
  unfold segmentation_sizes. cbv zeta.
  assert ((if BG =? 1 then 8448 else 3840) = 8 * (m + 3)) as HKcb by (destruct HBG as [-> | ->]; cbn in *; lia).
  rewrite HKcb, get_C_ceil by lia. rewrite (proj2 (Z.leb_gt _ _)) by lia.
  replace (8 * (m + 3) - 24) with (8 * m) by lia. rewrite Hdiv.
  assert (u32 (A + 24 + C * 24) / C = 8 * q + 24) as ->.
  { rewrite u32_small by lia. symmetry. apply (Z.div_unique_exact _ _ (8 * q + 24)); lia. }
  destruct (sizes_fit BG (A + 24) (8 * q + 24) HBG) as (Zc & -> & Hl & Hk & HK & HF).
  { rewrite HKcb. lia. }
  { right. destruct HBG as [-> | ->]; cbn in *; lia. }
  cbn [mbind outcome_bind]. eexists. split; [done|].
  split; cbn; rewrite ?HF, ?HB, ?Hlen; try done; try lia.
  - by rewrite (proj2 (Z.ltb_lt _ _) HC).
  - change (C * (8 * q + 24 - 24) = lenWithCrc 1 A). lia.
  - exists (q + 3). lia.
Qed.

Lemma get_BG_low A R : R <= 2560 → get_BG A R = 2.
Proof. intros H. unfold get_BG. by rewrite (proj2 (Z.leb_le R 2560)), orb_true_r by lia. Qed.

Lemma get_BG_high A R : 2560 < R → NR_MAX_PDSCH_TBS < A → get_BG A R = 1.
Proof. unfold get_BG, NR_MAX_PDSCH_TBS. intros. destr_bool; (lia || done). Qed.

Lemma get_BG_range A R : get_BG A R = 1 ∨ get_BG A R = 2.
Proof. unfold get_BG. destruct (_ || _); [by right|by left]. Qed.

Lemma shape_segments R A :
  tbs_shape (R <=? 2560) A →
  (8 | A) ∧ 24 <= A < 2 ^ 26 ∧ ∃ sg, segmentation_sizes (lenWithCrc 1 A) (get_BG A R) = Ok sg ∧ exact_segments A (get_BG A R) sg.
Proof.
  intros [HA|Hlow HA H8|m C q Hm HA HC Hq HN Hdiv].
  - apply table_sizes in HA as [HA H8]. split_and!; [done|lia..|]. apply segmentation_single; [apply get_BG_range|lia|done|].
    unfold lenWithCrc, NR_MAX_PDSCH_TBS. cbn. destr_bool; lia.
  - apply Z.leb_gt in Hlow. split_and!; [done|lia..|]. rewrite get_BG_high by (done || unfold NR_MAX_PDSCH_TBS; lia).
    apply segmentation_single; [by left|lia|done|]. unfold lenWithCrc, NR_MAX_PDSCH_TBS. cbn. destr_bool; lia.
  - split_and!; [exists (C * q - 3); lia|lia..|]. destruct (Z.leb_spec R 2560).
    + rewrite get_BG_low by done. by apply (segmentation_many 2 m C q); [right|..].
    + rewrite get_BG_high by (done || unfold NR_MAX_PDSCH_TBS; lia). by apply (segmentation_many 1 m C q); [left|..].
Qed.

(** C9: the size computation and segmentation agree: for every scheduling decision for which
    [nr_compute_tbs] returns a size [A], with the base graph that [get_BG] chooses for it, the
    block with its check is divided by [nr_segmentation] into segments of equal length in whole
    octets, nothing left over; each with its check has [lenWithCrc C A] bits, the length the
    receiver computes from [C] and [A]; it fits in the [K] bits of a codeword with a lifting
    size of 38.212; no assertion fails. *)
Theorem tbs_segments_evenly Qm R nb_rb nb_symb_sch nb_dmrs_prb nb_rb_oh tb_scaling Nl A :
  0 <= tb_scaling → A = nr_compute_tbs Qm R nb_rb nb_symb_sch nb_dmrs_prb nb_rb_oh tb_scaling Nl → A ≠ 0 →
  (8 | A) ∧ 24 <= A < 2 ^ 26 ∧
  ∃ sg, nr_segmentation None (lenWithCrc 1 A) (get_BG A R) = Ok (sg, []) ∧ exact_segments A (get_BG A R) sg.
Proof.
  intros Hs -> HA. destruct (shape_segments R _ (nr_compute_tbs_shape _ _ _ _ _ _ _ _ Hs HA)) as (H8 & Hr & sg & Hsg & He).
  split_and!; [done|lia..|]. exists sg. split; [|done]. unfold nr_segmentation. by rewrite Hsg.
Qed.

Lemma tbs_segments_evenly_witness :
  nr_compute_tbs 6 6660 106 13 12 0 0 2 = 118896 ∧
  ∃ sg, nr_segmentation None (lenWithCrc 1 118896) (get_BG 118896 6660) = Ok (sg, []) ∧ exact_segments 118896 1 sg ∧ seg_C sg = 15.
Proof.
  split; [reflexivity|].
  destruct (tbs_segments_evenly 6 6660 106 13 12 0 0 2 118896 ltac:(lia) ltac:(reflexivity) ltac:(lia)) as (_ & _ & sg & Hsg & He).
  exists sg. split_and!; [exact Hsg|exact He|]. vm_compute in Hsg. by injection Hsg as <-.
Defined.
