(* ===== verification/NrTransportLink.v ===== *)
(** * A transport block sent and received

    The transmitter attaches the check and segments ([attach_crc], [nr_segmentation]); the
    receiver checks each segment that the LDPC decoder returns, joins them and checks the
    block. *)

From S2P Require Import Prelude Bits Crc CrcProofs NrTransport NrTransportProofs.

(** ** Octets written *)

Lemma buf_set_split p (y x : Z) r i :
  i = zlen p → buf_set (p ++ y :: r) i x = Ok (p ++ x :: r).
Proof.
  intros ->. rewrite buf_set_ok by (rewrite zlen_app, zlen_cons; pose proof (zlen_nonneg p); pose proof (zlen_nonneg r); lia).
  unfold zlen. rewrite Nat2Z.id. by rewrite insert_app_r_alt, Nat.sub_diag by lia.
Qed.

(** The octets of a register from the top. *)
Lemma octet_of c i j k : 0 <= i → 0 <= j → k = i + j → Z.land (Z.shiftr (Z.shiftr c i) j) 255 = (c / 2 ^ k) mod 256.
Proof.
  intros Hi Hj ->. rewrite Z.shiftr_shiftr by lia. change 255 with (Z.ones 8). rewrite Z.land_ones by lia. by rewrite Z.shiftr_div_pow2 by lia.
Qed.

Lemma octet_low c i : 0 <= i → Z.land (Z.shiftr c i) 255 = (c / 2 ^ i) mod 256.
Proof. intros Hi. change 255 with (Z.ones 8). rewrite Z.land_ones by lia. by rewrite Z.shiftr_div_pow2 by lia. Qed.

Lemma set_check3 {B} (p : bytes) y1 y2 y3 r c l (f : bytes → outcome B) :
  l = zlen p →
  (b ← buf_set (p ++ y1 :: y2 :: y3 :: r) l (Z.land (Z.shiftr (Z.shiftr c 8) 16) 255);
   b ← buf_set b (1 + l) (Z.land (Z.shiftr (Z.shiftr c 8) 8) 255);
   b ← buf_set b (2 + l) (Z.land (Z.shiftr c 8) 255); f b) = f (p ++ crc_octets 3 c ++ r).
Proof.
  intros ->. rewrite buf_set_split by done. cbn [mbind outcome_bind].
  rewrite (octet_of c 8 16 24), (octet_of c 8 8 16), (octet_low c 8) by lia.
  rewrite (cons_middle _ p), app_assoc, buf_set_split by (rewrite zlen_app, zlen_cons, zlen_nil; lia). cbn [mbind outcome_bind].
  rewrite (cons_middle _ (p ++ _)), app_assoc, buf_set_split by (rewrite !zlen_app, !zlen_cons, zlen_nil; lia). cbn [mbind outcome_bind].
  f_equal. by rewrite <- !app_assoc.
Qed.

Lemma set_check2 {B} (p : bytes) y1 y2 r c l (f : bytes → outcome B) :
  l = zlen p →
  (b ← buf_set (p ++ y1 :: y2 :: r) l (Z.land (Z.shiftr (Z.shiftr c 16) 8) 255);
   b ← buf_set b (1 + l) (Z.land (Z.shiftr c 16) 255); f b) = f (p ++ crc_octets 2 c ++ r).
Proof.
  intros ->. rewrite buf_set_split by done. cbn [mbind outcome_bind].
  rewrite (octet_of c 16 8 24), (octet_low c 16) by lia.
  rewrite (cons_middle _ p), app_assoc, buf_set_split by (rewrite zlen_app, zlen_cons, zlen_nil; lia). cbn [mbind outcome_bind].
  f_equal. by rewrite <- !app_assoc.
Qed.

Lemma fill_zero_ok n b k : 0 <= k → k + Z.of_nat n <= zlen b →
  ∃ b', fill_zero n b k = Ok b' ∧ zlen b' = zlen b ∧ take (Z.to_nat k) b' = take (Z.to_nat k) b.
Proof.
  revert b k. induction n as [|n IH]; intros b k Hk Hl; cbn [fill_zero]; [by exists b|].
  rewrite buf_set_ok by lia. cbn [mbind outcome_bind].
  destruct (IH (<[Z.to_nat k:=0]> b) (k + 1)) as (b' & -> & Hlen & Ht); [lia|zlen_lia|]. exists b'. split_and!; [done|rewrite Hlen; zlen_lia|].
  apply (f_equal (take (Z.to_nat k))) in Ht. rewrite !take_take, !Nat.min_l in Ht by lia. by rewrite Ht, take_insert_ge by lia.
Qed.

(** ** Checks *)

(** The routines on the octets at the start of a buffer. *)
Lemma lut_crc_octets poly tab sh d r :
  lut poly tab sh → Forall is_byte d → lut_crc tab sh true (d ++ r) (8 * zlen d) = Ok (crc_bits poly (buf_bits d)).
Proof.
  intros L Hd. apply lut_crc_app. pose proof (zlen_nonneg d). rewrite (lut_crc_ok poly) by (done || lia).
  do 2 f_equal. apply take_ge. rewrite length_buf_bits. unfold zlen. lia.
Qed.

(** The check that a block of [A] bits gets. *)
Definition block_poly (A : Z) : Z := if NR_MAX_PDSCH_TBS <? A then poly24a else poly16.
Definition block_octets (A : Z) : nat := if NR_MAX_PDSCH_TBS <? A then 3 else 2.
Definition checked_block (A : Z) (payload : bytes) : bytes :=
  payload ++ crc_octets (block_octets A) (crc_bits (block_poly A) (buf_bits payload)).

Lemma block_kind A : crc_kind (crcType 1 A) (block_poly A) (block_octets A).
Proof.
  unfold crc_kind, crcType, block_poly, block_octets. cbn. destruct (NR_MAX_PDSCH_TBS <? A); [by left|]. by right; right; left.
Qed.

Lemma checked_block_len A payload : 8 * zlen payload = A → 8 * zlen (checked_block A payload) = lenWithCrc 1 A.
Proof.
  intros HA. unfold checked_block. rewrite zlen_app. unfold zlen at 2. rewrite length_crc_octets.
  unfold lenWithCrc, block_octets. cbn. destruct (NR_MAX_PDSCH_TBS <? A); lia.
Qed.

Lemma checked_block_passes A payload :
  8 * zlen payload = A → Forall is_byte payload → A < 2 ^ 28 →
  check_crc (checked_block A payload) (lenWithCrc 1 A) (crcType 1 A) = Ok 1.
Proof.
  intros HA Hp Hmax. rewrite <- (checked_block_len A payload HA). unfold checked_block at 2. rewrite zlen_app.
  unfold zlen at 2. rewrite length_crc_octets. apply (crc_attached_passes _ _ _ _ (block_kind A)); [done|lia].
Qed.

Lemma checked_block_bytes A payload : Forall is_byte payload → Forall is_byte (checked_block A payload).
Proof. intros H. apply Forall_app. split; [done|apply crc_octets_bytes]. Qed.

Lemma attach_crc_ok A payload room max_bytes :
  8 * zlen payload = A → Forall is_byte payload → 4 <= zlen room → A / 8 + 4 <= max_bytes →
  ∃ x, x ∈ room ∧ attach_crc (payload ++ room) A max_bytes = Ok (checked_block A payload ++ [x], lenWithCrc 1 A).
Proof.
  intros HA Hp Hroom Hmax.
  destruct room as [|x1 [|x2 [|x3 [|x4 room]]]]; rewrite ?zlen_cons, ?zlen_nil in Hroom; try lia. clear Hroom.
  assert (Z.shiftr A 3 = zlen payload) as Hs. { rewrite Z.shiftr_div_pow2 by lia. symmetry. apply Z.div_unique_exact; lia. }
  assert (A / 8 = zlen payload) as Hd. { symmetry. apply Z.div_unique_exact; lia. }
  pose proof (zlen_nonneg payload) as Hlp.
  pose proof (checked_block_len A payload HA) as Hlen.
  unfold attach_crc, checked_block, lenWithCrc, block_octets, block_poly in *. rewrite Hs, Hd in *. cbn [Z.ltb Z.compare Pos.compare Pos.compare_cont] in *.
  destruct (NR_MAX_PDSCH_TBS <? A).
  - exists x4. split; [set_solver|]. unfold crc24a. rewrite <- HA at 1. rewrite (lut_crc_octets poly24a _ _ _ _ lut24a Hp). cbn [mbind outcome_bind]. cbv zeta.
    rewrite set_check3 by done. rewrite (proj2 (Z.leb_le _ _)) by lia. cbn [assert_fatal mbind outcome_bind].
    change (x4 :: room) with ([x4] ++ room). rewrite !app_assoc. by rewrite buf_sub_prefix_len by (rewrite zlen_app, zlen_cons, zlen_nil; lia).
  - exists x3. split; [set_solver|]. unfold crc16. rewrite <- HA at 1. rewrite (lut_crc_octets poly16 _ _ _ _ lut16 Hp). cbn [mbind outcome_bind]. cbv zeta.
    rewrite set_check2 by done. rewrite (proj2 (Z.leb_le _ _)) by lia. cbn [assert_fatal mbind outcome_bind].
    change (x3 :: x4 :: room) with ([x3] ++ x4 :: room). rewrite !app_assoc. by rewrite buf_sub_prefix_len by (rewrite zlen_app, zlen_cons, zlen_nil; lia).
Qed.

(** ** Segments *)

Definition seg_check (sg : segmentation) (d : bytes) : bytes :=
  if 1 <? seg_C sg then crc_octets 3 (crc_bits poly24b (buf_bits d)) else [].

(** A segment: its data, the check and whatever follows. *)
Definition is_segment (sg : segmentation) (d s : bytes) : Prop :=
  ∃ rest, s = d ++ seg_check sg d ++ rest ∧ seg_K sg / 8 <= zlen s.

Section segments.
Context (A BG : Z) (sg : segmentation) (l : Z).
Hypothesis He : exact_segments A BG sg.
Hypothesis Hl : seg_Kprime sg - seg_L sg = 8 * l.

Lemma seg_l_pos : 0 < l.
Proof. pose proof (es_L _ _ _ He). pose proof (es_Kprime _ _ _ He). destruct (1 <? seg_C sg); lia. Qed.

Lemma seg_shift : Z.shiftr (seg_Kprime sg - seg_L sg) 3 = l.
Proof. rewrite Hl, Z.shiftr_div_pow2 by lia. symmetry. by apply Z.div_unique_exact. Qed.

Lemma zlen_seg_check d : zlen (seg_check sg d) = if 1 <? seg_C sg then 3 else 0.
Proof. unfold seg_check. destruct (1 <? seg_C sg); [|done]. unfold zlen. by rewrite length_crc_octets. Qed.

Lemma seg_octets : seg_Kprime sg = 8 * (l + if 1 <? seg_C sg then 3 else 0).
Proof. pose proof (es_L _ _ _ He). destruct (1 <? seg_C sg); lia. Qed.

(** One segment filled. *)
Lemma fill_segment_ok input s out d :
  Forall is_byte d → buf_sub input s l = Ok d → zlen d = l → seg_K sg / 8 <= zlen out →
  ∃ o, fill_segment sg input s out = Ok o ∧ is_segment sg d o.
Proof.
  intros Hd Hsub Hdl Hout. unfold fill_segment. rewrite seg_shift. cbv zeta. rewrite Hsub. cbn [mbind outcome_bind].
  pose proof seg_l_pos as Hlp. pose proof seg_octets as Hoct. pose proof (es_Kprime _ _ _ He) as HK.
  assert (seg_Kprime sg / 8 = l + if 1 <? seg_C sg then 3 else 0) as HK8 by (symmetry; by apply Z.div_unique_exact).
  assert (seg_Kprime sg / 8 <= seg_K sg / 8) as HK8' by (apply Z.div_le_mono; lia).
  rewrite buf_write_ok by (destruct (1 <? seg_C sg); lia). cbn [mbind outcome_bind]. rewrite take_0, app_nil_l. set (r := drop _ out).
  assert (zlen r = zlen out - l) as Hr by (unfold r; rewrite zlen_drop; destruct (1 <? seg_C sg); lia).
  assert (∃ r', (if 1 <? seg_C sg
    then c ← crc24b (d ++ r) (seg_Kprime sg - seg_L sg);
         out ← buf_set (d ++ r) l (Z.land (Z.shiftr (Z.shiftr c 8) 16) 255);
         out ← buf_set out (1 + l) (Z.land (Z.shiftr (Z.shiftr c 8) 8) 255);
         buf_set out (2 + l) (Z.land (Z.shiftr c 8) 255)
    else Ok (d ++ r)) = Ok (d ++ seg_check sg d ++ r') ∧ zlen (d ++ seg_check sg d ++ r') = zlen out) as (r' & -> & Hz).
  { unfold seg_check. destruct (1 <? seg_C sg); [|exists r; split; [done|rewrite app_nil_l, zlen_app; lia]].
    destruct r as [|y1 [|y2 [|y3 r]]]; rewrite ?zlen_cons, ?zlen_nil in Hr; try lia. exists r.
    rewrite Hl, <- Hdl. unfold crc24b. rewrite (lut_crc_octets poly24b _ _ _ _ lut24b Hd). cbn [mbind outcome_bind]. cbv zeta. split.
    - pose proof (set_check3 d y1 y2 y3 r (crc_bits poly24b (buf_bits d)) (zlen d) Ok eq_refl) as Hs.
      rewrite <- Hs. cbn [mbind outcome_bind]. destruct (buf_set _ _ _) as [b| | |]; [|done..]. cbn [mbind outcome_bind].
      destruct (buf_set _ _ _) as [b'| | |]; [|done..]. cbn [mbind outcome_bind]. by destruct (buf_set _ _ _).
    - rewrite !zlen_app. unfold zlen at 2. rewrite length_crc_octets. lia. }
  cbn [mbind outcome_bind]. destruct (0 <? seg_F sg); [|eexists; split; [done|]; exists r'; split; [done|lia]].
  rewrite !Z.shiftr_div_pow2 by lia. change (2 ^ 3) with 8.
  destruct (fill_zero_ok (Z.to_nat (seg_K sg / 8 - seg_Kprime sg / 8)) (d ++ seg_check sg d ++ r') (seg_Kprime sg / 8)) as (o & -> & Hzo & Ht); [destruct (1 <? seg_C sg); lia|lia|].
  exists o. split; [done|]. exists (drop (Z.to_nat (seg_Kprime sg / 8)) o). split; [|lia].
  rewrite <- (take_drop (Z.to_nat (seg_Kprime sg / 8)) o) at 1. rewrite Ht, !app_assoc. f_equal.
  apply take_app_length'. pose proof (zlen_seg_check d). rewrite length_app. unfold zlen in *. destruct (1 <? seg_C sg); lia.
Qed.

(** The input in pieces of [l] octets. *)
Fixpoint pieces (n : nat) (input : bytes) : list bytes :=
  match n with O => [] | S n => take (Z.to_nat l) input :: pieces n (drop (Z.to_nat l) input) end.

Lemma concat_pieces n input : concat (pieces n input) = take (n * Z.to_nat l) input.
Proof.
  revert input. induction n as [|n IH]; intros input; cbn [pieces concat Nat.mul]; [done|]. by rewrite IH, take_take_drop.
Qed.

Lemma fill_segments_ok n input s outs :
  Forall is_byte input → 0 <= s → s + Z.of_nat n * l <= zlen input → (n <= length outs)%nat →
  Forall (λ o, seg_K sg / 8 <= zlen o) outs →
  ∃ segs, fill_segments n sg input s outs = Ok (segs ++ drop n outs) ∧
          Forall2 (is_segment sg) (pieces n (drop (Z.to_nat s) input)) segs.
Proof.
  intros Hb. pose proof seg_l_pos as Hlp. revert s outs. induction n as [|n IH]; intros s outs Hs Hin Hn Ho; cbn [fill_segments pieces].
  { exists []. split; [by rewrite drop_0|constructor]. }
  destruct outs as [|out outs]; [cbn in Hn; lia|]. inversion_clear Ho as [|? ? Ho1 Ho2]. rewrite seg_shift.
  set (d := take (Z.to_nat l) (drop (Z.to_nat s) input)).
  destruct (fill_segment_ok input s out d) as (o & -> & Hseg).
  { by apply Forall_take, Forall_drop. }
  { apply buf_sub_ok; lia. }
  { unfold d. rewrite zlen_take; [done|]. rewrite zlen_drop by lia. lia. }
  { done. }
  cbn [mbind outcome_bind]. destruct (IH (s + l) outs) as (segs & -> & Hsegs); [lia|lia|cbn in Hn; lia|done|].
  cbn [mbind outcome_bind]. exists (o :: segs). split; [done|]. constructor; [done|].
  rewrite drop_drop. by replace (Z.to_nat s + Z.to_nat l)%nat with (Z.to_nat (s + l)) by lia.
Qed.

(** What the receiver joins. *)
Lemma join_segments_ok ds segs pre :
  Forall2 (is_segment sg) ds segs → Forall (λ d, zlen d = l) ds →
  join_segments (length ds) l (seg_K sg / 8) (pre ++ concat (take (Z.to_nat (seg_K sg / 8)) <$> segs)) (zlen pre) = Ok (concat ds).
Proof.
  intros H. pose proof seg_l_pos as Hlp. pose proof (es_Kprime _ _ _ He) as HK. pose proof seg_octets as Hoct.
  assert (l <= seg_K sg / 8) as HlK. { apply Z.div_le_lower_bound; [lia|]. destruct (1 <? seg_C sg); lia. }
  revert pre. induction H as [|d s ds segs (rest & -> & Hz) H IH]; intros pre Hd; cbn [length join_segments concat fmap list_fmap]; [done|].
  inversion_clear Hd as [|? ? Hd1 Hd2]. set (t := take (Z.to_nat (seg_K sg / 8)) (d ++ seg_check sg d ++ rest)).
  assert (zlen t = seg_K sg / 8) as Ht by (unfold t; apply zlen_take; lia).
  assert (take (Z.to_nat l) t = d) as Htd.
  { unfold t. rewrite take_take, Nat.min_l by lia. apply take_app_length'. unfold zlen in Hd1. lia. }
  rewrite buf_sub_ok; [|apply zlen_nonneg|lia|rewrite !zlen_app; pose proof (zlen_nonneg (concat (take (Z.to_nat (seg_K sg / 8)) <$> segs))); lia].
  assert (drop (Z.to_nat (zlen pre)) (pre ++ t ++ concat (take (Z.to_nat (seg_K sg / 8)) <$> segs))
          = t ++ concat (take (Z.to_nat (seg_K sg / 8)) <$> segs)) as ->.
  { apply drop_app_length'. unfold zlen. lia. }
  rewrite take_app_le by (unfold zlen in Ht; lia). rewrite Htd. cbn [mbind outcome_bind].
  rewrite app_assoc. replace (zlen pre + seg_K sg / 8) with (zlen (pre ++ t)) by (rewrite zlen_app; lia).
  by rewrite IH.
Qed.

Lemma pieces_len n input : Z.of_nat n * l <= zlen input → Forall (λ d, zlen d = l) (pieces n input).
Proof.
  pose proof seg_l_pos. revert input. induction n as [|n IH]; intros input Hi; cbn [pieces]; constructor.
  - apply zlen_take. lia.
  - apply IH. rewrite zlen_drop by lia. lia.
Qed.

Lemma length_pieces n input : length (pieces n input) = n.
Proof. revert input. induction n as [|n IH]; intros; [done|]. cbn. by rewrite IH. Qed.

Lemma pieces_bytes n input : Forall is_byte input → Forall (Forall is_byte) (pieces n input).
Proof. revert input. induction n as [|n IH]; intros input Hi; constructor; [by apply Forall_take|]. by apply IH, Forall_drop. Qed.

(** One of several segments passes its check. *)
Lemma segment_passes d s :
  1 < seg_C sg → is_segment sg d s → Forall is_byte d → zlen d = l → l < 2 ^ 27 →
  check_crc (take (Z.to_nat (seg_K sg / 8)) s) (seg_Kprime sg) CRC24_B = Ok 1.
Proof.
  intros HC (rest & -> & Hz) Hd Hdl Hmax. pose proof seg_octets as Hoct. pose proof (es_Kprime _ _ _ He) as HK. pose proof seg_l_pos as Hlp.
  rewrite (proj2 (Z.ltb_lt _ _) HC) in Hoct.
  assert (l + 3 <= seg_K sg / 8) as HlK by (apply Z.div_le_lower_bound; lia).
  rewrite app_assoc, take_app_ge.
  2:{ rewrite length_app. pose proof (zlen_seg_check d) as Hzc. rewrite (proj2 (Z.ltb_lt _ _) HC) in Hzc. unfold zlen in *. lia. }
  apply check_crc_app. unfold seg_check. rewrite (proj2 (Z.ltb_lt _ _) HC), Hoct, <- Hdl.
  apply (crc_attached_passes CRC24_B poly24b 3); [by right; left|done|lia].
Qed.
End segments.

(** ** The link *)

Lemma segments_of A BG sg b outs :
  segmentation_sizes (lenWithCrc 1 A) BG = Ok sg → exact_segments A BG sg →
  Forall is_byte b → lenWithCrc 1 A <= 8 * zlen b → seg_C sg <= zlen outs → Forall (λ o, 1056 <= zlen o) outs →
  ∃ l segs, seg_Kprime sg - seg_L sg = 8 * l ∧ seg_C sg * l <= zlen b ∧
    nr_segmentation (Some (b, outs)) (lenWithCrc 1 A) BG = Ok (sg, segs) ∧
    Forall2 (is_segment sg) (pieces l (Z.to_nat (seg_C sg)) b) (take (Z.to_nat (seg_C sg)) segs).
Proof.
  intros Hsz He Hb Hlen Hn Ho. destruct (es_octets _ _ _ He) as [k Hk]. pose proof (es_L _ _ _ He) as HL.
  pose proof (es_split _ _ _ He) as Hsp. pose proof (es_C _ _ _ He) as HC.
  assert (∃ l, seg_Kprime sg - seg_L sg = 8 * l) as [l Hl].
  { destruct (1 <? seg_C sg); [exists (k - 3)|exists k]; lia. }
  destruct (fill_segments_ok A BG sg l He Hl (Z.to_nat (seg_C sg)) b 0 outs) as (segs & Hf & H2); [done|lia|lia|unfold zlen in Hn; lia| |].
  { eapply Forall_impl; [exact Ho|]. intros o Hz. pose proof (es_max _ _ _ He) as Hm. cbn beta in Hz.
    etrans; [|exact Hz]. apply Z.div_le_upper_bound; [lia|]. destruct (BG =? 1); lia. }
  exists l, (segs ++ drop (Z.to_nat (seg_C sg)) outs). split_and!; [done|lia| |].
  - unfold nr_segmentation. rewrite Hsz. cbn [mbind outcome_bind]. by rewrite Hf.
  - rewrite take_app_length'; [exact H2|]. apply Forall2_length in H2. by rewrite length_pieces in H2.
Qed.

Lemma seg_C_sizes B BG sg : segmentation_sizes B BG = Ok sg → seg_C sg = get_C B (if BG =? 1 then 8448 else 3840).
Proof. unfold segmentation_sizes. cbv zeta. intros H. apply bind_ok_inv in H as (z & _ & H). by injection H as <-. Qed.

Lemma regroup_ok A BG sg l b segs :
  exact_segments A BG sg → seg_Kprime sg - seg_L sg = 8 * l → seg_C sg * l <= zlen b →
  Forall2 (is_segment sg) (pieces l (Z.to_nat (seg_C sg)) b) segs →
  regroup sg (concat (take (Z.to_nat (seg_K sg / 8)) <$> segs)) = Ok (take (Z.to_nat (seg_C sg) * Z.to_nat l) b).
Proof.
  intros He Hl Hcl H2. pose proof (es_C _ _ _ He) as HC. pose proof (es_Kprime _ _ _ He) as HK. pose proof (es_F _ _ _ He) as HF.
  pose proof (seg_octets A BG sg l He Hl) as Hoct. unfold regroup. cbv zeta.
  rewrite !Z.quot_div_nonneg by lia. replace (seg_K sg - seg_F sg) with (seg_Kprime sg) by lia.
  rewrite <- (Z.div_unique_exact (seg_Kprime sg) 8 (l + if 1 <? seg_C sg then 3 else 0)) by (done || lia).
  rewrite Z.add_simpl_r.
  pose proof (join_segments_ok A BG sg l He Hl _ _ [] H2) as Hj. rewrite length_pieces in Hj.
  rewrite <- concat_pieces. apply Hj. apply (pieces_len A BG sg l He Hl). lia.
Qed.

(** Every segment passes its check. *)
Lemma decoded_pass A BG sg l payload x segs :
  exact_segments A BG sg → seg_Kprime sg - seg_L sg = 8 * l → 8 * zlen payload = A → Forall is_byte payload → is_byte x → A < 2 ^ 26 →
  Forall2 (is_segment sg) (pieces l (Z.to_nat (seg_C sg)) (checked_block A payload ++ [x])) segs →
  Forall (λ s, check_crc s (lenWithCrc (seg_C sg) A) (crcType (seg_C sg) A) = Ok 1) (take (Z.to_nat (seg_K sg / 8)) <$> segs).
Proof.
  intros He Hl Hp Hpb Hx HA H2. set (b := checked_block A payload ++ [x]) in *.
  pose proof (es_split _ _ _ He) as Hsp. pose proof (es_C _ _ _ He) as HC. pose proof (seg_l_pos A BG sg l He Hl) as Hlp.
  pose proof (checked_block_len A payload Hp) as HBl. rewrite Hl in Hsp.
  assert (zlen b = zlen (checked_block A payload) + 1) as Hzb by (unfold b; by rewrite zlen_app).
  assert (Forall is_byte b) as Hbb by (apply Forall_app; split; [by apply checked_block_bytes|by constructor]).
  assert (lenWithCrc 1 A <= A + 24) as Hle by (unfold lenWithCrc; cbn; destruct (_ <? _); lia).
  rewrite <- (es_len _ _ _ He). destruct (decide (1 < seg_C sg)) as [H1|H1].
  - unfold crcType. rewrite (proj2 (Z.ltb_lt _ _) H1). apply Forall_fmap.
    pose proof (pieces_len A BG sg l He Hl (Z.to_nat (seg_C sg)) b ltac:(lia)) as Hpl.
    pose proof (pieces_bytes l (Z.to_nat (seg_C sg)) b Hbb) as Hpby.
    induction H2 as [|d s ds ss Hseg H2 IH]; constructor; inversion_clear Hpl; inversion_clear Hpby; [|by apply IH].
    cbn. eapply (segment_passes A BG sg l He Hl); [done..|nia].
  - assert (seg_C sg = 1) as HC1 by lia. rewrite HC1 in H2 |- *. change (Z.to_nat 1) with 1%nat in H2. cbn [pieces] in H2.
    apply Forall2_cons_inv_l in H2 as (s & ss & (rest & -> & Hz) & ->%Forall2_nil_inv_l & ->). constructor; [|constructor].
    assert (take (Z.to_nat l) b = checked_block A payload) as -> by (unfold b; apply take_app_length'; unfold zlen in *; lia).
    unfold seg_check. rewrite HC1. cbn [Z.ltb Z.compare Pos.compare Pos.compare_cont]. rewrite app_nil_l.
    pose proof (es_Kprime _ _ _ He) as HK. pose proof (es_len _ _ _ He) as Hlen. rewrite HC1 in Hlen.
    assert (zlen (checked_block A payload) <= seg_K sg / 8) by (apply Z.div_le_lower_bound; lia).
    rewrite take_app_ge by (unfold zlen in *; lia). apply check_crc_app. rewrite Hlen. apply checked_block_passes; [done|done|lia].
Qed.

(** C5: a transport block reaches the other side: for every size that [nr_compute_tbs] gives
    and every payload of that size, attaching the check and segmentation succeed; if the
    decoder returns the [K / 8] octets of each segment, every one of them passes the check
    with the length and the type that the receiver derives from the number of segments and the
    size; joined, they form a block that passes the check of the whole and starts with the
    payload. *)
Theorem transport_block_received Qm R nb_rb nb_symb_sch nb_dmrs_prb nb_rb_oh tb_scaling Nl A payload room max_bytes outs :
  0 <= tb_scaling → A = nr_compute_tbs Qm R nb_rb nb_symb_sch nb_dmrs_prb nb_rb_oh tb_scaling Nl → A ≠ 0 →
  8 * zlen payload = A → Forall is_byte (payload ++ room) → 4 <= zlen room → A / 8 + 4 <= max_bytes →
  get_C (lenWithCrc 1 A) (if get_BG A R =? 1 then 8448 else 3840) <= zlen outs → Forall (λ o, 1056 <= zlen o) outs →
  ∃ b sg segs block,
    attach_crc (payload ++ room) A max_bytes = Ok (b, lenWithCrc 1 A) ∧
    nr_segmentation (Some (b, outs)) (lenWithCrc 1 A) (get_BG A R) = Ok (sg, segs) ∧
    let decoded := take (Z.to_nat (seg_K sg / 8)) <$> take (Z.to_nat (seg_C sg)) segs in
    Forall (λ s, check_crc s (lenWithCrc (seg_C sg) A) (crcType (seg_C sg) A) = Ok 1) decoded ∧
    regroup sg (concat decoded) = Ok block ∧
    check_crc block (lenWithCrc 1 A) (crcType 1 A) = Ok 1 ∧
    take (Z.to_nat (A / 8)) block = payload.
Proof.
  intros Hs HA HA0 Hp Hb Hroom Hmax Hn Ho. apply Forall_app in Hb as [Hpb Hrb].
  assert (tbs_shape (R <=? 2560) A) as Hsh by (subst A; by apply nr_compute_tbs_shape). clear HA.
  destruct (shape_segments R A Hsh) as (_ & HAr & sg & Hsz & He).
  destruct (attach_crc_ok A payload room max_bytes Hp Hpb Hroom Hmax) as (x & Hx & Hatt).
  assert (is_byte x) as Hxb by (rewrite Forall_forall in Hrb; by apply Hrb).
  pose proof (checked_block_len A payload Hp) as HBl. pose proof (es_split _ _ _ He) as Hsp.
  pose proof (es_C _ _ _ He) as HC. set (b := checked_block A payload ++ [x]).
  assert (zlen b = zlen (checked_block A payload) + 1) as Hzb by (unfold b; by rewrite zlen_app).
  destruct (segments_of A (get_BG A R) sg b outs Hsz He) as (l & segs & Hl & Hcl & Hseg & H2); [|lia| |done|].
  { apply Forall_app; split; [by apply checked_block_bytes|by constructor]. }
  { by rewrite (seg_C_sizes _ _ _ Hsz). }
  pose proof (seg_l_pos A _ sg l He Hl) as Hlp. rewrite Hl in Hsp. exists b, sg, segs, (checked_block A payload).
  cbv zeta. split_and!; [exact Hatt|exact Hseg|apply (decoded_pass A (get_BG A R) sg l payload x); (done || lia)|..].
  - rewrite (regroup_ok A (get_BG A R) sg l b _ He Hl Hcl H2). unfold b. f_equal. apply take_app_length'. unfold zlen in *. lia.
  - apply checked_block_passes; [done|done|lia].
  - unfold checked_block. apply take_app_length'. subst A. rewrite Z.mul_comm, Z.div_mul by lia. unfold zlen. lia.
Qed.

Lemma transport_block_received_witness :
  nr_compute_tbs 2 1200 4 12 12 0 0 1 = 120 ∧
  ∃ b sg segs,
    attach_crc (seqZ 10 15 ++ [0; 0; 0; 0]) 120 19 = Ok (b, 136) ∧
    nr_segmentation (Some (b, [replicate 1056 7])) 136 2 = Ok (sg, segs).
Proof.
  split; [reflexivity|].
  destruct (transport_block_received 2 1200 4 12 12 0 0 1 120 (seqZ 10 15) [0; 0; 0; 0] 19 [replicate 1056 7])
    as (b & sg & segs & block & H1 & H2 & _).
  - lia.
  - reflexivity.
  - lia.
  - reflexivity.
  - vm_compute. repeat constructor; discriminate.
  - vm_compute. discriminate.
  - vm_compute. discriminate.
  - vm_compute. discriminate.
  - constructor; [vm_compute; discriminate|constructor].
  - exists b, sg, segs. split; [exact H1|exact H2].
Defined.
