(* ===== verification/Snow3g.v ===== *)
(** * Snow 3G

    Models [openair3/SECU/snow3g.c]: the shift register kept in an array of twice its size,
    the finite state machine with its tables, the key stream, the ciphering EEA1 / NEA1 and
    the integrity algorithm EIA1 / NIA1 built on them. Words are numbers below [2^32]. *)

From S2P Require Import Prelude Snow3gTables.

(** ** State *)

(** [s] is a pointer into [_s]: its offset. *)
Record snow3g_t := mk_snow3g { _s : list Z; s_off : Z; r1 : Z; r2 : Z; r3 : Z }.

(** [s->s[i]] *)
Definition s_get (s : snow3g_t) (i : Z) : outcome Z := buf_get (_s s) (s_off s + i).

(** Octet [i] of a word, 0 the lowest. *)
Definition octet (w i : Z) : Z := Z.land (Z.shiftr w (8 * i)) 255.

(** Entry of a table of 256; every index has 8 bits. *)
Definition entry (tab : list Z) (i : Z) : Z := nth (Z.to_nat i) tab 0.

Definition s1 (w : Z) : Z :=
  Z.lxor (Z.lxor (Z.lxor (entry s1_t0 (octet w 0)) (entry s1_t1 (octet w 1))) (entry s1_t2 (octet w 2))) (entry s1_t3 (octet w 3)).
Definition s2 (w : Z) : Z :=
  Z.lxor (Z.lxor (Z.lxor (entry s2_t0 (octet w 0)) (entry s2_t1 (octet w 1))) (entry s2_t2 (octet w 2))) (entry s2_t3 (octet w 3)).

Definition MULa (c : Z) : Z := entry mula c.
Definition DIVa (c : Z) : Z := entry diva c.

(** ** One step *)

(** The word shifted in, without [f]. *)
Definition lfsr_feedback (s : snow3g_t) : outcome Z :=
  s0 ← s_get s 0; s2 ← s_get s 2; s11 ← s_get s 11;
  let v0 := Z.lor (Z.lor (Z.shiftl (octet s0 2) 24) (Z.shiftl (octet s0 1) 16)) (Z.shiftl (octet s0 0) 8) in
  let v11 := Z.lor (Z.lor (Z.shiftl (octet s11 3) 16) (Z.shiftl (octet s11 2) 8)) (octet s11 1) in
  Ok (Z.lxor (Z.lxor (Z.lxor (Z.lxor v0 (MULa (octet s0 3))) s2) v11) (DIVa (octet s11 0))).

(** The word is written where the first one was and 16 further, and the pointer moved. *)
Definition lfsr_push (s : snow3g_t) (v : Z) : outcome snow3g_t :=
  a ← buf_set (_s s) (s_off s) v;
  a ← buf_set a (s_off s + 16) v;
  let o := s_off s + 1 in
  Ok (mk_snow3g a (if o =? 16 then 0 else o) (r1 s) (r2 s) (r3 s)).

Definition lfsr_init (s : snow3g_t) (f : Z) : outcome snow3g_t :=
  v ← lfsr_feedback s; lfsr_push s (Z.lxor v f).
Definition lfsr_keystream (s : snow3g_t) : outcome snow3g_t :=
  v ← lfsr_feedback s; lfsr_push s v.

Definition clock_fsm (s : snow3g_t) : outcome (Z * snow3g_t) :=
  s15 ← s_get s 15; s5 ← s_get s 5;
  let f := Z.lxor (u32 (s15 + r1 s)) (r2 s) in
  let r := u32 (r2 s + Z.lxor (r3 s) s5) in
  Ok (f, mk_snow3g (_s s) (s_off s) r (s1 (r1 s)) (s2 (r2 s))).

(** ** Initialisation and key stream *)

Definition GET32 (b : bytes) (off : Z) : outcome Z :=
  b0 ← buf_get b off; b1 ← buf_get b (off + 1); b2 ← buf_get b (off + 2); b3 ← buf_get b (off + 3);
  Ok (Z.lor (Z.lor (Z.lor (Z.shiftl b0 24) (Z.shiftl b1 16)) (Z.shiftl b2 8)) b3).

Definition init_step (s : snow3g_t) : outcome snow3g_t := '(f, s) ← clock_fsm s; lfsr_init s f.

Fixpoint init_loop (n : nat) (s : snow3g_t) : outcome snow3g_t :=
  match n with O => Ok s | S n => s ← init_step s; init_loop n s end.

(** [mem]: what the upper half of the array, which is not initialised, holds. *)
Definition snow3g_init (mem : list Z) (k_ iv_ : bytes) : outcome snow3g_t :=
  k0 ← GET32 k_ 0; k1 ← GET32 k_ 4; k2 ← GET32 k_ 8; k3 ← GET32 k_ 12;
  iv0 ← GET32 iv_ 0; iv1 ← GET32 iv_ 4; iv2 ← GET32 iv_ 8; iv3 ← GET32 iv_ 12;
  let one := 0xffffffff in
  let w := [Z.lxor k0 one; Z.lxor k1 one; Z.lxor k2 one; Z.lxor k3 one; k0; k1; k2; k3; Z.lxor k0 one;
            Z.lxor (Z.lxor k1 one) iv3; Z.lxor (Z.lxor k2 one) iv2; Z.lxor k3 one; Z.lxor k0 iv1; k1; k2; Z.lxor k3 iv0] in
  s ← init_loop 32 (mk_snow3g (w ++ mem) 0 0 0 0);
  '(_, s) ← clock_fsm s;
  lfsr_keystream s.

Definition generate_keystream_step (s : snow3g_t) : outcome (Z * snow3g_t) :=
  '(f, s) ← clock_fsm s;
  s0 ← s_get s 0;
  let ret := Z.lxor f s0 in
  s ← lfsr_keystream s;
  Ok (ret, s).

Fixpoint keystream (n : nat) (s : snow3g_t) : outcome (list Z) :=
  match n with
  | O => Ok []
  | S n => '(z, s) ← generate_keystream_step s; zs ← keystream n s; Ok (z :: zs)
  end.

(** ** Ciphering *)

(** The words of the key in opposite order. *)
Definition load_key (key : bytes) : outcome bytes :=
  a ← buf_sub key 12 4; b ← buf_sub key 8 4; c ← buf_sub key 4 4; d ← buf_sub key 0 4;
  Ok (a ++ b ++ c ++ d).

Definition octets32 (w : Z) : bytes := [octet w 3; octet w 2; octet w 1; octet w 0].

Definition cipher_iv (count bearer direction : Z) : bytes :=
  let b := u8 (Z.lor (Z.shiftl bearer 3) (Z.shiftl direction 2)) in
  [b; 0; 0; 0] ++ octets32 count ++ [b; 0; 0; 0] ++ octets32 count.

Fixpoint xor_loop (n : nat) (i : Z) (in_ ks : bytes) : outcome bytes :=
  match n with
  | O => Ok []
  | S n => x ← buf_get in_ i; k ← buf_get ks i; l ← xor_loop n (i + 1) in_ ks; Ok (Z.lxor x k :: l)
  end.

Definition snow3g_ciphering (mem : list Z) (count bearer direction : Z) (key : bytes) (length : Z) (in_ : bytes) : outcome bytes :=
  k ← load_key key;
  s ← snow3g_init mem k (cipher_iv count bearer direction);
  let keystream_count := u32 (length + 3) / 4 in
  ks ← keystream (Z.to_nat keystream_count) s;
  xor_loop (Z.to_nat length) 0 in_ (flat_map octets32 ks).

(** ** Integrity *)

Definition GET64 (p : bytes) (off available_bytes : Z) : outcome Z :=
  let byte i := if i <? available_bytes then buf_get p (off + i) else Ok 0 in
  a ← byte 0; b ← byte 1; c ← byte 2; d ← byte 3; e ← byte 4; f ← byte 5; g ← byte 6; h ← byte 7;
  Ok (Z.lor (Z.lor (Z.lor (Z.lor (Z.lor (Z.lor (Z.lor (Z.shiftl a 56) (Z.shiftl b 48)) (Z.shiftl c 40)) (Z.shiftl d 32))
       (Z.shiftl e 24)) (Z.shiftl f 16)) (Z.shiftl g 8)) h).

Definition MULx64 (v c : Z) : Z :=
  if Z.testbit v 63 then Z.lxor (u64 (Z.shiftl v 1)) c else u64 (Z.shiftl v 1).

Fixpoint MULxPOW64 (v : Z) (i : nat) (c : Z) : Z :=
  match i with O => v | S i => MULx64 (MULxPOW64 v i c) c end.

Fixpoint MUL64_loop (n : nat) (v p c : Z) : Z :=
  match n with
  | O => 0
  | S n => let result := MUL64_loop n v p c in
           if Z.testbit p (Z.of_nat n) then Z.lxor result (MULxPOW64 v n c) else result
  end.

Definition MUL64 (v p c : Z) : Z := MUL64_loop 64 v p c.

(** [pm[i][j]] of the table of 8 rows of 256. *)
Definition pm_get (pm : list Z) (i j : Z) : outcome Z := buf_get pm (256 * i + j).
Definition pm_set (pm : list Z) (i j v : Z) : outcome (list Z) := buf_set pm (256 * i + j) v.

Fixpoint pm_zero (n : nat) (i : Z) (pm : list Z) : outcome (list Z) :=
  match n with O => Ok pm | S n => pm ← pm_set pm i 0 0; pm_zero n (i + 1) pm end.

(** The cell [(a', b')] from [(a, b)]: times [X]. *)
Definition pm_power (pm : list Z) (a b a' b' : Z) : outcome (list Z) :=
  x ← pm_get pm a b;
  pm ← pm_set pm a' b' (u64 (Z.shiftl x 1));
  x ← pm_get pm a b;
  if Z.testbit x 63 then y ← pm_get pm a' b'; pm_set pm a' b' (Z.lxor y 0x1b) else Ok pm.

Fixpoint pm_powers (n : nat) (i : Z) (pm : list Z) : outcome (list Z) :=
  match n with
  | O => Ok pm
  | S n =>
      let j := i - 1 in
      pm ← pm_power pm (Z.shiftr j 3) (Z.shiftl 1 (Z.land j 7)) (Z.shiftr i 3) (Z.shiftl 1 (Z.land i 7));
      pm_powers n (i + 1) pm
  end.

Fixpoint pm_sums_k (n : nat) (i j k : Z) (pm : list Z) : outcome (list Z) :=
  match n with
  | O => Ok pm
  | S n =>
      x ← pm_get pm i (Z.shiftl 1 j); y ← pm_get pm i k;
      pm ← pm_set pm i (Z.shiftl 1 j + k) (Z.lxor x y);
      pm_sums_k n i j (k + 1) pm
  end.

Fixpoint pm_sums_j (n : nat) (i j : Z) (pm : list Z) : outcome (list Z) :=
  match n with
  | O => Ok pm
  | S n => pm ← pm_sums_k (Z.to_nat (Z.shiftl 1 j - 1)) i j 1 pm; pm_sums_j n i (j + 1) pm
  end.

Fixpoint pm_sums (n : nat) (i : Z) (pm : list Z) : outcome (list Z) :=
  match n with O => Ok pm | S n => pm ← pm_sums_j 7 i 1 pm; pm_sums n (i + 1) pm end.

(** The table of the products with [p]; [mem] is what the array holds before. *)
Definition pm_table (mem : list Z) (p : Z) : outcome (list Z) :=
  pm ← pm_zero 8 0 mem;
  pm ← pm_set pm 0 1 p;
  pm ← pm_powers 63 1 pm;
  pm_sums 8 0 pm.

Fixpoint mul_p_loop (n : nat) (i : Z) (pm : list Z) (x acc : Z) : outcome Z :=
  match n with
  | O => Ok acc
  | S n => y ← pm_get pm i (octet x i); mul_p_loop n (i + 1) pm x (Z.lxor acc y)
  end.
Definition mul_p (pm : list Z) (x : Z) : outcome Z := mul_p_loop 8 0 pm x 0.

Fixpoint eval_loop (n : nat) (i : Z) (pm : list Z) (in_ : bytes) (eval : Z) : outcome Z :=
  match n with
  | O => Ok eval
  | S n => m ← GET64 in_ (i * 8) 8; eval ← mul_p pm (Z.lxor eval m); eval_loop n (i + 1) pm in_ eval
  end.

Definition integrity_iv (count fresh direction : Z) : bytes :=
  let dir := Z.shiftl (Z.land direction 1) 7 in
  [octet fresh 3; octet fresh 2; Z.lxor (octet fresh 1) dir; octet fresh 0] ++
  [Z.lxor (octet count 3) dir; octet count 2; octet count 1; octet count 0] ++
  octets32 fresh ++ octets32 count.

Definition _snow3g_integrity (mem pm_mem : list Z) (count fresh direction : Z) (key : bytes) (length : Z) (in_ : bytes) : outcome bytes :=
  k ← load_key key;
  s ← snow3g_init mem k (integrity_iv count fresh direction);
  z ← keystream 5 s;
  match z with
  | [z0; z1; z2; z3; z4] =>
      let d := Z.quot (length * 8 + 63) 64 + 1 in
      let p := Z.lor (Z.shiftl z0 32) z1 in
      let q := Z.lor (Z.shiftl z2 32) z3 in
      let otp := z4 in
      pm ← pm_table pm_mem p;
      eval ← eval_loop (Z.to_nat (d - 2)) 0 pm in_ 0;
      m ← GET64 in_ ((d - 2) * 8) (Z.min 8 (length - (d - 2) * 8));
      eval ← mul_p pm (Z.lxor eval m);
      let eval := Z.lxor eval (u64 (length * 8)) in
      let eval := MUL64 eval q 0x1b in
      let eval := Z.shiftr eval 32 in
      let eval := Z.lxor eval otp in
      Ok (octets32 eval)
  | _ => Undef
  end.

Definition snow3g_integrity (mem pm_mem : list Z) (count bearer direction : Z) (key : bytes) (length : Z) (in_ : bytes) : outcome bytes :=
  _snow3g_integrity mem pm_mem count (u32 (Z.shiftl bearer 27)) direction key length in_.
