(* ===== verification/Snow3gSpec.v ===== *)
(** * Snow 3G as specified

    The reference the code is compared with: ETSI/SAGE "Specification of the 3GPP
    confidentiality and integrity algorithms UEA2 & UIA2", documents 1 and 2. The boxes are
    defined by the algebra behind them: S_R by inversion in the field of Rijndael, S_Q by a
    Dickson polynomial. *)

From S2P Require Import Prelude.

(** ** Fields of 256 elements *)

Definition MULx (V c : Z) : Z := if Z.testbit V 7 then Z.lxor (u8 (Z.shiftl V 1)) c else u8 (Z.shiftl V 1).
Fixpoint MULxPOW (V : Z) (i : nat) (c : Z) : Z := match i with O => V | S i => MULx (MULxPOW V i c) c end.

(** Product and powers modulo [X^8 + c]. *)
Definition gf_mul (c a b : Z) : Z :=
  fold_left (λ acc i, if Z.testbit b (Z.of_nat i) then Z.lxor acc (MULxPOW a i c) else acc) (seq 0 8) 0.
Fixpoint gf_pow (c a : Z) (n : positive) : Z :=
  match n with
  | xH => a
  | xO n => let b := gf_pow c a n in gf_mul c b b
  | xI n => let b := gf_pow c a n in gf_mul c a (gf_mul c b b)
  end.

Definition rotl8 (x n : Z) : Z := Z.lor (u8 (Z.shiftl x n)) (Z.shiftr x (8 - n)).

(** The box of Rijndael: the inverse, then an affine map. *)
Definition SR (x : Z) : Z :=
  let b := gf_pow 0x1B x 254 in
  Z.lxor (Z.lxor (Z.lxor (Z.lxor (Z.lxor b (rotl8 b 1)) (rotl8 b 2)) (rotl8 b 3)) (rotl8 b 4)) 0x63.

(** [x + x^9 + x^13 + x^15 + x^33 + x^41 + x^45 + x^47 + x^49 + 0x25] *)
Definition SQ (x : Z) : Z :=
  fold_left (λ acc n, Z.lxor acc (gf_pow 0x69 x n)) [1; 9; 13; 15; 33; 41; 45; 47; 49]%positive 0x25.

(** ** Words *)

Definition word (a b c d : Z) : Z := Z.lor (Z.lor (Z.lor (Z.shiftl a 24) (Z.shiftl b 16)) (Z.shiftl c 8)) d.
Definition word_octet (w i : Z) : Z := Z.land (Z.shiftr w (24 - 8 * i)) 255.

(** The box applied to each octet, the column mixed. *)
Definition mix (box : Z → Z) (c w : Z) : Z :=
  let b0 := box (word_octet w 0) in let b1 := box (word_octet w 1) in
  let b2 := box (word_octet w 2) in let b3 := box (word_octet w 3) in
  word (Z.lxor (Z.lxor (Z.lxor (Z.lxor (MULx b0 c) b1) b2) (MULx b3 c)) b3)
       (Z.lxor (Z.lxor (Z.lxor (Z.lxor (MULx b0 c) b0) (MULx b1 c)) b2) b3)
       (Z.lxor (Z.lxor (Z.lxor (Z.lxor b0 (MULx b1 c)) b1) (MULx b2 c)) b3)
       (Z.lxor (Z.lxor (Z.lxor (Z.lxor b0 b1) (MULx b2 c)) b2) (MULx b3 c)).

Definition S1 (w : Z) : Z := mix SR 0x1B w.
Definition S2 (w : Z) : Z := mix SQ 0x69 w.

Definition MULalpha (c : Z) : Z := word (MULxPOW c 23 0xA9) (MULxPOW c 245 0xA9) (MULxPOW c 48 0xA9) (MULxPOW c 239 0xA9).
Definition DIValpha (c : Z) : Z := word (MULxPOW c 16 0xA9) (MULxPOW c 39 0xA9) (MULxPOW c 6 0xA9) (MULxPOW c 64 0xA9).

(** ** The generator *)

(** The sixteen words [s_0 ... s_15] and the three registers. *)
Record generator := mk_gen { stages : list Z; R1 : Z; R2 : Z; R3 : Z }.

Definition stage (g : generator) (i : nat) : Z := nth i (stages g) 0.

(** Clocking the shift register with an input word. *)
Definition clock_lfsr (g : generator) (F : Z) : generator :=
  let s0 := stage g 0 in let s11 := stage g 11 in
  let v := Z.lxor (Z.lxor (Z.lxor (Z.lxor (Z.lxor
             (u32 (Z.shiftl s0 8)) (MULalpha (word_octet s0 0))) (stage g 2)) (Z.shiftr s11 8)) (DIValpha (word_octet s11 3))) F in
  mk_gen (tail (stages g) ++ [v]) (R1 g) (R2 g) (R3 g).

Definition fsm_word (g : generator) : Z := Z.lxor (u32 (stage g 15 + R1 g)) (R2 g).
Definition fsm_next (g : generator) : generator :=
  mk_gen (stages g) (u32 (R2 g + Z.lxor (R3 g) (stage g 5))) (S1 (R1 g)) (S2 (R2 g)).

Definition init_clock (g : generator) : generator := clock_lfsr (fsm_next g) (fsm_word g).

Definition initialise (k0 k1 k2 k3 iv0 iv1 iv2 iv3 : Z) : generator :=
  let one := 0xffffffff in
  Nat.iter 32 init_clock
    (mk_gen [Z.lxor k0 one; Z.lxor k1 one; Z.lxor k2 one; Z.lxor k3 one; k0; k1; k2; k3; Z.lxor k0 one;
             Z.lxor (Z.lxor k1 one) iv3; Z.lxor (Z.lxor k2 one) iv2; Z.lxor k3 one; Z.lxor k0 iv1; k1; k2; Z.lxor k3 iv0] 0 0 0).

(** The key stream: the first output is discarded. *)
Fixpoint outputs (n : nat) (g : generator) : list Z :=
  match n with
  | O => []
  | S n => Z.lxor (fsm_word g) (stage g 0) :: outputs n (clock_lfsr (fsm_next g) 0)
  end.
Definition key_words (n : nat) (g : generator) : list Z := outputs n (clock_lfsr (fsm_next g) 0).

(** ** The algorithms *)

(** The number written with [n] octets. *)
Fixpoint octets_of (n : nat) (w : Z) : bytes :=
  match n with O => [] | S n => Z.shiftr w (8 * Z.of_nat n) mod 256 :: octets_of n w end.

Fixpoint number (l : bytes) (acc : Z) : Z := match l with [] => acc | b :: l => number l (256 * acc + b) end.

(** The four words of a key, the first the last octets. *)
Definition key_word (key : bytes) (i : nat) : Z := number (take 4 (drop (12 - 4 * i) key)) 0.

Definition f8_generator (key : bytes) (count bearer direction : Z) : generator :=
  let b := bearer * 2 ^ 27 + direction * 2 ^ 26 in
  initialise (key_word key 0) (key_word key 1) (key_word key 2) (key_word key 3) b count b count.

(** Ciphering: the message and the key stream, octet by octet. *)
Definition f8 (key : bytes) (count bearer direction : Z) (m : bytes) : bytes :=
  zip_with Z.lxor m (flat_map (octets_of 4) (key_words (length m / 4 + 1) (f8_generator key count bearer direction))).

(** Multiplication in the field of [2^64] elements. *)
Definition MULx64' (V c : Z) : Z := if Z.testbit V 63 then Z.lxor (u64 (Z.shiftl V 1)) c else u64 (Z.shiftl V 1).
Fixpoint MULxPOW64' (V : Z) (i : nat) (c : Z) : Z := match i with O => V | S i => MULx64' (MULxPOW64' V i c) c end.
Definition MUL (V P c : Z) : Z :=
  fold_left (λ acc i, if Z.testbit P (Z.of_nat i) then Z.lxor acc (MULxPOW64' V i c) else acc) (seq 0 64) 0.

(** The message in blocks of eight octets, the last one filled with zeros. *)
Fixpoint blocks (n : nat) (m : bytes) : list Z :=
  match n with O => [] | S n => number (take 8 (m ++ replicate 8 0)) 0 :: blocks n (drop 8 m) end.

Definition f9_generator (key : bytes) (count fresh direction : Z) : generator :=
  initialise (key_word key 0) (key_word key 1) (key_word key 2) (key_word key 3)
    (Z.lxor fresh (direction * 2 ^ 15)) (Z.lxor count (direction * 2 ^ 31)) fresh count.

Definition f9 (key : bytes) (count fresh direction : Z) (m : bytes) : bytes :=
  let z := key_words 5 (f9_generator key count fresh direction) in
  let P := nth 0 z 0 * 2 ^ 32 + nth 1 z 0 in
  let Q := nth 2 z 0 * 2 ^ 32 + nth 3 z 0 in
  let eval := fold_left (λ e b, MUL (Z.lxor e b) P 0x1b) (blocks ((length m + 7) / 8) m) 0 in
  let eval := MUL (Z.lxor eval (8 * zlen m)) Q 0x1b in
  octets_of 4 (Z.lxor (eval / 2 ^ 32) (nth 4 z 0)).
