(* ===== verification/Snow3gProofs.v ===== *)
(** * Snow 3G computes what it is specified to

    The tables are those of the specification's boxes and multiplications; the register in an
    array of twice its size refines the shift register of sixteen words. *)

From Stdlib Require Import Btauto.
From S2P Require Import Prelude Bits Gf2 Snow3gTables Snow3g Snow3gSpec.

(** ** Words *)

Lemma octet_range w i : is_byte (octet w i).
Proof. unfold octet, is_byte. change 255 with (Z.ones 8). rewrite Z.land_ones by lia. apply Z.mod_pos_bound. lia. Qed.

Lemma octet_div w i : 0 <= i → octet w i = (w / 2 ^ (8 * i)) mod 256.
Proof. intros Hi. unfold octet. change 255 with (Z.ones 8). rewrite Z.land_ones by lia. by rewrite Z.shiftr_div_pow2 by lia. Qed.

Lemma word_add a b c d : is_byte b → is_byte c → is_byte d → word a b c d = a * 2 ^ 24 + b * 2 ^ 16 + c * 2 ^ 8 + d.
Proof.
  unfold word, is_byte. intros Hb Hc Hd.
  assert (∀ x y n, 0 <= n → 0 <= y < 2 ^ 8 → Z.lor (Z.shiftl x (8 + n)) (Z.shiftl y n) = Z.shiftl (x * 2 ^ 8 + y) n) as H.
  { intros x y n Hn Hy. rewrite <- Z.shiftl_shiftl, <- Z.shiftl_lor, lor_shiftl_add by lia. done. }
  pose proof (H a b 16 ltac:(lia) Hb) as H1. change (8 + 16) with 24 in H1. rewrite H1.
  pose proof (H (a * 2 ^ 8 + b) c 8 ltac:(lia) Hc) as H2. change (8 + 8) with 16 in H2. rewrite H2, lor_shiftl_add by lia. lia.
Qed.

Lemma word_u32 a b c d : is_byte a → is_byte b → is_byte c → is_byte d → is_u32 (word a b c d).
Proof. intros Ha Hb Hc Hd. rewrite word_add by done. unfold is_byte, is_u32 in *. lia. Qed.

Lemma word_xor a b c d :
  is_byte b → is_byte c → is_byte d →
  word a b c d = Z.lxor (Z.shiftl (Z.lxor (Z.shiftl (Z.lxor (Z.shiftl a 8) b) 8) c) 8) d.
Proof.
  intros Hb Hc Hd. rewrite word_add by done. unfold is_byte in *. rewrite !lxor_shiftl_add by lia. lia.
Qed.

Lemma word_lxor a b c d a' b' c' d' :
  is_byte b → is_byte c → is_byte d → is_byte b' → is_byte c' → is_byte d' →
  word (Z.lxor a a') (Z.lxor b b') (Z.lxor c c') (Z.lxor d d') = Z.lxor (word a b c d) (word a' b' c' d').
Proof.
  intros. rewrite !word_xor by (try apply lxor_byte; done). rewrite !Z.shiftl_lxor, !Z.lxor_assoc.
  apply Z.bits_inj'. intros i Hi. rewrite !Z.lxor_spec. btauto.
Qed.

(** The octets of a word one after the other. *)
Lemma octet_steps w :
  w / 2 ^ (8 * 3) = w / 2 ^ (8 * 2) / 256 ∧ w / 2 ^ (8 * 2) = w / 2 ^ (8 * 1) / 256 ∧
  w = 256 * (w / 2 ^ (8 * 1)) + (w / 2 ^ (8 * 0)) mod 256 ∧
  w / 2 ^ (8 * 1) = 256 * (w / 2 ^ (8 * 2)) + (w / 2 ^ (8 * 1)) mod 256 ∧
  w / 2 ^ (8 * 2) = 256 * (w / 2 ^ (8 * 3)) + (w / 2 ^ (8 * 2)) mod 256.
Proof.
  assert (∀ n, 0 <= n → w / 2 ^ (8 * (n + 1)) = w / 2 ^ (8 * n) / 256) as H.
  { intros n Hn. rewrite Z.div_div by lia. f_equal. change 256 with (2 ^ 8). rewrite <- Z.pow_add_r by lia. f_equal. lia. }
  pose proof (H 0 ltac:(lia)) as H0. pose proof (H 1 ltac:(lia)) as H1. pose proof (H 2 ltac:(lia)) as H2.
  change (0 + 1) with 1 in H0. change (1 + 1) with 2 in H1. change (2 + 1) with 3 in H2.
  change (2 ^ (8 * 0)) with 1 in *. rewrite Z.div_1_r in *.
  split_and!; [done|done|rewrite H0|rewrite H1|rewrite H2]; apply Z.div_mod; lia.
Qed.

Lemma octets_word w : is_u32 w → word (octet w 3) (octet w 2) (octet w 1) (octet w 0) = w.
Proof.
  intros Hw. rewrite word_add by apply octet_range. rewrite !octet_div by lia. unfold is_u32 in Hw.
  pose proof (octet_steps w) as (_ & _ & E1 & E2 & E3).
  rewrite (Z.mod_small (w / 2 ^ (8 * 3))); [lia|]. split; [apply Z.div_pos; lia|apply Z.div_lt_upper_bound; lia].
Qed.

(** ** Boxes and multiplications *)

(** What one octet contributes to the mixed column, by its position. *)
Definition col0 (b c : Z) : Z := word (MULx b c) (Z.lxor (MULx b c) b) b b.
Definition col1 (b c : Z) : Z := word b (MULx b c) (Z.lxor (MULx b c) b) b.
Definition col2 (b c : Z) : Z := word b b (MULx b c) (Z.lxor (MULx b c) b).
Definition col3 (b c : Z) : Z := word (Z.lxor (MULx b c) b) b b (MULx b c).

Lemma MULx_byte b c : is_byte c → is_byte (MULx b c).
Proof.
  intros Hc. assert (is_byte (u8 (Z.shiftl b 1))) by (apply Z.mod_pos_bound; lia). unfold MULx.
  destruct (Z.testbit b 7); [by apply lxor_byte|done].
Qed.

Lemma mix_columns box c w :
  is_byte c → (∀ x, is_byte x → is_byte (box x)) →
  mix box c w = Z.lxor (Z.lxor (Z.lxor (col3 (box (octet w 0)) c) (col2 (box (octet w 1)) c)) (col1 (box (octet w 2)) c)) (col0 (box (octet w 3)) c).
Proof.
  intros Hc Hbox. unfold mix. change (word_octet w 0) with (octet w 3). change (word_octet w 1) with (octet w 2).
  change (word_octet w 2) with (octet w 1). change (word_octet w 3) with (octet w 0). cbv zeta.
  pose proof (Hbox _ (octet_range w 0)) as H0. pose proof (Hbox _ (octet_range w 1)) as H1.
  pose proof (Hbox _ (octet_range w 2)) as H2. pose proof (Hbox _ (octet_range w 3)) as H3.
  set (b0 := box (octet w 3)) in *. set (b1 := box (octet w 2)) in *. set (b2 := box (octet w 1)) in *. set (b3 := box (octet w 0)) in *.
  clearbody b0 b1 b2 b3. pose proof (MULx_byte b0 c Hc). pose proof (MULx_byte b1 c Hc). pose proof (MULx_byte b2 c Hc). pose proof (MULx_byte b3 c Hc).
  unfold col0, col1, col2, col3. rewrite <- !word_lxor by (repeat apply lxor_byte; done).
  f_equal; apply Z.bits_inj'; intros i Hi; rewrite !Z.lxor_spec; btauto.
Qed.

(** The tables are those of the boxes. *)
Definition tables_ok (t0 t1 t2 t3 : list Z) (box : Z → Z) (c : Z) : bool :=
  forallb (λ x, let b := box x in (0 <=? b) && (b <? 256) &&
    (entry t0 x =? col3 b c) && (entry t1 x =? col2 b c) && (entry t2 x =? col1 b c) && (entry t3 x =? col0 b c)) (seqZ 0 256).

Lemma s1_tables_ok : tables_ok s1_t0 s1_t1 s1_t2 s1_t3 SR 0x1B = true.
Proof. vm_compute. reflexivity. Qed.
Lemma s2_tables_ok : tables_ok s2_t0 s2_t1 s2_t2 s2_t3 SQ 0x69 = true.
Proof. vm_compute. reflexivity. Qed.
Lemma alpha_tables_ok : forallb (λ x, (MULa x =? MULalpha x) && (DIVa x =? DIValpha x)) (seqZ 0 256) = true.
Proof. vm_compute. reflexivity. Qed.

Lemma forallb_octets (f : Z → bool) x : forallb f (seqZ 0 256) = true → is_byte x → f x = true.
Proof. intros H Hx. rewrite forallb_forall in H. apply H, list_elem_of_In, elem_of_seqZ. unfold is_byte in Hx. lia. Qed.

Lemma tables_lookup t0 t1 t2 t3 box c x :
  tables_ok t0 t1 t2 t3 box c = true → is_byte x →
  is_byte (box x) ∧ entry t0 x = col3 (box x) c ∧ entry t1 x = col2 (box x) c ∧ entry t2 x = col1 (box x) c ∧ entry t3 x = col0 (box x) c.
Proof.
  intros H Hx. pose proof (forallb_octets _ _ H Hx) as H1. cbv beta zeta in H1.
  repeat (apply andb_true_iff in H1 as [H1 ?%Z.eqb_eq]). apply andb_true_iff in H1 as [?%Z.leb_le ?%Z.ltb_lt].
  split_and!; done.
Qed.

Lemma tables_mix t0 t1 t2 t3 box c w :
  tables_ok t0 t1 t2 t3 box c = true → is_byte c →
  Z.lxor (Z.lxor (Z.lxor (entry t0 (octet w 0)) (entry t1 (octet w 1))) (entry t2 (octet w 2))) (entry t3 (octet w 3)) = mix box c w.
Proof.
  intros H Hc. rewrite mix_columns; [|done|intros x Hx; by apply (tables_lookup t0 t1 t2 t3 box c x)].
  pose proof (tables_lookup _ _ _ _ _ _ _ H (octet_range w 0)) as (_ & -> & _).
  pose proof (tables_lookup _ _ _ _ _ _ _ H (octet_range w 1)) as (_ & _ & -> & _).
  pose proof (tables_lookup _ _ _ _ _ _ _ H (octet_range w 2)) as (_ & _ & _ & -> & _).
  by pose proof (tables_lookup _ _ _ _ _ _ _ H (octet_range w 3)) as (_ & _ & _ & _ & ->).
Qed.

Lemma s1_spec w : s1 w = S1 w.
Proof. exact (tables_mix s1_t0 s1_t1 s1_t2 s1_t3 SR 0x1B w s1_tables_ok ltac:(unfold is_byte; lia)). Qed.
Lemma s2_spec w : s2 w = S2 w.
Proof. exact (tables_mix s2_t0 s2_t1 s2_t2 s2_t3 SQ 0x69 w s2_tables_ok ltac:(unfold is_byte; lia)). Qed.

Lemma alpha_spec x : is_byte x → MULa x = MULalpha x ∧ DIVa x = DIValpha x.
Proof. intros Hx. pose proof (forallb_octets _ _ alpha_tables_ok Hx) as [?%Z.eqb_eq ?%Z.eqb_eq]%andb_true_iff. done. Qed.

(** ** The shift register *)

(** The array of 32 words holds the sixteen of the register from the pointer on; those before
    the pointer are there twice. *)
Record refines (s : snow3g_t) (g : generator) : Prop := {
  rf_len : length (_s s) = 32%nat;
  rf_off : 0 <= s_off s < 16;
  rf_stages : stages g = take 16 (drop (Z.to_nat (s_off s)) (_s s));
  rf_copy : ∀ i, (i < Z.to_nat (s_off s))%nat → _s s !! i = _s s !! (i + 16)%nat;
  rf_regs : r1 s = R1 g ∧ r2 s = R2 g ∧ r3 s = R3 g;
  rf_words : Forall is_u32 (stages g);
}.

Lemma rf_stages_len s g : refines s g → length (stages g) = 16%nat.
Proof. intros H. rewrite (rf_stages _ _ H), length_take, length_drop, (rf_len _ _ H). pose proof (rf_off _ _ H). lia. Qed.

Lemma stages_lookup s g i : refines s g → (i < 16)%nat → _s s !! (Z.to_nat (s_off s) + i)%nat = Some (stage g i).
Proof.
  intros H Hi. unfold stage. destruct (lookup_lt_is_Some_2 (stages g) i) as [x Hx]; [by rewrite (rf_stages_len _ _ H)|].
  rewrite (nth_lookup_Some _ _ _ _ Hx). rewrite (rf_stages _ _ H), lookup_take_lt, lookup_drop in Hx by done. done.
Qed.

Lemma s_get_ok s g j i : refines s g → j = Z.of_nat i → (i < 16)%nat → s_get s j = Ok (stage g i).
Proof.
  intros H -> Hi. unfold s_get. pose proof (rf_off _ _ H). apply buf_get_lookup; [|lia].
  replace (Z.to_nat (s_off s + Z.of_nat i)) with (Z.to_nat (s_off s) + i)%nat by lia. by apply stages_lookup.
Qed.

Lemma stage_u32 s g i : refines s g → (i < 16)%nat → is_u32 (stage g i).
Proof.
  intros H Hi. pose proof (rf_words _ _ H) as Hw. rewrite Forall_forall in Hw. apply Hw. unfold stage.
  apply list_elem_of_In, nth_In. by rewrite (rf_stages_len _ _ H).
Qed.

Definition feedback (g : generator) : Z :=
  Z.lxor (Z.lxor (Z.lxor (Z.lxor (u32 (Z.shiftl (stage g 0) 8)) (MULalpha (word_octet (stage g 0) 0))) (stage g 2))
    (Z.shiftr (stage g 11) 8)) (DIValpha (word_octet (stage g 11) 3)).

Lemma MULxPOW_byte b i c : is_byte b → is_byte c → is_byte (MULxPOW b i c).
Proof. intros Hb Hc. induction i; [done|]. by apply MULx_byte. Qed.

Lemma feedback_u32 s g : refines s g → is_u32 (feedback g).
Proof.
  intros H. unfold feedback, MULalpha, DIValpha.
  assert (is_byte 0xA9) as HA by (unfold is_byte; lia).
  assert (∀ w i, is_byte (word_octet w i)) as Hw.
  { intros w i. unfold word_octet, is_byte. change 255 with (Z.ones 8). rewrite Z.land_ones by lia. apply Z.mod_pos_bound. lia. }
  repeat apply lxor_u32; try (apply word_u32; by apply MULxPOW_byte); [apply u32_is|apply (stage_u32 s); [done|lia]|].
  pose proof (stage_u32 s g 11 H ltac:(lia)) as H11. unfold is_u32 in *. rewrite Z.shiftr_div_pow2 by lia.
  split; [apply Z.div_pos; lia|apply Z.div_lt_upper_bound; lia].
Qed.

Lemma lfsr_feedback_ok s g : refines s g → lfsr_feedback s = Ok (feedback g).
Proof.
  intros H. unfold lfsr_feedback. rewrite (s_get_ok s g 0 0 H), (s_get_ok s g 2 2 H), (s_get_ok s g 11 11 H) by lia.
  cbn [mbind outcome_bind]. f_equal. unfold feedback.
  rewrite !(proj1 (alpha_spec _ (octet_range _ _))), (proj2 (alpha_spec _ (octet_range _ _))).
  change (word_octet (stage g 0) 0) with (octet (stage g 0) 3). change (word_octet (stage g 11) 3) with (octet (stage g 11) 0).
  pose proof (stage_u32 s g 0 H ltac:(lia)) as H0. pose proof (stage_u32 s g 11 H ltac:(lia)) as H11.
  assert (∀ w, is_u32 w → Z.lor (Z.lor (Z.shiftl (octet w 2) 24) (Z.shiftl (octet w 1) 16)) (Z.shiftl (octet w 0) 8) = u32 (Z.shiftl w 8)) as E0.
  { intros w Hw. transitivity (word (octet w 2) (octet w 1) (octet w 0) 0); [unfold word; by rewrite Z.lor_0_r|].
    rewrite <- (octets_word w Hw) at 4. rewrite !word_add by (apply octet_range || (unfold is_byte; lia)).
    rewrite Z.shiftl_mul_pow2 by lia. unfold u32.
    replace ((octet w 3 * 2 ^ 24 + octet w 2 * 2 ^ 16 + octet w 1 * 2 ^ 8 + octet w 0) * 2 ^ 8)
      with ((octet w 2 * 2 ^ 24 + octet w 1 * 2 ^ 16 + octet w 0 * 2 ^ 8) + octet w 3 * 2 ^ 32) by lia.
    rewrite Z.mod_add by lia. rewrite Z.mod_small; [lia|].
    pose proof (octet_range w 0). pose proof (octet_range w 1). pose proof (octet_range w 2). unfold is_byte in *. lia. }
  assert (∀ w, is_u32 w → Z.lor (Z.lor (Z.shiftl (octet w 3) 16) (Z.shiftl (octet w 2) 8)) (octet w 1) = Z.shiftr w 8) as E11.
  { intros w Hw. transitivity (word 0 (octet w 3) (octet w 2) (octet w 1)); [unfold word; by rewrite Z.shiftl_0_l, Z.lor_0_l|].
    rewrite <- (octets_word w Hw) at 4. rewrite !word_add by apply octet_range. rewrite Z.shiftr_div_pow2 by lia.
    pose proof (octet_range w 0). unfold is_byte in *. apply (Z.div_unique_pos _ _ _ (octet w 0)); lia. }
  by rewrite E0, E11.
Qed.

Lemma lfsr_push_ok s g v :
  refines s g → is_u32 v →
  ∃ s', lfsr_push s v = Ok s' ∧ refines s' (mk_gen (tail (stages g) ++ [v]) (R1 g) (R2 g) (R3 g)).
Proof.
  intros H Hv. pose proof (rf_len _ _ H) as Hl. pose proof (rf_off _ _ H) as Ho. unfold lfsr_push.
  rewrite buf_set_ok by (unfold zlen; lia). cbn [mbind outcome_bind].
  rewrite buf_set_ok by (unfold zlen; rewrite length_insert; lia). cbn [mbind outcome_bind]. eexists. split; [done|].
  set (o := Z.to_nat (s_off s)). replace (Z.to_nat (s_off s + 16)) with (o + 16)%nat by lia.
  set (a := <[(o + 16)%nat:=v]> (<[o:=v]> (_s s))).
  assert (length a = 32%nat) as Hla by (unfold a; by rewrite !length_insert).
  assert (a !! o = Some v) as Ha1 by (unfold a; rewrite list_lookup_insert_ne, list_lookup_insert_eq by lia; done).
  assert (a !! (o + 16)%nat = Some v) as Ha2 by (unfold a; rewrite list_lookup_insert_eq by (rewrite length_insert; lia); done).
  assert (∀ i, i ≠ o → i ≠ (o + 16)%nat → a !! i = _s s !! i) as Ha3 by (intros; unfold a; by rewrite !list_lookup_insert_ne by lia).
  clearbody a.
  assert (tail (stages g) ++ [v] = take 16 (drop (o + 1) a)) as Hst.
  { apply list_eq. intros i. destruct (decide (i < 15)%nat) as [Hi|Hi].
    - rewrite lookup_app_l by (rewrite length_tl, (rf_stages_len _ _ H); lia).
      rewrite lookup_tail, (rf_stages _ _ H), !lookup_take_lt, !lookup_drop by lia. fold o.
      replace (o + 1 + i)%nat with (o + S i)%nat by lia. symmetry. apply Ha3; lia.
    - assert (length (tail (stages g)) = 15%nat) as Ht by (rewrite length_tl, (rf_stages_len _ _ H); lia).
      rewrite lookup_app_r by lia. rewrite Ht. destruct (decide (i = 15%nat)) as [->|Hi15].
      + rewrite lookup_take_lt, lookup_drop by lia. by replace (o + 1 + 15)%nat with (o + 16)%nat by lia.
      + rewrite lookup_take_ge by lia. apply lookup_ge_None_2. cbn. lia. }
  assert (∀ i, (i < o + 1)%nat → a !! i = a !! (i + 16)%nat) as Hcopy.
  { intros i Hi. destruct (decide (i = o)) as [->|]; [by rewrite Ha1, Ha2|]. rewrite !Ha3 by lia. apply (rf_copy _ _ H). fold o. lia. }
  split; cbn [_s s_off Snow3g.r1 Snow3g.r2 Snow3g.r3 stages R1 R2 R3].
  - done.
  - destruct (Z.eqb_spec (s_off s + 1) 16); lia.
  - rewrite Hst. destruct (Z.eqb_spec (s_off s + 1) 16) as [E|E].
    + assert (o = 15%nat) as Eo by lia. rewrite Eo in *. apply list_eq. intros i. destruct (decide (i < 16)%nat) as [Hi|Hi].
      * rewrite !lookup_take_lt, !lookup_drop by lia. cbn [Nat.add Z.to_nat]. rewrite Nat.add_0_l, (Hcopy i) by lia. f_equal. lia.
      * by rewrite !lookup_take_ge by lia.
    + f_equal. f_equal. lia.
  - intros i Hi. apply Hcopy. destruct (Z.eqb_spec (s_off s + 1) 16); lia.
  - exact (rf_regs _ _ H).
  - apply Forall_app. split; [|by constructor]. pose proof (rf_words _ _ H) as Hw. destruct (stages g); [done|]. by inversion_clear Hw.
Qed.

(** ** The generator *)

Lemma clock_fsm_ok s g : refines s g → ∃ s', clock_fsm s = Ok (fsm_word g, s') ∧ refines s' (fsm_next g).
Proof.
  intros H. unfold clock_fsm. rewrite (s_get_ok s g 15 15 H), (s_get_ok s g 5 5 H) by lia. cbn [mbind outcome_bind].
  destruct (rf_regs _ _ H) as (-> & -> & ->). eexists. split; [done|].
  destruct H as [H1 H2 H3 H4 H5 H6]. split; try done. cbn. rewrite s1_spec, s2_spec. done.
Qed.

Lemma lfsr_init_ok s g f : refines s g → is_u32 f → ∃ s', lfsr_init s f = Ok s' ∧ refines s' (clock_lfsr g f).
Proof.
  intros H Hf. unfold lfsr_init. rewrite (lfsr_feedback_ok s g H). cbn [mbind outcome_bind].
  apply (lfsr_push_ok s g); [done|]. apply lxor_u32; [by apply (feedback_u32 s)|done].
Qed.

Lemma lfsr_keystream_ok s g : refines s g → ∃ s', lfsr_keystream s = Ok s' ∧ refines s' (clock_lfsr g 0).
Proof.
  intros H. unfold lfsr_keystream. rewrite (lfsr_feedback_ok s g H). cbn [mbind outcome_bind].
  unfold clock_lfsr. cbv zeta. fold (feedback g). rewrite Z.lxor_0_r. apply (lfsr_push_ok s g); [done|by apply (feedback_u32 s)].
Qed.

(** The registers hold words. *)
Definition regs_u32 (g : generator) : Prop := is_u32 (R1 g) ∧ is_u32 (R2 g) ∧ is_u32 (R3 g).

Lemma mix_u32 box c w : is_byte c → (∀ x, is_byte x → is_byte (box x)) → is_u32 (mix box c w).
Proof.
  intros Hc Hb. unfold mix.
  assert (∀ i, is_byte (box (word_octet w i))) as Hw.
  { intros i. apply Hb. unfold word_octet, is_byte. change 255 with (Z.ones 8). rewrite Z.land_ones by lia. apply Z.mod_pos_bound. lia. }
  apply word_u32; repeat apply lxor_byte; try apply Hw; by apply MULx_byte.
Qed.

Lemma fsm_regs g : regs_u32 g → regs_u32 (fsm_next g).
Proof.
  intros _. unfold regs_u32, fsm_next. cbn [R1 R2 R3]. split; [apply u32_is|]. split.
  - apply (mix_u32 SR 0x1B (R1 g)); [unfold is_byte; lia|]. intros x Hx. by apply (tables_lookup _ _ _ _ _ _ _ s1_tables_ok Hx).
  - apply (mix_u32 SQ 0x69 (R2 g)); [unfold is_byte; lia|]. intros x Hx. by apply (tables_lookup _ _ _ _ _ _ _ s2_tables_ok Hx).
Qed.

Lemma clock_regs g f : regs_u32 g → regs_u32 (clock_lfsr g f).
Proof. intros H. exact H. Qed.

Lemma fsm_word_u32 g : regs_u32 g → is_u32 (fsm_word g).
Proof. intros (_ & H & _). apply lxor_u32; [apply u32_is|done]. Qed.

Lemma init_step_ok s g : refines s g → regs_u32 g → ∃ s', init_step s = Ok s' ∧ refines s' (init_clock g) ∧ regs_u32 (init_clock g).
Proof.
  intros H Hr. unfold init_step. destruct (clock_fsm_ok s g H) as (s1 & -> & H1). cbn [mbind outcome_bind].
  destruct (lfsr_init_ok s1 (fsm_next g) (fsm_word g) H1) as (s2 & -> & H2); [by apply fsm_word_u32|].
  exists s2. split; [done|]. split; [exact H2|]. unfold init_clock. apply clock_regs, fsm_regs, Hr.
Qed.

Lemma init_loop_ok n s g : refines s g → regs_u32 g →
  ∃ s', init_loop n s = Ok s' ∧ refines s' (Nat.iter n init_clock g) ∧ regs_u32 (Nat.iter n init_clock g).
Proof.
  revert s g. induction n as [|n IH]; intros s g H Hr; cbn [init_loop]; [by exists s|].
  destruct (init_step_ok s g H Hr) as (s1 & -> & H1 & Hr1). cbn [mbind outcome_bind].
  destruct (IH s1 _ H1 Hr1) as (s2 & -> & H2 & Hr2). exists s2. by rewrite Nat.iter_succ_r.
Qed.

Lemma keystream_ok n s g : refines s g → keystream n s = Ok (outputs n g).
Proof.
  revert s g. induction n as [|n IH]; intros s g H; cbn [keystream outputs]; [done|]. unfold generate_keystream_step.
  destruct (clock_fsm_ok s g H) as (s1 & -> & H1). cbn [mbind outcome_bind].
  rewrite (s_get_ok s1 _ 0 0 H1) by lia. cbn [mbind outcome_bind].
  destruct (lfsr_keystream_ok s1 _ H1) as (s2 & -> & H2). cbn [mbind outcome_bind]. by rewrite (IH s2 _ H2).
Qed.

(** A word read from four octets. *)
Lemma GET32_ok b off a0 a1 a2 a3 :
  0 <= off → take 4 (drop (Z.to_nat off) b) = [a0; a1; a2; a3] → GET32 b off = Ok (word a0 a1 a2 a3).
Proof.
  intros Ho H. unfold GET32.
  assert (∀ i x, (i < 4)%nat → [a0; a1; a2; a3] !! i = Some x → buf_get b (off + Z.of_nat i) = Ok x) as Hg.
  { intros i x Hi Hx. apply buf_get_lookup; [|lia]. rewrite <- H, lookup_take_lt, lookup_drop in Hx by done.
    by replace (Z.to_nat (off + Z.of_nat i)) with (Z.to_nat off + i)%nat by lia. }
  pose proof (Hg 0%nat a0 ltac:(lia) eq_refl) as E0. pose proof (Hg 1%nat a1 ltac:(lia) eq_refl) as E1.
  pose proof (Hg 2%nat a2 ltac:(lia) eq_refl) as E2. pose proof (Hg 3%nat a3 ltac:(lia) eq_refl) as E3.
  change (Z.of_nat 0) with 0 in E0. rewrite Z.add_0_r in E0.
  change (Z.of_nat 1) with 1 in E1. change (Z.of_nat 2) with 2 in E2. change (Z.of_nat 3) with 3 in E3. by rewrite E0, E1, E2, E3.
Qed.

(** Initialisation, whatever the upper half of the array holds. *)
Lemma snow3g_init_ok mem k iv k0 k1 k2 k3 iv0 iv1 iv2 iv3 :
  length mem = 16%nat → Forall is_u32 [k0; k1; k2; k3; iv0; iv1; iv2; iv3] →
  GET32 k 0 = Ok k0 → GET32 k 4 = Ok k1 → GET32 k 8 = Ok k2 → GET32 k 12 = Ok k3 →
  GET32 iv 0 = Ok iv0 → GET32 iv 4 = Ok iv1 → GET32 iv 8 = Ok iv2 → GET32 iv 12 = Ok iv3 →
  ∃ s, snow3g_init mem k iv = Ok s ∧ ∀ n, keystream n s = Ok (key_words n (initialise k0 k1 k2 k3 iv0 iv1 iv2 iv3)).
Proof.
  intros Hm Hw E0 E1 E2 E3 F0 F1 F2 F3. unfold snow3g_init. rewrite E0, E1, E2, E3, F0, F1, F2, F3. cbn [mbind outcome_bind]. cbv zeta.
  set (st := [Z.lxor k0 _; _; _; _; _; _; _; _; _; _; _; _; _; _; _; _]).
  assert (Forall is_u32 st) as Hst.
  { assert (is_u32 0xffffffff) as Hone by (unfold is_u32; lia). rewrite !Forall_cons in Hw.
    destruct Hw as (? & ? & ? & ? & ? & ? & ? & ? & _).
    unfold st. repeat (apply Forall_cons_2; [solve [repeat (apply lxor_u32; [|assumption]); assumption]|]). apply Forall_nil_2. }
  assert (refines (mk_snow3g (st ++ mem) 0 0 0 0) (mk_gen st 0 0 0)) as H.
  { split; cbn [_s s_off Snow3g.r1 Snow3g.r2 Snow3g.r3 stages R1 R2 R3]; [by rewrite length_app, Hm|lia| |lia|done|done].
    rewrite drop_0. symmetry. by apply take_app_length'. }
  destruct (init_loop_ok 32 _ _ H ltac:(by split_and!)) as (s1 & -> & H1 & Hr1). cbn [mbind outcome_bind].
  destruct (clock_fsm_ok s1 _ H1) as (s2 & -> & H2). cbn [mbind outcome_bind].
  destruct (lfsr_keystream_ok s2 _ H2) as (s3 & -> & H3). exists s3. split; [done|]. intros n. by rewrite (keystream_ok n s3 _ H3).
Qed.
