(* ===== verification/Snow3gMul.v ===== *)
(** * Multiplication in the field of f9

    [MUL64] is bilinear and commutative; the table of products that [_snow3g_integrity] fills
    gives the product with [P]. *)

From S2P Require Import Prelude Bits Gf2 Snow3gTables Snow3g Snow3gSpec Snow3gProofs.

Lemma u64_lxor a b : u64 (Z.lxor a b) = Z.lxor (u64 a) (u64 b).
Proof.
  unfold u64. apply Z.bits_inj'. intros i Hi. rewrite Z.lxor_spec. destruct (Z.ltb_spec i 64).
  - by rewrite !Z.mod_pow2_bits_low, Z.lxor_spec by lia.
  - by rewrite !Z.mod_pow2_bits_high by lia.
Qed.

Section field.
Context (c : Z).

Lemma MULx64_alt v : MULx64 v c = Z.lxor (u64 (Z.shiftl v 1)) (if Z.testbit v 63 then c else 0).
Proof. unfold MULx64. destruct (Z.testbit v 63); [done|]. by rewrite Z.lxor_0_r. Qed.

Lemma linear_MULx64 : Linear (λ v, MULx64 v c).
Proof. intros a b. rewrite !MULx64_alt, Z.shiftl_lxor, u64_lxor, Z.lxor_spec, lxor_if. apply lxor_swap. Qed.

Lemma linear_MULxPOW64 i : Linear (λ v, MULxPOW64 v i c).
Proof. intros a b. induction i as [|i IH]; [done|]. cbn [MULxPOW64]. rewrite IH. apply linear_MULx64. Qed.

Lemma MUL64_loop_alt n v p :
  MUL64_loop (S n) v p c = Z.lxor (MUL64_loop n v p c) (if Z.testbit p (Z.of_nat n) then MULxPOW64 v n c else 0).
Proof. cbn [MUL64_loop]. destruct (Z.testbit p (Z.of_nat n)); [done|]. by rewrite Z.lxor_0_r. Qed.

Lemma linear_MUL64_l p : Linear (λ v, MUL64 v p c).
Proof.
  unfold MUL64. intros a b. generalize 64%nat as m. induction m as [|n IH]; [done|]. rewrite !MUL64_loop_alt, IH, lxor_swap. f_equal.
  destruct (Z.testbit p (Z.of_nat n)); [apply linear_MULxPOW64|done].
Qed.

Lemma linear_MUL64_r v : Linear (λ p, MUL64 v p c).
Proof.
  unfold MUL64. intros a b. generalize 64%nat as m. induction m as [|n IH]; [done|]. rewrite !MUL64_loop_alt, IH, lxor_swap. f_equal.
  rewrite Z.lxor_spec. apply lxor_if.
Qed.

(** Multiplication by a power of [X]. *)
Lemma MUL64_pow v i : (i < 64)%nat → MUL64 v (2 ^ Z.of_nat i) c = MULxPOW64 v i c.
Proof.
  intros Hi. unfold MUL64.
  assert (∀ n, (n <= i)%nat → MUL64_loop n v (2 ^ Z.of_nat i) c = 0) as Hlow.
  { induction n as [|n IH]; intros Hn; [done|]. rewrite MUL64_loop_alt, IH, Z.pow2_bits_false by lia. done. }
  assert (∀ n, (i < n)%nat → MUL64_loop n v (2 ^ Z.of_nat i) c = MULxPOW64 v i c) as Hhigh; [|by apply Hhigh].
  induction n as [|n IH]; intros Hn; [lia|]. rewrite MUL64_loop_alt. destruct (decide (n = i)) as [->|].
  - rewrite Hlow, Z.pow2_bits_true, Z.lxor_0_l by lia. done.
  - rewrite IH, Z.pow2_bits_false, Z.lxor_0_r by lia. done.
Qed.

Lemma MULxPOW64_1 i : (i < 64)%nat → MULxPOW64 1 i c = 2 ^ Z.of_nat i.
Proof.
  induction i as [|i IH]; intros Hi; [done|]. cbn [MULxPOW64]. rewrite IH, MULx64_alt, Z.pow2_bits_false, Z.lxor_0_r by lia.
  rewrite Z.shiftl_mul_pow2, <- Z.pow_add_r by lia. rewrite Nat2Z.inj_succ. apply u64_small. split; [lia|]. apply Z.pow_lt_mono_r; lia.
Qed.

Lemma MULxPOW64_add v i j : MULxPOW64 (MULxPOW64 v i c) j c = MULxPOW64 v (j + i) c.
Proof. induction j as [|j IH]; [done|]. cbn [MULxPOW64 Nat.add]. by rewrite IH. Qed.

Lemma MUL64_comm v p : 0 <= v < 2 ^ 64 → 0 <= p < 2 ^ 64 → MUL64 v p c = MUL64 p v c.
Proof.
  intros Hv Hp. apply (linear_ext 64 (λ v, MUL64 v p c) (λ v, MUL64 p v c)); [apply linear_MUL64_l|apply linear_MUL64_r| |done].
  intros i Hi. apply (linear_ext 64 (λ p, MUL64 (2 ^ Z.of_nat i) p c) (λ p, MUL64 p (2 ^ Z.of_nat i) c)); [apply linear_MUL64_r|apply linear_MUL64_l| |done].
  intros j Hj. rewrite !MUL64_pow by done. rewrite <- (MULxPOW64_1 i), <- (MULxPOW64_1 j) by done. rewrite !MULxPOW64_add. f_equal. lia.
Qed.

Lemma MUL64_0 v : MUL64 v 0 c = 0.
Proof. exact (linear_0 _ (linear_MUL64_r v)). Qed.

Lemma MUL64_range v p : 0 <= c < 2 ^ 64 → 0 <= v < 2 ^ 64 → 0 <= MUL64 v p c < 2 ^ 64.
Proof.
  intros Hc Hv.
  assert (∀ i, 0 <= MULxPOW64 v i c < 2 ^ 64) as Hp.
  { induction i as [|i IH]; [done|]. cbn [MULxPOW64]. rewrite MULx64_alt.
    apply lxor_range; [lia|apply u64_range|]. destruct (Z.testbit _ 63); lia. }
  unfold MUL64. generalize 64%nat as m. induction m as [|n IH]; [cbn; lia|]. rewrite MUL64_loop_alt. apply lxor_range; [lia|done|].
  destruct (Z.testbit p (Z.of_nat n)); [apply Hp|lia].
Qed.

(** The loops are those of the specification. *)
Lemma MUL64_spec v p : MUL64 v p c = MUL v p c.
Proof.
  unfold MUL64, MUL. assert (∀ i, MULxPOW64 v i c = MULxPOW64' v i c) as Hp by (induction i; [done|]; cbn [MULxPOW64 MULxPOW64']; by rewrite IHi).
  generalize 64%nat as m. induction m as [|n IH]; [done|]. rewrite seq_S, fold_left_app, <- IH. cbn [MUL64_loop fold_left]. rewrite Nat.add_0_l, Hp. done.
Qed.
End field.

(** ** The table of products *)

Section table.
Context (p : Z).
Hypothesis Hp : 0 <= p < 2 ^ 64.

(** What [pm[i][x]] is to hold. *)
Definition product (i x : Z) : Z := MUL64 p (Z.shiftl x (8 * i)) 0x1b.

(** The cells in [S] hold their product. *)
Definition good (pm : list Z) (S : Z → Z → Prop) : Prop :=
  length pm = 2048%nat ∧ ∀ i x, 0 <= i < 8 → 0 <= x < 256 → S i x → pm !! Z.to_nat (256 * i + x) = Some (product i x).

Lemma good_mono pm S S' : good pm S → (∀ i x, 0 <= i < 8 → 0 <= x < 256 → S' i x → S i x) → good pm S'.
Proof. intros [Hl H] Hs. split; [done|]. intros i x Hi Hx HS. by apply H, Hs. Qed.

Lemma good_get pm S i x : good pm S → 0 <= i < 8 → 0 <= x < 256 → S i x → pm_get pm i x = Ok (product i x).
Proof. intros [Hl H] Hi Hx HS. unfold pm_get. apply buf_get_lookup; [by apply H|lia]. Qed.

Lemma pm_set_ok pm i x v : length pm = 2048%nat → 0 <= i < 8 → 0 <= x < 256 → pm_set pm i x v = Ok (<[Z.to_nat (256 * i + x) := v]> pm).
Proof. intros Hl Hi Hx. apply buf_set_ok. unfold zlen. lia. Qed.

(** Writing the product of a cell. *)
Lemma good_set pm S i x v :
  good pm S → 0 <= i < 8 → 0 <= x < 256 → v = product i x →
  ∃ pm', pm_set pm i x v = Ok pm' ∧ good pm' (λ i' x', S i' x' ∨ (i' = i ∧ x' = x)).
Proof.
  intros [Hl H] Hi Hx ->. rewrite pm_set_ok by (done || lia). eexists. split; [done|]. split; [by rewrite length_insert|].
  intros i' x' Hi' Hx' HS. destruct (decide (256 * i' + x' = 256 * i + x)) as [E|E].
  - assert (i' = i) as -> by lia. assert (x' = x) as -> by lia. by rewrite list_lookup_insert_eq by lia.
  - rewrite list_lookup_insert_ne by lia. apply H; [done|done|]. destruct HS as [HS|[-> ->]]; [done|lia].
Qed.

Lemma pm_zero_ok n i pm S :
  0 <= i → i + Z.of_nat n <= 8 → good pm S →
  ∃ pm', pm_zero n i pm = Ok pm' ∧ good pm' (λ i' x', S i' x' ∨ (i <= i' < i + Z.of_nat n ∧ x' = 0)).
Proof.
  revert i pm S. induction n as [|n IH]; intros i pm S Hi Hn HS; cbn [pm_zero].
  { exists pm. split; [done|]. eapply good_mono; [exact HS|]. intros i' x' _ _ [H|H]; [done|lia]. }
  destruct (good_set pm S i 0 0 HS) as (pm1 & -> & H1); [lia|lia|unfold product; by rewrite Z.shiftl_0_l, MUL64_0|]. cbn [mbind outcome_bind].
  destruct (IH (i + 1) pm1 _ ltac:(lia) ltac:(lia) H1) as (pm2 & -> & H2). exists pm2. split; [done|].
  eapply good_mono; [exact H2|]. intros i' x' _ _ [H|[H ->]]; [by left; left|].
  destruct (decide (i' = i)) as [->|]; [by left; right|right; lia].
Qed.

(** The cell of bit [t]. *)
Definition bit_cell (t i x : Z) : Prop := i = Z.shiftr t 3 ∧ x = Z.shiftl 1 (Z.land t 7).

Lemma bit_cell_range t : 0 <= t < 64 → 0 <= Z.shiftr t 3 < 8 ∧ 1 <= Z.shiftl 1 (Z.land t 7) < 256 ∧ 0 <= Z.land t 7 < 8 ∧ t = 8 * Z.shiftr t 3 + Z.land t 7.
Proof.
  intros Ht. change 7 with (Z.ones 3). rewrite Z.land_ones, Z.shiftr_div_pow2, Z.shiftl_1_l by lia. change (2 ^ 3) with 8.
  pose proof (Z.div_mod t 8 ltac:(lia)). pose proof (Z.mod_pos_bound t 8 ltac:(lia)). split_and!; try lia.
  change 256 with (2 ^ 8). apply Z.pow_lt_mono_r; lia.
Qed.

Lemma product_bit t : 0 <= t < 64 → product (Z.shiftr t 3) (Z.shiftl 1 (Z.land t 7)) = MULxPOW64 p (Z.to_nat t) 0x1b.
Proof.
  intros Ht. destruct (bit_cell_range t Ht) as (H1 & _ & H2 & E). unfold product. rewrite <- MUL64_pow by lia. f_equal.
  rewrite Z.shiftl_shiftl, Z.shiftl_1_l by lia. f_equal. lia.
Qed.

Lemma product_next i : 1 <= i < 64 →
  product (Z.shiftr i 3) (Z.shiftl 1 (Z.land i 7)) = MULx64 (product (Z.shiftr (i - 1) 3) (Z.shiftl 1 (Z.land (i - 1) 7))) 0x1b.
Proof.
  intros Hi. rewrite (product_bit i), (product_bit (i - 1)) by lia. replace (Z.to_nat i) with (S (Z.to_nat (i - 1))) by lia. reflexivity.
Qed.

Lemma bit_cell_next i : 1 <= i < 64 → 256 * Z.shiftr (i - 1) 3 + Z.shiftl 1 (Z.land (i - 1) 7) ≠ 256 * Z.shiftr i 3 + Z.shiftl 1 (Z.land i 7).
Proof.
  intros Hi E. destruct (bit_cell_range i ltac:(lia)) as (Hi1 & Hi2 & Hi3 & Hi4). destruct (bit_cell_range (i - 1) ltac:(lia)) as (Hj1 & Hj2 & Hj3 & Hj4).
  assert (Z.shiftl 1 (Z.land (i - 1) 7) = Z.shiftl 1 (Z.land i 7)) as E' by lia. rewrite !Z.shiftl_1_l in E'. apply Z.pow_inj_r in E'; lia.
Qed.

Lemma pm_power_ok pm S a b a' b' :
  good pm S → 0 <= a < 8 → 0 <= b < 256 → 0 <= a' < 8 → 0 <= b' < 256 → S a b → 256 * a + b ≠ 256 * a' + b' →
  product a' b' = MULx64 (product a b) 0x1b →
  ∃ pm', pm_power pm a b a' b' = Ok pm' ∧ good pm' (λ i' x', S i' x' ∨ (i' = a' ∧ x' = b')).
Proof.
  intros HS Ha Hb Ha' Hb' Hab Hne Hval. unfold pm_power. rewrite (good_get pm S a b HS) by done. cbn [mbind outcome_bind].
  destruct (good_set pm S a' b' (product a' b') HS Ha' Hb' eq_refl) as (pm2 & E2 & H2). exists pm2. split; [|done].
  destruct HS as [Hl HS]. rewrite (pm_set_ok pm) in E2 |- * by done. cbn [mbind outcome_bind].
  specialize (HS a b Ha Hb Hab). rewrite Hval in E2. generalize dependent (product a b). intros x Hval HS E2.
  set (m := Z.to_nat (256 * a' + b')) in *. set (pm1 := <[m:=u64 (Z.shiftl x 1)]> pm).
  assert (pm_get pm1 a b = Ok x) as ->.
  { unfold pm_get. apply buf_get_lookup; [|lia]. unfold pm1. rewrite list_lookup_insert_ne; [done|lia]. }
  cbn [mbind outcome_bind]. rewrite <- E2. unfold MULx64. destruct (Z.testbit x 63); [|done].
  assert (length pm1 = 2048%nat) as Hl1 by (unfold pm1; by rewrite length_insert).
  assert (pm_get pm1 a' b' = Ok (u64 (Z.shiftl x 1))) as ->.
  { unfold pm_get. apply buf_get_lookup; [|lia]. unfold pm1. apply list_lookup_insert_eq. unfold m. lia. }
  cbn [mbind outcome_bind]. rewrite pm_set_ok by done. fold m. unfold pm1. by rewrite list_insert_insert_eq.
Qed.

Lemma pm_powers_ok n i pm S :
  1 <= i → i + Z.of_nat n <= 64 → good pm S → (∀ t i' x, 0 <= t < i → bit_cell t i' x → S i' x) →
  ∃ pm', pm_powers n i pm = Ok pm' ∧ good pm' (λ i' x, S i' x ∨ ∃ t, i <= t < i + Z.of_nat n ∧ bit_cell t i' x).
Proof.
  revert i pm S. induction n as [|n IH]; intros i pm S Hi Hn HS Hb; cbn [pm_powers].
  { exists pm. split; [done|]. eapply good_mono; [exact HS|]. intros i' x _ _ [H|(t & Ht & _)]; [done|lia]. }
  destruct (bit_cell_range i ltac:(lia)) as (Hi1 & Hi2 & _ & _). destruct (bit_cell_range (i - 1) ltac:(lia)) as (Hj1 & Hj2 & _ & _). cbv zeta.
  destruct (pm_power_ok pm S (Z.shiftr (i - 1) 3) (Z.shiftl 1 (Z.land (i - 1) 7)) (Z.shiftr i 3) (Z.shiftl 1 (Z.land i 7))
    HS Hj1 ltac:(lia) Hi1 ltac:(lia) (Hb (i - 1) _ _ ltac:(lia) (conj eq_refl eq_refl)) (bit_cell_next i ltac:(lia)) (product_next i ltac:(lia)))
    as (pm2 & -> & H2).
  cbn [mbind outcome_bind]. destruct (IH (i + 1) pm2 _ ltac:(lia) ltac:(lia) H2) as (pm3 & -> & H3).
  { intros t i' x' Ht Hc. destruct (decide (t = i)) as [->|]; [by right|]. left. apply (Hb t); [lia|done]. }
  exists pm3. split; [done|]. eapply good_mono; [exact H3|]. intros i' x' _ _ [H|(t & Ht & Hc)]; [by left; left|].
  destruct (decide (t = i)) as [->|]; [by left; right|]. right. exists t. split; [lia|done].
Qed.

(** Row [i] is filled up to [2^j] and has the powers of two. *)
Definition row (i n i' x : Z) : Prop := i' = i ∧ (0 <= x < n ∨ ∃ b, 0 <= b < 8 ∧ x = 2 ^ b).

Lemma product_sum i j k : 0 <= i → 0 <= j → 0 <= k < 2 ^ j → product i (2 ^ j + k) = Z.lxor (product i (2 ^ j)) (product i k).
Proof.
  intros Hi Hj Hk. pose proof (lxor_shiftl_add 1 k j Hj Hk) as E. rewrite Z.shiftl_1_l, Z.mul_1_l in E. rewrite <- E. unfold product.
  rewrite Z.shiftl_lxor. apply (linear_MUL64_r 0x1b p).
Qed.

Lemma pm_sums_k_ok n i j k pm S :
  0 <= i < 8 → 0 <= j < 8 → 1 <= k → k + Z.of_nat n = 2 ^ j → good pm S → (∀ i' x, row i (2 ^ j + k) i' x → S i' x) →
  ∃ pm', pm_sums_k n i j k pm = Ok pm' ∧ good pm' (λ i' x, S i' x ∨ row i (2 ^ (j + 1)) i' x).
Proof.
  intros Hi Hj. assert (2 ^ j <= 2 ^ 7) as Hj7 by (apply Z.pow_le_mono_r; lia). assert (2 ^ (j + 1) = 2 * 2 ^ j) as Hj1 by (rewrite Z.add_1_r, Z.pow_succ_r by lia; lia).
  revert k pm S. induction n as [|n IH]; intros k pm S Hk Hn HS Hr; cbn [pm_sums_k].
  { exists pm. split; [done|]. eapply good_mono; [exact HS|]. intros i' x _ _ [H|H]; [done|]. apply Hr. by replace (2 ^ j + k) with (2 ^ (j + 1)) by lia. }
  rewrite Z.shiftl_1_l.
  rewrite (good_get pm S i (2 ^ j) HS Hi) by (lia || (apply Hr; split; [done|right; exists j; lia])). cbn [mbind outcome_bind].
  rewrite (good_get pm S i k HS Hi) by (lia || (apply Hr; split; [done|left; lia])). cbn [mbind outcome_bind].
  destruct (good_set pm S i (2 ^ j + k) (Z.lxor (product i (2 ^ j)) (product i k)) HS Hi ltac:(lia)) as (pm1 & -> & H1); [symmetry; apply product_sum; lia|].
  cbn [mbind outcome_bind]. destruct (IH (k + 1) pm1 _ ltac:(lia) ltac:(lia) H1) as (pm2 & -> & H2).
  { intros i' x [-> Hx]. destruct (decide (x = 2 ^ j + k)) as [->|]; [by right|]. left. apply Hr. split; [done|]. destruct Hx as [Hx|Hx]; [left; lia|by right]. }
  exists pm2. split; [done|]. eapply good_mono; [exact H2|]. intros i' x _ _ [H|H]; [by left; left|by right].
Qed.

Lemma pm_sums_j_ok n i j pm S :
  0 <= i < 8 → 1 <= j → j + Z.of_nat n = 8 → good pm S → (∀ i' x, row i (2 ^ j) i' x → S i' x) →
  ∃ pm', pm_sums_j n i j pm = Ok pm' ∧ good pm' (λ i' x, S i' x ∨ i' = i).
Proof.
  intros Hi. revert j pm S. induction n as [|n IH]; intros j pm S Hj Hn HS Hr; cbn [pm_sums_j].
  { exists pm. split; [done|]. assert (j = 8) as -> by lia. eapply good_mono; [exact HS|].
    intros i' x _ Hx [H|H]; [done|]. apply Hr. split; [done|]. left. change (2 ^ 8) with 256. lia. }
  assert (2 <= 2 ^ j) as H2j by (change 2 with (2 ^ 1) at 1; apply Z.pow_le_mono_r; lia).
  destruct (pm_sums_k_ok (Z.to_nat (Z.shiftl 1 j - 1)) i j 1 pm S Hi ltac:(lia) ltac:(lia)) as (pm1 & -> & H1); [rewrite Z.shiftl_1_l; lia|done| |].
  { intros i' x [-> Hx]. apply Hr. split; [done|]. destruct Hx as [Hx|Hx]; [|by right]. destruct (decide (x = 2 ^ j)) as [->|]; [right; exists j; lia|left; lia]. }
  cbn [mbind outcome_bind]. destruct (IH (j + 1) pm1 _ ltac:(lia) ltac:(lia) H1) as (pm2 & -> & H2); [intros i' x Hx; by right|].
  exists pm2. split; [done|]. eapply good_mono; [exact H2|]. intros i' x _ _ [H|H]; [by left; left|by right].
Qed.

Lemma pm_sums_ok n i pm S :
  0 <= i → i + Z.of_nat n = 8 → good pm S → (∀ i' i'' x, i <= i' < 8 → row i' 2 i'' x → S i'' x) →
  ∃ pm', pm_sums n i pm = Ok pm' ∧ good pm' (λ i' x, S i' x ∨ i <= i').
Proof.
  revert i pm S. induction n as [|n IH]; intros i pm S Hi Hn HS Hr; cbn [pm_sums].
  { exists pm. split; [done|]. eapply good_mono; [exact HS|]. intros i' x H8 _ [H|H]; [done|lia]. }
  destruct (pm_sums_j_ok 7 i 1 pm S ltac:(lia) ltac:(lia) ltac:(lia) HS) as (pm1 & -> & H1); [intros i' x Hx; by apply (Hr i); [lia|]|].
  cbn [mbind outcome_bind]. destruct (IH (i + 1) pm1 _ ltac:(lia) ltac:(lia) H1) as (pm2 & -> & H2).
  { intros i' i'' x Hi' Hx. left. apply (Hr i'); [lia|done]. }
  exists pm2. split; [done|]. eapply good_mono; [exact H2|]. intros i' x _ _ [H|H]; [by left; left|].
  destruct (decide (i' = i)) as [->|]; [by left; right|right; lia].
Qed.

(** The table, whatever the array held. *)
Lemma pm_table_ok mem : length mem = 2048%nat → ∃ pm, pm_table mem p = Ok pm ∧ good pm (λ _ _, True).
Proof.
  intros Hm. unfold pm_table.
  destruct (pm_zero_ok 8 0 mem (λ _ _, False) ltac:(lia) ltac:(lia)) as (pm1 & -> & H1); [by split|]. cbn [mbind outcome_bind].
  destruct (good_set pm1 _ 0 1 p H1 ltac:(lia) ltac:(lia)) as (pm2 & -> & H2).
  { symmetry. exact (product_bit 0 ltac:(lia)). }
  cbn [mbind outcome_bind].
  destruct (pm_powers_ok 63 1 pm2 _ ltac:(lia) ltac:(lia) H2) as (pm3 & -> & H3).
  { intros t i x Ht [-> ->]. assert (t = 0) as -> by lia. by right. }
  cbn [mbind outcome_bind]. destruct (pm_sums_ok 8 0 pm3 _ ltac:(lia) ltac:(lia) H3) as (pm4 & -> & H4).
  { intros i' i x Hi [-> [Hx|(b & Hb & ->)]].
    - destruct (decide (x = 0)) as [->|]; [left; left; right; lia|]. assert (x = 1) as -> by lia.
      destruct (decide (i' = 0)) as [->|]; [by left; right|]. right. exists (8 * i'). split; [lia|].
      destruct (bit_cell_range (8 * i') ltac:(lia)) as (_ & _ & H7 & E). assert (Z.shiftr (8 * i') 3 = i' ∧ Z.land (8 * i') 7 = 0) as [Ea Eb] by lia.
      unfold bit_cell. by rewrite Ea, Eb.
    - destruct (decide (i' = 0 ∧ b = 0)) as [[-> ->]|]; [by left; right|]. right. exists (8 * i' + b). split; [lia|].
      destruct (bit_cell_range (8 * i' + b) ltac:(lia)) as (_ & _ & H7 & E).
      assert (Z.shiftr (8 * i' + b) 3 = i' ∧ Z.land (8 * i' + b) 7 = b) as [Ea Eb] by lia.
      unfold bit_cell. rewrite Ea, Eb. by rewrite Z.shiftl_1_l. }
  exists pm4. split; [done|]. eapply good_mono; [exact H4|]. intros i x Hi _ _. right. lia.
Qed.

(** The product with [p], octet by octet. *)
Lemma mul_p_loop_ok n (k : nat) pm x acc :
  good pm (λ _ _, True) → 0 <= x < 2 ^ 64 → (k + n = 8)%nat → acc = MUL64 p (x mod 2 ^ (8 * Z.of_nat k)) 0x1b →
  mul_p_loop n (Z.of_nat k) pm x acc = Ok (MUL64 p x 0x1b).
Proof.
  intros HG Hx. revert k acc. induction n as [|n IH]; intros k acc Hk ->; cbn [mul_p_loop].
  { assert (k = 8%nat) as -> by lia. by rewrite Z.mod_small. }
  pose proof (octet_range x (Z.of_nat k)) as Ho. unfold is_byte in Ho.
  rewrite (good_get pm _ _ _ HG) by (done || lia). cbn [mbind outcome_bind]. replace (Z.of_nat k + 1) with (Z.of_nat (S k)) by lia. apply IH; [lia|].
  unfold product. rewrite <- (linear_MUL64_r 0x1b p). f_equal. rewrite Z.lxor_comm, lxor_shiftl_add by (try apply Z.mod_pos_bound; lia).
  rewrite octet_div by lia. replace (8 * Z.of_nat (S k)) with (8 * Z.of_nat k + 8) by lia. rewrite Z.pow_add_r, Z.rem_mul_r by lia. change (2 ^ 8) with 256. lia.
Qed.

Lemma mul_p_ok pm x : good pm (λ _ _, True) → 0 <= x < 2 ^ 64 → mul_p pm x = Ok (MUL x p 0x1b).
Proof.
  intros HG Hx. unfold mul_p. change 0 with (Z.of_nat 0) at 1. rewrite (mul_p_loop_ok 8 0 pm x 0) by (done || lia || (by rewrite Z.mod_1_r, MUL64_0)).
  f_equal. rewrite <- (MUL64_spec 0x1b x p). exact (MUL64_comm 0x1b p x Hp Hx).
Qed.
End table.
