(* ===== verification/Snow3gAlgos.v ===== *)
(** * Ciphering and integrity with Snow 3G

    [snow3g_ciphering] and [snow3g_integrity] compute f8 (UEA2) and f9 (UIA2) of the
    specification; with them, the laws that PDCP relies on hold of its algorithms 1. *)

From Stdlib Require Import Btauto.
From S2P Require Import Prelude Bits Gf2 Snow3gTables Snow3g Snow3gSpec Snow3gProofs Snow3gMul PdcpEntity.

(** ** Keys and vectors *)

Lemma octets32_of w : octets32 w = octets_of 4 w.
Proof.
  unfold octets32, octet. cbn [octets_of]. change 255 with (Z.ones 8). rewrite !Z.land_ones by lia. done.
Qed.

Lemma word_number a b c d : is_byte b → is_byte c → is_byte d → word a b c d = number [a; b; c; d] 0.
Proof. intros. rewrite word_add by done. cbn [number]. lia. Qed.

(** The words of the key as the generator is given them. *)
Lemma load_key_ok key :
  length key = 16%nat → Forall is_byte key →
  ∃ k, load_key key = Ok k ∧ GET32 k 0 = Ok (key_word key 0) ∧ GET32 k 4 = Ok (key_word key 1) ∧
       GET32 k 8 = Ok (key_word key 2) ∧ GET32 k 12 = Ok (key_word key 3) ∧
       Forall is_u32 [key_word key 0; key_word key 1; key_word key 2; key_word key 3].
Proof.
  intros Hl Hb. do 16 (destruct key as [|? key]; [discriminate Hl|]). destruct key; [|discriminate Hl].
  rewrite !Forall_cons in Hb. decompose [and] Hb. eexists. split; [reflexivity|].
  unfold key_word. cbn [Nat.mul Nat.add Nat.sub drop take].
  rewrite <- !word_number by done.
  split_and!; try (apply GET32_ok; [lia|reflexivity]).
  repeat (apply Forall_cons_2; [by apply word_u32|]). apply Forall_nil_2.
Qed.

Lemma GET32_word (b : bytes) off w :
  0 <= off → is_u32 w → take 4 (drop (Z.to_nat off) b) = octets32 w → GET32 b off = Ok w.
Proof.
  intros Ho Hw H. unfold octets32 in H. rewrite (GET32_ok b off _ _ _ _ Ho H). f_equal. by apply octets_word.
Qed.

Lemma word_top b : is_byte b → octets32 (b * 2 ^ 24) = [b; 0; 0; 0] ∧ is_u32 (b * 2 ^ 24).
Proof.
  intros Hb. unfold is_byte, is_u32 in *. split; [|lia]. unfold octets32.
  rewrite !octet_div by lia. change (2 ^ (8 * 3)) with (2 ^ 24). rewrite Z.div_mul, (Z.mod_small b) by lia.
  f_equal. assert (∀ k, 0 <= k <= 2 → (b * 2 ^ 24 / 2 ^ (8 * k)) mod 256 = 0) as H; [|by rewrite !H by lia].
  intros k Hk. replace (2 ^ 24) with (2 ^ (16 - 8 * k) * 2 ^ 8 * 2 ^ (8 * k)).
  2:{ rewrite <- !Z.pow_add_r by lia. f_equal. lia. }
  rewrite Z.mul_assoc, Z.div_mul by (apply Z.pow_nonzero; lia). rewrite Z.mul_assoc. change 256 with (2 ^ 8). apply Z.mod_mul. lia.
Qed.

(** ** The key stream applied *)

Lemma xor_loop_ok n (i : nat) (in_ ks : bytes) :
  (i + n <= length in_)%nat → (i + n <= length ks)%nat →
  xor_loop n (Z.of_nat i) in_ ks = Ok (zip_with Z.lxor (take n (drop i in_)) (drop i ks)).
Proof.
  revert i. induction n as [|n IH]; intros i Hi Hk; cbn [xor_loop]; [by rewrite take_0|].
  destruct (lookup_lt_is_Some_2 in_ i ltac:(lia)) as [x Hx]. destruct (lookup_lt_is_Some_2 ks i ltac:(lia)) as [k Hkx].
  rewrite (buf_get_lookup in_ (Z.of_nat i) x), (buf_get_lookup ks (Z.of_nat i) k) by (try rewrite Nat2Z.id; done || lia). cbn [mbind outcome_bind].
  replace (Z.of_nat i + 1) with (Z.of_nat (S i)) by lia. rewrite IH by lia. cbn [mbind outcome_bind].
  by rewrite (drop_S in_ x i Hx), (drop_S ks k i Hkx).
Qed.

Lemma outputs_prefix n k g : ∃ l, outputs (n + k) g = outputs n g ++ l.
Proof.
  revert g. induction n as [|n IH]; intros g; [by exists (outputs k g)|].
  destruct (IH (clock_lfsr (fsm_next g) 0)) as [l Hl]. exists l. cbn [outputs Nat.add]. by rewrite Hl.
Qed.

Lemma length_outputs n g : length (outputs n g) = n.
Proof. revert g. induction n as [|n IH]; intros g; [done|]. cbn [outputs length]. by rewrite IH. Qed.

Lemma length_key_octets l : length (flat_map octets32 l) = (4 * length l)%nat.
Proof. induction l as [|w l IH]; [done|]. cbn [flat_map]. rewrite length_app, IH. cbn [octets32 length]. lia. Qed.

Lemma zip_with_prefix (m a b : bytes) : (length m <= length a)%nat → zip_with Z.lxor m (a ++ b) = zip_with Z.lxor m a.
Proof. revert a. induction m as [|x m IH]; intros [|y a] H; cbn in *; try done; [lia|]. f_equal. apply IH. lia. Qed.

Lemma cipher_iv_ok count bearer direction :
  is_u32 count → 0 <= bearer < 32 → 0 <= direction <= 1 →
  let iv := cipher_iv count bearer direction in let b := bearer * 2 ^ 27 + direction * 2 ^ 26 in
  is_u32 b ∧ GET32 iv 0 = Ok b ∧ GET32 iv 4 = Ok count ∧ GET32 iv 8 = Ok b ∧ GET32 iv 12 = Ok count.
Proof.
  intros Hc Hb Hd. unfold cipher_iv. cbv zeta.
  assert (u8 (Z.lor (Z.shiftl bearer 3) (Z.shiftl direction 2)) = 8 * bearer + 4 * direction) as ->.
  { rewrite lor_shiftl_add by (rewrite ?Z.shiftl_mul_pow2 by lia; lia). rewrite Z.shiftl_mul_pow2 by lia. unfold u8. rewrite Z.mod_small; lia. }
  set (b := 8 * bearer + 4 * direction). assert (is_byte b) as Hbb by (unfold is_byte, b; lia).
  replace (bearer * 2 ^ 27 + direction * 2 ^ 26) with (b * 2 ^ 24) by (unfold b; lia).
  destruct (word_top b Hbb) as [Ew Hw]. split; [done|]. rewrite <- Ew.
  split_and!; (apply GET32_word; [lia|done|reflexivity]).
Qed.

Lemma Forall_ivs a b c d : is_u32 a → is_u32 b → is_u32 c → is_u32 d → Forall is_u32 [a; b; c; d].
Proof. intros. repeat (apply Forall_cons_2; [done|]). apply Forall_nil_2. Qed.

(** C6: ciphering with algorithm 1 is UEA2: for every key, COUNT, bearer, direction and
    message, [snow3g_ciphering] returns the message under the key stream of the specification,
    with the boxes and multiplications as defined there and not by tables, whatever the
    uninitialised half of the register array holds; no access is out of bounds. *)
Theorem snow3g_ciphering_f8 mem count bearer direction key m :
  length mem = 16%nat → is_u32 count → 0 <= bearer < 32 → 0 <= direction <= 1 → length key = 16%nat → Forall is_byte key → zlen m < 2 ^ 31 →
  snow3g_ciphering mem count bearer direction key (zlen m) m = Ok (f8 key count bearer direction m).
Proof.
  intros Hm Hc Hb Hd Hk Hkb Hl. unfold snow3g_ciphering.
  destruct (load_key_ok key Hk Hkb) as (k & -> & K0 & K1 & K2 & K3 & HK). cbn [mbind outcome_bind].
  destruct (cipher_iv_ok count bearer direction Hc Hb Hd) as (Hbu & I0 & I1 & I2 & I3).
  destruct (snow3g_init_ok mem k _ _ _ _ _ _ _ _ _ Hm (proj2 (Forall_app _ _ _) (conj HK (Forall_ivs _ _ _ _ Hbu Hc Hbu Hc))) K0 K1 K2 K3 I0 I1 I2 I3) as (s & -> & Hs).
  cbn [mbind outcome_bind]. pose proof (zlen_nonneg m). rewrite u32_small by lia. rewrite Hs. cbn [mbind outcome_bind].
  fold (f8_generator key count bearer direction). unfold f8. set (g := clock_lfsr (fsm_next (f8_generator key count bearer direction)) 0).
  unfold key_words. fold g. set (n := Z.to_nat ((zlen m + 3) / 4)).
  assert (length m <= 4 * n ∧ n <= length m / 4 + 1)%nat as [Hn1 Hn2].
  { unfold n, zlen. pose proof (Nat.div_mod_eq (length m) 4). pose proof (Nat.mod_upper_bound (length m) 4 ltac:(lia)).
    pose proof (Z.div_mod (Z.of_nat (length m) + 3) 4 ltac:(lia)). pose proof (Z.mod_pos_bound (Z.of_nat (length m) + 3) 4 ltac:(lia)). lia. }
  replace (Z.to_nat (zlen m)) with (length m) by (unfold zlen; lia).
  change 0 with (Z.of_nat 0) at 1. rewrite xor_loop_ok by (rewrite ?length_key_octets, ?length_outputs; lia).
  rewrite !drop_0, firstn_all. f_equal.
  destruct (outputs_prefix n (length m / 4 + 1 - n) g) as [l E]. replace (n + (length m / 4 + 1 - n))%nat with (length m / 4 + 1)%nat in E by lia.
  rewrite E, flat_map_app. rewrite (flat_map_ext octets32 (octets_of 4)) by apply octets32_of. symmetry. apply zip_with_prefix.
  rewrite <- (flat_map_ext octets32 (octets_of 4)) by apply octets32_of. rewrite length_key_octets, length_outputs. lia.
Qed.

Lemma snow3g_ciphering_f8_witness :
  snow3g_ciphering (replicate 16 7) 0x72A4F20F 0x0c 1
    [0x2B; 0xD6; 0x45; 0x9F; 0x82; 0xC5; 0xB3; 0x00; 0x95; 0x2C; 0x49; 0x10; 0x48; 0x81; 0xFF; 0x48] 8
    [0x7E; 0xC6; 0x12; 0x72; 0x74; 0x3B; 0xF1; 0x61] = Ok [0x8C; 0xEB; 0xA6; 0x29; 0x43; 0xDC; 0xED; 0x3A] ∧
  snow3g_ciphering (replicate 16 7) 0x72A4F20F 0x0c 1
    [0x2B; 0xD6; 0x45; 0x9F; 0x82; 0xC5; 0xB3; 0x00; 0x95; 0x2C; 0x49; 0x10; 0x48; 0x81; 0xFF; 0x48] 8
    [0x7E; 0xC6; 0x12; 0x72; 0x74; 0x3B; 0xF1; 0x61] =
  Ok (f8 [0x2B; 0xD6; 0x45; 0x9F; 0x82; 0xC5; 0xB3; 0x00; 0x95; 0x2C; 0x49; 0x10; 0x48; 0x81; 0xFF; 0x48] 0x72A4F20F 0x0c 1
        [0x7E; 0xC6; 0x12; 0x72; 0x74; 0x3B; 0xF1; 0x61]).
Proof.
  split; [vm_compute; reflexivity|].
  apply (snow3g_ciphering_f8 (replicate 16 7) 0x72A4F20F 0x0c 1
    [0x2B; 0xD6; 0x45; 0x9F; 0x82; 0xC5; 0xB3; 0x00; 0x95; 0x2C; 0x49; 0x10; 0x48; 0x81; 0xFF; 0x48] [0x7E; 0xC6; 0x12; 0x72; 0x74; 0x3B; 0xF1; 0x61]).
  - reflexivity.
  - unfold is_u32. lia.
  - lia.
  - lia.
  - reflexivity.
  - repeat (apply Forall_cons_2; [unfold is_byte; lia|]). apply Forall_nil_2.
  - reflexivity.
Defined.

(** ** Blocks of the message *)

Lemma lor_octets a b c d e f g h :
  is_byte b → is_byte c → is_byte d → is_byte e → is_byte f → is_byte g → is_byte h →
  Z.lor (Z.lor (Z.lor (Z.lor (Z.lor (Z.lor (Z.lor (Z.shiftl a 56) (Z.shiftl b 48)) (Z.shiftl c 40)) (Z.shiftl d 32))
    (Z.shiftl e 24)) (Z.shiftl f 16)) (Z.shiftl g 8)) h = number [a; b; c; d; e; f; g; h] 0.
Proof.
  unfold is_byte. intros Hb Hc Hd He Hf Hg Hh.
  assert (∀ x y n m, 0 <= n → m = 8 + n → 0 <= y < 2 ^ 8 → Z.lor (Z.shiftl x m) (Z.shiftl y n) = Z.shiftl (x * 2 ^ 8 + y) n) as H.
  { intros x y n m Hn -> Hy. rewrite <- Z.shiftl_shiftl, <- Z.shiftl_lor, lor_shiftl_add by lia. done. }
  rewrite (H a b 48), (H _ c 40), (H _ d 32), (H _ e 24), (H _ f 16), (H _ g 8), lor_shiftl_add by lia. cbn [number]. lia.
Qed.

(** The octets available, then zeros. *)
Lemma GET64_ok (m : bytes) off :
  Forall is_byte m → 0 <= off < zlen m →
  GET64 m off (Z.min 8 (zlen m - off)) = Ok (number (take 8 (drop (Z.to_nat off) m ++ replicate 8 0)) 0).
Proof.
  intros Hb Ho. set (l := drop (Z.to_nat off) m ++ replicate 8 0).
  assert (Forall is_byte l) as Hlb by (apply Forall_app; split; [by apply Forall_drop|apply Forall_replicate; unfold is_byte; lia]).
  assert (∀ i : nat, (i < 8)%nat → ∃ x, l !! i = Some x ∧ (if Z.of_nat i <? Z.min 8 (zlen m - off) then buf_get m (off + Z.of_nat i) else Ok 0) = Ok x) as Hg.
  { intros i Hi. unfold l. destruct (Z.ltb_spec (Z.of_nat i) (Z.min 8 (zlen m - off))) as [Hlt|Hge]; unfold zlen in *.
    - destruct (lookup_lt_is_Some_2 m (Z.to_nat off + i)) as [x Hx]; [lia|]. exists x. split.
      + rewrite lookup_app_l by (rewrite length_drop; lia). by rewrite lookup_drop.
      + apply buf_get_lookup; [|lia]. by replace (Z.to_nat (off + Z.of_nat i)) with (Z.to_nat off + i)%nat by lia.
    - exists 0. split; [|done]. rewrite lookup_app_r by (rewrite length_drop; lia). apply lookup_replicate_2. rewrite length_drop. lia. }
  unfold GET64. cbv zeta.
  destruct (Hg 0%nat ltac:(lia)) as (a & La & Ea). destruct (Hg 1%nat ltac:(lia)) as (b & Lb & Eb).
  destruct (Hg 2%nat ltac:(lia)) as (c & Lc & Ec). destruct (Hg 3%nat ltac:(lia)) as (d & Ld & Ed).
  destruct (Hg 4%nat ltac:(lia)) as (e & Le & Ee). destruct (Hg 5%nat ltac:(lia)) as (f & Lf & Ef).
  destruct (Hg 6%nat ltac:(lia)) as (g & Lg & Eg). destruct (Hg 7%nat ltac:(lia)) as (h & Lh & Eh).
  change (Z.of_nat 0) with 0 in Ea. change (Z.of_nat 1) with 1 in Eb. change (Z.of_nat 2) with 2 in Ec. change (Z.of_nat 3) with 3 in Ed.
  change (Z.of_nat 4) with 4 in Ee. change (Z.of_nat 5) with 5 in Ef. change (Z.of_nat 6) with 6 in Eg. change (Z.of_nat 7) with 7 in Eh.
  rewrite Ea, Eb, Ec, Ed, Ee, Ef, Eg, Eh. cbn [mbind outcome_bind].
  assert (take 8 l = [a; b; c; d; e; f; g; h]) as ->.
  { clear -La Lb Lc Ld Le Lf Lg Lh. do 8 (destruct l as [|? l]; [discriminate|]). cbn in *. by simplify_eq. }
  rewrite Forall_forall in Hlb. f_equal.
  apply lor_octets; apply Hlb; eapply list_elem_of_lookup_2; eassumption.
Qed.

Lemma number_range l : Forall is_byte l → 0 <= number l 0 < 2 ^ (8 * zlen l).
Proof.
  assert (∀ l acc, Forall is_byte l → 0 <= acc → 0 <= number l acc < (acc + 1) * 2 ^ (8 * zlen l)) as H.
  { clear l. induction l as [|x l IH]; intros acc Hl Ha; cbn [number]; [change (zlen (@nil Z)) with 0; cbn; lia|].
    inversion_clear Hl as [|? ? Hx Hl']. unfold is_byte in Hx. destruct (IH (256 * acc + x) Hl' ltac:(lia)) as [H1 H2]. split; [done|].
    eapply Z.lt_le_trans; [exact H2|]. rewrite zlen_cons. replace (8 * (1 + zlen l)) with (8 + 8 * zlen l) by lia.
    pose proof (zlen_nonneg l). rewrite Z.pow_add_r by lia. assert (0 < 2 ^ (8 * zlen l)) by (apply Z.pow_pos_nonneg; lia). nia. }
  intros Hl. specialize (H l 0 Hl ltac:(lia)). lia.
Qed.

Lemma block_range (m : bytes) : Forall is_byte m → 0 <= number (take 8 (m ++ replicate 8 0)) 0 < 2 ^ 64.
Proof.
  intros Hm. pose proof (number_range (take 8 (m ++ replicate 8 0))) as H. unfold zlen in H. rewrite length_take, length_app, length_replicate in H.
  replace (8 * Z.of_nat (8 `min` (length m + 8))) with 64 in H by lia. apply H. apply Forall_take, Forall_app. split; [done|].
  apply Forall_replicate. unfold is_byte. lia.
Qed.

Definition eval_blocks (P : Z) (bs : list Z) (e : Z) : Z := fold_left (λ e b, MUL (Z.lxor e b) P 0x1b) bs e.

Lemma MUL_range v P : 0 <= v < 2 ^ 64 → 0 <= MUL v P 0x1b < 2 ^ 64.
Proof. intros Hv. rewrite <- MUL64_spec. apply MUL64_range; lia. Qed.

Lemma blocks_snoc n m : blocks (S n) m = blocks n m ++ [number (take 8 (drop (8 * n) m ++ replicate 8 0)) 0].
Proof.
  revert m. induction n as [|n IH]; intros m; [by rewrite Nat.mul_0_r, drop_0|].
  change (blocks (S (S n)) m) with (number (take 8 (m ++ replicate 8 0)) 0 :: blocks (S n) (drop 8 m)). rewrite IH.
  change (blocks (S n) m) with (number (take 8 (m ++ replicate 8 0)) 0 :: blocks n (drop 8 m)). cbn [app]. do 3 f_equal.
  rewrite drop_drop. by replace (8 + 8 * n)%nat with (8 * S n)%nat by lia.
Qed.

Lemma eval_loop_ok n (i : nat) pm P (m : bytes) e :
  0 <= P < 2 ^ 64 → good P pm (λ _ _, True) → Forall is_byte m → 8 * Z.of_nat (i + n) < zlen m →
  0 <= e < 2 ^ 64 → e = eval_blocks P (blocks i m) 0 →
  eval_loop n (Z.of_nat i) pm m e = Ok (eval_blocks P (blocks (i + n) m) 0) ∧ 0 <= eval_blocks P (blocks (i + n) m) 0 < 2 ^ 64.
Proof.
  intros HP HG Hm. revert i e. induction n as [|n IH]; intros i e Hl He Ee; cbn [eval_loop]; [rewrite Nat.add_0_r, <- Ee; done|].
  pose proof (GET64_ok m (Z.of_nat i * 8) Hm ltac:(lia)) as HG8. rewrite Z.min_l in HG8 by lia. rewrite HG8. clear HG8. cbn [mbind outcome_bind].
  replace (Z.to_nat (Z.of_nat i * 8)) with (8 * i)%nat by lia.
  pose proof (block_range (drop (8 * i) m) ltac:(by apply Forall_drop)) as Hbr. set (b := number _ 0) in *.
  assert (0 <= Z.lxor e b < 2 ^ 64) as Hx by (apply lxor_range; lia).
  rewrite (mul_p_ok P HP pm _ HG Hx). cbn [mbind outcome_bind]. replace (Z.of_nat i + 1) with (Z.of_nat (S i)) by lia.
  replace (i + S n)%nat with (S i + n)%nat by lia. apply IH; [lia|exact (MUL_range _ P Hx)|].
  rewrite blocks_snoc. unfold eval_blocks. rewrite fold_left_app. fold (eval_blocks P (blocks i m) 0). rewrite <- Ee. cbn [fold_left]. fold b. reflexivity.
Qed.

(** ** The words of the key stream *)

Definition gen_ok (g : generator) : Prop := length (stages g) = 16%nat ∧ Forall is_u32 (stages g) ∧ regs_u32 g.

Lemma gen_refines g : gen_ok g → refines (mk_snow3g (stages g ++ stages g) 0 (R1 g) (R2 g) (R3 g)) g.
Proof.
  intros (Hl & Hw & _). split; cbn [_s s_off Snow3g.r1 Snow3g.r2 Snow3g.r3]; [rewrite length_app; lia|lia| |lia|done|done].
  rewrite drop_0. symmetry. by apply take_app_length'.
Qed.

Lemma clock_ok g f : gen_ok g → is_u32 f → gen_ok (clock_lfsr g f).
Proof.
  intros Hg Hf. pose proof (feedback_u32 _ g (gen_refines g Hg)) as Hv. destruct Hg as (Hl & Hw & Hr). split_and!; [| |apply clock_regs; exact Hr].
  - unfold clock_lfsr. cbn [stages]. rewrite length_app, length_tl, Hl. done.
  - unfold clock_lfsr. cbn [stages]. apply Forall_app. split; [destruct (stages g); [done|]; by inversion_clear Hw|].
    apply Forall_cons_2; [|apply Forall_nil_2]. by apply (lxor_u32 (feedback g)).
Qed.

Lemma fsm_ok g : gen_ok g → gen_ok (fsm_next g).
Proof. intros (Hl & Hw & Hr). split; [exact Hl|]. split; [exact Hw|]. by apply fsm_regs. Qed.

Lemma outputs_u32 n g : gen_ok g → Forall is_u32 (outputs n g).
Proof.
  revert g. induction n as [|n IH]; intros g Hg; cbn [outputs]; [apply Forall_nil_2|]. apply Forall_cons_2.
  - pose proof Hg as (Hl & Hw & Hr). apply lxor_u32; [by apply fsm_word_u32|]. by apply (stage_u32 _ _ 0 (gen_refines g Hg)); lia.
  - apply IH, clock_ok; [by apply fsm_ok|unfold is_u32; lia].
Qed.

Lemma initialise_ok k0 k1 k2 k3 iv0 iv1 iv2 iv3 :
  Forall is_u32 [k0; k1; k2; k3; iv0; iv1; iv2; iv3] → gen_ok (initialise k0 k1 k2 k3 iv0 iv1 iv2 iv3).
Proof.
  intros Hw. rewrite !Forall_cons in Hw. destruct Hw as (? & ? & ? & ? & ? & ? & ? & ? & _). unfold initialise.
  assert (∀ n g, gen_ok g → gen_ok (Nat.iter n init_clock g)) as Hit.
  { induction n as [|n IH]; intros g Hg; [done|]. rewrite Nat.iter_succ. unfold init_clock at 1. pose proof (IH g Hg) as Hn.
    apply clock_ok; [by apply fsm_ok|]. apply fsm_word_u32, Hn. }
  cbv zeta. apply Hit. assert (is_u32 0xffffffff) by (unfold is_u32; lia). assert (is_u32 0) by (unfold is_u32; lia).
  split; [reflexivity|]. split; [|by split_and!]. cbn [stages].
  repeat (apply Forall_cons_2; [solve [repeat (apply lxor_u32; [|assumption]); assumption]|]). apply Forall_nil_2.
Qed.

(** ** Integrity *)

Lemma integrity_iv_ok count fresh direction :
  is_u32 count → is_u32 fresh → 0 <= direction <= 1 →
  let iv := integrity_iv count fresh direction in
  GET32 iv 0 = Ok (Z.lxor fresh (direction * 2 ^ 15)) ∧ GET32 iv 4 = Ok (Z.lxor count (direction * 2 ^ 31)) ∧
  GET32 iv 8 = Ok fresh ∧ GET32 iv 12 = Ok count ∧ is_u32 (Z.lxor fresh (direction * 2 ^ 15)) ∧ is_u32 (Z.lxor count (direction * 2 ^ 31)).
Proof.
  intros Hc Hf Hd. unfold integrity_iv. cbv zeta.
  assert (Z.shiftl (Z.land direction 1) 7 = direction * 2 ^ 7) as ->.
  { change 1 with (Z.ones 1). rewrite Z.land_ones, Z.mod_small by lia. by rewrite Z.shiftl_mul_pow2 by lia. }
  assert (is_byte (direction * 2 ^ 7)) as Hdb by (unfold is_byte; lia).
  assert (is_byte 0) as H0 by (unfold is_byte; lia).
  assert (is_u32 (direction * 2 ^ 15) ∧ is_u32 (direction * 2 ^ 31)) as [H15 H31] by (unfold is_u32; lia).
  split_and!; [| |by apply GET32_word; [lia| |reflexivity]|by apply GET32_word; [lia| |reflexivity]|by apply lxor_u32|by apply lxor_u32].
  - rewrite (GET32_ok _ 0 (octet fresh 3) (octet fresh 2) (Z.lxor (octet fresh 1) (direction * 2 ^ 7)) (octet fresh 0)) by (lia || reflexivity). f_equal.
    pose proof (word_lxor (octet fresh 3) (octet fresh 2) (octet fresh 1) (octet fresh 0) 0 0 (direction * 2 ^ 7) 0) as E.
    rewrite !Z.lxor_0_r in E. rewrite E, octets_word, (word_add 0) by (done || apply octet_range). f_equal. lia.
  - rewrite (GET32_ok _ 4 (Z.lxor (octet count 3) (direction * 2 ^ 7)) (octet count 2) (octet count 1) (octet count 0)) by (lia || reflexivity). f_equal.
    pose proof (word_lxor (octet count 3) (octet count 2) (octet count 1) (octet count 0) (direction * 2 ^ 7) 0 0 0) as E.
    rewrite !Z.lxor_0_r in E. rewrite E, octets_word, word_add by (done || apply octet_range). f_equal. lia.
Qed.

Lemma snow3g_integrity_f9 mem pm_mem count fresh direction key m :
  length mem = 16%nat → length pm_mem = 2048%nat → is_u32 count → is_u32 fresh → 0 <= direction <= 1 → length key = 16%nat → Forall is_byte key →
  Forall is_byte m → 0 < zlen m < 2 ^ 28 →
  _snow3g_integrity mem pm_mem count fresh direction key (zlen m) m = Ok (f9 key count fresh direction m).
Proof.
  intros Hm Hpm Hc Hf Hd Hk Hkb Hmb Hl. unfold _snow3g_integrity.
  destruct (load_key_ok key Hk Hkb) as (k & -> & K0 & K1 & K2 & K3 & HK). cbn [mbind outcome_bind].
  destruct (integrity_iv_ok count fresh direction Hc Hf Hd) as (I0 & I1 & I2 & I3 & Hi0 & Hi1).
  pose proof (proj2 (Forall_app _ _ _) (conj HK (Forall_ivs _ _ _ _ Hi0 Hi1 Hf Hc))) as Hall.
  destruct (snow3g_init_ok mem k _ _ _ _ _ _ _ _ _ Hm Hall K0 K1 K2 K3 I0 I1 I2 I3) as (s & -> & Hs). cbn [mbind outcome_bind]. rewrite Hs.
  unfold f9. fold (f9_generator key count fresh direction). cbn [mbind outcome_bind].
  assert (Forall is_u32 (key_words 5 (f9_generator key count fresh direction))) as Hz.
  { assert (is_u32 0) as H0 by (unfold is_u32; lia).
    exact (outputs_u32 5 _ (clock_ok _ 0 (fsm_ok _ (initialise_ok _ _ _ _ _ _ _ _ Hall)) H0)). }
  pose proof (length_outputs 5 (clock_lfsr (fsm_next (f9_generator key count fresh direction)) 0)) as H5. fold (key_words 5 (f9_generator key count fresh direction)) in H5.
  destruct (key_words 5 (f9_generator key count fresh direction)) as [|z0 [|z1 [|z2 [|z3 [|z4 [|? ?]]]]]]; try discriminate H5.
  rewrite !Forall_cons in Hz. destruct Hz as (Hz0 & Hz1 & Hz2 & Hz3 & Hz4 & _). unfold is_u32 in Hz0, Hz1, Hz2, Hz3. cbn [nth]. cbv zeta.
  rewrite (lor_shiftl_add z0), (lor_shiftl_add z2) by lia. set (P := z0 * 2 ^ 32 + z1). set (Q := z2 * 2 ^ 32 + z3).
  assert (0 <= P < 2 ^ 64) as HP by (unfold P; lia). assert (0 <= Q < 2 ^ 64) as HQ by (unfold Q; lia).
  destruct (pm_table_ok P pm_mem Hpm) as (pm & -> & HG). cbn [mbind outcome_bind].
  set (n := ((length m + 7) / 8)%nat).
  assert (1 <= n ∧ 8 * (n - 1) < length m <= 8 * n)%nat as [Hn1 Hn2].
  { unfold n. unfold zlen in Hl. pose proof (Nat.div_mod_eq (length m + 7) 8). pose proof (Nat.mod_upper_bound (length m + 7) 8 ltac:(lia)). lia. }
  assert (Z.quot (zlen m * 8 + 63) 64 + 1 - 2 = Z.of_nat (n - 1)) as ->.
  { rewrite Z.quot_div_nonneg by lia. unfold zlen in *. enough ((Z.of_nat (length m) * 8 + 63) / 64 = Z.of_nat n) by lia.
    symmetry. apply (Z.div_unique_pos _ _ _ (Z.of_nat (length m) * 8 + 63 - 64 * Z.of_nat n)); lia. }
  rewrite Nat2Z.id. change 0 with (Z.of_nat 0) at 1.
  destruct (eval_loop_ok (n - 1) 0 pm P m 0 HP HG Hmb) as [-> Hev]; [unfold zlen; lia|lia|done|]. cbn [mbind outcome_bind].
  rewrite (GET64_ok m (Z.of_nat (n - 1) * 8) Hmb) by (unfold zlen; lia). cbn [mbind outcome_bind].
  replace (Z.to_nat (Z.of_nat (n - 1) * 8)) with (8 * (n - 1))%nat by lia.
  pose proof (block_range (drop (8 * (n - 1)) m) ltac:(by apply Forall_drop)) as Hbr.
  rewrite (mul_p_ok P HP pm) by (done || apply lxor_range; lia). cbn [mbind outcome_bind].
  assert (blocks n m = blocks (n - 1) m ++ [number (take 8 (drop (8 * (n - 1)) m ++ replicate 8 0)) 0]) as ->.
  { replace n with (S (n - 1)) at 1 by lia. apply blocks_snoc. }
  rewrite fold_left_app. cbn [fold_left]. fold (eval_blocks P (blocks (n - 1) m) 0). rewrite Nat.add_0_l in *.
  rewrite u64_small by lia. rewrite (Z.mul_comm (zlen m) 8), MUL64_spec, octets32_of, Z.shiftr_div_pow2 by lia. done.
Qed.

(** C8: integrity with algorithm 1 is UIA2: for every key, COUNT, bearer, direction and
    nonempty message, [snow3g_integrity] returns the MAC of the specification, where the
    message is evaluated as a polynomial with the multiplication of the field of [2^64]
    elements: the table of products filled by the code, from any memory, is that of [P]. *)
Theorem snow3g_integrity_exact mem pm_mem count bearer direction key m :
  length mem = 16%nat → length pm_mem = 2048%nat → is_u32 count → 0 <= bearer < 32 → 0 <= direction <= 1 → length key = 16%nat → Forall is_byte key →
  Forall is_byte m → 0 < zlen m < 2 ^ 28 →
  snow3g_integrity mem pm_mem count bearer direction key (zlen m) m = Ok (f9 key count (bearer * 2 ^ 27) direction m).
Proof.
  intros Hm Hpm Hc Hb Hd Hk Hkb Hmb Hl. unfold snow3g_integrity. rewrite Z.shiftl_mul_pow2, u32_small by lia.
  apply snow3g_integrity_f9; try done. unfold is_u32. lia.
Qed.

Lemma snow3g_integrity_exact_witness :
  snow3g_integrity (replicate 16 7) (replicate 2048 9) 0x14793E41 3 1
    [0xC7; 0x36; 0xC6; 0xAA; 0xB2; 0x2B; 0xFF; 0xF9; 0x1E; 0x26; 0x98; 0xD2; 0xE2; 0x2A; 0xD5; 0x7E] 9 [0xD0; 0xA7; 0xD4; 0x63; 0xDF; 0x9F; 0xB2; 0xB2; 0x78] =
  Ok (f9 [0xC7; 0x36; 0xC6; 0xAA; 0xB2; 0x2B; 0xFF; 0xF9; 0x1E; 0x26; 0x98; 0xD2; 0xE2; 0x2A; 0xD5; 0x7E] 0x14793E41 (3 * 2 ^ 27) 1
        [0xD0; 0xA7; 0xD4; 0x63; 0xDF; 0x9F; 0xB2; 0xB2; 0x78]).
Proof.
  apply (snow3g_integrity_exact (replicate 16 7) (replicate 2048 9) 0x14793E41 3 1
    [0xC7; 0x36; 0xC6; 0xAA; 0xB2; 0x2B; 0xFF; 0xF9; 0x1E; 0x26; 0x98; 0xD2; 0xE2; 0x2A; 0xD5; 0x7E] [0xD0; 0xA7; 0xD4; 0x63; 0xDF; 0x9F; 0xB2; 0xB2; 0x78]).
  - reflexivity.
  - reflexivity.
  - unfold is_u32. lia.
  - lia.
  - lia.
  - reflexivity.
  - repeat (apply Forall_cons_2; [unfold is_byte; lia|]). apply Forall_nil_2.
  - repeat (apply Forall_cons_2; [unfold is_byte; lia|]). apply Forall_nil_2.
  - split; reflexivity.
Defined.

(** The last block of an empty message is read before its start. *)
Lemma snow3g_integrity_empty :
  snow3g_integrity (replicate 16 0) (replicate 2048 0) 0 0 0 (replicate 16 0) 0 [] = Undef.
Proof. vm_compute. reflexivity. Qed.

(** ** The laws of PDCP *)

Lemma xor_loop_short n (i : nat) (in_ ks : bytes) :
  (i + n <= length in_)%nat → (i <= length ks < i + n)%nat → xor_loop n (Z.of_nat i) in_ ks = Undef.
Proof.
  revert i. induction n as [|n IH]; intros i Hi Hk; [lia|].
  cbn [xor_loop]. destruct (lookup_lt_is_Some_2 in_ i ltac:(lia)) as [x Hx].
  rewrite (buf_get_lookup in_ (Z.of_nat i) x) by (try rewrite Nat2Z.id; done || lia). cbn [mbind outcome_bind].
  unfold buf_get at 1. rewrite (proj2 (Z.ltb_ge _ _)), Nat2Z.id by lia.
  destruct (ks !! i) eqn:E; [|done]. cbn [mbind outcome_bind]. replace (Z.of_nat i + 1) with (Z.of_nat (S i)) by lia.
  apply lookup_lt_Some in E. by rewrite IH by lia.
Qed.

(** The octets applied to a message depend on its length only. *)
Definition cipher_octets (mem : list Z) (count bearer direction : Z) (key : bytes) (length : Z) : outcome bytes :=
  k ← load_key key;
  s ← snow3g_init mem k (cipher_iv count bearer direction);
  ks ← keystream (Z.to_nat (u32 (length + 3) / 4)) s;
  Ok (flat_map octets32 ks).

Lemma snow3g_ciphering_octets mem count bearer direction key m :
  snow3g_ciphering mem count bearer direction key (zlen m) m =
    (o ← cipher_octets mem count bearer direction key (zlen m);
     if decide (length m <= length o)%nat then Ok (zip_with Z.lxor m o) else Undef).
Proof.
  unfold snow3g_ciphering, cipher_octets. destruct (load_key key) as [k| | |]; [|done..]. cbn [mbind outcome_bind].
  destruct (snow3g_init _ _ _) as [s| | |]; [|done..]. cbn [mbind outcome_bind]. cbv zeta.
  destruct (keystream _ s) as [ks| | |]; [|done..]. cbn [mbind outcome_bind].
  replace (Z.to_nat (zlen m)) with (length m) by (unfold zlen; lia). change 0 with (Z.of_nat 0) at 1. case_decide.
  - rewrite xor_loop_ok by lia. by rewrite !drop_0, firstn_all.
  - apply xor_loop_short; lia.
Qed.

Lemma zip_lxor_twice (m o : bytes) : (length m <= length o)%nat → zip_with Z.lxor (zip_with Z.lxor m o) o = m.
Proof.
  revert o. induction m as [|x m IH]; intros [|y o] H; cbn in *; try done; [lia|].
  rewrite IH by lia. by rewrite Z.lxor_assoc, Z.lxor_nilpotent, Z.lxor_0_r.
Qed.

(** Algorithm 1 of PDCP by the code; the AES based ones stay parameters. [mem] and [pm_mem]
    are what the memory of the arrays holds. Where the code is undefined the message is left
    alone. *)
Definition snow3g_crypto (mem pm_mem : list Z) (ctr cmac : bytes → Z → Z → Z → bytes → bytes) : Crypto := {|
  stream_encrypt_eea1 := λ k c b d m, match snow3g_ciphering mem c b d k (zlen m) m with Ok o => o | _ => m end;
  stream_integrity_eia1 := λ k c b d m, match snow3g_integrity mem pm_mem c b d k (zlen m) m with Ok o => o | _ => replicate 4 0 end;
  aes_128_ctr := ctr;
  aes_128_cbc_cmac := cmac;
|}.

(** the Snow 3G of the code is a cipher and a MAC as PDCP needs them: ciphering twice
    with the same parameters gives every message back, the length is kept, a MAC has four
    octets, for all keys and parameters and whatever the uninitialised memory holds; so the
    theorems about PDCP entities hold with it. *)
Theorem snow3g_crypto_laws mem pm_mem ctr cmac :
  (∀ k c b d m, ctr k c b d (ctr k c b d m) = m) → (∀ k c b d m, length (ctr k c b d m) = length m) →
  (∀ k c b d m, length (cmac k c b d m) = 16%nat) →
  CryptoLaws (snow3g_crypto mem pm_mem ctr cmac).
Proof.
  intros H1 H2 H3.
  assert (∀ k c b d m, match snow3g_ciphering mem c b d k (zlen m) m with Ok o => o | _ => m end = m ∨
    ∃ o, cipher_octets mem c b d k (zlen m) = Ok o ∧ (length m <= length o)%nat ∧
         match snow3g_ciphering mem c b d k (zlen m) m with Ok o => o | _ => m end = zip_with Z.lxor m o) as Hc.
  { intros k c b d m. rewrite snow3g_ciphering_octets. destruct (cipher_octets _ _ _ _ _ _) as [o| | |]; [|by left..].
    cbn [mbind outcome_bind]. case_decide; [right; by exists o|by left]. }
  split; cbn; try done.
  - intros k c b d m. destruct (Hc k c b d m) as [E|(o & Ho & Hl & E)]; rewrite E; [exact E|].
    assert (zlen (zip_with Z.lxor m o) = zlen m) as Hz by (unfold zlen; rewrite length_zip_with; lia).
    rewrite snow3g_ciphering_octets, Hz, Ho. cbn [mbind outcome_bind]. rewrite decide_True by (rewrite length_zip_with; lia).
    by apply zip_lxor_twice.
  - intros k c b d m. destruct (Hc k c b d m) as [E|(o & Ho & Hl & E)]; rewrite E; [done|]. rewrite length_zip_with. lia.
  - intros k c b d m. destruct (snow3g_integrity _ _ _ _ _ _ _ _) as [o| | |] eqn:E; [|done..].
    unfold snow3g_integrity, _snow3g_integrity in E. inv_ok. destruct r1 as [|z0 [|z1 [|z2 [|z3 [|z4 [|? ?]]]]]]; try discriminate. inv_ok. by rewrite <- E.
Qed.

Lemma snow3g_crypto_laws_witness :
  CryptoLaws (snow3g_crypto (replicate 16 0) (replicate 2048 0) (λ _ _ _ _ m, m) (λ _ _ _ _ _, replicate 16 0)).
Proof. apply (snow3g_crypto_laws (replicate 16 0) (replicate 2048 0)); done. Defined.
