(* ===== verification/MacList.v ===== *)
(** * Lists of identities

    Models [NR_list_t] of [NR_MAC_gNB/nr_mac_gNB.h] and its operations in
    [gNB_scheduler_primitives.c]: a list of small numbers (HARQ processes) linked through an
    array indexed by the numbers themselves, with head and tail, -1 for none. It implements a
    list without duplicates. *)

From S2P Require Import Prelude.

Record NR_list_t := mk_NR_list {
  l_head : Z;
  l_next : list Z;
  l_tail : Z;
  l_len : Z;
}.

#[export] Instance eta_NR_list : Eta NR_list_t :=
  λ l, mk_NR_list (l_head l) (l_next l) (l_tail l) (l_len l).
#[export] Instance set_l_head : Setter l_head := ltac:(derive_setter).
#[export] Instance set_l_next : Setter l_next := ltac:(derive_setter).
#[export] Instance set_l_tail : Setter l_tail := ltac:(derive_setter).
#[export] Instance set_l_len : Setter l_len := ltac:(derive_setter).

(** An [int *] into the list: the address of the head or of an element of the array. *)
Inductive cell := Head | Next (i : Z).

Definition load (l : NR_list_t) (c : cell) : outcome Z :=
  match c with Head => Ok (l_head l) | Next i => buf_get (l_next l) i end.

Definition store (l : NR_list_t) (c : cell) (v : Z) : outcome NR_list_t :=
  match c with
  | Head => Ok (l <| l_head := v |>)
  | Next i => next ← buf_set (l_next l) i v; Ok (l <| l_next := next |>)
  end.

Definition create_nr_list (len : Z) : NR_list_t :=
  mk_NR_list (-1) (replicate (Z.to_nat len) (-1)) (-1) len.

Definition resize_nr_list (l : NR_list_t) (new_len : Z) : outcome NR_list_t :=
  if new_len =? l_len l then Ok l
  else if l_len l <? new_len then
    Ok (l <| l_next := l_next l ++ replicate (Z.to_nat (new_len - l_len l)) (-1) |>
          <| l_len := new_len |>)
  else
    _ ← assert_fatal (l_head l <? new_len);
    _ ← assert_fatal (l_tail l <? new_len);
    _ ← assert_fatal (forallb (λ v, v <? new_len) (take (Z.to_nat (l_len l)) (l_next l)));
    Ok (l <| l_next := take (Z.to_nat new_len) (l_next l) |> <| l_len := new_len |>).

(** The loop of [add_nr_list]: to the cell that ends the list. *)
Fixpoint add_walk (fuel : nat) (l : NR_list_t) (id : Z) (cur : cell) : outcome cell :=
  match fuel with
  | O => Diverge
  | S fuel =>
      v ← load l cur;
      if 0 <=? v then _ ← assert_fatal (negb (v =? id)); add_walk fuel l id (Next v)
      else Ok cur
  end.

Definition add_nr_list (l : NR_list_t) (id : Z) : outcome NR_list_t :=
  cur ← add_walk (S (length (l_next l))) l id Head;
  l ← store l cur id;
  v ← buf_get (l_next l) id;
  Ok (if v <? 0 then l <| l_tail := id |> else l).

(** The loop of [remove_nr_list]: to the cell that holds the number or ends the list, and the
    cell before. *)
Fixpoint remove_walk (fuel : nat) (l : NR_list_t) (id : Z) (prev cur : cell) : outcome (cell * cell) :=
  match fuel with
  | O => Diverge
  | S fuel =>
      v ← load l cur;
      if negb (v =? -1) && negb (v =? id) then remove_walk fuel l id cur (Next v)
      else Ok (prev, cur)
  end.

Definition remove_nr_list (l : NR_list_t) (id : Z) : outcome NR_list_t :=
  '(prev, cur) ← remove_walk (S (length (l_next l))) l id Head Head;
  v ← load l cur;
  _ ← assert_fatal (negb (v =? -1));
  n ← buf_get (l_next l) v;
  l ← store l cur n;
  l ← store l (Next v) (-1);
  p ← load l prev;
  if 0 <=? p then
    n ← buf_get (l_next l) p;
    Ok (l <| l_tail := if 0 <=? n then l_tail l else p |>)
  else Ok (l <| l_tail := p |>).

Definition add_tail_nr_list (l : NR_list_t) (id : Z) : outcome NR_list_t :=
  l ← store l (if l_tail l <? 0 then Head else Next (l_tail l)) id;
  l ← store l (Next id) (-1);
  Ok (l <| l_tail := id |>).

Definition add_front_nr_list (l : NR_list_t) (id : Z) : outcome NR_list_t :=
  let ohead := l_head l in
  let l := l <| l_head := id |> in
  l ← store l (Next id) ohead;
  Ok (if l_tail l <? 0 then l <| l_tail := id |> else l).

Definition remove_front_nr_list (l : NR_list_t) : outcome NR_list_t :=
  _ ← assert_fatal (0 <=? l_head l);
  let ohead := l_head l in
  h ← buf_get (l_next l) ohead;
  let l := l <| l_head := h |> in
  l ← store l (Next ohead) (-1);
  Ok (if l_head l <? 0 then l <| l_tail := -1 |> else l).

(** ** The list that is implemented *)

(** The number that follows [i], -1 if none. *)
Fixpoint succ_of (xs : list Z) (i : Z) : Z :=
  match xs with
  | [] => -1
  | x :: r => if i =? x then default (-1) (head r) else succ_of r i
  end.

Record list_rep (l : NR_list_t) (xs : list Z) : Prop := mk_list_rep {
  rep_len : zlen (l_next l) = l_len l;
  rep_nodup : NoDup xs;
  rep_range : ∀ x, x ∈ xs → 0 <= x < l_len l;
  rep_head : l_head l = default (-1) (head xs);
  rep_tail : l_tail l = default (-1) (last xs);
  rep_next : ∀ i, 0 <= i < l_len l → l_next l !! Z.to_nat i = Some (succ_of xs i);
}.

Lemma succ_of_notin xs i : i ∉ xs → succ_of xs i = -1.
Proof.
  induction xs as [|x r IH]; cbn; [done|]. intros H. rewrite not_elem_of_cons in H.
  destruct H as [Hx Hr]. rewrite (proj2 (Z.eqb_neq i x)) by done. by apply IH.
Qed.

(** Where a number comes between [a] and [b]. *)
Lemma succ_of_insert a x b i :
  NoDup (a ++ x :: b) →
  succ_of (a ++ x :: b) i =
    if i =? x then default (-1) (head b)
    else if decide (last a = Some i) then x else succ_of (a ++ b) i.
Proof.
  induction a as [|y a IH]; intros Hnd.
  { cbn. destruct (i =? x); [done|]. by rewrite decide_False. }
  apply NoDup_cons in Hnd as [Hy Hnd]. cbn [app succ_of].
  assert (y ∉ a ∧ y ≠ x) as [Hya Hyx] by set_solver.
  destruct (Z.eqb_spec i y) as [->|Hne].
  - rewrite (proj2 (Z.eqb_neq y x)) by done.
    destruct a as [|z a]; [by rewrite decide_True|].
    rewrite decide_False; [done|]. rewrite last_cons_cons. by intros Hl%last_Some_elem_of.
  - rewrite IH by done. destruct (i =? x); [done|]. destruct a as [|z a]; [|done].
    cbn [last]. rewrite decide_False by done. rewrite decide_False; [done|]. congruence.
Qed.

Lemma succ_of_range xs n i :
  (∀ x, x ∈ xs → 0 <= x < n) → succ_of xs i = -1 ∨ 0 <= succ_of xs i < n.
Proof.
  induction xs as [|x r IH]; intros H; cbn; [by left|].
  destruct (i =? x); [|apply IH; set_solver].
  destruct r as [|y r]; [by left|]. right. apply H. set_solver.
Qed.

Lemma lookup_set {A} (next : list A) i j v :
  0 <= i < zlen next → 0 <= j →
  <[Z.to_nat i := v]> next !! Z.to_nat j = if j =? i then Some v else next !! Z.to_nat j.
Proof.
  intros Hi Hj. destruct (Z.eqb_spec j i) as [->|Hne].
  - apply list_lookup_insert_eq. unfold zlen in Hi. lia.
  - apply list_lookup_insert_ne. lia.
Qed.

Lemma store_next l i v :
  zlen (l_next l) = l_len l → 0 <= i < l_len l →
  store l (Next i) v = Ok (l <| l_next := <[Z.to_nat i := v]> (l_next l) |>).
Proof. intros Hl Hi. cbn. by rewrite buf_set_ok by lia. Qed.

Lemma load_next l xs i : list_rep l xs → 0 <= i < l_len l → load l (Next i) = Ok (succ_of xs i).
Proof. intros R Hi. apply buf_get_lookup; [by apply R|lia]. Qed.

Lemma create_rep n : 0 <= n → list_rep (create_nr_list n) [].
Proof.
  intros Hn. split; cbn; try done; [zlen_lia|apply NoDup_nil_2|set_solver|].
  intros i Hi. apply lookup_replicate_2. lia.
Qed.

Lemma head_app_cons {A} (a : list A) x b : head (a ++ x :: b) = Some (default x (head a)).
Proof. by destruct a. Qed.

Lemma add_tail_ok l xs id :
  list_rep l xs → 0 <= id < l_len l → id ∉ xs →
  ∃ l', add_tail_nr_list l id = Ok l' ∧ list_rep l' (xs ++ [id]) ∧ l_len l' = l_len l.
Proof.
  intros R Hid Hni. pose proof (rep_len _ _ R) as Hlen.
  assert (Hnd : NoDup (xs ++ [id])) by (apply NoDup_app; split_and!; [apply R|set_solver|apply NoDup_singleton]).
  assert (Hin : ∀ x, x ∈ xs ++ [id] → 0 <= x < l_len l).
  { intros x Hx. apply elem_of_app in Hx as [Hx| ->%list_elem_of_singleton]; [by apply R|done]. }
  unfold add_tail_nr_list. rewrite (rep_tail _ _ R). destruct (last xs) as [y|] eqn:Hl.
  - change (default (-1) (Some y)) with y. assert (Hy : 0 <= y < l_len l) by (apply R; by apply last_Some_elem_of).
    rewrite (proj2 (Z.ltb_ge y 0)) by lia. rewrite store_next by done. cbn [mbind outcome_bind].
    rewrite store_next by (cbn; zlen_lia || done).
    cbn [mbind outcome_bind]. eexists. split_and!; [done| |done]. split; cbn; [|done|done| | |].
    + zlen_lia.
    + rewrite (rep_head _ _ R). destruct xs; [discriminate Hl|done].
    + by rewrite last_snoc.
    + intros i Hi. rewrite lookup_set by (zlen_lia || lia). rewrite lookup_set by lia.
      rewrite (rep_next _ _ R) by done. rewrite succ_of_insert by done. cbn. rewrite app_nil_r, Hl.
      destruct (Z.eqb_spec i id) as [->|]; [done|]. destruct (Z.eqb_spec i y) as [->|].
      * by rewrite decide_True.
      * rewrite decide_False by congruence. done.
  - apply last_None in Hl as ->. cbn -[buf_set]. rewrite buf_set_ok by (cbn; lia). cbn.
    eexists. split_and!; [done| |done]. split; cbn; [zlen_lia|done|done|done|done|].
    intros i Hi. rewrite lookup_set by lia. rewrite (rep_next _ _ R) by done. cbn. by destruct (i =? id).
Qed.

Lemma add_front_ok l xs id :
  list_rep l xs → 0 <= id < l_len l → id ∉ xs →
  ∃ l', add_front_nr_list l id = Ok l' ∧ list_rep l' (id :: xs) ∧ l_len l' = l_len l.
Proof.
  intros R Hid Hni. pose proof (rep_len _ _ R) as Hlen. unfold add_front_nr_list.
  rewrite store_next by (cbn; lia). cbn -[last].
  assert (Hn : ∀ i, 0 <= i < l_len l →
    <[Z.to_nat id := l_head l]> (l_next l) !! Z.to_nat i = Some (succ_of (id :: xs) i)).
  { intros i Hi. rewrite lookup_set by lia. rewrite (rep_next _ _ R), (rep_head _ _ R) by done.
    cbn. by destruct (i =? id). }
  assert (Hin : ∀ x, x ∈ id :: xs → 0 <= x < l_len l).
  { intros x Hx. apply elem_of_cons in Hx as [->|Hx]; [done|by apply R]. }
  assert (Hnd : NoDup (id :: xs)) by (apply NoDup_cons_2; [done|apply R]).
  rewrite (rep_tail _ _ R). destruct (last xs) as [y|] eqn:Hl.
  - change (default (-1) (Some y)) with y.
    assert (Hy : 0 <= y < l_len l) by (apply R; by apply last_Some_elem_of).
    rewrite (proj2 (Z.ltb_ge y 0)) by lia. eexists. split_and!; [done| |done].
    split; cbn -[last]; try done; [zlen_lia|].
    rewrite last_cons, Hl. rewrite (rep_tail _ _ R). by rewrite Hl.
  - apply last_None in Hl as ->. eexists. split_and!; [done| |done]. split; cbn -[succ_of]; try done. zlen_lia.
Qed.

Lemma remove_front_ok l x xs :
  list_rep l (x :: xs) →
  ∃ l', remove_front_nr_list l = Ok l' ∧ list_rep l' xs ∧ l_len l' = l_len l.
Proof.
  intros R. pose proof (rep_len _ _ R) as Hlen. assert (Hx : 0 <= x < l_len l) by (apply R; set_solver).
  pose proof (rep_nodup _ _ R) as [Hni Hnd]%NoDup_cons.
  unfold remove_front_nr_list. rewrite (rep_head _ _ R). change (default (-1) (head (x :: xs))) with x.
  rewrite (proj2 (Z.leb_le 0 x)) by lia. cbn -[buf_get store].
  rewrite (buf_get_lookup _ _ (succ_of (x :: xs) x)) by (lia || (apply R; lia)).
  cbn [mbind outcome_bind]. rewrite store_next by (cbn; lia). cbn -[last succ_of].
  assert (Hs : succ_of (x :: xs) x = default (-1) (head xs)) by (cbn; by rewrite Z.eqb_refl).
  rewrite Hs.
  assert (Hn : ∀ i, 0 <= i < l_len l → <[Z.to_nat x := -1]> (l_next l) !! Z.to_nat i = Some (succ_of xs i)).
  { intros i Hi. rewrite lookup_set by lia. rewrite (rep_next _ _ R) by done. cbn.
    destruct (Z.eqb_spec i x) as [->|]; [by rewrite succ_of_notin|done]. }
  assert (Hin : ∀ y, y ∈ xs → 0 <= y < l_len l) by (intros y Hy; apply R; set_solver).
  destruct xs as [|y xs]; eexists; (split_and!; [done| |]).
  - split; cbn; try done. zlen_lia.
  - done.
  - change (default (-1) (head (y :: xs))) with y.
    rewrite (proj2 (Z.ltb_ge y 0)) by (specialize (Hin y ltac:(set_solver)); lia).
    split; cbn -[succ_of last]; try done; [zlen_lia|]. rewrite (rep_tail _ _ R). by rewrite last_cons_cons.
  - by destruct (_ <? 0).
Qed.

Lemma remove_front_nil l : list_rep l [] → remove_front_nr_list l = Fatal.
Proof. intros R. unfold remove_front_nr_list. by rewrite (rep_head _ _ R). Qed.

(** The cell that leads to what follows [a]. *)
Definition cell_after (a : list Z) : cell := match last a with Some y => Next y | None => Head end.

Lemma load_after l a b : list_rep l (a ++ b) → load l (cell_after a) = Ok (default (-1) (head b)).
Proof.
  intros R. unfold cell_after. destruct (last a) as [y|] eqn:Hl.
  - apply last_Some in Hl as [a' ->]. pose proof (rep_nodup _ _ R) as Hnd.
    rewrite <- app_assoc in *. cbn in Hnd. rewrite (load_next _ _ _ R) by (apply R; set_solver).
    cbn [app]. rewrite succ_of_insert by done. by rewrite Z.eqb_refl.
  - apply last_None in Hl as ->. cbn. by rewrite (rep_head _ _ R).
Qed.

Lemma cell_after_snoc a x : cell_after (a ++ [x]) = Next x.
Proof. unfold cell_after. by rewrite last_snoc. Qed.

Lemma rep_length l xs : list_rep l xs → (length xs <= length (l_next l))%nat.
Proof.
  intros R. assert (H : (Z.to_nat <$> xs) ⊆+ seq 0 (length (l_next l))).
  { apply NoDup_submseteq.
    - apply NoDup_fmap_2_strong; [|apply R]. intros x y Hx Hy. apply R in Hx, Hy. lia.
    - intros k [x [-> Hx]]%list_elem_of_fmap. apply elem_of_seq. apply R in Hx. pose proof (rep_len _ _ R).
      unfold zlen in *. lia. }
  apply submseteq_length in H. by rewrite length_fmap, length_seq in H.
Qed.

(** The walk of [add_nr_list] ends behind the last number, or at the number itself. *)
Lemma add_walk_ok l id : ∀ fuel a b,
  list_rep l (a ++ b) → (length b < fuel)%nat →
  add_walk fuel l id (cell_after a) = if decide (id ∈ b) then Fatal else Ok (cell_after (a ++ b)).
Proof.
  induction fuel as [|fuel IH]; intros a b R Hf; [lia|]. cbn -[load]. rewrite (load_after _ _ _ R).
  destruct b as [|x b]; cbn -[load].
  { rewrite app_nil_r. rewrite decide_False; [done|apply not_elem_of_nil]. }
  assert (Hx : 0 <= x < l_len l) by (apply R; set_solver). rewrite (proj2 (Z.leb_le 0 x)) by lia.
  destruct (Z.eqb_spec x id) as [->|Hne]; cbn -[load]; [rewrite decide_True; [done|set_solver]|].
  rewrite <- (cell_after_snoc a x). rewrite (IH (a ++ [x]) b); [|by rewrite <- app_assoc|cbn in Hf; lia].
  rewrite <- app_assoc. cbn [app]. destruct (decide (id ∈ b)).
  - rewrite decide_True; [done|set_solver].
  - rewrite decide_False; [done|set_solver].
Qed.

Lemma store_after l a v :
  zlen (l_next l) = l_len l → (∀ x, x ∈ a → 0 <= x < l_len l) →
  store l (cell_after a) v =
    Ok (match last a with
        | Some y => l <| l_next := <[Z.to_nat y := v]> (l_next l) |>
        | None => l <| l_head := v |>
        end).
Proof.
  intros Hl Hr. unfold cell_after. destruct (last a) as [y|] eqn:E; [|done].
  rewrite store_next; [done|done|]. apply Hr. by apply last_Some_elem_of.
Qed.

Lemma add_ok l xs id :
  list_rep l xs → 0 <= id < l_len l →
  if decide (id ∈ xs) then add_nr_list l id = Fatal
  else ∃ l', add_nr_list l id = Ok l' ∧ list_rep l' (xs ++ [id]) ∧ l_len l' = l_len l.
Proof.
  intros R Hid. unfold add_nr_list. change Head with (cell_after []).
  rewrite (add_walk_ok l id _ [] xs R) by (pose proof (rep_length _ _ R); lia).
  destruct (decide (id ∈ xs)) as [|Hni]; [done|]. cbn [mbind outcome_bind app].
  rewrite store_after by (apply R). cbn [mbind outcome_bind].
  destruct (add_tail_ok l xs id R Hid Hni) as (l' & Hl' & R' & Hn'). exists l'. split; [|done].
  unfold add_tail_nr_list in Hl'. rewrite (rep_tail _ _ R) in Hl'.
  destruct (last xs) as [y|] eqn:Hl.
  - change (default (-1) (Some y)) with y in Hl'.
    assert (Hy : y ∈ xs) by (by apply last_Some_elem_of). pose proof (rep_range _ _ R y Hy) as Hyr.
    pose proof (rep_len _ _ R) as Hlen.
    rewrite (proj2 (Z.ltb_ge y 0)) in Hl' by lia. rewrite store_next in Hl' by done. cbn [mbind outcome_bind] in Hl'.
    rewrite store_next in Hl' by (cbn; zlen_lia || done). cbn in Hl'.
    rewrite (buf_get_lookup _ _ (-1)); [|cbn; rewrite lookup_set by lia|lia]; cbn.
    + rewrite <- Hl'. f_equal. unfold set_l_tail, set_l_next; cbn. f_equal. symmetry.
      apply list_insert_id. rewrite lookup_set by lia. rewrite (proj2 (Z.eqb_neq id y)) by (intros ->; done).
      rewrite (rep_next _ _ R) by done. by rewrite succ_of_notin.
    + rewrite (proj2 (Z.eqb_neq id y)) by (intros ->; done). rewrite (rep_next _ _ R) by done.
      by rewrite succ_of_notin.
  - apply last_None in Hl as ->. cbn -[buf_set buf_get] in *. pose proof (rep_len _ _ R) as Hlen.
    rewrite buf_set_ok in Hl' by lia. cbn in Hl'.
    rewrite (buf_get_lookup _ _ (-1)); [cbn|by rewrite (rep_next _ _ R)|lia].
    rewrite <- Hl'. f_equal. unfold set_l_tail, set_l_next; cbn. f_equal. symmetry.
    apply list_insert_id. by rewrite (rep_next _ _ R).
Qed.

Lemma remove_walk_ok l id : ∀ fuel a b,
  list_rep l (a ++ b) → (length b < fuel)%nat →
  ∃ b1 b2, b = b1 ++ b2 ∧ id ∉ b1 ∧ (b2 = [] ∨ head b2 = Some id) ∧
    remove_walk fuel l id (cell_after (removelast a)) (cell_after a) =
      Ok (cell_after (removelast (a ++ b1)), cell_after (a ++ b1)).
Proof.
  induction fuel as [|fuel IH]; intros a b R Hf; [lia|]. cbn -[load removelast]. rewrite (load_after _ _ _ R).
  destruct b as [|x b]; cbn -[load removelast].
  { exists [], []. split_and!; [done|apply not_elem_of_nil|by left|by rewrite !app_nil_r]. }
  assert (Hx : 0 <= x < l_len l) by (apply R; set_solver). rewrite (proj2 (Z.eqb_neq x (-1))) by lia.
  destruct (Z.eqb_spec x id) as [->|Hne]; cbn -[load removelast].
  { exists [], (id :: b). split_and!; [done|apply not_elem_of_nil|by right|by rewrite !app_nil_r]. }
  destruct (IH (a ++ [x]) b) as (b1 & b2 & -> & Hni & Hb2 & Hw); [by rewrite <- app_assoc|cbn in Hf; lia|].
  rewrite removelast_last, cell_after_snoc in Hw. exists (x :: b1), b2. rewrite Hw, <- app_assoc.
  split_and!; [done|set_solver|done|done].
Qed.

(** Taking a number out: the cell before it leads past it. *)
Lemma unlink_rep l a id b :
  list_rep l (a ++ id :: b) →
  ∃ l', (l ← store l (cell_after a) (default (-1) (head b)); store l (Next id) (-1)) = Ok l' ∧
    l_len l' = l_len l ∧ l_tail l' = l_tail l ∧
    list_rep (l' <| l_tail := default (-1) (last (a ++ b)) |>) (a ++ b).
Proof.
  intros R. pose proof (rep_len _ _ R) as Hlen. pose proof (rep_nodup _ _ R) as Hnd.
  assert (Hin : ∀ x, x ∈ a ++ id :: b → 0 <= x < l_len l) by apply R.
  assert (Hid : id ∉ a ++ b). { apply NoDup_app in Hnd as (_ & H1 & H2). apply NoDup_cons in H2. set_solver. }
  assert (Hnd' : NoDup (a ++ b)).
  { apply NoDup_app in Hnd as (H0 & H1 & H2). apply NoDup_cons in H2 as [_ H2]. apply NoDup_app. set_solver. }
  assert (Hidr : 0 <= id < l_len l) by (apply Hin; set_solver).
  assert (Hs : ∀ i, succ_of (a ++ b) i = if i =? id then -1
    else if decide (last a = Some i) then default (-1) (head b) else succ_of (a ++ id :: b) i).
  { intros i. rewrite (succ_of_insert a id b i Hnd). destruct (Z.eqb_spec i id) as [->|]; [by apply succ_of_notin|].
    destruct (decide (last a = Some i)) as [Hl|]; [|done]. apply last_Some in Hl as [a' ->].
    rewrite <- app_assoc in *. cbn [app] in *. rewrite succ_of_insert by done. by rewrite Z.eqb_refl. }
  rewrite store_after by (done || (intros; apply Hin; set_solver)). cbn [mbind outcome_bind].
  destruct (last a) as [y|] eqn:Hl.
  - assert (Hy : 0 <= y < l_len l) by (apply Hin; apply elem_of_app; left; by apply last_Some_elem_of).
    rewrite store_next by (cbn; zlen_lia || done). eexists. split_and!; [done|done|done|].
    split; cbn -[last]; [zlen_lia|done|intros; apply Hin; set_solver| |done|].
    + rewrite (rep_head _ _ R). by destruct a.
    + intros i Hi. rewrite lookup_set by (zlen_lia || lia). rewrite lookup_set by lia. rewrite Hs.
      destruct (i =? id); [done|]. rewrite (rep_next _ _ R) by done. destruct (Z.eqb_spec i y) as [->|].
      * by rewrite decide_True.
      * rewrite decide_False by congruence. done.
  - apply last_None in Hl as ->. rewrite store_next by (cbn; lia). eexists. split_and!; [done|done|done|].
    split; cbn -[last succ_of]; [zlen_lia|done|intros; apply Hin; set_solver|done|done|].
    intros i Hi. rewrite lookup_set by lia. cbn [app] in Hs. rewrite Hs. rewrite decide_False by done.
    destruct (i =? id); [done|]. by rewrite (rep_next _ _ R).
Qed.

Lemma removelast_nil_or {A} (a : list A) : a = [] ∨ ∃ y, a = removelast a ++ [y].
Proof. destruct a as [|y a _] using rev_ind; [by left|]. right. exists y. by rewrite removelast_last. Qed.

(** What [remove_nr_list] takes for the tail is the tail. *)
Lemma remove_tail_ok l a id b :
  list_rep (l <| l_tail := default (-1) (last (a ++ b)) |>) (a ++ b) →
  l_tail l = default (-1) (last (a ++ id :: b)) →
  (p ← load l (cell_after (removelast a));
   if 0 <=? p then
     n ← buf_get (l_next l) p; Ok (l <| l_tail := if 0 <=? n then l_tail l else p |>)
   else Ok (l <| l_tail := p |>)) = Ok (l <| l_tail := default (-1) (last (a ++ b)) |>).
Proof.
  set (l' := l <| l_tail := _ |>). intros R Ht.
  assert (Hld : ∀ c, load l c = load l' c) by (by intros []).
  assert (Hgt : ∀ x, x ∈ a ++ b → buf_get (l_next l) x = Ok (succ_of (a ++ b) x) ∧ (0 <=? x) = true).
  { intros x Hx. pose proof (rep_range _ _ R x Hx) as Hr. split; [|apply Z.leb_le; lia].
    exact (load_next l' _ x R Hr). }
  assert (Hneg : ∀ c, (0 <=? default (-1) (head c)) = match c with [] => false | y :: _ => 0 <=? y end) by (by intros []).
  pose proof (rep_nodup _ _ R) as Hnd. rewrite Hld. destruct (removelast_nil_or a) as [->|[y Ha]].
  - change (cell_after (removelast [])) with (cell_after []). rewrite (load_after l' [] b R). cbn [mbind outcome_bind].
    rewrite Hneg. destruct b as [|y b]; [done|]. change (default (-1) (head (y :: b))) with y.
    destruct (Hgt y ltac:(set_solver)) as [-> ->]. cbn [mbind outcome_bind app succ_of]. rewrite Z.eqb_refl, Hneg.
    destruct b as [|z b]; [done|]. rewrite (proj2 (Hgt z ltac:(set_solver))). unfold l'. cbn [app] in Ht |- *.
    rewrite Ht. by rewrite last_cons_cons.
  - rewrite Ha, <- app_assoc in R, Hnd. rewrite (load_after l' _ _ R). cbn [mbind outcome_bind app head].
    change (default (-1) (Some y)) with y. destruct (Hgt y ltac:(rewrite Ha; set_solver)) as [-> ->].
    cbn [mbind outcome_bind]. rewrite Ha, <- app_assoc. cbn [app] in Hnd |- *. rewrite succ_of_insert, Z.eqb_refl, Hneg by done.
    unfold l'. rewrite Ha. rewrite <- app_assoc. cbn [app].
    destruct b as [|z b]; [by rewrite last_snoc|]. rewrite (proj2 (Hgt z ltac:(set_solver))).
    rewrite Ht. by rewrite !last_app_cons, !last_cons_cons.
Qed.

Lemma filter_notin (xs : list Z) id : id ∉ xs → filter (λ x, x ≠ id) xs = xs.
Proof.
  induction xs as [|x xs IH]; intros H; [done|]. rewrite filter_cons_True by set_solver.
  rewrite IH by set_solver. done.
Qed.

Lemma remove_ok l xs id :
  list_rep l xs →
  if decide (id ∈ xs) then
    ∃ l', remove_nr_list l id = Ok l' ∧ list_rep l' (filter (λ x, x ≠ id) xs) ∧ l_len l' = l_len l
  else remove_nr_list l id = Fatal.
Proof.
  intros R. unfold remove_nr_list.
  destruct (remove_walk_ok l id (S (length (l_next l))) [] xs R) as (a & b & -> & Hni & Hb & Hw).
  { pose proof (rep_length _ _ R). lia. }
  change (cell_after (removelast [])) with Head in Hw. change (cell_after []) with Head in Hw.
  rewrite Hw. cbn [mbind outcome_bind app]. rewrite (load_after _ _ _ R). cbn [mbind outcome_bind].
  destruct Hb as [->|Hb].
  { rewrite decide_False; [done|]. set_solver. }
  destruct b as [|? b]; [discriminate Hb|]. injection Hb as ->. rewrite decide_True by set_solver.
  pose proof (rep_nodup _ _ R) as Hnd. assert (Hid : 0 <= id < l_len l) by (apply R; set_solver).
  cbn [head]. change (default (-1) (Some id)) with id. rewrite (proj2 (Z.eqb_neq id (-1))) by lia. cbn [negb assert_fatal mbind outcome_bind].
  change (buf_get (l_next l) id) with (load l (Next id)). rewrite (load_next _ _ _ R Hid). cbn [mbind outcome_bind].
  rewrite succ_of_insert, Z.eqb_refl by done.
  destruct (unlink_rep l a id b R) as (l' & Hs & Hlen & Htl & R').
  destruct (store l (cell_after a) _) as [l1| | |]; try discriminate Hs. cbn [mbind outcome_bind] in *. rewrite Hs.
  cbn [mbind outcome_bind]. rewrite (remove_tail_ok l' a id b R'); [|by rewrite Htl, (rep_tail _ _ R)].
  eexists. split_and!; [done| |done]. rewrite filter_app, filter_cons_False by auto.
  apply NoDup_app in Hnd as (_ & H1 & [H2 _]%NoDup_cons).
  rewrite !filter_notin; [done|set_solver|set_solver].
Qed.

(** A number is first or follows another one. *)
Lemma first_or_follows xs x :
  NoDup xs → x ∈ xs → head xs = Some x ∨ ∃ y, y ∈ xs ∧ succ_of xs y = x.
Proof.
  intros Hnd Hx. apply list_elem_of_split in Hx as (a & b & ->). destruct a as [|y a _] using rev_ind; [by left|].
  right. exists y. split; [set_solver|]. rewrite <- app_assoc in *. cbn [app] in *.
  rewrite succ_of_insert by done. by rewrite Z.eqb_refl.
Qed.

Lemma resize_ok l xs n :
  list_rep l xs → 0 < n →
  if forallb (λ x, x <? n) xs then
    ∃ l', resize_nr_list l n = Ok l' ∧ list_rep l' xs ∧ l_len l' = n
  else resize_nr_list l n = Fatal.
Proof.
  intros R Hn. pose proof (rep_len _ _ R) as Hlen. pose proof (zlen_nonneg (l_next l)) as Hpos.
  unfold resize_nr_list. destruct (Z.eqb_spec n (l_len l)) as [->|Hne].
  { rewrite (proj2 (forallb_forall _ _)); [by exists l|]. intros x Hx. apply Z.ltb_lt.
    apply R. by apply list_elem_of_In. }
  destruct (Z.ltb_spec (l_len l) n) as [Hg|Hg].
  - rewrite (proj2 (forallb_forall _ _)); cycle 1.
    { intros x Hx. apply list_elem_of_In, R in Hx. apply Z.ltb_lt. lia. }
    eexists. split_and!; [done| |done]. split; cbn; try apply R; [zlen_lia| |].
    + intros x Hx%R. lia.
    + intros i Hi. destruct (Z.lt_ge_cases i (l_len l)).
      * rewrite lookup_app_l by zlen_lia. apply R. lia.
      * rewrite lookup_app_r by zlen_lia. rewrite succ_of_notin by (intros ?%R; lia).
        apply lookup_replicate_2. zlen_lia.
  - assert (Ht : take (Z.to_nat (l_len l)) (l_next l) = l_next l) by (apply take_ge; zlen_lia). rewrite Ht.
    destruct (forallb (λ x, x <? n) xs) eqn:Hall.
    + rewrite forallb_forall in Hall. setoid_rewrite <- list_elem_of_In in Hall. setoid_rewrite Z.ltb_lt in Hall.
      rewrite (rep_head _ _ R), (rep_tail _ _ R).
      rewrite (proj2 (Z.ltb_lt (default (-1) (head xs)) n)) by (destruct xs; cbn; [lia|apply Hall; set_solver]).
      rewrite (proj2 (Z.ltb_lt (default (-1) (last xs)) n)); cycle 1.
      { destruct (last xs) eqn:El; cbn; [|lia]. apply Hall. by apply last_Some_elem_of. }
      rewrite (proj2 (forallb_forall _ (l_next l))); cycle 1.
      { intros v [i Hi]%list_elem_of_In%list_elem_of_lookup_1. apply Z.ltb_lt.
        pose proof (lookup_lt_Some _ _ _ Hi) as Hlt. pose proof (rep_next _ _ R (Z.of_nat i) ltac:(zlen_lia)) as E.
        rewrite Nat2Z.id, Hi in E. injection E as ->.
        destruct (succ_of_range xs n (Z.of_nat i)) as [->|]; [|lia|lia].
        intros x Hx. split; [by apply R|by apply Hall]. }
      cbn. eexists. split_and!; [done| |done]. split; cbn -[last]; try apply R; [zlen_lia| |].
      * intros x Hx. split; [by apply R|by apply Hall].
      * intros i Hi. rewrite lookup_take_lt by lia. apply R. lia.
    + assert (∃ x, x ∈ xs ∧ n <= x) as (x & Hx & Hxn).
      { destruct (existsb (λ x, negb (x <? n)) xs) eqn:He.
        - apply existsb_exists in He as (x & Hx%list_elem_of_In & Hb). exists x. split; [done|].
          destruct (Z.ltb_spec x n); [discriminate Hb|done].
        - exfalso. enough (forallb (λ x, x <? n) xs = true) by congruence. apply forallb_forall. intros y Hy.
          destruct (y <? n) eqn:E; [done|]. enough (existsb (λ x, negb (x <? n)) xs = true) by congruence.
          apply existsb_exists. exists y. by rewrite E. }
      destruct (l_head l <? n) eqn:Hh; [|done]. destruct (l_tail l <? n); [|done]. cbn.
      destruct (forallb (λ v, v <? n) (l_next l)) eqn:Hf; [|done]. exfalso. rewrite forallb_forall in Hf.
      destruct (first_or_follows xs x) as [Hh'|(y & Hy & Hs)]; [apply R|done| |].
      * rewrite (rep_head _ _ R), Hh' in Hh. apply Z.ltb_lt in Hh. cbn in Hh. lia.
      * pose proof (rep_next _ _ R y ltac:(by apply R)) as E. rewrite Hs in E.
        specialize (Hf x). rewrite Z.ltb_lt in Hf. specialize (Hf ltac:(apply list_elem_of_In; by eapply list_elem_of_lookup_2)). lia.
Qed.

(** The numbers in the list, read from it. *)
Fixpoint walk_from (next : list Z) (fuel : nat) (p : Z) : list Z :=
  if p <? 0 then []
  else match fuel with
  | O => []
  | S fuel => p :: match next !! Z.to_nat p with Some q => walk_from next fuel q | None => [] end
  end.
Definition elems (l : NR_list_t) : list Z := walk_from (l_next l) (length (l_next l)) (l_head l).

Lemma walk_ok l : ∀ b a fuel,
  list_rep l (a ++ b) → (length b <= fuel)%nat → walk_from (l_next l) fuel (default (-1) (head b)) = b.
Proof.
  induction b as [|x b IH]; intros a fuel R Hf; [by destruct fuel|].
  assert (Hx : 0 <= x < l_len l) by (apply R; set_solver).
  destruct fuel as [|fuel]; [cbn in Hf; lia|]. cbn [head]. change (default (-1) (Some x)) with x. cbn [walk_from].
  rewrite (proj2 (Z.ltb_ge x 0)) by lia. f_equal. rewrite (rep_next _ _ R) by done.
  pose proof (rep_nodup _ _ R) as Hnd. rewrite succ_of_insert, Z.eqb_refl by done.
  apply (IH (a ++ [x])); [by rewrite <- app_assoc|cbn in Hf; lia].
Qed.

Lemma elems_ok l xs : list_rep l xs → elems l = xs.
Proof.
  intros R. unfold elems. rewrite (rep_head _ _ R). apply (walk_ok l xs []); [done|]. by apply rep_length.
Qed.

(** ** Sequences of operations *)
Inductive list_op := Add (id : Z) | Add_tail (id : Z) | Add_front (id : Z) | Remove (id : Z) | Remove_front | Resize (n : Z).

Definition list_exec (l : NR_list_t) (o : list_op) : outcome NR_list_t :=
  match o with
  | Add id => add_nr_list l id
  | Add_tail id => add_tail_nr_list l id
  | Add_front id => add_front_nr_list l id
  | Remove id => remove_nr_list l id
  | Remove_front => remove_front_nr_list l
  | Resize n => resize_nr_list l n
  end.

(** What the callers keep to: numbers are below the length, and what is put at an end without
    a search is not in the list. *)
Definition list_allowed (n : Z) (xs : list Z) (o : list_op) : Prop :=
  match o with
  | Add id => 0 <= id < n
  | Add_tail id | Add_front id => 0 <= id < n ∧ id ∉ xs
  | Remove _ | Remove_front => True
  | Resize m => 0 < m
  end.

(** The operation on the list of numbers and its length. *)
Definition list_spec (n : Z) (xs : list Z) (o : list_op) : outcome (Z * list Z) :=
  match o with
  | Add id => if decide (id ∈ xs) then Fatal else Ok (n, xs ++ [id])
  | Add_tail id => Ok (n, xs ++ [id])
  | Add_front id => Ok (n, id :: xs)
  | Remove id => if decide (id ∈ xs) then Ok (n, filter (λ x, x ≠ id) xs) else Fatal
  | Remove_front => match xs with [] => Fatal | _ :: xs => Ok (n, xs) end
  | Resize m => if forallb (λ x, x <? m) xs then Ok (m, xs) else Fatal
  end.

(** Run both; the callers' promise is asked for at each step. *)
Fixpoint list_agrees (l : NR_list_t) (n : Z) (xs : list Z) (ops : list list_op) : Prop :=
  l_len l = n ∧ list_rep l xs ∧
  match ops with
  | [] => True
  | o :: ops =>
      list_allowed n xs o →
      match list_spec n xs o with
      | Ok (n, xs) => ∃ l', list_exec l o = Ok l' ∧ list_agrees l' n xs ops
      | r => list_exec l o = Fatal
      end
  end.

Lemma list_agrees_ok ops : ∀ l xs, list_rep l xs → list_agrees l (l_len l) xs ops.
Proof.
  induction ops as [|o ops IH]; intros l xs R; cbn [list_agrees]; split_and!; try done. intros Ha.
  destruct o as [id|id|id|id| |m]; cbn [list_spec list_exec].
  - pose proof (add_ok l xs id R Ha) as H. destruct (decide (id ∈ xs)); [done|].
    destruct H as (l' & H & R' & <-). eauto.
  - destruct Ha as [Ha Hni]. destruct (add_tail_ok l xs id R Ha Hni) as (l' & H & R' & <-). eauto.
  - destruct Ha as [Ha Hni]. destruct (add_front_ok l xs id R Ha Hni) as (l' & H & R' & <-). eauto.
  - pose proof (remove_ok l xs id R) as H. destruct (decide (id ∈ xs)); [|done].
    destruct H as (l' & H & R' & <-). eauto.
  - destruct xs as [|x xs]; [by apply remove_front_nil|].
    destruct (remove_front_ok l x xs R) as (l' & H & R' & <-). eauto.
  - pose proof (resize_ok l xs m R Ha) as H. destruct (forallb _ xs); [|done].
    destruct H as (l' & H & R' & <-). eauto.
Qed.

(** The list of identities implements a list without duplicates: from [create_nr_list] on,
    over every sequence of operations within the callers' contract, each operation returns the
    list its specification calls for, and stops the process exactly where the specification
    does: a number added twice with [add_nr_list], one removed that is not there, a removal
    from an empty list, a length below a number in the list. *)
Theorem nr_list_refines n ops : 0 < n → list_agrees (create_nr_list n) n [] ops.
Proof. intros Hn. apply (list_agrees_ok ops (create_nr_list n) []). apply create_rep. lia. Qed.

Lemma nr_list_refines_witness :
  list_agrees (create_nr_list 4) 4 [] [Add_tail 2; Add 0; Add_front 3; Remove 0; Remove_front; Resize 3; Add 2].
Proof. apply nr_list_refines. lia. Defined.
