(* ===== verification/MacHarq.v ===== *)
(** * HARQ processes of the gNB

    Models what the gNB's MAC does with the HARQ processes of a connected UE: the three lists
    (free, waiting for feedback, to be retransmitted) and the process records, their creation
    and reset ([gNB_scheduler_primitives.c]), the choice of a process for a transmission and
    the transport block kept for retransmission ([gNB_scheduler_dlsch.c], [_ulsch.c]), and the
    handling of ACK and NACK ([gNB_scheduler_uci.c], [_ulsch.c]). *)

From S2P Require Import Prelude MacList.

Definition NR_MAX_HARQ_PROCESSES : Z := 32.

(** ** What downlink and uplink share *)

Record harq_lists (P : Type) := mk_harq_lists {
  available : NR_list_t;
  feedback : NR_list_t;
  retrans : NR_list_t;
  processes : list P;
}.
Arguments mk_harq_lists {P}.
Arguments available {P}.
Arguments feedback {P}.
Arguments retrans {P}.
Arguments processes {P}.

#[export] Instance set_available {P} : Setter (@available P) :=
  λ v c, mk_harq_lists v (feedback c) (retrans c) (processes c).
#[export] Instance set_feedback {P} : Setter (@feedback P) :=
  λ v c, mk_harq_lists (available c) v (retrans c) (processes c).
#[export] Instance set_retrans {P} : Setter (@retrans P) :=
  λ v c, mk_harq_lists (available c) (feedback c) v (processes c).
#[export] Instance set_processes {P} : Setter (@processes P) :=
  λ v c, mk_harq_lists (available c) (feedback c) (retrans c) v.

Section Lists.
Context {P : Type}.
Implicit Types c : harq_lists P.

Definition proc_get c (pid : Z) : outcome P :=
  if pid <? 0 then Undef
  else match processes c !! Z.to_nat pid with Some h => Ok h | None => Undef end.

Definition proc_set c (pid : Z) (h : P) : outcome (harq_lists P) :=
  if (0 <=? pid) && (pid <? zlen (processes c))
  then Ok (c <| processes := <[Z.to_nat pid := h]> (processes c) |>) else Undef.

Definition to_available c (pid : Z) : outcome (harq_lists P) :=
  l ← add_tail_nr_list (available c) pid; Ok (c <| available := l |>).
Definition to_feedback c (pid : Z) : outcome (harq_lists P) :=
  l ← add_tail_nr_list (feedback c) pid; Ok (c <| feedback := l |>).
Definition to_retrans c (pid : Z) : outcome (harq_lists P) :=
  l ← add_tail_nr_list (retrans c) pid; Ok (c <| retrans := l |>).
Definition pop_feedback c : outcome (harq_lists P) :=
  l ← remove_front_nr_list (feedback c); Ok (c <| feedback := l |>).

(** [for (int harq = first; harq < first + n; harq++) add_tail_nr_list(...)] *)
Fixpoint add_new (l : NR_list_t) (first : Z) (n : nat) : outcome NR_list_t :=
  match n with
  | O => Ok l
  | S n => l ← add_tail_nr_list l first; add_new l (first + 1) n
  end.

(** The common part of [create_dl_harq_list] and [create_ul_harq_list]. *)
Definition create_lists c (nrofHARQ : Z) : outcome (harq_lists P) :=
  let old_nrofHARQ := l_len (available c) in
  if old_nrofHARQ =? 0 then
    av ← add_new (create_nr_list nrofHARQ) 0 (Z.to_nat nrofHARQ);
    Ok (mk_harq_lists av (create_nr_list nrofHARQ) (create_nr_list nrofHARQ) (processes c))
  else if old_nrofHARQ =? nrofHARQ then Ok c
  else
    _ ← assert_fatal (old_nrofHARQ <? nrofHARQ);
    av ← resize_nr_list (available c) nrofHARQ;
    av ← add_new av old_nrofHARQ (Z.to_nat (nrofHARQ - old_nrofHARQ));
    fb ← resize_nr_list (feedback c) nrofHARQ;
    rt ← resize_nr_list (retrans c) nrofHARQ;
    Ok (mk_harq_lists av fb rt (processes c)).

(** The number is limited where DCI formats 0_0 and 1_0 have four bits for the process. *)
Definition limit_harq (nrofHARQ : Z) (dci_00_10 : bool) : Z :=
  if dci_00_10 && (16 <? nrofHARQ) then 16 else nrofHARQ.

(** The two loops of [reset_dl_harq_list] and [reset_ul_harq_list]. *)
Fixpoint free_feedback (fuel : nat) c : outcome (harq_lists P) :=
  let harq := l_head (feedback c) in
  if harq <? 0 then Ok c
  else match fuel with
  | O => Diverge
  | S fuel => c ← pop_feedback c; c ← to_available c harq; free_feedback fuel c
  end.

Fixpoint free_retrans (fuel : nat) c : outcome (harq_lists P) :=
  let harq := l_head (retrans c) in
  if harq <? 0 then Ok c
  else match fuel with
  | O => Diverge
  | S fuel =>
      l ← remove_front_nr_list (retrans c);
      c ← to_available (c <| retrans := l |>) harq; free_retrans fuel c
  end.

Definition free_lists c : outcome (harq_lists P) :=
  c ← free_feedback (length (l_next (feedback c))) c;
  free_retrans (length (l_next (retrans c))) c.
End Lists.

(** ** Downlink *)

Record NR_UE_harq_t := mk_harq {
  h_is_waiting : bool;
  h_ndi : Z;
  h_round : Z;
  h_feedback_frame : Z;
  h_feedback_slot : Z;
  h_transportBlock : bytes;
  h_start_tci_timer : bool;
  h_tb_size : Z;               (* [sched_pdsch.tb_size] *)
  h_action : bool;             (* [sched_pdsch.action] is [ack_reconfig] *)
}.

#[export] Instance eta_harq : Eta NR_UE_harq_t :=
  λ h, mk_harq (h_is_waiting h) (h_ndi h) (h_round h) (h_feedback_frame h) (h_feedback_slot h)
         (h_transportBlock h) (h_start_tci_timer h) (h_tb_size h) (h_action h).
#[export] Instance set_h_is_waiting : Setter h_is_waiting := ltac:(derive_setter).
#[export] Instance set_h_ndi : Setter h_ndi := ltac:(derive_setter).
#[export] Instance set_h_round : Setter h_round := ltac:(derive_setter).
#[export] Instance set_h_feedback_frame : Setter h_feedback_frame := ltac:(derive_setter).
#[export] Instance set_h_feedback_slot : Setter h_feedback_slot := ltac:(derive_setter).
#[export] Instance set_h_transportBlock : Setter h_transportBlock := ltac:(derive_setter).
#[export] Instance set_h_start_tci_timer : Setter h_start_tci_timer := ltac:(derive_setter).
#[export] Instance set_h_tb_size : Setter h_tb_size := ltac:(derive_setter).
#[export] Instance set_h_action : Setter h_action := ltac:(derive_setter).

Record dl_ctrl := mk_dl_ctrl {
  dl_harq : harq_lists NR_UE_harq_t;
  dl_errors : Z;                        (* [mac_stats.dl.errors] *)
  dl_rounds : list Z;                   (* [mac_stats.dl.rounds] *)
  dl_reconfig : option (Z * bool);      (* of [reconfigCellGroup]: processes, fallback DCI *)
  dl_tci_beam_switch : option Z;        (* target of the timer once it runs *)
}.

#[export] Instance eta_dl_ctrl : Eta dl_ctrl :=
  λ d, mk_dl_ctrl (dl_harq d) (dl_errors d) (dl_rounds d) (dl_reconfig d) (dl_tci_beam_switch d).
#[export] Instance set_dl_harq : Setter dl_harq := ltac:(derive_setter).
#[export] Instance set_dl_errors : Setter dl_errors := ltac:(derive_setter).
#[export] Instance set_dl_rounds : Setter dl_rounds := ltac:(derive_setter).
#[export] Instance set_dl_reconfig : Setter dl_reconfig := ltac:(derive_setter).
#[export] Instance set_dl_tci_beam_switch : Setter dl_tci_beam_switch := ltac:(derive_setter).

Definition create_dl_harq_list (d : dl_ctrl) (nrof : Z) (dci_00_10 : bool) : outcome dl_ctrl :=
  let nrofHARQ := limit_harq nrof dci_00_10 in
  let c := dl_harq d in
  _ ← assert_fatal ((l_len (available c) =? l_len (feedback c)) && (l_len (available c) =? l_len (retrans c)));
  c ← create_lists c nrofHARQ; Ok (d <| dl_harq := c |>).

(** The [-1] goes into 16 bits without sign. *)
Definition reset_dl_harq_list (d : dl_ctrl) : outcome dl_ctrl :=
  c ← free_lists (dl_harq d);
  Ok (d <| dl_harq := c <| processes :=
    (λ h, h <| h_feedback_slot := 65535 |> <| h_round := 0 |> <| h_is_waiting := false |>) <$> processes c |> |>).

Definition finish_nr_dl_harq (d : dl_ctrl) (harq_pid : Z) : outcome dl_ctrl :=
  harq ← proc_get (dl_harq d) harq_pid;
  c ← proc_set (dl_harq d) harq_pid (harq <| h_ndi := Z.lxor (h_ndi harq) 1 |> <| h_round := 0 |>);
  c ← to_available c harq_pid;
  Ok (d <| dl_harq := c |>).

Definition abort_nr_dl_harq (d : dl_ctrl) (harq_pid : Z) : outcome dl_ctrl :=
  d ← finish_nr_dl_harq d harq_pid; Ok (d <| dl_errors := u64 (dl_errors d + 1) |>).

(** Of [configure_UE_BWP], called here, what concerns the processes. *)
Definition ack_reconfig (d : dl_ctrl) : outcome dl_ctrl :=
  match dl_reconfig d with
  | None => Ok d
  | Some (nrof, dci_00_10) => create_dl_harq_list (d <| dl_reconfig := None |>) nrof dci_00_10
  end.

Definition handle_dl_harq (d : dl_ctrl) (harq_pid : Z) (success : bool) (harq_round_max : Z) : outcome dl_ctrl :=
  harq ← proc_get (dl_harq d) harq_pid;
  c ← proc_set (dl_harq d) harq_pid (harq <| h_feedback_slot := 65535 |> <| h_is_waiting := false |>);
  let d := d <| dl_harq := c |> in
  if success then
    d ← (if h_action harq then ack_reconfig d else Ok d);
    finish_nr_dl_harq d harq_pid
  else if harq_round_max - 1 <=? h_round harq then abort_nr_dl_harq d harq_pid
  else
    c ← to_retrans (dl_harq d) harq_pid;
    harq ← proc_get c harq_pid;
    c ← proc_set c harq_pid (harq <| h_round := (h_round harq + 1) mod 256 |>);
    Ok (d <| dl_harq := c |>).

(** The feedback of a process lies before or after the given time. *)
Definition feedback_past (harq : NR_UE_harq_t) (frame slot : Z) : bool :=
  (512 <? cmod (h_feedback_frame harq - frame + 1024) 1024)
  || ((h_feedback_frame harq =? frame) && (h_feedback_slot harq <? slot)).
Definition feedback_future (harq : NR_UE_harq_t) (frame slot : Z) : bool :=
  (512 <? cmod (frame - h_feedback_frame harq + 1024) 1024)
  || ((h_feedback_frame harq =? frame) && (slot <? h_feedback_slot harq)).

(** The loop over feedbacks that were missed; what is left at the head, or none. *)
Fixpoint find_harq_loop (fuel : nat) (d : dl_ctrl) (frame slot harq_round_max : Z) : outcome (dl_ctrl * option Z) :=
  let pid := l_head (feedback (dl_harq d)) in
  if pid <? 0 then Ok (d, None)
  else
    harq ← proc_get (dl_harq d) pid;
    if feedback_past harq frame slot then
      match fuel with
      | O => Diverge
      | S fuel =>
          c ← pop_feedback (dl_harq d);
          d ← handle_dl_harq (d <| dl_harq := c |>) pid false harq_round_max;
          find_harq_loop fuel d frame slot harq_round_max
      end
    else Ok (d, Some pid).

Definition find_harq (d : dl_ctrl) (frame slot harq_round_max : Z) : outcome (dl_ctrl * option Z) :=
  '(d, r) ← find_harq_loop (length (l_next (feedback (dl_harq d)))) d frame slot harq_round_max;
  match r with
  | None => Ok (d, None)
  | Some pid =>
      harq ← proc_get (dl_harq d) pid;
      Ok (d, if feedback_future harq frame slot then None else Some pid)
  end.

(** One bit of feedback, once its process has been found. *)
Definition harq_bit (d : dl_ctrl) (pid : Z) (success : bool) (slots harq_round_max : Z) : outcome dl_ctrl :=
  harq ← proc_get (dl_harq d) pid;
  _ ← assert_fatal (h_is_waiting harq);
  c ← pop_feedback (dl_harq d);
  let d := d <| dl_harq := c |> in
  d ← (if success && h_start_tci_timer harq then
         c ← proc_set (dl_harq d) pid (harq <| h_start_tci_timer := false |>);
         Ok (d <| dl_tci_beam_switch := Some slots |> <| dl_harq := c |>)
       else Ok d);
  handle_dl_harq d pid success harq_round_max.

(** The loop over the bits; it ends at the first for which no process waits. *)
Fixpoint harq_bits (d : dl_ctrl) (frame slot slots harq_round_max : Z) (acks : list bool) : outcome dl_ctrl :=
  match acks with
  | [] => Ok d
  | success :: acks =>
      '(d, r) ← find_harq d frame slot harq_round_max;
      match r with
      | None => Ok d
      | Some pid =>
          d ← harq_bit d pid success slots harq_round_max;
          harq_bits d frame slot slots harq_round_max acks
      end
  end.

(** HARQ of [handle_nr_uci_pucch_0_1] for a connected UE. *)
Definition handle_nr_uci_pucch_0_1 (d : dl_ctrl) (frame slot numb_slots_frame harq_round_max : Z)
    (pduBitmap confidence : Z) (harq_values : list Z) : outcome dl_ctrl :=
  if Z.testbit pduBitmap 1 then
    harq_bits d frame slot (3 * numb_slots_frame / 10) harq_round_max
      ((λ v, (v =? 0) && (confidence =? 0)) <$> harq_values)
  else Ok d.

(** The bits of a payload in the order the loop takes them. *)
Definition payload_bits (harq_bit_len : Z) (payload : bytes) : outcome (list bool) :=
  foldr (λ harq_bit r,
    let rev_bit := harq_bit_len - 1 - Z.of_nat harq_bit in
    b ← buf_get payload (Z.shiftr rev_bit 3);
    r ← r; Ok (Z.testbit b (Z.land rev_bit 7) :: r)) (Ok []) (seq 0 (Z.to_nat harq_bit_len)).

Definition handle_nr_uci_pucch_2_3_4 (d : dl_ctrl) (frame slot numb_slots_frame harq_round_max : Z)
    (pduBitmap harq_crc harq_bit_len : Z) (payload : bytes) : outcome dl_ctrl :=
  if Z.testbit pduBitmap 1 then
    bits ← payload_bits harq_bit_len payload;
    harq_bits d frame slot (3 * numb_slots_frame / 10) harq_round_max
      ((λ acknack, negb (harq_crc =? 1) && acknack) <$> bits)
  else Ok d.

(** The process of a transmission; [pucch] is where the feedback is expected, none when
    feedback is disabled. *)
Definition setup_dl_harq_process (d : dl_ctrl) (dl_harq_pid : Z) (pucch : option (Z * Z)) : outcome (dl_ctrl * Z) :=
  let c := dl_harq d in
  '(c, pid) ←
    (if dl_harq_pid <? 0 then
       let pid := l_head (available c) in
       _ ← assert_fatal (0 <=? pid);
       l ← remove_front_nr_list (available c);
       Ok (c <| available := l |>, pid)
     else
       harq ← proc_get c dl_harq_pid;
       if h_round harq =? 0 then
         l ← remove_nr_list (available c) dl_harq_pid; Ok (c <| available := l |>, dl_harq_pid)
       else
         l ← remove_nr_list (retrans c) dl_harq_pid; Ok (c <| retrans := l |>, dl_harq_pid));
  harq ← proc_get c pid;
  _ ← assert_fatal (negb (h_is_waiting harq));
  match pucch with
  | None => d ← finish_nr_dl_harq (d <| dl_harq := c |>) pid; Ok (d, pid)
  | Some (frame, ul_slot) =>
      c ← to_feedback c pid;
      c ← proc_set c pid (harq <| h_feedback_frame := frame |> <| h_feedback_slot := ul_slot |> <| h_is_waiting := true |>);
      Ok (d <| dl_harq := c |>, pid)
  end.

(** The transport block of [generate_dl_mac_pdu]: a new one is kept, an old one sent again. *)
Definition dl_transport_block (d : dl_ctrl) (pid : Z) (tb : bytes) (tci_scheduled action : bool) : outcome (dl_ctrl * bytes) :=
  harq ← proc_get (dl_harq d) pid;
  if h_round harq =? 0 then
    c ← proc_set (dl_harq d) pid
          (harq <| h_start_tci_timer := tci_scheduled |> <| h_transportBlock := tb |>
                <| h_tb_size := zlen tb |> <| h_action := action |>);
    Ok (d <| dl_harq := c |>, tb)
  else
    _ ← assert_fatal (h_tb_size harq =? zlen tb);
    Ok (d, h_transportBlock harq).

(** What goes out: process, NDI, round, transport block. *)
Record dl_sent := mk_dl_sent { s_pid : Z; s_ndi : Z; s_round : Z; s_tb : bytes }.

(** HARQ of [post_process_dlsch]; [tb] is the transport block of a new transmission, of the
    scheduled size in any case. *)
Definition post_process_dlsch (d : dl_ctrl) (dl_harq_pid : Z) (pucch : option (Z * Z)) (tb : bytes)
    (tci_scheduled action : bool) : outcome (dl_ctrl * dl_sent) :=
  '(d, pid) ← setup_dl_harq_process d dl_harq_pid pucch;
  harq ← proc_get (dl_harq d) pid;
  n ← buf_get (dl_rounds d) (h_round harq);
  rounds ← buf_set (dl_rounds d) (h_round harq) (u64 (n + 1));
  let d := d <| dl_rounds := rounds |> in
  '(d, tb) ← dl_transport_block d pid tb tci_scheduled action;
  Ok (d, mk_dl_sent pid (h_ndi harq) (h_round harq) tb).

(** ** Uplink *)

Record NR_UE_ul_harq_t := mk_ul_harq {
  u_is_waiting : bool;
  u_ndi : Z;
  u_round : Z;
  u_feedback_slot : Z;
  u_tb_size : Z;               (* [sched_pusch.tb_size] *)
}.

#[export] Instance eta_ul_harq_t : Eta NR_UE_ul_harq_t :=
  λ h, mk_ul_harq (u_is_waiting h) (u_ndi h) (u_round h) (u_feedback_slot h) (u_tb_size h).
#[export] Instance set_u_is_waiting : Setter u_is_waiting := ltac:(derive_setter).
#[export] Instance set_u_ndi : Setter u_ndi := ltac:(derive_setter).
#[export] Instance set_u_round : Setter u_round := ltac:(derive_setter).
#[export] Instance set_u_feedback_slot : Setter u_feedback_slot := ltac:(derive_setter).
#[export] Instance set_u_tb_size : Setter u_tb_size := ltac:(derive_setter).

Record ul_ctrl := mk_ul_ctrl {
  ul_harq : harq_lists NR_UE_ul_harq_t;
  ul_errors : Z;               (* [mac_stats.ul.errors] *)
  ul_rounds : list Z;          (* [mac_stats.ul.rounds] *)
  sched_ul_bytes : Z;
}.

#[export] Instance eta_ul_ctrl : Eta ul_ctrl :=
  λ u, mk_ul_ctrl (ul_harq u) (ul_errors u) (ul_rounds u) (sched_ul_bytes u).
#[export] Instance set_ul_harq : Setter ul_harq := ltac:(derive_setter).
#[export] Instance set_ul_errors : Setter ul_errors := ltac:(derive_setter).
#[export] Instance set_ul_rounds : Setter ul_rounds := ltac:(derive_setter).
#[export] Instance set_sched_ul_bytes : Setter sched_ul_bytes := ltac:(derive_setter).

Definition create_ul_harq_list (u : ul_ctrl) (nrof : Z) (dci_00_10 : bool) : outcome ul_ctrl :=
  c ← create_lists (ul_harq u) (limit_harq nrof dci_00_10); Ok (u <| ul_harq := c |>).

Definition reset_ul_harq_list (u : ul_ctrl) : outcome ul_ctrl :=
  c ← free_lists (ul_harq u);
  Ok (u <| ul_harq := c <| processes :=
    (λ h, h <| u_feedback_slot := 65535 |> <| u_round := 0 |> <| u_is_waiting := false |>) <$> processes c |> |>).

Definition finish_nr_ul_harq (u : ul_ctrl) (harq_pid : Z) : outcome ul_ctrl :=
  harq ← proc_get (ul_harq u) harq_pid;
  c ← proc_set (ul_harq u) harq_pid (harq <| u_ndi := Z.lxor (u_ndi harq) 1 |> <| u_round := 0 |>);
  c ← to_available c harq_pid;
  Ok (u <| ul_harq := c |>).

Definition abort_nr_ul_harq (u : ul_ctrl) (harq_pid : Z) : outcome ul_ctrl :=
  harq ← proc_get (ul_harq u) harq_pid;
  u ← finish_nr_ul_harq u harq_pid;
  Ok (u <| ul_errors := u64 (ul_errors u + 1) |>
        <| sched_ul_bytes := Z.max 0 (sched_ul_bytes u - u_tb_size harq) |>).

(** A round failed: given up after the last, otherwise to be sent again. *)
Definition ul_round_failed (u : ul_ctrl) (harq_pid harq_round_max : Z) : outcome ul_ctrl :=
  harq ← proc_get (ul_harq u) harq_pid;
  if harq_round_max - 1 <=? u_round harq then abort_nr_ul_harq u harq_pid
  else
    c ← proc_set (ul_harq u) harq_pid (harq <| u_round := (u_round harq + 1) mod 256 |>);
    c ← to_retrans c harq_pid;
    Ok (u <| ul_harq := c |>).

(** The loop over processes whose result never came; what is found, or none. *)
Fixpoint skip_ul_harq (fuel : nat) (u : ul_ctrl) (crc_harq_id harq_round_max : Z) : outcome (ul_ctrl * option Z) :=
  let harq_pid := l_head (feedback (ul_harq u)) in
  if negb (crc_harq_id =? harq_pid) || (harq_pid <? 0) then
    if harq_pid <? 0 then Ok (u, None)
    else match fuel with
    | O => Diverge
    | S fuel =>
        c ← pop_feedback (ul_harq u);
        harq ← proc_get c harq_pid;
        c ← proc_set c harq_pid (harq <| u_is_waiting := false |>);
        u ← ul_round_failed (u <| ul_harq := c |>) harq_pid harq_round_max;
        skip_ul_harq fuel u crc_harq_id harq_round_max
    end
  else Ok (u, Some harq_pid).

(** [crc_status] is true when the transport block was not received. *)
Definition handle_nr_ul_harq (u : ul_ctrl) (disable_harq : bool) (crc_harq_id : Z) (crc_status : bool)
    (harq_round_max : Z) : outcome ul_ctrl :=
  if disable_harq then Ok u
  else
    '(u, r) ← skip_ul_harq (length (l_next (feedback (ul_harq u)))) u crc_harq_id harq_round_max;
    match r with
    | None => Ok u
    | Some harq_pid =>
        c ← pop_feedback (ul_harq u);
        harq ← proc_get c harq_pid;
        _ ← assert_fatal (u_is_waiting harq);
        c ← proc_set c harq_pid (harq <| u_feedback_slot := 65535 |> <| u_is_waiting := false |>);
        let u := u <| ul_harq := c |> in
        if crc_status then ul_round_failed u harq_pid harq_round_max
        else finish_nr_ul_harq u harq_pid
    end.

(** HARQ of [post_process_ulsch]: the process, its NDI and round of a grant. *)
Definition post_process_ulsch (u : ul_ctrl) (disable_harq : bool) (ul_harq_pid slot tb_size harq_round_max : Z)
    : outcome (ul_ctrl * (Z * Z * Z)) :=
  let c := ul_harq u in
  '(c, harq_id) ←
    (if ul_harq_pid <? 0 then
       let harq_id := l_head (available c) in
       _ ← assert_fatal (0 <=? harq_id);
       l ← remove_front_nr_list (available c);
       Ok (c <| available := l |>, harq_id)
     else
       harq ← proc_get c ul_harq_pid;
       if u_round harq =? 0 then
         l ← remove_nr_list (available c) ul_harq_pid; Ok (c <| available := l |>, ul_harq_pid)
       else
         l ← remove_nr_list (retrans c) ul_harq_pid; Ok (c <| retrans := l |>, ul_harq_pid));
  cur_harq ← proc_get c harq_id;
  _ ← assert_fatal (negb (u_is_waiting cur_harq));
  u ← (if disable_harq then finish_nr_ul_harq (u <| ul_harq := c |>) harq_id
       else
         c ← to_feedback c harq_id;
         c ← proc_set c harq_id (cur_harq <| u_feedback_slot := slot |> <| u_is_waiting := true |>);
         Ok (u <| ul_harq := c |>));
  cur_harq ← proc_get (ul_harq u) harq_id;
  _ ← assert_fatal (u_round cur_harq <? harq_round_max);
  n ← buf_get (ul_rounds u) (u_round cur_harq);
  rounds ← buf_set (ul_rounds u) (u_round cur_harq) (u64 (n + 1));
  let u := u <| ul_rounds := rounds |>
             <| sched_ul_bytes := if u_round cur_harq =? 0 then sched_ul_bytes u + tb_size else sched_ul_bytes u |> in
  c ← proc_set (ul_harq u) harq_id (cur_harq <| u_tb_size := tb_size |>);
  Ok (u <| ul_harq := c |>, (harq_id, u_ndi cur_harq, u_round cur_harq)).
