(* ===== verification/MacHarqProofs.v ===== *)
(** * Theorems on the HARQ processes

    Every process is in exactly one of the three lists, in the state that its list stands for,
    over all sequences of transmissions, feedback, reset and reconfiguration ([MacHarq]); and
    what is sent on a process follows the HARQ protocol. *)

From S2P Require Import Prelude MacList MacHarq.

#[local] Arguments Z.add : simpl never.
#[local] Arguments Z.sub : simpl never.
#[local] Arguments Z.mul : simpl never.

(** ** The invariant of the lists *)
Section Inv.
Context {P : Type} (waiting : P → bool) (round : P → Z) (max : Z).
Implicit Types c : harq_lists P.

(** A process record in the state that its list stands for. *)
Definition proc_ok (fb rt : list Z) (pid : Z) (h : P) : Prop :=
  (pid ∈ fb ↔ waiting h = true) ∧ 0 <= round h < max ∧
  (pid ∈ rt → 0 < round h) ∧ (pid ∉ fb → pid ∉ rt → round h = 0).

(** [held] is taken out of all lists, records in [ex] may be in any state. *)
Definition nobody (_ : Z) : Prop := False.
Definition anybody (_ : Z) : Prop := True.
Record harq_inv (held : list Z) (ex : Z → Prop) (n : Z) c (av fb rt : list Z) : Prop := mk_harq_inv {
  hi_av : list_rep (available c) av;
  hi_fb : list_rep (feedback c) fb;
  hi_rt : list_rep (retrans c) rt;
  hi_len : l_len (available c) = n ∧ l_len (feedback c) = n ∧ l_len (retrans c) = n;
  hi_n : 0 < n <= NR_MAX_HARQ_PROCESSES;
  hi_perm : held ++ av ++ fb ++ rt ≡ₚ seqZ 0 n;
  hi_procs : zlen (processes c) = NR_MAX_HARQ_PROCESSES;
  hi_state : ∀ pid h, 0 <= pid → ¬ ex pid → processes c !! Z.to_nat pid = Some h → proc_ok fb rt pid h;
}.

Lemma hi_elem held ex n c av fb rt : harq_inv held ex n c av fb rt →
  ∀ i, i ∈ held ++ av ++ fb ++ rt ↔ 0 <= i < n.
Proof. intros I i. rewrite (hi_perm _ _ _ _ _ _ _ I), elem_of_seqZ. lia. Qed.

Lemma hi_nodup held ex n c av fb rt : harq_inv held ex n c av fb rt → NoDup (held ++ av ++ fb ++ rt).
Proof. intros I. rewrite (hi_perm _ _ _ _ _ _ _ I). apply NoDup_seqZ. Qed.

Lemma proc_get_ok held ex n c av fb rt pid :
  harq_inv held ex n c av fb rt → 0 <= pid < n →
  ∃ h, proc_get c pid = Ok h ∧ processes c !! Z.to_nat pid = Some h.
Proof.
  intros I Hp. pose proof (hi_n _ _ _ _ _ _ _ I) as Hn. pose proof (hi_procs _ _ _ _ _ _ _ I) as Hl.
  destruct (lookup_lt_is_Some_2 (processes c) (Z.to_nat pid)) as [h Hh]; [unfold zlen in Hl; lia|].
  exists h. split; [|done]. unfold proc_get. rewrite (proj2 (Z.ltb_ge pid 0)) by lia. by rewrite Hh.
Qed.

Lemma proc_set_ok held ex n c av fb rt pid h :
  ex pid → harq_inv held ex n c av fb rt → 0 <= pid < n →
  ∃ c', proc_set c pid h = Ok c' ∧ harq_inv held ex n c' av fb rt ∧
    processes c' = <[Z.to_nat pid := h]> (processes c) ∧
    available c' = available c ∧ feedback c' = feedback c ∧ retrans c' = retrans c.
Proof.
  intros Hex I Hp. pose proof (hi_n _ _ _ _ _ _ _ I) as Hn. pose proof (hi_procs _ _ _ _ _ _ _ I) as Hl.
  unfold proc_set. rewrite (proj2 (Z.leb_le 0 pid)), (proj2 (Z.ltb_lt pid _)) by lia. cbn [andb].
  eexists. split_and!; try done. destruct I. split; cbn; try done.
  - unfold zlen. by rewrite length_insert.
  - intros p h' Hp0 Hne. rewrite list_lookup_insert_ne by (intros E; apply Hne; replace p with pid by lia; done). eauto.
Qed.

(** A record back in the state of its list. *)
Lemma hi_close n c av fb rt pid h :
  harq_inv [] (eq pid) n c av fb rt → processes c !! Z.to_nat pid = Some h → 0 <= pid →
  proc_ok fb rt pid h → harq_inv [] nobody n c av fb rt.
Proof.
  intros I Hh Hp Hok. destruct I. split; try done. intros p h' Hp0 _ Hl.
  destruct (decide (pid = p)) as [<-|Hne]; [congruence|]. by apply hi_state0.
Qed.

Lemma hi_open held n c av fb rt pid : harq_inv held nobody n c av fb rt → harq_inv held (eq pid) n c av fb rt.
Proof. intros I. destruct I. split; try done. intros p h Hp _. by apply hi_state0; [|intros []]. Qed.

(** *** Out of a list *)

Lemma filter_perm (xs : list Z) x : NoDup xs → x ∈ xs → xs ≡ₚ x :: filter (λ y, y ≠ x) xs.
Proof.
  intros Hnd (a & b & ->)%list_elem_of_split. rewrite filter_app, filter_cons_False by auto.
  apply NoDup_app in Hnd as (_ & H1 & [H2 _]%NoDup_cons).
  rewrite !filter_notin by set_solver. by rewrite Permutation_middle.
Qed.

Lemma take_front n c av fb rt pid :
  harq_inv [] nobody n c (pid :: av) fb rt →
  ∃ l, remove_front_nr_list (available c) = Ok l ∧
    harq_inv [pid] (eq pid) n (c <| available := l |>) av fb rt.
Proof.
  intros I. destruct (remove_front_ok _ _ _ (hi_av _ _ _ _ _ _ _ I)) as (l & Hl & R & Hlen).
  exists l. split; [done|]. destruct I. split; cbn; try done.
  - rewrite Hlen. done.
  - intros p h Hp Hne. apply hi_state0; [done|intros []].
Qed.

Lemma take_available n c av fb rt pid :
  harq_inv [] nobody n c av fb rt → pid ∈ av →
  ∃ l, remove_nr_list (available c) pid = Ok l ∧
    harq_inv [pid] (eq pid) n (c <| available := l |>) (filter (λ y, y ≠ pid) av) fb rt.
Proof.
  intros I Hin. pose proof (remove_ok _ _ pid (hi_av _ _ _ _ _ _ _ I)) as H. rewrite decide_True in H by done.
  destruct H as (l & Hl & R & Hlen). exists l. split; [done|]. pose proof (rep_nodup _ _ (hi_av _ _ _ _ _ _ _ I)) as Hnd.
  destruct I. split; cbn [available feedback retrans processes set_field set_available]; try done.
  - rewrite Hlen. done.
  - rewrite <- hi_perm0. cbn [app]. by rewrite (filter_perm av pid) at 2.
  - intros p h Hp Hne. apply hi_state0; [done|intros []].
Qed.

Lemma proc_ok_other fb rt fb' rt' pid h :
  (pid ∈ fb ↔ pid ∈ fb') → (pid ∈ rt ↔ pid ∈ rt') → proc_ok fb rt pid h → proc_ok fb' rt' pid h.
Proof. intros Hf Hr (H1 & H2 & H3 & H4). split_and!; tauto. Qed.

Lemma take_retrans n c av fb rt pid :
  harq_inv [] nobody n c av fb rt → pid ∈ rt →
  ∃ l, remove_nr_list (retrans c) pid = Ok l ∧
    harq_inv [pid] (eq pid) n (c <| retrans := l |>) av fb (filter (λ y, y ≠ pid) rt).
Proof.
  intros I Hin. pose proof (remove_ok _ _ pid (hi_rt _ _ _ _ _ _ _ I)) as H. rewrite decide_True in H by done.
  destruct H as (l & Hl & R & Hlen). exists l. split; [done|]. pose proof (rep_nodup _ _ (hi_rt _ _ _ _ _ _ _ I)) as Hnd.
  destruct I. split; cbn [available feedback retrans processes set_field set_retrans]; try done.
  - rewrite Hlen. done.
  - rewrite <- hi_perm0. cbn [app]. rewrite (filter_perm rt pid) at 2 by done. rewrite !app_assoc. apply Permutation_middle.
  - intros p h Hp Hne Hh. eapply proc_ok_other; [done| |by apply (hi_state0 p h); [|intros []|]].
    rewrite list_elem_of_filter. split; [intros; split; [congruence|done]|tauto].
Qed.

Lemma pop_ok (ex ex' : Z → Prop) n c av fb rt pid :
  (∀ p, ex p → ex' p) → ex' pid →
  harq_inv [] ex n c av (pid :: fb) rt →
  ∃ c', pop_feedback c = Ok c' ∧ harq_inv [pid] ex' n c' av fb rt ∧ processes c' = processes c.
Proof.
  intros Hsub Hex I. unfold pop_feedback. destruct (remove_front_ok _ _ _ (hi_fb _ _ _ _ _ _ _ I)) as (l & -> & R & Hlen).
  cbn [mbind outcome_bind]. eexists. split_and!; [done| |done]. destruct I. split; cbn; try done.
  - rewrite Hlen. done.
  - rewrite <- hi_perm0. cbn [app]. apply Permutation_middle.
  - intros p h Hp Hne Hh. eapply proc_ok_other; [|done|apply (hi_state0 p h); [done|naive_solver|done]].
    rewrite elem_of_cons. split; [intros [->|]; [done|done]|by right].
Qed.

(** *** Into a list *)

Lemma held_in ex n c av fb rt pid :
  harq_inv [pid] ex n c av fb rt → 0 <= pid < n ∧ pid ∉ av ∧ pid ∉ fb ∧ pid ∉ rt.
Proof.
  intros I. split; [apply (hi_elem _ _ _ _ _ _ _ I); set_solver|].
  pose proof (hi_nodup _ _ _ _ _ _ _ I) as Hnd. apply NoDup_cons in Hnd. set_solver.
Qed.

Lemma give_available (ex : Z → Prop) n c av fb rt pid :
  ex pid → harq_inv [pid] ex n c av fb rt →
  ∃ c', to_available c pid = Ok c' ∧ harq_inv [] ex n c' (av ++ [pid]) fb rt ∧ processes c' = processes c.
Proof.
  intros Hex I. destruct (held_in _ _ _ _ _ _ _ I) as (Hp & Ha & _). unfold to_available.
  destruct (hi_len _ _ _ _ _ _ _ I) as (Hl & _).
  destruct (add_tail_ok _ _ pid (hi_av _ _ _ _ _ _ _ I)) as (l & -> & R & Hlen); [by rewrite Hl|done|].
  cbn [mbind outcome_bind]. eexists. split_and!; [done| |done]. destruct I. split; cbn; try done.
  - rewrite Hlen. done.
  - rewrite <- hi_perm0, <- app_assoc. symmetry. exact (Permutation_middle _ _ _).
Qed.

Lemma give_feedback (ex : Z → Prop) n c av fb rt pid :
  ex pid → harq_inv [pid] ex n c av fb rt →
  ∃ c', to_feedback c pid = Ok c' ∧ harq_inv [] ex n c' av (fb ++ [pid]) rt ∧ processes c' = processes c.
Proof.
  intros Hex I. destruct (held_in _ _ _ _ _ _ _ I) as (Hp & _ & Ha & _). unfold to_feedback.
  destruct (hi_len _ _ _ _ _ _ _ I) as (_ & Hl & _).
  destruct (add_tail_ok _ _ pid (hi_fb _ _ _ _ _ _ _ I)) as (l & -> & R & Hlen); [by rewrite Hl|done|].
  cbn [mbind outcome_bind]. eexists. split_and!; [done| |done]. destruct I. split; cbn; try done.
  - rewrite Hlen. done.
  - rewrite <- hi_perm0, <- app_assoc, !(app_assoc av fb). symmetry. exact (Permutation_middle _ _ _).
  - intros p h Hp0 Hne Hh. eapply proc_ok_other; [|done|by apply (hi_state0 p h)].
    rewrite elem_of_app, list_elem_of_singleton. split; [by left|]. intros [| ->]; done.
Qed.

Lemma give_retrans (ex : Z → Prop) n c av fb rt pid :
  ex pid → harq_inv [pid] ex n c av fb rt →
  ∃ c', to_retrans c pid = Ok c' ∧ harq_inv [] ex n c' av fb (rt ++ [pid]) ∧ processes c' = processes c.
Proof.
  intros Hex I. destruct (held_in _ _ _ _ _ _ _ I) as (Hp & _ & _ & Ha). unfold to_retrans.
  destruct (hi_len _ _ _ _ _ _ _ I) as (_ & _ & Hl).
  destruct (add_tail_ok _ _ pid (hi_rt _ _ _ _ _ _ _ I)) as (l & -> & R & Hlen); [by rewrite Hl|done|].
  cbn [mbind outcome_bind]. eexists. split_and!; [done| |done]. destruct I. split; cbn; try done.
  - rewrite Hlen. done.
  - rewrite <- hi_perm0. cbn [app]. rewrite !app_assoc. by rewrite <- Permutation_cons_append.
  - intros p h Hp0 Hne Hh. eapply proc_ok_other; [done| |by apply (hi_state0 p h)].
    rewrite elem_of_app, list_elem_of_singleton. split; [by left|]. intros [| ->]; done.
Qed.
(** *** Creation, growth, reset *)

Lemma add_new_ok : ∀ k l xs first,
  list_rep l xs → 0 <= first → first + Z.of_nat k <= l_len l → (∀ x, x ∈ xs → x < first) →
  ∃ l', add_new l first k = Ok l' ∧ list_rep l' (xs ++ seqZ first (Z.of_nat k)) ∧ l_len l' = l_len l.
Proof.
  induction k as [|k IH]; intros l xs first R Hf Hl Hx; cbn [add_new].
  { exists l. by rewrite app_nil_r. }
  destruct (add_tail_ok l xs first R) as (l1 & -> & R1 & Hl1); [lia|intros ?%Hx; lia|].
  cbn [mbind outcome_bind]. destruct (IH l1 (xs ++ [first]) (first + 1) R1) as (l2 & -> & R2 & Hl2); [lia|lia| |].
  { intros x [Hy| ->%list_elem_of_singleton]%elem_of_app; [specialize (Hx x Hy)|]; lia. }
  exists l2. split_and!; [done| |by rewrite Hl2]. rewrite (seqZ_cons first (Z.of_nat (S k))) by lia.
  replace (Z.pred (Z.of_nat (S k))) with (Z.of_nat k) by lia. rewrite <- app_assoc in R2. exact R2.
Qed.

Lemma create_ok c nrof :
  l_len (available c) = 0 → 0 < nrof <= NR_MAX_HARQ_PROCESSES → 0 < max →
  zlen (processes c) = NR_MAX_HARQ_PROCESSES →
  (∀ h, h ∈ processes c → waiting h = false ∧ round h = 0) →
  ∃ c', create_lists c nrof = Ok c' ∧ harq_inv [] nobody nrof c' (seqZ 0 nrof) [] [] ∧ processes c' = processes c.
Proof.
  intros H0 Hn Hm Hp Hw. unfold create_lists. rewrite H0. cbn [Z.eqb].
  destruct (add_new_ok (Z.to_nat nrof) (create_nr_list nrof) [] 0) as (l & -> & R & Hl);
    [apply create_rep; lia|lia|cbn; lia|intros x Hx; by apply not_elem_of_nil in Hx|].
  rewrite Z2Nat.id in R by lia. cbn [mbind outcome_bind]. eexists. split_and!; [done| |done].
  split; cbn [available feedback retrans processes]; try done; try (apply create_rep; lia).
  - by rewrite !app_nil_r.
  - intros pid h Hpid _ Hh. destruct (Hw h) as [Hw1 Hw2]; [by eapply list_elem_of_lookup_2|].
    split_and!; [|lia|lia|intros Hi; by apply not_elem_of_nil in Hi|done]. rewrite Hw1, elem_of_nil. done.
Qed.

Lemma seqZ_split n m : 0 <= n <= m → seqZ 0 m = seqZ 0 n ++ seqZ n (m - n).
Proof. intros H. replace (seqZ n (m - n)) with (seqZ (0 + n) (m - n)) by (f_equal; lia). rewrite <- seqZ_app by lia. f_equal. lia. Qed.

Lemma resize_grow l xs m : list_rep l xs → l_len l <= m → 0 < m →
  ∃ l', resize_nr_list l m = Ok l' ∧ list_rep l' xs ∧ l_len l' = m.
Proof.
  intros R Hl Hm. pose proof (resize_ok l xs m R Hm) as H. rewrite (proj2 (forallb_forall _ _)) in H; [done|].
  intros x Hx%list_elem_of_In%R. apply Z.ltb_lt. lia.
Qed.

Lemma grow_ok held ex n c av fb rt nrof :
  harq_inv held ex n c av fb rt → n <= nrof <= NR_MAX_HARQ_PROCESSES →
  ∃ c', create_lists c nrof = Ok c' ∧ harq_inv held ex nrof c' (av ++ seqZ n (nrof - n)) fb rt ∧ processes c' = processes c.
Proof.
  intros I Hn. pose proof (hi_n _ _ _ _ _ _ _ I) as Hn0. destruct (hi_len _ _ _ _ _ _ _ I) as (La & Lf & Lr).
  unfold create_lists. rewrite La, (proj2 (Z.eqb_neq n 0)) by lia. destruct (Z.eqb_spec n nrof) as [<-|Hne].
  { exists c. rewrite Z.sub_diag. cbn. by rewrite app_nil_r. }
  rewrite (proj2 (Z.ltb_lt n nrof)) by lia. cbn [assert_fatal mbind outcome_bind].
  destruct (resize_grow _ _ nrof (hi_av _ _ _ _ _ _ _ I)) as (l1 & -> & R1 & Hl1); [lia|lia|]. cbn [mbind outcome_bind].
  destruct (add_new_ok (Z.to_nat (nrof - n)) l1 av n R1) as (l2 & -> & R2 & Hl2); [lia|lia| |].
  { intros x Hx. assert (0 <= x < n); [|lia]. apply (hi_elem _ _ _ _ _ _ _ I). set_solver. }
  rewrite Z2Nat.id in R2 by lia. cbn [mbind outcome_bind].
  destruct (resize_grow _ _ nrof (hi_fb _ _ _ _ _ _ _ I)) as (l3 & -> & R3 & Hl3); [lia|lia|]. cbn [mbind outcome_bind].
  destruct (resize_grow _ _ nrof (hi_rt _ _ _ _ _ _ _ I)) as (l4 & -> & R4 & Hl4); [lia|lia|]. cbn [mbind outcome_bind].
  eexists. split_and!; [done| |done]. destruct I. split; cbn [available feedback retrans processes]; try done.
  - split_and!; congruence.
  - lia.
  - rewrite (seqZ_split n nrof) by lia. rewrite <- hi_perm0, <- !app_assoc. do 2 apply Permutation_app_head. rewrite (app_assoc fb rt). apply Permutation_app_comm.
Qed.

Lemma shrink_fatal held ex n c av fb rt nrof :
  harq_inv held ex n c av fb rt → 0 < nrof < n → create_lists c nrof = Fatal.
Proof.
  intros I Hn. destruct (hi_len _ _ _ _ _ _ _ I) as (La & _). unfold create_lists.
  rewrite La, !(proj2 (Z.eqb_neq n _)), (proj2 (Z.ltb_ge n nrof)) by lia. done.
Qed.

Lemma head_cons l x xs : list_rep l (x :: xs) → l_head l = x ∧ (x <? 0) = false.
Proof. intros R. split; [apply R|]. apply Z.ltb_ge. apply R. set_solver. Qed.

Lemma head_nil l : list_rep l [] → (l_head l <? 0) = true.
Proof. intros R. by rewrite (rep_head _ _ R). Qed.

Lemma free_feedback_ok : ∀ fb fuel n c av rt,
  harq_inv [] anybody n c av fb rt → (length fb <= fuel)%nat →
  ∃ c', free_feedback fuel c = Ok c' ∧ harq_inv [] anybody n c' (av ++ fb) [] rt ∧ processes c' = processes c.
Proof.
  induction fb as [|x fb IH]; intros fuel n c av rt I Hf.
  { exists c. rewrite app_nil_r. split_and!; [|done|done]. destruct fuel; cbn [free_feedback];
      by rewrite (head_nil _ (hi_fb _ _ _ _ _ _ _ I)). }
  destruct (head_cons _ _ _ (hi_fb _ _ _ _ _ _ _ I)) as [Hh Hx].
  destruct fuel as [|fuel]; [cbn in Hf; lia|]. cbn [free_feedback]. rewrite Hh, Hx.
  destruct (pop_ok anybody anybody n c av fb rt x) as (c1 & -> & I1 & P1); [done|done|done|]. cbn [mbind outcome_bind].
  destruct (give_available anybody n c1 av fb rt x) as (c2 & -> & I2 & P2); [done|done|]. cbn [mbind outcome_bind].
  destruct (IH fuel n c2 (av ++ [x]) rt I2) as (c3 & -> & I3 & P3); [cbn in Hf; lia|].
  exists c3. rewrite <- app_assoc in I3. split_and!; [done|done|congruence].
Qed.

Lemma free_retrans_ok : ∀ rt fuel n c av,
  harq_inv [] anybody n c av [] rt → (length rt <= fuel)%nat →
  ∃ c', free_retrans fuel c = Ok c' ∧ harq_inv [] anybody n c' (av ++ rt) [] [] ∧ processes c' = processes c.
Proof.
  induction rt as [|x rt IH]; intros fuel n c av I Hf.
  { exists c. rewrite app_nil_r. split_and!; [|done|done]. destruct fuel; cbn [free_retrans];
      by rewrite (head_nil _ (hi_rt _ _ _ _ _ _ _ I)). }
  destruct (head_cons _ _ _ (hi_rt _ _ _ _ _ _ _ I)) as [Hh Hx].
  destruct fuel as [|fuel]; [cbn in Hf; lia|]. cbn [free_retrans]. rewrite Hh, Hx.
  destruct (remove_front_ok _ _ _ (hi_rt _ _ _ _ _ _ _ I)) as (l & -> & R & Hlen). cbn [mbind outcome_bind].
  assert (I1 : harq_inv [x] anybody n (c <| retrans := l |>) av [] rt).
  { destruct I. split; cbn [available feedback retrans processes set_field set_retrans]; try done; [by rewrite Hlen|].
    rewrite <- hi_perm0. cbn [app]. apply Permutation_middle. }
  destruct (give_available anybody n (c <| retrans := l |>) av [] rt x) as (c2 & -> & I2 & P2); [done|exact I1|]. cbn [mbind outcome_bind].
  destruct (IH fuel n c2 (av ++ [x]) I2) as (c3 & -> & I3 & P3); [cbn in Hf; lia|].
  exists c3. rewrite <- app_assoc in I3. split_and!; [done|done|by rewrite P3, P2].
Qed.

Lemma hi_weaken held (ex ex' : Z → Prop) n c av fb rt :
  (∀ p, ex p → ex' p) → harq_inv held ex n c av fb rt → harq_inv held ex' n c av fb rt.
Proof. intros H I. destruct I. split; try done. intros p h Hp Hn. apply hi_state0; [done|]. intros Hx. by apply Hn, H. Qed.

Lemma free_lists_ok ex n c av fb rt (f : P → P) :
  harq_inv [] ex n c av fb rt → 0 < max → (∀ h, waiting (f h) = false ∧ round (f h) = 0) →
  ∃ c', free_lists c = Ok c' ∧
    harq_inv [] nobody n (c' <| processes := f <$> processes c' |>) (av ++ fb ++ rt) [] [] ∧ processes c' = processes c.
Proof.
  intros I Hm Hf. unfold free_lists. apply (hi_weaken _ _ anybody) in I; [|done].
  destruct (free_feedback_ok fb (length (l_next (feedback c))) n c av rt I) as (c1 & -> & I1 & P1).
  { apply rep_length, I. }
  cbn [mbind outcome_bind].
  destruct (free_retrans_ok rt (length (l_next (retrans c1))) n c1 (av ++ fb) I1) as (c2 & -> & I2 & P2).
  { apply rep_length, I1. }
  exists c2. split_and!; [done| |congruence]. rewrite <- app_assoc in I2. destruct I2.
  split; cbn [available feedback retrans processes set_field set_processes]; try done.
  - unfold zlen. by rewrite length_fmap.
  - intros pid h Hp _ Hh. rewrite list_lookup_fmap in Hh. apply fmap_Some in Hh as (h' & _ & ->).
    destruct (Hf h') as [H1 H2]. split_and!; [|lia|lia|intros Hi; by apply not_elem_of_nil in Hi|done].
    rewrite H1, elem_of_nil. done.
Qed.
End Inv.

Lemma insert_lookup {A} (l : list A) pid (x y : A) : l !! Z.to_nat pid = Some y → <[Z.to_nat pid := x]> l !! Z.to_nat pid = Some x.
Proof. intros H. apply list_lookup_insert_eq. by eapply lookup_lt_Some. Qed.

Lemma notin_app_single (xs : list Z) x : x ∈ xs ++ [x].
Proof. set_solver. Qed.

(** ** Downlink: each operation *)
Section Downlink.
Context (max : Z) (Hmax : 0 < max <= 8).

Notation dl_lists := (harq_inv h_is_waiting h_round max).

Lemma finish_ok d n av fb rt pid h :
  dl_lists [pid] (eq pid) n (dl_harq d) av fb rt →
  processes (dl_harq d) !! Z.to_nat pid = Some h → h_is_waiting h = false →
  ∃ c', finish_nr_dl_harq d pid = Ok (d <| dl_harq := c' |>) ∧
    dl_lists [] nobody n c' (av ++ [pid]) fb rt ∧
    processes c' = <[Z.to_nat pid := h <| h_ndi := Z.lxor (h_ndi h) 1 |> <| h_round := 0 |>]> (processes (dl_harq d)).
Proof.
  intros I Hh Hw. destruct (held_in _ _ _ _ _ _ _ _ _ _ I) as (Hp & _ & Hf & Hr).
  unfold finish_nr_dl_harq. destruct (proc_get_ok _ _ _ _ _ _ _ _ _ _ pid I Hp) as (h' & -> & Hh').
  rewrite Hh in Hh'. injection Hh' as <-. cbn [mbind outcome_bind].
  destruct (proc_set_ok _ _ _ _ _ _ _ _ _ _ pid (h <| h_ndi := Z.lxor (h_ndi h) 1 |> <| h_round := 0 |>) eq_refl I Hp)
    as (c1 & -> & I1 & P1 & _). cbn [mbind outcome_bind].
  destruct (give_available _ _ _ _ _ _ _ _ _ pid eq_refl I1) as (c2 & -> & I2 & P2). cbn [mbind outcome_bind].
  exists c2. split_and!; [done| |by rewrite P2].
  eapply hi_close; [exact I2|rewrite P2, P1; by eapply insert_lookup|lia|].
  split_and!; cbn; try done; [|lia]. rewrite Hw. split; done.
Qed.

(** What becomes of a process whose feedback is known: its record, and whether it is sent
    again. *)
Definition handled (h : NR_UE_harq_t) (success : bool) : NR_UE_harq_t * bool :=
  let h := h <| h_feedback_slot := 65535 |> <| h_is_waiting := false |> in
  if success || (max - 1 <=? h_round h)
  then (h <| h_ndi := Z.lxor (h_ndi h) 1 |> <| h_round := 0 |>, false)
  else (h <| h_round := h_round h + 1 |>, true).

(** What a reconfiguration asks for is no fewer processes than there are. *)
Definition reconfig_ok (n : Z) (r : option (Z * bool)) : Prop :=
  match r with None => True | Some (nrof, f) => n <= limit_harq nrof f <= NR_MAX_HARQ_PROCESSES end.

Lemma ack_reconfig_ok d held ex n av fb rt :
  dl_lists held ex n (dl_harq d) av fb rt → reconfig_ok n (dl_reconfig d) →
  ∃ c' n', ack_reconfig d = Ok (d <| dl_reconfig := None |> <| dl_harq := c' |>) ∧ n <= n' ∧
    dl_lists held ex n' c' (av ++ seqZ n (n' - n)) fb rt ∧ processes c' = processes (dl_harq d).
Proof.
  intros I Hr. unfold ack_reconfig. destruct (dl_reconfig d) as [[nrof f]|] eqn:E.
  - cbn in Hr. unfold create_dl_harq_list. cbn [dl_harq set_field set_dl_reconfig].
    destruct (hi_len _ _ _ _ _ _ _ _ _ _ I) as (La & Lf & Lr). rewrite La, Lf, Lr, !Z.eqb_refl.
    cbn [andb assert_fatal mbind outcome_bind].
    destruct (grow_ok _ _ _ _ _ _ _ _ _ _ (limit_harq nrof f) I Hr) as (c' & -> & I' & P').
    exists c', (limit_harq nrof f). split_and!; (done || lia).
  - exists (dl_harq d), n. rewrite Z.sub_diag. cbn [seqZ]. split_and!; [|lia| |done].
    + destruct d as [? ? ? rc ?]. cbn in E. by subst rc.
    + change (seqZ n 0) with (@nil Z). by rewrite app_nil_r.
Qed.

(** Everything of the control block that handling feedback leaves alone. *)
Definition dl_kept (d d' : dl_ctrl) : Prop :=
  dl_rounds d' = dl_rounds d ∧ (dl_reconfig d' = dl_reconfig d ∨ dl_reconfig d' = None).

Lemma handle_ok d n av fb rt pid h success :
  dl_lists [pid] (eq pid) n (dl_harq d) av fb rt →
  processes (dl_harq d) !! Z.to_nat pid = Some h → 0 <= h_round h < max → reconfig_ok n (dl_reconfig d) →
  ∃ d' n' av', handle_dl_harq d pid success max = Ok d' ∧ n <= n' ∧ dl_kept d d' ∧ reconfig_ok n' (dl_reconfig d') ∧
    av' = av ++ seqZ n (n' - n) ∧
    dl_lists [] nobody n' (dl_harq d') (if (handled h success).2 then av' else av' ++ [pid]) fb
      (if (handled h success).2 then rt ++ [pid] else rt) ∧
    processes (dl_harq d') = <[Z.to_nat pid := (handled h success).1]> (processes (dl_harq d)).
Proof.
  intros I Hh Hr Hrc. destruct (held_in _ _ _ _ _ _ _ _ _ _ I) as (Hp & _ & Hf & Hrt).
  unfold handle_dl_harq. destruct (proc_get_ok _ _ _ _ _ _ _ _ _ _ pid I Hp) as (h' & -> & Hh').
  rewrite Hh in Hh'. injection Hh' as <-. cbn [mbind outcome_bind].
  set (h1 := h <| h_feedback_slot := 65535 |> <| h_is_waiting := false |>).
  destruct (proc_set_ok _ _ _ _ _ _ _ _ _ _ pid h1 eq_refl I Hp) as (c1 & -> & I1 & P1 & _). cbn [mbind outcome_bind].
  assert (L1 : processes c1 !! Z.to_nat pid = Some h1) by (rewrite P1; by eapply insert_lookup).
  set (d1 := d <| dl_harq := c1 |>).
  assert (Hno : seqZ n (n - n) = []) by (by rewrite Z.sub_diag).
  unfold handled. fold h1. change (h_round h1) with (h_round h). destruct success.
  - (* ACK *)
    cbn [orb fst snd].
    assert (∃ d2 n', (if h_action h then ack_reconfig d1 else Ok d1) = Ok d2 ∧ n <= n' ∧
        dl_kept d d2 ∧ reconfig_ok n' (dl_reconfig d2) ∧ dl_lists [pid] (eq pid) n' (dl_harq d2) (av ++ seqZ n (n' - n)) fb rt ∧
        processes (dl_harq d2) = processes c1) as (d2 & n' & -> & Hn' & Hk & Hrc2 & I2 & P2).
    { destruct (h_action h).
      - destruct (ack_reconfig_ok d1 [pid] (eq pid) n av fb rt I1 Hrc) as (c2 & n' & -> & Hn' & I2 & P2).
        do 2 eexists. split_and!; try done. split; [done|by right].
      - exists d1, n. rewrite Hno, app_nil_r. split_and!; try done; try lia; split; [done|by left]. }
    cbn [mbind outcome_bind]. rewrite <- P2 in L1.
    destruct (finish_ok d2 n' _ fb rt pid h1 I2 L1 eq_refl) as (c3 & -> & I3 & P3).
    do 3 eexists. split_and!; try done. cbn [dl_harq set_field set_dl_harq]. rewrite P3, P2, P1. by rewrite list_insert_insert_eq.
  - cbn [orb]. destruct (Z.leb_spec (max - 1) (h_round h)) as [Hlast|Hmore].
    + (* given up *)
      unfold abort_nr_dl_harq. destruct (finish_ok d1 n av fb rt pid h1 I1 L1 eq_refl) as (c3 & -> & I3 & P3).
      cbn [mbind outcome_bind fst snd]. do 2 eexists. exists av. rewrite Hno, app_nil_r.
      split_and!; try done; [split; [done|by left]|]. cbn. rewrite P3. cbn. rewrite P1. by rewrite list_insert_insert_eq.
    + (* again *)
      destruct (give_retrans _ _ _ _ _ _ _ _ _ pid eq_refl I1) as (c2 & E2 & I2 & P2).
      change (dl_harq d1) with c1. rewrite E2. cbn [mbind outcome_bind].
      destruct (proc_get_ok _ _ _ _ _ _ _ _ _ _ pid I2 Hp) as (h2 & -> & L2). rewrite P2, L1 in L2. injection L2 as <-.
      cbn [mbind outcome_bind]. change (h_round h1) with (h_round h). rewrite Z.mod_small by lia.
      destruct (proc_set_ok _ _ _ _ _ _ _ _ _ _ pid (h1 <| h_round := h_round h + 1 |>) eq_refl I2 Hp) as (c3 & -> & I3 & P3 & _).
      cbn [mbind outcome_bind fst snd]. do 2 eexists. exists av. rewrite Hno, app_nil_r. split_and!; try done; [split; [done|by left]| |].
      * eapply hi_close; [exact I3|cbn; rewrite P3; eapply insert_lookup; by rewrite P2, L1|lia|].
        split_and!; cbn; [split; done|lia|lia|lia|]. intros _ Hx. exfalso. apply Hx. apply notin_app_single.
      * cbn. rewrite P3, P2, P1. by rewrite list_insert_insert_eq.
Qed.
(** *** The protocol

    What has been sent, latest first. [dis] tells for which processes feedback is disabled. *)
Context (dis : Z → bool).

Definition last_sent (tr : list dl_sent) (pid : Z) : option dl_sent := head (filter (λ s, s_pid s = pid) tr).

(** A transmission is of a new block, shown by a new value of NDI, or the next round of the
    block sent before. *)
Fixpoint protocol_ok (tr : list dl_sent) : Prop :=
  match tr with
  | [] => True
  | s :: tr =>
      protocol_ok tr ∧ 0 <= s_round s < max ∧
      match last_sent tr (s_pid s) with
      | None => s_round s = 0
      | Some s' =>
          (s_round s = 0 ∧ s_ndi s ≠ s_ndi s') ∨
          (s_round s = s_round s' + 1 ∧ s_ndi s = s_ndi s' ∧ s_tb s = s_tb s')
      end
  end.

(** A record agrees with what was sent last on its process. *)
Definition link (fb rt : list Z) (tr : list dl_sent) (pid : Z) (h : NR_UE_harq_t) : Prop :=
  (pid ∈ fb ∨ pid ∈ rt → dis pid = false ∧ h_tb_size h = zlen (h_transportBlock h)) ∧
  match last_sent tr pid with
  | None => pid ∉ fb ∧ pid ∉ rt
  | Some s =>
      (pid ∈ fb → s_ndi s = h_ndi h ∧ s_round s = h_round h ∧ s_tb s = h_transportBlock h) ∧
      (pid ∈ rt → s_ndi s = h_ndi h ∧ s_round s + 1 = h_round h ∧ s_tb s = h_transportBlock h) ∧
      (pid ∉ fb → pid ∉ rt → s_ndi s = if dis pid then h_ndi h else Z.lxor (h_ndi h) 1)
  end.

Definition links_but (ex : Z → Prop) (fb rt : list Z) (tr : list dl_sent) (ps : list NR_UE_harq_t) : Prop :=
  ∀ pid h, 0 <= pid → ¬ ex pid → ps !! Z.to_nat pid = Some h → link fb rt tr pid h.

Record dl_inv (n : Z) (d : dl_ctrl) (av fb rt : list Z) (tr : list dl_sent) : Prop := mk_dl_inv {
  di_lists : dl_lists [] nobody n (dl_harq d) av fb rt;
  di_rounds : zlen (dl_rounds d) = 8;
  di_reconfig : reconfig_ok n (dl_reconfig d);
  di_links : links_but nobody fb rt tr (processes (dl_harq d));
  di_protocol : protocol_ok tr;
}.

Lemma links_move pid fb rt fb' rt' tr tr' ps h :
  (∀ p, p ≠ pid → (p ∈ fb ↔ p ∈ fb') ∧ (p ∈ rt ↔ p ∈ rt') ∧ last_sent tr' p = last_sent tr p) → 0 <= pid < zlen ps →
  links_but nobody fb rt tr ps → link fb' rt' tr' pid h →
  links_but nobody fb' rt' tr' (<[Z.to_nat pid := h]> ps).
Proof.
  intros Hm Hp HL Hl p h' Hp0 _ Hh. rewrite lookup_set in Hh by done. destruct (Z.eqb_spec p pid) as [->|Hne].
  { injection Hh as <-. exact Hl. }
  destruct (HL p h' Hp0 ltac:(intros []) Hh) as (H1 & H2). destruct (Hm p Hne) as (Hf & Hr & Ht).
  unfold link. rewrite Ht. split; [tauto|]. destruct (last_sent tr p); tauto.
Qed.

(** Feedback for the process at the head: its record may have been touched where the protocol
    does not look. *)
Lemma feedback_ok n d d1 av fb rt tr pid success h h1 :
  dl_inv n d av (pid :: fb) rt tr → processes (dl_harq d) !! Z.to_nat pid = Some h →
  dl_lists [pid] (eq pid) n (dl_harq d1) av fb rt →
  processes (dl_harq d1) = <[Z.to_nat pid := h1]> (processes (dl_harq d)) →
  (h_ndi h1, h_round h1, h_tb_size h1, h_transportBlock h1) = (h_ndi h, h_round h, h_tb_size h, h_transportBlock h) →
  dl_rounds d1 = dl_rounds d → dl_reconfig d1 = dl_reconfig d →
  ∃ d' n' av' rt', handle_dl_harq d1 pid success max = Ok d' ∧ dl_inv n' d' av' fb rt' tr ∧ n <= n'.
Proof.
  intros D Hh I1 P1 [= E1 E2 E3 E4] Hro Hrc. pose proof (di_lists _ _ _ _ _ _ D) as I.
  destruct (held_in _ _ _ _ _ _ _ _ _ _ I1) as (Hp & Hav & Hfb & Hrt).
  destruct (hi_state _ _ _ _ _ _ _ _ _ _ I pid h) as (_ & Hrd & _); [lia|intros []|done|].
  destruct (handle_ok d1 n av fb rt pid h1 success I1) as (d' & n' & av' & -> & Hn' & (K1 & K2) & Hrc' & _ & I' & P');
    [rewrite P1; by eapply insert_lookup|lia|rewrite Hrc; apply D|].
  do 4 eexists. split_and!; [done| |done]. split; [exact I'|rewrite K1, Hro; apply D|done| |apply D].
  rewrite P', P1, list_insert_insert_eq.
  destruct (di_links _ _ _ _ _ _ D pid h) as (Hdis & Hlast); [lia|intros []|done|].
  destruct (Hdis ltac:(left; left)) as [Hd Htb]. clear Hdis.
  apply (links_move pid (pid :: fb) rt fb _ tr); [|pose proof (hi_procs _ _ _ _ _ _ _ _ _ _ I); pose proof (hi_n _ _ _ _ _ _ _ _ _ _ I); lia|apply D|].
  - intros p Hne. rewrite elem_of_cons. split_and!; [tauto| |done]. destruct (handled h1 success).2; [|done].
    rewrite elem_of_app, list_elem_of_singleton. tauto.
  - assert (Hsent : ∃ s, last_sent tr pid = Some s ∧ s_ndi s = h_ndi h ∧ s_round s = h_round h ∧ s_tb s = h_transportBlock h).
    { destruct (last_sent tr pid) as [s|]; [|exfalso; apply (proj1 Hlast); left]. exists s. split; [done|]. apply Hlast. left. }
    destruct Hsent as (s & Hs & Hs1 & Hs2 & Hs3). unfold link. rewrite Hs. unfold handled. cbn [h_round set_field set_h_is_waiting set_h_feedback_slot].
    change (h_round (h1 <| h_feedback_slot := 65535 |> <| h_is_waiting := false |>)) with (h_round h1).
    destruct (success || (max - 1 <=? h_round h1)); cbn.
    + split_and!; [tauto|tauto|tauto|]. rewrite Hd, E1, Hs1. intros _ _. by rewrite Z.lxor_assoc, Z.lxor_nilpotent, Z.lxor_0_r.
    + split_and!; [intros _; split; [done|congruence]|tauto| |].
      * intros _. split_and!; congruence.
      * intros _ Hx. exfalso. apply Hx, notin_app_single.
Qed.

(** *** Feedback *)

Lemma find_loop_ok frame slot tr : ∀ fuel n d av fb rt,
  dl_inv n d av fb rt tr → (length fb <= fuel)%nat →
  ∃ d' n' av' fb' rt', find_harq_loop fuel d frame slot max = Ok (d', head fb') ∧ dl_inv n' d' av' fb' rt' tr ∧ n <= n'.
Proof.
  induction fuel as [|fuel IH]; intros n d av fb rt D Hf; pose proof (di_lists _ _ _ _ _ _ D) as I;
    (destruct fb as [|pid fb];
     [exists d, n, av, [], rt; cbn [find_harq_loop]; rewrite (head_nil _ (hi_fb _ _ _ _ _ _ _ _ _ _ I)); split_and!; (done || lia)|]);
    [cbn in Hf; lia|].
  destruct (head_cons _ _ _ (hi_fb _ _ _ _ _ _ _ _ _ _ I)) as [Hh Hx]. cbn [find_harq_loop]. rewrite Hh, Hx.
  assert (Hp : 0 <= pid < n) by (apply (hi_elem _ _ _ _ _ _ _ _ _ _ I); set_solver).
  destruct (proc_get_ok _ _ _ _ _ _ _ _ _ _ pid I Hp) as (h & -> & Hl). cbn [mbind outcome_bind].
  destruct (feedback_past h frame slot); [|exists d, n, av, (pid :: fb), rt; split_and!; (done || lia)].
  destruct (pop_ok h_is_waiting h_round max nobody (eq pid) n (dl_harq d) av fb rt pid) as (c1 & -> & I1 & P1); [intros ? []|done|done|].
  cbn [mbind outcome_bind].
  destruct (feedback_ok n d (d <| dl_harq := c1 |>) av fb rt tr pid false h h) as (d' & n' & av' & rt' & -> & D' & Hn'); try done.
  { change (processes c1 = <[Z.to_nat pid := h]> (processes (dl_harq d))). rewrite P1. symmetry. by apply list_insert_id. }
  cbn [mbind outcome_bind]. destruct (IH n' d' av' fb rt' D') as (d2 & n2 & av2 & fb2 & rt2 & -> & D2 & Hn2); [cbn in Hf; lia|].
  exists d2, n2, av2, fb2, rt2. split_and!; (done || lia).
Qed.

Lemma find_harq_ok frame slot n d av fb rt tr :
  dl_inv n d av fb rt tr →
  ∃ d' n' av' fb' rt' r, find_harq d frame slot max = Ok (d', r) ∧ dl_inv n' d' av' fb' rt' tr ∧ n <= n' ∧
    (r = None ∨ r = head fb').
Proof.
  intros D. pose proof (di_lists _ _ _ _ _ _ D) as I. unfold find_harq.
  destruct (find_loop_ok frame slot tr (length (l_next (feedback (dl_harq d)))) n d av fb rt D) as (d' & n' & av' & fb' & rt' & -> & D' & Hn').
  { apply rep_length, I. }
  cbn [mbind outcome_bind]. destruct fb' as [|pid fb']; cbn [head].
  { do 6 eexists. split_and!; [done|exact D'|done|by left]. }
  pose proof (di_lists _ _ _ _ _ _ D') as I'.
  assert (Hp : 0 <= pid < n') by (apply (hi_elem _ _ _ _ _ _ _ _ _ _ I'); set_solver).
  destruct (proc_get_ok _ _ _ _ _ _ _ _ _ _ pid I' Hp) as (h & -> & Hl). cbn [mbind outcome_bind].
  do 6 eexists. split_and!; [done|exact D'|done|]. destruct (feedback_future h frame slot); [by left|by right].
Qed.

Lemma harq_bit_ok n d av fb rt tr pid success slots :
  dl_inv n d av (pid :: fb) rt tr →
  ∃ d' n' av' rt', harq_bit d pid success slots max = Ok d' ∧ dl_inv n' d' av' fb rt' tr ∧ n <= n'.
Proof.
  intros D. pose proof (di_lists _ _ _ _ _ _ D) as I. unfold harq_bit.
  assert (Hp : 0 <= pid < n) by (apply (hi_elem _ _ _ _ _ _ _ _ _ _ I); set_solver).
  destruct (proc_get_ok _ _ _ _ _ _ _ _ _ _ pid I Hp) as (h & -> & Hl). cbn [mbind outcome_bind].
  destruct (hi_state _ _ _ _ _ _ _ _ _ _ I pid h) as (Hw & _); [lia|intros []|done|].
  rewrite (proj1 Hw) by left. cbn [assert_fatal mbind outcome_bind].
  destruct (pop_ok h_is_waiting h_round max nobody (eq pid) n (dl_harq d) av fb rt pid) as (c1 & -> & I1 & P1); [intros ? []|done|done|].
  cbn [mbind outcome_bind]. set (d1 := d <| dl_harq := c1 |>).
  assert (∃ d2 h2, (if success && h_start_tci_timer h then
      c ← proc_set (dl_harq d1) pid (h <| h_start_tci_timer := false |>);
      Ok (d1 <| dl_tci_beam_switch := Some slots |> <| dl_harq := c |>) else Ok d1) = Ok d2 ∧
      dl_lists [pid] (eq pid) n (dl_harq d2) av fb rt ∧
      processes (dl_harq d2) = <[Z.to_nat pid := h2]> (processes (dl_harq d)) ∧
      (h_ndi h2, h_round h2, h_tb_size h2, h_transportBlock h2) = (h_ndi h, h_round h, h_tb_size h, h_transportBlock h) ∧
      dl_rounds d2 = dl_rounds d ∧ dl_reconfig d2 = dl_reconfig d) as (d2 & h2 & -> & I2 & P2 & E2 & R2 & C2).
  { destruct (success && h_start_tci_timer h).
    - change (dl_harq d1) with c1.
      destruct (proc_set_ok _ _ _ _ _ _ _ _ _ _ pid (h <| h_start_tci_timer := false |>) eq_refl I1 Hp) as (c2 & -> & I2 & P2 & _).
      do 2 eexists. split_and!; [done|exact I2|cbn; by rewrite P2, P1|done|done|done].
    - exists d1, h. split_and!; try done. change (processes c1 = <[Z.to_nat pid := h]> (processes (dl_harq d))).
      rewrite P1. symmetry. by apply list_insert_id. }
  cbn [mbind outcome_bind]. exact (feedback_ok n d d2 av fb rt tr pid success h h2 D Hl I2 P2 E2 R2 C2).
Qed.

Lemma harq_bits_ok frame slot slots tr : ∀ acks n d av fb rt,
  dl_inv n d av fb rt tr →
  ∃ d' n' av' fb' rt', harq_bits d frame slot slots max acks = Ok d' ∧ dl_inv n' d' av' fb' rt' tr ∧ n <= n'.
Proof.
  induction acks as [|success acks IH]; intros n d av fb rt D; cbn [harq_bits].
  { do 5 eexists. split_and!; [done|exact D|lia]. }
  destruct (find_harq_ok frame slot n d av fb rt tr D) as (d1 & n1 & av1 & fb1 & rt1 & r & -> & D1 & Hn1 & Hr).
  cbn [mbind outcome_bind]. destruct r as [pid|]; [|do 5 eexists; split_and!; [done|exact D1|lia]].
  destruct Hr as [Hr|Hr]; [discriminate Hr|]. destruct fb1 as [|? fb1]; [discriminate Hr|]. injection Hr as <-.
  destruct (harq_bit_ok n1 d1 av1 fb1 rt1 tr pid success slots D1) as (d2 & n2 & av2 & rt2 & -> & D2 & Hn2).
  cbn [mbind outcome_bind]. destruct (IH n2 d2 av2 fb1 rt2 D2) as (d3 & n3 & av3 & fb3 & rt3 & -> & D3 & Hn3).
  do 5 eexists. split_and!; [done|exact D3|lia].
Qed.

(** *** Transmission *)

Lemma lxor_1_ne x : Z.lxor x 1 ≠ x.
Proof.
  intros H. assert (Z.lxor (Z.lxor x 1) x = Z.lxor x x) as E by congruence.
  rewrite Z.lxor_nilpotent, (Z.lxor_comm x 1), Z.lxor_assoc, Z.lxor_nilpotent, Z.lxor_0_r in E. discriminate E.
Qed.

Lemma last_sent_same tr s : last_sent (s :: tr) (s_pid s) = Some s.
Proof. unfold last_sent. by rewrite filter_cons_True. Qed.
Lemma last_sent_other tr s p : p ≠ s_pid s → last_sent (s :: tr) p = last_sent tr p.
Proof. intros H. unfold last_sent. by rewrite filter_cons_False by congruence. Qed.

(** The process a transmission uses. *)
Definition send_pid (av : list Z) (pid : Z) : Z := if pid <? 0 then default (-1) (head av) else pid.

(** Taking the process out of its list. *)
Lemma take_process n d av fb rt tr pid :
  dl_inv n d av fb rt tr → send_pid av pid ∈ av ∨ send_pid av pid ∈ rt →
  ∃ c h av' rt', (if pid <? 0 then
       let pid := l_head (available (dl_harq d)) in
       _ ← assert_fatal (0 <=? pid);
       l ← remove_front_nr_list (available (dl_harq d));
       Ok (dl_harq d <| available := l |>, pid)
     else
       harq ← proc_get (dl_harq d) pid;
       if h_round harq =? 0 then
         l ← remove_nr_list (available (dl_harq d)) pid; Ok (dl_harq d <| available := l |>, pid)
       else
         l ← remove_nr_list (retrans (dl_harq d)) pid; Ok (dl_harq d <| retrans := l |>, pid)) = Ok (c, send_pid av pid) ∧
    dl_lists [send_pid av pid] (eq (send_pid av pid)) n c av' fb rt' ∧ processes c = processes (dl_harq d) ∧
    processes c !! Z.to_nat (send_pid av pid) = Some h ∧ h_is_waiting h = false ∧ 0 <= h_round h < max ∧
    (h_round h = 0 ↔ send_pid av pid ∉ rt) ∧ rt' = filter (λ y, y ≠ send_pid av pid) rt ∧ send_pid av pid ∉ fb.
Proof.
  intros D Hin. pose proof (di_lists _ _ _ _ _ _ D) as I. set (p := send_pid av pid) in *.
  assert (Hp : 0 <= p < n) by (apply (hi_elem _ _ _ _ _ _ _ _ _ _ I); set_solver).
  pose proof (hi_nodup _ _ _ _ _ _ _ _ _ _ I) as Hnd. cbn [app] in Hnd.
  assert (Hfb : p ∉ fb). { rewrite !NoDup_app in Hnd. destruct Hnd as (_ & H1 & _ & H2 & _). destruct Hin; set_solver. }
  destruct (proc_get_ok _ _ _ _ _ _ _ _ _ _ p I Hp) as (h & Eg & Hl).
  destruct (hi_state _ _ _ _ _ _ _ _ _ _ I p h) as (Hw & Hr & Hrt & Hz); [lia|intros []|done|].
  assert (Hwf : h_is_waiting h = false) by (destruct (h_is_waiting h); [exfalso; apply Hfb; tauto|done]).
  assert (H0 : h_round h = 0 ↔ p ∉ rt). { split; [intros E Hx; specialize (Hrt Hx); lia|auto]. }
  assert (Hsame : p ∈ av → rt = filter (λ y, y ≠ p) rt).
  { intros Ha. symmetry. apply filter_notin. rewrite !NoDup_app in Hnd. set_solver. }
  unfold p, send_pid in *. destruct (Z.ltb_spec pid 0) as [Hneg|Hpos].
  - destruct av as [|q av]; [cbn in Hp; lia|]. cbn [head] in *. change (default (-1) (Some q)) with q in *.
    destruct (head_cons _ _ _ (hi_av _ _ _ _ _ _ _ _ _ _ I)) as [-> Hq]. apply Z.ltb_ge in Hq. apply Z.leb_le in Hq. rewrite Hq.
    cbn [assert_fatal mbind outcome_bind]. destruct (take_front _ _ _ _ _ _ _ _ _ I) as (l & -> & I').
    cbn [mbind outcome_bind]. do 4 eexists. split_and!; [done|exact I'|done|done|done|lia|lia|tauto|apply Hsame; left|done].
  - rewrite Eg. cbn [mbind outcome_bind]. destruct (Z.eqb_spec (h_round h) 0) as [E0|E0].
    + destruct Hin as [Ha|Hx]; [|specialize (Hrt Hx); lia].
      destruct (take_available _ _ _ _ _ _ _ _ pid I Ha) as (l & -> & I'). cbn [mbind outcome_bind].
      do 4 eexists. split_and!; [done|exact I'|done|done|done|lia|lia|tauto|by apply Hsame|done].
    + assert (Hx : pid ∈ rt) by (destruct (decide (pid ∈ rt)); [done|tauto]).
      destruct (take_retrans _ _ _ _ _ _ _ _ pid I Hx) as (l & -> & I'). cbn [mbind outcome_bind].
      do 4 eexists. split_and!; [done|exact I'|done|done|done|lia|lia|tauto|done|done].
Qed.

(** The record of the process once it is set up. *)
Definition set_up (h : NR_UE_harq_t) (pucch : option (Z * Z)) : NR_UE_harq_t :=
  match pucch with
  | None => h <| h_ndi := Z.lxor (h_ndi h) 1 |> <| h_round := 0 |>
  | Some (frame, ul_slot) => h <| h_feedback_frame := frame |> <| h_feedback_slot := ul_slot |> <| h_is_waiting := true |>
  end.

Lemma setup_ok n d av fb rt tr pid pucch :
  dl_inv n d av fb rt tr → send_pid av pid ∈ av ∨ send_pid av pid ∈ rt →
  ∃ c h av', let p := send_pid av pid in
    let fb' := match pucch with None => fb | Some _ => fb ++ [p] end in
    let rt' := filter (λ y, y ≠ p) rt in
    setup_dl_harq_process d pid pucch = Ok (d <| dl_harq := c |>, p) ∧
    dl_lists [] nobody n c av' fb' rt' ∧ processes (dl_harq d) !! Z.to_nat p = Some h ∧
    processes c = <[Z.to_nat p := set_up h pucch]> (processes (dl_harq d)) ∧
    0 <= p < n ∧ 0 <= h_round h < max ∧ (h_round h = 0 ↔ p ∉ rt) ∧ p ∉ fb.
Proof.
  intros D Hin. destruct (take_process n d av fb rt tr pid D Hin) as (c & h & av' & rt' & Et & I & P & Hl & Hw & Hr & H0 & -> & Hfb).
  unfold setup_dl_harq_process. cbv zeta in Et |- *. rewrite Et. clear Et. cbn [mbind outcome_bind].
  destruct (held_in _ _ _ _ _ _ _ _ _ _ I) as (Hp & _ & _ & Hnr). rewrite P in Hl.
  destruct (proc_get_ok _ _ _ _ _ _ _ _ _ _ _ I Hp) as (h' & -> & Hl'). rewrite P, Hl in Hl'. injection Hl' as <-.
  cbn [mbind outcome_bind]. rewrite Hw. cbn [negb assert_fatal mbind outcome_bind]. destruct pucch as [[frame ul_slot]|].
  - destruct (give_feedback _ _ _ _ _ _ _ _ _ _ eq_refl I) as (c1 & -> & I1 & P1). cbn [mbind outcome_bind].
    destruct (proc_set_ok _ _ _ _ _ _ _ _ _ _ _ (set_up h (Some (frame, ul_slot))) eq_refl I1 Hp) as (c2 & E2 & I2 & P2 & _).
    unfold set_up in E2. rewrite E2. cbn [mbind outcome_bind].
    exists c2, h, av'. split_and!; try done; try lia.
    + eapply hi_close; [exact I2|rewrite P2, P1, P; by eapply insert_lookup|lia|].
      split_and!; cbn; [split; [done|intros _; apply notin_app_single]|lia|lia|tauto|].
      intros Hx. exfalso. apply Hx, notin_app_single.
    + by rewrite P2, P1, P.
  - rewrite <- P in Hl. set (d1 := d <| dl_harq := c |>).
    destruct (finish_ok d1 n av' fb _ _ h I Hl Hw) as (c1 & -> & I1 & P1).
    cbn [mbind outcome_bind]. exists c1, h. eexists. split_and!; try done; try lia.
    + by rewrite <- P.
    + rewrite P1. change (dl_harq d1) with c. by rewrite P.
Qed.

(** The contract of the scheduler: a free process, or one to be retransmitted with its size;
    feedback exactly where it is enabled. *)
Definition may_send (d : dl_ctrl) (av rt : list Z) (pid : Z) (pucch : option (Z * Z)) (tb : bytes) : Prop :=
  (send_pid av pid ∈ av ∨
   send_pid av pid ∈ rt ∧ ∃ h, processes (dl_harq d) !! Z.to_nat (send_pid av pid) = Some h ∧ zlen tb = h_tb_size h) ∧
  (pucch = None ↔ dis (send_pid av pid) = true).

Lemma transmit_ok n d av fb rt tr pid pucch tb tci action :
  dl_inv n d av fb rt tr → may_send d av rt pid pucch tb →
  ∃ d' s av' fb' rt', post_process_dlsch d pid pucch tb tci action = Ok (d', s) ∧ dl_inv n d' av' fb' rt' (s :: tr).
Proof.
  intros D [Hin Hpu]. unfold post_process_dlsch.
  destruct (setup_ok n d av fb rt tr pid pucch D) as (c & h & av' & Es & I & Hl & P & Hp & Hr & H0 & Hfb); [tauto|].
  set (p := send_pid av pid) in *. rewrite Es. clear Es. cbn [mbind outcome_bind]. set (d1 := d <| dl_harq := c |>).
  destruct (proc_get_ok _ _ _ _ _ _ _ _ _ _ p I Hp) as (h1 & E1 & L1). change (dl_harq d1) with c. rewrite E1. cbn [mbind outcome_bind].
  rewrite P in L1. rewrite (insert_lookup _ _ _ _ Hl) in L1. injection L1 as <-.
  assert (Hr1 : 0 <= h_round (set_up h pucch) < max) by (destruct pucch as [[]|]; cbn; lia).
  change (dl_rounds d1) with (dl_rounds d). pose proof (di_rounds _ _ _ _ _ _ D) as Hro.
  destruct (buf_get_ok (dl_rounds d) (h_round (set_up h pucch))) as (k & _ & ->); [lia|]. cbn [mbind outcome_bind].
  rewrite buf_set_ok by lia. cbn [mbind outcome_bind]. unfold dl_transport_block.
  match goal with |- context [proc_get (dl_harq ?x)] => set (d2 := x) end. change (dl_harq d2) with c. rewrite E1. cbn [mbind outcome_bind].
  assert (Lc : processes c !! Z.to_nat p = Some (set_up h pucch)) by (rewrite P; by eapply insert_lookup).
  destruct (di_links _ _ _ _ _ _ D p h) as (Hdis & Hlast); [lia|intros []|done|].
  pose proof (hi_procs _ _ _ _ _ _ _ _ _ _ I) as Hprocs. pose proof (hi_n _ _ _ _ _ _ _ _ _ _ I) as Hn.
  assert (Hlen : 0 <= p < zlen (processes (dl_harq d))) by (pose proof (hi_procs _ _ _ _ _ _ _ _ _ _ (di_lists _ _ _ _ _ _ D)); lia).
  set (fb' := match pucch with None => fb | Some _ => fb ++ [p] end) in *. set (rt' := filter (λ y, y ≠ p) rt) in *.
  assert (Hmv : ∀ s, s_pid s = p → ∀ q, q ≠ p → (q ∈ fb ↔ q ∈ fb') ∧ (q ∈ rt ↔ q ∈ rt') ∧ last_sent (s :: tr) q = last_sent tr q).
  { intros s Hs q Hq. split_and!.
    - unfold fb'. destruct pucch; [|done]. rewrite elem_of_app, list_elem_of_singleton. tauto.
    - unfold rt'. rewrite list_elem_of_filter. tauto.
    - apply last_sent_other. congruence. }
  destruct (Z.eqb_spec (h_round (set_up h pucch)) 0) as [Ez|Enz].
  - (* a new block *)
    set (h2 := _ <| h_action := action |>).
    destruct (proc_set_ok _ _ _ _ _ _ _ _ _ _ p h2 eq_refl (hi_open _ _ _ _ _ _ _ _ _ p I) Hp) as (c2 & -> & I2 & P2 & _).
    cbn [mbind outcome_bind]. set (s := mk_dl_sent _ _ _ _). exists (d2 <| dl_harq := c2 |>), s, av', fb', rt'. split; [done|].
    assert (Hp2 : processes c2 = <[Z.to_nat p := h2]> (processes (dl_harq d))) by (rewrite P2, P; apply list_insert_insert_eq).
    split.
    + change (dl_lists [] nobody n c2 av' fb' rt'). eapply hi_close; [exact I2|rewrite Hp2; by eapply insert_lookup|lia|].
      exact (hi_state _ _ _ _ _ _ _ _ _ _ I p (set_up h pucch) ltac:(lia) ltac:(intros []) Lc).
    + cbn. unfold zlen. rewrite length_insert. exact Hro.
    + exact (di_reconfig _ _ _ _ _ _ D).
    + change (dl_harq (d2 <| dl_harq := c2 |>)) with c2. rewrite Hp2.
      apply (links_move p fb rt fb' rt' tr (s :: tr)); [by apply Hmv|done|apply D|]. unfold link.
      change p with (s_pid s) at 5. rewrite last_sent_same.
      assert (Hnr : p ∉ rt') by (unfold rt'; rewrite list_elem_of_filter; tauto).
      split; [|split_and!; [|tauto|]].
      * intros [Hx|Hx]; [|done]. split; [|done]. destruct (dis p); [|done]. unfold fb' in Hx. rewrite (proj2 Hpu eq_refl) in Hx. done.
      * intros _. split_and!; [by destruct pucch as [[]|]|by destruct pucch as [[]|]|by destruct pucch as [[]|]].
      * intros Hx _. unfold fb' in Hx. destruct pucch as [[]|]; [exfalso; apply Hx, notin_app_single|].
        by rewrite (proj1 Hpu eq_refl).
    + cbn [protocol_ok]. split_and!; [apply D|cbn; lia|cbn; lia|]. change (s_pid s) with p.
      destruct (last_sent tr p) as [s'|]; [|done]. left. split; [done|]. destruct Hlast as (_ & _ & Hlast).
      destruct pucch as [[]|].
      * rewrite Hlast; [|done|apply H0; exact Ez]. destruct (dis p); [by discriminate (proj2 Hpu eq_refl)|]. cbn. apply not_eq_sym, lxor_1_ne.
      * assert (p ∉ rt) as Hnr. { intros Hx. destruct (Hdis (or_intror Hx)) as [Hd _]. by rewrite (proj1 Hpu eq_refl) in Hd. }
        rewrite Hlast, (proj1 Hpu eq_refl) by done. cbn. apply lxor_1_ne.
  - (* a block sent again *)
    destruct pucch as [[frame ul_slot]|]; [|done]. cbn in Enz.
    assert (Hrt : p ∈ rt) by (destruct (decide (p ∈ rt)); [done|exfalso; apply Enz; tauto]).
    assert (Htb : h_tb_size h = zlen tb).
    { destruct Hin as [Ha|(_ & h' & Hh' & ->)]; [|congruence]. exfalso.
      pose proof (hi_nodup _ _ _ _ _ _ _ _ _ _ (di_lists _ _ _ _ _ _ D)) as Hnd. cbn [app] in Hnd. rewrite !NoDup_app in Hnd. set_solver. }
    change (h_tb_size (set_up h _)) with (h_tb_size h). rewrite Htb, Z.eqb_refl. cbn [assert_fatal mbind outcome_bind].
    set (s := mk_dl_sent _ _ _ _). exists d2, s, av', fb', rt'. split; [done|].
    destruct (last_sent tr p) as [s'|] eqn:Els; [|tauto]. destruct Hlast as (_ & Hlast & _). destruct (Hlast Hrt) as (S1 & S2 & S3).
    split; [exact I| | | |].
    + cbn. unfold zlen. rewrite length_insert. exact Hro.
    + exact (di_reconfig _ _ _ _ _ _ D).
    + change (dl_harq d2) with c. rewrite P. apply (links_move p fb rt fb' rt' tr (s :: tr)); [by apply Hmv|done|apply D|]. unfold link.
      change p with (s_pid s) at 5. rewrite last_sent_same.
      assert (Hnr : p ∉ rt') by (unfold rt'; rewrite list_elem_of_filter; tauto).
      split; [intros _; exact (Hdis (or_intror Hrt))|]. split_and!; [done|done|].
      intros Hx. exfalso. apply Hx. unfold fb'. apply notin_app_single.
    + cbn [protocol_ok]. split_and!; [apply D|cbn; lia|cbn; lia|]. change (s_pid s) with p. rewrite Els. right.
      cbn. split_and!; congruence || lia.
Qed.
End Downlink.

(** ** Downlink: runs *)

Inductive dl_op :=
| Send (pid : Z) (pucch : option (Z * Z)) (tb : bytes) (tci action : bool)
| Uci_0_1 (frame slot numb_slots_frame pduBitmap confidence : Z) (values : list Z)
| Uci_2_3_4 (frame slot numb_slots_frame pduBitmap harq_crc harq_bit_len : Z) (payload : bytes)
| Reset
| Prepare (r : option (Z * bool))
| Configure (nrof : Z) (dci_00_10 : bool).

(** After a reset, of both sides, transmissions are not compared with those before. *)
Definition dl_exec (max : Z) (d : dl_ctrl) (tr : list dl_sent) (o : dl_op) : outcome (dl_ctrl * list dl_sent) :=
  match o with
  | Send pid pucch tb tci action => '(d, s) ← post_process_dlsch d pid pucch tb tci action; Ok (d, s :: tr)
  | Uci_0_1 frame slot nsf bm conf values => d ← handle_nr_uci_pucch_0_1 d frame slot nsf max bm conf values; Ok (d, tr)
  | Uci_2_3_4 frame slot nsf bm crc len payload => d ← handle_nr_uci_pucch_2_3_4 d frame slot nsf max bm crc len payload; Ok (d, tr)
  | Reset => d ← reset_dl_harq_list d; Ok (d, [])
  | Prepare r => Ok (d <| dl_reconfig := r |>, tr)
  | Configure nrof f => d ← create_dl_harq_list d nrof f; Ok (d, tr)
  end.

Definition enough_processes (d : dl_ctrl) (nrof : Z) (f : bool) : bool :=
  (l_len (available (dl_harq d)) <=? limit_harq nrof f) && (limit_harq nrof f <=? NR_MAX_HARQ_PROCESSES).

(** What the scheduler, the physical layer and RRC promise. *)
Definition dl_allowed (dis : Z → bool) (d : dl_ctrl) (o : dl_op) : bool :=
  match o with
  | Send pid pucch tb _ _ =>
      let p := send_pid (elems (available (dl_harq d))) pid in
      (bool_decide (p ∈ elems (available (dl_harq d))) ||
       bool_decide (p ∈ elems (retrans (dl_harq d))) &&
       match processes (dl_harq d) !! Z.to_nat p with Some h => zlen tb =? h_tb_size h | None => false end) &&
      Bool.eqb (match pucch with None => true | Some _ => false end) (dis p)
  | Uci_0_1 _ _ _ _ _ _ | Reset => true
  | Uci_2_3_4 _ _ _ _ _ len payload => (0 <=? len) && (len <=? 8 * zlen payload)
  | Prepare None => true
  | Prepare (Some (nrof, f)) | Configure nrof f => enough_processes d nrof f && match dl_reconfig d with None => true | Some _ => match o with Prepare _ => true | _ => false end end
  end.

Definition dl_fresh (d : dl_ctrl) : Prop :=
  l_len (available (dl_harq d)) = 0 ∧ l_len (feedback (dl_harq d)) = 0 ∧ l_len (retrans (dl_harq d)) = 0 ∧
  zlen (processes (dl_harq d)) = NR_MAX_HARQ_PROCESSES ∧
  (∀ h, h ∈ processes (dl_harq d) → h_is_waiting h = false ∧ h_round h = 0) ∧
  zlen (dl_rounds d) = 8 ∧ dl_reconfig d = None.

Inductive dl_reach (max : Z) (dis : Z → bool) : dl_ctrl → list dl_sent → Prop :=
| dl_start d0 nrof f d : dl_fresh d0 → 0 < limit_harq nrof f <= NR_MAX_HARQ_PROCESSES →
    create_dl_harq_list d0 nrof f = Ok d → dl_reach max dis d []
| dl_step d tr o d' tr' : dl_reach max dis d tr → dl_allowed dis d o = true →
    dl_exec max d tr o = Ok (d', tr') → dl_reach max dis d' tr'.

Section Runs.
Context (max : Z) (Hmax : 0 < max <= 8) (dis : Z → bool).

Lemma payload_bits_ok len payload : 0 <= len <= 8 * zlen payload → ∃ bits, payload_bits len payload = Ok bits.
Proof.
  intros Hl. unfold payload_bits. assert (Hin : ∀ k, k ∈ seq 0 (Z.to_nat len) → Z.of_nat k < len).
  { intros k Hk%elem_of_seq. lia. }
  revert Hin. generalize (seq 0 (Z.to_nat len)). intros ks. induction ks as [|k ks IH]; intros Hin; [by exists []|]. cbn.
  destruct (buf_get_ok payload (Z.shiftr (len - 1 - Z.of_nat k) 3)) as (b & _ & ->).
  { rewrite Z.shiftr_div_pow2 by lia. specialize (Hin k ltac:(left)). change (2 ^ 3) with 8.
    split; [apply Z.div_pos; lia|apply Z.div_lt_upper_bound; lia]. }
  cbn [mbind outcome_bind]. destruct IH as [bits ->]; [intros; apply Hin; by right|]. cbn. eauto.
Qed.

Lemma link_nil pid h : link dis [] [] [] pid h.
Proof. split; [intros [Hx|Hx]; by apply not_elem_of_nil in Hx|split; apply not_elem_of_nil]. Qed.

Lemma dl_configure_ok n d av fb rt tr nrof f :
  dl_inv max dis n d av fb rt tr → n <= limit_harq nrof f <= NR_MAX_HARQ_PROCESSES → dl_reconfig d = None →
  ∃ d', create_dl_harq_list d nrof f = Ok d' ∧
    dl_inv max dis (limit_harq nrof f) d' (av ++ seqZ n (limit_harq nrof f - n)) fb rt tr.
Proof.
  intros D Hn Hr. pose proof (di_lists _ _ _ _ _ _ _ _ D) as I. unfold create_dl_harq_list.
  destruct (hi_len _ _ _ _ _ _ _ _ _ _ I) as (La & Lf & Lr). rewrite La, Lf, Lr, !Z.eqb_refl. cbn [andb assert_fatal mbind outcome_bind].
  destruct (grow_ok _ _ _ _ _ _ _ _ _ _ (limit_harq nrof f) I Hn) as (c' & -> & I' & P').
  cbn [mbind outcome_bind]. eexists. split; [done|]. split; [exact I'|apply D|cbn; by rewrite Hr| |apply D].
  cbn. rewrite P'. apply D.
Qed.

Lemma dl_reset_ok n d av fb rt tr :
  dl_inv max dis n d av fb rt tr →
  ∃ d', reset_dl_harq_list d = Ok d' ∧ dl_inv max dis n d' (av ++ fb ++ rt) [] [] [].
Proof.
  intros D. unfold reset_dl_harq_list. set (f := λ h : NR_UE_harq_t, _).
  destruct (free_lists_ok h_is_waiting h_round max nobody n (dl_harq d) av fb rt f) as (c' & -> & I' & P');
    [apply D|lia|done|]. cbn [mbind outcome_bind]. eexists. split; [done|].
  split; [exact I'|apply D|apply D| |done]. intros pid h _ _ _. apply link_nil.
Qed.

Lemma dl_start_inv d0 nrof f d :
  dl_fresh d0 → 0 < limit_harq nrof f <= NR_MAX_HARQ_PROCESSES → create_dl_harq_list d0 nrof f = Ok d →
  dl_inv max dis (limit_harq nrof f) d (seqZ 0 (limit_harq nrof f)) [] [] [].
Proof.
  intros (La & Lf & Lr & Hp & Hw & Hro & Hrc) Hn. unfold create_dl_harq_list. rewrite La, Lf, Lr. cbn [Z.eqb andb assert_fatal mbind outcome_bind].
  destruct (create_ok h_is_waiting h_round max (dl_harq d0) (limit_harq nrof f)) as (c & -> & I & P); try done; [lia|].
  cbn [mbind outcome_bind]. intros [= <-]. split; [exact I|done|cbn; by rewrite Hrc| |done].
  intros pid h _ _ _. apply link_nil.
Qed.

(** Every operation that is allowed returns, and keeps the invariant. *)
Lemma dl_exec_ok n d av fb rt tr o :
  dl_inv max dis n d av fb rt tr → dl_allowed dis d o = true →
  ∃ d' tr' n' av' fb' rt', dl_exec max d tr o = Ok (d', tr') ∧ dl_inv max dis n' d' av' fb' rt' tr'.
Proof.
  intros D Ha. pose proof (di_lists _ _ _ _ _ _ _ _ D) as I. destruct (hi_len _ _ _ _ _ _ _ _ _ _ I) as (La & _).
  destruct o as [pid pucch tb tci action|frame slot nsf bm conf values|frame slot nsf bm crc len payload| |r|nrof f]; cbn [dl_exec].
  - destruct (transmit_ok max Hmax dis n d av fb rt tr pid pucch tb tci action D) as (d' & s & av' & fb' & rt' & -> & D').
    + cbn [dl_allowed] in Ha. rewrite (elems_ok _ _ (hi_av _ _ _ _ _ _ _ _ _ _ I)), (elems_ok _ _ (hi_rt _ _ _ _ _ _ _ _ _ _ I)) in Ha.
      apply andb_true_iff in Ha as [Ha Hd]. apply Bool.eqb_prop in Hd. split.
      * apply orb_true_iff in Ha as [Ha%bool_decide_eq_true|Ha]; [by left|]. right.
        apply andb_true_iff in Ha as [Hr%bool_decide_eq_true Ht]. split; [done|].
        destruct (processes (dl_harq d) !! _) as [h|]; [|discriminate Ht]. exists h. split; [done|]. by apply Z.eqb_eq.
      * rewrite <- Hd. destruct pucch; split; done.
    + cbn [mbind outcome_bind]. do 6 eexists. split; [done|exact D'].
  - unfold handle_nr_uci_pucch_0_1. destruct (Z.testbit bm 1); [|do 6 eexists; split; [done|exact D]].
    destruct (harq_bits_ok max Hmax dis frame slot (3 * nsf / 10) tr ((λ v, (v =? 0) && (conf =? 0)) <$> values) n d av fb rt D)
      as (d' & n' & av' & fb' & rt' & -> & D' & _).
    cbn [mbind outcome_bind]. do 6 eexists. split; [done|exact D'].
  - unfold handle_nr_uci_pucch_2_3_4. destruct (Z.testbit bm 1); [|do 6 eexists; split; [done|exact D]].
    apply andb_true_iff in Ha as [H1%Z.leb_le H2%Z.leb_le]. destruct (payload_bits_ok len payload) as [bits ->]; [lia|]. cbn [mbind outcome_bind].
    destruct (harq_bits_ok max Hmax dis frame slot (3 * nsf / 10) tr ((λ acknack, negb (crc =? 1) && acknack) <$> bits) n d av fb rt D)
      as (d' & n' & av' & fb' & rt' & -> & D' & _).
    cbn [mbind outcome_bind]. do 6 eexists. split; [done|exact D'].
  - destruct (dl_reset_ok n d av fb rt tr D) as (d' & -> & D'). cbn [mbind outcome_bind]. do 6 eexists. split; [done|exact D'].
  - exists (d <| dl_reconfig := r |>), tr, n, av, fb, rt. split; [done|]. destruct D. split; try done. cbn.
    destruct r as [[nrof f]|]; [|done]. cbn [dl_allowed] in Ha. unfold enough_processes in Ha. rewrite La in Ha. cbn. lia.
  - cbn [dl_allowed] in Ha. unfold enough_processes in Ha. rewrite La in Ha.
    destruct (dl_reconfig d) eqn:Er; [lia|]. destruct (dl_configure_ok n d av fb rt tr nrof f D) as (d' & -> & D'); [lia|done|].
    cbn [mbind outcome_bind]. do 6 eexists. split; [done|exact D'].
Qed.

Lemma dl_reach_inv d tr : dl_reach max dis d tr → ∃ n av fb rt, dl_inv max dis n d av fb rt tr.
Proof.
  induction 1 as [d0 nrof f d Hf Hn Hc|d tr o d' tr' _ (n & av & fb & rt & D) Ha He].
  - do 4 eexists. by apply (dl_start_inv d0).
  - destruct (dl_exec_ok n d av fb rt tr o D Ha) as (d2 & tr2 & n2 & av2 & fb2 & rt2 & E & D2).
    rewrite He in E. injection E as <- <-. eauto.
Qed.
End Runs.

(** C11: HARQ in the downlink. In every state reached from the creation of the processes, by
    transmissions on free processes or on such as wait for retransmission, feedback of any
    content at any time, reset, and reconfiguration to as many processes or more: every process
    is in exactly one of the lists of free, waiting and failed processes and its record is in
    the state of that list; whatever comes next returns, no assertion fails and no loop is
    endless; and the transmissions of each process follow the protocol: each is either of a new
    block, with NDI changed, or the next round of the block sent before, unchanged, and no
    block is sent more than [max] times. *)
Theorem dl_harq_protocol max dis d tr :
  0 < max <= 8 → dl_reach max dis d tr →
  let c := dl_harq d in
  let fb := elems (feedback c) in let rt := elems (retrans c) in
  elems (available c) ++ fb ++ rt ≡ₚ seqZ 0 (l_len (available c)) ∧
  (∀ pid h, 0 <= pid → processes c !! Z.to_nat pid = Some h → proc_ok h_is_waiting h_round max fb rt pid h) ∧
  protocol_ok max tr ∧
  ∀ o, dl_allowed dis d o = true → ∃ r, dl_exec max d tr o = Ok r.
Proof.
  intros Hmax (n & av & fb & rt & D)%dl_reach_inv; [|done]. pose proof (di_lists _ _ _ _ _ _ _ _ D) as I. cbv zeta.
  rewrite (elems_ok _ _ (hi_av _ _ _ _ _ _ _ _ _ _ I)), (elems_ok _ _ (hi_fb _ _ _ _ _ _ _ _ _ _ I)), (elems_ok _ _ (hi_rt _ _ _ _ _ _ _ _ _ _ I)).
  destruct (hi_len _ _ _ _ _ _ _ _ _ _ I) as (-> & _). split_and!; [apply I| |apply D|].
  - intros pid h Hp Hh. eapply hi_state; [exact I|done|intros []|done].
  - intros o Ha. destruct (dl_exec_ok max Hmax dis n d av fb rt tr o D Ha) as (d' & tr' & ? & ? & ? & ? & E & _). eauto.
Qed.

Fixpoint dl_run (max : Z) (dis : Z → bool) (d : dl_ctrl) (tr : list dl_sent) (ops : list dl_op) : outcome (dl_ctrl * list dl_sent) :=
  match ops with
  | [] => Ok (d, tr)
  | o :: ops => _ ← assert_fatal (dl_allowed dis d o); '(d, tr) ← dl_exec max d tr o; dl_run max dis d tr ops
  end.

Lemma dl_run_reach max dis : ∀ ops d tr d' tr',
  dl_reach max dis d tr → dl_run max dis d tr ops = Ok (d', tr') → dl_reach max dis d' tr'.
Proof.
  induction ops as [|o ops IH]; intros d tr d' tr' R; cbn [dl_run]; [by intros [= <- <-]|].
  destruct (dl_allowed dis d o) eqn:Ha; [|done]. cbn [assert_fatal mbind outcome_bind].
  destruct (dl_exec max d tr o) as [[d1 tr1]| | |] eqn:He; try done. cbn [mbind outcome_bind].
  apply IH. by eapply dl_step.
Qed.

Lemma dl_run_start max dis d0 nrof f ops d tr :
  dl_fresh d0 → 0 < limit_harq nrof f <= NR_MAX_HARQ_PROCESSES →
  (d ← create_dl_harq_list d0 nrof f; dl_run max dis d [] ops) = Ok (d, tr) → dl_reach max dis d tr.
Proof.
  intros Hf Hn. destruct (create_dl_harq_list d0 nrof f) as [d1| | |] eqn:E1; try discriminate. cbn [mbind outcome_bind].
  apply dl_run_reach. by eapply dl_start.
Qed.

Definition zero_harq : NR_UE_harq_t := mk_harq false 0 0 0 0 [] false 0 false.
Definition zero_list : NR_list_t := mk_NR_list 0 [] 0 0.
Definition zero_dl : dl_ctrl :=
  mk_dl_ctrl (mk_harq_lists zero_list zero_list zero_list (replicate 32 zero_harq)) 0 (replicate 8 0) None None.

Lemma zero_dl_fresh : dl_fresh zero_dl.
Proof. unfold dl_fresh. split_and!; try done. intros h Hh. apply elem_of_replicate in Hh as [-> _]. done. Qed.

(** Two processes; the first is sent, refused, sent again and acknowledged while the second
    waits; then new data on the first. *)
Definition example_dl : outcome (dl_ctrl * list dl_sent) :=
  d ← create_dl_harq_list zero_dl 2 false;
  dl_run 4 (λ _, false) d []
    [Send (-1) (Some (5, 7)) [1; 2; 3] false false; Send (-1) (Some (5, 8)) [4] false false;
     Uci_0_1 5 7 20 2 0 [1]; Send 0 (Some (6, 7)) [0; 0; 0] false false; Uci_2_3_4 5 8 20 2 0 1 [1];
     Uci_0_1 6 7 20 2 0 [0]; Send 0 (Some (6, 17)) [9] false false].

Lemma example_dl_runs :
  match example_dl with
  | Ok (d, tr) => (tr, elems (available (dl_harq d)), elems (feedback (dl_harq d)))
  | _ => ([], [], [])
  end = ([mk_dl_sent 0 1 0 [9]; mk_dl_sent 0 0 1 [1; 2; 3]; mk_dl_sent 1 0 0 [4]; mk_dl_sent 0 0 0 [1; 2; 3]], [1], [0]).
Proof. vm_compute. reflexivity. Qed.

Lemma example_dl_reach d tr : example_dl = Ok (d, tr) → dl_reach 4 (λ _, false) d tr.
Proof. apply dl_run_start; [apply zero_dl_fresh|by compute]. Qed.

Lemma dl_harq_protocol_witness :
  ∃ d tr, example_dl = Ok (d, tr) ∧ (length tr = 4)%nat ∧ protocol_ok 4 tr ∧
    elems (available (dl_harq d)) = [1] ∧ elems (feedback (dl_harq d)) = [0].
Proof.
  pose proof example_dl_runs as H. pose proof example_dl_reach as R. revert H R.
  generalize example_dl. intros [[d tr]| | |] H R; [|discriminate H..]. injection H as H1 H2 H3.
  exists d, tr. destruct (dl_harq_protocol 4 (λ _, false) d tr) as (_ & _ & Hp & _); [lia|by apply R|].
  split_and!; [done|by rewrite H1|exact Hp|exact H2|exact H3].
Defined.
