(* ===== verification/MacHarqUl.v ===== *)
(** * Theorems on the HARQ processes of the uplink

    The uplink side of [MacHarq] keeps its processes in the three lists as the downlink side
    does ([MacHarqProofs]); the gNB asks for retransmissions and never has to store a block. *)

From S2P Require Import Prelude MacList MacHarq MacHarqProofs.

#[local] Arguments Z.add : simpl never.
#[local] Arguments Z.sub : simpl never.

Section Uplink.
Context (max : Z) (Hmax : 0 < max <= 8).

Notation ul_lists := (harq_inv u_is_waiting u_round max).

Record ul_inv (n : Z) (u : ul_ctrl) (av fb rt : list Z) : Prop := mk_ul_inv {
  ui_lists : ul_lists [] nobody n (ul_harq u) av fb rt;
  ui_rounds : zlen (ul_rounds u) = 8;
  ui_bytes : 0 <= sched_ul_bytes u;
}.

Lemma ul_finish_ok u n av fb rt pid h :
  ul_lists [pid] (eq pid) n (ul_harq u) av fb rt →
  processes (ul_harq u) !! Z.to_nat pid = Some h → u_is_waiting h = false →
  ∃ c', finish_nr_ul_harq u pid = Ok (u <| ul_harq := c' |>) ∧ ul_lists [] nobody n c' (av ++ [pid]) fb rt ∧
    processes c' = <[Z.to_nat pid := h <| u_ndi := Z.lxor (u_ndi h) 1 |> <| u_round := 0 |>]> (processes (ul_harq u)).
Proof.
  intros I Hh Hw. destruct (held_in _ _ _ _ _ _ _ _ _ _ I) as (Hp & _ & Hf & Hr).
  unfold finish_nr_ul_harq. destruct (proc_get_ok _ _ _ _ _ _ _ _ _ _ pid I Hp) as (h' & -> & Hh').
  rewrite Hh in Hh'. injection Hh' as <-. cbn [mbind outcome_bind].
  destruct (proc_set_ok _ _ _ _ _ _ _ _ _ _ pid (h <| u_ndi := Z.lxor (u_ndi h) 1 |> <| u_round := 0 |>) eq_refl I Hp)
    as (c1 & -> & I1 & P1 & _). cbn [mbind outcome_bind].
  destruct (give_available _ _ _ _ _ _ _ _ _ pid eq_refl I1) as (c2 & -> & I2 & P2). cbn [mbind outcome_bind].
  exists c2. split_and!; [done| |by rewrite P2].
  eapply hi_close; [exact I2|rewrite P2, P1; by eapply insert_lookup|lia|].
  split_and!; cbn; try done; [|lia]. rewrite Hw. split; done.
Qed.

(** A failed round: the process goes to be sent again, or is free when it was the last. *)
Lemma ul_failed_ok u n av fb rt pid h :
  ul_lists [pid] (eq pid) n (ul_harq u) av fb rt → zlen (ul_rounds u) = 8 → 0 <= sched_ul_bytes u →
  processes (ul_harq u) !! Z.to_nat pid = Some h → u_is_waiting h = false → 0 <= u_round h < max →
  ∃ u' av' rt', ul_round_failed u pid max = Ok u' ∧ ul_inv n u' av' fb rt'.
Proof.
  intros I Hro Hby Hh Hw Hr. destruct (held_in _ _ _ _ _ _ _ _ _ _ I) as (Hp & _ & Hf & Hrt).
  unfold ul_round_failed. destruct (proc_get_ok _ _ _ _ _ _ _ _ _ _ pid I Hp) as (h' & Eg & Hh'). rewrite Eg.
  rewrite Hh in Hh'. injection Hh' as <-. cbn [mbind outcome_bind].
  destruct (Z.leb_spec (max - 1) (u_round h)).
  - unfold abort_nr_ul_harq. rewrite Eg. cbn [mbind outcome_bind].
    destruct (ul_finish_ok u n av fb rt pid h I Hh Hw) as (c & -> & I' & _). cbn [mbind outcome_bind].
    do 3 eexists. split; [done|]. split; [exact I'|done|cbn; lia].
  - rewrite Z.mod_small by lia.
    destruct (proc_set_ok _ _ _ _ _ _ _ _ _ _ pid (h <| u_round := u_round h + 1 |>) eq_refl I Hp) as (c1 & -> & I1 & P1 & _).
    cbn [mbind outcome_bind]. destruct (give_retrans _ _ _ _ _ _ _ _ _ pid eq_refl I1) as (c2 & -> & I2 & P2).
    cbn [mbind outcome_bind]. do 3 eexists. split; [done|]. split; [|done|done]. cbn.
    eapply hi_close; [exact I2|rewrite P2, P1; by eapply insert_lookup|lia|].
    split_and!; cbn; [rewrite Hw; split; done|lia|lia|lia|]. intros _ Hx. exfalso. apply Hx, notin_app_single.
Qed.

(** The process at the head leaves the list of those that wait. *)
Lemma ul_pop_ok n u av fb rt pid (f : NR_UE_ul_harq_t → NR_UE_ul_harq_t) :
  ul_inv n u av (pid :: fb) rt → (∀ h, u_is_waiting (f h) = false ∧ u_round (f h) = u_round h) →
  ∃ c1 h c2, pop_feedback (ul_harq u) = Ok c1 ∧ proc_get c1 pid = Ok h ∧ u_is_waiting h = true ∧
    proc_set c1 pid (f h) = Ok c2 ∧ ul_lists [pid] (eq pid) n c2 av fb rt ∧
    processes c2 !! Z.to_nat pid = Some (f h) ∧ 0 <= u_round (f h) < max.
Proof.
  intros U Hf. pose proof (ui_lists _ _ _ _ _ U) as I.
  destruct (pop_ok u_is_waiting u_round max nobody (eq pid) n (ul_harq u) av fb rt pid) as (c1 & E1 & I1 & P1); [intros ? []|done|done|].
  destruct (held_in _ _ _ _ _ _ _ _ _ _ I1) as (Hp & _).
  destruct (proc_get_ok _ _ _ _ _ _ _ _ _ _ pid I1 Hp) as (h & Eg & Hh).
  destruct (hi_state _ _ _ _ _ _ _ _ _ _ I pid h) as (Hw & Hr & _); [lia|intros []|by rewrite <- P1|].
  destruct (proc_set_ok _ _ _ _ _ _ _ _ _ _ pid (f h) eq_refl I1 Hp) as (c2 & E2 & I2 & P2 & _).
  destruct (Hf h) as [_ Hfr]. exists c1, h, c2. split_and!; try done; [apply Hw; left|rewrite P2; by eapply insert_lookup|lia|lia].
Qed.

Lemma skip_ok crc : ∀ fuel n u av fb rt,
  ul_inv n u av fb rt → (length fb <= fuel)%nat →
  ∃ u' av' fb' rt', skip_ul_harq fuel u crc max = Ok (u', head fb') ∧ ul_inv n u' av' fb' rt'.
Proof.
  induction fuel as [|fuel IH]; intros n u av fb rt U Hf; pose proof (ui_lists _ _ _ _ _ U) as I;
    (destruct fb as [|pid fb];
     [exists u, av, [], rt; cbn [skip_ul_harq]; pose proof (head_nil _ (hi_fb _ _ _ _ _ _ _ _ _ _ I)) as ->; by rewrite orb_true_r|]);
    [cbn in Hf; lia|].
  destruct (head_cons _ _ _ (hi_fb _ _ _ _ _ _ _ _ _ _ I)) as [Hh Hx]. cbn [skip_ul_harq]. rewrite Hh, Hx, orb_false_r.
  destruct (Z.eqb_spec crc pid) as [->|Hne]; cbn [negb]; [by exists u, av, (pid :: fb), rt|].
  destruct (ul_pop_ok n u av fb rt pid (λ h, h <| u_is_waiting := false |>) U) as (c1 & h & c2 & -> & E & _ & E2 & I2 & L2 & R2); [done|].
  cbn [mbind outcome_bind]. rewrite E. cbn [mbind outcome_bind]. rewrite E2. cbn [mbind outcome_bind].
  set (u1 := u <| ul_harq := c2 |>).
  destruct (ul_failed_ok u1 n av fb rt pid _ I2 (ui_rounds _ _ _ _ _ U) (ui_bytes _ _ _ _ _ U) L2 eq_refl R2) as (u' & av' & rt' & -> & U').
  cbn [mbind outcome_bind]. apply (IH n u' av' fb rt' U'). cbn in Hf. lia.
Qed.

Lemma ul_crc_ok off crc status n u av fb rt :
  ul_inv n u av fb rt →
  ∃ u' av' fb' rt', handle_nr_ul_harq u off crc status max = Ok u' ∧ ul_inv n u' av' fb' rt'.
Proof.
  intros U. unfold handle_nr_ul_harq. destruct off; [by exists u, av, fb, rt|].
  destruct (skip_ok crc (length (l_next (feedback (ul_harq u)))) n u av fb rt U) as (u1 & av1 & fb1 & rt1 & -> & U1).
  { apply rep_length, U. }
  cbn [mbind outcome_bind]. destruct fb1 as [|pid fb1]; cbn [head]; [by exists u1, av1, [], rt1|].
  destruct (ul_pop_ok n u1 av1 fb1 rt1 pid (λ h, h <| u_feedback_slot := 65535 |> <| u_is_waiting := false |>) U1)
    as (c1 & h & c2 & -> & E & Hw & E2 & I2 & L2 & R2); [done|].
  cbn [mbind outcome_bind]. rewrite E. cbn [mbind outcome_bind]. rewrite Hw. cbn [assert_fatal mbind outcome_bind]. rewrite E2. cbn [mbind outcome_bind].
  set (u2 := u1 <| ul_harq := c2 |>). destruct status.
  - destruct (ul_failed_ok u2 n av1 fb1 rt1 pid _ I2 (ui_rounds _ _ _ _ _ U1) (ui_bytes _ _ _ _ _ U1) L2 eq_refl R2) as (u' & av' & rt' & -> & U').
    by exists u', av', fb1, rt'.
  - destruct (ul_finish_ok u2 n av1 fb1 rt1 pid _ I2 L2 eq_refl) as (c & -> & I3 & _).
    exists (u2 <| ul_harq := c |>), (av1 ++ [pid]), fb1, rt1. split; [done|].
    split; [exact I3|exact (ui_rounds _ _ _ _ _ U1)|exact (ui_bytes _ _ _ _ _ U1)].
Qed.

(** Taking the process of a grant out of its list. *)
Lemma ul_take_process n u av fb rt pid :
  ul_inv n u av fb rt → send_pid av pid ∈ av ∨ send_pid av pid ∈ rt →
  ∃ c h av' rt', (if pid <? 0 then
       let harq_id := l_head (available (ul_harq u)) in
       _ ← assert_fatal (0 <=? harq_id);
       l ← remove_front_nr_list (available (ul_harq u));
       Ok (ul_harq u <| available := l |>, harq_id)
     else
       harq ← proc_get (ul_harq u) pid;
       if u_round harq =? 0 then
         l ← remove_nr_list (available (ul_harq u)) pid; Ok (ul_harq u <| available := l |>, pid)
       else
         l ← remove_nr_list (retrans (ul_harq u)) pid; Ok (ul_harq u <| retrans := l |>, pid)) = Ok (c, send_pid av pid) ∧
    ul_lists [send_pid av pid] (eq (send_pid av pid)) n c av' fb rt' ∧
    processes c !! Z.to_nat (send_pid av pid) = Some h ∧ u_is_waiting h = false ∧ 0 <= u_round h < max.
Proof.
  intros U Hin. pose proof (ui_lists _ _ _ _ _ U) as I. set (p := send_pid av pid) in *.
  assert (Hp : 0 <= p < n) by (apply (hi_elem _ _ _ _ _ _ _ _ _ _ I); set_solver).
  pose proof (hi_nodup _ _ _ _ _ _ _ _ _ _ I) as Hnd. cbn [app] in Hnd.
  assert (Hfb : p ∉ fb). { rewrite !NoDup_app in Hnd. destruct Hnd as (_ & H1 & _ & H2 & _). destruct Hin; set_solver. }
  destruct (proc_get_ok _ _ _ _ _ _ _ _ _ _ p I Hp) as (h & Eg & Hl).
  destruct (hi_state _ _ _ _ _ _ _ _ _ _ I p h) as (Hw & Hr & Hrt & Hz); [lia|intros []|done|].
  assert (Hwf : u_is_waiting h = false) by (destruct (u_is_waiting h); [exfalso; apply Hfb; tauto|done]).
  unfold p, send_pid in *. destruct (Z.ltb_spec pid 0) as [Hneg|Hpos].
  - destruct av as [|q av]; [cbn in Hp; lia|]. cbn [head] in *. change (default (-1) (Some q)) with q in *.
    destruct (head_cons _ _ _ (hi_av _ _ _ _ _ _ _ _ _ _ I)) as [-> Hq]. apply Z.ltb_ge in Hq. apply Z.leb_le in Hq. rewrite Hq.
    cbn [assert_fatal mbind outcome_bind]. destruct (take_front _ _ _ _ _ _ _ _ _ I) as (l & -> & I').
    cbn [mbind outcome_bind]. do 4 eexists. split_and!; [done|exact I'|done|done|lia|lia].
  - rewrite Eg. cbn [mbind outcome_bind]. destruct (Z.eqb_spec (u_round h) 0) as [E0|E0].
    + destruct Hin as [Ha|Hx]; [|specialize (Hrt Hx); lia].
      destruct (take_available _ _ _ _ _ _ _ _ pid I Ha) as (l & -> & I'). cbn [mbind outcome_bind].
      do 4 eexists. split_and!; [done|exact I'|done|done|lia|lia].
    + assert (Hx : pid ∈ rt) by (destruct (decide (pid ∈ rt)); [done|tauto]).
      destruct (take_retrans _ _ _ _ _ _ _ _ pid I Hx) as (l & -> & I'). cbn [mbind outcome_bind].
      do 4 eexists. split_and!; [done|exact I'|done|done|lia|lia].
Qed.

Lemma ul_grant_ok off n u av fb rt pid slot tb_size :
  ul_inv n u av fb rt → send_pid av pid ∈ av ∨ send_pid av pid ∈ rt → 0 <= tb_size →
  ∃ u' g av' fb' rt', post_process_ulsch u off pid slot tb_size max = Ok (u', g) ∧ ul_inv n u' av' fb' rt'.
Proof.
  intros U Hin Htb. destruct (ul_take_process n u av fb rt pid U Hin) as (c & h & av' & rt' & Et & I & Hl & Hw & Hr).
  unfold post_process_ulsch. cbv zeta in Et |- *. rewrite Et. clear Et. cbn [mbind outcome_bind]. set (p := send_pid av pid) in *.
  destruct (held_in _ _ _ _ _ _ _ _ _ _ I) as (Hp & _ & _ & Hnr).
  destruct (proc_get_ok _ _ _ _ _ _ _ _ _ _ _ I Hp) as (h' & -> & Hl'). rewrite Hl in Hl'. injection Hl' as <-.
  cbn [mbind outcome_bind]. rewrite Hw. cbn [negb assert_fatal mbind outcome_bind]. set (u1 := u <| ul_harq := c |>).
  assert (∃ u2 h2 av2 fb2, (if off then finish_nr_ul_harq u1 p
       else
         c ← to_feedback c p;
         c ← proc_set c p (h <| u_feedback_slot := slot |> <| u_is_waiting := true |>);
         Ok (u <| ul_harq := c |>)) = Ok u2 ∧ ul_lists [] nobody n (ul_harq u2) av2 fb2 rt' ∧
       processes (ul_harq u2) !! Z.to_nat p = Some h2 ∧ 0 <= u_round h2 < max ∧
       ul_rounds u2 = ul_rounds u ∧ sched_ul_bytes u2 = sched_ul_bytes u)
    as (u2 & h2 & av2 & fb2 & -> & I2 & L2 & R2 & Ero & Eby).
  { destruct off.
    - destruct (ul_finish_ok u1 n av' fb rt' p h I Hl Hw) as (c1 & -> & I1 & P1). do 4 eexists.
      split_and!; [done|exact I1|cbn; rewrite P1; by eapply insert_lookup|cbn; lia|cbn; lia|done|done].
    - destruct (give_feedback _ _ _ _ _ _ _ _ _ _ eq_refl I) as (c1 & -> & I1 & P1). cbn [mbind outcome_bind].
      destruct (proc_set_ok _ _ _ _ _ _ _ _ _ _ p (h <| u_feedback_slot := slot |> <| u_is_waiting := true |>) eq_refl I1 Hp) as (c2 & -> & I2 & P2 & _).
      cbn [mbind outcome_bind]. rewrite <- P1 in Hl. do 4 eexists.
      split_and!; [done| |cbn; rewrite P2; by eapply insert_lookup|cbn; lia|cbn; lia|done|done]. cbn.
      eapply hi_close; [exact I2|rewrite P2; by eapply insert_lookup|lia|].
      split_and!; cbn; [split; [done|intros _; apply notin_app_single]|lia|lia|tauto|].
      intros Hx. exfalso. apply Hx, notin_app_single. }
  cbn [mbind outcome_bind]. destruct (proc_get_ok _ _ _ _ _ _ _ _ _ _ p I2 Hp) as (h3 & -> & L3). rewrite L2 in L3. injection L3 as <-.
  cbn [mbind outcome_bind]. rewrite (proj2 (Z.ltb_lt _ _)) by lia. cbn [assert_fatal mbind outcome_bind]. rewrite Ero.
  pose proof (ui_rounds _ _ _ _ _ U) as Hro. pose proof (ui_bytes _ _ _ _ _ U) as Hby.
  destruct (buf_get_ok (ul_rounds u) (u_round h2)) as (k & _ & ->); [lia|]. cbn [mbind outcome_bind].
  rewrite buf_set_ok by lia. cbn [mbind outcome_bind].
  match goal with |- context [proc_set (ul_harq ?x)] => set (u3 := x) end. change (ul_harq u3) with (ul_harq u2).
  destruct (proc_set_ok _ _ _ _ _ _ _ _ _ _ p (h2 <| u_tb_size := tb_size |>) eq_refl (hi_open _ _ _ _ _ _ _ _ _ p I2) Hp) as (c3 & -> & I3 & P3 & _).
  cbn [mbind outcome_bind]. do 5 eexists. split; [done|]. split.
  - cbn. eapply hi_close; [exact I3|rewrite P3; by eapply insert_lookup|lia|].
    exact (hi_state _ _ _ _ _ _ _ _ _ _ I2 p h2 ltac:(lia) ltac:(intros []) L2).
  - cbn. unfold zlen. rewrite length_insert. exact Hro.
  - cbn. rewrite Eby. destruct (u_round h2 =? 0); lia.
Qed.
End Uplink.

(** ** Runs *)

Inductive ul_op :=
| Grant (pid slot tb_size : Z)
| Crc (crc_harq_id : Z) (crc_status : bool)
| Ul_reset
| Ul_configure (nrof : Z) (dci_00_10 : bool).

Definition ul_exec (max : Z) (off : bool) (u : ul_ctrl) (o : ul_op) : outcome ul_ctrl :=
  match o with
  | Grant pid slot tb_size => '(u, _) ← post_process_ulsch u off pid slot tb_size max; Ok u
  | Crc id status => handle_nr_ul_harq u off id status max
  | Ul_reset => reset_ul_harq_list u
  | Ul_configure nrof f => create_ul_harq_list u nrof f
  end.

(** A grant is for a free process or one that is to be sent again; the number of processes
    does not shrink. *)
Definition ul_allowed (u : ul_ctrl) (o : ul_op) : bool :=
  match o with
  | Grant pid _ tb_size =>
      let p := send_pid (elems (available (ul_harq u))) pid in
      (bool_decide (p ∈ elems (available (ul_harq u))) || bool_decide (p ∈ elems (retrans (ul_harq u)))) && (0 <=? tb_size)
  | Crc _ _ | Ul_reset => true
  | Ul_configure nrof f =>
      (l_len (available (ul_harq u)) <=? limit_harq nrof f) && (limit_harq nrof f <=? NR_MAX_HARQ_PROCESSES)
  end.

(** Zeroed memory. *)
Definition ul_fresh (u : ul_ctrl) : Prop :=
  l_len (available (ul_harq u)) = 0 ∧ zlen (processes (ul_harq u)) = NR_MAX_HARQ_PROCESSES ∧
  (∀ h, h ∈ processes (ul_harq u) → u_is_waiting h = false ∧ u_round h = 0) ∧
  zlen (ul_rounds u) = 8 ∧ sched_ul_bytes u = 0.

Fixpoint ul_run (max : Z) (off : bool) (u : ul_ctrl) (ops : list ul_op) : option (outcome ul_ctrl) :=
  match ops with
  | [] => Some (Ok u)
  | o :: ops =>
      if ul_allowed u o then match ul_exec max off u o with Ok u => ul_run max off u ops | r => Some r end
      else None
  end.

Lemma ul_exec_ok max off n u av fb rt o :
  0 < max <= 8 → ul_inv max n u av fb rt → ul_allowed u o = true →
  ∃ u' n' av' fb' rt', ul_exec max off u o = Ok u' ∧ ul_inv max n' u' av' fb' rt'.
Proof.
  intros Hmax U Ha. pose proof (ui_lists _ _ _ _ _ _ U) as I. destruct o as [pid slot tb_size|id status| |nrof f]; cbn [ul_exec].
  - cbn [ul_allowed] in Ha. rewrite (elems_ok _ _ (hi_av _ _ _ _ _ _ _ _ _ _ I)), (elems_ok _ _ (hi_rt _ _ _ _ _ _ _ _ _ _ I)) in Ha.
    apply andb_true_iff in Ha as [Ha Ht%Z.leb_le]. rewrite orb_true_iff, !bool_decide_eq_true in Ha.
    destruct (ul_grant_ok max Hmax off n u av fb rt pid slot tb_size U Ha Ht) as (u' & g & av' & fb' & rt' & -> & U').
    cbn [mbind outcome_bind]. do 5 eexists. split; [done|exact U'].
  - destruct (ul_crc_ok max Hmax off id status n u av fb rt U) as (u' & av' & fb' & rt' & -> & U').
    do 5 eexists. split; [done|exact U'].
  - unfold reset_ul_harq_list. set (f := λ h : NR_UE_ul_harq_t, _).
    destruct (free_lists_ok u_is_waiting u_round max nobody n (ul_harq u) av fb rt f) as (c' & -> & I' & _); [apply U|lia|done|].
    cbn [mbind outcome_bind]. do 5 eexists. split; [done|]. split; [exact I'|exact (ui_rounds _ _ _ _ _ _ U)|exact (ui_bytes _ _ _ _ _ _ U)].
  - cbn [ul_allowed] in Ha. destruct (hi_len _ _ _ _ _ _ _ _ _ _ I) as (La & _). rewrite La in Ha. unfold create_ul_harq_list.
    destruct (grow_ok _ _ _ _ _ _ _ _ _ _ (limit_harq nrof f) I) as (c' & -> & I' & _); [lia|].
    cbn [mbind outcome_bind]. do 5 eexists. split; [done|]. split; [exact I'|exact (ui_rounds _ _ _ _ _ _ U)|exact (ui_bytes _ _ _ _ _ _ U)].
Qed.

Lemma ul_run_ok max off : 0 < max <= 8 → ∀ ops n av fb rt u r,
  ul_inv max n u av fb rt → ul_run max off u ops = Some r →
  ∃ u n av fb rt, r = Ok u ∧ ul_inv max n u av fb rt.
Proof.
  intros Hmax. induction ops as [|o ops IH]; intros n av fb rt u r U; cbn [ul_run].
  { intros [= <-]. eauto 10. }
  destruct (ul_allowed u o) eqn:Ha; [|done].
  destruct (ul_exec_ok max off n u av fb rt o Hmax U Ha) as (u' & n' & av' & fb' & rt' & -> & U'). by apply (IH n' av' fb' rt').
Qed.

(** C34: The uplink's HARQ state is well formed throughout: from zeroed memory, after the
    processes are created and any sequence of grants for free or failed processes, results for
    any process number in any order, resets and growing reconfigurations, with HARQ enabled or
    not, each step returns and every process is in exactly one of its three lists, waits only
    in the list of those that wait, has a round below the maximum, positive if it is to be
    sent again and zero if it is free; the bytes scheduled do not become negative. *)
Theorem ul_harq_well_formed max off u0 nrof f u1 ops r :
  0 < max <= 8 → ul_fresh u0 → 0 < limit_harq nrof f <= NR_MAX_HARQ_PROCESSES →
  create_ul_harq_list u0 nrof f = Ok u1 → ul_run max off u1 ops = Some r →
  ∃ u, r = Ok u ∧ 0 <= sched_ul_bytes u ∧
    let c := ul_harq u in
    elems (available c) ++ elems (feedback c) ++ elems (retrans c) ≡ₚ seqZ 0 (l_len (available c)) ∧
    ∀ pid h, 0 <= pid → processes c !! Z.to_nat pid = Some h →
      proc_ok u_is_waiting u_round max (elems (feedback c)) (elems (retrans c)) pid h.
Proof.
  intros Hmax (L0 & Lp & Hz & Hro & Hby) Hn. unfold create_ul_harq_list.
  destruct (create_ok u_is_waiting u_round max (ul_harq u0) (limit_harq nrof f) L0 Hn) as (c & -> & I & _); [lia|done|done|].
  cbn [mbind outcome_bind]. intros [= <-].
  intros (u & n & av & fb & rt & -> & U)%(ul_run_ok max off Hmax ops (limit_harq nrof f) (seqZ 0 (limit_harq nrof f)) [] []);
    [|split; [exact I|exact Hro|cbn; lia]].
  clear I. pose proof (ui_lists _ _ _ _ _ _ U) as I. exists u. cbv zeta.
  rewrite (elems_ok _ _ (hi_av _ _ _ _ _ _ _ _ _ _ I)), (elems_ok _ _ (hi_fb _ _ _ _ _ _ _ _ _ _ I)), (elems_ok _ _ (hi_rt _ _ _ _ _ _ _ _ _ _ I)).
  destruct (hi_len _ _ _ _ _ _ _ _ _ _ I) as (-> & _). split_and!; [done|exact (ui_bytes _ _ _ _ _ _ U)|exact (hi_perm _ _ _ _ _ _ _ _ _ _ I)|].
  intros pid h Hp Hh. eapply hi_state; [exact I|done|intros []|done].
Qed.

Definition zero_ul : ul_ctrl :=
  mk_ul_ctrl (mk_harq_lists zero_list zero_list zero_list (replicate 32 (mk_ul_harq false 0 0 0 0))) 0 (replicate 8 0) 0.

Definition example_ul_ops : list ul_op :=
  [Grant (-1) 3 100; Grant (-1) 4 50; Grant (-1) 5 7; Crc 1 false; Grant 0 6 100; Crc 2 true; Ul_configure 4 false].

Lemma example_ul_runs : ∃ u1 u, create_ul_harq_list zero_ul 3 false = Ok u1 ∧ ul_run 4 false u1 example_ul_ops = Some (Ok u) ∧
  (elems (available (ul_harq u)), elems (feedback (ul_harq u)), elems (retrans (ul_harq u))) = ([1; 3], [0], [2]).
Proof.
  destruct (create_ul_harq_list zero_ul 3 false) as [u1| | |] eqn:E1; [|vm_compute in E1; discriminate E1..]. exists u1.
  destruct (ul_run 4 false u1 example_ul_ops) as [[u| | |]|] eqn:E2; vm_compute in E1; injection E1 as <-;
    vm_compute in E2; try discriminate E2. exists u. injection E2 as <-. split_and!; done.
Qed.

Lemma ul_harq_well_formed_witness : ∃ u, 0 <= sched_ul_bytes u ∧ elems (retrans (ul_harq u)) = [2].
Proof.
  destruct example_ul_runs as (u1 & u & E1 & E2 & E3). exists u.
  destruct (ul_harq_well_formed 4 false zero_ul 3 false u1 example_ul_ops (Ok u)) as (u' & [= <-] & Hb & _);
    [lia|unfold ul_fresh; split_and!; try done; intros h Hh; apply elem_of_replicate in Hh as [-> _]; done|by compute|exact E1|exact E2|].
  split; [exact Hb|congruence].
Defined.
