(* ===== verification/RlcManager.v ===== *)
(** * RLC: the UEs, their bearers and the interface to MAC

    Models [nr_rlc_ue_manager.c] and the functions of [nr_rlc_oai_api.c] through which MAC and
    PDCP reach an RLC entity: the list of UEs, the tables of bearers of a UE and the map from
    logical channels to bearers. The entities are behind the function pointers of
    [nr_rlc_entity_t], here the class [RlcOps]; the three kinds of entity are its instance in
    the file on entities. A pointer to a UE is its index in the list, a pointer to an entity
    says where it is kept. The mutex of the manager makes each function one step. *)

From S2P Require Import Prelude RlcTypes.

(** ** The function pointers of [nr_rlc_entity_t]

    [time_now] is the clock read for statistics, the time of [set_time] is in milliseconds. *)
Class RlcOps (E : Type) := {
  rlc_recv_pdu : E → bytes → Z → outcome E;
  rlc_buffer_status : E → Z → outcome nr_rlc_entity_buffer_status_t;
  rlc_generate_pdu : Z → E → bytes → Z → outcome (Z * bytes * E);
  rlc_recv_sdu : Z → E → bytes → Z → Z → outcome E;
  rlc_set_time : E → Z → outcome E;
  rlc_reestablishment : E → outcome E;
  rlc_delete_entity : E → outcome unit;
  rlc_available_tx_space : E → Z;
  rlc_tx_list_occupancy : E → Z;
}.

Definition MAX_DRBS_PER_UE : Z := 32.

(** [nr_lcid_rb_t]: type and number of the bearer of a logical channel *)
Inductive nr_lcid_rb_t := NR_LCID_NONE | NR_LCID_SRB (srb_id : Z) | NR_LCID_DRB (drb_id : Z).

Record nr_rlc_ue_t (E : Type) := mk_rlc_ue {
  ue_id : Z;
  srb0 : option E;
  srb : list (option E);
  drb : list (option E);
  lcid2rb : list nr_lcid_rb_t;
}.
Arguments mk_rlc_ue {E}.
Arguments ue_id {E}.
Arguments srb0 {E}.
Arguments srb {E}.
Arguments drb {E}.
Arguments lcid2rb {E}.

#[export] Instance set_ue_id {E} : Setter (@ue_id E) :=
  λ v u, mk_rlc_ue v (srb0 u) (srb u) (drb u) (lcid2rb u).
#[export] Instance set_srb0 {E} : Setter (@srb0 E) :=
  λ v u, mk_rlc_ue (ue_id u) v (srb u) (drb u) (lcid2rb u).
#[export] Instance set_srb {E} : Setter (@srb E) :=
  λ v u, mk_rlc_ue (ue_id u) (srb0 u) v (drb u) (lcid2rb u).
#[export] Instance set_drb {E} : Setter (@drb E) :=
  λ v u, mk_rlc_ue (ue_id u) (srb0 u) (srb u) v (lcid2rb u).
#[export] Instance set_lcid2rb {E} : Setter (@lcid2rb E) :=
  λ v u, mk_rlc_ue (ue_id u) (srb0 u) (srb u) (drb u) v.

(** Where the entity that a pointer refers to is kept. *)
Inductive rb_ref := Ref_srb0 | Ref_srb (i : Z) | Ref_drb (i : Z).

(** element [i] of a C array *)
Definition arr_get {A} (l : list A) (i : Z) : outcome A :=
  if i <? 0 then Undef else match l !! Z.to_nat i with Some x => Ok x | None => Undef end.
Definition arr_set {A} (l : list A) (i : Z) (x : A) : outcome (list A) :=
  if (0 <=? i) && (i <? zlen l) then Ok (<[Z.to_nat i := x]> l) else Undef.

Section Manager.
Context {E : Type} `{!RlcOps E}.
Implicit Types (ue : nr_rlc_ue_t E) (m : list (nr_rlc_ue_t E)).

(** ** UEs *)

(** zeroed memory with the identity set *)
Definition new_ue (id : Z) : nr_rlc_ue_t E :=
  mk_rlc_ue id None (replicate 3 None) (replicate (Z.to_nat MAX_DRBS_PER_UE) None)
    (replicate 32 NR_LCID_NONE).

(** index of the first UE with the identity *)
Definition find_ue m (id : Z) : option nat := fst <$> list_find (λ ue, ue_id ue = id) m.

(** Returns the UE (its index), created if there is none. *)
Definition nr_rlc_manager_get_ue m (id : Z) : nat * list (nr_rlc_ue_t E) :=
  match find_ue m id with
  | Some i => (i, m)
  | None => (length m, m ++ [new_ue id])
  end.

Fixpoint delete_entities (l : list (option E)) : outcome unit :=
  match l with
  | [] => Ok tt
  | None :: l => delete_entities l
  | Some e :: l => _ ← rlc_delete_entity e; delete_entities l
  end.

Definition nr_rlc_manager_remove_ue m (id : Z) : outcome (list (nr_rlc_ue_t E)) :=
  match find_ue m id with
  | None => Ok m
  | Some i =>
      match m !! i with
      | None => Undef
      | Some ue =>
          _ ← delete_entities [srb0 ue];
          _ ← delete_entities (srb ue);
          _ ← delete_entities (drb ue);
          Ok (take i m ++ drop (S i) m)
      end
  end.

Definition nr_rlc_ue_add_srb_rlc_entity ue (srb_id : Z) (entity : E) : outcome (nr_rlc_ue_t E) :=
  if (srb_id <? 0) || (3 <? srb_id) then Fatal
  else if srb_id =? 0 then
    if srb0 ue is Some _ then Fatal else Ok (ue <| srb0 := Some entity |>)
  else
    e ← arr_get (srb ue) (srb_id - 1);
    if e is Some _ then Fatal
    else l ← arr_set (srb ue) (srb_id - 1) (Some entity); Ok (ue <| srb := l |>).

Definition nr_rlc_ue_add_drb_rlc_entity ue (drb_id : Z) (entity : E) : outcome (nr_rlc_ue_t E) :=
  if (drb_id <? 1) || (MAX_DRBS_PER_UE <? drb_id) then Fatal
  else
    e ← arr_get (drb ue) (drb_id - 1);
    if e is Some _ then Fatal
    else l ← arr_set (drb ue) (drb_id - 1) (Some entity); Ok (ue <| drb := l |>).

(** ** From a logical channel to its entity *)

Definition get_rb ue (r : rb_ref) : outcome (option E) :=
  match r with
  | Ref_srb0 => Ok (srb0 ue)
  | Ref_srb i => arr_get (srb ue) i
  | Ref_drb i => arr_get (drb ue) i
  end.

Definition set_rb ue (r : rb_ref) (e : option E) : outcome (nr_rlc_ue_t E) :=
  match r with
  | Ref_srb0 => Ok (ue <| srb0 := e |>)
  | Ref_srb i => l ← arr_set (srb ue) i e; Ok (ue <| srb := l |>)
  | Ref_drb i => l ← arr_set (drb ue) i e; Ok (ue <| drb := l |>)
  end.

Definition rb_of_lcid ue (channel_id : Z) : outcome (option rb_ref) :=
  if channel_id =? 0 then Ok (Some Ref_srb0)
  else
    rb ← arr_get (lcid2rb ue) (channel_id - 1);
    match rb with
    | NR_LCID_NONE => Ok None
    | NR_LCID_SRB id => if 0 <? id then Ok (Some (Ref_srb (id - 1))) else Fatal
    | NR_LCID_DRB id => Ok (Some (Ref_drb (id - 1)))
    end.

(** The entity and where it is kept; [None] is NULL. *)
Definition get_rlc_entity_from_lcid ue (channel_id : Z) : outcome (option (rb_ref * E)) :=
  r ← rb_of_lcid ue channel_id;
  match r with
  | None => Ok None
  | Some r => e ← get_rb ue r; Ok (if e is Some e then Some (r, e) else None)
  end.

(** What the functions below have in common: find the UE, let [f] work on the entity of the
    channel, or return [none] if there is none. *)
Definition with_entity {A} (f : E → outcome (A * E)) (none : A) ue (channel_id : Z)
  : outcome (A * nr_rlc_ue_t E) :=
  rb ← get_rlc_entity_from_lcid ue channel_id;
  match rb with
  | None => Ok (none, ue)
  | Some (r, e) => '(a, e) ← f e; ue ← set_rb ue r (Some e); Ok (a, ue)
  end.

Definition with_ue {A} (f : nr_rlc_ue_t E → outcome (A * nr_rlc_ue_t E)) m (id : Z)
  : outcome (A * list (nr_rlc_ue_t E)) :=
  let '(i, m) := nr_rlc_manager_get_ue m id in
  match m !! i with
  | None => Undef
  | Some ue => '(a, ue) ← f ue; Ok (a, <[i := ue]> m)
  end.

Definition release_rlc_entity_from_lcid ue (channel_id : Z) : outcome (nr_rlc_ue_t E) :=
  if channel_id =? 0 then Fatal
  else
    rb ← arr_get (lcid2rb ue) (channel_id - 1);
    match rb with
    | NR_LCID_NONE => Ok ue
    | NR_LCID_SRB id =>
        if 0 <=? id - 1 then
          e ← arr_get (srb ue) (id - 1);
          match e with
          | Some e => _ ← rlc_delete_entity e; set_rb ue (Ref_srb (id - 1)) None
          | None => Ok ue
          end
        else Fatal
    | NR_LCID_DRB id =>
        e ← arr_get (drb ue) (id - 1);
        match e with
        | Some e => _ ← rlc_delete_entity e; set_rb ue (Ref_drb (id - 1)) None
        | None => Ok ue
        end
    end.

Definition release_ue (channel_id : Z) ue : outcome (unit * nr_rlc_ue_t E) :=
  ue ← (if channel_id =? 0 then
          match srb0 ue with
          | Some e => _ ← rlc_delete_entity e; Ok (ue <| srb0 := None |>)
          | None => Ok ue
          end
        else release_rlc_entity_from_lcid ue channel_id);
  Ok (tt, ue).

Definition nr_rlc_release_entity m (id channel_id : Z) : outcome (list (nr_rlc_ue_t E)) :=
  '(_, m) ← with_ue (release_ue channel_id) m id; Ok m.

Definition rb_matches (is_srb : bool) (rb_id : Z) (rb : nr_lcid_rb_t) : bool :=
  match rb with
  | NR_LCID_SRB i => is_srb && (i =? rb_id)
  | NR_LCID_DRB i => negb is_srb && (i =? rb_id)
  | NR_LCID_NONE => false
  end.

(** 0 if there is no such channel *)
Definition lcid_from_rb (is_srb : bool) (rb_id : Z) ue : Z :=
  match list_find (λ rb, rb_matches is_srb rb_id rb = true) (lcid2rb ue) with
  | Some (i, _) => Z.of_nat i + 1
  | None => 0
  end.

Definition nr_rlc_get_lcid_from_rb m (id : Z) (is_srb : bool) (rb_id : Z)
  : outcome (Z * list (nr_rlc_ue_t E)) :=
  with_ue (λ ue, Ok (lcid_from_rb is_srb rb_id ue, ue)) m id.

(** ** MAC: PDUs received, PDUs to send, what there is to send *)

(** [nr_rlc_data_ind_t]; the data are those found at [buf] *)
Record nr_rlc_data_ind_t := mk_data_ind { ch : Z; buf : bytes }.

(** A PDU for a channel without an entity is dropped. *)
Definition recv_on_channel (now : Z) (d : nr_rlc_data_ind_t) ue : outcome (unit * nr_rlc_ue_t E) :=
  with_entity (λ e, e ← rlc_set_time e now;
                    e ← rlc_recv_pdu e (buf d) (zlen (buf d)); Ok (tt, e)) tt ue (ch d).

Fixpoint data_ind_loop (now : Z) (data : list nr_rlc_data_ind_t) ue
  : outcome (unit * nr_rlc_ue_t E) :=
  match data with
  | [] => Ok (tt, ue)
  | d :: data => '(_, ue) ← recv_on_channel now d ue; data_ind_loop now data ue
  end.

Definition nr_mac_rlc_data_ind (now : Z) m (id : Z) (data : list nr_rlc_data_ind_t)
  : outcome (list (nr_rlc_ue_t E)) :=
  '(_, m) ← with_ue (data_ind_loop now data) m id; Ok m.

(** The loop of [nr_mac_rlc_multi_data_req]: [buffer] is what follows [buffer_pP], the result
    has the sizes of the PDUs. *)
Fixpoint multi_pdus (time_now : Z) (pdu_siz_len : nat) (rb : E) (tb_size : Z) (buffer : bytes)
  : outcome (list Z * bytes * E) :=
  match pdu_siz_len with
  | O => Ok ([], buffer, rb)
  | S n =>
      if negb (0 <? tb_size - 3) then Ok ([], buffer, rb)
      else
        '(siz, rest, rb) ← rlc_generate_pdu time_now rb (drop 3 buffer) (tb_size - 3);
        let buffer := take 3 buffer ++ rest in
        if siz =? 0 then Ok ([], buffer, rb)
        else
          '(sizes, rest, rb) ← multi_pdus time_now n rb (tb_size - (3 + siz))
                                 (drop (Z.to_nat (3 + siz)) buffer);
          Ok (siz :: sizes, take (Z.to_nat (3 + siz)) buffer ++ rest, rb)
  end.

Definition multi_data_req_ue (now time_now channel_id tb_size : Z) (buffer : bytes)
    (pdu_siz_len : nat) ue : outcome (list Z * bytes * nr_rlc_ue_t E) :=
  with_entity (λ e,
    e ← rlc_set_time e now; multi_pdus time_now pdu_siz_len e tb_size buffer)
    ([], buffer) ue channel_id.

Definition nr_mac_rlc_multi_data_req (now time_now : Z) m (id channel_id tb_size : Z)
    (buffer : bytes) (pdu_siz_len : nat) : outcome (list Z * bytes * list (nr_rlc_ue_t E)) :=
  with_ue (multi_data_req_ue now time_now channel_id tb_size buffer pdu_siz_len) m id.

Definition data_req_ue (now time_now channel_id tb_size : Z) (buffer : bytes) ue
  : outcome (Z * bytes * nr_rlc_ue_t E) :=
  with_entity (λ e,
    e ← rlc_set_time e now; rlc_generate_pdu time_now e buffer tb_size)
    (0, buffer) ue channel_id.

Definition nr_mac_rlc_data_req (now time_now : Z) m (id channel_id tb_size : Z) (buffer : bytes)
  : outcome (Z * bytes * list (nr_rlc_ue_t E)) :=
  with_ue (data_req_ue now time_now channel_id tb_size buffer) m id.

(** [bytes_in_buffer] of the answer; the other fields are 0 *)
Definition _nr_rlc_status_ind (now channel_id : Z) ue : outcome (Z * nr_rlc_ue_t E) :=
  with_entity (λ e,
    e ← rlc_set_time e now;
    b ← rlc_buffer_status e 1000000;
    Ok (bs_status_size b + bs_retx_size b + bs_tx_size b, e)) 0 ue channel_id.

Fixpoint status_ind_loop (now : Z) (chs : list Z) ue : outcome (list Z * nr_rlc_ue_t E) :=
  match chs with
  | [] => Ok ([], ue)
  | c :: chs =>
      '(n, ue) ← _nr_rlc_status_ind now c ue;
      '(ns, ue) ← status_ind_loop now chs ue;
      Ok (n :: ns, ue)
  end.

Definition nr_mac_rlc_status_ind (now : Z) m (id : Z) (chs : list Z)
  : outcome (list Z * list (nr_rlc_ue_t E)) :=
  with_ue (status_ind_loop now chs) m id.

(** ** PDCP and RRC: SDUs to send, state *)

Definition data_req_ref (srb_flag : bool) (rb_id : Z) : option rb_ref :=
  if srb_flag then if (1 <=? rb_id) && (rb_id <=? 2) then Some (Ref_srb (rb_id - 1)) else None
  else if (1 <=? rb_id) && (rb_id <=? MAX_DRBS_PER_UE) then Some (Ref_drb (rb_id - 1)) else None.

Definition send_sdu (now time_now : Z) (sdu : bytes) (mui : Z) ue (r : rb_ref) (e : E)
  : outcome (unit * nr_rlc_ue_t E) :=
  e ← rlc_set_time e now;
  e ← rlc_recv_sdu time_now e sdu (zlen sdu) mui;
  ue ← set_rb ue r (Some e); Ok (tt, ue).

(** An SDU for a bearer that does not exist is dropped. *)
Definition rlc_data_req_ue (now time_now : Z) (srb_flag : bool) (rb_id mui : Z) (sdu : bytes) ue
  : outcome (unit * nr_rlc_ue_t E) :=
  match data_req_ref srb_flag rb_id with
  | None => Ok (tt, ue)
  | Some r =>
      e ← get_rb ue r;
      match e with
      | None => Ok (tt, ue)
      | Some e => send_sdu now time_now sdu mui ue r e
      end
  end.

Definition nr_rlc_data_req (now time_now : Z) m (id : Z) (srb_flag : bool) (rb_id mui : Z)
    (sdu : bytes) : outcome (list (nr_rlc_ue_t E)) :=
  '(_, m) ← with_ue (rlc_data_req_ue now time_now srb_flag rb_id mui sdu) m id; Ok m.

Definition srb_recv_sdu_ue (now time_now channel_id : Z) (sdu : bytes) ue
  : outcome (unit * nr_rlc_ue_t E) :=
  let r := if channel_id =? 0 then Ref_srb0 else Ref_srb (channel_id - 1) in
  e ← get_rb ue r;
  match e with
  | None => Fatal
  | Some e => send_sdu now time_now sdu (-1) ue r e
  end.

Definition nr_rlc_srb_recv_sdu (now time_now : Z) m (id channel_id : Z) (sdu : bytes)
  : outcome (list (nr_rlc_ue_t E)) :=
  '(_, m) ← with_ue (srb_recv_sdu_ue now time_now channel_id sdu) m id; Ok m.

Definition tx_space_ue (channel_id : Z) ue : outcome (Z * nr_rlc_ue_t E) :=
  with_entity (λ e, Ok (rlc_available_tx_space e, e)) (-1) ue channel_id.
Definition nr_rlc_get_available_tx_space m (id channel_id : Z)
  : outcome (Z * list (nr_rlc_ue_t E)) := with_ue (tx_space_ue channel_id) m id.

Definition occupancy_ue (channel_id : Z) ue : outcome (Z * nr_rlc_ue_t E) :=
  with_entity (λ e, Ok (rlc_tx_list_occupancy e, e)) 0 ue channel_id.
Definition nr_rlc_tx_list_occupancy m (id channel_id : Z)
  : outcome (Z * list (nr_rlc_ue_t E)) := with_ue (occupancy_ue channel_id) m id.

Definition reestablish_ue (channel_id : Z) ue : outcome (unit * nr_rlc_ue_t E) :=
  with_entity (λ e, e ← rlc_reestablishment e; Ok (tt, e)) tt ue channel_id.
Definition nr_rlc_reestablish_entity m (id channel_id : Z) : outcome (list (nr_rlc_ue_t E)) :=
  '(_, m) ← with_ue (reestablish_ue channel_id) m id; Ok m.

(** SRB 1 is re-established: according to 5.3.7.4 of TS 38.331 *)
Definition update_id_ue (to_id : Z) ue : outcome (unit * nr_rlc_ue_t E) :=
  let ue := ue <| ue_id := to_id |> in
  e ← arr_get (srb ue) 0;
  match e with
  | Some e => e ← rlc_reestablishment e; ue ← set_rb ue (Ref_srb 0) (Some e); Ok (tt, ue)
  | None => Ok (tt, ue)
  end.
Definition nr_rlc_update_id m (from_id to_id : Z) : outcome (list (nr_rlc_ue_t E)) :=
  '(_, m) ← with_ue (update_id_ue to_id) m from_id; Ok m.

(** What [nr_rlc_add_srb] and [nr_rlc_add_drb] do once the entity has been configured: the
    channel is mapped, and the entity is added if the bearer has none ([new] is not called
    otherwise). *)
Definition add_bearer_ue (new : outcome E) (lcid : Z) (rb : nr_lcid_rb_t) (r : rb_ref) ue
  : outcome (unit * nr_rlc_ue_t E) :=
  l ← arr_set (lcid2rb ue) (lcid - 1) rb;
  let ue := ue <| lcid2rb := l |> in
  e ← get_rb ue r;
  match e with
  | Some _ => Ok (tt, ue)
  | None =>
      e ← new;
      ue ← (match r with
            | Ref_srb0 => nr_rlc_ue_add_srb_rlc_entity ue 0 e
            | Ref_srb i => nr_rlc_ue_add_srb_rlc_entity ue (i + 1) e
            | Ref_drb i => nr_rlc_ue_add_drb_rlc_entity ue (i + 1) e
            end);
      Ok (tt, ue)
  end.

Definition add_bearer (new : outcome E) m (id lcid : Z) (rb : nr_lcid_rb_t) (r : rb_ref)
  : outcome (list (nr_rlc_ue_t E)) :=
  '(_, m) ← with_ue (add_bearer_ue new lcid rb r) m id; Ok m.
End Manager.
