(* ===== verification/RlcEntities.v ===== *)
(** * RLC: the three kinds of entity behind one interface

    The function pointers that the constructors of TM, UM and AM entities store in
    [nr_rlc_entity_t], and the functions of [nr_rlc_oai_api.c] that make entities:
    [nr_rlc_activate_srb0], [nr_rlc_add_srb], [nr_rlc_add_drb], [nr_rlc_reconfigure_entity].
    Their configuration comes decoded from ASN.1 (timers in milliseconds, -1 for infinity). *)

From S2P Require Import Prelude RlcTypes RlcTm RlcUm RlcAm RlcAmStatus RlcManager.

Inductive rlc_entity :=
  | TM (e : nr_rlc_entity_tm_t)
  | UM (e : nr_rlc_entity_um_t)
  | AM (e : nr_rlc_entity_am_t).

#[export] Instance rlc_entity_ops : RlcOps rlc_entity := {
  rlc_recv_pdu x b n :=
    match x with
    | TM e => e ← nr_rlc_entity_tm_recv_pdu e b n; Ok (TM e)
    | UM e => e ← nr_rlc_entity_um_recv_pdu e b n; Ok (UM e)
    | AM e => e ← nr_rlc_entity_am_recv_pdu e b n; Ok (AM e)
    end;
  rlc_buffer_status x n :=
    match x with
    | TM e => Ok (nr_rlc_entity_tm_buffer_status e n)
    | UM e => Ok (nr_rlc_entity_um_buffer_status e n)
    | AM e => nr_rlc_entity_am_buffer_status e n
    end;
  rlc_generate_pdu t x b n :=
    match x with
    | TM e => '(r, b, e) ← nr_rlc_entity_tm_generate_pdu t e b n; Ok (r, b, TM e)
    | UM e => '(r, b, e) ← nr_rlc_entity_um_generate_pdu t e b n; Ok (r, b, UM e)
    | AM e => '(r, b, e) ← nr_rlc_entity_am_generate_pdu t e b n; Ok (r, b, AM e)
    end;
  rlc_recv_sdu t x b n id :=
    match x with
    | TM e => e ← nr_rlc_entity_tm_recv_sdu t e b n id; Ok (TM e)
    | UM e => e ← nr_rlc_entity_um_recv_sdu t e b n id; Ok (UM e)
    | AM e => e ← nr_rlc_entity_am_recv_sdu t e b n id; Ok (AM e)
    end;
  rlc_set_time x t :=
    match x with
    | TM e => Ok (TM (nr_rlc_entity_tm_set_time e t))
    | UM e => e ← nr_rlc_entity_um_set_time e t; Ok (UM e)
    | AM e => e ← nr_rlc_entity_am_set_time e t; Ok (AM e)
    end;
  rlc_reestablishment x :=
    match x with
    | TM e => e ← nr_rlc_entity_tm_reestablishment e; Ok (TM e)
    | UM e => e ← nr_rlc_entity_um_reestablishment e; Ok (UM e)
    | AM e => e ← nr_rlc_entity_am_reestablishment e; Ok (AM e)
    end;
  rlc_delete_entity x :=
    match x with
    | TM e => nr_rlc_entity_tm_delete e
    | UM e => nr_rlc_entity_um_delete e
    | AM e => nr_rlc_entity_am_delete e
    end;
  rlc_available_tx_space x :=
    match x with
    | TM e => nr_rlc_entity_tm_available_tx_space e
    | UM e => nr_rlc_entity_um_available_tx_space e
    | AM e => nr_rlc_entity_am_available_tx_space e
    end;
  rlc_tx_list_occupancy x :=
    match x with
    | TM e => nr_rlc_entity_tm_tx_list_occupancy e
    | UM e => nr_rlc_entity_um_tx_list_occupancy e
    | AM e => nr_rlc_entity_am_tx_list_occupancy e
    end;
}.

(** ** Configuration

    [NR_RLC_Config_t], decoded; the lengths of the sequence number are those of the downlink
    and of the uplink ([None] for an absent field). *)
Record am_config := mk_am_config {
  c_t_poll_retransmit : Z;
  c_t_reassembly : Z;
  c_t_status_prohibit : Z;
  c_poll_pdu : Z;
  c_poll_byte : Z;
  c_max_retx_threshold : Z;
}.

Inductive rlc_config :=
  | Cfg_am (c : am_config) (dl_sn ul_sn : option Z)
  | Cfg_um_bi (t_reassembly : Z) (dl_sn ul_sn : option Z)
  | Cfg_other.

(** default values as in 9.2.1 of 38.331 *)
Definition default_am : am_config := mk_am_config 45 35 0 (-1) (-1) 8.

(** [NR_RLC_BearerConfig_t] *)
Record bearer_config := mk_bearer {
  logicalChannelIdentity : Z;
  servedRadioBearer : nr_lcid_rb_t;
  rlc_Config : option rlc_config;
}.

Definition RLC_TX_MAXSIZE : Z := 10000000.
Definition RLC_RX_MAXSIZE : Z := 10000000.

Definition new_am (c : am_config) (sn : Z) : outcome rlc_entity :=
  e ← new_nr_rlc_entity_am RLC_RX_MAXSIZE RLC_TX_MAXSIZE (c_t_poll_retransmit c) (c_t_reassembly c)
        (c_t_status_prohibit c) (c_poll_pdu c) (c_poll_byte c) (c_max_retx_threshold c) sn;
  Ok (AM e).
Definition new_um (t_reassembly sn : Z) : outcome rlc_entity :=
  e ← new_nr_rlc_entity_um RLC_RX_MAXSIZE RLC_TX_MAXSIZE t_reassembly sn; Ok (UM e).

Definition manager := list (nr_rlc_ue_t rlc_entity).

(** the length of the SN, the same in both directions *)
Definition same_sn (dl ul : option Z) : outcome Z :=
  match dl, ul with
  | Some a, Some b => if a =? b then Ok a else Fatal
  | _, _ => Undef
  end.

Definition nr_rlc_add_srb (m : manager) (id srb_id : Z) (b : bearer_config) : outcome manager :=
  if negb ((0 <? srb_id) && (srb_id <? 4)) then Fatal
  else
    '(c, sn) ← (match rlc_Config b with
                | Some (Cfg_am c dl ul) => sn ← same_sn dl ul; Ok (c, sn)
                | _ => Ok (default_am, 12)
                end);
    match servedRadioBearer b with
    | NR_LCID_SRB i =>
        add_bearer (new_am c sn) m id (logicalChannelIdentity b) (NR_LCID_SRB i) (Ref_srb (srb_id - 1))
    | _ => Fatal
    end.

Definition add_drb_am (m : manager) (id drb_id : Z) (b : bearer_config) : outcome manager :=
  if negb ((0 <? drb_id) && (drb_id <=? MAX_DRBS_PER_UE)) then Fatal
  else match rlc_Config b with
  | Some (Cfg_am c dl ul) =>
      sn ← same_sn dl ul;
      match servedRadioBearer b with
      | NR_LCID_DRB i =>
          add_bearer (new_am c sn) m id (logicalChannelIdentity b) (NR_LCID_DRB i) (Ref_drb (drb_id - 1))
      | _ => Fatal
      end
  | Some _ => Fatal
  | None => Undef
  end.

Definition add_drb_um (m : manager) (id drb_id : Z) (b : bearer_config) : outcome manager :=
  if negb ((0 <? drb_id) && (drb_id <=? MAX_DRBS_PER_UE)) then Fatal
  else match rlc_Config b with
  | Some (Cfg_um_bi t dl ul) =>
      sn ← same_sn dl ul;
      match servedRadioBearer b with
      | NR_LCID_DRB i =>
          add_bearer (new_um t sn) m id (logicalChannelIdentity b) (NR_LCID_DRB i) (Ref_drb (drb_id - 1))
      | _ => Fatal
      end
  | Some _ => Fatal
  | None => Undef
  end.

Definition nr_rlc_add_drb (m : manager) (id drb_id : Z) (b : bearer_config) : outcome manager :=
  match rlc_Config b with
  | Some (Cfg_am _ _ _) => add_drb_am m id drb_id b
  | Some (Cfg_um_bi _ _ _) => add_drb_um m id drb_id b
  | Some Cfg_other => Fatal
  | None => Undef
  end.

(** [true] if the entity is new *)
Definition nr_rlc_activate_srb0 (m : manager) (id : Z) : outcome (bool * manager) :=
  with_ue (λ ue,
    match srb0 ue with
    | Some _ => Ok (false, ue)
    | None =>
        e ← new_nr_rlc_entity_tm 10000;
        ue ← nr_rlc_ue_add_srb_rlc_entity ue 0 (TM e); Ok (true, ue)
    end) m id.

(** the optional length of the SN on reconfiguration *)
Definition same_sn_opt (dl ul : option Z) : outcome (option Z) :=
  match dl, ul with
  | Some a, Some b => if a =? b then Ok (Some a) else Fatal
  | None, None => Ok None
  | _, _ => Fatal
  end.

Definition am_reconfigure (e : nr_rlc_entity_am_t) (c : am_config) (sn : option Z)
  : nr_rlc_entity_am_t :=
  nr_rlc_entity_am_reconfigure e (c_t_poll_retransmit c) (c_t_reassembly c) (c_t_status_prohibit c)
    (c_poll_pdu c) (c_poll_byte c) (c_max_retx_threshold c) sn.

Definition reconfigured (cfg : option rlc_config) (x : rlc_entity) : outcome rlc_entity :=
  match cfg, x with
  | Some _, TM _ => Fatal
  | Some (Cfg_am c dl ul), AM e => sn ← same_sn_opt dl ul; Ok (AM (am_reconfigure e c sn))
  | Some _, AM _ => Fatal
  | Some (Cfg_um_bi t dl ul), UM e => sn ← same_sn_opt dl ul; Ok (UM (nr_rlc_entity_um_reconfigure e t sn))
  | Some _, UM _ => Fatal
  | None, AM e => Ok (AM (am_reconfigure e default_am (Some 12)))
  | None, _ => Fatal
  end.

(** A channel without an entity is a NULL pointer here. *)
Definition nr_rlc_reconfigure_entity (m : manager) (id channel_id : Z) (cfg : option rlc_config)
  : outcome manager :=
  '(_, m) ← with_ue (λ ue,
    rb ← get_rlc_entity_from_lcid ue channel_id;
    match rb with
    | None => Undef
    | Some (r, e) => e ← reconfigured cfg e; ue ← set_rb ue r (Some e); Ok (tt, ue)
    end) m id;
  Ok m.
