(* ===== verification/RlcManagerProofs.v ===== *)
(** * Theorems about the RLC manager

    The list of UEs implements a finite map from identities to UEs, and received PDUs reach
    exactly the entities of their logical channels. *)

From stdpp Require Import gmap.
From S2P Require Import Prelude RlcTypes RlcManager RlcTm RlcEntities.

Lemma arr_get_ok {A} (l : list A) i : 0 <= i < zlen l → ∃ x, arr_get l i = Ok x ∧ l !! Z.to_nat i = Some x.
Proof.
  intros Hi. unfold arr_get, zlen in *. destruct (Z.ltb_spec i 0); [lia|].
  destruct (lookup_lt_is_Some_2 l (Z.to_nat i)) as [x Hx]; [lia|]. rewrite Hx. eauto.
Qed.

Lemma arr_get_inv {A} (l : list A) i x : arr_get l i = Ok x → 0 <= i < zlen l ∧ l !! Z.to_nat i = Some x.
Proof.
  unfold arr_get. destruct (Z.ltb_spec i 0); [done|]. destruct (l !! Z.to_nat i) eqn:E; [|done].
  intros [= ->]. apply lookup_lt_Some in E as Hl. unfold zlen. split; [lia|done].
Qed.

Lemma arr_set_ok {A} (l : list A) i x : 0 <= i < zlen l → arr_set l i x = Ok (<[Z.to_nat i := x]> l).
Proof.
  intros Hi. unfold arr_set. destruct (Z.leb_spec 0 i); [|lia]. destruct (Z.ltb_spec i (zlen l)); [done|lia].
Qed.

Lemma arr_set_inv {A} (l k : list A) i x :
  arr_set l i x = Ok k → 0 <= i < zlen l ∧ k = <[Z.to_nat i := x]> l.
Proof.
  unfold arr_set. destruct (Z.leb_spec 0 i), (Z.ltb_spec i (zlen l)); cbn; try done.
  intros [= <-]. split; [lia|done].
Qed.

#[export] Instance rb_ref_eq_dec : EqDecision rb_ref.
Proof. solve_decision. Defined.

Section Proofs.
Context {E : Type} `{!RlcOps E}.
Implicit Types (ue : nr_rlc_ue_t E) (m : list (nr_rlc_ue_t E)) (M : gmap Z (nr_rlc_ue_t E)).

(** ** The list of UEs as a map *)

Definition ues_wf m : Prop := NoDup (ue_id <$> m).
Definition ue_map m : gmap Z (nr_rlc_ue_t E) := list_to_map ((λ ue, (ue_id ue, ue)) <$> m).

Lemma ue_map_keys m : ((λ ue, (ue_id ue, ue)) <$> m).*1 = ue_id <$> m.
Proof. rewrite <- list_fmap_compose. done. Qed.

Lemma ue_map_lookup m ue : ues_wf m → ue ∈ m → ue_map m !! ue_id ue = Some ue.
Proof.
  intros W Hin. apply elem_of_list_to_map_1.
  - rewrite ue_map_keys. exact W.
  - by apply (list_elem_of_fmap_2 (λ ue, (ue_id ue, ue))).
Qed.

Lemma ue_map_lookup_inv m id ue : ue_map m !! id = Some ue → ue ∈ m ∧ ue_id ue = id.
Proof.
  intros H%elem_of_list_to_map_2. apply list_elem_of_fmap in H as (u & [= -> ->] & Hu). done.
Qed.

Lemma ue_map_None m id : ue_map m !! id = None ↔ id ∉ ue_id <$> m.
Proof. unfold ue_map. rewrite <- not_elem_of_list_to_map, ue_map_keys. done. Qed.

Lemma find_ue_Some m id i : find_ue m id = Some i → ∃ ue, m !! i = Some ue ∧ ue_id ue = id.
Proof.
  unfold find_ue. destruct (list_find _ m) as [[j u]|] eqn:F; [|done]. cbn. intros [= ->].
  apply list_find_Some in F as (Hj & Hid & _). eauto.
Qed.

Lemma find_ue_None m id : find_ue m id = None → id ∉ ue_id <$> m.
Proof.
  unfold find_ue. destruct (list_find _ m) as [[j u]|] eqn:F; [done|]. intros _ Hin.
  apply list_elem_of_fmap in Hin as (u & -> & Hu). apply list_find_None in F.
  by apply (Forall_forall _ _) with (x := u) in F.
Qed.

(** replacing a UE by one with another (free) identity, or with its own *)
Lemma ue_map_replace m i ue ue' :
  ues_wf m → m !! i = Some ue → ue_id ue' = ue_id ue ∨ ue_id ue' ∉ ue_id <$> m →
  ues_wf (<[i := ue']> m) ∧ ue_map (<[i := ue']> m) = <[ue_id ue' := ue']> (delete (ue_id ue) (ue_map m)).
Proof.
  intros W Hi Hid. rewrite (insert_take_drop m i ue') by (by eapply lookup_lt_Some).
  rewrite <- (take_drop_middle m i ue Hi) in W, Hid |- *.
  rewrite take_app_length' by (rewrite length_take; apply lookup_lt_Some in Hi; lia).
  replace (drop (S i) (take i m ++ ue :: drop (S i) m)) with (drop (S i) m).
  2: { rewrite drop_app_ge by (rewrite length_take; lia). rewrite length_take, Nat.min_l by (apply lookup_lt_Some in Hi; lia).
       replace (S i - i)%nat with 1%nat by lia. done. }
  generalize (take i m) (drop (S i) m) W Hid. clear W Hid Hi. intros a b W Hid.
  unfold ues_wf, ue_map in *. rewrite fmap_app, fmap_cons in W, Hid.
  assert (ue_id ue ∉ ue_id <$> a ∧ ue_id ue ∉ ue_id <$> b ∧ NoDup ((ue_id <$> a) ++ (ue_id <$> b))) as (Ha & Hb & Hab).
  { pose proof W as W2. rewrite <- Permutation_middle in W2. apply NoDup_cons in W2 as [Hn Hd].
    rewrite elem_of_app in Hn. split_and!; [tauto|tauto|done]. }
  assert (ue_id ue' ∉ (ue_id <$> a) ++ (ue_id <$> b)) as Hfr.
  { rewrite elem_of_app. destruct Hid as [->|Hid]; [tauto|]. rewrite elem_of_app, elem_of_cons in Hid. tauto. }
  rewrite !fmap_app, !fmap_cons. split.
  - rewrite <- Permutation_middle. by apply NoDup_cons.
  - rewrite !list_to_map_app, !list_to_map_cons. apply map_eq. intros k.
    rewrite elem_of_app in Hfr.
    destruct (decide (k = ue_id ue')) as [->|Hk].
    + rewrite lookup_insert_eq, lookup_union_r, lookup_insert_eq; [done|].
      apply not_elem_of_list_to_map_1. rewrite ue_map_keys. tauto.
    + rewrite lookup_insert_ne by done. destruct (decide (k = ue_id ue)) as [->|Hk2].
      * rewrite lookup_delete_eq, lookup_union_None, lookup_insert_ne by done. split.
        -- apply not_elem_of_list_to_map_1. rewrite ue_map_keys. tauto.
        -- apply not_elem_of_list_to_map_1. rewrite ue_map_keys. tauto.
      * rewrite lookup_delete_ne by done. rewrite !lookup_union, !lookup_insert_ne by done. done.
Qed.

Lemma ue_map_app m ue :
  ues_wf m → ue_id ue ∉ ue_id <$> m →
  ues_wf (m ++ [ue]) ∧ ue_map (m ++ [ue]) = <[ue_id ue := ue]> (ue_map m).
Proof.
  intros W Hn. unfold ues_wf, ue_map. rewrite !fmap_app. split.
  - apply NoDup_app. split_and!; [done| |apply NoDup_singleton]. intros x Hx ->%list_elem_of_singleton. done.
  - rewrite list_to_map_app. cbn [fmap list_fmap]. rewrite list_to_map_cons, list_to_map_nil, insert_empty.
    apply map_eq. intros k. destruct (decide (k = ue_id ue)) as [->|Hk].
    + rewrite lookup_insert_eq, lookup_union_r, lookup_singleton_eq; [done|].
      apply not_elem_of_list_to_map_1. by rewrite ue_map_keys.
    + rewrite lookup_insert_ne, lookup_union_l by (done || by rewrite lookup_singleton_ne). done.
Qed.

(** An operation on the list and the same on the map: equal answers, states that correspond,
    and the list fails exactly when the map does. *)
Definition simulates {A} (r : outcome (A * list (nr_rlc_ue_t E)))
    (s : outcome (A * gmap Z (nr_rlc_ue_t E))) : Prop :=
  match r with
  | Ok (a, m) => ues_wf m ∧ s = Ok (a, ue_map m)
  | Fatal => s = Fatal
  | Undef => s = Undef
  | Diverge => s = Diverge
  end.

Lemma simulates_bind {A B} r s (f : A * list (nr_rlc_ue_t E) → outcome (B * list (nr_rlc_ue_t E)))
    (g : A * gmap Z (nr_rlc_ue_t E) → outcome (B * gmap Z (nr_rlc_ue_t E))) :
  simulates r s → (∀ a m, ues_wf m → simulates (f (a, m)) (g (a, ue_map m))) →
  simulates (r ≫= f) (s ≫= g).
Proof. destruct r as [[a m]| | |]; cbn; [intros [W ->] H; by apply H|by intros ->..]. Qed.

(** ** Specification: a map of UEs *)

Definition spec_ue {A} (f : nr_rlc_ue_t E → outcome (A * nr_rlc_ue_t E)) M (id : Z)
  : outcome (A * gmap Z (nr_rlc_ue_t E)) :=
  '(a, ue) ← f (default (new_ue id) (M !! id));
  Ok (a, <[ue_id ue := ue]> (delete id M)).

Definition spec_remove M (id : Z) : outcome (unit * gmap Z (nr_rlc_ue_t E)) :=
  match M !! id with
  | None => Ok (tt, M)
  | Some ue =>
      _ ← delete_entities [srb0 ue]; _ ← delete_entities (srb ue); _ ← delete_entities (drb ue);
      Ok (tt, delete id M)
  end.

(** [f] gives the UE no identity that another has. *)
Definition keeps_ids {A} (f : nr_rlc_ue_t E → outcome (A * nr_rlc_ue_t E)) M (id : Z) : Prop :=
  ∀ ue a ue', ue_id ue = id → f ue = Ok (a, ue') →
    ue_id ue' = id ∨ M !! ue_id ue' = None.

Lemma with_ue_refines {A} (f : nr_rlc_ue_t E → outcome (A * nr_rlc_ue_t E)) m id :
  ues_wf m → keeps_ids f (ue_map m) id → simulates (with_ue f m id) (spec_ue f (ue_map m) id).
Proof.
  intros W K. unfold with_ue, spec_ue, nr_rlc_manager_get_ue.
  destruct (find_ue m id) as [i|] eqn:F.
  - apply find_ue_Some in F as (ue & Hi & Hid). rewrite Hi.
    rewrite <- Hid, ue_map_lookup by (done || by eapply list_elem_of_lookup_2). cbn.
    destruct (f ue) as [[a ue']| | |] eqn:Ef; cbn; try done.
    destruct (ue_map_replace m i ue ue' W Hi) as [W' Hm]; [|split; [done|by rewrite Hm]].
    destruct (K ue a ue' Hid Ef) as [->|Hn]; [left; done|right; by apply ue_map_None].
  - apply find_ue_None in F. rewrite (proj2 (ue_map_None m id) F). cbn.
    rewrite lookup_app_r, Nat.sub_diag by lia. cbn.
    destruct (f (new_ue id)) as [[a ue']| | |] eqn:Ef; cbn; try done.
    rewrite insert_app_r_alt, Nat.sub_diag by lia. cbn.
    destruct (ue_map_app m ue' W) as [W' Hm].
    { destruct (K (new_ue id) a ue' eq_refl Ef) as [->|Hn]; [done|by apply ue_map_None]. }
    split; [done|]. rewrite Hm, delete_id by (by apply ue_map_None). done.
Qed.

Lemma remove_ue_refines m id :
  ues_wf m →
  simulates (m' ← nr_rlc_manager_remove_ue m id; Ok (tt, m')) (spec_remove (ue_map m) id).
Proof.
  intros W. unfold nr_rlc_manager_remove_ue, spec_remove.
  destruct (find_ue m id) as [i|] eqn:F.
  - apply find_ue_Some in F as (ue & Hi & Hid). rewrite Hi.
    rewrite <- Hid, ue_map_lookup by (done || by eapply list_elem_of_lookup_2).
    destruct (delete_entities [srb0 ue]) as [[]| | |]; cbn; try done.
    destruct (delete_entities (srb ue)) as [[]| | |]; cbn; try done.
    destruct (delete_entities (drb ue)) as [[]| | |]; cbn; try done.
    rewrite <- (take_drop_middle m i ue Hi) in W |- * at 3.
    revert W. generalize (take i m) (drop (S i) m). intros a b W.
    unfold ues_wf, ue_map in *. rewrite fmap_app, fmap_cons, <- Permutation_middle in W.
    apply NoDup_cons in W as [Hn W]. rewrite elem_of_app in Hn. split; [by rewrite fmap_app|].
    f_equal. f_equal. rewrite !fmap_app, fmap_cons, !list_to_map_app, list_to_map_cons.
    rewrite delete_union, delete_insert_eq.
    rewrite !delete_id; [done|apply not_elem_of_list_to_map_1; rewrite ue_map_keys; tauto..].
  - apply find_ue_None in F. rewrite (proj2 (ue_map_None m id) F). cbn. done.
Qed.

(** ** The identity of a UE changes only in [nr_rlc_update_id] *)

Lemma set_rb_id ue r e ue' : set_rb ue r e = Ok ue' → ue_id ue' = ue_id ue.
Proof. destruct r; cbn; intros H; inv_ok; by subst. Qed.

Lemma with_entity_id {A} (f : E → outcome (A * E)) none ue c a ue' :
  with_entity f none ue c = Ok (a, ue') → ue_id ue' = ue_id ue.
Proof.
  unfold with_entity. intros H. inv_ok. destruct r as [[r e]|]; [|by simplify_eq].
  inv_ok. destruct r0 as [b e']. inv_ok. simplify_eq. by eapply set_rb_id.
Qed.

Lemma data_ind_loop_id now data : ∀ ue a ue', data_ind_loop now data ue = Ok (a, ue') → ue_id ue' = ue_id ue.
Proof.
  induction data as [|d data IH]; intros ue a ue'; cbn; [intros [= _ <-]; done|]. intros H. inv_ok.
  destruct r as [[] u]. apply IH in H. apply with_entity_id in E0. congruence.
Qed.

Lemma status_ind_loop_id now chs : ∀ ue a ue', status_ind_loop now chs ue = Ok (a, ue') → ue_id ue' = ue_id ue.
Proof.
  induction chs as [|c chs IH]; intros ue a ue'; cbn; [intros [= _ <-]; done|]. intros H. inv_ok.
  destruct r as [n u]. inv_ok. destruct r as [ns u']. simplify_eq.
  apply IH in E1. apply with_entity_id in E0. congruence.
Qed.

Lemma release_ue_id c ue a ue' : release_ue c ue = Ok (a, ue') → ue_id ue' = ue_id ue.
Proof.
  unfold release_ue, release_rlc_entity_from_lcid. intros H. inv_ok. simplify_eq.
  destruct (c =? 0).
  - destruct (srb0 ue); inv_ok; by subst.
  - inv_ok. destruct r as [|i|i]; [by simplify_eq| |].
    + destruct (0 <=? i - 1); [|done]. inv_ok. destruct r; inv_ok; [by eapply set_rb_id|by subst].
    + inv_ok. destruct r; inv_ok; [by eapply set_rb_id|by subst].
Qed.

Lemma send_sdu_id now t sdu mui ue r e a ue' :
  send_sdu now t sdu mui ue r e = Ok (a, ue') → ue_id ue' = ue_id ue.
Proof. unfold send_sdu. intros H. inv_ok. simplify_eq. by eapply set_rb_id. Qed.

Lemma rlc_data_req_ue_id now t s rb mui sdu ue a ue' :
  rlc_data_req_ue now t s rb mui sdu ue = Ok (a, ue') → ue_id ue' = ue_id ue.
Proof.
  unfold rlc_data_req_ue. destruct (data_req_ref s rb); [|by intros [= _ <-]]. intros H. inv_ok.
  destruct r0; [by eapply send_sdu_id|by simplify_eq].
Qed.

Lemma srb_recv_sdu_ue_id now t c sdu ue a ue' :
  srb_recv_sdu_ue now t c sdu ue = Ok (a, ue') → ue_id ue' = ue_id ue.
Proof. unfold srb_recv_sdu_ue. intros H. inv_ok. destruct r; [by eapply send_sdu_id|done]. Qed.

Lemma add_srb_id ue i e ue' : nr_rlc_ue_add_srb_rlc_entity ue i e = Ok ue' → ue_id ue' = ue_id ue.
Proof.
  unfold nr_rlc_ue_add_srb_rlc_entity. destruct (_ || _); [done|]. destruct (i =? 0).
  - destruct (srb0 ue); [done|]. by intros [= <-].
  - intros H. inv_ok. destruct r; [done|]. inv_ok. by subst.
Qed.
Lemma add_drb_id ue i e ue' : nr_rlc_ue_add_drb_rlc_entity ue i e = Ok ue' → ue_id ue' = ue_id ue.
Proof.
  unfold nr_rlc_ue_add_drb_rlc_entity. destruct (_ || _); [done|].
  intros H. inv_ok. destruct r; [done|]. inv_ok. by subst.
Qed.

Lemma add_bearer_ue_id new lcid rb r ue a ue' :
  add_bearer_ue new lcid rb r ue = Ok (a, ue') → ue_id ue' = ue_id ue.
Proof.
  unfold add_bearer_ue. intros H. inv_ok. destruct r1; [by simplify_eq|]. inv_ok. simplify_eq.
  destruct r; (apply add_srb_id in E3 || apply add_drb_id in E3); done.
Qed.

Lemma update_id_ue_id to ue a ue' : update_id_ue to ue = Ok (a, ue') → ue_id ue' = to.
Proof.
  unfold update_id_ue. intros H. inv_ok. destruct r; [|by simplify_eq]. inv_ok. simplify_eq.
  by apply set_rb_id in E2.
Qed.

(** ** The interface *)

Inductive api :=
  | Data_ind (now id : Z) (data : list nr_rlc_data_ind_t)
  | Multi_data_req (now time_now id channel_id tb_size : Z) (buffer : bytes) (n : nat)
  | Mac_data_req (now time_now id channel_id tb_size : Z) (buffer : bytes)
  | Status_ind (now id : Z) (chs : list Z)
  | Rlc_data_req (now time_now id : Z) (srb_flag : bool) (rb_id mui : Z) (sdu : bytes)
  | Srb_recv_sdu (now time_now id channel_id : Z) (sdu : bytes)
  | Tx_space (id channel_id : Z)
  | Occupancy (id channel_id : Z)
  | Lcid_from_rb (id : Z) (is_srb : bool) (rb_id : Z)
  | Release (id channel_id : Z)
  | Reestablish (id channel_id : Z)
  | Add_bearer (new : outcome E) (id lcid : Z) (rb : nr_lcid_rb_t) (r : rb_ref)
  | Update_id (from_id to_id : Z)
  | Remove_ue (id : Z).

(** answers: numbers and the buffer, if there is one *)
Definition no_answer (r : outcome (list (nr_rlc_ue_t E)))
  : outcome (list Z * bytes * list (nr_rlc_ue_t E)) := m ← r; Ok ([], [], m).
Definition number {S} (r : outcome (Z * S)) : outcome (list Z * bytes * S) :=
  '(n, s) ← r; Ok ([n], [], s).

(** each call as the code makes it *)
Definition exec m (o : api) : outcome (list Z * bytes * list (nr_rlc_ue_t E)) :=
  match o with
  | Data_ind now id data => no_answer (nr_mac_rlc_data_ind now m id data)
  | Multi_data_req now t id c n b k => nr_mac_rlc_multi_data_req now t m id c n b k
  | Mac_data_req now t id c n b =>
      '(ret, b, m) ← nr_mac_rlc_data_req now t m id c n b; Ok ([ret], b, m)
  | Status_ind now id chs => '(l, m) ← nr_mac_rlc_status_ind now m id chs; Ok (l, [], m)
  | Rlc_data_req now t id s rb mui sdu => no_answer (nr_rlc_data_req now t m id s rb mui sdu)
  | Srb_recv_sdu now t id c sdu => no_answer (nr_rlc_srb_recv_sdu now t m id c sdu)
  | Tx_space id c => number (nr_rlc_get_available_tx_space m id c)
  | Occupancy id c => number (nr_rlc_tx_list_occupancy m id c)
  | Lcid_from_rb id s rb => number (nr_rlc_get_lcid_from_rb m id s rb)
  | Release id c => no_answer (nr_rlc_release_entity m id c)
  | Reestablish id c => no_answer (nr_rlc_reestablish_entity m id c)
  | Add_bearer new id lcid rb r => no_answer (add_bearer new m id lcid rb r)
  | Update_id from to => no_answer (nr_rlc_update_id m from to)
  | Remove_ue id => no_answer (nr_rlc_manager_remove_ue m id)
  end.

Definition no_answer_spec {A S} (r : outcome (A * S)) : outcome (list Z * bytes * S) :=
  '(_, s) ← r; Ok ([], [], s).

(** the same on a map: one UE is read and written *)
Definition spec M (o : api) : outcome (list Z * bytes * gmap Z (nr_rlc_ue_t E)) :=
  match o with
  | Data_ind now id data => no_answer_spec (spec_ue (data_ind_loop now data) M id)
  | Multi_data_req now t id c n b k => spec_ue (multi_data_req_ue now t c n b k) M id
  | Mac_data_req now t id c n b =>
      '(ret, b, M) ← spec_ue (data_req_ue now t c n b) M id; Ok ([ret], b, M)
  | Status_ind now id chs => '(l, M) ← spec_ue (status_ind_loop now chs) M id; Ok (l, [], M)
  | Rlc_data_req now t id s rb mui sdu => no_answer_spec (spec_ue (rlc_data_req_ue now t s rb mui sdu) M id)
  | Srb_recv_sdu now t id c sdu => no_answer_spec (spec_ue (srb_recv_sdu_ue now t c sdu) M id)
  | Tx_space id c => number (spec_ue (tx_space_ue c) M id)
  | Occupancy id c => number (spec_ue (occupancy_ue c) M id)
  | Lcid_from_rb id s rb => number (spec_ue (λ ue, Ok (lcid_from_rb s rb ue, ue)) M id)
  | Release id c => no_answer_spec (spec_ue (release_ue c) M id)
  | Reestablish id c => no_answer_spec (spec_ue (reestablish_ue c) M id)
  | Add_bearer new id lcid rb r => no_answer_spec (spec_ue (add_bearer_ue new lcid rb r) M id)
  | Update_id from to => no_answer_spec (spec_ue (update_id_ue to) M from)
  | Remove_ue id => no_answer_spec (spec_remove M id)
  end.

(** The new identity of a UE is not that of another. *)
Definition call_ok M (o : api) : Prop :=
  match o with Update_id from to => to = from ∨ M !! to = None | _ => True end.

Fixpoint agrees m (ops : list api) : Prop :=
  match ops with
  | [] => True
  | o :: ops =>
      call_ok (ue_map m) o →
      simulates (exec m o) (spec (ue_map m) o) ∧
      match exec m o with Ok (_, m') => agrees m' ops | _ => True end
  end.

Lemma simulates_no_answer {A} (r : outcome (A * list (nr_rlc_ue_t E))) s :
  simulates r s → simulates (no_answer ('(_, m) ← r; Ok m)) (no_answer_spec s).
Proof. destruct r as [[a m]| | |]; cbn; [intros [W ->]; done|by intros ->..]. Qed.

Lemma simulates_number (r : outcome (Z * list (nr_rlc_ue_t E))) s :
  simulates r s → simulates (number r) (number s).
Proof. destruct r as [[a m]| | |]; cbn; [intros [W ->]; done|by intros ->..]. Qed.

Lemma exec_simulates m o : ues_wf m → call_ok (ue_map m) o → simulates (exec m o) (spec (ue_map m) o).
Proof.
  intros W Hc.
  assert (∀ A (f : nr_rlc_ue_t E → outcome (A * nr_rlc_ue_t E)) id,
    (∀ ue a ue', f ue = Ok (a, ue') → ue_id ue' = ue_id ue) →
    simulates (with_ue f m id) (spec_ue f (ue_map m) id)) as K.
  { intros A f id Hf. apply with_ue_refines; [done|]. intros ue a ue' <- H. left. by eapply Hf. }
  destruct o; cbn [exec spec].
  - apply simulates_no_answer, K. intros. by eapply data_ind_loop_id.
  - apply K. intros ? [] ? H. by eapply with_entity_id.
  - eapply simulates_bind; [apply K; intros ? [] ? H; by eapply with_entity_id|]. by intros [] m'.
  - eapply simulates_bind; [apply K; intros; by eapply status_ind_loop_id|]. done.
  - apply simulates_no_answer, K. intros. by eapply rlc_data_req_ue_id.
  - apply simulates_no_answer, K. intros. by eapply srb_recv_sdu_ue_id.
  - apply simulates_number, K. intros ? ? ? H. by eapply with_entity_id.
  - apply simulates_number, K. intros ? ? ? H. by eapply with_entity_id.
  - apply simulates_number, K. intros ? ? ? [= _ <-]. done.
  - apply simulates_no_answer, K. intros. by eapply release_ue_id.
  - apply simulates_no_answer, K. intros ? ? ? H. by eapply with_entity_id.
  - apply simulates_no_answer, K. intros. by eapply add_bearer_ue_id.
  - apply simulates_no_answer, with_ue_refines; [done|]. intros ue a ue' Hid H%update_id_ue_id. subst. exact Hc.
  - pose proof (remove_ue_refines m id W) as H. unfold no_answer, no_answer_spec.
    destruct (nr_rlc_manager_remove_ue m id) as [m'| | |]; cbn in H |- *; [destruct H as [? ->]; done|by rewrite H..].
Qed.

Lemma agrees_ok ops : ∀ m, ues_wf m → agrees m ops.
Proof.
  induction ops as [|o ops IH]; intros m W; cbn [agrees]; [done|]. intros Hc.
  pose proof (exec_simulates m o W Hc) as S. split; [done|].
  destruct (exec m o) as [[a m']| | |]; [|done..]. apply IH. apply S.
Qed.

(** ** Received PDUs reach the entities of their channels *)

(** [now] and the PDUs of a sequence, given to one entity *)
Fixpoint feed (now : Z) (e : E) (pdus : list bytes) : outcome E :=
  match pdus with
  | [] => Ok e
  | p :: pdus => e ← rlc_set_time e now; e ← rlc_recv_pdu e p (zlen p); feed now e pdus
  end.

(** the tables have the sizes of the arrays and the channels are mapped to bearers there are *)
Record ue_wf ue : Prop := {
  uw_srb : length (srb ue) = 3%nat;
  uw_drb : length (drb ue) = 32%nat;
  uw_lcid : length (lcid2rb ue) = 32%nat;
  uw_map : ∀ rb, rb ∈ lcid2rb ue →
    match rb with NR_LCID_NONE => True | NR_LCID_SRB i => 1 <= i <= 3 | NR_LCID_DRB i => 1 <= i <= 32 end;
}.

(** the bearer of a channel, if it is mapped to one *)
Definition bearer ue (c : Z) : option rb_ref := match rb_of_lcid ue c with Ok r => r | _ => None end.

(** the PDUs for one bearer, in order *)
Definition pdus_for ue (r : rb_ref) (data : list nr_rlc_data_ind_t) : list bytes :=
  buf <$> filter (λ d, bearer ue (ch d) = Some r) data.

(** the entity of a bearer *)
Definition entity_of ue (r : rb_ref) : option E := match get_rb ue r with Ok e => e | _ => None end.

Definition ref_ok (r : rb_ref) : Prop :=
  match r with Ref_srb0 => True | Ref_srb i => 0 <= i < 3 | Ref_drb i => 0 <= i < 32 end.

Lemma rb_of_lcid_ok ue c : ue_wf ue → 0 <= c <= 32 →
  rb_of_lcid ue c = Ok (bearer ue c) ∧ (∀ r, bearer ue c = Some r → ref_ok r).
Proof.
  intros W Hc. unfold bearer, rb_of_lcid. destruct (Z.eqb_spec c 0); [split; [done|by intros r [= <-]]|].
  destruct (arr_get_ok (lcid2rb ue) (c - 1)) as (rb & -> & Hrb); [unfold zlen; rewrite (uw_lcid _ W); lia|].
  cbn [mbind outcome_bind]. pose proof (uw_map _ W rb) as H. apply list_elem_of_lookup_2 in Hrb.
  specialize (H Hrb). destruct rb as [|i|i].
  - done.
  - destruct (Z.ltb_spec 0 i); [|lia]. split; [done|]. intros r [= <-]. cbn. lia.
  - split; [done|]. intros r [= <-]. cbn. lia.
Qed.

Lemma get_rb_ok ue r : ue_wf ue → ref_ok r → get_rb ue r = Ok (entity_of ue r).
Proof.
  intros W Hr. unfold entity_of. destruct r as [|i|i]; cbn in *; [done| |].
  - destruct (arr_get_ok (srb ue) i) as (x & -> & _); [unfold zlen; rewrite (uw_srb _ W); lia|done].
  - destruct (arr_get_ok (drb ue) i) as (x & -> & _); [unfold zlen; rewrite (uw_drb _ W); lia|done].
Qed.

Lemma set_rb_ok ue r e :
  ue_wf ue → ref_ok r →
  ∃ ue', set_rb ue r e = Ok ue' ∧ ue_wf ue' ∧ lcid2rb ue' = lcid2rb ue ∧ ue_id ue' = ue_id ue ∧
    entity_of ue' r = e ∧ ∀ r', ref_ok r' → r' ≠ r → entity_of ue' r' = entity_of ue r'.
Proof.
  intros W Hr. destruct r as [|i|i]; cbn in *.
  - eexists. split; [done|]. split_and!; try done; [by destruct W|]. intros [] ??; done.
  - rewrite arr_set_ok by (unfold zlen; rewrite (uw_srb _ W); lia). eexists. split; [done|].
    split_and!; try done.
    + destruct W. split; cbn; try done. by rewrite length_insert.
    + unfold entity_of. cbn. unfold arr_get. destruct (Z.ltb_spec i 0); [lia|].
      rewrite list_lookup_insert_eq by (rewrite (uw_srb _ W); lia). done.
    + intros [|j|j] Hj Hne; try done. unfold entity_of. cbn in *. unfold arr_get.
      destruct (Z.ltb_spec j 0); [lia|]. rewrite list_lookup_insert_ne; [done|]. intros Hx. apply Hne. f_equal. lia.
  - rewrite arr_set_ok by (unfold zlen; rewrite (uw_drb _ W); lia). eexists. split; [done|].
    split_and!; try done.
    + destruct W. split; cbn; try done. by rewrite length_insert.
    + unfold entity_of. cbn. unfold arr_get. destruct (Z.ltb_spec i 0); [lia|].
      rewrite list_lookup_insert_eq by (rewrite (uw_drb _ W); lia). done.
    + intros [|j|j] Hj Hne; try done. unfold entity_of. cbn in *. unfold arr_get.
      destruct (Z.ltb_spec j 0); [lia|]. rewrite list_lookup_insert_ne; [done|]. intros Hx. apply Hne. f_equal. lia.
Qed.

Lemma with_entity_ok {A} (f : E → outcome (A * E)) none ue c :
  ue_wf ue → 0 <= c <= 32 →
  match bearer ue c ≫= (λ r, pair r <$> entity_of ue r) with
  | None => with_entity f none ue c = Ok (none, ue)
  | Some (r, e) =>
      ref_ok r ∧ bearer ue c = Some r ∧ entity_of ue r = Some e ∧
      ∀ a e', f e = Ok (a, e') →
        ∃ ue', with_entity f none ue c = Ok (a, ue') ∧ set_rb ue r (Some e') = Ok ue' ∧
          ue_wf ue' ∧ lcid2rb ue' = lcid2rb ue ∧ ue_id ue' = ue_id ue ∧
          entity_of ue' r = Some e' ∧ ∀ r', ref_ok r' → r' ≠ r → entity_of ue' r' = entity_of ue r'
  end.
Proof.
  intros W Hc. destruct (rb_of_lcid_ok ue c W Hc) as [Hb Hr].
  unfold with_entity, get_rlc_entity_from_lcid. rewrite Hb.
  destruct (bearer ue c) as [r|]; [|done]. specialize (Hr r eq_refl).
  cbn [mbind outcome_bind option_bind]. rewrite (get_rb_ok ue r W Hr).
  destruct (entity_of ue r) as [e|] eqn:He; [|done]. cbn [fmap option_fmap option_map mbind outcome_bind].
  split; [exact Hr|]. split; [done|]. split; [done|].
  intros a e' ->. cbn [mbind outcome_bind]. destruct (set_rb_ok ue r (Some e') W Hr) as (ue' & Es & ?).
  rewrite Es. exists ue'. done.
Qed.

Lemma data_ind_ok now data : ∀ ue,
  ue_wf ue → Forall (λ d, 0 <= ch d <= 32) data →
  (∀ r e, ref_ok r → entity_of ue r = Some e → ∃ e', feed now e (pdus_for ue r data) = Ok e') →
  ∃ ue', data_ind_loop now data ue = Ok (tt, ue') ∧ ue_wf ue' ∧ ue_id ue' = ue_id ue ∧
    lcid2rb ue' = lcid2rb ue ∧
    ∀ r, ref_ok r →
      match entity_of ue r with
      | None => entity_of ue' r = None
      | Some e => ∃ e', feed now e (pdus_for ue r data) = Ok e' ∧ entity_of ue' r = Some e'
      end.
Proof.
  induction data as [|d data IH]; intros ue W Hch Hf; cbn [data_ind_loop].
  { exists ue. split_and!; try done. intros r Hr. destruct (entity_of ue r) as [e|]; [|done]. by exists e. }
  apply Forall_cons in Hch as [Hd Hch]. unfold recv_on_channel.
  pose proof (with_entity_ok (λ e, e ← rlc_set_time e now;
    e ← rlc_recv_pdu e (buf d) (zlen (buf d)); Ok (tt, e)) tt ue (ch d) W Hd) as H.
  assert (∀ r, pdus_for ue r (d :: data) =
    (if decide (bearer ue (ch d) = Some r) then [buf d] else []) ++ pdus_for ue r data) as Hp.
  { intros r. unfold pdus_for. rewrite filter_cons. by destruct (decide _). }
  destruct (bearer ue (ch d) ≫= _) as [[r e]|] eqn:Eb.
  - destruct H as (Hr & Hbr & He & H).
    destruct (Hf r e Hr He) as (e2 & He2). rewrite Hp, decide_True in He2 by done. cbn [feed app] in He2.
    inv_ok. destruct (H tt r1) as (ue1 & -> & _ & W1 & Hl1 & Hid1 & Hr1 & Ho1).
    { rewrite E0. cbn [mbind outcome_bind]. rewrite E1. done. }
    cbn [mbind outcome_bind].
    assert (∀ r', pdus_for ue1 r' data = pdus_for ue r' data) as Hsame.
    { intros r'. unfold pdus_for, bearer, rb_of_lcid. rewrite Hl1. done. }
    destruct (IH ue1 W1 Hch) as (ue' & -> & W' & Hid' & Hl' & Hall).
    { intros r' e' Hr' He'. rewrite Hsame. destruct (decide (r' = r)) as [->|Hne].
      - rewrite Hr1 in He'. injection He' as <-. eauto.
      - rewrite Ho1 in He' by done. destruct (Hf r' e' Hr' He') as (e3 & H3).
        rewrite Hp, decide_False in H3 by congruence. eauto. }
    exists ue'. split_and!; [done|done|congruence|congruence|]. intros r' Hr'. specialize (Hall r' Hr').
    rewrite Hsame in Hall. destruct (decide (r' = r)) as [->|Hne].
    + rewrite He, Hp, decide_True by done. rewrite Hr1 in Hall. cbn [feed app]. rewrite E0. cbn [mbind outcome_bind].
      rewrite E1. exact Hall.
    + rewrite Ho1 in Hall by done. rewrite Hp, decide_False by congruence. exact Hall.
  - rewrite H. cbn [mbind outcome_bind].
    assert (∀ r e, entity_of ue r = Some e → pdus_for ue r (d :: data) = pdus_for ue r data) as Hskip.
    { intros r e He. rewrite Hp. destruct (decide _) as [Hb|]; [|done]. rewrite Hb in Eb. cbn in Eb.
      by rewrite He in Eb. }
    destruct (IH ue W Hch) as (ue' & -> & W' & Hid' & Hl' & Hall).
    { intros r e Hr He. destruct (Hf r e Hr He) as (e' & He'). rewrite (Hskip r e He) in He'. eauto. }
    exists ue'. split_and!; try done. intros r Hr. specialize (Hall r Hr).
    destruct (entity_of ue r) as [e|] eqn:He; [|done]. by rewrite (Hskip r e He).
Qed.
End Proofs.

(** The RLC manager implements a finite map from UE identities to UEs: from the empty
    manager on, over every sequence of calls of its interface by MAC, PDCP and RRC, each call
    answers and fails as the same call on the map does, in which it reads and writes the entry of
    one UE (one that is not there is created) and leaves every other as it is; identities stay
    unique. A change of identity is to one that no other UE has. *)
Theorem rlc_manager_refines {E} `{!RlcOps E} (ops : list api) : agrees (E := E) [] ops.
Proof. apply agrees_ok. apply NoDup_nil_2. Qed.


(** A UE with SRB 0 and a DRB in UM on channel 4, set up by the calls of MAC and RRC, and
    another with SRB 0. *)
Definition two_ues : outcome manager :=
  '(_, m) ← nr_rlc_activate_srb0 [] 7; '(_, m) ← nr_rlc_activate_srb0 m 8;
  nr_rlc_add_drb m 7 1 (mk_bearer 4 (NR_LCID_DRB 1) (Some (Cfg_um_bi 50 (Some 6) (Some 6)))).

(** CCCH, a whole SDU in UM, a channel without an entity, another SDU, in two segments *)
Definition some_pdus : list nr_rlc_data_ind_t :=
  [mk_data_ind 0 [1; 2; 3]; mk_data_ind 4 [0; 10; 11]; mk_data_ind 9 [4];
   mk_data_ind 4 [0x40; 12]; mk_data_ind 4 [0x80; 0; 1; 13]].

Definition delivered_to (ue : nr_rlc_ue_t rlc_entity) (r : rb_ref) : list rlc_event :=
  match entity_of ue r with
  | Some (TM e) => events (RlcTm.common e)
  | Some (UM e) => events (RlcUm.common e)
  | _ => []
  end.

Definition two : manager := match two_ues with Ok m => m | _ => [] end.
Definition ue7 : nr_rlc_ue_t rlc_entity := default (new_ue 7) (two !! 0%nat).

Definition fed (r : rb_ref) : outcome rlc_entity :=
  match entity_of ue7 r with Some e => feed 1 e (pdus_for ue7 r some_pdus) | None => Undef end.

Lemma ue7_entities r x : ref_ok r → entity_of ue7 r = Some x → r = Ref_srb0 ∨ r = Ref_drb 0.
Proof.
  destruct r as [|i|i]; cbn; intros Hr; [by left|..].
  - assert (i = 0 ∨ i = 1 ∨ i = 2) as [->|[->| ->]] by lia; discriminate.
  - assert (∃ o, drb ue7 = o :: replicate 31 None) as [o E] by (eexists; vm_compute; reflexivity).
    intros H. right. f_equal. destruct (Z.eq_dec i 0) as [|Hi]; [done|]. exfalso. revert H.
    unfold entity_of. cbn [get_rb]. unfold arr_get. destruct (Z.ltb_spec i 0); [lia|]. rewrite E.
    replace (Z.to_nat i) with (S (Z.to_nat i - 1)) by lia.
    rewrite lookup_cons_ne_0 by done. cbn [Nat.pred]. rewrite lookup_replicate_2 by lia. discriminate.
Qed.

