(* ===== verification/MacPdu.v ===== *)
(** * MAC PDUs of the downlink

    Models what the gNB does to build the MAC PDU of a new downlink transport block (control
    elements, RLC PDUs, padding: [gNB_scheduler_dlsch.c]) and what the UE does to take it apart
    ([nr_ue_procedures.c]), with the formats of [nr_mac.h]. RLC is reached through the manager.

    A MAC PDU is a sequence of subPDUs. Each begins with an octet whose low six bits are the
    logical channel or the kind of control element; a length of one or two octets follows
    where it is not known from the kind. *)

From S2P Require Import Prelude RlcTypes RlcManager.

(** ** Formats *)

(** GCC lays out bit fields from the least significant bit: fields with their widths *)
Fixpoint pack (fields : list (Z * Z)) : Z :=
  match fields with
  | [] => 0
  | (v, w) :: fields => v mod 2 ^ w + 2 ^ w * pack fields
  end.

(** the field of width [w] at bit [off] *)
Definition field (x off w : Z) : Z := Z.land (Z.shiftr x off) (2 ^ w - 1).

Definition DL_SCH_LCID_CCCH : Z := 0.
Definition DL_SCH_LCID_RECOMMENDED_BITRATE : Z := 0x2F.
Definition DL_SCH_LCID_SP_ZP_CSI_RS_RES_SET_ACT : Z := 0x30.
Definition DL_SCH_LCID_PUCCH_SPATIAL_RELATION_ACT : Z := 0x31.
Definition DL_SCH_LCID_SP_SRS_ACTIVATION : Z := 0x32.
Definition DL_SCH_LCID_SP_CSI_REP_PUCCH_ACT : Z := 0x33.
Definition DL_SCH_LCID_TCI_STATE_IND_UE_SPEC_PDCCH : Z := 0x34.
Definition DL_SCH_LCID_TCI_STATE_ACT_UE_SPEC_PDSCH : Z := 0x35.
Definition DL_SCH_LCID_APERIODIC_CSI_TRI_STATE_SUBSEL : Z := 0x36.
Definition DL_SCH_LCID_SP_CSI_RS_CSI_IM_RES_SET_ACT : Z := 0x37.
Definition DL_SCH_LCID_DUPLICATION_ACT : Z := 0x38.
Definition DL_SCH_LCID_SCell_ACT_4_OCT : Z := 0x39.
Definition DL_SCH_LCID_SCell_ACT_1_OCT : Z := 0x3A.
Definition DL_SCH_LCID_L_DRX : Z := 0x3B.
Definition DL_SCH_LCID_DRX : Z := 0x3C.
Definition DL_SCH_LCID_TA_COMMAND : Z := 0x3D.
Definition DL_SCH_LCID_CON_RES_ID : Z := 0x3E.
Definition DL_SCH_LCID_PADDING : Z := 0x3F.

Definition NR_MAC_SUBHEADER_FIXED (lcid : Z) : bytes := [pack [(lcid, 6); (0, 2)]].
Definition NR_MAC_SUBHEADER_SHORT (lcid len : Z) : bytes :=
  [pack [(lcid, 6); (0, 1); (0, 1)]; len mod 256].
(** the length in network byte order *)
Definition NR_MAC_SUBHEADER_LONG (lcid len : Z) : bytes :=
  [pack [(lcid, 6); (1, 1); (0, 1)]; (len / 256) mod 256; len mod 256].

(** Writes the octets at the pointer and moves the pointer. *)
Definition put (octets : bytes) (c : bytes * Z) : outcome (bytes * Z) :=
  buf ← buf_write c.1 c.2 octets; Ok (buf, c.2 + zlen octets).

(** ** Control elements of the gNB *)

Record tciStateInd_t := mk_tci_ind { ti_scheduled : bool; coresetId : Z; tciStateId : Z }.
Record SPCSIReportingpucch_t := mk_sp_csi {
  sp_scheduled : bool; sp_servingCellId : Z; sp_bwpId : Z; s0tos3_actDeact : list bool }.
(** [pdschTciStatesActDeact_t] and [aperiodicCSI_triggerStateSelection_t] *)
Record states_sel_t := mk_states {
  st_scheduled : bool; st_servingCellId : Z; st_bwpId : Z; st_highest : Z; st_states : list bool }.
Record sp_zp_csirs_t := mk_zp {
  zp_scheduled : bool; zp_act_deact : bool; zp_serv_cell_id : Z; zp_bwpid : Z; zp_rsc_id : Z }.
Record csi_rs_im_t := mk_csi_im {
  im_scheduled : bool; im_act_deact : bool; im_serv_cellid : Z; im_bwp_id : Z; im_im : bool;
  im_csi_im_rsc_id : Z; im_nzp_csi_rsc_id : Z; im_tci_states : list Z (** the first [nb_tci_resource_set_id] *) }.

(** what the scheduler keeps for a UE: the part of [NR_UE_sched_ctrl_t] used here *)
Record ce_ctrl := mk_ce_ctrl {
  ta_apply : bool;
  ta_update : Z;
  ta_frame : Z;
  tci_state_ind : tciStateInd_t;
  SP_CSI_reporting_pucch : SPCSIReportingpucch_t;
  pdsch_TCI_States_ActDeact : states_sel_t;
  aperi_CSI_trigger : states_sel_t;
  sp_zp_csi_rs : sp_zp_csirs_t;
  csi_im : csi_rs_im_t;
}.
#[export] Instance eta_ce_ctrl : Eta ce_ctrl := λ r,
  mk_ce_ctrl (ta_apply r) (ta_update r) (ta_frame r) (tci_state_ind r) (SP_CSI_reporting_pucch r)
    (pdsch_TCI_States_ActDeact r) (aperi_CSI_trigger r) (sp_zp_csi_rs r) (csi_im r).
#[export] Instance set_ta_apply : Setter ta_apply := ltac:(derive_setter).
#[export] Instance set_ta_update : Setter ta_update := ltac:(derive_setter).
#[export] Instance set_ta_frame : Setter ta_frame := ltac:(derive_setter).
#[export] Instance set_tci_ind : Setter tci_state_ind := ltac:(derive_setter).

(** the octets of a bit map of [n] octets; states beyond the array are undefined *)
Fixpoint state_octets (n : nat) (states : list bool) : outcome bytes :=
  match n with
  | O => Ok []
  | S n =>
      if (length states <? 8)%nat then Undef
      else
        rest ← state_octets n (drop 8 states);
        Ok (pack ((λ b, (Z.b2z b, 1)) <$> take 8 states) :: rest)
  end.

(** TCI state activation and aperiodic CSI trigger: bit maps up to the highest state *)
Definition put_states (lcid : Z) (s : states_sel_t) (c : bytes * Z) : outcome (bytes * Z) :=
  let num_octects := u8 (st_highest s / 8 + 1) in
  c ← put (NR_MAC_SUBHEADER_SHORT lcid (1 + num_octects)) c;
  t ← state_octets (Z.to_nat num_octects) (st_states s);
  put (pack [(st_bwpId s, 2); (st_servingCellId s, 5); (0, 1)] :: t) c.

Definition put_csi_im (s : csi_rs_im_t) (c : bytes * Z) : outcome (bytes * Z) :=
  c ← put (NR_MAC_SUBHEADER_FIXED DL_SCH_LCID_SP_CSI_RS_CSI_IM_RES_SET_ACT) c;
  c ← put ([pack [(im_bwp_id s, 2); (im_serv_cellid s, 5); (Z.b2z (im_act_deact s), 1)];
            pack [(im_nzp_csi_rsc_id s, 6); (Z.b2z (im_im s), 1); (0, 1)]]
           ++ (if im_im s then [pack [(im_csi_im_rsc_id s, 6); (0, 2)]] else [])) c;
  if im_act_deact s then put ((λ t, pack [(t, 6); (0, 2)]) <$> im_tci_states s) c else Ok c.

(** [stale] is the bit R1 of the SP CSI element, which the code leaves uninitialised. *)
Definition nr_write_ce_dlsch_pdu (tag_id : Z) (u : ce_ctrl) (mac_pdu : bytes) (drx_cmd : Z)
    (ue_cont_res_id : option bytes) (stale : Z) : outcome (bytes * Z) :=
  let c := (mac_pdu, 0) in
  c ← (if negb (drx_cmd =? 255) then put (NR_MAC_SUBHEADER_FIXED DL_SCH_LCID_DRX) c else Ok c);
  c ← (if ta_apply u then
         c ← put (NR_MAC_SUBHEADER_FIXED DL_SCH_LCID_TA_COMMAND) c;
         _ ← assert_fatal (ta_update u <? 64);
         put [pack [(ta_update u, 6); (tag_id, 2)]] c
       else Ok c);
  c ← (match ue_cont_res_id with
       | Some cont_res =>
           c ← put (NR_MAC_SUBHEADER_FIXED DL_SCH_LCID_CON_RES_ID) c;
           ce ← buf_sub cont_res 0 6; put ce c
       | None => Ok c
       end);
  c ← (let t := tci_state_ind u in
       if ti_scheduled t then
         c ← put (NR_MAC_SUBHEADER_FIXED DL_SCH_LCID_TCI_STATE_IND_UE_SPEC_PDCCH) c;
         put [pack [(Z.shiftr (Z.land (coresetId t) 15) 1, 3); (0, 5)];
              pack [(Z.land (tciStateId t) 127, 7); (Z.land (coresetId t) 1, 1)]] c
       else Ok c);
  c ← (let s := SP_CSI_reporting_pucch u in
       if sp_scheduled s then
         c ← put (NR_MAC_SUBHEADER_FIXED DL_SCH_LCID_SP_CSI_REP_PUCCH_ACT) c;
         s0 ← arr_get (s0tos3_actDeact s) 0; s1 ← arr_get (s0tos3_actDeact s) 1;
         s2 ← arr_get (s0tos3_actDeact s) 2; s3 ← arr_get (s0tos3_actDeact s) 3;
         put [pack [(sp_bwpId s, 2); (sp_servingCellId s, 5); (stale, 1)];
              pack [(Z.b2z s0, 1); (Z.b2z s1, 1); (Z.b2z s2, 1); (Z.b2z s3, 1); (0, 4)]] c
       else Ok c);
  c ← (if st_scheduled (pdsch_TCI_States_ActDeact u)
       then put_states DL_SCH_LCID_TCI_STATE_ACT_UE_SPEC_PDSCH (pdsch_TCI_States_ActDeact u) c
       else Ok c);
  c ← (if st_scheduled (aperi_CSI_trigger u)
       then put_states DL_SCH_LCID_APERIODIC_CSI_TRI_STATE_SUBSEL (aperi_CSI_trigger u) c
       else Ok c);
  c ← (let z := sp_zp_csi_rs u in
       if zp_scheduled z then
         c ← put (NR_MAC_SUBHEADER_FIXED DL_SCH_LCID_SP_ZP_CSI_RS_RES_SET_ACT) c;
         put [pack [(zp_bwpid z, 2); (zp_serv_cell_id z, 5); (Z.b2z (zp_act_deact z), 1)];
              pack [(zp_rsc_id z, 4); (0, 4)]] c
       else Ok c);
  if im_scheduled (csi_im u) then put_csi_im (csi_im u) c else Ok c.

(** ** The PDU of a new transport block *)

Definition MAX_NUM_DATA_REQ : nat := 1024.
Definition NR_MAX_NUM_LCID : Z := 32.
Definition MAX_FRAME_NUMBER : Z := 1024.

(** Subheaders in front of the RLC PDUs of a channel, for which three octets each were left. *)
Fixpoint write_headers (lcid : Z) (sizes : list Z) (c : bytes * Z) : outcome (bytes * Z) :=
  match sizes with
  | [] => Ok c
  | n :: sizes =>
      buf ← buf_write c.1 c.2 (NR_MAC_SUBHEADER_LONG lcid n);
      write_headers lcid sizes (buf, c.2 + n + 3)
  end.

Section Build.
Context {E : Type} `{!RlcOps E}.

(** over the channels of the UE; [lcid_alloc] is what the allocation policy gave to each *)
Fixpoint dl_channels (now time_now rnti : Z) (lcid_alloc lcids : list Z) (bufEnd : Z)
    (m : list (nr_rlc_ue_t E)) (c : bytes * Z) : outcome (bytes * Z * list (nr_rlc_ue_t E)) :=
  match lcids with
  | [] => Ok (c, m)
  | lcid :: lcids =>
      a ← arr_get lcid_alloc lcid;
      if a =? 0 then dl_channels now time_now rnti lcid_alloc lcids bufEnd m c
      else
        '(sizes, rest, m) ← nr_mac_rlc_multi_data_req now time_now m rnti lcid (bufEnd - c.2)
                              (drop (Z.to_nat c.2) c.1) MAX_NUM_DATA_REQ;
        let buf := take (Z.to_nat c.2) c.1 ++ rest in
        c ← write_headers lcid sizes (buf, c.2);
        dl_channels now time_now rnti lcid_alloc lcids bufEnd m c
  end.

(** a header for padding and zeros up to the end *)
Definition put_padding (lcid bufEnd : Z) (c : bytes * Z) : outcome bytes :=
  if 0 <? bufEnd - c.2
  then buf_write c.1 c.2 (NR_MAC_SUBHEADER_FIXED lcid ++ replicate (Z.to_nat (bufEnd - c.2 - 1)) 0)
  else Ok c.1.

(** The branch "initial transmission" of [generate_dl_mac_pdu]. [buf] is the buffer of the HARQ
    process with room for TBS octets, [lcids] the channels of the UE, [noise] the random
    numbers of the tests of the physical layer. *)
Definition generate_dl_mac_pdu (now time_now tag_id rnti frame stale : Z) (phy_test : bool)
    (noise : Z → Z) (dl_lcid_alloc : Z → list Z) (num_total_bytes : Z) (lcids : list Z)
    (u : ce_ctrl) (m : list (nr_rlc_ue_t E)) (TBS : Z) (buf : bytes)
  : outcome (bytes * ce_ctrl * list (nr_rlc_ue_t E)) :=
  '(buf, written) ← nr_write_ce_dlsch_pdu tag_id u buf 255 None stale;
  _ ← assert_fatal (written <? TBS);
  '(c, m) ← (if 0 <? num_total_bytes
             then dl_channels now time_now rnti (dl_lcid_alloc (TBS - written)) lcids TBS m (buf, written)
             else if phy_test && (3 <? TBS - written) then
               c ← put (NR_MAC_SUBHEADER_LONG DL_SCH_LCID_PADDING (TBS - (written + 3))) (buf, written);
               c ← put (noise <$> seqZ (written + 3) (TBS - (written + 3))) c;
               Ok (c, m)
             else Ok ((buf, written), m));
  buf ← put_padding DL_SCH_LCID_PADDING TBS c;
  let u := u <| tci_state_ind := mk_tci_ind false (coresetId (tci_state_ind u)) (tciStateId (tci_state_ind u)) |> in
  let u := if ta_apply u
           then u <| ta_apply := false |> <| ta_update := 31 |>
                  <| ta_frame := cmod (frame + 100) MAX_FRAME_NUMBER |>
           else u in
  Ok (buf, u, m).
End Build.
