(* ===== verification/MacPduUe.v ===== *)
(** * MAC PDUs of the downlink at the UE

    Models [nr_ue_process_mac_pdu] of [nr_ue_procedures.c] from its loop over the subPDUs on (the
    response of the two-step random access that may come first is not modelled), with
    [get_mac_len] of [nr_mac.h] and the two ends of contention resolution of
    [nr_ra_procedures.c]. The memory [mem] begins with the PDU and may go on after it: what the
    code reads beyond [pdu_len] is what follows in memory, what it reads beyond the memory is
    undefined. *)

From S2P Require Import Prelude RlcTypes RlcManager MacPdu.

(** [get_mac_len]: success, length and size of the subheader. The last two keep the values
    given, those of the caller, where the code does not set them. *)
Definition get_mac_len (mem : bytes) (p pdu_len mac_ce_len mac_subheader_len : Z)
  : outcome (bool * Z * Z) :=
  if pdu_len <? 2 then Ok (false, mac_ce_len, mac_subheader_len)
  else
    h ← buf_get mem p;
    let F := field h 6 1 in
    if (F =? 1) && (pdu_len <? 3) then Ok (false, mac_ce_len, mac_subheader_len)
    else if F =? 1 then
      a ← buf_get mem (p + 1); b ← buf_get mem (p + 2);
      let len := a * 256 + b in Ok (negb (pdu_len <? len), len, 3)
    else
      len ← buf_get mem (p + 1); Ok (negb (pdu_len <? len), len, 2).

(** ** State and effects of the UE *)

Inductive nrRA_UE_state_t :=
  | nrRA_UE_IDLE | nrRA_GENERATE_PREAMBLE | nrRA_WAIT_RAR | nrRA_WAIT_MSGB
  | nrRA_WAIT_CONTENTION_RESOLUTION | nrRA_SUCCEEDED | nrRA_FAILED.

#[export] Instance ra_state_eq_dec : EqDecision nrRA_UE_state_t.
Proof. solve_decision. Defined.

(** [nr_lcordered_info_t], the part used here *)
Record lc_info := mk_lc { lcid : Z; rb_suspended : bool }.

Record ue_mac := mk_ue_mac {
  tag_Id : Z;
  ra_state : nrRA_UE_state_t;
  RA_active : bool;
  cfra : bool;
  cont_res_id : bytes;
  crnti : Z;
  t_crnti : Z;
  msg3_C_RNTI : bool;
  preamble_tx_counter : Z;
  preambleTransMax : Z;
  lc_ordered_list : list lc_info;
}.
#[export] Instance eta_ue_mac : Eta ue_mac := λ r,
  mk_ue_mac (tag_Id r) (ra_state r) (RA_active r) (cfra r) (cont_res_id r) (crnti r) (t_crnti r)
    (msg3_C_RNTI r) (preamble_tx_counter r) (preambleTransMax r) (lc_ordered_list r).
#[export] Instance set_ra_state : Setter ra_state := ltac:(derive_setter).
#[export] Instance set_RA_active : Setter RA_active := ltac:(derive_setter).
#[export] Instance set_crnti : Setter crnti := ltac:(derive_setter).
#[export] Instance set_t_crnti : Setter t_crnti := ltac:(derive_setter).
#[export] Instance set_msg3_C_RNTI : Setter msg3_C_RNTI := ltac:(derive_setter).
#[export] Instance set_preamble_tx_counter : Setter preamble_tx_counter := ltac:(derive_setter).

(** calls to the physical layer, to RRC and to timers *)
Inductive ue_event :=
  | Time_alignment (ta : Z)          (** [set_time_alignment] *)
  | Contention_timer_stop
  | Ra_ind (success : bool)          (** [nr_mac_rrc_ra_ind] *)
  | Msg3_ind                         (** [nr_mac_rrc_msg3_ind] *)
  | Backoff.                         (** [nr_ra_backoff_setting] *)

Definition nr_ra_succeeded (ue : ue_mac) : ue_mac * list ue_event :=
  let '(ue, ev) :=
    if cfra ue then (ue, [])
    else
      let ue := if msg3_C_RNTI ue then ue else ue <| crnti := t_crnti ue |> in
      (ue <| t_crnti := 0 |>, [Contention_timer_stop]) in
  (ue <| RA_active := false |> <| msg3_C_RNTI := false |> <| ra_state := nrRA_SUCCEEDED |>,
   ev ++ [Ra_ind true]).

Definition nr_ra_contention_resolution_failed (ue : ue_mac) : ue_mac * list ue_event :=
  let ue := ue <| t_crnti := 0 |> in
  let ev := if msg3_C_RNTI ue then [] else [Msg3_ind] in
  let ue := ue <| preamble_tx_counter := u8 (preamble_tx_counter ue + 1) |> in
  (ue, ev ++ [if preamble_tx_counter ue =? preambleTransMax ue + 1 then Ra_ind false else Backoff]).

(** compares six octets, up to the first that differs *)
Fixpoint check_ra_contention_resolution (mem : bytes) (p : Z) (cont_res : bytes) : outcome bool :=
  match cont_res with
  | [] => Ok true
  | b :: cont_res =>
      a ← buf_get mem p;
      if negb (a =? b) then Ok false else check_ra_contention_resolution mem (p + 1) cont_res
  end.

(** A channel that is not in the list is not suspended. *)
Definition is_lcid_suspended (ue : ue_mac) (id : Z) : bool :=
  match list_find (λ l, lcid l = id) (lc_ordered_list ue) with
  | Some (_, l) => rb_suspended l
  | None => false
  end.

(** Are the [n] octets at [p] all zero? Reading stops at the first that is not. *)
Fixpoint all_zero (mem : bytes) (p : Z) (n : nat) : outcome bool :=
  match n with
  | O => Ok true
  | S n => a ← buf_get mem p; if negb (a =? 0) then Ok false else all_zero mem (p + 1) n
  end.

(** ** The loop *)

Definition MAX_NUM_DATA_IND : Z := 1024.

(** Appends to [data_ind], then [DevAssert(num_data_ind < MAX_NUM_DATA_IND)]. *)
Definition add_ind (mem : bytes) (p len c : Z) (data_ind : list nr_rlc_data_ind_t)
  : outcome (list nr_rlc_data_ind_t) :=
  sdu ← buf_sub mem p len;
  let data_ind := data_ind ++ [mk_data_ind c sdu] in
  _ ← assert_fatal (zlen data_ind <? MAX_NUM_DATA_IND);
  Ok data_ind.

(** the length of control elements that the UE only skips *)
Definition fixed_ce_len (rx_lcid : Z) : option Z :=
  if rx_lcid =? DL_SCH_LCID_RECOMMENDED_BITRATE then Some 2
  else if rx_lcid =? DL_SCH_LCID_SP_ZP_CSI_RS_RES_SET_ACT then Some 2
  else if rx_lcid =? DL_SCH_LCID_PUCCH_SPATIAL_RELATION_ACT then Some 3
  else if rx_lcid =? DL_SCH_LCID_SP_CSI_REP_PUCCH_ACT then Some 2
  else if rx_lcid =? DL_SCH_LCID_TCI_STATE_IND_UE_SPEC_PDCCH then Some 2
  else if rx_lcid =? DL_SCH_LCID_DUPLICATION_ACT then Some 1
  else if rx_lcid =? DL_SCH_LCID_SCell_ACT_4_OCT then Some 4
  else if rx_lcid =? DL_SCH_LCID_SCell_ACT_1_OCT then Some 1
  else if rx_lcid =? DL_SCH_LCID_L_DRX then Some 0
  else if rx_lcid =? DL_SCH_LCID_DRX then Some 0
  else None.

Definition var_ce (rx_lcid : Z) : bool :=
  (rx_lcid =? DL_SCH_LCID_TCI_STATE_ACT_UE_SPEC_PDSCH)
  || (rx_lcid =? DL_SCH_LCID_APERIODIC_CSI_TRI_STATE_SUBSEL)
  || (rx_lcid =? DL_SCH_LCID_SP_CSI_RS_CSI_IM_RES_SET_ACT)
  || (rx_lcid =? DL_SCH_LCID_SP_SRS_ACTIVATION).

(** what a subPDU leads to: go on behind it, stop after it, or return at once *)
Inductive verdict := Next | Done | Return.

(** what one round of the loop changes *)
Record rx_state := mk_rx {
  rx_ue : ue_mac;
  rx_events : list ue_event;
  rx_data : list nr_rlc_data_ind_t;
}.

(** the cases CCCH and 1 to 32 of the switch; the lengths are needed after it *)
Definition ccch_sdu (mem : bytes) (p pdu_len : Z) (s : rx_state)
  : outcome (verdict * Z * Z * rx_state) :=
  '(ret, mac_len, sub) ← get_mac_len mem p pdu_len 0 1;
  if negb ret then Ok (Done, mac_len, sub, s)
  else
    zero ← all_zero mem p (Z.to_nat (sub + mac_len));
    if (zero : bool) then Ok (Done, mac_len, sub, s)
    else if 0 <? mac_len then
      d ← add_ind mem (p + sub) mac_len DL_SCH_LCID_CCCH (rx_data s);
      Ok (Next, mac_len, sub, mk_rx (rx_ue s) (rx_events s) d)
    else Ok (Next, mac_len, sub, s).

Definition channel_sdu (mem : bytes) (p pdu_len rx_lcid : Z) (s : rx_state)
  : outcome (verdict * Z * Z * rx_state) :=
  '(ret, mac_len, sub) ← get_mac_len mem p pdu_len 0 1;
  if negb ret then Ok (Done, mac_len, sub, s)
  else if is_lcid_suspended (rx_ue s) rx_lcid then Ok (Next, mac_len, sub, s)
  else
    d ← add_ind mem (p + sub) mac_len rx_lcid (rx_data s);
    Ok (Next, mac_len, sub, mk_rx (rx_ue s) (rx_events s) d).

Definition ta_command (mem : bytes) (p : Z) (s : rx_state) : outcome (verdict * Z * Z * rx_state) :=
  ce ← buf_get mem (p + 1);
  if negb (field ce 6 2 =? tag_Id (rx_ue s)) then Ok (Done, 1, 1, s)
  else Ok (Next, 1, 1, mk_rx (rx_ue s) (rx_events s ++ [Time_alignment (field ce 0 6)]) (rx_data s)).

Definition con_res_id (mem : bytes) (p : Z) (s : rx_state) : outcome (verdict * Z * Z * rx_state) :=
  let ue := rx_ue s in
  if decide (ra_state ue = nrRA_WAIT_CONTENTION_RESOLUTION) then
    ra_success ← check_ra_contention_resolution mem (p + 1) (cont_res_id ue);
    let ev := rx_events s ++ [Contention_timer_stop] in
    if RA_active ue && (ra_success : bool) then
      let '(ue, ev') := nr_ra_succeeded ue in Ok (Next, 6, 1, mk_rx ue (ev ++ ev') (rx_data s))
    else if negb ra_success then
      let '(ue, ev') := nr_ra_contention_resolution_failed ue in
      Ok (Return, 6, 1, mk_rx ue (ev ++ ev') (rx_data s))
    else Ok (Next, 6, 1, mk_rx ue ev (rx_data s))
  else Ok (Next, 6, 1, s).

(** one subPDU at [p] *)
Definition sub_pdu (mem : bytes) (p pdu_len : Z) (s : rx_state)
  : outcome (verdict * Z * Z * rx_state) :=
  h ← buf_get mem p;
  let rx_lcid := field h 0 6 in
  if rx_lcid =? DL_SCH_LCID_CCCH then ccch_sdu mem p pdu_len s
  else if var_ce rx_lcid then
    '(_, mac_len, sub) ← get_mac_len mem p pdu_len 0 1; Ok (Next, mac_len, sub, s)
  else if rx_lcid =? DL_SCH_LCID_TA_COMMAND then ta_command mem p s
  else if rx_lcid =? DL_SCH_LCID_CON_RES_ID then con_res_id mem p s
  else if rx_lcid =? DL_SCH_LCID_PADDING then Ok (Done, 0, 1, s)
  else if (1 <=? rx_lcid) && (rx_lcid <=? 32) then channel_sdu mem p pdu_len rx_lcid s
  else Ok (Next, default 0 (fixed_ce_len rx_lcid), 1, s).

(** The loop over the subPDUs; [true] if the function returned from within it. *)
Fixpoint sub_pdus (fuel : nat) (mem : bytes) (p pdu_len : Z) (s : rx_state) : outcome (bool * rx_state) :=
  if negb (0 <? pdu_len) then Ok (false, s)
  else match fuel with
  | O => Diverge
  | S fuel =>
      '(v, mac_len, sub, s) ← sub_pdu mem p pdu_len s;
      match v with
      | Return => Ok (true, s)
      | Done => Ok (false, s)
      | Next => sub_pdus fuel mem (p + (sub + mac_len)) (pdu_len - (sub + mac_len)) s
      end
  end.

Section Process.
Context {E : Type} `{!RlcOps E}.

(** After the loop the RLC PDUs go to RLC. *)
Definition nr_ue_process_mac_pdu (now ue_id : Z) (m : list (nr_rlc_ue_t E)) (ue : ue_mac)
    (mem : bytes) (pdu_len : Z) : outcome (ue_mac * list ue_event * list (nr_rlc_ue_t E)) :=
  '(returned, s) ← sub_pdus (Z.to_nat pdu_len) mem 0 pdu_len (mk_rx ue [] []);
  if (returned : bool) then Ok (rx_ue s, rx_events s, m)
  else m ← nr_mac_rlc_data_ind now m ue_id (rx_data s); Ok (rx_ue s, rx_events s, m).
End Process.
