(* ===== verification/MacPduProofs.v ===== *)
(** * Theorems about the MAC PDUs of the downlink

    The gNB's PDU is a sequence of subPDUs that the UE takes apart again. *)

From stdpp Require Import gmap.
From S2P Require Import Prelude RlcTypes RlcManager RlcManagerProofs MacPdu MacPduUe.

(** ** Bit fields *)

Lemma field_eq x off w : 0 <= off → 0 <= w → field x off w = (x / 2 ^ off) mod 2 ^ w.
Proof.
  intros Ho Hw. unfold field. replace (2 ^ w - 1) with (Z.ones w) by (rewrite Z.ones_equiv; lia).
  by rewrite Z.land_ones, Z.shiftr_div_pow2.
Qed.

(** the first field, and the others behind it *)
Lemma field_first v w fields : 0 <= w → field (pack ((v, w) :: fields)) 0 w = v mod 2 ^ w.
Proof.
  intros Hw. rewrite field_eq by lia. cbn [pack]. rewrite Z.pow_0_r, Z.div_1_r.
  rewrite Z.mul_comm, Z.mod_add by (apply Z.pow_nonzero; lia). apply Z.mod_mod, Z.pow_nonzero; lia.
Qed.

Lemma field_next v w fields off n :
  0 <= w → 0 <= off → 0 <= n → field (pack ((v, w) :: fields)) (w + off) n = field (pack fields) off n.
Proof.
  intros Hw Ho Hn. rewrite !field_eq by lia. cbn [pack]. f_equal.
  rewrite Z.pow_add_r, <- Z.div_div by (try apply Z.pow_nonzero; lia). f_equal.
  rewrite Z.mul_comm, Z.div_add by (apply Z.pow_nonzero; lia).
  rewrite (Z.div_small (v mod _)) by (apply Z.mod_pos_bound; lia). lia.
Qed.

(** what the receiver finds in a subheader *)
Lemma fixed_lcid id : 0 <= id < 64 → NR_MAC_SUBHEADER_FIXED id = [id].
Proof.
  intros H. unfold NR_MAC_SUBHEADER_FIXED. cbn [pack]. rewrite (Z.mod_small id) by lia.
  f_equal. change (2 ^ 6 * _) with 0. lia.
Qed.
Lemma fixed_field id : 0 <= id < 64 → field id 0 6 = id.
Proof. intros H. rewrite field_eq by lia. rewrite Z.div_1_r. apply Z.mod_small. lia. Qed.

Lemma long_fields id : 0 <= id < 64 →
  field (pack [(id, 6); (1, 1); (0, 1)]) 0 6 = id ∧ field (pack [(id, 6); (1, 1); (0, 1)]) 6 1 = 1.
Proof.
  intros H. split; [rewrite field_first by lia; apply Z.mod_small; lia|].
  change 6 with (6 + 0) at 2. rewrite field_next by lia. done.
Qed.
Lemma short_fields id : 0 <= id < 64 →
  field (pack [(id, 6); (0, 1); (0, 1)]) 0 6 = id ∧ field (pack [(id, 6); (0, 1); (0, 1)]) 6 1 = 0.
Proof.
  intros H. split; [rewrite field_first by lia; apply Z.mod_small; lia|].
  change 6 with (6 + 0) at 2. rewrite field_next by lia. done.
Qed.

(** ** Writing

    A cursor behind [pre], in a buffer that was [buf0]. *)

Definition cursor (pre buf0 : bytes) : bytes * Z := (pre ++ drop (length pre) buf0, zlen pre).

Lemma zlen_cursor pre buf0 : zlen pre <= zlen buf0 → zlen (cursor pre buf0).1 = zlen buf0.
Proof. unfold cursor, zlen. cbn. rewrite length_app, length_drop. lia. Qed.

Lemma put_ok octets pre buf0 :
  zlen pre + zlen octets <= zlen buf0 → put octets (cursor pre buf0) = Ok (cursor (pre ++ octets) buf0).
Proof.
  intros H. pose proof (zlen_nonneg octets). pose proof (zlen_nonneg pre). unfold put.
  rewrite buf_write_ok by (try rewrite zlen_cursor; cbn; lia). unfold cursor. cbn [mbind outcome_bind fst snd].
  rewrite zlen_app. do 2 f_equal. unfold zlen.
  rewrite Nat2Z.id, take_app_length, <- app_assoc. do 2 f_equal.
  replace (Z.to_nat _) with (length pre + length octets)%nat by lia.
  by rewrite length_app, drop_app_add, drop_drop.
Qed.

Lemma cursor_nil buf0 : cursor [] buf0 = (buf0, 0).
Proof. done. Qed.

(** ** Control elements *)

Definition opt (b : bool) (l : bytes) : bytes := if b then l else [].

Definition bits8 (l : list bool) : Z := pack ((λ b, (Z.b2z b, 1)) <$> l).
Fixpoint octets_of (n : nat) (states : list bool) : bytes :=
  match n with O => [] | S n => bits8 (take 8 states) :: octets_of n (drop 8 states) end.

Lemma state_octets_ok n : ∀ states, (8 * n <= length states)%nat → state_octets n states = Ok (octets_of n states).
Proof.
  induction n as [|n IH]; intros states H; cbn [state_octets octets_of]; [done|].
  destruct (Nat.ltb_spec (length states) 8); [lia|]. rewrite IH by (rewrite length_drop; lia). done.
Qed.
Lemma length_octets_of n states : length (octets_of n states) = n.
Proof. revert states. induction n as [|n IH]; intros; cbn; [done|]. by rewrite IH. Qed.

Definition states_ce (id : Z) (s : states_sel_t) : bytes :=
  let n := st_highest s / 8 + 1 in
  NR_MAC_SUBHEADER_SHORT id (1 + n)
  ++ pack [(st_bwpId s, 2); (st_servingCellId s, 5); (0, 1)] :: octets_of (Z.to_nat n) (st_states s).

Definition states_ok (s : states_sel_t) : Prop := 0 <= st_highest s < 128 ∧ length (st_states s) = 128%nat.

Definition csi_im_ce (s : csi_rs_im_t) : bytes :=
  NR_MAC_SUBHEADER_FIXED DL_SCH_LCID_SP_CSI_RS_CSI_IM_RES_SET_ACT
  ++ ([pack [(im_bwp_id s, 2); (im_serv_cellid s, 5); (Z.b2z (im_act_deact s), 1)];
       pack [(im_nzp_csi_rsc_id s, 6); (Z.b2z (im_im s), 1); (0, 1)]]
      ++ (if im_im s then [pack [(im_csi_im_rsc_id s, 6); (0, 2)]] else []))
  ++ opt (im_act_deact s) ((λ t, pack [(t, 6); (0, 2)]) <$> im_tci_states s).

Definition ta_ce (tag_id ta : Z) : bytes :=
  NR_MAC_SUBHEADER_FIXED DL_SCH_LCID_TA_COMMAND ++ [pack [(ta, 6); (tag_id, 2)]].
Definition tci_ce (t : tciStateInd_t) : bytes :=
  NR_MAC_SUBHEADER_FIXED DL_SCH_LCID_TCI_STATE_IND_UE_SPEC_PDCCH
  ++ [pack [(Z.shiftr (Z.land (coresetId t) 15) 1, 3); (0, 5)];
      pack [(Z.land (tciStateId t) 127, 7); (Z.land (coresetId t) 1, 1)]].
Definition sp_csi_ce (s : SPCSIReportingpucch_t) (stale : Z) : bytes :=
  NR_MAC_SUBHEADER_FIXED DL_SCH_LCID_SP_CSI_REP_PUCCH_ACT
  ++ [pack [(sp_bwpId s, 2); (sp_servingCellId s, 5); (stale, 1)];
      match s0tos3_actDeact s with
      | s0 :: s1 :: s2 :: s3 :: _ => pack [(Z.b2z s0, 1); (Z.b2z s1, 1); (Z.b2z s2, 1); (Z.b2z s3, 1); (0, 4)]
      | _ => 0
      end].
Definition zp_ce (z : sp_zp_csirs_t) : bytes :=
  NR_MAC_SUBHEADER_FIXED DL_SCH_LCID_SP_ZP_CSI_RS_RES_SET_ACT
  ++ [pack [(zp_bwpid z, 2); (zp_serv_cell_id z, 5); (Z.b2z (zp_act_deact z), 1)];
      pack [(zp_rsc_id z, 4); (0, 4)]].

(** the control elements that are scheduled, in the order of the code *)
Definition ce_list (tag_id : Z) (u : ce_ctrl) (stale : Z) : list bytes :=
  [opt (ta_apply u) (ta_ce tag_id (ta_update u));
   opt (ti_scheduled (tci_state_ind u)) (tci_ce (tci_state_ind u));
   opt (sp_scheduled (SP_CSI_reporting_pucch u)) (sp_csi_ce (SP_CSI_reporting_pucch u) stale);
   opt (st_scheduled (pdsch_TCI_States_ActDeact u))
     (states_ce DL_SCH_LCID_TCI_STATE_ACT_UE_SPEC_PDSCH (pdsch_TCI_States_ActDeact u));
   opt (st_scheduled (aperi_CSI_trigger u))
     (states_ce DL_SCH_LCID_APERIODIC_CSI_TRI_STATE_SUBSEL (aperi_CSI_trigger u));
   opt (zp_scheduled (sp_zp_csi_rs u)) (zp_ce (sp_zp_csi_rs u));
   opt (im_scheduled (csi_im u)) (csi_im_ce (csi_im u))].
Definition ce_octets (tag_id : Z) (u : ce_ctrl) (stale : Z) : bytes := concat (ce_list tag_id u stale).

(** the arrays have their sizes and indices are within them *)
Record ce_ok (u : ce_ctrl) : Prop := {
  co_ta : ta_apply u = true → 0 <= ta_update u < 64;
  co_sp : length (s0tos3_actDeact (SP_CSI_reporting_pucch u)) = 4%nat;
  co_tci : states_ok (pdsch_TCI_States_ActDeact u);
  co_ap : states_ok (aperi_CSI_trigger u);
}.

Lemma put_states_ok id s pre buf0 :
  states_ok s → zlen pre + zlen (states_ce id s) <= zlen buf0 →
  put_states id s (cursor pre buf0) = Ok (cursor (pre ++ states_ce id s) buf0).
Proof.
  intros [Hh Hl] Hz. unfold put_states, states_ce in *.
  assert (0 <= st_highest s / 8 < 16) by (split; [apply Z.div_pos; lia|apply Z.div_lt_upper_bound; lia]).
  unfold u8. rewrite (Z.mod_small (_ + 1)) by lia. rewrite zlen_app in Hz.
  pose proof (zlen_nonneg (pack [(st_bwpId s, 2); (st_servingCellId s, 5); (0, 1)]
    :: octets_of (Z.to_nat (st_highest s / 8 + 1)) (st_states s))).
  rewrite put_ok by lia. cbn [mbind outcome_bind].
  rewrite state_octets_ok by (rewrite Hl; lia). cbn [mbind outcome_bind].
  rewrite put_ok by (rewrite zlen_app; lia). by rewrite <- app_assoc.
Qed.

Lemma put_csi_im_ok s pre buf0 :
  zlen pre + zlen (csi_im_ce s) <= zlen buf0 →
  put_csi_im s (cursor pre buf0) = Ok (cursor (pre ++ csi_im_ce s) buf0).
Proof.
  intros Hz. unfold put_csi_im, csi_im_ce in *. rewrite !zlen_app in Hz.
  set (a := NR_MAC_SUBHEADER_FIXED _) in *. set (b := pack _ :: _) in *. set (c := if im_im s then _ else _) in *.
  pose proof (zlen_nonneg b). pose proof (zlen_nonneg c).
  pose proof (zlen_nonneg (opt (im_act_deact s) ((λ t, pack [(t, 6); (0, 2)]) <$> im_tci_states s))).
  rewrite put_ok by lia. cbn [mbind outcome_bind]. rewrite put_ok by (rewrite !zlen_app; lia). cbn [mbind outcome_bind].
  unfold opt in *. destruct (im_act_deact s).
  - rewrite put_ok by (rewrite !zlen_app; lia). by rewrite <- !app_assoc.
  - by rewrite app_nil_r, <- !app_assoc.
Qed.

Lemma opt_step (b : bool) (f : outcome (bytes * Z)) l pre buf0 :
  (b = true → zlen pre + zlen l <= zlen buf0 → f = Ok (cursor (pre ++ l) buf0)) →
  zlen pre + zlen (opt b l) <= zlen buf0 →
  (if b then f else Ok (cursor pre buf0)) = Ok (cursor (pre ++ opt b l) buf0).
Proof. destruct b; cbn; [auto|]. intros _ _. by rewrite app_nil_r. Qed.

(** two writes in a row *)
Lemma put_twice a b pre buf0 :
  zlen pre + zlen (a ++ b) <= zlen buf0 →
  (c ← put a (cursor pre buf0); put b c) = Ok (cursor (pre ++ a ++ b) buf0).
Proof.
  intros H. rewrite zlen_app in H. pose proof (zlen_nonneg b).
  rewrite put_ok by lia. cbn [mbind outcome_bind]. rewrite put_ok by (rewrite zlen_app; lia). by rewrite <- app_assoc.
Qed.

Lemma write_ce_ok tag_id u buf stale :
  ce_ok u → zlen (ce_octets tag_id u stale) <= zlen buf →
  nr_write_ce_dlsch_pdu tag_id u buf 255 None stale = Ok (cursor (ce_octets tag_id u stale) buf).
Proof.
  intros [Hta Hsp Htci Hap]. unfold nr_write_ce_dlsch_pdu, ce_octets, ce_list. cbn [concat].
  rewrite !zlen_app, zlen_nil. rewrite <- (cursor_nil buf).
  repeat match goal with |- context [zlen (opt ?b ?l)] =>
    lazymatch goal with H : 0 <= zlen (opt b l) |- _ => fail | _ => pose proof (zlen_nonneg (opt b l)) end end.
  intros Hz. cbn [negb Z.eqb Pos.eqb mbind outcome_bind].
  rewrite (opt_step (ta_apply u) _ (ta_ce tag_id (ta_update u))); cycle 1.
  { intros Hb Hl. rewrite (proj2 (Z.ltb_lt _ 64)) by (by apply Hta). unfold ta_ce in *. rewrite <- put_twice by done. done. }
  { rewrite zlen_nil. lia. }
  cbn [mbind outcome_bind].
  rewrite (opt_step _ _ (tci_ce (tci_state_ind u))); cycle 1.
  { intros Hb Hl. unfold tci_ce in *. apply put_twice. done. }
  { rewrite !zlen_app, zlen_nil. lia. }
  cbn [mbind outcome_bind].
  rewrite (opt_step _ _ (sp_csi_ce (SP_CSI_reporting_pucch u) stale)); cycle 1.
  { intros Hb Hl. unfold sp_csi_ce in *.
    destruct (s0tos3_actDeact (SP_CSI_reporting_pucch u)) as [|s0 [|s1 [|s2 [|s3 []]]]]; try done.
    cbn [arr_get Z.ltb Z.compare Z.to_nat lookup list_lookup Pos.to_nat]. rewrite <- put_twice by done. done. }
  { rewrite !zlen_app, zlen_nil. lia. }
  cbn [mbind outcome_bind].
  rewrite (opt_step _ _ (states_ce DL_SCH_LCID_TCI_STATE_ACT_UE_SPEC_PDSCH (pdsch_TCI_States_ActDeact u))); cycle 1.
  { intros Hb Hl. by apply put_states_ok. }
  { rewrite !zlen_app, zlen_nil. lia. }
  cbn [mbind outcome_bind].
  rewrite (opt_step _ _ (states_ce DL_SCH_LCID_APERIODIC_CSI_TRI_STATE_SUBSEL (aperi_CSI_trigger u))); cycle 1.
  { intros Hb Hl. by apply put_states_ok. }
  { rewrite !zlen_app, zlen_nil. lia. }
  cbn [mbind outcome_bind].
  rewrite (opt_step _ _ (zp_ce (sp_zp_csi_rs u))); cycle 1.
  { intros Hb Hl. unfold zp_ce in *. apply put_twice. done. }
  { rewrite !zlen_app, zlen_nil. lia. }
  cbn [mbind outcome_bind].
  rewrite (opt_step _ _ (csi_im_ce (csi_im u))); cycle 1.
  { intros Hb Hl. by apply put_csi_im_ok. }
  { rewrite !zlen_app, zlen_nil. lia. }
  cbn [app]. rewrite <- !app_assoc, app_nil_r. done.
Qed.

(** ** RLC PDUs

    What MAC relies on: with its clock set, an entity that is in order fills a grant with at most
    one PDU that fits, touches nothing of the buffer behind it, and stays in order. The length
    field of MAC has 16 bits. *)

Class RlcTx (E : Type) `{!RlcOps E} := {
  rlc_ok : E → Prop;
  rlc_set_time_ok now e : rlc_ok e → ∃ e', rlc_set_time e now = Ok e' ∧ rlc_ok e';
  rlc_generate_ok t e buffer size :
    rlc_ok e → 0 <= size <= zlen buffer → Forall is_byte buffer →
    ∃ pdu e', rlc_generate_pdu t e buffer size = Ok (zlen pdu, pdu ++ drop (length pdu) buffer, e') ∧
      zlen pdu <= size ∧ zlen pdu < 65536 ∧ rlc_ok e';
}.

Definition sdu_octets (lcid : Z) (pdu : bytes) : bytes := NR_MAC_SUBHEADER_LONG lcid (zlen pdu) ++ pdu.

Lemma zlen_sdu_octets lcid p : zlen (sdu_octets lcid p) = 3 + zlen p.
Proof. unfold sdu_octets. by rewrite zlen_app. Qed.

(** the buffer with the PDUs written, three octets left before each *)
Fixpoint gaps (pdus : list bytes) (buffer : bytes) : bytes :=
  match pdus with
  | [] => buffer
  | p :: pdus => take 3 buffer ++ p ++ gaps pdus (drop (3 + length p) buffer)
  end.

Definition pdu_sizes_ok (pdus : list bytes) : Prop := Forall (λ p, 0 < zlen p < 65536) pdus.
Definition room (pdus : list bytes) : Z := sumZ (λ p, 3 + zlen p) pdus.

Lemma write_headers_ok lcid pdus : ∀ pre buf0,
  zlen pre + room pdus <= zlen buf0 →
  write_headers lcid (zlen <$> pdus) (pre ++ gaps pdus (drop (length pre) buf0), zlen pre)
  = Ok (cursor (pre ++ concat (sdu_octets lcid <$> pdus)) buf0).
Proof.
  induction pdus as [|p pdus IH]; intros pre buf0 Hr; cbn [fmap list_fmap write_headers gaps concat].
  { by rewrite app_nil_r. }
  unfold room in Hr. rewrite sumZ_cons in Hr. fold (room pdus) in Hr.
  pose proof (zlen_nonneg p). pose proof (zlen_nonneg pre).
  assert (0 <= room pdus) by (apply sumZ_nonneg; intros q _; pose proof (zlen_nonneg q); lia).
  assert (length (take 3 (drop (length pre) buf0)) = 3%nat) as H3.
  { unfold zlen in *. rewrite length_take, length_drop. lia. }
  rewrite buf_write_ok; cbn [fst snd].
  2: done. 2: { rewrite !zlen_app. assert (zlen (take 3 (drop (length pre) buf0)) = 3) as -> by (unfold zlen; lia).
    change (zlen (NR_MAC_SUBHEADER_LONG lcid (zlen p))) with 3. pose proof (zlen_nonneg (gaps pdus (drop (3 + length p) (drop (length pre) buf0)))). lia. }
  cbn [mbind outcome_bind].
  specialize (IH (pre ++ sdu_octets lcid p) buf0).
  rewrite zlen_app, zlen_sdu_octets in IH. change (zlen (NR_MAC_SUBHEADER_LONG lcid (zlen p))) with 3.
  match goal with |- write_headers _ _ (?b, ?n) = _ => match type of IH with _ → write_headers _ _ (?b', ?n') = _ =>
    replace b with b'; [replace n with n' by lia; rewrite IH by lia; by rewrite <- app_assoc|] end end.
  unfold zlen. rewrite Nat2Z.id, take_app_length, <- !app_assoc. f_equal. unfold sdu_octets. rewrite <- app_assoc. f_equal.
  replace (Z.to_nat (Z.of_nat (length pre) + 3)) with (length pre + 3)%nat by lia.
  rewrite drop_app_add, drop_app_length' by done. f_equal. f_equal.
  rewrite drop_drop. f_equal. rewrite !length_app. cbn. lia.
Qed.

Section Channels.
Context {E : Type} `{!RlcOps E, !RlcTx E}.
Implicit Types (ue : nr_rlc_ue_t E) (m : list (nr_rlc_ue_t E)).

(** The PDUs are what the entity generated, one for each grant, in order. *)
Inductive serves (t : Z) : E → list bytes → E → Prop :=
  | serves_end e : serves t e [] e
  | serves_none e buffer size e' :
      rlc_generate_pdu t e buffer size = Ok (0, buffer, e') → serves t e [] e'
  | serves_pdu e buffer size pdu rest e' pdus e'' :
      rlc_generate_pdu t e buffer size = Ok (zlen pdu, pdu ++ rest, e') → 0 < zlen pdu <= size →
      serves t e' pdus e'' → serves t e (pdu :: pdus) e''.

Lemma multi_pdus_ok t n : ∀ e tb buffer,
  rlc_ok e → tb <= zlen buffer → Forall is_byte buffer →
  ∃ pdus e', multi_pdus t n e tb buffer = Ok (zlen <$> pdus, gaps pdus buffer, e') ∧ serves t e pdus e' ∧
    rlc_ok e' ∧ pdu_sizes_ok pdus ∧ (length pdus <= n)%nat ∧ (pdus = [] ∨ room pdus <= tb).
Proof.
  induction n as [|n IH]; intros e tb buffer He Htb HF; cbn [multi_pdus].
  { exists [], e. split_and!; try done; [constructor|constructor|by left]. }
  destruct (Z.ltb_spec 0 (tb - 3)); cbn [negb].
  2: { exists [], e. split_and!; try done; [constructor|constructor|cbn; lia|by left]. }
  destruct (rlc_generate_ok t e (drop 3 buffer) (tb - 3) He) as (pdu & e1 & Hg & Hsz & H16 & He1).
  { unfold zlen in *. rewrite length_drop. lia. } { by apply Forall_drop. }
  rewrite Hg. cbn [mbind outcome_bind]. pose proof (zlen_nonneg pdu).
  destruct (Z.eqb_spec (zlen pdu) 0) as [Hp0|Hp0].
  - assert (pdu = []) as -> by (destruct pdu; [done|rewrite zlen_cons in Hp0; pose proof (zlen_nonneg pdu); lia]).
    change (@zlen Z []) with 0 in Hg. change ([] ++ drop (length []) (drop 3 buffer)) with (drop 3 buffer) in Hg |- *.
    rewrite take_drop. exists [], e1.
    split_and!; try done; [by eapply serves_none|constructor|cbn; lia|by left].
  - assert (length (take 3 buffer) = 3%nat) as H3 by (unfold zlen in *; rewrite length_take; lia).
    assert (drop (Z.to_nat (3 + zlen pdu)) (take 3 buffer ++ pdu ++ drop (length pdu) (drop 3 buffer))
      = drop (3 + length pdu) buffer) as ->.
    { replace (Z.to_nat (3 + zlen pdu)) with (length (take 3 buffer) + length pdu)%nat by (unfold zlen; lia).
      rewrite drop_app_add, drop_app_length, drop_drop. done. }
    destruct (IH e1 (tb - (3 + zlen pdu)) (drop (3 + length pdu) buffer) He1) as (pdus & e2 & -> & Hs & He2 & Hok & Hl & Hroom).
    { unfold zlen in *. rewrite length_drop. lia. } { by apply Forall_drop. }
    cbn [mbind outcome_bind]. exists (pdu :: pdus), e2. split_and!; try done.
    + do 2 f_equal. cbn [gaps fmap list_fmap]. f_equal.
      replace (Z.to_nat (3 + zlen pdu)) with (length (take 3 buffer ++ pdu)) by (rewrite length_app; unfold zlen; lia).
      by rewrite app_assoc, take_app_length, <- app_assoc.
    + eapply serves_pdu; [exact Hg|lia|exact Hs].
    + constructor; [lia|done].
    + cbn. lia.
    + right. unfold room in *. rewrite sumZ_cons. destruct Hroom as [->|Hroom]; [rewrite sumZ_nil; lia|lia].
Qed.

(** the entity of a channel and where it is kept *)
Definition channel ue (c : Z) : option (rb_ref * E) := bearer ue c ≫= (λ r, pair r <$> entity_of ue r).

(** One channel is served: nothing is sent on one without an entity. *)
Definition channel_serves (now t : Z) ue (c : Z) (pdus : list bytes) (ue' : nr_rlc_ue_t E) : Prop :=
  match channel ue c with
  | None => pdus = [] ∧ ue' = ue
  | Some (r, e) => ∃ e1 e', rlc_set_time e now = Ok e1 ∧ serves t e1 pdus e' ∧ set_rb ue r (Some e') = Ok ue'
  end.

(** The channels of a UE are served in order, but for those to which nothing is allocated. *)
Inductive channels_serve (now t : Z) (alloc : list Z) : list Z → nr_rlc_ue_t E → list (Z * bytes) → nr_rlc_ue_t E → Prop :=
  | cs_nil ue : channels_serve now t alloc [] ue [] ue
  | cs_skip c cs ue sent ue' :
      alloc !! Z.to_nat c = Some 0 → channels_serve now t alloc cs ue sent ue' →
      channels_serve now t alloc (c :: cs) ue sent ue'
  | cs_serve c cs ue pdus ue1 sent ue' a :
      alloc !! Z.to_nat c = Some a → a ≠ 0 → channel_serves now t ue c pdus ue1 →
      channels_serve now t alloc cs ue1 sent ue' →
      channels_serve now t alloc (c :: cs) ue ((pair c <$> pdus) ++ sent) ue'.

(** the UE is in the manager and its entities are in order *)
Record ue_ready (id : Z) m ue : Prop := {
  ur_wf : ues_wf m;
  ur_ue : ue_map m !! id = Some ue;
  ur_tables : ue_wf ue;
  ur_ok : ∀ r e, ref_ok r → entity_of ue r = Some e → rlc_ok e;
}.

Lemma with_ue_ok {A} (f : nr_rlc_ue_t E → outcome (A * nr_rlc_ue_t E)) m id ue a ue' :
  ues_wf m → ue_map m !! id = Some ue → f ue = Ok (a, ue') → ue_id ue' = id →
  ∃ m', with_ue f m id = Ok (a, m') ∧ ues_wf m' ∧ ue_map m' = <[id := ue']> (ue_map m).
Proof.
  intros W Hue Hf Hid. unfold with_ue, nr_rlc_manager_get_ue.
  destruct (find_ue m id) as [i|] eqn:F.
  - apply find_ue_Some in F as (u & Hi & Hu). rewrite Hi.
    pose proof (ue_map_lookup m u W (list_elem_of_lookup_2 _ _ _ Hi)) as Hu2. rewrite Hu, Hue in Hu2.
    injection Hu2 as ->. rewrite Hf. cbn [mbind outcome_bind]. eexists. split; [done|].
    destruct (ue_map_replace m i u ue' W Hi) as [W' Hm]; [left; congruence|]. split; [done|].
    rewrite Hm, Hid, Hu, insert_delete_eq. done.
  - apply find_ue_None, ue_map_None in F. congruence.
Qed.

Lemma ue_ready_step id m ue m' ue' :
  ue_ready id m ue → ues_wf m' → ue_map m' = <[id := ue']> (ue_map m) → ue_wf ue' →
  (∀ r e, ref_ok r → entity_of ue' r = Some e → rlc_ok e) → ue_ready id m' ue'.
Proof. intros R W' Hm Wu Hok. split; [done|by rewrite Hm, lookup_insert_eq|done|done]. Qed.

Lemma multi_data_req_ok now t m id ue c tb buffer :
  ue_ready id m ue → 0 <= c <= 32 → tb <= zlen buffer → Forall is_byte buffer →
  ∃ pdus m' ue', nr_mac_rlc_multi_data_req now t m id c tb buffer MAX_NUM_DATA_REQ
      = Ok (zlen <$> pdus, gaps pdus buffer, m') ∧
    ue_ready id m' ue' ∧ ue_map m' = <[id := ue']> (ue_map m) ∧ channel_serves now t ue c pdus ue' ∧
    pdu_sizes_ok pdus ∧ (length pdus <= MAX_NUM_DATA_REQ)%nat ∧ (pdus = [] ∨ room pdus <= tb).
Proof.
  intros R Hc Htb HF. pose proof (ur_tables _ _ _ R) as Wu.
  pose proof (ue_map_lookup_inv _ _ _ (ur_ue _ _ _ R)) as [_ Hid].
  pose proof (with_entity_ok (λ e, e ← rlc_set_time e now; multi_pdus t MAX_NUM_DATA_REQ e tb buffer)
    ([], buffer) ue c Wu Hc) as H.
  unfold nr_mac_rlc_multi_data_req, channel_serves, channel. destruct (bearer ue c ≫= _) as [[r e]|] eqn:Eb.
  - destruct H as (Hr & _ & He & H).
    destruct (rlc_set_time_ok now e) as (e1 & Ht & He1); [by eapply (ur_ok _ _ _ R)|].
    destruct (multi_pdus_ok t MAX_NUM_DATA_REQ e1 tb buffer He1 Htb HF) as (pdus & e2 & Hm & Hs & He2 & Hok & Hl & Hroom).
    destruct (H (zlen <$> pdus, gaps pdus buffer) e2) as (ue' & Hw & Hset & Wu' & Hl' & Hid' & Hr' & Ho).
    { rewrite Ht. exact Hm. }
    destruct (with_ue_ok (multi_data_req_ue now t c tb buffer MAX_NUM_DATA_REQ) m id ue _ ue'
      (ur_wf _ _ _ R) (ur_ue _ _ _ R) Hw) as (m' & -> & W' & Hm'); [congruence|].
    exists pdus, m', ue'. split_and!; try done.
    + apply (ue_ready_step id m ue); try done. intros r' x Hr2 Hx. destruct (decide (r' = r)) as [->|Hne].
      * rewrite Hr' in Hx. injection Hx as <-. done.
      * rewrite Ho in Hx by done. by eapply (ur_ok _ _ _ R).
    + exists e1, e2. done.
  - destruct (with_ue_ok (multi_data_req_ue now t c tb buffer MAX_NUM_DATA_REQ) m id ue _ ue
      (ur_wf _ _ _ R) (ur_ue _ _ _ R) H Hid) as (m' & -> & W' & Hm').
    exists [], m', ue. split_and!; try done; [|constructor|cbn; lia|by left].
    apply (ue_ready_step id m ue); try done. intros. by eapply (ur_ok _ _ _ R).
Qed.

Definition sent_octets (sent : list (Z * bytes)) : bytes := concat ((λ '(c, p), sdu_octets c p) <$> sent).
Definition sent_ok (sent : list (Z * bytes)) : Prop := Forall (λ x, 1 <= x.1 <= 32 ∧ 0 < zlen x.2 < 65536) sent.

Lemma sent_octets_app a b : sent_octets (a ++ b) = sent_octets a ++ sent_octets b.
Proof. unfold sent_octets. by rewrite fmap_app, concat_app. Qed.
Lemma sent_octets_channel c pdus : sent_octets (pair c <$> pdus) = concat (sdu_octets c <$> pdus).
Proof. unfold sent_octets. rewrite <- list_fmap_compose. done. Qed.
Lemma room_octets c pdus : zlen (concat (sdu_octets c <$> pdus)) = room pdus.
Proof.
  unfold room. induction pdus as [|p pdus IH]; [done|]. cbn [fmap list_fmap concat].
  rewrite zlen_app, zlen_sdu_octets, IH, sumZ_cons. done.
Qed.

Lemma dl_channels_ok now t id alloc bufEnd lcids : ∀ m ue pre buf0,
  ue_ready id m ue → Forall (λ c, 1 <= c < 32) lcids → length alloc = 32%nat →
  zlen pre <= bufEnd <= zlen buf0 → Forall is_byte buf0 →
  ∃ sent m' ue', dl_channels now t id alloc lcids bufEnd m (cursor pre buf0)
      = Ok (cursor (pre ++ sent_octets sent) buf0, m') ∧
    ue_ready id m' ue' ∧ ue_map m' = <[id := ue']> (ue_map m) ∧
    channels_serve now t alloc lcids ue sent ue' ∧ sent_ok sent ∧ zlen (pre ++ sent_octets sent) <= bufEnd.
Proof.
  induction lcids as [|c cs IH]; intros m ue pre buf0 R Hcs Ha Hpre HF; cbn [dl_channels].
  { exists [], m, ue. rewrite app_nil_r. split_and!; try done; [|constructor|constructor|lia].
    by rewrite insert_id by apply R. }
  apply Forall_cons in Hcs as [Hc Hcs].
  destruct (arr_get_ok alloc c) as (a & -> & Hac); [unfold zlen; lia|]. cbn [mbind outcome_bind].
  destruct (Z.eqb_spec a 0) as [->|Ha0].
  { destruct (IH m ue pre buf0 R Hcs Ha Hpre HF) as (sent & m' & ue' & ? & ? & ? & ? & ?).
    exists sent, m', ue'. split_and!; try done; [|tauto..]. by apply cs_skip. }
  cbn [cursor fst snd].
  destruct (multi_data_req_ok now t m id ue c (bufEnd - zlen pre) (drop (length pre) buf0) R) as
    (pdus & m1 & ue1 & Hreq & R1 & Hm1 & Hcs1 & Hok & Hl & Hroom); [lia| |by apply Forall_drop|].
  { unfold zlen in *. rewrite length_drop. lia. }
  assert (drop (Z.to_nat (zlen pre)) (pre ++ drop (length pre) buf0) = drop (length pre) buf0) as ->.
  { unfold zlen. by rewrite Nat2Z.id, drop_app_length. }
  rewrite Hreq. cbn [mbind outcome_bind].
  assert (take (Z.to_nat (zlen pre)) (pre ++ drop (length pre) buf0) = pre) as ->.
  { unfold zlen. by rewrite Nat2Z.id, take_app_length. }
  assert (zlen pre + room pdus <= bufEnd) as Hfit.
  { destruct Hroom as [->|?]; [unfold room; rewrite sumZ_nil; lia|lia]. }
  rewrite write_headers_ok by lia. cbn [mbind outcome_bind].
  destruct (IH m1 ue1 (pre ++ concat (sdu_octets c <$> pdus)) buf0 R1 Hcs Ha) as
    (sent & m2 & ue2 & Hd & R2 & Hm2 & Hcs2 & Hok2 & Hz2); [|done|].
  { rewrite zlen_app, room_octets. lia. }
  rewrite <- sent_octets_channel, <- app_assoc, <- sent_octets_app in Hd, Hz2.
  exists ((pair c <$> pdus) ++ sent), m2, ue2. rewrite <- sent_octets_channel. split_and!; try done.
  - by rewrite Hm2, Hm1, insert_insert_eq.
  - by eapply cs_serve.
  - apply Forall_app. split; [|done]. apply Forall_fmap. eapply Forall_impl; [exact Hok|]. cbn. lia.
Qed.
End Channels.
