(* ===== verification/MacWalk.v ===== *)
(** * Walking over the subPDUs of a MAC PDU

    What the loops of UE and gNB over a MAC PDU have in common: [takes enc g] says that wherever
    the octets [enc] are found, the loop takes them as whole subPDUs, changes its state by [g]
    and goes on behind them. Parts are decoded one by one and put together. *)

From S2P Require Import Prelude.

(** a failure, whatever the type of the result *)
Definition as_failure {A B} (r : outcome A) : outcome B :=
  match r with Ok _ => Diverge | Fatal => Fatal | Undef => Undef | Diverge => Diverge end.

Section Walk.
(** the loop, with fuel, the memory, the offset and the number of octets left, and a condition
    on its state that the parts keep *)
Context {S R : Type} (loop : nat → bytes → Z → Z → S → outcome R) (inv : S → Prop).

Definition takes (enc : bytes) (g : S → outcome S) : Prop :=
  ∀ pre rest fuel len s, inv s → zlen enc <= len → (Z.to_nat len <= fuel)%nat →
    match g s with
    | Ok s' => inv s' ∧ ∃ fuel', (Z.to_nat (len - zlen enc) <= fuel')%nat ∧
        loop fuel (pre ++ enc ++ rest) (zlen pre) len s
        = loop fuel' (pre ++ enc ++ rest) (zlen pre + zlen enc) (len - zlen enc) s'
    | r => loop fuel (pre ++ enc ++ rest) (zlen pre) len s = as_failure r
    end.

Lemma takes_nil : takes [] Ok.
Proof. intros pre rest fuel len s Hi _ Hf. split; [done|]. exists fuel. rewrite zlen_nil, Z.add_0_r, Z.sub_0_r. done. Qed.

Lemma takes_app a b f g : takes a f → takes b g → takes (a ++ b) (λ s, s' ← f s; g s').
Proof.
  intros Ha Hb pre rest fuel len s Hi Hl Hf. rewrite zlen_app in *.
  pose proof (zlen_nonneg a). pose proof (zlen_nonneg b).
  specialize (Ha pre (b ++ rest) fuel len s Hi ltac:(lia) Hf). rewrite <- app_assoc.
  destruct (f s) as [s1| | |]; cbn [mbind outcome_bind] in *; [|exact Ha..].
  destruct Ha as (Hi1 & fuel1 & Hf1 & ->).
  specialize (Hb (pre ++ a) rest fuel1 (len - zlen a) s1 Hi1 ltac:(lia) Hf1).
  rewrite zlen_app, <- !app_assoc in Hb. destruct (g s1) as [s2| | |]; [|exact Hb..].
  destruct Hb as (Hi2 & fuel2 & Hf2 & ->). split; [done|]. exists fuel2. rewrite Z.sub_add_distr, Z.add_assoc. split; [lia|done].
Qed.

Lemma takes_ext enc f g : (∀ s, f s = g s) → takes enc f → takes enc g.
Proof. intros H D pre rest fuel len s Hi Hl Hf. rewrite <- H. by apply D. Qed.

Lemma takes_opt (b : bool) enc g : takes enc g → takes (if b then enc else []) (λ s, if b then g s else Ok s).
Proof. intros H. destruct b; [exact H|exact takes_nil]. Qed.

(** one subPDU, if the loop is [step] followed by itself *)
Lemma takes_one enc g :
  1 <= zlen enc → (∀ s s', inv s → g s = Ok s' → inv s') →
  (∀ pre rest fuel len s, inv s → zlen enc <= len →
    loop (Datatypes.S fuel) (pre ++ enc ++ rest) (zlen pre) len s
    = match g s with
      | Ok s' => loop fuel (pre ++ enc ++ rest) (zlen pre + zlen enc) (len - zlen enc) s'
      | r => as_failure r
      end) →
  takes enc g.
Proof.
  intros Hpos Hu Hs pre rest fuel len s Hi Hl Hf.
  assert (∃ n, fuel = Datatypes.S n) as [n ->] by (exists (pred fuel); lia). rewrite Hs by done.
  specialize (Hu s). destruct (g s) as [s'| | |]; [|done..].
  split; [by apply Hu|]. exists n. split; [lia|done].
Qed.
End Walk.

(** ** Octets behind a prefix *)

Lemma buf_get_behind (pre l : bytes) k x : l !! Z.to_nat k = Some x → 0 <= k → buf_get (pre ++ l) (zlen pre + k) = Ok x.
Proof.
  intros Hx Hk. apply buf_get_lookup; [|pose proof (zlen_nonneg pre); lia].
  unfold zlen. replace (Z.to_nat (Z.of_nat (length pre) + k)) with (length pre + Z.to_nat k)%nat by lia.
  rewrite lookup_app_r by lia. by replace (length pre + Z.to_nat k - length pre)%nat with (Z.to_nat k) by lia.
Qed.
Lemma buf_get_at (pre l : bytes) x : buf_get (pre ++ x :: l) (zlen pre) = Ok x.
Proof. rewrite <- (Z.add_0_r (zlen pre)). by apply buf_get_behind. Qed.
