(* ===== verification/RlcMac.v ===== *)
(** * RLC entities as MAC uses them

    TM entities and UM entities with 6-bit sequence numbers satisfy what the theorems on MAC PDUs
    assume of RLC. (A UM entity with 12-bit numbers loses an SDU on a grant of two octets, see
    um_grant_loses_sdu.) *)

From S2P Require Import Prelude Bits RlcPdu TimeStat RlcSdu RlcTypes RlcReassemble.
From S2P Require Import RlcManager RlcManagerProofs RlcEntities MacPduProofs.
From S2P Require RlcTm RlcUmRx RlcUmTx RlcUmLink.
From S2P Require Import RlcUm.

(** ** The encoder writes only up to where it is *)

Definition tail_kept (k : Z) (b b' : bytes) : Prop :=
  zlen b' = zlen b ∧ ∀ j, k < j → drop (Z.to_nat j) b' = drop (Z.to_nat j) b.

Lemma tail_kept_trans k k' b b1 b2 : k <= k' → tail_kept k b b1 → tail_kept k' b1 b2 → tail_kept k' b b2.
Proof. intros Hk [H1 T1] [H2 T2]. split; [congruence|]. intros j Hj. rewrite T2, T1 by lia. done. Qed.

Lemma buf_set_tail b i v b' : buf_set b i v = Ok b' → 0 <= i ∧ tail_kept i b b'.
Proof.
  unfold buf_set. destruct (Z.leb_spec 0 i), (Z.ltb_spec i (zlen b)); cbn; try done. intros [= <-].
  split; [done|]. split; [unfold zlen; by rewrite length_insert|].
  intros j Hj. apply drop_insert_lt. lia.
Qed.

(** what an encoder did, from [enc] to [enc'] *)
Definition enc_step (enc enc' : nr_rlc_pdu_encoder_t) : Prop :=
  0 <= e_byte enc → e_byte enc <= e_byte enc' ∧ tail_kept (e_byte enc') (e_buffer enc) (e_buffer enc').

Lemma enc_step_refl enc : enc_step enc enc.
Proof. intros H. split; [lia|]. by split. Qed.
Lemma enc_step_trans a b c : enc_step a b → enc_step b c → enc_step a c.
Proof.
  intros Hab Hbc H. destruct (Hab H) as [H1 T1]. destruct Hbc as [H2 T2]; [lia|].
  split; [lia|]. by eapply tail_kept_trans.
Qed.

Lemma put_bit_step enc b enc' : put_bit enc b = Ok enc' → enc_step enc enc'.
Proof.
  unfold put_bit. destruct (_ =? _); [done|]. intros H Hb. inv_ok.
  apply buf_set_tail in E0 as [_ T]. subst. cbn. destruct (_ =? 8); cbn; (split; [lia|]); [|done].
  eapply (tail_kept_trans (e_byte enc)); [lia|exact T|]. by split.
Qed.

Lemma put_bits_loop_step n : ∀ x enc v enc', put_bits_loop n x enc v = Ok enc' → enc_step enc enc'.
Proof.
  induction n as [|n IH]; intros x enc v enc'; cbn [put_bits_loop]; [intros [= <-]; apply enc_step_refl|].
  intros H. inv_ok. eapply enc_step_trans; [by eapply put_bit_step|by eapply IH].
Qed.

Lemma put_bits_step enc v n enc' : nr_rlc_pdu_encoder_put_bits enc v n = Ok enc' → enc_step enc enc'.
Proof. unfold nr_rlc_pdu_encoder_put_bits. destruct (_ <? _); [done|]. apply put_bits_loop_step. Qed.

Lemma buf_write_tail b off src b' :
  buf_write b off src = Ok b' → 0 < zlen src → tail_kept (off + zlen src - 1) b b'.
Proof.
  intros H Hs. split; [by eapply buf_write_len|]. revert H. unfold buf_write.
  destruct (Z.leb_spec 0 off), (Z.leb_spec (off + zlen src) (zlen b)); cbn; try done. intros [= <-] j Hj.
  assert (∃ d, Z.to_nat j = (Z.to_nat off + (length src + d))%nat ∧ Z.to_nat j = (Z.to_nat (off + zlen src) + d)%nat)
    as (d & Hd & Hd2).
  { exists (Z.to_nat j - Z.to_nat off - length src)%nat. unfold zlen in *. lia. }
  rewrite Hd at 1. rewrite <- (length_take_le b (Z.to_nat off)) at 1 by (unfold zlen in *; lia).
  rewrite drop_app_add, drop_app_add, drop_drop, Hd2. done.
Qed.

(** ** UM: the buffer behind the PDU is not touched *)

Lemma serialize_tail e g buffer size ret buffer' :
  serialize_sdu e g buffer size = Ok (ret, buffer') → 0 < g_size g →
  zlen buffer' = zlen buffer ∧ drop (Z.to_nat ret) buffer' = drop (Z.to_nat ret) buffer.
Proof.
  unfold serialize_sdu. intros H Hg. inv_ok.
  assert (enc_step (nr_rlc_pdu_encoder_init buffer size) r2) as S.
  { eapply enc_step_trans; [by eapply put_bits_step|]. eapply enc_step_trans; [by eapply put_bits_step|].
    eapply (enc_step_trans _ r1).
    - revert E1. destruct (_ && _); [by apply put_bits_step|].
      intros (m & Em & E1)%bind_ok_inv. apply (enc_step_trans _ m); [|exact (put_bits_step _ _ _ _ E1)]. revert Em.
      destruct (_ =? 12); [by apply put_bits_step|]. intros [= <-]. apply enc_step_refl.
    - revert E2. destruct (negb _); [by apply put_bits_step|]. intros [= <-]. apply enc_step_refl. }
  destruct (S ltac:(done)) as [Hb T]. cbn in Hb, T.
  assert (zlen r3 = g_size g) as Hd.
  { revert E3. unfold buf_sub.
    destruct (Z.leb_spec 0 (g_so g)), (Z.leb_spec 0 (g_size g)), (Z.leb_spec (g_so g + g_size g) (zlen (s_data (sdu_of (heap e) g))));
      cbn [andb]; try done. intros [= <-]. apply zlen_take. rewrite zlen_drop; lia. }
  apply buf_write_tail in E4; [|lia].
  destruct (tail_kept_trans (e_byte r2) (e_byte r2 + zlen r3 - 1) buffer (e_buffer r2) r4 ltac:(lia) T E4) as [Hl Ht]. simplify_eq. split; [done|]. apply Ht. lia.
Qed.

Lemma resegment_size g e size g1 g2 e2 : resegment g e size = (g1, Some g2, e2) → 0 < g_size g1.
Proof.
  unfold resegment. cbv zeta. destruct (Z.ltb_spec size (compute_pdu_header_size
    (e <| heap := upd_sdu (heap e) g (sdu_of (heap e) g <| s_ref_count := s_ref_count (sdu_of (heap e) g) + 1 |>) |>)
    (g <| g_is_last := false |>) + 1)); [done|]. intros [= <- _ _]. cbn. cbn in H. lia.
Qed.

Lemma um_generate_tail t e buffer size ret buffer' e' :
  RlcUmTx.um_tx_wf e → generate_tx_pdu t e buffer size = Ok (ret, buffer', e') →
  drop (Z.to_nat ret) buffer' = drop (Z.to_nat ret) buffer.
Proof.
  intros W. unfold generate_tx_pdu. destruct (tx_list e) as [|g next] eqn:El; [by intros [= <- <- _]|].
  destruct (RlcUmTx.ut_seg _ W g) as (Hsz & _); [rewrite El; set_solver|].
  destruct (_ <? _); [by intros [= <- <- _]|].
  assert (∀ e g b', send_segment t e g buffer size = Ok (ret, buffer', b') → 0 < g_size g →
    drop (Z.to_nat ret) buffer' = drop (Z.to_nat ret) buffer) as K.
  { intros e1 g1 b'. unfold send_segment. intros H Hg. inv_ok. destruct r as [n b]. inv_ok.
    destruct r0 as [x y]. simplify_eq. by eapply serialize_tail. }
  cbv zeta. destruct (_ <? _) eqn:Hcut; [|intros H; by eapply K].
  destruct (resegment _ _ _) as [[g1 [g2|]] e2] eqn:R; [|by intros [= <- <- _]].
  intros H. eapply K; [exact H|]. by eapply resegment_size.
Qed.

(** ** What the two sides of a UM entity leave unchanged *)

Lemma um_tx_wf_view e e' : RlcUmRx.tx_view e' = RlcUmRx.tx_view e → RlcUmTx.um_tx_wf e → RlcUmTx.um_tx_wf e'.
Proof.
  unfold RlcUmRx.tx_view, common_view. intros V []. destruct e, e'. cbn in *. simplify_eq.
  split; cbn in *; try done.
  - match goal with H : bstatus ?a = bstatus ?b |- bs_tx_size (bstatus ?a) = _ => rewrite H end. exact ut_bstatus.
  - unfold avg_wf in *. match goal with H : txsdu_avg_time_to_tx ?a = _ |- _ => rewrite H end. done.
Qed.

Lemma um_rx_wf_view Q e e' : RlcUmTx.rx_view e' = RlcUmTx.rx_view e → RlcUmRx.um_rx_wf Q e → RlcUmRx.um_rx_wf Q e'.
Proof.
  unfold RlcUmTx.rx_view. intros V []. destruct e, e'. cbn in *. simplify_eq.
  split; cbn in *; try done. by destruct ux_cfg.
Qed.

(** ** The interface *)

Definition entity_ok (x : rlc_entity) : Prop :=
  match x with
  | TM e => RlcTm.tm_wf e ∧ RlcTm.tx_maxsize e < 65536
  | UM e => RlcUmTx.um_tx_wf e ∧ RlcUmRx.um_rx_wf (λ _, True) e ∧ sn_field_length e = 6
  | AM _ => False
  end.

Lemma entity_set_time_ok now x : entity_ok x → ∃ x', rlc_set_time x now = Ok x' ∧ entity_ok x'.
Proof.
  destruct x as [e|e|e]; cbn; [| |done].
  - intros [W Hm]. eexists. split; [done|]. cbn. split; [by destruct W|done].
  - intros (Wt & Wr & Hn). destruct (RlcUmRx.um_set_time_ok _ e now Wr) as (e' & -> & Wr' & V & _).
    cbn [mbind outcome_bind]. exists (UM e'). split; [done|]. split_and!; [by eapply um_tx_wf_view|done|].
    unfold RlcUmRx.tx_view in V. congruence.
Qed.

(** the sizes of what is queued *)
Lemma heap_sdu_size h l g : heap_wf h l → g ∈ l → zlen (s_data (sdu_of h g)) = s_size (sdu_of h g).
Proof.
  intros W Hg. destruct (hw_live _ _ W g Hg) as (s & Hs & _). rewrite (sdu_of_lookup _ _ _ Hs).
  by apply (hw_data _ _ W _ _ Hs).
Qed.

Lemma tm_head_size e d q : RlcTm.tm_wf e → RlcTm.tm_queue e = d :: q → zlen d <= RlcTm.tx_maxsize e.
Proof.
  intros W. unfold RlcTm.tm_queue. pose proof (RlcTm.tm_limit _ W) as L. rewrite (RlcTm.tm_tx_size _ W) in L.
  assert (∀ g, g ∈ RlcTm.tx_list e → zlen (s_data (sdu_of (RlcTm.heap e) g)) = g_size g) as K.
  { intros g Hg. rewrite (heap_sdu_size _ _ _ (RlcTm.tm_heap _ W) Hg). by destruct (RlcTm.tm_whole _ W g Hg). }
  destruct (RlcTm.tx_list e) as [|g l]; [done|]. intros [= <- _]. rewrite K by apply list_elem_of_here.
  rewrite sumZ_cons in L. assert (0 <= sumZ g_size l); [|lia].
  apply sumZ_nonneg. intros x Hx. rewrite <- K by by apply list_elem_of_further. apply zlen_nonneg.
Qed.

Lemma um_head_size e d q : RlcUmTx.um_tx_wf e → RlcUmTx.um_sdus e = d :: q → zlen d <= NR_SDU_MAX.
Proof. intros W Hd. apply (RlcUmLink.um_sdus_max e d W). rewrite Hd. apply list_elem_of_here. Qed.

Lemma um_sent_size e e' size ret pdu d q :
  RlcUmTx.um_tx_wf e → RlcUmTx.um_sdus e = d :: q → RlcUmTx.um_sent e e' size ret pdu d q →
  zlen pdu = ret ∧ 0 <= ret <= size ∧ ret < 65536.
Proof.
  intros W Hd (k & Hk & Hkd & Hr & Hz & (hdr & Hp & Hh & _) & _). pose proof (um_head_size _ _ _ W Hd).
  split; [done|]. split; [lia|]. rewrite <- Hz, Hp, zlen_app, Hh.
  pose proof (RlcUmTx.um_header_pos (sn_field_length e) (RlcUmTx.um_off e =? 0) (RlcUmTx.um_off e + k =? zlen d)).
  assert (zlen (take (Z.to_nat k) (drop (Z.to_nat (RlcUmTx.um_off e)) d)) <= zlen d).
  { unfold zlen. rewrite length_take, length_drop. lia. }
  unfold NR_SDU_MAX in *. lia.
Qed.

Lemma entity_generate_ok t x buffer size :
  entity_ok x → 0 <= size <= zlen buffer → Forall is_byte buffer →
  ∃ pdu x', rlc_generate_pdu t x buffer size = Ok (zlen pdu, pdu ++ drop (length pdu) buffer, x') ∧
    zlen pdu <= size ∧ zlen pdu < 65536 ∧ entity_ok x'.
Proof.
  intros Hx Hs HF. destruct x as [e|e|e]; cbn in Hx |- *; [| |done].
  - destruct Hx as [W Hm]. destruct (RlcTm.tm_generate_ok t e buffer size W Hs) as ([[ret b] e'] & -> & W' & Hm' & H).
    cbn [mbind outcome_bind]. destruct (RlcTm.tm_queue e) as [|d q] eqn:Eq.
    { destruct H as (-> & -> & ->). exists [], (TM e). change (@zlen Z []) with 0. split_and!; (done || lia). }
    destruct (Z.ltb_spec size (zlen d)).
    { destruct H as (-> & -> & ->). exists [], (TM e). change (@zlen Z []) with 0. split_and!; (done || lia). }
    destruct H as (-> & -> & Hq & _). pose proof (tm_head_size _ _ _ W Eq).
    exists d, (TM e'). split_and!; try done; cbn; [lia|by rewrite Hm'].
  - destruct Hx as (Wt & Wr & Hn).
    destruct (RlcUmTx.um_generate_ok t e buffer size Wt Hs HF ltac:(by left)) as ([[ret b] e'] & Hg & Hl & Wt' & V & Hm & H).
    rewrite Hg. cbn [mbind outcome_bind]. pose proof (um_generate_tail _ _ _ _ _ _ _ Wt Hg) as Ht.
    assert (entity_ok (UM e')) as Hok.
    { cbn. split_and!; [done|by eapply um_rx_wf_view|]. unfold RlcUmTx.rx_view in V. congruence. }
    assert (zlen (take (Z.to_nat ret) b) = ret ∧ 0 <= ret <= size ∧ ret < 65536) as (Hz & Hr & H16).
    { destruct (RlcUmTx.um_sdus e) as [|d q] eqn:Eq; [destruct H as [-> _]; split; [done|lia]|].
      destruct H as [(-> & _ & _)|H]; [split; [done|lia]|]. exact (um_sent_size _ _ _ _ _ _ _ Wt Eq H). }
    exists (take (Z.to_nat ret) b), (UM e'). rewrite Hz. split_and!; try (done || lia).
    assert (length (take (Z.to_nat ret) b) = Z.to_nat ret) as -> by (unfold zlen in Hz; lia).
    by rewrite <- Ht, take_drop.
Qed.

#[export] Instance rlc_entity_tx : RlcTx rlc_entity := {|
  rlc_ok := entity_ok; rlc_set_time_ok := entity_set_time_ok; rlc_generate_ok := entity_generate_ok |}.

(** ** A UE with one bearer, DRB 1 on logical channel 4 *)

Definition drb1_ue (id : Z) (e : rlc_entity) : nr_rlc_ue_t rlc_entity :=
  new_ue id <| drb := <[0%nat := Some e]> (replicate 32 None) |>
            <| lcid2rb := <[3%nat := NR_LCID_DRB 1]> (replicate 32 NR_LCID_NONE) |>.

Lemma drb1_ue_entity id e r x : ref_ok r → entity_of (drb1_ue id e) r = Some x → x = e.
Proof.
  destruct r as [|i|i]; cbn; intros Hr; [done|..]; unfold entity_of; cbn -[replicate]; unfold arr_get;
    (destruct (Z.ltb_spec i 0); [done|]).
  - assert (i = 0 ∨ i = 1 ∨ i = 2) as [->|[->| ->]] by lia; done.
  - rewrite list_lookup_insert. case_decide as Hc; [by intros [= <-]|].
    rewrite (lookup_replicate_2 32 None) by lia. done.
Qed.

Lemma drb1_ue_ready id e : entity_ok e → ue_ready id [drb1_ue id e] (drb1_ue id e).
Proof.
  intros He. split.
  - apply NoDup_singleton.
  - unfold ue_map. cbn [fmap list_fmap]. by rewrite list_to_map_cons, lookup_insert_eq.
  - split; try reflexivity. cbn. intros rb Hrb. rewrite !elem_of_cons, elem_of_nil in Hrb.
    repeat destruct Hrb as [->|Hrb]; lia || done.
  - intros r x Hr Hx. by rewrite (drb1_ue_entity _ _ _ _ Hr Hx).
Qed.

(** an entity as new, with one SDU of three octets *)
Lemma new_um_sdu_ok rxmax txmax :
  10 <= txmax → 0 <= rxmax →
  returns (e ← new_nr_rlc_entity_um rxmax txmax 10 6; nr_rlc_entity_um_recv_sdu 0 e [1; 2; 3] 3 7)
    (λ e, entity_ok (UM e)).
Proof.
  intros Ht Hr. destruct (RlcUmRx.um_new_ok rxmax txmax 10 6 ltac:(by left)) as (e & He & Wr & _).
  destruct (RlcUmTx.um_new_tx_ok rxmax txmax 10 6 ltac:(by left) ltac:(lia)) as (e2 & He2 & W & _ & _ & _ & Hlen & _).
  rewrite He in He2 |- *. injection He2 as <-. cbn [mbind outcome_bind].
  eapply returns_mono; [apply RlcUmTx.um_recv_sdu_ok; [done|vm_compute; intuition congruence..]|].
  intros e1 (W1 & Hrx & _). cbn. split_and!; [done|by apply (um_rx_wf_view _ e)|].
  unfold RlcUmTx.rx_view in Hrx. congruence.
Qed.
