(* ===== verification/MacPduLink.v ===== *)
(** * The downlink of MAC, end to end

    The UE finds in a MAC PDU what the gNB put into it: the timing advance and the RLC PDUs. *)

From stdpp Require Import gmap.
From S2P Require Import Prelude RlcTypes RlcManager RlcManagerProofs RlcEntities MacPdu MacPduUe MacPduProofs MacWalk RlcMac RlcUm.

(** ** Decoding subPDU by subPDU *)

Section Decode.
(** the timing advance group of the UE *)
Context (tag : Z).

Definition in_group (s : rx_state) : Prop := tag_Id (rx_ue s) = tag.
Definition decodes := takes sub_pdus in_group.

Lemma decodes_one enc g mac_len sub :
  sub + mac_len = zlen enc → 1 <= zlen enc →
  (∀ s s', g s = Ok s' → rx_ue s' = rx_ue s) →
  (∀ pre rest len s, tag_Id (rx_ue s) = tag → zlen enc <= len →
    sub_pdu (pre ++ enc ++ rest) (zlen pre) len s = (s' ← g s; Ok (Next, mac_len, sub, s'))) →
  decodes enc g.
Proof.
  intros Hlen Hpos Hu Hs. apply takes_one; [done|intros s s' Hi Hg; unfold in_group; by rewrite (Hu s)|].
  intros pre rest fuel len s Hi Hl. cbn [sub_pdus]. rewrite (proj2 (Z.ltb_lt _ _)) by lia. cbn [negb]. rewrite Hs by done.
  destruct (g s) as [s'| | |]; cbn [mbind outcome_bind]; [|done..]. by rewrite Hlen.
Qed.

(** ** SDUs *)

Lemma get_mac_len_long pre c pdu rest len a b :
  0 <= c < 64 → zlen pdu < 65536 → 3 + zlen pdu <= len →
  get_mac_len (pre ++ sdu_octets c pdu ++ rest) (zlen pre) len a b = Ok (true, zlen pdu, 3).
Proof.
  intros Hc H16 Hl. pose proof (zlen_nonneg pdu). unfold get_mac_len, sdu_octets, NR_MAC_SUBHEADER_LONG.
  destruct (Z.ltb_spec len 2); [lia|]. cbn [app]. rewrite buf_get_at. cbn [mbind outcome_bind].
  destruct (long_fields c Hc) as [_ ->]. destruct (Z.ltb_spec len 3); [lia|]. cbn [Z.eqb Pos.eqb andb].
  rewrite (buf_get_behind _ _ 1 ((zlen pdu / 256) mod 256)), (buf_get_behind _ _ 2 (zlen pdu mod 256)) by done.
  cbn [mbind outcome_bind]. rewrite (Z.mod_small (zlen pdu / 256)) by (split; [apply Z.div_pos|apply Z.div_lt_upper_bound]; lia).
  replace (zlen pdu / 256 * 256 + zlen pdu mod 256) with (zlen pdu) by (pose proof (Z.div_mod (zlen pdu) 256); lia).
  destruct (Z.ltb_spec len (zlen pdu)); [lia|done].
Qed.

Definition recv_sdu (c : Z) (pdu : bytes) (s : rx_state) : outcome rx_state :=
  if is_lcid_suspended (rx_ue s) c then Ok s
  else
    let d := rx_data s ++ [mk_data_ind c pdu] in
    _ ← assert_fatal (zlen d <? MAX_NUM_DATA_IND); Ok (mk_rx (rx_ue s) (rx_events s) d).

Lemma lcid_not_ce c : 1 <= c <= 32 →
  (c =? DL_SCH_LCID_CCCH) = false ∧ var_ce c = false ∧ (c =? DL_SCH_LCID_TA_COMMAND) = false ∧
  (c =? DL_SCH_LCID_CON_RES_ID) = false ∧ (c =? DL_SCH_LCID_PADDING) = false ∧ ((1 <=? c) && (c <=? 32)) = true.
Proof.
  intros H. unfold var_ce. unfold DL_SCH_LCID_CCCH, DL_SCH_LCID_TCI_STATE_ACT_UE_SPEC_PDSCH, DL_SCH_LCID_APERIODIC_CSI_TRI_STATE_SUBSEL,
    DL_SCH_LCID_SP_CSI_RS_CSI_IM_RES_SET_ACT, DL_SCH_LCID_SP_SRS_ACTIVATION, DL_SCH_LCID_TA_COMMAND, DL_SCH_LCID_CON_RES_ID, DL_SCH_LCID_PADDING.
  repeat match goal with |- context [?a =? ?b] => rewrite (proj2 (Z.eqb_neq a b)) by lia end.
  rewrite !(proj2 (Z.leb_le _ _)) by lia. done.
Qed.

Lemma decodes_sdu c pdu : 1 <= c <= 32 → zlen pdu < 65536 → decodes (sdu_octets c pdu) (recv_sdu c pdu).
Proof.
  intros Hc H16. pose proof (zlen_nonneg pdu).
  apply (decodes_one _ _ (zlen pdu) 3); rewrite ?zlen_sdu_octets; [lia|lia| |].
  { intros s s'. unfold recv_sdu. destruct (is_lcid_suspended _ _); [by intros [= <-]|]. intros H0. inv_ok. by subst. }
  intros pre rest len s _ Hl. unfold sub_pdu.
  assert (buf_get (pre ++ sdu_octets c pdu ++ rest) (zlen pre) = Ok (pack [(c, 6); (1, 1); (0, 1)])) as -> by apply buf_get_at.
  cbn [mbind outcome_bind]. destruct (long_fields c) as [-> _]; [lia|].
  destruct (lcid_not_ce c Hc) as (-> & -> & -> & -> & -> & ->). unfold channel_sdu, recv_sdu.
  rewrite get_mac_len_long by lia. cbn [mbind outcome_bind negb].
  destruct (is_lcid_suspended _ _); [done|]. unfold add_ind.
  assert (buf_sub (pre ++ sdu_octets c pdu ++ rest) (zlen pre + 3) (zlen pdu) = Ok pdu) as ->.
  { unfold sdu_octets. rewrite <- app_assoc, (app_assoc pre).
    replace (zlen pre + 3) with (zlen (pre ++ NR_MAC_SUBHEADER_LONG c (zlen pdu))) by (by rewrite zlen_app).
    apply buf_sub_mid. }
  cbn [mbind outcome_bind]. destruct (assert_fatal _); done.
Qed.

Fixpoint recv_sdus (sent : list (Z * bytes)) (s : rx_state) : outcome rx_state :=
  match sent with
  | [] => Ok s
  | (c, p) :: sent => s ← recv_sdu c p s; recv_sdus sent s
  end.

Lemma decodes_sent sent : sent_ok sent → decodes (sent_octets sent) (recv_sdus sent).
Proof.
  intros H. induction sent as [|[c p] sent IH]; [exact (takes_nil _ _)|]. apply Forall_cons in H as [[Hc Hp] H].
  change (sent_octets ((c, p) :: sent)) with (sdu_octets c p ++ sent_octets sent).
  apply (takes_app _ _ _ _ (recv_sdu c p) (recv_sdus sent)); [apply decodes_sdu; cbn in *; lia|by apply IH].
Qed.

(** ** Control elements *)

Definition recv_ta (ta : Z) (s : rx_state) : rx_state :=
  mk_rx (rx_ue s) (rx_events s ++ [Time_alignment ta]) (rx_data s).

(** elements of a size that the UE knows and skips *)
Lemma decodes_fixed id n body :
  0 <= id < 64 → fixed_ce_len id = Some n → n = zlen body →
  decodes (NR_MAC_SUBHEADER_FIXED id ++ body) Ok.
Proof.
  intros Hid Hn ->. rewrite fixed_lcid by done. pose proof (zlen_nonneg body).
  apply (decodes_one _ _ (zlen body) 1); rewrite ?zlen_app; change (zlen [id]) with 1; [lia|lia|by intros s s' [= <-]|].
  intros pre rest len s _ Hl. unfold sub_pdu. cbn [app]. rewrite buf_get_at. cbn [mbind outcome_bind].
  rewrite fixed_field by done. rewrite Hn. cbn [default].
  assert (32 < id ∧ id ≠ DL_SCH_LCID_TA_COMMAND ∧ id ≠ DL_SCH_LCID_CON_RES_ID ∧ id ≠ DL_SCH_LCID_PADDING ∧ var_ce id = false) as (? & ? & ? & ? & ->).
  { revert Hn. unfold fixed_ce_len.
    repeat (match goal with |- context [?a =? ?b] => destruct (Z.eqb_spec a b) as [->|?] end; [done|]). done. }
  rewrite !(proj2 (Z.eqb_neq _ _)) by (done || unfold DL_SCH_LCID_CCCH; lia).
  destruct (Z.leb_spec 1 id), (Z.leb_spec id 32); (lia || done).
Qed.

Lemma decodes_states id s :
  id = DL_SCH_LCID_TCI_STATE_ACT_UE_SPEC_PDSCH ∨ id = DL_SCH_LCID_APERIODIC_CSI_TRI_STATE_SUBSEL →
  states_ok s → decodes (states_ce id s) Ok.
Proof.
  intros Hid [Hh Hlen]. unfold states_ce. set (n := st_highest s / 8 + 1).
  assert (1 <= n <= 16) as Hn by (subst n; split; [pose proof (Z.div_pos (st_highest s) 8); lia|
    pose proof (Z.div_lt_upper_bound (st_highest s) 8 16); lia]).
  set (body := pack _ :: _).
  assert (zlen body = 1 + n) as Hb by (unfold body, zlen; cbn [length]; rewrite length_octets_of; lia).
  assert (0 <= id < 64) as Hr by (destruct Hid as [-> | ->]; vm_compute; done).
  apply (decodes_one _ _ (1 + n) 2); rewrite ?zlen_app, ?Hb; change (zlen (NR_MAC_SUBHEADER_SHORT id (1 + n))) with 2; [lia|lia|by intros ? ? [= <-]|].
  intros pre rest len st _ Hl. unfold sub_pdu, NR_MAC_SUBHEADER_SHORT, get_mac_len. cbn [app]. rewrite buf_get_at.
  cbn [mbind outcome_bind]. destruct (short_fields id Hr) as [-> ->].
  assert ((id =? DL_SCH_LCID_CCCH) = false ∧ var_ce id = true) as [-> ->] by (by destruct Hid as [-> | ->]).
  destruct (Z.ltb_spec len 2); [lia|]. cbn [Z.eqb Pos.eqb andb].
  rewrite (buf_get_behind _ _ 1 ((1 + n) mod 256)) by done. cbn [mbind outcome_bind].
  rewrite Z.mod_small by lia. destruct (Z.ltb_spec len (1 + n)); [lia|done].
Qed.

Lemma decodes_ta ta : 0 <= ta < 64 → 0 <= tag < 4 → decodes (ta_ce tag ta) (λ s, Ok (recv_ta ta s)).
Proof.
  intros Hta Htag. unfold ta_ce. rewrite fixed_lcid by done.
  apply (decodes_one _ _ 1 1); [done|done|by intros s s' [= <-]|].
  intros pre rest len s Ht Hl. unfold sub_pdu. cbn [app]. rewrite buf_get_at. cbn [mbind outcome_bind].
  change (field DL_SCH_LCID_TA_COMMAND 0 6) with DL_SCH_LCID_TA_COMMAND.
  change (DL_SCH_LCID_TA_COMMAND =? DL_SCH_LCID_CCCH) with false. change (var_ce DL_SCH_LCID_TA_COMMAND) with false.
  rewrite Z.eqb_refl. unfold ta_command.
  rewrite (buf_get_behind _ _ 1 (pack [(ta, 6); (tag, 2)])) by done. cbn [mbind outcome_bind].
  assert (field (pack [(ta, 6); (tag, 2)]) 6 2 = tag) as ->.
  { change 6 with (6 + 0) at 2. rewrite field_next, field_first by lia. apply Z.mod_small. lia. }
  rewrite field_first by lia. rewrite Ht, Z.eqb_refl, Z.mod_small by lia. done.
Qed.

(** all the elements the gNB writes, but for the activation of CSI interference measurement *)
Lemma decodes_ces u stale :
  ce_ok u → 0 <= tag < 4 → im_scheduled (csi_im u) = false →
  decodes (ce_octets tag u stale) (λ s, Ok (if ta_apply u then recv_ta (ta_update u) s else s)).
Proof.
  intros [Hta Hsp Htci Hap] Htag Him. unfold ce_octets, ce_list. cbn [concat].
  rewrite Him. cbn [opt app].
  assert (decodes (opt (ta_apply u) (ta_ce tag (ta_update u)))
    (λ s, Ok (if ta_apply u then recv_ta (ta_update u) s else s))) as Dta.
  { destruct (ta_apply u) eqn:E; [apply decodes_ta; auto|exact (takes_nil _ _)]. }
  assert (∀ enc (b : bool), decodes enc Ok → decodes (opt b enc) Ok) as Dopt.
  { intros enc [] H; [exact H|exact (takes_nil _ _)]. }
  assert (∀ a b, decodes a Ok → decodes b Ok → decodes (a ++ b) Ok) as Dapp.
  { intros a b. apply takes_app. }
  apply (takes_ext _ _ _ (λ s, s' ← Ok (if ta_apply u then recv_ta (ta_update u) s else s); Ok s')); [done|].
  apply takes_app; [exact Dta|]. repeat apply Dapp; try apply Dopt; try exact (takes_nil _ _).
  - by apply (decodes_fixed _ 2).
  - by apply (decodes_fixed _ 2).
  - by apply decodes_states; [left|].
  - by apply decodes_states; [right|].
  - by apply (decodes_fixed _ 2).
Qed.
End Decode.

(** ** What the UE hands to RLC *)

(** the RLC PDUs of channels that are not suspended *)
Definition wanted (ue : ue_mac) (sent : list (Z * bytes)) : list nr_rlc_data_ind_t :=
  (λ x, mk_data_ind x.1 x.2) <$> filter (λ x, is_lcid_suspended ue x.1 = false) sent.

Lemma recv_sdus_eq sent : ∀ s, zlen (rx_data s) < MAX_NUM_DATA_IND →
  recv_sdus sent s =
    if zlen (rx_data s) + zlen (wanted (rx_ue s) sent) <? MAX_NUM_DATA_IND
    then Ok (mk_rx (rx_ue s) (rx_events s) (rx_data s ++ wanted (rx_ue s) sent)) else Fatal.
Proof.
  induction sent as [|[c p] sent IH]; intros s Hs; cbn [recv_sdus].
  { unfold wanted. cbn. rewrite Z.add_0_r, app_nil_r, (proj2 (Z.ltb_lt _ _)) by done. by destruct s. }
  assert (wanted (rx_ue s) ((c, p) :: sent) =
    (if is_lcid_suspended (rx_ue s) c then [] else [mk_data_ind c p]) ++ wanted (rx_ue s) sent) as ->.
  { unfold wanted. rewrite filter_cons. cbn [fst]. destruct (is_lcid_suspended (rx_ue s) c).
    - by rewrite decide_False.
    - by rewrite decide_True. }
  unfold recv_sdu. destruct (is_lcid_suspended (rx_ue s) c); cbn [mbind outcome_bind app]; [by apply IH|].
  rewrite zlen_cons. pose proof (zlen_nonneg (wanted (rx_ue s) sent)).
  unfold assert_fatal. rewrite zlen_app. change (zlen [mk_data_ind c p]) with 1.
  destruct (Z.ltb_spec (zlen (rx_data s) + 1) MAX_NUM_DATA_IND); cbn [mbind outcome_bind].
  - rewrite IH by (cbn; rewrite zlen_app; change (zlen [mk_data_ind c p]) with 1; lia). cbn [rx_data rx_ue rx_events].
    rewrite zlen_app, <- app_assoc. change (zlen [mk_data_ind c p]) with 1. rewrite Z.add_assoc. done.
  - rewrite (proj2 (Z.ltb_ge _ _)) by lia. done.
Qed.

Lemma put_padding_ok pre buf0 bufEnd :
  zlen pre <= bufEnd <= zlen buf0 →
  ∃ pad, put_padding DL_SCH_LCID_PADDING bufEnd (cursor pre buf0) = Ok (pre ++ pad ++ drop (Z.to_nat bufEnd) buf0) ∧
    zlen pre + zlen pad = bufEnd ∧ (pad = [] ∨ head pad = Some DL_SCH_LCID_PADDING).
Proof.
  intros H. unfold put_padding, cursor. cbn [fst snd]. destruct (Z.ltb_spec 0 (bufEnd - zlen pre)).
  - set (pad := NR_MAC_SUBHEADER_FIXED DL_SCH_LCID_PADDING ++ _). exists pad.
    assert (zlen pad = bufEnd - zlen pre) as Hp.
    { unfold pad. rewrite zlen_app. unfold zlen. rewrite length_replicate. cbn. unfold zlen in *. lia. }
    pose proof (zlen_nonneg pre).
    rewrite buf_write_ok; [|done|rewrite Hp, zlen_app; unfold zlen in *; rewrite length_drop; lia].
    split_and!; [|lia|by right]. f_equal. rewrite Hp. unfold zlen. rewrite Nat2Z.id, take_app_length. do 2 f_equal.
    replace (Z.to_nat (Z.of_nat (length pre) + (bufEnd - Z.of_nat (length pre)))) with (length pre + (Z.to_nat bufEnd - length pre))%nat
      by (unfold zlen in *; lia).
    rewrite drop_app_add, drop_drop. f_equal. unfold zlen in *. lia.
  - exists []. rewrite zlen_nil. split_and!; [|lia|by left]. do 2 f_equal. cbn. f_equal. unfold zlen in *. lia.
Qed.

Lemma sub_pdus_padding fuel pre pad rest s len :
  zlen pad = len → (Z.to_nat len <= fuel)%nat → pad = [] ∨ head pad = Some DL_SCH_LCID_PADDING →
  sub_pdus fuel (pre ++ pad ++ rest) (zlen pre) len s = Ok (false, s).
Proof.
  intros <- Hf [->|Hp]; [by destruct fuel|]. destruct pad as [|x pad]; [done|]. injection Hp as ->.
  rewrite zlen_cons in *. pose proof (zlen_nonneg pad). destruct fuel as [|fuel]; [lia|]. cbn [sub_pdus].
  rewrite (proj2 (Z.ltb_lt _ _)) by lia. cbn [negb]. unfold sub_pdu. cbn [app]. rewrite buf_get_at. done.
Qed.

(** the UE on a PDU of control elements, RLC PDUs and padding *)
Lemma decode_pdu tag u stale sent pad rest (recv : ue_mac) len :
  ce_ok u → 0 <= tag < 4 → im_scheduled (csi_im u) = false → sent_ok sent → tag_Id recv = tag →
  zlen (ce_octets tag u stale ++ sent_octets sent ++ pad) = len →
  pad = [] ∨ head pad = Some DL_SCH_LCID_PADDING →
  sub_pdus (Z.to_nat len) ((ce_octets tag u stale ++ sent_octets sent ++ pad) ++ rest) 0 len (mk_rx recv [] [])
  = if zlen (wanted recv sent) <? MAX_NUM_DATA_IND
    then Ok (false, mk_rx recv (if ta_apply u then [Time_alignment (ta_update u)] else []) (wanted recv sent))
    else Fatal.
Proof.
  intros Hu Htag Him Hsent Ht Hlen Hpad.
  assert (decodes tag (ce_octets tag u stale ++ sent_octets sent)
    (λ s, s' ← Ok (if ta_apply u then recv_ta (ta_update u) s else s); recv_sdus sent s')) as D.
  { apply takes_app; [by apply decodes_ces|by apply decodes_sent]. }
  rewrite app_assoc, zlen_app in Hlen. pose proof (zlen_nonneg pad).
  specialize (D [] (pad ++ rest) (Z.to_nat len) len (mk_rx recv [] []) Ht ltac:(lia) ltac:(lia)).
  cbn [mbind outcome_bind] in D. rewrite zlen_nil in D. cbn [app] in D.
  set (s1 := if ta_apply u then recv_ta (ta_update u) (mk_rx recv [] []) else mk_rx recv [] []) in D.
  assert (s1 = mk_rx recv (if ta_apply u then [Time_alignment (ta_update u)] else []) []) as E1
    by (unfold s1; by destruct (ta_apply u)).
  rewrite E1, recv_sdus_eq in D by (cbn; done). cbn [rx_data rx_ue rx_events app] in D. rewrite zlen_nil, Z.add_0_l in D.
  rewrite <- !app_assoc in D. rewrite <- !app_assoc.
  destruct (zlen (wanted recv sent) <? MAX_NUM_DATA_IND); [|exact D].
  destruct D as (_ & fuel & Hf & ->). rewrite Z.add_0_l, app_assoc. apply sub_pdus_padding; [lia|done|done].
Qed.

Section Transfer.
Context {E E' : Type} `{!RlcOps E, !RlcTx E, !RlcOps E'}.

(** C12: The downlink of MAC, end to end. For every state of the gNB's bearers, control elements
    (but for that of CSI interference measurement) and allocation to channels 1 to 31, the gNB
    builds a PDU that fills the transport block, if this has room for the control elements; it
    contains the control elements and exactly the RLC PDUs that the entities of the channels with
    an allocation generated for it. From this block the UE takes the timing advance and hands
    those RLC PDUs, unchanged and in order, to its RLC, less those of suspended channels, provided
    they are fewer than 1024; with 1024 or more it stops. The gNB's entities satisfy the law
    [RlcTx]: TM entities and UM entities with 6-bit sequence numbers do, AM entities and UM
    entities with 12-bit numbers do not; those of the UE are any. *)
Theorem dl_mac_pdu_transfer now t tag rnti frame stale noise alloc total lcids u m ue TBS buf :
  ce_ok u → im_scheduled (csi_im u) = false → 0 <= tag < 4 → ue_ready (E := E) rnti m ue →
  Forall (λ c, 1 <= c < 32) lcids → (∀ n, length (alloc n) = 32%nat) →
  zlen (ce_octets tag u stale) < TBS <= zlen buf → Forall is_byte buf →
  ∃ block u' m' sent ue',
    generate_dl_mac_pdu now t tag rnti frame stale false noise alloc total lcids u m TBS buf
      = Ok (block ++ drop (Z.to_nat TBS) buf, u', m') ∧
    zlen block = TBS ∧ ta_apply u' = false ∧ ti_scheduled (tci_state_ind u') = false ∧
    ue_ready rnti m' ue' ∧ ue_map m' = <[rnti := ue']> (ue_map m) ∧
    (if 0 <? total then channels_serve now t (alloc (TBS - zlen (ce_octets tag u stale))) lcids ue sent ue'
     else sent = [] ∧ ue' = ue) ∧
    ∀ now' id (m2 : list (nr_rlc_ue_t E')) recv rest, tag_Id recv = tag →
      nr_ue_process_mac_pdu now' id m2 recv (block ++ rest) TBS =
        if zlen (wanted recv sent) <? MAX_NUM_DATA_IND
        then m2 ← nr_mac_rlc_data_ind now' m2 id (wanted recv sent);
             Ok (recv, if ta_apply u then [Time_alignment (ta_update u)] else [], m2)
        else Fatal.
Proof.
  intros Hu Him Htag R Hl Ha HT HF. unfold generate_dl_mac_pdu.
  rewrite write_ce_ok by (done || lia). set (ces := ce_octets tag u stale) in *. cbn [mbind outcome_bind cursor].
  unfold assert_fatal. rewrite (proj2 (Z.ltb_lt (zlen ces) TBS)) by lia. cbn [mbind outcome_bind andb].
  assert (∃ sent m' ue', (if 0 <? total
      then dl_channels now t rnti (alloc (TBS - zlen ces)) lcids TBS m (cursor ces buf) else Ok (cursor ces buf, m))
      = Ok (cursor (ces ++ sent_octets sent) buf, m') ∧
    ue_ready rnti m' ue' ∧ ue_map m' = <[rnti := ue']> (ue_map m) ∧
    (if 0 <? total then channels_serve now t (alloc (TBS - zlen ces)) lcids ue sent ue' else sent = [] ∧ ue' = ue) ∧
    sent_ok sent ∧ zlen (ces ++ sent_octets sent) <= TBS) as (sent & m' & ue' & Hd & R' & Hm & Hs & Hok & Hz).
  { destruct (0 <? total).
    - destruct (dl_channels_ok now t rnti (alloc (TBS - zlen ces)) TBS lcids m ue ces buf R Hl (Ha _) ltac:(lia) HF)
        as (sent & m' & ue' & ?). exists sent, m', ue'. tauto.
    - exists [], m, ue. rewrite app_nil_r. split_and!; try done; [|constructor|lia].
      by rewrite insert_id by apply R. }
  unfold cursor in Hd at 1 2. rewrite Hd.
  cbn [mbind outcome_bind].
  destruct (put_padding_ok (ces ++ sent_octets sent) buf TBS ltac:(lia)) as (pad & -> & Hpl & Hpad).
  cbn [mbind outcome_bind]. exists (ces ++ sent_octets sent ++ pad). do 2 eexists. exists sent, ue'.
  split; [rewrite <- !app_assoc; done|].
  assert (zlen (ces ++ sent_octets sent ++ pad) = TBS) as Hlen by (rewrite app_assoc, zlen_app; lia).
  split; [done|]. split; [cbn; destruct (ta_apply u) eqn:Eta; cbn; done|].
  split; [cbn; by destruct (ta_apply u)|]. split_and!; try done.
  intros now' id m2 recv rest Htr. unfold nr_ue_process_mac_pdu. unfold ces in *.
  rewrite (decode_pdu tag u stale sent pad rest recv TBS Hu Htag Him Hok Htr Hlen Hpad).
  by destruct (zlen (wanted recv sent) <? MAX_NUM_DATA_IND).
Qed.
End Transfer.

Definition example_ce : ce_ctrl :=
  mk_ce_ctrl true 33 0 (mk_tci_ind true 1 5) (mk_sp_csi true 0 0 [true; false; false; true])
    (mk_states true 0 0 9 (replicate 128 true)) (mk_states false 0 0 0 (replicate 128 false))
    (mk_zp false false 0 0 0) (mk_csi_im false false 0 0 false 0 0 []).

Lemma dl_mac_pdu_transfer_witness :
  returns (e ← new_nr_rlc_entity_um 1000 1000 10 6; nr_rlc_entity_um_recv_sdu 0 e [1; 2; 3] 3 7) (λ e,
    ∃ block u' m' sent ue',
      generate_dl_mac_pdu 1 0 0 17 0 0 false (λ _, 0) (λ _, replicate 32 5) 5 [4] example_ce
        [drb1_ue 17 (UM e)] 40 (replicate 40 0) = Ok (block ++ [], u', m') ∧
      channels_serve 1 0 (replicate 32 5) [4] (drb1_ue 17 (UM e)) sent ue').
Proof.
  eapply returns_mono; [apply new_um_sdu_ok; lia|]. intros e He.
  destruct (dl_mac_pdu_transfer (E := rlc_entity) (E' := rlc_entity) 1 0 0 17 0 0 (λ _, 0) (λ _, replicate 32 5) 5 [4] example_ce
    [drb1_ue 17 (UM e)] (drb1_ue 17 (UM e)) 40 (replicate 40 0)) as (block & u' & m' & sent & ue' & H & _ & _ & _ & _ & _ & Hs & _).
  - split; cbn; try split; (lia || done).
  - done.
  - lia.
  - by apply drb1_ue_ready.
  - repeat constructor; lia.
  - done.
  - vm_compute. intuition congruence.
  - apply Forall_forall. intros x Hx. apply elem_of_replicate in Hx as [-> _]. by split.
  - exists block, u', m', sent, ue'. split; [exact H|exact Hs].
Defined.
