(* ===== verification/MacPduSafe.v ===== *)
(** * The UE on arbitrary transport blocks

    Whatever the octets of a MAC PDU, the UE takes it and its RLC entities stay in order, if the
    memory goes on for six octets behind the PDU and the PDU is shorter than 2048 octets; with
    2048 octets an assertion can stop it. *)

From S2P Require Import Prelude RlcTypes RlcManager RlcManagerProofs RlcEntities MacPdu MacPduUe MacPduProofs MacWalk RlcMac MacPduLink.
From S2P Require RlcTm RlcUm RlcUmRx.

(** ** RLC takes every PDU *)

Class RlcRx (E : Type) `{!RlcOps E, !RlcTx E} := {
  rlc_recv_ok e pdu : rlc_ok e → ∃ e', rlc_recv_pdu e pdu (zlen pdu) = Ok e' ∧ rlc_ok e';
}.

Lemma entity_recv_ok x pdu : entity_ok x → ∃ x', rlc_recv_pdu x pdu (zlen pdu) = Ok x' ∧ entity_ok x'.
Proof.
  pose proof (zlen_nonneg pdu). destruct x as [e|e|e]; cbn [rlc_recv_pdu rlc_entity_ops entity_ok]; [| |done].
  - intros [W Hm]. unfold RlcTm.nr_rlc_entity_tm_recv_pdu. rewrite buf_sub_ok by lia.
    eexists. split; [done|]. cbn. split; [by destruct W|done].
  - intros (Wt & Wr & Hn).
    destruct (RlcUmRx.um_recv_pdu_ok (λ _, True) e pdu (zlen pdu) Wr ltac:(lia) ltac:(done)) as (e' & -> & Wr' & V & _).
    cbn [mbind outcome_bind]. exists (UM e'). split; [done|]. split_and!; [by eapply um_tx_wf_view|done|].
    unfold RlcUmRx.tx_view in V. congruence.
Qed.
#[export] Instance rlc_entity_rx : RlcRx rlc_entity := {| rlc_recv_ok := entity_recv_ok |}.

Section Rx.
Context {E : Type} `{!RlcOps E, !RlcTx E, !RlcRx E}.
Implicit Types (ue : nr_rlc_ue_t E) (m : list (nr_rlc_ue_t E)).

Lemma feed_ok now pdus : ∀ e, rlc_ok e → ∃ e', feed now e pdus = Ok e' ∧ rlc_ok e'.
Proof.
  induction pdus as [|p pdus IH]; intros e He; cbn [feed]; [by exists e|].
  destruct (rlc_set_time_ok now e He) as (e1 & -> & H1). cbn [mbind outcome_bind].
  destruct (rlc_recv_ok e1 p H1) as (e2 & -> & H2). cbn [mbind outcome_bind]. by apply IH.
Qed.

Lemma mac_data_ind_ok now id m ue data :
  ue_ready id m ue → Forall (λ d, 0 <= ch d <= 32) data →
  ∃ m' ue', nr_mac_rlc_data_ind now m id data = Ok m' ∧ ue_ready id m' ue' ∧
    ue_map m' = <[id := ue']> (ue_map m).
Proof.
  intros R Hd. destruct (data_ind_ok now data ue (ur_tables _ _ _ R) Hd) as (ue' & He & Wu' & Hid & _ & Hall).
  { intros r e Hr He. destruct (feed_ok now (pdus_for ue r data) e) as (e' & ? & _); [by eapply (ur_ok _ _ _ R)|eauto]. }
  pose proof (ue_map_lookup_inv _ _ _ (ur_ue _ _ _ R)) as [_ Huid].
  destruct (with_ue_ok (data_ind_loop now data) m id ue tt ue' (ur_wf _ _ _ R) (ur_ue _ _ _ R) He) as (m' & Hm & W' & Hmap);
    [congruence|].
  exists m', ue'. unfold nr_mac_rlc_data_ind. rewrite Hm. split_and!; [done| |done].
  apply (ue_ready_step id m ue); try done. intros r e' Hr He'. specialize (Hall r Hr).
  destruct (entity_of ue r) as [e|] eqn:Ee; [|congruence]. destruct Hall as (e2 & Hf & He2).
  destruct (feed_ok now (pdus_for ue r data) e) as (e3 & Hf3 & Hok); [by eapply (ur_ok _ _ _ R)|]. congruence.
Qed.
End Rx.

(** ** The loop *)

Definition in_memory (mem : bytes) (p len : Z) : Prop := 0 <= p ∧ p + len + 6 <= zlen mem ∧ Forall is_byte mem.

Lemma buf_get_byte mem i : Forall is_byte mem → 0 <= i < zlen mem → ∃ x, buf_get mem i = Ok x ∧ 0 <= x < 256.
Proof.
  intros HF Hi. destruct (lookup_lt_is_Some_2 mem (Z.to_nat i)) as [x Hx]; [unfold zlen in *; lia|].
  exists x. split; [by apply buf_get_lookup; [|lia]|]. rewrite Forall_lookup in HF. exact (HF _ _ Hx).
Qed.

Lemma get_mac_len_safe mem p len a b :
  in_memory mem p len → 0 <= a → 1 <= b →
  ∃ ret n sub, get_mac_len mem p len a b = Ok (ret, n, sub) ∧ 0 <= n ∧ 1 <= sub <= Z.max 3 b ∧
    (ret = true → 2 <= sub <= 3 ∧ n <= len ∧ 2 <= len).
Proof.
  intros (Hp & Hm & HF) Ha Hb. unfold get_mac_len. destruct (Z.ltb_spec len 2).
  { exists false, a, b. split_and!; (done || lia). }
  destruct (buf_get_byte mem p HF) as (h & -> & Hh); [lia|]. cbn [mbind outcome_bind].
  destruct (buf_get_byte mem (p + 1) HF) as (x & -> & Hx); [lia|].
  destruct (field h 6 1 =? 1); cbn [andb].
  - destruct (Z.ltb_spec len 3); [exists false, a, b; split_and!; (done || lia)|].
    destruct (buf_get_byte mem (p + 2) HF) as (y & -> & Hy); [lia|]. cbn [mbind outcome_bind].
    do 3 eexists. split; [done|]. split_and!; lia.
  - cbn [mbind outcome_bind]. do 3 eexists. split; [done|]. split_and!; lia.
   
Qed.

Lemma all_zero_safe mem n : ∀ p, 0 <= p → p + Z.of_nat n <= zlen mem → Forall is_byte mem → ∃ b, all_zero mem p n = Ok b.
Proof.
  induction n as [|n IH]; intros p Hp Hn HF; cbn [all_zero]; [by eexists|].
  destruct (buf_get_byte mem p HF) as (x & -> & _); [lia|]. cbn [mbind outcome_bind].
  destruct (negb _); [by eexists|]. apply IH; (lia || done).
Qed.

Lemma check_ra_safe mem l : ∀ p, 0 <= p → p + zlen l <= zlen mem → Forall is_byte mem →
  ∃ b, check_ra_contention_resolution mem p l = Ok b.
Proof.
  induction l as [|x l IH]; intros p Hp Hn HF; cbn [check_ra_contention_resolution]; [by eexists|].
  rewrite zlen_cons in Hn. pose proof (zlen_nonneg l).
  destruct (buf_get_byte mem p HF) as (y & -> & _); [lia|]. cbn [mbind outcome_bind].
  destruct (negb _); [by eexists|]. apply IH; (lia || done).
Qed.

(** what one round does: how much is taken, and at most one RLC PDU is added *)
Definition round_ok (len : Z) (s : rx_state) (r : outcome (verdict * Z * Z * rx_state)) : Prop :=
  match r with
  | Ok (_, n, sub, s') => 0 <= n ∧ 1 <= sub ∧ cont_res_id (rx_ue s') = cont_res_id (rx_ue s) ∧
      (∃ ev, rx_events s' = rx_events s ++ ev ∧ ∀ ta, Time_alignment ta ∈ ev → 0 <= ta < 64) ∧
      (rx_data s' = rx_data s ∨
       2 <= sub ∧ ∃ c d, rx_data s' = rx_data s ++ [mk_data_ind c d] ∧ 0 <= c <= 32 ∧ zlen (rx_data s') < MAX_NUM_DATA_IND)
  | Fatal => 2 <= len ∧ MAX_NUM_DATA_IND <= zlen (rx_data s) + 1
  | _ => False
  end.

Lemma round_quiet len s v n sub : 0 <= n → 1 <= sub → round_ok len s (Ok (v, n, sub, s)).
Proof. intros Hn Hs. cbn. split_and!; try done; [|by left]. exists []. rewrite app_nil_r. split; [done|]. set_solver. Qed.

Lemma add_ind_round mem p len v n sub c s :
  0 <= n → 2 <= sub → 2 <= len → 0 <= c <= 32 → 0 <= p → p + n <= zlen mem →
  round_ok len s (d ← add_ind mem p n c (rx_data s); Ok (v, n, sub, mk_rx (rx_ue s) (rx_events s) d)).
Proof.
  intros Hn Hs Hl Hc Hp Hm. unfold add_ind. rewrite buf_sub_ok by lia. cbn [mbind outcome_bind].
  unfold assert_fatal. rewrite zlen_app. change (zlen [_]) with 1.
  destruct (Z.ltb_spec (zlen (rx_data s) + 1) MAX_NUM_DATA_IND); cbn [mbind outcome_bind round_ok rx_ue rx_events rx_data].
  - split_and!; try (done || lia).
    + exists []. rewrite app_nil_r. split; [done|]. set_solver.
    + right. split; [done|]. do 2 eexists. split; [done|]. split; [done|]. rewrite zlen_app. done.
  - done.
Qed.

Lemma field_range x o n : 0 <= o → 0 <= n → 0 <= field x o n < 2 ^ n.
Proof. intros Ho H. rewrite field_eq by done. apply Z.mod_pos_bound. lia. Qed.

(** events without a timing advance, by a change that keeps the identity *)
Definition ra_quiet (ue : ue_mac) (r : ue_mac * list ue_event) : Prop :=
  cont_res_id r.1 = cont_res_id ue ∧ ∀ ta, Time_alignment ta ∉ r.2.

Lemma ra_succeeded_quiet ue : ra_quiet ue (nr_ra_succeeded ue).
Proof.
  unfold nr_ra_succeeded, ra_quiet. destruct (cfra ue); cbn; [split; [done|set_solver]|].
  destruct (msg3_C_RNTI ue); (split; [done|set_solver]).
Qed.
Lemma ra_failed_quiet ue : ra_quiet ue (nr_ra_contention_resolution_failed ue).
Proof.
  unfold nr_ra_contention_resolution_failed, ra_quiet. cbn. destruct (msg3_C_RNTI ue), (_ =? _); (split; [done|set_solver]).
Qed.

Lemma quiet_round len v n sub s r :
  0 <= n → 1 <= sub → ra_quiet (rx_ue s) r →
  round_ok len s (Ok (v, n, sub, mk_rx r.1 (rx_events s ++ [Contention_timer_stop] ++ r.2) (rx_data s))).
Proof.
  intros Hn Hs [Hc Hq]. cbn. split_and!; try done; [|by left]. eexists. split; [done|].
  intros ta Hta. apply elem_of_cons in Hta as [?|Hta]; [done|]. by apply Hq in Hta.
Qed.

Lemma con_res_round mem p len s :
  in_memory mem p len → 1 <= len → length (cont_res_id (rx_ue s)) = 6%nat → round_ok len s (con_res_id mem p s).
Proof.
  intros (Hp & Hm & HF) Hl Hc. unfold con_res_id. destruct (decide _); [|by apply round_quiet].
  destruct (check_ra_safe mem (cont_res_id (rx_ue s)) (p + 1)) as (ok & ->); [lia|unfold zlen in *; lia|done|].
  cbn [mbind outcome_bind]. pose proof (ra_succeeded_quiet (rx_ue s)) as H1. pose proof (ra_failed_quiet (rx_ue s)) as H2.
  destruct (RA_active (rx_ue s) && ok).
  - destruct (nr_ra_succeeded (rx_ue s)) as [ue ev]. rewrite <- app_assoc. by apply (quiet_round _ _ _ _ s (ue, ev)).
  - destruct (negb ok).
    + destruct (nr_ra_contention_resolution_failed (rx_ue s)) as [ue ev]. rewrite <- app_assoc.
      by apply (quiet_round _ _ _ _ s (ue, ev)).
    + apply (quiet_round _ _ _ _ s (rx_ue s, [])); [done|done|]. split; [done|set_solver].
Qed.

Lemma sub_pdu_safe mem p len s :
  in_memory mem p len → 1 <= len → length (cont_res_id (rx_ue s)) = 6%nat → round_ok len s (sub_pdu mem p len s).
Proof.
  intros (Hp & Hm & HF) Hl Hc. unfold sub_pdu.
  destruct (buf_get_byte mem p HF) as (h & -> & Hh); [lia|]. cbn [mbind outcome_bind].
  destruct (get_mac_len_safe mem p len 0 1) as (ret & n & sub & Eg & Hn & Hsub & Hret); [done|done|done|].
  assert (∀ c, 0 <= c <= 32 → ret = true → round_ok len s
    (d ← add_ind mem (p + sub) n c (rx_data s); Ok (Next, n, sub, mk_rx (rx_ue s) (rx_events s) d))) as Hadd.
  { intros c Hcc Hr. specialize (Hret Hr). apply add_ind_round; lia. }
  destruct (_ =? DL_SCH_LCID_CCCH) eqn:E0.
  { unfold ccch_sdu. rewrite Eg. cbn [mbind outcome_bind]. destruct ret; cbn [negb]; [|by apply round_quiet; lia].
    destruct (all_zero_safe mem (Z.to_nat (sub + n)) p) as (z & ->); [done|lia|done|]. cbn [mbind outcome_bind].
    destruct z; [by apply round_quiet; lia|]. destruct (0 <? n); [by apply Hadd|by apply round_quiet; lia]. }
  destruct (var_ce _). { rewrite Eg. apply round_quiet; lia. }
  destruct (_ =? DL_SCH_LCID_TA_COMMAND).
  { unfold ta_command. destruct (buf_get_byte mem (p + 1) HF) as (x & -> & Hx); [lia|]. cbn [mbind outcome_bind].
    destruct (negb _); [by apply round_quiet|]. cbn. split_and!; try done; [|by left].
    eexists. split; [done|]. intros ta Hta. rewrite list_elem_of_singleton in Hta. injection Hta as ->.
    by apply (field_range x 0 6). }
  destruct (_ =? DL_SCH_LCID_CON_RES_ID).
  { by apply con_res_round. }
  destruct (_ =? DL_SCH_LCID_PADDING); [by apply round_quiet|].
  destruct ((1 <=? field h 0 6) && (field h 0 6 <=? 32)) eqn:Ec.
  { unfold channel_sdu. rewrite Eg. cbn [mbind outcome_bind]. destruct ret; cbn [negb]; [|by apply round_quiet; lia].
    destruct (is_lcid_suspended _ _); [by apply round_quiet; lia|]. apply Hadd; [lia|done]. }
  apply round_quiet; [|done]. unfold fixed_ce_len.
  repeat (match goal with |- context [if ?b then _ else _] => destruct b end; [done|]). done.
Qed.

(** The loop: [k] octets have been taken. *)
Definition loop_ok (total : Z) (s : rx_state) (r : outcome (bool * rx_state)) : Prop :=
  match r with
  | Ok (_, s') => Forall (λ d, 0 <= ch d <= 32) (rx_data s') ∧
      ∃ ev, rx_events s' = rx_events s ++ ev ∧ ∀ ta, Time_alignment ta ∈ ev → 0 <= ta < 64
  | Fatal => 2 * MAX_NUM_DATA_IND <= total
  | _ => False
  end.

Lemma sub_pdus_safe fuel : ∀ mem p len s total,
  in_memory mem p len → (Z.to_nat len <= fuel)%nat → length (cont_res_id (rx_ue s)) = 6%nat →
  Forall (λ d, 0 <= ch d <= 32) (rx_data s) → 2 * zlen (rx_data s) <= p → p + len <= total →
  loop_ok total s (sub_pdus fuel mem p len s).
Proof.
  assert (∀ total s b, Forall (λ d, 0 <= ch d <= 32) (rx_data s) → loop_ok total s (Ok (b, s))) as Hend.
  { intros total s b Hd. split; [done|]. exists []. rewrite app_nil_r. split; [done|set_solver]. }
  induction fuel as [|fuel IH]; intros mem p len s total M Hf Hc Hd H2 Ht; cbn [sub_pdus];
    (destruct (Z.ltb_spec 0 len); [|by apply Hend]); [lia|]. cbn [negb].
  pose proof (sub_pdu_safe mem p len s M ltac:(lia) Hc) as R.
  destruct (sub_pdu mem p len s) as [[[[v n] sub] s']| | |]; cbn [round_ok mbind outcome_bind loop_ok] in *; [|lia|done..].
  destruct R as (Hn & Hsub & Hc' & (ev & Hev & Hta) & Hdata).
  assert (Forall (λ d, 0 <= ch d <= 32) (rx_data s') ∧ 2 * zlen (rx_data s') <= p + (sub + n)) as [Hd' H2'].
  { destruct Hdata as [->|(? & c & d & Ec & Hcc & Hlt)]; [split; [done|lia]|]. rewrite Ec. split.
    - apply Forall_app. split; [done|]. constructor; [exact Hcc|constructor].
    - rewrite zlen_app. change (zlen [mk_data_ind c d]) with 1. lia. }
  destruct v; try (split; [done|by exists ev]).
  destruct (decide (0 < len - (sub + n))) as [Hpos|Hneg].
  - destruct M as (Hp & Hm & HF).
    assert (loop_ok total s' (sub_pdus fuel mem (p + (sub + n)) (len - (sub + n)) s')) as H0.
    { apply IH; rewrite ?Hc'; try (done || lia). split_and!; (done || lia). }
    unfold loop_ok in H0. destruct (sub_pdus fuel mem _ _ s') as [[b s2]| | |]; [|done..].
    destruct H0 as [? (ev2 & Hev2 & Hta2)].
    split; [done|]. exists (ev ++ ev2). rewrite Hev2, Hev, app_assoc. split; [done|].
    intros ta [?|?]%elem_of_app; eauto.
  - assert (sub_pdus fuel mem (p + (sub + n)) (len - (sub + n)) s' = Ok (false, s')) as ->.
    { destruct fuel; cbn; (destruct (Z.ltb_spec 0 (len - (sub + n))); [lia|done]). }
    split; [done|by exists ev].
Qed.

(** ** An assertion that a PDU can trigger *)

(** subPDUs that announce an empty SDU on channel 4 *)
Definition empty_sdus (n : nat) : bytes := concat (replicate n [4; 0]).

Lemma zlen_empty_sdus n : zlen (empty_sdus n) = 2 * Z.of_nat n.
Proof.
  unfold empty_sdus. induction n as [|n IH]; [done|]. cbn [replicate concat]. rewrite zlen_app, IH.
  change (zlen [4; 0]) with 2. lia.
Qed.

Lemma decodes_empty_sdu tag : decodes tag [4; 0] (recv_sdu 4 []).
Proof.
  apply (decodes_one _ _ _ 0 2); [done|done| |].
  { intros s s'. unfold recv_sdu. destruct (is_lcid_suspended _ _); [by intros [= <-]|]. intros H. inv_ok. by subst. }
  intros pre rest len s _ Hl. unfold sub_pdu. cbn [app]. rewrite buf_get_at. cbn [mbind outcome_bind].
  change (field 4 0 6) with 4. destruct (lcid_not_ce 4) as (-> & -> & -> & -> & -> & ->); [lia|].
  unfold channel_sdu, get_mac_len, recv_sdu. change (zlen [4; 0]) with 2 in Hl. destruct (Z.ltb_spec len 2); [lia|].
  rewrite buf_get_at. cbn [mbind outcome_bind]. change (field 4 6 1 =? 1) with false. cbn [andb].
  rewrite (buf_get_behind _ _ 1 0) by done. cbn [mbind outcome_bind]. destruct (Z.ltb_spec len 0); [lia|]. cbn [negb].
  destruct (is_lcid_suspended _ _); [done|]. unfold add_ind.
  rewrite buf_sub_ok; [|pose proof (zlen_nonneg pre); lia|done|rewrite zlen_app, !zlen_cons; pose proof (zlen_nonneg rest); lia].
  cbn [Z.to_nat take mbind outcome_bind]. destruct (assert_fatal _); done.
Qed.

Lemma decodes_empty_sdus tag n : decodes tag (empty_sdus n) (recv_sdus (replicate n (4, []))).
Proof.
  induction n as [|n IH]; [exact (takes_nil _ _)|].
  apply (takes_app _ _ [4; 0] (empty_sdus n) (recv_sdu 4 []) (recv_sdus (replicate n (4, [])))); [apply decodes_empty_sdu|done].
Qed.

Lemma empty_sdus_stop recv rest :
  is_lcid_suspended recv 4 = false →
  sub_pdus (Z.to_nat 2048) (empty_sdus 1024 ++ rest) 0 2048 (mk_rx recv [] []) = Fatal.
Proof.
  intros Hs. pose proof (decodes_empty_sdus (tag_Id recv) 1024 [] rest (Z.to_nat 2048) 2048 (mk_rx recv [] []) eq_refl) as D.
  rewrite recv_sdus_eq in D by done. cbn [rx_ue rx_data] in D.
  assert (zlen (empty_sdus 1024) = 2048) as Hz by (by rewrite zlen_empty_sdus).
  assert (zlen (wanted recv (replicate 1024 (4, []))) = 1024) as Hw.
  { assert (∀ n, zlen (wanted recv (replicate n (4, []))) = Z.of_nat n) as K; [|apply (K 1024%nat)].
    intros n. unfold wanted, zlen. rewrite length_fmap. f_equal. induction n as [|n IH]; [done|].
    cbn [replicate]. rewrite filter_cons, decide_True by done. cbn [length]. by rewrite IH. }
  rewrite Hw, zlen_nil in D. change (0 + 1024 <? MAX_NUM_DATA_IND) with false in D. cbn [app mbind outcome_bind] in D.
  rewrite Hz in D. apply D; [lia|done].
Qed.

(** C14: The UE on arbitrary octets. A MAC PDU of any content, with six octets of memory behind
    it, never makes the UE read beyond that memory or loop for ever: either it is processed, the
    RLC entities stay in order and every timing advance applied has six bits, or the UE stops with
    the assertion on the number of RLC PDUs, which needs at least 2048 octets. There is such a
    PDU, made of 1024 subheaders of empty SDUs. The RLC entities satisfy the laws [RlcTx] and
    [RlcRx], that they return on every PDU: TM entities and UM entities with 6-bit numbers do, AM
    entities do not (am_reception_loops). *)
Theorem dl_mac_pdu_safe {E} `{!RlcOps E, !RlcTx E, !RlcRx E} now id (m : list (nr_rlc_ue_t E)) ue recv mem len :
  ue_ready id m ue → Forall is_byte mem → 0 <= len → len + 6 <= zlen mem →
  length (cont_res_id recv) = 6%nat → is_lcid_suspended recv 4 = false →
  ((∃ recv' ev m' ue', nr_ue_process_mac_pdu now id m recv mem len = Ok (recv', ev, m') ∧
      ue_ready id m' ue' ∧ (m' = m ∨ ue_map m' = <[id := ue']> (ue_map m)) ∧
      ∀ ta, Time_alignment ta ∈ ev → 0 <= ta < 64) ∨
   (nr_ue_process_mac_pdu now id m recv mem len = Fatal ∧ 2048 <= len)) ∧
  ∀ rest, nr_ue_process_mac_pdu now id m recv (empty_sdus 1024 ++ rest) 2048 = Fatal.
Proof.
  intros R HF Hl Hm Hc Hs. unfold nr_ue_process_mac_pdu. split.
  - pose proof (sub_pdus_safe (Z.to_nat len) mem 0 len (mk_rx recv [] []) len) as H.
    unfold loop_ok in H. destruct (sub_pdus (Z.to_nat len) mem 0 len (mk_rx recv [] [])) as [[b s]| | |].
    + destruct H as (Hd & ev & Hev & Hta); try (done || lia).
      cbn [mbind outcome_bind]. cbn [rx_events app] in Hev. destruct b.
      * left. do 3 eexists. exists ue. split; [done|]. split_and!; [done|by left|]. by rewrite Hev.
      * left. destruct (mac_data_ind_ok now id m ue (rx_data s) R Hd) as (m' & ue' & -> & R' & Hmap).
        cbn [mbind outcome_bind]. do 3 eexists. exists ue'. split; [done|]. split_and!; [done|by right|]. by rewrite Hev.
    + right. split; [done|]. apply H; (done || lia).
    + destruct H; (done || lia).
    + destruct H; (done || lia).
  - intros rest. by rewrite empty_sdus_stop.
Qed.

Definition example_ue : ue_mac :=
  mk_ue_mac 0 nrRA_SUCCEEDED false false [1; 2; 3; 4; 5; 6] 17 0 false 0 10 [mk_lc 4 false].

Lemma dl_mac_pdu_safe_witness :
  returns (e ← RlcUm.new_nr_rlc_entity_um 1000 1000 10 6; RlcUm.nr_rlc_entity_um_recv_sdu 0 e [1; 2; 3] 3 7) (λ e,
    let mem := [61; 200; 4; 255; 68; 0; 5; 129; 7; 62; 1; 1; 1; 1; 1; 1] in
    (∃ recv' ev m' ue', nr_ue_process_mac_pdu 1 17 [drb1_ue 17 (UM e)] example_ue mem 9 = Ok (recv', ev, m') ∧
      ue_ready 17 m' ue' ∧
      (m' = [drb1_ue 17 (UM e)] ∨ ue_map m' = <[17 := ue']> (ue_map [drb1_ue 17 (UM e)])) ∧
      ∀ ta, Time_alignment ta ∈ ev → 0 <= ta < 64) ∨
    (nr_ue_process_mac_pdu 1 17 [drb1_ue 17 (UM e)] example_ue mem 9 = Fatal ∧ 2048 <= 9)).
Proof.
  eapply returns_mono; [apply new_um_sdu_ok; lia|]. intros e He mem.
  destruct (dl_mac_pdu_safe 1 17 [drb1_ue 17 (UM e)] (drb1_ue 17 (UM e)) example_ue mem 9) as [H _].
  - by apply drb1_ue_ready.
  - repeat constructor; vm_compute; intuition congruence.
  - lia.
  - vm_compute. intuition congruence.
  - done.
  - done.
  - exact H.
Defined.
