(* ===== verification/MacUl.v ===== *)
(** * NR MAC: the uplink PDU of the UE

    Buffer status and power headroom reports, and the multiplexing of logical channels by
    priority and prioritised bit rate: [nr_ue_get_sdu] of nr_ue_scheduler.c with what it calls,
    [nr_write_ce_ulsch_pdu] of nr_ue_procedures.c and the tables of nr_mac_common.c.

    Pointers into the transport block are offsets from its start; [buf] is the memory there. A
    pointer to a logical channel is its element in [lc_ordered_list], whose members the functions
    here do not change. Timers are events. *)

From S2P Require Import Prelude RlcTypes RlcManager MacPdu.

(** ** Buffer size levels *)

Definition NR_SHORT_BSR_TABLE_SIZE : Z := 32.
Definition NR_LONG_BSR_TABLE_SIZE : Z := 256.

(** 38.321 Table 6.1.3.1-1 *)
Definition NR_SHORT_BSR_TABLE : list Z := [
    0;    10;    14;    20;    28;     38;     53;     74;
  102;   142;   198;   276;   384;    535;    745;   1038;
 1446;  2014;  2806;  3909;  5446;   7587;  10570;  14726;
20516; 28581; 39818; 55474; 77284; 107669; 150000; 300000].

(** 38.321 Table 6.1.3.1-2 *)
Definition NR_LONG_BSR_TABLE : list Z := [
       0;       10;       11;       12;       13;       14;       15;       16;       17;       18;       19;       20;       22;       23;        25;         26;
      28;       30;       32;       34;       36;       38;       40;       43;       46;       49;       52;       55;       59;       62;        66;         71;
      75;       80;       85;       91;       97;      103;      110;      117;      124;      132;      141;      150;      160;      170;       181;        193;
     205;      218;      233;      248;      264;      281;      299;      318;      339;      361;      384;      409;      436;      464;       494;        526;
     560;      597;      635;      677;      720;      767;      817;      870;      926;      987;     1051;     1119;     1191;     1269;      1351;       1439;
    1532;     1631;     1737;     1850;     1970;     2098;     2234;     2379;     2533;     2698;     2873;     3059;     3258;     3469;      3694;       3934;
    4189;     4461;     4751;     5059;     5387;     5737;     6109;     6506;     6928;     7378;     7857;     8367;     8910;     9488;     10104;      10760;
   11458;    12202;    12994;    13838;    14736;    15692;    16711;    17795;    18951;    20181;    21491;    22885;    24371;    25953;     27638;      29431;
   31342;    33376;    35543;    37850;    40307;    42923;    45709;    48676;    51836;    55200;    58784;    62599;    66663;    70990;     75598;      80505;
   85730;    91295;    97221;   103532;   110252;   117409;   125030;   133146;   141789;   150992;   160793;   171231;   182345;   194182;    206786;     220209;
  234503;   249725;   265935;   283197;   301579;   321155;   342002;   364202;   387842;   413018;   439827;   468377;   498780;   531156;    565634;     602350;
  641449;   683087;   727427;   774645;   824928;   878475;   935498;   996222;  1060888;  1129752;  1203085;  1281179;  1364342;  1452903;   1547213;    1647644;
 1754595;  1868488;  1989774;  2118933;  2256475;  2402946;  2558924;  2725027;  2901912;  3090279;  3290873;  3504487;  3731968;  3974215;   4232186;    4506902;
 4799451;  5110989;  5442750;  5796046;  6172275;  6572925;  6999582;  7453933;  7937777;  8453028;  9001725;  9586039; 10208280; 10870913;  11576557;   12328006;
13128233; 13980403; 14887889; 15854280; 16883401; 17979324; 19146385; 20389201; 21712690; 23122088; 24622972; 26221280; 27923336; 29735875;  31666069;   33721553;
35910462; 38241455; 40723756; 43367187; 46182206; 49179951; 52372284; 55771835; 59392055; 63247269; 67352729; 71724679; 76380419; 81338368; 162676736; 4294967295
].

Definition get_short_bsr_value (idx : Z) : outcome Z :=
  _ ← assert_fatal (idx <? NR_SHORT_BSR_TABLE_SIZE); arr_get NR_SHORT_BSR_TABLE idx.
Definition get_long_bsr_value (idx : Z) : outcome Z :=
  _ ← assert_fatal (idx <? NR_LONG_BSR_TABLE_SIZE); arr_get NR_LONG_BSR_TABLE idx.

(** Bisection, until [ju - jl] is 1. [value] is compared as an unsigned number. *)
Fixpoint bsr_bisect (fuel : nat) (get : Z → outcome Z) (value : Z) (ascend : bool) (jl ju : Z) : outcome Z :=
  if negb (1 <? ju - jl) then Ok jl
  else match fuel with
  | O => Diverge
  | S fuel =>
      let jm := (ju + jl) / 2 in
      x ← get jm;
      if eqb (x <=? value) ascend then bsr_bisect fuel get value ascend jm ju
      else bsr_bisect fuel get value ascend jl jm
  end.

Definition nr_locate_BsrIndexByBufferSize (size value : Z) : outcome Z :=
  if value =? 0 then Ok 0
  else
    let get := if size =? NR_SHORT_BSR_TABLE_SIZE then get_short_bsr_value else get_long_bsr_value in
    hi ← get (size - 1); lo ← get 0;
    let ascend := lo <=? hi in
    jl ← bsr_bisect (Z.to_nat size) get value ascend 0 (size - 1);
    x ← get jl;
    Ok (u8 (if value =? x then jl else jl + 1)).

(** ** Control elements *)

Definition UL_SCH_LCID_SINGLE_ENTRY_PHR : Z := 0x39.
Definition UL_SCH_LCID_S_TRUNCATED_BSR : Z := 0x3B.
Definition UL_SCH_LCID_L_TRUNCATED_BSR : Z := 0x3C.
Definition UL_SCH_LCID_S_BSR : Z := 0x3D.
Definition UL_SCH_LCID_L_BSR : Z := 0x3E.
Definition UL_SCH_LCID_PADDING : Z := 0x3F.

(** [NR_BSR_SHORT]: group and level *)
Record NR_BSR_SHORT := mk_bsr_short { LcgID : Z; Buffer_size : Z }.
Definition bsr_short_octet (s : NR_BSR_SHORT) : Z := pack [(Buffer_size s, 5); (LcgID s, 3)].

(** [type_bsr_t], a tagged union; the levels of the eight groups *)
Inductive type_bsr_t :=
  | b_none
  | b_short (s : NR_BSR_SHORT)
  | b_short_trunc (s : NR_BSR_SHORT)
  | b_long (lcg_bsr : list Z)
  | b_long_trunc (lcg_bsr : list Z).

(** [NR_SINGLE_ENTRY_PHR_MAC_CE] *)
Record NR_SINGLE_ENTRY_PHR_MAC_CE := mk_phr { PH : Z; PCMAX : Z }.
Definition phr_octets (p : NR_SINGLE_ENTRY_PHR_MAC_CE) : bytes := [pack [(PH p, 6); (0, 2)]; pack [(PCMAX p, 6); (0, 2)]].

(** The levels other than 0, while there is room; the octet of flags is at [flags_at]. *)
Fixpoint put_levels (flags_at mac_ce_end : Z) (i : Z) (lcg_bsr : list Z) (c : bytes * Z) : outcome (bytes * Z) :=
  match lcg_bsr with
  | [] => Ok c
  | l :: lcg_bsr =>
      if negb (l =? 0) && (c.2 <? mac_ce_end) then
        flags ← buf_get c.1 flags_at;
        buf ← buf_set c.1 flags_at (Z.lor flags (Z.shiftl 1 i));
        c ← put [l] (buf, c.2);
        put_levels flags_at mac_ce_end (i + 1) lcg_bsr c
      else put_levels flags_at mac_ce_end (i + 1) lcg_bsr c
  end.

Definition put_long_bsr (lcid mac_ce_end : Z) (lcg_bsr : list Z) (c : bytes * Z) : outcome (bytes * Z) :=
  let mark := c.2 + 2 in
  c' ← put [0] (c.1, mark);
  c' ← put_levels mark mac_ce_end 0 lcg_bsr c';
  buf ← buf_write c'.1 c.2 (NR_MAC_SUBHEADER_SHORT lcid (c'.2 - mark));
  Ok (buf, c'.2).

Definition nr_write_ce_ulsch_pdu (power_headroom : option NR_SINGLE_ENTRY_PHR_MAC_CE) (bsr : type_bsr_t)
    (mac_ce_end : Z) (c : bytes * Z) : outcome (bytes * Z) :=
  c ← (match power_headroom with
       | Some p => c ← put (NR_MAC_SUBHEADER_FIXED UL_SCH_LCID_SINGLE_ENTRY_PHR) c; put (phr_octets p) c
       | None => Ok c
       end);
  match bsr with
  | b_none => Ok c
  | b_short s => c ← put (NR_MAC_SUBHEADER_FIXED UL_SCH_LCID_S_BSR) c; put [bsr_short_octet s] c
  | b_short_trunc s => c ← put (NR_MAC_SUBHEADER_FIXED UL_SCH_LCID_S_TRUNCATED_BSR) c; put [bsr_short_octet s] c
  | b_long l => put_long_bsr UL_SCH_LCID_L_BSR mac_ce_end l c
  | b_long_trunc l => put_long_bsr UL_SCH_LCID_L_TRUNCATED_BSR mac_ce_end l c
  end.

(** ** State *)

Definition NR_MAX_NUM_LCGID : Z := 8.
Definition NR_INVALID_LCGID : Z := NR_MAX_NUM_LCGID.
Definition NR_MAX_SR_ID : Z := 8.
Definition NR_BSR_TRIGGER_REGULAR : Z := 1.
Definition NR_BSR_TRIGGER_PERIODIC : Z := 2.

Record nr_lcordered_info_t := mk_lcord {
  lo_lcid : Z;
  sr_id : Z;
  priority : Z;
  pbr : Z;
  bucket_size : Z;
  sr_DelayTimerApplied : bool;
  lo_suspended : bool;
}.

Record NR_LC_SCHEDULING_INFO := mk_lcsched { LCID_buffer_remain : Z; LCGID : Z; Bj : Z }.
#[export] Instance eta_lcsched : Eta NR_LC_SCHEDULING_INFO := λ r, mk_lcsched (LCID_buffer_remain r) (LCGID r) (Bj r).
#[export] Instance set_LCID_buffer_remain : Setter LCID_buffer_remain := ltac:(derive_setter).
#[export] Instance set_Bj : Setter Bj := ltac:(derive_setter).

Record nr_sr_info_t := mk_sr { sr_pending : bool; sr_counter : Z }.

(** the part of [NR_UE_MAC_INST_t] used here; [phr_reporting] is that of [phr_info] *)
Record ul_mac := mk_ul_mac {
  lc_ordered_list : list nr_lcordered_info_t;
  lc_sched_info : list NR_LC_SCHEDULING_INFO;
  sr_info : list nr_sr_info_t;
  BSR_reporting_active : Z;
  regularBSR_trigger_lcid : Z;
  phr_is_configured : bool;
  phr_reporting : Z;
}.
#[export] Instance eta_ul_mac : Eta ul_mac := λ r,
  mk_ul_mac (lc_ordered_list r) (lc_sched_info r) (sr_info r) (BSR_reporting_active r)
    (regularBSR_trigger_lcid r) (phr_is_configured r) (phr_reporting r).
#[export] Instance set_lc_sched_info : Setter lc_sched_info := ltac:(derive_setter).
#[export] Instance set_sr_info : Setter sr_info := ltac:(derive_setter).
#[export] Instance set_BSR_reporting_active : Setter BSR_reporting_active := ltac:(derive_setter).
#[export] Instance set_regularBSR_trigger_lcid : Setter regularBSR_trigger_lcid := ltac:(derive_setter).
#[export] Instance set_phr_reporting : Setter phr_reporting := ltac:(derive_setter).

Inductive ul_timer := Sr_DelayTimer | RetxBSR_Timer | PeriodicBSR_Timer | ProhibitTimer (id : Z) | PeriodicPHR_Timer | ProhibitPHR_Timer.
Inductive ul_event := Start (t : ul_timer) | Stop (t : ul_timer).

Definition get_lc_info_from_lcid (mac : ul_mac) (lcid : Z) : option nr_lcordered_info_t :=
  snd <$> list_find (λ l, lo_lcid l = lcid) (lc_ordered_list mac).

Definition lcid_buffer_index (lcid : Z) : outcome Z :=
  if (0 <? lcid) && (lcid <=? NR_MAX_NUM_LCID) then Ok (lcid - 1) else Fatal.

Definition get_scheduling_info_from_lcid (mac : ul_mac) (lcid : Z) : outcome NR_LC_SCHEDULING_INFO :=
  idx ← lcid_buffer_index lcid; arr_get (lc_sched_info mac) idx.

(** writing through the pointer that [get_scheduling_info_from_lcid] returns *)
Definition set_scheduling_info (mac : ul_mac) (lcid : Z) (s : NR_LC_SCHEDULING_INFO) : outcome ul_mac :=
  idx ← lcid_buffer_index lcid;
  l ← arr_set (lc_sched_info mac) idx s; Ok (mac <| lc_sched_info := l |>).

Definition lo_is_suspended (mac : ul_mac) (lcid : Z) : bool :=
  match get_lc_info_from_lcid mac lcid with Some l => lo_suspended l | None => false end.

(** ** Buffer status *)

Definition trigger_regular_bsr (mac : ul_mac) (lcid : Z) (delay : bool) : ul_mac * list ul_event :=
  (mac <| BSR_reporting_active := Z.lor (BSR_reporting_active mac) NR_BSR_TRIGGER_REGULAR |>
       <| regularBSR_trigger_lcid := lcid |>,
   [if delay then Start Sr_DelayTimer else Stop Sr_DelayTimer]).

(** [LCG_bytes[i] += n], an unsigned number of 32 bits *)
Definition lcg_add (LCG_bytes : list Z) (i n : Z) : outcome (list Z) :=
  b ← arr_get LCG_bytes i; arr_set LCG_bytes i (u32 (b + n)).

Fixpoint update_bsr_loop (l : list nr_lcordered_info_t) (regular : bool) (mac : ul_mac) (ev : list ul_event)
    (LCG_bytes : list Z) : outcome (ul_mac * list ul_event * list Z) :=
  match l with
  | [] => Ok (mac, ev, LCG_bytes)
  | lc :: l =>
      if lo_suspended lc then update_bsr_loop l regular mac ev LCG_bytes
      else
        s ← get_scheduling_info_from_lcid mac (lo_lcid lc);
        if LCGID s =? NR_INVALID_LCGID then update_bsr_loop l regular mac ev LCG_bytes
        else
          LCG_bytes ← lcg_add LCG_bytes (LCGID s) (LCID_buffer_remain s);
          if regular then update_bsr_loop l true mac ev LCG_bytes
          else
            let '(mac, e) := trigger_regular_bsr mac (lo_lcid lc) (sr_DelayTimerApplied lc) in
            update_bsr_loop l true mac (ev ++ e) LCG_bytes
  end.

Definition nr_update_bsr (mac : ul_mac) (LCG_bytes : list Z) : outcome (ul_mac * list ul_event * list Z) :=
  update_bsr_loop (lc_ordered_list mac)
    (negb (Z.land (BSR_reporting_active mac) NR_BSR_TRIGGER_REGULAR =? 0)) mac [] LCG_bytes.

(** The headroom [P_CMAX - tx_power] and [P_CMAX] as indices of 38.133; [phr_reporting] is reset. *)
Definition nr_ue_fill_phr (mac : ul_mac) (P_CMAX tx_power : Z)
  : NR_SINGLE_ENTRY_PHR_MAC_CE * ul_mac * list ul_event :=
  let headroom := P_CMAX - tx_power in
  (mk_phr (if headroom <? 22 then Z.max 0 (headroom + 32) else Z.min 0x3f (55 + (headroom - 22) / 2))
     (Z.land (Z.max 0 (P_CMAX + 29)) 0x3f),
   mac <| phr_reporting := 0 |>, [Start PeriodicPHR_Timer; Start ProhibitPHR_Timer]).

(** groups with data *)
Definition groups_with_data (LCG_bytes : list Z) : Z := zlen (filter (λ b, b ≠ 0) LCG_bytes).

(** The sizes that are kept free for BSR and PHR, and the PHR. *)
Definition nr_ue_get_sdu_mac_ce_pre (mac : ul_mac) (buflen : Z) (LCG_bytes : list Z) (tx_power P_CMAX : Z)
  : Z * option NR_SINGLE_ENTRY_PHR_MAC_CE * ul_mac * list ul_event :=
  let bsr_len :=
    if BSR_reporting_active mac =? 0 then 0
    else
      let num := groups_with_data LCG_bytes in
      if (1 <? num) && (num + 1 + 2 <=? buflen) then num + 1 + 2
      else if ((0 <? num) && (2 <=? buflen)) || negb (Z.land (BSR_reporting_active mac) NR_BSR_TRIGGER_PERIODIC =? 0)
      then 2 else 0 in
  if phr_is_configured mac && (0 <? phr_reporting mac) && (bsr_len + 3 <=? buflen) then
    let '(phr, mac, ev) := nr_ue_fill_phr mac P_CMAX tx_power in (bsr_len, Some phr, mac, ev)
  else (bsr_len, None, mac, []).

(** the group of the first channel of the list that has data *)
Fixpoint bsr_max_group (mac : ul_mac) (l : list nr_lcordered_info_t) : outcome Z :=
  match l with
  | [] => Ok 0
  | lc :: l =>
      s ← get_scheduling_info_from_lcid mac (lo_lcid lc);
      if negb (LCID_buffer_remain s =? 0) then Ok (LCGID s) else bsr_max_group mac l
  end.

(** the levels of the groups for a long BSR *)
Fixpoint long_levels (LCG_bytes : list Z) : outcome (list Z) :=
  match LCG_bytes with
  | [] => Ok []
  | b :: LCG_bytes =>
      l ← nr_locate_BsrIndexByBufferSize NR_LONG_BSR_TABLE_SIZE b;
      ls ← long_levels LCG_bytes; Ok (l :: ls)
  end.

(** which BSR fits the padding *)
Definition choose_bsr (padding_len lcg_id_bsr_max : Z) (LCG_bytes : list Z) : outcome type_bsr_t :=
  let num := groups_with_data LCG_bytes in
  let short :=
    b ← arr_get LCG_bytes lcg_id_bsr_max;
    l ← nr_locate_BsrIndexByBufferSize NR_SHORT_BSR_TABLE_SIZE b;
    Ok (mk_bsr_short lcg_id_bsr_max l) in
  if (num <? 2) && (2 <=? padding_len) then s ← short; Ok (b_short s)
  else if num + 1 + 2 <=? padding_len then l ← long_levels LCG_bytes; Ok (b_long l)
  else if padding_len =? 2 then s ← short; Ok (b_short_trunc s)
  else if 1 + 2 <=? padding_len then l ← long_levels LCG_bytes; Ok (b_long_trunc l)
  else Ok b_none.

(** what is done when a BSR is sent *)
Definition bsr_sent (mac : ul_mac) (bsr : type_bsr_t) : outcome (ul_mac * list ul_event) :=
  let ev := Start RetxBSR_Timer ::
    match bsr with b_short _ | b_long _ => [Start PeriodicBSR_Timer] | _ => [] end in
  if 0 <? regularBSR_trigger_lcid mac then
    match get_lc_info_from_lcid mac (regularBSR_trigger_lcid mac) with
    | None => Fatal
    | Some lc =>
        if (0 <=? sr_id lc) && (sr_id lc <? NR_MAX_SR_ID) then
          l ← arr_set (sr_info mac) (sr_id lc) (mk_sr false 0);
          Ok (mac <| sr_info := l |>, ev ++ [Stop (ProhibitTimer (sr_id lc))])
        else Ok (mac, ev)
    end
  else Ok (mac, ev).

(** The BSR is chosen by the padding and written with the PHR; [true] if there is one. *)
Definition nr_ue_get_sdu_mac_ce_post (mac : ul_mac) (pdu_end : Z) (phr : option NR_SINGLE_ENTRY_PHR_MAC_CE)
    (LCG_bytes : list Z) (c : bytes * Z) : outcome (bool * ul_mac * list ul_event * (bytes * Z)) :=
  g ← bsr_max_group mac (lc_ordered_list mac);
  let phr_len := if phr is Some _ then 3 else 0 in
  let padding_len := u32 (pdu_end - c.2 - phr_len) in
  bsr ← choose_bsr padding_len g LCG_bytes;
  '(sent, mac, ev) ← (if bsr is b_none then Ok (false, mac, [])
                      else '(mac, ev) ← bsr_sent mac bsr; Ok (true, mac, ev));
  c ← nr_write_ce_ulsch_pdu phr bsr pdu_end c;
  Ok (sent, mac, ev, c).

(** ** Logical channel prioritization *)

(** [select_logical_channels]: those not suspended whose bucket is not empty *)
Fixpoint select_logical_channels (mac : ul_mac) (l : list nr_lcordered_info_t) : outcome (list nr_lcordered_info_t) :=
  match l with
  | [] => Ok []
  | lc :: l =>
      if lo_suspended lc then select_logical_channels mac l
      else
        s ← get_scheduling_info_from_lcid mac (lo_lcid lc);
        ls ← select_logical_channels mac l;
        Ok (if 0 <? Bj s then lc :: ls else ls)
  end.

(** [active] is the list from the channel itself on *)
Definition get_count_lcids_same_priority (active : list nr_lcordered_info_t) : Z :=
  match active with
  | [] => 0
  | lc :: _ => u8 (zlen (filter (λ x, priority x = priority lc) active))
  end.

Fixpoint get_dataavailability_buffers (active : list nr_lcordered_info_t) (status : list bool) : outcome bool :=
  match active with
  | [] => Ok false
  | lc :: active =>
      i ← lcid_buffer_index (lo_lcid lc);
      b ← arr_get status i;
      if (b : bool) then Ok true else get_dataavailability_buffers active status
  end.

(** How much to request, and the target of the first round; the number of the round has eight
    bits here. [ep] is the share of a channel if
    there are several of its priority, [remain] what the PDU has room for. *)
Definition get_num_bytes_to_reqlc (mac : ul_mac) (same_priority_count lc_num ep remain round : Z)
    (bytes_read : list Z) : outcome (Z * Z) :=
  match get_lc_info_from_lcid mac lc_num with
  | None => Fatal
  | Some lc =>
      s ← get_scheduling_info_from_lcid mac lc_num;
      let left := LCID_buffer_remain s in
      let several := 1 <? same_priority_count in
      let target := if several then Z.min ep (pbr lc) else pbr lc in
      '(remaining, requested) ←
        (if round =? 0 then
           let pdu_remain := if several then ep else u32 remain in
           let requested := if pdu_remain <? pbr lc then Z.min pdu_remain (u32 left) else Z.min (pbr lc) (u32 left) in
           b ← arr_get bytes_read (lc_num - 1);
           let remaining := target - b in Ok (remaining, Z.min requested remaining)
         else if several then
           let requested := Z.min ep (u32 left) in
           b ← arr_get bytes_read (lc_num - 1);
           let remaining := u32 (ep - b) in Ok (remaining, Z.min requested remaining)
         else Ok (0, Z.min remain left));
      _ ← assert_fatal ((0 <=? remaining) && (requested <=? remain));
      Ok (requested, target)
  end.

Section Build.
Context {E : Type} `{!RlcOps E}.

(** what the loops of [nr_ue_get_sdu] change: the state of MAC and RLC, the memory and the
    offset of the next subPDU, which channels may have data, the bytes taken from each channel
    in this round, the number of channels of the priority still to serve, and the data left in
    each group *)
Record lcp := mk_lcp {
  l_mac : ul_mac;
  l_rlc : list (nr_rlc_ue_t E);
  l_buf : bytes;
  l_cur : Z;
  l_status : list bool;
  l_tot : list Z;
  l_num : Z;
  l_LCG : list Z;
}.
#[export] Instance eta_lcp : Eta lcp := λ r,
  mk_lcp (l_mac r) (l_rlc r) (l_buf r) (l_cur r) (l_status r) (l_tot r) (l_num r) (l_LCG r).
#[export] Instance set_l_mac : Setter l_mac := ltac:(derive_setter).
#[export] Instance set_l_rlc : Setter l_rlc := ltac:(derive_setter).
#[export] Instance set_l_buf : Setter l_buf := ltac:(derive_setter).
#[export] Instance set_l_cur : Setter l_cur := ltac:(derive_setter).
#[export] Instance set_l_status : Setter l_status := ltac:(derive_setter).
#[export] Instance set_l_tot : Setter l_tot := ltac:(derive_setter).
#[export] Instance set_l_num : Setter l_num := ltac:(derive_setter).
#[export] Instance set_l_LCG : Setter l_LCG := ltac:(derive_setter).

Section Lcp.
Context (now time_now ue_id end_for_tailer : Z).

(** One SDU of the channel, if there is room for it; [false] if the channel is done for now. *)
Definition fill_mac_sdu (lcid count ep round : Z) (x : lcp) : outcome (bool * lcp) :=
  s ← get_scheduling_info_from_lcid (l_mac x) lcid;
  let room := end_for_tailer - l_cur x in
  if lo_is_suspended (l_mac x) lcid then Ok (false, x)
  else if u64 room <? 3 then Ok (false, x)
  else
    '(requested, target) ← get_num_bytes_to_reqlc (l_mac x) count lcid ep
        (room - (if room <? 256 then 2 else 3)) (u8 round) (l_tot x);
    let header_sz := if requested <? 256 then 2 else 3 in
    '(n, rest, rlc) ← nr_mac_rlc_data_req now time_now (l_rlc x) ue_id lcid requested
                        (drop (Z.to_nat (l_cur x + header_sz)) (l_buf x));
    let buf := take (Z.to_nat (l_cur x + header_sz)) (l_buf x) ++ rest in
    let sdu_length := n mod 2 ^ 16 in
    _ ← assert_fatal (sdu_length <=? requested);
    mac ← set_scheduling_info (l_mac x) lcid (s <| Bj := Bj s - sdu_length |>);
    idx ← lcid_buffer_index lcid;
    let x := x <| l_mac := mac |> <| l_rlc := rlc |> <| l_buf := buf |> in
    if negb (0 <? sdu_length) then
      st ← arr_set (l_status x) idx false;
      Ok (false, x <| l_status := st |> <| l_num := u32 (l_num x - 1) |>)
    else
      buf ← buf_write (l_buf x) (l_cur x)
              (if header_sz =? 2 then NR_MAC_SUBHEADER_SHORT lcid sdu_length else NR_MAC_SUBHEADER_LONG lcid sdu_length);
      s ← get_scheduling_info_from_lcid mac lcid;
      mac ← set_scheduling_info mac lcid (s <| LCID_buffer_remain := LCID_buffer_remain s - sdu_length |>);
      lcg ← lcg_add (l_LCG x) (LCGID s) (- sdu_length);
      t ← arr_get (l_tot x) idx;
      let t := u32 (t + (sdu_length + (if 1 <? count then 3 else 0))) in
      tot ← arr_set (l_tot x) idx t;
      let x := x <| l_mac := mac |> <| l_buf := buf |> <| l_cur := l_cur x + (header_sz + sdu_length) |>
                 <| l_LCG := lcg |> <| l_tot := tot |> in
      if ((round =? 0) && (target <=? t)) || ((1 <? count) && (ep <=? t))
      then Ok (false, x <| l_num := u32 (l_num x - 1) |>)
      else Ok (true, x).

Fixpoint fill_loop (fuel : nat) (lcid count ep round : Z) (x : lcp) : outcome lcp :=
  if negb (0 <? end_for_tailer - l_cur x) then Ok x
  else match fuel with
  | O => Diverge
  | S fuel =>
      '(more, x) ← fill_mac_sdu lcid count ep round x;
      if (more : bool) then fill_loop fuel lcid count ep round x else Ok x
  end.

(** One round over the channels. The number of channels of the priority and the share are kept
    from one channel to the next; [l_num] is 0 when they are to be computed again. *)
Fixpoint lcp_round (fuel : nat) (round : Z) (active : list nr_lcordered_info_t) (count ep : Z) (x : lcp)
  : outcome (Z * lcp) :=
  match active with
  | [] => Ok (ep, x)
  | lc :: rest =>
      idx ← lcid_buffer_index (lo_lcid lc);
      b ← arr_get (l_status x) idx;
      if negb b then lcp_round fuel round rest count ep x
      else
        let '(count, x) :=
          if l_num x =? 0 then let n := get_count_lcids_same_priority active in (n, x <| l_num := n |>) else (count, x) in
        let remain := end_for_tailer - l_cur x in
        let ep :=
          if l_num x =? count then
            if u64 remain <? count * 3 then 0 else u32 (u64 (remain - count * 3) / count)
          else ep in
        x ← fill_loop fuel (lo_lcid lc) count ep round x;
        lcp_round fuel round rest count ep x
  end.

Fixpoint lcp_rounds (fuel fuel' : nat) (round : Z) (active : list nr_lcordered_info_t) (ep : Z) (x : lcp)
  : outcome lcp :=
  match fuel with
  | O => Diverge
  | S fuel =>
      '(ep, x) ← lcp_round fuel' round active 0 ep
                   (x <| l_tot := replicate (Z.to_nat NR_MAX_NUM_LCID) 0 |> <| l_num := 0 |>);
      more ← (if 3 <? u64 (end_for_tailer - l_cur x)
              then get_dataavailability_buffers active (l_status x) else Ok false);
      if (more : bool) then lcp_rounds fuel fuel' (round + 1) active ep x else Ok x
  end.
End Lcp.

(** The PDU of a grant of [buflen] octets. The result says whether there is one and whether it
    has a BSR. [noise] are the random numbers of the tests of the physical layer. *)
Definition nr_ue_get_sdu (now time_now ue_id : Z) (phy_test : bool) (noise : Z → Z) (mac : ul_mac)
    (m : list (nr_rlc_ue_t E)) (buflen tx_power P_CMAX : Z) (buf : bytes)
  : outcome (bool * bool * ul_mac * list ul_event * list (nr_rlc_ue_t E) * bytes) :=
  '(mac, ev, LCG_bytes) ← nr_update_bsr mac (replicate (Z.to_nat NR_MAX_NUM_LCGID) 0);
  let '(bsr_len, phr, mac, ev') := nr_ue_get_sdu_mac_ce_pre mac buflen LCG_bytes tx_power P_CMAX in
  let ev := ev ++ ev' in
  let end_for_tailer := buflen - bsr_len - (if phr is Some _ then 3 else 0) in
  match lc_ordered_list mac with
  | [] => Ok (false, false, mac, ev, m, buf)
  | _ =>
      active ← select_logical_channels mac (lc_ordered_list mac);
      x ← lcp_rounds now time_now ue_id end_for_tailer (Z.to_nat (buflen + NR_MAX_NUM_LCID + 1)) (Z.to_nat buflen)
            0 active 0 (mk_lcp mac m buf 0 (replicate (Z.to_nat NR_MAX_NUM_LCID) true) [] 0 LCG_bytes);
      '(sent, mac, ev', c) ← nr_ue_get_sdu_mac_ce_post (l_mac x) buflen phr (l_LCG x) (l_buf x, l_cur x);
      let remain := buflen - c.2 in
      buf ← (if remain =? 0 then Ok c.1
             else
               c ← put (NR_MAC_SUBHEADER_FIXED UL_SCH_LCID_PADDING) c;
               buf_write c.1 c.2 (if phy_test then noise <$> seqZ c.2 (buflen - c.2)
                                  else replicate (Z.to_nat (buflen - c.2)) 0));
      Ok (true, (sent : bool), mac, ev ++ ev', l_rlc x, buf)
  end.
End Build.
Arguments lcp : clear implicits.
