(* ===== verification/MacUlGnb.v ===== *)
(** * NR MAC: the uplink PDU at the gNB

    [nr_process_mac_pdu] and [lcid_crnti_lookahead] of gNB_scheduler_ulsch.c. The PDU starts at
    offset 0 of the memory [mem], which may go on behind it. What
    [prepare_initial_ul_rrc_message] does to the UE is a parameter: it builds configuration of
    RRC. What the code adds to the power headroom for the allocation (compute_ph_rb_factor,
    compute_ph_mcs_factor, in floating point) is the parameter [ph_factors]. Statistics are not
    modelled. *)

From S2P Require Import Prelude RlcTypes RlcManager MacPdu MacUl.
From S2P Require MacPduUe.

Definition UL_SCH_LCID_CCCH_64_BITS : Z := 0x00.
Definition UL_SCH_LCID_SRB1 : Z := 0x01.
Definition UL_SCH_LCID_SRB2 : Z := 0x02.
Definition UL_SCH_LCID_DTCH : Z := 0x04.
Definition UL_SCH_LCID_CCCH_48_BITS_REDCAP : Z := 0x23.
Definition UL_SCH_LCID_CCCH_48_BITS : Z := 0x34.
Definition UL_SCH_LCID_RECOMMENDED_BITRATE_QUERY : Z := 0x35.
Definition UL_SCH_LCID_MULTI_ENTRY_PHR_4_OCT : Z := 0x36.
Definition UL_SCH_LCID_CONFIGURED_GRANT_CONFIRMATION : Z := 0x37.
Definition UL_SCH_LCID_MULTI_ENTRY_PHR_1_OCT : Z := 0x38.
Definition UL_SCH_LCID_C_RNTI : Z := 0x3A.

(** ** Buffer status reports *)

Definition overestim_bsr_index (real_index : Z) : Z := if 0 <? real_index then real_index + 1 else real_index.

Definition estimate_ul_buffer_short_bsr (octet : Z) : outcome Z :=
  get_short_bsr_value (Z.min (overestim_bsr_index (field octet 0 5)) (NR_SHORT_BSR_TABLE_SIZE - 1)).

(** conversion to [int] *)
Definition s32 (x : Z) : Z := (x + 2 ^ 31) mod 2 ^ 32 - 2 ^ 31.

(** Over the groups, from [n] on; [at] is the offset of the next level. The sum is computed as
    an unsigned number and kept as an [int]. *)
Fixpoint long_bsr_sum (mem : bytes) (fuel : nat) (flags n at_ sum : Z) : outcome Z :=
  match fuel with
  | O => Ok sum
  | S fuel =>
      if field flags n 1 =? 0 then long_bsr_sum mem fuel flags (n + 1) at_ sum
      else
        l ← buf_get mem at_;
        v ← get_long_bsr_value (Z.min (overestim_bsr_index l) (NR_LONG_BSR_TABLE_SIZE - 1));
        long_bsr_sum mem fuel flags (n + 1) (at_ + 1) (s32 (u32 (sum + v)))
  end.
Definition estimate_ul_buffer_long_bsr (mem : bytes) (p : Z) : outcome Z :=
  flags ← buf_get mem p; long_bsr_sum mem 8 flags 0 (p + 1) 0.

(** ** State *)

(** [nr_lc_config_t], the part used here *)
Record nr_lc_config_t := mk_lc_config { gl_lcid : Z; gl_suspended : bool }.

(** the part of [NR_UE_info_t] used here; [ra_idle]: random access is in state nrRA_gNB_IDLE *)
Record gnb_ue := mk_gnb_ue {
  has_CellGroup : bool;
  lc_config : list nr_lc_config_t;
  is_redcap : bool;
  ra_idle : bool;
  estimated_ul_buffer : Z;
  sched_ul_bytes : Z;
  phr_dB : Z;
  pcmax : Z;
}.
#[export] Instance eta_gnb_ue : Eta gnb_ue := λ r,
  mk_gnb_ue (has_CellGroup r) (lc_config r) (is_redcap r) (ra_idle r) (estimated_ul_buffer r)
    (sched_ul_bytes r) (phr_dB r) (pcmax r).
#[export] Instance set_is_redcap : Setter is_redcap := ltac:(derive_setter).
#[export] Instance set_estimated_ul_buffer : Setter estimated_ul_buffer := ltac:(derive_setter).
#[export] Instance set_sched_ul_bytes : Setter sched_ul_bytes := ltac:(derive_setter).
#[export] Instance set_phr_dB : Setter phr_dB := ltac:(derive_setter).
#[export] Instance set_pcmax : Setter pcmax := ltac:(derive_setter).

Definition nr_mac_get_lc_config (ue : gnb_ue) (lcid : Z) : option nr_lc_config_t :=
  snd <$> list_find (λ c, gl_lcid c = lcid) (lc_config ue).

(** index and dBm of 38.133 *)
Definition handle_single_entry_phr (harq_pid ph_factors o1 o2 : Z) (ue : gnb_ue) : gnb_ue :=
  if harq_pid <? 0 then ue
  else
    let ph := field o1 0 6 in
    let PH := if ph <? 55 then ph - 32 else if ph <? 63 then 24 + (ph - 55) * 2 else 38 in
    ue <| phr_dB := PH + ph_factors |> <| pcmax := field o2 0 6 - 29 |>.

(** ** Subheaders *)

(** sizes of subheader and contents, and the channel; the size is 0 where it is not known *)
Definition decode_ul_mac_sub_pdu_header (mem : bytes) (p : Z) : outcome (Z * Z * Z) :=
  h ← buf_get mem p;
  let lcid := field h 0 6 in
  if lcid =? UL_SCH_LCID_CCCH_64_BITS then Ok (1, lcid, 8)
  else if (lcid =? UL_SCH_LCID_SRB1) || (lcid =? UL_SCH_LCID_SRB2)
          || ((UL_SCH_LCID_DTCH <=? lcid) && (lcid <=? UL_SCH_LCID_DTCH + 28))
          || (lcid =? UL_SCH_LCID_L_TRUNCATED_BSR) || (lcid =? UL_SCH_LCID_L_BSR) then
    if negb (field h 6 1 =? 0) then
      a ← buf_get mem (p + 1); b ← buf_get mem (p + 2); Ok (3, lcid, a * 256 + b)
    else a ← buf_get mem (p + 1); Ok (2, lcid, a)
  else if (lcid =? UL_SCH_LCID_CCCH_48_BITS_REDCAP) || (lcid =? UL_SCH_LCID_CCCH_48_BITS) then Ok (1, lcid, 6)
  else if (lcid =? UL_SCH_LCID_SINGLE_ENTRY_PHR) || (lcid =? UL_SCH_LCID_C_RNTI) then Ok (1, lcid, 2)
  else if (lcid =? UL_SCH_LCID_S_TRUNCATED_BSR) || (lcid =? UL_SCH_LCID_S_BSR) then Ok (1, lcid, 1)
  else Ok (1, lcid, 0).

(** The C-RNTI of a PDU, 0 if it has none. *)
Fixpoint crnti_loop (fuel : nat) (mem : bytes) (p pdu_len : Z) : outcome Z :=
  if negb (0 <? pdu_len) then Ok 0
  else match fuel with
  | O => Diverge
  | S fuel =>
      '(sub, lcid, mac_len) ← decode_ul_mac_sub_pdu_header mem p;
      if pdu_len <? sub + mac_len then Ok 0
      else if lcid =? UL_SCH_LCID_C_RNTI then
        a ← buf_get mem (p + 1); b ← buf_get mem (p + 2); Ok (a * 256 + b)
      else if lcid =? UL_SCH_LCID_PADDING then Ok 0
      else crnti_loop fuel mem (p + (mac_len + sub)) (pdu_len - (mac_len + sub))
  end.
Definition lcid_crnti_lookahead (mem : bytes) (pdu_len : Z) : outcome Z :=
  crnti_loop (Z.to_nat pdu_len) mem 0 pdu_len.

(** ** The loop *)

Definition GNB_MAX_NUM_DATA_IND : Z := 1024.

Record ul_rx := mk_ul_rx { u_ue : gnb_ue; u_data : list nr_rlc_data_ind_t }.

(** one more RLC PDU *)
Definition ul_add_ind (mem : bytes) (p len c : Z) (s : ul_rx) : outcome ul_rx :=
  sdu ← buf_sub mem p len;
  let d := u_data s ++ [mk_data_ind c sdu] in
  _ ← assert_fatal (zlen d <? GNB_MAX_NUM_DATA_IND);
  Ok (mk_ul_rx (u_ue s) d).

(** the reported buffer less what was received *)
Definition sdu_received (mac_len : Z) (ue : gnb_ue) : gnb_ue :=
  ue <| estimated_ul_buffer := if mac_len <=? estimated_ul_buffer ue then estimated_ul_buffer ue - mac_len else 0 |>.

Section Process.
Context (prepare_initial_ul_rrc_message : gnb_ue → bool * gnb_ue) (harq_pid ph_factors : Z).

(** The cases of the switch for SDUs; [None] stands for [return]. *)
Definition ul_ccch (mem : bytes) (p sub mac_len lcid : Z) (s : ul_rx) : outcome (option ul_rx) :=
  zero ← (if lcid =? UL_SCH_LCID_CCCH_64_BITS then MacPduUe.all_zero mem p (Z.to_nat (sub + mac_len)) else Ok false);
  if (zero : bool) then Ok None
  else
    let ue := if lcid =? UL_SCH_LCID_CCCH_48_BITS_REDCAP then u_ue s <| is_redcap := true |> else u_ue s in
    let '(ok, ue) := prepare_initial_ul_rrc_message ue in
    if (ok : bool) then s ← ul_add_ind mem (p + sub) mac_len 0 (mk_ul_rx ue (u_data s)); Ok (Some s)
    else Ok (Some (mk_ul_rx ue (u_data s))).

Definition ul_channel (mem : bytes) (p sub mac_len lcid : Z) (s : ul_rx) : outcome ul_rx :=
  match nr_mac_get_lc_config (u_ue s) lcid with
  | None => Ok s
  | Some c => if gl_suspended c then Ok s else ul_add_ind mem (p + sub) mac_len lcid s
  end.

Definition ul_bsr (est : Z) (s : ul_rx) : ul_rx :=
  mk_ul_rx (u_ue s <| estimated_ul_buffer := est |> <| sched_ul_bytes := 0 |>) (u_data s).

(** The contents of a subPDU. The result has the length by which the code goes on, which has 16
    bits. *)
Definition ul_sub_pdu (mem : bytes) (p sub lcid mac_len pdu_len : Z) (s : ul_rx) : outcome (option (Z * ul_rx)) :=
  if (lcid =? UL_SCH_LCID_CCCH_64_BITS) || (lcid =? UL_SCH_LCID_CCCH_48_BITS_REDCAP) || (lcid =? UL_SCH_LCID_CCCH_48_BITS) then
    r ← ul_ccch mem p sub mac_len lcid s; Ok (if r is Some s then Some (mac_len, s) else None)
  else if (lcid =? UL_SCH_LCID_SRB1) || (lcid =? UL_SCH_LCID_SRB2) then
    _ ← assert_fatal (has_CellGroup (u_ue s));
    s ← ul_channel mem p sub mac_len lcid s; Ok (Some (mac_len, s))
  else if (UL_SCH_LCID_DTCH <=? lcid) && (lcid <=? UL_SCH_LCID_DTCH + 28) then
    s' ← ul_channel mem p sub mac_len lcid s;
    Ok (Some (mac_len, match nr_mac_get_lc_config (u_ue s) lcid with
                       | Some c => if gl_suspended c then s' else mk_ul_rx (sdu_received mac_len (u_ue s')) (u_data s')
                       | None => s'
                       end))
  else if (lcid =? UL_SCH_LCID_RECOMMENDED_BITRATE_QUERY) || (lcid =? UL_SCH_LCID_MULTI_ENTRY_PHR_4_OCT)
          || (lcid =? UL_SCH_LCID_CONFIGURED_GRANT_CONFIRMATION) || (lcid =? UL_SCH_LCID_MULTI_ENTRY_PHR_1_OCT) then
    Ok (Some (mac_len, s))
  else if lcid =? UL_SCH_LCID_SINGLE_ENTRY_PHR then
    a ← buf_get mem (p + sub); b ← buf_get mem (p + sub + 1);
    Ok (Some (mac_len, mk_ul_rx (handle_single_entry_phr harq_pid ph_factors a b (u_ue s)) (u_data s)))
  else if lcid =? UL_SCH_LCID_C_RNTI then
    if ra_idle (u_ue s) then a ← buf_get mem (p + 1); b ← buf_get mem (p + 2); Fatal else Ok (Some (mac_len, s))
  else if (lcid =? UL_SCH_LCID_S_TRUNCATED_BSR) || (lcid =? UL_SCH_LCID_S_BSR) then
    a ← buf_get mem (p + sub); est ← estimate_ul_buffer_short_bsr a; Ok (Some (mac_len, ul_bsr est s))
  else if (lcid =? UL_SCH_LCID_L_TRUNCATED_BSR) || (lcid =? UL_SCH_LCID_L_BSR) then
    est ← estimate_ul_buffer_long_bsr mem (p + sub); Ok (Some (mac_len, ul_bsr est s))
  else Ok (Some ((pdu_len - sub) mod 2 ^ 16, s)).

Fixpoint process_loop (fuel : nat) (mem : bytes) (p pdu_len : Z) (s : ul_rx) : outcome ul_rx :=
  if negb (0 <? pdu_len) then Ok s
  else match fuel with
  | O => Diverge
  | S fuel =>
      '(sub, lcid, mac_len) ← decode_ul_mac_sub_pdu_header mem p;
      if pdu_len <? sub + mac_len then Ok s
      else
        r ← ul_sub_pdu mem p sub lcid mac_len pdu_len s;
        match r with
        | None => Ok s
        | Some (mac_len, s) => process_loop fuel mem (p + (sub + mac_len)) (pdu_len - (sub + mac_len)) s
        end
  end.

(** the state of the UE and the RLC PDUs, which the caller hands to RLC *)
Definition nr_process_mac_pdu (ue : gnb_ue) (mem : bytes) (pdu_len : Z) : outcome ul_rx :=
  _ ← buf_get mem 0;
  process_loop (Z.to_nat pdu_len) mem 0 pdu_len (mk_ul_rx ue []).
End Process.
