(* ===== verification/MacUlBsr.v ===== *)
(** * Buffer status reports: levels and what the gNB makes of them *)

From S2P Require Import Prelude Bits RlcTypes RlcManager RlcManagerProofs MacPdu MacPduProofs MacUl MacUlGnb.

(** ** Bisection in an ascending table *)

Fixpoint ascending (l : list Z) : bool :=
  match l with
  | a :: ((b :: _) as l') => (a <? b) && ascending l'
  | _ => true
  end.

Lemma ascending_lookup l : ascending l = true → ∀ i j x y, (i < j)%nat → l !! i = Some x → l !! j = Some y → x < y.
Proof.
  induction l as [|a l IH]; [done|]. intros Ha.
  assert (ascending l = true ∧ ∀ y, head l = Some y → a < y) as [Hl Hh].
  { destruct l as [|b l]; [done|]. cbn [ascending] in Ha. apply andb_prop in Ha as [Hab Hl]. split; [done|].
    intros y [= <-]. lia. }
  intros i j x y Hij Hi Hj. destruct i as [|i], j as [|j]; cbn in Hi, Hj; try lia; [|by eapply (IH Hl i j); [lia|..]].
  injection Hi as ->. destruct l as [|b l]; [done|]. specialize (Hh b eq_refl). destruct j as [|j]; [by injection Hj as <-|].
  assert (b < y); [|lia]. by apply (IH Hl 0%nat (S j)); [lia|..].
Qed.

(** a table and the function that reads it *)
Record table_ok (get : Z → outcome Z) (t : list Z) : Prop := {
  tb_get : ∀ i x, t !! Z.to_nat i = Some x → 0 <= i → get i = Ok x;
  tb_asc : ascending t = true;
  tb_zero : t !! 0%nat = Some 0;
}.

Lemma short_table_ok : table_ok get_short_bsr_value NR_SHORT_BSR_TABLE.
Proof.
  split; [|reflexivity|reflexivity]. intros i x Hx Hi. unfold get_short_bsr_value.
  apply lookup_lt_Some in Hx as Hl. change (length NR_SHORT_BSR_TABLE) with 32%nat in Hl.
  unfold assert_fatal. rewrite (proj2 (Z.ltb_lt _ _)) by (unfold NR_SHORT_BSR_TABLE_SIZE; lia). cbn [mbind outcome_bind].
  unfold arr_get. by rewrite (proj2 (Z.ltb_ge _ _)), Hx by lia.
Qed.

Lemma long_table_ok : table_ok get_long_bsr_value NR_LONG_BSR_TABLE.
Proof.
  split; [|reflexivity|reflexivity]. intros i x Hx Hi. unfold get_long_bsr_value.
  apply lookup_lt_Some in Hx as Hl. change (length NR_LONG_BSR_TABLE) with 256%nat in Hl.
  unfold assert_fatal. rewrite (proj2 (Z.ltb_lt _ _)) by (unfold NR_LONG_BSR_TABLE_SIZE; lia). cbn [mbind outcome_bind].
  unfold arr_get. by rewrite (proj2 (Z.ltb_ge _ _)), Hx by lia.
Qed.

Lemma bisect_ok get t v : table_ok get t → ∀ fuel jl ju x,
  ju - jl - 1 <= Z.of_nat fuel → 0 <= jl < ju → ju < zlen t → t !! Z.to_nat jl = Some x → x <= v →
  (∀ y, t !! Z.to_nat ju = Some y → v < y) ∨ ju = zlen t - 1 →
  ∃ j y, bsr_bisect fuel get v true jl ju = Ok j ∧ 0 <= j < zlen t - 1 ∧ t !! Z.to_nat j = Some y ∧ y <= v ∧
    ((∀ z, t !! Z.to_nat (j + 1) = Some z → v < z) ∨ j + 1 = zlen t - 1).
Proof.
  intros T. induction fuel as [|fuel IH]; intros jl ju x Hf Hj Hu Hx Hxv Hv; cbn [bsr_bisect].
  - destruct (Z.ltb_spec 1 (ju - jl)); [lia|]. cbn [negb]. replace ju with (jl + 1) in * by lia.
    exists jl, x. split_and!; (done || lia).
  - destruct (Z.ltb_spec 1 (ju - jl)); cbn [negb].
    2: { replace ju with (jl + 1) in * by lia. exists jl, x. split_and!; (done || lia). }
    assert (jl + 1 <= (ju + jl) / 2 < ju) as Hm by (split; [apply Z.div_le_lower_bound|apply Z.div_lt_upper_bound]; lia).
    destruct (lookup_lt_is_Some_2 t (Z.to_nat ((ju + jl) / 2))) as [m Hmm]; [unfold zlen in *; lia|].
    rewrite (tb_get _ _ T _ m Hmm) by lia. cbn [mbind outcome_bind].
    destruct (Z.leb_spec m v); cbn [eqb].
    + apply (IH _ _ m); (done || lia).
    + apply (IH _ _ x); try (done || lia). left. intros y Hy. rewrite Hy in Hmm. injection Hmm as ->. lia.
Qed.

(** the level of a value: the least entry of the table that is not below it, or the last *)
Definition level_ok (t : list Z) (v i : Z) : Prop :=
  0 <= i < zlen t ∧ (i = 0 ↔ v = 0) ∧
  (∀ x, t !! Z.to_nat i = Some x → v <= x ∨ i = zlen t - 1) ∧
  (∀ x, 0 < i → t !! Z.to_nat (i - 1) = Some x → x < v).

Lemma bisect_level get t v last :
  table_ok get t → 1 < zlen t → zlen t <= 256 → 0 < v → t !! Z.to_nat (zlen t - 1) = Some last →
  ∃ i, (hi ← get (zlen t - 1); lo ← get 0; jl ← bsr_bisect (Z.to_nat (zlen t)) get v (lo <=? hi) 0 (zlen t - 1);
        x ← get jl; Ok (u8 (if v =? x then jl else jl + 1))) = Ok i ∧ level_ok t v i.
Proof.
  intros T H1 H256 Hv Hlast. rewrite (tb_get _ _ T _ last Hlast) by lia. cbn [mbind outcome_bind].
  rewrite (tb_get _ _ T 0 0 (tb_zero _ _ T)) by done. cbn [mbind outcome_bind].
  assert (0 < last) by (apply (ascending_lookup t (tb_asc _ _ T) 0 (Z.to_nat (zlen t - 1))); [lia|apply (tb_zero _ _ T)|done]).
  rewrite (proj2 (Z.leb_le _ _)) by lia.
  destruct (bisect_ok get t v T (Z.to_nat (zlen t)) 0 (zlen t - 1) 0) as (j & y & -> & Hj & Hy & Hyv & Hu);
    [lia|lia|lia|apply (tb_zero _ _ T)|lia|by right|]. cbn [mbind outcome_bind].
  rewrite (tb_get _ _ T _ y Hy) by lia. cbn [mbind outcome_bind]. eexists. split; [done|].
  destruct (Z.eqb_spec v y) as [->|Hne]; (unfold u8; rewrite Z.mod_small by lia); split_and!; try lia.
  - split; [intros ->|lia]. change (Z.to_nat 0) with 0%nat in Hy. rewrite (tb_zero _ _ T) in Hy. injection Hy as <-. lia.
  - intros x Hx. rewrite Hx in Hy. injection Hy as ->. left. lia.
  - intros x Hpos Hx. apply (ascending_lookup t (tb_asc _ _ T) (Z.to_nat (j - 1)) (Z.to_nat j)); (done || lia).
  - intros x Hx. destruct Hu as [Hu|Hu]; [left; specialize (Hu x Hx); lia|right; lia].
  - intros x _. replace (j + 1 - 1) with j by lia. rewrite Hy. intros [= <-]. lia.
Qed.

Lemma short_level v : 0 <= v → ∃ i, nr_locate_BsrIndexByBufferSize NR_SHORT_BSR_TABLE_SIZE v = Ok i ∧ level_ok NR_SHORT_BSR_TABLE v i.
Proof.
  intros Hv. unfold nr_locate_BsrIndexByBufferSize. destruct (Z.eqb_spec v 0) as [->|Hne].
  - exists 0. split; [done|]. split_and!; try done. intros x [= <-]. by left.
  - apply (bisect_level get_short_bsr_value NR_SHORT_BSR_TABLE v 300000 short_table_ok); (done || lia).
Qed.

Lemma long_level v : 0 <= v → ∃ i, nr_locate_BsrIndexByBufferSize NR_LONG_BSR_TABLE_SIZE v = Ok i ∧ level_ok NR_LONG_BSR_TABLE v i.
Proof.
  intros Hv. unfold nr_locate_BsrIndexByBufferSize. destruct (Z.eqb_spec v 0) as [->|Hne].
  - exists 0. split; [done|]. split_and!; try done. intros x [= <-]. by left.
  - apply (bisect_level get_long_bsr_value NR_LONG_BSR_TABLE v 4294967295 long_table_ok); (done || lia).
Qed.

(** ** The octets of a long BSR *)

(** the groups whose level is written when there is room for [k] *)
Fixpoint reported (k : Z) (l : list Z) : list bool :=
  match l with
  | [] => []
  | x :: l => if negb (x =? 0) && (0 <? k) then true :: reported (k - 1) l else false :: reported k l
  end.

Fixpoint picked (bs : list bool) (l : list Z) : list Z :=
  match bs, l with
  | true :: bs, x :: l => x :: picked bs l
  | false :: bs, _ :: l => picked bs l
  | _, _ => []
  end.

Fixpoint flag_val (bs : list bool) : Z :=
  match bs with
  | [] => 0
  | b :: bs => Z.b2z b + 2 * flag_val bs
  end.

Lemma flag_val_range bs : 0 <= flag_val bs < 2 ^ zlen bs.
Proof.
  induction bs as [|b bs IH]; [done|]. cbn [flag_val]. rewrite zlen_cons, Z.pow_add_r by (done || apply zlen_nonneg).
  destruct b; cbn [Z.b2z]; lia.
Qed.

Lemma flag_val_snoc bs b : flag_val (bs ++ [b]) = flag_val bs + 2 ^ zlen bs * Z.b2z b.
Proof.
  induction bs as [|c bs IH]; cbn [app flag_val]; [destruct b; done|].
  rewrite IH, zlen_cons, Z.pow_add_r by (done || apply zlen_nonneg). lia.
Qed.

Lemma flag_val_set bs : Z.lor (flag_val bs) (Z.shiftl 1 (zlen bs)) = flag_val (bs ++ [true]).
Proof.
  pose proof (flag_val_range bs). pose proof (zlen_nonneg bs).
  rewrite flag_val_snoc, Z.lor_comm, lor_shiftl_add by done. cbn [Z.b2z]. lia.
Qed.

Definition long_bsr_octets (lcid k : Z) (l : list Z) : bytes :=
  let levels := picked (reported k l) l in
  NR_MAC_SUBHEADER_SHORT lcid (1 + zlen levels) ++ flag_val (reported k l) :: levels.

Lemma cursor_set pre x y mid buf0 :
  zlen pre + 1 + zlen mid <= zlen buf0 →
  buf_get (cursor (pre ++ x :: mid) buf0).1 (zlen pre) = Ok x ∧
  buf_set (cursor (pre ++ x :: mid) buf0).1 (zlen pre) y = Ok (cursor (pre ++ y :: mid) buf0).1.
Proof.
  intros H. pose proof (zlen_nonneg pre). pose proof (zlen_nonneg mid). unfold cursor. cbn [fst]. split.
  - apply buf_get_lookup; [|done]. unfold zlen. rewrite Nat2Z.id, <- app_assoc, lookup_app_r, Nat.sub_diag by lia. done.
  - assert (zlen ((pre ++ x :: mid) ++ drop (length (pre ++ x :: mid)) buf0) = zlen buf0) as Hc
      by (apply (zlen_cursor (pre ++ x :: mid) buf0); rewrite zlen_app, zlen_cons; lia).
    rewrite buf_set_ok by lia.
    f_equal. unfold zlen. rewrite Nat2Z.id. rewrite <- !app_assoc, insert_app_r_alt, Nat.sub_diag by lia.
    cbn [app insert list_insert]. rewrite !length_app. done.
Qed.

Lemma put_levels_ok l : ∀ pre done_ mid buf0 end_,
  let c := cursor (pre ++ flag_val done_ :: mid) buf0 in
  c.2 <= end_ <= zlen buf0 →
  let bs := reported (end_ - c.2) l in
  put_levels (zlen pre) end_ (zlen done_) l c = Ok (cursor (pre ++ flag_val (done_ ++ bs) :: (mid ++ picked bs l)) buf0) ∧
  c.2 + zlen (picked bs l) <= end_.
Proof.
  induction l as [|x l IH]; intros pre done_ mid buf0 end_ c He bs; cbn [put_levels].
  { unfold bs. cbn [reported picked]. rewrite !app_nil_r, zlen_nil. split; [done|lia]. }
  unfold bs, c in *. clear bs c. cbn [cursor fst snd] in *. rewrite zlen_app, zlen_cons in *.
  pose proof (zlen_nonneg pre). pose proof (zlen_nonneg mid). cbn [reported].
  assert ((zlen pre + (1 + zlen mid) <? end_) = (0 <? end_ - (zlen pre + (1 + zlen mid)))) as Hb.
  { destruct (Z.ltb_spec (zlen pre + (1 + zlen mid)) end_), (Z.ltb_spec 0 (end_ - (zlen pre + (1 + zlen mid)))); (done || lia). }
  rewrite <- Hb. destruct (negb (x =? 0) && (zlen pre + (1 + zlen mid) <? end_)) eqn:E.
  - apply andb_prop in E as [_ Hlt%Z.ltb_lt].
    destruct (cursor_set pre (flag_val done_) (flag_val (done_ ++ [true])) mid buf0 ltac:(lia)) as [Hg Hs].
    cbn [cursor fst] in Hg, Hs. rewrite Hg. cbn [mbind outcome_bind]. rewrite flag_val_set, Hs. cbn [mbind outcome_bind].
    assert (∀ n, n = zlen (pre ++ flag_val (done_ ++ [true]) :: mid) →
      put [x] ((pre ++ flag_val (done_ ++ [true]) :: mid) ++ drop (length (pre ++ flag_val (done_ ++ [true]) :: mid)) buf0, n)
      = Ok (cursor (pre ++ flag_val (done_ ++ [true]) :: (mid ++ [x])) buf0)) as Hp.
    { intros n ->. replace (pre ++ _ :: (mid ++ [x])) with ((pre ++ flag_val (done_ ++ [true]) :: mid) ++ [x])
        by (by rewrite <- app_assoc). apply put_ok. rewrite zlen_app, zlen_cons. change (zlen [x]) with 1. lia. }
    rewrite Hp by (by rewrite zlen_app, zlen_cons). cbn [mbind outcome_bind].
    specialize (IH pre (done_ ++ [true]) (mid ++ [x]) buf0 end_). cbv zeta in IH.
    change (cursor (pre ++ flag_val (done_ ++ [true]) :: mid ++ [x]) buf0).2
      with (zlen (pre ++ flag_val (done_ ++ [true]) :: mid ++ [x])) in IH.
    rewrite !zlen_app, zlen_cons, !zlen_app in IH. change (zlen [true]) with 1 in IH. change (zlen [x]) with 1 in IH.
    replace (end_ - (zlen pre + (1 + (zlen mid + 1)))) with (end_ - (zlen pre + (1 + zlen mid)) - 1) in IH by lia.
    destruct IH as [-> IH]; [lia|]. cbn [picked]. rewrite <- !app_assoc, zlen_cons. cbn [app]. split; [done|lia].
  - specialize (IH pre (done_ ++ [false]) mid buf0 end_). cbv zeta in IH.
    change (cursor (pre ++ flag_val (done_ ++ [false]) :: mid) buf0).2
      with (zlen (pre ++ flag_val (done_ ++ [false]) :: mid)) in IH.
    rewrite !zlen_app, zlen_cons in IH. change (zlen [false]) with 1 in IH.
    assert (flag_val (done_ ++ [false]) = flag_val done_) as Hf by (rewrite flag_val_snoc; cbn [Z.b2z]; lia).
    rewrite Hf in IH. destruct IH as [-> IH2]; [lia|]. cbn [picked]. rewrite <- !app_assoc. cbn [app]. split; [done|lia].
Qed.

Lemma put_long_bsr_ok lcid end_ l pre buf0 :
  length l = 8%nat → zlen pre + 3 <= end_ <= zlen buf0 →
  put_long_bsr lcid end_ l (cursor pre buf0) = Ok (cursor (pre ++ long_bsr_octets lcid (end_ - (zlen pre + 3)) l) buf0) ∧
  zlen pre + zlen (long_bsr_octets lcid (end_ - (zlen pre + 3)) l) <= end_.
Proof.
  intros Hl He. unfold put_long_bsr. cbn [cursor fst snd].
  assert (∃ g, take 2 (drop (length pre) buf0) = g ∧ zlen g = 2) as (g & Hg & Hg2).
  { eexists. split; [done|]. pose proof (zlen_nonneg pre). unfold zlen in *. rewrite length_take, length_drop. lia. }
  assert (pre ++ drop (length pre) buf0 = (cursor (pre ++ g) buf0).1) as ->.
  { cbn [cursor fst]. rewrite <- app_assoc, length_app, <- Hg. f_equal.
    replace (length (take 2 (drop (length pre) buf0))) with 2%nat by (rewrite Hg; unfold zlen in Hg2; lia).
    rewrite <- (drop_drop buf0), take_drop. done. }
  assert (zlen pre + 2 = (cursor (pre ++ g) buf0).2) as -> by (cbn [cursor snd]; rewrite zlen_app; lia).
  rewrite <- surjective_pairing, put_ok by (rewrite zlen_app; change (zlen [0]) with 1; lia).
  cbn [mbind outcome_bind]. change (cursor (pre ++ g) buf0).2 with (zlen (pre ++ g)).
  pose proof (put_levels_ok l (pre ++ g) [] [] buf0 end_) as H. cbv zeta in H.
  change (cursor ((pre ++ g) ++ flag_val [] :: []) buf0) with (cursor ((pre ++ g) ++ [0]) buf0) in H.
  change (cursor ((pre ++ g) ++ [0]) buf0).2 with (zlen ((pre ++ g) ++ [0])) in H.
  rewrite !zlen_app in H. change (zlen [0]) with 1 in H. change (zlen (@nil bool)) with 0 in H.
  replace (zlen pre + zlen g + 1) with (zlen pre + 3) in H by lia.
  destruct H as [H1 H2]; [lia|]. rewrite zlen_app. rewrite H1. cbn [mbind outcome_bind app].
  set (bs := reported (end_ - (zlen pre + 3)) l) in *. cbn [cursor fst snd].
  unfold long_bsr_octets. fold bs. rewrite !zlen_app, zlen_cons.
  change (zlen (NR_MAC_SUBHEADER_SHORT lcid (1 + zlen (picked bs l)))) with 2. split; [|lia].
  replace (zlen pre + zlen g + (1 + zlen (picked bs l)) - (zlen pre + zlen g)) with (1 + zlen (picked bs l)) by lia.
  pose proof (zlen_nonneg pre). pose proof (zlen_nonneg (picked bs l)).
  set (h := NR_MAC_SUBHEADER_SHORT lcid (1 + zlen (picked bs l))).
  set (tail := flag_val bs :: picked bs l).
  assert (zlen h = 2) as Hh by done.
  rewrite buf_write_ok; [|done|].
  2: { pose proof (zlen_cursor ((pre ++ g) ++ tail) buf0) as Hc. cbn [cursor fst] in Hc. rewrite Hc; [lia|].
    rewrite !zlen_app. unfold tail. rewrite zlen_cons. lia. }
  cbn [mbind outcome_bind]. f_equal. unfold cursor. rewrite Hh.
  assert (length g = length h) as Hgh by (unfold zlen in *; lia).
  f_equal; [|rewrite zlen_app; unfold tail; rewrite zlen_app, zlen_cons; lia].
  rewrite <- !app_assoc. unfold zlen at 1. rewrite Nat2Z.id, take_app_length. f_equal.
  rewrite !length_app, Hgh. f_equal.
  replace (Z.to_nat (zlen pre + 2)) with (length pre + 2)%nat by (unfold zlen; lia).
  rewrite drop_app_add, drop_app_length'; [done|]. unfold zlen in Hh. lia.
Qed.

(** ** What the gNB reads *)

Definition level_estimate (l : Z) : outcome Z :=
  get_long_bsr_value (Z.min (overestim_bsr_index l) (NR_LONG_BSR_TABLE_SIZE - 1)).

Fixpoint sum_levels (sum : Z) (levels : list Z) : outcome Z :=
  match levels with
  | [] => Ok sum
  | l :: levels => v ← level_estimate l; sum_levels (s32 (u32 (sum + v))) levels
  end.

Lemma length_reported l : ∀ k, length (reported k l) = length l.
Proof. induction l as [|x l IH]; intros k; cbn [reported]; [done|]. destruct (_ && _); cbn; by rewrite IH. Qed.

Lemma length_picked bs : ∀ l, (length (picked bs l) <= length l)%nat.
Proof. induction bs as [|[] bs IH]; intros [|x l]; cbn; try lia; specialize (IH l); lia. Qed.

Lemma long_bsr_sum_ok bs : ∀ l pre rest flags n sum,
  length l = length bs → 0 <= n → flags / 2 ^ n = flag_val bs →
  long_bsr_sum (pre ++ picked bs l ++ rest) (length bs) flags n (zlen pre) sum = sum_levels sum (picked bs l).
Proof.
  induction bs as [|b bs IH]; intros l pre rest flags n sum Hl Hn Hf; [done|].
  destruct l as [|x l]; [done|]. cbn [length long_bsr_sum]. injection Hl as Hl.
  assert (field flags n 1 = Z.b2z b ∧ flags / 2 ^ (n + 1) = flag_val bs) as [-> Hf'].
  { rewrite field_eq, Hf by done. cbn [flag_val]. rewrite Z.pow_add_r, <- Z.div_div, Hf by lia. cbn [flag_val].
    change (2 ^ 1) with 2. rewrite (Z.mul_comm 2), Z.mod_add, Z.div_add by done. destruct b; done. }
  destruct b; cbn [Z.b2z Z.eqb picked app].
  - rewrite (buf_get_lookup _ _ x); [|unfold zlen; rewrite Nat2Z.id, lookup_app_r, Nat.sub_diag by lia; done|apply zlen_nonneg].
    cbn [mbind outcome_bind sum_levels]. unfold level_estimate.
    destruct (get_long_bsr_value _) as [v| | |]; [|done..]. cbn [mbind outcome_bind].
    specialize (IH l (pre ++ [x]) rest flags (n + 1) (s32 (u32 (sum + v))) Hl ltac:(lia) Hf').
    rewrite zlen_app, <- app_assoc in IH. exact IH.
  - apply IH; (done || lia).
Qed.

Lemma estimate_long_octets l k pre rest :
  length l = 8%nat →
  estimate_ul_buffer_long_bsr (pre ++ (flag_val (reported k l) :: picked (reported k l) l) ++ rest) (zlen pre)
  = sum_levels 0 (picked (reported k l) l).
Proof.
  intros Hl. unfold estimate_ul_buffer_long_bsr. set (bs := reported k l).
  assert (length bs = 8%nat) as Hb by (unfold bs; by rewrite length_reported).
  rewrite (buf_get_lookup _ _ (flag_val bs)); [|unfold zlen; rewrite Nat2Z.id, lookup_app_r, Nat.sub_diag by lia; done|apply zlen_nonneg].
  cbn [mbind outcome_bind].
  pose proof (long_bsr_sum_ok bs l (pre ++ [flag_val bs]) rest (flag_val bs) 0 0) as H.
  rewrite zlen_app, <- app_assoc, Hb in H. apply H; [done|done|]. by rewrite Z.div_1_r.
Qed.

(** an estimate for a level up to 253 *)
Lemma level_estimate_ok v i :
  0 <= v <= 81338368 → level_ok NR_LONG_BSR_TABLE v i →
  ∃ est, level_estimate i = Ok est ∧ v <= est <= 162676736 ∧ (i = 0 → est = 0).
Proof.
  intros Hv (Hi & H0 & Hup & Hlow). change (zlen NR_LONG_BSR_TABLE) with 256 in *.
  assert (i <= 253) as H253.
  { destruct (decide (i <= 253)); [done|]. destruct (lookup_lt_is_Some_2 NR_LONG_BSR_TABLE (Z.to_nat (i - 1))) as [x Hx].
    { change (length NR_LONG_BSR_TABLE) with 256%nat. lia. }
    specialize (Hlow x ltac:(lia) Hx). assert (81338368 <= x); [|lia].
    destruct (decide (i = 254)) as [->|]; [by injection Hx as <-|].
    assert (81338368 < x); [|lia].
    by apply (ascending_lookup NR_LONG_BSR_TABLE eq_refl 253 (Z.to_nat (i - 1))); [lia|..]. }
  unfold level_estimate, overestim_bsr_index. destruct (Z.ltb_spec 0 i).
  - rewrite Z.min_l by (unfold NR_LONG_BSR_TABLE_SIZE; lia).
    destruct (lookup_lt_is_Some_2 NR_LONG_BSR_TABLE (Z.to_nat (i + 1))) as [y Hy].
    { change (length NR_LONG_BSR_TABLE) with 256%nat. lia. }
    destruct (lookup_lt_is_Some_2 NR_LONG_BSR_TABLE (Z.to_nat i)) as [x Hx].
    { change (length NR_LONG_BSR_TABLE) with 256%nat. lia. }
    exists y. rewrite (tb_get _ _ long_table_ok _ y Hy) by lia. split; [done|].
    assert (x < y) by (apply (ascending_lookup NR_LONG_BSR_TABLE eq_refl (Z.to_nat i) (Z.to_nat (i + 1))); (done || lia)).
    specialize (Hup x Hx). split; [|lia]. split; [lia|].
    destruct (decide (i = 253)) as [->|]; [injection Hy as <-; lia|].
    assert (y < 162676736); [|lia]. by apply (ascending_lookup NR_LONG_BSR_TABLE eq_refl (Z.to_nat (i + 1)) 254); [lia|..].
  - assert (i = 0) as -> by lia. exists 0. rewrite (proj1 H0) by done. split; [done|]. lia.
Qed.

Lemma sum_levels_ok vs is_ : Forall2 (level_ok NR_LONG_BSR_TABLE) vs is_ → Forall (λ v, 0 <= v <= 81338368) vs →
  ∀ k s, groups_with_data vs <= k → 0 <= s → s + zlen vs * 162676736 < 2 ^ 31 →
  ∃ est, sum_levels s (picked (reported k is_) is_) = Ok est ∧ s + sumZ id vs <= est < 2 ^ 31.
Proof.
  intros H. induction H as [|v i vs is_ Hvi H IH]; intros HF k s Hk Hs Hb; cbn [reported].
  { exists s. change (zlen (@nil Z)) with 0 in Hb. rewrite sumZ_nil. split; [done|lia]. }
  apply Forall_cons in HF as [Hv HF]. rewrite zlen_cons in Hb. pose proof (zlen_nonneg vs).
  destruct (level_estimate_ok v i Hv Hvi) as (e & He & Hve & _).
  unfold groups_with_data in Hk, IH. rewrite filter_cons in Hk. rewrite sumZ_cons.
  destruct Hvi as (Hi & Hi0 & _). destruct (Z.eqb_spec i 0) as [Ei|Ei]; cbn [negb andb].
  - assert (v = 0) as Hv0 by tauto. subst v i. rewrite decide_False in Hk by (intros Hx; done). cbn [picked].
    destruct (IH HF k s Hk Hs ltac:(lia)) as (est & -> & Hest). exists est. split; [done|]. unfold id at 1. lia.
  - rewrite decide_True in Hk by (intros ->; tauto). rewrite zlen_cons in Hk.
    pose proof (zlen_nonneg (filter (λ b, b ≠ 0) vs)). destruct (Z.ltb_spec 0 k); [|lia]. cbn [picked sum_levels].
    rewrite He. cbn [mbind outcome_bind].
    assert (s32 (u32 (s + e)) = s + e) as ->.
    { unfold s32, u32. rewrite (Z.mod_small (s + e)) by lia. rewrite Z.mod_small by lia. lia. }
    destruct (IH HF (k - 1) (s + e)) as (est & -> & Hest); [lia|lia|lia|]. exists est. split; [done|]. unfold id at 1. lia.
Qed.

Lemma long_levels_ok vs : Forall (λ v, 0 <= v) vs → ∃ l, long_levels vs = Ok l ∧ Forall2 (level_ok NR_LONG_BSR_TABLE) vs l.
Proof.
  induction 1 as [|v vs Hv _ (l & Hl & HF)]; cbn [long_levels]; [by exists []|].
  destruct (long_level v Hv) as (i & -> & Hi). cbn [mbind outcome_bind]. rewrite Hl. cbn [mbind outcome_bind].
  eexists. split; [done|]. by constructor.
Qed.

Lemma short_estimate g v i :
  level_ok NR_SHORT_BSR_TABLE v i → 0 <= v →
  ∃ est, estimate_ul_buffer_short_bsr (bsr_short_octet (mk_bsr_short g i)) = Ok est ∧ 0 <= est ∧
    (v = 0 → est = 0) ∧ (v <= 300000 → v <= est) ∧ (300000 < v → est = 300000).
Proof.
  intros (Hi & H0 & Hup & Hlow) Hv. change (zlen NR_SHORT_BSR_TABLE) with 32 in *.
  unfold estimate_ul_buffer_short_bsr, bsr_short_octet. cbn [Buffer_size LcgID].
  rewrite field_first by lia. rewrite Z.mod_small by (change (2 ^ 5) with 32; lia).
  assert (∃ est, get_short_bsr_value (Z.min (overestim_bsr_index i) (NR_SHORT_BSR_TABLE_SIZE - 1)) = Ok est ∧
    (i = 0 → est = 0) ∧ (31 <= i + 1 → est = 300000) ∧
    (0 < i → i < 30 → NR_SHORT_BSR_TABLE !! Z.to_nat (i + 1) = Some est)) as (est & He & E0 & Etop & Emid).
  { unfold overestim_bsr_index. change (NR_SHORT_BSR_TABLE_SIZE - 1) with 31. destruct (Z.ltb_spec 0 i).
    - destruct (lookup_lt_is_Some_2 NR_SHORT_BSR_TABLE (Z.to_nat (Z.min (i + 1) 31))) as [y Hy].
      { change (length NR_SHORT_BSR_TABLE) with 32%nat. lia. }
      exists y. split; [apply (tb_get _ _ short_table_ok); [done|lia]|]. split; [lia|]. split.
      + intros Hge. replace (Z.min (i + 1) 31) with 31 in Hy by lia. by injection Hy as <-.
      + intros _ Hlt. by replace (Z.min (i + 1) 31) with (i + 1) in Hy by lia.
    - exists 0. assert (i = 0) as -> by lia. split_and!; (done || lia). }
  exists est. split; [done|]. destruct (decide (i = 0)) as [->|Hi0].
  { assert (v = 0) as -> by tauto. rewrite E0 by done. lia. }
  assert (v ≠ 0) by tauto.
  destruct (lookup_lt_is_Some_2 NR_SHORT_BSR_TABLE (Z.to_nat i)) as [x Hx].
  { change (length NR_SHORT_BSR_TABLE) with 32%nat. lia. }
  destruct (decide (31 <= i + 1)) as [Htop|Hmid].
  - rewrite Etop by done. lia.
  - specialize (Emid ltac:(lia) ltac:(lia)).
    assert (x < est) by (apply (ascending_lookup NR_SHORT_BSR_TABLE eq_refl (Z.to_nat i) (Z.to_nat (i + 1))); (done || lia)).
    assert (est <= 300000).
    { assert (est = 300000 ∨ est < 300000); [|lia].
      destruct (decide (i + 1 = 31)); [lia|]. right.
      by apply (ascending_lookup NR_SHORT_BSR_TABLE eq_refl (Z.to_nat (i + 1)) 31); [lia|..]. }
    destruct (Hup x Hx) as [?|?]; [|lia]. assert (0 <= x); [|lia].
    assert (0 < x); [|lia]. by apply (ascending_lookup NR_SHORT_BSR_TABLE eq_refl 0 (Z.to_nat i)); [lia|..].
Qed.

Lemma picked_all vs l : Forall2 (level_ok NR_LONG_BSR_TABLE) vs l → ∀ k, groups_with_data vs <= k →
  zlen (picked (reported k l) l) = groups_with_data vs.
Proof.
  unfold groups_with_data. induction 1 as [|v i vs l (_ & H0 & _) _ IH]; intros k Hk; [done|]. cbn [reported].
  rewrite filter_cons in *. destruct (Z.eqb_spec i 0) as [->|Hi]; cbn [negb andb].
  - rewrite decide_False in * by (intros Hx; apply Hx; tauto). by apply IH.
  - rewrite decide_True in * by (intros ->; tauto). rewrite zlen_cons in *.
    pose proof (zlen_nonneg (filter (λ b, b ≠ 0) vs)). destruct (Z.ltb_spec 0 k); [|lia]. cbn [picked].
    rewrite zlen_cons, IH by lia. done.
Qed.

(** C31: Buffer status reports. The UE finds the level of every amount of data; what the gNB takes
    a short report for is at least that amount, up to 300000 octets, and exactly 0 for none. A
    long report, written by the UE with room for the levels of all groups with data and read by
    the gNB in whatever memory it lies, gives at least the sum of the groups, if none has more
    than 81338368 octets (an estimate that fits an int); but for a report of one group with more,
    the largest level, the gNB takes the entry after it, 2^32 - 1, and the estimate of the buffer
    is -1. *)
Theorem bsr_estimate_covers :
  (∀ g v, 0 <= v → ∃ i est,
     nr_locate_BsrIndexByBufferSize NR_SHORT_BSR_TABLE_SIZE v = Ok i ∧ 0 <= i < 32 ∧
     estimate_ul_buffer_short_bsr (bsr_short_octet (mk_bsr_short g i)) = Ok est ∧
     (v = 0 → est = 0) ∧ (v <= 300000 → v <= est) ∧ (300000 < v → est = 300000)) ∧
  (∀ vs lcid end_ pre buf0, length vs = 8%nat → Forall (λ v, 0 <= v < 2 ^ 32) vs →
     zlen pre + 3 + groups_with_data vs <= end_ <= zlen buf0 → ∃ l mem,
     long_levels vs = Ok l ∧ (put_long_bsr lcid end_ l (cursor pre buf0)) = Ok (mem, zlen pre + 3 + groups_with_data vs) ∧
     (Forall (λ v, v <= 81338368) vs →
        ∃ est, estimate_ul_buffer_long_bsr mem (zlen pre + 2) = Ok est ∧ sumZ id vs <= est < 2 ^ 31)) ∧
  (∀ v i, 81338368 < v < 2 ^ 32 → nr_locate_BsrIndexByBufferSize NR_LONG_BSR_TABLE_SIZE v = Ok i →
     sum_levels 0 [i] = Ok (-1)).
Proof.
  split_and!.
  - intros g v Hv. destruct (short_level v Hv) as (i & Hi & Hl).
    destruct (short_estimate g v i Hl Hv) as (est & He & _ & H0 & H1 & H2). exists i, est.
    split_and!; try done; apply Hl.
  - intros vs lcid end_ pre buf0 H8 HF He. destruct (long_levels_ok vs) as (l & Hl & H2).
    { eapply Forall_impl; [exact HF|]. cbn. lia. }
    assert (length l = 8%nat) as Hl8 by (rewrite <- H8; symmetry; by eapply Forall2_length).
    destruct (put_long_bsr_ok lcid end_ l pre buf0 Hl8) as [Hp Hz].
    { assert (0 <= groups_with_data vs) by apply zlen_nonneg. lia. }
    set (k := end_ - (zlen pre + 3)) in *.
    assert (zlen (picked (reported k l) l) = groups_with_data vs) as Hn by (apply picked_all; [done|subst k; lia]).
    exists l. eexists. split; [done|]. split.
    { rewrite Hp. unfold cursor. do 2 f_equal. unfold long_bsr_octets. rewrite !zlen_app, zlen_cons, Hn.
      change (zlen (NR_MAC_SUBHEADER_SHORT _ _)) with 2. lia. }
    intros Hmax. destruct (sum_levels_ok vs l H2) with (k := k) (s := 0) as (est & Hs & Hest); try (subst k; lia).
    { apply Forall_and. split; [eapply Forall_impl; [exact HF|cbn; lia]|done]. }
    { unfold zlen. rewrite H8. lia. }
    exists est. split; [|lia]. rewrite <- Hs. unfold long_bsr_octets. rewrite <- app_assoc.
    assert (zlen pre + 2 = zlen (pre ++ NR_MAC_SUBHEADER_SHORT lcid (1 + zlen (picked (reported k l) l)))) as ->
      by (by rewrite zlen_app).
    rewrite <- app_assoc. rewrite (app_assoc pre). by apply estimate_long_octets.
  - intros v i Hv Hi. destruct (long_level v ltac:(lia)) as (i' & Hi' & Hb & H0 & Hup & Hlow). rewrite Hi in Hi'.
    injection Hi' as <-. change (zlen NR_LONG_BSR_TABLE) with 256 in *.
    assert (254 <= i) as H254.
    { destruct (decide (254 <= i)); [done|].
      destruct (lookup_lt_is_Some_2 NR_LONG_BSR_TABLE (Z.to_nat i)) as [x Hx].
      { change (length NR_LONG_BSR_TABLE) with 256%nat. lia. }
      destruct (Hup x Hx); [|lia]. assert (x < 162676736 ∧ (x = 81338368 ∨ x < 81338368)); [|lia]. split.
      - by apply (ascending_lookup NR_LONG_BSR_TABLE eq_refl (Z.to_nat i) 254); [lia|..].
      - destruct (decide (i = 253)) as [->|]; [left; by injection Hx as <-|right].
        by apply (ascending_lookup NR_LONG_BSR_TABLE eq_refl (Z.to_nat i) 253); [lia|..]. }
    cbn [sum_levels]. unfold level_estimate, overestim_bsr_index. destruct (Z.ltb_spec 0 i); [|lia].
    rewrite Z.min_r by (unfold NR_LONG_BSR_TABLE_SIZE; lia). reflexivity.
Qed.

Lemma bsr_estimate_covers_witness :
  (∃ i est, nr_locate_BsrIndexByBufferSize NR_SHORT_BSR_TABLE_SIZE 5000 = Ok i ∧
     estimate_ul_buffer_short_bsr (bsr_short_octet (mk_bsr_short 2 i)) = Ok est ∧ 5000 <= est) ∧
  (∃ l mem est, long_levels [20; 0; 5000; 0; 0; 81338368; 0; 0] = Ok l ∧
     put_long_bsr UL_SCH_LCID_L_BSR 8 l (cursor [7] (replicate 10 0)) = Ok (mem, 7) ∧
     estimate_ul_buffer_long_bsr mem 3 = Ok est ∧ 81343388 <= est < 2 ^ 31) ∧
  sum_levels 0 [255] = Ok (-1).
Proof.
  destruct bsr_estimate_covers as (H1 & H2 & H3). split; [|split].
  - destruct (H1 2 5000) as (i & est & Hi & _ & He & _ & Hc & _); [lia|]. exists i, est. split_and!; [done|done|].
    apply Hc. lia.
  - destruct (H2 [20; 0; 5000; 0; 0; 81338368; 0; 0] UL_SCH_LCID_L_BSR 8 [7] (replicate 10 0)) as (l & mem & Hl & Hp & He).
    + done.
    + repeat constructor; lia.
    + vm_compute. intuition congruence.
    + destruct He as (est & He & Hs); [repeat constructor; lia|]. exists l, mem, est. split_and!; try done; apply Hs.
  - apply (H3 200000000 255); [lia|]. vm_compute. reflexivity.
Defined.
