(* ===== verification/MacUlGnbProofs.v ===== *)
(** * The gNB on the parts of an uplink PDU *)

From S2P Require Import Prelude Bits RlcTypes RlcManager MacPdu MacPduProofs MacWalk MacUl MacUlGnb MacUlBsr.
From S2P Require MacPduUe.

(** an SDU behind a subheader of two or three octets *)
Definition ul_sdu_octets (long : bool) (c : Z) (pdu : bytes) : bytes :=
  (if long then NR_MAC_SUBHEADER_LONG c (zlen pdu) else NR_MAC_SUBHEADER_SHORT c (zlen pdu)) ++ pdu.

Definition phr_ce (p : NR_SINGLE_ENTRY_PHR_MAC_CE) : bytes := NR_MAC_SUBHEADER_FIXED UL_SCH_LCID_SINGLE_ENTRY_PHR ++ phr_octets p.

(** [k]: room for levels *)
Definition bsr_ce (k : Z) (b : type_bsr_t) : bytes :=
  match b with
  | b_none => []
  | b_short s => NR_MAC_SUBHEADER_FIXED UL_SCH_LCID_S_BSR ++ [bsr_short_octet s]
  | b_short_trunc s => NR_MAC_SUBHEADER_FIXED UL_SCH_LCID_S_TRUNCATED_BSR ++ [bsr_short_octet s]
  | b_long l => long_bsr_octets UL_SCH_LCID_L_BSR k l
  | b_long_trunc l => long_bsr_octets UL_SCH_LCID_L_TRUNCATED_BSR k l
  end.

Definition opt_phr_ce (p : option NR_SINGLE_ENTRY_PHR_MAC_CE) : bytes := if p is Some p then phr_ce p else [].

Section Heard.
Context (prepare : gnb_ue → bool * gnb_ue) (harq_pid ph_factors : Z).

(** the UE is configured, as it is for channels 1 and 2 *)
Definition configured (s : ul_rx) : Prop := has_CellGroup (u_ue s) = true.
Definition heard := takes (process_loop prepare harq_pid ph_factors) configured.

(** ** What each part does *)

Definition hear_sdu (c : Z) (pdu : bytes) (s : ul_rx) : outcome ul_rx :=
  match nr_mac_get_lc_config (u_ue s) c with
  | None => Ok s
  | Some cfg =>
      if gl_suspended cfg then Ok s
      else
        let d := u_data s ++ [mk_data_ind c pdu] in
        _ ← assert_fatal (zlen d <? GNB_MAX_NUM_DATA_IND);
        Ok (mk_ul_rx (if 4 <=? c then sdu_received (zlen pdu) (u_ue s) else u_ue s) d)
  end.

Definition hear_phr (p : NR_SINGLE_ENTRY_PHR_MAC_CE) (s : ul_rx) : ul_rx :=
  mk_ul_rx (handle_single_entry_phr harq_pid ph_factors (pack [(PH p, 6); (0, 2)]) (pack [(PCMAX p, 6); (0, 2)]) (u_ue s)) (u_data s).

Definition bsr_estimate (k : Z) (b : type_bsr_t) : outcome (option Z) :=
  match b with
  | b_none => Ok None
  | b_short s | b_short_trunc s => e ← estimate_ul_buffer_short_bsr (bsr_short_octet s); Ok (Some e)
  | b_long l | b_long_trunc l => e ← sum_levels 0 (picked (reported k l) l); Ok (Some e)
  end.

Definition hear_bsr (k : Z) (b : type_bsr_t) (s : ul_rx) : outcome ul_rx :=
  e ← bsr_estimate k b; Ok (if e is Some e then ul_bsr e s else s).

(** ** One subPDU *)

Lemma heard_one enc g sub lcid mac_len :
  1 <= zlen enc → sub + mac_len = zlen enc →
  (∀ s s', configured s → g s = Ok s' → configured s') →
  (∀ pre rest, decode_ul_mac_sub_pdu_header (pre ++ enc ++ rest) (zlen pre) = Ok (sub, lcid, mac_len)) →
  (∀ pre rest len s, configured s →
    ul_sub_pdu prepare harq_pid ph_factors (pre ++ enc ++ rest) (zlen pre) sub lcid mac_len len s = (s' ← g s; Ok (Some (mac_len, s')))) →
  heard enc g.
Proof.
  intros Hpos Hl Hinv Hd Hs. apply takes_one; [done|exact Hinv|]. intros pre rest fuel len s Hi Hlen.
  cbn [process_loop]. rewrite (proj2 (Z.ltb_lt _ _)) by lia. cbn [negb]. rewrite Hd. cbn [mbind outcome_bind].
  rewrite (proj2 (Z.ltb_ge _ _)) by lia. rewrite Hs by done.
  destruct (g s) as [s'| | |]; cbn [mbind outcome_bind]; [|done..]. by rewrite Hl.
Qed.

(** channels of SDUs are not control elements *)
Lemma channel_not_ce c : c = 1 ∨ c = 2 ∨ 4 <= c <= 32 →
  (c =? UL_SCH_LCID_CCCH_64_BITS) = false ∧ (c =? UL_SCH_LCID_CCCH_48_BITS_REDCAP) = false ∧ (c =? UL_SCH_LCID_CCCH_48_BITS) = false ∧
  ((c =? UL_SCH_LCID_SRB1) || (c =? UL_SCH_LCID_SRB2)) = (c <? 4) ∧
  ((UL_SCH_LCID_DTCH <=? c) && (c <=? UL_SCH_LCID_DTCH + 28)) = (4 <=? c).
Proof.
  intros H. unfold UL_SCH_LCID_CCCH_64_BITS, UL_SCH_LCID_CCCH_48_BITS_REDCAP, UL_SCH_LCID_CCCH_48_BITS, UL_SCH_LCID_SRB1, UL_SCH_LCID_SRB2, UL_SCH_LCID_DTCH.
  split_and!; lia.
Qed.

Lemma header_sdu (long : bool) c pdu pre rest :
  c = 1 ∨ c = 2 ∨ 4 <= c <= 32 → zlen pdu < (if long then 65536 else 256) →
  decode_ul_mac_sub_pdu_header (pre ++ ul_sdu_octets long c pdu ++ rest) (zlen pre)
  = Ok (if long then 3 else 2, c, zlen pdu).
Proof.
  intros Hc Hz. pose proof (zlen_nonneg pdu). unfold decode_ul_mac_sub_pdu_header, ul_sdu_octets.
  destruct (channel_not_ce c Hc) as (H0 & H1 & H2 & H3 & H4). destruct long; cbn [app NR_MAC_SUBHEADER_LONG NR_MAC_SUBHEADER_SHORT].
  - unfold NR_MAC_SUBHEADER_LONG. cbn [app]. rewrite buf_get_at. cbn [mbind outcome_bind].
    destruct (long_fields c) as [-> ->]; [lia|]. rewrite H0, H3, H4.
    replace ((c <? 4) || (4 <=? c)) with true by lia. cbn [orb negb Z.eqb].
    rewrite (buf_get_behind _ _ 1 ((zlen pdu / 256) mod 256)), (buf_get_behind _ _ 2 (zlen pdu mod 256)) by done.
    cbn [mbind outcome_bind]. rewrite (Z.mod_small (zlen pdu / 256)) by (split; [apply Z.div_pos|apply Z.div_lt_upper_bound]; lia).
    do 3 f_equal. pose proof (Z.div_mod (zlen pdu) 256). lia.
  - unfold NR_MAC_SUBHEADER_SHORT. cbn [app]. rewrite buf_get_at. cbn [mbind outcome_bind].
    destruct (short_fields c) as [-> ->]; [lia|]. rewrite H0, H3, H4.
    replace ((c <? 4) || (4 <=? c)) with true by lia. cbn [orb negb Z.eqb].
    rewrite (buf_get_behind _ _ 1 (zlen pdu mod 256)) by done. cbn [mbind outcome_bind]. by rewrite Z.mod_small by lia.
Qed.

Lemma hear_sdu_config c pdu s s' : configured s → hear_sdu c pdu s = Ok s' → configured s'.
Proof.
  unfold configured, hear_sdu. intros Hs. destruct (nr_mac_get_lc_config _ _); [|by intros [= <-]].
  destruct (gl_suspended _); [by intros [= <-]|]. intros H. inv_ok. subst. cbn. by destruct (4 <=? c).
Qed.

Lemma heard_sdu (long : bool) c pdu :
  c = 1 ∨ c = 2 ∨ 4 <= c <= 32 → zlen pdu < (if long then 65536 else 256) →
  heard (ul_sdu_octets long c pdu) (hear_sdu c pdu).
Proof.
  intros Hc Hz. pose proof (zlen_nonneg pdu).
  assert (zlen (ul_sdu_octets long c pdu) = (if long then 3 else 2) + zlen pdu) as Hl.
  { unfold ul_sdu_octets. rewrite zlen_app. by destruct long. }
  apply (heard_one _ _ (if long then 3 else 2) c (zlen pdu)); [destruct long; lia|done|by apply hear_sdu_config| |].
  { intros pre rest. by apply header_sdu. }
  intros pre rest len s Hs. unfold ul_sub_pdu. destruct (channel_not_ce c Hc) as (-> & -> & -> & -> & ->). cbn [orb].
  assert (∀ s, ul_add_ind (pre ++ ul_sdu_octets long c pdu ++ rest) (zlen pre + (if long then 3 else 2)) (zlen pdu) c s
    = (_ ← assert_fatal (zlen (u_data s ++ [mk_data_ind c pdu]) <? GNB_MAX_NUM_DATA_IND);
       Ok (mk_ul_rx (u_ue s) (u_data s ++ [mk_data_ind c pdu])))) as Hadd.
  { intros s1. unfold ul_add_ind, ul_sdu_octets. rewrite <- app_assoc, (app_assoc pre).
    replace (zlen pre + _) with (zlen (pre ++ (if long then NR_MAC_SUBHEADER_LONG c (zlen pdu) else NR_MAC_SUBHEADER_SHORT c (zlen pdu))))
      by (rewrite zlen_app; by destruct long). by rewrite buf_sub_mid. }
  unfold ul_channel, hear_sdu. destruct (Z.ltb_spec c 4), (Z.leb_spec 4 c); try lia.
  - rewrite Hs. cbn [assert_fatal mbind outcome_bind]. destruct (nr_mac_get_lc_config _ _) as [cfg|]; [|done].
    destruct (gl_suspended cfg); [done|]. rewrite Hadd. destruct (assert_fatal _); done.
  - destruct (nr_mac_get_lc_config _ _) as [cfg|]; [|done].
    destruct (gl_suspended cfg); [done|]. rewrite Hadd. destruct (assert_fatal _); done.
Qed.

(** ** Control elements *)

Lemma header_fixed pre rest lcid n body :
  0 <= lcid < 64 → lcid ≠ 0 →
  (lcid = UL_SCH_LCID_SINGLE_ENTRY_PHR ∧ n = 2) ∨ ((lcid = UL_SCH_LCID_S_BSR ∨ lcid = UL_SCH_LCID_S_TRUNCATED_BSR) ∧ n = 1) →
  decode_ul_mac_sub_pdu_header (pre ++ (NR_MAC_SUBHEADER_FIXED lcid ++ body) ++ rest) (zlen pre) = Ok (1, lcid, n).
Proof.
  intros Hr H0 H. rewrite fixed_lcid by done. cbn [app]. unfold decode_ul_mac_sub_pdu_header. rewrite buf_get_at.
  cbn [mbind outcome_bind]. rewrite fixed_field by done. by destruct H as [[-> ->]|[[-> | ->] ->]].
Qed.

Lemma configured_phr p s : configured s → configured (hear_phr p s).
Proof. unfold configured, hear_phr, handle_single_entry_phr. cbn. by destruct (harq_pid <? 0). Qed.

Lemma heard_phr p : heard (phr_ce p) (λ s, Ok (hear_phr p s)).
Proof.
  unfold phr_ce. apply (heard_one _ _ 1 UL_SCH_LCID_SINGLE_ENTRY_PHR 2); [done|done| | |].
  { intros s s' Hs [= <-]. by apply configured_phr. }
  { intros pre rest. apply header_fixed; [done|done|by left]. }
  intros pre rest len s Hs. unfold ul_sub_pdu, phr_octets. rewrite fixed_lcid by done. cbn [app].
  rewrite (buf_get_behind _ _ 1 (pack [(PH p, 6); (0, 2)])) by done. cbn [mbind outcome_bind].
  rewrite <- Z.add_assoc, (buf_get_behind _ _ (1 + 1) (pack [(PCMAX p, 6); (0, 2)])) by done. done.
Qed.

Lemma configured_bsr e s : configured s → configured (ul_bsr e s).
Proof. done. Qed.

Lemma heard_bsr k b :
  match b with b_long l | b_long_trunc l => length l = 8%nat | _ => True end →
  heard (bsr_ce k b) (hear_bsr k b).
Proof.
  assert (∀ lcid s, lcid = UL_SCH_LCID_S_BSR ∨ lcid = UL_SCH_LCID_S_TRUNCATED_BSR →
    heard (NR_MAC_SUBHEADER_FIXED lcid ++ [bsr_short_octet s]) (hear_bsr k (b_short s))) as Hshort.
  { intros lcid s Hl. assert (0 <= lcid < 64 ∧ lcid ≠ 0) as [Hr H0] by (by destruct Hl as [-> | ->]).
    apply (heard_one _ _ 1 lcid 1); [by rewrite fixed_lcid|by rewrite fixed_lcid| | |].
    { unfold hear_bsr. intros s1 s2 Hs H. inv_ok. subst s2. by destruct r. }
    { intros pre rest. apply header_fixed; [done|done|by right]. }
    intros pre rest len s1 Hs. rewrite fixed_lcid by done. cbn [app]. unfold hear_bsr, bsr_estimate.
    assert (∀ x len, ul_sub_pdu prepare harq_pid ph_factors (pre ++ lcid :: x :: rest) (zlen pre) 1 lcid 1 len s1
      = (a ← buf_get (pre ++ lcid :: x :: rest) (zlen pre + 1); est ← estimate_ul_buffer_short_bsr a; Ok (Some (1, ul_bsr est s1)))) as ->.
    { intros x l. by destruct Hl as [-> | ->]. }
    rewrite (buf_get_behind _ _ 1 (bsr_short_octet s)) by done. cbn [mbind outcome_bind].
    destruct (estimate_ul_buffer_short_bsr _); done. }
  assert (∀ lcid l, lcid = UL_SCH_LCID_L_BSR ∨ lcid = UL_SCH_LCID_L_TRUNCATED_BSR → length l = 8%nat →
    heard (long_bsr_octets lcid k l) (hear_bsr k (b_long l))) as Hlong.
  { intros lcid l Hl H8. assert (0 <= lcid < 64) as Hr by (by destruct Hl as [-> | ->]).
    unfold long_bsr_octets. set (bs := reported k l). set (levels := picked bs l).
    assert (0 <= zlen levels <= 8) as H8'.
    { split; [apply zlen_nonneg|]. unfold levels. pose proof (length_picked bs l). unfold zlen. lia. }
    apply (heard_one _ _ 2 lcid (1 + zlen levels)).
    { rewrite zlen_app, zlen_cons. change (zlen (NR_MAC_SUBHEADER_SHORT lcid (1 + zlen levels))) with 2. lia. }
    { rewrite zlen_app, zlen_cons. done. }
    { unfold hear_bsr. intros s1 s2 Hs H. inv_ok. subst s2. by destruct r. }
    { intros pre rest. unfold decode_ul_mac_sub_pdu_header, NR_MAC_SUBHEADER_SHORT. cbn [app]. rewrite buf_get_at.
      cbn [mbind outcome_bind]. destruct (short_fields lcid Hr) as [-> ->].
      assert ((lcid =? UL_SCH_LCID_CCCH_64_BITS) = false ∧
        ((lcid =? UL_SCH_LCID_SRB1) || (lcid =? UL_SCH_LCID_SRB2)
          || ((UL_SCH_LCID_DTCH <=? lcid) && (lcid <=? UL_SCH_LCID_DTCH + 28))
          || (lcid =? UL_SCH_LCID_L_TRUNCATED_BSR) || (lcid =? UL_SCH_LCID_L_BSR)) = true) as [-> ->] by (by destruct Hl as [-> | ->]).
      cbn [Z.eqb negb]. rewrite (buf_get_behind _ _ 1 ((1 + zlen levels) mod 256)) by done. cbn [mbind outcome_bind].
      by rewrite Z.mod_small by lia. }
    intros pre rest len s Hs. unfold hear_bsr, bsr_estimate. fold bs. fold levels.
    assert (∀ mem m len, ul_sub_pdu prepare harq_pid ph_factors mem (zlen pre) 2 lcid m len s
      = (est ← estimate_ul_buffer_long_bsr mem (zlen pre + 2); Ok (Some (m, ul_bsr est s)))) as ->.
    { intros mem m len'. by destruct Hl as [-> | ->]. }
    rewrite <- app_assoc, (app_assoc pre).
    replace (zlen pre + 2) with (zlen (pre ++ NR_MAC_SUBHEADER_SHORT lcid (1 + zlen levels))) by (by rewrite zlen_app).
    unfold levels, bs. rewrite estimate_long_octets by done. destruct (sum_levels _ _); done. }
  intros Hb. destruct b; cbn [bsr_ce].
  - apply (takes_ext _ _ _ Ok); [done|apply takes_nil].
  - apply Hshort. by left.
  - apply Hshort. by right.
  - apply Hlong; [by left|done].
  - apply Hlong; [by right|done].
Qed.

(** ** SDUs and padding *)

Fixpoint hear_sdus (sent : list (bool * Z * bytes)) (s : ul_rx) : outcome ul_rx :=
  match sent with
  | [] => Ok s
  | (_, c, p) :: sent => s ← hear_sdu c p s; hear_sdus sent s
  end.

Definition ul_sent_octets (sent : list (bool * Z * bytes)) : bytes := concat ((λ '(l, c, p), ul_sdu_octets l c p) <$> sent).
Definition ul_sent_ok (sent : list (bool * Z * bytes)) : Prop :=
  Forall (λ '(l, c, p), (c = 1 ∨ c = 2 ∨ 4 <= c <= 32) ∧ 0 < zlen p < (if (l : bool) then 65536 else 256)) sent.

Lemma heard_sent sent : ul_sent_ok sent → heard (ul_sent_octets sent) (hear_sdus sent).
Proof.
  intros H. induction sent as [|[[l c] p] sent IH]; [exact (takes_nil _ _)|]. apply Forall_cons in H as [[Hc Hp] H].
  change (ul_sent_octets ((l, c, p) :: sent)) with (ul_sdu_octets l c p ++ ul_sent_octets sent).
  apply (takes_app _ _ _ _ (hear_sdu c p) (hear_sdus sent)); [apply heard_sdu; [done|lia]|by apply IH].
Qed.

Definition ul_padding (n : Z) : bytes := if n =? 0 then [] else NR_MAC_SUBHEADER_FIXED UL_SCH_LCID_PADDING ++ replicate (Z.to_nat (n - 1)) 0.

Lemma all_zero_ok mem n : ∀ p, 0 <= p → (∀ i, p <= i < p + Z.of_nat n → mem !! Z.to_nat i = Some 0) →
  MacPduUe.all_zero mem p n = Ok true.
Proof.
  induction n as [|n IH]; intros p Hp H; cbn [MacPduUe.all_zero]; [done|].
  rewrite (buf_get_lookup _ _ 0) by (try apply H; lia). cbn [mbind outcome_bind Z.eqb negb]. apply IH; [lia|].
  intros i Hi. apply H. lia.
Qed.

(** The padding ends the loop. Its length has 16 bits in the code: behind 65536 octets of it the
    gNB finds a message of octets 0, which it ignores. *)
Lemma loop_padding fuel pre n rest s :
  0 <= n → (Z.to_nat n <= fuel)%nat →
  process_loop prepare harq_pid ph_factors fuel (pre ++ ul_padding n ++ rest) (zlen pre) n s = Ok s.
Proof.
  intros Hn Hf. unfold ul_padding. destruct (Z.eqb_spec n 0) as [->|Hn0]; [by destruct fuel|].
  pose proof (zlen_nonneg pre).
  destruct fuel as [|fuel]; [lia|]. cbn [process_loop]. rewrite (proj2 (Z.ltb_lt 0 n)) by lia. cbn [negb].
  rewrite fixed_lcid by done. cbn [app]. set (mem := pre ++ UL_SCH_LCID_PADDING :: _).
  assert (decode_ul_mac_sub_pdu_header mem (zlen pre) = Ok (1, UL_SCH_LCID_PADDING, 0)) as ->.
  { unfold decode_ul_mac_sub_pdu_header, mem. by rewrite buf_get_at. }
  cbn [mbind outcome_bind]. rewrite (proj2 (Z.ltb_ge n (1 + 0))) by lia.
  change (ul_sub_pdu prepare harq_pid ph_factors mem (zlen pre) 1 UL_SCH_LCID_PADDING 0 n s) with (Ok (Some ((n - 1) mod 2 ^ 16, s))).
  cbn [mbind outcome_bind].
  assert (∀ i, zlen pre + 1 <= i < zlen pre + n → mem !! Z.to_nat i = Some 0) as Hz.
  { intros i Hi. unfold mem. rewrite lookup_app_r by (unfold zlen in *; lia).
    replace (Z.to_nat i - length pre)%nat with (S (Z.to_nat i - length pre - 1)) by (unfold zlen in *; lia).
    match goal with |- (_ :: ?l) !! S ?k = ?r => change (l !! k = r) end.  rewrite lookup_app_l by (rewrite length_replicate; unfold zlen in *; lia).
    apply lookup_replicate_2. unfold zlen in *. lia. }
  pose proof (Z.mod_pos_bound (n - 1) (2 ^ 16) ltac:(done)) as Hm. pose proof (Z.div_mod (n - 1) (2 ^ 16) ltac:(done)) as Hd.
  set (q := (n - 1) / 2 ^ 16) in *. set (m := (n - 1) mod 2 ^ 16) in *.
  replace (n - (1 + m)) with (2 ^ 16 * q) by lia.
  destruct (decide (q = 0)) as [->|Hq]; [by destruct fuel|].
  assert (1 <= q) by (assert (0 <= q) by (apply Z.div_pos; lia); lia).
  destruct fuel as [|fuel]; [lia|]. cbn [process_loop]. rewrite (proj2 (Z.ltb_lt 0 (2 ^ 16 * q))) by lia. cbn [negb].
  assert (mem !! Z.to_nat (zlen pre + (1 + m)) = Some 0) as H0' by (apply Hz; lia).
  assert (buf_get mem (zlen pre + (1 + m)) = Ok 0) as Hg by (apply buf_get_lookup; [done|lia]).
  assert (decode_ul_mac_sub_pdu_header mem (zlen pre + (1 + m)) = Ok (1, 0, 8)) as ->
    by (unfold decode_ul_mac_sub_pdu_header; by rewrite Hg).
  cbn [mbind outcome_bind].
  rewrite (proj2 (Z.ltb_ge (2 ^ 16 * q) (1 + 8))) by lia. unfold ul_sub_pdu, ul_ccch.
  change (0 =? UL_SCH_LCID_CCCH_64_BITS) with true. cbn [orb]. rewrite all_zero_ok; [done|lia|].
  intros i Hi. apply Hz. lia.
Qed.
End Heard.
