(* ===== verification/MacUlLcp.v ===== *)
(** * Logical channel prioritization at the UE

    The rounds over the logical channels of [nr_ue_get_sdu]: they stop, no assertion fails, what
    is requested from RLC fits, and the memory holds the SDUs that RLC generated. *)

From stdpp Require Import gmap.
From S2P Require Import Prelude RlcTypes RlcManager RlcManagerProofs MacPdu MacPduProofs MacUl MacUlGnbProofs.

(** ** One request to RLC *)

Section Request.
Context {E : Type} `{!RlcOps E, !RlcTx E}.
Implicit Types (ue : nr_rlc_ue_t E) (m : list (nr_rlc_ue_t E)).

(** what a call for a channel does: nothing, if it has no entity *)
Definition called {A} (f : E → outcome (A * E)) (none : A) ue (c : Z) (a : A) ue' : Prop :=
  match channel ue c with
  | None => a = none ∧ ue' = ue
  | Some (r, e) => ∃ e', f e = Ok (a, e') ∧ set_rb ue r (Some e') = Ok ue'
  end.

Lemma channel_call_ok {A} (f : E → outcome (A * E)) (none : A) (P : A → Prop) m id ue c :
  ue_ready id m ue → 0 <= c <= 32 → P none →
  (∀ e, rlc_ok e → ∃ a e', f e = Ok (a, e') ∧ P a ∧ rlc_ok e') →
  ∃ a m' ue', with_ue (λ ue, with_entity f none ue c) m id = Ok (a, m') ∧ P a ∧
    ue_ready id m' ue' ∧ ue_map m' = <[id := ue']> (ue_map m) ∧ called f none ue c a ue'.
Proof.
  intros R Hc Hn Hf. pose proof (ur_tables _ _ _ R) as Wu.
  pose proof (ue_map_lookup_inv _ _ _ (ur_ue _ _ _ R)) as [_ Hid].
  pose proof (with_entity_ok f none ue c Wu Hc) as H. unfold called, channel.
  destruct (bearer ue c ≫= _) as [[r e]|] eqn:Eb.
  - destruct H as (Hr & _ & He & H).
    destruct (Hf e) as (a & e' & Hfe & Ha & He'); [by eapply (ur_ok _ _ _ R)|].
    destruct (H a e' Hfe) as (ue' & Hw & Hset & Wu' & Hl' & Hid' & Hr' & Ho).
    destruct (with_ue_ok (λ ue, with_entity f none ue c) m id ue a ue'
      (ur_wf _ _ _ R) (ur_ue _ _ _ R) Hw) as (m' & -> & W' & Hm'); [congruence|].
    exists a, m', ue'. split_and!; try done; [|by exists e'].
    apply (ue_ready_step id m ue); try done. intros r' x Hr2 Hx. destruct (decide (r' = r)) as [->|Hne].
    + rewrite Hr' in Hx. by injection Hx as <-.
    + rewrite Ho in Hx by done. by eapply (ur_ok _ _ _ R).
  - destruct (with_ue_ok (λ ue, with_entity f none ue c) m id ue none ue
      (ur_wf _ _ _ R) (ur_ue _ _ _ R) H Hid) as (m' & -> & W' & Hm').
    exists none, m', ue. split_and!; try done.
    apply (ue_ready_step id m ue); try done. intros. by eapply (ur_ok _ _ _ R).
Qed.

(** RLC was asked for at most [size] octets on a channel and generated [pdu]. *)
Definition pulled (now t : Z) ue (c size : Z) (pdu : bytes) ue' : Prop :=
  ∃ buffer, called (λ e, e ← rlc_set_time e now; rlc_generate_pdu t e buffer size) (0, buffer) ue c
              (zlen pdu, pdu ++ drop (length pdu) buffer) ue'.

Lemma data_req_ok now t m id ue c size buffer :
  ue_ready id m ue → 0 <= c <= 32 → 0 <= size <= zlen buffer → Forall is_byte buffer →
  ∃ pdu m' ue', nr_mac_rlc_data_req now t m id c size buffer = Ok (zlen pdu, pdu ++ drop (length pdu) buffer, m') ∧
    zlen pdu <= size ∧ zlen pdu < 65536 ∧ ue_ready id m' ue' ∧ ue_map m' = <[id := ue']> (ue_map m) ∧
    pulled now t ue c size pdu ue'.
Proof.
  intros R Hc Hs HF.
  destruct (channel_call_ok (λ e, e ← rlc_set_time e now; rlc_generate_pdu t e buffer size) (0, buffer)
    (λ a, ∃ pdu, a = (zlen pdu, pdu ++ drop (length pdu) buffer) ∧ zlen pdu <= size ∧ zlen pdu < 65536)
    m id ue c R Hc) as (a & m' & ue' & Hw & (pdu & -> & Hsz & H16) & R' & Hm & Hcall).
  - exists []. change (@zlen Z []) with 0. split_and!; (done || lia).
  - intros e He. destruct (rlc_set_time_ok now e He) as (e1 & -> & He1). cbn [mbind outcome_bind].
    destruct (rlc_generate_ok t e1 buffer size He1 Hs HF) as (pdu & e2 & -> & ? & ? & ?).
    eexists _, e2. split; [done|]. split; [|done]. by exists pdu.
  - exists pdu, m', ue'. split_and!; try done. by exists buffer.
Qed.

(** A sequence of requests. What RLC answered with data was sent, behind a subheader of two or
    three octets. *)
Inductive pulls (now t : Z) : nr_rlc_ue_t E → list (bool * Z * bytes) → nr_rlc_ue_t E → Prop :=
  | pulls_end ue : pulls now t ue [] ue
  | pulls_none ue c size ue1 sent ue2 :
      pulled now t ue c size [] ue1 → pulls now t ue1 sent ue2 → pulls now t ue sent ue2
  | pulls_pdu ue (long : bool) c size pdu ue1 sent ue2 :
      pulled now t ue c size pdu ue1 → pdu ≠ [] → pulls now t ue1 sent ue2 →
      pulls now t ue ((long, c, pdu) :: sent) ue2.

Lemma pulls_trans now t ue a ue1 b ue2 : pulls now t ue a ue1 → pulls now t ue1 b ue2 → pulls now t ue (a ++ b) ue2.
Proof. intros H Hb. induction H; [done|by eapply pulls_none; eauto|by eapply pulls_pdu; eauto]. Qed.
End Request.

(** ** The size of a request *)

(** what a channel of several with its priority may take at most, in a round *)
Definition share_target (ep pbr_ : Z) (round : Z) : Z := if round =? 0 then Z.min ep pbr_ else ep.

Lemma share_target_le ep p round : share_target ep p round <= ep.
Proof. unfold share_target. destruct (round =? 0); lia. Qed.

Lemma get_num_ok mac c lc s count ep remain round tot T :
  get_lc_info_from_lcid mac c = Some lc → get_scheduling_info_from_lcid mac c = Ok s →
  0 <= LCID_buffer_remain s < 2 ^ 31 → 0 <= pbr lc < 2 ^ 32 → 0 <= ep < 2 ^ 32 → 1 <= remain < 2 ^ 32 →
  arr_get tot (c - 1) = Ok T → 0 <= T →
  (if 1 <? count then T <= share_target ep (pbr lc) round ∧ ep - T <= remain else round = 0 → T <= pbr lc) →
  ∃ requested, get_num_bytes_to_reqlc mac count c ep remain round tot
      = Ok (requested, if 1 <? count then Z.min ep (pbr lc) else pbr lc) ∧
    0 <= requested <= remain ∧ requested <= LCID_buffer_remain s ∧
    (if 1 <? count then T + requested <= share_target ep (pbr lc) round else round = 0 → T + requested <= pbr lc).
Proof.
  intros Hlc Hs Hl Hp He Hr HT HT0 H. unfold get_num_bytes_to_reqlc. rewrite Hlc, Hs. cbn [mbind outcome_bind]. unfold u32.
  rewrite (Z.mod_small (LCID_buffer_remain s)) by lia.
  assert (remain mod 2 ^ 32 = remain) as Hrm by (by apply Z.mod_small; lia).
  unfold share_target in *. rewrite HT. destruct (Z.ltb_spec 1 count) as [H1|H1], (Z.eqb_spec round 0) as [H0|H0].
  - destruct H as [Ht Hb]. cbn [mbind outcome_bind].
    set (q := if _ <? _ then _ else _). assert (0 <= q <= LCID_buffer_remain s) as Hq by (subst q; destruct (_ <? _); lia).
    unfold assert_fatal. rewrite (proj2 (Z.leb_le 0 _)) by lia.
    rewrite (proj2 (Z.leb_le (Z.min q _) _)) by lia. cbn [andb mbind outcome_bind].
    eexists. split; [done|]. lia.
  - destruct H as [Ht Hb]. cbn [mbind outcome_bind]. rewrite (Z.mod_small (ep - T)) by lia.
    unfold assert_fatal. rewrite (proj2 (Z.leb_le 0 _)) by lia.
    rewrite (proj2 (Z.leb_le (Z.min _ _) _)) by lia. cbn [andb mbind outcome_bind].
    eexists. split; [done|]. lia.
  - specialize (H H0). cbn [mbind outcome_bind]. rewrite Hrm.
    set (q := if _ <? _ then _ else _).
    assert (0 <= q <= LCID_buffer_remain s ∧ q <= remain) as Hq by (subst q; destruct (Z.ltb_spec remain (pbr lc)); lia).
    unfold assert_fatal. rewrite (proj2 (Z.leb_le 0 _)) by lia.
    rewrite (proj2 (Z.leb_le (Z.min q _) _)) by lia. cbn [andb mbind outcome_bind].
    eexists. split; [done|]. lia.
  - cbn [mbind outcome_bind]. unfold assert_fatal.
    rewrite (proj2 (Z.leb_le (Z.min _ _) _)) by lia. cbn [andb mbind outcome_bind Z.leb Z.compare].
    eexists. split; [done|]. split; [lia|]. split; [lia|done].
Qed.

(** ** An SDU in memory *)

Lemma drop_behind (pre buf0 : bytes) h : drop (length pre + h) (pre ++ drop (length pre) buf0) = drop (length pre + h) buf0.
Proof. by rewrite drop_app_add, drop_drop. Qed.

Lemma sdu_written (pre hdr pdu buf0 : bytes) :
  zlen pre + zlen hdr + zlen pdu <= zlen buf0 →
  let b := pre ++ drop (length pre) buf0 in
  buf_write (take (Z.to_nat (zlen pre + zlen hdr)) b ++ pdu ++ drop (length pdu) (drop (length pre + length hdr) buf0)) (zlen pre) hdr
  = Ok (cursor (pre ++ hdr ++ pdu) buf0).1.
Proof.
  intros H b. pose proof (zlen_nonneg pre). pose proof (zlen_nonneg hdr). pose proof (zlen_nonneg pdu).
  assert (∃ g, take (Z.to_nat (zlen pre + zlen hdr)) b = pre ++ g ∧ length g = length hdr) as (g & -> & Hg).
  { exists (take (length hdr) (drop (length pre) buf0)). unfold b, zlen in *.
    replace (Z.to_nat _) with (length pre + length hdr)%nat by lia. rewrite take_app_add.
    split; [done|]. rewrite length_take, length_drop. lia. }
  rewrite buf_write_ok; [|done|].
  2: { unfold zlen in *. rewrite !length_app, !length_drop, Hg. lia. }
  f_equal. unfold cursor. cbn [fst]. rewrite <- !app_assoc. unfold zlen. rewrite Nat2Z.id, take_app_length. f_equal. f_equal.
  replace (Z.to_nat (Z.of_nat (length pre) + Z.of_nat (length hdr))) with (length pre + length hdr)%nat by lia.
  rewrite drop_app_add, <- Hg, drop_app_length. f_equal. rewrite drop_drop, !length_app. f_equal. lia.
Qed.

Lemma ul_sent_octets_snoc sent l c p : ul_sent_octets (sent ++ [(l, c, p)]) = ul_sent_octets sent ++ ul_sdu_octets l c p.
Proof. unfold ul_sent_octets. rewrite fmap_app, concat_app. cbn [fmap list_fmap concat]. by rewrite app_nil_r. Qed.

(** ** The state of the rounds *)

Ltac lcp_fields :=
  cbn [set_field set_l_mac set_l_rlc set_l_buf set_l_cur set_l_status set_l_tot set_l_num set_l_LCG
       l_mac l_rlc l_buf l_cur l_status l_tot l_num l_LCG].


(** What is known of the channels [L] and of their configuration: a channel is listed once, has
    a group, and a number of the standard. *)
Record lcs_ok (L : list nr_lcordered_info_t) : Prop := {
  lo_nodup : NoDup (lo_lcid <$> L);
  lo_range : ∀ lc, lc ∈ L → (lo_lcid lc = 1 ∨ lo_lcid lc = 2 ∨ 4 <= lo_lcid lc <= 32) ∧ 0 <= pbr lc < 2 ^ 32;
}.

Record infos_ok (L : list nr_lcordered_info_t) (infos : list NR_LC_SCHEDULING_INFO) : Prop := {
  li_len : zlen infos = 32;
  li_info : ∀ lc s, lc ∈ L → infos !! Z.to_nat (lo_lcid lc - 1) = Some s →
    0 <= LCGID s < NR_MAX_NUM_LCGID ∧ 0 <= LCID_buffer_remain s < 2 ^ 31;
}.

Definition groups_ok (LCG_bytes : list Z) : Prop := zlen LCG_bytes = NR_MAX_NUM_LCGID ∧ Forall (λ b, 0 <= b < 2 ^ 32) LCG_bytes.

Lemma infos_insert L infos c s s' :
  infos_ok L infos → 1 <= c <= 32 → infos !! Z.to_nat (c - 1) = Some s → LCGID s' = LCGID s →
  0 <= LCID_buffer_remain s' < 2 ^ 31 → infos_ok L (<[Z.to_nat (c - 1) := s']> infos).
Proof.
  intros [Hl Hi] Hc Hs Hg Hb. split; [unfold zlen in *; by rewrite length_insert|].
  intros lc s1 Hlc. rewrite list_lookup_insert. case_decide as Hd; [|by apply Hi].
  intros [= <-]. destruct Hd as [Hd _]. rewrite Hg. split; [|done]. apply (Hi lc s Hlc). by rewrite <- Hd.
Qed.

Lemma get_lc_ok mac lc : NoDup (lo_lcid <$> lc_ordered_list mac) → lc ∈ lc_ordered_list mac →
  get_lc_info_from_lcid mac (lo_lcid lc) = Some lc.
Proof.
  unfold get_lc_info_from_lcid. induction (lc_ordered_list mac) as [|x l IH]; intros Hn Hx; [by apply elem_of_nil in Hx|].
  cbn [list_find]. apply NoDup_cons in Hn as [Hn Hd]. apply elem_of_cons in Hx as [<-|Hx].
  - by rewrite decide_True.
  - rewrite decide_False by (intros Heq; apply Hn; rewrite Heq; apply list_elem_of_fmap; eauto).
    specialize (IH Hd Hx). destruct (list_find _ l) as [[]|]; [exact IH|done].
Qed.

Lemma lcid_index c : 1 <= c <= 32 → lcid_buffer_index c = Ok (c - 1).
Proof. intros H. unfold lcid_buffer_index, NR_MAX_NUM_LCID. destruct (Z.ltb_spec 0 c), (Z.leb_spec c 32); (lia || done). Qed.

Lemma info_ok mac c s : 1 <= c <= 32 → lc_sched_info mac !! Z.to_nat (c - 1) = Some s → get_scheduling_info_from_lcid mac c = Ok s.
Proof.
  intros Hc Hs. unfold get_scheduling_info_from_lcid. rewrite lcid_index by done. cbn [mbind outcome_bind].
  unfold arr_get. destruct (Z.ltb_spec (c - 1) 0); [lia|]. by rewrite Hs.
Qed.
Lemma set_info_ok mac c s : 1 <= c <= 32 → zlen (lc_sched_info mac) = 32 →
  set_scheduling_info mac c s = Ok (mac <| lc_sched_info := <[Z.to_nat (c - 1) := s]> (lc_sched_info mac) |>).
Proof.
  intros Hc Hl. unfold set_scheduling_info. rewrite lcid_index by done. cbn [mbind outcome_bind].
  by rewrite arr_set_ok by lia.
Qed.

(** ** The data of the groups *)

(** the data left in the channels of a group, as far as the channels are not suspended *)
Definition channel_left (infos : list NR_LC_SCHEDULING_INFO) (g : Z) (lc : nr_lcordered_info_t) : Z :=
  match infos !! Z.to_nat (lo_lcid lc - 1) with
  | Some s => if negb (lo_suspended lc) && (LCGID s =? g) then LCID_buffer_remain s else 0
  | None => 0
  end.
Definition group_left (L : list nr_lcordered_info_t) infos (g : Z) : Z := u32 (sumZ (channel_left infos g) L).
Definition groups_left (L : list nr_lcordered_info_t) infos : list Z := group_left L infos <$> seqZ 0 NR_MAX_NUM_LCGID.

Lemma groups_left_ok L infos : groups_ok (groups_left L infos).
Proof.
  split; [done|]. apply Forall_fmap, Forall_forall. intros g _. cbn. unfold group_left, u32. by apply Z.mod_pos_bound.
Qed.

Lemma groups_left_lookup L infos g : 0 <= g < NR_MAX_NUM_LCGID → groups_left L infos !! Z.to_nat g = Some (group_left L infos g).
Proof.
  intros Hg. unfold groups_left. rewrite list_lookup_fmap, lookup_seqZ_lt by lia. cbn. do 2 f_equal. lia.
Qed.

Lemma fmap_seqZ_insert (f f' : Z → Z) (n g : Z) :
  0 <= g < n → (∀ h, h ≠ g → f' h = f h) → <[Z.to_nat g := f' g]> (f <$> seqZ 0 n) = f' <$> seqZ 0 n.
Proof.
  intros Hg Hf. apply list_eq. intros i. rewrite list_lookup_insert, !list_lookup_fmap. rewrite length_fmap, length_seqZ.
  case_decide as Hd.
  - destruct Hd as [<- _]. rewrite lookup_seqZ_lt by lia. cbn. do 2 f_equal. lia.
  - destruct (decide (Z.of_nat i < n)).
    + rewrite lookup_seqZ_lt by lia. cbn. rewrite Hf; [done|lia].
    + rewrite lookup_seqZ_ge by lia. done.
Qed.

Lemma channel_left_insert L infos lc s s' g :
  NoDup (lo_lcid <$> L) → (∀ lc, lc ∈ L → 1 <= lo_lcid lc) → lc ∈ L → lo_suspended lc = false →
  infos !! Z.to_nat (lo_lcid lc - 1) = Some s → LCGID s' = LCGID s →
  sumZ (channel_left (<[Z.to_nat (lo_lcid lc - 1) := s']> infos) g) L =
  sumZ (channel_left infos g) L + (if LCGID s =? g then LCID_buffer_remain s' - LCID_buffer_remain s else 0).
Proof.
  intros Hnd Hpos Hlc Hsus Hs Hg.
  assert (∀ lc', 1 <= lo_lcid lc' → lo_lcid lc' ≠ lo_lcid lc →
    channel_left (<[Z.to_nat (lo_lcid lc - 1) := s']> infos) g lc' = channel_left infos g lc') as Hother.
  { intros lc' H1 Hne. unfold channel_left. rewrite list_lookup_insert_ne; [done|]. specialize (Hpos lc Hlc). lia. }
  assert (∀ l, (∀ lc', lc' ∈ l → 1 <= lo_lcid lc') → lo_lcid lc ∉ lo_lcid <$> l →
    sumZ (channel_left (<[Z.to_nat (lo_lcid lc - 1) := s']> infos) g) l = sumZ (channel_left infos g) l) as Hrest.
  { intros l. induction l as [|y l IH]; intros Hl Hn; [done|]. rewrite !sumZ_cons. cbn [fmap list_fmap] in Hn.
    apply not_elem_of_cons in Hn as [Hn1 Hn2]. rewrite Hother; [|apply Hl; by left|by apply not_eq_sym].
    rewrite IH; [done| |done]. intros ? ?. apply Hl. by right. }
  assert (∀ s1 l, l !! Z.to_nat (lo_lcid lc - 1) = Some s1 → channel_left l g lc = if LCGID s1 =? g then LCID_buffer_remain s1 else 0) as Hown.
  { intros s1 l Hl. unfold channel_left. rewrite Hl, Hsus. done. }
  induction L as [|y L IH]; [by apply elem_of_nil in Hlc|]. rewrite !sumZ_cons. cbn [fmap list_fmap] in Hnd.
  apply NoDup_cons in Hnd as [Hn Hnd]. apply elem_of_cons in Hlc as [<-|Hlc].
  - rewrite Hrest; [|intros ? ?; apply Hpos; by right|done].
    rewrite (Hown s' (<[_ := s']> infos)) by (apply list_lookup_insert_eq; by eapply lookup_lt_Some).
    rewrite (Hown s infos Hs), Hg. destruct (LCGID s =? g); lia.
  - rewrite IH by (try done; intros ? ?; apply Hpos; by right). rewrite Hother; [lia|apply Hpos; by left|].
    intros Heq. apply Hn. rewrite Heq. by apply list_elem_of_fmap_2.
Qed.

Lemma groups_left_insert L infos lc s s' n :
  NoDup (lo_lcid <$> L) → (∀ lc, lc ∈ L → 1 <= lo_lcid lc) → lc ∈ L → lo_suspended lc = false →
  infos !! Z.to_nat (lo_lcid lc - 1) = Some s → LCGID s' = LCGID s → LCID_buffer_remain s' = LCID_buffer_remain s - n →
  0 <= LCGID s < NR_MAX_NUM_LCGID →
  lcg_add (groups_left L infos) (LCGID s) (- n) = Ok (groups_left L (<[Z.to_nat (lo_lcid lc - 1) := s']> infos)).
Proof.
  intros Hnd Hpos Hlc Hsus Hs Hg Hr Hrange. unfold lcg_add.
  assert (arr_get (groups_left L infos) (LCGID s) = Ok (group_left L infos (LCGID s))) as ->.
  { unfold arr_get. destruct (Z.ltb_spec (LCGID s) 0); [lia|]. by rewrite groups_left_lookup. }
  cbn [mbind outcome_bind]. rewrite arr_set_ok by apply Hrange. f_equal. unfold groups_left.
  rewrite <- (fmap_seqZ_insert (group_left L infos) (group_left L (<[Z.to_nat (lo_lcid lc - 1) := s']> infos))
    NR_MAX_NUM_LCGID (LCGID s)); [do 2 f_equal|done|].
  - unfold group_left. rewrite (channel_left_insert L infos lc s s') by done. rewrite Z.eqb_refl, Hr. unfold u32. rewrite Zplus_mod_idemp_l. f_equal. lia.
  - intros h Hh. unfold group_left. rewrite (channel_left_insert L infos lc s s') by done.
    rewrite (proj2 (Z.eqb_neq _ _)) by done. f_equal. lia.
Qed.

Lemma groups_left_same L infos lc s s' :
  NoDup (lo_lcid <$> L) → (∀ lc, lc ∈ L → 1 <= lo_lcid lc) → lc ∈ L → lo_suspended lc = false →
  infos !! Z.to_nat (lo_lcid lc - 1) = Some s → LCGID s' = LCGID s → LCID_buffer_remain s' = LCID_buffer_remain s →
  groups_left L (<[Z.to_nat (lo_lcid lc - 1) := s']> infos) = groups_left L infos.
Proof.
  intros Hnd Hpos Hlc Hsus Hs Hg Hr. apply list_fmap_ext. intros _ g _. unfold group_left.
  rewrite (channel_left_insert L infos lc s s') by done. rewrite Hr. destruct (LCGID s =? g); f_equal; lia.
Qed.

Section Rounds.
Context {E : Type} `{!RlcOps E, !RlcTx E}.
Context (now t id end_ : Z) (mac0 : ul_mac) (m0 : list (nr_rlc_ue_t E)) (ue0 : nr_rlc_ue_t E) (buf0 : bytes).
Notation L := (lc_ordered_list mac0).
Context (HL : lcs_ok L) (Hend : end_ <= zlen buf0) (Hmax : end_ < 2 ^ 31) (HF : Forall is_byte buf0).

Record lcp_ok (sent : list (bool * Z * bytes)) (x : lcp E) : Prop := {
  lk_cursor : (l_buf x, l_cur x) = cursor (ul_sent_octets sent) buf0;
  lk_room : l_cur x <= end_;
  lk_sent : ul_sent_ok sent;
  lk_rlc : ∃ ue, ue_ready id (l_rlc x) ue ∧ ue_map (l_rlc x) = <[id := ue]> (ue_map m0) ∧ pulls now t ue0 sent ue;
  lk_mac : l_mac x = mac0 <| lc_sched_info := lc_sched_info (l_mac x) |>;
  lk_infos : infos_ok L (lc_sched_info (l_mac x));
  lk_status : zlen (l_status x) = 32;
  lk_tot : zlen (l_tot x) = 32;
  lk_LCG : l_LCG x = groups_left L (lc_sched_info (l_mac x));
}.

Notation room x := (end_ - l_cur x).

Lemma lk_list sent x : lcp_ok sent x → lc_ordered_list (l_mac x) = L.
Proof. intros J. by rewrite (lk_mac _ _ J). Qed.

Lemma lk_pos sent x : lcp_ok sent x → 0 <= l_cur x.
Proof. intros J. pose proof (lk_cursor _ _ J) as H. injection H as _ ->. apply zlen_nonneg. Qed.

(** within a channel's turn, which has taken [T] octets so far *)
Definition turn_ok (lc : nr_lcordered_info_t) (count ep round T : Z) (x : lcp E) : Prop :=
  0 <= T ∧
  if 1 <? count then T <= share_target ep (pbr lc) (u8 round) ∧ (room x < 3 ∨ ep <= T ∨ ep + 3 - T <= room x)
  else T <= l_cur x ∧ (u8 round = 0 → T <= pbr lc).

(** what one more SDU does *)
Inductive fill_step (lc : nr_lcordered_info_t) (count ep round T : Z) (x : lcp E) : bool → lcp E → Prop :=
  | fs_full : room x < 3 → fill_step lc count ep round T x false x
  | fs_empty x' :
      l_cur x' = l_cur x → l_status x' = <[Z.to_nat (lo_lcid lc - 1) := false]> (l_status x) →
      l_num x' = l_num x - 1 → l_tot x' = l_tot x → fill_step lc count ep round T x false x'
  | fs_sdu (more : bool) x' T' :
      l_cur x + 3 <= l_cur x' → l_status x' = l_status x → l_tot x' = <[Z.to_nat (lo_lcid lc - 1) := T']> (l_tot x) →
      (1 < count → l_cur x' - l_cur x <= T' - T ∧ T' <= ep + 3) →
      l_num x' = (if more then l_num x else l_num x - 1) →
      (if more then turn_ok lc count ep round T' x' else True) →
      fill_step lc count ep round T x more x'.

(** the header of an SDU and its length *)
Definition sdu_hdr (r c n : Z) : bytes := if r <? 256 then NR_MAC_SUBHEADER_SHORT c n else NR_MAC_SUBHEADER_LONG c n.
Definition hdr_len (r : Z) : Z := if r <? 256 then 2 else 3.
Lemma zlen_sdu_hdr r c n : zlen (sdu_hdr r c n) = hdr_len r.
Proof. unfold sdu_hdr, hdr_len. by destruct (r <? 256). Qed.
Lemma hdr_len_range r : 2 <= hdr_len r <= 3.
Proof. unfold hdr_len. destruct (r <? 256); lia. Qed.

(** the part up to the answer of RLC *)
Lemma fill_pull sent x lc r :
  lcp_ok sent x → lc ∈ L → 0 <= r → hdr_len r + r <= room x →
  ∃ pdu m' ue ue', nr_mac_rlc_data_req now t (l_rlc x) id (lo_lcid lc) r
      (drop (Z.to_nat (l_cur x + hdr_len r)) (l_buf x))
    = Ok (zlen pdu, pdu ++ drop (length pdu) (drop (Z.to_nat (l_cur x + hdr_len r)) (l_buf x)), m') ∧
    zlen pdu <= r ∧ zlen pdu < 65536 ∧ pulls now t ue0 sent ue ∧ pulled now t ue (lo_lcid lc) r pdu ue' ∧
    ue_ready id m' ue' ∧ ue_map m' = <[id := ue']> (ue_map m0).
Proof.
  intros J Hlc Hr Hroom. destruct (lo_range _ HL lc Hlc) as [Hc _]. destruct (lk_rlc _ _ J) as (ue & R & Hm & Hp).
  pose proof (hdr_len_range r). pose proof (lk_pos _ _ J) as H0. pose proof (lk_cursor _ _ J) as Hb. injection Hb as Hb Hcur.
  assert (zlen (l_buf x) = zlen buf0) as Hz.
  { rewrite Hb. apply (zlen_cursor (ul_sent_octets sent) buf0). pose proof (lk_room _ _ J). lia. }
  destruct (data_req_ok now t (l_rlc x) id ue (lo_lcid lc) r
    (drop (Z.to_nat (l_cur x + hdr_len r)) (l_buf x)) R) as (pdu & m' & ue' & Hreq & H1 & H2 & R' & Hm' & Hpd).
  - lia.
  - rewrite zlen_drop by lia. lia.
  - rewrite Hb. replace (Z.to_nat (l_cur x + _)) with (length (ul_sent_octets sent) + Z.to_nat (hdr_len r))%nat
      by (rewrite Hcur; unfold zlen; lia).
    rewrite drop_behind. by apply Forall_drop.
  - exists pdu, m', ue, ue'. split_and!; try done. by rewrite Hm', Hm, insert_insert_eq.
Qed.

(** the update of the channel's scheduling information *)
Lemma lk_set_info mac lc s s' :
  mac = mac0 <| lc_sched_info := lc_sched_info mac |> → infos_ok L (lc_sched_info mac) →
  lc ∈ L → lc_sched_info mac !! Z.to_nat (lo_lcid lc - 1) = Some s →
  LCGID s' = LCGID s → 0 <= LCID_buffer_remain s' < 2 ^ 31 →
  ∃ mac', set_scheduling_info mac (lo_lcid lc) s' = Ok mac' ∧
    mac' = mac0 <| lc_sched_info := lc_sched_info mac' |> ∧ infos_ok L (lc_sched_info mac') ∧
    lc_sched_info mac' = <[Z.to_nat (lo_lcid lc - 1) := s']> (lc_sched_info mac) ∧
    lc_sched_info mac' !! Z.to_nat (lo_lcid lc - 1) = Some s'.
Proof.
  intros Hmac Hi Hlc Hs Hg Hb. destruct (lo_range _ HL lc Hlc) as [Hc _]. pose proof (li_len _ _ Hi) as Hl.
  rewrite set_info_ok by lia. eexists. split; [done|]. cbn. split_and!.
  - rewrite Hmac. done.
  - eapply infos_insert; [done|lia|exact Hs|done|done].
  - done.
  - rewrite list_lookup_insert_eq; [done|]. unfold zlen in Hl. lia.
Qed.

Lemma lk_info sent x lc : lcp_ok sent x → lc ∈ L →
  ∃ s, lc_sched_info (l_mac x) !! Z.to_nat (lo_lcid lc - 1) = Some s ∧
    get_scheduling_info_from_lcid (l_mac x) (lo_lcid lc) = Ok s ∧ 0 <= LCGID s < NR_MAX_NUM_LCGID ∧ 0 <= LCID_buffer_remain s < 2 ^ 31.
Proof.
  intros J Hlc. destruct (lo_range _ HL lc Hlc) as [Hc _]. pose proof (li_len _ _ (lk_infos _ _ J)) as Hl.
  destruct (arr_get_ok (lc_sched_info (l_mac x)) (lo_lcid lc - 1)) as (s & _ & Hs); [lia|]. exists s.
  split; [done|]. split; [apply info_ok; [lia|done]|]. by apply (li_info _ _ (lk_infos _ _ J) lc).
Qed.

(** the request of [fill_mac_sdu] *)
Lemma fill_request sent x lc s count ep round T :
  lcp_ok sent x → lc ∈ L → get_scheduling_info_from_lcid (l_mac x) (lo_lcid lc) = Ok s → 0 <= LCID_buffer_remain s < 2 ^ 31 →
  0 <= ep < 2 ^ 31 → arr_get (l_tot x) (lo_lcid lc - 1) = Ok T → turn_ok lc count ep round T x → 3 <= room x →
  ∃ r, get_num_bytes_to_reqlc (l_mac x) count (lo_lcid lc) ep (room x - (if room x <? 256 then 2 else 3)) (u8 round) (l_tot x)
      = Ok (r, if 1 <? count then Z.min ep (pbr lc) else pbr lc) ∧
    0 <= r <= LCID_buffer_remain s ∧ hdr_len r + r <= room x ∧
    (if 1 <? count then T + r <= share_target ep (pbr lc) (u8 round) else u8 round = 0 → T + r <= pbr lc).
Proof.
  intros J Hlc Hs Hb He HT [HT0 Ht] Hroom. pose proof (lk_pos _ _ J) as H0.
  destruct (lo_range _ HL lc Hlc) as [Hc Hp].
  destruct (get_num_ok (l_mac x) (lo_lcid lc) lc s count ep (room x - (if room x <? 256 then 2 else 3)) (u8 round) (l_tot x) T)
    as (r & Hr & Hr1 & Hr2 & Hr3); try done.
  - rewrite (lk_mac _ _ J). apply get_lc_ok; [apply HL|done].
  - lia.
  - destruct (Z.ltb_spec (room x) 256); lia.
  - destruct (1 <? count); [|tauto]. split; [tauto|]. destruct (Z.ltb_spec (room x) 256); lia.
  - exists r. split; [done|]. split; [lia|]. split; [|done]. unfold hdr_len.
    destruct (Z.ltb_spec (room x) 256), (Z.ltb_spec r 256); lia.
Qed.

(** the turn goes on only within what the channel may take *)
Lemma turn_goes_on lc count ep round T (x x' : lcp E) r n h :
  turn_ok lc count ep round T x → (1 < count → u8 round = 0 → round = 0 ∨ ep <= pbr lc) → 0 < n <= r → 2 <= h <= 3 →
  l_cur x' = l_cur x + (h + n) →
  (if 1 <? count then T + r <= share_target ep (pbr lc) (u8 round) else u8 round = 0 → T + r <= pbr lc) →
  let T' := T + (n + (if 1 <? count then 3 else 0)) in
  (((round =? 0) && ((if 1 <? count then Z.min ep (pbr lc) else pbr lc) <=? T')) || ((1 <? count) && (ep <=? T'))) = false →
  turn_ok lc count ep round T' x'.
Proof.
  intros [HT0 Ht] HR Hn Hh Hcur Hr T' Hgo. unfold turn_ok in *. subst T'. revert Ht Hr Hgo.
  destruct (Z.ltb_spec 1 count); intros Ht Hr Hgo.
  - split; [lia|]. destruct Ht as [Ht1 Ht2]. cbn [andb] in Hgo. apply orb_false_elim in Hgo as [Hgo1 Hgo2%Z.leb_gt].
    assert (share_target ep (pbr lc) (u8 round) <= ep) by apply share_target_le.
    split; [|lia]. unfold share_target. destruct (Z.eqb_spec (u8 round) 0) as [H8|H8]; [|lia].
    destruct (HR ltac:(done) H8) as [->|?]; [|lia]. cbn [Z.eqb andb] in Hgo1. apply Z.leb_gt in Hgo1. lia.
  - split; [lia|]. destruct Ht as [Ht1 Ht2]. split; [lia|]. intros H8. specialize (Hr H8). lia.
Qed.

Lemma fill_ok sent x lc count ep round T :
  lcp_ok sent x → lc ∈ L → lo_suspended lc = false → 0 <= ep < 2 ^ 31 → 1 <= l_num x <= 255 →
  arr_get (l_tot x) (lo_lcid lc - 1) = Ok T → turn_ok lc count ep round T x →
  (1 < count → u8 round = 0 → round = 0 ∨ ep <= pbr lc) →
  ∃ more x' extra, fill_mac_sdu now t id end_ (lo_lcid lc) count ep round x = Ok (more, x') ∧
    lcp_ok (sent ++ extra) x' ∧ fill_step lc count ep round T x more x'.
Proof.
  intros J Hlc Hsus He Hnum HT Hturn HR. destruct (lo_range _ HL lc Hlc) as [Hc Hp].
  destruct (lk_info _ _ _ J Hlc) as (s & Hs & Hgs & Hlcg & Hrem). pose proof (lk_pos _ _ J) as H0. pose proof (lk_room _ _ J) as Hrm.
  unfold fill_mac_sdu. rewrite Hgs. cbn [mbind outcome_bind].
  assert (lo_is_suspended (l_mac x) (lo_lcid lc) = false) as ->.
  { unfold lo_is_suspended. rewrite get_lc_ok; rewrite ?(lk_list _ _ J); [done|apply HL|done]. }
  assert (u64 (room x) = room x) as -> by (apply Z.mod_small; lia).
  destruct (Z.ltb_spec (room x) 3).
  { exists false, x, []. rewrite app_nil_r. split_and!; [done|done|by apply fs_full]. }
  destruct (fill_request _ _ _ _ count ep round T J Hlc Hgs Hrem He HT Hturn ltac:(done)) as (r & -> & Hr1 & Hr2 & Hr3).
  cbn [mbind outcome_bind]. change (if r <? 256 then 2 else 3) with (hdr_len r).
  destruct (fill_pull _ _ lc r J Hlc ltac:(lia) Hr2) as (pdu & m' & ue & ue' & -> & Hsz & H16 & Hpulls & Hpull & R' & Hm').
  cbn [mbind outcome_bind]. pose proof (zlen_nonneg pdu) as Hn0. rewrite (Z.mod_small (zlen pdu)) by lia.
  unfold assert_fatal. rewrite (proj2 (Z.leb_le _ _)) by done. cbn [mbind outcome_bind].
  set (s1 := s <| Bj := Bj s - zlen pdu |>).
  destruct (lk_set_info _ _ s s1 (lk_mac _ _ J) (lk_infos _ _ J) Hlc Hs eq_refl Hrem) as (mac1 & -> & Hmac1 & Hinf1 & Hi1 & Hs1).
  assert (∀ lc', lc' ∈ L → 1 <= lo_lcid lc') as Hpos1 by (intros lc' Hl'; destruct (lo_range _ HL lc' Hl'); lia).
  assert (l_LCG x = groups_left L (lc_sched_info mac1)) as HLCG1.
  { rewrite Hi1, (groups_left_same _ _ lc s) by (apply HL || done). apply J. }
  cbn [mbind outcome_bind]. rewrite lcid_index by lia. cbn [mbind outcome_bind].
  pose proof (lk_status _ _ J) as Hst. pose proof (lk_tot _ _ J) as Htot. lcp_fields.
  destruct (Z.ltb_spec 0 (zlen pdu)) as [Hpos|Hneg]; cbn [negb].
  2: { assert (pdu = []) as -> by (destruct pdu as [|y pdu]; [done|rewrite zlen_cons in Hneg; pose proof (zlen_nonneg pdu); lia]).
    rewrite arr_set_ok by lia. cbn [mbind outcome_bind app length]. rewrite drop_0, take_drop.
    eexists false, _, []. rewrite app_nil_r. split; [done|]. split.
    - destruct J. split; cbn; try done.
      + exists ue'. split_and!; try done. rewrite <- (app_nil_r sent). eapply pulls_trans; [done|].
        eapply pulls_none; [done|constructor].
      + unfold zlen in *. by rewrite length_insert.
    - apply fs_empty; cbn; try done. apply Z.mod_small. lia. }
  pose proof (lk_cursor _ _ J) as Hb. injection Hb as Hb Hcur.
  assert (zlen (l_buf x) = zlen buf0) as Hz by (rewrite Hb; apply (zlen_cursor (ul_sent_octets sent) buf0); lia).
  set (hdr := sdu_hdr r (lo_lcid lc) (zlen pdu)).
  assert ((if hdr_len r =? 2 then NR_MAC_SUBHEADER_SHORT (lo_lcid lc) (zlen pdu) else NR_MAC_SUBHEADER_LONG (lo_lcid lc) (zlen pdu)) = hdr)
    as -> by (unfold hdr, sdu_hdr, hdr_len; by destruct (r <? 256)).
  pose proof (hdr_len_range r) as Hhr. assert (zlen hdr = hdr_len r) as Hhl by apply zlen_sdu_hdr.
  pose proof (sdu_written (ul_sent_octets sent) hdr pdu buf0 ltac:(lia)) as Hw. cbv zeta in Hw.
  rewrite Hb, Hcur, <- Hhl.
  assert (drop (Z.to_nat (zlen (ul_sent_octets sent) + zlen hdr)) (ul_sent_octets sent ++ drop (length (ul_sent_octets sent)) buf0)
    = drop (length (ul_sent_octets sent) + length hdr) buf0) as ->.
  { replace (Z.to_nat (zlen (ul_sent_octets sent) + zlen hdr)) with (length (ul_sent_octets sent) + length hdr)%nat
      by (unfold zlen; lia). apply drop_behind. }
  rewrite Hw. cbn [mbind outcome_bind]. rewrite (info_ok _ _ s1) by (done || lia). cbn [mbind outcome_bind].
  set (s2 := set_LCID_buffer_remain (LCID_buffer_remain s1 - zlen pdu) s1).
  assert (LCID_buffer_remain s2 = LCID_buffer_remain s - zlen pdu) as Hs2 by done.
  destruct (lk_set_info mac1 _ s1 s2 Hmac1 Hinf1 Hlc Hs1 eq_refl ltac:(lia)) as (mac2 & -> & Hmac2 & Hinf2 & Hi2 & _).
  cbn [mbind outcome_bind]. change (LCGID s1) with (LCGID s).
  rewrite HLCG1, (groups_left_insert L _ lc s1 s2) by (apply HL || done). rewrite <- Hi2. cbn [mbind outcome_bind].
  rewrite HT. cbn [mbind outcome_bind]. set (T' := T + (zlen pdu + (if 1 <? count then 3 else 0))).
  assert (0 <= T') as HT0 by (subst T'; destruct Hturn as [? _]; destruct (1 <? count); lia).
  assert (T' < 2 ^ 32 ∧ (1 < count → T' <= ep + 3)) as [HT32 HTep].
  { subst T'. destruct Hturn as [_ Ht]. revert Ht Hr3. pose proof (share_target_le ep (pbr lc) (u8 round)).
    destruct (Z.ltb_spec 1 count); lia. }
  rewrite (u32_small T') by lia. rewrite arr_set_ok by lia. cbn [mbind outcome_bind].
  set (sent' := [(negb (r <? 256), lo_lcid lc, pdu)]).
  assert (ul_sent_octets (sent ++ sent') = ul_sent_octets sent ++ hdr ++ pdu) as Hso.
  { unfold sent'. rewrite ul_sent_octets_snoc. unfold ul_sdu_octets, hdr, sdu_hdr. by destruct (r <? 256). }
  set (tot' := <[Z.to_nat (lo_lcid lc - 1) := T']> (l_tot x)).
  set (cur' := zlen (ul_sent_octets sent) + (zlen hdr + zlen pdu)).
  assert (∀ num, lcp_ok (sent ++ sent') (mk_lcp mac2 m' (cursor (ul_sent_octets sent ++ hdr ++ pdu) buf0).1 cur'
                                           (l_status x) tot' num (groups_left L (lc_sched_info mac2)))) as J'.
  { intros num. split; cbn; try done.
    - rewrite Hso. unfold cursor. cbn [fst]. f_equal. unfold cur'. rewrite !zlen_app. lia.
    - subst cur'. lia.
    - apply Forall_app. split; [apply J|]. apply Forall_singleton. split; [done|]. destruct (Z.ltb_spec r 256); cbn [negb]; lia.
    - exists ue'. split_and!; try done. eapply pulls_trans; [done|]. eapply pulls_pdu; [done| |constructor].
      intros ->. done.
    - unfold tot', zlen in *. by rewrite length_insert. }
  assert (∀ x' : lcp E, l_cur x' = cur' → l_cur x' = l_cur x + (hdr_len r + zlen pdu)) as Hcur' by (intros x' ->; subst cur'; lia).
  destruct (((round =? 0) && _) || _) eqn:Hgo.
  - eexists false, _, sent'. split; [done|]. split; [apply J'|].
    apply (fs_sdu _ _ _ _ _ _ _ _ T'); cbn; try done; [lia| |apply u32_small; lia].
    intros H1. split; [|by apply HTep]. subst T' cur'. rewrite (proj2 (Z.ltb_lt 1 count)) by done. lia.
  - eexists true, _, sent'. split; [done|]. split; [apply J'|].
    apply (fs_sdu _ _ _ _ _ _ _ _ T'); cbn; try done; [lia| |].
    + intros H1. split; [|by apply HTep]. subst T' cur'. rewrite (proj2 (Z.ltb_lt 1 count)) by done. lia.
    + eapply (turn_goes_on lc count ep round T x _ r (zlen pdu) (hdr_len r)); try done; (lia || by apply Hcur').
Qed.

(** ** The turn of a channel *)

(** what a turn does, in which the channel had taken [T] octets before *)
Record turn_step (lc : nr_lcordered_info_t) (count ep T : Z) (x x' : lcp E) : Prop := {
  ts_cur : l_cur x <= l_cur x';
  ts_tot : ∀ i, i ≠ Z.to_nat (lo_lcid lc - 1) → l_tot x' !! i = l_tot x !! i;
  ts_num : (l_num x' = l_num x ∧ room x' < 3) ∨ l_num x' = l_num x - 1;
  ts_share : 1 < count → l_cur x' - l_cur x <= ep + 3 - T;
  ts_progress : l_status x' = <[Z.to_nat (lo_lcid lc - 1) := false]> (l_status x) ∨
                (l_status x' = l_status x ∧ (room x' < 3 ∨ l_cur x + 3 <= l_cur x'));
}.

Lemma fill_loop_ok lc count ep round : lc ∈ L → lo_suspended lc = false → 0 <= ep < 2 ^ 31 →
  (1 < count → u8 round = 0 → round = 0 ∨ ep <= pbr lc) →
  ∀ fuel sent x T, lcp_ok sent x → 1 <= l_num x <= 255 → arr_get (l_tot x) (lo_lcid lc - 1) = Ok T →
  turn_ok lc count ep round T x → (Z.to_nat (room x) <= fuel)%nat →
  ∃ x' extra, fill_loop now t id end_ fuel (lo_lcid lc) count ep round x = Ok x' ∧
    lcp_ok (sent ++ extra) x' ∧ turn_step lc count ep T x x'.
Proof.
  intros Hlc Hsus He HR. induction fuel as [|fuel IH]; intros sent x T J Hnum HT Hturn Hf; cbn [fill_loop];
    (assert (1 < count → T <= ep) as HTep by
       (intros H1; destruct Hturn as [_ Ht]; rewrite (proj2 (Z.ltb_lt 1 count)) in Ht by done;
        pose proof (share_target_le ep (pbr lc) (u8 round)); lia));
    (destruct (Z.ltb_spec 0 (room x)); cbn [negb];
     [|exists x, []; rewrite app_nil_r; split_and!; [done|done|]; split; try done; try lia; right; split; [done|left; lia]]).
  { lia. }
  destruct (fill_ok sent x lc count ep round T J Hlc Hsus He Hnum HT Hturn HR) as (more & x1 & extra & -> & J1 & S).
  cbn [mbind outcome_bind]. destruct S as [Hr|x1 Hc Hs Hn Ht|more x1 T' Hc Hs Ht Hsh Hn Hturn'].
  - exists x, extra. split_and!; [done|done|]. split; try done; try lia. right. split; [done|by left].
  - exists x1, extra. split_and!; [done|done|]. split; [lia|by rewrite Ht|by right|lia|by left].
  - destruct more.
    + destruct (IH (sent ++ extra) x1 T' J1) as (x2 & extra2 & -> & J2 & [U1 U2 U3 U4 U5]); [lia| |done|lia|].
      { rewrite Ht. unfold arr_get. destruct (lo_range _ HL lc Hlc) as [? _].
        destruct (Z.ltb_spec (lo_lcid lc - 1) 0); [lia|]. rewrite list_lookup_insert_eq; [done|].
        pose proof (lk_tot _ _ J). unfold zlen in *. lia. }
      exists x2, (extra ++ extra2). rewrite app_assoc. split_and!; [done|done|]. split.
      * lia.
      * intros i Hi. rewrite U2, Ht by done. by apply list_lookup_insert_ne.
      * destruct U3 as [[? ?]|?]; [left; split; [congruence|done]|right; congruence].
      * intros H1. destruct (Hsh H1). specialize (U4 H1). lia.
      * destruct U5 as [->|[-> _]]; [left; by rewrite Hs|right]. split; [done|]. right. lia.
    + exists x1, extra. split_and!; [done|done|]. split; [lia| |by right| |].
      * intros i Hi. rewrite Ht. by apply list_lookup_insert_ne.
      * intros H1. destruct (Hsh H1). lia.
      * right. split; [done|]. by right.
Qed.

(** ** A round *)

(** the number of channels that may have data, and what decreases *)
Definition trues (l : list bool) : Z := zlen (filter (λ b, b = true) l).
Definition mu (x : lcp E) : Z := room x + 3 * trues (l_status x).

Lemma trues_nonneg l : 0 <= trues l.
Proof. apply zlen_nonneg. Qed.
Lemma trues_le l : trues l <= zlen l.
Proof. unfold trues, zlen. pose proof (length_filter (λ b, b = true) l). lia. Qed.

Lemma trues_cons b l : trues (b :: l) = (if b then 1 else 0) + trues l.
Proof. unfold trues. rewrite filter_cons. destruct b; [rewrite decide_True, zlen_cons by done; lia|by rewrite decide_False]. Qed.

Lemma trues_insert l i : l !! i = Some true → trues (<[i := false]> l) = trues l - 1.
Proof.
  revert i. induction l as [|b l IH]; intros [|i] H; [done..| |].
  - injection H as ->. change (<[0%nat := false]> (true :: l)) with (false :: l). rewrite !trues_cons. lia.
  - change (<[S i := false]> (b :: l)) with (b :: <[i := false]> l). rewrite !trues_cons, (IH i) by exact H. lia.
Qed.

(** between the turns: the number of channels of the priority still to come, and their share *)
Definition share_ok (count ep : Z) (x : lcp E) : Prop :=
  0 <= l_num x <= count ∧ count <= 255 ∧ 0 <= ep <= end_ ∧
  (room x < 3 ∨ ep = 0 ∨ l_num x * (ep + 3) <= room x).

Lemma same_priority_range lc rest : zlen (lc :: rest) <= 255 → 1 <= get_count_lcids_same_priority (lc :: rest) <= 255.
Proof.
  intros H. unfold get_count_lcids_same_priority. rewrite filter_cons, decide_True, zlen_cons by done.
  rewrite zlen_cons in H. pose proof (length_filter (λ x, priority x = priority lc) rest). unfold u8, zlen in *.
  rewrite Z.mod_small by (change (2 ^ 8) with 256; lia). lia.
Qed.

Lemma same_priority_once lc rest : NoDup (priority <$> lc :: rest) → get_count_lcids_same_priority (lc :: rest) = 1.
Proof.
  intros H. cbn [fmap list_fmap] in H. apply NoDup_cons in H as [H _]. unfold get_count_lcids_same_priority.
  rewrite filter_cons, decide_True by done.
  assert (filter (λ x, priority x = priority lc) rest = []) as ->; [|done].
  destruct (filter _ rest) as [|y l] eqn:Ef; [done|]. exfalso. apply H.
  assert (y ∈ filter (λ x, priority x = priority lc) rest) as Hy by (rewrite Ef; apply list_elem_of_here).
  apply list_elem_of_filter in Hy as [<- Hy]. by apply list_elem_of_fmap_2.
Qed.

(** the start of a channel's turn *)
Lemma turn_start lc rest count ep x :
  zlen (lc :: rest) <= 255 → share_ok count ep x → 0 <= l_cur x <= end_ →
  let '(count, x) := if l_num x =? 0 then let n := get_count_lcids_same_priority (lc :: rest) in (n, x <| l_num := n |>) else (count, x) in
  let ep := if l_num x =? count then
      if u64 (room x) <? count * 3 then 0 else u32 (u64 (room x - count * 3) / count) else ep in
  share_ok count ep x ∧ 1 <= l_num x.
Proof.
  intros Hlen (Hn & Hcnt & He & Hs) Hcur. pose proof (same_priority_range lc rest Hlen) as Hr.
  assert (∀ n, 1 <= n <= 255 →
    let ep := if u64 (room x) <? n * 3 then 0 else u32 (u64 (room x - n * 3) / n) in
    0 <= ep <= end_ ∧ (ep = 0 ∨ n * (ep + 3) <= room x)) as K.
  { intros n Hn1. unfold u64. rewrite (Z.mod_small (room x)) by lia.
    destruct (Z.ltb_spec (room x) (n * 3)); [split; [lia|by left]|]. rewrite (Z.mod_small (room x - n * 3)) by lia.
    assert (0 <= (room x - n * 3) / n) by (apply Z.div_pos; lia).
    assert (n * ((room x - n * 3) / n) <= room x - n * 3) by (apply Z.mul_div_le; lia).
    assert ((room x - n * 3) / n <= end_) by nia.
    rewrite u32_small by lia. cbv zeta. split; [lia|right; nia]. }
  destruct (Z.eqb_spec (l_num x) 0) as [H0|H0]; lcp_fields.
  - rewrite Z.eqb_refl. destruct (K _ Hr) as [K1 K2]. unfold share_ok. lcp_fields. split; [|lia]. split_and!; (lia || by right).
  - split; [|lia]. destruct (Z.eqb_spec (l_num x) count) as [Hc|Hc]; unfold share_ok; [|done].
    destruct (K count ltac:(lia)) as [K1 K2]. rewrite Hc in *. split_and!; (lia || by right).
Qed.

(** The number of the round has eight bits where the request is computed: it matters only if
    channels share a priority and their bit rate limits them. *)
Definition round_fits (round count : Z) (active : list nr_lcordered_info_t) : Prop :=
  (u8 round = 0 → round = 0) ∨ (NoDup (priority <$> active) ∧ count <= 1) ∨ ∀ lc, lc ∈ active → end_ <= pbr lc.

Record round_step (active : list nr_lcordered_info_t) (x x' : lcp E) : Prop := {
  rs_cur : l_cur x <= l_cur x';
  rs_mu : mu x' <= mu x;
  rs_status : ∀ i, l_status x' !! i = Some true → l_status x !! i = Some true;
  rs_progress : ∀ lc, lc ∈ active → l_status x !! Z.to_nat (lo_lcid lc - 1) = Some true → 3 <= room x' → mu x' + 3 <= mu x;
}.

Lemma round_step_skip lc rest x x' :
  l_status x !! Z.to_nat (lo_lcid lc - 1) = Some false → round_step rest x x' → round_step (lc :: rest) x x'.
Proof.
  intros Hs [H1 H2 H3 H4]. split; try done. intros lc' Hlc' Ht. apply elem_of_cons in Hlc' as [->|Hlc']; [congruence|by eapply H4].
Qed.

Lemma round_step_turn lc rest count ep T x y x1 x' :
  l_status x !! Z.to_nat (lo_lcid lc - 1) = Some true → l_cur y = l_cur x → l_status y = l_status x →
  turn_step lc count ep T y x1 → round_step rest x1 x' → round_step (lc :: rest) x x'.
Proof.
  intros Hst Hcur Hsty [H1 _ _ _ H5] [R1 R2 R3 _]. rewrite Hcur, Hsty in *.
  assert (mu x1 <= mu x ∧ (3 <= room x1 → mu x1 + 3 <= mu x) ∧ ∀ i, l_status x1 !! i = Some true → l_status x !! i = Some true)
    as (Hm & Hp & Hi).
  { unfold mu. destruct H5 as [->|[-> ?]].
    - rewrite trues_insert by done. split; [lia|]. split; [lia|]. intros i. rewrite list_lookup_insert. by case_decide.
    - split; [lia|]. split; [lia|done]. }
  split; [lia|lia|by intros i ?%R3%Hi|]. intros lc' _ _ Hr. unfold mu in *. lia.
Qed.

Lemma round_fits_tail round count lc rest : round_fits round count (lc :: rest) → round_fits round count rest.
Proof.
  intros [?|[[Hn Hc]|H]]; [by left|right; left|right; right].
  - split; [|done]. cbn [fmap list_fmap] in Hn. by apply NoDup_cons in Hn as [_ Hn].
  - intros lc' Hlc'. apply H. by right.
Qed.

Lemma share_after_turn lc count ep x x' :
  1 <= l_num x → share_ok count ep x → turn_step lc count ep 0 x x' → l_cur x' <= end_ → share_ok count ep x'.
Proof.
  intros H1 (Hn & Hc & He & Hs) [T1 _ T3 T4 _] Hr. unfold share_ok. split; [lia|]. split; [done|]. split; [done|].
  destruct T3 as [[_ ?]|T3]; [by left|]. destruct Hs as [?|[?|Hs]]; [left; lia|right; by left|]. right. right. rewrite T3.
  destruct (decide (1 < count)) as [Hc1|Hc1]; [specialize (T4 Hc1); nia|].
  assert (l_num x = 1) as -> by lia. lia.
Qed.

Lemma lk_num sent x n : lcp_ok sent x → lcp_ok sent (x <| l_num := n |>).
Proof. intros []. by split. Qed.

Lemma lcp_round_ok fuel round : (Z.to_nat end_ <= fuel)%nat → ∀ active sent x count ep,
  (∀ lc, lc ∈ active → lc ∈ L ∧ lo_suspended lc = false) → NoDup (lo_lcid <$> active) → zlen active <= 255 →
  round_fits round count active → lcp_ok sent x → share_ok count ep x →
  (∀ lc, lc ∈ active → arr_get (l_tot x) (lo_lcid lc - 1) = Ok 0) →
  ∃ ep' x' extra, lcp_round now t id end_ fuel round active count ep x = Ok (ep', x') ∧
    0 <= ep' <= end_ ∧ lcp_ok (sent ++ extra) x' ∧ round_step active x x'.
Proof.
  intros Hf. induction active as [|lc rest IH]; intros sent x count ep Hin Hnd Hlen Hfit J Hsh Htot; cbn [lcp_round].
  { exists ep, x, []. rewrite app_nil_r. split_and!; [done|apply Hsh..|done|]. split; [lia|lia|done|].
    intros lc Hlc. by apply elem_of_nil in Hlc. }
  destruct (Hin lc ltac:(by left)) as [Hlc Hsus]. destruct (lo_range _ HL lc Hlc) as [Hc _].
  cbn [fmap list_fmap] in Hnd. apply NoDup_cons in Hnd as [Hnin Hnd].
  assert (∀ lc', lc' ∈ rest → Z.to_nat (lo_lcid lc' - 1) ≠ Z.to_nat (lo_lcid lc - 1)) as Hne.
  { intros lc' Hlc' Heq. apply Hnin. destruct (Hin lc' ltac:(by right)) as [Hl' _]. destruct (lo_range _ HL lc' Hl') as [? _].
    replace (lo_lcid lc) with (lo_lcid lc') by lia. by apply list_elem_of_fmap_2. }
  assert (zlen rest <= 255) as Hlen' by (rewrite zlen_cons in Hlen; lia).
  pose proof (lk_status _ _ J) as Hsl. rewrite lcid_index by lia. cbn [mbind outcome_bind].
  destruct (arr_get_ok (l_status x) (lo_lcid lc - 1)) as (b & -> & Hb); [lia|]. cbn [mbind outcome_bind].
  destruct b; cbn [negb].
  2: { destruct (IH sent x count ep) as (ep' & x' & extra & ? & ? & ? & ?); try done.
    - intros lc' Hlc'. apply Hin. by right.
    - by eapply round_fits_tail.
    - intros lc' Hlc'. apply Htot. by right.
    - exists ep', x', extra. split_and!; try done; try lia. by apply round_step_skip. }
  pose proof (turn_start lc rest count ep x Hlen Hsh ltac:(pose proof (lk_pos _ _ J); pose proof (lk_room _ _ J); lia)) as Hts.
  destruct (if l_num x =? 0 then _ else _) as [count1 x1] eqn:E1. cbv zeta in Hts.
  assert (∃ n, x1 = x <| l_num := n |>) as (n & Hx1).
  { destruct (l_num x =? 0); injection E1 as <- <-; [by eexists|]. exists (l_num x). by destruct x. }
  assert (round_fits round count1 (lc :: rest)) as Hfit1.
  { destruct Hfit as [?|[[Hp ?]|?]]; [by left|right; left|by right; right]. split; [done|].
    destruct (l_num x =? 0); injection E1 as <- <-; [|done].
    change (get_count_lcids_same_priority (lc :: rest) <= 1). by rewrite same_priority_once. }
  set (ep1 := if l_num x1 =? count1 then _ else ep) in *. destruct Hts as [Hsh1 Hn1].
  assert (lcp_ok sent x1) as J1 by (rewrite Hx1; by apply lk_num).
  destruct (fill_loop_ok lc count1 ep1 round Hlc Hsus) with (fuel := fuel) (sent := sent) (x := x1) (T := 0)
    as (x2 & extra & -> & J2 & S2); try done.
  { destruct Hsh1 as (_ & _ & ? & _). lia. }
  { intros Hc1 H8. destruct Hfit1 as [Hr|[[_ ?]|Hp]]; [left; by apply Hr|lia|right].
    specialize (Hp lc ltac:(by left)). destruct Hsh1 as (_ & _ & ? & _). lia. }
  { destruct Hsh1 as (? & ? & _). lia. }
  { rewrite Hx1. apply Htot. by left. }
  { split; [done|]. destruct (lo_range _ HL lc Hlc) as [_ ?]. destruct Hsh1 as (? & ? & ? & Hs).
    destruct (Z.ltb_spec 1 count1).
    - split; [unfold share_target; destruct (u8 round =? 0); lia|]. destruct Hs as [?|[?|?]]; [by left|right; left; lia|right; right; nia].
    - split; [by apply (lk_pos sent)|lia]. }
  { pose proof (lk_pos _ _ J1). lia. }
  cbn [mbind outcome_bind].
  destruct (IH (sent ++ extra) x2 count1 ep1) as (ep' & x' & extra' & -> & He' & J' & S'); try done.
  { intros lc' Hlc'. apply Hin. by right. }
  { by eapply round_fits_tail. }
  { eapply share_after_turn; [exact Hn1|done|exact S2|]. by apply (lk_room _ _ J2). }
  { intros lc' Hlc'. unfold arr_get in *. specialize (Htot lc' ltac:(by right)). destruct (lo_lcid lc' - 1 <? 0); [done|].
    rewrite (ts_tot _ _ _ _ _ _ S2) by (by apply Hne). by rewrite Hx1. }
  exists ep', x', (extra ++ extra'). rewrite app_assoc. split_and!; [done|lia|lia|done|].
  eapply round_step_turn; [exact Hb| | |exact S2|exact S']; by rewrite Hx1.
Qed.

(** ** All rounds *)

Lemma lk_reset sent x : lcp_ok sent x → lcp_ok sent (x <| l_tot := replicate (Z.to_nat NR_MAX_NUM_LCID) 0 |> <| l_num := 0 |>).
Proof. intros []. by split. Qed.

Lemma data_available_ok active status :
  zlen status = 32 → (∀ lc, lc ∈ active → 1 <= lo_lcid lc <= 32) →
  ∃ b, get_dataavailability_buffers active status = Ok b ∧
    (b = true → ∃ lc, lc ∈ active ∧ status !! Z.to_nat (lo_lcid lc - 1) = Some true).
Proof.
  intros Hs. induction active as [|lc active IH]; intros Hin; cbn [get_dataavailability_buffers]; [by exists false|].
  pose proof (Hin lc ltac:(by left)) as Hc. rewrite lcid_index by done. cbn [mbind outcome_bind].
  destruct (arr_get_ok status (lo_lcid lc - 1)) as (b & -> & Hb); [lia|]. cbn [mbind outcome_bind].
  destruct b; [exists true; split; [done|]; intros _; exists lc; split; [by left|done]|].
  destruct IH as (b & -> & H). { intros lc' Hl. apply Hin. by right. }
  exists b. split; [done|]. intros Hbt. destruct (H Hbt) as (lc' & ? & ?). exists lc'. split; [by right|done].
Qed.

(** What the rounds need for their number: priorities differ, or bit rates do not limit, or the
    rounds are few. *)
Definition rounds_fit (active : list nr_lcordered_info_t) (round : Z) (x : lcp E) : Prop :=
  NoDup (priority <$> active) ∨ (∀ lc, lc ∈ active → end_ <= pbr lc) ∨ 3 * round + mu x <= 767.

Lemma lcp_rounds_ok fuel' active :
  (Z.to_nat end_ <= fuel')%nat → (∀ lc, lc ∈ active → lc ∈ L ∧ lo_suspended lc = false) → NoDup (lo_lcid <$> active) →
  zlen active <= 255 → ∀ fuel round sent x ep,
  0 <= round → 0 <= ep <= end_ → rounds_fit active round x → mu x < 3 * Z.of_nat fuel →
  lcp_ok sent (x <| l_tot := replicate (Z.to_nat NR_MAX_NUM_LCID) 0 |> <| l_num := 0 |>) →
  ∃ x' extra, lcp_rounds now t id end_ fuel fuel' round active ep x = Ok x' ∧ lcp_ok (sent ++ extra) x'.
Proof.
  intros Hf' Hin Hnd Hlen. induction fuel as [|fuel IH]; intros round sent x ep Hround Hep Hfit Hmu J; cbn [lcp_rounds].
  all: set (x0 := x <| l_tot := _ |> <| l_num := 0 |>) in *.
  all: assert (mu x0 = mu x) as Hx0 by done.
  all: pose proof (lk_room _ _ J) as Hr0; pose proof (lk_pos _ _ J) as Hp0; pose proof (trues_nonneg (l_status x0)) as Ht0.
  { unfold mu in *. lia. }
  assert (∀ lc, lc ∈ active → 1 <= lo_lcid lc <= 32) as Hrange.
  { intros lc Hlc. destruct (Hin lc Hlc) as [Hl _]. destruct (lo_range _ HL lc Hl) as [? _]. lia. }
  destruct (lcp_round_ok fuel' round Hf' active sent x0 0 ep) as (ep' & x' & extra & -> & Hep' & J' & S); try done.
  { destruct Hfit as [?|[?|Hb]]; [by right; left|by right; right|left]. unfold u8. intros H8. rewrite Z.mod_small in H8; [done|].
    change (2 ^ 8) with 256. unfold mu in *. lia. }
  { unfold share_ok. change (l_num x0) with 0. split; [lia|]. split; [lia|]. split; [done|]. right. right. lia. }
  { intros lc Hlc. change (l_tot x0) with (replicate 32 0). unfold arr_get. specialize (Hrange lc Hlc).
    destruct (Z.ltb_spec (lo_lcid lc - 1) 0); [lia|]. rewrite lookup_replicate_2 by lia. done. }
  cbn [mbind outcome_bind]. pose proof (lk_room _ _ J') as Hr'. pose proof (lk_pos _ _ J') as Hp'.
  assert (u64 (room x') = room x') as -> by (apply Z.mod_small; lia).
  destruct (Z.ltb_spec 3 (room x')); cbn [mbind outcome_bind]; [|by exists x', extra].
  destruct (data_available_ok active (l_status x')) as (b & -> & Hb); [by apply (lk_status _ _ J')|done|].
  cbn [mbind outcome_bind]. destruct b; [|by exists x', extra]. destruct (Hb eq_refl) as (lc & Hlc & Hs).
  pose proof (rs_progress _ _ _ S lc Hlc (rs_status _ _ _ S _ Hs) ltac:(lia)) as Hdec.
  destruct (IH (round + 1) (sent ++ extra) x' ep') as (x2 & extra2 & -> & J2); try (done || lia).
  { destruct Hfit as [?|[?|?]]; [by left|right; by left|right; right; lia]. }
  { by apply lk_reset. }
  exists x2, (extra ++ extra2). rewrite app_assoc. done.
Qed.
End Rounds.
