(* ===== verification/MacUlCe.v ===== *)
(** * The control elements of an uplink PDU at the UE

    What comes before and after the logical channel prioritization of [nr_ue_get_sdu]: the data of
    the groups, the room kept for control elements, the choice of the channels, and the report
    that is written. *)

From S2P Require Import Prelude RlcTypes RlcManager RlcManagerProofs MacPdu MacPduProofs.
From S2P Require Import MacUl MacUlGnb MacUlBsr MacUlGnbProofs MacUlLcp.

(** ** The data of the groups, before *)

Lemma groups_left_nil infos : groups_left [] infos = replicate (Z.to_nat NR_MAX_NUM_LCGID) 0.
Proof. reflexivity. Qed.

Lemma group_left_snoc P infos lc g : group_left (P ++ [lc]) infos g = u32 (group_left P infos g + channel_left infos g lc).
Proof.
  unfold group_left, u32. rewrite sumZ_app, sumZ_cons, sumZ_nil, Zplus_mod_idemp_l. f_equal. lia.
Qed.

Lemma groups_left_skip P infos lc :
  (∀ g, channel_left infos g lc = 0) → groups_left (P ++ [lc]) infos = groups_left P infos.
Proof.
  intros H. apply list_fmap_ext. intros _ g _. rewrite group_left_snoc, H, Z.add_0_r. unfold group_left, u32. by apply Z.mod_mod.
Qed.

Lemma groups_left_add P infos lc s :
  infos !! Z.to_nat (lo_lcid lc - 1) = Some s → lo_suspended lc = false → 0 <= LCGID s < NR_MAX_NUM_LCGID →
  lcg_add (groups_left P infos) (LCGID s) (LCID_buffer_remain s) = Ok (groups_left (P ++ [lc]) infos).
Proof.
  intros Hs Hsus Hg. unfold lcg_add.
  assert (arr_get (groups_left P infos) (LCGID s) = Ok (group_left P infos (LCGID s))) as ->.
  { unfold arr_get. destruct (Z.ltb_spec (LCGID s) 0); [lia|]. by rewrite groups_left_lookup. }
  cbn [mbind outcome_bind]. rewrite arr_set_ok by apply Hg. f_equal. unfold groups_left.
  rewrite <- (fmap_seqZ_insert (group_left P infos) (group_left (P ++ [lc]) infos) NR_MAX_NUM_LCGID (LCGID s)); [|done|].
  - rewrite group_left_snoc. unfold channel_left. rewrite Hs, Hsus, Z.eqb_refl. done.
  - intros h Hh. rewrite group_left_snoc. unfold channel_left. rewrite Hs, Hsus. cbn [negb andb].
    rewrite (proj2 (Z.eqb_neq _ _)), Z.add_0_r by congruence. unfold group_left, u32. by apply Z.mod_mod.
Qed.

(** what triggering a report changes *)
Definition triggered (l : list nr_lcordered_info_t) (mac mac' : ul_mac) : Prop :=
  ∃ a r, mac' = mac <| BSR_reporting_active := a |> <| regularBSR_trigger_lcid := r |> ∧
    (r = regularBSR_trigger_lcid mac ∨ r ∈ lo_lcid <$> l).

Lemma triggered_refl l mac : triggered l mac mac.
Proof. exists (BSR_reporting_active mac), (regularBSR_trigger_lcid mac). split; [by destruct mac|by left]. Qed.

Lemma update_bsr_loop_ok L infos l : infos_ok L infos → (∀ lc, lc ∈ l → lc ∈ L ∧ 1 <= lo_lcid lc <= 32) →
  ∀ P regular mac ev, lc_sched_info mac = infos →
  ∃ mac' ev', update_bsr_loop l regular mac ev (groups_left P infos) = Ok (mac', ev', groups_left (P ++ l) infos) ∧
    triggered l mac mac'.
Proof.
  intros Hi. induction l as [|lc l IH]; intros Hin P regular mac ev Hmac; cbn [update_bsr_loop].
  { exists mac, ev. rewrite app_nil_r. split; [done|apply triggered_refl]. }
  destruct (Hin lc ltac:(by left)) as [Hlc Hc].
  destruct (arr_get_ok infos (lo_lcid lc - 1)) as (s & _ & Hs); [rewrite (li_len _ _ Hi); lia|].
  destruct (li_info _ _ Hi lc s Hlc Hs) as [Hg Hrem].
  assert (∀ lc', lc' ∈ l → lc' ∈ L ∧ 1 <= lo_lcid lc' <= 32) as Hin' by (intros lc' ?; apply Hin; by right).
  assert (∀ mac1 mac2, triggered l mac1 mac2 → triggered (lc :: l) mac1 mac2) as Hweak.
  { intros mac1 mac2 (a & r & ? & [?|?]); exists a, r; (split; [done|]); [by left|right]. cbn. by right. }
  assert (P ++ lc :: l = (P ++ [lc]) ++ l) as Happ by (by rewrite <- app_assoc).
  destruct (lo_suspended lc) eqn:Hsus.
  - destruct (IH Hin' (P ++ [lc]) regular mac ev Hmac) as (mac' & ev' & Hl & Ht).
    rewrite groups_left_skip in Hl by (intros g; unfold channel_left; rewrite Hs, Hsus; done).
    exists mac', ev'. rewrite Happ. split; [done|by apply Hweak].
  - rewrite (info_ok _ _ s) by (lia || by rewrite Hmac). cbn [mbind outcome_bind].
    destruct (Z.eqb_spec (LCGID s) NR_INVALID_LCGID) as [Hg8|_]; [unfold NR_INVALID_LCGID in *; lia|].
    rewrite (groups_left_add P infos lc s) by done. cbn [mbind outcome_bind]. destruct regular.
    + destruct (IH Hin' (P ++ [lc]) true mac ev Hmac) as (mac' & ev' & -> & Ht). exists mac', ev'.
      rewrite Happ. split; [done|by apply Hweak].
    + unfold trigger_regular_bsr. cbv beta iota.
      set (mac1 := mac <| BSR_reporting_active := _ |> <| regularBSR_trigger_lcid := _ |>).
      edestruct (IH Hin' (P ++ [lc]) true mac1) as (mac' & ev' & -> & (a & r & -> & Hr)); [done|].
      eexists _, ev'. rewrite Happ. split; [done|]. exists a, r. split; [done|]. right. cbn.
      destruct Hr as [->|?]; [by left|by right].
Qed.

Lemma nr_update_bsr_ok mac :
  lcs_ok (lc_ordered_list mac) → infos_ok (lc_ordered_list mac) (lc_sched_info mac) →
  ∃ mac' ev, nr_update_bsr mac (replicate (Z.to_nat NR_MAX_NUM_LCGID) 0)
      = Ok (mac', ev, groups_left (lc_ordered_list mac) (lc_sched_info mac)) ∧ triggered (lc_ordered_list mac) mac mac'.
Proof.
  intros HL Hi. rewrite <- (groups_left_nil (lc_sched_info mac)). unfold nr_update_bsr.
  apply (update_bsr_loop_ok (lc_ordered_list mac)) with (P := []); [done| |done].
  intros lc Hlc. split; [done|]. destruct (lo_range _ HL lc Hlc) as [? _]. lia.
Qed.

(** ** The room for control elements and the channels *)

Lemma mac_ce_pre_ok mac buflen LCG tx P : 2 <= buflen →
  ∃ bsr_len phr mac' ev, nr_ue_get_sdu_mac_ce_pre mac buflen LCG tx P = (bsr_len, phr, mac', ev) ∧
    0 <= bsr_len ∧ bsr_len + (if phr is Some _ then 3 else 0) <= buflen ∧
    (∃ k, mac' = mac <| phr_reporting := k |>).
Proof.
  intros Hb. unfold nr_ue_get_sdu_mac_ce_pre. assert (0 <= groups_with_data LCG) by apply zlen_nonneg.
  set (len := if BSR_reporting_active mac =? 0 then 0 else _).
  assert (0 <= len <= buflen) as Hlen.
  { unfold len. destruct (_ =? 0); [lia|]. destruct (Z.leb_spec (groups_with_data LCG + 1 + 2) buflen); [|].
    - destruct (1 <? groups_with_data LCG); cbn [andb]; [lia|]. destruct (_ || _); lia.
    - rewrite andb_false_r. destruct (_ || _); lia. }
  destruct (Z.leb_spec (len + 3) buflen).
  - destruct (phr_is_configured mac && (0 <? phr_reporting mac)); cbn [andb].
    + eexists len, (Some _), _, _. split; [reflexivity|]. split_and!; [lia|lia|by eexists].
    + eexists len, None, mac, []. split; [done|]. split_and!; [lia|lia|]. exists (phr_reporting mac). by destruct mac.
  - rewrite andb_false_r. eexists len, None, mac, []. split; [done|]. split_and!; [lia|lia|].
    exists (phr_reporting mac). by destruct mac.
Qed.

Lemma select_ok mac l : zlen (lc_sched_info mac) = 32 → (∀ lc, lc ∈ l → 1 <= lo_lcid lc <= 32) →
  ∃ active, select_logical_channels mac l = Ok active ∧ active `sublist_of` l ∧ ∀ lc, lc ∈ active → lo_suspended lc = false.
Proof.
  intros Hi. induction l as [|lc l IH]; intros Hc; cbn [select_logical_channels].
  { exists []. split_and!; [done|constructor|]. intros lc H. by apply elem_of_nil in H. }
  destruct IH as (active & Ha & Hsub & Hs). { intros ? ?. apply Hc. by right. }
  destruct (lo_suspended lc) eqn:Hsus.
  { exists active. split_and!; [done|by constructor|done]. }
  specialize (Hc lc ltac:(by left)). destruct (arr_get_ok (lc_sched_info mac) (lo_lcid lc - 1)) as (s & _ & Hls); [lia|].
  rewrite (info_ok _ _ s) by done. cbn [mbind outcome_bind]. rewrite Ha. cbn [mbind outcome_bind].
  eexists. split; [done|]. destruct (0 <? Bj s).
  - split; [by constructor|]. intros lc' [->|?]%elem_of_cons; [done|by apply Hs].
  - split; [by constructor|done].
Qed.

(** ** The report *)

(** the group of the first channel with data, 0 if there is none *)
Definition max_group (L : list nr_lcordered_info_t) (infos : list NR_LC_SCHEDULING_INFO) (g : Z) : Prop :=
  (∃ lc s, lc ∈ L ∧ infos !! Z.to_nat (lo_lcid lc - 1) = Some s ∧ LCID_buffer_remain s ≠ 0 ∧ LCGID s = g) ∨
  (g = 0 ∧ ∀ lc s, lc ∈ L → infos !! Z.to_nat (lo_lcid lc - 1) = Some s → LCID_buffer_remain s = 0).

Lemma bsr_max_group_ok L mac l : infos_ok L (lc_sched_info mac) → (∀ lc, lc ∈ l → lc ∈ L ∧ 1 <= lo_lcid lc <= 32) →
  ∃ g, bsr_max_group mac l = Ok g ∧ 0 <= g < NR_MAX_NUM_LCGID ∧ max_group l (lc_sched_info mac) g.
Proof.
  intros Hi. induction l as [|lc l IH]; intros Hin; cbn [bsr_max_group].
  { exists 0. split; [done|]. split; [done|]. right. split; [done|]. intros lc s H. by apply elem_of_nil in H. }
  destruct (Hin lc ltac:(by left)) as [Hlc Hc].
  destruct (arr_get_ok (lc_sched_info mac) (lo_lcid lc - 1)) as (s & _ & Hs); [rewrite (li_len _ _ Hi); lia|].
  destruct (li_info _ _ Hi lc s Hlc Hs) as [Hg Hrem]. rewrite (info_ok _ _ s) by done. cbn [mbind outcome_bind].
  destruct (Z.eqb_spec (LCID_buffer_remain s) 0) as [H0|H0]; cbn [negb].
  - destruct IH as (g & -> & Hg' & Hm). { intros ? ?. apply Hin. by right. }
    exists g. split; [done|]. split; [done|]. destruct Hm as [(lc' & s' & ? & ?)|[-> Hz]].
    + left. exists lc', s'. split; [by right|done].
    + right. split; [done|]. intros lc' s' [->|?]%elem_of_cons Hs'; [congruence|by eapply Hz].
  - exists (LCGID s). split; [done|]. split; [done|]. left. exists lc, s. split; [by left|done].
Qed.

(** what a report says of the amounts of data in the groups, and the padding it takes *)
Definition bsr_of (padding g : Z) (LCG_bytes : list Z) (bsr : type_bsr_t) : Prop :=
  match bsr with
  | b_none => padding < 2
  | b_short s | b_short_trunc s =>
      2 <= padding ∧ LcgID s = g ∧ ∃ v, LCG_bytes !! Z.to_nat g = Some v ∧ level_ok NR_SHORT_BSR_TABLE v (Buffer_size s)
  | b_long l => groups_with_data LCG_bytes + 3 <= padding ∧ Forall2 (level_ok NR_LONG_BSR_TABLE) LCG_bytes l
  | b_long_trunc l => 3 <= padding ∧ Forall2 (level_ok NR_LONG_BSR_TABLE) LCG_bytes l
  end.

Lemma choose_bsr_ok padding g LCG_bytes : groups_ok LCG_bytes → 0 <= g < NR_MAX_NUM_LCGID →
  ∃ bsr, choose_bsr padding g LCG_bytes = Ok bsr ∧ bsr_of padding g LCG_bytes bsr ∧
    (2 <= padding → groups_with_data LCG_bytes < 2 → ∃ s, bsr = b_short s).
Proof.
  intros [Hl HF] Hg. unfold choose_bsr.
  destruct (arr_get_ok LCG_bytes g) as (v & -> & Hv); [lia|]. cbn [mbind outcome_bind].
  assert (0 <= v) as Hv0 by (rewrite Forall_lookup in HF; specialize (HF _ _ Hv); cbn in HF; lia).
  destruct (short_level v Hv0) as (i & -> & Hi). cbn [mbind outcome_bind].
  destruct (long_levels_ok LCG_bytes) as (ls & -> & H2); [eapply Forall_impl; [exact HF|cbn; lia]|]. cbn [mbind outcome_bind].
  assert (0 <= groups_with_data LCG_bytes) by apply zlen_nonneg.
  destruct (Z.ltb_spec (groups_with_data LCG_bytes) 2), (Z.leb_spec 2 padding); cbn [andb].
  { eexists. split; [done|]. split; [|by eexists]. cbn. split; [done|]. split; [done|]. by exists v. }
  all: destruct (Z.leb_spec (groups_with_data LCG_bytes + 1 + 2) padding);
    [eexists; split; [done|]; split; [split; [lia|done]|lia]|].
  all: destruct (Z.eqb_spec padding 2);
    [eexists; split; [done|]; split; [cbn; split; [lia|]; split; [done|]; by exists v|lia]|].
  all: destruct (Z.leb_spec (1 + 2) padding);
    [eexists; split; [done|]; split; [split; [lia|done]|lia]|].
  all: eexists; split; [done|]; split; [cbn; lia|lia].
Qed.

Lemma bsr_sent_ok mac bsr :
  NoDup (lo_lcid <$> lc_ordered_list mac) → zlen (sr_info mac) = NR_MAX_SR_ID →
  regularBSR_trigger_lcid mac <= 0 ∨ regularBSR_trigger_lcid mac ∈ lo_lcid <$> lc_ordered_list mac →
  ∃ mac' ev, bsr_sent mac bsr = Ok (mac', ev) ∧ ∃ i, mac' = mac <| sr_info := i |>.
Proof.
  intros Hnd Hsr Ht. assert (∃ i, mac = mac <| sr_info := i |>) as Hrefl by (exists (sr_info mac); by destruct mac).
  unfold bsr_sent. destruct (Z.ltb_spec 0 (regularBSR_trigger_lcid mac)); [|eexists _, _; split; [reflexivity|exact Hrefl]].
  destruct Ht as [?|Ht]; [lia|]. apply list_elem_of_fmap in Ht as (lc & -> & Hlc). rewrite get_lc_ok by done.
  destruct (Z.leb_spec 0 (sr_id lc)), (Z.ltb_spec (sr_id lc) NR_MAX_SR_ID); cbn [andb];
    try (eexists _, _; split; [reflexivity|exact Hrefl]).
  rewrite arr_set_ok by lia. cbn [mbind outcome_bind]. eexists _, _. split; [reflexivity|]. by eexists.
Qed.

Lemma short_room lcid s : zlen (NR_MAC_SUBHEADER_FIXED lcid) = 1 ∧ zlen [bsr_short_octet s] = 1.
Proof. done. Qed.

(** the octets written *)
Lemma write_ce_ulsch_ok phr bsr end_ pre buf0 :
  zlen pre + zlen (opt_phr_ce phr) + (match bsr with b_none => 0 | b_short _ | b_short_trunc _ => 2 | _ => 3 end) <= end_ <= zlen buf0 →
  (match bsr with b_long l | b_long_trunc l => length l = 8%nat | _ => True end) →
  let k := end_ - (zlen (pre ++ opt_phr_ce phr) + 3) in
  nr_write_ce_ulsch_pdu phr bsr end_ (cursor pre buf0) = Ok (cursor (pre ++ opt_phr_ce phr ++ bsr_ce k bsr) buf0) ∧
  zlen (pre ++ opt_phr_ce phr ++ bsr_ce k bsr) <= end_.
Proof.
  intros He H8 k. rewrite app_assoc. unfold nr_write_ce_ulsch_pdu.
  assert ((match phr with
    | Some p => c ← put (NR_MAC_SUBHEADER_FIXED UL_SCH_LCID_SINGLE_ENTRY_PHR) (cursor pre buf0); put (phr_octets p) c
    | None => Ok (cursor pre buf0)
    end) = Ok (cursor (pre ++ opt_phr_ce phr) buf0)) as ->.
  { pose proof (zlen_nonneg (opt_phr_ce phr)).
    assert (zlen pre + zlen (opt_phr_ce phr) <= zlen buf0) by (destruct bsr; lia).
    destruct phr as [p|]; cbn [opt_phr_ce] in *; [|by rewrite app_nil_r]. unfold phr_ce in *.
    rewrite put_twice by done. done. }
  cbn [mbind outcome_bind]. set (pre' := pre ++ opt_phr_ce phr) in *.
  assert (zlen pre' = zlen pre + zlen (opt_phr_ce phr)) as Hz by apply zlen_app.
  destruct bsr as [|s|s|l|l]; cbv beta iota in He; cbn [bsr_ce].
  - rewrite app_nil_r. split; [done|lia].
  - destruct (short_room UL_SCH_LCID_S_BSR s). rewrite put_twice by (rewrite ?zlen_app in *; lia). rewrite !zlen_app in *. split; [done|lia].
  - destruct (short_room UL_SCH_LCID_S_TRUNCATED_BSR s). rewrite put_twice by (rewrite ?zlen_app in *; lia). rewrite !zlen_app in *. split; [done|lia].
  - destruct (put_long_bsr_ok UL_SCH_LCID_L_BSR end_ l pre' buf0 H8 ltac:(lia)) as [-> H]. rewrite (zlen_app pre'). split; [done|exact H].
  - destruct (put_long_bsr_ok UL_SCH_LCID_L_TRUNCATED_BSR end_ l pre' buf0 H8 ltac:(lia)) as [-> H]. rewrite (zlen_app pre'). split; [done|exact H].
Qed.

Lemma zlen_opt_phr_ce phr : zlen (opt_phr_ce phr) = if phr is Some _ then 3 else 0.
Proof. destruct phr; done. Qed.

Lemma mac_ce_post_ok L mac phr pre buf0 buflen :
  lc_ordered_list mac = L → lcs_ok L → infos_ok L (lc_sched_info mac) → zlen (sr_info mac) = NR_MAX_SR_ID →
  regularBSR_trigger_lcid mac <= 0 ∨ regularBSR_trigger_lcid mac ∈ lo_lcid <$> L →
  zlen pre + zlen (opt_phr_ce phr) <= buflen <= zlen buf0 → buflen < 2 ^ 31 →
  let padding := buflen - zlen pre - zlen (opt_phr_ce phr) in
  let groups := groups_left L (lc_sched_info mac) in
  ∃ g bsr mac' ev,
    nr_ue_get_sdu_mac_ce_post mac buflen phr groups (cursor pre buf0)
      = Ok ((if bsr is b_none then false else true), mac', ev,
            cursor (pre ++ opt_phr_ce phr ++ bsr_ce (buflen - (zlen (pre ++ opt_phr_ce phr) + 3)) bsr) buf0) ∧
    zlen (pre ++ opt_phr_ce phr ++ bsr_ce (buflen - (zlen (pre ++ opt_phr_ce phr) + 3)) bsr) <= buflen ∧
    (∃ i, mac' = mac <| sr_info := i |>) ∧ max_group L (lc_sched_info mac) g ∧ bsr_of padding g groups bsr.
Proof.
  intros HL Hlcs Hi Hsr Ht Hlen H31 padding groups. pose proof (zlen_nonneg pre). pose proof (groups_left_ok L (lc_sched_info mac)) as Hgr.
  unfold nr_ue_get_sdu_mac_ce_post. rewrite HL.
  destruct (bsr_max_group_ok L mac L Hi) as (g & -> & Hg & Hm).
  { intros lc Hlc. split; [done|]. destruct (lo_range _ Hlcs lc Hlc). lia. }
  cbn [mbind outcome_bind]. rewrite <- zlen_opt_phr_ce. change (cursor pre buf0).2 with (zlen pre). fold padding.
  pose proof (zlen_nonneg (opt_phr_ce phr)). rewrite (u32_small padding) by (unfold padding; lia).
  destruct (choose_bsr_ok padding g groups Hgr Hg) as (bsr & -> & Hbsr & _). cbn [mbind outcome_bind].
  assert (∃ mac' ev, (if bsr is b_none then Ok (false, mac, []) else '(mac, ev) ← bsr_sent mac bsr; Ok (true, mac, ev))
    = Ok ((if bsr is b_none then false else true), mac', ev) ∧ ∃ i, mac' = mac <| sr_info := i |>) as (mac' & ev & He & Hmac').
  { destruct (bsr_sent_ok mac bsr) as (mac' & ev & Hb & Hmac'); [rewrite HL; apply Hlcs|done|by rewrite HL|].
    destruct bsr; [eexists mac, []; split; [done|]; exists (sr_info mac); by destruct mac|..];
      (exists mac', ev; rewrite Hb; split; [done|exact Hmac']). }
  rewrite He. cbn [mbind outcome_bind].
  destruct (write_ce_ulsch_ok phr bsr buflen pre buf0) as [-> Hz].
  - destruct bsr as [|s|s|l|l]; cbn in Hbsr; destruct Hbsr; unfold padding, groups in *; try lia.
    assert (0 <= groups_with_data (groups_left L (lc_sched_info mac))) by apply zlen_nonneg. lia.
  - destruct bsr as [|s|s|l|l]; cbn in Hbsr; try done; destruct Hbsr as [_ H2]; apply Forall2_length in H2; by rewrite <- H2.
  - cbn [mbind outcome_bind]. exists g, bsr, mac', ev. done.
Qed.
