(* ===== verification/MacUlLink.v ===== *)
(** * The uplink of MAC, end to end

    The gNB finds in a MAC PDU of the uplink what the UE put into it: the RLC PDUs, the power
    headroom and the buffer status. *)

From stdpp Require Import gmap.
From S2P Require Import Prelude RlcTypes RlcManager RlcManagerProofs RlcEntities MacPdu MacPduProofs MacWalk RlcMac RlcUm.
From S2P Require Import MacUl MacUlGnb MacUlBsr MacUlGnbProofs MacUlLcp MacUlCe.

(** ** The gNB on a whole PDU *)

(** a channel that the gNB has configured and not suspended *)
Definition ul_listens (ue : gnb_ue) (c : Z) : bool :=
  match nr_mac_get_lc_config ue c with Some cfg => negb (gl_suspended cfg) | None => false end.

Definition ul_wanted (ue : gnb_ue) (sent : list (bool * Z * bytes)) : list nr_rlc_data_ind_t :=
  (λ x, mk_data_ind x.1.2 x.2) <$> filter (λ x, ul_listens ue x.1.2 = true) sent.

Lemma ul_wanted_cons ue l c p sent :
  ul_wanted ue ((l, c, p) :: sent) = (if ul_listens ue c then [mk_data_ind c p] else []) ++ ul_wanted ue sent.
Proof.
  unfold ul_wanted. rewrite filter_cons. cbn [fst snd]. destruct (ul_listens ue c); [by rewrite decide_True|by rewrite decide_False].
Qed.

Lemma hear_sdu_eq c p s :
  ∃ e, hear_sdu c p s =
    if ul_listens (u_ue s) c then
      _ ← assert_fatal (zlen (u_data s ++ [mk_data_ind c p]) <? GNB_MAX_NUM_DATA_IND);
      Ok (mk_ul_rx (u_ue s <| estimated_ul_buffer := e |>) (u_data s ++ [mk_data_ind c p]))
    else Ok s.
Proof.
  exists (estimated_ul_buffer (if 4 <=? c then sdu_received (zlen p) (u_ue s) else u_ue s)).
  unfold hear_sdu, ul_listens. destruct (nr_mac_get_lc_config (u_ue s) c) as [cfg|]; [|done].
  destruct (gl_suspended cfg); cbn [negb]; [done|]. destruct (assert_fatal _); [|done..]. cbn [mbind outcome_bind].
  do 2 f_equal. destruct (4 <=? c); [done|]. by destruct s as [[] ?].
Qed.

Lemma hear_sdus_eq sent : ∀ s, zlen (u_data s) < GNB_MAX_NUM_DATA_IND →
  ∃ e, hear_sdus sent s =
    if zlen (u_data s) + zlen (ul_wanted (u_ue s) sent) <? GNB_MAX_NUM_DATA_IND
    then Ok (mk_ul_rx (u_ue s <| estimated_ul_buffer := e |>) (u_data s ++ ul_wanted (u_ue s) sent)) else Fatal.
Proof.
  induction sent as [|[[l c] p] sent IH]; intros s Hs; cbn [hear_sdus].
  { exists (estimated_ul_buffer (u_ue s)). unfold ul_wanted. cbn. rewrite Z.add_0_r, app_nil_r, (proj2 (Z.ltb_lt _ _)) by done.
    by destruct s as [[] ?]. }
  rewrite ul_wanted_cons. pose proof (zlen_nonneg (ul_wanted (u_ue s) sent)).
  destruct (hear_sdu_eq c p s) as (e & ->). destruct (ul_listens (u_ue s) c); cbn [mbind outcome_bind app]; [|by apply IH].
  rewrite zlen_cons, zlen_app. change (zlen [mk_data_ind c p]) with 1. unfold assert_fatal.
  destruct (Z.ltb_spec (zlen (u_data s) + 1) GNB_MAX_NUM_DATA_IND); cbn [mbind outcome_bind].
  - set (s1 := mk_ul_rx _ _). destruct (IH s1) as (e1 & ->).
    { unfold s1. cbn [u_data]. rewrite zlen_app. change (zlen [mk_data_ind c p]) with 1. lia. }
    exists e1. unfold s1. cbn [u_data u_ue].
    assert (ul_wanted (u_ue s <| estimated_ul_buffer := e |>) sent = ul_wanted (u_ue s) sent) as -> by done.
    rewrite zlen_app, <- app_assoc. change (zlen [mk_data_ind c p]) with 1. rewrite Z.add_assoc. done.
  - exists 0. rewrite (proj2 (Z.ltb_ge _ _)) by lia. done.
Qed.

(** What the gNB takes the buffer for covers the data left in the groups, as far as the report
    speaks of it. *)
Definition report_covers (groups : list Z) (bsr : type_bsr_t) (est : Z) : Prop :=
  match bsr with
  | b_none | b_long_trunc _ => True
  | b_short s | b_short_trunc s => ∃ v, groups !! Z.to_nat (LcgID s) = Some v ∧ (v <= 300000 → v <= est)
  | b_long _ => Forall (λ v, v <= 81338368) groups → sumZ id groups <= est
  end.

(** the sum of any levels written by the UE does not fail *)
Lemma sum_levels_total vs l : Forall2 (level_ok NR_LONG_BSR_TABLE) vs l → ∀ k sum,
  ∃ e, sum_levels sum (picked (reported k l) l) = Ok e.
Proof.
  induction 1 as [|v i vs l Hi _ IH]; intros k sum; cbn [reported]; [by exists sum|].
  destruct (negb (i =? 0) && (0 <? k)); cbn [picked]; [|by apply IH]. cbn [sum_levels].
  assert (∃ x, level_estimate i = Ok x) as (x & ->); [|by apply IH].
  destruct Hi as [Hr _]. change (zlen NR_LONG_BSR_TABLE) with 256 in Hr. unfold level_estimate, overestim_bsr_index, NR_LONG_BSR_TABLE_SIZE.
  set (j := Z.min _ _). assert (0 <= j < 256) as Hj by (subst j; destruct (0 <? i); lia).
  destruct (lookup_lt_is_Some_2 NR_LONG_BSR_TABLE (Z.to_nat j)) as [y Hy].
  { change (length NR_LONG_BSR_TABLE) with 256%nat. lia. }
  exists y. by rewrite (tb_get _ _ long_table_ok _ y Hy) by lia.
Qed.

Lemma bsr_estimate_ok padding g groups bsr k :
  groups_ok groups → 0 <= g → bsr_of padding g groups bsr → k = padding - 3 →
  ∃ r, bsr_estimate k bsr = Ok r ∧ (r = None ↔ bsr = b_none) ∧ ∀ est, r = Some est → report_covers groups bsr est.
Proof.
  intros [Hl HF] Hg0 H Hk.
  assert (∀ v, v ∈ groups → 0 <= v) as Hpos by (intros v Hv; rewrite Forall_forall in HF; specialize (HF v Hv); lia).
  destruct bsr as [|s|s|l|l]; cbn [bsr_estimate].
  { exists None. done. }
  1, 2: destruct s as [g' i]; destruct H as (_ & Hgg & v & Hv & Hi); cbn in Hgg, Hi; subst g';
    destruct (short_estimate g v i Hi) as (est & -> & _ & _ & Hc & _);
    [by apply Hpos; eapply list_elem_of_lookup_2|]; cbn [mbind outcome_bind];
    exists (Some est); split; [done|]; split; [done|]; intros ? [= <-]; by exists v.
  all: destruct H as [Hp H2].
  all: destruct (sum_levels_total _ _ H2 k 0) as (e & He); rewrite He; cbn [mbind outcome_bind].
  all: exists (Some e); split; [done|]; split; [done|]; intros ? [= <-]; cbn; try done.
  intros Hmax. destruct (sum_levels_ok groups l H2) with (k := k) (s := 0) as (est & Hs & Hest); try lia.
  { apply Forall_and. split; [by apply Forall_forall|done]. }
  { unfold NR_MAX_NUM_LCGID in Hl. lia. }
  rewrite He in Hs. injection Hs as ->. lia.
Qed.

(** the gNB on SDUs, control elements and padding *)
Lemma hear_pdu prepare harq_pid ph_factors gue sent phr bsr k rest buflen padding g groups :
  has_CellGroup gue = true → ul_sent_ok sent → groups_ok groups → 0 <= g → bsr_of padding g groups bsr → k = padding - 3 →
  let body := ul_sent_octets sent ++ opt_phr_ce phr ++ bsr_ce k bsr in
  zlen body <= buflen → 0 < buflen →
  let r := nr_process_mac_pdu prepare harq_pid ph_factors gue ((body ++ ul_padding (buflen - zlen body)) ++ rest) buflen in
  if zlen (ul_wanted gue sent) <? GNB_MAX_NUM_DATA_IND
  then ∃ s, r = Ok s ∧ u_data s = ul_wanted gue sent ∧ lc_config (u_ue s) = lc_config gue ∧
         (bsr ≠ b_none → report_covers groups bsr (estimated_ul_buffer (u_ue s)) ∧ sched_ul_bytes (u_ue s) = 0)
  else r = Fatal.
Proof.
  intros Hcfg Hsent Hgr Hg Hbsr Hk body Hbody Hpos r.
  assert (match bsr with b_long l | b_long_trunc l => length l = 8%nat | _ => True end) as H8.
  { destruct bsr as [|s|s|l|l]; cbn in Hbsr; try done; destruct Hbsr as [_ H2]; apply Forall2_length in H2; destruct Hgr; unfold zlen, NR_MAX_NUM_LCGID in *; lia. }
  set (hp := λ s, match phr with Some p => hear_phr harq_pid ph_factors p s | None => s end).
  assert (heard prepare harq_pid ph_factors body (λ s, s1 ← hear_sdus sent s; s2 ← Ok (hp s1); hear_bsr k bsr s2)) as Hh.
  { apply (takes_app _ _ _ _ (hear_sdus sent) (λ s1, s2 ← Ok (hp s1); hear_bsr k bsr s2)); [by apply heard_sent|].
    apply (takes_app _ _ _ _ (λ s, Ok (hp s)) (hear_bsr k bsr)); [|by apply heard_bsr].
    unfold hp. destruct phr as [p|]; [apply heard_phr|exact (takes_nil _ _)]. }
  set (pad := ul_padding (buflen - zlen body)) in *.
  specialize (Hh [] (pad ++ rest) (Z.to_nat buflen) buflen (mk_ul_rx gue []) Hcfg ltac:(lia) ltac:(lia)).
  destruct (hear_sdus_eq sent (mk_ul_rx gue [])) as (e & Hs); [done|]. cbv beta in Hh. rewrite Hs in Hh. cbn [u_data u_ue app] in Hh.
  rewrite zlen_nil, Z.add_0_l in Hh.
  assert (r = process_loop prepare harq_pid ph_factors (Z.to_nat buflen) (body ++ pad ++ rest) 0 buflen (mk_ul_rx gue [])) as ->.
  { unfold r, nr_process_mac_pdu. rewrite <- app_assoc. destruct (body ++ pad ++ rest) as [|y mem] eqn:Em; [|pose proof (buf_get_at [] mem y) as Hy; cbn [app] in Hy; change (zlen (@nil Z)) with 0 in Hy; by rewrite Hy]. exfalso.
    apply app_nil in Em as [Eb [Ep _]%app_nil]. apply (f_equal zlen) in Eb. change (zlen (@nil Z)) with 0 in Eb. subst pad. revert Ep. unfold ul_padding.
    destruct (Z.eqb_spec (buflen - zlen body) 0); [lia|]. by rewrite fixed_lcid. }
  destruct (zlen (ul_wanted gue sent) <? GNB_MAX_NUM_DATA_IND); [|exact Hh]. cbn [mbind outcome_bind] in Hh.
  destruct (bsr_estimate_ok padding g groups bsr k Hgr Hg Hbsr Hk) as (est & He & Hnone & Hcov).
  unfold hear_bsr in Hh. rewrite He in Hh. cbn [mbind outcome_bind] in Hh. destruct Hh as (_ & fuel & Hf & Hloop).
  cbn [app] in Hloop. change (zlen (@nil Z)) with 0 in Hloop. rewrite Hloop, Z.add_0_l.
  unfold pad. rewrite loop_padding by lia. eexists. split; [done|].
  set (s1 := hp _). assert (u_data s1 = ul_wanted gue sent ∧ lc_config (u_ue s1) = lc_config gue) as [Hd Hl].
  { unfold s1, hp. destruct phr as [p|]; [|done]. split; [done|]. cbn. unfold handle_single_entry_phr. by destruct (harq_pid <? 0). }
  destruct est as [x|].
  - split; [exact Hd|]. split; [exact Hl|]. intros _. split; [by apply Hcov|done].
  - split; [exact Hd|]. split; [exact Hl|]. intros Hb. by destruct Hb; apply Hnone.
Qed.

(** ** What is assumed of the UE *)

Record ul_ok (mac : ul_mac) (buflen : Z) : Prop := {
  uo_lcs : lcs_ok (lc_ordered_list mac);
  uo_some : lc_ordered_list mac ≠ [];
  uo_infos : infos_ok (lc_ordered_list mac) (lc_sched_info mac);
  uo_sr : zlen (sr_info mac) = NR_MAX_SR_ID;
  uo_trigger : regularBSR_trigger_lcid mac <= 0 ∨ regularBSR_trigger_lcid mac ∈ lo_lcid <$> lc_ordered_list mac;
  uo_rounds : NoDup (priority <$> lc_ordered_list mac) ∨ (∀ lc, lc ∈ lc_ordered_list mac → buflen <= pbr lc) ∨ buflen <= 671;
}.

Lemma lcs_few L : lcs_ok L → zlen L <= 32.
Proof.
  intros [Hn Hr]. assert (lo_lcid <$> L ⊆+ seqZ 1 32) as Hs.
  { apply NoDup_submseteq; [done|]. intros c Hc. apply list_elem_of_fmap in Hc as (lc & -> & Hlc). destruct (Hr lc Hlc) as [? _].
    apply elem_of_seqZ. lia. }
  apply submseteq_length in Hs. rewrite length_fmap, length_seqZ in Hs. unfold zlen. lia.
Qed.

(** the start of the rounds *)
Lemma lcp_start {E : Type} `{!RlcOps E, !RlcTx E} now t id mac m ue (buf : bytes) end_ :
  infos_ok (lc_ordered_list mac) (lc_sched_info mac) → 0 <= end_ → ue_ready (E := E) id m ue →
  let x := mk_lcp mac m buf 0 (replicate (Z.to_nat NR_MAX_NUM_LCID) true) [] 0 (groups_left (lc_ordered_list mac) (lc_sched_info mac)) in
  lcp_ok now t id end_ mac m ue buf [] (x <| l_tot := replicate (Z.to_nat NR_MAX_NUM_LCID) 0 |> <| l_num := 0 |>) ∧ mu end_ x = end_ + 96.
Proof.
  intros Hi He R x. split.
  - split; cbn; try done.
    + constructor.
    + exists ue. split_and!; [done|by rewrite insert_id by apply R|constructor].
    + by destruct mac.
  - unfold mu. change (trues (l_status x)) with 32. change (l_cur x) with 0. lia.
Qed.

Section Transfer.
Context {E : Type} `{!RlcOps E, !RlcTx E}.

(** the channels, the rounds and the report: everything of [nr_ue_get_sdu] but the padding *)
Lemma ue_multiplexes now t id mac m ue buflen end_ phr (buf : bytes) active :
  ul_ok mac buflen → ue_ready (E := E) id m ue → 0 <= end_ → end_ + zlen (opt_phr_ce phr) <= buflen <= zlen buf →
  buflen < 2 ^ 31 → Forall is_byte buf →
  active `sublist_of` lc_ordered_list mac → (∀ lc, lc ∈ active → lo_suspended lc = false) →
  ∃ x sent g bsr mac' ev ue',
    lcp_rounds now t id end_ (Z.to_nat (buflen + NR_MAX_NUM_LCID + 1)) (Z.to_nat buflen) 0 active 0
      (mk_lcp mac m buf 0 (replicate (Z.to_nat NR_MAX_NUM_LCID) true) [] 0 (groups_left (lc_ordered_list mac) (lc_sched_info mac)))
      = Ok x ∧
    let pre := ul_sent_octets sent in
    let k := buflen - (zlen (pre ++ opt_phr_ce phr) + 3) in
    nr_ue_get_sdu_mac_ce_post (l_mac x) buflen phr (l_LCG x) (l_buf x, l_cur x)
      = Ok ((if bsr is b_none then false else true), mac', ev, cursor (pre ++ opt_phr_ce phr ++ bsr_ce k bsr) buf) ∧
    zlen (pre ++ opt_phr_ce phr ++ bsr_ce k bsr) <= buflen ∧ ul_sent_ok sent ∧
    ue_ready id (l_rlc x) ue' ∧ ue_map (l_rlc x) = <[id := ue']> (ue_map m) ∧ pulls now t ue sent ue' ∧
    infos_ok (lc_ordered_list mac) (lc_sched_info mac') ∧ max_group (lc_ordered_list mac) (lc_sched_info mac') g ∧ 0 <= g ∧
    bsr_of (k + 3) g (groups_left (lc_ordered_list mac) (lc_sched_info mac')) bsr.
Proof.
  intros U R He Hlen H31 HF Hsub Hsus. pose proof (uo_lcs _ _ U) as HL. pose proof (lcs_few _ HL) as Hfew.
  pose proof (zlen_nonneg (opt_phr_ce phr)).
  destruct (lcp_start now t id mac m ue buf end_ (uo_infos _ _ U) He R) as [J0 Hmu].
  set (x0 := mk_lcp _ _ _ _ _ _ _ _) in *.
  destruct (lcp_rounds_ok now t id end_ mac m ue buf HL ltac:(lia) ltac:(lia) HF (Z.to_nat buflen) active)
    with (fuel := Z.to_nat (buflen + NR_MAX_NUM_LCID + 1)) (round := 0) (sent := @nil (bool * Z * bytes)) (x := x0) (ep := 0)
    as (x & sent & Hx & J); try done; try lia.
  { intros lc Hlc. split; [by eapply elem_of_sublist|by apply Hsus]. }
  { eapply sublist_NoDup; [apply HL|]. by apply fmap_sublist. }
  { apply sublist_length in Hsub. unfold zlen in *. lia. }
  { unfold rounds_fit. rewrite Hmu. destruct (uo_rounds _ _ U) as [Hn|[Hp|?]]; [left|right; left|right; right; lia].
    - eapply sublist_NoDup; [exact Hn|]. by apply fmap_sublist.
    - intros lc Hlc. assert (lc ∈ lc_ordered_list mac) as Hin by (by eapply elem_of_sublist). specialize (Hp lc Hin). lia. }
  { unfold NR_MAX_NUM_LCID. lia. }
  cbn [app] in J. pose proof (lk_cursor _ _ _ _ _ _ _ _ _ _ J) as Hc. pose proof (lk_room _ _ _ _ _ _ _ _ _ _ J) as Hroom.
  pose proof (lk_mac _ _ _ _ _ _ _ _ _ _ J) as Hm. pose proof (lk_infos _ _ _ _ _ _ _ _ _ _ J) as Hinf.
  assert (l_cur x = zlen (ul_sent_octets sent)) as Hcur by (by injection Hc).
  assert (lc_ordered_list (l_mac x) = lc_ordered_list mac ∧ sr_info (l_mac x) = sr_info mac ∧
    regularBSR_trigger_lcid (l_mac x) = regularBSR_trigger_lcid mac) as (Hm1 & Hm2 & Hm3) by (by rewrite Hm).
  destruct (mac_ce_post_ok (lc_ordered_list mac) (l_mac x) phr (ul_sent_octets sent) buf buflen)
    as (g & bsr & mac' & ev & Hpost & Hz & (i & Hmac') & Hg & Hb);
    [done|done|done|rewrite Hm2; apply U|rewrite Hm3; apply U|lia|done|].
  destruct (lk_rlc _ _ _ _ _ _ _ _ _ _ J) as (ue' & R' & Hmap & Hpulls).
  exists x, sent, g, bsr, mac', ev, ue'. split; [done|]. rewrite Hc, (lk_LCG _ _ _ _ _ _ _ _ _ _ J).
  assert (lc_sched_info mac' = lc_sched_info (l_mac x)) as -> by (by rewrite Hmac').
  split; [exact Hpost|]. split; [exact Hz|]. split; [apply J|]. split; [done|]. split; [done|]. split; [done|]. split; [done|].
  split; [done|]. split.
  - destruct Hg as [(lc & s & Hlc & Hs & _ & <-)|[-> _]]; [|done]. apply (li_info _ _ Hinf lc s Hlc Hs).
  - rewrite zlen_app. replace (buflen - (_ + _ + 3) + 3) with (buflen - zlen (ul_sent_octets sent) - zlen (opt_phr_ce phr)) by lia. done.
Qed.

Lemma ul_ok_triggered mac mac' buflen k :
  ul_ok mac buflen → triggered (lc_ordered_list mac) mac mac' → ul_ok (mac' <| phr_reporting := k |>) buflen.
Proof.
  intros [] (a & r & -> & Hr). split; cbn; try done. destruct Hr as [->|Hr]; [done|by right].
Qed.

Lemma ul_padding_written pre n buf0 :
  0 <= n → zlen pre + n <= zlen buf0 →
  (if n =? 0 then Ok (cursor pre buf0).1
   else c ← put (NR_MAC_SUBHEADER_FIXED UL_SCH_LCID_PADDING) (cursor pre buf0);
        buf_write c.1 c.2 (replicate (Z.to_nat (zlen pre + n - c.2)) 0))
  = Ok ((pre ++ ul_padding n) ++ drop (Z.to_nat (zlen pre + n)) buf0).
Proof.
  intros Hn Hz. pose proof (zlen_nonneg pre). unfold ul_padding. destruct (Z.eqb_spec n 0) as [->|Hn0].
  { rewrite app_nil_r, Z.add_0_r. unfold cursor, zlen. cbn [fst]. by rewrite Nat2Z.id. }
  set (h := NR_MAC_SUBHEADER_FIXED UL_SCH_LCID_PADDING). assert (zlen h = 1) as Hh by done.
  rewrite put_ok by lia. cbn [mbind outcome_bind]. change (cursor (pre ++ h) buf0).2 with (zlen (pre ++ h)). rewrite zlen_app, Hh.
  replace (Z.to_nat (zlen pre + n - (zlen pre + 1))) with (Z.to_nat (n - 1)) by lia. set (z := replicate (Z.to_nat (n - 1)) 0).
  assert (zlen z = n - 1) as Hzl by (unfold z, zlen; rewrite length_replicate; lia).
  pose proof (put_ok z (pre ++ h) buf0) as Hp. unfold put in Hp. rewrite zlen_app, Hh in Hp. specialize (Hp ltac:(lia)).
  change (cursor (pre ++ h) buf0).2 with (zlen (pre ++ h)) in Hp. rewrite zlen_app, Hh in Hp.
  destruct (buf_write (cursor (pre ++ h) buf0).1 (zlen pre + 1) z) as [b| | |]; try done. cbn [mbind outcome_bind] in Hp.
  injection Hp as Hp _. rewrite Hp. f_equal. rewrite <- !app_assoc. do 3 f_equal. f_equal.
  unfold zlen in *. rewrite !length_app. lia.
Qed.

End Transfer.

(** a UE with one bearer on channel 4 in group 2, and an SDU of three octets *)
Definition ul_example : ul_mac :=
  mk_ul_mac [mk_lcord 4 0 1 1000 1000 false false]
    (<[3%nat := mk_lcsched 4 2 100]> (replicate 32 (mk_lcsched 0 8 0))) (replicate 8 (mk_sr false 0)) 0 0 true 1.

Lemma ul_example_ok : ul_ok ul_example 40.
Proof.
  split; cbn -[replicate]; try done.
  - split; cbn; [apply NoDup_singleton|]. intros lc ->%list_elem_of_singleton. cbn. lia.
  - split; [done|]. intros lc s ->%list_elem_of_singleton. cbn. intros [= <-]. cbn. unfold NR_MAX_NUM_LCGID. lia.
  - by left.
  - left. apply NoDup_singleton.
Qed.

