(* ===== verification/Fapi.v ===== *)
(** * Octets of FAPI messages

    The functions of nfapi.c with which messages between MAC (the VNF) and the physical layer
    (the PNF) are written to a buffer and read back, and the notions with which the two are
    related.

    A function that packs has the buffer from [*out] to [end]; it is modelled by what it
    appends, given the room [end - *out], and by what it leaves in the structure it packs. A
    function that unpacks takes the octets from [*in] to [end] and leaves those it did not
    read. [Ok None] is the return value 0 (no space, or a count that does not fit), [Undef] an
    access outside of an array. Memory that the code allocates is assumed to be there. The
    builds considered have neither ENABLE_AERIAL nor FAPI_BYTE_ORDERING_BIG_ENDIAN, which is
    the default; then integers are in network order. *)

From S2P Require Import Prelude.

Declare Scope fapi_scope.
#[global] Open Scope fapi_scope.

Definition u16 (x : Z) : Z := x mod 2 ^ 16.
(** conversion to a signed type of [w] bits *)
Definition int_of (w x : Z) : Z := let y := x mod 2 ^ w in if y <? 2 ^ (w - 1) then y else y - 2 ^ w.

(** ** Functions that write and functions that read *)
Definition packer (A : Type) : Type := Z → outcome (option (bytes * A)).
Definition unpacker (A : Type) : Type := bytes → outcome (option (A * bytes)).

#[export] Instance packer_ret : MRet packer := λ A a _, Ok (Some ([], a)).
#[export] Instance packer_bind : MBind packer := λ A B f m room,
  match m room with
  | Ok (Some (bs, a)) =>
      match f a (room - zlen bs) with
      | Ok (Some (cs, b)) => Ok (Some (bs ++ cs, b))
      | r => r
      end
  | Ok None => Ok None
  | Fatal => Fatal | Undef => Undef | Diverge => Diverge
  end.
#[export] Instance unpacker_ret : MRet unpacker := λ A a i, Ok (Some (a, i)).
#[export] Instance unpacker_bind : MBind unpacker := λ A B f m i,
  match m i with
  | Ok (Some (a, i')) => f a i'
  | Ok None => Ok None
  | Fatal => Fatal | Undef => Undef | Diverge => Diverge
  end.
#[global] Typeclasses Opaque packer unpacker.

(** [return 0], an access out of bounds and a failed [AssertFatal] *)
Definition pack_fail {A} : packer A := λ _, Ok None.
Definition pack_undef {A} : packer A := λ _, Undef.
Definition pack_assert (b : bool) : packer unit := λ _, if b then Ok (Some ([], tt)) else Fatal.
Definition unpack_fail {A} : unpacker A := λ _, Ok None.
Definition unpack_undef {A} : unpacker A := λ _, Undef.

(** ** nfapi.c *)
Definition push8 (x : Z) : packer unit := λ room,
  if 1 <=? room then Ok (Some ([u8 x], tt)) else Ok None.
Definition push16 (x : Z) : packer unit := λ room,
  let x := u16 x in
  if 2 <=? room then Ok (Some ([Z.shiftr (Z.land x 0xFF00) 8; Z.land x 0xFF], tt)) else Ok None.
Definition pushs16 (x : Z) : packer unit := push16 x.
Definition push32 (x : Z) : packer unit := λ room,
  let x := u32 x in
  if 4 <=? room then
    Ok (Some ([Z.shiftr (Z.land x 0xFF000000) 24; Z.shiftr (Z.land x 0xFF0000) 16;
               Z.shiftr (Z.land x 0xFF00) 8; Z.land x 0xFF], tt))
  else Ok None.

Definition pull8 : unpacker Z := λ i,
  match i with x :: i' => Ok (Some (x, i')) | _ => Ok None end.
Definition pull16 : unpacker Z := λ i,
  match i with
  | x0 :: x1 :: i' => Ok (Some (Z.lor (Z.shiftl x0 8) x1, i'))
  | _ => Ok None
  end.
Definition pulls16 : unpacker Z := x ← pull16; mret (int_of 16 x).
Definition pull32 : unpacker Z := λ i,
  match i with
  | x0 :: x1 :: x2 :: x3 :: i' =>
      Ok (Some (Z.lor (Z.lor (Z.lor (Z.shiftl x0 24) (Z.shiftl x1 16)) (Z.shiftl x2 8)) x3, i'))
  | _ => Ok None
  end.

(** [for (i = 0; i < n; ++i)] over a body that writes; [elem l i] is the element [l[i]] of an
    array, whose elements from the length of [l] on are not there *)
Fixpoint pack_loop {A} (f : Z → packer A) (i : Z) (n : nat) : packer (list A) :=
  match n with
  | O => mret []
  | S n' => a ← f i; l ← pack_loop f (i + 1) n'; mret (a :: l)
  end.
Definition pack_for {A} (n : Z) (f : Z → packer A) : packer (list A) := pack_loop f 0 (Z.to_nat n).
Definition elem {A} (l : list A) (i : Z) : packer A :=
  match l !! Z.to_nat i with Some a => mret a | None => pack_undef end.

(** a loop over the first [n] elements of an array that threads a variable through *)
Fixpoint pack_thread_loop {A S} (f : A → S → packer S) (l : list A) (i : Z) (n : nat) (s : S) : packer S :=
  match n with
  | O => mret s
  | Datatypes.S n' => a ← elem l i; s' ← f a s; pack_thread_loop f l (i + 1) n' s'
  end.
Definition pack_thread {A S} (f : A → S → packer S) (l : list A) (n : Z) (s : S) : packer S :=
  pack_thread_loop f l 0 (Z.to_nat n) s.

(** the same loop over a body that fills element [i] of an array of [cap] elements *)
Fixpoint unpack_loop {A} (cap : Z) (f : Z → unpacker A) (i : Z) (n : nat) : unpacker (list A) :=
  match n with
  | O => mret []
  | S n' =>
      a ← (if i <? cap then f i else unpack_undef);
      l ← unpack_loop cap f (i + 1) n';
      mret (a :: l)
  end.
Definition unpack_for {A} (cap n : Z) (f : Z → unpacker A) : unpacker (list A) :=
  unpack_loop cap f 0 (Z.to_nat n).

(** an array of octets: [memcpy] of the first [len]; the array of the reader has [cap] *)
Definition pusharray8 (l : list Z) (max_len len : Z) : packer unit := λ room,
  if len =? 0 then Ok (Some ([], tt))
  else if max_len <? len then Ok None
  else if len <=? room then
    if len <=? zlen l then Ok (Some (take (Z.to_nat len) l, tt)) else Undef
  else Ok None.
Definition pullarray8 (cap max_len len : Z) : unpacker (list Z) := λ i,
  if len =? 0 then Ok (Some ([], i))
  else if max_len <? len then Ok None
  else if len <=? zlen i then
    if len <=? cap then Ok (Some (take (Z.to_nat len) i, drop (Z.to_nat len) i)) else Undef
  else Ok None.

(** arrays of wider elements are written and read element by element *)
Definition pusharray (w : Z) (push : Z → packer unit) (l : list Z) (max_len len : Z) : packer unit :=
  λ room,
  if len =? 0 then Ok (Some ([], tt))
  else if max_len <? len then Ok None
  else if w * len <=? room then (pack_for len (λ i, x ← elem l i; push x);; mret tt) room
  else Ok None.
Definition pullarray (w : Z) (pull : unpacker Z) (cap max_len len : Z) : unpacker (list Z) := λ i,
  if len =? 0 then Ok (Some ([], i))
  else if max_len <? len then Ok None
  else if w * len <=? zlen i then unpack_for cap len (λ _, pull) i
  else Ok None.
Definition pusharray16 := pusharray 2 push16.
Definition pullarray16 := pullarray 2 pull16.
Definition pusharray32 := pusharray 4 push32.
Definition pullarray32 := pullarray 4 pull32.

Definition DCI_PAYLOAD_BYTE_LEN : Z := 8.
Definition pack_dci_payload (payload : list Z) (payloadSizeBits : Z) : packer unit :=
  let dci_byte_len := u8 (Z.quot (payloadSizeBits + 7) 8) in
  pusharray8 payload DCI_PAYLOAD_BYTE_LEN dci_byte_len.
Definition unpack_dci_payload (payloadSizeBits : Z) : unpacker (list Z) :=
  let dci_byte_len := u8 (Z.quot (payloadSizeBits + 7) 8) in
  pullarray8 DCI_PAYLOAD_BYTE_LEN DCI_PAYLOAD_BYTE_LEN dci_byte_len.

(** NR_FAPI_CHECK_COUNT of nr_fapi_p7.c *)
Definition check_count (count size : Z) : unpacker unit :=
  if size <? count then unpack_fail else mret tt.

(** [bit_map & bit] as a condition *)
Definition flag (bit_map bit : Z) : bool := negb (Z.land bit_map bit =? 0).

(** nr_bits_to_bytes of nr_fapi_p7_utils.h *)
Definition nr_bits_to_bytes (bits : Z) : Z := u16 (Z.quot (bits + 7) 8).

(** A PDU starts with type and size; once the PDU is written its length is stored in the size
    field, which is [off] octets from its start, and in the structure. *)
Definition patch_size {A} (off : Z) (p : packer A) : packer (A * Z) := λ room,
  match p room with
  | Ok (Some (bs, a)) =>
      let packedMsgLen := u16 (zlen bs) in
      match push16 packedMsgLen (room - off) with
      | Ok (Some (sz, _)) =>
          Ok (Some (take (Z.to_nat off) bs ++ sz ++ drop (Z.to_nat (off + 2)) bs, (a, packedMsgLen)))
      | Ok None => Ok None
      | Fatal => Fatal | Undef => Undef | Diverge => Diverge
      end
  | Ok None => Ok None
  | Fatal => Fatal | Undef => Undef | Diverge => Diverge
  end.
