(* ===== verification/FapiCodec.v ===== *)
(** * Packing and unpacking related

    Three notions that compose along the code: [codec p u R] (what [p] writes is what [u] reads,
    and the structures left on both sides are related by [R]), [bounded p] (no octet is written
    behind the end of the buffer) and [prefix_reader u] (on any octets [u] either reports a
    failure or consumes a prefix, on which alone its result depends; it never leaves an array). *)

From S2P Require Import Prelude Bits Fapi.

Definition is_u8 (x : Z) : Prop := is_byte x.
Definition is_u16 (x : Z) : Prop := 0 <= x < 2 ^ 16.
Definition is_u32 (x : Z) : Prop := 0 <= x < 2 ^ 32.
Definition is_s16 (x : Z) : Prop := - 2 ^ 15 <= x < 2 ^ 15.

Definition codec {A B} (p : packer A) (u : unpacker B) (R : A → B → Prop) : Prop :=
  ∃ bs a b, Forall is_byte bs ∧
    (∀ room, 0 <= room → p room = if zlen bs <=? room then Ok (Some (bs, a)) else Ok None) ∧
    (∀ rest, u (bs ++ rest) = Ok (Some (b, rest))) ∧ R a b.

Definition bounded {A} (p : packer A) : Prop :=
  ∀ room bs a, p room = Ok (Some (bs, a)) → zlen bs <= Z.max 0 room.

Definition prefix_reader {A} (u : unpacker A) : Prop :=
  ∀ i, Forall is_byte i → u i = Ok None ∨
    ∃ c i' a, i = c ++ i' ∧ ∀ rest, u (c ++ rest) = Ok (Some (a, rest)).

(** ** Integers in network order *)

Lemma octet_at x k : 0 <= k → Z.shiftr (Z.land x (Z.shiftl 255 k)) k = (x / 2 ^ k) mod 2 ^ 8.
Proof.
  intros Hk. rewrite Z.shiftr_land, Z.shiftr_shiftl_l, Z.sub_diag, Z.shiftl_0_r by lia.
  change 255 with (Z.ones 8). by rewrite Z.land_ones, Z.shiftr_div_pow2 by lia.
Qed.

Lemma octet_at_0 x : Z.land x 255 = x mod 2 ^ 8.
Proof. change 255 with (Z.ones 8). apply Z.land_ones. lia. Qed.

Lemma mod8_byte x : is_byte (x mod 2 ^ 8).
Proof. exact (Z.mod_pos_bound x (2 ^ 8) eq_refl). Qed.

Local Ltac euclid := repeat match goal with
  | |- context [2 ^ ?n] => let v := eval compute in (2 ^ n) in change (2 ^ n) with v
  | H : context [2 ^ ?n] |- _ => let v := eval compute in (2 ^ n) in change (2 ^ n) with v in H
  end; Z.to_euclidean_division_equations; lia.

Lemma u16_octets x :
  let a := Z.shiftr (Z.land x 0xFF00) 8 in let b := Z.land x 0xFF in
  is_byte a ∧ is_byte b ∧ (is_u16 x → Z.lor (Z.shiftl a 8) b = x).
Proof.
  cbn zeta. change 0xFF00 with (Z.shiftl 255 8). rewrite octet_at, octet_at_0 by lia.
  pose proof (mod8_byte (x / 2 ^ 8)). pose proof (mod8_byte x). split_and!; [done..|]. intros Hx.
  rewrite lor_shiftl_add by (unfold is_byte in *; lia). unfold is_u16 in Hx. euclid.
Qed.

Lemma u32_octets x :
  let a := Z.shiftr (Z.land x 0xFF000000) 24 in let b := Z.shiftr (Z.land x 0xFF0000) 16 in
  let c := Z.shiftr (Z.land x 0xFF00) 8 in let d := Z.land x 0xFF in
  Forall is_byte [a; b; c; d] ∧
  (is_u32 x → Z.lor (Z.lor (Z.lor (Z.shiftl a 24) (Z.shiftl b 16)) (Z.shiftl c 8)) d = x).
Proof.
  cbn zeta. change 0xFF000000 with (Z.shiftl 255 24). change 0xFF0000 with (Z.shiftl 255 16).
  change 0xFF00 with (Z.shiftl 255 8). rewrite !octet_at, octet_at_0 by lia.
  pose proof (mod8_byte (x / 2 ^ 24)). pose proof (mod8_byte (x / 2 ^ 16)).
  pose proof (mod8_byte (x / 2 ^ 8)). pose proof (mod8_byte x).
  split; [rewrite !Forall_cons; split_and!; done|]. intros Hx. unfold is_byte, is_u32 in *.
  set (a := (x / 2 ^ 24) mod 2 ^ 8). set (b := (x / 2 ^ 16) mod 2 ^ 8).
  replace (Z.shiftl a 24) with (Z.shiftl (Z.shiftl a 8) 16) by by rewrite Z.shiftl_shiftl.
  rewrite <- Z.shiftl_lor, (lor_shiftl_add a b 8) by lia.
  replace (Z.shiftl (a * 2 ^ 8 + b) 16) with (Z.shiftl (Z.shiftl (a * 2 ^ 8 + b) 8) 8)
    by by rewrite Z.shiftl_shiftl.
  rewrite <- Z.shiftl_lor, !lor_shiftl_add by lia. subst a b. euclid.
Qed.

Lemma u16_id x : is_u16 x → u16 x = x.
Proof. apply Z.mod_small. Qed.
Lemma u16_is x : is_u16 (u16 x).
Proof. exact (Z.mod_pos_bound x (2 ^ 16) eq_refl). Qed.
Lemma u8_id x : is_u8 x → u8 x = x.
Proof. apply Z.mod_small. Qed.

Lemma int_of_s16 x : is_s16 x → int_of 16 (u16 x) = x.
Proof.
  unfold is_s16, int_of, u16. rewrite Z.mod_mod by lia. intros Hx.
  destruct (Z.ltb_spec (x mod 2 ^ 16) (2 ^ (16 - 1))); euclid.
Qed.

(** ** Codecs *)

Lemma codec_weaken {A B} (p : packer A) (u : unpacker B) (R R' : A → B → Prop) :
  codec p u R → (∀ a b, R a b → R' a b) → codec p u R'.
Proof. intros (bs & a & b & Hb & Hp & Hu & HR) H. exists bs, a, b. auto. Qed.

Lemma codec_ret {A B} (a : A) (b : B) (R : A → B → Prop) :
  R a b → codec (mret a) (mret b) R.
Proof.
  intros HR. exists [], a, b. split_and!; [constructor| |done|done].
  intros room Hr. rewrite zlen_nil. by rewrite (proj2 (Z.leb_le _ _)).
Qed.

Lemma codec_bind {A B A' B'} (p : packer A) (u : unpacker B) (k : A → packer A')
    (h : B → unpacker B') (R : A → B → Prop) (R' : A' → B' → Prop) :
  codec p u R → (∀ a b, R a b → codec (k a) (h b) R') → codec (p ≫= k) (u ≫= h) R'.
Proof.
  intros (bs & a & b & Hbs & Hp & Hu & HR) Hk.
  destruct (Hk a b HR) as (cs & a' & b' & Hcs & Hp' & Hu' & HR').
  exists (bs ++ cs), a', b'. split_and!; [by apply Forall_app| | |done].
  - intros room Hr. cbv [mbind packer_bind]. rewrite (Hp room Hr), zlen_app.
    pose proof (zlen_nonneg cs). destruct (Z.leb_spec (zlen bs) room).
    + rewrite (Hp' (room - zlen bs)) by lia.
      destruct (Z.leb_spec (zlen cs) (room - zlen bs));
        [rewrite (proj2 (Z.leb_le _ _)) by lia|rewrite (proj2 (Z.leb_gt _ _)) by lia]; done.
    + by rewrite (proj2 (Z.leb_gt _ _)) by lia.
  - intros rest. cbv [mbind unpacker_bind]. rewrite <- app_assoc, (Hu (cs ++ rest)). apply Hu'.
Qed.

(** a part that is carried only if [b] is set; otherwise the destination keeps [z] *)
Lemma codec_if {B} (b : bool) (p : packer unit) (u : unpacker B) (x z : B) :
  (b = true → codec p u (λ _ y, y = x)) →
  codec (if b then p else mret tt) (if b then u else mret z) (λ _ y, y = if b then x else z).
Proof. destruct b; [auto|]. intros _. by apply codec_ret. Qed.

Lemma codec_map {A B B'} (p : packer A) (u : unpacker B) (f : B → B') (R : A → B' → Prop) :
  codec p u (λ a b, R a (f b)) → codec p (b ← u; mret (f b)) R.
Proof.
  intros (bs & a & b & Hbs & Hp & Hu & HR). exists bs, a, (f b). split_and!; [done..| |done].
  intros rest. cbv [mbind unpacker_bind]. by rewrite (Hu rest).
Qed.

(** a step of the packer that writes nothing *)
Lemma codec_elem {A A' B} (l : list A) i x (k : A → packer A') (u : unpacker B) R :
  l !! Z.to_nat i = Some x → codec (k x) u R → codec (elem l i ≫= k) u R.
Proof.
  intros Hx (bs & a & b & Hbs & Hp & Hu & HR). exists bs, a, b. split_and!; [done| |done..].
  intros room Hr. unfold elem. rewrite Hx. cbv [mbind packer_bind mret packer_ret].
  rewrite zlen_nil, Z.sub_0_r, (Hp room Hr). by destruct (zlen bs <=? room).
Qed.

Lemma codec_skip {A B} (k : unit → packer A) (u : unpacker B) R :
  codec (k tt) u R → codec (mret tt ≫= k) u R.
Proof.
  intros (bs & a & b & Hbs & Hp & Hu & HR). exists bs, a, b. split_and!; [done| |done..].
  intros room Hr. cbv [mbind packer_bind mret packer_ret].
  rewrite zlen_nil, Z.sub_0_r, (Hp room Hr). by destruct (zlen bs <=? room).
Qed.

Lemma codec_assert {A B} c (k : unit → packer A) (u : unpacker B) R :
  c = true → codec (k tt) u R → codec (pack_assert c ≫= k) u R.
Proof.
  intros -> (bs & a & b & Hbs & Hp & Hu & HR). exists bs, a, b. split_and!; [done| |done..].
  intros room Hr. unfold pack_assert. cbv [mbind packer_bind].
  rewrite zlen_nil, Z.sub_0_r, (Hp room Hr). by destruct (zlen bs <=? room).
Qed.

(** a step of the unpacker that reads nothing *)
Lemma codec_check {A B} n cap (p : packer A) (h : unit → unpacker B) R :
  n <= cap → codec p (h tt) R → codec p (check_count n cap ≫= h) R.
Proof.
  intros Hn (bs & a & b & Hbs & Hp & Hu & HR). exists bs, a, b. split_and!; [done..| |done].
  intros rest. unfold check_count. rewrite (proj2 (Z.ltb_ge _ _)) by lia. apply Hu.
Qed.

Lemma codec_octets (bs : bytes) (p : packer unit) (u : unpacker Z) (x : Z) :
  Forall is_byte bs →
  (∀ room, p room = if zlen bs <=? room then Ok (Some (bs, tt)) else Ok None) →
  (∀ rest, u (bs ++ rest) = Ok (Some (x, rest))) → codec p u (λ _ y, y = x).
Proof. intros Hb Hp Hu. exists bs, tt, x. naive_solver. Qed.

Lemma codec_push8 x : is_u8 x → codec (push8 x) pull8 (λ _ y, y = x).
Proof.
  intros Hx. apply (codec_octets [x]); [by apply Forall_singleton| |done].
  intros room. unfold push8. by rewrite u8_id.
Qed.

Lemma codec_push16 x : is_u16 x → codec (push16 x) pull16 (λ _ y, y = x).
Proof.
  intros Hx. unfold push16. rewrite u16_id by done.
  generalize (u16_octets x). cbn zeta.
  generalize (Z.shiftr (Z.land x 65280) 8), (Z.land x 255). intros a b (Ha & Hb & Hv).
  apply (codec_octets [a; b]); [by rewrite !Forall_cons|done|].
  intros rest. cbn [app pull16]. by rewrite Hv.
Qed.

Lemma codec_push32 x : is_u32 x → codec (push32 x) pull32 (λ _ y, y = x).
Proof.
  intros Hx. unfold push32. rewrite u32_small by done.
  generalize (u32_octets x). cbn zeta.
  generalize (Z.shiftr (Z.land x 0xFF000000) 24), (Z.shiftr (Z.land x 0xFF0000) 16),
    (Z.shiftr (Z.land x 0xFF00) 8), (Z.land x 255). intros a b c d (Hb & Hv).
  apply (codec_octets [a; b; c; d]); [done|done|].
  intros rest. cbn [app pull32]. by rewrite Hv.
Qed.

Lemma push16_u16 x : push16 x = push16 (u16 x).
Proof. unfold push16. by rewrite (u16_id (u16 x)) by apply u16_is. Qed.

Lemma codec_pushs16 x : is_s16 x → codec (pushs16 x) pulls16 (λ _ y, y = x).
Proof.
  intros Hx. unfold pushs16, pulls16. apply codec_map.
  rewrite push16_u16.
  eapply codec_weaken; [apply codec_push16, u16_is|]. cbn. intros _ b ->. by apply int_of_s16.
Qed.

(** ** Loops *)

Lemma lookup_to_nat {A} (l : list A) j i x : l !! j = Some x → Z.of_nat j = i → l !! Z.to_nat i = Some x.
Proof. intros H <-. by rewrite Nat2Z.id. Qed.

(** What the two sides are left with for the element [x] at index [i] is related by [R i x]. *)
Lemma codec_loop {A B E} (l : list E) cap i n (f : Z → packer A) (g : Z → unpacker B)
    (R : Z → E → A → B → Prop) :
  0 <= i → i + Z.of_nat n = zlen l → zlen l <= cap →
  (∀ j x, l !! j = Some x → codec (f (Z.of_nat j)) (g (Z.of_nat j)) (R (Z.of_nat j) x)) →
  codec (pack_loop f i n) (unpack_loop cap g i n)
    (λ la lb, length la = n ∧ length lb = n ∧ ∀ j x a b,
       l !! (Z.to_nat i + j)%nat = Some x → la !! j = Some a → lb !! j = Some b →
       R (i + Z.of_nat j) x a b).
Proof.
  revert i. induction n as [|n IH]; intros i Hi Hn Hc Hf; cbn [pack_loop unpack_loop].
  { apply codec_ret. split_and!; [done..|]. intros j x a b _ H. done. }
  destruct (lookup_lt_is_Some_2 l (Z.to_nat i)) as [x Hx]; [unfold zlen in *; lia|].
  rewrite (proj2 (Z.ltb_lt i cap)) by (unfold zlen in *; lia).
  pose proof (Hf _ _ Hx) as Hfx. rewrite Z2Nat.id in Hfx by lia.
  eapply codec_bind; [exact Hfx|]. intros a b Hab.
  eapply codec_bind; [apply IH; [lia..|done]|]. intros la lb (Hla & Hlb & Hl).
  apply codec_ret. cbn [length]. split_and!; [lia..|].
  intros [|j] y a' b' Hy Ha Hb; cbn in Ha, Hb.
  - simplify_eq. replace (Z.to_nat i + 0)%nat with (Z.to_nat i) in Hy by lia.
    simplify_eq. by rewrite Z.add_0_r.
  - replace (i + Z.of_nat (S j)) with ((i + 1) + Z.of_nat j) by lia. eapply Hl; [|done..].
    rewrite <- Hy. f_equal. lia.
Qed.

Lemma codec_for {A B E} (l : list E) cap n (f : Z → packer A) (g : Z → unpacker B)
    (R : Z → E → A → B → Prop) :
  n = zlen l → zlen l <= cap →
  (∀ j x, l !! j = Some x → codec (f (Z.of_nat j)) (g (Z.of_nat j)) (R (Z.of_nat j) x)) →
  codec (pack_for n f) (unpack_for cap n g)
    (λ la lb, length la = length l ∧ length lb = length l ∧ ∀ j x a b,
       l !! j = Some x → la !! j = Some a → lb !! j = Some b → R (Z.of_nat j) x a b).
Proof.
  intros -> Hc Hf. unfold pack_for, unpack_for.
  eapply codec_weaken; [apply (codec_loop l cap 0 _ f g R); [lia|unfold zlen; lia|done..]|].
  cbn beta. unfold zlen. rewrite Nat2Z.id. intros la lb (Ha & Hb & H). split_and!; [done..|].
  intros j x a b. apply H.
Qed.

(** a loop that fills an array may be cut in two *)
Lemma unpack_loop_app {B} cap (g : Z → unpacker B) a b i inp :
  unpack_loop cap g i (a + b) inp =
  (l1 ← unpack_loop cap g i a; l2 ← unpack_loop cap g (i + Z.of_nat a) b; mret (l1 ++ l2)) inp.
Proof.
  revert i inp. induction a as [|a IH]; intros i inp.
  - cbn [unpack_loop Nat.add]. rewrite Z.add_0_r. cbv [mbind unpacker_bind mret unpacker_ret].
    by destruct (unpack_loop cap g i b inp) as [[[]|]| | |].
  - cbn [unpack_loop Nat.add]. cbv [mbind unpacker_bind mret unpacker_ret].
    destruct ((if i <? cap then g i else unpack_undef) inp) as [[[x inp']|]| | |]; [|done..].
    rewrite IH. cbv [mbind unpacker_bind mret unpacker_ret].
    replace (i + 1 + Z.of_nat a) with (i + Z.of_nat (S a)) by lia.
    destruct (unpack_loop cap g (i + 1) a inp') as [[[l1 inp2]|]| | |]; [|done..].
    by destruct (unpack_loop cap g _ b inp2) as [[[]|]| | |].
Qed.

Lemma unpacker_bind_ret_r {A} (u : unpacker A) i : (a ← u; mret a) i = u i.
Proof. cbv [mbind unpacker_bind]. by destruct (u i) as [[[]|]| | |]. Qed.

Lemma codec_ext {A B} (p : packer A) (u u' : unpacker B) R :
  (∀ i, u i = u' i) → codec p u' R → codec p u R.
Proof.
  intros E (bs & a & b & Hb & Hp & Hu & HR). exists bs, a, b. split_and!; [done..| |done].
  intros rest. by rewrite E.
Qed.

(** a value that the packer computes from what is left *)
Lemma codec_map_l {A A' B} (p : packer A) (u : unpacker B) (f : A → A') (R : A' → B → Prop) :
  codec p u (λ a b, R (f a) b) → codec (a ← p; mret (f a)) u R.
Proof.
  intros H. apply codec_ext with (b ← u; mret b); [intros i; symmetry; apply unpacker_bind_ret_r|].
  eapply codec_bind; [exact H|]. intros a b Hab. by apply codec_ret.
Qed.

(** the common case: every element arrives, as [g] of it *)
Lemma codec_for_fmap {A E F} (g : E → F) (l : list E) cap n (f : E → packer A) (u : Z → unpacker F) :
  n = zlen l → zlen l <= cap →
  (∀ i x, x ∈ l → codec (f x) (u i) (λ _ y, y = g x)) →
  codec (pack_for n (λ i, x ← elem l i; f x)) (unpack_for cap n u) (λ _ l', l' = g <$> l).
Proof.
  intros Hn Hc Hf. eapply codec_weaken; [apply (codec_for l cap n _ u (λ _ x _ y, y = g x) Hn Hc)|].
  - intros j x Hx. apply codec_elem with x; [by rewrite Nat2Z.id|].
    apply Hf. by eapply list_elem_of_lookup_2.
  - cbn. intros la lb (Ha & Hb & H). apply list_eq. intros j. rewrite list_lookup_fmap.
    destruct (l !! j) as [x|] eqn:Hx; [|by apply lookup_ge_None; apply lookup_ge_None in Hx; lia].
    pose proof (lookup_lt_Some _ _ _ Hx) as Hj.
    destruct (lookup_lt_is_Some_2 la j) as [a Hla]; [lia|].
    destruct (lookup_lt_is_Some_2 lb j) as [b Hlb]; [lia|].
    rewrite Hlb. cbn. f_equal. exact (H _ _ _ _ Hx Hla Hlb).
Qed.

Lemma codec_for_list {A E} (l : list E) cap n (f : E → packer A) (u : Z → unpacker E) :
  n = zlen l → zlen l <= cap →
  (∀ i x, x ∈ l → codec (f x) (u i) (λ _ y, y = x)) →
  codec (pack_for n (λ i, x ← elem l i; f x)) (unpack_for cap n u) (λ _ l', l' = l).
Proof.
  intros Hn Hc Hf. eapply codec_weaken; [by apply (codec_for_fmap id)|].
  cbn. intros _ l' ->. apply list_fmap_id.
Qed.

(** Each element may be changed by the packer, and arrives as a function of what it is then. *)
Lemma codec_for_imap {A B E} (l : list E) cap n (f : E → packer A) (g : Z → unpacker B)
    (S : E → A → Prop) (h : Z → A → B) :
  n = zlen l → zlen l <= cap →
  (∀ i x, x ∈ l → codec (f x) (g i) (λ a b, S x a ∧ b = h i a)) →
  codec (pack_for n (λ i, x ← elem l i; f x)) (unpack_for cap n g)
    (λ la lb, Forall2 S l la ∧ lb = imap (λ j a, h (Z.of_nat j) a) la).
Proof.
  intros Hn Hc Hf. eapply codec_weaken; [apply (codec_for l cap n _ g (λ i x a b, S x a ∧ b = h i a) Hn Hc)|].
  - intros j x Hx. apply codec_elem with x; [by rewrite Nat2Z.id|].
    apply Hf. by eapply list_elem_of_lookup_2.
  - cbn beta. intros la lb (Ha & Hb & H). split.
    + apply Forall2_same_length_lookup_2; [lia|]. intros j x a Hx Hla.
      destruct (lookup_lt_is_Some_2 lb j) as [b Hlb]; [apply lookup_lt_Some in Hx; lia|].
      exact (proj1 (H _ _ _ _ Hx Hla Hlb)).
    + apply list_eq_same_length with (length l); [rewrite ?length_imap; lia..|].
      intros j b b' Hj Hlb. rewrite list_lookup_imap. intros (a & Hla & ->)%fmap_Some_1.
      destruct (lookup_lt_is_Some_2 l j) as [x Hx]; [lia|].
      exact (proj2 (H _ _ _ _ Hx Hla Hlb)).
Qed.

(** a variable that is threaded through but does not change *)
Lemma codec_thread {A S B} (f : A → S → packer S) (l : list A) cap n s (g : Z → unpacker B) (h : A → B) :
  n = zlen l → zlen l <= cap →
  (∀ i x, x ∈ l → codec (f x s) (g i) (λ s' y, s' = s ∧ y = h x)) →
  codec (pack_thread f l n s) (unpack_for cap n g) (λ s' l', s' = s ∧ l' = h <$> l).
Proof.
  intros -> Hc Hf. unfold pack_thread, unpack_for, zlen. rewrite Nat2Z.id.
  assert (∀ k l', l = k ++ l' →
    codec (pack_thread_loop f l (zlen k) (length l') s) (unpack_loop cap g (zlen k) (length l'))
      (λ s' lb, s' = s ∧ lb = h <$> l')) as H; [|exact (H [] l eq_refl)].
  intros k l'. revert k. induction l' as [|x l' IH]; intros k Hk; cbn [length pack_thread_loop unpack_loop].
  { by apply codec_ret. }
  assert (zlen k < cap) by (subst l; rewrite zlen_app, zlen_cons in Hc; pose proof (zlen_nonneg l'); lia).
  rewrite (proj2 (Z.ltb_lt _ _)) by done. apply codec_elem with x.
  { subst l. unfold zlen. by rewrite Nat2Z.id, list_lookup_middle. }
  eapply codec_bind; [apply Hf; subst l; set_solver|]. intros ? ? [-> ->].
  specialize (IH (k ++ [x])). rewrite zlen_app, zlen_cons, zlen_nil, Z.add_0_r in IH.
  apply (codec_map _ _ (cons (h x))). eapply codec_weaken; [apply IH; by rewrite <- app_assoc|].
  by intros ? ? [-> ->].
Qed.

(** ** Arrays *)

Lemma zlen_0 {A} (l : list A) : zlen l = 0 → l = [].
Proof. destruct l; [done|]. rewrite zlen_cons. pose proof (zlen_nonneg l). lia. Qed.

Lemma codec_array8 l cap max_len max_len' len :
  len = zlen l → len <= max_len → len <= max_len' → len <= cap → Forall is_u8 l →
  codec (pusharray8 l max_len len) (pullarray8 cap max_len' len) (λ _ y, y = l).
Proof.
  intros -> Hm Hm' Hc Hl. exists l, tt, l. split_and!; [done| | |done].
  - intros room Hr. unfold pusharray8. destruct (Z.eqb_spec (zlen l) 0) as [E|E].
    + rewrite E, (proj2 (Z.leb_le _ _)) by lia. by apply zlen_0 in E as ->.
    + rewrite (proj2 (Z.ltb_ge _ _)), Z.leb_refl by lia. unfold zlen at 2. rewrite Nat2Z.id.
      by rewrite firstn_all.
  - intros rest. unfold pullarray8. destruct (Z.eqb_spec (zlen l) 0) as [E|E].
    + by apply zlen_0 in E as ->.
    + pose proof (zlen_nonneg rest).
      rewrite (proj2 (Z.ltb_ge _ _)), zlen_app, !(proj2 (Z.leb_le _ _)) by lia.
      unfold zlen. by rewrite Nat2Z.id, take_app_length, drop_app_length.
Qed.

(** the packer always writes [n] octets *)
Definition fixed_size {A} (n : Z) (p : packer A) : Prop :=
  ∀ room bs a, p room = Ok (Some (bs, a)) → zlen bs = n.

Lemma bind_some {A B} (p : packer A) (k : A → packer B) room bs b :
  (p ≫= k) room = Ok (Some (bs, b)) →
  ∃ b1 b2 a, p room = Ok (Some (b1, a)) ∧ k a (room - zlen b1) = Ok (Some (b2, b)) ∧ bs = b1 ++ b2.
Proof.
  cbv [mbind packer_bind]. destruct (p room) as [[[b1 a]|]| | |]; try done.
  destruct (k a _) as [[[b2 b']|]| | |] eqn:E; try done. intros [= <- <-]. by exists b1, b2, a.
Qed.

Lemma elem_bind_some {A B} (l : list A) i (k : A → packer B) room bs b :
  (elem l i ≫= k) room = Ok (Some (bs, b)) → ∃ x, l !! Z.to_nat i = Some x ∧ k x room = Ok (Some (bs, b)).
Proof.
  intros (b1 & b2 & x & H1 & H2 & ->)%bind_some. unfold elem in H1.
  destruct (l !! Z.to_nat i) as [y|]; [|done]. injection H1 as [= <- <-].
  rewrite zlen_nil, Z.sub_0_r in H2. by exists y.
Qed.

Lemma fixed_size_loop {A} w (f : Z → packer A) i n :
  (∀ i, fixed_size w (f i)) → fixed_size (w * Z.of_nat n) (pack_loop f i n).
Proof.
  intros Hf. revert i. induction n as [|n IH]; intros i room bs a; cbn [pack_loop].
  { cbv [mret packer_ret]. intros [= <- _]. rewrite zlen_nil. lia. }
  intros (b1 & b2 & x & H1 & (b3 & b4 & y & H2 & H3 & ->)%bind_some & ->)%bind_some.
  apply Hf in H1. apply IH in H2. injection H3 as [= <- _].
  rewrite !zlen_app, zlen_nil. lia.
Qed.

(** an array of wider elements: the test of the room anticipates that of the elements *)
Lemma codec_array w (push : Z → packer unit) pull l cap max_len max_len' len :
  0 < w → len = zlen l → len <= max_len → len <= max_len' → len <= cap →
  (∀ x, x ∈ l → codec (push x) pull (λ _ y, y = x)) → (∀ x, fixed_size w (push x)) →
  codec (pusharray w push l max_len len) (pullarray w pull cap max_len' len) (λ _ y, y = l).
Proof.
  intros Hw Hn Hm Hm' Hc Hx Hs.
  destruct (codec_for_list l cap len push (λ _, pull) Hn) as (bs & us & l' & Hb & Hp & Hu & ->);
    [lia|auto|].
  assert (zlen bs = w * zlen l) as Hlen.
  { pose proof (Hp (zlen bs) (zlen_nonneg _)) as H. rewrite Z.leb_refl in H.
    unfold pack_for in H. eapply fixed_size_loop in H; [by rewrite H, Z2Nat.id, Hn by (rewrite Hn; apply zlen_nonneg)|].
    intros i room cs a (x & _ & Hc')%elem_bind_some. by eapply Hs. }
  pose proof (zlen_nonneg l). exists bs, tt, l. subst len. split_and!; [done| | |done].
  - intros room Hr. unfold pusharray. destruct (Z.eqb_spec (zlen l) 0) as [E|E].
    { apply zlen_0 in E as ->. rewrite zlen_nil, Z.mul_0_r in Hlen. apply zlen_0 in Hlen as ->.
      by rewrite zlen_nil, (proj2 (Z.leb_le _ _)). }
    rewrite (proj2 (Z.ltb_ge _ _)), <- Hlen by lia. destruct (Z.leb_spec (zlen bs) room); [|done].
    unfold mbind at 1, packer_bind at 1. rewrite (Hp room Hr), (proj2 (Z.leb_le _ _)) by lia.
    cbn. by rewrite app_nil_r.
  - intros rest. unfold pullarray. destruct (Z.eqb_spec (zlen l) 0) as [E|E].
    { apply zlen_0 in E as ->. rewrite zlen_nil, Z.mul_0_r in Hlen. by apply zlen_0 in Hlen as ->. }
    pose proof (zlen_nonneg rest).
    rewrite (proj2 (Z.ltb_ge _ _)), zlen_app, Hlen, (proj2 (Z.leb_le _ _)) by lia. apply Hu.
Qed.

Lemma fixed_size_push16 x : fixed_size 2 (push16 x).
Proof. intros room bs []. unfold push16. destruct (2 <=? room); [|done]. by intros [= <-]. Qed.
Lemma fixed_size_push32 x : fixed_size 4 (push32 x).
Proof. intros room bs []. unfold push32. destruct (4 <=? room); [|done]. by intros [= <-]. Qed.

Lemma codec_array16 l cap max_len max_len' len :
  len = zlen l → len <= max_len → len <= max_len' → len <= cap → Forall is_u16 l →
  codec (pusharray16 l max_len len) (pullarray16 cap max_len' len) (λ _ y, y = l).
Proof.
  intros ????. rewrite Forall_forall. intros. apply codec_array; auto using codec_push16, fixed_size_push16. lia.
Qed.

Lemma codec_array32 l cap max_len max_len' len :
  len = zlen l → len <= max_len → len <= max_len' → len <= cap → Forall is_u32 l →
  codec (pusharray32 l max_len len) (pullarray32 cap max_len' len) (λ _ y, y = l).
Proof.
  intros ????. rewrite Forall_forall. intros. apply codec_array; auto using codec_push32, fixed_size_push32. lia.
Qed.

(** lists of numbers that are packed one by one *)
Lemma codec_for_push8 l cap n : n = zlen l → zlen l <= cap → Forall is_u8 l →
  codec (pack_for n (λ i, x ← elem l i; push8 x)) (unpack_for cap n (λ _, pull8)) (λ _ l', l' = l).
Proof. rewrite Forall_forall. intros. apply codec_for_list; auto using codec_push8. Qed.
Lemma codec_for_push16 l cap n : n = zlen l → zlen l <= cap → Forall is_u16 l →
  codec (pack_for n (λ i, x ← elem l i; push16 x)) (unpack_for cap n (λ _, pull16)) (λ _ l', l' = l).
Proof. rewrite Forall_forall. intros. apply codec_for_list; auto using codec_push16. Qed.
Lemma codec_for_push32 l cap n : n = zlen l → zlen l <= cap → Forall is_u32 l →
  codec (pack_for n (λ i, x ← elem l i; push32 x)) (unpack_for cap n (λ _, pull32)) (λ _ l', l' = l).
Proof. rewrite Forall_forall. intros. apply codec_for_list; auto using codec_push32. Qed.
Lemma codec_for_pushs16 l cap n : n = zlen l → zlen l <= cap → Forall is_s16 l →
  codec (pack_for n (λ i, x ← elem l i; pushs16 x)) (unpack_for cap n (λ _, pulls16)) (λ _ l', l' = l).
Proof. rewrite Forall_forall. intros. apply codec_for_list; auto using codec_pushs16. Qed.

Lemma codec_dci_payload l bits :
  zlen l = u8 (Z.quot (bits + 7) 8) → zlen l <= DCI_PAYLOAD_BYTE_LEN → Forall is_u8 l →
  codec (pack_dci_payload l bits) (unpack_dci_payload bits) (λ _ y, y = l).
Proof.
  intros Hl Hm Hb. unfold pack_dci_payload, unpack_dci_payload. rewrite <- Hl.
  by apply codec_array8.
Qed.

(** ** The size of a PDU *)

Lemma codec_patch {A B} t s (body : packer A) (h : Z → Z → unpacker B) R :
  is_u16 t →
  (∀ len, is_u16 len → codec body (h t len) (λ a b, R (a, len) b)) →
  codec (patch_size 2 (push16 t;; push16 s;; body)) (t' ← pull16; s' ← pull16; h t' s') R.
Proof.
  intros Ht Hb.
  destruct (Hb 0 ltac:(done)) as (bs & a & _ & Hbs & Hp & _ & _).
  set (len := u16 (4 + zlen bs)). pose proof (u16_is (4 + zlen bs)) as Hlen. fold len in Hlen.
  destruct (Hb len Hlen) as (bs' & a' & b & _ & Hp' & Hu & HR).
  assert (bs' = bs ∧ a' = a) as [-> ->].
  { pose proof (zlen_nonneg bs). pose proof (zlen_nonneg bs').
    pose proof (Hp (zlen bs + zlen bs') ltac:(lia)) as E.
    rewrite (Hp' (zlen bs + zlen bs')), !(proj2 (Z.leb_le _ _)) in E by lia. by simplify_eq. }
  destruct (codec_push16 t Ht) as (bt & [] & ? & Hbt & Hpt & Hut & ->).
  rewrite (push16_u16 s).
  destruct (codec_push16 (u16 s) (u16_is s)) as (bz & [] & ? & Hbz & Hps & Hus & ->).
  destruct (codec_push16 len Hlen) as (bl & [] & ? & Hbl & Hpl & Hul & ->).
  assert (∀ x c, push16 x (zlen c) = Ok (Some (c, tt)) → zlen c = 2) as H2
    by (intros x c; apply fixed_size_push16).
  assert (zlen bt = 2) as Lt by (apply (H2 t); rewrite Hpt, Z.leb_refl by apply zlen_nonneg; done).
  assert (zlen bz = 2) as Lz by (apply (H2 (u16 s)); rewrite Hps, Z.leb_refl by apply zlen_nonneg; done).
  assert (zlen bl = 2) as Ll by (apply (H2 len); rewrite Hpl, Z.leb_refl by apply zlen_nonneg; done).
  pose proof (zlen_nonneg bs). rewrite Lt in Hpt. rewrite Lz in Hps. rewrite Ll in Hpl.
  exists (bt ++ bl ++ bs), (a, len), b. rewrite !zlen_app, Lt, Ll.
  split_and!; [by rewrite !Forall_app| | |done].
  - intros room Hr. unfold patch_size. cbv [mbind packer_bind]. rewrite Hpt by done.
    destruct (Z.leb_spec 2 room); [|by rewrite (proj2 (Z.leb_gt _ _)) by lia].
    rewrite Lt, Hps by lia. destruct (Z.leb_spec 2 (room - 2)); [|by rewrite (proj2 (Z.leb_gt _ _)) by lia].
    rewrite Lz, Hp by lia. destruct (Z.leb_spec (zlen bs) (room - 2 - 2)).
    2: by rewrite (proj2 (Z.leb_gt _ _)) by lia.
    replace (u16 (zlen (bt ++ bz ++ bs))) with len by (rewrite !zlen_app; unfold len; f_equal; lia).
    rewrite Hpl, !(proj2 (Z.leb_le _ _)) by lia. do 4 f_equal.
    + by rewrite take_app_length' by (unfold zlen in *; lia).
    + f_equal. by rewrite app_assoc, drop_app_length' by (rewrite length_app; unfold zlen in *; lia).
  - intros rest. cbv [mbind unpacker_bind]. rewrite <- !app_assoc, Hut, Hul. apply Hu.
Qed.

(** ** What is never exceeded *)

Lemma bounded_ret {A} (a : A) : bounded (mret a).
Proof. intros room bs b. cbv [mret packer_ret]. intros [= <- _]. rewrite zlen_nil. lia. Qed.

Lemma bounded_bind {A B} (p : packer A) (k : A → packer B) :
  bounded p → (∀ a, bounded (k a)) → bounded (p ≫= k).
Proof.
  intros Hp Hk room bs b (b1 & b2 & a & H1%Hp & H2%Hk & ->)%bind_some. rewrite zlen_app.
  pose proof (zlen_nonneg b1). lia.
Qed.

Lemma bounded_none {A} (p : packer A) : (∀ room bs a, p room ≠ Ok (Some (bs, a))) → bounded p.
Proof. intros H room bs a E. by apply H in E. Qed.
Lemma bounded_fail {A} : bounded (@pack_fail A).
Proof. by apply bounded_none. Qed.
Lemma bounded_undef {A} : bounded (@pack_undef A).
Proof. by apply bounded_none. Qed.
Lemma bounded_assert b : bounded (pack_assert b).
Proof. unfold pack_assert. destruct b; [apply (bounded_ret tt)|by apply bounded_none]. Qed.
Lemma bounded_elem {A} (l : list A) i : bounded (elem l i).
Proof. unfold elem. destruct (l !! _); [apply bounded_ret|apply bounded_undef]. Qed.

Lemma bounded_push8 x : bounded (push8 x).
Proof.
  intros room bs a. unfold push8. destruct (Z.leb_spec 1 room); [|done]. intros [= <- _].
  rewrite zlen_cons, zlen_nil. lia.
Qed.
Lemma bounded_push16 x : bounded (push16 x).
Proof.
  intros room bs a H. rewrite (fixed_size_push16 _ _ _ _ H). unfold push16 in H.
  destruct (Z.leb_spec 2 room); [lia|discriminate].
Qed.
Lemma bounded_push32 x : bounded (push32 x).
Proof.
  intros room bs a H. rewrite (fixed_size_push32 _ _ _ _ H). unfold push32 in H.
  destruct (Z.leb_spec 4 room); [lia|discriminate].
Qed.
Lemma bounded_array8 l max_len len : bounded (pusharray8 l max_len len).
Proof.
  intros room bs a. unfold pusharray8. destruct (len =? 0).
  { intros [= <- _]. rewrite zlen_nil. lia. }
  destruct (max_len <? len); [done|]. destruct (Z.leb_spec len room); [|done].
  destruct (len <=? zlen l); [|done]. intros [= <- _]. unfold zlen. rewrite length_take. lia.
Qed.

Lemma bounded_for {A} n (f : Z → packer A) : (∀ i, bounded (f i)) → bounded (pack_for n f).
Proof.
  intros Hf. unfold pack_for. generalize 0 as i. induction (Z.to_nat n) as [|k IH]; intros i.
  - apply bounded_ret.
  - cbn [pack_loop]. repeat (apply bounded_bind; [auto|intros ?]). apply bounded_ret.
Qed.

Lemma bounded_thread {A S} (f : A → S → packer S) l n s :
  (∀ a s, bounded (f a s)) → bounded (pack_thread f l n s).
Proof.
  intros Hf. unfold pack_thread. generalize 0 as i. revert s.
  induction (Z.to_nat n) as [|k IH]; intros s i; [apply bounded_ret|].
  cbn [pack_thread_loop]. apply bounded_bind; [apply bounded_elem|]. intros a. apply bounded_bind; auto.
Qed.

Lemma bounded_array w push l max_len len :
  (∀ x, bounded (push x)) → bounded (pusharray w push l max_len len).
Proof.
  intros Hp room bs a. unfold pusharray. destruct (len =? 0).
  { intros [= <- _]. rewrite zlen_nil. lia. }
  destruct (max_len <? len); [done|]. destruct (w * len <=? room); [|done].
  apply (bounded_bind (pack_for len (λ i, x ← elem l i; push x)) (λ _, mret tt)); [|intros _; apply bounded_ret].
  apply bounded_for. intros i. apply bounded_bind; [apply bounded_elem|done].
Qed.

Lemma bounded_patch {A} off (p : packer A) : 0 <= off → bounded p → bounded (patch_size off p).
Proof.
  intros Ho Hp room bs a. unfold patch_size. destruct (p room) as [[[cs b]|]| | |] eqn:E; try done.
  apply Hp in E. destruct (push16 _ _) as [[[sz []]|]| | |] eqn:E2; try done. intros [= <- _].
  pose proof (fixed_size_push16 _ _ _ _ E2). unfold push16 in E2.
  destruct (Z.leb_spec 2 (room - off)); [|discriminate].
  unfold zlen in *. rewrite !length_app, length_take, length_drop. lia.
Qed.

#[export] Hint Resolve bounded_ret bounded_fail bounded_undef bounded_assert bounded_elem bounded_push8
  bounded_push16 bounded_push32 bounded_array8 : bounded.

(** ** Readers *)

Lemma reader_ret {A} (a : A) : prefix_reader (mret a).
Proof. intros i _. right. by exists [], i, a. Qed.
Lemma reader_fail {A} : prefix_reader (@unpack_fail A).
Proof. intros i _. by left. Qed.

Lemma reader_bind {A B} (u : unpacker A) (h : A → unpacker B) :
  prefix_reader u → (∀ a, prefix_reader (h a)) → prefix_reader (u ≫= h).
Proof.
  intros Hu Hh i Hi. cbv [mbind unpacker_bind]. destruct (Hu i Hi) as [->|(c & i' & a & -> & E)]; [by left|].
  apply Forall_app in Hi as [_ Hi].
  rewrite E. destruct (Hh a i' Hi) as [->|(c' & i'' & b & -> & E')]; [by left|].
  right. exists (c ++ c'), i'', b. split; [apply app_assoc|]. intros rest. by rewrite <- app_assoc, E, E'.
Qed.

Lemma reader_check {A} n cap (h : unit → unpacker A) :
  (n <= cap → prefix_reader (h tt)) → prefix_reader (check_count n cap ≫= h).
Proof.
  intros H. unfold check_count. destruct (Z.ltb_spec cap n); [intros i _; by left|]. apply H. lia.
Qed.

Lemma reader_pull8 : prefix_reader pull8.
Proof. intros [|x i] _; [by left|]. right. by exists [x], i, x. Qed.
(** what follows may rely on the range of an octet *)
Lemma reader_pull8_bind {A} (h : Z → unpacker A) :
  (∀ a, is_byte a → prefix_reader (h a)) → prefix_reader (pull8 ≫= h).
Proof.
  intros H [|x i] Hi; [by left|]. apply Forall_cons in Hi as [Hx Hi].
  destruct (H x Hx i Hi) as [E|(c & i' & b & -> & E)]; [left|right].
  - exact E.
  - by exists (x :: c), i', b.
Qed.
Lemma reader_pull16 : prefix_reader pull16.
Proof. intros [|x [|y i]] _; [by left..|]. right. eexists [x; y], i, _. by split. Qed.
Lemma reader_pull32 : prefix_reader pull32.
Proof. intros [|x [|y [|z [|w i]]]] _; [by left..|]. right. eexists [x; y; z; w], i, _. by split. Qed.
Lemma reader_pulls16 : prefix_reader pulls16.
Proof. apply reader_bind; [apply reader_pull16|intros; apply reader_ret]. Qed.

Lemma reader_for {A} cap n (f : Z → unpacker A) :
  n <= cap → (∀ i, prefix_reader (f i)) → prefix_reader (unpack_for cap n f).
Proof.
  intros Hn Hf. unfold unpack_for.
  assert (∀ k i, 0 <= i → i + Z.of_nat k <= Z.max 0 n → prefix_reader (unpack_loop cap f i k)) as H.
  { induction k as [|k IH]; intros i Hi Hk; cbn [unpack_loop]; [apply reader_ret|].
    rewrite (proj2 (Z.ltb_lt _ _)) by lia. apply reader_bind; [done|]. intros a.
    apply reader_bind; [apply IH; lia|]. intros l. apply reader_ret. }
  apply H; lia.
Qed.

Lemma reader_array8 cap max_len len : Z.min max_len len <= cap → prefix_reader (pullarray8 cap max_len len).
Proof.
  intros Hc i _. unfold pullarray8. destruct (Z.eqb_spec len 0). { right. by exists [], i, []. }
  destruct (Z.ltb_spec max_len len); [by left|]. destruct (Z.leb_spec len (zlen i)); [|by left].
  rewrite (proj2 (Z.leb_le len cap)) by lia. right.
  exists (take (Z.to_nat len) i), (drop (Z.to_nat len) i), (take (Z.to_nat len) i).
  split; [by rewrite take_drop|]. intros rest.
  assert (length (take (Z.to_nat len) i) = Z.to_nat len) as L by (rewrite length_take; unfold zlen in *; lia).
  rewrite zlen_app, (proj2 (Z.leb_le _ _)).
  - by rewrite take_app_length', drop_app_length'.
  - unfold zlen. rewrite L. lia.
Qed.

Lemma unpack_loop_size {A} w cap (u : unpacker A) i k inp l inp' :
  (∀ j a j', u j = Ok (Some (a, j')) → zlen j = w + zlen j') →
  unpack_loop cap (λ _, u) i k inp = Ok (Some (l, inp')) → zlen inp = w * Z.of_nat k + zlen inp'.
Proof.
  intros Hu. revert i inp l inp'. induction k as [|k IH]; intros i inp l inp'; cbn [unpack_loop].
  { cbv [mret unpacker_ret]. intros [= _ <-]. lia. }
  cbv [mbind unpacker_bind]. destruct (i <? cap); [|done].
  destruct (u inp) as [[[a j]|]| | |] eqn:E; try done. apply Hu in E.
  destruct (unpack_loop cap _ _ _ j) as [[[l' j']|]| | |] eqn:E2; try done. apply IH in E2.
  intros [= _ <-]. lia.
Qed.

Lemma reader_array w (u : unpacker Z) cap max_len len :
  0 < w → Z.min max_len len <= cap → prefix_reader u →
  (∀ j a j', u j = Ok (Some (a, j')) → zlen j = w + zlen j') → prefix_reader (pullarray w u cap max_len len).
Proof.
  intros Hw Hc Hu Hs i Hi. unfold pullarray. destruct (Z.eqb_spec len 0). { right. by exists [], i, []. }
  destruct (Z.ltb_spec max_len len); [by left|]. destruct (Z.leb_spec (w * len) (zlen i)); [|by left].
  destruct (reader_for cap len (λ _, u) ltac:(lia) (λ _, Hu) i Hi) as [->|(c & i' & a & -> & E)]; [by left|].
  right. exists c, i', a. split; [done|]. intros rest. rewrite E.
  pose proof (unpack_loop_size w _ _ _ _ _ _ _ Hs (E rest)) as L. rewrite zlen_app in *.
  pose proof (zlen_nonneg rest). by rewrite (proj2 (Z.leb_le _ _)) by lia.
Qed.

Lemma reader_array16 cap max_len len : Z.min max_len len <= cap → prefix_reader (pullarray16 cap max_len len).
Proof.
  intros H. apply reader_array; [done..|apply reader_pull16|].
  intros [|x [|y j]] a j'; try done. intros [= _ <-]. rewrite !zlen_cons. lia.
Qed.
Lemma reader_array32 cap max_len len : Z.min max_len len <= cap → prefix_reader (pullarray32 cap max_len len).
Proof.
  intros H. apply reader_array; [done..|apply reader_pull32|].
  intros [|x [|y [|z [|t j]]]] a j'; try done. intros [= _ <-]. rewrite !zlen_cons. lia.
Qed.
Lemma reader_dci_payload bits : prefix_reader (unpack_dci_payload bits).
Proof. apply reader_array8. lia. Qed.

#[export] Hint Resolve reader_ret reader_fail reader_pull8 reader_pull16 reader_pull32 reader_pulls16
  reader_dci_payload : reader.

(** what a reader accepts, none of its proper prefixes is accepted *)
Lemma prefix_rejected {A} (u : unpacker A) bs a p :
  prefix_reader u → Forall is_byte bs → u bs = Ok (Some (a, [])) → p `prefix_of` bs → p ≠ bs →
  u p = Ok None.
Proof.
  intros Hu Hb Hacc [q ->] Hp. apply Forall_app in Hb as [Hb _]. destruct (Hu p Hb) as [H|(c & i' & b & -> & H)]; [done|].
  rewrite <- app_assoc, H in Hacc. injection Hacc as _ Hq.
  apply app_nil in Hq as [-> ->]. by rewrite !app_nil_r in Hp.
Qed.

(** ** Proofs by following the code *)

Create HintDb codec discriminated.

(** all the facts about single fields that a hypothesis holds *)
Ltac wf H :=
  rewrite ?Forall_cons in H; destruct_and? H;
  repeat match goal with K : Forall _ [] |- _ => clear K end.

(** the part of the well-formedness of a structure that a step needs *)
Ltac fapi_side := solve [assumption | lia | done | eauto 3].

(** One step of the code: a field, read where it was written; a part of the message, by its
    lemma in [codec]; a loop, by the lemma for its body. *)
Ltac codec_bind_by tac := eapply codec_bind; [tac|intros _ ? ->].
Ltac codec_step :=
  lazymatch goal with
  | |- codec (mret _) (mret _) _ => apply codec_ret
  | |- codec (mret _ ≫= _) (mret _ ≫= _) _ => codec_bind_by ltac:(apply codec_ret; reflexivity)
  | |- codec _ (check_count _ _ ≫= _) _ => apply codec_check; [fapi_side|]
  | |- codec (elem _ _ ≫= _) _ _ => eapply codec_elem; [eassumption|]
  | |- codec (push8 _ ≫= _) _ _ => codec_bind_by ltac:(apply codec_push8; fapi_side)
  | |- codec (push16 _ ≫= _) _ _ => codec_bind_by ltac:(apply codec_push16; fapi_side)
  | |- codec (push32 _ ≫= _) _ _ => codec_bind_by ltac:(apply codec_push32; fapi_side)
  | |- codec (pushs16 _ ≫= _) _ _ => codec_bind_by ltac:(apply codec_pushs16; fapi_side)
  | |- codec (pusharray8 _ _ _ ≫= _) _ _ => codec_bind_by ltac:(apply codec_array8; fapi_side)
  | |- codec (pusharray16 _ _ _ ≫= _) _ _ => codec_bind_by ltac:(apply codec_array16; fapi_side)
  | |- codec (pusharray32 _ _ _ ≫= _) _ _ => codec_bind_by ltac:(apply codec_array32; fapi_side)
  | |- codec (pack_dci_payload _ _ ≫= _) _ _ => codec_bind_by ltac:(apply codec_dci_payload; fapi_side)
  | |- codec (pack_for _ (λ i, elem _ i ≫= (λ x, push8 x)) ≫= _) _ _ => codec_bind_by ltac:(apply codec_for_push8; fapi_side)
  | |- codec (pack_for _ (λ i, elem _ i ≫= (λ x, push16 x)) ≫= _) _ _ => codec_bind_by ltac:(apply codec_for_push16; fapi_side)
  | |- codec (pack_for _ (λ i, elem _ i ≫= (λ x, push32 x)) ≫= _) _ _ => codec_bind_by ltac:(apply codec_for_push32; fapi_side)
  | |- codec (pack_for _ (λ i, elem _ i ≫= (λ x, pushs16 x)) ≫= _) _ _ => codec_bind_by ltac:(apply codec_for_pushs16; fapi_side)
  | |- codec (pack_for _ (λ i, elem _ i ≫= _) ≫= _) _ _ =>
      codec_bind_by ltac:(first [
        apply codec_for_list; [fapi_side|fapi_side|intros ? ? ?; solve [eauto with codec]] |
        eapply codec_for_fmap; [fapi_side|fapi_side|intros ? ? ?; solve [eauto with codec]]])
  | |- codec ((if _ then _ else mret tt) ≫= _) _ _ => codec_bind_by ltac:(eapply codec_if; intros ?; first [solve [eauto with codec]|repeat codec_step; reflexivity])
  | |- codec (_ ≫= _) _ _ => codec_bind_by ltac:(solve [eauto with codec])
  end; cbn beta.

Ltac bounded_step :=
  match goal with
  | |- bounded (_ ≫= _) => apply bounded_bind; [|intros ?]
  | |- bounded (pack_for _ _) => apply bounded_for; intros ?
  | |- bounded (pack_thread _ _ _ _) => apply bounded_thread; intros ? ?
  | |- bounded (patch_size _ _) => apply bounded_patch; [done|]
  | |- bounded (pusharray16 _ _ _) => apply bounded_array, bounded_push16
  | |- bounded (pusharray32 _ _ _) => apply bounded_array, bounded_push32
  | |- bounded (if ?b then _ else _) => destruct b
  | |- bounded (match ?x with _ => _ end) => destruct x
  | |- bounded _ => solve [auto with bounded]
  end.
Ltac bounded_steps := repeat (cbn zeta; bounded_step).

Ltac reader_step :=
  match goal with
  | |- prefix_reader (check_count _ _ ≫= _) => apply reader_check; intros ?
  | |- prefix_reader (pull8 ≫= _) => apply reader_pull8_bind; unfold is_byte; intros ? ?
  | |- prefix_reader (_ ≫= _) => apply reader_bind; [|intros ?]
  | |- prefix_reader (unpack_for _ _ _) => apply reader_for; [lia|intros ?]
  | |- prefix_reader (pullarray8 _ _ _) => apply reader_array8; lia
  | |- prefix_reader (pullarray16 _ _ _) => apply reader_array16; lia
  | |- prefix_reader (pullarray32 _ _ _) => apply reader_array32; lia
  | |- prefix_reader (if ?b then _ else _) => destruct b
  | |- prefix_reader (match ?x with _ => _ end) => destruct x
  | |- prefix_reader _ => solve [auto with reader]
  end.
Ltac reader_steps := repeat (cbn zeta; reader_step).
