(* ===== verification/FapiDl.v ===== *)
(** * FAPI: requests for the downlink

    DL_TTI.request with its PDUs (PDCCH, PDSCH, CSI-RS, SSB), UL_DCI.request and
    TX_DATA.request of nr_fapi_p7.c, and the structures of nfapi_nr_interface_scf.h they fill.

    The array of a structure is the list of its elements in use; those behind are not
    represented. A field that an unpacker does not write, because the octets do not carry it,
    keeps what the destination held before: this is an argument of the unpacker ([old]), where
    it matters. A union is an inductive type; a packer that reads a member other than the one
    stored is undefined. *)

From S2P Require Import Prelude Fapi.

(** ** Bounds of the arrays *)
Definition NFAPI_MAX_NUM_PRGS : Z := 1.
Definition NFAPI_MAX_NUM_BG_IF : Z := 6.
Definition MAX_DCI_CORESET : Z := 12.
Definition MAX_NUM_SPATIAL_STREAMS : Z := 16.
Definition MAX_NUM_CODEWORDS : Z := 2.
Definition NFAPI_NR_MAX_DL_TTI_PDUS : Z := 32.
Definition NFAPI_NR_MAX_NB_CORESETS : Z := 12.
Definition NFAPI_NR_MAX_TX_REQUEST_TLV : Z := 2.
Definition NFAPI_NR_MAX_TX_REQUEST_PDUS : Z := 16.
(** elements of [value.direct] of a TX_DATA TLV *)
Definition TLV_DIRECT_WORDS : Z := 38016.

(** ** Precoding and beamforming *)
Record tx_prg : Type := mk_tx_prg { pm_idx : Z; dig_bf_interface_list : list Z }.
Record tx_beamforming : Type := mk_tx_beamforming {
  num_prgs : Z; prg_size : Z; dig_bf_interfaces : Z; prgs_list : list tx_prg
}.

Definition pack_nr_tx_beamforming_pdu (v : tx_beamforming) : packer unit :=
  push16 v.(num_prgs);; push16 v.(prg_size);; push8 v.(dig_bf_interfaces);;
  pack_for v.(num_prgs) (λ prg,
    p ← elem v.(prgs_list) prg;
    push16 p.(pm_idx);;
    pack_for v.(dig_bf_interfaces) (λ i, b ← elem p.(dig_bf_interface_list) i; push16 b);;
    mret tt);;
  mret tt.

Definition unpack_nr_tx_beamforming_pdu : unpacker tx_beamforming :=
  num_prgs ← pull16; prg_size ← pull16; dig_bf_interfaces ← pull8;
  check_count num_prgs NFAPI_MAX_NUM_PRGS;;
  check_count dig_bf_interfaces NFAPI_MAX_NUM_BG_IF;;
  prgs ← unpack_for NFAPI_MAX_NUM_PRGS num_prgs (λ _,
    pm ← pull16;
    bs ← unpack_for NFAPI_MAX_NUM_BG_IF dig_bf_interfaces (λ _, pull16);
    mret (mk_tx_prg pm bs));
  mret (mk_tx_beamforming num_prgs prg_size dig_bf_interfaces prgs).

(** ** CSI-RS *)

Record csi_rs_pdu_rel15 : Type := mk_csi_rs {
  csi_bwp_size : Z; csi_bwp_start : Z; csi_subcarrier_spacing : Z; csi_cyclic_prefix : Z; csi_start_rb : Z;
  csi_nr_of_rbs : Z; csi_csi_type : Z; csi_row : Z; csi_freq_domain : Z; csi_symb_l0 : Z; csi_symb_l1 : Z;
  csi_cdm_type : Z; csi_freq_density : Z; csi_scramb_id : Z; csi_power_control_offset : Z;
  csi_power_control_offset_ss : Z; csi_precodingAndBeamforming : tx_beamforming;
  csi_numSpatialStreamIndices : Z; csi_spatialStreamIndices : list Z
}.

Definition pack_dl_tti_csi_rs_pdu_rel15_value (v : csi_rs_pdu_rel15) : packer unit :=
  push16 v.(csi_bwp_size);; push16 v.(csi_bwp_start);; push8 v.(csi_subcarrier_spacing);;
  push8 v.(csi_cyclic_prefix);; push16 v.(csi_start_rb);; push16 v.(csi_nr_of_rbs);;
  push8 v.(csi_csi_type);; push8 v.(csi_row);; push16 v.(csi_freq_domain);; push8 v.(csi_symb_l0);;
  push8 v.(csi_symb_l1);; push8 v.(csi_cdm_type);; push8 v.(csi_freq_density);; push16 v.(csi_scramb_id);;
  push8 v.(csi_power_control_offset);; push8 v.(csi_power_control_offset_ss);;
  pack_nr_tx_beamforming_pdu v.(csi_precodingAndBeamforming);;
  push8 v.(csi_numSpatialStreamIndices);;
  pusharray8 v.(csi_spatialStreamIndices) MAX_NUM_SPATIAL_STREAMS v.(csi_numSpatialStreamIndices);;
  mret tt.

Definition unpack_dl_tti_csi_rs_pdu_rel15_value : unpacker csi_rs_pdu_rel15 :=
  bwp_size ← pull16; bwp_start ← pull16; subcarrier_spacing ← pull8; cyclic_prefix ← pull8;
  start_rb ← pull16; nr_of_rbs ← pull16; csi_type ← pull8; row ← pull8; freq_domain ← pull16;
  symb_l0 ← pull8; symb_l1 ← pull8; cdm_type ← pull8; freq_density ← pull8; scramb_id ← pull16;
  power_control_offset ← pull8; power_control_offset_ss ← pull8;
  precodingAndBeamforming ← unpack_nr_tx_beamforming_pdu;
  numSpatialStreamIndices ← pull8;
  spatialStreamIndices ← pullarray8 MAX_NUM_SPATIAL_STREAMS MAX_NUM_SPATIAL_STREAMS numSpatialStreamIndices;
  mret (mk_csi_rs
    bwp_size bwp_start subcarrier_spacing cyclic_prefix start_rb nr_of_rbs csi_type row freq_domain symb_l0
    symb_l1 cdm_type freq_density scramb_id power_control_offset power_control_offset_ss
    precodingAndBeamforming numSpatialStreamIndices spatialStreamIndices).

(** ** PDCCH *)

Record dl_dci_pdu : Type := mk_dci {
  dci_RNTI : Z; dci_ScramblingId : Z; dci_ScramblingRNTI : Z; dci_CceIndex : Z; dci_AggregationLevel : Z;
  dci_precodingAndBeamforming : tx_beamforming; dci_beta_PDCCH_1_0 : Z; dci_powerControlOffsetSS : Z;
  dci_PayloadSizeBits : Z; dci_Payload : list Z
}.

(** [param_v4.dci_spatialStreamIndices] holds pairs [dci_index], [spatial_stream_index]. *)
Record pdcch_pdu_rel15 : Type := mk_pdcch {
  pdcch_BWPSize : Z; pdcch_BWPStart : Z; pdcch_SubcarrierSpacing : Z; pdcch_CyclicPrefix : Z;
  pdcch_StartSymbolIndex : Z; pdcch_DurationSymbols : Z; pdcch_FreqDomainResource : list Z;
  pdcch_CceRegMappingType : Z; pdcch_RegBundleSize : Z; pdcch_InterleaverSize : Z; pdcch_CoreSetType : Z;
  pdcch_ShiftIndex : Z; pdcch_precoderGranularity : Z; pdcch_numDlDci : Z; pdcch_dci_pdu : list dl_dci_pdu;
  pdcch_numSpatialStreams : Z; pdcch_dci_spatialStreamIndices : list (Z * Z)
}.

(** one DCI; UL_DCI.request has the same statements inline *)
Definition pack_dci_pdu (d : dl_dci_pdu) : packer unit :=
  push16 d.(dci_RNTI);; push16 d.(dci_ScramblingId);; push16 d.(dci_ScramblingRNTI);;
  push8 d.(dci_CceIndex);; push8 d.(dci_AggregationLevel);;
  pack_nr_tx_beamforming_pdu d.(dci_precodingAndBeamforming);;
  push8 d.(dci_beta_PDCCH_1_0);; push8 d.(dci_powerControlOffsetSS);; push16 d.(dci_PayloadSizeBits);;
  pack_dci_payload d.(dci_Payload) d.(dci_PayloadSizeBits);;
  mret tt.

Definition unpack_dci_pdu : unpacker dl_dci_pdu :=
  RNTI ← pull16; ScramblingId ← pull16; ScramblingRNTI ← pull16; CceIndex ← pull8; AggregationLevel ← pull8;
  precodingAndBeamforming ← unpack_nr_tx_beamforming_pdu;
  beta_PDCCH_1_0 ← pull8; powerControlOffsetSS ← pull8; PayloadSizeBits ← pull16;
  Payload ← unpack_dci_payload PayloadSizeBits;
  mret (mk_dci RNTI ScramblingId ScramblingRNTI CceIndex AggregationLevel
    precodingAndBeamforming beta_PDCCH_1_0 powerControlOffsetSS PayloadSizeBits Payload).

Definition pack_dl_tti_pdcch_pdu_rel15_value (v : pdcch_pdu_rel15) : packer unit :=
  push16 v.(pdcch_BWPSize);; push16 v.(pdcch_BWPStart);; push8 v.(pdcch_SubcarrierSpacing);;
  push8 v.(pdcch_CyclicPrefix);; push8 v.(pdcch_StartSymbolIndex);; push8 v.(pdcch_DurationSymbols);;
  pusharray8 v.(pdcch_FreqDomainResource) 6 6;; push8 v.(pdcch_CceRegMappingType);;
  push8 v.(pdcch_RegBundleSize);; push8 v.(pdcch_InterleaverSize);; push8 v.(pdcch_CoreSetType);;
  push16 v.(pdcch_ShiftIndex);; push8 v.(pdcch_precoderGranularity);; push16 v.(pdcch_numDlDci);;
  pack_for v.(pdcch_numDlDci) (λ i, d ← elem v.(pdcch_dci_pdu) i; pack_dci_pdu d);;
  push16 v.(pdcch_numSpatialStreams);;
  pack_for v.(pdcch_numSpatialStreams) (λ i,
    s ← elem v.(pdcch_dci_spatialStreamIndices) i;
    push16 s.1;; push16 s.2;; mret tt);;
  mret tt.

Definition unpack_dl_tti_pdcch_pdu_rel15_value : unpacker pdcch_pdu_rel15 :=
  BWPSize ← pull16; BWPStart ← pull16; SubcarrierSpacing ← pull8; CyclicPrefix ← pull8;
  StartSymbolIndex ← pull8; DurationSymbols ← pull8; FreqDomainResource ← pullarray8 6 6 6;
  CceRegMappingType ← pull8; RegBundleSize ← pull8; InterleaverSize ← pull8; CoreSetType ← pull8;
  ShiftIndex ← pull16; precoderGranularity ← pull8; numDlDci ← pull16;
  check_count numDlDci MAX_DCI_CORESET;;
  dci_pdu ← unpack_for MAX_DCI_CORESET numDlDci (λ _, unpack_dci_pdu);
  numSpatialStreams ← pull16;
  check_count numSpatialStreams MAX_NUM_SPATIAL_STREAMS;;
  dci_spatialStreamIndices ← unpack_for MAX_NUM_SPATIAL_STREAMS numSpatialStreams (λ _,
    dci_index ← pull16; spatial_stream_index ← pull16; mret (dci_index, spatial_stream_index));
  mret (mk_pdcch
    BWPSize BWPStart SubcarrierSpacing CyclicPrefix StartSymbolIndex DurationSymbols FreqDomainResource
    CceRegMappingType RegBundleSize InterleaverSize CoreSetType ShiftIndex precoderGranularity numDlDci
    dci_pdu numSpatialStreams dci_spatialStreamIndices).

(** ** PDSCH *)
Record spatial_stream_index : Type := mk_ss { numSpatialStreamIndices : Z; spatialStreamIndices : list Z }.

Definition pack_spatial_stream_indices (ss : spatial_stream_index) : packer unit :=
  push8 ss.(numSpatialStreamIndices);;
  pusharray16 ss.(spatialStreamIndices) MAX_NUM_SPATIAL_STREAMS ss.(numSpatialStreamIndices);;
  mret tt.

Definition unpack_spatial_stream_indices : unpacker spatial_stream_index :=
  n ← pull8;
  l ← pullarray16 MAX_NUM_SPATIAL_STREAMS MAX_NUM_SPATIAL_STREAMS n;
  mret (mk_ss n l).

Record pdsch_pdu_rel15 : Type := mk_pdsch {
  pdsch_pduBitmap : Z; pdsch_rnti : Z; pdsch_pduIndex : Z; pdsch_BWPSize : Z; pdsch_BWPStart : Z;
  pdsch_SubcarrierSpacing : Z; pdsch_CyclicPrefix : Z; pdsch_NrOfCodewords : Z;
  pdsch_targetCodeRate : list Z; pdsch_qamModOrder : list Z; pdsch_mcsIndex : list Z;
  pdsch_mcsTable : list Z; pdsch_rvIndex : list Z; pdsch_TBSize : list Z; pdsch_dataScramblingId : Z;
  pdsch_nrOfLayers : Z; pdsch_transmissionScheme : Z; pdsch_refPoint : Z; pdsch_dlDmrsSymbPos : Z;
  pdsch_dmrsConfigType : Z; pdsch_dlDmrsScramblingId : Z; pdsch_SCID : Z; pdsch_numDmrsCdmGrpsNoData : Z;
  pdsch_dmrsPorts : Z; pdsch_resourceAlloc : Z; pdsch_rbBitmap : list Z; pdsch_rbStart : Z;
  pdsch_rbSize : Z; pdsch_VRBtoPRBMapping : Z; pdsch_StartSymbolIndex : Z; pdsch_NrOfSymbols : Z;
  pdsch_PTRSPortIndex : Z; pdsch_PTRSTimeDensity : Z; pdsch_PTRSFreqDensity : Z; pdsch_PTRSReOffset : Z;
  pdsch_nEpreRatioOfPDSCHToPTRS : Z; pdsch_precodingAndBeamforming : tx_beamforming;
  pdsch_powerControlOffset : Z; pdsch_powerControlOffsetSS : Z; pdsch_isLastCbPresent : Z;
  pdsch_isInlineTbCrc : Z; pdsch_dlTbCrc : Z; pdsch_ldpcBaseGraph : Z; pdsch_tbSizeLbrmBytes : Z;
  pdsch_numberCodewords : Z; pdsch_spatialStreamsCw : list spatial_stream_index
}.

(** the parameters that the bitmap announces *)
Definition pack_pdsch_ptrs (v : pdsch_pdu_rel15) : packer unit :=
  if flag v.(pdsch_pduBitmap) 1 then
    push8 v.(pdsch_PTRSPortIndex);; push8 v.(pdsch_PTRSTimeDensity);; push8 v.(pdsch_PTRSFreqDensity);;
    push8 v.(pdsch_PTRSReOffset);; push8 v.(pdsch_nEpreRatioOfPDSCHToPTRS);;
    mret tt
  else mret tt.
Definition pack_pdsch_cbg (v : pdsch_pdu_rel15) : packer unit :=
  if flag v.(pdsch_pduBitmap) 2 then
    push8 v.(pdsch_isLastCbPresent);; push8 v.(pdsch_isInlineTbCrc);; push32 v.(pdsch_dlTbCrc);;
    mret tt
  else mret tt.
Definition unpack_pdsch_ptrs (old : pdsch_pdu_rel15) (pduBitmap : Z) : unpacker (Z * Z * Z * Z * Z) :=
  if flag pduBitmap 1 then
    PTRSPortIndex ← pull8; PTRSTimeDensity ← pull8; PTRSFreqDensity ← pull8; PTRSReOffset ← pull8;
    nEpreRatioOfPDSCHToPTRS ← pull8;
    mret (PTRSPortIndex, PTRSTimeDensity, PTRSFreqDensity, PTRSReOffset, nEpreRatioOfPDSCHToPTRS)
  else mret (old.(pdsch_PTRSPortIndex), old.(pdsch_PTRSTimeDensity), old.(pdsch_PTRSFreqDensity),
             old.(pdsch_PTRSReOffset), old.(pdsch_nEpreRatioOfPDSCHToPTRS)).
Definition unpack_pdsch_cbg (old : pdsch_pdu_rel15) (pduBitmap : Z) : unpacker (Z * Z * Z) :=
  if flag pduBitmap 2 then
    isLastCbPresent ← pull8; isInlineTbCrc ← pull8; dlTbCrc ← pull32;
    mret (isLastCbPresent, isInlineTbCrc, dlTbCrc)
  else mret (old.(pdsch_isLastCbPresent), old.(pdsch_isInlineTbCrc), old.(pdsch_dlTbCrc)).

Definition pack_dl_tti_pdsch_pdu_rel15_value (v : pdsch_pdu_rel15) : packer unit :=
  push16 v.(pdsch_pduBitmap);; push16 v.(pdsch_rnti);; push16 v.(pdsch_pduIndex);;
  push16 v.(pdsch_BWPSize);; push16 v.(pdsch_BWPStart);; push8 v.(pdsch_SubcarrierSpacing);;
  push8 v.(pdsch_CyclicPrefix);; push8 v.(pdsch_NrOfCodewords);;
  pack_for v.(pdsch_NrOfCodewords) (λ i,
    x ← elem v.(pdsch_targetCodeRate) i; push16 x;;
    x ← elem v.(pdsch_qamModOrder) i; push8 x;;
    x ← elem v.(pdsch_mcsIndex) i; push8 x;;
    x ← elem v.(pdsch_mcsTable) i; push8 x;;
    x ← elem v.(pdsch_rvIndex) i; push8 x;;
    x ← elem v.(pdsch_TBSize) i; push32 x;;
    mret tt);;
  push16 v.(pdsch_dataScramblingId);; push8 v.(pdsch_nrOfLayers);; push8 v.(pdsch_transmissionScheme);;
  push8 v.(pdsch_refPoint);; push16 v.(pdsch_dlDmrsSymbPos);; push8 v.(pdsch_dmrsConfigType);;
  push16 v.(pdsch_dlDmrsScramblingId);; push8 v.(pdsch_SCID);; push8 v.(pdsch_numDmrsCdmGrpsNoData);;
  push16 v.(pdsch_dmrsPorts);; push8 v.(pdsch_resourceAlloc);; pusharray8 v.(pdsch_rbBitmap) 36 36;;
  push16 v.(pdsch_rbStart);; push16 v.(pdsch_rbSize);; push8 v.(pdsch_VRBtoPRBMapping);;
  push8 v.(pdsch_StartSymbolIndex);; push8 v.(pdsch_NrOfSymbols);;
  pack_pdsch_ptrs v;;
  pack_nr_tx_beamforming_pdu v.(pdsch_precodingAndBeamforming);;
  push8 v.(pdsch_powerControlOffset);; push8 v.(pdsch_powerControlOffsetSS);;
  pack_pdsch_cbg v;;
  push8 v.(pdsch_ldpcBaseGraph);; push32 v.(pdsch_tbSizeLbrmBytes);;
  push8 v.(pdsch_numberCodewords);;
  pack_for v.(pdsch_numberCodewords) (λ c, ss ← elem v.(pdsch_spatialStreamsCw) c; pack_spatial_stream_indices ss);;
  mret tt.

(** the parameters of a codeword, which the structure has in one array of two elements each *)
Definition codeword : Type := Z * Z * Z * Z * Z * Z.
Definition cw_targetCodeRate (c : codeword) : Z := let '(r, _, _, _, _, _) := c in r.
Definition cw_qamModOrder (c : codeword) : Z := let '(_, q, _, _, _, _) := c in q.
Definition cw_mcsIndex (c : codeword) : Z := let '(_, _, m, _, _, _) := c in m.
Definition cw_mcsTable (c : codeword) : Z := let '(_, _, _, t, _, _) := c in t.
Definition cw_rvIndex (c : codeword) : Z := let '(_, _, _, _, r, _) := c in r.
Definition cw_TBSize (c : codeword) : Z := let '(_, _, _, _, _, s) := c in s.

Definition unpack_dl_tti_pdsch_pdu_rel15_value (old : pdsch_pdu_rel15) : unpacker pdsch_pdu_rel15 :=
  pduBitmap ← pull16; rnti ← pull16; pduIndex ← pull16; BWPSize ← pull16; BWPStart ← pull16;
  SubcarrierSpacing ← pull8; CyclicPrefix ← pull8; NrOfCodewords ← pull8;
  check_count NrOfCodewords 2;;
  cws ← unpack_for 2 NrOfCodewords (λ _,
    targetCodeRate ← pull16; qamModOrder ← pull8; mcsIndex ← pull8; mcsTable ← pull8; rvIndex ← pull8;
    TBSize ← pull32;
    mret (targetCodeRate, qamModOrder, mcsIndex, mcsTable, rvIndex, TBSize));
  dataScramblingId ← pull16; nrOfLayers ← pull8; transmissionScheme ← pull8; refPoint ← pull8;
  dlDmrsSymbPos ← pull16; dmrsConfigType ← pull8; dlDmrsScramblingId ← pull16; SCID ← pull8;
  numDmrsCdmGrpsNoData ← pull8; dmrsPorts ← pull16; resourceAlloc ← pull8; rbBitmap ← pullarray8 36 36 36;
  rbStart ← pull16; rbSize ← pull16; VRBtoPRBMapping ← pull8; StartSymbolIndex ← pull8; NrOfSymbols ← pull8;
  '(PTRSPortIndex, PTRSTimeDensity, PTRSFreqDensity, PTRSReOffset, nEpreRatioOfPDSCHToPTRS) ←
    unpack_pdsch_ptrs old pduBitmap;
  precodingAndBeamforming ← unpack_nr_tx_beamforming_pdu;
  powerControlOffset ← pull8; powerControlOffsetSS ← pull8;
  '(isLastCbPresent, isInlineTbCrc, dlTbCrc) ← unpack_pdsch_cbg old pduBitmap;
  ldpcBaseGraph ← pull8; tbSizeLbrmBytes ← pull32;
  numberCodewords ← pull8;
  check_count numberCodewords MAX_NUM_CODEWORDS;;
  spatialStreamsCw ← unpack_for MAX_NUM_CODEWORDS numberCodewords (λ _, unpack_spatial_stream_indices);
  mret (mk_pdsch
    pduBitmap rnti pduIndex BWPSize BWPStart SubcarrierSpacing CyclicPrefix NrOfCodewords
    (cw_targetCodeRate <$> cws) (cw_qamModOrder <$> cws) (cw_mcsIndex <$> cws) (cw_mcsTable <$> cws)
    (cw_rvIndex <$> cws) (cw_TBSize <$> cws)
    dataScramblingId nrOfLayers transmissionScheme refPoint dlDmrsSymbPos dmrsConfigType dlDmrsScramblingId
    SCID numDmrsCdmGrpsNoData dmrsPorts resourceAlloc rbBitmap rbStart rbSize VRBtoPRBMapping
    StartSymbolIndex NrOfSymbols PTRSPortIndex PTRSTimeDensity PTRSFreqDensity PTRSReOffset
    nEpreRatioOfPDSCHToPTRS precodingAndBeamforming powerControlOffset powerControlOffsetSS isLastCbPresent
    isInlineTbCrc dlTbCrc ldpcBaseGraph tbSizeLbrmBytes numberCodewords spatialStreamsCw).

(** ** SSB *)

Record ssb_pdu_rel15 : Type := mk_ssb {
  ssb_PhysCellId : Z; ssb_BetaPss : Z; ssb_SsbBlockIndex : Z; ssb_SsbSubcarrierOffset : Z;
  ssb_ssbOffsetPointA : Z; ssb_bchPayloadFlag : Z; ssb_bchPayload : Z; ssb_ssbRsrp : Z;
  ssb_precoding_and_beamforming : tx_beamforming; ssb_spatialStreamIndexPresent : Z;
  ssb_spatialStreamIndex : Z
}.

Definition pack_dl_tti_ssb_pdu_rel15_value (v : ssb_pdu_rel15) : packer unit :=
  push16 v.(ssb_PhysCellId);; push8 v.(ssb_BetaPss);; push8 v.(ssb_SsbBlockIndex);;
  push8 v.(ssb_SsbSubcarrierOffset);; push16 v.(ssb_ssbOffsetPointA);; push8 v.(ssb_bchPayloadFlag);;
  push8 (Z.land (Z.shiftr v.(ssb_bchPayload) 16) 0xff);;
  push8 (Z.land (Z.shiftr v.(ssb_bchPayload) 8) 0xff);;
  push8 (Z.land v.(ssb_bchPayload) 0xff);; push8 0;;
  pack_nr_tx_beamforming_pdu v.(ssb_precoding_and_beamforming);;
  push8 v.(ssb_spatialStreamIndexPresent);; push16 v.(ssb_spatialStreamIndex);;
  mret tt.

Definition unpack_dl_tti_ssb_pdu_rel15_value (old : ssb_pdu_rel15) : unpacker ssb_pdu_rel15 :=
  PhysCellId ← pull16; BetaPss ← pull8; SsbBlockIndex ← pull8; SsbSubcarrierOffset ← pull8;
  ssbOffsetPointA ← pull16; bchPayloadFlag ← pull8;
  byte3 ← pull8; byte2 ← pull8; byte1 ← pull8; byte0 ← pull8;
  let bchPayload := Z.lor (Z.lor (Z.shiftl byte3 16) (Z.shiftl byte2 8)) byte1 in
  precoding_and_beamforming ← unpack_nr_tx_beamforming_pdu;
  spatialStreamIndexPresent ← pull8; spatialStreamIndex ← pull16;
  mret (mk_ssb PhysCellId BetaPss SsbBlockIndex SsbSubcarrierOffset ssbOffsetPointA bchPayloadFlag
    bchPayload old.(ssb_ssbRsrp) precoding_and_beamforming spatialStreamIndexPresent spatialStreamIndex).

(** ** DL_TTI.request *)
Definition NFAPI_NR_DL_TTI_PDCCH_PDU_TYPE : Z := 0.
Definition NFAPI_NR_DL_TTI_PDSCH_PDU_TYPE : Z := 1.
Definition NFAPI_NR_DL_TTI_CSI_RS_PDU_TYPE : Z := 2.
Definition NFAPI_NR_DL_TTI_SSB_PDU_TYPE : Z := 3.

(** the union of a PDU *)
Inductive dl_tti_pdu_body : Type :=
| pdcch_pdu (p : pdcch_pdu_rel15)
| pdsch_pdu (p : pdsch_pdu_rel15)
| csi_rs_pdu (p : csi_rs_pdu_rel15)
| ssb_pdu (p : ssb_pdu_rel15).

Record dl_tti_request_pdu : Type := mk_dl_pdu { dl_PDUType : Z; dl_PDUSize : Z; dl_body : dl_tti_pdu_body }.

(** the memory of a PDU before it is filled, read as each of the types that do not fill all of it *)
Record dl_pdu_memory : Type := mk_dl_memory {
  mem_PDUSize : Z; mem_body : dl_tti_pdu_body; mem_pdsch : pdsch_pdu_rel15; mem_ssb : ssb_pdu_rel15
}.

Definition pack_dl_tti_body (PDUType : Z) (b : dl_tti_pdu_body) : packer unit :=
  if PDUType =? NFAPI_NR_DL_TTI_PDCCH_PDU_TYPE then
    match b with pdcch_pdu p => pack_dl_tti_pdcch_pdu_rel15_value p | _ => pack_undef end
  else if PDUType =? NFAPI_NR_DL_TTI_PDSCH_PDU_TYPE then
    match b with pdsch_pdu p => pack_dl_tti_pdsch_pdu_rel15_value p | _ => pack_undef end
  else if PDUType =? NFAPI_NR_DL_TTI_CSI_RS_PDU_TYPE then
    match b with csi_rs_pdu p => pack_dl_tti_csi_rs_pdu_rel15_value p | _ => pack_undef end
  else if PDUType =? NFAPI_NR_DL_TTI_SSB_PDU_TYPE then
    match b with ssb_pdu p => pack_dl_tti_ssb_pdu_rel15_value p | _ => pack_undef end
  else mret tt.

(** packs the PDU and stores its size in it *)
Definition pack_dl_tti_request_body_value (v : dl_tti_request_pdu) : packer dl_tti_request_pdu :=
  r ← patch_size 2 (push16 v.(dl_PDUType);; push16 v.(dl_PDUSize);; pack_dl_tti_body v.(dl_PDUType) v.(dl_body));
  mret (mk_dl_pdu v.(dl_PDUType) r.2 v.(dl_body)).

Definition unpack_dl_tti_body (old : dl_pdu_memory) (PDUType : Z) : unpacker dl_tti_pdu_body :=
  if PDUType =? NFAPI_NR_DL_TTI_PDCCH_PDU_TYPE then
    p ← unpack_dl_tti_pdcch_pdu_rel15_value; mret (pdcch_pdu p)
  else if PDUType =? NFAPI_NR_DL_TTI_PDSCH_PDU_TYPE then
    p ← unpack_dl_tti_pdsch_pdu_rel15_value old.(mem_pdsch); mret (pdsch_pdu p)
  else if PDUType =? NFAPI_NR_DL_TTI_CSI_RS_PDU_TYPE then
    p ← unpack_dl_tti_csi_rs_pdu_rel15_value; mret (csi_rs_pdu p)
  else if PDUType =? NFAPI_NR_DL_TTI_SSB_PDU_TYPE then
    p ← unpack_dl_tti_ssb_pdu_rel15_value old.(mem_ssb); mret (ssb_pdu p)
  else mret old.(mem_body).

(** [pull16] into the lower half of the 32 bits of [PDUSize] *)
Definition unpack_dl_tti_request_body_value (old : dl_pdu_memory) : unpacker dl_tti_request_pdu :=
  PDUType ← pull16; size ← pull16;
  b ← unpack_dl_tti_body old PDUType;
  mret (mk_dl_pdu PDUType (Z.lor (Z.land old.(mem_PDUSize) 0xFFFF0000) size) b).

Record dl_tti_request : Type := mk_dl_tti_request {
  dl_SFN : Z; dl_Slot : Z; dl_nPDUs : Z; dl_nGroup : Z;
  dl_tti_pdu_list : list dl_tti_request_pdu; dl_nUe : list Z; dl_PduIdx : list (list Z)
}.

Definition pack_dl_tti_request (m : dl_tti_request) : packer dl_tti_request :=
  push16 m.(dl_SFN);; push16 m.(dl_Slot);; push8 m.(dl_nPDUs);; push8 m.(dl_nGroup);;
  l ← pack_for m.(dl_nPDUs) (λ i, p ← elem m.(dl_tti_pdu_list) i; pack_dl_tti_request_body_value p);
  pack_for m.(dl_nGroup) (λ i,
    n ← elem m.(dl_nUe) i;
    push8 n;;
    pack_for n (λ j, idxs ← elem m.(dl_PduIdx) i; idx ← elem idxs j; push32 idx);;
    mret tt);;
  mret (mk_dl_tti_request m.(dl_SFN) m.(dl_Slot) m.(dl_nPDUs) m.(dl_nGroup) l m.(dl_nUe) m.(dl_PduIdx)).

Definition unpack_dl_tti_request (old : Z → dl_pdu_memory) : unpacker dl_tti_request :=
  SFN ← pull16; Slot ← pull16; nPDUs ← pull8; nGroup ← pull8;
  check_count nPDUs NFAPI_NR_MAX_DL_TTI_PDUS;;
  l ← unpack_for NFAPI_NR_MAX_DL_TTI_PDUS nPDUs (λ i, unpack_dl_tti_request_body_value (old i));
  groups ← unpack_for 256 nGroup (λ _,
    n ← pull8;
    check_count n 12;;
    idxs ← unpack_for 12 n (λ _, pull8);
    mret (n, idxs));
  mret (mk_dl_tti_request SFN Slot nPDUs nGroup l groups.*1 groups.*2).

(** ** UL_DCI.request *)
Record ul_dci_request_pdus : Type := mk_ul_dci_pdu {
  udci_PDUType : Z; udci_PDUSize : Z; udci_pdcch_pdu : pdcch_pdu_rel15
}.

Definition pack_ul_dci_pdu_list_value (v : ul_dci_request_pdus) : packer ul_dci_request_pdus :=
  let p := v.(udci_pdcch_pdu) in
  r ← patch_size 2 (
    push16 v.(udci_PDUType);; push16 v.(udci_PDUSize);;
    push16 p.(pdcch_BWPSize);; push16 p.(pdcch_BWPStart);;
    push8 p.(pdcch_SubcarrierSpacing);; push8 p.(pdcch_CyclicPrefix);; push8 p.(pdcch_StartSymbolIndex);;
    push8 p.(pdcch_DurationSymbols);; pusharray8 p.(pdcch_FreqDomainResource) 6 6;;
    push8 p.(pdcch_CceRegMappingType);; push8 p.(pdcch_RegBundleSize);; push8 p.(pdcch_InterleaverSize);;
    push8 p.(pdcch_CoreSetType);; push16 p.(pdcch_ShiftIndex);; push8 p.(pdcch_precoderGranularity);;
    push16 p.(pdcch_numDlDci);;
    pack_for p.(pdcch_numDlDci) (λ i, d ← elem p.(pdcch_dci_pdu) i; pack_dci_pdu d));
  mret (mk_ul_dci_pdu v.(udci_PDUType) r.2 p).

(** the parameters of version 4 are not part of this message *)
Definition unpack_ul_dci_pdu_list_value (old : pdcch_pdu_rel15) : unpacker ul_dci_request_pdus :=
  PDUType ← pull16; PDUSize ← pull16;
  BWPSize ← pull16; BWPStart ← pull16; SubcarrierSpacing ← pull8; CyclicPrefix ← pull8;
  StartSymbolIndex ← pull8; DurationSymbols ← pull8; FreqDomainResource ← pullarray8 6 6 6;
  CceRegMappingType ← pull8; RegBundleSize ← pull8; InterleaverSize ← pull8; CoreSetType ← pull8;
  ShiftIndex ← pull16; precoderGranularity ← pull8; numDlDci ← pull16;
  check_count numDlDci MAX_DCI_CORESET;;
  dci_pdu ← unpack_for MAX_DCI_CORESET numDlDci (λ _, unpack_dci_pdu);
  mret (mk_ul_dci_pdu PDUType PDUSize (mk_pdcch
    BWPSize BWPStart SubcarrierSpacing CyclicPrefix StartSymbolIndex DurationSymbols FreqDomainResource
    CceRegMappingType RegBundleSize InterleaverSize CoreSetType ShiftIndex precoderGranularity numDlDci
    dci_pdu old.(pdcch_numSpatialStreams) old.(pdcch_dci_spatialStreamIndices))).

Record ul_dci_request : Type := mk_ul_dci_request {
  udci_SFN : Z; udci_Slot : Z; udci_numPdus : Z; ul_dci_pdu_list : list ul_dci_request_pdus
}.

Definition pack_ul_dci_request (m : ul_dci_request) : packer ul_dci_request :=
  push16 m.(udci_SFN);; push16 m.(udci_Slot);; push8 m.(udci_numPdus);;
  l ← pack_for m.(udci_numPdus) (λ i, p ← elem m.(ul_dci_pdu_list) i; pack_ul_dci_pdu_list_value p);
  mret (mk_ul_dci_request m.(udci_SFN) m.(udci_Slot) m.(udci_numPdus) l).

Definition unpack_ul_dci_request (old : Z → pdcch_pdu_rel15) : unpacker ul_dci_request :=
  SFN ← pull16; Slot ← pull16; numPdus ← pull8;
  check_count numPdus NFAPI_NR_MAX_NB_CORESETS;;
  l ← unpack_for NFAPI_NR_MAX_NB_CORESETS numPdus (λ i, unpack_ul_dci_pdu_list_value (old i));
  mret (mk_ul_dci_request SFN Slot numPdus l).

(** ** TX_DATA.request *)

(** [value] is [direct] or what [ptr] points to, by the tag; for tag 2 there is no payload. *)
Record tx_data_request_tlv : Type := mk_tlv { tlv_tag : Z; tlv_length : Z; tlv_value : list Z }.
Record tx_data_pdu : Type := mk_tx_pdu { PDU_length : Z; PDU_index : Z; num_TLV : Z; TLVs : list tx_data_request_tlv }.
Record tx_data_request : Type := mk_tx_data {
  tx_SFN : Z; tx_Slot : Z; Number_of_PDUs : Z; tx_pdu_list : list tx_data_pdu
}.

(** [payload_offset], which is advanced by the TLVs with tag 2, is threaded through *)
Definition pack_tx_data_tlv (v : tx_data_request_tlv) (payload_offset : Z) : packer Z :=
  push16 (if v.(tlv_tag) =? 2 then 2 else 0);;
  push32 v.(tlv_length);;
  let byte_len := Z.quot (u32 (v.(tlv_length) + 3)) 4 in
  if (v.(tlv_tag) =? 0) || (v.(tlv_tag) =? 1) then
    pusharray32 v.(tlv_value) byte_len byte_len;; mret payload_offset
  else if v.(tlv_tag) =? 2 then
    push32 payload_offset;; mret (u32 (payload_offset + v.(tlv_length)))
  else mret payload_offset.

Definition pack_tx_data_pdu_list_value (v : tx_data_pdu) (payload_offset : Z) : packer Z :=
  push32 v.(PDU_length);; push16 v.(PDU_index);; push32 v.(num_TLV);;
  pack_thread pack_tx_data_tlv v.(TLVs) v.(num_TLV) payload_offset.

Definition pack_tx_data_request (m : tx_data_request) : packer unit :=
  push16 m.(tx_SFN);; push16 m.(tx_Slot);; push16 m.(Number_of_PDUs);;
  pack_thread pack_tx_data_pdu_list_value m.(tx_pdu_list) m.(Number_of_PDUs) 0;;
  mret tt.

Definition unpack_tx_data_tlv : unpacker tx_data_request_tlv :=
  tag ← pull16; length ← pull32;
  let byte_len := Z.quot (u32 (length + 3)) 4 in
  let tag := if tag =? 1 then 0 else tag in
  if (tag =? 0) || (tag =? 1) then
    value ← pullarray32 TLV_DIRECT_WORDS TLV_DIRECT_WORDS byte_len;
    mret (mk_tlv tag length value)
  else unpack_fail.

Definition unpack_tx_data_pdu_list_value : unpacker tx_data_pdu :=
  PDU_length ← pull32; PDU_index ← pull16; num_TLV ← pull32;
  check_count num_TLV NFAPI_NR_MAX_TX_REQUEST_TLV;;
  tlvs ← unpack_for NFAPI_NR_MAX_TX_REQUEST_TLV num_TLV (λ _, unpack_tx_data_tlv);
  mret (mk_tx_pdu PDU_length PDU_index num_TLV tlvs).

Definition unpack_tx_data_request : unpacker tx_data_request :=
  SFN ← pull16; Slot ← pull16; Number_of_PDUs ← pull16;
  check_count Number_of_PDUs NFAPI_NR_MAX_TX_REQUEST_PDUS;;
  l ← unpack_for NFAPI_NR_MAX_TX_REQUEST_PDUS Number_of_PDUs (λ _, unpack_tx_data_pdu_list_value);
  mret (mk_tx_data SFN Slot Number_of_PDUs l).
