(* ===== verification/FapiDlProofs.v ===== *)
(** * Requests for the downlink: what is packed is what is unpacked

    For each structure of [FapiDl] a predicate that its fields are in the range of their types
    and its counts the lengths of its lists, what of it arrives, and the lemma that this is
    what the unpacker returns; then the bounds of the packers and the behaviour of the
    unpackers on any octets. *)

From S2P Require Import Prelude Bits Fapi FapiCodec FapiDl.

(** ** Precoding and beamforming *)
Definition tx_prg_ok (n : Z) (p : tx_prg) : Prop :=
  is_u16 p.(pm_idx) ∧ n = zlen p.(dig_bf_interface_list) ∧ Forall is_u16 p.(dig_bf_interface_list).
Definition tx_beamforming_ok (v : tx_beamforming) : Prop :=
  Forall is_u16 [v.(num_prgs); v.(prg_size)] ∧ is_u8 v.(dig_bf_interfaces) ∧
  v.(num_prgs) = zlen v.(prgs_list) ∧ zlen v.(prgs_list) <= NFAPI_MAX_NUM_PRGS ∧
  v.(dig_bf_interfaces) <= NFAPI_MAX_NUM_BG_IF ∧
  ∀ p, p ∈ v.(prgs_list) → tx_prg_ok v.(dig_bf_interfaces) p.

Lemma codec_tx_prg n p : n <= NFAPI_MAX_NUM_BG_IF → tx_prg_ok n p →
  codec (push16 p.(pm_idx);; pack_for n (λ i, b ← elem p.(dig_bf_interface_list) i; push16 b);; mret tt)
    (pm ← pull16; bs ← unpack_for NFAPI_MAX_NUM_BG_IF n (λ _, pull16); mret (mk_tx_prg pm bs)) (λ _ p', p' = p).
Proof. intros Hn H. unfold tx_prg_ok in H. wf H. repeat codec_step. by destruct p. Qed.

Lemma codec_tx_beamforming v : tx_beamforming_ok v →
  codec (pack_nr_tx_beamforming_pdu v) unpack_nr_tx_beamforming_pdu (λ _ v', v' = v).
Proof.
  intros H. unfold tx_beamforming_ok in H. wf H.
  unfold pack_nr_tx_beamforming_pdu, unpack_nr_tx_beamforming_pdu. repeat codec_step.
  eapply codec_bind; [apply codec_for_list; [done|done|auto using codec_tx_prg]|intros _ ? ->].
  repeat codec_step. by destruct v.
Qed.
#[export] Hint Resolve codec_tx_beamforming : codec.

(** ** CSI-RS *)
Definition csi_rs_ok (v : csi_rs_pdu_rel15) : Prop :=
  Forall is_u8 [v.(csi_subcarrier_spacing); v.(csi_cyclic_prefix); v.(csi_csi_type); v.(csi_row);
    v.(csi_symb_l0); v.(csi_symb_l1); v.(csi_cdm_type); v.(csi_freq_density);
    v.(csi_power_control_offset); v.(csi_power_control_offset_ss); v.(csi_numSpatialStreamIndices)] ∧
  Forall is_u16 [v.(csi_bwp_size); v.(csi_bwp_start); v.(csi_start_rb); v.(csi_nr_of_rbs);
    v.(csi_freq_domain); v.(csi_scramb_id)] ∧
  tx_beamforming_ok v.(csi_precodingAndBeamforming) ∧
  v.(csi_numSpatialStreamIndices) = zlen v.(csi_spatialStreamIndices) ∧
  v.(csi_numSpatialStreamIndices) <= MAX_NUM_SPATIAL_STREAMS ∧ Forall is_u8 v.(csi_spatialStreamIndices).

Lemma codec_csi_rs v : csi_rs_ok v →
  codec (pack_dl_tti_csi_rs_pdu_rel15_value v) unpack_dl_tti_csi_rs_pdu_rel15_value (λ _ v', v' = v).
Proof.
  intros H. unfold csi_rs_ok in H. wf H.
  unfold pack_dl_tti_csi_rs_pdu_rel15_value, unpack_dl_tti_csi_rs_pdu_rel15_value.
  repeat codec_step. by destruct v.
Qed.

(** ** PDCCH *)
Definition dci_ok (d : dl_dci_pdu) : Prop :=
  Forall is_u8 [d.(dci_CceIndex); d.(dci_AggregationLevel); d.(dci_beta_PDCCH_1_0);
    d.(dci_powerControlOffsetSS)] ∧
  Forall is_u16 [d.(dci_RNTI); d.(dci_ScramblingId); d.(dci_ScramblingRNTI); d.(dci_PayloadSizeBits)] ∧
  tx_beamforming_ok d.(dci_precodingAndBeamforming) ∧
  zlen d.(dci_Payload) = u8 (Z.quot (d.(dci_PayloadSizeBits) + 7) 8) ∧
  zlen d.(dci_Payload) <= DCI_PAYLOAD_BYTE_LEN ∧ Forall is_u8 d.(dci_Payload).

Lemma codec_dci d : dci_ok d → codec (pack_dci_pdu d) unpack_dci_pdu (λ _ d', d' = d).
Proof.
  intros H. unfold dci_ok in H. wf H. unfold pack_dci_pdu, unpack_dci_pdu.
  repeat codec_step. by destruct d.
Qed.
#[export] Hint Resolve codec_dci : codec.

(** the part of a PDCCH PDU that UL_DCI.request has as well *)
Definition coreset_ok (v : pdcch_pdu_rel15) : Prop :=
  Forall is_u8 [v.(pdcch_SubcarrierSpacing); v.(pdcch_CyclicPrefix); v.(pdcch_StartSymbolIndex);
    v.(pdcch_DurationSymbols); v.(pdcch_CceRegMappingType); v.(pdcch_RegBundleSize);
    v.(pdcch_InterleaverSize); v.(pdcch_CoreSetType); v.(pdcch_precoderGranularity)] ∧
  Forall is_u16 [v.(pdcch_BWPSize); v.(pdcch_BWPStart); v.(pdcch_ShiftIndex); v.(pdcch_numDlDci)] ∧
  6 = zlen v.(pdcch_FreqDomainResource) ∧ Forall is_u8 v.(pdcch_FreqDomainResource) ∧
  v.(pdcch_numDlDci) = zlen v.(pdcch_dci_pdu) ∧ zlen v.(pdcch_dci_pdu) <= MAX_DCI_CORESET ∧
  ∀ d, d ∈ v.(pdcch_dci_pdu) → dci_ok d.
Definition pdcch_ok (v : pdcch_pdu_rel15) : Prop :=
  coreset_ok v ∧ is_u16 v.(pdcch_numSpatialStreams) ∧
  v.(pdcch_numSpatialStreams) = zlen v.(pdcch_dci_spatialStreamIndices) ∧
  zlen v.(pdcch_dci_spatialStreamIndices) <= MAX_NUM_SPATIAL_STREAMS ∧
  ∀ s, s ∈ v.(pdcch_dci_spatialStreamIndices) → is_u16 s.1 ∧ is_u16 s.2.

Lemma codec_pair16 (s : Z * Z) : is_u16 s.1 ∧ is_u16 s.2 →
  codec (push16 s.1;; push16 s.2;; mret tt) (a ← pull16; b ← pull16; mret (a, b)) (λ _ s', s' = s).
Proof. intros H. wf H. repeat codec_step. by destruct s. Qed.
#[export] Hint Resolve codec_pair16 : codec.

Lemma codec_pdcch v : pdcch_ok v →
  codec (pack_dl_tti_pdcch_pdu_rel15_value v) unpack_dl_tti_pdcch_pdu_rel15_value (λ _ v', v' = v).
Proof.
  intros H. unfold pdcch_ok, coreset_ok in H. wf H.
  unfold pack_dl_tti_pdcch_pdu_rel15_value, unpack_dl_tti_pdcch_pdu_rel15_value.
  repeat codec_step. by destruct v.
Qed.

(** ** PDSCH *)
Definition ss_ok (ss : spatial_stream_index) : Prop :=
  is_u8 ss.(numSpatialStreamIndices) ∧ ss.(numSpatialStreamIndices) = zlen ss.(spatialStreamIndices) ∧
  ss.(numSpatialStreamIndices) <= MAX_NUM_SPATIAL_STREAMS ∧ Forall is_u16 ss.(spatialStreamIndices).

Lemma codec_ss ss : ss_ok ss →
  codec (pack_spatial_stream_indices ss) unpack_spatial_stream_indices (λ _ ss', ss' = ss).
Proof.
  intros H. unfold ss_ok in H. wf H. unfold pack_spatial_stream_indices, unpack_spatial_stream_indices.
  repeat codec_step. by destruct ss.
Qed.
#[export] Hint Resolve codec_ss : codec.

Definition codeword_ok (c : codeword) : Prop :=
  is_u16 (cw_targetCodeRate c) ∧ Forall is_u8 [cw_qamModOrder c; cw_mcsIndex c; cw_mcsTable c; cw_rvIndex c] ∧
  is_u32 (cw_TBSize c).

Definition pdsch_ok (v : pdsch_pdu_rel15) : Prop :=
  Forall is_u8 [v.(pdsch_SubcarrierSpacing); v.(pdsch_CyclicPrefix); v.(pdsch_NrOfCodewords);
    v.(pdsch_nrOfLayers); v.(pdsch_transmissionScheme); v.(pdsch_refPoint); v.(pdsch_dmrsConfigType);
    v.(pdsch_SCID); v.(pdsch_numDmrsCdmGrpsNoData); v.(pdsch_resourceAlloc); v.(pdsch_VRBtoPRBMapping);
    v.(pdsch_StartSymbolIndex); v.(pdsch_NrOfSymbols); v.(pdsch_powerControlOffset);
    v.(pdsch_powerControlOffsetSS); v.(pdsch_ldpcBaseGraph); v.(pdsch_numberCodewords)] ∧
  Forall is_u16 [v.(pdsch_pduBitmap); v.(pdsch_rnti); v.(pdsch_pduIndex); v.(pdsch_BWPSize);
    v.(pdsch_BWPStart); v.(pdsch_dataScramblingId); v.(pdsch_dlDmrsSymbPos);
    v.(pdsch_dlDmrsScramblingId); v.(pdsch_dmrsPorts); v.(pdsch_rbStart); v.(pdsch_rbSize)] ∧
  is_u32 v.(pdsch_tbSizeLbrmBytes) ∧
  (∃ cws : list codeword, v.(pdsch_targetCodeRate) = cw_targetCodeRate <$> cws ∧
     v.(pdsch_qamModOrder) = cw_qamModOrder <$> cws ∧ v.(pdsch_mcsIndex) = cw_mcsIndex <$> cws ∧
     v.(pdsch_mcsTable) = cw_mcsTable <$> cws ∧ v.(pdsch_rvIndex) = cw_rvIndex <$> cws ∧
     v.(pdsch_TBSize) = cw_TBSize <$> cws ∧ v.(pdsch_NrOfCodewords) = zlen cws ∧ zlen cws <= 2 ∧
     ∀ c, c ∈ cws → codeword_ok c) ∧
  36 = zlen v.(pdsch_rbBitmap) ∧ Forall is_u8 v.(pdsch_rbBitmap) ∧
  (flag v.(pdsch_pduBitmap) 1 = true →
     Forall is_u8 [v.(pdsch_PTRSPortIndex); v.(pdsch_PTRSTimeDensity); v.(pdsch_PTRSFreqDensity);
       v.(pdsch_PTRSReOffset); v.(pdsch_nEpreRatioOfPDSCHToPTRS)]) ∧
  tx_beamforming_ok v.(pdsch_precodingAndBeamforming) ∧
  (flag v.(pdsch_pduBitmap) 2 = true →
     Forall is_u8 [v.(pdsch_isLastCbPresent); v.(pdsch_isInlineTbCrc)] ∧ is_u32 v.(pdsch_dlTbCrc)) ∧
  v.(pdsch_numberCodewords) = zlen v.(pdsch_spatialStreamsCw) ∧
  zlen v.(pdsch_spatialStreamsCw) <= MAX_NUM_CODEWORDS ∧ ∀ ss, ss ∈ v.(pdsch_spatialStreamsCw) → ss_ok ss.

(** the parameters that the bitmap does not announce keep what the destination held *)
Definition pdsch_arrives (old v : pdsch_pdu_rel15) : pdsch_pdu_rel15 :=
  let ptrs := if flag v.(pdsch_pduBitmap) 1 then v else old in
  let cbg := if flag v.(pdsch_pduBitmap) 2 then v else old in
  mk_pdsch
    v.(pdsch_pduBitmap) v.(pdsch_rnti) v.(pdsch_pduIndex) v.(pdsch_BWPSize)
    v.(pdsch_BWPStart) v.(pdsch_SubcarrierSpacing) v.(pdsch_CyclicPrefix) v.(pdsch_NrOfCodewords)
    v.(pdsch_targetCodeRate) v.(pdsch_qamModOrder) v.(pdsch_mcsIndex) v.(pdsch_mcsTable) v.(pdsch_rvIndex)
    v.(pdsch_TBSize) v.(pdsch_dataScramblingId) v.(pdsch_nrOfLayers) v.(pdsch_transmissionScheme)
    v.(pdsch_refPoint) v.(pdsch_dlDmrsSymbPos) v.(pdsch_dmrsConfigType) v.(pdsch_dlDmrsScramblingId)
    v.(pdsch_SCID) v.(pdsch_numDmrsCdmGrpsNoData) v.(pdsch_dmrsPorts) v.(pdsch_resourceAlloc)
    v.(pdsch_rbBitmap) v.(pdsch_rbStart) v.(pdsch_rbSize) v.(pdsch_VRBtoPRBMapping)
    v.(pdsch_StartSymbolIndex) v.(pdsch_NrOfSymbols) ptrs.(pdsch_PTRSPortIndex) ptrs.(pdsch_PTRSTimeDensity)
    ptrs.(pdsch_PTRSFreqDensity) ptrs.(pdsch_PTRSReOffset) ptrs.(pdsch_nEpreRatioOfPDSCHToPTRS)
    v.(pdsch_precodingAndBeamforming) v.(pdsch_powerControlOffset) v.(pdsch_powerControlOffsetSS)
    cbg.(pdsch_isLastCbPresent) cbg.(pdsch_isInlineTbCrc) cbg.(pdsch_dlTbCrc) v.(pdsch_ldpcBaseGraph)
    v.(pdsch_tbSizeLbrmBytes) v.(pdsch_numberCodewords) v.(pdsch_spatialStreamsCw).

Lemma lookup_fmap_at {A B} (f : A → B) (l : list A) j x :
  l !! j = Some x → (f <$> l) !! Z.to_nat (Z.of_nat j) = Some (f x).
Proof. intros H. by rewrite Nat2Z.id, list_lookup_fmap, H. Qed.

Lemma codec_codewords cws cap n (R Q M T V S : list Z) :
  n = zlen cws → zlen cws <= cap → (∀ c, c ∈ cws → codeword_ok c) →
  R = cw_targetCodeRate <$> cws → Q = cw_qamModOrder <$> cws → M = cw_mcsIndex <$> cws →
  T = cw_mcsTable <$> cws → V = cw_rvIndex <$> cws → S = cw_TBSize <$> cws →
  codec
    (pack_for n (λ i,
       x ← elem R i; push16 x;; x ← elem Q i; push8 x;; x ← elem M i; push8 x;;
       x ← elem T i; push8 x;; x ← elem V i; push8 x;; x ← elem S i; push32 x;; mret tt))
    (unpack_for cap n (λ _,
       r ← pull16; q ← pull8; m ← pull8; t ← pull8; v ← pull8; s ← pull32; mret (r, q, m, t, v, s)))
    (λ _ l, l = cws).
Proof.
  intros Hn Hc Hok -> -> -> -> -> ->.
  eapply codec_weaken; [apply (codec_for cws cap n _ _ (λ _ c _ y, y = c) Hn Hc)|].
  - intros j c Hj. assert (codeword_ok c) as H by (apply Hok; by eapply list_elem_of_lookup_2).
    unfold codeword_ok in H. wf H.
    do 6 (eapply codec_elem; [exact (lookup_fmap_at _ _ _ _ Hj)|]; codec_step).
    apply codec_ret. by destruct c as [[[[[? ?] ?] ?] ?] ?].
  - cbn beta. intros la lb (Ha & Hb & H). apply list_eq_same_length with (length cws); [lia..|].
    intros j y x Hj Hy Hx. destruct (lookup_lt_is_Some_2 la j) as [a Hla]; [lia|].
    exact (H j x a y Hx Hla Hy).
Qed.

Lemma codec_pdsch_ptrs old v :
  (flag v.(pdsch_pduBitmap) 1 = true →
     Forall is_u8 [v.(pdsch_PTRSPortIndex); v.(pdsch_PTRSTimeDensity); v.(pdsch_PTRSFreqDensity);
       v.(pdsch_PTRSReOffset); v.(pdsch_nEpreRatioOfPDSCHToPTRS)]) →
  codec (pack_pdsch_ptrs v) (unpack_pdsch_ptrs old v.(pdsch_pduBitmap))
    (λ _ y, y = let w := if flag v.(pdsch_pduBitmap) 1 then v else old in
                (w.(pdsch_PTRSPortIndex), w.(pdsch_PTRSTimeDensity), w.(pdsch_PTRSFreqDensity),
                 w.(pdsch_PTRSReOffset), w.(pdsch_nEpreRatioOfPDSCHToPTRS))).
Proof.
  unfold pack_pdsch_ptrs, unpack_pdsch_ptrs. destruct (flag _ _); intros H; [|by apply codec_ret].
  specialize (H eq_refl). wf H. repeat codec_step. done.
Qed.

Lemma codec_pdsch_cbg old v :
  (flag v.(pdsch_pduBitmap) 2 = true →
     Forall is_u8 [v.(pdsch_isLastCbPresent); v.(pdsch_isInlineTbCrc)] ∧ is_u32 v.(pdsch_dlTbCrc)) →
  codec (pack_pdsch_cbg v) (unpack_pdsch_cbg old v.(pdsch_pduBitmap))
    (λ _ y, y = let w := if flag v.(pdsch_pduBitmap) 2 then v else old in
                (w.(pdsch_isLastCbPresent), w.(pdsch_isInlineTbCrc), w.(pdsch_dlTbCrc))).
Proof.
  unfold pack_pdsch_cbg, unpack_pdsch_cbg. destruct (flag _ _); intros H; [|by apply codec_ret].
  specialize (H eq_refl). wf H. repeat codec_step. done.
Qed.

Lemma codec_pdsch old v : pdsch_ok v →
  codec (pack_dl_tti_pdsch_pdu_rel15_value v) (unpack_dl_tti_pdsch_pdu_rel15_value old)
    (λ _ v', v' = pdsch_arrives old v).
Proof.
  intros (H8 & H16 & H32 & (cws & HR & HQ & HM & HT & HV & HS & Hn & Hn2 & Hcw) & H).
  wf H8. wf H16. destruct_and? H.
  unfold pack_dl_tti_pdsch_pdu_rel15_value, unpack_dl_tti_pdsch_pdu_rel15_value. repeat codec_step.
  eapply codec_bind; [apply (codec_codewords cws); (done || lia)|intros _ ? ->]. repeat codec_step.
  eapply codec_bind; [by apply codec_pdsch_ptrs|intros _ ? ->]. cbv beta iota zeta. repeat codec_step.
  eapply codec_bind; [by apply codec_pdsch_cbg|intros _ ? ->]. cbv beta iota zeta. repeat codec_step.
  unfold pdsch_arrives. by rewrite HR, HQ, HM, HT, HV, HS.
Qed.

(** ** SSB *)

(** the BCH payload has 24 bits *)
Definition ssb_ok (v : ssb_pdu_rel15) : Prop :=
  Forall is_u16 [v.(ssb_PhysCellId); v.(ssb_ssbOffsetPointA); v.(ssb_spatialStreamIndex)] ∧
  Forall is_u8 [v.(ssb_BetaPss); v.(ssb_SsbBlockIndex); v.(ssb_SsbSubcarrierOffset); v.(ssb_bchPayloadFlag);
    v.(ssb_spatialStreamIndexPresent)] ∧
  0 <= v.(ssb_bchPayload) < 2 ^ 24 ∧ tx_beamforming_ok v.(ssb_precoding_and_beamforming).
(** the measured power is not transmitted *)
Definition ssb_arrives (old v : ssb_pdu_rel15) : ssb_pdu_rel15 :=
  mk_ssb v.(ssb_PhysCellId) v.(ssb_BetaPss) v.(ssb_SsbBlockIndex) v.(ssb_SsbSubcarrierOffset)
    v.(ssb_ssbOffsetPointA) v.(ssb_bchPayloadFlag) v.(ssb_bchPayload) old.(ssb_ssbRsrp)
    v.(ssb_precoding_and_beamforming) v.(ssb_spatialStreamIndexPresent) v.(ssb_spatialStreamIndex).

Lemma u24_octets x :
  let a := Z.land (Z.shiftr x 16) 0xff in let b := Z.land (Z.shiftr x 8) 0xff in let c := Z.land x 0xff in
  is_byte a ∧ is_byte b ∧ is_byte c ∧
  (0 <= x < 2 ^ 24 → Z.lor (Z.lor (Z.shiftl a 16) (Z.shiftl b 8)) c = x).
Proof.
  cbn zeta. rewrite !octet_at_0, !Z.shiftr_div_pow2 by lia.
  pose proof (mod8_byte (x / 2 ^ 16)) as Ha. pose proof (mod8_byte (x / 2 ^ 8)) as Hb.
  pose proof (mod8_byte x) as Hc. split_and!; [done..|]. intros Hx. unfold is_byte in *.
  set (a := (x / 2 ^ 16) mod 2 ^ 8) in *.
  replace (Z.shiftl a 16) with (Z.shiftl (Z.shiftl a 8) 8) by by rewrite Z.shiftl_shiftl.
  rewrite <- Z.shiftl_lor, !lor_shiftl_add by lia. subst a.
  change (2 ^ 24) with 16777216 in Hx. change (2 ^ 16) with 65536. change (2 ^ 8) with 256.
  Z.to_euclidean_division_equations. lia.
Qed.

Lemma codec_ssb old v : ssb_ok v →
  codec (pack_dl_tti_ssb_pdu_rel15_value v) (unpack_dl_tti_ssb_pdu_rel15_value old)
    (λ _ v', v' = ssb_arrives old v).
Proof.
  intros H. unfold ssb_ok in H. wf H. destruct (u24_octets v.(ssb_bchPayload)) as (Ha & Hb & Hc & Hx).
  assert (is_u8 0) by done.
  unfold pack_dl_tti_ssb_pdu_rel15_value, unpack_dl_tti_ssb_pdu_rel15_value.
  repeat codec_step. cbn zeta. rewrite Hx by done. repeat codec_step. done.
Qed.

(** ** DL_TTI.request *)

(** the type of a PDU says which member of the union it has *)
Definition dl_pdu_ok (v : dl_tti_request_pdu) : Prop :=
  match v.(dl_body) with
  | pdcch_pdu p => v.(dl_PDUType) = NFAPI_NR_DL_TTI_PDCCH_PDU_TYPE ∧ pdcch_ok p
  | pdsch_pdu p => v.(dl_PDUType) = NFAPI_NR_DL_TTI_PDSCH_PDU_TYPE ∧ pdsch_ok p
  | csi_rs_pdu p => v.(dl_PDUType) = NFAPI_NR_DL_TTI_CSI_RS_PDU_TYPE ∧ csi_rs_ok p
  | ssb_pdu p => v.(dl_PDUType) = NFAPI_NR_DL_TTI_SSB_PDU_TYPE ∧ ssb_ok p
  end.
Definition dl_body_arrives (old : dl_pdu_memory) (b : dl_tti_pdu_body) : dl_tti_pdu_body :=
  match b with
  | pdsch_pdu p => pdsch_pdu (pdsch_arrives old.(mem_pdsch) p)
  | ssb_pdu p => ssb_pdu (ssb_arrives old.(mem_ssb) p)
  | _ => b
  end.
Definition dl_pdu_arrives (old : dl_pdu_memory) (v : dl_tti_request_pdu) : dl_tti_request_pdu :=
  mk_dl_pdu v.(dl_PDUType) (Z.lor (Z.land old.(mem_PDUSize) 0xFFFF0000) v.(dl_PDUSize))
    (dl_body_arrives old v.(dl_body)).
(** packing a PDU changes nothing but its size *)
Definition dl_pdu_same (v v' : dl_tti_request_pdu) : Prop :=
  v'.(dl_PDUType) = v.(dl_PDUType) ∧ v'.(dl_body) = v.(dl_body).

Lemma codec_dl_body old v : dl_pdu_ok v →
  codec (pack_dl_tti_body v.(dl_PDUType) v.(dl_body)) (unpack_dl_tti_body old v.(dl_PDUType))
    (λ _ b, b = dl_body_arrives old v.(dl_body)).
Proof.
  unfold dl_pdu_ok, pack_dl_tti_body, unpack_dl_tti_body.
  destruct (dl_body v) as [p|p|p|p]; intros (-> & Hp); cbn -[codec]; apply codec_map;
    (eapply codec_weaken; [first [by apply codec_pdcch | by apply codec_pdsch | by apply codec_csi_rs | by apply codec_ssb]|]);
    intros a b Hb; cbn in Hb |- *; by rewrite Hb.
Qed.

Lemma codec_dl_pdu old v : dl_pdu_ok v →
  codec (pack_dl_tti_request_body_value v) (unpack_dl_tti_request_body_value old)
    (λ v' w, dl_pdu_same v v' ∧ w = dl_pdu_arrives old v').
Proof.
  intros Hv. assert (is_u16 v.(dl_PDUType)) as Ht.
  { unfold dl_pdu_ok in Hv. destruct (dl_body v); destruct Hv as (-> & _); done. }
  unfold pack_dl_tti_request_body_value, unpack_dl_tti_request_body_value.
  apply codec_map_l, (codec_patch _ _ _ (λ t s, b ← unpack_dl_tti_body old t; mret (mk_dl_pdu t _ b))); [done|].
  intros len Hlen. apply codec_map. eapply codec_weaken; [by apply codec_dl_body|].
  intros a b Hb. cbn in Hb |- *. by rewrite Hb.
Qed.
#[local] Hint Resolve codec_dl_pdu : codec.

(** A request with groups arrives only if no group has a UE ([dl_groups_differ] below). *)
Definition dl_tti_ok (m : dl_tti_request) : Prop :=
  Forall is_u16 [m.(dl_SFN); m.(dl_Slot)] ∧ Forall is_u8 [m.(dl_nPDUs); m.(dl_nGroup)] ∧
  m.(dl_nPDUs) = zlen m.(dl_tti_pdu_list) ∧ zlen m.(dl_tti_pdu_list) <= NFAPI_NR_MAX_DL_TTI_PDUS ∧
  (∀ v, v ∈ m.(dl_tti_pdu_list) → dl_pdu_ok v) ∧
  m.(dl_nGroup) = zlen m.(dl_nUe) ∧ Forall (eq 0) m.(dl_nUe) ∧ m.(dl_PduIdx) = (λ _, []) <$> m.(dl_nUe).
(** what packing leaves of the message: all but the sizes is as before *)
Definition dl_tti_same (m m' : dl_tti_request) : Prop :=
  ∃ l, m' = mk_dl_tti_request m.(dl_SFN) m.(dl_Slot) m.(dl_nPDUs) m.(dl_nGroup) l m.(dl_nUe) m.(dl_PduIdx) ∧
       Forall2 dl_pdu_same m.(dl_tti_pdu_list) l.
Definition dl_tti_arrives (old : Z → dl_pdu_memory) (m : dl_tti_request) : dl_tti_request :=
  mk_dl_tti_request m.(dl_SFN) m.(dl_Slot) m.(dl_nPDUs) m.(dl_nGroup)
    (imap (λ j p, dl_pdu_arrives (old (Z.of_nat j)) p) m.(dl_tti_pdu_list)) m.(dl_nUe) m.(dl_PduIdx).

Lemma codec_empty_groups (nUe : list Z) (idx : list (list Z)) n : n = zlen nUe → n < 256 →
  Forall (eq 0) nUe →
  codec
    (pack_for n (λ i, k ← elem nUe i; push8 k;;
       pack_for k (λ j, idxs ← elem idx i; idx ← elem idxs j; push32 idx);; mret tt))
    (unpack_for 256 n (λ _, k ← pull8; check_count k 12;; idxs ← unpack_for 12 k (λ _, pull8); mret (k, idxs)))
    (λ _ l, l = (λ k, (k, [])) <$> nUe).
Proof.
  intros Hn Hb Hz. eapply codec_weaken; [apply (codec_for nUe 256 n _ _ (λ _ k _ y, y = (k, []))); [done|lia|]|].
  - intros j k Hj. assert (0 = k) as <- by exact (Forall_lookup_1 _ _ _ _ Hz Hj).
    eapply codec_elem; [rewrite Nat2Z.id; exact Hj|]. assert (is_u8 0) by done. codec_step.
    apply codec_check; [done|]. cbn. by apply codec_ret.
  - cbn beta. intros la lb (Ha & Hlb & H). apply list_eq. intros j. rewrite list_lookup_fmap.
    destruct (nUe !! j) as [x|] eqn:Hx; [|by apply lookup_ge_None; apply lookup_ge_None in Hx; lia].
    pose proof (lookup_lt_Some _ _ _ Hx) as Hj.
    destruct (lookup_lt_is_Some_2 la j) as [a Hla]; [lia|].
    destruct (lookup_lt_is_Some_2 lb j) as [b Hl]; [lia|].
    rewrite Hl. cbn. f_equal. exact (H _ _ _ _ Hx Hla Hl).
Qed.

Lemma codec_dl_tti old m : dl_tti_ok m →
  codec (pack_dl_tti_request m) (unpack_dl_tti_request old)
    (λ m' w, dl_tti_same m m' ∧ w = dl_tti_arrives old m').
Proof.
  intros H. unfold dl_tti_ok in H. wf H. unfold pack_dl_tti_request, unpack_dl_tti_request.
  repeat codec_step.
  eapply codec_bind; [apply (codec_for_imap _ _ _ _ _ dl_pdu_same (λ i, dl_pdu_arrives (old i))); auto using codec_dl_pdu|].
  intros l ? [Hl ->].
  eapply codec_bind; [apply codec_empty_groups; [done| |done]|intros _ ? ->].
  { rename select (is_u8 (dl_nGroup m)) into Hg. unfold is_u8, is_byte in Hg. lia. }
  apply codec_ret. split; [by exists l|]. unfold dl_tti_arrives. cbn. f_equal.
  - rewrite <- list_fmap_compose. by rewrite list_fmap_id.
  - rename select (dl_PduIdx m = _) into Hi. by rewrite Hi, <- list_fmap_compose.
Qed.

(** ** UL_DCI.request *)
Definition ul_dci_pdu_ok (v : ul_dci_request_pdus) : Prop :=
  is_u16 v.(udci_PDUType) ∧ coreset_ok v.(udci_pdcch_pdu).
Definition ul_dci_pdu_arrives (old : pdcch_pdu_rel15) (v : ul_dci_request_pdus) : ul_dci_request_pdus :=
  let p := v.(udci_pdcch_pdu) in
  mk_ul_dci_pdu v.(udci_PDUType) v.(udci_PDUSize) (mk_pdcch
    p.(pdcch_BWPSize) p.(pdcch_BWPStart) p.(pdcch_SubcarrierSpacing) p.(pdcch_CyclicPrefix)
    p.(pdcch_StartSymbolIndex) p.(pdcch_DurationSymbols) p.(pdcch_FreqDomainResource)
    p.(pdcch_CceRegMappingType) p.(pdcch_RegBundleSize) p.(pdcch_InterleaverSize) p.(pdcch_CoreSetType)
    p.(pdcch_ShiftIndex) p.(pdcch_precoderGranularity) p.(pdcch_numDlDci) p.(pdcch_dci_pdu)
    old.(pdcch_numSpatialStreams) old.(pdcch_dci_spatialStreamIndices)).
Definition ul_dci_pdu_same (v v' : ul_dci_request_pdus) : Prop :=
  v'.(udci_PDUType) = v.(udci_PDUType) ∧ v'.(udci_pdcch_pdu) = v.(udci_pdcch_pdu).

Lemma codec_ul_dci_pdu old v : ul_dci_pdu_ok v →
  codec (pack_ul_dci_pdu_list_value v) (unpack_ul_dci_pdu_list_value old)
    (λ v' w, ul_dci_pdu_same v v' ∧ w = ul_dci_pdu_arrives old v').
Proof.
  intros [Ht H]. unfold coreset_ok in H. wf H.
  unfold pack_ul_dci_pdu_list_value, unpack_ul_dci_pdu_list_value.
  apply codec_map_l, codec_patch; [done|]. intros len Hlen. repeat codec_step.
  apply codec_map. eapply codec_weaken.
  { apply (codec_for_list (pdcch_dci_pdu (udci_pdcch_pdu v))); auto using codec_dci. }
  intros a b Hb. cbn in Hb |- *. by rewrite Hb.
Qed.

Definition ul_dci_ok (m : ul_dci_request) : Prop :=
  Forall is_u16 [m.(udci_SFN); m.(udci_Slot)] ∧ is_u8 m.(udci_numPdus) ∧
  m.(udci_numPdus) = zlen m.(ul_dci_pdu_list) ∧ zlen m.(ul_dci_pdu_list) <= NFAPI_NR_MAX_NB_CORESETS ∧
  ∀ v, v ∈ m.(ul_dci_pdu_list) → ul_dci_pdu_ok v.
Definition ul_dci_same (m m' : ul_dci_request) : Prop :=
  ∃ l, m' = mk_ul_dci_request m.(udci_SFN) m.(udci_Slot) m.(udci_numPdus) l ∧
       Forall2 ul_dci_pdu_same m.(ul_dci_pdu_list) l.
Definition ul_dci_arrives (old : Z → pdcch_pdu_rel15) (m : ul_dci_request) : ul_dci_request :=
  mk_ul_dci_request m.(udci_SFN) m.(udci_Slot) m.(udci_numPdus)
    (imap (λ j p, ul_dci_pdu_arrives (old (Z.of_nat j)) p) m.(ul_dci_pdu_list)).

Lemma codec_ul_dci old m : ul_dci_ok m →
  codec (pack_ul_dci_request m) (unpack_ul_dci_request old)
    (λ m' w, ul_dci_same m m' ∧ w = ul_dci_arrives old m').
Proof.
  intros H. unfold ul_dci_ok in H. wf H. unfold pack_ul_dci_request, unpack_ul_dci_request.
  repeat codec_step.
  eapply codec_bind; [apply (codec_for_imap _ _ _ _ _ ul_dci_pdu_same (λ i, ul_dci_pdu_arrives (old i))); auto using codec_ul_dci_pdu|].
  intros l ? [Hl ->]. apply codec_ret. split; [by exists l|done].
Qed.

(** ** TX_DATA.request *)

(** the payload is in the message (tag 0) or at a pointer (tag 1) *)
Definition tlv_ok (v : tx_data_request_tlv) : Prop :=
  (v.(tlv_tag) = 0 ∨ v.(tlv_tag) = 1) ∧ is_u32 v.(tlv_length) ∧ Forall is_u32 v.(tlv_value) ∧
  Z.quot (u32 (v.(tlv_length) + 3)) 4 = zlen v.(tlv_value) ∧ zlen v.(tlv_value) <= TLV_DIRECT_WORDS.
(** either way it arrives in the message *)
Definition tlv_arrives (v : tx_data_request_tlv) : tx_data_request_tlv := mk_tlv 0 v.(tlv_length) v.(tlv_value).
Definition tx_pdu_ok (v : tx_data_pdu) : Prop :=
  Forall is_u32 [v.(PDU_length); v.(num_TLV)] ∧ is_u16 v.(PDU_index) ∧ v.(num_TLV) = zlen v.(TLVs) ∧
  zlen v.(TLVs) <= NFAPI_NR_MAX_TX_REQUEST_TLV ∧ ∀ t, t ∈ v.(TLVs) → tlv_ok t.
Definition tx_pdu_arrives (v : tx_data_pdu) : tx_data_pdu :=
  mk_tx_pdu v.(PDU_length) v.(PDU_index) v.(num_TLV) (tlv_arrives <$> v.(TLVs)).
Definition tx_data_ok (m : tx_data_request) : Prop :=
  Forall is_u16 [m.(tx_SFN); m.(tx_Slot); m.(Number_of_PDUs)] ∧ m.(Number_of_PDUs) = zlen m.(tx_pdu_list) ∧
  zlen m.(tx_pdu_list) <= NFAPI_NR_MAX_TX_REQUEST_PDUS ∧ ∀ v, v ∈ m.(tx_pdu_list) → tx_pdu_ok v.
Definition tx_data_arrives (m : tx_data_request) : tx_data_request :=
  mk_tx_data m.(tx_SFN) m.(tx_Slot) m.(Number_of_PDUs) (tx_pdu_arrives <$> m.(tx_pdu_list)).

Lemma codec_tlv v o : tlv_ok v →
  codec (pack_tx_data_tlv v o) unpack_tx_data_tlv (λ o' v', o' = o ∧ v' = tlv_arrives v).
Proof.
  intros H. unfold tlv_ok in H. wf H. assert (is_u16 0) by done.
  unfold pack_tx_data_tlv, unpack_tx_data_tlv.
  replace (if tlv_tag v =? 2 then 2 else 0) with 0 by (rename select (_ ∨ _) into Ht; destruct Ht as [-> | ->]; done).
  replace ((tlv_tag v =? 0) || (tlv_tag v =? 1)) with true by (rename select (_ ∨ _) into Ht; destruct Ht as [-> | ->]; done).
  codec_step. codec_step. cbn zeta. cbn [Z.eqb orb]. codec_step. by apply codec_ret.
Qed.

Lemma codec_tx_pdu v o : tx_pdu_ok v →
  codec (pack_tx_data_pdu_list_value v o) unpack_tx_data_pdu_list_value (λ o' v', o' = o ∧ v' = tx_pdu_arrives v).
Proof.
  intros H. unfold tx_pdu_ok in H. wf H.
  unfold pack_tx_data_pdu_list_value, unpack_tx_data_pdu_list_value. repeat codec_step.
  apply codec_map. eapply codec_weaken; [apply (codec_thread _ _ _ _ _ _ tlv_arrives); auto using codec_tlv|].
  cbn. by intros ? ? [-> ->].
Qed.

Lemma codec_tx_data m : tx_data_ok m →
  codec (pack_tx_data_request m) unpack_tx_data_request (λ _ w, w = tx_data_arrives m).
Proof.
  intros H. unfold tx_data_ok in H. wf H. unfold pack_tx_data_request, unpack_tx_data_request.
  repeat codec_step.
  eapply codec_bind; [apply (codec_thread _ _ _ _ _ _ tx_pdu_arrives); auto using codec_tx_pdu|].
  intros _ ? [_ ->]. by apply codec_ret.
Qed.

(** ** No octet behind the end of the buffer *)
Lemma bounded_dci_payload l n : bounded (pack_dci_payload l n).
Proof. apply bounded_array8. Qed.
Lemma bounded_tx_beamforming v : bounded (pack_nr_tx_beamforming_pdu v).
Proof. unfold pack_nr_tx_beamforming_pdu. bounded_steps. Qed.
#[export] Hint Resolve bounded_dci_payload bounded_tx_beamforming : bounded.
Lemma bounded_dci d : bounded (pack_dci_pdu d).
Proof. unfold pack_dci_pdu. bounded_steps. Qed.
Lemma bounded_ss ss : bounded (pack_spatial_stream_indices ss).
Proof. unfold pack_spatial_stream_indices. bounded_steps. Qed.
#[export] Hint Resolve bounded_dci bounded_ss : bounded.
Lemma bounded_csi_rs v : bounded (pack_dl_tti_csi_rs_pdu_rel15_value v).
Proof. unfold pack_dl_tti_csi_rs_pdu_rel15_value. bounded_steps. Qed.
Lemma bounded_pdcch v : bounded (pack_dl_tti_pdcch_pdu_rel15_value v).
Proof. unfold pack_dl_tti_pdcch_pdu_rel15_value. bounded_steps. Qed.
Lemma bounded_pdsch v : bounded (pack_dl_tti_pdsch_pdu_rel15_value v).
Proof. unfold pack_dl_tti_pdsch_pdu_rel15_value, pack_pdsch_ptrs, pack_pdsch_cbg. bounded_steps. Qed.
Lemma bounded_ssb v : bounded (pack_dl_tti_ssb_pdu_rel15_value v).
Proof. unfold pack_dl_tti_ssb_pdu_rel15_value. bounded_steps. Qed.
#[local] Hint Resolve bounded_csi_rs bounded_pdcch bounded_pdsch bounded_ssb : bounded.
Lemma bounded_dl_tti m : bounded (pack_dl_tti_request m).
Proof. unfold pack_dl_tti_request, pack_dl_tti_request_body_value, pack_dl_tti_body. bounded_steps. Qed.
Lemma bounded_ul_dci m : bounded (pack_ul_dci_request m).
Proof. unfold pack_ul_dci_request, pack_ul_dci_pdu_list_value. bounded_steps. Qed.
Lemma bounded_tx_data m : bounded (pack_tx_data_request m).
Proof. unfold pack_tx_data_request, pack_tx_data_pdu_list_value, pack_tx_data_tlv. bounded_steps. Qed.

(** ** Any octets *)
Lemma reader_tx_beamforming : prefix_reader unpack_nr_tx_beamforming_pdu.
Proof. unfold unpack_nr_tx_beamforming_pdu. reader_steps. Qed.
#[local] Hint Resolve reader_tx_beamforming : reader.
Lemma reader_dci : prefix_reader unpack_dci_pdu.
Proof. unfold unpack_dci_pdu. reader_steps. Qed.
Lemma reader_ss : prefix_reader unpack_spatial_stream_indices.
Proof. unfold unpack_spatial_stream_indices. reader_steps. Qed.
#[export] Hint Resolve reader_dci reader_ss : reader.
Lemma reader_csi_rs : prefix_reader unpack_dl_tti_csi_rs_pdu_rel15_value.
Proof. unfold unpack_dl_tti_csi_rs_pdu_rel15_value. reader_steps. Qed.
Lemma reader_pdcch : prefix_reader unpack_dl_tti_pdcch_pdu_rel15_value.
Proof. unfold unpack_dl_tti_pdcch_pdu_rel15_value. reader_steps. Qed.
Lemma reader_pdsch old : prefix_reader (unpack_dl_tti_pdsch_pdu_rel15_value old).
Proof. unfold unpack_dl_tti_pdsch_pdu_rel15_value, unpack_pdsch_ptrs, unpack_pdsch_cbg. reader_steps. Qed.
Lemma reader_ssb old : prefix_reader (unpack_dl_tti_ssb_pdu_rel15_value old).
Proof. unfold unpack_dl_tti_ssb_pdu_rel15_value. reader_steps. Qed.
#[local] Hint Resolve reader_csi_rs reader_pdcch reader_pdsch reader_ssb : reader.
Lemma reader_dl_tti old : prefix_reader (unpack_dl_tti_request old).
Proof. unfold unpack_dl_tti_request, unpack_dl_tti_request_body_value, unpack_dl_tti_body. reader_steps. Qed.
Lemma reader_ul_dci old : prefix_reader (unpack_ul_dci_request old).
Proof. unfold unpack_ul_dci_request, unpack_ul_dci_pdu_list_value. reader_steps. Qed.
Lemma reader_tx_data : prefix_reader unpack_tx_data_request.
Proof.
  unfold unpack_tx_data_request, unpack_tx_data_pdu_list_value, unpack_tx_data_tlv. reader_steps.
Qed.

(** ** Groups *)

(** The packer writes the index of a PDU of a group with four octets, the unpacker reads one: a
    request whose group has a UE does not arrive, and three octets are left over. *)
Lemma dl_groups_differ : ∃ m bs w,
  dl_tti_ok (mk_dl_tti_request m.(dl_SFN) m.(dl_Slot) m.(dl_nPDUs) 0 m.(dl_tti_pdu_list) [] []) ∧
  m.(dl_nUe) = [1] ∧ m.(dl_PduIdx) = [[5]] ∧
  pack_dl_tti_request m 64 = Ok (Some (bs, m)) ∧
  (∀ old, unpack_dl_tti_request old bs = Ok (Some (w, [0; 0; 5]))) ∧ w.(dl_PduIdx) = [[0]].
Proof.
  exists (mk_dl_tti_request 100 7 0 1 [] [1] [[5]]), [0; 100; 0; 7; 0; 1; 1; 0; 0; 0; 5],
    (mk_dl_tti_request 100 7 0 1 [] [1] [[0]]).
  split_and!; [|done..]. unfold dl_tti_ok. cbn. repeat constructor; try done. intros v Hv. by apply elem_of_nil in Hv.
Qed.
