(* ===== verification/FapiUl.v ===== *)
(** * FAPI: UL_TTI.request

    UL_TTI.request of nr_fapi_p7.c with its PDUs (PRACH, PUSCH, PUCCH, SRS). Structures, arrays
    and the memory a message is unpacked into are represented as in [FapiDl]. *)

From S2P Require Import Prelude Fapi FapiDl.

Definition NFAPI_MAX_NUM_UL_UE_PER_GROUP : Z := 6.
Definition NFAPI_MAX_NUM_UL_PDU : Z := 255.
Definition NFAPI_MAX_NUM_GROUPS : Z := 8.
(** [cb_present_and_position[(NFAPI_MAX_NUM_CB + 7) / 8]] *)
Definition PUSCH_CB_OCTETS : Z := 1.

(** ** Receive beamforming *)
Record ul_beamforming : Type := mk_ul_beamforming {
  rx_trp_scheme : Z; rx_num_prgs : Z; rx_prg_size : Z; rx_dig_bf_interface : Z; rx_prgs_list : list (list Z)
}.

Definition pack_nr_rx_beamforming_pdu (v : ul_beamforming) : packer unit :=
  push8 v.(rx_trp_scheme);; push16 v.(rx_num_prgs);; push16 v.(rx_prg_size);; push8 v.(rx_dig_bf_interface);;
  pack_for v.(rx_num_prgs) (λ prg,
    pack_for v.(rx_dig_bf_interface) (λ i, p ← elem v.(rx_prgs_list) prg; b ← elem p i; push16 b));;
  mret tt.

Definition unpack_nr_rx_beamforming_pdu : unpacker ul_beamforming :=
  trp_scheme ← pull8; num_prgs ← pull16; prg_size ← pull16; dig_bf_interface ← pull8;
  check_count num_prgs NFAPI_MAX_NUM_PRGS;;
  check_count dig_bf_interface NFAPI_MAX_NUM_BG_IF;;
  prgs ← unpack_for NFAPI_MAX_NUM_PRGS num_prgs (λ _,
    unpack_for NFAPI_MAX_NUM_BG_IF dig_bf_interface (λ _, pull16));
  mret (mk_ul_beamforming trp_scheme num_prgs prg_size dig_bf_interface prgs).

(** ** PRACH *)

Record prach_pdu : Type := mk_prach {
  prach_phys_cell_id : Z; prach_num_prach_ocas : Z; prach_prach_format : Z; prach_num_ra : Z;
  prach_prach_start_symbol : Z; prach_num_cs : Z; prach_beamforming : ul_beamforming;
  prach_param_v4 : spatial_stream_index
}.

Definition pack_ul_tti_request_prach_pdu (v : prach_pdu) : packer unit :=
  push16 v.(prach_phys_cell_id);; push8 v.(prach_num_prach_ocas);; push8 v.(prach_prach_format);;
  push8 v.(prach_num_ra);; push8 v.(prach_prach_start_symbol);; push16 v.(prach_num_cs);;
  pack_nr_rx_beamforming_pdu v.(prach_beamforming);;
  pack_spatial_stream_indices v.(prach_param_v4);;
  mret tt.

Definition unpack_ul_tti_request_prach_pdu : unpacker prach_pdu :=
  phys_cell_id ← pull16; num_prach_ocas ← pull8; prach_format ← pull8; num_ra ← pull8;
  prach_start_symbol ← pull8; num_cs ← pull16;
  beamforming ← unpack_nr_rx_beamforming_pdu;
  param_v4 ← unpack_spatial_stream_indices;
  mret (mk_prach phys_cell_id num_prach_ocas prach_format num_ra prach_start_symbol num_cs beamforming param_v4).

(** ** PUSCH *)
Record pusch_data : Type := mk_pusch_data {
  rv_index : Z; harq_process_id : Z; new_data_indicator : Z; tb_size : Z; num_cb : Z;
  cb_present_and_position : list Z
}.
Record pusch_uci : Type := mk_pusch_uci {
  harq_ack_bit_length : Z; csi_part1_bit_length : Z; csi_part2_bit_length : Z; alpha_scaling : Z;
  beta_offset_harq_ack : Z; beta_offset_csi1 : Z; beta_offset_csi2 : Z
}.
Record ptrs_port : Type := mk_ptrs_port { ptrs_port_index : Z; ptrs_dmrs_port : Z; ptrs_re_offset : Z }.
Record pusch_ptrs : Type := mk_pusch_ptrs {
  num_ptrs_ports : Z; ptrs_ports_list : list ptrs_port; ptrs_time_density : Z; ptrs_freq_density : Z;
  ul_ptrs_power : Z
}.
Record dfts_ofdm : Type := mk_dfts_ofdm {
  low_papr_group_number : Z; low_papr_sequence_number : Z; ul_ptrs_sample_density : Z;
  ul_ptrs_time_density_transform_precoding : Z
}.

Record pusch_pdu : Type := mk_pusch {
  pusch_pdu_bit_map : Z; pusch_rnti : Z; pusch_handle : Z; pusch_bwp_size : Z; pusch_bwp_start : Z;
  pusch_subcarrier_spacing : Z; pusch_cyclic_prefix : Z; pusch_target_code_rate : Z;
  pusch_qam_mod_order : Z; pusch_mcs_index : Z; pusch_mcs_table : Z; pusch_transform_precoding : Z;
  pusch_data_scrambling_id : Z; pusch_nrOfLayers : Z; pusch_ul_dmrs_symb_pos : Z;
  pusch_dmrs_config_type : Z; pusch_ul_dmrs_scrambling_id : Z; pusch_pusch_identity : Z; pusch_scid : Z;
  pusch_num_dmrs_cdm_grps_no_data : Z; pusch_dmrs_ports : Z; pusch_resource_alloc : Z;
  pusch_rb_bitmap : list Z; pusch_rb_start : Z; pusch_rb_size : Z; pusch_vrb_to_prb_mapping : Z;
  pusch_frequency_hopping : Z; pusch_tx_direct_current_location : Z;
  pusch_uplink_frequency_shift_7p5khz : Z; pusch_start_symbol_index : Z; pusch_nr_of_symbols : Z;
  pusch_data_ : pusch_data; pusch_uci_ : pusch_uci; pusch_ptrs_ : pusch_ptrs; pusch_dfts_ofdm : dfts_ofdm;
  pusch_beamforming : ul_beamforming; pusch_ldpcBaseGraph : Z; pusch_tbSizeLbrmBytes : Z;
  pusch_param_v4 : spatial_stream_index
}.

Definition PUSCH_PDU_BITMAP_PUSCH_DATA : Z := 1.
Definition PUSCH_PDU_BITMAP_PUSCH_UCI : Z := 2.
Definition PUSCH_PDU_BITMAP_PUSCH_PTRS : Z := 4.
Definition PUSCH_PDU_BITMAP_DFTS_OFDM : Z := 8.

Definition pack_pusch_data (d : pusch_data) : packer unit :=
  push8 d.(rv_index);; push8 d.(harq_process_id);; push8 d.(new_data_indicator);; push32 d.(tb_size);;
  push16 d.(num_cb);;
  let cb_len := u16 (Z.quot (d.(num_cb) + 7) 8) in
  pusharray8 d.(cb_present_and_position) cb_len cb_len;;
  mret tt.
Definition pack_pusch_uci (u : pusch_uci) : packer unit :=
  push16 u.(harq_ack_bit_length);; push16 u.(csi_part1_bit_length);; push16 u.(csi_part2_bit_length);;
  push8 u.(alpha_scaling);; push8 u.(beta_offset_harq_ack);; push8 u.(beta_offset_csi1);;
  push8 u.(beta_offset_csi2);;
  mret tt.
Definition pack_pusch_ptrs (p : pusch_ptrs) : packer unit :=
  push8 p.(num_ptrs_ports);;
  pack_for p.(num_ptrs_ports) (λ i,
    x ← elem p.(ptrs_ports_list) i;
    push16 x.(ptrs_port_index);; push8 x.(ptrs_dmrs_port);; push8 x.(ptrs_re_offset);; mret tt);;
  push8 p.(ptrs_time_density);; push8 p.(ptrs_freq_density);; push8 p.(ul_ptrs_power);;
  mret tt.
Definition pack_dfts_ofdm (d : dfts_ofdm) : packer unit :=
  push8 d.(low_papr_group_number);; push16 d.(low_papr_sequence_number);; push8 d.(ul_ptrs_sample_density);;
  push8 d.(ul_ptrs_time_density_transform_precoding);;
  mret tt.

Definition pack_ul_tti_request_pusch_pdu (v : pusch_pdu) : packer unit :=
  push16 v.(pusch_pdu_bit_map);; push16 v.(pusch_rnti);; push32 v.(pusch_handle);;
  push16 v.(pusch_bwp_size);; push16 v.(pusch_bwp_start);; push8 v.(pusch_subcarrier_spacing);;
  push8 v.(pusch_cyclic_prefix);; push16 v.(pusch_target_code_rate);; push8 v.(pusch_qam_mod_order);;
  push8 v.(pusch_mcs_index);; push8 v.(pusch_mcs_table);; push8 v.(pusch_transform_precoding);;
  push16 v.(pusch_data_scrambling_id);; push8 v.(pusch_nrOfLayers);; push16 v.(pusch_ul_dmrs_symb_pos);;
  push8 v.(pusch_dmrs_config_type);; push16 v.(pusch_ul_dmrs_scrambling_id);;
  push16 v.(pusch_pusch_identity);; push8 v.(pusch_scid);; push8 v.(pusch_num_dmrs_cdm_grps_no_data);;
  push16 v.(pusch_dmrs_ports);; push8 v.(pusch_resource_alloc);; pusharray8 v.(pusch_rb_bitmap) 36 36;;
  push16 v.(pusch_rb_start);; push16 v.(pusch_rb_size);; push8 v.(pusch_vrb_to_prb_mapping);;
  push8 v.(pusch_frequency_hopping);; push16 v.(pusch_tx_direct_current_location);;
  push8 v.(pusch_uplink_frequency_shift_7p5khz);; push8 v.(pusch_start_symbol_index);;
  push8 v.(pusch_nr_of_symbols);;
  (if flag v.(pusch_pdu_bit_map) PUSCH_PDU_BITMAP_PUSCH_DATA then pack_pusch_data v.(pusch_data_) else mret tt);;
  (if flag v.(pusch_pdu_bit_map) PUSCH_PDU_BITMAP_PUSCH_UCI then pack_pusch_uci v.(pusch_uci_) else mret tt);;
  (if flag v.(pusch_pdu_bit_map) PUSCH_PDU_BITMAP_PUSCH_PTRS then pack_pusch_ptrs v.(pusch_ptrs_) else mret tt);;
  (if flag v.(pusch_pdu_bit_map) PUSCH_PDU_BITMAP_DFTS_OFDM then pack_dfts_ofdm v.(pusch_dfts_ofdm) else mret tt);;
  pack_nr_rx_beamforming_pdu v.(pusch_beamforming);;
  push8 v.(pusch_ldpcBaseGraph);; push32 v.(pusch_tbSizeLbrmBytes);;
  pack_spatial_stream_indices v.(pusch_param_v4);;
  mret tt.

(** here [cb_len] has eight bits *)
Definition unpack_pusch_data : unpacker pusch_data :=
  rv_index ← pull8; harq_process_id ← pull8; new_data_indicator ← pull8; tb_size ← pull32; num_cb ← pull16;
  let cb_len := u8 (Z.quot (num_cb + 7) 8) in
  cb ← pullarray8 PUSCH_CB_OCTETS cb_len cb_len;
  mret (mk_pusch_data rv_index harq_process_id new_data_indicator tb_size num_cb cb).
Definition unpack_pusch_uci : unpacker pusch_uci :=
  harq_ack_bit_length ← pull16; csi_part1_bit_length ← pull16; csi_part2_bit_length ← pull16;
  alpha_scaling ← pull8; beta_offset_harq_ack ← pull8; beta_offset_csi1 ← pull8; beta_offset_csi2 ← pull8;
  mret (mk_pusch_uci harq_ack_bit_length csi_part1_bit_length csi_part2_bit_length alpha_scaling
    beta_offset_harq_ack beta_offset_csi1 beta_offset_csi2).
(** the list of ports is allocated with the number of elements *)
Definition unpack_pusch_ptrs : unpacker pusch_ptrs :=
  num_ptrs_ports ← pull8;
  ports ← unpack_for num_ptrs_ports num_ptrs_ports (λ _,
    index ← pull16; dmrs_port ← pull8; re_offset ← pull8; mret (mk_ptrs_port index dmrs_port re_offset));
  ptrs_time_density ← pull8; ptrs_freq_density ← pull8; ul_ptrs_power ← pull8;
  mret (mk_pusch_ptrs num_ptrs_ports ports ptrs_time_density ptrs_freq_density ul_ptrs_power).
Definition unpack_dfts_ofdm : unpacker dfts_ofdm :=
  group_number ← pull8; sequence_number ← pull16; sample_density ← pull8; time_density ← pull8;
  mret (mk_dfts_ofdm group_number sequence_number sample_density time_density).

Definition unpack_ul_tti_request_pusch_pdu (old : pusch_pdu) : unpacker pusch_pdu :=
  pdu_bit_map ← pull16; rnti ← pull16; handle ← pull32; bwp_size ← pull16; bwp_start ← pull16;
  subcarrier_spacing ← pull8; cyclic_prefix ← pull8; target_code_rate ← pull16; qam_mod_order ← pull8;
  mcs_index ← pull8; mcs_table ← pull8; transform_precoding ← pull8; data_scrambling_id ← pull16;
  nrOfLayers ← pull8; ul_dmrs_symb_pos ← pull16; dmrs_config_type ← pull8; ul_dmrs_scrambling_id ← pull16;
  pusch_identity ← pull16; scid ← pull8; num_dmrs_cdm_grps_no_data ← pull8; dmrs_ports ← pull16;
  resource_alloc ← pull8; rb_bitmap ← pullarray8 36 36 36; rb_start ← pull16; rb_size ← pull16;
  vrb_to_prb_mapping ← pull8; frequency_hopping ← pull8; tx_direct_current_location ← pull16;
  uplink_frequency_shift_7p5khz ← pull8; start_symbol_index ← pull8; nr_of_symbols ← pull8;
  data ← (if flag pdu_bit_map PUSCH_PDU_BITMAP_PUSCH_DATA then unpack_pusch_data else mret old.(pusch_data_));
  uci ← (if flag pdu_bit_map PUSCH_PDU_BITMAP_PUSCH_UCI then unpack_pusch_uci else mret old.(pusch_uci_));
  ptrs ← (if flag pdu_bit_map PUSCH_PDU_BITMAP_PUSCH_PTRS then unpack_pusch_ptrs else mret old.(pusch_ptrs_));
  dfts ← (if flag pdu_bit_map PUSCH_PDU_BITMAP_DFTS_OFDM then unpack_dfts_ofdm else mret old.(pusch_dfts_ofdm));
  beamforming ← unpack_nr_rx_beamforming_pdu;
  ldpcBaseGraph ← pull8; tbSizeLbrmBytes ← pull32;
  param_v4 ← unpack_spatial_stream_indices;
  mret (mk_pusch
    pdu_bit_map rnti handle bwp_size bwp_start subcarrier_spacing cyclic_prefix target_code_rate
    qam_mod_order mcs_index mcs_table transform_precoding data_scrambling_id nrOfLayers ul_dmrs_symb_pos
    dmrs_config_type ul_dmrs_scrambling_id pusch_identity scid num_dmrs_cdm_grps_no_data dmrs_ports
    resource_alloc rb_bitmap rb_start rb_size vrb_to_prb_mapping frequency_hopping
    tx_direct_current_location uplink_frequency_shift_7p5khz start_symbol_index nr_of_symbols
    data uci ptrs dfts beamforming ldpcBaseGraph tbSizeLbrmBytes param_v4).

(** ** PUCCH *)

Record pucch_pdu : Type := mk_pucch {
  pucch_rnti : Z; pucch_handle : Z; pucch_bwp_size : Z; pucch_bwp_start : Z; pucch_subcarrier_spacing : Z;
  pucch_cyclic_prefix : Z; pucch_format_type : Z; pucch_multi_slot_tx_indicator : Z; pucch_pi_2bpsk : Z;
  pucch_prb_start : Z; pucch_prb_size : Z; pucch_start_symbol_index : Z; pucch_nr_of_symbols : Z;
  pucch_freq_hop_flag : Z; pucch_second_hop_prb : Z; pucch_group_hop_flag : Z; pucch_sequence_hop_flag : Z;
  pucch_hopping_id : Z; pucch_initial_cyclic_shift : Z; pucch_data_scrambling_id : Z;
  pucch_time_domain_occ_idx : Z; pucch_pre_dft_occ_idx : Z; pucch_pre_dft_occ_len : Z;
  pucch_add_dmrs_flag : Z; pucch_dmrs_scrambling_id : Z; pucch_dmrs_cyclic_shift : Z; pucch_sr_flag : Z;
  pucch_bit_len_harq : Z; pucch_bit_len_csi_part1 : Z; pucch_bit_len_csi_part2 : Z;
  pucch_beamforming : ul_beamforming; pucch_param_v4 : spatial_stream_index
}.

Definition pack_ul_tti_request_pucch_pdu (v : pucch_pdu) : packer unit :=
  push16 v.(pucch_rnti);; push32 v.(pucch_handle);; push16 v.(pucch_bwp_size);; push16 v.(pucch_bwp_start);;
  push8 v.(pucch_subcarrier_spacing);; push8 v.(pucch_cyclic_prefix);; push8 v.(pucch_format_type);;
  push8 v.(pucch_multi_slot_tx_indicator);; push8 v.(pucch_pi_2bpsk);; push16 v.(pucch_prb_start);;
  push16 v.(pucch_prb_size);; push8 v.(pucch_start_symbol_index);; push8 v.(pucch_nr_of_symbols);;
  push8 v.(pucch_freq_hop_flag);; push16 v.(pucch_second_hop_prb);; push8 v.(pucch_group_hop_flag);;
  push8 v.(pucch_sequence_hop_flag);; push16 v.(pucch_hopping_id);; push16 v.(pucch_initial_cyclic_shift);;
  push16 v.(pucch_data_scrambling_id);; push8 v.(pucch_time_domain_occ_idx);;
  push8 v.(pucch_pre_dft_occ_idx);; push8 v.(pucch_pre_dft_occ_len);; push8 v.(pucch_add_dmrs_flag);;
  push16 v.(pucch_dmrs_scrambling_id);; push8 v.(pucch_dmrs_cyclic_shift);; push8 v.(pucch_sr_flag);;
  push16 v.(pucch_bit_len_harq);; push16 v.(pucch_bit_len_csi_part1);; push16 v.(pucch_bit_len_csi_part2);;
  pack_nr_rx_beamforming_pdu v.(pucch_beamforming);;
  pack_spatial_stream_indices v.(pucch_param_v4);;
  mret tt.

Definition unpack_ul_tti_request_pucch_pdu : unpacker pucch_pdu :=
  rnti ← pull16; handle ← pull32; bwp_size ← pull16; bwp_start ← pull16; subcarrier_spacing ← pull8;
  cyclic_prefix ← pull8; format_type ← pull8; multi_slot_tx_indicator ← pull8; pi_2bpsk ← pull8;
  prb_start ← pull16; prb_size ← pull16; start_symbol_index ← pull8; nr_of_symbols ← pull8;
  freq_hop_flag ← pull8; second_hop_prb ← pull16; group_hop_flag ← pull8; sequence_hop_flag ← pull8;
  hopping_id ← pull16; initial_cyclic_shift ← pull16; data_scrambling_id ← pull16;
  time_domain_occ_idx ← pull8; pre_dft_occ_idx ← pull8; pre_dft_occ_len ← pull8; add_dmrs_flag ← pull8;
  dmrs_scrambling_id ← pull16; dmrs_cyclic_shift ← pull8; sr_flag ← pull8; bit_len_harq ← pull16;
  bit_len_csi_part1 ← pull16; bit_len_csi_part2 ← pull16;
  beamforming ← unpack_nr_rx_beamforming_pdu;
  param_v4 ← unpack_spatial_stream_indices;
  mret (mk_pucch
    rnti handle bwp_size bwp_start subcarrier_spacing cyclic_prefix format_type multi_slot_tx_indicator
    pi_2bpsk prb_start prb_size start_symbol_index nr_of_symbols freq_hop_flag second_hop_prb group_hop_flag
    sequence_hop_flag hopping_id initial_cyclic_shift data_scrambling_id time_domain_occ_idx pre_dft_occ_idx
    pre_dft_occ_len add_dmrs_flag dmrs_scrambling_id dmrs_cyclic_shift sr_flag bit_len_harq
    bit_len_csi_part1 bit_len_csi_part2
    beamforming param_v4).

(** ** SRS *)
Record srs_symbol : Type := mk_srs_symbol { srs_bandwidth_start : Z; sequence_group : Z; sequence_number : Z }.
Record srs_parameters : Type := mk_srs_parameters {
  srsp_bandwidth_size : Z; srsp_symbol_list : list srs_symbol; srsp_usage : Z; srsp_report_type : list Z;
  srsp_singular_Value_representation : Z; srsp_iq_representation : Z; srsp_prg_size : Z;
  srsp_num_total_ue_antennas : Z; srsp_ue_antennas_in_this_srs_resource_set : Z;
  srsp_sampled_ue_antennas : Z; srsp_report_scope : Z; srsp_num_ul_spatial_streams_ports : Z;
  srsp_Ul_spatial_stream_ports : list Z
}.

(** [__builtin_popcount] *)
Definition popcount (x : Z) : Z := sumZ (λ i, Z.b2z (Z.testbit x i)) (seqZ 0 32).
(** [symbol_list[4]] *)
Definition SRS_SYMBOLS : Z := 4.

Definition pack_ul_tti_request_srs_parameters_v4 (v : srs_parameters) (num_symbols : Z) : packer unit :=
  push16 v.(srsp_bandwidth_size);;
  pack_for num_symbols (λ i,
    s ← elem v.(srsp_symbol_list) i;
    push16 s.(srs_bandwidth_start);; push8 s.(sequence_group);; push8 s.(sequence_number);; mret tt);;
  let nUsage := popcount v.(srsp_usage) in
  push32 v.(srsp_usage);; pusharray8 v.(srsp_report_type) 4 nUsage;;
  push8 v.(srsp_singular_Value_representation);; push8 v.(srsp_iq_representation);; push16 v.(srsp_prg_size);;
  push8 v.(srsp_num_total_ue_antennas);; push32 v.(srsp_ue_antennas_in_this_srs_resource_set);;
  push32 v.(srsp_sampled_ue_antennas);; push8 v.(srsp_report_scope);;
  push8 v.(srsp_num_ul_spatial_streams_ports);;
  pusharray8 v.(srsp_Ul_spatial_stream_ports) 256 v.(srsp_num_ul_spatial_streams_ports);;
  mret tt.

Definition unpack_ul_tti_request_srs_parameters_v4 (num_symbols : Z) : unpacker srs_parameters :=
  srs_bandwidth_size ← pull16;
  symbols ← unpack_for SRS_SYMBOLS num_symbols (λ _,
    start ← pull16; group ← pull8; number ← pull8; mret (mk_srs_symbol start group number));
  usage ← pull32;
  let nUsage := popcount usage in
  report_type ← pullarray8 4 4 nUsage;
  singular_Value_representation ← pull8; iq_representation ← pull8; prg_size ← pull16;
  num_total_ue_antennas ← pull8; ue_antennas_in_this_srs_resource_set ← pull32; sampled_ue_antennas ← pull32;
  report_scope ← pull8; num_ul_spatial_streams_ports ← pull8;
  ports ← pullarray8 256 256 num_ul_spatial_streams_ports;
  mret (mk_srs_parameters srs_bandwidth_size symbols usage report_type singular_Value_representation
    iq_representation prg_size num_total_ue_antennas ue_antennas_in_this_srs_resource_set
    sampled_ue_antennas report_scope num_ul_spatial_streams_ports ports).

(** [1 << num_symbols], of type int, passed as an [uint8_t] *)
Definition srs_num_symbols (num_symbols : Z) : outcome Z :=
  if num_symbols <? 31 then Ok (u8 (Z.shiftl 1 num_symbols)) else Undef.

Record srs_pdu : Type := mk_srs {
  srs_rnti : Z; srs_handle : Z; srs_bwp_size : Z; srs_bwp_start : Z; srs_subcarrier_spacing : Z;
  srs_cyclic_prefix : Z; srs_num_ant_ports : Z; srs_num_symbols_ : Z; srs_num_repetitions : Z;
  srs_time_start_position : Z; srs_config_index : Z; srs_sequence_id : Z; srs_bandwidth_index : Z;
  srs_comb_size : Z; srs_comb_offset : Z; srs_cyclic_shift : Z; srs_frequency_position : Z;
  srs_frequency_shift : Z; srs_frequency_hopping : Z; srs_group_or_sequence_hopping : Z;
  srs_resource_type : Z; srs_t_srs : Z; srs_t_offset : Z; srs_beamforming : ul_beamforming;
  srs_parameters_v4 : srs_parameters
}.

Definition pack_ul_tti_request_srs_pdu (v : srs_pdu) : packer unit :=
  push16 v.(srs_rnti);; push32 v.(srs_handle);; push16 v.(srs_bwp_size);; push16 v.(srs_bwp_start);;
  push8 v.(srs_subcarrier_spacing);; push8 v.(srs_cyclic_prefix);; push8 v.(srs_num_ant_ports);;
  push8 v.(srs_num_symbols_);; push8 v.(srs_num_repetitions);; push8 v.(srs_time_start_position);;
  push8 v.(srs_config_index);; push16 v.(srs_sequence_id);; push8 v.(srs_bandwidth_index);;
  push8 v.(srs_comb_size);; push8 v.(srs_comb_offset);; push8 v.(srs_cyclic_shift);;
  push8 v.(srs_frequency_position);; push16 v.(srs_frequency_shift);; push8 v.(srs_frequency_hopping);;
  push8 v.(srs_group_or_sequence_hopping);; push8 v.(srs_resource_type);; push16 v.(srs_t_srs);;
  push16 v.(srs_t_offset);;
  pack_nr_rx_beamforming_pdu v.(srs_beamforming);;
  match srs_num_symbols v.(srs_num_symbols_) with
  | Ok n => pack_ul_tti_request_srs_parameters_v4 v.(srs_parameters_v4) n
  | _ => pack_undef
  end;;
  mret tt.

Definition unpack_ul_tti_request_srs_pdu : unpacker srs_pdu :=
  rnti ← pull16; handle ← pull32; bwp_size ← pull16; bwp_start ← pull16; subcarrier_spacing ← pull8;
  cyclic_prefix ← pull8; num_ant_ports ← pull8; num_symbols ← pull8; num_repetitions ← pull8;
  time_start_position ← pull8; config_index ← pull8; sequence_id ← pull16; bandwidth_index ← pull8;
  comb_size ← pull8; comb_offset ← pull8; cyclic_shift ← pull8; frequency_position ← pull8;
  frequency_shift ← pull16; frequency_hopping ← pull8; group_or_sequence_hopping ← pull8;
  resource_type ← pull8; t_srs ← pull16; t_offset ← pull16;
  beamforming ← unpack_nr_rx_beamforming_pdu;
  parameters ←
    match srs_num_symbols num_symbols with
    | Ok n => unpack_ul_tti_request_srs_parameters_v4 n
    | _ => unpack_undef
    end;
  mret (mk_srs
    rnti handle bwp_size bwp_start subcarrier_spacing cyclic_prefix num_ant_ports num_symbols
    num_repetitions time_start_position config_index sequence_id bandwidth_index comb_size comb_offset
    cyclic_shift frequency_position frequency_shift frequency_hopping group_or_sequence_hopping
    resource_type t_srs t_offset
    beamforming parameters).

(** ** The message *)
Definition NFAPI_NR_UL_CONFIG_PRACH_PDU_TYPE : Z := 0.
Definition NFAPI_NR_UL_CONFIG_PUSCH_PDU_TYPE : Z := 1.
Definition NFAPI_NR_UL_CONFIG_PUCCH_PDU_TYPE : Z := 2.
Definition NFAPI_NR_UL_CONFIG_SRS_PDU_TYPE : Z := 3.

(** the union of a PDU *)
Inductive ul_tti_pdu_body : Type :=
| prach (p : prach_pdu)
| pusch (p : pusch_pdu)
| pucch (p : pucch_pdu)
| srs (p : srs_pdu).

Record ul_tti_request_pdu : Type := mk_ul_pdu { ul_pdu_type : Z; ul_pdu_size : Z; ul_body : ul_tti_pdu_body }.
Record ul_pdu_memory : Type := mk_ul_memory { mem_ul_body : ul_tti_pdu_body; mem_pusch : pusch_pdu }.

Definition pack_ul_tti_body (pdu_type : Z) (b : ul_tti_pdu_body) : packer unit :=
  if pdu_type =? NFAPI_NR_UL_CONFIG_PRACH_PDU_TYPE then
    match b with prach p => pack_ul_tti_request_prach_pdu p | _ => pack_undef end
  else if pdu_type =? NFAPI_NR_UL_CONFIG_PUSCH_PDU_TYPE then
    match b with pusch p => pack_ul_tti_request_pusch_pdu p | _ => pack_undef end
  else if pdu_type =? NFAPI_NR_UL_CONFIG_PUCCH_PDU_TYPE then
    match b with pucch p => pack_ul_tti_request_pucch_pdu p | _ => pack_undef end
  else if pdu_type =? NFAPI_NR_UL_CONFIG_SRS_PDU_TYPE then
    match b with srs p => pack_ul_tti_request_srs_pdu p | _ => pack_undef end
  else mret tt.

Definition pack_ul_tti_pdu_list_value (v : ul_tti_request_pdu) : packer ul_tti_request_pdu :=
  r ← patch_size 2 (push16 v.(ul_pdu_type);; push16 v.(ul_pdu_size);; pack_ul_tti_body v.(ul_pdu_type) v.(ul_body));
  mret (mk_ul_pdu v.(ul_pdu_type) r.2 v.(ul_body)).

Definition unpack_ul_tti_body (old : ul_pdu_memory) (pdu_type : Z) : unpacker ul_tti_pdu_body :=
  if pdu_type =? NFAPI_NR_UL_CONFIG_PRACH_PDU_TYPE then
    p ← unpack_ul_tti_request_prach_pdu; mret (prach p)
  else if pdu_type =? NFAPI_NR_UL_CONFIG_PUSCH_PDU_TYPE then
    p ← unpack_ul_tti_request_pusch_pdu old.(mem_pusch); mret (pusch p)
  else if pdu_type =? NFAPI_NR_UL_CONFIG_PUCCH_PDU_TYPE then
    p ← unpack_ul_tti_request_pucch_pdu; mret (pucch p)
  else if pdu_type =? NFAPI_NR_UL_CONFIG_SRS_PDU_TYPE then
    p ← unpack_ul_tti_request_srs_pdu; mret (srs p)
  else mret old.(mem_ul_body).

Definition unpack_ul_tti_pdu_list_value (old : ul_pdu_memory) : unpacker ul_tti_request_pdu :=
  pdu_type ← pull16; pdu_size ← pull16;
  b ← unpack_ul_tti_body old pdu_type;
  mret (mk_ul_pdu pdu_type pdu_size b).

Record ul_tti_group : Type := mk_ul_group { n_ue : Z; ue_list : list Z }.

Definition pack_ul_tti_groups_list_value (v : ul_tti_group) : packer unit :=
  push8 v.(n_ue);; pack_for v.(n_ue) (λ i, u ← elem v.(ue_list) i; push8 u);; mret tt.

Definition unpack_ul_tti_groups_list_value : unpacker ul_tti_group :=
  n_ue ← pull8;
  check_count n_ue NFAPI_MAX_NUM_UL_UE_PER_GROUP;;
  l ← unpack_for NFAPI_MAX_NUM_UL_UE_PER_GROUP n_ue (λ _, pull8);
  mret (mk_ul_group n_ue l).

Record ul_tti_request : Type := mk_ul_tti_request {
  ul_SFN : Z; ul_Slot : Z; ul_n_pdus : Z; ul_rach_present : Z; ul_n_ulsch : Z; ul_n_ulcch : Z;
  ul_n_group : Z; ul_pdus_list : list ul_tti_request_pdu; ul_groups_list : list ul_tti_group
}.

(** the number of PDUs of type [t] among the first [n], counted in an [uint8_t] *)
Definition count_pdus (t : Z) (l : list ul_tti_request_pdu) (n : Z) : Z :=
  u8 (sumZ (λ p, if p.(ul_pdu_type) =? t then 1 else 0) (take (Z.to_nat n) l)).

Definition pack_ul_tti_request (m : ul_tti_request) : packer ul_tti_request :=
  (if m.(ul_n_pdus) <=? zlen m.(ul_pdus_list) then mret tt else pack_undef);;
  let n_ulcch := count_pdus NFAPI_NR_UL_CONFIG_PUCCH_PDU_TYPE m.(ul_pdus_list) m.(ul_n_pdus) in
  let n_ulsch := count_pdus NFAPI_NR_UL_CONFIG_PUSCH_PDU_TYPE m.(ul_pdus_list) m.(ul_n_pdus) in
  push16 m.(ul_SFN);; push16 m.(ul_Slot);; push8 m.(ul_n_pdus);; push8 m.(ul_rach_present);;
  push8 n_ulsch;; push8 n_ulcch;; push8 m.(ul_n_group);;
  l ← pack_for m.(ul_n_pdus) (λ i, p ← elem m.(ul_pdus_list) i; pack_ul_tti_pdu_list_value p);
  pack_for m.(ul_n_group) (λ i, g ← elem m.(ul_groups_list) i; pack_ul_tti_groups_list_value g);;
  mret (mk_ul_tti_request m.(ul_SFN) m.(ul_Slot) m.(ul_n_pdus) m.(ul_rach_present) n_ulsch n_ulcch
    m.(ul_n_group) l m.(ul_groups_list)).

Definition unpack_ul_tti_request (old : Z → ul_pdu_memory) : unpacker ul_tti_request :=
  SFN ← pull16; Slot ← pull16; n_pdus ← pull8;
  check_count n_pdus NFAPI_MAX_NUM_UL_PDU;;
  rach_present ← pull8; n_ulsch ← pull8; n_ulcch ← pull8; n_group ← pull8;
  check_count n_group NFAPI_MAX_NUM_GROUPS;;
  l ← unpack_for NFAPI_MAX_NUM_UL_PDU n_pdus (λ i, unpack_ul_tti_pdu_list_value (old i));
  groups ← unpack_for NFAPI_MAX_NUM_GROUPS n_group (λ _, unpack_ul_tti_groups_list_value);
  mret (mk_ul_tti_request SFN Slot n_pdus rach_present n_ulsch n_ulcch n_group l groups).
