(* ===== verification/FapiUlProofs.v ===== *)
(** * UL_TTI.request: what is packed is what is unpacked

    For each structure of [FapiUl] a predicate that its fields are in the range of their types
    and its counts the lengths of its lists, what of it arrives, and the lemma that this is what
    the unpacker returns; then the bounds of the packer. On any octets the unpacker of this
    message may leave an array, for two PDUs; for the others it does not. *)

From S2P Require Import Prelude Bits Fapi FapiCodec FapiDl FapiDlProofs FapiUl.

(** ** Receive beamforming *)
Definition ul_beamforming_ok (v : ul_beamforming) : Prop :=
  Forall is_u8 [v.(rx_trp_scheme); v.(rx_dig_bf_interface)] ∧
  Forall is_u16 [v.(rx_num_prgs); v.(rx_prg_size)] ∧
  v.(rx_num_prgs) = zlen v.(rx_prgs_list) ∧ zlen v.(rx_prgs_list) <= NFAPI_MAX_NUM_PRGS ∧
  v.(rx_dig_bf_interface) <= NFAPI_MAX_NUM_BG_IF ∧
  ∀ p, p ∈ v.(rx_prgs_list) → v.(rx_dig_bf_interface) = zlen p ∧ Forall is_u16 p.

(** the two loops look their elements up in the innermost body *)
Lemma codec_rx_prgs (l : list (list Z)) cap cap' n d :
  n = zlen l → zlen l <= cap → d <= cap' → (∀ p, p ∈ l → d = zlen p ∧ Forall is_u16 p) →
  codec (pack_for n (λ prg, pack_for d (λ i, p ← elem l prg; b ← elem p i; push16 b)))
    (unpack_for cap n (λ _, unpack_for cap' d (λ _, pull16))) (λ _ l', l' = l).
Proof.
  intros Hn Hc Hd Hl.
  assert (∀ j p, l !! j = Some p →
    codec (pack_for d (λ i, p ← elem l (Z.of_nat j); b ← elem p i; push16 b))
      (unpack_for cap' d (λ _, pull16)) (λ _ y, y = p)) as H.
  { intros j p Hj. destruct (Hl p) as [Hp Hb]; [by eapply list_elem_of_lookup_2|].
    eapply codec_weaken; [apply (codec_for p cap' d _ _ (λ _ x _ y, y = x) Hp); [lia|]|].
    - intros k x Hk. eapply codec_elem; [by rewrite Nat2Z.id|]. eapply codec_elem; [by rewrite Nat2Z.id|].
      apply codec_push16. exact (Forall_lookup_1 _ _ _ _ Hb Hk).
    - cbn beta. intros la lb (Ha & Hlb & K). apply list_eq_same_length with (length p); [lia..|].
      intros k y x Hk Hy Hx. destruct (lookup_lt_is_Some_2 la k) as [a Hla]; [lia|].
      exact (K k x a y Hx Hla Hy). }
  eapply codec_weaken; [apply (codec_for l cap n _ _ (λ _ p _ y, y = p) Hn Hc); exact H|].
  cbn beta. intros la lb (Ha & Hlb & K). apply list_eq_same_length with (length l); [lia..|].
  intros k y x Hk Hy Hx. destruct (lookup_lt_is_Some_2 la k) as [a Hla]; [lia|].
  exact (K k x a y Hx Hla Hy).
Qed.

Lemma codec_ul_beamforming v : ul_beamforming_ok v →
  codec (pack_nr_rx_beamforming_pdu v) unpack_nr_rx_beamforming_pdu (λ _ v', v' = v).
Proof.
  intros H. unfold ul_beamforming_ok in H. wf H.
  unfold pack_nr_rx_beamforming_pdu, unpack_nr_rx_beamforming_pdu. repeat codec_step.
  eapply codec_bind; [apply codec_rx_prgs; done|intros _ ? ->]. apply codec_ret. by destruct v.
Qed.
#[local] Hint Resolve codec_ul_beamforming : codec.

(** ** PRACH *)
Definition prach_ok (v : prach_pdu) : Prop :=
  Forall is_u16 [v.(prach_phys_cell_id); v.(prach_num_cs)] ∧
  Forall is_u8 [v.(prach_num_prach_ocas); v.(prach_prach_format); v.(prach_num_ra); v.(prach_prach_start_symbol)] ∧
  ul_beamforming_ok v.(prach_beamforming) ∧ ss_ok v.(prach_param_v4).

Lemma codec_prach v : prach_ok v →
  codec (pack_ul_tti_request_prach_pdu v) unpack_ul_tti_request_prach_pdu (λ _ v', v' = v).
Proof.
  intros H. unfold prach_ok in H. wf H.
  unfold pack_ul_tti_request_prach_pdu, unpack_ul_tti_request_prach_pdu. repeat codec_step. by destruct v.
Qed.

(** ** PUSCH *)
Definition pusch_data_ok (d : pusch_data) : Prop :=
  Forall is_u8 [d.(rv_index); d.(harq_process_id); d.(new_data_indicator)] ∧ is_u32 d.(tb_size) ∧
  is_u16 d.(num_cb) ∧ num_cb d <= 8 ∧ Z.quot (d.(num_cb) + 7) 8 = zlen d.(cb_present_and_position) ∧
  Forall is_u8 d.(cb_present_and_position).
Definition pusch_uci_ok (u : pusch_uci) : Prop :=
  Forall is_u16 [u.(harq_ack_bit_length); u.(csi_part1_bit_length); u.(csi_part2_bit_length)] ∧
  Forall is_u8 [u.(alpha_scaling); u.(beta_offset_harq_ack); u.(beta_offset_csi1); u.(beta_offset_csi2)].
Definition ptrs_port_ok (x : ptrs_port) : Prop :=
  is_u16 x.(ptrs_port_index) ∧ Forall is_u8 [x.(ptrs_dmrs_port); x.(ptrs_re_offset)].
Definition pusch_ptrs_ok (p : pusch_ptrs) : Prop :=
  Forall is_u8 [p.(num_ptrs_ports); p.(ptrs_time_density); p.(ptrs_freq_density); p.(ul_ptrs_power)] ∧
  p.(num_ptrs_ports) = zlen p.(ptrs_ports_list) ∧ ∀ x, x ∈ p.(ptrs_ports_list) → ptrs_port_ok x.
Definition dfts_ofdm_ok (d : dfts_ofdm) : Prop :=
  Forall is_u8 [d.(low_papr_group_number); d.(ul_ptrs_sample_density); d.(ul_ptrs_time_density_transform_precoding)] ∧
  is_u16 d.(low_papr_sequence_number).

Lemma codec_pusch_data d : pusch_data_ok d → codec (pack_pusch_data d) unpack_pusch_data (λ _ d', d' = d).
Proof.
  intros H. unfold pusch_data_ok in H. wf H. unfold pack_pusch_data, unpack_pusch_data.
  repeat codec_step. cbn zeta. rename select (is_u16 (num_cb d)) into Hu.
  rename select (_ = zlen (cb_present_and_position d)) into Hl. unfold is_u16 in Hu.
  assert (0 <= Z.quot (num_cb d + 7) 8 <= 1) by (Z.to_euclidean_division_equations; lia).
  rewrite (u16_id (Z.quot _ _)), (u8_id (Z.quot _ _)) by (unfold is_u16, is_u8, is_byte; lia).
  eapply codec_bind; [apply codec_array8; first [done|unfold PUSCH_CB_OCTETS; lia]|intros _ ? ->].
  apply codec_ret. by destruct d.
Qed.
Lemma codec_pusch_uci u : pusch_uci_ok u → codec (pack_pusch_uci u) unpack_pusch_uci (λ _ u', u' = u).
Proof.
  intros H. unfold pusch_uci_ok in H. wf H. unfold pack_pusch_uci, unpack_pusch_uci.
  repeat codec_step. by destruct u.
Qed.
Lemma codec_ptrs_port x : ptrs_port_ok x →
  codec (push16 x.(ptrs_port_index);; push8 x.(ptrs_dmrs_port);; push8 x.(ptrs_re_offset);; mret tt)
    (index ← pull16; dmrs_port ← pull8; re_offset ← pull8; mret (mk_ptrs_port index dmrs_port re_offset))
    (λ _ x', x' = x).
Proof. intros H. unfold ptrs_port_ok in H. wf H. repeat codec_step. by destruct x. Qed.
#[local] Hint Resolve codec_ptrs_port : codec.
Lemma codec_pusch_ptrs p : pusch_ptrs_ok p → codec (pack_pusch_ptrs p) unpack_pusch_ptrs (λ _ p', p' = p).
Proof.
  intros H. unfold pusch_ptrs_ok in H. wf H. unfold pack_pusch_ptrs, unpack_pusch_ptrs.
  repeat codec_step. by destruct p.
Qed.
Lemma codec_dfts_ofdm d : dfts_ofdm_ok d → codec (pack_dfts_ofdm d) unpack_dfts_ofdm (λ _ d', d' = d).
Proof.
  intros H. unfold dfts_ofdm_ok in H. wf H. unfold pack_dfts_ofdm, unpack_dfts_ofdm.
  repeat codec_step. by destruct d.
Qed.
#[local] Hint Resolve codec_pusch_data codec_pusch_uci codec_pusch_ptrs codec_dfts_ofdm : codec.

Definition pusch_ok (v : pusch_pdu) : Prop :=
  Forall is_u8 [v.(pusch_subcarrier_spacing); v.(pusch_cyclic_prefix); v.(pusch_qam_mod_order);
    v.(pusch_mcs_index); v.(pusch_mcs_table); v.(pusch_transform_precoding); v.(pusch_nrOfLayers);
    v.(pusch_dmrs_config_type); v.(pusch_scid); v.(pusch_num_dmrs_cdm_grps_no_data);
    v.(pusch_resource_alloc); v.(pusch_vrb_to_prb_mapping); v.(pusch_frequency_hopping);
    v.(pusch_uplink_frequency_shift_7p5khz); v.(pusch_start_symbol_index); v.(pusch_nr_of_symbols);
    v.(pusch_ldpcBaseGraph)] ∧
  Forall is_u16 [v.(pusch_pdu_bit_map); v.(pusch_rnti); v.(pusch_bwp_size); v.(pusch_bwp_start);
    v.(pusch_target_code_rate); v.(pusch_data_scrambling_id); v.(pusch_ul_dmrs_symb_pos);
    v.(pusch_ul_dmrs_scrambling_id); v.(pusch_pusch_identity); v.(pusch_dmrs_ports);
    v.(pusch_rb_start); v.(pusch_rb_size); v.(pusch_tx_direct_current_location)] ∧
  Forall is_u32 [v.(pusch_handle); v.(pusch_tbSizeLbrmBytes)] ∧
  36 = zlen v.(pusch_rb_bitmap) ∧ Forall is_u8 v.(pusch_rb_bitmap) ∧
  (flag v.(pusch_pdu_bit_map) PUSCH_PDU_BITMAP_PUSCH_DATA = true → pusch_data_ok v.(pusch_data_)) ∧
  (flag v.(pusch_pdu_bit_map) PUSCH_PDU_BITMAP_PUSCH_UCI = true → pusch_uci_ok v.(pusch_uci_)) ∧
  (flag v.(pusch_pdu_bit_map) PUSCH_PDU_BITMAP_PUSCH_PTRS = true → pusch_ptrs_ok v.(pusch_ptrs_)) ∧
  (flag v.(pusch_pdu_bit_map) PUSCH_PDU_BITMAP_DFTS_OFDM = true → dfts_ofdm_ok v.(pusch_dfts_ofdm)) ∧
  ul_beamforming_ok v.(pusch_beamforming) ∧ ss_ok v.(pusch_param_v4).
(** the parts that the bitmap does not announce keep what the destination held *)
Definition pusch_arrives (old v : pusch_pdu) : pusch_pdu :=
  let part {A} (bit : Z) (f : pusch_pdu → A) := if flag v.(pusch_pdu_bit_map) bit then f v else f old in
  mk_pusch
    v.(pusch_pdu_bit_map) v.(pusch_rnti) v.(pusch_handle) v.(pusch_bwp_size) v.(pusch_bwp_start)
    v.(pusch_subcarrier_spacing) v.(pusch_cyclic_prefix) v.(pusch_target_code_rate)
    v.(pusch_qam_mod_order) v.(pusch_mcs_index) v.(pusch_mcs_table) v.(pusch_transform_precoding)
    v.(pusch_data_scrambling_id) v.(pusch_nrOfLayers) v.(pusch_ul_dmrs_symb_pos)
    v.(pusch_dmrs_config_type) v.(pusch_ul_dmrs_scrambling_id) v.(pusch_pusch_identity) v.(pusch_scid)
    v.(pusch_num_dmrs_cdm_grps_no_data) v.(pusch_dmrs_ports) v.(pusch_resource_alloc)
    v.(pusch_rb_bitmap) v.(pusch_rb_start) v.(pusch_rb_size) v.(pusch_vrb_to_prb_mapping)
    v.(pusch_frequency_hopping) v.(pusch_tx_direct_current_location)
    v.(pusch_uplink_frequency_shift_7p5khz) v.(pusch_start_symbol_index) v.(pusch_nr_of_symbols)
    (part PUSCH_PDU_BITMAP_PUSCH_DATA pusch_data_) (part PUSCH_PDU_BITMAP_PUSCH_UCI pusch_uci_)
    (part PUSCH_PDU_BITMAP_PUSCH_PTRS pusch_ptrs_) (part PUSCH_PDU_BITMAP_DFTS_OFDM pusch_dfts_ofdm)
    v.(pusch_beamforming) v.(pusch_ldpcBaseGraph) v.(pusch_tbSizeLbrmBytes) v.(pusch_param_v4).

Lemma codec_pusch old v : pusch_ok v →
  codec (pack_ul_tti_request_pusch_pdu v) (unpack_ul_tti_request_pusch_pdu old) (λ _ v', v' = pusch_arrives old v).
Proof.
  intros H. unfold pusch_ok in H. wf H.
  unfold pack_ul_tti_request_pusch_pdu, unpack_ul_tti_request_pusch_pdu. repeat codec_step. done.
Qed.

(** ** PUCCH *)
Definition pucch_ok (v : pucch_pdu) : Prop :=
  Forall is_u8 [v.(pucch_subcarrier_spacing); v.(pucch_cyclic_prefix); v.(pucch_format_type);
    v.(pucch_multi_slot_tx_indicator); v.(pucch_pi_2bpsk); v.(pucch_start_symbol_index);
    v.(pucch_nr_of_symbols); v.(pucch_freq_hop_flag); v.(pucch_group_hop_flag);
    v.(pucch_sequence_hop_flag); v.(pucch_time_domain_occ_idx); v.(pucch_pre_dft_occ_idx);
    v.(pucch_pre_dft_occ_len); v.(pucch_add_dmrs_flag); v.(pucch_dmrs_cyclic_shift); v.(pucch_sr_flag)] ∧
  Forall is_u16 [v.(pucch_rnti); v.(pucch_bwp_size); v.(pucch_bwp_start); v.(pucch_prb_start);
    v.(pucch_prb_size); v.(pucch_second_hop_prb); v.(pucch_hopping_id); v.(pucch_initial_cyclic_shift);
    v.(pucch_data_scrambling_id); v.(pucch_dmrs_scrambling_id); v.(pucch_bit_len_harq);
    v.(pucch_bit_len_csi_part1); v.(pucch_bit_len_csi_part2)] ∧
  is_u32 v.(pucch_handle) ∧ ul_beamforming_ok v.(pucch_beamforming) ∧ ss_ok v.(pucch_param_v4).

Lemma codec_pucch v : pucch_ok v →
  codec (pack_ul_tti_request_pucch_pdu v) unpack_ul_tti_request_pucch_pdu (λ _ v', v' = v).
Proof.
  intros H. unfold pucch_ok in H. wf H.
  unfold pack_ul_tti_request_pucch_pdu, unpack_ul_tti_request_pucch_pdu. repeat codec_step. by destruct v.
Qed.

(** ** SRS *)
Definition srs_symbol_ok (s : srs_symbol) : Prop :=
  is_u16 s.(srs_bandwidth_start) ∧ Forall is_u8 [s.(sequence_group); s.(sequence_number)].
Definition srs_parameters_ok (n : Z) (v : srs_parameters) : Prop :=
  Forall is_u16 [v.(srsp_bandwidth_size); v.(srsp_prg_size)] ∧
  Forall is_u32 [v.(srsp_usage); v.(srsp_ue_antennas_in_this_srs_resource_set); v.(srsp_sampled_ue_antennas)] ∧
  Forall is_u8 [v.(srsp_singular_Value_representation); v.(srsp_iq_representation);
    v.(srsp_num_total_ue_antennas); v.(srsp_report_scope); v.(srsp_num_ul_spatial_streams_ports)] ∧
  n = zlen v.(srsp_symbol_list) ∧ (∀ s, s ∈ v.(srsp_symbol_list) → srs_symbol_ok s) ∧
  popcount v.(srsp_usage) = zlen v.(srsp_report_type) ∧ zlen v.(srsp_report_type) <= 4 ∧
  Forall is_u8 v.(srsp_report_type) ∧
  v.(srsp_num_ul_spatial_streams_ports) = zlen v.(srsp_Ul_spatial_stream_ports) ∧
  Forall is_u8 v.(srsp_Ul_spatial_stream_ports).

Lemma codec_srs_symbol s : srs_symbol_ok s →
  codec (push16 s.(srs_bandwidth_start);; push8 s.(sequence_group);; push8 s.(sequence_number);; mret tt)
    (start ← pull16; group ← pull8; number ← pull8; mret (mk_srs_symbol start group number)) (λ _ s', s' = s).
Proof. intros H. unfold srs_symbol_ok in H. wf H. repeat codec_step. by destruct s. Qed.
#[local] Hint Resolve codec_srs_symbol : codec.

Lemma codec_srs_parameters n v : n <= SRS_SYMBOLS → srs_parameters_ok n v →
  codec (pack_ul_tti_request_srs_parameters_v4 v n) (unpack_ul_tti_request_srs_parameters_v4 n) (λ _ v', v' = v).
Proof.
  intros Hn H. unfold srs_parameters_ok in H. wf H.
  assert (srsp_num_ul_spatial_streams_ports v <= 256).
  { rename select (is_u8 (srsp_num_ul_spatial_streams_ports v)) into K. unfold is_u8, is_byte in K. lia. }
  unfold pack_ul_tti_request_srs_parameters_v4, unpack_ul_tti_request_srs_parameters_v4.
  repeat codec_step. cbn zeta. repeat codec_step. by destruct v.
Qed.

(** [num_symbols] is the logarithm of the number of symbols; there is room for four. *)
Definition srs_ok (v : srs_pdu) : Prop :=
  Forall is_u8 [v.(srs_subcarrier_spacing); v.(srs_cyclic_prefix); v.(srs_num_ant_ports);
    v.(srs_num_symbols_); v.(srs_num_repetitions); v.(srs_time_start_position); v.(srs_config_index);
    v.(srs_bandwidth_index); v.(srs_comb_size); v.(srs_comb_offset); v.(srs_cyclic_shift);
    v.(srs_frequency_position); v.(srs_frequency_hopping); v.(srs_group_or_sequence_hopping);
    v.(srs_resource_type)] ∧
  Forall is_u16 [v.(srs_rnti); v.(srs_bwp_size); v.(srs_bwp_start); v.(srs_sequence_id);
    v.(srs_frequency_shift); v.(srs_t_srs); v.(srs_t_offset)] ∧
  is_u32 v.(srs_handle) ∧ ul_beamforming_ok v.(srs_beamforming) ∧ v.(srs_num_symbols_) <= 2 ∧
  srs_parameters_ok (Z.shiftl 1 v.(srs_num_symbols_)) v.(srs_parameters_v4).

Lemma srs_num_symbols_small n : 0 <= n <= 2 → srs_num_symbols n = Ok (Z.shiftl 1 n) ∧ Z.shiftl 1 n <= SRS_SYMBOLS.
Proof. intros H. assert (n = 0 ∨ n = 1 ∨ n = 2) as [-> | [-> | ->]] by lia; done. Qed.

Lemma codec_srs v : srs_ok v →
  codec (pack_ul_tti_request_srs_pdu v) unpack_ul_tti_request_srs_pdu (λ _ v', v' = v).
Proof.
  intros H. unfold srs_ok in H. wf H.
  destruct (srs_num_symbols_small (srs_num_symbols_ v)) as [Hn Hs].
  { rename select (is_u8 (srs_num_symbols_ v)) into K. unfold is_u8, is_byte in K. lia. }
  unfold pack_ul_tti_request_srs_pdu, unpack_ul_tti_request_srs_pdu. rewrite Hn.
  repeat codec_step. rewrite Hn.
  eapply codec_bind; [by apply codec_srs_parameters|intros _ ? ->]. apply codec_ret. by destruct v.
Qed.

(** ** The message *)
Definition ul_pdu_ok (v : ul_tti_request_pdu) : Prop :=
  match v.(ul_body) with
  | prach p => v.(ul_pdu_type) = NFAPI_NR_UL_CONFIG_PRACH_PDU_TYPE ∧ prach_ok p
  | pusch p => v.(ul_pdu_type) = NFAPI_NR_UL_CONFIG_PUSCH_PDU_TYPE ∧ pusch_ok p
  | pucch p => v.(ul_pdu_type) = NFAPI_NR_UL_CONFIG_PUCCH_PDU_TYPE ∧ pucch_ok p
  | srs p => v.(ul_pdu_type) = NFAPI_NR_UL_CONFIG_SRS_PDU_TYPE ∧ srs_ok p
  end.
Definition ul_body_arrives (old : ul_pdu_memory) (b : ul_tti_pdu_body) : ul_tti_pdu_body :=
  match b with pusch p => pusch (pusch_arrives old.(mem_pusch) p) | _ => b end.
Definition ul_pdu_arrives (old : ul_pdu_memory) (v : ul_tti_request_pdu) : ul_tti_request_pdu :=
  mk_ul_pdu v.(ul_pdu_type) v.(ul_pdu_size) (ul_body_arrives old v.(ul_body)).
Definition ul_pdu_same (v v' : ul_tti_request_pdu) : Prop :=
  v'.(ul_pdu_type) = v.(ul_pdu_type) ∧ v'.(ul_body) = v.(ul_body).

Lemma codec_ul_body old v : ul_pdu_ok v →
  codec (pack_ul_tti_body v.(ul_pdu_type) v.(ul_body)) (unpack_ul_tti_body old v.(ul_pdu_type))
    (λ _ b, b = ul_body_arrives old v.(ul_body)).
Proof.
  unfold ul_pdu_ok, pack_ul_tti_body, unpack_ul_tti_body.
  destruct (ul_body v) as [p|p|p|p]; intros (-> & Hp); cbn -[codec]; apply codec_map;
    (eapply codec_weaken; [first [by apply codec_prach | by apply codec_pusch | by apply codec_pucch | by apply codec_srs]|]);
    intros a b Hb; cbn in Hb |- *; by rewrite Hb.
Qed.

Lemma codec_ul_pdu old v : ul_pdu_ok v →
  codec (pack_ul_tti_pdu_list_value v) (unpack_ul_tti_pdu_list_value old)
    (λ v' w, ul_pdu_same v v' ∧ w = ul_pdu_arrives old v').
Proof.
  intros Hv. assert (is_u16 v.(ul_pdu_type)) as Ht.
  { unfold ul_pdu_ok in Hv. destruct (ul_body v); destruct Hv as (-> & _); done. }
  unfold pack_ul_tti_pdu_list_value, unpack_ul_tti_pdu_list_value.
  apply codec_map_l, (codec_patch _ _ _ (λ t s, b ← unpack_ul_tti_body old t; mret (mk_ul_pdu t s b))); [done|].
  intros len Hlen. apply codec_map. eapply codec_weaken; [by apply codec_ul_body|].
  intros a b Hb. cbn in Hb |- *. by rewrite Hb.
Qed.

Definition ul_group_ok (g : ul_tti_group) : Prop :=
  is_u8 g.(n_ue) ∧ g.(n_ue) = zlen g.(ue_list) ∧ zlen g.(ue_list) <= NFAPI_MAX_NUM_UL_UE_PER_GROUP ∧
  Forall is_u8 g.(ue_list).
Lemma codec_ul_group g : ul_group_ok g →
  codec (pack_ul_tti_groups_list_value g) unpack_ul_tti_groups_list_value (λ _ g', g' = g).
Proof.
  intros H. unfold ul_group_ok in H. wf H.
  unfold pack_ul_tti_groups_list_value, unpack_ul_tti_groups_list_value.
  codec_step. apply codec_check; [lia|]. repeat codec_step. by destruct g.
Qed.
#[local] Hint Resolve codec_ul_group : codec.

Definition ul_tti_ok (m : ul_tti_request) : Prop :=
  Forall is_u16 [m.(ul_SFN); m.(ul_Slot)] ∧ Forall is_u8 [m.(ul_n_pdus); m.(ul_rach_present); m.(ul_n_group)] ∧
  m.(ul_n_pdus) = zlen m.(ul_pdus_list) ∧ zlen m.(ul_pdus_list) <= NFAPI_MAX_NUM_UL_PDU ∧
  (∀ v, v ∈ m.(ul_pdus_list) → ul_pdu_ok v) ∧
  m.(ul_n_group) = zlen m.(ul_groups_list) ∧ zlen m.(ul_groups_list) <= NFAPI_MAX_NUM_GROUPS ∧
  ∀ g, g ∈ m.(ul_groups_list) → ul_group_ok g.
(** what packing leaves of the message: the sizes and the numbers of PUSCH and PUCCH PDUs are
    computed, all else is as before *)
Definition ul_tti_same (m m' : ul_tti_request) : Prop :=
  ∃ l, m' = mk_ul_tti_request m.(ul_SFN) m.(ul_Slot) m.(ul_n_pdus) m.(ul_rach_present)
         (count_pdus NFAPI_NR_UL_CONFIG_PUSCH_PDU_TYPE m.(ul_pdus_list) m.(ul_n_pdus))
         (count_pdus NFAPI_NR_UL_CONFIG_PUCCH_PDU_TYPE m.(ul_pdus_list) m.(ul_n_pdus))
         m.(ul_n_group) l m.(ul_groups_list) ∧ Forall2 ul_pdu_same m.(ul_pdus_list) l.
Definition ul_tti_arrives (old : Z → ul_pdu_memory) (m : ul_tti_request) : ul_tti_request :=
  mk_ul_tti_request m.(ul_SFN) m.(ul_Slot) m.(ul_n_pdus) m.(ul_rach_present) m.(ul_n_ulsch) m.(ul_n_ulcch)
    m.(ul_n_group) (imap (λ j p, ul_pdu_arrives (old (Z.of_nat j)) p) m.(ul_pdus_list)) m.(ul_groups_list).

Lemma codec_ul_tti old m : ul_tti_ok m →
  codec (pack_ul_tti_request m) (unpack_ul_tti_request old)
    (λ m' w, ul_tti_same m m' ∧ w = ul_tti_arrives old m').
Proof.
  intros H. unfold ul_tti_ok in H. wf H. unfold pack_ul_tti_request, unpack_ul_tti_request.
  rewrite (proj2 (Z.leb_le _ _)) by lia. cbn zeta.
  assert (∀ t, is_u8 (count_pdus t (ul_pdus_list m) (ul_n_pdus m))) by (intros t; apply mod8_byte).
  apply codec_skip. repeat codec_step.
  eapply codec_bind; [apply (codec_for_imap _ _ _ _ _ ul_pdu_same (λ i, ul_pdu_arrives (old i))); auto using codec_ul_pdu|].
  intros l ? [Hl ->]. repeat codec_step. split; [by exists l|done].
Qed.

(** ** No octet behind the end of the buffer *)
Lemma bounded_ul_beamforming v : bounded (pack_nr_rx_beamforming_pdu v).
Proof. unfold pack_nr_rx_beamforming_pdu. bounded_steps. Qed.
#[local] Hint Resolve bounded_ul_beamforming : bounded.
Lemma bounded_prach v : bounded (pack_ul_tti_request_prach_pdu v).
Proof. unfold pack_ul_tti_request_prach_pdu. bounded_steps. Qed.
Lemma bounded_pusch v : bounded (pack_ul_tti_request_pusch_pdu v).
Proof.
  unfold pack_ul_tti_request_pusch_pdu, pack_pusch_data, pack_pusch_uci, pack_pusch_ptrs, pack_dfts_ofdm.
  bounded_steps.
Qed.
Lemma bounded_pucch v : bounded (pack_ul_tti_request_pucch_pdu v).
Proof. unfold pack_ul_tti_request_pucch_pdu. bounded_steps. Qed.
Lemma bounded_srs v : bounded (pack_ul_tti_request_srs_pdu v).
Proof. unfold pack_ul_tti_request_srs_pdu, pack_ul_tti_request_srs_parameters_v4. bounded_steps. Qed.
#[local] Hint Resolve bounded_prach bounded_pusch bounded_pucch bounded_srs : bounded.
Lemma bounded_ul_tti m : bounded (pack_ul_tti_request m).
Proof.
  unfold pack_ul_tti_request, pack_ul_tti_pdu_list_value, pack_ul_tti_body, pack_ul_tti_groups_list_value.
  bounded_steps.
Qed.

(** ** Any octets *)
Lemma reader_ul_beamforming : prefix_reader unpack_nr_rx_beamforming_pdu.
Proof. unfold unpack_nr_rx_beamforming_pdu. reader_steps. Qed.
#[local] Hint Resolve reader_ul_beamforming : reader.
Lemma reader_prach : prefix_reader unpack_ul_tti_request_prach_pdu.
Proof. unfold unpack_ul_tti_request_prach_pdu. reader_steps. Qed.
Lemma reader_pucch : prefix_reader unpack_ul_tti_request_pucch_pdu.
Proof. unfold unpack_ul_tti_request_pucch_pdu. reader_steps. Qed.


(** ** Octets on which the unpacker leaves an array *)

(** [u] reads [n] octets, whatever they are. *)
Definition takes {A} (u : unpacker A) (n : nat) : Prop :=
  ∀ i, (n <= length i)%nat → ∃ a, u i = Ok (Some (a, drop n i)).

Lemma takes8 : takes pull8 1.
Proof. intros [|x i] H; [cbn in H; lia|by eexists]. Qed.
Lemma takes16 : takes pull16 2.
Proof. intros [|x [|y i]] H; cbn in H; try lia. by eexists. Qed.
Lemma takes32 : takes pull32 4.
Proof. intros [|x [|y [|z [|w i]]]] H; cbn in H; try lia. by eexists. Qed.
Lemma takes_array n : 0 < n → takes (pullarray8 n n n) (Z.to_nat n).
Proof.
  intros Hn i H. unfold pullarray8. rewrite (proj2 (Z.eqb_neq _ _)), Z.ltb_irrefl, Z.leb_refl by lia.
  rewrite (proj2 (Z.leb_le _ _)) by (unfold zlen; lia). by eexists.
Qed.

Lemma undef_skip {A B} (u : unpacker A) n (k : A → unpacker B) m i :
  takes u n → (m + n <= length i)%nat → (∀ a, k a (drop (m + n) i) = Undef) → (u ≫= k) (drop m i) = Undef.
Proof.
  intros Hu Hl Hk. destruct (Hu (drop m i)) as (a & E); [rewrite length_drop; lia|].
  cbv [mbind unpacker_bind]. by rewrite E, drop_drop, Hk.
Qed.
Lemma undef_bind {A B} (u : unpacker A) (k : A → unpacker B) i : u i = Undef → (u ≫= k) i = Undef.
Proof. intros E. cbv [mbind unpacker_bind]. by rewrite E. Qed.
Lemma undef_read {A B} (u : unpacker A) (k : A → unpacker B) i i' a :
  u i = Ok (Some (a, i')) → k a i' = Undef → (u ≫= k) i = Undef.
Proof. intros E H. cbv [mbind unpacker_bind]. by rewrite E. Qed.
Lemma undef_check {B} n cap (k : unit → unpacker B) i :
  n <= cap → k tt i = Undef → (check_count n cap ≫= k) i = Undef.
Proof. intros Hn H. unfold check_count. by rewrite (proj2 (Z.ltb_ge _ _)). Qed.
Lemma undef_first {A} cap n (f : Z → unpacker A) i :
  0 < cap → 0 < n → f 0 i = Undef → unpack_for cap n f i = Undef.
Proof.
  intros Hc Hn H. unfold unpack_for. replace (Z.to_nat n) with (S (pred (Z.to_nat n))) by lia.
  cbn [unpack_loop]. rewrite (proj2 (Z.ltb_lt _ _)) by done. by apply undef_bind.
Qed.

(** A loop over more elements than the array has, with octets for all of the array. *)
Lemma undef_loop {A} cap w (f : Z → unpacker A) n i inp :
  (∀ j, takes (f j) w) → cap - i < Z.of_nat n → 0 <= cap - i → (Z.to_nat (cap - i) * w <= length inp)%nat →
  unpack_loop cap f i n inp = Undef.
Proof.
  intros Hf. revert i inp. induction n as [|n IH]; intros i inp Hn Hi Hl; cbn [unpack_loop]; [lia|].
  destruct (Z.ltb_spec i cap) as [Hc|Hc]; [|by apply undef_bind].
  replace (Z.to_nat (cap - i)) with (S (Z.to_nat (cap - (i + 1)))) in Hl by lia.
  destruct (Hf i inp ltac:(lia)) as (a & E). eapply undef_read; [exact E|].
  apply undef_bind, IH; [lia|lia|]. rewrite length_drop. lia.
Qed.

Local Ltac skip_field := lazymatch goal with
  | |- (pull8 ≫= _) _ = _ => apply (undef_skip _ 1); [apply takes8|rewrite ?length_app; cbn; lia|]
  | |- (pull16 ≫= _) _ = _ => apply (undef_skip _ 2); [apply takes16|rewrite ?length_app; cbn; lia|]
  | |- (pull32 ≫= _) _ = _ => apply (undef_skip _ 4); [apply takes32|rewrite ?length_app; cbn; lia|]
  | |- (pullarray8 36 36 36 ≫= _) _ = _ =>
      apply (undef_skip _ 36); [by apply (takes_array 36)|rewrite ?length_app; cbn; lia|]
  end; intros ?; cbn [Nat.add].

(** The start of a request with [n_pdus] PDUs and [n_group] groups, up to the size of the first
    PDU, of type [t]. *)
Definition ul_tti_head (sfn_slot : bytes) (n_pdus : Z) (counts : bytes) (n_group t : Z) (size : bytes) : bytes :=
  sfn_slot ++ n_pdus :: counts ++ n_group :: 0 :: t :: size.

Lemma ul_tti_first_pdu old sfn_slot n_pdus counts n_group t size pdu :
  length sfn_slot = 4%nat → length counts = 3%nat → length size = 2%nat →
  0 < n_pdus <= 255 → n_group <= 8 → unpack_ul_tti_body (old 0) t pdu = Undef →
  unpack_ul_tti_request old (ul_tti_head sfn_slot n_pdus counts n_group t size ++ pdu) = Undef.
Proof.
  intros H1 H2 H3 Hn Hg Hu.
  destruct sfn_slot as [|s0 [|s1 [|t0 [|t1 []]]]]; try discriminate.
  destruct counts as [|c0 [|c1 [|c2 []]]]; try discriminate. destruct size as [|z0 [|z1 []]]; try discriminate.
  unfold unpack_ul_tti_request, ul_tti_head. cbn [app].
  do 3 (eapply undef_read; [reflexivity|]). apply undef_check; [unfold NFAPI_MAX_NUM_UL_PDU; lia|].
  do 4 (eapply undef_read; [reflexivity|]). apply undef_check; [done|]. apply undef_bind.
  apply undef_first; [done|lia|]. unfold unpack_ul_tti_pdu_list_value.
  do 2 (eapply undef_read; [reflexivity|]). apply undef_bind. rewrite Z.shiftl_0_l, Z.lor_0_l. exact Hu.
Qed.

(** A PUSCH PDU with PUSCH data: [fields] are those from the RNTI to the number of symbols, [data]
    those of the data up to the number of code blocks, which is n0, n1. *)
Definition pusch_with_data (b0 b1 : Z) (fields data : bytes) (n0 n1 : Z) (octets : bytes) : bytes :=
  b0 :: b1 :: (fields ++ data) ++ n0 :: n1 :: octets.
Definition cb_octets (n0 n1 : Z) : Z := u8 (Z.quot (Z.lor (Z.shiftl n0 8) n1 + 7) 8).

Lemma pusch_leaves_array old b0 b1 fields data n0 n1 octets :
  flag (Z.lor (Z.shiftl b0 8) b1) PUSCH_PDU_BITMAP_PUSCH_DATA = true →
  length fields = 80%nat → length data = 7%nat → PUSCH_CB_OCTETS < cb_octets n0 n1 <= zlen octets →
  unpack_ul_tti_body old NFAPI_NR_UL_CONFIG_PUSCH_PDU_TYPE (pusch_with_data b0 b1 fields data n0 n1 octets) = Undef.
Proof.
  intros Hf Hl Hd Hn. unfold unpack_ul_tti_body. cbn [Z.eqb Pos.eqb]. apply undef_bind.
  unfold unpack_ul_tti_request_pusch_pdu, pusch_with_data. eapply undef_read; [reflexivity|].
  set (i := (fields ++ data) ++ _). assert (length i = (89 + length octets)%nat) as Hi
    by (unfold i; rewrite !length_app; cbn; lia).
  rewrite <- (drop_0 i). do 30 skip_field. rewrite Hf. apply undef_bind.
  unfold unpack_pusch_data. do 4 skip_field.
  assert (drop 87 i = n0 :: n1 :: octets) as ->.
  { unfold i. rewrite drop_app_length'; [done|]. rewrite length_app. lia. }
  eapply undef_read; [reflexivity|]. fold (cb_octets n0 n1). apply undef_bind. unfold pullarray8, PUSCH_CB_OCTETS in *.
  rewrite (proj2 (Z.eqb_neq _ _)), Z.ltb_irrefl, (proj2 (Z.leb_le _ _)), (proj2 (Z.leb_gt _ _)) by lia. done.
Qed.

(** An SRS PDU without beamforming: [fields] are those before the number of symbols, [fields']
    those behind it up to the beamforming, [bandwidth] and [octets] the parameters. *)
Definition srs_without_prgs (fields : bytes) (num_symbols : Z) (fields' : bytes) (trp : Z) (prg : bytes) (dig : Z)
    (octets : bytes) : bytes :=
  fields ++ num_symbols :: fields' ++ trp :: 0 :: 0 :: prg ++ dig :: octets.

Lemma srs_leaves_array old fields num_symbols fields' trp prg dig octets :
  length fields = 13%nat → length fields' = 19%nat → length prg = 2%nat → dig <= NFAPI_MAX_NUM_BG_IF →
  3 <= num_symbols <= 7 → (18 <= length octets)%nat →
  unpack_ul_tti_body old NFAPI_NR_UL_CONFIG_SRS_PDU_TYPE
    (srs_without_prgs fields num_symbols fields' trp prg dig octets) = Undef.
Proof.
  intros Hf Hf' Hp Hd Hn Ho. unfold unpack_ul_tti_body. cbn [Z.eqb Pos.eqb]. apply undef_bind.
  unfold unpack_ul_tti_request_srs_pdu, srs_without_prgs.
  set (j := fields' ++ _). set (i := fields ++ _).
  assert (length j = (25 + length octets)%nat ∧ length i = (39 + length octets)%nat) as [Hj Hi].
  { assert (length j = (25 + length octets)%nat) as E by (unfold j; rewrite !length_app; cbn; rewrite length_app; cbn; lia).
    split; [done|]. unfold i. rewrite length_app. cbn. lia. }
  rewrite <- (drop_0 i). do 7 skip_field.
  assert (drop 13 i = num_symbols :: j) as -> by (unfold i; by rewrite drop_app_length').
  eapply undef_read; [reflexivity|]. rewrite <- (drop_0 j). do 15 skip_field.
  destruct prg as [|p0 [|p1 []]]; try discriminate.
  assert (drop 19 j = trp :: 0 :: 0 :: p0 :: p1 :: dig :: octets) as -> by (unfold j; by rewrite drop_app_length').
  eapply undef_read.
  { unfold unpack_nr_rx_beamforming_pdu. cbv [mbind unpacker_bind pull8 pull16 check_count].
    rewrite (proj2 (Z.ltb_ge NFAPI_MAX_NUM_BG_IF dig)) by done. reflexivity. }
  apply undef_bind. unfold srs_num_symbols. rewrite (proj2 (Z.ltb_lt _ _)) by lia.
  unfold unpack_ul_tti_request_srs_parameters_v4. rewrite <- (drop_0 octets). skip_field. apply undef_bind.
  assert (8 <= u8 (Z.shiftl 1 num_symbols)) as H8.
  { assert (num_symbols = 3 ∨ num_symbols = 4 ∨ num_symbols = 5 ∨ num_symbols = 6 ∨ num_symbols = 7)
      as [-> | [-> | [-> | [-> | ->]]]] by lia; vm_compute; discriminate. }
  unfold unpack_for. apply undef_loop with 4%nat; try (unfold SRS_SYMBOLS; lia).
  - intros _ [|x [|y [|z [|w l]]]] H; cbn in H; try lia. by eexists.
  - change (Z.to_nat (SRS_SYMBOLS - 0)) with 4%nat. rewrite length_drop. lia.
Qed.
