(* ===== verification/FapiInd.v ===== *)
(** * FAPI: indications

    The messages of nr_fapi_p7.c that the physical layer sends to MAC: SLOT, RX_DATA, CRC, UCI,
    SRS and RACH.indication and the vendor extension with the time of arrival of an SRS. Their
    lists are allocated by the unpacker ([calloc]), with the number of elements announced and
    all fields zero; structures are represented as in [FapiDl]. *)

From S2P Require Import Prelude Fapi.

(** ** SLOT.indication *)
Record slot_indication : Type := mk_slot_ind { slot_sfn : Z; slot_slot : Z }.

Definition pack_nr_slot_indication (m : slot_indication) : packer unit :=
  push16 m.(slot_sfn);; push16 m.(slot_slot);; mret tt.

Definition unpack_nr_slot_indication : unpacker slot_indication :=
  sfn ← pull16; slot ← pull16; mret (mk_slot_ind sfn slot).

(** ** RX_DATA.indication *)
Record rx_data_pdu : Type := mk_rx_pdu {
  rxd_handle : Z; rxd_rnti : Z; rxd_harq_id : Z; rxd_pdu_length : Z; rxd_ul_cqi : Z;
  rxd_timing_advance : Z; rxd_rssi : Z; rxd_pdu : bytes
}.
Record rx_data_indication : Type := mk_rx_data {
  rxd_sfn : Z; rxd_slot : Z; rxd_number_of_pdus : Z; rxd_pdu_list : list rx_data_pdu
}.

Definition pack_nr_rx_data_indication_body (v : rx_data_pdu) : packer unit :=
  push32 v.(rxd_handle);; push16 v.(rxd_rnti);; push8 v.(rxd_harq_id);; push32 v.(rxd_pdu_length);;
  push8 v.(rxd_ul_cqi);; push16 v.(rxd_timing_advance);; push16 v.(rxd_rssi);;
  pusharray8 v.(rxd_pdu) v.(rxd_pdu_length) v.(rxd_pdu_length);;
  mret tt.

Definition pack_nr_rx_data_indication (m : rx_data_indication) : packer unit :=
  push16 m.(rxd_sfn);; push16 m.(rxd_slot);; push16 m.(rxd_number_of_pdus);;
  pack_for m.(rxd_number_of_pdus) (λ i, v ← elem m.(rxd_pdu_list) i; pack_nr_rx_data_indication_body v);;
  mret tt.

Definition unpack_nr_rx_data_indication_body : unpacker rx_data_pdu :=
  handle ← pull32; rnti ← pull16; harq_id ← pull8; pdu_length ← pull32; ul_cqi ← pull8;
  timing_advance ← pull16; rssi ← pull16;
  pdu ← pullarray8 pdu_length pdu_length pdu_length;
  mret (mk_rx_pdu handle rnti harq_id pdu_length ul_cqi timing_advance rssi pdu).

Definition unpack_nr_rx_data_indication : unpacker rx_data_indication :=
  sfn ← pull16; slot ← pull16; number_of_pdus ← pull16;
  l ← unpack_for number_of_pdus number_of_pdus (λ _, unpack_nr_rx_data_indication_body);
  mret (mk_rx_data sfn slot number_of_pdus l).

(** ** CRC.indication *)
Record crc_pdu : Type := mk_crc_pdu {
  crc_handle : Z; crc_rnti : Z; crc_harq_id : Z; crc_tb_crc_status : Z; crc_num_cb : Z;
  crc_cb_crc_status : list Z; crc_ul_cqi : Z; crc_timing_advance : Z; crc_rssi : Z
}.
Record crc_indication : Type := mk_crc_ind {
  crc_sfn : Z; crc_slot : Z; crc_number_crcs : Z; crc_list : list crc_pdu
}.

Definition pack_nr_crc_indication_body (v : crc_pdu) : packer unit :=
  push32 v.(crc_handle);; push16 v.(crc_rnti);; push8 v.(crc_harq_id);; push8 v.(crc_tb_crc_status);;
  push16 v.(crc_num_cb);;
  (if negb (v.(crc_num_cb) =? 0) then
     let cb_len := u16 (Z.quot v.(crc_num_cb) 8 + 1) in
     pusharray8 v.(crc_cb_crc_status) cb_len cb_len
   else mret tt);;
  push8 v.(crc_ul_cqi);; push16 v.(crc_timing_advance);; push16 v.(crc_rssi);;
  mret tt.

Definition pack_nr_crc_indication (m : crc_indication) : packer unit :=
  push16 m.(crc_sfn);; push16 m.(crc_slot);; push16 m.(crc_number_crcs);;
  pack_for m.(crc_number_crcs) (λ i, v ← elem m.(crc_list) i; pack_nr_crc_indication_body v);;
  mret tt.

Definition unpack_nr_crc_indication_body : unpacker crc_pdu :=
  handle ← pull32; rnti ← pull16; harq_id ← pull8; tb_crc_status ← pull8; num_cb ← pull16;
  cb_crc_status ←
    (if negb (num_cb =? 0) then
       let cb_len := u16 (Z.quot num_cb 8 + 1) in
       pullarray8 cb_len cb_len cb_len
     else mret []);
  ul_cqi ← pull8; timing_advance ← pull16; rssi ← pull16;
  mret (mk_crc_pdu handle rnti harq_id tb_crc_status num_cb cb_crc_status ul_cqi timing_advance rssi).

Definition unpack_nr_crc_indication : unpacker crc_indication :=
  sfn ← pull16; slot ← pull16; number_crcs ← pull16;
  l ← unpack_for number_crcs number_crcs (λ _, unpack_nr_crc_indication_body);
  mret (mk_crc_ind sfn slot number_crcs l).

(** ** UCI.indication *)

(** HARQ and the parts of CSI have the same shape: check, length in bits, payload. *)
Record uci_part : Type := mk_uci_part { uci_crc : Z; uci_bit_len : Z; uci_payload : list Z }.
Definition zero_part : uci_part := mk_uci_part 0 0 [].

Definition pack_uci_part (p : uci_part) : packer unit :=
  push8 p.(uci_crc);; push16 p.(uci_bit_len);;
  let len := nr_bits_to_bytes p.(uci_bit_len) in
  pusharray8 p.(uci_payload) len len;;
  mret tt.
Definition unpack_uci_part : unpacker uci_part :=
  crc ← pull8; bit_len ← pull16;
  let len := nr_bits_to_bytes bit_len in
  payload ← pullarray8 len len len;
  mret (mk_uci_part crc bit_len payload).

(** bit [i] of a bitmap of PDUs *)
Definition uci_bit (pduBitmap i : Z) : bool := negb (Z.land (Z.shiftr pduBitmap i) 1 =? 0).

Record uci_pusch_pdu : Type := mk_uci_pusch {
  up_pduBitmap : Z; up_handle : Z; up_rnti : Z; up_ul_cqi : Z; up_timing_advance : Z; up_rssi : Z;
  up_harq : uci_part; up_csi_part1 : uci_part; up_csi_part2 : uci_part
}.

Definition pack_nr_uci_pusch (v : uci_pusch_pdu) : packer unit :=
  push8 v.(up_pduBitmap);; push32 v.(up_handle);; push16 v.(up_rnti);; push8 v.(up_ul_cqi);;
  push16 v.(up_timing_advance);; push16 v.(up_rssi);;
  (if uci_bit v.(up_pduBitmap) 1 then pack_uci_part v.(up_harq) else mret tt);;
  (if uci_bit v.(up_pduBitmap) 2 then pack_uci_part v.(up_csi_part1) else mret tt);;
  (if uci_bit v.(up_pduBitmap) 3 then pack_uci_part v.(up_csi_part2) else mret tt);;
  mret tt.

Definition unpack_nr_uci_pusch : unpacker uci_pusch_pdu :=
  pduBitmap ← pull8; handle ← pull32; rnti ← pull16; ul_cqi ← pull8; timing_advance ← pull16; rssi ← pull16;
  harq ← (if uci_bit pduBitmap 1 then unpack_uci_part else mret zero_part);
  csi1 ← (if uci_bit pduBitmap 2 then unpack_uci_part else mret zero_part);
  csi2 ← (if uci_bit pduBitmap 3 then unpack_uci_part else mret zero_part);
  mret (mk_uci_pusch pduBitmap handle rnti ul_cqi timing_advance rssi harq csi1 csi2).

Record uci_sr_0_1 : Type := mk_sr_0_1 { sr_indication : Z; sr_confidence_level : Z }.
Record uci_harq_0_1 : Type := mk_harq_0_1 { num_harq : Z; harq_confidence_level : Z; harq_list : list Z }.
Record uci_pucch_0_1 : Type := mk_uci_0_1 {
  u01_pduBitmap : Z; u01_handle : Z; u01_rnti : Z; u01_pucch_format : Z; u01_ul_cqi : Z;
  u01_timing_advance : Z; u01_rssi : Z; u01_sr : uci_sr_0_1; u01_harq : uci_harq_0_1
}.

Definition pack_nr_uci_pucch_0_1 (v : uci_pucch_0_1) : packer unit :=
  push8 v.(u01_pduBitmap);; push32 v.(u01_handle);; push16 v.(u01_rnti);; push8 v.(u01_pucch_format);;
  push8 v.(u01_ul_cqi);; push16 v.(u01_timing_advance);; push16 v.(u01_rssi);;
  (if uci_bit v.(u01_pduBitmap) 0 then
     push8 v.(u01_sr).(sr_indication);; push8 v.(u01_sr).(sr_confidence_level);; mret tt
   else mret tt);;
  (if uci_bit v.(u01_pduBitmap) 1 then
     push8 v.(u01_harq).(num_harq);; push8 v.(u01_harq).(harq_confidence_level);;
     pack_for v.(u01_harq).(num_harq) (λ i, h ← elem v.(u01_harq).(harq_list) i; push8 h);;
     mret tt
   else mret tt);;
  mret tt.

(** [harq_list[2]] *)
Definition unpack_nr_uci_pucch_0_1 : unpacker uci_pucch_0_1 :=
  pduBitmap ← pull8; handle ← pull32; rnti ← pull16; pucch_format ← pull8; ul_cqi ← pull8;
  timing_advance ← pull16; rssi ← pull16;
  sr ← (if uci_bit pduBitmap 0 then
          indication ← pull8; level ← pull8; mret (mk_sr_0_1 indication level)
        else mret (mk_sr_0_1 0 0));
  harq ← (if uci_bit pduBitmap 1 then
            num_harq ← pull8; level ← pull8;
            check_count num_harq 2;;
            l ← unpack_for 2 num_harq (λ _, pull8);
            mret (mk_harq_0_1 num_harq level l)
          else mret (mk_harq_0_1 0 0 []));
  mret (mk_uci_0_1 pduBitmap handle rnti pucch_format ul_cqi timing_advance rssi sr harq).

Record uci_sr_2_3_4 : Type := mk_sr_2_3_4 { sr_bit_len : Z; sr_payload : list Z }.
Record uci_pucch_2_3_4 : Type := mk_uci_2_3_4 {
  u234_pduBitmap : Z; u234_handle : Z; u234_rnti : Z; u234_pucch_format : Z; u234_ul_cqi : Z;
  u234_timing_advance : Z; u234_rssi : Z; u234_sr : uci_sr_2_3_4; u234_harq : uci_part;
  u234_csi_part1 : uci_part; u234_csi_part2 : uci_part
}.

Definition pack_nr_uci_pucch_2_3_4 (v : uci_pucch_2_3_4) : packer unit :=
  push8 v.(u234_pduBitmap);; push32 v.(u234_handle);; push16 v.(u234_rnti);; push8 v.(u234_pucch_format);;
  push8 v.(u234_ul_cqi);; push16 v.(u234_timing_advance);; push16 v.(u234_rssi);;
  (if uci_bit v.(u234_pduBitmap) 0 then
     push16 v.(u234_sr).(sr_bit_len);;
     let sr_len := nr_bits_to_bytes v.(u234_sr).(sr_bit_len) in
     pusharray8 v.(u234_sr).(sr_payload) sr_len sr_len;; mret tt
   else mret tt);;
  (if uci_bit v.(u234_pduBitmap) 1 then pack_uci_part v.(u234_harq) else mret tt);;
  (if uci_bit v.(u234_pduBitmap) 2 then pack_uci_part v.(u234_csi_part1) else mret tt);;
  (if uci_bit v.(u234_pduBitmap) 3 then pack_uci_part v.(u234_csi_part2) else mret tt);;
  mret tt.

Definition unpack_nr_uci_pucch_2_3_4 : unpacker uci_pucch_2_3_4 :=
  pduBitmap ← pull8; handle ← pull32; rnti ← pull16; pucch_format ← pull8; ul_cqi ← pull8;
  timing_advance ← pull16; rssi ← pull16;
  sr ← (if uci_bit pduBitmap 0 then
          bit_len ← pull16;
          let sr_len := nr_bits_to_bytes bit_len in
          payload ← pullarray8 sr_len sr_len sr_len; mret (mk_sr_2_3_4 bit_len payload)
        else mret (mk_sr_2_3_4 0 []));
  harq ← (if uci_bit pduBitmap 1 then unpack_uci_part else mret zero_part);
  csi1 ← (if uci_bit pduBitmap 2 then unpack_uci_part else mret zero_part);
  csi2 ← (if uci_bit pduBitmap 3 then unpack_uci_part else mret zero_part);
  mret (mk_uci_2_3_4 pduBitmap handle rnti pucch_format ul_cqi timing_advance rssi sr harq csi1 csi2).

Definition NFAPI_NR_UCI_PUSCH_PDU_TYPE : Z := 0.
Definition NFAPI_NR_UCI_FORMAT_0_1_PDU_TYPE : Z := 1.
Definition NFAPI_NR_UCI_FORMAT_2_3_4_PDU_TYPE : Z := 2.

Inductive uci_body : Type :=
| uci_pusch (p : uci_pusch_pdu)
| uci_0_1 (p : uci_pucch_0_1)
| uci_2_3_4 (p : uci_pucch_2_3_4).
Record uci_pdu : Type := mk_uci { uci_pdu_type : Z; uci_pdu_size : Z; uci_pdu_body : uci_body }.
Record uci_indication : Type := mk_uci_ind {
  uci_sfn : Z; uci_slot : Z; uci_num_ucis : Z; uci_list : list uci_pdu
}.
(** the union in memory that is all zero *)
Definition zero_uci_body : uci_body := uci_pusch (mk_uci_pusch 0 0 0 0 0 0 zero_part zero_part zero_part).

Definition pack_nr_uci_indication_body (v : uci_pdu) : packer unit :=
  push16 v.(uci_pdu_type);; push16 v.(uci_pdu_size);;
  if v.(uci_pdu_type) =? NFAPI_NR_UCI_PUSCH_PDU_TYPE then
    match v.(uci_pdu_body) with uci_pusch p => pack_nr_uci_pusch p | _ => pack_undef end
  else if v.(uci_pdu_type) =? NFAPI_NR_UCI_FORMAT_0_1_PDU_TYPE then
    match v.(uci_pdu_body) with uci_0_1 p => pack_nr_uci_pucch_0_1 p | _ => pack_undef end
  else if v.(uci_pdu_type) =? NFAPI_NR_UCI_FORMAT_2_3_4_PDU_TYPE then
    match v.(uci_pdu_body) with uci_2_3_4 p => pack_nr_uci_pucch_2_3_4 p | _ => pack_undef end
  else pack_fail.

Definition unpack_nr_uci_indication_body : unpacker uci_pdu :=
  pdu_type ← pull16; pdu_size ← pull16;
  b ← (if pdu_type =? NFAPI_NR_UCI_PUSCH_PDU_TYPE then p ← unpack_nr_uci_pusch; mret (uci_pusch p)
       else if pdu_type =? NFAPI_NR_UCI_FORMAT_0_1_PDU_TYPE then p ← unpack_nr_uci_pucch_0_1; mret (uci_0_1 p)
       else if pdu_type =? NFAPI_NR_UCI_FORMAT_2_3_4_PDU_TYPE then
         p ← unpack_nr_uci_pucch_2_3_4; mret (uci_2_3_4 p)
       else mret zero_uci_body);
  mret (mk_uci pdu_type pdu_size b).

Definition pack_nr_uci_indication (m : uci_indication) : packer unit :=
  push16 m.(uci_sfn);; push16 m.(uci_slot);; push16 m.(uci_num_ucis);;
  pack_for m.(uci_num_ucis) (λ i, v ← elem m.(uci_list) i; pack_nr_uci_indication_body v);;
  mret tt.

Definition unpack_nr_uci_indication : unpacker uci_indication :=
  sfn ← pull16; slot ← pull16; num_ucis ← pull16;
  l ← unpack_for num_ucis num_ucis (λ _, unpack_nr_uci_indication_body);
  mret (mk_uci_ind sfn slot num_ucis l).

(** ** SRS.indication *)

(** NFAPI_NR_SRS_CHANNEL_MATRIX_SIZE / 4 elements of [value] *)
Definition SRS_REPORT_WORDS : Z := 272 * 4 * 64 * 4 / 4.
Record srs_report_tlv : Type := mk_srs_report { srs_tag : Z; srs_length : Z; srs_value : list Z }.
Record srs_indication_pdu : Type := mk_srs_ind_pdu {
  sri_handle : Z; sri_rnti : Z; sri_timing_advance_offset : Z; sri_timing_advance_offset_nsec : Z;
  sri_srs_usage : Z; sri_report_type : Z; sri_report_tlv : srs_report_tlv
}.
Record srs_indication : Type := mk_srs_ind {
  sri_sfn : Z; sri_slot : Z; sri_control_length : Z; sri_number_of_pdus : Z;
  sri_pdu_list : list srs_indication_pdu
}.

(** the last word is copied octet by octet, the first of them being its low order octets *)
Definition pack_nr_srs_report_tlv (v : srs_report_tlv) : packer unit :=
  push16 v.(srs_tag);; push32 v.(srs_length);;
  let full_words := Z.quot v.(srs_length) 4 in
  pack_for full_words (λ i, w ← elem v.(srs_value) i; push32 w);;
  let remaining_bytes := cmod v.(srs_length) 4 in
  (if 0 <? remaining_bytes then
     w ← elem v.(srs_value) full_words; push32 (Z.land w (Z.ones (8 * remaining_bytes)))
   else mret tt);;
  mret tt.

Definition unpack_nr_srs_report_tlv_value (length : Z) : unpacker (list Z) :=
  let words := Z.quot (u32 (length + 3)) 4 in
  check_count words SRS_REPORT_WORDS;;
  unpack_for SRS_REPORT_WORDS words (λ _, pull32).

Definition unpack_nr_srs_report_tlv : unpacker srs_report_tlv :=
  tag ← pull16; length ← pull32;
  value ← unpack_nr_srs_report_tlv_value length;
  mret (mk_srs_report tag length value).

Definition pack_nr_srs_indication_body (v : srs_indication_pdu) : packer unit :=
  push32 v.(sri_handle);; push16 v.(sri_rnti);; push16 v.(sri_timing_advance_offset);;
  pushs16 v.(sri_timing_advance_offset_nsec);; push8 v.(sri_srs_usage);; push8 v.(sri_report_type);;
  pack_nr_srs_report_tlv v.(sri_report_tlv);;
  mret tt.

Definition unpack_nr_srs_indication_body : unpacker srs_indication_pdu :=
  handle ← pull32; rnti ← pull16; timing_advance_offset ← pull16; timing_advance_offset_nsec ← pulls16;
  srs_usage ← pull8; report_type ← pull8;
  report_tlv ← unpack_nr_srs_report_tlv;
  mret (mk_srs_ind_pdu handle rnti timing_advance_offset timing_advance_offset_nsec srs_usage report_type
    report_tlv).

Definition pack_nr_srs_indication (m : srs_indication) : packer unit :=
  push16 m.(sri_sfn);; push16 m.(sri_slot);; push16 m.(sri_control_length);; push8 m.(sri_number_of_pdus);;
  pack_for m.(sri_number_of_pdus) (λ i, v ← elem m.(sri_pdu_list) i; pack_nr_srs_indication_body v);;
  mret tt.

Definition unpack_nr_srs_indication : unpacker srs_indication :=
  sfn ← pull16; slot ← pull16; control_length ← pull16; number_of_pdus ← pull8;
  l ← unpack_for number_of_pdus number_of_pdus (λ _, unpack_nr_srs_indication_body);
  mret (mk_srs_ind sfn slot control_length number_of_pdus l).

(** ** Time of arrival of an SRS *)
Definition NFAPI_NR_MAX_NUM_TA_NSEC : Z := 32.
Record srs_toa_indication : Type := mk_srs_toa {
  toa_sfn : Z; toa_slot : Z; toa_rnti : Z; toa_num_ta : Z; toa_ta_offset_nsec : list Z
}.

Definition pack_nr_srs_toa_vendor_ext_indication (m : srs_toa_indication) : packer unit :=
  push16 m.(toa_sfn);; push16 m.(toa_slot);; push16 m.(toa_rnti);; push8 m.(toa_num_ta);;
  pack_assert (m.(toa_num_ta) <=? NFAPI_NR_MAX_NUM_TA_NSEC);;
  pack_for m.(toa_num_ta) (λ i, t ← elem m.(toa_ta_offset_nsec) i; pushs16 t);;
  mret tt.

Definition unpack_nr_srs_toa_vendor_ext_indication : unpacker srs_toa_indication :=
  sfn ← pull16; slot ← pull16; rnti ← pull16; num_ta ← pull8;
  check_count num_ta NFAPI_NR_MAX_NUM_TA_NSEC;;
  l ← unpack_for NFAPI_NR_MAX_NUM_TA_NSEC num_ta (λ _, pulls16);
  mret (mk_srs_toa sfn slot rnti num_ta l).

(** ** RACH.indication *)
Definition PREAMBLE_LIST_SIZE : Z := 64.
Record rach_preamble : Type := mk_preamble {
  pre_preamble_index : Z; pre_timing_advance : Z; pre_preamble_pwr : Z
}.
Record rach_pdu : Type := mk_rach_pdu {
  rach_phy_cell_id : Z; rach_symbol_index : Z; rach_slot_index : Z; rach_freq_index : Z;
  rach_avg_rssi : Z; rach_avg_snr : Z; rach_num_preamble : Z; rach_preamble_list : list rach_preamble
}.
Record rach_indication : Type := mk_rach_ind {
  rach_sfn : Z; rach_slot : Z; rach_number_of_pdus : Z; rach_pdu_list : list rach_pdu
}.

Definition pack_nr_rach_indication_body (v : rach_pdu) : packer unit :=
  push16 v.(rach_phy_cell_id);; push8 v.(rach_symbol_index);; push8 v.(rach_slot_index);;
  push8 v.(rach_freq_index);; push8 v.(rach_avg_rssi);; push8 v.(rach_avg_snr);; push8 v.(rach_num_preamble);;
  pack_for v.(rach_num_preamble) (λ i,
    p ← elem v.(rach_preamble_list) i;
    push8 p.(pre_preamble_index);; push16 p.(pre_timing_advance);; push32 p.(pre_preamble_pwr);; mret tt);;
  mret tt.

Definition unpack_nr_rach_indication_body : unpacker rach_pdu :=
  phy_cell_id ← pull16; symbol_index ← pull8; slot_index ← pull8; freq_index ← pull8; avg_rssi ← pull8;
  avg_snr ← pull8; num_preamble ← pull8;
  check_count num_preamble PREAMBLE_LIST_SIZE;;
  l ← unpack_for PREAMBLE_LIST_SIZE num_preamble (λ _,
    index ← pull8; timing_advance ← pull16; pwr ← pull32; mret (mk_preamble index timing_advance pwr));
  mret (mk_rach_pdu phy_cell_id symbol_index slot_index freq_index avg_rssi avg_snr num_preamble l).

Definition pack_nr_rach_indication (m : rach_indication) : packer unit :=
  push16 m.(rach_sfn);; push16 m.(rach_slot);; push8 m.(rach_number_of_pdus);;
  pack_for m.(rach_number_of_pdus) (λ i, v ← elem m.(rach_pdu_list) i; pack_nr_rach_indication_body v);;
  mret tt.

Definition unpack_nr_rach_indication : unpacker rach_indication :=
  sfn ← pull16; slot ← pull16; number_of_pdus ← pull8;
  l ← unpack_for number_of_pdus number_of_pdus (λ _, unpack_nr_rach_indication_body);
  mret (mk_rach_ind sfn slot number_of_pdus l).
