(* ===== verification/FapiIndProofs.v ===== *)
(** * Indications of FAPI: what is packed is what is unpacked

    For each structure of [FapiInd] a predicate that its fields are in the range of their types
    and its counts the lengths of its lists, and the lemma that it is transferred; then the
    bounds of the packers and the behaviour of the unpackers on any octets. *)

From S2P Require Import Prelude Bits Fapi FapiCodec FapiInd.

(** *** SLOT.indication *)
Definition slot_ok (m : slot_indication) : Prop := Forall is_u16 [m.(slot_sfn); m.(slot_slot)].

Lemma codec_slot m : slot_ok m → codec (pack_nr_slot_indication m) unpack_nr_slot_indication (λ _ m', m' = m).
Proof.
  intros H. unfold slot_ok in H. wf H. unfold pack_nr_slot_indication, unpack_nr_slot_indication.
  repeat codec_step. by destruct m.
Qed.

(** *** RX_DATA.indication *)
Definition rx_pdu_ok (v : rx_data_pdu) : Prop :=
  Forall is_u32 [v.(rxd_handle); v.(rxd_pdu_length)] ∧
  Forall is_u16 [v.(rxd_rnti); v.(rxd_timing_advance); v.(rxd_rssi)] ∧
  Forall is_u8 [v.(rxd_harq_id); v.(rxd_ul_cqi)] ∧
  v.(rxd_pdu_length) = zlen v.(rxd_pdu) ∧ Forall is_u8 v.(rxd_pdu).
Definition rx_data_ok (m : rx_data_indication) : Prop :=
  Forall is_u16 [m.(rxd_sfn); m.(rxd_slot); m.(rxd_number_of_pdus)] ∧
  m.(rxd_number_of_pdus) = zlen m.(rxd_pdu_list) ∧ ∀ v, v ∈ m.(rxd_pdu_list) → rx_pdu_ok v.

Lemma codec_rx_pdu v : rx_pdu_ok v →
  codec (pack_nr_rx_data_indication_body v) unpack_nr_rx_data_indication_body (λ _ v', v' = v).
Proof.
  intros H. unfold rx_pdu_ok in H. wf H.
  unfold pack_nr_rx_data_indication_body, unpack_nr_rx_data_indication_body.
  repeat codec_step. by destruct v.
Qed.
#[local] Hint Resolve codec_rx_pdu : codec.

Lemma codec_rx_data m : rx_data_ok m →
  codec (pack_nr_rx_data_indication m) unpack_nr_rx_data_indication (λ _ m', m' = m).
Proof.
  intros H. unfold rx_data_ok in H. wf H. unfold pack_nr_rx_data_indication, unpack_nr_rx_data_indication.
  repeat codec_step. by destruct m.
Qed.

(** *** CRC.indication *)
Definition crc_cb_len (num_cb : Z) : Z := if num_cb =? 0 then 0 else u16 (Z.quot num_cb 8 + 1).
Definition crc_pdu_ok (v : crc_pdu) : Prop :=
  is_u32 v.(crc_handle) ∧
  Forall is_u16 [v.(crc_rnti); v.(crc_num_cb); v.(crc_timing_advance); v.(crc_rssi)] ∧
  Forall is_u8 [v.(crc_harq_id); v.(crc_tb_crc_status); v.(crc_ul_cqi)] ∧
  crc_cb_len v.(crc_num_cb) = zlen v.(crc_cb_crc_status) ∧ Forall is_u8 v.(crc_cb_crc_status).
Definition crc_ind_ok (m : crc_indication) : Prop :=
  Forall is_u16 [m.(crc_sfn); m.(crc_slot); m.(crc_number_crcs)] ∧
  m.(crc_number_crcs) = zlen m.(crc_list) ∧ ∀ v, v ∈ m.(crc_list) → crc_pdu_ok v.

Lemma codec_crc_pdu v : crc_pdu_ok v →
  codec (pack_nr_crc_indication_body v) unpack_nr_crc_indication_body (λ _ v', v' = v).
Proof.
  intros H. unfold crc_pdu_ok, crc_cb_len in H. wf H.
  unfold pack_nr_crc_indication_body, unpack_nr_crc_indication_body. cbn zeta.
  repeat codec_step.
  eapply codec_bind; [apply (codec_if _ _ _ (crc_cb_crc_status v) [])|intros _ ? ->].
  { destruct (Z.eqb_spec (crc_num_cb v) 0); [done|]. intros _. apply codec_array8; (done || lia). }
  repeat codec_step. rename select (_ = zlen _) into Hl.
  replace (if negb (crc_num_cb v =? 0) then _ else _) with (crc_cb_crc_status v); [by destruct v|].
  destruct (crc_num_cb v =? 0); [|done]. by apply zlen_0.
Qed.
#[local] Hint Resolve codec_crc_pdu : codec.

Lemma codec_crc m : crc_ind_ok m → codec (pack_nr_crc_indication m) unpack_nr_crc_indication (λ _ m', m' = m).
Proof.
  intros H. unfold crc_ind_ok in H. wf H. unfold pack_nr_crc_indication, unpack_nr_crc_indication.
  repeat codec_step. by destruct m.
Qed.

(** *** UCI.indication *)

(** a part that is announced; the others are neither sent nor wrong *)
Definition uci_part_ok (p : uci_part) : Prop :=
  is_u8 p.(uci_crc) ∧ is_u16 p.(uci_bit_len) ∧
  nr_bits_to_bytes p.(uci_bit_len) = zlen p.(uci_payload) ∧ Forall is_u8 p.(uci_payload).

Lemma codec_uci_part p : uci_part_ok p → codec (pack_uci_part p) unpack_uci_part (λ _ p', p' = p).
Proof.
  intros H. unfold uci_part_ok in H. wf H. unfold pack_uci_part, unpack_uci_part. cbn zeta.
  repeat codec_step. by destruct p.
Qed.
#[local] Hint Resolve codec_uci_part : codec.

Definition uci_pusch_ok (v : uci_pusch_pdu) : Prop :=
  Forall is_u8 [v.(up_pduBitmap); v.(up_ul_cqi)] ∧ is_u32 v.(up_handle) ∧
  Forall is_u16 [v.(up_rnti); v.(up_timing_advance); v.(up_rssi)] ∧
  (uci_bit v.(up_pduBitmap) 1 = true → uci_part_ok v.(up_harq)) ∧
  (uci_bit v.(up_pduBitmap) 2 = true → uci_part_ok v.(up_csi_part1)) ∧
  (uci_bit v.(up_pduBitmap) 3 = true → uci_part_ok v.(up_csi_part2)).
(** the parts that are not announced arrive as zero *)
Definition uci_pusch_arrives (v : uci_pusch_pdu) : uci_pusch_pdu :=
  mk_uci_pusch v.(up_pduBitmap) v.(up_handle) v.(up_rnti) v.(up_ul_cqi) v.(up_timing_advance) v.(up_rssi)
    (if uci_bit v.(up_pduBitmap) 1 then v.(up_harq) else zero_part)
    (if uci_bit v.(up_pduBitmap) 2 then v.(up_csi_part1) else zero_part)
    (if uci_bit v.(up_pduBitmap) 3 then v.(up_csi_part2) else zero_part).

Lemma codec_uci_pusch v : uci_pusch_ok v →
  codec (pack_nr_uci_pusch v) unpack_nr_uci_pusch (λ _ v', v' = uci_pusch_arrives v).
Proof.
  intros H. unfold uci_pusch_ok in H. wf H. unfold pack_nr_uci_pusch, unpack_nr_uci_pusch.
  repeat codec_step. done.
Qed.

Definition sr_0_1_ok (s : uci_sr_0_1) : Prop := Forall is_u8 [s.(sr_indication); s.(sr_confidence_level)].
Definition harq_0_1_ok (h : uci_harq_0_1) : Prop :=
  Forall is_u8 [h.(num_harq); h.(harq_confidence_level)] ∧ h.(num_harq) = zlen h.(harq_list) ∧
  zlen h.(harq_list) <= 2 ∧ Forall is_u8 h.(harq_list).
Definition uci_0_1_ok (v : uci_pucch_0_1) : Prop :=
  Forall is_u8 [v.(u01_pduBitmap); v.(u01_pucch_format); v.(u01_ul_cqi)] ∧ is_u32 v.(u01_handle) ∧
  Forall is_u16 [v.(u01_rnti); v.(u01_timing_advance); v.(u01_rssi)] ∧
  (uci_bit v.(u01_pduBitmap) 0 = true → sr_0_1_ok v.(u01_sr)) ∧
  (uci_bit v.(u01_pduBitmap) 1 = true → harq_0_1_ok v.(u01_harq)).
Definition uci_0_1_arrives (v : uci_pucch_0_1) : uci_pucch_0_1 :=
  mk_uci_0_1 v.(u01_pduBitmap) v.(u01_handle) v.(u01_rnti) v.(u01_pucch_format) v.(u01_ul_cqi)
    v.(u01_timing_advance) v.(u01_rssi)
    (if uci_bit v.(u01_pduBitmap) 0 then v.(u01_sr) else mk_sr_0_1 0 0)
    (if uci_bit v.(u01_pduBitmap) 1 then v.(u01_harq) else mk_harq_0_1 0 0 []).

Lemma codec_uci_0_1 v : uci_0_1_ok v →
  codec (pack_nr_uci_pucch_0_1 v) unpack_nr_uci_pucch_0_1 (λ _ v', v' = uci_0_1_arrives v).
Proof.
  intros H. unfold uci_0_1_ok in H. wf H. unfold pack_nr_uci_pucch_0_1, unpack_nr_uci_pucch_0_1.
  rename select (_ → sr_0_1_ok _) into Hs. rename select (_ → harq_0_1_ok _) into Hh.
  repeat codec_step.
  eapply codec_bind; [apply codec_if with (x := u01_sr v); intros Hb; specialize (Hs Hb)|intros _ ? ->].
  { unfold sr_0_1_ok in Hs. wf Hs. repeat codec_step. by destruct (u01_sr v). }
  eapply codec_bind; [apply codec_if with (x := u01_harq v); intros Hb; specialize (Hh Hb)|intros _ ? ->].
  { unfold harq_0_1_ok in Hh. wf Hh. repeat codec_step. by destruct (u01_harq v). }
  repeat codec_step. done.
Qed.

Definition sr_2_3_4_ok (s : uci_sr_2_3_4) : Prop :=
  is_u16 s.(sr_bit_len) ∧ nr_bits_to_bytes s.(sr_bit_len) = zlen s.(sr_payload) ∧ Forall is_u8 s.(sr_payload).
Definition uci_2_3_4_ok (v : uci_pucch_2_3_4) : Prop :=
  Forall is_u8 [v.(u234_pduBitmap); v.(u234_pucch_format); v.(u234_ul_cqi)] ∧ is_u32 v.(u234_handle) ∧
  Forall is_u16 [v.(u234_rnti); v.(u234_timing_advance); v.(u234_rssi)] ∧
  (uci_bit v.(u234_pduBitmap) 0 = true → sr_2_3_4_ok v.(u234_sr)) ∧
  (uci_bit v.(u234_pduBitmap) 1 = true → uci_part_ok v.(u234_harq)) ∧
  (uci_bit v.(u234_pduBitmap) 2 = true → uci_part_ok v.(u234_csi_part1)) ∧
  (uci_bit v.(u234_pduBitmap) 3 = true → uci_part_ok v.(u234_csi_part2)).
Definition uci_2_3_4_arrives (v : uci_pucch_2_3_4) : uci_pucch_2_3_4 :=
  mk_uci_2_3_4 v.(u234_pduBitmap) v.(u234_handle) v.(u234_rnti) v.(u234_pucch_format) v.(u234_ul_cqi)
    v.(u234_timing_advance) v.(u234_rssi)
    (if uci_bit v.(u234_pduBitmap) 0 then v.(u234_sr) else mk_sr_2_3_4 0 [])
    (if uci_bit v.(u234_pduBitmap) 1 then v.(u234_harq) else zero_part)
    (if uci_bit v.(u234_pduBitmap) 2 then v.(u234_csi_part1) else zero_part)
    (if uci_bit v.(u234_pduBitmap) 3 then v.(u234_csi_part2) else zero_part).

Lemma codec_uci_2_3_4 v : uci_2_3_4_ok v →
  codec (pack_nr_uci_pucch_2_3_4 v) unpack_nr_uci_pucch_2_3_4 (λ _ v', v' = uci_2_3_4_arrives v).
Proof.
  intros H. unfold uci_2_3_4_ok in H. wf H. unfold pack_nr_uci_pucch_2_3_4, unpack_nr_uci_pucch_2_3_4.
  rename select (_ → sr_2_3_4_ok _) into Hs. cbn zeta. repeat codec_step.
  eapply codec_bind; [apply codec_if with (x := u234_sr v); intros Hb; specialize (Hs Hb)|intros _ ? ->].
  { unfold sr_2_3_4_ok in Hs. wf Hs. repeat codec_step. by destruct (u234_sr v). }
  repeat codec_step. done.
Qed.
#[local] Hint Resolve codec_uci_pusch codec_uci_0_1 codec_uci_2_3_4 : codec.

(** the type of a PDU says which member of the union it has *)
Definition uci_pdu_ok (v : uci_pdu) : Prop :=
  is_u16 v.(uci_pdu_size) ∧
  match v.(uci_pdu_body) with
  | uci_pusch p => v.(uci_pdu_type) = NFAPI_NR_UCI_PUSCH_PDU_TYPE ∧ uci_pusch_ok p
  | uci_0_1 p => v.(uci_pdu_type) = NFAPI_NR_UCI_FORMAT_0_1_PDU_TYPE ∧ uci_0_1_ok p
  | uci_2_3_4 p => v.(uci_pdu_type) = NFAPI_NR_UCI_FORMAT_2_3_4_PDU_TYPE ∧ uci_2_3_4_ok p
  end.
Definition uci_pdu_arrives (v : uci_pdu) : uci_pdu :=
  mk_uci v.(uci_pdu_type) v.(uci_pdu_size)
    match v.(uci_pdu_body) with
    | uci_pusch p => uci_pusch (uci_pusch_arrives p)
    | uci_0_1 p => uci_0_1 (uci_0_1_arrives p)
    | uci_2_3_4 p => uci_2_3_4 (uci_2_3_4_arrives p)
    end.
Definition uci_ind_ok (m : uci_indication) : Prop :=
  Forall is_u16 [m.(uci_sfn); m.(uci_slot); m.(uci_num_ucis)] ∧
  m.(uci_num_ucis) = zlen m.(uci_list) ∧ ∀ v, v ∈ m.(uci_list) → uci_pdu_ok v.
Definition uci_ind_arrives (m : uci_indication) : uci_indication :=
  mk_uci_ind m.(uci_sfn) m.(uci_slot) m.(uci_num_ucis) (uci_pdu_arrives <$> m.(uci_list)).

Lemma codec_uci_pdu v : uci_pdu_ok v →
  codec (pack_nr_uci_indication_body v) unpack_nr_uci_indication_body (λ _ v', v' = uci_pdu_arrives v).
Proof.
  intros (Hs & Hb). unfold pack_nr_uci_indication_body, unpack_nr_uci_indication_body, uci_pdu_arrives.
  destruct (uci_pdu_body v); destruct Hb as (-> & Hp); repeat codec_step; cbn -[codec];
    do 2 apply codec_map; (eapply codec_weaken; [eauto with codec|]); by intros _ ? ->.
Qed.
#[local] Hint Resolve codec_uci_pdu : codec.

Lemma codec_uci m : uci_ind_ok m →
  codec (pack_nr_uci_indication m) unpack_nr_uci_indication (λ _ m', m' = uci_ind_arrives m).
Proof.
  intros H. unfold uci_ind_ok in H. wf H. unfold pack_nr_uci_indication, unpack_nr_uci_indication.
  repeat codec_step. done.
Qed.

(** *** SRS.indication *)

(** the report has as many words as its length needs, of a length in which [length + 3] does
    not wrap *)
Definition srs_report_ok (v : srs_report_tlv) : Prop :=
  is_u16 v.(srs_tag) ∧ 0 <= v.(srs_length) <= 4 * SRS_REPORT_WORDS ∧
  Z.quot (v.(srs_length) + 3) 4 = zlen v.(srs_value) ∧ Forall is_u32 v.(srs_value).
(** of the last word only the octets that count arrive *)
Definition srs_report_arrives (v : srs_report_tlv) : srs_report_tlv :=
  mk_srs_report v.(srs_tag) v.(srs_length)
    (let q := Z.to_nat (Z.quot v.(srs_length) 4) in
     take q v.(srs_value) ++
     ((λ w, Z.land w (Z.ones (8 * cmod v.(srs_length) 4))) <$> drop q v.(srs_value))).

Definition srs_ind_pdu_ok (v : srs_indication_pdu) : Prop :=
  is_u32 v.(sri_handle) ∧ Forall is_u16 [v.(sri_rnti); v.(sri_timing_advance_offset)] ∧
  is_s16 v.(sri_timing_advance_offset_nsec) ∧ Forall is_u8 [v.(sri_srs_usage); v.(sri_report_type)] ∧
  srs_report_ok v.(sri_report_tlv).
Definition srs_ind_pdu_arrives (v : srs_indication_pdu) : srs_indication_pdu :=
  mk_srs_ind_pdu v.(sri_handle) v.(sri_rnti) v.(sri_timing_advance_offset)
    v.(sri_timing_advance_offset_nsec) v.(sri_srs_usage) v.(sri_report_type)
    (srs_report_arrives v.(sri_report_tlv)).
Definition srs_ind_ok (m : srs_indication) : Prop :=
  Forall is_u16 [m.(sri_sfn); m.(sri_slot); m.(sri_control_length)] ∧ is_u8 m.(sri_number_of_pdus) ∧
  m.(sri_number_of_pdus) = zlen m.(sri_pdu_list) ∧ ∀ v, v ∈ m.(sri_pdu_list) → srs_ind_pdu_ok v.
Definition srs_ind_arrives (m : srs_indication) : srs_indication :=
  mk_srs_ind m.(sri_sfn) m.(sri_slot) m.(sri_control_length) m.(sri_number_of_pdus)
    (srs_ind_pdu_arrives <$> m.(sri_pdu_list)).

(** the words of which all octets count *)
Lemma codec_full_words value n cap :
  n <= zlen value → n <= cap → 0 <= n → Forall is_u32 value →
  codec (pack_for n (λ i, w ← elem value i; push32 w)) (unpack_loop cap (λ _, pull32) 0 (Z.to_nat n))
    (λ _ l, l = take (Z.to_nat n) value).
Proof.
  intros Hn Hc H0 Hv. rewrite Forall_forall in Hv. set (l := take (Z.to_nat n) value).
  assert (zlen l = n) as Hl by (apply zlen_take; lia).
  eapply codec_weaken; [apply (codec_for l cap n _ (λ _, pull32) (λ _ x _ y, y = x)); [done|lia|]|].
  - intros j x Hx. apply lookup_take_Some in Hx as [Hx _]. apply codec_elem with x; [by rewrite Nat2Z.id|].
    apply codec_push32, Hv. by eapply list_elem_of_lookup_2.
  - cbn beta. intros la lb (Ha & Hb & H). apply list_eq_same_length with (length l); [lia..|].
    intros j y x Hj Hy Hx. destruct (lookup_lt_is_Some_2 la j) as [a Hla]; [lia|].
    exact (H j x a y Hx Hla Hy).
Qed.

(** what is left of the report behind the words of which all octets count *)
Lemma codec_last_word value (q r cap : Z) :
  0 <= q → zlen value <= cap → 0 <= r < 4 → zlen value = q + (if 0 <? r then 1 else 0) → Forall is_u32 value →
  codec (if 0 <? r then w ← elem value q; push32 (Z.land w (Z.ones (8 * r))) else mret tt)
    (unpack_loop cap (λ _, pull32) q (if 0 <? r then 1%nat else 0%nat))
    (λ _ l, l = (λ w, Z.land w (Z.ones (8 * r))) <$> drop (Z.to_nat q) value).
Proof.
  intros Hq Hc Hr Hl Hv. destruct (Z.ltb_spec 0 r) as [H|H]; cbn [unpack_loop].
  - destruct (lookup_lt_is_Some_2 value (Z.to_nat q)) as [w Hw]; [unfold zlen in Hl; lia|].
    apply codec_elem with w; [done|]. rewrite (proj2 (Z.ltb_lt _ _)) by lia.
    assert (is_u32 w) as W by (by eapply Forall_lookup_1).
    assert (is_u32 (Z.land w (Z.ones (8 * r)))) as Wm.
    { unfold is_u32 in *. rewrite Z.land_ones by lia. pose proof (Z.mod_le w (2 ^ (8 * r))).
      pose proof (Z.mod_pos_bound w (2 ^ (8 * r))). lia. }
    rewrite (drop_S _ w) by done. rewrite (drop_ge value) by (unfold zlen in Hl; lia).
    apply (codec_map _ _ (λ a, [a])). eapply codec_weaken; [by apply codec_push32|]. by intros _ ? ->.
  - apply codec_ret. by rewrite drop_ge by (unfold zlen in Hl; lia).
Qed.

Lemma codec_srs_report v : srs_report_ok v →
  codec (pack_nr_srs_report_tlv v) unpack_nr_srs_report_tlv (λ _ v', v' = srs_report_arrives v).
Proof.
  intros (Ht & Hlen & Hn & Hv). unfold pack_nr_srs_report_tlv, unpack_nr_srs_report_tlv.
  assert (4 * SRS_REPORT_WORDS = 278528) as HW by reflexivity.
  assert (is_u32 v.(srs_length)) as H32 by (unfold is_u32; change (2 ^ 32) with 4294967296; lia).
  repeat codec_step. cbn zeta. unfold unpack_nr_srs_report_tlv_value.
  rewrite u32_small by (change (2 ^ 32) with 4294967296; lia).
  rewrite !Z.quot_div_nonneg, !cmod_nonneg in * by lia.
  set (q := srs_length v / 4). set (r := srs_length v mod 4).
  assert (srs_length v = 4 * q + r ∧ 0 <= r < 4 ∧ 0 <= q) as (Hd & Hr & Hq)
    by (subst q r; Z.to_euclidean_division_equations; lia).
  assert ((srs_length v + 3) / 4 = q + (if 0 <? r then 1 else 0)) as E.
  { rewrite Hd. clearbody q r. destruct (Z.ltb_spec 0 r); Z.to_euclidean_division_equations; lia. }
  assert (zlen v.(srs_value) <= SRS_REPORT_WORDS) by (rewrite <- Hn, E; destruct (Z.ltb_spec 0 r); lia).
  apply codec_map, codec_check; [lia|].
  unfold unpack_for. rewrite E in *.
  replace (Z.to_nat (q + _)) with (Z.to_nat q + (if (0 <? r)%Z then 1 else 0))%nat by (destruct (0 <? r); lia).
  eapply codec_ext; [intros; apply unpack_loop_app|].
  eapply codec_bind; [apply codec_full_words; try done; destruct (0 <? r); lia|]. intros _ l1 ->.
  rewrite Z2Nat.id, Z.add_0_l by done. eapply codec_bind; [apply codec_last_word; try done; lia|].
  intros _ l2 ->. apply codec_ret. unfold srs_report_arrives.
  by rewrite Z.quot_div_nonneg, cmod_nonneg by lia.
Qed.
#[local] Hint Resolve codec_srs_report : codec.

Lemma codec_srs_ind_pdu v : srs_ind_pdu_ok v →
  codec (pack_nr_srs_indication_body v) unpack_nr_srs_indication_body (λ _ v', v' = srs_ind_pdu_arrives v).
Proof.
  intros H. unfold srs_ind_pdu_ok in H. wf H.
  unfold pack_nr_srs_indication_body, unpack_nr_srs_indication_body. repeat codec_step. done.
Qed.
#[local] Hint Resolve codec_srs_ind_pdu : codec.

Lemma codec_srs_ind m : srs_ind_ok m →
  codec (pack_nr_srs_indication m) unpack_nr_srs_indication (λ _ m', m' = srs_ind_arrives m).
Proof.
  intros H. unfold srs_ind_ok in H. wf H. unfold pack_nr_srs_indication, unpack_nr_srs_indication.
  repeat codec_step. done.
Qed.

(** *** Time of arrival of an SRS *)
Definition toa_ok (m : srs_toa_indication) : Prop :=
  Forall is_u16 [m.(toa_sfn); m.(toa_slot); m.(toa_rnti)] ∧ is_u8 m.(toa_num_ta) ∧
  m.(toa_num_ta) = zlen m.(toa_ta_offset_nsec) ∧ zlen m.(toa_ta_offset_nsec) <= NFAPI_NR_MAX_NUM_TA_NSEC ∧
  Forall is_s16 m.(toa_ta_offset_nsec).

Lemma codec_toa m : toa_ok m →
  codec (pack_nr_srs_toa_vendor_ext_indication m) unpack_nr_srs_toa_vendor_ext_indication (λ _ m', m' = m).
Proof.
  intros H. unfold toa_ok in H. wf H.
  unfold pack_nr_srs_toa_vendor_ext_indication, unpack_nr_srs_toa_vendor_ext_indication.
  repeat codec_step. apply codec_assert; [lia|]. repeat codec_step. by destruct m.
Qed.

(** *** RACH.indication *)
Definition preamble_ok (p : rach_preamble) : Prop :=
  is_u8 p.(pre_preamble_index) ∧ is_u16 p.(pre_timing_advance) ∧ is_u32 p.(pre_preamble_pwr).
Definition rach_pdu_ok (v : rach_pdu) : Prop :=
  is_u16 v.(rach_phy_cell_id) ∧
  Forall is_u8 [v.(rach_symbol_index); v.(rach_slot_index); v.(rach_freq_index); v.(rach_avg_rssi);
    v.(rach_avg_snr); v.(rach_num_preamble)] ∧
  v.(rach_num_preamble) = zlen v.(rach_preamble_list) ∧ zlen v.(rach_preamble_list) <= PREAMBLE_LIST_SIZE ∧
  ∀ p, p ∈ v.(rach_preamble_list) → preamble_ok p.
Definition rach_ind_ok (m : rach_indication) : Prop :=
  Forall is_u16 [m.(rach_sfn); m.(rach_slot)] ∧ is_u8 m.(rach_number_of_pdus) ∧
  m.(rach_number_of_pdus) = zlen m.(rach_pdu_list) ∧ ∀ v, v ∈ m.(rach_pdu_list) → rach_pdu_ok v.

Lemma codec_preamble p : preamble_ok p →
  codec (push8 p.(pre_preamble_index);; push16 p.(pre_timing_advance);; push32 p.(pre_preamble_pwr);; mret tt)
    (index ← pull8; timing_advance ← pull16; pwr ← pull32; mret (mk_preamble index timing_advance pwr))
    (λ _ p', p' = p).
Proof. intros H. unfold preamble_ok in H. wf H. repeat codec_step. by destruct p. Qed.
#[local] Hint Resolve codec_preamble : codec.

Lemma codec_rach_pdu v : rach_pdu_ok v →
  codec (pack_nr_rach_indication_body v) unpack_nr_rach_indication_body (λ _ v', v' = v).
Proof.
  intros H. unfold rach_pdu_ok in H. wf H. unfold pack_nr_rach_indication_body, unpack_nr_rach_indication_body.
  repeat codec_step. by destruct v.
Qed.
#[local] Hint Resolve codec_rach_pdu : codec.

Lemma codec_rach m : rach_ind_ok m →
  codec (pack_nr_rach_indication m) unpack_nr_rach_indication (λ _ m', m' = m).
Proof.
  intros H. unfold rach_ind_ok in H. wf H. unfold pack_nr_rach_indication, unpack_nr_rach_indication.
  repeat codec_step. by destruct m.
Qed.

(** ** No octet behind the end of the buffer *)
Lemma bounded_slot m : bounded (pack_nr_slot_indication m).
Proof. unfold pack_nr_slot_indication. bounded_steps. Qed.
Lemma bounded_rx_data m : bounded (pack_nr_rx_data_indication m).
Proof. unfold pack_nr_rx_data_indication, pack_nr_rx_data_indication_body. bounded_steps. Qed.
Lemma bounded_crc m : bounded (pack_nr_crc_indication m).
Proof. unfold pack_nr_crc_indication, pack_nr_crc_indication_body. bounded_steps. Qed.
Lemma bounded_uci_part p : bounded (pack_uci_part p).
Proof. unfold pack_uci_part. bounded_steps. Qed.
#[local] Hint Resolve bounded_uci_part : bounded.
Lemma bounded_uci_pusch v : bounded (pack_nr_uci_pusch v).
Proof. unfold pack_nr_uci_pusch. bounded_steps. Qed.
Lemma bounded_uci_0_1 v : bounded (pack_nr_uci_pucch_0_1 v).
Proof. unfold pack_nr_uci_pucch_0_1. bounded_steps. Qed.
Lemma bounded_uci_2_3_4 v : bounded (pack_nr_uci_pucch_2_3_4 v).
Proof. unfold pack_nr_uci_pucch_2_3_4. bounded_steps. Qed.
#[local] Hint Resolve bounded_uci_pusch bounded_uci_0_1 bounded_uci_2_3_4 : bounded.
Lemma bounded_uci m : bounded (pack_nr_uci_indication m).
Proof. unfold pack_nr_uci_indication, pack_nr_uci_indication_body. bounded_steps. Qed.
Lemma bounded_srs_report v : bounded (pack_nr_srs_report_tlv v).
Proof. unfold pack_nr_srs_report_tlv. bounded_steps. Qed.
#[local] Hint Resolve bounded_srs_report : bounded.
Lemma bounded_srs_ind m : bounded (pack_nr_srs_indication m).
Proof. unfold pack_nr_srs_indication, pack_nr_srs_indication_body, pushs16. bounded_steps. Qed.
Lemma bounded_toa m : bounded (pack_nr_srs_toa_vendor_ext_indication m).
Proof. unfold pack_nr_srs_toa_vendor_ext_indication, pushs16. bounded_steps. Qed.
Lemma bounded_rach m : bounded (pack_nr_rach_indication m).
Proof. unfold pack_nr_rach_indication, pack_nr_rach_indication_body. bounded_steps. Qed.

(** ** Any octets *)
Lemma reader_slot : prefix_reader unpack_nr_slot_indication.
Proof. unfold unpack_nr_slot_indication. reader_steps. Qed.
Lemma reader_rx_data : prefix_reader unpack_nr_rx_data_indication.
Proof. unfold unpack_nr_rx_data_indication, unpack_nr_rx_data_indication_body. reader_steps. Qed.
Lemma reader_crc : prefix_reader unpack_nr_crc_indication.
Proof. unfold unpack_nr_crc_indication, unpack_nr_crc_indication_body. reader_steps. Qed.
Lemma reader_uci_part : prefix_reader unpack_uci_part.
Proof. unfold unpack_uci_part. reader_steps. Qed.
#[local] Hint Resolve reader_uci_part : reader.
Lemma reader_uci_pusch : prefix_reader unpack_nr_uci_pusch.
Proof. unfold unpack_nr_uci_pusch. reader_steps. Qed.
Lemma reader_uci_0_1 : prefix_reader unpack_nr_uci_pucch_0_1.
Proof. unfold unpack_nr_uci_pucch_0_1. reader_steps. Qed.
Lemma reader_uci_2_3_4 : prefix_reader unpack_nr_uci_pucch_2_3_4.
Proof. unfold unpack_nr_uci_pucch_2_3_4. reader_steps. Qed.
#[local] Hint Resolve reader_uci_pusch reader_uci_0_1 reader_uci_2_3_4 : reader.
Lemma reader_uci : prefix_reader unpack_nr_uci_indication.
Proof. unfold unpack_nr_uci_indication, unpack_nr_uci_indication_body. reader_steps. Qed.
Lemma reader_srs_ind : prefix_reader unpack_nr_srs_indication.
Proof.
  unfold unpack_nr_srs_indication, unpack_nr_srs_indication_body, unpack_nr_srs_report_tlv,
    unpack_nr_srs_report_tlv_value. reader_steps.
Qed.
Lemma reader_toa : prefix_reader unpack_nr_srs_toa_vendor_ext_indication.
Proof. unfold unpack_nr_srs_toa_vendor_ext_indication. reader_steps. Qed.
Lemma reader_rach : prefix_reader unpack_nr_rach_indication.
Proof. unfold unpack_nr_rach_indication, unpack_nr_rach_indication_body. reader_steps. Qed.
