(* ===== verification/FapiSrs.v ===== *)
(** * FAPI: SRS reports

    The reports that the value of a report TLV of an SRS.indication holds: the normalized channel
    matrix, the channel as singular value decomposition and the beamforming report
    (nfapi_nr_p7.c). They are packed and unpacked by functions of their own, before the indication
    is packed and after it was unpacked. [Ok None] is any of the return values with which
    failure is reported; what is returned otherwise is the length (when packing) or a constant. *)

From S2P Require Import Prelude Bits Fapi FapiCodec.

(** ** Signed octets of nfapi.c *)
Definition pushs8 (x : Z) : packer unit := push8 x.
Definition pulls8 : unpacker Z := x ← pull8; mret (int_of 8 x).

(** ** Normalized channel matrix *)
Definition NFAPI_NR_SRS_CHANNEL_MATRIX_SIZE : Z := 272 * 4 * 64 * 4.

Record srs_channel_iq_matrix : Type := mk_iq_matrix {
  iq_representation : Z; iq_num_gnb_antenna_elements : Z; iq_num_ue_srs_ports : Z; iq_prg_size : Z;
  iq_num_prgs : Z; channel_matrix : list Z
}.

(** octets of the matrix, computed in 32 bits *)
Definition channel_matrix_size (representation ports antennas prgs : Z) : Z :=
  let size := u32 (u32 (prgs * ports) * antennas) in
  u32 (Z.shiftl size (if representation =? 0 then 1 else 2)).

Definition pack_nr_srs_normalized_channel_iq_matrix (v : srs_channel_iq_matrix) : packer unit :=
  push8 v.(iq_representation);; push16 v.(iq_num_gnb_antenna_elements);; push16 v.(iq_num_ue_srs_ports);;
  push16 v.(iq_prg_size);; push16 v.(iq_num_prgs);;
  let size := channel_matrix_size v.(iq_representation) v.(iq_num_ue_srs_ports)
    v.(iq_num_gnb_antenna_elements) v.(iq_num_prgs) in
  (if NFAPI_NR_SRS_CHANNEL_MATRIX_SIZE <? size then pack_fail else mret tt);;
  pack_for size (λ i, x ← elem v.(channel_matrix) i; push8 x);;
  mret tt.

Definition unpack_nr_srs_normalized_channel_iq_matrix : unpacker srs_channel_iq_matrix :=
  representation ← pull8; antennas ← pull16; ports ← pull16; prg_size ← pull16; num_prgs ← pull16;
  let size := channel_matrix_size representation ports antennas num_prgs in
  check_count size NFAPI_NR_SRS_CHANNEL_MATRIX_SIZE;;
  matrix ← unpack_for NFAPI_NR_SRS_CHANNEL_MATRIX_SIZE size (λ _, pull8);
  mret (mk_iq_matrix representation antennas ports prg_size num_prgs matrix).

(** ** Singular value decomposition *)
Record svd_prg : Type := mk_svd_prg {
  left_eigenvectors_matrix_u : list Z; diagonal_entries_of_singular_matrix_sum_f : list Z;
  complex_conjugate_of_matrix_of_right_eigenvectors_v_hf : list Z
}.
Record srs_channel_svd : Type := mk_svd {
  svd_iq_representation : Z; svd_singular_value_representation : Z; singular_value_scaling : Z;
  svd_num_gnb_antenna_elements : Z; svd_num_ue_srs_ports : Z; svd_prg_size : Z; svd_num_prgs : Z;
  svd_prg_list : list svd_prg
}.

Definition svd_iq_size (representation : Z) : Z := if representation =? 0 then 2 else 4.

Definition pack_svd_prg (nu ng iq_size : Z) (p : svd_prg) : packer unit :=
  pusharray8 p.(left_eigenvectors_matrix_u) (nu * nu * iq_size) (nu * nu * iq_size);;
  pusharray8 p.(diagonal_entries_of_singular_matrix_sum_f) (nu * iq_size) (nu * iq_size);;
  pusharray8 p.(complex_conjugate_of_matrix_of_right_eigenvectors_v_hf) (nu * ng * iq_size) (nu * ng * iq_size);;
  mret tt.

Definition pack_nr_srs_channel_svd_representation (v : srs_channel_svd) : packer unit :=
  let iq_size := svd_iq_size v.(svd_iq_representation) in
  let ng := v.(svd_num_gnb_antenna_elements) in
  let nu := v.(svd_num_ue_srs_ports) in
  push8 v.(svd_iq_representation);; push8 v.(svd_singular_value_representation);;
  pushs8 v.(singular_value_scaling);; push16 v.(svd_num_gnb_antenna_elements);;
  push8 v.(svd_num_ue_srs_ports);; push16 v.(svd_prg_size);; push16 v.(svd_num_prgs);;
  pack_for v.(svd_num_prgs) (λ i, p ← elem v.(svd_prg_list) i; pack_svd_prg nu ng iq_size p);;
  mret tt.

(** the arrays are allocated with the sizes announced *)
Definition unpack_svd_prg (nu ng iq_size : Z) : unpacker svd_prg :=
  let a := nu * nu * iq_size in let b := nu * iq_size in let c := nu * ng * iq_size in
  u ← pullarray8 a a a; s ← pullarray8 b b b; vh ← pullarray8 c c c;
  mret (mk_svd_prg u s vh).

Definition unpack_nr_srs_channel_svd_representation : unpacker srs_channel_svd :=
  iq_representation ← pull8; singular_value_representation ← pull8; scaling ← pulls8; ng ← pull16; nu ← pull8;
  prg_size ← pull16; num_prgs ← pull16;
  let iq_size := svd_iq_size iq_representation in
  l ← unpack_for num_prgs num_prgs (λ _, unpack_svd_prg nu ng iq_size);
  mret (mk_svd iq_representation singular_value_representation scaling ng nu prg_size num_prgs l).

(** ** Beamforming report *)
Definition BF_REPORTED_SYMBOLS : Z := 4.
Definition BF_REPORTED_PRGS : Z := 272.

Record srs_reported_symbol : Type := mk_reported_symbol { rs_num_prgs : Z; rb_snr : list Z }.
Record srs_beamforming_report : Type := mk_bf_report {
  bf_prg_size : Z; bf_num_symbols : Z; wide_band_snr : Z; num_reported_symbols : Z;
  reported_symbol_list : list srs_reported_symbol
}.

Definition pack_nr_srs_reported_symbol (p : srs_reported_symbol) : packer unit :=
  push16 p.(rs_num_prgs);;
  pack_for p.(rs_num_prgs) (λ i, x ← elem p.(rb_snr) i; push8 x);;
  mret tt.

Definition pack_nr_srs_beamforming_report (v : srs_beamforming_report) : packer unit :=
  push16 v.(bf_prg_size);; push8 v.(bf_num_symbols);; push8 v.(wide_band_snr);; push8 v.(num_reported_symbols);;
  pack_for v.(num_reported_symbols) (λ i, s ← elem v.(reported_symbol_list) i; pack_nr_srs_reported_symbol s);;
  mret tt.

(** neither count is compared with its array *)
Definition unpack_nr_srs_reported_symbol : unpacker srs_reported_symbol :=
  num_prgs ← pull16;
  l ← unpack_for BF_REPORTED_PRGS num_prgs (λ _, pull8);
  mret (mk_reported_symbol num_prgs l).

Definition unpack_nr_srs_beamforming_report : unpacker srs_beamforming_report :=
  prg_size ← pull16; num_symbols ← pull8; snr ← pull8; num_reported ← pull8;
  l ← unpack_for BF_REPORTED_SYMBOLS num_reported (λ _, unpack_nr_srs_reported_symbol);
  mret (mk_bf_report prg_size num_symbols snr num_reported l).

(** ** What is packed is what is unpacked *)
Definition is_s8 (x : Z) : Prop := - 2 ^ 7 <= x < 2 ^ 7.

Lemma codec_pushs8 x : is_s8 x → codec (pushs8 x) pulls8 (λ _ y, y = x).
Proof.
  intros Hx. unfold pushs8, pulls8. apply codec_map.
  assert (push8 x = push8 (u8 x)) as -> by (unfold push8, u8; by rewrite Z.mod_mod).
  eapply codec_weaken; [apply codec_push8; apply mod8_byte|]. cbn. intros _ b ->. unfold is_s8 in Hx.
  unfold int_of, u8. change (2 ^ 8) with 256. change (2 ^ (8 - 1)) with 128. rewrite Z.mod_mod by lia.
  destruct (Z.ltb_spec (x mod 256) 128); Z.to_euclidean_division_equations; lia.
Qed.

Definition iq_matrix_ok (v : srs_channel_iq_matrix) : Prop :=
  is_u8 v.(iq_representation) ∧
  Forall is_u16 [v.(iq_num_gnb_antenna_elements); v.(iq_num_ue_srs_ports); v.(iq_prg_size); v.(iq_num_prgs)] ∧
  channel_matrix_size v.(iq_representation) v.(iq_num_ue_srs_ports) v.(iq_num_gnb_antenna_elements)
    v.(iq_num_prgs) = zlen v.(channel_matrix) ∧
  zlen v.(channel_matrix) <= NFAPI_NR_SRS_CHANNEL_MATRIX_SIZE ∧ Forall is_u8 v.(channel_matrix).

Lemma codec_iq_matrix v : iq_matrix_ok v →
  codec (pack_nr_srs_normalized_channel_iq_matrix v) unpack_nr_srs_normalized_channel_iq_matrix (λ _ v', v' = v).
Proof.
  intros H. unfold iq_matrix_ok in H. wf H.
  unfold pack_nr_srs_normalized_channel_iq_matrix, unpack_nr_srs_normalized_channel_iq_matrix.
  repeat codec_step. cbn zeta.
  rewrite (proj2 (Z.ltb_ge NFAPI_NR_SRS_CHANNEL_MATRIX_SIZE _)) by lia. apply codec_skip.
  repeat codec_step. by destruct v.
Qed.

(** the structure of the IQ matrix needs as many octets as its dimensions say *)
Definition svd_prg_ok (nu ng iq_size : Z) (p : svd_prg) : Prop :=
  nu * nu * iq_size = zlen p.(left_eigenvectors_matrix_u) ∧ Forall is_u8 p.(left_eigenvectors_matrix_u) ∧
  nu * iq_size = zlen p.(diagonal_entries_of_singular_matrix_sum_f) ∧
  Forall is_u8 p.(diagonal_entries_of_singular_matrix_sum_f) ∧
  nu * ng * iq_size = zlen p.(complex_conjugate_of_matrix_of_right_eigenvectors_v_hf) ∧
  Forall is_u8 p.(complex_conjugate_of_matrix_of_right_eigenvectors_v_hf).
Definition svd_ok (v : srs_channel_svd) : Prop :=
  Forall is_u8 [v.(svd_iq_representation); v.(svd_singular_value_representation); v.(svd_num_ue_srs_ports)] ∧
  is_s8 v.(singular_value_scaling) ∧
  Forall is_u16 [v.(svd_num_gnb_antenna_elements); v.(svd_prg_size); v.(svd_num_prgs)] ∧
  v.(svd_num_prgs) = zlen v.(svd_prg_list) ∧
  ∀ p, p ∈ v.(svd_prg_list) →
    svd_prg_ok v.(svd_num_ue_srs_ports) v.(svd_num_gnb_antenna_elements) (svd_iq_size v.(svd_iq_representation)) p.

Lemma codec_svd_prg nu ng iq_size p : svd_prg_ok nu ng iq_size p →
  codec (pack_svd_prg nu ng iq_size p) (unpack_svd_prg nu ng iq_size) (λ _ p', p' = p).
Proof.
  intros H. unfold svd_prg_ok in H. wf H. unfold pack_svd_prg, unpack_svd_prg. cbn zeta.
  repeat codec_step. by destruct p.
Qed.
#[local] Hint Resolve codec_svd_prg codec_pushs8 : codec.

Lemma codec_svd v : svd_ok v →
  codec (pack_nr_srs_channel_svd_representation v) unpack_nr_srs_channel_svd_representation (λ _ v', v' = v).
Proof.
  intros H. unfold svd_ok in H. wf H.
  unfold pack_nr_srs_channel_svd_representation, unpack_nr_srs_channel_svd_representation. cbn zeta.
  repeat codec_step. by destruct v.
Qed.

Definition reported_symbol_ok (p : srs_reported_symbol) : Prop :=
  is_u16 p.(rs_num_prgs) ∧ p.(rs_num_prgs) = zlen p.(rb_snr) ∧ zlen p.(rb_snr) <= BF_REPORTED_PRGS ∧
  Forall is_u8 p.(rb_snr).
Definition bf_report_ok (v : srs_beamforming_report) : Prop :=
  is_u16 v.(bf_prg_size) ∧ Forall is_u8 [v.(bf_num_symbols); v.(wide_band_snr); v.(num_reported_symbols)] ∧
  v.(num_reported_symbols) = zlen v.(reported_symbol_list) ∧ zlen v.(reported_symbol_list) <= BF_REPORTED_SYMBOLS ∧
  ∀ p, p ∈ v.(reported_symbol_list) → reported_symbol_ok p.

Lemma codec_reported_symbol p : reported_symbol_ok p →
  codec (pack_nr_srs_reported_symbol p) unpack_nr_srs_reported_symbol (λ _ p', p' = p).
Proof.
  intros H. unfold reported_symbol_ok in H. wf H.
  unfold pack_nr_srs_reported_symbol, unpack_nr_srs_reported_symbol. repeat codec_step. by destruct p.
Qed.
#[local] Hint Resolve codec_reported_symbol : codec.

Lemma codec_bf_report v : bf_report_ok v →
  codec (pack_nr_srs_beamforming_report v) unpack_nr_srs_beamforming_report (λ _ v', v' = v).
Proof.
  intros H. unfold bf_report_ok in H. wf H.
  unfold pack_nr_srs_beamforming_report, unpack_nr_srs_beamforming_report. repeat codec_step. by destruct v.
Qed.

(** ** Buffers and arrays *)
Lemma bounded_iq_matrix v : bounded (pack_nr_srs_normalized_channel_iq_matrix v).
Proof. unfold pack_nr_srs_normalized_channel_iq_matrix. bounded_steps. Qed.
Lemma bounded_svd v : bounded (pack_nr_srs_channel_svd_representation v).
Proof. unfold pack_nr_srs_channel_svd_representation, pack_svd_prg, pushs8. bounded_steps. Qed.
Lemma bounded_bf_report v : bounded (pack_nr_srs_beamforming_report v).
Proof. unfold pack_nr_srs_beamforming_report, pack_nr_srs_reported_symbol. bounded_steps. Qed.

Lemma reader_iq_matrix : prefix_reader unpack_nr_srs_normalized_channel_iq_matrix.
Proof. unfold unpack_nr_srs_normalized_channel_iq_matrix. reader_steps. Qed.
Lemma reader_svd : prefix_reader unpack_nr_srs_channel_svd_representation.
Proof. unfold unpack_nr_srs_channel_svd_representation, unpack_svd_prg, pulls8. reader_steps. Qed.

(** A report that is in range and whose counts fit is packed into any buffer that is large
    enough, nowhere behind its end, and unpacked to the same report; the unpackers of the matrix
    and of the decomposition stay within their arrays on any octets. *)
Theorem srs_reports_transferred iq svd bf :
  iq_matrix_ok iq → svd_ok svd → bf_report_ok bf →
  codec (pack_nr_srs_normalized_channel_iq_matrix iq) unpack_nr_srs_normalized_channel_iq_matrix (λ _ v, v = iq) ∧
  codec (pack_nr_srs_channel_svd_representation svd) unpack_nr_srs_channel_svd_representation (λ _ v, v = svd) ∧
  codec (pack_nr_srs_beamforming_report bf) unpack_nr_srs_beamforming_report (λ _ v, v = bf).
Proof. auto using codec_iq_matrix, codec_svd, codec_bf_report. Qed.

(** The unpacker of the beamforming report leaves its arrays: with five symbols, and with 273
    PRGs of one. *)
Lemma bf_report_leaves_array :
  unpack_nr_srs_beamforming_report ([0; 4; 1; 100; 5] ++ repeat 0 10) = Undef ∧
  unpack_nr_srs_beamforming_report ([0; 4; 1; 100; 1; 1; 17] ++ repeat 90 273) = Undef.
Proof. by split; vm_compute. Qed.
