(* ===== verification/FapiP7.v ===== *)
(** * FAPI: messages

    The messages of the P7 interface as they are sent between MAC and the physical layer: the
    header of eight octets and the body that its message id announces
    (fapi_nr_p7_message_pack and fapi_nr_p7_message_unpack of nr_fapi_p7.c, and what they use of
    nr_fapi.c). Parameters: the sizes that the compiler gives to structures, against which the
    memory for a message is compared, and the callbacks for the messages of a vendor, which may
    be missing. *)

From S2P Require Import Prelude Fapi FapiDl FapiUl FapiInd.

(** ** Message ids *)
Definition NFAPI_NR_PHY_MSG_TYPE_PARAM_REQUEST : Z := 0x00.
Definition NFAPI_NR_PHY_MSG_TYPE_PARAM_RESPONSE : Z := 0x01.
Definition NFAPI_NR_PHY_MSG_TYPE_CONFIG_REQUEST : Z := 0x02.
Definition NFAPI_NR_PHY_MSG_TYPE_CONFIG_RESPONSE : Z := 0x03.
Definition NFAPI_NR_PHY_MSG_TYPE_START_REQUEST : Z := 0x04.
Definition NFAPI_NR_PHY_MSG_TYPE_STOP_REQUEST : Z := 0x05.
Definition NFAPI_NR_PHY_MSG_TYPE_STOP_INDICATION : Z := 0x06.
Definition NFAPI_NR_PHY_MSG_TYPE_ERROR_INDICATION : Z := 0x07.
Definition NFAPI_NR_PHY_MSG_TYPE_START_RESPONSE : Z := 0x108.
Definition NFAPI_NR_PHY_MSG_TYPE_DL_TTI_REQUEST : Z := 0x80.
Definition NFAPI_NR_PHY_MSG_TYPE_UL_TTI_REQUEST : Z := 0x81.
Definition NFAPI_NR_PHY_MSG_TYPE_SLOT_INDICATION : Z := 0x82.
Definition NFAPI_NR_PHY_MSG_TYPE_UL_DCI_REQUEST : Z := 0x83.
Definition NFAPI_NR_PHY_MSG_TYPE_TX_DATA_REQUEST : Z := 0x84.
Definition NFAPI_NR_PHY_MSG_TYPE_RX_DATA_INDICATION : Z := 0x85.
Definition NFAPI_NR_PHY_MSG_TYPE_CRC_INDICATION : Z := 0x86.
Definition NFAPI_NR_PHY_MSG_TYPE_UCI_INDICATION : Z := 0x87.
Definition NFAPI_NR_PHY_MSG_TYPE_SRS_INDICATION : Z := 0x88.
Definition NFAPI_NR_PHY_MSG_TYPE_RACH_INDICATION : Z := 0x89.
Definition NFAPI_NR_PHY_MSG_TYPE_VENDOR_EXT_SLOT_RESPONSE : Z := 0x8F.
Definition NFAPI_NR_PHY_MSG_TYPE_UL_NODE_SYNC : Z := 0x180.
Definition NFAPI_NR_PHY_MSG_TYPE_DL_NODE_SYNC : Z := 0x181.
Definition NFAPI_NR_PHY_MSG_TYPE_TIMING_INFO : Z := 0x182.
Definition NFAPI_NR_PHY_MSG_TYPE_SRS_TOA_VENDOR_EXTENSION_INDICATION : Z := 0x300.
Definition NFAPI_VENDOR_EXT_MSG_MIN : Z := 0x300.
Definition NFAPI_VENDOR_EXT_MSG_MAX : Z := 0x3FF.

Definition NFAPI_HEADER_LENGTH : Z := 8.

Definition isFAPIMessageIDValid (id : Z) : bool :=
  (NFAPI_NR_PHY_MSG_TYPE_PARAM_REQUEST <=? id) && (id <=? 0xFF) || (id =? NFAPI_NR_PHY_MSG_TYPE_START_RESPONSE)
  || (id =? NFAPI_NR_PHY_MSG_TYPE_UL_NODE_SYNC) || (id =? NFAPI_NR_PHY_MSG_TYPE_DL_NODE_SYNC)
  || (id =? NFAPI_NR_PHY_MSG_TYPE_TIMING_INFO).

(** ** Memory for a message *)

(** the structures whose size is taken *)
Inductive fapi_struct : Type :=
| fapi_message_header_t | nfapi_vendor_extension_tlv_t | nfapi_nr_nfapi_t
| nfapi_nr_param_request_scf_t | nfapi_nr_param_response_scf_t
| nfapi_nr_config_request_scf_t | nfapi_nr_config_response_scf_t
| nfapi_nr_start_request_scf_t | nfapi_nr_start_response_scf_t
| nfapi_nr_stop_request_scf_t | nfapi_nr_stop_indication_scf_t | nfapi_nr_error_indication_scf_t
| nfapi_nr_dl_tti_request_t | nfapi_nr_ul_tti_request_t | nfapi_nr_slot_indication_scf_t
| nfapi_nr_ul_dci_request_t | nfapi_nr_tx_data_request_t | nfapi_nr_rx_data_indication_t
| nfapi_nr_crc_indication_t | nfapi_nr_rach_indication_t | nfapi_nr_uci_indication_t
| nfapi_nr_srs_indication_t | nfapi_nr_srs_toa_vendor_ext_indication_t
| nfapi_nr_dl_node_sync_t | nfapi_nr_ul_node_sync_t | nfapi_nr_timing_info_t.

(** what is required of the memory, and what is returned if it is there *)
Definition fapi_unpack_length (sizeof : fapi_struct → Z) (msgId : Z) : option (Z * Z) :=
  let same s := Some (sizeof s, sizeof s) in
  let without_ve s ret := Some (sizeof s - sizeof nfapi_vendor_extension_tlv_t, sizeof ret) in
  let without_nfapi s ret :=
    Some (sizeof s - sizeof nfapi_vendor_extension_tlv_t - sizeof nfapi_nr_nfapi_t, sizeof ret) in
  if msgId =? NFAPI_NR_PHY_MSG_TYPE_PARAM_REQUEST then without_ve nfapi_nr_param_request_scf_t fapi_message_header_t
  else if msgId =? NFAPI_NR_PHY_MSG_TYPE_PARAM_RESPONSE then
    without_nfapi nfapi_nr_param_response_scf_t nfapi_nr_param_request_scf_t
  else if msgId =? NFAPI_NR_PHY_MSG_TYPE_CONFIG_REQUEST then
    without_nfapi nfapi_nr_config_request_scf_t nfapi_nr_config_request_scf_t
  else if msgId =? NFAPI_NR_PHY_MSG_TYPE_CONFIG_RESPONSE then
    without_ve nfapi_nr_config_response_scf_t nfapi_nr_config_response_scf_t
  else if msgId =? NFAPI_NR_PHY_MSG_TYPE_START_REQUEST then without_ve nfapi_nr_start_request_scf_t fapi_message_header_t
  else if msgId =? NFAPI_NR_PHY_MSG_TYPE_START_RESPONSE then without_ve nfapi_nr_start_response_scf_t fapi_message_header_t
  else if msgId =? NFAPI_NR_PHY_MSG_TYPE_STOP_REQUEST then without_ve nfapi_nr_stop_request_scf_t fapi_message_header_t
  else if msgId =? NFAPI_NR_PHY_MSG_TYPE_STOP_INDICATION then
    without_ve nfapi_nr_stop_indication_scf_t fapi_message_header_t
  else if msgId =? NFAPI_NR_PHY_MSG_TYPE_ERROR_INDICATION then
    without_ve nfapi_nr_error_indication_scf_t fapi_message_header_t
  else if msgId =? NFAPI_NR_PHY_MSG_TYPE_DL_TTI_REQUEST then same nfapi_nr_dl_tti_request_t
  else if msgId =? NFAPI_NR_PHY_MSG_TYPE_UL_TTI_REQUEST then same nfapi_nr_ul_tti_request_t
  else if (msgId =? NFAPI_NR_PHY_MSG_TYPE_SLOT_INDICATION)
       || (msgId =? NFAPI_NR_PHY_MSG_TYPE_VENDOR_EXT_SLOT_RESPONSE) then same nfapi_nr_slot_indication_scf_t
  else if msgId =? NFAPI_NR_PHY_MSG_TYPE_UL_DCI_REQUEST then same nfapi_nr_ul_dci_request_t
  else if msgId =? NFAPI_NR_PHY_MSG_TYPE_TX_DATA_REQUEST then same nfapi_nr_tx_data_request_t
  else if msgId =? NFAPI_NR_PHY_MSG_TYPE_RX_DATA_INDICATION then same nfapi_nr_rx_data_indication_t
  else if msgId =? NFAPI_NR_PHY_MSG_TYPE_CRC_INDICATION then same nfapi_nr_crc_indication_t
  else if msgId =? NFAPI_NR_PHY_MSG_TYPE_RACH_INDICATION then same nfapi_nr_rach_indication_t
  else if msgId =? NFAPI_NR_PHY_MSG_TYPE_UCI_INDICATION then same nfapi_nr_uci_indication_t
  else if msgId =? NFAPI_NR_PHY_MSG_TYPE_SRS_INDICATION then same nfapi_nr_srs_indication_t
  else if msgId =? NFAPI_NR_PHY_MSG_TYPE_SRS_TOA_VENDOR_EXTENSION_INDICATION then
    same nfapi_nr_srs_toa_vendor_ext_indication_t
  else if msgId =? NFAPI_NR_PHY_MSG_TYPE_DL_NODE_SYNC then same nfapi_nr_dl_node_sync_t
  else if msgId =? NFAPI_NR_PHY_MSG_TYPE_UL_NODE_SYNC then same nfapi_nr_ul_node_sync_t
  else if msgId =? NFAPI_NR_PHY_MSG_TYPE_TIMING_INFO then without_ve nfapi_nr_timing_info_t nfapi_nr_timing_info_t
  else None.

Definition check_nr_fapi_unpack_length (sizeof : fapi_struct → Z) (msgId unpackedBufLen : Z) : Z :=
  match fapi_unpack_length sizeof msgId with
  | Some (required, retLen) => if required <=? unpackedBufLen then retLen else 0
  | None => 0
  end.

(** ** Bodies *)
Section messages.
Context {V : Type}.

(** the structure behind a header; that of a vendor's message is the callbacks' business *)
Inductive p7_body : Type :=
| p7_dl_tti_request (m : dl_tti_request)
| p7_ul_tti_request (m : ul_tti_request)
| p7_slot_indication (m : slot_indication)
| p7_ul_dci_request (m : ul_dci_request)
| p7_tx_data_request (m : tx_data_request)
| p7_rx_data_indication (m : rx_data_indication)
| p7_crc_indication (m : crc_indication)
| p7_uci_indication (m : uci_indication)
| p7_srs_indication (m : srs_indication)
| p7_srs_toa_indication (m : srs_toa_indication)
| p7_rach_indication (m : rach_indication)
| p7_vendor (v : V).

Record p7_message : Type := mk_p7_message {
  phy_id : Z; message_id : Z; message_length : Z; body : p7_body
}.

(** [nfapi_p7_codec_config_t]; a callback fails if it returns 0 *)
Record p7_codec_config : Type := mk_p7_codec_config {
  pack_p7_vendor_extension : option (Z → V → packer V);
  unpack_p7_vendor_extension : option (Z → unpacker V)
}.

(** the memory that a message is unpacked into *)
Record p7_memory : Type := mk_p7_memory {
  mem_dl_tti : Z → dl_pdu_memory; mem_ul_tti : Z → ul_pdu_memory; mem_ul_dci : Z → pdcch_pdu_rel15
}.

(** the structure that is left, as a body *)
Definition left_as {A} (f : A → p7_body) (p : packer A) : packer p7_body := a ← p; mret (f a).

Definition fapi_nr_p7_message_body_pack (config : option p7_codec_config) (id : Z) (b : p7_body) : packer p7_body :=
  if id =? NFAPI_NR_PHY_MSG_TYPE_DL_TTI_REQUEST then
    match b with p7_dl_tti_request m => left_as p7_dl_tti_request (pack_dl_tti_request m) | _ => pack_undef end
  else if id =? NFAPI_NR_PHY_MSG_TYPE_UL_TTI_REQUEST then
    match b with p7_ul_tti_request m => left_as p7_ul_tti_request (pack_ul_tti_request m) | _ => pack_undef end
  else if id =? NFAPI_NR_PHY_MSG_TYPE_SLOT_INDICATION then
    match b with p7_slot_indication m => left_as (λ _, b) (pack_nr_slot_indication m) | _ => pack_undef end
  else if id =? NFAPI_NR_PHY_MSG_TYPE_UL_DCI_REQUEST then
    match b with p7_ul_dci_request m => left_as p7_ul_dci_request (pack_ul_dci_request m) | _ => pack_undef end
  else if id =? NFAPI_NR_PHY_MSG_TYPE_TX_DATA_REQUEST then
    match b with p7_tx_data_request m => left_as (λ _, b) (pack_tx_data_request m) | _ => pack_undef end
  else if id =? NFAPI_NR_PHY_MSG_TYPE_RX_DATA_INDICATION then
    match b with p7_rx_data_indication m => left_as (λ _, b) (pack_nr_rx_data_indication m) | _ => pack_undef end
  else if id =? NFAPI_NR_PHY_MSG_TYPE_CRC_INDICATION then
    match b with p7_crc_indication m => left_as (λ _, b) (pack_nr_crc_indication m) | _ => pack_undef end
  else if id =? NFAPI_NR_PHY_MSG_TYPE_UCI_INDICATION then
    match b with p7_uci_indication m => left_as (λ _, b) (pack_nr_uci_indication m) | _ => pack_undef end
  else if id =? NFAPI_NR_PHY_MSG_TYPE_SRS_INDICATION then
    match b with p7_srs_indication m => left_as (λ _, b) (pack_nr_srs_indication m) | _ => pack_undef end
  else if id =? NFAPI_NR_PHY_MSG_TYPE_SRS_TOA_VENDOR_EXTENSION_INDICATION then
    match b with p7_srs_toa_indication m => left_as (λ _, b) (pack_nr_srs_toa_vendor_ext_indication m) | _ => pack_undef end
  else if id =? NFAPI_NR_PHY_MSG_TYPE_RACH_INDICATION then
    match b with p7_rach_indication m => left_as (λ _, b) (pack_nr_rach_indication m) | _ => pack_undef end
  else if (NFAPI_VENDOR_EXT_MSG_MIN <=? id) && (id <=? NFAPI_VENDOR_EXT_MSG_MAX) then
    match config ≫= pack_p7_vendor_extension with
    | Some pack => match b with p7_vendor v => left_as p7_vendor (pack id v) | _ => pack_undef end
    | None => pack_fail
    end
  else pack_fail.

(** get_packed_msg_len of nfapi.c *)
Definition get_packed_msg_len (msgHead msgEnd : Z) : Z :=
  if msgEnd <? msgHead then 0 else u32 (msgEnd - msgHead).

(** The body is written first, behind the room for the header; what is returned is the message
    with the length stored in its header, and the octets. *)
Definition fapi_nr_p7_message_pack (config : option p7_codec_config) (m : p7_message) (packedBufLen : Z)
    : outcome (option (bytes * p7_message)) :=
  match fapi_nr_p7_message_body_pack config m.(message_id) m.(body) (packedBufLen - NFAPI_HEADER_LENGTH) with
  | Ok (Some (bs, b)) =>
      match (push8 1;; push8 m.(phy_id);; push16 m.(message_id)) packedBufLen with
      | Ok (Some (hd, _)) =>
          let packedMsgLen := get_packed_msg_len NFAPI_HEADER_LENGTH (NFAPI_HEADER_LENGTH + zlen bs) in
          if packedBufLen <? packedMsgLen then Ok None
          else
            match push32 packedMsgLen (packedBufLen - 4) with
            | Ok (Some (len, _)) => Ok (Some (hd ++ len ++ bs, mk_p7_message m.(phy_id) m.(message_id) packedMsgLen b))
            | _ => Ok None
            end
      | _ => Ok None
      end
  | Ok None => Fatal
  | Fatal => Fatal | Undef => Undef | Diverge => Diverge
  end.

Context (sizeof : fapi_struct → Z).

(** phy_id, message_id and message_length *)
Definition fapi_nr_message_header_unpack (i : bytes) (messageBufLen unpackedBufLen : Z) : outcome (option (Z * Z * Z)) :=
  if (messageBufLen <? NFAPI_HEADER_LENGTH) || (unpackedBufLen <? sizeof fapi_message_header_t) then Ok None
  else
    match (num_msg ← pull8; opaque_handle ← pull8; id ← pull16; len ← pull32;
           mret (opaque_handle, id, len)) (take (Z.to_nat messageBufLen) i) with
    | Ok (Some (h, _)) => Ok (Some h)
    | Ok None => Ok None
    | Fatal => Fatal | Undef => Undef | Diverge => Diverge
    end.

(** fapi_nr_p7_message_header_unpack has an argument more, which it does not use *)
Definition fapi_nr_p7_message_header_unpack (i : bytes) (messageBufLen unpackedBufLen : Z) : outcome (option (Z * Z * Z)) :=
  fapi_nr_message_header_unpack i messageBufLen unpackedBufLen.

(** what follows the header; [result] is 0 if the memory is too small *)
Definition unpack_checked {A} (unpackedBufLen id : Z) (f : A → p7_body) (u : unpacker A) : unpacker p7_body :=
  if check_nr_fapi_unpack_length sizeof id unpackedBufLen =? 0 then unpack_fail else a ← u; mret (f a).

Definition fapi_nr_p7_message_body_unpack (config : option p7_codec_config) (old : p7_memory)
    (unpackedBufLen id : Z) : unpacker p7_body :=
  if id =? NFAPI_NR_PHY_MSG_TYPE_DL_TTI_REQUEST then
    unpack_checked unpackedBufLen id p7_dl_tti_request (unpack_dl_tti_request old.(mem_dl_tti))
  else if id =? NFAPI_NR_PHY_MSG_TYPE_UL_TTI_REQUEST then
    unpack_checked unpackedBufLen id p7_ul_tti_request (unpack_ul_tti_request old.(mem_ul_tti))
  else if id =? NFAPI_NR_PHY_MSG_TYPE_SLOT_INDICATION then
    unpack_checked unpackedBufLen id p7_slot_indication unpack_nr_slot_indication
  else if id =? NFAPI_NR_PHY_MSG_TYPE_UL_DCI_REQUEST then
    unpack_checked unpackedBufLen id p7_ul_dci_request (unpack_ul_dci_request old.(mem_ul_dci))
  else if id =? NFAPI_NR_PHY_MSG_TYPE_TX_DATA_REQUEST then
    unpack_checked unpackedBufLen id p7_tx_data_request unpack_tx_data_request
  else if id =? NFAPI_NR_PHY_MSG_TYPE_RX_DATA_INDICATION then
    unpack_checked unpackedBufLen id p7_rx_data_indication unpack_nr_rx_data_indication
  else if id =? NFAPI_NR_PHY_MSG_TYPE_CRC_INDICATION then
    unpack_checked unpackedBufLen id p7_crc_indication unpack_nr_crc_indication
  else if id =? NFAPI_NR_PHY_MSG_TYPE_UCI_INDICATION then
    unpack_checked unpackedBufLen id p7_uci_indication unpack_nr_uci_indication
  else if id =? NFAPI_NR_PHY_MSG_TYPE_SRS_INDICATION then
    unpack_checked unpackedBufLen id p7_srs_indication unpack_nr_srs_indication
  else if id =? NFAPI_NR_PHY_MSG_TYPE_SRS_TOA_VENDOR_EXTENSION_INDICATION then
    unpack_checked unpackedBufLen id p7_srs_toa_indication unpack_nr_srs_toa_vendor_ext_indication
  else if id =? NFAPI_NR_PHY_MSG_TYPE_RACH_INDICATION then
    unpack_checked unpackedBufLen id p7_rach_indication unpack_nr_rach_indication
  else if (NFAPI_VENDOR_EXT_MSG_MIN <=? id) && (id <=? NFAPI_VENDOR_EXT_MSG_MAX) then
    match config ≫= unpack_p7_vendor_extension with
    | Some unpack => v ← unpack id; mret (p7_vendor v)
    | None => unpack_fail
    end
  else unpack_fail.

(** [Ok None]: false is returned *)
Definition fapi_nr_p7_message_unpack (config : option p7_codec_config) (old : p7_memory)
    (i : bytes) (unpackedBufLen : Z) : outcome (option p7_message) :=
  if (NFAPI_HEADER_LENGTH <=? zlen i) && (sizeof fapi_message_header_t <=? unpackedBufLen) then
    match fapi_nr_message_header_unpack i NFAPI_HEADER_LENGTH (sizeof fapi_message_header_t) with
    | Ok (Some (phy, id, len)) =>
        if zlen i <? len then Ok None
        else
          match fapi_nr_p7_message_body_unpack config old unpackedBufLen id (drop (Z.to_nat NFAPI_HEADER_LENGTH) i) with
          | Ok (Some (b, _)) => Ok (Some (mk_p7_message phy id len b))
          | Ok None => Ok None
          | Fatal => Fatal | Undef => Undef | Diverge => Diverge
          end
    | Ok None => Ok None
    | Fatal => Fatal | Undef => Undef | Diverge => Diverge
    end
  else Fatal.
End messages.
Arguments p7_body : clear implicits.
Arguments p7_message : clear implicits.
Arguments p7_codec_config : clear implicits.
