(* ===== verification/FapiP7Proofs.v ===== *)
(** * FAPI messages

    Whole messages, header and body: what is packed is what is unpacked, for every type of
    message; no octet is written behind the buffer; on any octets the unpacker of all types but
    UL_TTI.request stays within its arrays, and it rejects a message that was cut; and what it
    makes of the length in the header. *)

From S2P Require Import Prelude Bits Fapi FapiCodec FapiDl FapiDlProofs FapiUl FapiUlProofs FapiInd FapiIndProofs FapiP7.

Section messages_ok.
Context {V : Type}.
Implicit Types (b : p7_body V) (m : p7_message V) (config : option (p7_codec_config V)).

(** the id says which structure follows, and its fields are in range *)
Definition p7_body_ok (id : Z) b : Prop :=
  match b with
  | p7_dl_tti_request m => id = NFAPI_NR_PHY_MSG_TYPE_DL_TTI_REQUEST ∧ dl_tti_ok m
  | p7_ul_tti_request m => id = NFAPI_NR_PHY_MSG_TYPE_UL_TTI_REQUEST ∧ ul_tti_ok m
  | p7_slot_indication m => id = NFAPI_NR_PHY_MSG_TYPE_SLOT_INDICATION ∧ slot_ok m
  | p7_ul_dci_request m => id = NFAPI_NR_PHY_MSG_TYPE_UL_DCI_REQUEST ∧ ul_dci_ok m
  | p7_tx_data_request m => id = NFAPI_NR_PHY_MSG_TYPE_TX_DATA_REQUEST ∧ tx_data_ok m
  | p7_rx_data_indication m => id = NFAPI_NR_PHY_MSG_TYPE_RX_DATA_INDICATION ∧ rx_data_ok m
  | p7_crc_indication m => id = NFAPI_NR_PHY_MSG_TYPE_CRC_INDICATION ∧ crc_ind_ok m
  | p7_uci_indication m => id = NFAPI_NR_PHY_MSG_TYPE_UCI_INDICATION ∧ uci_ind_ok m
  | p7_srs_indication m => id = NFAPI_NR_PHY_MSG_TYPE_SRS_INDICATION ∧ srs_ind_ok m
  | p7_srs_toa_indication m => id = NFAPI_NR_PHY_MSG_TYPE_SRS_TOA_VENDOR_EXTENSION_INDICATION ∧ toa_ok m
  | p7_rach_indication m => id = NFAPI_NR_PHY_MSG_TYPE_RACH_INDICATION ∧ rach_ind_ok m
  | p7_vendor _ => False
  end.
Definition p7_message_ok m : Prop := is_u8 m.(phy_id) ∧ p7_body_ok m.(message_id) m.(body).

(** what packing leaves of a body *)
Definition p7_body_same b b' : Prop :=
  match b, b' with
  | p7_dl_tti_request m, p7_dl_tti_request m' => dl_tti_same m m'
  | p7_ul_tti_request m, p7_ul_tti_request m' => ul_tti_same m m'
  | p7_ul_dci_request m, p7_ul_dci_request m' => ul_dci_same m m'
  | _, _ => b' = b
  end.
(** what unpacking makes of it *)
Definition p7_body_arrives (old : p7_memory) b : p7_body V :=
  match b with
  | p7_dl_tti_request m => p7_dl_tti_request (dl_tti_arrives old.(mem_dl_tti) m)
  | p7_ul_tti_request m => p7_ul_tti_request (ul_tti_arrives old.(mem_ul_tti) m)
  | p7_ul_dci_request m => p7_ul_dci_request (ul_dci_arrives old.(mem_ul_dci) m)
  | p7_tx_data_request m => p7_tx_data_request (tx_data_arrives m)
  | p7_uci_indication m => p7_uci_indication (uci_ind_arrives m)
  | p7_srs_indication m => p7_srs_indication (srs_ind_arrives m)
  | _ => b
  end.
Definition p7_arrives (old : p7_memory) m : p7_message V :=
  mk_p7_message m.(phy_id) m.(message_id) m.(message_length) (p7_body_arrives old m.(body)).

(** the memory for the message is large enough *)
Definition p7_memory_suffices (sizeof : fapi_struct → Z) (id unpackedBufLen : Z) : Prop :=
  sizeof fapi_message_header_t <= unpackedBufLen ∧ check_nr_fapi_unpack_length sizeof id unpackedBufLen ≠ 0.

(** ** Bodies *)
Lemma codec_left_as {A B} (f : A → p7_body V) sizeof len id (g : B → p7_body V) (p : packer A) (u : unpacker B)
    (R : A → B → Prop) (R' : p7_body V → p7_body V → Prop) :
  check_nr_fapi_unpack_length sizeof id len ≠ 0 → codec p u R → (∀ a w, R a w → R' (f a) (g w)) →
  codec (left_as f p) (unpack_checked sizeof len id g u) R'.
Proof.
  intros Hm H HR. unfold left_as, unpack_checked. rewrite (proj2 (Z.eqb_neq _ _) Hm).
  apply codec_map_l, codec_map. eapply codec_weaken; [exact H|exact HR].
Qed.

Lemma codec_p7_body config sizeof old len id b :
  p7_body_ok id b → check_nr_fapi_unpack_length sizeof id len ≠ 0 →
  codec (fapi_nr_p7_message_body_pack config id b) (fapi_nr_p7_message_body_unpack sizeof config old len id)
    (λ b' w, p7_body_same b b' ∧ w = p7_body_arrives old b').
Proof.
  intros Hb Hm.
  destruct b; [..|done]; destruct Hb as [-> Hok]; unfold fapi_nr_p7_message_body_pack, fapi_nr_p7_message_body_unpack;
    cbn [Z.eqb Pos.eqb NFAPI_NR_PHY_MSG_TYPE_DL_TTI_REQUEST NFAPI_NR_PHY_MSG_TYPE_UL_TTI_REQUEST];
    (eapply codec_left_as; [exact Hm|
      first [eapply codec_dl_tti|eapply codec_ul_tti|eapply codec_slot|eapply codec_ul_dci|eapply codec_tx_data
        |eapply codec_rx_data|eapply codec_crc|eapply codec_uci|eapply codec_srs_ind|eapply codec_toa
        |eapply codec_rach]; exact Hok
     |intros a w Haw; cbn in Haw |- *; naive_solver]).
Qed.

Lemma bounded_left_as {A} (f : A → p7_body V) p : bounded p → bounded (left_as f p).
Proof. intros H. apply bounded_bind; [done|]. intros a. apply bounded_ret. Qed.

(** the callback does not leave the buffer either *)
Definition config_bounded config : Prop :=
  ∀ pack id v, config ≫= pack_p7_vendor_extension = Some pack → bounded (pack id v).
Definition config_reads config : Prop :=
  ∀ unpack id, config ≫= unpack_p7_vendor_extension = Some unpack → prefix_reader (unpack id).

Lemma bounded_p7_body config id b : config_bounded config → bounded (fapi_nr_p7_message_body_pack config id b).
Proof.
  intros Hc. unfold fapi_nr_p7_message_body_pack.
  repeat match goal with |- bounded (if ?c then _ else _) => destruct c end;
    try solve [destruct b; (apply bounded_undef || apply bounded_left_as);
      auto using bounded_dl_tti, bounded_ul_tti, bounded_slot, bounded_ul_dci, bounded_tx_data, bounded_rx_data,
        bounded_crc, bounded_uci, bounded_srs_ind, bounded_toa, bounded_rach]; [|apply bounded_fail].
  destruct (config ≫= _) as [pack|] eqn:E; [|apply bounded_fail].
  destruct b; try apply bounded_undef. by apply bounded_left_as, Hc.
Qed.

Lemma reader_checked {A} sizeof len id (f : A → p7_body V) u :
  prefix_reader u → prefix_reader (unpack_checked sizeof len id f u).
Proof. intros H. unfold unpack_checked. by reader_steps. Qed.

Lemma reader_p7_body config sizeof old len id :
  config_reads config → id ≠ NFAPI_NR_PHY_MSG_TYPE_UL_TTI_REQUEST →
  prefix_reader (fapi_nr_p7_message_body_unpack sizeof config old len id).
Proof.
  intros Hc Hid. unfold fapi_nr_p7_message_body_unpack. rewrite (proj2 (Z.eqb_neq id _) Hid).
  repeat match goal with |- prefix_reader (if ?c then _ else _) => destruct c end;
    try (apply reader_checked; auto using reader_dl_tti, reader_slot, reader_ul_dci, reader_tx_data, reader_rx_data,
      reader_crc, reader_uci, reader_srs_ind, reader_toa, reader_rach); [|apply reader_fail].
  destruct (config ≫= _) as [unpack|] eqn:E; [|apply reader_fail].
  apply reader_bind; [by eapply Hc|intros v; apply reader_ret].
Qed.

(** ** Header *)
Lemma p7_header_octets sizeof phy id len : is_u8 phy → is_u16 id → is_u32 len →
  ∃ hd lb, Forall is_byte (hd ++ lb) ∧ zlen hd = 4 ∧ zlen lb = 4 ∧
    (∀ room, 4 <= room → (push8 1;; push8 phy;; push16 id) room = Ok (Some (hd, tt))) ∧
    (∀ room, 4 <= room → push32 len room = Ok (Some (lb, tt))) ∧
    ∀ rest, fapi_nr_message_header_unpack sizeof (hd ++ lb ++ rest) NFAPI_HEADER_LENGTH (sizeof fapi_message_header_t) =
      Ok (Some (phy, id, len)).
Proof.
  intros Hp Hi Hl. generalize (u16_octets id), (u32_octets len). cbn zeta.
  unfold push16, push32. rewrite (u16_id id), (u32_small len) by done.
  generalize (Z.shiftr (Z.land id 65280) 8), (Z.land id 255), (Z.shiftr (Z.land len 0xFF000000) 24),
    (Z.shiftr (Z.land len 0xFF0000) 16), (Z.shiftr (Z.land len 0xFF00) 8), (Z.land len 255).
  intros i1 i0 l3 l2 l1 l0 (Hi1 & Hi0 & Hiv) (Hlb & Hlv).
  exists [1; phy; i1; i0], [l3; l2; l1; l0]. split_and!; [|done..| | |].
  - apply Forall_app. split; [|done]. repeat (constructor; [done|]). constructor.
  - intros room Hr. cbv [mbind packer_bind push8]. rewrite (u8_id phy) by done.
    rewrite (proj2 (Z.leb_le 1 room)) by lia. cbv beta iota. change (zlen [u8 1]) with 1.
    rewrite (proj2 (Z.leb_le 1 (room - 1))) by lia. cbv beta iota. change (zlen [phy]) with 1.
    by rewrite (proj2 (Z.leb_le 2 (room - 1 - 1))) by lia.
  - intros room Hr. by rewrite (proj2 (Z.leb_le _ _)).
  - intros rest. unfold fapi_nr_message_header_unpack. rewrite !Z.ltb_irrefl.
    transitivity (Ok (Some (phy, Z.lor (Z.shiftl i1 8) i0,
      Z.lor (Z.lor (Z.lor (Z.shiftl l3 24) (Z.shiftl l2 16)) (Z.shiftl l1 8)) l0))); [reflexivity|].
    by rewrite Hiv, Hlv.
Qed.

(** ** Messages *)
Lemma u32_le n : 0 <= n → is_u32 (u32 n) ∧ u32 n <= n.
Proof.
  intros Hn. unfold is_u32, u32. split; [by apply Z.mod_pos_bound|]. by apply Z.mod_le.
Qed.

Lemma p7_body_id id b : p7_body_ok id b → is_u16 id.
Proof. destruct b; [..|done]; intros [-> _]; done. Qed.

(** the octets of a message and their meaning, for the theorems on whole messages *)
Lemma p7_message_octets config sizeof old len m :
  p7_message_ok m → p7_memory_suffices sizeof m.(message_id) len →
  ∃ hd cs b', Forall is_byte (hd ++ cs) ∧ zlen hd = NFAPI_HEADER_LENGTH ∧ p7_body_same m.(body) b' ∧
    let m' := mk_p7_message m.(phy_id) m.(message_id) (u32 (zlen cs)) b' in
    (∀ packedBufLen, NFAPI_HEADER_LENGTH <= packedBufLen →
       fapi_nr_p7_message_pack config m packedBufLen =
       if zlen (hd ++ cs) <=? packedBufLen then Ok (Some (hd ++ cs, m')) else Fatal) ∧
    (∀ rest, fapi_nr_message_header_unpack sizeof (hd ++ rest) NFAPI_HEADER_LENGTH (sizeof fapi_message_header_t) =
       Ok (Some (m'.(phy_id), m'.(message_id), m'.(message_length)))) ∧
    (∀ rest, fapi_nr_p7_message_body_unpack sizeof config old len m.(message_id) (cs ++ rest) =
       Ok (Some (p7_body_arrives old b', rest))).
Proof.
  intros [Hphy Hb] Hm.
  destruct (codec_p7_body config sizeof old len _ _ Hb (proj2 Hm)) as (cs & b' & w & Hcs & Hp & Hu & Hs & ->).
  destruct (u32_le (zlen cs) (zlen_nonneg cs)) as [Hl Hle].
  destruct (p7_header_octets sizeof _ _ _ Hphy (p7_body_id _ _ Hb) Hl)
    as (hd & lb & Hhl & H4 & H4' & Hph & Hpl & Hh).
  exists (hd ++ lb), cs, b'. cbv zeta. rewrite !zlen_app, H4, H4'. split_and!; [by apply Forall_app|done|done| | |done].
  - intros packedBufLen Hr. unfold fapi_nr_p7_message_pack, get_packed_msg_len, NFAPI_HEADER_LENGTH in *.
    rewrite Hp by lia. pose proof (zlen_nonneg cs).
    destruct (Z.leb_spec (zlen cs) (packedBufLen - 8)); [|by rewrite (proj2 (Z.leb_gt _ _)) by lia].
    rewrite Hph, (proj2 (Z.ltb_ge (8 + _) 8)), (proj2 (Z.leb_le _ packedBufLen)) by lia.
    replace (8 + zlen cs - 8) with (zlen cs) by lia.
    rewrite (proj2 (Z.ltb_ge packedBufLen _)), Hpl by lia. by rewrite app_assoc.
  - intros rest. by rewrite <- app_assoc, Hh.
Qed.

Lemma p7_header_app sizeof hd x y s :
  zlen hd = NFAPI_HEADER_LENGTH →
  fapi_nr_message_header_unpack sizeof (hd ++ x) NFAPI_HEADER_LENGTH s =
  fapi_nr_message_header_unpack sizeof (hd ++ y) NFAPI_HEADER_LENGTH s.
Proof.
  intros Hhd. unfold fapi_nr_message_header_unpack. unfold zlen in Hhd.
  by rewrite !take_app_length' by (rewrite <- Hhd; lia).
Qed.

Lemma p7_unpack_body config sizeof old len hd i phy id n :
  sizeof fapi_message_header_t <= len → zlen hd = NFAPI_HEADER_LENGTH →
  fapi_nr_message_header_unpack sizeof (hd ++ i) NFAPI_HEADER_LENGTH (sizeof fapi_message_header_t) = Ok (Some (phy, id, n)) →
  fapi_nr_p7_message_unpack sizeof config old (hd ++ i) len =
    if zlen (hd ++ i) <? n then Ok None
    else
      match fapi_nr_p7_message_body_unpack sizeof config old len id i with
      | Ok (Some (b, _)) => Ok (Some (mk_p7_message phy id n b))
      | Ok None => Ok None
      | Fatal => Fatal | Undef => Undef | Diverge => Diverge
      end.
Proof.
  intros Hm Hhd Hh. unfold fapi_nr_p7_message_unpack. rewrite Hh, zlen_app. pose proof (zlen_nonneg i).
  rewrite !(proj2 (Z.leb_le _ _)) by lia. cbn [andb]. unfold zlen in Hhd.
  by rewrite drop_app_length' by (rewrite <- Hhd; lia).
Qed.
End messages_ok.

(** ** Theorems *)

(** C15: a message of any type whose fields are in range is packed into a buffer exactly if it
    fits, else the process ends; the octets, with anything behind them, are unpacked to what the
    packed structure holds: the same header with the length of the body, the same body but for the
    fields that the octets do not carry. In range means that fields fit their width, counts are
    those of the lists and lists fit the arrays of the code; that the groups of a DL_TTI.request
    have no UEs (dl_groups_differ), the tags of a TX_DATA.request are 0 or 1, and a PUSCH PDU has
    at most eight code blocks, an SRS PDU at most four symbols. *)
Theorem p7_roundtrip {V} (config : option (p7_codec_config V)) sizeof old len m :
  p7_message_ok m → p7_memory_suffices sizeof m.(message_id) len →
  ∃ bs m',
    m'.(phy_id) = m.(phy_id) ∧ m'.(message_id) = m.(message_id) ∧
    m'.(message_length) = u32 (zlen bs - NFAPI_HEADER_LENGTH) ∧ p7_body_same m.(body) m'.(body) ∧
    (∀ packedBufLen, NFAPI_HEADER_LENGTH <= packedBufLen →
       fapi_nr_p7_message_pack config m packedBufLen =
       if zlen bs <=? packedBufLen then Ok (Some (bs, m')) else Fatal) ∧
    ∀ rest, fapi_nr_p7_message_unpack sizeof config old (bs ++ rest) len = Ok (Some (p7_arrives old m')).
Proof.
  intros Hok Hm. destruct (p7_message_octets config sizeof old len m Hok Hm) as (hd & cs & b' & _ & Hhd & Hs & Hp & Hh & Hu).
  exists (hd ++ cs), (mk_p7_message m.(phy_id) m.(message_id) (u32 (zlen cs)) b').
  split_and!; [done..| |done|done|]; rewrite ?zlen_app, ?Hhd; [by rewrite Z.add_simpl_l|].
  intros rest. rewrite <- app_assoc. destruct Hm as [Hm _]. rewrite (p7_unpack_body _ _ _ _ _ _ _ _ _ Hm Hhd (Hh _)).
  cbn. rewrite (proj2 (Z.ltb_ge _ _)), Hu; [done|].
  rewrite !zlen_app, Hhd. pose proof (zlen_nonneg rest). destruct (u32_le (zlen cs) (zlen_nonneg cs)) as [_ ?].
  unfold NFAPI_HEADER_LENGTH. lia.
Qed.

(** a message that was cut is rejected, however much of it is left (but not UL_TTI.request,
    whose unpacker is not safe). *)
Theorem p7_cut_rejected {V} (config : option (p7_codec_config V)) sizeof old len m bs m' part packedBufLen :
  p7_message_ok m → p7_memory_suffices sizeof m.(message_id) len → config_reads config →
  m.(message_id) ≠ NFAPI_NR_PHY_MSG_TYPE_UL_TTI_REQUEST → NFAPI_HEADER_LENGTH <= packedBufLen →
  fapi_nr_p7_message_pack config m packedBufLen = Ok (Some (bs, m')) →
  part `prefix_of` bs → part ≠ bs → NFAPI_HEADER_LENGTH <= zlen part →
  fapi_nr_p7_message_unpack sizeof config old part len = Ok None.
Proof.
  intros Hok Hm Hc Hid Hl Hpack Hpart Hne H8.
  destruct (p7_message_octets config sizeof old len m Hok Hm) as (hd & cs & b' & Hb & Hhd & _ & Hp & Hh & Hu).
  rewrite Hp in Hpack by done. destruct (_ <=? _); [|done]. injection Hpack as <- <-.
  destruct Hpart as [q Hq]. symmetry in Hq.
  assert (∃ r, part = hd ++ r ∧ cs = r ++ q) as (r & -> & ->).
  { destruct (app_eq_inv _ _ _ _ Hq) as [?|(k & -> & ->)]; [done|]. unfold zlen in *.
    rewrite length_app in Hhd. destruct k; [|cbn in Hhd; lia]. exists []. by rewrite !app_nil_r. }
  destruct Hm as [Hm _]. rewrite (p7_unpack_body _ _ _ _ _ _ _ _ _ Hm Hhd (Hh _)). cbn.
  destruct (_ <? _); [done|]. specialize (Hu []). rewrite app_nil_r in Hu. apply Forall_app in Hb as [_ Hb].
  rewrite (prefix_rejected _ _ _ r (reader_p7_body _ _ _ _ _ Hc Hid) Hb Hu); [done|by apply prefix_app_r|].
  intros F. apply Hne. by rewrite <- F.
Qed.

(** C18: whatever the octets of a datagram: with fewer than the eight of a header the process
    stops; otherwise, unless they announce UL_TTI.request, its unpacker stays within the arrays
    and the octets, and it returns false or a message, and if it returns a message, octets behind
    the datagram make no difference. The memory for the message has room for its header, and the
    callback that unpacks messages of a vendor, if there is one, behaves like that too
    ([config_reads]). *)
Theorem p7_unpack_safe {V} (config : option (p7_codec_config V)) sizeof old len i :
  Forall is_byte i → sizeof fapi_message_header_t <= len → config_reads config →
  (zlen i < NFAPI_HEADER_LENGTH → fapi_nr_p7_message_unpack sizeof config old i len = Fatal) ∧
  (NFAPI_HEADER_LENGTH <= zlen i → ∀ phy id n,
     fapi_nr_message_header_unpack sizeof i NFAPI_HEADER_LENGTH (sizeof fapi_message_header_t) = Ok (Some (phy, id, n)) →
     id ≠ NFAPI_NR_PHY_MSG_TYPE_UL_TTI_REQUEST →
     fapi_nr_p7_message_unpack sizeof config old i len = Ok None ∨
     ∃ m, ∀ rest, fapi_nr_p7_message_unpack sizeof config old (i ++ rest) len = Ok (Some m)).
Proof.
  intros Hi Hm Hc. split.
  { intros H8. unfold fapi_nr_p7_message_unpack. by rewrite (proj2 (Z.leb_gt _ _)). }
  intros H8 phy id n Hh Hid.
  assert (∃ hd j, i = hd ++ j ∧ zlen hd = NFAPI_HEADER_LENGTH) as (hd & j & -> & Hhd).
  { exists (take (Z.to_nat NFAPI_HEADER_LENGTH) i), (drop (Z.to_nat NFAPI_HEADER_LENGTH) i).
    split; [by rewrite take_drop|]. unfold zlen, NFAPI_HEADER_LENGTH in *. rewrite length_take. lia. }
  assert (∀ x, fapi_nr_message_header_unpack sizeof (hd ++ x) NFAPI_HEADER_LENGTH (sizeof fapi_message_header_t)
    = Ok (Some (phy, id, n))) as Hx by (intros x; by rewrite (p7_header_app _ _ _ j)).
  apply Forall_app in Hi as [_ Hj]. rewrite (p7_unpack_body _ _ _ _ _ _ _ _ _ Hm Hhd (Hx _)).
  destruct (Z.ltb_spec (zlen (hd ++ j)) n); [by left|].
  destruct (reader_p7_body config sizeof old len id Hc Hid j Hj) as [->|(c & i' & b & -> & E)]; [by left|].
  right. exists (mk_p7_message phy id n b). intros rest. rewrite <- app_assoc.
  rewrite (p7_unpack_body _ _ _ _ _ _ _ _ _ Hm Hhd (Hx _)).
  rewrite (proj2 (Z.ltb_ge _ _)), <- app_assoc, E; [done|]. rewrite !zlen_app in *.
  pose proof (zlen_nonneg rest). lia.
Qed.

(** A message that is packed is not longer than the buffer, whatever the structure holds and
    however small the buffer is. *)
Theorem p7_pack_bounded {V} (config : option (p7_codec_config V)) m packedBufLen bs m' :
  config_bounded config → fapi_nr_p7_message_pack config m packedBufLen = Ok (Some (bs, m')) →
  zlen bs <= packedBufLen.
Proof.
  intros Hc. unfold fapi_nr_p7_message_pack.
  destruct (fapi_nr_p7_message_body_pack _ _ _ _) as [[[cs b]|]| | |] eqn:E; try done.
  apply (bounded_p7_body _ _ _ Hc) in E.
  destruct ((push8 1;; _) packedBufLen) as [[[hd []]|]| | |] eqn:Eh; try done.
  destruct (_ <? _); [done|]. destruct (push32 _ _) as [[[lb []]|]| | |] eqn:El; try done.
  intros [= <- _]. pose proof (fixed_size_push32 _ _ _ _ El) as Hl.
  assert (4 <= packedBufLen - 4) as H8 by (unfold push32 in El; destruct (Z.leb_spec 4 (packedBufLen - 4)); [done|discriminate]).
  apply bind_some in Eh as (h1 & h2 & [] & H1 & (h3 & h4 & [] & H3 & H4 & ->)%bind_some & ->).
  apply fixed_size_push16 in H4. unfold push8 in H1, H3.
  destruct (1 <=? _) in H1; [|done]. destruct (1 <=? _) in H3; [|done]. injection H1 as <-. injection H3 as <-.
  rewrite !zlen_app, Hl, H4, !zlen_cons, !zlen_nil. unfold NFAPI_HEADER_LENGTH in E. lia.
Qed.

(** *** What the header does not guarantee *)

(** The length in the header is compared with that of the datagram without the header, and what
    follows is read to the end of the datagram: a message of announced length 0 is accepted. *)
Lemma p7_length_not_enforced {V} sizeof old len :
  sizeof fapi_message_header_t <= len → 0 < sizeof nfapi_nr_slot_indication_scf_t <= len →
  fapi_nr_p7_message_unpack (V := V) sizeof None old [1; 0; 0; 0x82; 0; 0; 0; 0; 0; 5; 0; 7] len =
    Ok (Some (mk_p7_message 0 NFAPI_NR_PHY_MSG_TYPE_SLOT_INDICATION 0 (p7_slot_indication (mk_slot_ind 5 7)))).
Proof.
  intros Hh Hs. rewrite (p7_unpack_body _ _ _ _ [1; 0; 0; 0x82; 0; 0; 0; 0] [0; 5; 0; 7] 0 0x82 0 Hh); [|done|].
  - cbn -[zlen]. unfold unpack_checked, check_nr_fapi_unpack_length. cbn -[zlen].
    rewrite (proj2 (Z.leb_le _ _)), (proj2 (Z.eqb_neq _ _)) by lia. done.
  - unfold fapi_nr_message_header_unpack. by rewrite !Z.ltb_irrefl.
Qed.


(** *** Instances *)

(** memory full of zeros, a request with a CSI-RS PDU, an indication, and sizes of structures *)
Definition zero_pdsch : pdsch_pdu_rel15 :=
  mk_pdsch 0 0 0 0 0 0 0 0 [] [] [] [] [] [] 0 0 0 0 0 0 0 0 0 0 0 [] 0 0 0 0 0 0 0 0 0 0
    (mk_tx_beamforming 0 0 0 []) 0 0 0 0 0 0 0 0 [].
Definition zero_ssb : ssb_pdu_rel15 := mk_ssb 0 0 0 0 0 0 0 0 (mk_tx_beamforming 0 0 0 []) 0 0.
Definition zero_pdcch : pdcch_pdu_rel15 := mk_pdcch 0 0 0 0 0 0 [] 0 0 0 0 0 0 0 [] 0 [].
Definition zero_pusch : pusch_pdu :=
  mk_pusch 0 0 0 0 0 0 0 0 0 0 0 0 0 0 0 0 0 0 0 0 0 0 [] 0 0 0 0 0 0 0 0
    (mk_pusch_data 0 0 0 0 0 []) (mk_pusch_uci 0 0 0 0 0 0 0) (mk_pusch_ptrs 0 [] 0 0 0) (mk_dfts_ofdm 0 0 0 0)
    (mk_ul_beamforming 0 0 0 0 []) 0 0 (mk_ss 0 []).
Definition zero_memory : p7_memory :=
  mk_p7_memory (λ _, mk_dl_memory 0 (pdcch_pdu zero_pdcch) zero_pdsch zero_ssb)
    (λ _, mk_ul_memory (pusch zero_pusch) zero_pusch) (λ _, zero_pdcch).
Definition csi_rs_request : p7_message unit :=
  mk_p7_message 3 NFAPI_NR_PHY_MSG_TYPE_DL_TTI_REQUEST 0 (p7_dl_tti_request (mk_dl_tti_request 512 7 1 0
    [mk_dl_pdu 2 0 (csi_rs_pdu (mk_csi_rs 106 0 1 0 0 106 1 4 256 5 0 1 0 40 8 1
       (mk_tx_beamforming 1 106 1 [mk_tx_prg 0 [33]]) 1 [2]))] [] [])).
Definition slot_message : p7_message unit :=
  mk_p7_message 0 NFAPI_NR_PHY_MSG_TYPE_SLOT_INDICATION 0 (p7_slot_indication (mk_slot_ind 512 7)).

Lemma p7_roundtrip_witness : ∃ bs m',
  fapi_nr_p7_message_pack None csi_rs_request 100 = Ok (Some (bs, m')) ∧ zlen bs = 51 ∧
  fapi_nr_p7_message_unpack (V := unit) (λ _, 8) None zero_memory bs 100 = Ok (Some (p7_arrives zero_memory m')).
Proof.
  destruct (p7_roundtrip None (λ _, 8) zero_memory 100 csi_rs_request) as (bs & m' & _ & _ & _ & _ & Hp & Hu).
  - split; [done|]. split; [done|]. cbn. unfold dl_tti_ok. cbn. split_and!; try done; try (repeat constructor; done).
    + intros v ->%list_elem_of_singleton. unfold dl_pdu_ok. cbn. split; [done|]. unfold csi_rs_ok. cbn.
      split_and!; try done; try (repeat constructor; done).
      unfold tx_beamforming_ok. cbn. split_and!; try done; try (repeat constructor; done).
      intros p ->%list_elem_of_singleton. split_and!; try done; repeat constructor; done.
  - done.
  - pose proof (Hp 100 ltac:(done)) as E. specialize (Hu []). rewrite app_nil_r in Hu.
    exists bs, m'. destruct (zlen bs <=? 100); [|by vm_compute in E].
    split; [exact E|]. split; [|exact Hu]. vm_compute in E. by injection E as <- <-.
Defined.

Lemma p7_cut_rejected_witness : ∃ bs m',
  fapi_nr_p7_message_pack None slot_message 100 = Ok (Some (bs, m')) ∧ zlen bs = 12 ∧
  fapi_nr_p7_message_unpack (V := unit) (λ _, 8) None zero_memory (take 11 bs) 100 = Ok None.
Proof.
  destruct (fapi_nr_p7_message_pack None slot_message 100) as [[[bs m']|]| | |] eqn:E;
    try (vm_compute in E; discriminate E).
  exists bs, m'. split; [done|]. assert (zlen bs = 12) as L by (vm_compute in E; by injection E as <- <-).
  split; [done|]. unfold zlen in L.
  apply (p7_cut_rejected None (λ _, 8) zero_memory 100 slot_message bs m' (take 11 bs) 100).
  - split; [done|]. split; [done|]. repeat constructor; done.
  - done.
  - done.
  - done.
  - done.
  - done.
  - apply prefix_take.
  - intros F. apply (f_equal length) in F. rewrite length_take in F. lia.
  - unfold zlen, NFAPI_HEADER_LENGTH. rewrite length_take. lia.
Defined.

Lemma p7_unpack_safe_witness : ∃ m : p7_message unit, ∀ rest,
  fapi_nr_p7_message_unpack (V := unit) (λ _, 8) None zero_memory ([1; 3; 0; 0x82; 0; 0; 0; 4; 2; 0; 0; 7] ++ rest) 100 = Ok (Some m).
Proof.
  destruct (p7_unpack_safe (V := unit) None (λ _, 8) zero_memory 100 [1; 3; 0; 0x82; 0; 0; 0; 4; 2; 0; 0; 7])
    as [_ H]; [repeat constructor; done|done|done|]. destruct (H ltac:(done) 3 0x82 4) as [E|E]; try done.
Defined.


Lemma p7_pack_bounded_witness : ∃ bs m',
  fapi_nr_p7_message_pack None slot_message 12 = Ok (Some (bs, m')) ∧ zlen bs <= 12.
Proof.
  destruct (fapi_nr_p7_message_pack None slot_message 12) as [[[bs m']|]| | |] eqn:E;
    try (vm_compute in E; discriminate E).
  exists bs, m'. split; [done|]. by apply (p7_pack_bounded None slot_message 12 bs m').
Defined.
