(* ===== verification/NfapiMsg.v ===== *)
(** * nFAPI: messages

    The messages of the P7 interface in the form in which they cross a network between the VNF
    (MAC) and the PNF (the physical layer): a header of eighteen octets with the fields for
    segmentation, a checksum and a time stamp, and the bodies of FAPI with the three messages
    that synchronise the two sides (nfapi_nr_p7.c; lists of TLVs from nfapi.c). Parameters: the
    [crc32] of zlib, the sizes of structures, and the callbacks for a vendor's messages and
    TLVs. Theorems: a message that is packed is unpacked to what it held, whatever is written
    into the header fields that the transport uses. *)

From S2P Require Import Prelude Bits Fapi FapiCodec FapiDl FapiUl FapiInd FapiP7 FapiP7Proofs.

Definition NFAPI_NR_P7_HEADER_LENGTH : Z := 18.

Record nfapi_header : Type := mk_nfapi_header {
  nh_phy_id : Z;               (* uint16_t *)
  nh_message_id : Z;           (* uint16_t *)
  nh_message_length : Z;       (* uint32_t *)
  nh_segment_sequence : Z;     (* uint16_t: more segments, segment, sequence number *)
  nh_checksum : Z;             (* uint32_t *)
  nh_timestamp : Z             (* uint32_t *)
}.

(** ** Checksum and time stamp *)
Section checksum.
Context (crc32 : Z → bytes → Z).

(** [len] is a uint16_t; the checksum and the time stamp are not covered *)
Definition nfapi_nr_calculate_checksum (buffer : bytes) (len : Z) : outcome Z :=
  head ← buf_sub buffer 0 10;
  let chksum := u32 (crc32 0 head) in
  let chksum := u32 (crc32 chksum [0; 0; 0; 0]) in
  rest ← buf_sub buffer NFAPI_NR_P7_HEADER_LENGTH (u16 len - NFAPI_NR_P7_HEADER_LENGTH);
  let chksum := u32 (crc32 chksum rest) in
  Ok (u32 (Z.lnot chksum)).

Definition nfapi_nr_p7_calculate_checksum (buffer : bytes) (len : Z) : outcome Z :=
  nfapi_nr_calculate_checksum buffer len.

(** what a function writes at offset [off]; nothing if it fails *)
Definition write_at (buffer : bytes) (off : Z) (p : packer unit) (room : Z) : outcome bytes :=
  match p room with
  | Ok (Some (bs, _)) => buf_write buffer off bs
  | Ok None => Ok buffer
  | Fatal => Fatal | Undef => Undef | Diverge => Diverge
  end.

(** 10 is the position of the checksum *)
Definition nfapi_nr_p7_update_checksum (buffer : bytes) (len : Z) : outcome bytes :=
  checksum ← nfapi_nr_calculate_checksum buffer len;
  write_at buffer 10 (push32 checksum) (len - 10).

(** 14 is the position of the time stamp *)
Definition nfapi_nr_p7_update_transmit_timestamp (buffer : bytes) (timestamp : Z) : outcome bytes :=
  write_at buffer 14 (push32 timestamp) (NFAPI_NR_P7_HEADER_LENGTH - 14).
End checksum.

(** ** TLVs of a vendor at the end of a message *)
Section messages.
Context {V E : Type}.

Record vendor_extension : Type := mk_ve { ve_tag : Z; ve_length : Z; ve_value : E }.

(** [nfapi_p7_codec_config_t]. The callback that unpacks returns an [int] and what it leaves
    to be read. *)
Record nfapi_codec_config : Type := mk_nfapi_codec_config {
  p7_config : p7_codec_config V;
  pack_vendor_extension_tlv : option (E → packer E);
  unpack_vendor_extension_tlv : option (Z → Z → option vendor_extension → bytes → outcome (Z * option vendor_extension * bytes))
}.
Implicit Types (config : option nfapi_codec_config) (ve : option vendor_extension).

Definition NFAPI_VENDOR_EXTENSION_MIN_TAG_VALUE : Z := 0xF000.
Definition NFAPI_VENDOR_EXTENSION_MAX_TAG_VALUE : Z := 0xFFFF.
Definition MAX_BAD_TAG : Z := 3.

Definition pack_tl (tag length : Z) : packer unit := push16 tag;; push16 length;; mret tt.
Definition unpack_tl : unpacker (Z * Z) := tag ← pull16; length ← pull16; mret (tag, length).

(** Tag and length are written again, when the length is known. *)
Definition pack_p7_vendor_extension_tlv config ve : packer (option vendor_extension) :=
  match ve, config ≫= pack_vendor_extension_tlv with
  | Some v, Some pack => λ room,
      match (pack_tl v.(ve_tag) v.(ve_length);; pack v.(ve_value)) room with
      | Ok (Some (bs, value)) =>
          let length := u16 (zlen bs - 4) in
          match pack_tl v.(ve_tag) length room with
          | Ok (Some (tl, _)) => Ok (Some (tl ++ drop 4 bs, Some (mk_ve v.(ve_tag) length value)))
          | _ => Ok (Some (bs, Some (mk_ve v.(ve_tag) length value)))
          end
      | Ok None => Ok None
      | Fatal => Fatal | Undef => Undef | Diverge => Diverge
      end
  | _, _ => mret ve
  end.

Definition unpack_p7_vendor_extension_tlv config (tag length : Z) ve (i : bytes)
    : outcome (Z * option vendor_extension * bytes) :=
  match config ≫= unpack_vendor_extension_tlv with
  | Some unpack => unpack tag length ve i
  | None => Ok (1, ve, i)
  end.

Definition get_tlv_padding (tlv_length : Z) : Z := cmod (4 - cmod tlv_length 4) 4.

(** unpack_nr_p7_tlv_list without expected TLVs, as it is used here: [size] is 0. A return value
    other than 0 counts as success, the -1 after too many unknown tags as well. *)
Fixpoint tlv_list_loop (fuel : nat) config (numBadTags : Z) ve (i : bytes) : outcome (option (option vendor_extension * bytes)) :=
  match i, fuel with
  | [], _ => Ok (Some (ve, []))
  | _, O => Diverge
  | _, S fuel =>
      match unpack_tl i with
      | Ok (Some ((tag, length), i)) =>
          let unknown ve i :=
            let numBadTags := u8 (numBadTags + 1) in
            if MAX_BAD_TAG <? numBadTags then Ok (Some (ve, i))
            else if length <=? zlen i then
              tlv_list_loop fuel config numBadTags ve (drop (Z.to_nat (length + get_tlv_padding length)) i)
            else Ok None in
          if (NFAPI_VENDOR_EXTENSION_MIN_TAG_VALUE <=? tag) && (tag <=? NFAPI_VENDOR_EXTENSION_MAX_TAG_VALUE) then
            '(result, ve, i) ← unpack_p7_vendor_extension_tlv config tag length ve i;
            if result =? 0 then Ok None
            else if result <? 0 then unknown ve i
            else tlv_list_loop fuel config numBadTags ve i
          else unknown ve i
      | Ok None => Ok None
      | Fatal => Fatal | Undef => Undef | Diverge => Diverge
      end
  end.

(** every TLV takes four octets at least *)
Definition unpack_nr_p7_tlv_list config ve : unpacker (option vendor_extension) :=
  λ i, tlv_list_loop (length i) config 0 ve i.

(** ** Messages for synchronisation *)
Definition is_s32 (x : Z) : Prop := - 2 ^ 31 <= x < 2 ^ 31.
Definition pushs32 (x : Z) : packer unit := push32 x.
Definition pulls32 : unpacker Z := x ← pull32; mret (int_of 32 x).

Record dl_node_sync : Type := mk_dl_node_sync { dns_t1 : Z; dns_delta_sfn_slot : Z; dns_ve : option vendor_extension }.
Record ul_node_sync : Type := mk_ul_node_sync { uns_t1 : Z; uns_t2 : Z; uns_t3 : Z; uns_ve : option vendor_extension }.
Record timing_info : Type := mk_timing_info {
  ti_last_sfn : Z; ti_last_slot : Z; ti_time_since_last_timing_info : Z;
  ti_dl_tti_jitter : Z; ti_tx_data_request_jitter : Z; ti_ul_tti_jitter : Z; ti_ul_dci_jitter : Z;
  ti_dl_tti_latest_delay : Z; ti_tx_data_request_latest_delay : Z; ti_ul_tti_latest_delay : Z; ti_ul_dci_latest_delay : Z;
  ti_dl_tti_earliest_arrival : Z; ti_tx_data_request_earliest_arrival : Z;
  ti_ul_tti_earliest_arrival : Z; ti_ul_dci_earliest_arrival : Z;
  ti_ve : option vendor_extension
}.

Definition pack_nr_dl_node_sync config (m : dl_node_sync) : packer dl_node_sync :=
  push32 m.(dns_t1);; pushs32 m.(dns_delta_sfn_slot);;
  ve ← pack_p7_vendor_extension_tlv config m.(dns_ve); mret (mk_dl_node_sync m.(dns_t1) m.(dns_delta_sfn_slot) ve).

Definition pack_nr_ul_node_sync config (m : ul_node_sync) : packer ul_node_sync :=
  push32 m.(uns_t1);; push32 m.(uns_t2);; push32 m.(uns_t3);;
  ve ← pack_p7_vendor_extension_tlv config m.(uns_ve); mret (mk_ul_node_sync m.(uns_t1) m.(uns_t2) m.(uns_t3) ve).

Definition pack_nr_timing_info config (m : timing_info) : packer timing_info :=
  push32 m.(ti_last_sfn);; push32 m.(ti_last_slot);; push32 m.(ti_time_since_last_timing_info);;
  push32 m.(ti_dl_tti_jitter);; push32 m.(ti_tx_data_request_jitter);; push32 m.(ti_ul_tti_jitter);;
  push32 m.(ti_ul_dci_jitter);;
  pushs32 m.(ti_dl_tti_latest_delay);; pushs32 m.(ti_tx_data_request_latest_delay);;
  pushs32 m.(ti_ul_tti_latest_delay);; pushs32 m.(ti_ul_dci_latest_delay);;
  pushs32 m.(ti_dl_tti_earliest_arrival);; pushs32 m.(ti_tx_data_request_earliest_arrival);;
  pushs32 m.(ti_ul_tti_earliest_arrival);; pushs32 m.(ti_ul_dci_earliest_arrival);;
  ve ← pack_p7_vendor_extension_tlv config m.(ti_ve);
  mret (mk_timing_info m.(ti_last_sfn) m.(ti_last_slot) m.(ti_time_since_last_timing_info)
    m.(ti_dl_tti_jitter) m.(ti_tx_data_request_jitter) m.(ti_ul_tti_jitter) m.(ti_ul_dci_jitter)
    m.(ti_dl_tti_latest_delay) m.(ti_tx_data_request_latest_delay) m.(ti_ul_tti_latest_delay) m.(ti_ul_dci_latest_delay)
    m.(ti_dl_tti_earliest_arrival) m.(ti_tx_data_request_earliest_arrival) m.(ti_ul_tti_earliest_arrival)
    m.(ti_ul_dci_earliest_arrival) ve).

(** [old] is the pointer to a TLV in the memory that is unpacked into *)
Definition unpack_nr_dl_node_sync config (old : option vendor_extension) : unpacker dl_node_sync :=
  t1 ← pull32; delta ← pulls32; ve ← unpack_nr_p7_tlv_list config old; mret (mk_dl_node_sync t1 delta ve).

Definition unpack_nr_ul_node_sync config (old : option vendor_extension) : unpacker ul_node_sync :=
  t1 ← pull32; t2 ← pull32; t3 ← pull32;
  ve ← unpack_nr_p7_tlv_list config old; mret (mk_ul_node_sync t1 t2 t3 ve).

Definition unpack_nr_timing_info config (old : option vendor_extension) : unpacker timing_info :=
  sfn ← pull32; slot ← pull32; since ← pull32;
  j1 ← pull32; j2 ← pull32; j3 ← pull32; j4 ← pull32;
  l1 ← pulls32; l2 ← pulls32; l3 ← pulls32; l4 ← pulls32;
  e1 ← pulls32; e2 ← pulls32; e3 ← pulls32; e4 ← pulls32;
  ve ← unpack_nr_p7_tlv_list config old;
  mret (mk_timing_info sfn slot since j1 j2 j3 j4 l1 l2 l3 l4 e1 e2 e3 e4 ve).
End messages.
Arguments vendor_extension : clear implicits.
Arguments nfapi_codec_config : clear implicits.
Arguments dl_node_sync : clear implicits.
Arguments ul_node_sync : clear implicits.
Arguments timing_info : clear implicits.

(** ** Messages *)
Section whole_messages.
Context {V E : Type}.

Inductive nfapi_body : Type :=
| nfapi_fapi (b : p7_body V)                    (* what FAPI has as well *)
| nfapi_dl_node_sync (m : dl_node_sync E)
| nfapi_ul_node_sync (m : ul_node_sync E)
| nfapi_timing_info (m : timing_info E).

Record nfapi_message : Type := mk_nfapi_message { nm_header : nfapi_header; nm_body : nfapi_body }.
Implicit Types (config : option (nfapi_codec_config V E)) (b : nfapi_body) (m : nfapi_message).

Definition fapi_config config : option (p7_codec_config V) := p7_config <$> config.

(** the cases that are those of fapi_nr_p7_message_pack are shared with it *)
Definition nfapi_body_pack config (id : Z) b : packer nfapi_body :=
  if id =? NFAPI_NR_PHY_MSG_TYPE_DL_NODE_SYNC then
    match b with nfapi_dl_node_sync m => m ← pack_nr_dl_node_sync config m; mret (nfapi_dl_node_sync m) | _ => pack_undef end
  else if id =? NFAPI_NR_PHY_MSG_TYPE_UL_NODE_SYNC then
    match b with nfapi_ul_node_sync m => m ← pack_nr_ul_node_sync config m; mret (nfapi_ul_node_sync m) | _ => pack_undef end
  else if id =? NFAPI_NR_PHY_MSG_TYPE_TIMING_INFO then
    match b with nfapi_timing_info m => m ← pack_nr_timing_info config m; mret (nfapi_timing_info m) | _ => pack_undef end
  else
    match b with
    | nfapi_fapi b => b ← fapi_nr_p7_message_body_pack (fapi_config config) id b; mret (nfapi_fapi b)
    | _ => pack_undef
    end.

Definition nfapi_header_pack (h : nfapi_header) : packer unit :=
  push16 h.(nh_phy_id);; push16 h.(nh_message_id);; push32 0;; push16 h.(nh_segment_sequence);;
  push32 0;; push32 h.(nh_timestamp);; mret tt.

(** [Ok None]: -1 is returned; else what is returned is the number of octets. The length is
    written at offset 4 afterwards. *)
Definition nfapi_nr_p7_message_pack config m (packedBufLen : Z) : outcome (option (bytes * nfapi_message)) :=
  let h := m.(nm_header) in
  match (nfapi_header_pack h;; nfapi_body_pack config h.(nh_message_id) m.(nm_body)) packedBufLen with
  | Ok (Some (bs, b)) =>
      let packedMsgLen := u32 (zlen bs) in
      if packedBufLen <? packedMsgLen then Ok None
      else
        match push32 packedMsgLen (packedBufLen - 4) with
        | Ok (Some (len, _)) =>
            bs ← buf_write bs 4 len;
            Ok (Some (bs, mk_nfapi_message (mk_nfapi_header h.(nh_phy_id) h.(nh_message_id) packedMsgLen
              h.(nh_segment_sequence) h.(nh_checksum) h.(nh_timestamp)) b))
        | _ => Ok None
        end
  | Ok None => Ok None
  | Fatal => Fatal | Undef => Undef | Diverge => Diverge
  end.

Definition nfapi_header_pull : unpacker nfapi_header :=
  phy_id ← pull16; message_id ← pull16; message_length ← pull32; m_segment_sequence ← pull16;
  checksum ← pull32; transmit_timestamp ← pull32;
  mret (mk_nfapi_header phy_id message_id message_length m_segment_sequence checksum transmit_timestamp).

(** the sizes of nfapi_nr_p7_message_header_t and of the other structures *)
Context (sizeof_header : Z) (sizeof : fapi_struct → Z).

(** [Ok None]: false is returned *)
Definition nfapi_nr_p7_message_header_unpack (i : bytes) (messageBufLen unpackedBufLen : Z) : outcome (option nfapi_header) :=
  if (messageBufLen <? NFAPI_NR_P7_HEADER_LENGTH) || (unpackedBufLen <? sizeof_header) then Ok None
  else
    match nfapi_header_pull (take (Z.to_nat messageBufLen) i) with
    | Ok (Some (h, _)) => Ok (Some h)
    | Ok None => Ok None
    | Fatal => Fatal | Undef => Undef | Diverge => Diverge
    end.

(** SFN and slot, which all messages but those for synchronisation start with *)
Definition peek_nr_nfapi_p7_sfn_slot (i : bytes) (messageBufLen : Z) : outcome (option (Z * Z)) :=
  match (SFN ← pull16; Slot ← pull16; mret (SFN, Slot))
      (drop (Z.to_nat NFAPI_NR_P7_HEADER_LENGTH) (take (Z.to_nat messageBufLen) i)) with
  | Ok (Some (s, _)) => Ok (Some s)
  | Ok None => Ok None
  | Fatal => Fatal | Undef => Undef | Diverge => Diverge
  end.

(** what follows the header; [result] is 0 if the memory is too small *)
Definition nfapi_checked {A} (unpackedBufLen id : Z) (f : A → nfapi_body) (u : unpacker A) : unpacker nfapi_body :=
  if check_nr_fapi_unpack_length sizeof id unpackedBufLen =? 0 then unpack_fail else a ← u; mret (f a).

Record nfapi_memory : Type := mk_nfapi_memory { mem_fapi : p7_memory; mem_ve : option (vendor_extension E) }.

Definition nfapi_body_unpack config (old : nfapi_memory) (unpackedBufLen id : Z) : unpacker nfapi_body :=
  if id =? NFAPI_NR_PHY_MSG_TYPE_DL_NODE_SYNC then
    nfapi_checked unpackedBufLen id nfapi_dl_node_sync (unpack_nr_dl_node_sync config old.(mem_ve))
  else if id =? NFAPI_NR_PHY_MSG_TYPE_UL_NODE_SYNC then
    nfapi_checked unpackedBufLen id nfapi_ul_node_sync (unpack_nr_ul_node_sync config old.(mem_ve))
  else if id =? NFAPI_NR_PHY_MSG_TYPE_TIMING_INFO then
    nfapi_checked unpackedBufLen id nfapi_timing_info (unpack_nr_timing_info config old.(mem_ve))
  else b ← fapi_nr_p7_message_body_unpack sizeof (fapi_config config) old.(mem_fapi) unpackedBufLen id; mret (nfapi_fapi b).

Definition nfapi_nr_p7_message_unpack config (old : nfapi_memory) (i : bytes) (messageBufLen unpackedBufLen : Z)
    : outcome (option nfapi_message) :=
  if (messageBufLen <? NFAPI_NR_P7_HEADER_LENGTH) || (unpackedBufLen <? sizeof_header) then Ok None
  else
    match nfapi_header_pull (take (Z.to_nat messageBufLen) i) with
    | Ok (Some (h, i)) =>
        if messageBufLen <? h.(nh_message_length) then Ok None
        else
          match nfapi_body_unpack config old unpackedBufLen h.(nh_message_id) i with
          | Ok (Some (b, _)) => Ok (Some (mk_nfapi_message h b))
          | Ok None => Ok None
          | Fatal => Fatal | Undef => Undef | Diverge => Diverge
          end
    | Ok None => Ok None
    | Fatal => Fatal | Undef => Undef | Diverge => Diverge
    end.
End whole_messages.
Arguments nfapi_body : clear implicits.
Arguments nfapi_message : clear implicits.
Arguments nfapi_memory : clear implicits.

(** ** Octets of a header *)
Definition be16 (x : Z) : bytes := let x := u16 x in [Z.shiftr (Z.land x 0xFF00) 8; Z.land x 0xFF].
Definition be32 (x : Z) : bytes := let x := u32 x in
  [Z.shiftr (Z.land x 0xFF000000) 24; Z.shiftr (Z.land x 0xFF0000) 16; Z.shiftr (Z.land x 0xFF00) 8; Z.land x 0xFF].
Definition header_octets (h : nfapi_header) : bytes :=
  be16 h.(nh_phy_id) ++ be16 h.(nh_message_id) ++ be32 h.(nh_message_length) ++
  be16 h.(nh_segment_sequence) ++ be32 h.(nh_checksum) ++ be32 h.(nh_timestamp).

Record header_ok (h : nfapi_header) : Prop := {
  hok_phy_id : is_u16 h.(nh_phy_id);
  hok_message_id : is_u16 h.(nh_message_id);
  hok_message_length : is_u32 h.(nh_message_length);
  hok_segment_sequence : is_u16 h.(nh_segment_sequence);
  hok_checksum : is_u32 h.(nh_checksum);
  hok_timestamp : is_u32 h.(nh_timestamp)
}.

Lemma is_u32_u32 x : is_u32 (u32 x).
Proof. exact (u32_range x). Qed.
#[local] Hint Resolve is_u32_u32 u16_is hok_phy_id hok_message_id hok_message_length hok_segment_sequence hok_checksum
  hok_timestamp : core.

Lemma push16_be x room : 2 <= room → push16 x room = Ok (Some (be16 x, tt)).
Proof. intros H. unfold push16. by rewrite (proj2 (Z.leb_le _ _)). Qed.
Lemma push32_be x room : 4 <= room → push32 x room = Ok (Some (be32 x, tt)).
Proof. intros H. unfold push32. by rewrite (proj2 (Z.leb_le _ _)). Qed.

Lemma pull16_be x rest : is_u16 x → pull16 (be16 x ++ rest) = Ok (Some (x, rest)).
Proof. intros H. unfold be16. rewrite u16_id by done. cbn. by rewrite (proj2 (proj2 (u16_octets x)) H). Qed.
Lemma pull32_be x rest : is_u32 x → pull32 (be32 x ++ rest) = Ok (Some (x, rest)).
Proof. intros H. unfold be32. rewrite u32_small by done. cbn. by rewrite (proj2 (u32_octets x) H). Qed.

Lemma zlen_be16 x : zlen (be16 x) = 2.
Proof. done. Qed.
Lemma zlen_be32 x : zlen (be32 x) = 4.
Proof. done. Qed.
Lemma be16_bytes x : Forall is_byte (be16 x).
Proof. destruct (u16_octets (u16 x)) as (? & ? & _). unfold be16. constructor; [done|]. by constructor. Qed.
Lemma be32_bytes x : Forall is_byte (be32 x).
Proof. exact (proj1 (u32_octets (u32 x))). Qed.

Lemma header_octets_len h : zlen (header_octets h) = NFAPI_NR_P7_HEADER_LENGTH.
Proof. done. Qed.
Lemma header_octets_bytes h : Forall is_byte (header_octets h).
Proof. unfold header_octets. rewrite !Forall_app. split_and!; auto using be16_bytes, be32_bytes. Qed.

Lemma header_pull_octets h rest : header_ok h → nfapi_header_pull (header_octets h ++ rest) = Ok (Some (h, rest)).
Proof.
  intros H. unfold nfapi_header_pull, header_octets. rewrite <- !app_assoc. cbv [mbind unpacker_bind].
  repeat first [rewrite pull16_be by auto|rewrite pull32_be by auto]. by destruct h.
Qed.

Lemma header_unpack_octets sizeof_header h rest len :
  header_ok h → sizeof_header <= len →
  nfapi_nr_p7_message_header_unpack sizeof_header (header_octets h ++ rest) (zlen (header_octets h ++ rest)) len = Ok (Some h).
Proof.
  intros Hh Hl. unfold nfapi_nr_p7_message_header_unpack. pose proof (zlen_nonneg rest).
  rewrite zlen_app, header_octets_len, (proj2 (Z.ltb_ge _ _)), (proj2 (Z.ltb_ge _ _)) by lia. cbn [orb].
  rewrite take_ge; [by rewrite header_pull_octets|]. rewrite length_app. change (length (header_octets h)) with 18%nat.
  unfold zlen, NFAPI_NR_P7_HEADER_LENGTH in *. lia.
Qed.

(** ** What is packed is what is unpacked

    The messages for synchronisation end with a list of TLVs, which is read to the end of the
    message: the relation of packing and unpacking that holds if nothing follows. *)
Definition codec_end {A B} (p : packer A) (u : unpacker B) (R : A → B → Prop) : Prop :=
  ∃ bs a b, Forall is_byte bs ∧
    (∀ room, 0 <= room → p room = if zlen bs <=? room then Ok (Some (bs, a)) else Ok None) ∧
    u bs = Ok (Some (b, [])) ∧ R a b.

Lemma codec_codec_end {A B} (p : packer A) (u : unpacker B) R : codec p u R → codec_end p u R.
Proof.
  intros (bs & a & b & Hb & Hp & Hu & HR). exists bs, a, b. split_and!; [done..| |done].
  specialize (Hu []). by rewrite app_nil_r in Hu.
Qed.

Lemma codec_end_bind {A B A' B'} (p : packer A) (u : unpacker B) (k : A → packer A')
    (h : B → unpacker B') (R : A → B → Prop) (R' : A' → B' → Prop) :
  codec p u R → (∀ a b, R a b → codec_end (k a) (h b) R') → codec_end (p ≫= k) (u ≫= h) R'.
Proof.
  intros (bs & a & b & Hbs & Hp & Hu & HR) Hk.
  destruct (Hk a b HR) as (cs & a' & b' & Hcs & Hp' & Hu' & HR').
  exists (bs ++ cs), a', b'. split_and!; [by apply Forall_app| | |done].
  - intros room Hr. cbv [mbind packer_bind]. rewrite (Hp room Hr), zlen_app. pose proof (zlen_nonneg cs).
    destruct (Z.leb_spec (zlen bs) room); [|by rewrite (proj2 (Z.leb_gt _ _)) by lia].
    rewrite (Hp' (room - zlen bs)) by lia. destruct (Z.leb_spec (zlen cs) (room - zlen bs));
      [rewrite (proj2 (Z.leb_le _ _)) by lia|rewrite (proj2 (Z.leb_gt _ _)) by lia]; done.
  - cbv [mbind unpacker_bind]. by rewrite Hu.
Qed.

Lemma codec_end_map {A A' B B'} (p : packer A) (u : unpacker B) (f : A → A') (g : B → B') R R' :
  codec_end p u R → (∀ a b, R a b → R' (f a) (g b)) → codec_end (a ← p; mret (f a)) (b ← u; mret (g b)) R'.
Proof.
  intros (bs & a & b & Hbs & Hp & Hu & HR) H. exists bs, (f a), (g b). split_and!; [done| | |auto].
  - intros room Hr. cbv [mbind packer_bind]. rewrite (Hp room Hr). destruct (_ <=? _); [|done]. cbn. by rewrite app_nil_r.
  - cbv [mbind unpacker_bind]. by rewrite Hu.
Qed.

Lemma codec_pushs32 x : is_s32 x → codec (pushs32 x) pulls32 (λ _ y, y = x).
Proof.
  intros Hx. unfold pushs32, pulls32. apply codec_map. replace (push32 x) with (push32 (u32 x)).
  - eapply codec_weaken; [apply codec_push32, is_u32_u32|]. cbn. intros _ b ->.
    unfold is_s32 in Hx. unfold int_of, u32. rewrite Z.mod_mod by lia.
    destruct (Z.ltb_spec (x mod 2 ^ 32) (2 ^ (32 - 1))); change (2 ^ 32) with 4294967296 in *;
      change (2 ^ (32 - 1)) with 2147483648 in *; change (2 ^ 31) with 2147483648 in *;
      Z.to_euclidean_division_equations; lia.
  - unfold push32. by rewrite (u32_small (u32 x)) by apply u32_range.
Qed.

Section roundtrip.
Context {V E : Type}.
Implicit Types (config : option (nfapi_codec_config V E)) (ve : option (vendor_extension E)).

(** no TLV of a vendor is written: there is none, or no callback for it *)
Definition no_ve config ve : Prop := ve = None ∨ config ≫= pack_vendor_extension_tlv = None.

Lemma codec_no_ve config ve old :
  no_ve config ve →
  codec_end (pack_p7_vendor_extension_tlv config ve) (unpack_nr_p7_tlv_list config old) (λ a b, a = ve ∧ b = old).
Proof.
  intros H. exists [], ve, old. split_and!; [constructor| |done..]. intros room Hr. rewrite zlen_nil.
  rewrite (proj2 (Z.leb_le _ _)) by done. unfold pack_p7_vendor_extension_tlv.
  destruct H as [-> | ->]; [done|]. by destruct ve.
Qed.

Definition dl_node_sync_ok config (m : dl_node_sync E) : Prop :=
  is_u32 m.(dns_t1) ∧ is_s32 m.(dns_delta_sfn_slot) ∧ no_ve config m.(dns_ve).
Definition ul_node_sync_ok config (m : ul_node_sync E) : Prop :=
  Forall is_u32 [m.(uns_t1); m.(uns_t2); m.(uns_t3)] ∧ no_ve config m.(uns_ve).
Definition timing_info_ok config (m : timing_info E) : Prop :=
  Forall is_u32 [m.(ti_last_sfn); m.(ti_last_slot); m.(ti_time_since_last_timing_info);
    m.(ti_dl_tti_jitter); m.(ti_tx_data_request_jitter); m.(ti_ul_tti_jitter); m.(ti_ul_dci_jitter)] ∧
  Forall is_s32 [m.(ti_dl_tti_latest_delay); m.(ti_tx_data_request_latest_delay); m.(ti_ul_tti_latest_delay);
    m.(ti_ul_dci_latest_delay); m.(ti_dl_tti_earliest_arrival); m.(ti_tx_data_request_earliest_arrival);
    m.(ti_ul_tti_earliest_arrival); m.(ti_ul_dci_earliest_arrival)] ∧
  no_ve config m.(ti_ve).

(** the TLV in the memory that is unpacked into stays *)
Definition dl_node_sync_arrives old (m : dl_node_sync E) : dl_node_sync E :=
  mk_dl_node_sync m.(dns_t1) m.(dns_delta_sfn_slot) old.
Definition ul_node_sync_arrives old (m : ul_node_sync E) : ul_node_sync E :=
  mk_ul_node_sync m.(uns_t1) m.(uns_t2) m.(uns_t3) old.
Definition timing_info_arrives old (m : timing_info E) : timing_info E :=
  mk_timing_info m.(ti_last_sfn) m.(ti_last_slot) m.(ti_time_since_last_timing_info)
    m.(ti_dl_tti_jitter) m.(ti_tx_data_request_jitter) m.(ti_ul_tti_jitter) m.(ti_ul_dci_jitter)
    m.(ti_dl_tti_latest_delay) m.(ti_tx_data_request_latest_delay) m.(ti_ul_tti_latest_delay) m.(ti_ul_dci_latest_delay)
    m.(ti_dl_tti_earliest_arrival) m.(ti_tx_data_request_earliest_arrival) m.(ti_ul_tti_earliest_arrival)
    m.(ti_ul_dci_earliest_arrival) old.

Local Ltac sync_steps :=
  repeat (eapply codec_end_bind; [first [apply codec_push32|apply codec_pushs32]; assumption|intros _ ? ->]);
  eapply codec_end_map; [by eapply codec_no_ve|intros a b [-> ->]; split; [by destruct_and?|done]].

Lemma codec_dl_node_sync config old m : dl_node_sync_ok config m →
  codec_end (pack_nr_dl_node_sync config m) (unpack_nr_dl_node_sync config old) (λ m' w, m' = m ∧ w = dl_node_sync_arrives old m).
Proof. intros H. unfold dl_node_sync_ok in H. wf H. destruct m; cbn in *. sync_steps. Qed.
Lemma codec_ul_node_sync config old m : ul_node_sync_ok config m →
  codec_end (pack_nr_ul_node_sync config m) (unpack_nr_ul_node_sync config old) (λ m' w, m' = m ∧ w = ul_node_sync_arrives old m).
Proof. intros H. unfold ul_node_sync_ok in H. wf H. destruct m; cbn in *. sync_steps. Qed.
Lemma codec_timing_info config old m : timing_info_ok config m →
  codec_end (pack_nr_timing_info config m) (unpack_nr_timing_info config old) (λ m' w, m' = m ∧ w = timing_info_arrives old m).
Proof. intros H. unfold timing_info_ok in H. wf H. destruct m; cbn in *. sync_steps. Qed.
End roundtrip.

Section messages_ok.
Context {V E : Type}.
Implicit Types (config : option (nfapi_codec_config V E)) (b : nfapi_body V E) (m : nfapi_message V E).

(** the id says which structure follows, and its fields are in range *)
Definition nfapi_body_ok config (id : Z) b : Prop :=
  match b with
  | nfapi_fapi b => p7_body_ok id b
  | nfapi_dl_node_sync m => id = NFAPI_NR_PHY_MSG_TYPE_DL_NODE_SYNC ∧ dl_node_sync_ok config m
  | nfapi_ul_node_sync m => id = NFAPI_NR_PHY_MSG_TYPE_UL_NODE_SYNC ∧ ul_node_sync_ok config m
  | nfapi_timing_info m => id = NFAPI_NR_PHY_MSG_TYPE_TIMING_INFO ∧ timing_info_ok config m
  end.
Definition nfapi_message_ok config m : Prop :=
  header_ok m.(nm_header) ∧ nfapi_body_ok config m.(nm_header).(nh_message_id) m.(nm_body).

(** what packing leaves of a body, and what unpacking makes of it *)
Definition nfapi_body_same b b' : Prop :=
  match b, b' with nfapi_fapi b, nfapi_fapi b' => p7_body_same b b' | _, _ => b' = b end.
Definition nfapi_body_arrives (old : nfapi_memory E) b : nfapi_body V E :=
  match b with
  | nfapi_fapi b => nfapi_fapi (p7_body_arrives old.(mem_fapi) b)
  | nfapi_dl_node_sync m => nfapi_dl_node_sync (dl_node_sync_arrives old.(mem_ve) m)
  | nfapi_ul_node_sync m => nfapi_ul_node_sync (ul_node_sync_arrives old.(mem_ve) m)
  | nfapi_timing_info m => nfapi_timing_info (timing_info_arrives old.(mem_ve) m)
  end.

(** the memory for the message is large enough *)
Definition nfapi_memory_suffices (sizeof_header : Z) (sizeof : fapi_struct → Z) (id unpackedBufLen : Z) : Prop :=
  sizeof_header <= unpackedBufLen ∧ check_nr_fapi_unpack_length sizeof id unpackedBufLen ≠ 0.

Lemma fapi_body_id id (b : p7_body V) : p7_body_ok id b →
  id ≠ NFAPI_NR_PHY_MSG_TYPE_DL_NODE_SYNC ∧ id ≠ NFAPI_NR_PHY_MSG_TYPE_UL_NODE_SYNC ∧ id ≠ NFAPI_NR_PHY_MSG_TYPE_TIMING_INFO.
Proof. destruct b; [..|done]; intros [-> _]; done. Qed.

Lemma codec_end_checked {A B} (f : A → nfapi_body V E) sizeof len id (g : B → nfapi_body V E) (p : packer A) (u : unpacker B)
    (R : A → B → Prop) (R' : nfapi_body V E → nfapi_body V E → Prop) :
  check_nr_fapi_unpack_length sizeof id len ≠ 0 → codec_end p u R → (∀ a w, R a w → R' (f a) (g w)) →
  codec_end (a ← p; mret (f a)) (nfapi_checked sizeof len id g u) R'.
Proof.
  intros Hm H HR. unfold nfapi_checked. rewrite (proj2 (Z.eqb_neq _ _) Hm). by eapply codec_end_map.
Qed.

Lemma codec_nfapi_body config sizeof old len id b :
  nfapi_body_ok config id b → check_nr_fapi_unpack_length sizeof id len ≠ 0 →
  codec_end (nfapi_body_pack config id b) (nfapi_body_unpack sizeof config old len id)
    (λ b' w, nfapi_body_same b b' ∧ w = nfapi_body_arrives old b').
Proof.
  intros Hb Hm. unfold nfapi_body_pack, nfapi_body_unpack. destruct b as [b|m|m|m].
  - destruct (fapi_body_id id b Hb) as (H1 & H2 & H3). rewrite !(proj2 (Z.eqb_neq id _)) by done.
    eapply codec_end_map; [by eapply codec_codec_end, codec_p7_body|].
    intros b' w [Hs ->]. done.
  - destruct Hb as [-> Hb]. rewrite Z.eqb_refl.
    eapply codec_end_checked; [done|by apply codec_dl_node_sync|]. intros ? ? [-> ->]. done.
  - destruct Hb as [-> Hb]. rewrite Z.eqb_refl. change (_ =? NFAPI_NR_PHY_MSG_TYPE_DL_NODE_SYNC) with false. cbv iota.
    eapply codec_end_checked; [done|by apply codec_ul_node_sync|]. intros ? ? [-> ->]. done.
  - destruct Hb as [-> Hb]. rewrite Z.eqb_refl. change (_ =? NFAPI_NR_PHY_MSG_TYPE_DL_NODE_SYNC) with false.
    change (_ =? NFAPI_NR_PHY_MSG_TYPE_UL_NODE_SYNC) with false. cbv iota.
    eapply codec_end_checked; [done|by apply codec_timing_info|]. intros ? ? [-> ->]. done.
Qed.

(** the header that is packed: no checksum yet *)
Definition header_with (len : Z) (h : nfapi_header) : nfapi_header :=
  mk_nfapi_header h.(nh_phy_id) h.(nh_message_id) len h.(nh_segment_sequence) 0 h.(nh_timestamp).

Lemma header_pack_octets h room : NFAPI_NR_P7_HEADER_LENGTH <= room →
  nfapi_header_pack h room = Ok (Some (header_octets (header_with 0 h), tt)).
Proof.
  unfold NFAPI_NR_P7_HEADER_LENGTH. intros Hr. unfold nfapi_header_pack. cbv [mbind packer_bind].
  repeat (rewrite ?zlen_be16, ?zlen_be32; first [rewrite push16_be by lia|rewrite push32_be by lia]). done.
Qed.

Lemma header_pack_room h room : header_ok h → 0 <= room →
  nfapi_header_pack h room =
  if NFAPI_NR_P7_HEADER_LENGTH <=? room then Ok (Some (header_octets (header_with 0 h), tt)) else Ok None.
Proof.
  intros [] Hr. assert (codec (nfapi_header_pack h) nfapi_header_pull (λ _ _, True)) as (bs & [] & _ & _ & Hp & _ & _).
  { assert (is_u32 0) by done. unfold nfapi_header_pack, nfapi_header_pull. by repeat codec_step. }
  rewrite Hp by done. pose proof (zlen_nonneg bs). assert (bs = header_octets (header_with 0 h)) as ->; [|done].
  pose proof (Hp (18 + zlen bs) ltac:(lia)) as H18. rewrite header_pack_octets in H18 by (unfold NFAPI_NR_P7_HEADER_LENGTH; lia).
  rewrite (proj2 (Z.leb_le _ _)) in H18 by lia. by injection H18.
Qed.

Lemma header_patch h len cs : buf_write (header_octets (header_with 0 h) ++ cs) 4 (be32 len) =
  Ok (header_octets (header_with len h) ++ cs).
Proof.
  rewrite buf_write_ok; [done|lia|]. rewrite zlen_be32, zlen_app, header_octets_len. pose proof (zlen_nonneg cs).
  unfold NFAPI_NR_P7_HEADER_LENGTH. lia.
Qed.

(** A message whose fields are in range is packed into a buffer exactly if it fits. From the
    octets of its body, behind any header with its PHY and its id, the same message is
    unpacked: what the transport writes into the header makes no difference. *)
Theorem nfapi_pack_unpack config sizeof_header sizeof old len m :
  nfapi_message_ok config m → nfapi_memory_suffices sizeof_header sizeof m.(nm_header).(nh_message_id) len →
  ∃ cs b', Forall is_byte cs ∧ nfapi_body_same m.(nm_body) b' ∧
    (∀ packedBufLen, 0 <= packedBufLen < 2 ^ 32 →
       nfapi_nr_p7_message_pack config m packedBufLen =
       if NFAPI_NR_P7_HEADER_LENGTH + zlen cs <=? packedBufLen
       then let n := NFAPI_NR_P7_HEADER_LENGTH + zlen cs in let h := m.(nm_header) in
            Ok (Some (header_octets (header_with n h) ++ cs,
              mk_nfapi_message (mk_nfapi_header h.(nh_phy_id) h.(nh_message_id) n h.(nh_segment_sequence) h.(nh_checksum)
                h.(nh_timestamp)) b'))
       else Ok None) ∧
    ∀ h, header_ok h → h.(nh_message_id) = m.(nm_header).(nh_message_id) →
      h.(nh_message_length) <= NFAPI_NR_P7_HEADER_LENGTH + zlen cs →
      nfapi_nr_p7_message_unpack sizeof_header sizeof config old (header_octets h ++ cs)
        (NFAPI_NR_P7_HEADER_LENGTH + zlen cs) len =
      Ok (Some (mk_nfapi_message h (nfapi_body_arrives old b'))).
Proof.
  intros [Hh Hb] [Hm1 Hm2].
  destruct (codec_nfapi_body config sizeof old len _ _ Hb Hm2) as (cs & b' & w & Hcs & Hp & Hu & Hs & ->).
  pose proof (zlen_nonneg cs). exists cs, b'. split_and!; [done..| |].
  - intros packedBufLen [Hr1 Hr2]. cbv zeta. unfold nfapi_nr_p7_message_pack.
    assert ((nfapi_header_pack m.(nm_header);; nfapi_body_pack config m.(nm_header).(nh_message_id) m.(nm_body)) packedBufLen
      = if NFAPI_NR_P7_HEADER_LENGTH + zlen cs <=? packedBufLen
        then Ok (Some (header_octets (header_with 0 m.(nm_header)) ++ cs, b')) else Ok None) as ->.
    { cbv [mbind packer_bind]. rewrite header_pack_room by done. unfold NFAPI_NR_P7_HEADER_LENGTH in *.
      destruct (Z.leb_spec 18 packedBufLen); [|by rewrite (proj2 (Z.leb_gt _ _)) by lia].
      rewrite header_octets_len, Hp by (unfold NFAPI_NR_P7_HEADER_LENGTH; lia). unfold NFAPI_NR_P7_HEADER_LENGTH.
      destruct (Z.leb_spec (zlen cs) (packedBufLen - 18));
        [rewrite (proj2 (Z.leb_le _ _)) by lia|rewrite (proj2 (Z.leb_gt _ _)) by lia]; done. }
    destruct (Z.leb_spec (NFAPI_NR_P7_HEADER_LENGTH + zlen cs) packedBufLen) as [Hfit|]; [|done].
    cbv zeta. unfold NFAPI_NR_P7_HEADER_LENGTH in Hfit.
    rewrite zlen_app, header_octets_len, u32_small by (unfold NFAPI_NR_P7_HEADER_LENGTH; lia).
    rewrite (proj2 (Z.ltb_ge _ _)), push32_be by (unfold NFAPI_NR_P7_HEADER_LENGTH; lia). by rewrite header_patch.
  - intros h Hok Hid Hlen. unfold nfapi_nr_p7_message_unpack.
    rewrite (proj2 (Z.ltb_ge _ _)) by lia. rewrite (proj2 (Z.ltb_ge len _)) by done. cbn [orb].
    rewrite take_ge by (rewrite length_app; change (length (header_octets h)) with 18%nat; unfold zlen, NFAPI_NR_P7_HEADER_LENGTH; lia).
    rewrite header_pull_octets, (proj2 (Z.ltb_ge _ _)), Hid, Hu by done. done.
Qed.
End messages_ok.
