(* ===== verification/Nfapi.v ===== *)
(** * nFAPI: transport over datagrams

    What the two sides of the P7 interface do with messages between packing and unpacking:
    long messages are sent in segments (pnf_nr_send_p7_message of socket_pnf.c,
    vnf_nr_send_p7_msg of socket_vnf.c), which the peer puts together again
    (the reassembly queues of pnf_p7.c and vnf_p7_common.c,
    pnf_nr_reassemble_nfapi_p7_message, vnf_nr_reassemble_p7_message), and the PNF keeps the
    requests for a slot until the physical layer asks for them (pnf_nr_handle_p7_message, the
    handlers of requests and nr_pnf_p7_get_msgs of pnf_p7.c). Sockets are left out: what is sent
    is the list of datagrams, what is received a datagram; so are locks, and memory is assumed
    to be there when it is allocated. *)

From S2P Require Import Prelude Fapi FapiDl FapiUl FapiP7 NfapiMsg.

(** ** The field with segment and sequence number *)
Definition NFAPI_P7_GET_MORE (mss : Z) : Z := Z.shiftr (Z.land mss 0x8000) 15.
Definition NFAPI_P7_GET_SEGMENT (mss : Z) : Z := Z.shiftr (Z.land mss 0x7F00) 8.
Definition NFAPI_P7_GET_SEQUENCE (mss : Z) : Z := Z.land mss 0x00FF.
Definition NFAPI_NR_P7_SET_MSS (more segm sequ : Z) : Z :=
  Z.lor (Z.lor (Z.shiftl (Z.land more 0x1) 15) (Z.shiftl (Z.land segm 0x7F) 8)) (Z.land sequ 0xFF).

(** ** Sending *)
Section sending.
Context {V E : Type} (crc32 : Z → bytes → Z).
Implicit Types (config : option (nfapi_codec_config V E)) (m : nfapi_message V E).

(** what both sides use of their state (at the VNF the first three are the same for all
    connections) *)
Record p7_sender : Type := mk_p7_sender {
  segment_size : Z;          (* uint32_t *)
  checksum_enabled : bool;
  terminate : bool;
  sequence_number : Z        (* uint32_t *)
}.
Definition next_sequence (s : p7_sender) : p7_sender :=
  mk_p7_sender s.(segment_size) s.(checksum_enabled) s.(terminate) (u32 (s.(sequence_number) + 1)).

Definition set_mss (mss : Z) (h : nfapi_header) : nfapi_header :=
  mk_nfapi_header h.(nh_phy_id) h.(nh_message_id) h.(nh_message_length) mss h.(nh_checksum) h.(nh_timestamp).
Definition with_mss (mss : Z) m : nfapi_message V E := mk_nfapi_message (set_mss mss m.(nm_header)) m.(nm_body).

(** One segment: the header of the message with the length of the segment and its number, and
    the octets from [offset] on. *)
Definition segment_octets (tx_buf : bytes) (segment_size mss offset size : Z) : outcome bytes :=
  head ← buf_sub tx_buf 0 NFAPI_NR_P7_HEADER_LENGTH;
  fields ← write_at head 4 (push32 segment_size;; push16 mss) 6;
  part ← buf_sub tx_buf offset size;
  Ok (fields ++ part).

Definition checksummed (enabled : bool) (buffer : bytes) (len : Z) : outcome bytes :=
  if enabled then nfapi_nr_p7_update_checksum crc32 buffer len else Ok buffer.

(** [wrap] is the type of [size]; [finish] what is done before a segment is sent *)
Fixpoint segments_loop (wrap : Z → Z) (finish : Z → bytes → Z → outcome bytes) (tx_buf : bytes)
    (config_segment_size sequence msg_body_len seg_body_len segment_count : Z) (n : nat) (segment offset : Z)
    : outcome (list bytes) :=
  match n with
  | O => Ok []
  | S n =>
      let last := segment + 1 =? segment_count in
      let size := wrap (if last then msg_body_len - seg_body_len * segment
                        else config_segment_size - NFAPI_NR_P7_HEADER_LENGTH) in
      let segment_size := u32 (size + NFAPI_NR_P7_HEADER_LENGTH) in
      let mss := NFAPI_NR_P7_SET_MSS (if last then 0 else 1) segment sequence in
      buffer ← segment_octets tx_buf segment_size mss offset size;
      buffer ← finish segment buffer segment_size;
      rest ← segments_loop wrap finish tx_buf config_segment_size sequence msg_body_len seg_body_len segment_count n
        (segment + 1) (offset + size);
      Ok (buffer :: rest)
  end.

(** the datagrams of a message of [len] octets; a division by zero is undefined *)
Definition p7_datagrams (wrap : Z → Z) (finish : Z → bytes → Z → outcome bytes) (s : p7_sender) (tx_buf : bytes) (len : Z)
    : outcome (list bytes) :=
  if s.(segment_size) <? len then
    let msg_body_len := len - NFAPI_NR_P7_HEADER_LENGTH in
    let seg_body_len := s.(segment_size) - NFAPI_NR_P7_HEADER_LENGTH in
    if seg_body_len =? 0 then Undef
    else
      let segment_count := Z.quot msg_body_len seg_body_len + (if cmod msg_body_len seg_body_len =? 0 then 0 else 1) in
      segments_loop wrap finish tx_buf s.(segment_size) s.(sequence_number) msg_body_len seg_body_len segment_count
        (Z.to_nat segment_count) 0 NFAPI_NR_P7_HEADER_LENGTH
  else
    buffer ← finish 0 tx_buf len;
    Ok [buffer].

(** what is returned, the datagrams, and the state *)
Definition pnf_nr_send_p7_message config (pnf_p7 : p7_sender) m : outcome (bool * list bytes * p7_sender) :=
  if pnf_p7.(terminate) then Ok (false, [], pnf_p7)
  else
    packed ← nfapi_nr_p7_message_pack config (with_mss (NFAPI_NR_P7_SET_MSS 0 0 pnf_p7.(sequence_number)) m) 131072;
    match packed with
    | None => Ok (false, [], pnf_p7)
    | Some (tx_buf, _) =>
        l ← p7_datagrams u32 (λ _ buffer len, checksummed pnf_p7.(checksum_enabled) buffer len) pnf_p7 tx_buf (zlen tx_buf);
        Ok (true, l, next_sequence pnf_p7)
    end.

(** The connection to a PHY is looked up; [time] gives what calculate_transmit_timestamp returns
    when a segment is sent. *)
Definition vnf_nr_send_p7_msg config (p7_connections : list (Z * p7_sender)) (time : Z → Z) m
    : outcome (bool * list bytes * list (Z * p7_sender)) :=
  let phy_id := m.(nm_header).(nh_phy_id) in
  match list_find (λ c, c.1 = phy_id) p7_connections with
  | None => Ok (false, [], p7_connections)
  | Some (k, (_, p7_connection)) =>
      packed ← nfapi_nr_p7_message_pack config (with_mss (NFAPI_NR_P7_SET_MSS 0 0 p7_connection.(sequence_number)) m)
        (1024 * 1024 * 3);
      match packed with
      | None => Ok (false, [], p7_connections)
      | Some (buffer, _) =>
          let finish segment buffer len :=
            buffer ← checksummed p7_connection.(checksum_enabled) buffer len;
            nfapi_nr_p7_update_transmit_timestamp buffer (time segment) in
          l ← p7_datagrams u16 finish p7_connection buffer (zlen buffer);
          Ok (true, l, <[k := (phy_id, next_sequence p7_connection)]> p7_connections)
      end
  end.
End sending.

(** ** Reassembly queues

    The structure of a message that is being received: a segment is [None] as long as its
    buffer is NULL. *)
Record rx_message : Type := mk_rx_message {
  rm_sequence_number : Z;              (* uint8_t *)
  rm_num_segments_received : Z;        (* uint8_t *)
  rm_num_segments_expected : Z;        (* uint8_t *)
  rm_segments : list (option bytes);   (* 128 elements *)
  rm_rx_hr_time : Z                    (* uint32_t *)
}.

(** buffer and length of one element of the array; [data_len] is a uint16_t *)
Definition put_segment (segments : list (option bytes)) (segment_number : Z) (data : bytes) : outcome (list (option bytes)) :=
  if (0 <=? segment_number) && (segment_number <? 128) then
    Ok (<[Z.to_nat segment_number := Some (take (Z.to_nat (u16 (zlen data))) data)]> segments)
  else Undef.

Definition has_sequence (sequence_number : Z) (msg : rx_message) : Prop := rm_sequence_number msg = sequence_number.
#[export] Instance has_sequence_dec n msg : Decision (has_sequence n msg).
Proof. unfold has_sequence. apply _. Defined.
#[global] Typeclasses Opaque has_sequence.

(** the message that is returned, and the queue; the same at both sides *)
Definition rx_reassembly_queue_add_segment (queue : list rx_message) (rx_hr_time sequence_number segment_number m : Z) (data : bytes)
    : outcome (rx_message * list rx_message) :=
  match list_find (has_sequence sequence_number) queue with
  | Some (k, msg) =>
      segments ← put_segment msg.(rm_segments) segment_number data;
      let msg := mk_rx_message msg.(rm_sequence_number) (u8 (msg.(rm_num_segments_received) + 1))
        (if m =? 0 then u8 (segment_number + 1) else msg.(rm_num_segments_expected)) segments msg.(rm_rx_hr_time) in
      Ok (msg, <[k := msg]> queue)
  | None =>
      segments ← put_segment (replicate 128 None) segment_number data;
      let msg := mk_rx_message (u8 sequence_number) 1 (if m =? 0 then u8 (segment_number + 1) else 255) segments rx_hr_time in
      Ok (msg, msg :: queue)
  end.
Definition pnf_p7_rx_reassembly_queue_add_segment := rx_reassembly_queue_add_segment.
Definition vnf_p7_rx_reassembly_queue_add_segment := rx_reassembly_queue_add_segment.

Definition rx_reassembly_queue_remove_msg (queue : list rx_message) (msg : rx_message) : list rx_message :=
  match list_find (has_sequence msg.(rm_sequence_number)) queue with
  | Some (k, _) => delete k queue
  | None => queue
  end.
Definition pnf_p7_rx_reassembly_queue_remove_msg := rx_reassembly_queue_remove_msg.
Definition vnf_p7_rx_reassembly_queue_remove_msg := rx_reassembly_queue_remove_msg.

Definition rx_reassembly_queue_remove_old_msgs (queue : list rx_message) (rx_hr_time delta : Z) : list rx_message :=
  filter (λ msg, ¬ delta < u32 (rx_hr_time - msg.(rm_rx_hr_time))) queue.
Definition pnf_p7_rx_reassembly_queue_remove_old_msgs := rx_reassembly_queue_remove_old_msgs.
Definition vnf_p7_rx_reassembly_queue_remove_old_msgs := rx_reassembly_queue_remove_old_msgs.

(** TIME2TIMEHR *)
Definition TIME2TIMEHR (tv_sec tv_usec : Z) : Z :=
  Z.lor (Z.shiftl (Z.land tv_sec 0xFFF) 20) (Z.land tv_usec 0xFFFFF).

(** ** Putting a message together

    [wrap] is the type of [length] and [offset]: uint32_t at the PNF, uint16_t at the VNF. The
    segments after the first lose their header; their [length] is a uint32_t. *)
Definition segment_length (s : option bytes) : Z := match s with Some b => zlen b | None => 0 end.

Fixpoint total_length (wrap : Z → Z) (segments : list (option bytes)) (i : Z) (n : nat) (length : Z) : outcome Z :=
  match n with
  | O => Ok length
  | S n =>
      match segments !! Z.to_nat i with
      | Some s =>
          let add := u32 (segment_length s - (if 0 <? i then NFAPI_NR_P7_HEADER_LENGTH else 0)) in
          total_length wrap segments (i + 1) n (wrap (length + add))
      | None => Undef
      end
  end.

(** [memcpy] from NULL and with a size below zero is undefined *)
Fixpoint copy_segments (wrap : Z → Z) (segments : list (option bytes)) (i : Z) (n : nat) (offset : Z) (buffer : bytes) : outcome bytes :=
  match n with
  | O => Ok buffer
  | S n =>
      match segments !! Z.to_nat i with
      | Some (Some b) =>
          part ← (if 0 <? i then buf_sub b NFAPI_NR_P7_HEADER_LENGTH (zlen b - NFAPI_NR_P7_HEADER_LENGTH) else Ok b);
          buffer ← buf_write buffer offset part;
          copy_segments wrap segments (i + 1) n (wrap (offset + zlen part)) buffer
      | _ => Undef
      end
  end.

(** queue, buffer for reassembly ([None] is NULL) and its size *)
Record rx_state : Type := mk_rx_state { reassembly_queue : list rx_message; reassembly_buffer : option bytes; reassembly_buffer_size : Z }.
#[export] Instance eta_rx_state : Eta rx_state :=
  λ r, mk_rx_state (reassembly_queue r) (reassembly_buffer r) (reassembly_buffer_size r).
#[export] Instance set_reassembly_queue : Setter reassembly_queue := ltac:(derive_setter).

(** the buffer, made larger if it has to be *)
Definition resize_buffer (s : rx_state) (length : Z) : bytes * Z :=
  match (if s.(reassembly_buffer_size) <? length then None else s.(reassembly_buffer)) with
  | Some buffer => (buffer, s.(reassembly_buffer_size))
  | None => (replicate (Z.to_nat length) 0, length)
  end.

Section receiving.
Context {S : Type} (handle : bytes → Z → S → outcome S).

(** a segment at either side: what happens between the look at the header and the removal of
    old messages; [handle] is what is done with a message that is complete *)
Definition receive_segment (wrap : Z → Z) (rx_hr_time sequence_num segment_num m : Z) (data : bytes) (st : rx_state * S)
    : outcome (rx_state * S) :=
  let '(rx, s) := st in
  '(rx_msg, queue) ← rx_reassembly_queue_add_segment rx.(reassembly_queue) rx_hr_time sequence_num segment_num m data;
  if rx_msg.(rm_num_segments_received) =? rx_msg.(rm_num_segments_expected) then
    let n := Z.to_nat rx_msg.(rm_num_segments_expected) in
    length ← total_length wrap rx_msg.(rm_segments) 0 n 0;
    let '(buffer, size) := resize_buffer rx length in
    buffer ← copy_segments wrap rx_msg.(rm_segments) 0 n 0 buffer;
    s ← handle (take (Z.to_nat length) buffer) rx_msg.(rm_rx_hr_time) s;
    Ok (mk_rx_state (rx_reassembly_queue_remove_msg queue rx_msg) (Some buffer) size, s)
  else Ok (rx <| reassembly_queue := queue |>, s).

(** ** Receiving

    A datagram, with the time at which it is received. *)
Context (crc32 : Z → bytes → Z) (sizeof_header : Z) (checksum_enabled : bool).

Definition checksum_fits (pRecvMsg : bytes) (h : nfapi_header) : outcome bool :=
  if checksum_enabled then
    checksum ← nfapi_nr_p7_calculate_checksum crc32 pRecvMsg (zlen pRecvMsg);
    Ok (checksum =? h.(nh_checksum))
  else Ok true.

Definition remove_old (rx_hr_time : Z) (rx : rx_state) : rx_state :=
  rx <| reassembly_queue := rx_reassembly_queue_remove_old_msgs rx.(reassembly_queue) rx_hr_time 10000 |>.

Definition pnf_nr_reassemble_nfapi_p7_message (pRecvMsg : bytes) (rx_hr_time : Z) (st : rx_state * S) : outcome (rx_state * S) :=
  let recvMsgLen := zlen pRecvMsg in
  if recvMsgLen <? 4 then Ok st
  else
    result ← nfapi_nr_p7_message_header_unpack sizeof_header pRecvMsg recvMsgLen sizeof_header;
    match result with
    | None => Ok st
    | Some messageHeader =>
        let m := NFAPI_P7_GET_MORE messageHeader.(nh_segment_sequence) in
        let sequence_num := NFAPI_P7_GET_SEQUENCE messageHeader.(nh_segment_sequence) in
        let segment_num := NFAPI_P7_GET_SEGMENT messageHeader.(nh_segment_sequence) in
        fits ← checksum_fits pRecvMsg messageHeader;
        if negb fits then Ok st
        else if (m =? 0) && (segment_num =? 0) then
          if recvMsgLen <? 8 then Ok st
          else s ← handle pRecvMsg rx_hr_time st.2; Ok (remove_old rx_hr_time st.1, s)
        else
          '(rx, s) ← receive_segment u32 rx_hr_time sequence_num segment_num m pRecvMsg st;
          Ok (remove_old rx_hr_time rx, s)
    end.

(** The connections of the VNF by PHY; the clock is read when a message is started and when old
    messages are looked for. *)
Definition vnf_nr_reassemble_p7_message (pRecvMsg : bytes) (now_add now_old : Z) (st : list (Z * rx_state) * S)
    : outcome (list (Z * rx_state) * S) :=
  let recvMsgLen := zlen pRecvMsg in
  if recvMsgLen <? 4 then Ok st
  else
    result ← nfapi_nr_p7_message_header_unpack sizeof_header pRecvMsg recvMsgLen sizeof_header;
    match result with
    | None => Ok st
    | Some messageHeader =>
        fits ← checksum_fits pRecvMsg messageHeader;
        if negb fits then Ok st
        else
          let m := NFAPI_P7_GET_MORE messageHeader.(nh_segment_sequence) in
          let segment_num := NFAPI_P7_GET_SEGMENT messageHeader.(nh_segment_sequence) in
          let sequence_num := NFAPI_P7_GET_SEQUENCE messageHeader.(nh_segment_sequence) in
          if (m =? 0) && (segment_num =? 0) then
            if recvMsgLen <? 8 then Ok st
            else s ← handle pRecvMsg now_add st.2; Ok (st.1, s)
          else
            match list_find (λ c, c.1 = messageHeader.(nh_phy_id)) st.1 with
            | Some (k, (phy_id, rx)) =>
                '(rx, s) ← receive_segment u16 now_add sequence_num segment_num m pRecvMsg (rx, st.2);
                Ok (<[k := (phy_id, remove_old now_old rx)]> st.1, s)
            | None => Ok st
            end
    end.
End receiving.

(** ** Requests at the PNF *)
Definition NFAPI_SLOTNUM (mu : Z) : Z := Z.shiftl 10 mu.
Definition NFAPI_SFNSLOT2DEC (mu sfn slot : Z) : Z := u32 (sfn * NFAPI_SLOTNUM mu + slot).
Definition NFAPI_MAX_SFNSLOTDEC (mu : Z) : Z := 1024 * NFAPI_SLOTNUM mu.

(** nr_slot_select of phy_frame_config_nr.c: duplex mode and, for each slot of the period, what
    its symbols are used for (0 downlink, 1 uplink, 2 either) *)
Definition NR_DOWNLINK_SLOT : Z := 1.
Definition NR_UPLINK_SLOT : Z := 2.
Definition NR_MIXED_SLOT : Z := 3.
Definition NR_SYMBOLS_PER_SLOT : nat := 14.
Record slots_config : Type := mk_slots_config { frame_duplex_type : Z; max_tdd_periodicity_list : list (list Z) }.
Definition FDD : Z := 0.

Definition count_symbols (use : Z) (symbols : list Z) : nat := length (filter (λ s, s = use) (take NR_SYMBOLS_PER_SLOT symbols)).

Definition nr_slot_select (cfg : slots_config) (nr_slot : Z) : outcome Z :=
  if cfg.(frame_duplex_type) =? FDD then Ok (Z.lor NR_UPLINK_SLOT NR_DOWNLINK_SLOT)
  else
    match cfg.(max_tdd_periodicity_list) !! Z.to_nat nr_slot with
    | None => Undef
    | Some symbols =>
        if (length symbols <? NR_SYMBOLS_PER_SLOT)%nat then Undef
        else if (count_symbols 1 symbols =? NR_SYMBOLS_PER_SLOT)%nat then Ok NR_UPLINK_SLOT
        else if (count_symbols 0 symbols =? NR_SYMBOLS_PER_SLOT)%nat then Ok NR_DOWNLINK_SLOT
        else Ok NR_MIXED_SLOT
    end.

Definition check_nr_nfapi_p7_slot_type (cfg : slots_config) (slot type : Z) : outcome bool :=
  slot_type ← nr_slot_select cfg slot;
  Ok (negb (negb (slot_type =? type) && negb (slot_type =? NR_MIXED_SLOT))).

(** the four requests of a slot *)
Inductive req_kind : Type := DL_TTI | UL_TTI | UL_DCI | TX_DATA.
#[export] Instance req_kind_eq_dec : EqDecision req_kind.
Proof. solve_decision. Defined.

Definition request_slot_type (k : req_kind) : Z := match k with UL_TTI => NR_UPLINK_SLOT | _ => NR_DOWNLINK_SLOT end.
Definition request_struct (k : req_kind) : fapi_struct :=
  match k with
  | DL_TTI => nfapi_nr_dl_tti_request_t | UL_TTI => nfapi_nr_ul_tti_request_t
  | UL_DCI => nfapi_nr_ul_dci_request_t | TX_DATA => nfapi_nr_tx_data_request_t
  end.

Section pnf.
Context {V E : Type}.

(** kind, SFN and slot of a request *)
Definition request_of (b : p7_body V) : option (req_kind * Z * Z) :=
  match b with
  | p7_dl_tti_request m => Some (DL_TTI, m.(dl_SFN), m.(dl_Slot))
  | p7_ul_tti_request m => Some (UL_TTI, m.(ul_SFN), m.(ul_Slot))
  | p7_ul_dci_request m => Some (UL_DCI, m.(udci_SFN), m.(udci_Slot))
  | p7_tx_data_request m => Some (TX_DATA, m.(tx_SFN), m.(tx_Slot))
  | _ => None
  end.
Definition set_sfn_slot (sfn slot : Z) (b : p7_body V) : p7_body V :=
  match b with
  | p7_dl_tti_request m => p7_dl_tti_request
      (mk_dl_tti_request sfn slot m.(dl_nPDUs) m.(dl_nGroup) m.(dl_tti_pdu_list) m.(dl_nUe) m.(dl_PduIdx))
  | p7_ul_tti_request m => p7_ul_tti_request
      (mk_ul_tti_request sfn slot m.(ul_n_pdus) m.(ul_rach_present) m.(ul_n_ulsch) m.(ul_n_ulcch) m.(ul_n_group)
        m.(ul_pdus_list) m.(ul_groups_list))
  | p7_ul_dci_request m => p7_ul_dci_request (mk_ul_dci_request sfn slot m.(udci_numPdus) m.(ul_dci_pdu_list))
  | p7_tx_data_request m => p7_tx_data_request (mk_tx_data sfn slot m.(Number_of_PDUs) m.(tx_pdu_list))
  | b => b
  end.

(** what a TX_DATA.request adds to the statistics *)
Definition tx_data_bytes (b : p7_body V) : Z :=
  match b with
  | p7_tx_data_request m => sumZ PDU_length (take (Z.to_nat m.(Number_of_PDUs)) m.(tx_pdu_list))
  | _ => 0
  end.

(** [nfapi_pnf_p7_slot_buffer_t]: the four requests as bodies *)
Record slot_buffer_t : Type := mk_slot_buffer { sb_sfn : Z; sb_slot : Z; sb_request : req_kind → p7_body V }.

Record nr_stats_t : Type := mk_nr_stats { ontime : req_kind → Z; late : req_kind → Z; dl_bytes : Z }.

Record pnf_p7_t : Type := mk_pnf_p7 {
  mu : Z;
  pnf_sfn : Z;                         (* uint16_t *)
  pnf_slot : Z;                        (* uint16_t *)
  slot_shift : Z;                      (* int32_t *)
  slot_buffer : list slot_buffer_t;    (* 30 elements *)
  slot_buffer_size : Z;                (* uint16_t *)
  timing_info_mode_periodic : bool;
  timing_info_mode_aperiodic : bool;
  timing_info_period : Z;              (* uint8_t *)
  timing_info_period_counter : Z;      (* uint8_t *)
  timing_info_aperiodic_send : bool;
  timing_info_ms_counter : Z;          (* uint32_t *)
  nr_stats : nr_stats_t;
  outbox : list (nfapi_body V E)       (* given to send_p7_msg *)
}.
#[export] Instance eta_pnf_p7 : Eta pnf_p7_t :=
  λ r, mk_pnf_p7 (mu r) (pnf_sfn r) (pnf_slot r) (slot_shift r) (slot_buffer r) (slot_buffer_size r)
    (timing_info_mode_periodic r) (timing_info_mode_aperiodic r) (timing_info_period r) (timing_info_period_counter r)
    (timing_info_aperiodic_send r) (timing_info_ms_counter r) (nr_stats r) (outbox r).
#[export] Instance set_pnf_sfn : Setter pnf_sfn := ltac:(derive_setter).
#[export] Instance set_pnf_slot : Setter pnf_slot := ltac:(derive_setter).
#[export] Instance set_slot_shift : Setter slot_shift := ltac:(derive_setter).
#[export] Instance set_slot_buffer : Setter slot_buffer := ltac:(derive_setter).
#[export] Instance set_period_counter : Setter timing_info_period_counter := ltac:(derive_setter).
#[export] Instance set_aperiodic_send : Setter timing_info_aperiodic_send := ltac:(derive_setter).
#[export] Instance set_ms_counter : Setter timing_info_ms_counter := ltac:(derive_setter).
#[export] Instance set_nr_stats : Setter nr_stats := ltac:(derive_setter).
#[export] Instance set_outbox : Setter outbox := ltac:(derive_setter).

Definition count_one (k : req_kind) (f : req_kind → Z) : req_kind → Z :=
  λ k', if decide (k' = k) then (f k' + 1) mod 2 ^ 16 else f k'.

(** the distance of two slots on the circle of all slots *)
Definition is_nr_p7_request_in_window (sfn slot : Z) (phy : pnf_p7_t) : bool :=
  let recv := NFAPI_SFNSLOT2DEC phy.(mu) sfn slot in
  let curr := NFAPI_SFNSLOT2DEC phy.(mu) phy.(pnf_sfn) phy.(pnf_slot) in
  let timing_window := u8 phy.(slot_buffer_size) in
  let diff := if curr <? recv then recv - curr else curr - recv in
  let diff := if NFAPI_MAX_SFNSLOTDEC phy.(mu) / 2 <? diff then u32 (NFAPI_MAX_SFNSLOTDEC phy.(mu) - diff) else diff in
  negb (timing_window <? diff).

Definition buffer_index (phy : pnf_p7_t) (sfn slot : Z) : Z :=
  u8 (NFAPI_SFNSLOT2DEC phy.(mu) sfn slot mod NFAPI_SLOTNUM phy.(mu)).

(** what unpacking needs: callbacks, sizes, the memory of a slot as the unpacker finds it, and
    what it leaves of a request if it fails *)
Context (config : option (nfapi_codec_config V E)) (sizeof_header : Z) (sizeof : fapi_struct → Z)
  (memory : slot_buffer_t → nfapi_memory E) (left_behind : bytes → p7_body V → p7_body V) (cfg : slots_config).

Definition set_request (k : req_kind) (b : p7_body V) (sb : slot_buffer_t) : slot_buffer_t :=
  mk_slot_buffer sb.(sb_sfn) sb.(sb_slot) (λ k', if decide (k' = k) then b else sb.(sb_request) k').

(** pnf_handle_dl_tti_request, pnf_handle_ul_tti_request, pnf_handle_ul_dci_request and
    pnf_handle_tx_data_request, which differ in the kind; the octets of data are counted for the
    last only. A slot whose buffer is not in the array is undefined. *)
Definition pnf_handle_request (k : req_kind) (pRecvMsg : bytes) (phy : pnf_p7_t) : outcome pnf_p7_t :=
  peek ← peek_nr_nfapi_p7_sfn_slot pRecvMsg (zlen pRecvMsg);
  match peek with
  | None => Ok phy
  | Some (frame, slot) =>
      type_fits ← check_nr_nfapi_p7_slot_type cfg slot (request_slot_type k);
      if type_fits && is_nr_p7_request_in_window frame slot phy then
        let i := Z.to_nat (buffer_index phy frame slot) in
        match phy.(slot_buffer) !! i with
        | None => Undef
        | Some sb =>
            let sb := mk_slot_buffer frame slot sb.(sb_request) in
            let stats := phy.(nr_stats) in
            let stats := mk_nr_stats (count_one k stats.(ontime)) stats.(late) stats.(dl_bytes) in
            result ← nfapi_nr_p7_message_unpack sizeof_header sizeof config (memory sb) pRecvMsg (zlen pRecvMsg) (sizeof (request_struct k));
            match result with
            | Some (mk_nfapi_message _ (nfapi_fapi b)) =>
                let bytes := if decide (k = TX_DATA) then u32 (stats.(dl_bytes) + tx_data_bytes b) else stats.(dl_bytes) in
                Ok (phy <| slot_buffer := <[i := set_request k b sb]> phy.(slot_buffer) |>
                        <| nr_stats := mk_nr_stats stats.(ontime) stats.(late) bytes |>)
            | _ =>
                Ok (phy <| slot_buffer := <[i := set_request k (left_behind pRecvMsg (sb.(sb_request) k)) sb]> phy.(slot_buffer) |>
                        <| nr_stats := stats |>)
            end
        end
      else
        let stats := phy.(nr_stats) in
        Ok (phy <| timing_info_aperiodic_send := phy.(timing_info_mode_aperiodic) || phy.(timing_info_aperiodic_send) |>
                <| nr_stats := mk_nr_stats stats.(ontime) (count_one k stats.(late)) stats.(dl_bytes) |>)
  end.
Definition pnf_handle_dl_tti_request := pnf_handle_request DL_TTI.
Definition pnf_handle_ul_tti_request := pnf_handle_request UL_TTI.
Definition pnf_handle_ul_dci_request := pnf_handle_request UL_DCI.
Definition pnf_handle_tx_data_request := pnf_handle_request TX_DATA.

(** DL_NODE_SYNC. The answer carries two times that the PNF reads from its clock: [t2] and [t3]
    are what calculate_nr_t2 and calculate_nr_t3 return. *)
Context (sync_memory : nfapi_memory E) (t2 t3 : pnf_p7_t → Z → Z) (handle_vendor : Z → bytes → pnf_p7_t → outcome pnf_p7_t).

Definition pnf_nr_handle_dl_node_sync (pRecvMsg : bytes) (rx_hr_time : Z) (phy : pnf_p7_t) : outcome pnf_p7_t :=
  result ← nfapi_nr_p7_message_unpack sizeof_header sizeof config sync_memory pRecvMsg (zlen pRecvMsg)
    (sizeof nfapi_nr_dl_node_sync_t);
  match result with
  | Some (mk_nfapi_message _ (nfapi_dl_node_sync m)) =>
      let phy := if m.(dns_delta_sfn_slot) =? 0 then phy else phy <| slot_shift := m.(dns_delta_sfn_slot) |> in
      Ok (phy <| outbox := phy.(outbox) ++
        [nfapi_ul_node_sync (mk_ul_node_sync m.(dns_t1) (t2 phy rx_hr_time) (t3 phy rx_hr_time) None)] |>)
  | _ => Ok phy
  end.

(** A vendor's messages are the callbacks' business. *)
Definition pnf_nr_handle_p7_message (pRecvMsg : bytes) (rx_hr_time : Z) (phy : pnf_p7_t) : outcome pnf_p7_t :=
  if zlen pRecvMsg <? 4 then Ok phy
  else
    result ← nfapi_nr_p7_message_header_unpack sizeof_header pRecvMsg (zlen pRecvMsg) sizeof_header;
    match result with
    | None => Ok phy
    | Some header =>
        let id := header.(nh_message_id) in
        if zlen pRecvMsg <? 8 then Ok phy
        else if id =? NFAPI_NR_PHY_MSG_TYPE_DL_NODE_SYNC then pnf_nr_handle_dl_node_sync pRecvMsg rx_hr_time phy
        else if id =? NFAPI_NR_PHY_MSG_TYPE_DL_TTI_REQUEST then pnf_handle_dl_tti_request pRecvMsg phy
        else if id =? NFAPI_NR_PHY_MSG_TYPE_UL_TTI_REQUEST then pnf_handle_ul_tti_request pRecvMsg phy
        else if id =? NFAPI_NR_PHY_MSG_TYPE_UL_DCI_REQUEST then pnf_handle_ul_dci_request pRecvMsg phy
        else if id =? NFAPI_NR_PHY_MSG_TYPE_TX_DATA_REQUEST then pnf_handle_tx_data_request pRecvMsg phy
        else if (NFAPI_VENDOR_EXT_MSG_MIN <=? id) && (id <=? NFAPI_VENDOR_EXT_MSG_MAX) then handle_vendor id pRecvMsg phy
        else Ok phy
    end.

(** ** The requests of a slot for the physical layer *)

(** a request that is given away: its copy, and what is left in the buffer *)
Definition take_request (sfn slot : Z) (k : req_kind) (sb : slot_buffer_t) : option (p7_body V) * slot_buffer_t :=
  let b := sb.(sb_request) k in
  if decide (request_of b = Some (k, sfn, slot)) then (Some b, set_request k (set_sfn_slot (u16 (-1)) (u16 (-1)) b) sb)
  else (None, sb).

(** the jitters are fields of the state that nothing sets *)
Context (dl_tti_jitter tx_data_jitter ul_tti_jitter ul_dci_jitter : Z).

Definition pnf_timing_info (phy : pnf_p7_t) : nfapi_body V E :=
  nfapi_timing_info (mk_timing_info phy.(pnf_sfn) phy.(pnf_slot) phy.(timing_info_ms_counter)
    dl_tti_jitter tx_data_jitter ul_tti_jitter ul_dci_jitter 0 0 0 0 0 0 0 0 None).
Definition pnf_nr_pack_and_send_timing_info (phy : pnf_p7_t) : pnf_p7_t :=
  phy <| outbox := phy.(outbox) ++ [pnf_timing_info phy] |> <| timing_info_ms_counter := 0 |>.

(** the periodic or the aperiodic report; the counter counts whenever the mode is periodic *)
Definition send_timing_info (phy : pnf_p7_t) : pnf_p7_t :=
  let due := phy.(timing_info_period_counter) =? phy.(timing_info_period) in
  let phy := if phy.(timing_info_mode_periodic)
             then phy <| timing_info_period_counter := u8 (phy.(timing_info_period_counter) + 1) |> else phy in
  if phy.(timing_info_mode_periodic) && due then
    pnf_nr_pack_and_send_timing_info phy <| timing_info_period_counter := 0 |>
  else if phy.(timing_info_mode_aperiodic) && phy.(timing_info_aperiodic_send) then
    pnf_nr_pack_and_send_timing_info phy <| timing_info_aperiodic_send := false |>
  else phy <| timing_info_ms_counter := u32 (phy.(timing_info_ms_counter) + 1) |>.

(** the slot that is looked for, once shifted; the number is a uint16_t and so never below 0 *)
Definition shifted_slot (phy : pnf_p7_t) (slot : Z) : Z :=
  if phy.(slot_shift) =? 0 then slot
  else
    let shifted := u16 (slot + phy.(slot_shift)) in
    if NFAPI_MAX_SFNSLOTDEC phy.(mu) <? shifted then u16 (shifted - NFAPI_MAX_SFNSLOTDEC phy.(mu)) else shifted.

Definition reset_stats (sfn slot : Z) (phy : pnf_p7_t) : pnf_p7_t :=
  if (cmod sfn 128 =? 0) && (slot =? 0) then phy <| nr_stats := mk_nr_stats (λ _, 0) (λ _, 0) 0 |> else phy.

(** For each kind the request that is returned; [None] is one without PDUs, for [sfn] and the
    slot shifted. Without a configured buffer what is returned stays as the caller made it. *)
Definition nr_pnf_p7_get_msgs (sfn slot : Z) (phy : pnf_p7_t) : outcome ((req_kind → option (p7_body V)) * pnf_p7_t) :=
  let phy := phy <| pnf_sfn := sfn |> <| pnf_slot := slot |> in
  let i := Z.to_nat (buffer_index phy sfn slot) in
  if phy.(slot_buffer_size) =? 0 then Ok (λ _, None, reset_stats sfn slot phy)
  else
    let slot := shifted_slot phy slot in
    let phy := phy <| slot_shift := 0 |> in
    match phy.(slot_buffer) !! i with
    | None => Undef
    | Some sb =>
        let '(dl_tti, sb) := take_request sfn slot DL_TTI sb in
        let '(tx_data, sb) := take_request sfn slot TX_DATA sb in
        let '(ul_tti, sb) := take_request sfn slot UL_TTI sb in
        let '(ul_dci, sb) := take_request sfn slot UL_DCI sb in
        let phy := send_timing_info (phy <| slot_buffer := <[i := sb]> phy.(slot_buffer) |>) in
        Ok (λ k, match k with DL_TTI => dl_tti | UL_TTI => ul_tti | UL_DCI => ul_dci | TX_DATA => tx_data end,
            reset_stats sfn slot phy)
    end.
End pnf.
