(* ===== verification/NfapiProofs.v ===== *)
(** * nFAPI: from one side to the other

    Theorems on [Nfapi]: the datagrams of a message, received in any order between those of
    other messages, give the message that was sent, and a request that a VNF sends is what the
    physical layer of the PNF gets in its slot; and what goes wrong beyond the conditions of
    these theorems. *)

From S2P Require Import Prelude Bits Fapi FapiCodec FapiDl FapiUl FapiInd FapiP7 FapiP7Proofs NfapiMsg Nfapi.

(** ** The field with segment and sequence number *)
Lemma field_at x n k : 0 <= n → 0 <= k → Z.shiftr (Z.land x (Z.shiftl (Z.ones n) k)) k = (x / 2 ^ k) mod 2 ^ n.
Proof.
  intros Hn Hk. rewrite Z.shiftr_land, Z.shiftr_shiftl_l, Z.sub_diag, Z.shiftl_0_r by lia.
  by rewrite Z.land_ones, Z.shiftr_div_pow2 by lia.
Qed.

Lemma set_mss_value more segm sequ : 0 <= more < 2 → 0 <= segm < 128 →
  NFAPI_NR_P7_SET_MSS more segm sequ = (more * 128 + segm) * 256 + sequ mod 256.
Proof.
  intros Hm Hs. unfold NFAPI_NR_P7_SET_MSS.
  change 0x1 with (Z.ones 1). change 0x7F with (Z.ones 7). change 0xFF with (Z.ones 8). rewrite !Z.land_ones by lia.
  rewrite (Z.mod_small more), (Z.mod_small segm) by (change (2 ^ 1) with 2; change (2 ^ 7) with 128; lia).
  change (2 ^ 8) with 256. pose proof (Z.mod_pos_bound sequ 256).
  rewrite (lor_shiftl_add more) by (rewrite ?Z.shiftl_mul_pow2 by lia; change (2 ^ 8) with 256; change (2 ^ 15) with 32768; lia).
  rewrite Z.shiftl_mul_pow2 by lia. change (more * 2 ^ 15 + segm * 2 ^ 8) with (more * 32768 + segm * 256).
  replace (more * 32768 + segm * 256) with (Z.shiftl (more * 128 + segm) 8) by (rewrite Z.shiftl_mul_pow2 by lia; lia).
  rewrite lor_shiftl_add by (change (2 ^ 8) with 256; lia). done.
Qed.

Lemma set_mss_get more segm sequ : 0 <= more < 2 → 0 <= segm < 128 →
  let mss := NFAPI_NR_P7_SET_MSS more segm sequ in
  is_u16 mss ∧ NFAPI_P7_GET_MORE mss = more ∧ NFAPI_P7_GET_SEGMENT mss = segm ∧ NFAPI_P7_GET_SEQUENCE mss = sequ mod 256.
Proof.
  intros Hm Hs. cbv zeta. rewrite set_mss_value by done. pose proof (Z.mod_pos_bound sequ 256).
  unfold is_u16, NFAPI_P7_GET_MORE, NFAPI_P7_GET_SEGMENT, NFAPI_P7_GET_SEQUENCE.
  change 0x8000 with (Z.shiftl (Z.ones 1) 15). change 0x7F00 with (Z.shiftl (Z.ones 7) 8). change 0xFF with (Z.ones 8).
  rewrite !field_at, Z.land_ones by lia. change (2 ^ 16) with 65536. change (2 ^ 15) with 32768. change (2 ^ 1) with 2.
  change (2 ^ 7) with 128. change (2 ^ 8) with 256. split_and!; [lia|lia|..]; Z.to_euclidean_division_equations; lia.
Qed.

(** ** The checksum *)
Section transfer.
Context (crc32 : Z → bytes → Z).

Definition checksum_of (h : nfapi_header) (part : bytes) : Z :=
  u32 (Z.lnot (u32 (crc32 (u32 (crc32 (u32 (crc32 0
    (be16 h.(nh_phy_id) ++ be16 h.(nh_message_id) ++ be32 h.(nh_message_length) ++ be16 h.(nh_segment_sequence))))
    [0; 0; 0; 0])) part))).

Lemma checksum_octets h part : NFAPI_NR_P7_HEADER_LENGTH + zlen part < 2 ^ 16 →
  nfapi_nr_p7_calculate_checksum crc32 (header_octets h ++ part) (NFAPI_NR_P7_HEADER_LENGTH + zlen part) = Ok (checksum_of h part).
Proof.
  intros Hl. unfold nfapi_nr_p7_calculate_checksum, nfapi_nr_calculate_checksum. pose proof (zlen_nonneg part).
  set (ten := be16 (nh_phy_id h) ++ be16 (nh_message_id h) ++ be32 (nh_message_length h) ++ be16 (nh_segment_sequence h)).
  replace (buf_sub (header_octets h ++ part) 0 10) with (Ok ten); cycle 1.
  { symmetry. unfold header_octets. rewrite <- !app_assoc. exact (buf_sub_prefix ten (be32 (nh_checksum h) ++ be32 (nh_timestamp h) ++ part)). }
  cbn [mbind outcome_bind]. unfold NFAPI_NR_P7_HEADER_LENGTH in *. rewrite u16_id by (unfold is_u16; lia).
  replace (18 + zlen part - 18) with (zlen part) by lia.
  replace (buf_sub (header_octets h ++ part) 18 (zlen part)) with (Ok part); [done|].
  symmetry. rewrite <- (app_nil_r part) at 1. exact (buf_sub_mid (header_octets h) part []).
Qed.

Definition with_checksum (c : Z) (h : nfapi_header) : nfapi_header :=
  mk_nfapi_header h.(nh_phy_id) h.(nh_message_id) h.(nh_message_length) h.(nh_segment_sequence) c h.(nh_timestamp).
Definition with_timestamp (t : Z) (h : nfapi_header) : nfapi_header :=
  mk_nfapi_header h.(nh_phy_id) h.(nh_message_id) h.(nh_message_length) h.(nh_segment_sequence) h.(nh_checksum) t.

Lemma update_checksum_octets h part : NFAPI_NR_P7_HEADER_LENGTH + zlen part < 2 ^ 16 →
  nfapi_nr_p7_update_checksum crc32 (header_octets h ++ part) (NFAPI_NR_P7_HEADER_LENGTH + zlen part) =
  Ok (header_octets (with_checksum (checksum_of h part) h) ++ part).
Proof.
  intros Hl. unfold nfapi_nr_p7_update_checksum. fold (nfapi_nr_p7_calculate_checksum crc32).
  rewrite checksum_octets by done. cbn [mbind outcome_bind]. unfold write_at. pose proof (zlen_nonneg part).
  unfold NFAPI_NR_P7_HEADER_LENGTH in *. rewrite push32_be by lia.
  rewrite buf_write_ok; [done|lia|]. rewrite zlen_be32, zlen_app, header_octets_len. unfold NFAPI_NR_P7_HEADER_LENGTH. lia.
Qed.

Lemma update_timestamp_octets h part t :
  nfapi_nr_p7_update_transmit_timestamp (header_octets h ++ part) t = Ok (header_octets (with_timestamp t h) ++ part).
Proof.
  unfold nfapi_nr_p7_update_transmit_timestamp, write_at. rewrite push32_be by done. pose proof (zlen_nonneg part).
  rewrite buf_write_ok; [done|lia|]. rewrite zlen_be32, zlen_app, header_octets_len. unfold NFAPI_NR_P7_HEADER_LENGTH. lia.
Qed.

(** ** Segments *)

(** what a header says of a segment, and that the checksum, if there is one, fits *)
Record segment_header (enabled : bool) (phy id sequence more segment : Z) (h : nfapi_header) (part : bytes) : Prop := {
  sh_ok : header_ok h;
  sh_phy_id : h.(nh_phy_id) = phy;
  sh_message_id : h.(nh_message_id) = id;
  sh_message_length : h.(nh_message_length) = NFAPI_NR_P7_HEADER_LENGTH + zlen part;
  sh_mss : h.(nh_segment_sequence) = NFAPI_NR_P7_SET_MSS more segment sequence;
  sh_checksum : enabled = true → h.(nh_checksum) = checksum_of h part
}.

(** what is done before a segment is sent: it changes fields of the header only *)
Definition finish_ok (enabled : bool) (finish : Z → bytes → Z → outcome bytes) : Prop :=
  ∀ segment h part, header_ok h → NFAPI_NR_P7_HEADER_LENGTH + zlen part < 2 ^ 16 →
  ∃ h', finish segment (header_octets h ++ part) (NFAPI_NR_P7_HEADER_LENGTH + zlen part) = Ok (header_octets h' ++ part) ∧
    header_ok h' ∧ h'.(nh_phy_id) = h.(nh_phy_id) ∧ h'.(nh_message_id) = h.(nh_message_id) ∧
    h'.(nh_message_length) = h.(nh_message_length) ∧ h'.(nh_segment_sequence) = h.(nh_segment_sequence) ∧
    (enabled = true → h'.(nh_checksum) = checksum_of h' part).

Lemma checksummed_ok enabled : finish_ok enabled (λ _ buffer len, checksummed crc32 enabled buffer len).
Proof.
  intros segment h part Hh Hl. unfold checksummed. destruct enabled; [|exists h; split_and!; done].
  rewrite update_checksum_octets by done. eexists. split_and!; [done| |done..].
  destruct Hh. split; try done. apply u32_range.
Qed.

Lemma stamped_ok enabled (time : Z → Z) : (∀ i, is_u32 (time i)) →
  finish_ok enabled (λ segment buffer len,
    buffer ← checksummed crc32 enabled buffer len; nfapi_nr_p7_update_transmit_timestamp buffer (time segment)).
Proof.
  intros Ht segment h part Hh Hl.
  destruct (checksummed_ok enabled segment h part Hh Hl) as (h' & -> & Hok & ? & ? & ? & ? & Hc).
  cbn [mbind outcome_bind]. rewrite update_timestamp_octets. exists (with_timestamp (time segment) h').
  split_and!; [done| |done..]. destruct Hok. split; done || apply Ht.
Qed.

(** segment [i] of a body in pieces of [n] octets *)
Definition piece (n : nat) (body : bytes) (i : nat) : bytes := take n (drop (i * n) body).

Lemma pieces_concat n body count : concat (piece n body <$> seq 0 count) = take (count * n) body.
Proof.
  induction count as [|count IH]; [done|].
  rewrite seq_S, fmap_app, concat_app, IH, Nat.add_0_l. cbn. rewrite app_nil_r. unfold piece.
  rewrite take_take_drop. f_equal. lia.
Qed.

Lemma segment_octets_eq h body n i segment_size mss :
  (i * n <= length body)%nat →
  segment_octets (header_octets h ++ body) segment_size mss (NFAPI_NR_P7_HEADER_LENGTH + Z.of_nat (i * n)) (zlen (piece n body i)) =
  Ok (header_octets (mk_nfapi_header h.(nh_phy_id) h.(nh_message_id) segment_size mss h.(nh_checksum) h.(nh_timestamp)) ++ piece n body i).
Proof.
  intros Hle. unfold segment_octets.
  replace (buf_sub (header_octets h ++ body) 0 NFAPI_NR_P7_HEADER_LENGTH) with (Ok (header_octets h))
    by (symmetry; exact (buf_sub_prefix (header_octets h) body)).
  cbn [mbind outcome_bind].
  assert (write_at (header_octets h) 4 (push32 segment_size;; push16 mss) 6 =
    Ok (header_octets (mk_nfapi_header (nh_phy_id h) (nh_message_id h) segment_size mss (nh_checksum h) (nh_timestamp h)))) as ->.
  { unfold write_at. cbv [mbind packer_bind]. rewrite push32_be by lia. rewrite zlen_be32, push16_be by lia. reflexivity. }
  cbn [mbind outcome_bind].
  assert (body = take (i * n) body ++ piece n body i ++ drop n (drop (i * n) body)) as Hb
    by (unfold piece; by rewrite !take_drop).
  assert (zlen (header_octets h ++ take (i * n) body) = NFAPI_NR_P7_HEADER_LENGTH + Z.of_nat (i * n)) as <-
    by (rewrite zlen_app, header_octets_len; unfold zlen; rewrite length_take; lia).
  rewrite Hb at 1. by rewrite app_assoc, buf_sub_mid.
Qed.

(** the datagrams of a message in [count] pieces of at most [n] octets *)
Definition datagrams_of (enabled : bool) (h : nfapi_header) (sequence : Z) (body : bytes) (n count : nat) (from : nat) (ds : list bytes) : Prop :=
  ∀ j d, ds !! j = Some d →
  ∃ h', d = header_octets h' ++ piece n body (from + j) ∧
    segment_header enabled h.(nh_phy_id) h.(nh_message_id) sequence
      (if decide (S (from + j) = count) then 0 else 1) (Z.of_nat (from + j)) h' (piece n body (from + j)).

(** [count] pieces of [n] octets are as many as are needed *)
Definition piece_count (n : nat) (body : bytes) (count : nat) : Prop :=
  (0 < n ∧ 0 < count ∧ (count - 1) * n < length body ∧ length body <= count * n)%nat.

Lemma piece_length n body count i : piece_count n body count → (i < count)%nat →
  zlen (piece n body i) = if decide (S i = count) then zlen body - Z.of_nat n * Z.of_nat i else Z.of_nat n.
Proof.
  intros (Hn & Hc & Hlo & Hhi) Hi. unfold piece, zlen. rewrite length_take, length_drop.
  destruct (decide (S i = count)) as [<-|Hne]; [nia|].
  assert (S i * n <= (count - 1) * n)%nat by (apply Nat.mul_le_mono_r; lia). nia.
Qed.

Lemma segments_loop_ok enabled finish wrap h body n count sequence :
  header_ok h → finish_ok enabled finish → (∀ x, 0 <= x < 2 ^ 16 → wrap x = x) →
  piece_count n body count → Z.of_nat n + NFAPI_NR_P7_HEADER_LENGTH < 2 ^ 16 → (count <= 128)%nat →
  ∀ k, (k <= count)%nat → ∃ ds, length ds = k ∧
    segments_loop wrap finish (header_octets h ++ body) (Z.of_nat n + NFAPI_NR_P7_HEADER_LENGTH) sequence (zlen body)
      (Z.of_nat n) (Z.of_nat count) k (Z.of_nat (count - k)) (NFAPI_NR_P7_HEADER_LENGTH + Z.of_nat ((count - k) * n)) = Ok ds ∧
    datagrams_of enabled h sequence body n count (count - k) ds.
Proof.
  intros Hh Hf Hw Hc Hn Hc128. induction k as [|k IH]; intros Hk; [exists []; split_and!; [done..|intros j d [=]]|].
  set (i := (count - S k)%nat). destruct IH as (ds & Hlen & Heq & Hds); [lia|].
  replace (count - k)%nat with (S i) in Heq, Hds by lia.
  assert (i < count)%nat as Hi by lia. pose proof (piece_length n body count i Hc Hi) as Hp.
  set (part := piece n body i) in *. pose proof (zlen_nonneg part).
  assert (zlen part <= Z.of_nat n) as Hpn by (unfold part, piece, zlen; rewrite length_take; lia).
  set (more := if decide (S i = count) then 0 else 1).
  assert (0 <= more < 2) as Hmore by (unfold more; destruct (decide _); lia).
  destruct (set_mss_get more (Z.of_nat i) sequence Hmore ltac:(lia)) as (Hmss & _).
  set (mss := NFAPI_NR_P7_SET_MSS more (Z.of_nat i) sequence) in *.
  unfold NFAPI_NR_P7_HEADER_LENGTH in Hn.
  set (h1 := mk_nfapi_header h.(nh_phy_id) h.(nh_message_id) (NFAPI_NR_P7_HEADER_LENGTH + zlen part) mss h.(nh_checksum) h.(nh_timestamp)).
  assert (header_ok h1) as Hh1.
  { destruct Hh. split; try done. unfold is_u32. cbn. unfold NFAPI_NR_P7_HEADER_LENGTH. lia. }
  destruct (Hf (Z.of_nat i) h1 part Hh1) as (h' & Hfin & Hok & E1 & E2 & E3 & E4 & Hcs);
    [unfold NFAPI_NR_P7_HEADER_LENGTH; lia|].
  exists ((header_octets h' ++ part) :: ds). split_and!; [cbn; lia| |].
  - cbn [segments_loop]. fold i.
    assert (Z.of_nat i + 1 =? Z.of_nat count = bool_decide (S i = count)) as ->
      by (destruct (Z.eqb_spec (Z.of_nat i + 1) (Z.of_nat count)), (bool_decide_reflect (S i = count)); lia || done).
    assert (wrap (if bool_decide (S i = count) then zlen body - Z.of_nat n * Z.of_nat i
      else Z.of_nat n + NFAPI_NR_P7_HEADER_LENGTH - NFAPI_NR_P7_HEADER_LENGTH) = zlen part) as ->.
    { rewrite Z.add_simpl_r, Hp, Hw; destruct (decide _); rewrite ?bool_decide_true, ?bool_decide_false by done; lia. }
    cbv zeta. rewrite (u32_small (zlen part + _)) by (unfold NFAPI_NR_P7_HEADER_LENGTH; lia).
    assert ((if bool_decide (S i = count) then 0 else 1) = more) as ->
      by (unfold more; destruct (decide (S i = count)); [by rewrite bool_decide_true|by rewrite bool_decide_false]).
    rewrite (Z.add_comm (zlen part)). unfold part at 2. rewrite segment_octets_eq by (destruct Hc as (? & ? & ? & ?); nia).
    cbn [mbind outcome_bind]. fold part. fold mss. fold h1. rewrite Hfin. cbn [mbind outcome_bind].
    destruct (decide (k = 0%nat)) as [->|Hk0].
    { cbn [segments_loop]. destruct ds; [done|discriminate]. }
    replace (Z.of_nat i + 1) with (Z.of_nat (S i)) by lia.
    rewrite <- Z.add_assoc. replace (Z.of_nat (i * n) + zlen part) with (Z.of_nat (S i * n)); [by rewrite Heq|].
    rewrite Hp, decide_False by lia. lia.
  - intros [|j] d Hd; cbn in Hd.
    + injection Hd as <-. exists h'. rewrite Nat.add_0_r. split; [done|]. by split; rewrite ?E1, ?E2, ?E3, ?E4.
    + destruct (Hds j d Hd) as (h2 & -> & Hs). exists h2. replace (i + S j)%nat with (S i + j)%nat by lia. done.
Qed.

(** ** The datagrams of a message *)

(** the datagrams of one message, as the receiver can tell *)
Definition message_datagrams (enabled : bool) (phy id sequence : Z) (ds : list bytes) : Prop :=
  (0 < length ds <= 128)%nat ∧
  ∀ i d, ds !! i = Some d → ∃ h part, d = header_octets h ++ part ∧ zlen d < 2 ^ 16 ∧
    segment_header enabled phy id sequence (if decide (S i = length ds) then 0 else 1) (Z.of_nat i) h part.

(** the first with its header, the others without *)
Definition assembled (ds : list bytes) : bytes :=
  match ds with [] => [] | d :: ds => d ++ concat (drop (Z.to_nat NFAPI_NR_P7_HEADER_LENGTH) <$> ds) end.

Lemma assembled_pieces enabled h sequence body n ds :
  datagrams_of enabled h sequence body n (length ds) 0 ds → (0 < length ds)%nat → (length body <= length ds * n)%nat →
  ∃ h', assembled ds = header_octets h' ++ body ∧ header_ok h' ∧ h'.(nh_phy_id) = h.(nh_phy_id) ∧
    h'.(nh_message_id) = h.(nh_message_id) ∧ h'.(nh_message_length) <= NFAPI_NR_P7_HEADER_LENGTH + zlen body.
Proof.
  intros Hd Hpos Hlen. destruct ds as [|d ds]; [cbn in Hpos; lia|]. cbn [assembled].
  destruct (Hd 0%nat d eq_refl) as (h' & Ed & Hs). rewrite Nat.add_0_l in Ed, Hs. exists h'.
  assert (drop (Z.to_nat NFAPI_NR_P7_HEADER_LENGTH) <$> ds = piece n body <$> seq 1 (length ds)) as ->.
  { apply list_eq. intros j. rewrite !list_lookup_fmap. destruct (ds !! j) as [d'|] eqn:E.
    - rewrite lookup_seq_lt by by eapply lookup_lt_Some. cbn. f_equal.
      destruct (Hd (S j) d' E) as (h2 & -> & _). by rewrite drop_app_length' by done.
    - apply lookup_ge_None in E. rewrite lookup_seq_ge by done. done. }
  assert (assembled_body : piece n body 0 ++ concat (piece n body <$> seq 1 (length ds)) = body).
  { pose proof (pieces_concat n body (S (length ds))) as H. cbn in H. rewrite H. apply take_ge. cbn in Hlen. lia. }
  rewrite Ed, <- app_assoc, assembled_body. destruct Hs. split_and!; try done.
  rewrite sh_message_length0. unfold piece, zlen. rewrite length_take, length_drop. lia.
Qed.

Lemma piece_count_exists n body : (0 < n)%nat → 0 < zlen body →
  ∃ c, piece_count n body c ∧
    Z.of_nat c = Z.quot (zlen body) (Z.of_nat n) + (if cmod (zlen body) (Z.of_nat n) =? 0 then 0 else 1).
Proof.
  intros Hn Hb. rewrite cmod_nonneg, Z.quot_div_nonneg by lia.
  pose proof (Z.div_mod (zlen body) (Z.of_nat n) ltac:(lia)) as Hdm.
  pose proof (Z.mod_pos_bound (zlen body) (Z.of_nat n) ltac:(lia)).
  pose proof (Z.div_pos (zlen body) (Z.of_nat n) ltac:(lia) ltac:(lia)).
  set (q := zlen body / Z.of_nat n) in *. set (r := zlen body mod Z.of_nat n) in *.
  exists (Z.to_nat (q + (if r =? 0 then 0 else 1))). unfold piece_count, zlen in *.
  destruct (Z.eqb_spec r 0); split; [|lia| |lia]; split_and!; nia.
Qed.

Lemma p7_datagrams_ok enabled finish wrap s h body :
  header_ok h → finish_ok enabled finish → (∀ x, 0 <= x < 2 ^ 16 → wrap x = x) →
  NFAPI_NR_P7_HEADER_LENGTH < s.(segment_size) < 2 ^ 16 →
  zlen body <= 128 * (s.(segment_size) - NFAPI_NR_P7_HEADER_LENGTH) →
  h.(nh_message_length) = NFAPI_NR_P7_HEADER_LENGTH + zlen body →
  h.(nh_segment_sequence) = NFAPI_NR_P7_SET_MSS 0 0 s.(sequence_number) →
  ∃ ds h', p7_datagrams wrap finish s (header_octets h ++ body) (zlen (header_octets h ++ body)) = Ok ds ∧
    message_datagrams enabled h.(nh_phy_id) h.(nh_message_id) s.(sequence_number) ds ∧
    assembled ds = header_octets h' ++ body ∧ header_ok h' ∧ h'.(nh_phy_id) = h.(nh_phy_id) ∧
    h'.(nh_message_id) = h.(nh_message_id) ∧ h'.(nh_message_length) <= NFAPI_NR_P7_HEADER_LENGTH + zlen body.
Proof.
  intros Hh Hf Hw Hss H128 Hlen Hmss. pose proof (zlen_nonneg body). rewrite zlen_app, header_octets_len.
  unfold NFAPI_NR_P7_HEADER_LENGTH in Hss, H128.
  set (n := Z.to_nat (segment_size s - NFAPI_NR_P7_HEADER_LENGTH)).
  assert (Z.of_nat n = segment_size s - 18) as Hn by (unfold n, NFAPI_NR_P7_HEADER_LENGTH; lia).
  assert (∃ ds, (0 < length ds <= 128)%nat ∧ (length body <= length ds * n)%nat ∧
    p7_datagrams wrap finish s (header_octets h ++ body) (NFAPI_NR_P7_HEADER_LENGTH + zlen body) = Ok ds ∧
    datagrams_of enabled h (sequence_number s) body n (length ds) 0 ds) as (ds & Hds & Hb & Heq & Hof).
  { unfold p7_datagrams. destruct (Z.ltb_spec (segment_size s) (NFAPI_NR_P7_HEADER_LENGTH + zlen body)) as [Hlong|Hshort];
      unfold NFAPI_NR_P7_HEADER_LENGTH in Hlong || unfold NFAPI_NR_P7_HEADER_LENGTH in Hshort.
    - destruct (piece_count_exists n body) as (c & Hc & Hcount); [lia..|unfold zlen in *; lia|].
      rewrite (Z.add_simpl_l NFAPI_NR_P7_HEADER_LENGTH). replace (segment_size s - NFAPI_NR_P7_HEADER_LENGTH) with (Z.of_nat n)
        by (unfold NFAPI_NR_P7_HEADER_LENGTH; lia).
      rewrite (proj2 (Z.eqb_neq _ _)) by lia. cbv zeta. rewrite <- Hcount.
      assert (c <= 128)%nat as Hc128 by (destruct Hc as (? & ? & ? & ?); unfold zlen in *; nia).
      destruct (segments_loop_ok enabled finish wrap h body n c (sequence_number s)) with (k := c) as (ds & Hl & Heq & Hof);
        try done; [unfold NFAPI_NR_P7_HEADER_LENGTH; lia|].
      rewrite Nat.sub_diag in Heq, Hof. cbn [Nat.mul] in Heq. change (Z.of_nat 0) with 0 in Heq. rewrite Z.add_0_r in Heq.
      replace (Z.of_nat n + NFAPI_NR_P7_HEADER_LENGTH) with (segment_size s) in Heq by (unfold NFAPI_NR_P7_HEADER_LENGTH; lia).
      exists ds. rewrite Hl, Nat2Z.id. destruct Hc as (? & ? & ? & ?). split_and!; (done || lia).
    - destruct (Hf 0 h body Hh) as (h' & Hfin & Hok & E1 & E2 & E3 & E4 & Hcs); [unfold NFAPI_NR_P7_HEADER_LENGTH; lia|].
      exists [header_octets h' ++ body]. rewrite Hfin. cbn [length]. split_and!; [lia|lia|unfold zlen in *; lia|done|].
      intros [|j] d Hd; [|done]. injection Hd as <-. assert (piece n body 0 = body) as Hp
        by (unfold piece; cbn; apply take_ge; unfold zlen in *; lia).
      exists h'. cbn [Nat.add]. rewrite Hp. split; [done|]. rewrite decide_True by done.
      split; rewrite ?E1, ?E2, ?E3, ?E4; done. }
  destruct (assembled_pieces enabled h _ body n ds Hof) as (h' & Ha & Hok & Hp & Hi & Hl); [lia|done|].
  exists ds, h'. split_and!; try done. split; [done|]. intros i d Hi'. destruct (Hof i d Hi') as (h2 & -> & Hs).
  exists h2, (piece n body i). split_and!; [done| |exact Hs]. rewrite zlen_app, header_octets_len.
  unfold piece, zlen, NFAPI_NR_P7_HEADER_LENGTH. rewrite length_take. lia.
Qed.
End transfer.

(** ** Putting a message together *)
Section assembling.
Context (wrap : Z → Z) (bound : Z) (wrap_id : ∀ x, 0 <= x < bound → wrap x = x).

(** the elements of the array from [i] on hold the datagrams *)
Definition holds (segments : list (option bytes)) (i : nat) (ds : list bytes) : Prop :=
  ∀ j d, ds !! j = Some d → segments !! (i + j)%nat = Some (Some d) ∧ NFAPI_NR_P7_HEADER_LENGTH <= zlen d < 2 ^ 32.

Definition bodies (ds : list bytes) : bytes := concat (drop (Z.to_nat NFAPI_NR_P7_HEADER_LENGTH) <$> ds).

Lemma holds_cons segments i d ds : holds segments i (d :: ds) →
  segments !! i = Some (Some d) ∧ NFAPI_NR_P7_HEADER_LENGTH <= zlen d < 2 ^ 32 ∧ holds segments (S i) ds.
Proof.
  intros H. destruct (H 0%nat d eq_refl) as [H0 Hl]. rewrite Nat.add_0_r in H0. split_and!; [done|lia..|].
  intros j e He. specialize (H (S j) e He). by rewrite Nat.add_succ_r in H.
Qed.

Lemma body_len (d : bytes) : NFAPI_NR_P7_HEADER_LENGTH <= zlen d →
  zlen (drop (Z.to_nat NFAPI_NR_P7_HEADER_LENGTH) d) = zlen d - NFAPI_NR_P7_HEADER_LENGTH.
Proof. intros H. apply zlen_drop. unfold NFAPI_NR_P7_HEADER_LENGTH in *. lia. Qed.

Lemma total_length_tail segments ds : ∀ i acc,
  (0 < i)%nat → holds segments i ds → 0 <= acc → acc + zlen (bodies ds) < bound →
  total_length wrap segments (Z.of_nat i) (length ds) acc = Ok (acc + zlen (bodies ds)).
Proof.
  induction ds as [|d ds IH]; intros i acc Hi Hh Hacc Hb; [cbn; by rewrite zlen_nil, Z.add_0_r|].
  apply holds_cons in Hh as (Hd & Hl & Hh). unfold bodies in *. cbn [fmap list_fmap concat] in *.
  rewrite zlen_app, body_len in * by lia. pose proof (zlen_nonneg (concat (drop (Z.to_nat NFAPI_NR_P7_HEADER_LENGTH) <$> ds))).
  cbn [length total_length]. rewrite Nat2Z.id, Hd, (proj2 (Z.ltb_lt _ _)) by lia. cbn [segment_length].
  rewrite u32_small by (unfold NFAPI_NR_P7_HEADER_LENGTH in *; lia). cbv zeta. rewrite wrap_id by lia.
  replace (Z.of_nat i + 1) with (Z.of_nat (S i)) by lia. rewrite IH; [f_equal; lia|lia|done|lia|lia].
Qed.

Lemma copy_segments_tail segments ds : ∀ i pre buf,
  (0 < i)%nat → holds segments i ds → zlen (bodies ds) <= zlen buf → zlen pre + zlen (bodies ds) < bound →
  copy_segments wrap segments (Z.of_nat i) (length ds) (zlen pre) (pre ++ buf) =
  Ok (pre ++ bodies ds ++ drop (length (bodies ds)) buf).
Proof.
  induction ds as [|d ds IH]; intros i pre buf Hi Hh Hl Hb; [done|].
  apply holds_cons in Hh as (Hd & Hdl & Hh). set (hl := Z.to_nat NFAPI_NR_P7_HEADER_LENGTH).
  unfold bodies in *. cbn [fmap list_fmap concat] in *. fold hl in Hl, Hb |- *.
  set (rest := concat (drop hl <$> ds)) in *. pose proof (body_len d ltac:(lia)) as Hbl. fold hl in Hbl.
  rewrite zlen_app in Hl, Hb. pose proof (zlen_nonneg rest). pose proof (zlen_nonneg (drop hl d)). pose proof (zlen_nonneg pre).
  cbn [length copy_segments]. rewrite Nat2Z.id, Hd, (proj2 (Z.ltb_lt _ _)) by lia.
  rewrite buf_sub_ok by (unfold NFAPI_NR_P7_HEADER_LENGTH in *; lia). cbn [mbind outcome_bind]. fold hl.
  rewrite (take_ge (drop hl d)) by (unfold zlen in *; lia).
  assert (buf_write (pre ++ buf) (zlen pre) (drop hl d) = Ok ((pre ++ drop hl d) ++ drop (length (drop hl d)) buf)) as ->.
  { rewrite buf_write_ok by (rewrite ?zlen_app; lia). unfold zlen at 1. rewrite Nat2Z.id, take_app_length, <- app_assoc.
    do 3 f_equal. rewrite drop_app_ge by (unfold zlen; lia). f_equal. unfold zlen. lia. }
  cbn [mbind outcome_bind]. rewrite wrap_id by lia. replace (zlen pre + zlen (drop hl d)) with (zlen (pre ++ drop hl d)) by (by rewrite zlen_app).
  replace (Z.of_nat i + 1) with (Z.of_nat (S i)) by lia.
  fold hl rest in IH. rewrite IH; [|lia|done| |rewrite zlen_app; lia].
  - rewrite <- !app_assoc, drop_drop, length_app. do 4 f_equal.
  - unfold zlen in *. rewrite length_drop. lia.
Qed.

(** The segments of a message that is complete: length and contents are those of the message;
    the buffer keeps what is behind. *)
Lemma assemble_ok segments d ds buf :
  holds segments 0 (d :: ds) → zlen (assembled (d :: ds)) < bound → zlen (assembled (d :: ds)) <= zlen buf →
  total_length wrap segments 0 (length (d :: ds)) 0 = Ok (zlen (assembled (d :: ds))) ∧
  copy_segments wrap segments 0 (length (d :: ds)) 0 buf =
    Ok (assembled (d :: ds) ++ drop (length (assembled (d :: ds))) buf).
Proof.
  intros Hh Hb Hbuf. apply holds_cons in Hh as (Hd & Hdl & Hh). cbn [assembled] in *. fold (bodies ds) in *.
  rewrite zlen_app in *. pose proof (zlen_nonneg d). pose proof (zlen_nonneg (bodies ds)).
  cbn [length total_length copy_segments]. change (Z.to_nat 0) with 0%nat. rewrite Hd. cbn [segment_length].
  change (0 <? 0) with false. cbv iota zeta. rewrite Z.sub_0_r, u32_small, !Z.add_0_l by lia. split.
  - rewrite wrap_id by lia. exact (total_length_tail segments ds 1 (zlen d) ltac:(lia) Hh ltac:(lia) ltac:(lia)).
  - cbn [mbind outcome_bind]. rewrite buf_write_ok by lia. cbn [mbind outcome_bind]. cbn [take app Z.to_nat].
    rewrite Z.add_0_l, wrap_id by lia.
    transitivity (Ok (d ++ bodies ds ++ drop (length (bodies ds)) (drop (Z.to_nat (zlen d)) buf))).
    + apply (copy_segments_tail segments ds 1 d); [lia|done|rewrite zlen_drop; lia|lia].
    + rewrite drop_drop, length_app, <- app_assoc. do 4 f_equal. unfold zlen. lia.
Qed.
End assembling.

(** ** The queue as a map from sequence numbers *)
Fixpoint q_at (q : list rx_message) (s : Z) : option rx_message :=
  match q with
  | [] => None
  | m :: q => if decide (rm_sequence_number m = s) then Some m else q_at q s
  end.
Definition q_nodup (q : list rx_message) : Prop := NoDup (rm_sequence_number <$> q).

Lemma q_at_some q s m : q_at q s = Some m → m ∈ q ∧ rm_sequence_number m = s.
Proof.
  induction q as [|x q IH]; [done|]. cbn. destruct (decide _) as [E|E]; [intros [= ->]; split; [left|done]|].
  intros H. destruct (IH H). split; [by right|done].
Qed.

Lemma q_at_fresh q s : s ∉ (rm_sequence_number <$> q) → q_at q s = None.
Proof.
  induction q as [|x q IH]; [done|]. cbn. intros H. apply not_elem_of_cons in H as [H1 H2].
  rewrite decide_False by congruence. by apply IH.
Qed.

Lemma q_at_present q m : m ∈ q → q_at q (rm_sequence_number m) ≠ None.
Proof.
  induction 1 as [m q|m x q Hm IH]; cbn; [by rewrite decide_True|by destruct (decide _)].
Qed.

Lemma list_find_q_at q s :
  match list_find (has_sequence s) q with
  | Some (k, m) => q !! k = Some m ∧ rm_sequence_number m = s ∧ q_at q s = Some m
  | None => q_at q s = None
  end.
Proof.
  induction q as [|x q IH]; [done|]. cbn.
  destruct (decide (has_sequence s x)) as [H|H], (decide (rm_sequence_number x = s)) as [H'|H']; try done.
  by destruct (list_find _ q) as [[k m]|].
Qed.

Lemma q_insert q k m m' : q_nodup q → q !! k = Some m → rm_sequence_number m' = rm_sequence_number m →
  q_nodup (<[k := m']> q) ∧
  ∀ s, q_at (<[k := m']> q) s = if decide (rm_sequence_number m = s) then Some m' else q_at q s.
Proof.
  intros Hq Hk Hm. split.
  { unfold q_nodup. rewrite list_fmap_insert, list_insert_id; [done|]. by rewrite list_lookup_fmap, Hk, Hm. }
  revert k Hk Hq. induction q as [|x q IH]; intros [|k] Hk Hq s; [done..| |].
  - injection Hk as ->. cbn. rewrite Hm. by destruct (decide _).
  - cbn in Hk. apply NoDup_cons in Hq as [Hx Hq]. change (<[S k := m']> (x :: q)) with (x :: <[k := m']> q).
    cbn [q_at]. rewrite (IH k Hk Hq s).
    destruct (decide (rm_sequence_number x = s)) as [<-|]; [|done].
    rewrite decide_False; [done|]. intros E. apply Hx. rewrite <- E. apply list_elem_of_fmap_2.
    by eapply list_elem_of_lookup_2.
Qed.

Lemma q_delete q k m : q_nodup q → q !! k = Some m →
  q_nodup (delete k q) ∧ ∀ s, q_at (delete k q) s = if decide (rm_sequence_number m = s) then None else q_at q s.
Proof.
  intros Hq Hk. split; [eapply sublist_NoDup; [exact Hq|]; by apply fmap_sublist, sublist_delete|].
  revert k Hq Hk. induction q as [|x q IH]; intros [|k] Hq Hk s; [done..| |]; apply NoDup_cons in Hq as [Hx Hq].
  - injection Hk as ->. cbn. destruct (decide _) as [<-|]; [|done]. by apply q_at_fresh.
  - cbn in Hk. change (delete (S k) (x :: q)) with (x :: delete k q). cbn [q_at]. rewrite (IH k Hq Hk).
    destruct (decide (rm_sequence_number x = s)) as [<-|]; [|done].
    rewrite decide_False; [done|]. intros E. apply Hx. rewrite <- E. apply list_elem_of_fmap_2. by eapply list_elem_of_lookup_2.
Qed.

(** ** What the receiver knows

    For every sequence number the datagrams of the message that is being received, which of
    them have come, and when the first of them came. *)
Record flight : Type := mk_flight { fl_datagrams : list bytes; fl_got : gset nat; fl_time : Z }.

Definition msg_rel (m : rx_message) (fl : flight) : Prop :=
  let n := length fl.(fl_datagrams) in
  m.(rm_rx_hr_time) = fl.(fl_time) ∧
  m.(rm_num_segments_received) = Z.of_nat (size fl.(fl_got)) ∧
  m.(rm_num_segments_expected) = (if decide (pred n ∈ fl.(fl_got)) then Z.of_nat n else 255) ∧
  fl.(fl_got) ⊆ set_seq 0 n ∧ length m.(rm_segments) = 128%nat ∧
  ∀ i, (i < 128)%nat → m.(rm_segments) !! i = Some (if decide (i ∈ fl.(fl_got)) then fl.(fl_datagrams) !! i else None).

Record rx_rel (rx : rx_state) (σ : gmap Z flight) : Prop := {
  rr_nodup : q_nodup rx.(reassembly_queue);
  rr_queue : ∀ s, match q_at rx.(reassembly_queue) s, σ !! s with
    | Some m, Some fl => msg_rel m fl ∧ (size fl.(fl_got) < length fl.(fl_datagrams) <= 128)%nat
    | None, None => True
    | _, _ => False
    end;
  rr_buffer : match rx.(reassembly_buffer) with Some b => zlen b = rx.(reassembly_buffer_size) | None => rx.(reassembly_buffer_size) = 0 end
}.

(** what is known of a message when a datagram of it comes at time [t] *)
Definition flight_at (σ : gmap Z flight) (sequence : Z) (ds : list bytes) (t : Z) : flight :=
  default (mk_flight ds ∅ t) (σ !! sequence).
Definition got_one (fl : flight) (i : nat) : flight := mk_flight fl.(fl_datagrams) ({[i]} ∪ fl.(fl_got)) fl.(fl_time).

(** datagrams of the size of datagrams *)
Definition datagram_sizes (ds : list bytes) : Prop := Forall (λ d : bytes, NFAPI_NR_P7_HEADER_LENGTH <= zlen d < 2 ^ 16) ds.

Lemma put_segment_ok segs i d : (i < 128)%nat → zlen d < 2 ^ 16 →
  put_segment segs (Z.of_nat i) d = Ok (<[i := Some d]> segs).
Proof.
  intros Hi Hd. unfold put_segment. rewrite (proj2 (Z.leb_le _ _)), (proj2 (Z.ltb_lt _ _)) by lia. cbn [andb].
  pose proof (zlen_nonneg d). rewrite u16_id by (unfold is_u16; lia). rewrite take_ge by (unfold zlen; lia). by rewrite Nat2Z.id.
Qed.

Lemma mem_here (i : nat) (g : gset nat) : i ∈ {[i]} ∪ g.
Proof. set_solver. Qed.
Lemma mem_other {A} (i j : nat) (g : gset nat) (x y : A) : i ≠ j →
  (if decide (j ∈ g) then x else y) = if decide (j ∈ {[i]} ∪ g) then x else y.
Proof.
  intros Hne. destruct (decide (j ∈ g)); [by rewrite decide_True by set_solver|by rewrite decide_False by set_solver].
Qed.

Lemma add_segment_ok rx σ t sequence ds i d :
  rx_rel rx σ → 0 <= sequence < 256 → (length ds <= 128)%nat → datagram_sizes ds → ds !! i = Some d →
  let fl := flight_at σ sequence ds t in
  fl.(fl_datagrams) = ds → i ∉ fl.(fl_got) →
  ∃ m q, rx_reassembly_queue_add_segment rx.(reassembly_queue) t sequence (Z.of_nat i)
      (if decide (S i = length ds) then 0 else 1) d = Ok (m, q) ∧
    msg_rel m (got_one fl i) ∧ rm_sequence_number m = sequence ∧ q_nodup q ∧
    ∀ s, q_at q s = if decide (sequence = s) then Some m else q_at rx.(reassembly_queue) s.
Proof.
  intros [Hnd Hq _] Hseq Hlen Hsz Hd fl Hds Hi. pose proof (lookup_lt_Some _ _ _ Hd) as Hi'.
  pose proof (Forall_lookup_1 _ _ _ _ Hsz Hd) as [_ Hdz].
  (* the elements of the array, and what the last segment says of their number *)
  assert (∀ segs, length segs = 128%nat →
    (∀ j, (j < 128)%nat → segs !! j = Some (if decide (j ∈ fl.(fl_got)) then ds !! j else None)) →
    ∀ j, (j < 128)%nat → <[i := Some d]> segs !! j = Some (if decide (j ∈ {[i]} ∪ fl.(fl_got)) then ds !! j else None)) as Hsegs.
  { intros segs Hl Hs j Hj. destruct (decide (i = j)) as [<-|Hne].
    - rewrite list_lookup_insert_eq by lia. rewrite decide_True by apply mem_here. by rewrite Hd.
    - rewrite list_lookup_insert_ne by done. rewrite Hs by done. by rewrite (mem_other i j). }
  assert (∀ e, e = (if decide (pred (length ds) ∈ fl.(fl_got)) then Z.of_nat (length ds) else 255) →
    (if (if decide (S i = length ds) then 0 else 1) =? 0 then u8 (Z.of_nat i + 1) else e) =
    (if decide (pred (length ds) ∈ {[i]} ∪ fl.(fl_got)) then Z.of_nat (length ds) else 255)) as Hexp.
  { intros e ->. destruct (decide (S i = length ds)) as [E|E].
    - change (0 =? 0) with true. cbv iota. rewrite decide_True by (replace (pred (length ds)) with i by lia; apply mem_here).
      unfold u8. rewrite Z.mod_small by (change (2 ^ 8) with 256; lia). lia.
    - cbn. by rewrite (mem_other i (pred (length ds))) by lia. }
  unfold rx_reassembly_queue_add_segment. specialize (Hq sequence). pose proof (list_find_q_at (reassembly_queue rx) sequence) as Hf.
  destruct (list_find _ _) as [[k msg]|].
  - destruct Hf as (Hk & Hs & Hat). rewrite Hat in Hq. unfold flight_at in fl. destruct (σ !! sequence) as [fl'|] eqn:Efl; [|done].
    cbn in fl. destruct Hq as [(Ht & Hr & He & Hg & Hl & Hseg) Hsize]. subst fl. rewrite Hds in He, Hg, Hseg, Hsize.
    rewrite put_segment_ok by (lia || done). cbn [mbind outcome_bind]. rewrite (Hexp _ He).
    eexists _, _. split; [done|]. cbn [rm_sequence_number]. split_and!; [|done|..].
    + unfold msg_rel. cbn. rewrite Hds. split_and!; [done| |done| |by rewrite length_insert|by apply Hsegs].
      * rewrite Hr, size_union by set_solver. rewrite size_singleton. unfold u8.
        rewrite Z.mod_small by (change (2 ^ 8) with 256; lia). lia.
      * apply union_subseteq. split; [|done]. intros x ->%elem_of_singleton. apply elem_of_set_seq. lia.
    + by eapply q_insert.
    + intros s. rewrite <- Hs. by apply q_insert.
  - rewrite Hf in Hq. unfold flight_at in fl. destruct (σ !! sequence) as [fl'|] eqn:Efl; [done|]. cbn in fl. subst fl.
    rewrite put_segment_ok by (lia || done). cbn [mbind outcome_bind].
    rewrite (Hexp 255) by (rewrite decide_False; [done|set_solver]). cbn [fl_got].
    eexists _, _. split; [done|]. cbn [rm_sequence_number]. unfold u8. rewrite Z.mod_small by (change (2 ^ 8) with 256; lia).
    split_and!; [|done|..].
    + unfold msg_rel. cbn [got_one fl_datagrams fl_got fl_time rm_rx_hr_time rm_num_segments_received rm_num_segments_expected rm_segments].
      split_and!; [done| |done| |by rewrite length_insert|].
      * by rewrite union_empty_r_L, size_singleton.
      * rewrite union_empty_r_L. intros x ->%elem_of_singleton. apply elem_of_set_seq. lia.
      * apply (Hsegs (replicate 128 None)); [done|]. intros j Hj. rewrite lookup_replicate_2 by done. by rewrite decide_False by set_solver.
    + unfold q_nodup. rewrite fmap_cons. apply NoDup_cons_2; [|done]. cbn. intros E. apply list_elem_of_fmap in E as (m & Em & Hm).
      apply (q_at_present _ _ Hm). by rewrite <- Em.
    + intros s. cbn. by destruct (decide (sequence = s)) as [->|].
Qed.

Lemma remove_msg_ok q m : q_nodup q → q_at q (rm_sequence_number m) = Some m →
  let q' := rx_reassembly_queue_remove_msg q m in
  q_nodup q' ∧ ∀ s, q_at q' s = if decide (rm_sequence_number m = s) then None else q_at q s.
Proof.
  intros Hq Hm. unfold rx_reassembly_queue_remove_msg. pose proof (list_find_q_at q (rm_sequence_number m)) as Hf.
  destruct (list_find _ q) as [[k m']|]; [|congruence]. destruct Hf as (Hk & Hs & _). rewrite <- Hs.
  by apply q_delete.
Qed.

Lemma complete_holds m fl : msg_rel m fl → datagram_sizes fl.(fl_datagrams) → (length fl.(fl_datagrams) <= 128)%nat →
  (0 < length fl.(fl_datagrams))%nat → size fl.(fl_got) = length fl.(fl_datagrams) →
  m.(rm_num_segments_expected) = Z.of_nat (length fl.(fl_datagrams)) ∧ holds m.(rm_segments) 0 fl.(fl_datagrams).
Proof.
  intros (_ & _ & He & Hg & _ & Hs) Hsz Hlen Hpos Hsize.
  assert (fl.(fl_got) = set_seq 0 (length (fl_datagrams fl))) as Hall.
  { apply leibniz_equiv, set_subseteq_size_equiv; [done|]. by rewrite size_set_seq, Hsize. }
  rewrite Hall in He, Hs. split.
  - rewrite He, decide_True; [done|]. apply elem_of_set_seq. lia.
  - intros j d Hd. pose proof (lookup_lt_Some _ _ _ Hd). cbn [Nat.add]. rewrite Hs by lia.
    rewrite decide_True by (apply elem_of_set_seq; lia). rewrite Hd. split; [done|].
    pose proof (Forall_lookup_1 _ _ _ _ Hsz Hd). cbn in *. lia.
Qed.

Lemma resize_buffer_ok rx len buf size :
  match rx.(reassembly_buffer) with Some b => zlen b = rx.(reassembly_buffer_size) | None => rx.(reassembly_buffer_size) = 0 end →
  0 <= len → resize_buffer rx len = (buf, size) → len <= zlen buf ∧ zlen buf = size.
Proof.
  intros Hb Hl. unfold resize_buffer.
  destruct (Z.ltb_spec (reassembly_buffer_size rx) len) as [H|H]; [|destruct (reassembly_buffer rx)]; intros [= <- <-];
    unfold zlen in *; rewrite ?length_replicate; lia.
Qed.

Section segment.
Context {St : Type} (handle : bytes → Z → St → outcome St).
Context (wrap : Z → Z) (bound : Z) (wrap_id : ∀ x, 0 <= x < bound → wrap x = x).

(** what is known after datagram [i] has come, and the message that is complete with it *)
Definition recv (σ : gmap Z flight) (sequence : Z) (ds : list bytes) (i : nat) (t : Z) : gmap Z flight * option (bytes * Z) :=
  let fl := got_one (flight_at σ sequence ds t) i in
  if decide (size fl.(fl_got) = length ds) then (delete sequence σ, Some (assembled ds, fl.(fl_time)))
  else (<[sequence := fl]> σ, None).

Definition deliver (m : option (bytes * Z)) (s : St) : outcome St :=
  match m with Some (octets, t) => handle octets t s | None => Ok s end.

Lemma receive_segment_ok rx σ s t sequence ds i d :
  rx_rel rx σ → 0 <= sequence < 256 → (length ds <= 128)%nat → datagram_sizes ds → ds !! i = Some d →
  (flight_at σ sequence ds t).(fl_datagrams) = ds → i ∉ (flight_at σ sequence ds t).(fl_got) →
  zlen (assembled ds) < bound →
  ∃ rx', receive_segment handle wrap t sequence (Z.of_nat i) (if decide (S i = length ds) then 0 else 1) d (rx, s) =
      (s' ← deliver (recv σ sequence ds i t).2 s; Ok (rx', s')) ∧
    rx_rel rx' (recv σ sequence ds i t).1.
Proof.
  intros Hrel Hseq Hlen Hsz Hd Hds Hi Hb. pose proof (lookup_lt_Some _ _ _ Hd) as Hi'.
  destruct (add_segment_ok rx σ t sequence ds i d Hrel Hseq Hlen Hsz Hd Hds Hi) as (m & q & Hadd & Hm & Hms & Hq & Hat).
  unfold receive_segment. rewrite Hadd. cbn [mbind outcome_bind]. unfold recv.
  set (fl := got_one _ _) in *. destruct Hrel as [_ Hqueue Hbuf].
  assert (fl.(fl_datagrams) = ds) as Hfl by exact Hds. pose proof Hm as (Htime & Hrec & Hexp & Hsub & _).
  rewrite Hfl in Hexp, Hsub. rewrite Hrec, Htime. destruct (decide (size fl.(fl_got) = length ds)) as [Hall|Hnot].
  - destruct (complete_holds m fl Hm) as [He Hh]; [by rewrite Hfl|by rewrite Hfl|rewrite Hfl; lia|by rewrite Hfl|].
    rewrite Hfl in He, Hh. rewrite He, Hall, Z.eqb_refl, Nat2Z.id. destruct ds as [|d0 ds']; [cbn in Hi'; lia|].
    destruct (resize_buffer rx (zlen (assembled (d0 :: ds')))) as [buf size'] eqn:Hres.
    assert (zlen (assembled (d0 :: ds')) <= zlen buf ∧ zlen buf = size') as [Hfit Hsize].
    { eapply resize_buffer_ok; [exact Hbuf|apply zlen_nonneg|exact Hres]. }
    destruct (assemble_ok wrap bound wrap_id (rm_segments m) d0 ds' buf Hh Hb Hfit) as [-> Hcopy].
    cbn [mbind outcome_bind]. rewrite Hres, Hcopy. cbn [mbind outcome_bind snd fst deliver].
    replace (take _ (_ ++ _)) with (assembled (d0 :: ds')) by (unfold zlen; by rewrite Nat2Z.id, take_app_length).
    eexists. split; [done|].
    destruct (remove_msg_ok q m Hq) as [Hq' Hat']; [by rewrite Hat, Hms, decide_True|]. split; [exact Hq'| |].
    + intros s0. cbn [reassembly_queue]. rewrite Hat', Hat, Hms. destruct (decide (sequence = s0)) as [->|Hne];
        [by rewrite lookup_delete_eq|rewrite lookup_delete_ne by done; apply Hqueue].
    + cbn [reassembly_buffer reassembly_buffer_size].
      rewrite <- Hsize. unfold zlen in *. rewrite length_app, length_drop. lia.
  - assert (size fl.(fl_got) < length ds)%nat as Hlt.
    { pose proof (subseteq_size _ _ Hsub) as H. rewrite size_set_seq in H. lia. }
    rewrite (proj2 (Z.eqb_neq _ _)) by (rewrite Hexp; case_decide; lia).
    eexists. split; [done|]. split; [exact Hq| |exact Hbuf].
    intros s0. cbn. rewrite Hat. destruct (decide (sequence = s0)) as [->|Hne].
    + rewrite lookup_insert_eq, Hfl. split; [done|lia].
    + rewrite lookup_insert_ne by done. apply Hqueue.
Qed.


End segment.

(** ** Old messages

    are only those that are received for too long. *)
Definition young (σ : gmap Z flight) (now : Z) : Prop := map_Forall (λ _ fl, u32 (now - fl.(fl_time)) <= 10000) σ.

Lemma q_at_in q m : q_nodup q → m ∈ q → q_at q (rm_sequence_number m) = Some m.
Proof.
  intros Hq. induction 1 as [m q|m x q Hm IH]; cbn; [by rewrite decide_True|]. apply NoDup_cons in Hq as [Hx Hq].
  rewrite decide_False; [by apply IH|]. intros E. apply Hx. rewrite E. by apply list_elem_of_fmap_2.
Qed.

Lemma filter_all {A} (P : A → Prop) `{∀ x, Decision (P x)} l : Forall P l → filter P l = l.
Proof. induction 1; [done|]. rewrite filter_cons_True by done. by f_equal. Qed.

Lemma remove_old_young rx σ now : rx_rel rx σ → young σ now → remove_old now rx = rx.
Proof.
  intros [Hnd Hq _] Hy. unfold remove_old, rx_reassembly_queue_remove_old_msgs. rewrite filter_all; [by destruct rx|].
  apply Forall_forall. intros m Hm. specialize (Hq (rm_sequence_number m)). rewrite (q_at_in _ _ Hnd Hm) in Hq.
  destruct (σ !! _) as [fl|] eqn:E; [|done]. destruct Hq as [(-> & _) _]. specialize (Hy _ _ E). cbn in Hy. lia.
Qed.

(** ** Datagrams as they arrive *)
Record arrival : Type := mk_arrival {
  ar_sequence : Z;               (* of the sender *)
  ar_datagrams : list bytes;     (* of the message *)
  ar_index : nat;                (* the one that arrives *)
  ar_time : Z;
  ar_old : Z                     (* when old messages are looked for *)
}.
Definition ar_octets (a : arrival) : bytes := default [] (a.(ar_datagrams) !! a.(ar_index)).

(** a message of one datagram is complete at once *)
Definition recv_one (σ : gmap Z flight) (a : arrival) : gmap Z flight * option (bytes * Z) :=
  if decide (length a.(ar_datagrams) = 1%nat) then (σ, Some (assembled a.(ar_datagrams), a.(ar_time)))
  else recv σ (a.(ar_sequence) mod 256) a.(ar_datagrams) a.(ar_index) a.(ar_time).

Fixpoint flights (σ : gmap Z flight) (l : list arrival) : gmap Z flight :=
  match l with [] => σ | a :: l => flights (recv_one σ a).1 l end.
Fixpoint delivered (σ : gmap Z flight) (l : list arrival) : list (option (bytes * Z)) :=
  match l with [] => [] | a :: l => (recv_one σ a).2 :: delivered (recv_one σ a).1 l end.

Fixpoint steps {A B} (f : A → B → outcome A) (a : A) (l : list B) : outcome A :=
  match l with [] => Ok a | b :: l => a ← f a b; steps f a l end.

Section receiving_ok.
Context (crc32 : Z → bytes → Z) (sizeof_header : Z) (enabled : bool).
Context {St : Type} (handle : bytes → Z → St → outcome St).

(** what is asked of a datagram: it belongs to a message of less than [bound] octets; no other
    message with its number (of eight bits) is being received, and it is not a duplicate; what
    is being received is young *)
Record arrival_ok (phy bound : Z) (σ : gmap Z flight) (a : arrival) : Prop := {
  ao_message : ∃ id, message_datagrams crc32 enabled phy id a.(ar_sequence) a.(ar_datagrams);
  ao_index : (a.(ar_index) < length a.(ar_datagrams))%nat;
  ao_length : zlen (assembled a.(ar_datagrams)) < bound;
  ao_flight : length a.(ar_datagrams) ≠ 1%nat →
    let fl := flight_at σ (a.(ar_sequence) mod 256) a.(ar_datagrams) a.(ar_time) in
    fl.(fl_datagrams) = a.(ar_datagrams) ∧ a.(ar_index) ∉ fl.(fl_got);
  ao_young : young (recv_one σ a).1 a.(ar_time) ∧ young (recv_one σ a).1 a.(ar_old)
}.
Fixpoint arrivals_ok (phy bound : Z) (σ : gmap Z flight) (l : list arrival) : Prop :=
  match l with [] => True | a :: l => arrival_ok phy bound σ a ∧ arrivals_ok phy bound (recv_one σ a).1 l end.

Lemma message_sizes phy id sequence ds :
  message_datagrams crc32 enabled phy id sequence ds → datagram_sizes ds.
Proof.
  intros [_ H]. apply Forall_lookup_2. intros i d Hd. destruct (H i d Hd) as (h & part & -> & Hl & _). split; [|done].
  rewrite zlen_app, header_octets_len. pose proof (zlen_nonneg part). lia.
Qed.

(** what both sides find in the header of a datagram *)
Lemma datagram_header phy id sequence ds i d :
  message_datagrams crc32 enabled phy id sequence ds → ds !! i = Some d → 
  ∃ h, nfapi_nr_p7_message_header_unpack sizeof_header d (zlen d) sizeof_header = Ok (Some h) ∧
    checksum_fits crc32 enabled d h = Ok true ∧ h.(nh_phy_id) = phy ∧
    NFAPI_P7_GET_MORE h.(nh_segment_sequence) = (if decide (S i = length ds) then 0 else 1) ∧
    NFAPI_P7_GET_SEGMENT h.(nh_segment_sequence) = Z.of_nat i ∧
    NFAPI_P7_GET_SEQUENCE h.(nh_segment_sequence) = sequence mod 256 ∧ NFAPI_NR_P7_HEADER_LENGTH <= zlen d.
Proof.
  intros [Hlen H] Hd. pose proof (lookup_lt_Some _ _ _ Hd). destruct (H i d Hd) as (h & part & -> & Hl & [Hok Hphy _ _ Hmss Hc]).
  exists h. rewrite zlen_app, header_octets_len in *. pose proof (zlen_nonneg part).
  destruct (set_mss_get (if decide (S i = length ds) then 0 else 1) (Z.of_nat i) sequence) as (_ & Hm & Hg & Hs);
    [case_decide; lia|lia|]. rewrite <- Hmss in Hm, Hg, Hs. split_and!; try done; [| |lia].
  - rewrite <- (header_octets_len h), <- zlen_app. by apply header_unpack_octets.
  - unfold checksum_fits. destruct enabled; [|done].
    rewrite zlen_app, header_octets_len, checksum_octets by done. cbn [mbind outcome_bind]. by rewrite Hc, Z.eqb_refl.
Qed.

Lemma recv_single σ a : length a.(ar_datagrams) = 1%nat → ∀ d, a.(ar_datagrams) !! a.(ar_index) = Some d →
  recv_one σ a = (σ, Some (d, a.(ar_time))) ∧ a.(ar_index) = 0%nat.
Proof.
  intros Hl d Hd. unfold recv_one. rewrite decide_True by done.
  destruct (ar_datagrams a) as [|d' [|]], (ar_index a) as [|]; try done. injection Hd as <-. cbn. by rewrite app_nil_r.
Qed.

(** A datagram at the PNF: what is known of messages in flight changes as it should, and what
    is complete is handled, with the time at which its first datagram came. *)
Lemma pnf_receive phy rx σ s a :
  rx_rel rx σ → arrival_ok phy (2 ^ 32) σ a →
  ∃ rx', pnf_nr_reassemble_nfapi_p7_message handle crc32 sizeof_header enabled (ar_octets a) a.(ar_time) (rx, s) =
      (s' ← deliver handle (recv_one σ a).2 s; Ok (rx', s')) ∧ rx_rel rx' (recv_one σ a).1.
Proof.
  intros Hrel [[id Hmsg] Hidx Hlen Hfl [Hy _]]. destruct (lookup_lt_is_Some_2 _ _ Hidx) as [d Hd].
  assert (ar_octets a = d) as -> by (unfold ar_octets; by rewrite Hd).
  destruct (datagram_header _ _ _ _ _ _ Hmsg Hd) as (h & Hh & Hc & _ & Hm & Hg & Hs & Hl).
  unfold NFAPI_NR_P7_HEADER_LENGTH in Hl.
  unfold pnf_nr_reassemble_nfapi_p7_message. rewrite (proj2 (Z.ltb_ge _ 4)), Hh by lia. cbn [mbind outcome_bind].
  rewrite Hc, Hm, Hg, Hs. cbn [mbind outcome_bind negb]. destruct (decide (length (ar_datagrams a) = 1%nat)) as [H1|H1].
  - destruct (recv_single σ a H1 d Hd) as [Hr Hi]. rewrite Hr in Hy |- *. rewrite Hi, H1, decide_True by done.
    cbn [Z.of_nat Z.eqb andb]. rewrite (proj2 (Z.ltb_ge _ 8)) by lia. exists rx.
    cbn [deliver fst snd]. by rewrite (remove_old_young rx σ) by done.
  - assert (((if decide (S (ar_index a) = length (ar_datagrams a)) then 0 else 1) =? 0) && (Z.of_nat (ar_index a) =? 0) = false) as ->.
    { case_decide; [|done]. cbn. apply Z.eqb_neq. lia. }
    unfold recv_one in *. rewrite (decide_False _ _ H1) in Hy |- *.
    destruct (receive_segment_ok handle u32 (2 ^ 32) u32_small rx σ s (ar_time a) (ar_sequence a mod 256) (ar_datagrams a) (ar_index a) d)
      as (rx' & -> & Hrel'); try done; [by apply Z.mod_pos_bound|by destruct Hmsg; lia|by eapply message_sizes|by apply Hfl..|].
    exists rx'. split; [|done]. destruct (deliver _ _ _); try done. cbn [mbind outcome_bind]. by rewrite (remove_old_young _ _ _ Hrel' Hy).
Qed.

(** The same at the VNF, whose connection to the PHY has the queue. *)
Lemma vnf_receive phy conns k rx σ s a :
  list_find (λ c : Z * rx_state, c.1 = phy) conns = Some (k, (phy, rx)) →
  rx_rel rx σ → arrival_ok phy (2 ^ 16) σ a →
  ∃ rx', vnf_nr_reassemble_p7_message handle crc32 sizeof_header enabled (ar_octets a) a.(ar_time) a.(ar_old) (conns, s) =
      (s' ← deliver handle (recv_one σ a).2 s; Ok (<[k := (phy, rx')]> conns, s')) ∧ rx_rel rx' (recv_one σ a).1.
Proof.
  intros Hfind Hrel [[id Hmsg] Hidx Hlen Hfl [_ Hy]]. destruct (lookup_lt_is_Some_2 _ _ Hidx) as [d Hd].
  assert (ar_octets a = d) as -> by (unfold ar_octets; by rewrite Hd).
  destruct (datagram_header _ _ _ _ _ _ Hmsg Hd) as (h & Hh & Hc & Hp & Hm & Hg & Hs & Hl).
  unfold NFAPI_NR_P7_HEADER_LENGTH in Hl.
  unfold vnf_nr_reassemble_p7_message. rewrite (proj2 (Z.ltb_ge _ 4)), Hh by lia. cbn [mbind outcome_bind].
  rewrite Hc, Hm, Hg, Hs. cbn [mbind outcome_bind negb]. destruct (decide (length (ar_datagrams a) = 1%nat)) as [H1|H1].
  - destruct (recv_single σ a H1 d Hd) as [Hr Hi]. rewrite Hr. rewrite Hi, H1, decide_True by done.
    cbn [Z.of_nat Z.eqb andb]. rewrite (proj2 (Z.ltb_ge _ 8)) by lia. exists rx.
    cbn [deliver fst snd]. rewrite list_insert_id; [done|]. by apply list_find_Some in Hfind as [? _].
  - assert (((if decide (S (ar_index a) = length (ar_datagrams a)) then 0 else 1) =? 0) && (Z.of_nat (ar_index a) =? 0) = false) as ->.
    { case_decide; [|done]. cbn. apply Z.eqb_neq. lia. }
    cbn [fst snd]. rewrite Hp, Hfind. unfold recv_one in *. rewrite (decide_False _ _ H1) in Hy |- *.
    destruct (receive_segment_ok handle u16 (2 ^ 16) u16_id rx σ s (ar_time a) (ar_sequence a mod 256) (ar_datagrams a) (ar_index a) d)
      as (rx' & -> & Hrel'); try done; [by apply Z.mod_pos_bound|by destruct Hmsg; lia|by eapply message_sizes|by apply Hfl..|].
    exists rx'. split; [|done]. destruct (deliver _ _ _); try done. cbn [mbind outcome_bind]. by rewrite (remove_old_young _ _ _ Hrel' Hy).
Qed.
(** ** Runs *)
Definition hand_over (ms : list (option (bytes * Z))) (s : St) : outcome St := steps (λ s m, deliver handle m s) s ms.

Definition pnf_run (l : list arrival) (st : rx_state * St) : outcome (rx_state * St) :=
  steps (λ st a, pnf_nr_reassemble_nfapi_p7_message handle crc32 sizeof_header enabled (ar_octets a) a.(ar_time) st) st l.
Definition vnf_run (l : list arrival) (st : list (Z * rx_state) * St) : outcome (list (Z * rx_state) * St) :=
  steps (λ st a, vnf_nr_reassemble_p7_message handle crc32 sizeof_header enabled (ar_octets a) a.(ar_time) a.(ar_old) st) st l.

Lemma pnf_receives phy rx σ s l :
  rx_rel rx σ → arrivals_ok phy (2 ^ 32) σ l →
  ∃ rx', pnf_run l (rx, s) = (s' ← hand_over (delivered σ l) s; Ok (rx', s')) ∧ rx_rel rx' (flights σ l).
Proof.
  revert rx σ s. induction l as [|a l IH]; intros rx σ s Hrel Hok; [by exists rx|]. destruct Hok as [Ha Hl].
  destruct (pnf_receive phy rx σ s a Hrel Ha) as (rx1 & Heq & Hrel1).
  unfold pnf_run, hand_over. cbn [steps delivered flights]. rewrite Heq.
  destruct (deliver handle _ s) as [s1| | |]; cbn [mbind outcome_bind]; [by apply (IH rx1 _ s1)|..];
    destruct (IH rx1 _ s Hrel1 Hl) as (rx' & _ & H); by exists rx'.
Qed.

Lemma vnf_receives phy k conns rx σ s l :
  list_find (λ c : Z * rx_state, c.1 = phy) conns = Some (k, (phy, rx)) →
  rx_rel rx σ → arrivals_ok phy (2 ^ 16) σ l →
  ∃ rx', vnf_run l (conns, s) = (s' ← hand_over (delivered σ l) s; Ok (<[k := (phy, rx')]> conns, s')) ∧
    rx_rel rx' (flights σ l).
Proof.
  intros Hfind. pose proof Hfind as (Hk & _ & Hbefore)%list_find_Some. clear Hfind.
  assert (∀ rx, list_find (λ c : Z * rx_state, c.1 = phy) (<[k := (phy, rx)]> conns) = Some (k, (phy, rx))) as Hfind.
  { intros rx'. apply list_find_Some. split_and!; [|done|].
    { apply list_lookup_insert_eq. by eapply lookup_lt_Some. }
    intros j y Hj Hlt. rewrite list_lookup_insert_ne in Hj by lia. by eapply Hbefore. }
  intros Hrel Hok. enough (∀ rx s, rx_rel rx σ → ∃ rx',
    vnf_run l (<[k := (phy, rx)]> conns, s) = (s' ← hand_over (delivered σ l) s; Ok (<[k := (phy, rx')]> conns, s')) ∧
    rx_rel rx' (flights σ l)) as G.
  { destruct (G rx s Hrel) as (rx' & Heq & Hr). rewrite list_insert_id in Heq by done. by exists rx'. }
  clear rx s Hk Hbefore Hrel. revert σ Hok. induction l as [|a l IH]; intros σ Hok rx s Hrel; [by exists rx|]. destruct Hok as [Ha Hl].
  destruct (vnf_receive phy _ k rx σ s a (Hfind rx) Hrel Ha) as (rx1 & Heq & Hrel1). rewrite list_insert_insert_eq in Heq.
  unfold vnf_run, hand_over. cbn [steps delivered flights]. rewrite Heq.
  destruct (deliver handle _ s) as [s1| | |]; cbn [mbind outcome_bind]; [by apply (IH _ Hl)|..];
    destruct (IH _ Hl rx1 s Hrel1) as (rx' & _ & H); by exists rx'.
Qed.
(** C17: Both sides put together what arrives, in whatever order datagrams of different messages
    arrive: as long as each datagram is genuine (the right numbers and checksum), none is a
    duplicate, no other message with the same number (of eight bits) is in flight and the clock
    readings, as the code has them, are never more than 10000 later than the first datagram of a
    message in flight (ten milliseconds within one second; from one second to the next they jump
    by 48577, see second_boundary_drops), exactly the messages that are complete are handled, one
    at a time, each when its last datagram has come; nothing undefined happens, and the queue
    holds exactly what is in flight. At the VNF this is so for messages of less than 65536 octets
    (see vnf_overflow), and other PHYs' queues are left alone. *)
Theorem reassembly_refines phy σ l rx s :
  rx_rel rx σ →
  (arrivals_ok phy (2 ^ 32) σ l →
   ∃ rx', pnf_run l (rx, s) = (s' ← hand_over (delivered σ l) s; Ok (rx', s')) ∧ rx_rel rx' (flights σ l)) ∧
  (∀ k conns, list_find (λ c : Z * rx_state, c.1 = phy) conns = Some (k, (phy, rx)) → arrivals_ok phy (2 ^ 16) σ l →
   ∃ rx', vnf_run l (conns, s) = (s' ← hand_over (delivered σ l) s; Ok (<[k := (phy, rx')]> conns, s')) ∧
     rx_rel rx' (flights σ l)).
Proof.
  intros Hrel. split; [by apply pnf_receives|]. intros k conns Hfind. by eapply vnf_receives.
Qed.

(** ** One message

    Its datagrams in any order, when nothing else is in flight. *)
Definition arrivals_of (sequence : Z) (ds : list bytes) (l : list nat) (ts : list Z) : list arrival :=
  zip_with (λ i t, mk_arrival sequence ds i t t) l ts.

Lemma one_flight_young (σ : gmap Z flight) k fl t : delete k σ = ∅ → u32 (t - fl.(fl_time)) <= 10000 → young (<[k := fl]> σ) t.
Proof.
  intros Hd Ht k' fl' Hk. destruct (decide (k = k')) as [<-|Hne].
  - rewrite lookup_insert_eq in Hk. by injection Hk as <-.
  - rewrite lookup_insert_ne, <- (lookup_delete_ne σ k k'), Hd in Hk by done. by rewrite lookup_empty in Hk.
Qed.

Lemma one_message_runs phy id bound sequence ds t0 :
  message_datagrams crc32 enabled phy id sequence ds → zlen (assembled ds) < bound → length ds ≠ 1%nat →
  ∀ l ts got σ, NoDup l → (∀ i, i ∈ l → (i < length ds)%nat ∧ i ∉ got) → (size got + length l = length ds)%nat → l ≠ [] →
  length ts = length l → Forall (λ t, u32 (t - t0) <= 10000) ts → delete (sequence mod 256) σ = ∅ →
  (∀ t, head ts = Some t → flight_at σ (sequence mod 256) ds t = mk_flight ds got t0) →
  arrivals_ok phy bound σ (arrivals_of sequence ds l ts) ∧ flights σ (arrivals_of sequence ds l ts) = ∅ ∧
  delivered σ (arrivals_of sequence ds l ts) = replicate (pred (length l)) None ++ [Some (assembled ds, t0)].
Proof.
  intros Hmsg Hb H1. induction l as [|i l IH]; intros [|t ts] got σ Hnd Hl Hsize Hne Hts Hyoung Hσ Hfl; try done.
  apply NoDup_cons in Hnd as [Hil Hnd]. apply Forall_cons in Hyoung as [Ht Hyoung]. specialize (Hfl t eq_refl).
  destruct (Hl i (list_elem_of_here _ _)) as [Hi Hgot].
  assert (size ({[i]} ∪ got) = S (size got)) as Hs by (rewrite size_union, size_singleton by set_solver; lia).
  cbn [arrivals_of zip_with arrivals_ok flights delivered]. fold (arrivals_of sequence ds l ts).
  assert (recv_one σ (mk_arrival sequence ds i t t) =
    if decide (l = []) then (∅, Some (assembled ds, t0))
    else (<[sequence mod 256 := mk_flight ds ({[i]} ∪ got) t0]> σ, None)) as Hr.
  { unfold recv_one. cbn [ar_datagrams]. rewrite (decide_False _ _ H1). unfold recv. cbn [ar_sequence ar_index ar_time].
    rewrite Hfl. unfold got_one. cbn [fl_got fl_datagrams fl_time]. rewrite Hs, Hσ. cbn [length] in Hsize.
    destruct l as [|j l]; [rewrite !decide_True by (cbn in *; lia || done)|rewrite !decide_False by (cbn in *; lia || done)]; done. }
  assert (arrival_ok phy bound σ (mk_arrival sequence ds i t t)) as Hok.
  { split; try done; [by exists id|..].
    - intros _. cbv zeta. cbn [ar_sequence ar_datagrams ar_time ar_index]. by rewrite Hfl.
    - rewrite Hr. cbn [ar_time ar_old]. case_decide; [split; apply map_Forall_empty|].
      split; by apply one_flight_young. }
  rewrite Hr in *. destruct (decide (l = [])) as [->|Hl0].
  - destruct ts; [|done]. done.
  - destruct (IH ts ({[i]} ∪ got) (<[sequence mod 256 := mk_flight ds ({[i]} ∪ got) t0]> σ)) as (Ha & Hf & Hd); try done.
    + intros j Hj. destruct (Hl j (list_elem_of_further _ _ _ Hj)). split; [done|].
      intros [->%elem_of_singleton|]%elem_of_union; done.
    + cbn [length] in Hsize. lia.
    + by injection Hts.
    + by rewrite delete_insert_eq.
    + intros t' _. unfold flight_at. by rewrite lookup_insert_eq.
    + cbn [fst snd]. split_and!; [done..|]. rewrite Hd. by destruct l.
Qed.

Lemma hand_over_last n m s : hand_over (replicate n None ++ [m]) s = deliver handle m s.
Proof. induction n as [|n IH]; [cbn; by destruct (deliver handle m s)|exact IH]. Qed.

Lemma any_order phy id bound sequence ds l ts s :
  message_datagrams crc32 enabled phy id sequence ds → zlen (assembled ds) < bound →
  l ≡ₚ seq 0 (length ds) → length ts = length l → Forall (λ t, u32 (t - hd 0 ts) <= 10000) ts →
  let run := arrivals_of sequence ds l ts in
  arrivals_ok phy bound ∅ run ∧ flights ∅ run = ∅ ∧ hand_over (delivered ∅ run) s = handle (assembled ds) (hd 0 ts) s.
Proof.
  intros Hmsg Hb Hl Hts Hy. pose proof (Permutation_length Hl) as Hlen. rewrite length_seq in Hlen.
  destruct (decide (length ds = 1%nat)) as [H1|H1].
  - rewrite H1 in Hl. symmetry in Hl. apply Permutation_length_1_inv in Hl as ->. destruct ts as [|t [|]]; [done| |done].
    destruct ds as [|d [|]]; [done| |done]. cbv zeta. change (arrivals_of _ _ _ _) with [mk_arrival sequence [d] 0 t t].
    set (a := mk_arrival sequence [d] 0 t t).
    assert (recv_one ∅ a = (∅, Some (assembled [d], t))) as Hr by (unfold recv_one; by rewrite decide_True).
    cbn [flights delivered]. rewrite Hr. split_and!; [|done|exact (hand_over_last 0 _ s)].
    split; [|done]. split; try done; [by exists id|cbn; lia].
  - destruct l as [|i l]; [destruct ds; [by destruct Hmsg; cbn in *; lia|done]|]. destruct ts as [|t ts]; [done|].
    destruct (one_message_runs phy id bound sequence ds t Hmsg Hb H1 (i :: l) (t :: ts) ∅ ∅) as (Ha & Hf & Hd); try done.
    + rewrite Hl. apply NoDup_seq.
    + intros j Hj. rewrite Hl, elem_of_seq in Hj. split; [lia|set_solver].
    + by intros t' [= <-].
    + cbv zeta. rewrite Hd, hand_over_last. done.
Qed.

Lemma pnf_any_order rx s phy id sequence ds l ts :
  rx_rel rx ∅ → message_datagrams crc32 enabled phy id sequence ds → zlen (assembled ds) < 2 ^ 32 →
  l ≡ₚ seq 0 (length ds) → length ts = length l → Forall (λ t, u32 (t - hd 0 ts) <= 10000) ts →
  ∃ rx', pnf_run (arrivals_of sequence ds l ts) (rx, s) =
    (s' ← handle (assembled ds) (hd 0 ts) s; Ok (rx', s')) ∧ rx_rel rx' ∅.
Proof.
  intros Hrel Hmsg Hb Hl Hts Hy. destruct (any_order phy id (2 ^ 32) sequence ds l ts s Hmsg Hb Hl Hts Hy) as (Ha & Hf & Hd).
  destruct (pnf_receives phy rx ∅ s _ Hrel Ha) as (rx' & Heq & Hrel'). rewrite Hf in Hrel'. rewrite Hd in Heq. by exists rx'.
Qed.

Lemma vnf_any_order conns k rx s phy id sequence ds l ts :
  list_find (λ c : Z * rx_state, c.1 = phy) conns = Some (k, (phy, rx)) →
  rx_rel rx ∅ → message_datagrams crc32 enabled phy id sequence ds → zlen (assembled ds) < 2 ^ 16 →
  l ≡ₚ seq 0 (length ds) → length ts = length l → Forall (λ t, u32 (t - hd 0 ts) <= 10000) ts →
  ∃ rx', vnf_run (arrivals_of sequence ds l ts) (conns, s) =
    (s' ← handle (assembled ds) (hd 0 ts) s; Ok (<[k := (phy, rx')]> conns, s')) ∧ rx_rel rx' ∅.
Proof.
  intros Hfind Hrel Hmsg Hb Hl Hts Hy. destruct (any_order phy id (2 ^ 16) sequence ds l ts s Hmsg Hb Hl Hts Hy) as (Ha & Hf & Hd).
  destruct (vnf_receives phy k conns rx ∅ s _ Hfind Hrel Ha) as (rx' & Heq & Hrel'). rewrite Hf in Hrel'. rewrite Hd in Heq. by exists rx'.
Qed.
End receiving_ok.

(** * A request on its way *)
Definition request_id (k : req_kind) : Z :=
  match k with
  | DL_TTI => NFAPI_NR_PHY_MSG_TYPE_DL_TTI_REQUEST | UL_TTI => NFAPI_NR_PHY_MSG_TYPE_UL_TTI_REQUEST
  | UL_DCI => NFAPI_NR_PHY_MSG_TYPE_UL_DCI_REQUEST | TX_DATA => NFAPI_NR_PHY_MSG_TYPE_TX_DATA_REQUEST
  end.

Lemma unpack_bind_inv {A B} (u : unpacker A) (f : A → unpacker B) i b rest :
  (u ≫= f) i = Ok (Some (b, rest)) → ∃ a i', u i = Ok (Some (a, i')) ∧ f a i' = Ok (Some (b, rest)).
Proof.
  cbv [mbind unpacker_bind]. destruct (u i) as [[[a i']|]| | |]; [|discriminate..]. intros H. by exists a, i'.
Qed.

Section requests.
Context {V E : Type}.
Implicit Types (b : p7_body V).

(** SFN and slot are the first that is unpacked of a request *)
Lemma unpack_peek {A} (key : A → Z * Z) (f : Z → Z → unpacker A) i a rest :
  (∀ sfn slot i' a rest, f sfn slot i' = Ok (Some (a, rest)) → key a = (sfn, slot)) →
  (SFN ← pull16; Slot ← pull16; f SFN Slot) i = Ok (Some (a, rest)) →
  ∃ i', (SFN ← pull16; Slot ← pull16; mret (SFN, Slot)) i = Ok (Some (key a, i')).
Proof.
  intros Hf H. apply unpack_bind_inv in H as (sfn & i1 & E1 & H). apply unpack_bind_inv in H as (slot & i2 & E2 & H).
  exists i2. cbv [mbind unpacker_bind]. rewrite E1, E2. by rewrite (Hf _ _ _ _ _ H).
Qed.

Ltac unpack_inv H := repeat (apply unpack_bind_inv in H as (? & ? & _ & H)); by injection H as <- _.

Lemma request_sfn_slot k sizeof (config : option (p7_codec_config V)) old len i b rest :
  fapi_nr_p7_message_body_unpack sizeof config old len (request_id k) i = Ok (Some (b, rest)) →
  ∃ sfn slot i', request_of b = Some (k, sfn, slot) ∧
    (SFN ← pull16; Slot ← pull16; mret (SFN, Slot)) i = Ok (Some ((sfn, slot), i')).
Proof.
  unfold fapi_nr_p7_message_body_unpack. destruct k; cbn [request_id].
  all: repeat match goal with |- context [?x =? ?y] => let e := eval vm_compute in (x =? y) in change (x =? y) with e; cbv iota end.
  all: unfold unpack_checked; destruct (_ =? 0); [discriminate|].
  all: intros H; apply unpack_bind_inv in H as (m & i' & H & Hb); injection Hb as <- _.
  - eapply (unpack_peek (λ m, (m.(dl_SFN), m.(dl_Slot)))) in H as [? H]; [by eexists _, _, _|].
    intros ????? Hi. unpack_inv Hi.
  - eapply (unpack_peek (λ m, (m.(ul_SFN), m.(ul_Slot)))) in H as [? H]; [by eexists _, _, _|].
    intros ????? Hi. unpack_inv Hi.
  - eapply (unpack_peek (λ m, (m.(udci_SFN), m.(udci_Slot)))) in H as [? H]; [by eexists _, _, _|].
    intros ????? Hi. unpack_inv Hi.
  - eapply (unpack_peek (λ m, (m.(tx_SFN), m.(tx_Slot)))) in H as [? H]; [by eexists _, _, _|].
    intros ????? Hi. unpack_inv Hi.
Qed.
End requests.

(** ** What the physical layer gets *)
Section slots.
Context {V E : Type} (dl_tti_jitter tx_data_jitter ul_tti_jitter ul_dci_jitter : Z).
Implicit Types (phy : pnf_p7_t (V := V) (E := E)) (sb : slot_buffer_t (V := V)).

(** a request is for a slot; and what is left of it when it is taken *)
Definition due (sfn slot : Z) (k : req_kind) (b : p7_body V) : bool := bool_decide (request_of b = Some (k, sfn, slot)).
Definition left_over (sfn slot : Z) (k : req_kind) (b : p7_body V) : p7_body V :=
  if due sfn slot k b then set_sfn_slot (u16 (-1)) (u16 (-1)) b else b.

Lemma take_request_ok sfn slot k sb r sb' : take_request sfn slot k sb = (r, sb') →
  r = (if due sfn slot k (sb.(sb_request) k) then Some (sb.(sb_request) k) else None) ∧
  ∀ k', sb'.(sb_request) k' = if decide (k' = k) then left_over sfn slot k (sb.(sb_request) k) else sb.(sb_request) k'.
Proof.
  unfold take_request, left_over, due.
  case_decide as H; [rewrite bool_decide_true by done|rewrite bool_decide_false by done]; intros [= <- <-]; split; try done.
  intros k'. by destruct (decide (k' = k)) as [->|].
Qed.

Lemma left_over_not_due sfn slot k b : 0 <= sfn < 1024 → due sfn slot k (left_over sfn slot k b) = false.
Proof.
  intros Hs. unfold left_over. destruct (due sfn slot k b) eqn:Hd; [|done]. apply bool_decide_eq_false_2.
  change (u16 (-1)) with 65535. destruct b; cbn; intros [=]; lia.
Qed.

Lemma send_timing_info_buffer phy :
  slot_buffer (send_timing_info dl_tti_jitter tx_data_jitter ul_tti_jitter ul_dci_jitter phy) = phy.(slot_buffer) ∧
  slot_buffer_size (send_timing_info dl_tti_jitter tx_data_jitter ul_tti_jitter ul_dci_jitter phy) = phy.(slot_buffer_size) ∧
  slot_shift (send_timing_info dl_tti_jitter tx_data_jitter ul_tti_jitter ul_dci_jitter phy) = phy.(slot_shift) ∧
  mu (send_timing_info dl_tti_jitter tx_data_jitter ul_tti_jitter ul_dci_jitter phy) = phy.(mu).
Proof.
  unfold send_timing_info. destruct (timing_info_mode_periodic phy) eqn:E1; cbn;
    destruct (_ =? _); cbn; rewrite ?E1; cbn; try done; by destruct (timing_info_mode_aperiodic phy && timing_info_aperiodic_send phy).
Qed.

Lemma reset_stats_buffer sfn slot phy :
  slot_buffer (reset_stats sfn slot phy) = phy.(slot_buffer) ∧
  slot_buffer_size (reset_stats sfn slot phy) = phy.(slot_buffer_size) ∧
  slot_shift (reset_stats sfn slot phy) = phy.(slot_shift) ∧ mu (reset_stats sfn slot phy) = phy.(mu).
Proof. unfold reset_stats. by destruct (_ && _). Qed.

Lemma get_msgs_ok sfn slot phy sb :
  phy.(slot_buffer_size) ≠ 0 → phy.(slot_shift) = 0 →
  phy.(slot_buffer) !! Z.to_nat (buffer_index phy sfn slot) = Some sb →
  ∃ msgs phy' sb', nr_pnf_p7_get_msgs dl_tti_jitter tx_data_jitter ul_tti_jitter ul_dci_jitter sfn slot phy = Ok (msgs, phy') ∧
    (∀ k, msgs k = if due sfn slot k (sb.(sb_request) k) then Some (sb.(sb_request) k) else None) ∧
    (∀ k, sb'.(sb_request) k = left_over sfn slot k (sb.(sb_request) k)) ∧
    phy'.(slot_buffer) = <[Z.to_nat (buffer_index phy sfn slot) := sb']> phy.(slot_buffer) ∧
    phy'.(slot_buffer_size) = phy.(slot_buffer_size) ∧ phy'.(slot_shift) = 0 ∧ phy'.(mu) = phy.(mu).
Proof.
  intros Hsize Hshift Hsb. unfold nr_pnf_p7_get_msgs. cbv zeta. cbn [set_pnf_sfn set_pnf_slot] in *.
  replace (slot_buffer_size _ =? 0) with false by (symmetry; by apply Z.eqb_neq).
  replace (shifted_slot _ slot) with slot by (unfold shifted_slot; cbn; by rewrite Hshift).
  replace (slot_buffer _ !! _) with (Some sb) by done.
  destruct (take_request sfn slot DL_TTI sb) as [r1 sb1] eqn:E1. destruct (take_request sfn slot TX_DATA sb1) as [r2 sb2] eqn:E2.
  destruct (take_request sfn slot UL_TTI sb2) as [r3 sb3] eqn:E3. destruct (take_request sfn slot UL_DCI sb3) as [r4 sb4] eqn:E4.
  apply take_request_ok in E1 as [-> H1], E2 as [-> H2], E3 as [-> H3], E4 as [-> H4].
  eexists _, _, sb4. split; [done|]. split.
  { intros []; rewrite ?H3, ?H2, ?H1; cbn; by rewrite ?H3, ?H2, ?H1. }
  split; [by intros []; rewrite H4; cbn; rewrite ?H3; cbn; rewrite ?H2; cbn; rewrite ?H1|].
  match goal with |- context [send_timing_info _ _ _ _ ?p] => set (p1 := p) end.
  destruct (send_timing_info_buffer p1) as (T1 & T2 & T3 & T4).
  match goal with |- context [reset_stats sfn slot ?p] => destruct (reset_stats_buffer sfn slot p) as (R1 & R2 & R3 & R4) end.
  rewrite R1, R2, R3, R4, T1, T2, T3, T4. done.
Qed.

(** Of the four requests in the buffer of a slot the physical layer gets those that are for
    this slot, and they are taken out: who asks again gets none. *)
Theorem get_msgs_takes sfn slot phy sb :
  phy.(slot_buffer_size) ≠ 0 → phy.(slot_shift) = 0 → 0 <= sfn < 1024 →
  phy.(slot_buffer) !! Z.to_nat (buffer_index phy sfn slot) = Some sb →
  ∃ msgs phy', nr_pnf_p7_get_msgs dl_tti_jitter tx_data_jitter ul_tti_jitter ul_dci_jitter sfn slot phy = Ok (msgs, phy') ∧
    (∀ k, msgs k = if due sfn slot k (sb.(sb_request) k) then Some (sb.(sb_request) k) else None) ∧
    ∃ none phy'', nr_pnf_p7_get_msgs dl_tti_jitter tx_data_jitter ul_tti_jitter ul_dci_jitter sfn slot phy' = Ok (none, phy'') ∧
      ∀ k, none k = None.
Proof.
  intros Hsize Hshift Hsfn Hsb.
  destruct (get_msgs_ok sfn slot phy sb Hsize Hshift Hsb) as (msgs & phy' & sb' & -> & Hm & Hl & Hb & Hsz & Hsh & Hmu).
  exists msgs, phy'. split_and!; [done..|].
  assert (buffer_index phy' sfn slot = buffer_index phy sfn slot) as Hi by (unfold buffer_index; by rewrite Hmu).
  destruct (get_msgs_ok sfn slot phy' sb') as (none & phy'' & _ & -> & Hn & _); [congruence|done| |].
  - rewrite Hi, Hb. apply list_lookup_insert_eq. by eapply lookup_lt_Some.
  - exists none, phy''. split; [done|]. intros k. by rewrite Hn, Hl, left_over_not_due.
Qed.
End slots.

Lemma request_arrives {V} (old : p7_memory) (b b' : p7_body V) r :
  p7_body_same b b' → request_of b = Some r → request_of (p7_body_arrives old b') = Some r.
Proof.
  intros Hs Hr. destruct b; try done; destruct b'; cbn in Hs; try done; cbn in *; first [by destruct Hs as (? & -> & _)|congruence].
Qed.

(** ** Sending *)
Section sending.
Context {V E : Type} (config : option (nfapi_codec_config V E)) (sizeof_header : Z) (sizeof : fapi_struct → Z) (crc32 : Z → bytes → Z).

(** a message that can be sent and received: its fields are in range, the memory for it is
    there, and its [octets] fit into 128 segments *)
Record sendable (m : nfapi_message V E) (s : p7_sender) (len packedBufLen : Z) (octets : bytes) : Prop := {
  se_ok : nfapi_message_ok config m;
  se_memory : nfapi_memory_suffices sizeof_header sizeof m.(nm_header).(nh_message_id) len;
  se_segment : NFAPI_NR_P7_HEADER_LENGTH < s.(segment_size) < 2 ^ 16;
  se_pack : ∃ m', nfapi_nr_p7_message_pack config (with_mss (NFAPI_NR_P7_SET_MSS 0 0 s.(sequence_number)) m) packedBufLen =
    Ok (Some (octets, m'));
  se_fit : zlen octets <= NFAPI_NR_P7_HEADER_LENGTH + 128 * (s.(segment_size) - NFAPI_NR_P7_HEADER_LENGTH)
}.

Lemma sent_ok wrap finish m s len packedBufLen octets old :
  0 <= packedBufLen < 2 ^ 32 → (∀ x, 0 <= x < 2 ^ 16 → wrap x = x) → finish_ok crc32 s.(checksum_enabled) finish →
  sendable m s len packedBufLen octets →
  let h := m.(nm_header) in
  ∃ ds h' cs b', p7_datagrams wrap finish s octets (zlen octets) = Ok ds ∧
    message_datagrams crc32 s.(checksum_enabled) h.(nh_phy_id) h.(nh_message_id) s.(sequence_number) ds ∧
    assembled ds = header_octets h' ++ cs ∧ zlen (assembled ds) = zlen octets ∧ header_ok h' ∧ h'.(nh_message_id) = h.(nh_message_id) ∧
    nfapi_body_same m.(nm_body) b' ∧
    nfapi_nr_p7_message_unpack sizeof_header sizeof config old (header_octets h' ++ cs) (zlen (header_octets h' ++ cs)) len =
      Ok (Some (mk_nfapi_message h' (nfapi_body_arrives old b'))).
Proof.
  intros Hlen Hwrap Hfin [[Hh Hb] Hmem Hseg [m' Hpack] Hfit] h.
  set (mss := NFAPI_NR_P7_SET_MSS 0 0 s.(sequence_number)) in *.
  destruct (set_mss_get 0 0 s.(sequence_number) ltac:(lia) ltac:(lia)) as (Hmss & _). fold mss in Hmss.
  assert (nfapi_message_ok config (with_mss mss m)) as Hok by (split; [cbn; destruct Hh; by split|done]).
  destruct (nfapi_pack_unpack config sizeof_header sizeof old len (with_mss mss m) Hok Hmem) as (cs & b' & _ & Hsame & Hp & Hu).
  rewrite Hp in Hpack by lia. destruct (Z.leb_spec (NFAPI_NR_P7_HEADER_LENGTH + zlen cs) packedBufLen) as [Hle|]; [|discriminate].
  cbv zeta in Hpack. set (hp := header_with _ _) in Hpack.
  assert (header_octets hp ++ cs = octets) as <- by (by injection Hpack).
  rewrite zlen_app, header_octets_len in Hfit. pose proof (zlen_nonneg cs).
  assert (header_ok hp) as Hhp.
  { destruct Hh. split; try done. unfold is_u32. cbn. unfold NFAPI_NR_P7_HEADER_LENGTH in *. lia. }
  destruct (p7_datagrams_ok crc32 s.(checksum_enabled) finish wrap s hp cs Hhp Hfin Hwrap Hseg) as (ds & h' & Heq & Hds & Has & Hok' & _ & Hid & Hl);
    [lia|done|done|].
  exists ds, h', cs, b'. split_and!; try done.
  - by rewrite Has, !zlen_app, !header_octets_len.
  - rewrite zlen_app, header_octets_len. by apply Hu.
Qed.

Lemma vnf_send_ok conns j s time m ds packed : 
  list_find (λ c : Z * p7_sender, c.1 = m.(nm_header).(nh_phy_id)) conns = Some (j, (m.(nm_header).(nh_phy_id), s)) →
  (∃ m', nfapi_nr_p7_message_pack config (with_mss (NFAPI_NR_P7_SET_MSS 0 0 s.(sequence_number)) m) (1024 * 1024 * 3) = Ok (Some (packed, m'))) →
  p7_datagrams u16 (λ segment buffer len, buffer ← checksummed crc32 s.(checksum_enabled) buffer len;
    nfapi_nr_p7_update_transmit_timestamp buffer (time segment)) s packed (zlen packed) = Ok ds →
  vnf_nr_send_p7_msg crc32 config conns time m = Ok (true, ds, <[j := (m.(nm_header).(nh_phy_id), next_sequence s)]> conns).
Proof.
  intros Hfind [m' Hpack] Hds. unfold vnf_nr_send_p7_msg. rewrite Hfind. cbv zeta. rewrite Hpack. cbn [mbind outcome_bind].
  rewrite Hds. done.
Qed.
End sending.

(** ** The PNF stores it, the physical layer gets it *)
Section end_to_end.
Context {V E : Type} (config : option (nfapi_codec_config V E)) (sizeof_header : Z) (sizeof : fapi_struct → Z)
  (memory : slot_buffer_t (V := V) → nfapi_memory E) (left_behind : bytes → p7_body V → p7_body V) (cfg : slots_config)
  (sync_memory : nfapi_memory E) (t2 t3 : pnf_p7_t (V := V) (E := E) → Z → Z)
  (handle_vendor : Z → bytes → pnf_p7_t (V := V) (E := E) → outcome (pnf_p7_t (V := V) (E := E))).
Implicit Types (phy : pnf_p7_t (V := V) (E := E)) (sb : slot_buffer_t (V := V)).

Definition handle_p7 (octets : bytes) (t : Z) phy : outcome (pnf_p7_t (V := V) (E := E)) :=
  pnf_nr_handle_p7_message config sizeof_header sizeof memory left_behind cfg sync_memory t2 t3 handle_vendor octets t phy.

(** a request for which there is a place: the slot is of the right type and in the window *)
Definition awaited (k : req_kind) (sfn slot : Z) phy sb : Prop :=
  check_nr_nfapi_p7_slot_type cfg slot (request_slot_type k) = Ok true ∧
  is_nr_p7_request_in_window sfn slot phy = true ∧
  phy.(slot_buffer) !! Z.to_nat (buffer_index phy sfn slot) = Some sb.

Lemma unpacked_peek k old h cs len h' b :
  header_ok h → h.(nh_message_id) = request_id k →
  nfapi_nr_p7_message_unpack sizeof_header sizeof config old (header_octets h ++ cs) (zlen (header_octets h ++ cs)) len =
    Ok (Some (mk_nfapi_message h' (nfapi_fapi b))) →
  ∃ sfn slot, request_of b = Some (k, sfn, slot) ∧
    peek_nr_nfapi_p7_sfn_slot (header_octets h ++ cs) (zlen (header_octets h ++ cs)) = Ok (Some (sfn, slot)).
Proof.
  intros Hh Hid H. unfold nfapi_nr_p7_message_unpack in H. destruct (_ || _); [discriminate|].
  rewrite take_ge in H by (unfold zlen; lia). rewrite header_pull_octets in H by done. rewrite Hid in H.
  destruct (_ <? _); [discriminate|]. unfold nfapi_body_unpack in H.
  assert (request_id k =? NFAPI_NR_PHY_MSG_TYPE_DL_NODE_SYNC = false ∧ request_id k =? NFAPI_NR_PHY_MSG_TYPE_UL_NODE_SYNC = false ∧
    request_id k =? NFAPI_NR_PHY_MSG_TYPE_TIMING_INFO = false) as (E1 & E2 & E3) by (by destruct k).
  rewrite E1, E2, E3 in H.
  match type of H with match ?x with _ => _ end = _ => destruct x as [[[nb rest]|]| | |] eqn:Hu; try discriminate end.
  injection H as _ ->.
  apply unpack_bind_inv in Hu as (b' & i' & Hu & Hb). injection Hb as <- _.
  apply request_sfn_slot in Hu as (sfn & slot & i & Hreq & Hpeek). exists sfn, slot. split; [done|].
  unfold peek_nr_nfapi_p7_sfn_slot. rewrite take_ge by (unfold zlen; lia).
  rewrite drop_app_length' by done. by rewrite Hpeek.
Qed.

Lemma handle_request_ok k h cs t b sfn slot phy sb :
  header_ok h → h.(nh_message_id) = request_id k → request_of b = Some (k, sfn, slot) → awaited k sfn slot phy sb →
  let sb0 := mk_slot_buffer sfn slot sb.(sb_request) in
  nfapi_nr_p7_message_unpack sizeof_header sizeof config (memory sb0) (header_octets h ++ cs) (zlen (header_octets h ++ cs))
    (sizeof (request_struct k)) = Ok (Some (mk_nfapi_message h (nfapi_fapi b))) →
  ∃ phy', handle_p7 (header_octets h ++ cs) t phy = Ok phy' ∧
    phy'.(slot_buffer) = <[Z.to_nat (buffer_index phy sfn slot) := set_request k b sb0]> phy.(slot_buffer) ∧
    phy'.(slot_buffer_size) = phy.(slot_buffer_size) ∧ phy'.(slot_shift) = phy.(slot_shift) ∧ phy'.(mu) = phy.(mu).
Proof.
  intros Hh Hid Hreq (Htype & Hwin & Hsb) sb0 Hu.
  destruct (unpacked_peek k _ h cs _ h b Hh Hid Hu) as (sfn' & slot' & Hreq' & Hpeek).
  rewrite Hreq in Hreq'. injection Hreq' as <- <-.
  assert (18 <= zlen (header_octets h ++ cs)) as Hlen
    by (rewrite zlen_app, header_octets_len; pose proof (zlen_nonneg cs); unfold NFAPI_NR_P7_HEADER_LENGTH; lia).
  unfold handle_p7, pnf_nr_handle_p7_message. rewrite (proj2 (Z.ltb_ge _ 4)) by lia.
  rewrite header_unpack_octets by done. cbn [mbind outcome_bind]. rewrite (proj2 (Z.ltb_ge _ 8)), Hid by lia.
  assert (∃ phy', pnf_handle_request config sizeof_header sizeof memory left_behind cfg k (header_octets h ++ cs) phy = Ok phy' ∧
    phy'.(slot_buffer) = <[Z.to_nat (buffer_index phy sfn slot) := set_request k b sb0]> phy.(slot_buffer) ∧
    phy'.(slot_buffer_size) = phy.(slot_buffer_size) ∧ phy'.(slot_shift) = phy.(slot_shift) ∧ phy'.(mu) = phy.(mu)) as H.
  { unfold pnf_handle_request. rewrite Hpeek. cbn [mbind outcome_bind]. rewrite Htype. cbn [mbind outcome_bind].
    rewrite Hwin. cbn [andb]. rewrite Hsb. cbv zeta. fold sb0. rewrite Hu. cbn [mbind outcome_bind]. by eexists. }
  by destruct k.
Qed.

Lemma request_is k (b : p7_body V) id sfn slot : p7_body_ok id b → request_of b = Some (k, sfn, slot) → id = request_id k.
Proof. destruct b; cbn; try done; intros [-> _] [= <- _ _]; done. Qed.

Context (crc32 : Z → bytes → Z) (dl_tti_jitter tx_data_jitter ul_tti_jitter ul_dci_jitter : Z).

(** C16: From the MAC to the physical layer: a request that can be packed (as in p7_roundtrip) and
    fits into 128 segments of more than 18 and less than 2^16 octets is sent by the VNF, and if
    its datagrams reach the PNF, each once, in any order, when nothing else is being received and
    while the slot is of the right type, in the window and has a buffer (of which there are
    thirty, see slot_without_buffer), then the physical layer gets this request when it asks for
    those of its slot, as it arrives by the codec. The clock readings at arrival, as the code has
    them, are at most 10000 later than the first; at the end of a second they jump by more than
    that (second_boundary_drops). The slot shift is 0 (with another the request is missed,
    shift_misses). *)
Theorem request_reaches_phy k m b sfn slot conns j s (time : Z → Z) octets (rx : rx_state) phy sb :
  m.(nm_body) = nfapi_fapi b → request_of b = Some (k, sfn, slot) →
  sendable config sizeof_header sizeof m s (sizeof (request_struct k)) (1024 * 1024 * 3) octets →
  list_find (λ c : Z * p7_sender, c.1 = m.(nm_header).(nh_phy_id)) conns = Some (j, (m.(nm_header).(nh_phy_id), s)) →
  (∀ i, is_u32 (time i)) →
  rx_rel rx ∅ → awaited k sfn slot phy sb → phy.(slot_buffer_size) ≠ 0 → phy.(slot_shift) = 0 →
  ∃ ds b', p7_body_same b b' ∧
    vnf_nr_send_p7_msg crc32 config conns time m = Ok (true, ds, <[j := (m.(nm_header).(nh_phy_id), next_sequence s)]> conns) ∧
    ∀ l ts, l ≡ₚ seq 0 (length ds) → length ts = length l → Forall (λ t, u32 (t - hd 0 ts) <= 10000) ts →
    ∃ rx' phy' msgs phy'',
      pnf_run crc32 sizeof_header s.(checksum_enabled) handle_p7 (arrivals_of s.(sequence_number) ds l ts) (rx, phy) = Ok (rx', phy') ∧
      nr_pnf_p7_get_msgs dl_tti_jitter tx_data_jitter ul_tti_jitter ul_dci_jitter sfn slot phy' = Ok (msgs, phy'') ∧
      msgs k = Some (p7_body_arrives (mem_fapi (memory (mk_slot_buffer sfn slot sb.(sb_request)))) b').
Proof.
  intros Hbody Hreq Hse Hfind Htime Hrx Haw Hsize Hshift. pose proof (se_ok _ _ _ _ _ _ _ _ Hse) as [_ Hb].
  rewrite Hbody in Hb. pose proof (request_is k b _ sfn slot Hb Hreq) as Hid.
  set (sb0 := mk_slot_buffer sfn slot sb.(sb_request)).
  destruct (sent_ok config sizeof_header sizeof crc32 u16 _ m s _ (1024 * 1024 * 3) octets (memory sb0) ltac:(lia) u16_id
    (stamped_ok crc32 s.(checksum_enabled) time Htime) Hse) as (ds & h' & cs & nb & Hds & Hmsg & Has & Hl & Hh' & Hid' & Hsame & Hu).
  rewrite Hbody in Hsame. destruct nb as [b'| | |]; try done. cbn in Hsame. exists ds, b'. split; [done|].
  split; [eapply vnf_send_ok; [done|apply Hse|done]|]. intros l ts Hperm Hts Hy.
  destruct (pnf_any_order crc32 sizeof_header _ handle_p7 rx phy _ _ _ ds l ts Hrx Hmsg) as (rx' & Hrun & _); [|done..|].
  { rewrite Hl. pose proof (se_fit _ _ _ _ _ _ _ _ Hse). pose proof (se_segment _ _ _ _ _ _ _ _ Hse).
    unfold NFAPI_NR_P7_HEADER_LENGTH in *. lia. }
  destruct (handle_request_ok k h' cs (hd 0 ts) _ sfn slot phy sb Hh' ltac:(congruence)
    (request_arrives _ _ _ _ Hsame Hreq) Haw Hu) as (phy' & Hphy & Hbuf & Hs' & Hsh' & Hmu').
  rewrite Has, Hphy in Hrun. cbn [mbind outcome_bind] in Hrun.
  destruct (get_msgs_ok dl_tti_jitter tx_data_jitter ul_tti_jitter ul_dci_jitter sfn slot phy'
    (set_request k (p7_body_arrives (mem_fapi (memory sb0)) b') sb0)) as (msgs & phy'' & _ & Hget & Hmsgs & _); [congruence..| |].
  { unfold buffer_index. rewrite Hmu', Hbuf. apply list_lookup_insert_eq. destruct Haw as (_ & _ & Hsb). by eapply lookup_lt_Some. }
  exists rx', phy', msgs, phy''. split_and!; [done..|]. rewrite Hmsgs. cbn [set_request sb_request]. rewrite decide_True by done.
  unfold due. by rewrite bool_decide_true by by apply (request_arrives _ b).
Qed.
(** And from the physical layer to the MAC: a message that the PNF sends is handled by the VNF
    exactly once, and unpacks there to what was sent; up to 65535 octets. *)
Theorem indication_reaches_vnf {St} (handle : bytes → Z → St → outcome St) m s len octets conns j rx (st : St) old :
  sendable config sizeof_header sizeof m s len 131072 octets → s.(terminate) = false → zlen octets < 2 ^ 16 →
  list_find (λ c : Z * rx_state, c.1 = m.(nm_header).(nh_phy_id)) conns = Some (j, (m.(nm_header).(nh_phy_id), rx)) → rx_rel rx ∅ →
  ∃ ds h' cs b', pnf_nr_send_p7_message crc32 config s m = Ok (true, ds, next_sequence s) ∧ nfapi_body_same m.(nm_body) b' ∧
    nfapi_nr_p7_message_unpack sizeof_header sizeof config old (header_octets h' ++ cs) (zlen (header_octets h' ++ cs)) len =
      Ok (Some (mk_nfapi_message h' (nfapi_body_arrives old b'))) ∧
    ∀ l ts, l ≡ₚ seq 0 (length ds) → length ts = length l → Forall (λ t, u32 (t - hd 0 ts) <= 10000) ts →
    ∃ rx', vnf_run crc32 sizeof_header s.(checksum_enabled) handle (arrivals_of s.(sequence_number) ds l ts) (conns, st) =
        (st' ← handle (header_octets h' ++ cs) (hd 0 ts) st; Ok (<[j := (m.(nm_header).(nh_phy_id), rx')]> conns, st')) ∧ rx_rel rx' ∅.
Proof.
  intros Hse Hterm Hl Hfind Hrx.
  destruct (sent_ok config sizeof_header sizeof crc32 u32 _ m s len 131072 octets old ltac:(lia) (λ x H, u32_small x ltac:(lia))
    (checksummed_ok crc32 s.(checksum_enabled)) Hse) as (ds & h' & cs & b' & Hds & Hmsg & Has & Hl' & Hh' & Hid' & Hsame & Hu).
  exists ds, h', cs, b'. split_and!; try done.
  - unfold pnf_nr_send_p7_message. rewrite Hterm. destruct (se_pack _ _ _ _ _ _ _ _ Hse) as [m' ->]. cbn [mbind outcome_bind].
    by rewrite Hds.
  - intros l ts Hperm Hts Hy. rewrite <- Has. by eapply vnf_any_order; [done|done|exact Hmsg|rewrite Hl'|..].
Qed.
End end_to_end.

(** * Examples

    A request in three datagrams of at most twenty octets, with a checksum. *)
Definition w_crc32 (c : Z) (bs : bytes) : Z := c + sumZ id bs.
Definition w_body : p7_body unit := p7_ul_dci_request (mk_ul_dci_request 5 3 0 []).
Definition w_m : nfapi_message unit unit :=
  mk_nfapi_message (mk_nfapi_header 1 NFAPI_NR_PHY_MSG_TYPE_UL_DCI_REQUEST 0 0 0 0) (nfapi_fapi w_body).
Definition w_sender : p7_sender := mk_p7_sender 20 true false 258.
Definition w_mss (m : nfapi_message unit unit) := with_mss (NFAPI_NR_P7_SET_MSS 0 0 258) m.
Definition w_octets : bytes := match nfapi_nr_p7_message_pack None (w_mss w_m) 131072 with Ok (Some (o, _)) => o | _ => [] end.
Definition w_datagrams : list bytes :=
  match p7_datagrams u32 (λ _ b len, checksummed w_crc32 true b len) w_sender w_octets (zlen w_octets) with Ok ds => ds | _ => [] end.
Definition w_rx : rx_state := mk_rx_state [] None 0.
Definition w_times (l : list nat) : list Z := (λ _, 1000) <$> l.

Lemma w_rx_ok : rx_rel w_rx ∅.
Proof. split; [constructor|done|done]. Qed.
Lemma w_message_ok : nfapi_message_ok None w_m.
Proof.
  split; [by split|]. split; [done|]. split; [by repeat constructor|]. split_and!; try done. set_solver.
Qed.
Lemma w_sendable packedBufLen : packedBufLen = 131072 ∨ packedBufLen = 1024 * 1024 * 3 →
  sendable (E := unit) None 24 (λ _, 24) w_m w_sender 24 packedBufLen w_octets.
Proof.
  intros H. split; [exact w_message_ok|by split|done| |by vm_compute].
  destruct H as [-> | ->]; eexists; vm_compute; reflexivity.
Qed.
Lemma w_message : message_datagrams w_crc32 true 1 NFAPI_NR_PHY_MSG_TYPE_UL_DCI_REQUEST 258 w_datagrams.
Proof.
  destruct (sent_ok None 24 (λ _, 24) w_crc32 u32 _ w_m w_sender 24 131072 w_octets (mk_nfapi_memory zero_memory None)
    ltac:(lia) (λ x H, u32_small x ltac:(lia)) (checksummed_ok w_crc32 true) (w_sendable _ (or_introl eq_refl)))
    as (ds & _ & _ & _ & Hds & Hmsg & _).
  unfold w_datagrams. cbn [checksum_enabled w_sender] in Hds. by rewrite Hds.
Qed.

(** the state of a PNF before the request comes *)
Definition w_slot : slot_buffer_t := mk_slot_buffer (V := unit) 0 0 (λ _, p7_vendor tt).
Definition w_pnf (mu shift : Z) : pnf_p7_t (V := unit) (E := unit) :=
  mk_pnf_p7 mu 5 1 shift (replicate 30 w_slot) 10 false false 0 0 false 0 (mk_nr_stats (λ _, 0) (λ _, 0) 0) [].
Definition w_memory (_ : slot_buffer_t (V := unit)) : nfapi_memory unit := mk_nfapi_memory zero_memory None.
Definition w_handle := handle_p7 (V := unit) (E := unit) None 24 (λ _, 24) w_memory (λ _ b, b) (mk_slots_config FDD [])
  (mk_nfapi_memory zero_memory None) (λ _ _, 0) (λ _ _, 0) (λ _ _ p, Ok p).

Lemma request_reaches_phy_witness : ∃ ds rx' phy' msgs phy'',
  vnf_nr_send_p7_msg w_crc32 None [(1, w_sender)] (λ _, 0) w_m = Ok (true, ds, [(1, next_sequence w_sender)]) ∧ length ds = 3%nat ∧
  pnf_run w_crc32 24 true w_handle (arrivals_of 258 ds [2; 0; 1]%nat [1000; 1000; 1100]) (w_rx, w_pnf 1 0) = Ok (rx', phy') ∧
  nr_pnf_p7_get_msgs 0 0 0 0 5 3 phy' = Ok (msgs, phy'') ∧ msgs UL_DCI = Some w_body.
Proof.
  destruct (request_reaches_phy (V := unit) (E := unit) None 24 (λ _, 24) w_memory (λ _ b, b) (mk_slots_config FDD [])
    (mk_nfapi_memory zero_memory None) (λ _ _, 0) (λ _ _, 0) (λ _ _ p, Ok p) w_crc32 0 0 0 0
    UL_DCI w_m w_body 5 3 [(1, w_sender)] 0%nat w_sender (λ _, 0) w_octets w_rx (w_pnf 1 0) w_slot)
    as (ds & b' & Hb & Hsend & Hrun); try done; [by apply w_sendable; right|exact w_rx_ok|].
  exists ds. assert (length ds = 3%nat) as Hl by (vm_compute in Hsend; by injection Hsend as <-).
  rewrite Hl in Hrun. destruct (Hrun [2; 0; 1]%nat [1000; 1000; 1100]) as (rx' & phy' & msgs & phy'' & H1 & H2 & H3).
  - exact (Permutation_cons_append [0; 1]%nat 2%nat).
  - done.
  - repeat constructor; by vm_compute.
  - exists rx', phy', msgs, phy''. split; [exact Hsend|]. split; [done|]. split; [exact H1|]. split; [exact H2|]. rewrite H3. clear - Hb. destruct b'; try done.
    destruct Hb as (l & -> & Hl'). by inversion Hl'.
Defined.

(** what is handled is logged *)
Definition w_log (octets : bytes) (t : Z) (l : list (bytes * Z)) : outcome (list (bytes * Z)) := Ok (l ++ [(octets, t)]).

Lemma reassembly_refines_witness : ∃ rx',
  pnf_run w_crc32 24 true w_log (arrivals_of 258 w_datagrams [2; 0; 1]%nat [1000; 1000; 1100]) (w_rx, []) =
    Ok (rx', [(assembled w_datagrams, 1000)]) ∧ rx_rel rx' ∅.
Proof.
  destruct (any_order w_crc32 true w_log 1 _ (2 ^ 32) 258 w_datagrams [2; 0; 1]%nat [1000; 1000; 1100] [] w_message)
    as (Ha & Hf & Hd); [by vm_compute|exact (Permutation_cons_append [0; 1]%nat 2%nat)|done|repeat constructor; by vm_compute|].
  destruct (reassembly_refines w_crc32 24 true w_log 1 ∅
    (arrivals_of 258 w_datagrams [2; 0; 1]%nat [1000; 1000; 1100]) w_rx [] w_rx_ok) as [H _].
  destruct (H Ha) as (rx' & Hrun & Hrel). exists rx'. rewrite Hf in Hrel. rewrite Hd in Hrun.
  split; [|exact Hrel]. etransitivity; [exact Hrun|]. unfold w_log. reflexivity.
Defined.

Lemma get_msgs_takes_witness : ∃ msgs phy',
  nr_pnf_p7_get_msgs 0 0 0 0 5 3 (w_pnf 0 0 <| slot_buffer := replicate 30 (set_request UL_DCI w_body w_slot) |>) = Ok (msgs, phy') ∧
  msgs UL_DCI = Some w_body ∧ msgs DL_TTI = None.
Proof.
  destruct (get_msgs_takes 0 0 0 0 5 3 (w_pnf 0 0 <| slot_buffer := replicate 30 (set_request UL_DCI w_body w_slot) |>)
    (set_request UL_DCI w_body w_slot)) as (msgs & phy' & Heq & Hm & _); try done.
  exists msgs, phy'. split; [done|]. by rewrite !Hm.
Defined.

(** ** Beyond the conditions

    What the conditions of the theorems are there for. *)

(** A datagram that comes twice counts twice: the message seems complete, and from the segment
    that is missing NULL is read. *)
Lemma duplicate_is_undefined :
  pnf_run w_crc32 24 true w_log (arrivals_of 258 w_datagrams [0; 0; 2]%nat [1000; 1000; 1000]) (w_rx, []) = Undef.
Proof. by vm_compute. Qed.

(** The time is in seconds and microseconds, as a number in steps of 2 ^ 20: at the end of a
    second it jumps by 48577, and what is being received is thrown away, although here all the
    datagrams come within two microseconds. *)
Lemma second_boundary_drops : ∃ rx',
  pnf_run w_crc32 24 true w_log
    (arrivals_of 258 w_datagrams [0; 1; 2]%nat [TIME2TIMEHR 7 999999; TIME2TIMEHR 8 0; TIME2TIMEHR 8 1]) (w_rx, []) = Ok (rx', []).
Proof. eexists. vm_compute. reflexivity. Qed.

(** At the VNF length and offset have sixteen bits: a message of 65536 octets or more is copied
    into a buffer that is too small. *)
Definition w_large (i : nat) : bytes :=
  header_octets (mk_nfapi_header 1 NFAPI_NR_PHY_MSG_TYPE_RX_DATA_INDICATION 20018
    (NFAPI_NR_P7_SET_MSS (if decide (i = 3%nat) then 0 else 1) (Z.of_nat i) 0) 0 0) ++ replicate (Z.to_nat 20000) 0.
Lemma vnf_overflow :
  vnf_run w_crc32 24 false w_log (arrivals_of 0 (w_large <$> [0; 1; 2; 3]%nat) [0; 1; 2; 3]%nat [0; 0; 0; 0]) ([(1, w_rx)], []) = Undef.
Proof. by vm_compute. Qed.

(** There are thirty buffers; for a subcarrier spacing of 60 kHz there are forty slots. *)
Definition w_request_in (slot : Z) : bytes :=
  match nfapi_nr_p7_message_pack (V := unit) (E := unit) None (mk_nfapi_message (nm_header w_m)
    (nfapi_fapi (p7_ul_dci_request (mk_ul_dci_request 5 slot 0 [])))) 100 with Ok (Some (o, _)) => o | _ => [] end.
Lemma slot_without_buffer :
  w_handle (w_request_in 31) 0 (w_pnf 2 0 <| pnf_slot := 29 |>) = Undef ∧
  nr_pnf_p7_get_msgs 0 0 0 0 5 31 (w_pnf 2 0) = Undef.
Proof. split; by vm_compute. Qed.

(** After the VNF has asked for a shift of two slots, the buffer that is looked at is that of the
    slot before the shift, and the requests for the slot that is looked for are in another. *)
Definition w_asked (shift slot : Z) : outcome (option (p7_body unit)) :=
  phy ← w_handle (w_request_in 3) 0 (w_pnf 0 shift);
  '(msgs, _) ← nr_pnf_p7_get_msgs 0 0 0 0 5 slot phy;
  Ok (msgs UL_DCI).
Lemma shift_misses : w_asked 0 3 = Ok (Some w_body) ∧ shifted_slot (w_pnf 0 2) 1 = 3 ∧ w_asked 2 1 = Ok None.
Proof. split_and!; vm_compute; reflexivity. Qed.
